(* ===== verification/_CoqProject ===== *)
-Q . S2P
Prelude.v
StateM.v
KText.v
KNum.v
Configs.v
ConfigsModule.v
ConfigsTree.v
ConfigsPath.v
ConfigsItems.v
ConfigsInv.v
ConfigsReach.v
ConfigsText.v
ConfigsSpec.v
Canvas.v
CanvasPool.v
CanvasPoolSpec.v
CanvasDriver.v
Tlv.v
TlvSpec.v
NormalKey.v
NormalKeySpec.v
SecurityKey.v
StorageKey.v
StorageKeySpec.v
Mmc.v
MmcSpec.v
EmmcKey.v
EmmcKeySpec.v
EmmcDtb.v
EmmcDtbSpec.v
Keeper.v
KeeperSpec.v
KeeperSteps.v
Unifykey.v
UnifykeySysfs.v
UnifykeySpec.v
Efuse.v
EfuseDriver.v
EfuseSpec.v
CodecMm.v
CodecMmLaws.v
CodecMmSpec.v
CodecMmPool.v
CodecMmKeep.v
Scatter.v
ScatterOps.v
ScatterBooks.v
ScatterSpec.v
ScatterKeep.v
GpioKeypad.v
GpioKeypadSpec.v
Ge2dReg.v
Ge2dStruct.v
Ge2dHw.v
Ge2dGen.v
Ge2dDma.v
Ge2dWq.v
Ge2dConfig.v
Ge2dBlt.v
Ge2dMain.v
Ge2dProgram.v
Ge2dCommand.v
Ge2dProcess.v
Ge2dClients.v
Ge2dInv.v
Ge2dSteps.v
Ge2dDmaSpec.v
Ge2dQueue.v
Ge2dSpec.v
