(* ===== verification/Prelude.v ===== *)
(** * Verification of the Amlogic A311D SoC support code

    The repository holds the kernel drivers of the SoC (src/a311d/soc/amlogic) and
    the HALs of its hardware (src/a311d/hardware).  This library models drivers
    with logic of their own, as executable definitions that follow the C code
    function by function under its names, and proves what makes them correct.

    ** Conventions

    A w-bit integer is a [Z] with its wrap-around written out ([u32], [s32], ...
    below).  A structure is a record, a table a list, memory a list of bytes.  An
    access outside an object, through a pointer to memory that is gone or through
    NULL is [None], which every caller passes on: a theorem that a call is
    [Some _] says that it runs without undefined behaviour.  An error number of the
    kernel is a negative result, as in the code.  A definition is one call, under
    the locks the code takes; where code runs outside its lock the model has a
    step for each part (canvas_mgr.c).  Drivers that thread much state are written
    in the state monad of [StateM], whose [runs] is the rule for a total triple;
    [KText] and [KNum] are the text functions of the kernel.  Code outside the repository (the kernel's
    allocators, clocks, MMC host, secure monitor, SHA-256) is a class or an
    argument; what is relied on is a class of laws, and a concrete instance is
    given with each so that the witnesses are computed.

    ** Parts and files

    Canvas table: [Canvas] (canvas/canvas.c), the descriptors of the image canvases
    and their mirror in the hardware table; [CanvasPool], [CanvasPoolSpec]
    (canvas_mgr.c), the manager that hands out indices; [CanvasDriver] joins the
    two from probe to remove.

    Keys: [Tlv] and [TlvSpec], the records of a key block; [NormalKey] and
    [NormalKeySpec] (unifykey/normal_key.c), the list of keys and its image in a
    block; [SecurityKey] (security_key.c), the messages to the firmware;
    [StorageKey], [StorageKeySpec] (storage_key.c), the layer that chooses between
    them over a registered storage; [Unifykey], [UnifykeySysfs], [UnifykeySpec]
    (unifykey.c, unifykey_dts.c), the key list of the device tree with the
    character device and the attributes over it; [Efuse], [EfuseDriver],
    [EfuseSpec] (efuse.c, efuse_api.c, efuse_burn.c, efuse_unifykey.c), the one-time
    memory.
    Interfaces: the key manager sees the stores as [AmlkeyIf] and the fuses as
    [EfuseIf]; [StorageKey] and [Efuse] are instances.  The storage layer sees a
    storage as a class with laws that the eMMC key area discharges.

    eMMC: [Mmc], [MmcSpec] (mmc/emmc_partitions.c), raw transfers and the partition
    table; [EmmcKey], [EmmcKeySpec] (emmc_key.c), two checksummed copies of the key
    area; [EmmcDtb], [EmmcDtbSpec] (emmc_partitions.c), two copies of the device
    tree.

    Decoder memory (media/common/codec_mm): [CodecMm] (codec_mm.c), the manager of
    contiguous buffers, [CodecMmLaws] (its allocators), [CodecMmSpec],
    [CodecMmPool]; [Scatter], [ScatterOps] (codec_mm_scatter.c), the managers of
    scattered pages above it, [ScatterBooks], [ScatterSpec]; [Keeper], [KeeperSpec]
    (codec_mm_keeper.c), which keeps the last picture of a closed decoder, and
    [KeeperSteps], its calls in pieces that run side by side;
    [CodecMmKeep] and [ScatterKeep] put the three files together.  The scatter
    managers are beside the kernel in the state of the manager below them, so
    that a call of either acts on one state; the keeper sees both through
    [KeepMem].

    Configuration tree (media/common/codec_mm/configs): [Configs] (configs.c), the
    tree of nodes with items over the variables of the drivers, as a heap of nodes
    with their lists, parents and reference counters; [ConfigsModule]
    (configs_module.c), its devices and attributes.  [ConfigsTree] has what makes a
    tree well formed and the walks over it, [ConfigsPath] the lookup of a path,
    [ConfigsItems] the values and their text, [ConfigsInv] the operations that
    keep it, [ConfigsReach] the system of all operations, [ConfigsText] the text of
    numbers, [ConfigsSpec] the theorems.

    Input: [GpioKeypad], [GpioKeypadSpec] (input/keyboard/gpio_keypad.c).

    2D engine (ge2d): [Ge2dReg] (ge2d_io.h, ge2d_reg.h), the access to the registers
    and, for lists of accesses, which bit the last of them leaves; [Ge2dStruct]
    (ge2d.h), the structures and filter tables; [Ge2dHw] (ge2d_hw.c), what each part
    of a configuration and a command write; [Ge2dGen] (ge2dgen.c), the setters of a
    context; [Ge2dDma] (ge2d_dmabuf.c), buffers in a table, exported and imported as
    files; [Ge2dWq] (ge2d_wq.c), the contexts with their two lists of items, the
    monitor, clock and power; [Ge2dConfig] (the second half of ge2d_wq.c), the
    requests; [Ge2dBlt] (bitblt.c, stretchblt.c, fillrect.c, blend.c), the
    operations; [Ge2dMain] (ge2d_main.c), the device file, probe and remove.
    A caller fills the configuration of its context ([ge2d_ioctl] with a request) and
    adds commands to it ([GE2D_OP]); [monitor_turn] takes the contexts in turn,
    programs what changed, starts the engine and waits for it.  [Ge2dProgram] and
    [Ge2dCommand] have what the registers hold after a configuration and a command,
    [Ge2dProcess] one context served, [Ge2dClients] what a call may touch,
    [Ge2dInv] the invariant of the manager and each call, [Ge2dSteps] the monitor in
    pieces ([monitor_step]) of which a turn is made, [Ge2dQueue] the order of the list
    of contexts, [Ge2dSpec] the system of all calls and pieces with the theorems and a machine on which they are computed,
    [Ge2dDmaSpec] the table of buffers.  The engine is [GeBus], [GeTime] and
    [GePower] (registers, time that passes, clock and power), the kernel
    [DmaKernel], the ION heap [Ion].  CONFIG_GE2D_SRC2, CONFIG_GE2D_ADV_NUM and
    GE2D_POWER_DOMAIN_CTRL are set by ge2d.h; the secure build is an argument.

    ** What is shown

    - Keys survive: a key of the normal store with read permission and no attribute
      that the character device accepted is read back byte for byte after a restart
      from the same storage ([unifykey_survives_restart] on
      [normal_key_persists] on [emmc_key_persists]); a key of the fuses reads back
      through the key manager ([unifykey_fuse_roundtrip]), where the code finds no
      colon up to the first zero, which it looks for behind the key as well.  The records and blocks
      are encoded and decoded without loss; each half of a write leaves the other
      copy of the key area alone; permissions bind the character device.
    - Memory is accounted for: in every state the three files of the decoder memory
      reach, the counters are the sums over the buffers and the memory held from
      the kernel is that of the buffers ([decoder_memory_balanced]); pages of slots
      and caches go out and come back; what the keeper masks outlives its owner, and
      however its calls interleave, the references it was granted are one for each
      entry of its list and each call on its way ([keeper_interleaved_inv]).
    - Canvases are exclusive: no interleaving of allocations and releases gives a
      canvas to two holders ([alloc_concurrent_exclusive]); the pool stays well
      formed and the hardware table follows it.
    - The configuration tree stays well formed whatever is done with it, its
      listings stay in their buffer but for one byte, a number that a device sets in
      the form it prints reads back; and which references its calls lose is stated exactly.
    - The keypad is the debounce machine of each of its buttons.
    - Commands for the 2D engine are served: in every state that the calls and the
      pieces of the monitor reach in any order ([ge2d_step]), a turn of the monitor is
      due while a context has work, and ends with each waiting command started once,
      in the order of its context, with the registers as its caller configured them
      ([ge2d_work_served]); with calls inside the turn each piece still does one such
      command, or none ([ge2d_monitor_progress]); the first context with work is the one
      served, it goes behind all the others, and none is taken twice before one that
      waited behind it ([ge2d_monitor_fair]); items are neither lost nor shared
      ([ge2d_items_conserved]), and go with their context ([ge2d_release_frees]).
      A command is one piece, and so are the choice of a context with the first look
      at it and the decision to sleep; a context that is being served is freed when
      its service is over.  What happens otherwise is shown ([freed_while_served],
      [freed_while_chosen]).  Commands whose windows have no size and imported buffers
      are outside the assumption on commands ([item_ok]), as both run into faults of
      the code that are shown; so are requests that the code refuses half-way, plain
      requests on other chips than AXG and a context at the address of the last one
      served ([ge2d_step]).  A buffer that is given back returns all the memory it took
      ([ge2d_buffer_roundtrip]).
    - What the code does otherwise than it means to is proved as well, and listed
      with the source lines among the findings of the manifest.

    ** Bounds and fuel

    Loops over a known number of turns recurse on it.  The others have fuel, and
    enough of it: [alloc_fuel] 2 for the two rounds of the canvas search; 256 turns
    for ranges of canvases (all but the range that ends at 255, which is shown not
    to end); [tlv_fuel], a turn for every eight bytes, as each turn takes a tag and
    a length; [DEPTH] 3 for the release of a buffer that ends a pool, whose slots
    are buffers that end none; 11 turns of the pool allocation, each of which
    takes a slot or ends; [SYS_TRIES] 33 halvings of a 32-bit size
    ([slot_from_sys_returns]); 1001 turns of the forced clearing, the bound of the
    code; for pages from slots and for the pages of a scatter, a turn for each
    page and each free slot, as each turn takes a page or uses up a slot or a
    source; [WALK] 10 for a way up the configuration tree, which is at most 8 deep,
    and a turn for each character of a path; for the 2D engine, [engine_bound], the
    most time the engine takes for a command, in its waits ([patient]), 32 items of a
    context and one turn more than the contexts with work ([enough]).  Running out of fuel is [None], never a result.

    ** Not modelled

    Dumps and self tests of the decoder memory and of the configuration tree (they
    print); the callbacks of configuration items, which are a class; the device-tree and
    trigger glue of codec_mm.c, cache maintenance, spin locks and processor
    pinning; the character-device registration of emmc_partitions.c and its
    display files; secmem.c, which passes calls to the trusted OS; register
    programming (the MIPI PHYs, es7243.c and the UART); the log level, the dump of a
    command and the class and character device of ge2d;
    the SoC glue of iomap, secmon, reboot and pm; the display HAL over closed
    libraries and the sample players.

    ** Plan

    In order: the ownership of every page of the scatter managers as one invariant
    over slots, caches and pages on their way; calls of the 2D engine while a command
    runs, with imported buffers; the reserved memory glue of codec_mm.c; the
    serial driver. *)

From stdpp Require Import base numbers list option strings.
From Stdlib Require Import ZArith Lia Bool.

Global Open Scope Z_scope.
Global Set Default Goal Selector "!".

(** ** Machine integers: a [w]-bit C integer is a [Z] with its wrap-around. *)

Definition u8 (x : Z) : Z := x mod 2 ^ 8.
Definition u16 (x : Z) : Z := x mod 2 ^ 16.
Definition u32 (x : Z) : Z := x mod 2 ^ 32.
Definition u64 (x : Z) : Z := x mod 2 ^ 64.

(** Conversion to a signed 32-bit [int] (two's complement). *)
Definition s32 (x : Z) : Z := (x + 2 ^ 31) mod 2 ^ 32 - 2 ^ 31.

(** Conversion to a signed 64-bit [long]. *)
Definition s64 (x : Z) : Z := (x + 2 ^ 63) mod 2 ^ 64 - 2 ^ 63.

Definition in_u32 (x : Z) : Prop := 0 <= x < 2 ^ 32.
Definition in_u64 (x : Z) : Prop := 0 <= x < 2 ^ 64.

(** Error numbers of the kernel, as the source returns them. *)
Definition EPERM : Z := 1.
Definition ENOENT : Z := 2.
Definition ENOMEM : Z := 12.
Definition EFAULT : Z := 14.
Definition EBUSY : Z := 16.
Definition ENODEV : Z := 19.
Definition EINVAL : Z := 22.
Definition ENOTTY : Z := 25.
Definition ERANGE : Z := 34.
Definition EOPNOTSUPP : Z := 95.

(** The page of the kernel. *)
Definition PAGE_SIZE : Z := 4096.

(** C truth values. *)
Definition c_true (x : Z) : bool := negb (x =? 0).

(** ** Bit fields *)

(** [bitfield x lo n]: bits [lo .. lo+n-1] of [x]. *)
Definition bitfield (x lo n : Z) : Z := Z.land (Z.shiftr x lo) (Z.ones n).

(** ** Byte buffers and arrays

    An access outside the object is undefined behaviour in C: the access
    functions return [None] there, and [None] propagates. *)

Abbreviation bytes := (list Z).
Abbreviation zlen l := (Z.of_nat (length l)).

(** [arr[i]] *)
Definition aget {A} (l : list A) (i : Z) : option A :=
  if 0 <=? i then l !! Z.to_nat i else None.

(** [arr[i] = x] *)
Definition aset {A} (l : list A) (i : Z) (x : A) : option (list A) :=
  if (0 <=? i) && (i <? Z.of_nat (length l)) then Some (<[Z.to_nat i := x]> l)
  else None.

(** [memcpy (dst, buf + off, n)]: the [n] bytes at [off]. *)
Definition bget (buf : bytes) (off n : Z) : option bytes :=
  if (0 <=? off) && (0 <=? n) && (off + n <=? Z.of_nat (length buf))
  then Some (take (Z.to_nat n) (drop (Z.to_nat off) buf)) else None.

(** [buf] with [src] in the place of its bytes at [off]. *)
Definition splice (buf : bytes) (off : Z) (src : bytes) : bytes :=
  take (Z.to_nat off) buf ++ src ++ drop (Z.to_nat off + length src) buf.

(** [memcpy (buf + off, src, sizeof src)] *)
Definition bput (buf : bytes) (off : Z) (src : bytes) : option bytes :=
  if (0 <=? off) && (off + Z.of_nat (length src) <=? Z.of_nat (length buf))
  then Some (splice buf off src) else None.

(** [memset (_, b, n)] as the bytes it writes. *)
Definition fill (b n : Z) : bytes := replicate (Z.to_nat n) b.

(** Little-endian integers in memory (the SoC is little endian). *)
Fixpoint le_split (n : nat) (v : Z) : bytes :=
  match n with
  | O => []
  | S n => (v mod 256) :: le_split n (v / 256)
  end.

Fixpoint le_join (bs : bytes) : Z :=
  match bs with
  | [] => 0
  | b :: bs => b + 256 * le_join bs
  end.

(** [*(u32 * )(buf + off)], read and written. *)
Definition get_u32 (buf : bytes) (off : Z) : option Z :=
  bs ← bget buf off 4; Some (le_join bs).

Definition put_u32 (buf : bytes) (off v : Z) : option bytes :=
  bput buf off (le_split 4 v).

(** ** Loops

    [loop fuel body s] runs [body] until it yields a result; [None] means
    that the fuel ran out, never a result of the loop. *)

Fixpoint loop {S R} (fuel : nat) (body : S -> S + R) (s : S) : option R :=
  match fuel with
  | O => None
  | Datatypes.S fuel =>
      match body s with
      | inl s' => loop fuel body s'
      | inr r => Some r
      end
  end.

(** ** Tactics of the development *)

(** Case analysis on the innermost test or match of the goal. *)
Ltac case_goal :=
  match goal with
  | |- context [match ?x with _ => _ end] =>
      lazymatch x with
      | context [match _ with _ => _ end] => fail
      | _ => let E := fresh "E" in destruct x eqn:E
      end
  end.

(** The same in a hypothesis. *)
Ltac case_hyp H :=
  match type of H with
  | context [match ?x with _ => _ end] =>
      lazymatch x with
      | context [match _ with _ => _ end] => fail
      | _ => let E := fresh "E" in destruct x eqn:E
      end
  end.

(** Boolean comparisons of the code turned into the facts they decide. *)
Ltac b2p :=
  repeat match goal with
  | H : (_ =? _) = true |- _ => apply Z.eqb_eq in H
  | H : (_ =? _) = false |- _ => apply Z.eqb_neq in H
  | H : (_ <? _) = true |- _ => apply Z.ltb_lt in H
  | H : (_ <? _) = false |- _ => apply Z.ltb_ge in H
  | H : (_ <=? _) = true |- _ => apply Z.leb_le in H
  | H : (_ <=? _) = false |- _ => apply Z.leb_gt in H
  | H : (_ && _) = true |- _ => apply andb_true_iff in H as [? ?]
  | H : (_ || _) = false |- _ => apply orb_false_iff in H as [? ?]
  | H : negb _ = true |- _ => apply negb_true_iff in H
  | H : negb _ = false |- _ => apply negb_false_iff in H
  | H : bool_decide _ = true |- _ => apply bool_decide_eq_true in H
  | H : bool_decide _ = false |- _ => apply bool_decide_eq_false in H
  end.

(** Boolean goals of the same shape. *)
Ltac bsolve :=
  repeat match goal with
  | |- (_ =? _) = true => apply Z.eqb_eq
  | |- (_ =? _) = false => apply Z.eqb_neq
  | |- (_ <? _) = true => apply Z.ltb_lt
  | |- (_ <? _) = false => apply Z.ltb_ge
  | |- (_ <=? _) = true => apply Z.leb_le
  | |- (_ <=? _) = false => apply Z.leb_gt
  | |- (_ && _) = true => apply andb_true_iff; split
  | |- negb _ = true => apply negb_true_iff
  | |- negb _ = false => apply negb_false_iff
  end; try lia.

(** Equations between results of the error monad. *)
Ltac inv_some :=
  repeat match goal with
  | H : Some _ = Some _ |- _ => injection H as H; subst
  | H : None = Some _ |- _ => discriminate H
  | H : Some _ = None |- _ => discriminate H
  | H : (_, _) = (_, _) |- _ => injection H as H; subst
  | H : inl _ = inr _ |- _ => discriminate H
  | H : inr _ = inl _ |- _ => discriminate H
  | H : inl _ = inl _ |- _ => injection H as H; subst
  | H : inr _ = inr _ |- _ => injection H as H; subst
  end.

(** ** Machine integers *)

Lemma u8_range x : 0 <= u8 x < 256.
Proof. apply Z.mod_pos_bound; lia. Qed.
Lemma u32_range x : 0 <= u32 x < 2 ^ 32.
Proof. apply Z.mod_pos_bound; lia. Qed.
Lemma u64_range x : 0 <= u64 x < 2 ^ 64.
Proof. apply Z.mod_pos_bound; lia. Qed.
Lemma s32_range x : - 2 ^ 31 <= s32 x < 2 ^ 31.
Proof. unfold s32. pose proof (Z.mod_pos_bound (x + 2 ^ 31) (2 ^ 32)). lia. Qed.

Lemma u8_small x : 0 <= x < 256 -> u8 x = x.
Proof. intros. apply Z.mod_small. lia. Qed.
Lemma u32_small x : 0 <= x < 2 ^ 32 -> u32 x = x.
Proof. intros. apply Z.mod_small. lia. Qed.
Lemma u64_small x : 0 <= x < 2 ^ 64 -> u64 x = x.
Proof. intros. apply Z.mod_small. lia. Qed.
Lemma s32_small x : - 2 ^ 31 <= x < 2 ^ 31 -> s32 x = x.
Proof. intros. unfold s32. rewrite Z.mod_small; lia. Qed.

Lemma s64_small x : - 2 ^ 63 <= x < 2 ^ 63 -> s64 x = x.
Proof. intros ?. unfold s64. rewrite Z.mod_small by lia. lia. Qed.

(** Sums that wrap at every step wrap once. *)
Lemma s32_add x y : s32 (s32 x + y) = s32 (x + y).
Proof.
  unfold s32. replace ((x + 2 ^ 31) mod 2 ^ 32 - 2 ^ 31 + y + 2 ^ 31) with ((x + 2 ^ 31) mod 2 ^ 32 + y) by lia.
  rewrite Zplus_mod_idemp_l. f_equal. f_equal. lia.
Qed.

Create HintDb soc.
#[export] Hint Resolve u8_range u32_range u64_range s32_range : soc.
Create Rewrite HintDb cint.
#[export] Hint Rewrite u8_small u32_small u64_small s32_small using lia : cint.

(** ** Bit fields *)

Create Rewrite HintDb bits.

Lemma bitfield_lor a b lo n :
  bitfield (Z.lor a b) lo n = Z.lor (bitfield a lo n) (bitfield b lo n).
Proof. unfold bitfield. rewrite Z.shiftr_lor. apply Z.land_lor_distr_l. Qed.

Lemma bitfield_spec x lo n i :
  0 <= lo -> 0 <= n -> 0 <= i ->
  Z.testbit (bitfield x lo n) i = (i <? n) && Z.testbit x (i + lo).
Proof.
  intros. unfold bitfield. rewrite Z.land_spec, Z.shiftr_spec by lia.
  destruct (Z.ltb_spec i n).
  - rewrite Z.ones_spec_low by lia. by rewrite andb_true_r.
  - rewrite Z.ones_spec_high by lia. by rewrite andb_false_r.
Qed.

Lemma bitfield_mod x lo n :
  0 <= lo -> 0 <= n -> bitfield x lo n = (x / 2 ^ lo) mod 2 ^ n.
Proof.
  intros. unfold bitfield. rewrite Z.land_ones by lia.
  by rewrite Z.shiftr_div_pow2 by lia.
Qed.

Lemma testbit_above n p i : 0 <= n < 2 ^ p -> p <= i -> Z.testbit n i = false.
Proof.
  intros Hn Hi. destruct (Z.lt_ge_cases p 0) as [Hp|Hp].
  - rewrite Z.pow_neg_r in Hn by lia. lia.
  - rewrite <- (Z.mod_small n (2 ^ p)) by lia. apply Z.mod_pow2_bits_high. lia.
Qed.

(** A value shifted to its own field is read back, and contributes nothing to
    a field it does not meet. *)
Lemma bitfield_shiftl_same v lo n :
  0 <= lo -> 0 <= n -> 0 <= v < 2 ^ n -> bitfield (Z.shiftl v lo) lo n = v.
Proof.
  intros. rewrite bitfield_mod, Z.shiftl_mul_pow2 by lia.
  rewrite Z.div_mul by (apply Z.pow_nonzero; lia). by apply Z.mod_small.
Qed.

Lemma bitfield_shiftl_below v k m lo n :
  0 <= k -> 0 <= m -> 0 <= v < 2 ^ m -> k + m <= lo -> 0 <= n ->
  bitfield (Z.shiftl v k) lo n = 0.
Proof.
  intros. apply Z.bits_inj'. intros i Hi. rewrite bitfield_spec by lia.
  rewrite Z.shiftl_spec by lia.
  rewrite (testbit_above v m) by lia. by rewrite andb_false_r, Z.bits_0.
Qed.

Lemma bitfield_shiftl_above v k lo n :
  0 <= lo -> 0 <= n -> lo + n <= k -> bitfield (Z.shiftl v k) lo n = 0.
Proof.
  intros. apply Z.bits_inj'. intros i Hi. rewrite bitfield_spec by lia.
  rewrite Z.bits_0. destruct (Z.ltb_spec i n); [|done].
  by rewrite Z.shiftl_spec_low by lia.
Qed.

Lemma bitfield_range x lo n : 0 <= lo -> 0 <= n -> 0 <= bitfield x lo n < 2 ^ n.
Proof. intros. rewrite bitfield_mod by lia. apply Z.mod_pos_bound. lia. Qed.

Lemma lor_range a b n : 0 <= n ->
  0 <= a < 2 ^ n -> 0 <= b < 2 ^ n -> 0 <= Z.lor a b < 2 ^ n.
Proof.
  intros Hn Ha Hb.
  assert (Z.lor a b = Z.lor a b mod 2 ^ n) as ->; [|apply Z.mod_pos_bound; lia].
  rewrite <- !Z.land_ones by lia. rewrite Z.land_lor_distr_l.
  rewrite !Z.land_ones by lia. rewrite !Z.mod_small by lia. done.
Qed.

Lemma land_mask_range x n : 0 <= n -> 0 <= Z.land x (Z.ones n) < 2 ^ n.
Proof. intros. rewrite Z.land_ones by lia. apply Z.mod_pos_bound. lia. Qed.

(** Fields that do not meet add up. *)
Lemma lor_add a b n :
  0 <= n -> 0 <= a < 2 ^ n -> Z.lor a (Z.shiftl b n) = a + b * 2 ^ n.
Proof.
  intros Hn Ha. rewrite <- Z.shiftl_mul_pow2 by lia.
  rewrite Z.add_nocarry_lor; [done|]. apply Z.bits_inj'. intros i Hi.
  rewrite Z.land_spec, Z.bits_0, Z.shiftl_spec by lia.
  destruct (Z.lt_ge_cases i n).
  - rewrite (Z.testbit_neg_r b) by lia. apply andb_false_r.
  - by rewrite (testbit_above a n) by lia.
Qed.

(** ** Arrays *)

Lemma aget_lookup {A} (l : list A) i : 0 <= i -> aget l i = l !! Z.to_nat i.
Proof. intros. unfold aget. by rewrite (proj2 (Z.leb_le 0 i)). Qed.

Lemma aget_Some {A} (l : list A) i x :
  aget l i = Some x -> 0 <= i < Z.of_nat (length l).
Proof.
  unfold aget. case_goal; [|done]. intros H%lookup_lt_Some. b2p. lia.
Qed.

Lemma aget_is_Some {A} (l : list A) i :
  0 <= i < Z.of_nat (length l) -> exists x, aget l i = Some x.
Proof.
  intros. rewrite aget_lookup by lia.
  destruct (lookup_lt_is_Some_2 l (Z.to_nat i)) as [x Hx]; [lia|eauto].
Qed.

Lemma aset_in {A} (l : list A) i x :
  0 <= i < Z.of_nat (length l) -> aset l i x = Some (<[Z.to_nat i := x]> l).
Proof. intros. unfold aset. by rewrite (proj2 (Z.leb_le 0 i)), (proj2 (Z.ltb_lt i _)) by lia. Qed.

Lemma aset_Some {A} (l l' : list A) i x :
  aset l i x = Some l' ->
  0 <= i < Z.of_nat (length l) /\ l' = <[Z.to_nat i := x]> l.
Proof. unfold aset. case_goal; intros; inv_some. b2p. split; [lia|done]. Qed.

Lemma aset_length {A} (l l' : list A) i x : aset l i x = Some l' -> length l' = length l.
Proof. intros [_ ->]%aset_Some. apply length_insert. Qed.

Lemma aget_aset_eq {A} (l l' : list A) i x : aset l i x = Some l' -> aget l' i = Some x.
Proof.
  intros [? ->]%aset_Some. rewrite aget_lookup by lia.
  apply list_lookup_insert_eq. lia.
Qed.

Lemma aget_aset_ne {A} (l l' : list A) i j x :
  aset l i x = Some l' -> i <> j -> aget l' j = aget l j.
Proof.
  intros [? ->]%aset_Some Hne. unfold aget. case_goal; [|done]. b2p.
  apply list_lookup_insert_ne. lia.
Qed.

Lemma list_alter_Some {A} (f : A -> A) (l : list A) i x :
  l !! i = Some x -> alter f i l = <[i := f x]> l.
Proof.
  intros Hx. apply list_eq. intros j. rewrite list_lookup_alter, list_lookup_insert.
  pose proof (lookup_lt_Some _ _ _ Hx) as Hlt.
  destruct (decide (i = j)) as [->|]; [|by rewrite decide_False by tauto].
  rewrite decide_True by done. by rewrite Hx.
Qed.

(** A list that agrees with an updated one up to the update. *)
Lemma take_S_insert {A} (l l' : list A) i x :
  (i < length l)%nat -> take (S i) l' = take (S i) (<[i := x]> l) ->
  take i l' = take i l /\ l' !! i = Some x.
Proof.
  intros Hi Ht.
  assert (Hx : forall m, (m < S i)%nat -> l' !! m = <[i := x]> l !! m).
  { intros m Hm. rewrite <- (lookup_take_lt l' (S i)), Ht by done. by rewrite lookup_take_lt. }
  split.
  - apply list_eq. intros m. destruct (decide (m < i)%nat).
    + rewrite !lookup_take_lt by done. rewrite Hx by lia. apply list_lookup_insert_ne. lia.
    + rewrite !lookup_take_ge by lia. done.
  - rewrite Hx by lia. by apply list_lookup_insert_eq.
Qed.

(** ** Sums over lists *)

Definition lsum {A} (f : A -> Z) (l : list A) : Z := foldr (fun x n => f x + n) 0 l.

Lemma lsum_cons {A} (f : A -> Z) x l : lsum f (x :: l) = f x + lsum f l.
Proof. done. Qed.

Lemma lsum_app {A} (f : A -> Z) l k : lsum f (l ++ k) = lsum f l + lsum f k.
Proof. induction l as [|x l IH]; [done|]. rewrite <- app_comm_cons, !lsum_cons, IH. lia. Qed.

Lemma lsum_insert {A} (f : A -> Z) l i x y :
  l !! i = Some x -> lsum f (<[i := y]> l) = lsum f l - f x + f y.
Proof.
  revert i. induction l as [|z l IH]; intros [|i] H; try done.
  - injection H as ->. simpl insert. rewrite !lsum_cons. lia.
  - simpl insert. rewrite !lsum_cons, IH by done. lia.
Qed.

(** A sum of bits is between 0 and the length, and positive when one is set. *)
Lemma lsum_bits {A} (f : A -> Z) l :
  (forall x, 0 <= f x <= 1) -> 0 <= lsum f l <= zlen l.
Proof. intros Hf. induction l as [|x l IH]; [done|]. rewrite lsum_cons. specialize (Hf x). simpl length. lia. Qed.

Lemma lsum_member {A} (f : A -> Z) l i x :
  (forall x, 0 <= f x) -> l !! i = Some x -> f x <= lsum f l.
Proof.
  intros Hf. revert i. induction l as [|y l IH]; intros [|i] H; try done; rewrite lsum_cons.
  - injection H as ->. assert (0 <= lsum f l); [|lia].
    clear -Hf. induction l; [done|]. rewrite lsum_cons. specialize (Hf a). lia.
  - specialize (IH _ H). specialize (Hf y). lia.
Qed.

(** ** Byte buffers *)

Definition is_byte (b : Z) : Prop := 0 <= b < 256.

Lemma le_split_length n v : length (le_split n v) = n.
Proof. revert v. induction n; intros; simpl; [done|by rewrite IHn]. Qed.

Lemma le_split_bytes n v : Forall is_byte (le_split n v).
Proof.
  revert v. induction n; intros; simpl; constructor; auto.
  apply Z.mod_pos_bound. lia.
Qed.

Lemma le_join_split n v :
  0 <= v < 256 ^ Z.of_nat n -> le_join (le_split n v) = v.
Proof.
  revert v. induction n; intros v Hv.
  - simpl in *. lia.
  - rewrite Nat2Z.inj_succ, Z.pow_succ_r in Hv by lia. cbn [le_split le_join].
    rewrite IHn.
    + pose proof (Z.div_mod v 256). lia.
    + split; [apply Z.div_pos; lia|]. apply Z.div_lt_upper_bound; lia.
Qed.

Lemma le_join_range bs :
  Forall is_byte bs -> 0 <= le_join bs < 256 ^ Z.of_nat (length bs).
Proof.
  unfold is_byte. induction 1 as [|b bs Hb Hbs IH]; [simpl; lia|].
  cbn [le_join length]. rewrite Nat2Z.inj_succ, Z.pow_succ_r by lia. lia.
Qed.

Lemma le_split_join bs :
  Forall is_byte bs -> le_split (length bs) (le_join bs) = bs.
Proof.
  unfold is_byte. induction 1 as [|b bs Hb Hbs IH]; [done|].
  cbn [le_join length le_split]. f_equal.
  - rewrite (Z.mul_comm 256), Z.mod_add by lia. apply Z.mod_small. lia.
  - rewrite (Z.mul_comm 256), Z.div_add by lia.
    by rewrite (Z.div_small b) by lia.
Qed.

(** [buf] holds the bytes [bs] at offset [off]. *)
Definition holds_at (buf : bytes) (off : Z) (bs : bytes) : Prop :=
  0 <= off /\ off + zlen bs <= zlen buf /\ take (length bs) (drop (Z.to_nat off) buf) = bs.

Lemma bput_in buf off src :
  0 <= off -> off + zlen src <= zlen buf -> bput buf off src = Some (splice buf off src).
Proof. intros. unfold bput. by rewrite (proj2 (Z.leb_le 0 off)), (proj2 (Z.leb_le _ _)). Qed.

Lemma bput_out buf off src : zlen buf < off + zlen src -> bput buf off src = None.
Proof. intros. unfold bput. rewrite (proj2 (Z.leb_gt _ (zlen buf))) by lia. by rewrite andb_false_r. Qed.

Lemma bget_holds buf off bs : holds_at buf off bs -> bget buf off (zlen bs) = Some bs.
Proof.
  intros (H0 & H1 & H2). unfold bget.
  rewrite (proj2 (Z.leb_le 0 off)), (proj2 (Z.leb_le 0 _)), (proj2 (Z.leb_le (off + _) _)) by lia.
  simpl. by rewrite Nat2Z.id, H2.
Qed.

Lemma bget_Some buf off n bs :
  bget buf off n = Some bs -> holds_at buf off bs /\ zlen bs = n /\ 0 <= n.
Proof.
  unfold bget. case_goal; [|done]. intros [= <-]. b2p.
  assert (length (take (Z.to_nat n) (drop (Z.to_nat off) buf)) = Z.to_nat n) as Hl
    by (rewrite length_take, length_drop; lia).
  split; [|lia]. unfold holds_at. rewrite Hl. split_and!; (lia || done).
Qed.

Lemma splice_length buf off src :
  0 <= off -> off + zlen src <= zlen buf -> length (splice buf off src) = length buf.
Proof. intros. unfold splice. rewrite !length_app, length_take, length_drop. lia. Qed.

Lemma splice_nil buf off : splice buf off [] = buf.
Proof. unfold splice. simpl. by rewrite Nat.add_0_r, take_drop. Qed.

(** Reading a spliced buffer byte by byte. *)
Lemma lookup_splice buf off src i :
  0 <= off <= zlen buf ->
  splice buf off src !! i =
  if decide (i < Z.to_nat off)%nat then buf !! i
  else if decide (i < Z.to_nat off + length src)%nat then src !! (i - Z.to_nat off)%nat
  else buf !! i.
Proof.
  intros H. unfold splice.
  destruct (decide (i < Z.to_nat off)%nat).
  - rewrite lookup_app_l by (rewrite length_take; lia). by apply lookup_take_lt.
  - rewrite lookup_app_r by (rewrite length_take; lia). rewrite length_take.
    replace (Z.to_nat off `min` length buf)%nat with (Z.to_nat off) by lia.
    destruct (decide (i < Z.to_nat off + length src)%nat).
    + by rewrite lookup_app_l by lia.
    + rewrite lookup_app_r, lookup_drop by lia. f_equal. lia.
Qed.

Lemma lookup_holds_at buf off bs i :
  holds_at buf off bs -> (i < length bs)%nat -> buf !! (Z.to_nat off + i)%nat = bs !! i.
Proof.
  intros (H0 & H1 & H2) Hi. rewrite <- H2 at 1. by rewrite lookup_take_lt, lookup_drop.
Qed.

Lemma holds_at_lookup buf off bs :
  0 <= off -> off + zlen bs <= zlen buf ->
  (forall i, (i < length bs)%nat -> buf !! (Z.to_nat off + i)%nat = bs !! i) -> holds_at buf off bs.
Proof.
  intros H0 H1 H. split_and!; [done..|]. apply list_eq. intros i.
  destruct (decide (i < length bs)%nat).
  - rewrite lookup_take_lt, lookup_drop by done. by apply H.
  - rewrite lookup_take_ge, lookup_ge_None_2 by lia. done.
Qed.

Lemma lookup_app_dec (l k : bytes) i :
  (l ++ k) !! i = if decide (i < length l)%nat then l !! i else k !! (i - length l)%nat.
Proof. case_decide; [by apply lookup_app_l|by apply lookup_app_r; lia]. Qed.

Lemma fill_length b n : length (fill b n) = Z.to_nat n.
Proof. apply length_replicate. Qed.

(** Bounds on the lengths of buffers. *)
Ltac len_solve :=
  repeat rewrite splice_length by len_solve;
  rewrite ?length_app, ?length_take, ?length_drop, ?le_split_length, ?fill_length; lia.

(** Equality of buffers built by writes, byte by byte. *)
Ltac splice_ext :=
  apply list_eq; let i := fresh "i" in intros i;
  repeat (rewrite lookup_splice by len_solve);
  repeat rewrite lookup_app_dec; rewrite ?length_app;
  repeat case_decide; try lia; try done; try (f_equal; lia).

Lemma splice_app buf off s t :
  0 <= off -> off + zlen s <= zlen buf ->
  splice (splice buf off s) (off + zlen s) t = splice buf off (s ++ t).
Proof. intros H0 H1. splice_ext. Qed.

(** A write that stays inside an earlier one. *)
Lemma splice_inside buf off p x q y :
  0 <= off -> off + zlen (p ++ x ++ q) <= zlen buf -> length x = length y ->
  splice (splice buf off (p ++ x ++ q)) (off + zlen p) y = splice buf off (p ++ y ++ q).
Proof. intros H0 H1 Hxy. rewrite !length_app in H1. splice_ext. Qed.

(** Three consecutive writes, the middle one last. *)
Lemma splice_hole buf off a b c :
  0 <= off -> off + zlen a + zlen b + zlen c <= zlen buf ->
  splice (splice (splice buf off a) (off + zlen a + zlen b) c) (off + zlen a) b
  = splice buf off (a ++ b ++ c).
Proof. intros H0 H1. splice_ext. Qed.

(** A write leaves what is before and after it. *)
Lemma splice_take buf off src :
  0 <= off <= zlen buf -> take (Z.to_nat off) (splice buf off src) = take (Z.to_nat off) buf.
Proof. intros. unfold splice. rewrite take_app_le by len_solve. by rewrite take_take, Nat.min_id. Qed.

Lemma splice_drop buf off src :
  0 <= off -> off + zlen src <= zlen buf ->
  drop (Z.to_nat (off + zlen src)) (splice buf off src) = drop (Z.to_nat (off + zlen src)) buf.
Proof.
  intros. apply list_eq. intros i. rewrite !lookup_drop, lookup_splice by lia.
  repeat case_decide; (lia || done).
Qed.

Lemma splice_same buf off bs : holds_at buf off bs -> splice buf off bs = buf.
Proof.
  intros H. pose proof H as (H0 & H1 & _). splice_ext.
  rewrite <- (lookup_holds_at buf off bs) by (done || lia). f_equal. lia.
Qed.

Lemma holds_at_splice buf off bs :
  0 <= off -> off + zlen bs <= zlen buf -> holds_at (splice buf off bs) off bs.
Proof.
  intros H0 H1. apply holds_at_lookup; [done|by rewrite splice_length|].
  intros i Hi. rewrite lookup_splice by lia. repeat case_decide; try lia. f_equal. lia.
Qed.

(** A write elsewhere does not disturb what is held. *)
Lemma holds_at_splice_ne buf off bs o s :
  holds_at buf off bs -> 0 <= o -> o + zlen s <= zlen buf ->
  off + zlen bs <= o \/ o + zlen s <= off -> holds_at (splice buf o s) off bs.
Proof.
  intros H Ho Hs Hd. pose proof H as (H0 & H1 & _).
  apply holds_at_lookup; [done|by rewrite splice_length|].
  intros i Hi. rewrite lookup_splice by lia. rewrite <- (lookup_holds_at buf off bs) by done.
  repeat case_decide; (lia || done).
Qed.

Lemma holds_at_app buf off a b :
  holds_at buf off (a ++ b) <-> holds_at buf off a /\ holds_at buf (off + zlen a) b.
Proof.
  split.
  - intros H. pose proof H as (H0 & H1 & _). rewrite length_app in H1. split.
    + apply holds_at_lookup; [lia..|]. intros i Hi.
      rewrite (lookup_holds_at _ _ _ _ H) by (rewrite length_app; lia). by apply lookup_app_l.
    + apply holds_at_lookup; [lia..|]. intros i Hi.
      replace (Z.to_nat (off + zlen a) + i)%nat with (Z.to_nat off + (length a + i))%nat by lia.
      rewrite (lookup_holds_at _ _ _ _ H) by (rewrite length_app; lia).
      rewrite lookup_app_r by lia. f_equal. lia.
  - intros [Ha Hb]. pose proof Ha as (H0 & H1 & _). pose proof Hb as (H2 & H3 & _).
    apply holds_at_lookup; [lia|rewrite length_app; lia|]. intros i Hi. rewrite length_app in Hi.
    destruct (decide (i < length a)%nat).
    + rewrite lookup_app_l by done. by apply lookup_holds_at.
    + rewrite lookup_app_r by lia. rewrite <- (lookup_holds_at _ _ _ (i - length a) Hb) by lia.
      f_equal. lia.
Qed.

Lemma get_u32_holds buf off v :
  0 <= v < 2 ^ 32 -> holds_at buf off (le_split 4 v) -> get_u32 buf off = Some v.
Proof.
  intros Hv H. unfold get_u32. change 4 with (zlen (le_split 4 v)).
  rewrite bget_holds by done. cbn [mbind option_bind]. f_equal. apply le_join_split.
  change (256 ^ Z.of_nat 4) with (2 ^ 32). lia.
Qed.

(** Any prefix of what is held can be read. *)
Lemma bget_holds_prefix buf off bs n x :
  holds_at buf off bs -> bget bs 0 n = Some x -> bget buf off n = Some x.
Proof.
  intros H Hx. apply bget_Some in Hx as (Hx & Hn & H0).
  rewrite <- Hn. apply bget_holds. pose proof H as (Ho & Hl & _). pose proof Hx as (_ & Hl' & _).
  apply holds_at_lookup; [lia..|]. intros i Hi.
  rewrite (lookup_holds_at _ _ _ _ H) by lia.
  by rewrite <- (lookup_holds_at _ _ _ _ Hx) by lia.
Qed.

Lemma bget_take input n :
  0 <= n <= zlen input -> bget input 0 n = Some (take (Z.to_nat n) input).
Proof.
  intros. unfold bget. rewrite (proj2 (Z.leb_le 0 0)), (proj2 (Z.leb_le 0 n)), (proj2 (Z.leb_le (0 + n) _)) by lia.
  by rewrite drop_0.
Qed.

Lemma bget_inside buf off n :
  0 <= off -> 0 <= n -> off + n <= zlen buf ->
  bget buf off n = Some (take (Z.to_nat n) (drop (Z.to_nat off) buf)).
Proof.
  intros. unfold bget.
  by rewrite (proj2 (Z.leb_le 0 off)), (proj2 (Z.leb_le 0 n)), (proj2 (Z.leb_le (off + n) _)) by lia.
Qed.

(** Consecutive writes. *)
Lemma bput_app buf off o s t :
  0 <= off -> o = off + zlen s -> o + zlen t <= zlen buf ->
  bput (splice buf off s) o t = Some (splice buf off (s ++ t)).
Proof.
  intros H0 -> H1. rewrite bput_in by (rewrite ?splice_length; lia). by rewrite splice_app by lia.
Qed.

(** ** Fuelled loops *)

Lemma loop_mono {S R} (body : S -> S + R) n m s r :
  (n <= m)%nat -> loop n body s = Some r -> loop m body s = Some r.
Proof.
  revert m s. induction n as [|n IH]; intros m s Hle H; [done|].
  destruct m as [|m]; [lia|]. simpl in *. destruct (body s); [|done].
  apply IH; [lia|done].
Qed.

(** A loop whose state has a measure that every iteration decreases returns,
    with any fuel above the measure. *)
Lemma loop_terminates {S R} (body : S -> S + R) (I : S -> Prop) (m : S -> nat) :
  (forall s s', I s -> body s = inl s' -> I s' /\ (m s' < m s)%nat) ->
  forall fuel s, I s -> (m s < fuel)%nat -> exists r, loop fuel body s = Some r.
Proof.
  intros Hstep fuel. induction fuel as [|fuel IH]; intros s Hs Hm; [lia|].
  simpl. destruct (body s) as [s'|r] eqn:E; [|eauto].
  destruct (Hstep _ _ Hs E). apply IH; [done|lia].
Qed.

(** Partial correctness of a loop from an invariant of its state. *)
Lemma loop_invariant {S R} (body : S -> S + R) (I : S -> Prop) (Q : R -> Prop) :
  (forall s s', I s -> body s = inl s' -> I s') ->
  (forall s r, I s -> body s = inr r -> Q r) ->
  forall fuel s r, I s -> loop fuel body s = Some r -> Q r.
Proof.
  intros Hstep Hend fuel. induction fuel as [|fuel IH]; intros s r Hs H; [done|].
  simpl in H. destruct (body s) as [s'|r'] eqn:E.
  - eapply IH; [|exact H]. eauto.
  - injection H as <-. eauto.
Qed.

(** A loop that never yields a result runs out of any fuel. *)
Lemma loop_diverges {S R} (body : S -> S + R) (I : S -> Prop) :
  (forall s, I s -> exists s', body s = inl s' /\ I s') ->
  forall fuel s, I s -> loop fuel body s = None.
Proof.
  intros Hstep fuel. induction fuel as [|fuel IH]; intros s Hs; [done|].
  simpl. destruct (Hstep s Hs) as (s' & -> & Hs'). auto.
Qed.
