(* ===== verification/StateM.v ===== *)
(** * Computations on a state that may be undefined

    A call of the C code as a function of the state: [None] is undefined
    behaviour, which every caller passes on.  The laws of the monad are used
    through [run_bind] (forwards) and [run_bind_inv] (backwards). *)

From stdpp Require Import base numbers list option.
From S2P Require Import Prelude.

Section StateM.
Context {S : Type}.

Definition ST (A : Type) : Type := S -> option (A * S).
#[global] Instance ST_ret : MRet ST := fun A a s => Some (a, s).
#[global] Instance ST_bind : MBind ST := fun A B f m s => '(a, s) ← m s; f a s.

Definition undef {A} : ST A := fun _ => None.
Definition of_opt {A} (o : option A) : ST A := fun s => a ← o; Some (a, s).
Definition gets {A} (f : S -> A) : ST A := fun s => Some (f s, s).
Definition modify (f : S -> S) : ST unit := fun s => Some (tt, f s).
Definition when (b : bool) (m : ST unit) : ST unit := if b then m else mret tt.

Lemma run_bind {A B} (m : ST A) (f : A -> ST B) s a s1 : m s = Some (a, s1) -> (m ≫= f) s = f a s1.
Proof. intros H. unfold mbind, ST_bind. by rewrite H. Qed.
Lemma run_ret {A B} (a : A) (f : A -> ST B) s : (mret a ≫= f) s = f a s.
Proof. done. Qed.
Lemma run_gets {A B} (g : S -> A) (f : A -> ST B) s : (gets g ≫= f) s = f (g s) s.
Proof. done. Qed.
Lemma run_modify {B} (g : S -> S) (f : unit -> ST B) s : (modify g ≫= f) s = f tt (g s).
Proof. done. Qed.
Lemma run_of_opt {A B} (a : A) (f : A -> ST B) s : (of_opt (Some a) ≫= f) s = f a s.
Proof. done. Qed.
Lemma bind_assoc {A B C} (m : ST A) (f : A -> ST B) (g : B -> ST C) s : ((m ≫= f) ≫= g) s = (m ≫= (fun a => f a ≫= g)) s.
Proof. unfold mbind, ST_bind. destruct (m s) as [[a s1]|]; done. Qed.
Lemma run_bind_inv {A B} (m : ST A) (f : A -> ST B) s b s' :
  (m ≫= f) s = Some (b, s') -> exists a s1, m s = Some (a, s1) /\ f a s1 = Some (b, s').
Proof. unfold mbind, ST_bind. destruct (m s) as [[a s1]|]; [|done]. cbn. intros H. by exists a, s1. Qed.
Lemma of_opt_inv {A} (o : option A) s a s' : of_opt o s = Some (a, s') -> o = Some a /\ s' = s.
Proof. unfold of_opt. destruct o; [|done]. cbn. by intros [= -> ->]. Qed.

(** [runs m Q s]: the computation is defined in [s], and ends in [Q]. *)
Definition runs {A} (m : ST A) (Q : A -> S -> Prop) (s : S) : Prop := exists a s', m s = Some (a, s') /\ Q a s'.

Lemma runs_ret {A} (a : A) (Q : A -> S -> Prop) s : Q a s -> runs (mret a) Q s.
Proof. intros HQ. by exists a, s. Qed.
Lemma runs_bind {A B} (m : ST A) (f : A -> ST B) (Q : B -> S -> Prop) s :
  runs m (fun a s1 => runs (f a) Q s1) s -> runs (m ≫= f) Q s.
Proof. intros (a & s1 & Hm & b & s2 & Hf & HQ). exists b, s2. by rewrite (run_bind _ _ _ _ _ Hm). Qed.
Lemma runs_mono {A} (m : ST A) (P Q : A -> S -> Prop) s : runs m P s -> (forall a s', P a s' -> Q a s') -> runs m Q s.
Proof. intros (a & s' & Hm & HP) HPQ. exists a, s'. auto. Qed.
Lemma runs_gets {A} (f : S -> A) (Q : A -> S -> Prop) s : Q (f s) s -> runs (gets f) Q s.
Proof. intros HQ. by exists (f s), s. Qed.
Lemma runs_modify (f : S -> S) (Q : unit -> S -> Prop) s : Q tt (f s) -> runs (modify f) Q s.
Proof. intros HQ. by exists tt, (f s). Qed.
Lemma runs_of_opt {A} (o : option A) (Q : A -> S -> Prop) s a : o = Some a -> Q a s -> runs (of_opt o) Q s.
Proof. intros -> HQ. by exists a, s. Qed.
Lemma runs_when b (m : ST unit) (Q : unit -> S -> Prop) s : (b = true -> runs m Q s) -> (b = false -> Q tt s) -> runs (when b m) Q s.
Proof. destruct b; [auto|]. intros _ HQ. by apply runs_ret, HQ. Qed.
Lemma runs_eq {A} (m : ST A) (Q : A -> S -> Prop) s a s' : m s = Some (a, s') -> Q a s' -> runs m Q s.
Proof. intros Hm HQ. by exists a, s'. Qed.
End StateM.

(** One step of a computation: a bind whose first part is settled by [tac]. *)
Tactic Notation "runs_by" uconstr(H) := apply runs_bind; eapply runs_mono; [eapply H|].

(** The first step of a computation in a hypothesis. *)
Tactic Notation "bind_inv" hyp(H) "as" ident(x) ident(s) ident(Hx) := apply run_bind_inv in H as (x & s & Hx & H).
