(* ===== verification/KText.v ===== *)
(** * Text functions of the kernel

    The string and number functions of the C library of the kernel that several
    drivers call: zero-terminated strings, formatted output ([sprintf]) into the
    page of a sysfs attribute, and the parsers behind [sscanf] and [kstrtou8].
    A string is a list of characters without its terminating zero. *)

From stdpp Require Import base numbers list option strings pretty.
From S2P Require Import Prelude.

(** ** Strings *)

(** The bytes before the first zero of a [char] array. *)
Fixpoint c_str (l : bytes) : bytes :=
  match l with
  | [] => []
  | x :: l => if x =? 0 then [] else x :: c_str l
  end.

(** The string that starts at offset [s] of a memory area; [None] when the area
    ends before the terminating zero. *)
Fixpoint until_zero (l : bytes) : option bytes :=
  match l with
  | [] => None
  | x :: l => if x =? 0 then Some [] else (fun t => x :: t) <$> until_zero l
  end.
Definition cstring_at (mem : bytes) (s : Z) : option bytes :=
  if s <? 0 then None else until_zero (drop (Z.to_nat s) mem).

(** ** Output *)

(** The characters of a literal or of a formatted number. *)
Definition str (s : string) : bytes := (fun c => Z.of_nat (Ascii.nat_of_ascii c)) <$> String.list_ascii_of_string s.
Definition newline : Z := 10.

(** [%02d] *)
Definition fmt_02d (n : Z) : bytes :=
  if (0 <=? n) && (n <? 10) then str "0" ++ str (pretty n) else str (pretty n).

(** [%x] of a 32-bit value. *)
Definition hex_digit (d : Z) : Z := if d <? 10 then 48 + d else 87 + d.
Fixpoint fmt_x_from (n : nat) (x : Z) : bytes :=
  match n with
  | O => []
  | S n => (if x / 16 =? 0 then [] else fmt_x_from n (x / 16)) ++ [hex_digit (x mod 16)]
  end.
Definition fmt_x (x : Z) : bytes := fmt_x_from 8 (u32 x).

(** [%02x] *)
Definition fmt_02x (x : Z) : bytes :=
  let t := fmt_x x in if (length t <? 2)%nat then 48 :: t else t.

(** A page with [text] and a zero in it, and the length returned. *)
Definition sysfs_emit (text : bytes) : option (Z * bytes) :=
  if zlen text + 1 <=? PAGE_SIZE then Some (zlen text, text) else None.

(** ** Input *)

Definition isspace (c : Z) : bool := (c =? 32) || ((9 <=? c) && (c <=? 13)) || (c =? 160).

(** The value of a hexadecimal digit. *)
Definition xdigit (c : Z) : option Z :=
  if (48 <=? c) && (c <=? 57) then Some (c - 48)
  else if (97 <=? c) && (c <=? 102) then Some (c - 87)
  else if (65 <=? c) && (c <=? 70) then Some (c - 55)
  else None.

Fixpoint skip_spaces (t : bytes) : bytes :=
  match t with
  | c :: r => if isspace c then skip_spaces r else t
  | [] => []
  end.

(** [_parse_integer_fixup_radix] for base 16 *)
Definition skip_0x (t : bytes) : bytes :=
  match t with
  | 48 :: c :: r => if (c =? 120) || (c =? 88) then r else t
  | _ => t
  end.

(** [_parse_integer] for base 16: the value, how many digits, and the rest. *)
Fixpoint parse_hex (acc : Z) (n : nat) (t : bytes) : Z * nat * bytes :=
  match t with
  | c :: r => match xdigit c with Some d => parse_hex (acc * 16 + d) (S n) r | None => (acc, n, t) end
  | [] => (acc, n, [])
  end.

(** [sscanf (t, "%x", &v)]: [None] when nothing was converted.  The 64-bit
    result of [simple_strtoul] is stored as an [unsigned int]. *)
Definition scan_x (t : bytes) : option Z :=
  let t := skip_spaces t in
  match t with
  | c :: _ =>
      match xdigit c with
      | Some _ => Some (u32 (u64 (parse_hex 0 0 (skip_0x t)).1.1))
      | None => None
      end
  | [] => None
  end.

(** [kstrtou8 (t, 16, &v)]: the error, or the value. *)
Definition kstrtou8_16 (t : bytes) : Z + Z :=
  let t := match t with 43 :: r => r | _ => t end in
  let '(v, n, r) := parse_hex 0 0 (skip_0x t) in
  if 2 ^ 64 <=? v then inl (- ERANGE)
  else if (n =? 0)%nat then inl (- EINVAL)
  else
    let r := match r with 10 :: r => r | _ => r end in
    match r with
    | _ :: _ => inl (- EINVAL)
    | [] => if 256 <=? v then inl (- ERANGE) else inr v
    end.

(** A string followed by its terminator. *)
Lemma until_zero_app t r : Forall (fun c => c <> 0) t -> until_zero (t ++ 0 :: r) = Some t.
Proof.
  induction 1 as [|c t Hc _ IH]; [done|]. cbn [app until_zero]. rewrite (proj2 (Z.eqb_neq c 0)) by done. by rewrite IH.
Qed.
