(* ===== verification/KNum.v ===== *)
(** * Numbers and buffers of text in the kernel

    What the configuration tree of the decoders takes from lib/kstrtox.c and
    lib/vsprintf.c: [kstrtou32] and [kstrtou64] with base 0, the conversions of
    [sscanf] with and without sign, formatted numbers, and [snprintf] into a part
    of a buffer.  A number that was formatted is parsed back. *)

From stdpp Require Import base numbers list option strings sets.
From S2P Require Import Prelude KText.

(** ** Searching *)

(** [strchr (t, c)] as the offset. *)
Fixpoint strchr (t : bytes) (c : Z) : option nat :=
  match t with
  | [] => None
  | x :: r => if x =? c then Some O else S <$> strchr r c
  end.

(** [!strncmp (t, lit, strlen (lit))] *)
Fixpoint starts_with (lit t : bytes) : bool :=
  match lit, t with
  | [], _ => true
  | a :: lit, b :: t => (a =? b) && starts_with lit t
  | _ :: _, [] => false
  end.

(** [strstr (t, lit) != NULL] *)
Fixpoint strstr (t lit : bytes) : bool :=
  starts_with lit t || match t with [] => false | _ :: r => strstr r lit end.

(** The blanks that a [while] loop skips. *)
Fixpoint skip_blanks (t : bytes) : bytes :=
  match t with
  | 32 :: r => skip_blanks r
  | _ => t
  end.

(** ** Numbers read *)

(** [_parse_integer]: the value (unbounded), the number of digits, the rest. *)
Fixpoint parse_int (base acc : Z) (n : nat) (t : bytes) : Z * nat * bytes :=
  match t with
  | c :: r =>
      match xdigit c with
      | Some d => if d <? base then parse_int base (acc * base + d) (S n) r else (acc, n, t)
      | None => (acc, n, t)
      end
  | [] => (acc, n, [])
  end.

Definition is_x (c : Z) : bool := (c =? 120) || (c =? 88).

(** [_parse_integer_fixup_radix] with base 0: the base and where the digits start. *)
Definition fixup_radix (t : bytes) : Z * bytes :=
  match t with
  | 48 :: c :: d :: r =>
      if is_x c then match xdigit d with Some _ => (16, d :: r) | None => (8, t) end else (8, t)
  | 48 :: _ => (8, t)
  | _ => (10, t)
  end.

(** [kstrtoull (t, 0, &v)]: the error, or the value. *)
Definition kstrtoull0 (t : bytes) : Z + Z :=
  let t := match t with 43 :: r => r | _ => t end in
  let '(base, t) := fixup_radix t in
  let '(v, n, r) := parse_int base 0 0 t in
  if 2 ^ 64 <=? v then inl (- ERANGE)
  else if (n =? 0)%nat then inl (- EINVAL)
  else
    let r := match r with 10 :: r => r | _ => r end in
    match r with [] => inr v | _ :: _ => inl (- EINVAL) end.
Definition kstrtou32 (t : bytes) : Z + Z :=
  match kstrtoull0 t with
  | inl e => inl e
  | inr v => if 2 ^ 32 <=? v then inl (- ERANGE) else inr v
  end.

(** The literal characters of a format: what follows them. *)
Fixpoint scan_lit (lit t : bytes) : option bytes :=
  match lit, t with
  | [], _ => Some t
  | a :: lit, b :: t => if a =? b then scan_lit lit t else None
  | _ :: _, [] => None
  end.

Definition isdigit (c : Z) : bool := (48 <=? c) && (c <=? 57).

(** [%lld]; the caller truncates for [%d]. *)
Definition scan_d (t : bytes) : option Z :=
  match skip_spaces t with
  | 45 :: c :: r => if isdigit c then Some (s64 (- (parse_int 10 0 0 (c :: r)).1.1)) else None
  | c :: r => if isdigit c then Some (s64 (parse_int 10 0 0 (c :: r)).1.1) else None
  | [] => None
  end.

(** [%llx] *)
Definition scan_llx (t : bytes) : option Z :=
  let t := skip_spaces t in
  match t with
  | c :: _ => match xdigit c with Some _ => Some (u64 (parse_int 16 0 0 (skip_0x t)).1.1) | None => None end
  | [] => None
  end.

(** ** Numbers written *)

(** At most [n] digits of [x]. *)
Fixpoint fmt_base (base : Z) (n : nat) (x : Z) : bytes :=
  match n with
  | O => []
  | S n => (if x / base =? 0 then [] else fmt_base base n (x / base)) ++ [hex_digit (x mod base)]
  end.

(** [%u], [%d] and [%llx]: ten decimal digits hold 32 bits, sixteen hexadecimal
    ones 64 bits. *)
Definition fmt_u (x : Z) : bytes := fmt_base 10 10 (u32 x).
Definition fmt_d (x : Z) : bytes :=
  let x := s32 x in if x <? 0 then 45 :: fmt_base 10 10 (- x) else fmt_base 10 10 x.
Definition fmt_llx (x : Z) : bytes := fmt_base 16 16 (u64 x).

(** [snprintf (buf + off, size, _)] of the text [t]: the length of [t], and as
    much of it as fits with a zero behind it.  A size that is negative as an [int]
    is refused by the kernel with 0. *)
Definition snprintf (buf : bytes) (off size : Z) (t : bytes) : option (Z * bytes) :=
  if size <? 0 then Some (0, buf)
  else if size =? 0 then Some (zlen t, buf)
  else buf ← bput buf off (take (Z.to_nat (size - 1)) t ++ [0]); Some (zlen t, buf).

(** [strcat (buf + off, t)] *)
Definition strcat (buf : bytes) (off : Z) (t : bytes) : option bytes :=
  s ← cstring_at buf off; bput buf (off + zlen s) (t ++ [0]).

(** [strcat] and [strncat] on a [char] array of [cap] bytes that holds the string [s]. *)
Definition cat_in (cap : Z) (s t : bytes) : option bytes :=
  if zlen s + zlen t + 1 <=? cap then Some (s ++ t) else None.

(** ** A number that was written is read back *)

Lemma xdigit_hex d : 0 <= d < 16 -> xdigit (hex_digit d) = Some d.
Proof. intros H. unfold xdigit, hex_digit. repeat (case_goal; b2p; try lia); f_equal; lia. Qed.

Lemma parse_int_app base n x acc k r :
  1 < base <= 16 -> 0 <= x < base ^ Z.of_nat n -> (0 < n)%nat ->
  exists m, (0 < m)%nat /\ parse_int base acc k (fmt_base base n x ++ r) = parse_int base (acc * base ^ Z.of_nat m + x) (k + m) r.
Proof.
  intros Hb. revert x acc k r. induction n as [|n IH]; intros x acc k r Hx Hn; [lia|]. cbn [fmt_base].
  pose proof (Z.mod_pos_bound x base). pose proof (Z.div_mod x base).
  assert (forall a j, parse_int base a j ([hex_digit (x mod base)] ++ r) = parse_int base (a * base + x mod base) (S j) r) as Hlast.
  { intros a j. cbn [app parse_int]. rewrite xdigit_hex by lia. destruct (Z.ltb_spec (x mod base) base); [done|lia]. }
  destruct (Z.eqb_spec (x / base) 0) as [E|E].
  - exists 1%nat. split; [lia|]. rewrite app_nil_l, Hlast. f_equal; [|lia]. change (Z.of_nat 1) with 1. rewrite Z.pow_1_r. nia.
  - rewrite Nat2Z.inj_succ, Z.pow_succ_r in Hx by lia.
    assert (0 <= x / base < base ^ Z.of_nat n) as Hd.
    { split; [apply Z.div_pos; lia|]. apply Z.div_lt_upper_bound; lia. }
    assert (0 < n)%nat as Hn'. { destruct n; [cbn in Hd; lia|lia]. }
    destruct (IH (x / base) acc k ([hex_digit (x mod base)] ++ r) Hd Hn') as (m & Hm & E1). exists (S m). split; [lia|].
    rewrite <- app_assoc, E1, Hlast. f_equal; [|lia]. rewrite Nat2Z.inj_succ, Z.pow_succ_r by lia. nia.
Qed.

Lemma parse_int_fmt base n x r :
  1 < base <= 16 -> 0 <= x < base ^ Z.of_nat n -> (0 < n)%nat ->
  match r with [] => True | c :: _ => forall d, xdigit c = Some d -> base <= d end ->
  exists m, (0 < m)%nat /\ parse_int base 0 0 (fmt_base base n x ++ r) = (x, m, r).
Proof.
  intros Hb Hx Hn Hr. destruct (parse_int_app base n x 0 0 r Hb Hx Hn) as (m & Hm & E). exists m. split; [done|].
  rewrite E, Nat.add_0_l, Z.mul_0_l, Z.add_0_l. destruct r as [|c r]; [done|]. cbn. destruct (xdigit c) as [d|]; [|done].
  destruct (Z.ltb_spec d base); [specialize (Hr d eq_refl); lia|done].
Qed.

(** The first digit. *)
Lemma fmt_base_head base n x :
  1 < base <= 16 -> 0 <= x < base ^ Z.of_nat n -> (0 < n)%nat ->
  exists d t, fmt_base base n x = hex_digit d :: t /\ 0 <= d < base /\ (d = 0 -> t = []).
Proof.
  intros Hb. revert x. induction n as [|n IH]; intros x Hx Hn; [lia|]. cbn [fmt_base].
  destruct (Z.eqb_spec (x / base) 0) as [E|E].
  - exists (x mod base), []. pose proof (Z.mod_pos_bound x base). split; [done|]. split; [lia|done].
  - rewrite Nat2Z.inj_succ, Z.pow_succ_r in Hx by lia.
    assert (0 <= x / base < base ^ Z.of_nat n) as Hd by (split; [apply Z.div_pos; lia|apply Z.div_lt_upper_bound; lia]).
    assert (0 < n)%nat as Hn'. { destruct n; [cbn in Hd; lia|lia]. }
    destruct (IH (x / base) Hd Hn') as (d & t & E1 & H1 & H2). exists d, (t ++ [hex_digit (x mod base)]). rewrite E1.
    split; [done|]. split; [done|]. intros ->. exfalso. rewrite (H2 eq_refl) in E1.
    destruct (parse_int_fmt base n (x / base) [] Hb Hd Hn' I) as (m & Hm & E2). rewrite app_nil_r, E1 in E2.
    cbn [parse_int] in E2. rewrite xdigit_hex in E2 by lia. destruct (Z.ltb_spec 0 base); [|lia]. injection E2 as E2 _. lia.
Qed.

Lemma fmt_base_digits base n x c :
  1 < base <= 16 -> c ∈ fmt_base base n x -> exists d, 0 <= d < base /\ c = hex_digit d.
Proof.
  intros Hb. revert x. induction n as [|n IH]; intros x; cbn [fmt_base]; [set_solver|].
  rewrite elem_of_app, list_elem_of_singleton. intros [H|H].
  - destruct (x / base =? 0); [set_solver|]. by eapply IH.
  - exists (x mod base). split; [|done]. apply Z.mod_pos_bound. lia.
Qed.

Lemma hex_digit_bounds d : 0 <= d < 16 -> (d < 10 -> hex_digit d = 48 + d) /\ 48 <= hex_digit d < 103 /\ hex_digit d <> 45 /\ hex_digit d <> 32 /\ hex_digit d <> 43.
Proof. intros H. unfold hex_digit. case_goal; b2p; lia. Qed.

Lemma kstrtoull0_fmt n x :
  (0 < n)%nat -> 0 <= x < 10 ^ Z.of_nat n -> x < 2 ^ 64 -> kstrtoull0 (fmt_base 10 n x) = inr x.
Proof.
  intros Hn Hx Hx64. destruct (fmt_base_head 10 n x ltac:(lia) Hx Hn) as (d & t & E & Hd & H0).
  destruct (hex_digit_bounds d ltac:(lia)) as (Hh & Hh1 & Hh2 & Hh3 & Hh4).
  destruct (parse_int_fmt 10 n x [] ltac:(lia) Hx Hn I) as (m & Hm & Ep). rewrite app_nil_r in Ep.
  unfold kstrtoull0. rewrite E. rewrite (Hh ltac:(lia)) in *.
  assert (match 48 + d :: t with 43 :: r => r | _ => 48 + d :: t end = 48 + d :: t) as ->.
  { destruct (48 + d =? 43) eqn:Eb; b2p; [lia|]. destruct (48 + d) as [|p|p]; try done. repeat (destruct p as [p|p|]; try done). }
  destruct (Z.eq_dec d 0) as [->|Hd0].
  - rewrite (H0 eq_refl) in *. destruct (parse_int_fmt 8 1 0 [] ltac:(lia) ltac:(lia) ltac:(lia) I) as (m' & Hm' & Ep').
    rewrite E in Ep. cbn in Ep. injection Ep as <- _. reflexivity.
  - assert (fixup_radix (48 + d :: t) = (10, 48 + d :: t)) as ->.
    { unfold fixup_radix. destruct (48 + d) as [|p|p] eqn:Eq; try done. repeat (destruct p as [p|p|]; try done). lia. }
    rewrite <- E, Ep. destruct (Z.leb_spec (2 ^ 64) x); [lia|]. destruct m; [lia|]. reflexivity.
Qed.

Lemma kstrtou32_fmt x : in_u32 x -> kstrtou32 (fmt_base 10 10 x) = inr x.
Proof.
  intros Hx. unfold in_u32 in Hx. unfold kstrtou32. rewrite kstrtoull0_fmt by (try change (10 ^ Z.of_nat 10) with 10000000000; lia).
  destruct (Z.leb_spec (2 ^ 32) x); [lia|done].
Qed.

Lemma skip_spaces_fmt base n x :
  1 < base <= 16 -> 0 <= x < base ^ Z.of_nat n -> (0 < n)%nat -> skip_spaces (fmt_base base n x) = fmt_base base n x.
Proof.
  intros Hb Hx Hn. destruct (fmt_base_head base n x Hb Hx Hn) as (d & t & -> & Hd & _). cbn. unfold isspace.
  destruct (hex_digit_bounds d ltac:(lia)) as (_ & ? & _ & ? & _). repeat (case_goal; b2p; try lia); try done.
Qed.

Lemma scan_d_fmt x : 0 <= x < 10000000000 -> scan_d (fmt_base 10 10 x) = Some x.
Proof.
  intros Hx. change 10000000000 with (10 ^ Z.of_nat 10) in Hx. unfold scan_d. rewrite skip_spaces_fmt by lia.
  destruct (fmt_base_head 10 10 x ltac:(lia) Hx ltac:(lia)) as (d & t & E & Hd & _).
  destruct (hex_digit_bounds d ltac:(lia)) as (Hh & ? & ? & _). rewrite (Hh ltac:(lia)) in *.
  destruct (parse_int_fmt 10 10 x [] ltac:(lia) Hx ltac:(lia) I) as (m & _ & Ep). rewrite app_nil_r in Ep.
  rewrite E in *. change (10 ^ Z.of_nat 10) with 10000000000 in Hx.
  assert (isdigit (48 + d) = true) as Hdig by (unfold isdigit; bsolve).
  assert (48 + d <> 45) as Hne by lia. revert Hdig Hne Ep. generalize (48 + d) as c. intros c Hdig Hne Ep.
  assert (match c :: t with
          | 45 :: c :: r => if isdigit c then Some (s64 (- (parse_int 10 0 0 (c :: r)).1.1)) else None
          | c :: r => if isdigit c then Some (s64 (parse_int 10 0 0 (c :: r)).1.1) else None
          | [] => None
          end = Some (s64 (parse_int 10 0 0 (c :: t)).1.1)) as ->; [|rewrite Ep; cbn; by rewrite s64_small by lia].
  transitivity (if isdigit c then Some (s64 (parse_int 10 0 0 (c :: t)).1.1) else None); [|by rewrite Hdig].
  clear - Hne. destruct c as [|p|p]; try done. repeat (destruct p as [p|p|]; try done).
Qed.

Lemma scan_llx_fmt x : in_u64 x -> scan_llx (fmt_base 16 16 x) = Some x.
Proof.
  intros Hx. unfold in_u64 in Hx. change (2 ^ 64) with (16 ^ Z.of_nat 16) in Hx. unfold scan_llx. rewrite skip_spaces_fmt by lia.
  destruct (fmt_base_head 16 16 x ltac:(lia) Hx ltac:(lia)) as (d & t & E & Hd & H0).
  destruct (parse_int_fmt 16 16 x [] ltac:(lia) Hx ltac:(lia) I) as (m & _ & Ep). rewrite app_nil_r in Ep.
  assert (skip_0x (fmt_base 16 16 x) = fmt_base 16 16 x) as ->.
  { rewrite E. destruct (hex_digit_bounds d ltac:(lia)) as (? & ? & _). destruct (Z.eq_dec d 0) as [->|Hd0]; [by rewrite (H0 eq_refl)|].
    unfold skip_0x. assert (hex_digit d <> 48) as Hne by (unfold hex_digit; case_goal; b2p; lia).
    destruct (hex_digit d) as [|p|p]; try done. repeat (destruct p as [p|p|]; try done). }
  rewrite Ep, E, xdigit_hex by lia. cbn. rewrite u64_small; [done|]. change (16 ^ Z.of_nat 16) with (2 ^ 64) in Hx. lia.
Qed.

(** Digits hold no [x]. *)
Lemma strstr_0x_fmt base n x : 1 < base <= 16 -> strstr (fmt_base base n x) (str "0x") = false.
Proof.
  intros Hb. assert (Forall (fun c => c <> 120) (fmt_base base n x)) as H.
  { apply Forall_forall. intros c Hc. apply fmt_base_digits in Hc as (d & Hd & ->); [|done]. destruct (hex_digit_bounds d ltac:(lia)). lia. }
  induction H as [|c t Hc Ht IH]; [done|]. cbn [strstr]. rewrite IH, orb_false_r. change (str "0x") with [48; 120].
  cbn [starts_with]. destruct Ht as [|c' t' Hc' _]; [by rewrite andb_false_r|]. apply andb_false_iff. right. apply andb_false_iff. left. apply Z.eqb_neq. lia.
Qed.

Lemma fmt_base_nonzero base n x : 1 < base <= 16 -> Forall (fun c => c <> 0) (fmt_base base n x).
Proof.
  intros Hb. apply Forall_forall. intros c Hc. apply fmt_base_digits in Hc as (d & Hd & ->); [|done].
  destruct (hex_digit_bounds d ltac:(lia)). lia.
Qed.
Lemma fmt_base_length base n x : (length (fmt_base base n x) <= n)%nat.
Proof.
  revert x. induction n as [|n IH]; intros x; [done|]. cbn [fmt_base]. rewrite length_app. cbn. case_goal; cbn; [lia|].
  specialize (IH (x / base)). lia.
Qed.
