(* ===== verification/Configs.v ===== *)
(** * The configuration tree (media/common/codec_mm/configs/configs.c)

    Drivers hang nodes with named items into one tree; user space reads, writes
    and lists the items by dotted paths such as [media.codec_mm.scatter.item=val].
    The nodes, the tables of items and the variables the items point to are maps
    from addresses; the callbacks of items that have some are a class.  A node is
    used under its lock throughout; the callbacks do not touch the tree.  A NULL
    path does what the empty path does unless a function says otherwise. *)

From stdpp Require Import base numbers list option strings gmap.
From S2P Require Import Prelude StateM KText KNum.

Definition MAX_DEPTH : Z := 8.
Definition MAX_ITEM_NAME : Z := 128.
Definition MAX_PREFIX_NAME : Z := 128.
Definition EIO : Z := 5.

Definition CONFIG_TYPE_PI32 : Z := 1.
Definition CONFIG_TYPE_PU32 : Z := 2.
Definition CONFIG_TYPE_PU64 : Z := 4.
Definition CONFIG_TYPE_PBOOL : Z := 5.
Definition CONFIG_TYPE_PSTR : Z := 7.
Definition CONFIG_TYPE_PCSTR : Z := 8.
Definition CONFIG_TYPE_I32 : Z := 21.
Definition CONFIG_TYPE_U32 : Z := 22.
Definition CONFIG_TYPE_U64 : Z := 24.
Definition CONFIG_TYPE_BOOL : Z := 25.
Definition CONFIG_TYPE_FUN : Z := 100.

Definition CONFIG_FOR_R : Z := 1.
Definition CONFIG_FOR_W : Z := 2.
Definition CONFIG_FOR_T : Z := 4.
Definition CONFIG_FOR_RW : Z := Z.lor CONFIG_FOR_R CONFIG_FOR_W.

Definition LIST_MODE_LIST_RW : Z := Z.lor CONFIG_FOR_R CONFIG_FOR_W.
Definition LIST_MODE_VAL : Z := Z.shiftl 1 8.
Definition LIST_MODE_CONFIGS : Z := Z.shiftl 1 9.
Definition LIST_MODE_CONFIGS_VAL : Z := Z.lor LIST_MODE_VAL LIST_MODE_CONFIGS.
Definition LIST_MODE_NODE_INFO : Z := Z.shiftl 1 10.
Definition LIST_MODE_PATH_PREFIX : Z := Z.shiftl 1 12.
Definition LIST_MODE_PATH_FULLPREFIX : Z := Z.shiftl 1 13.
Definition LIST_MODE_SUB_NODES : Z := Z.shiftl 1 15.
Definition LIST_MODE_NODE_PATH_CONFIGS : Z := Z.lor (Z.lor LIST_MODE_LIST_RW LIST_MODE_PATH_PREFIX) LIST_MODE_CONFIGS.
Definition LIST_MODE_NODE_CMD_VAL : Z := Z.lor LIST_MODE_NODE_PATH_CONFIGS LIST_MODE_VAL.
Definition LIST_MODE_NODE_CMD_ALL : Z := Z.lor (Z.lor LIST_MODE_NODE_CMD_VAL LIST_MODE_SUB_NODES) LIST_MODE_NODE_INFO.
Definition LIST_MODE_NODE_CMDVAL_ALL : Z := Z.lor LIST_MODE_NODE_CMD_ALL LIST_MODE_VAL.

(** ** Data *)

(** The union of a [mconfig] as its two words; [buf_ptr], [pival], [str] and
    [f_get] are the first, [f_set] is the second, the values inside are the low
    bytes of the first.  A NULL pointer is 0. *)
Record mconfig := mk_config {
  ctype : Z;
  cid : Z;
  item_name : bytes;
  ldata0 : Z;
  ldata1 : Z;
  csize : Z }.

(** Where the list head of a node is: initialised and alone, on the list of a
    parent, or poisoned by [list_del]. *)
Inductive list_link := Alone | OnList (parent : Z) | Poisoned.

Record mconfig_node := mk_node {
  prefix : bytes;
  name : bytes;
  active : Z;
  depth : Z;
  parent_node : option Z;
  link : list_link;
  son_node_num : Z;
  son_node_list : list Z;
  configs_num : Z;
  configs : option Z;
  ref_cnt : Z;
  rw_flags : Z }.

(** The zeroed memory of a node before it is initialised. *)
Definition zero_node : mconfig_node := mk_node [] [] 0 0 None Alone 0 [] 0 None 0 0.

(** The address of [root_node]. *)
Definition ROOT : Z := 0.

Definition with_ref (n : mconfig_node) (r : Z) : mconfig_node :=
  mk_node (prefix n) (name n) (active n) (depth n) (parent_node n) (link n) (son_node_num n) (son_node_list n)
    (configs_num n) (configs n) r (rw_flags n).
Definition with_active (n : mconfig_node) (x : Z) : mconfig_node :=
  mk_node (prefix n) (name n) x (depth n) (parent_node n) (link n) (son_node_num n) (son_node_list n)
    (configs_num n) (configs n) (ref_cnt n) (rw_flags n).
Definition with_configs (n : mconfig_node) (arr : option Z) (num : Z) : mconfig_node :=
  mk_node (prefix n) (name n) (active n) (depth n) (parent_node n) (link n) (son_node_num n) (son_node_list n)
    num arr (ref_cnt n) (rw_flags n).
Definition with_sons (n : mconfig_node) (num : Z) (l : list Z) : mconfig_node :=
  mk_node (prefix n) (name n) (active n) (depth n) (parent_node n) (link n) num l
    (configs_num n) (configs n) (ref_cnt n) (rw_flags n).
Definition with_link (n : mconfig_node) (k : list_link) : mconfig_node :=
  mk_node (prefix n) (name n) (active n) (depth n) (parent_node n) k (son_node_num n) (son_node_list n)
    (configs_num n) (configs n) (ref_cnt n) (rw_flags n).
Definition with_place (n : mconfig_node) (d : Z) (p : bytes) : mconfig_node :=
  mk_node p (name n) (active n) d (parent_node n) (link n) (son_node_num n) (son_node_list n)
    (configs_num n) (configs n) (ref_cnt n) (rw_flags n).

(** The callbacks of the items, by the address of the function: [f_get] has what
    it wrote to the buffer it was given. *)
Class CfgFuns (W : Type) := {
  f_get : Z -> bytes -> Z -> Z -> W -> option (Z * bytes * W);
  f_set : Z -> bytes -> Z -> bytes -> W -> option (Z * W) }.

Record cfg (W : Type) := mk_cfg {
  nodes : gmap Z mconfig_node;
  arrays : gmap Z (list mconfig);
  vars : gmap Z bytes;
  cworld : W }.
Arguments mk_cfg {W}.
Arguments nodes {W}.
Arguments arrays {W}.
Arguments vars {W}.
Arguments cworld {W}.

(** ** Text *)

(** The first name of a path and its length: [is_end_node] is whether it is the
    last.  0 for the empty path, where the other results are not written. *)
Definition name_char (c : Z) : bool := negb ((c =? 0) || (c =? 32) || (c =? 13) || (c =? 10)).
Fixpoint take_name (t : bytes) : bytes :=
  match t with
  | c :: r => if name_char c then c :: take_name r else []
  | [] => []
  end.
Definition configs_parser_first_node (root_str : bytes) : Z * bytes * bool :=
  match root_str with
  | [] => (0, [], false)
  | _ =>
      let '(node_size, is_end) :=
        match strchr root_str 46 with
        | Some k => (Z.of_nat k, false)
        | None => (match strchr root_str 61 with Some k => Z.of_nat k | None => zlen root_str end, true)
        end in
      let node_size := if MAX_ITEM_NAME - 1 <=? node_size then MAX_ITEM_NAME - 1 else node_size in
      (node_size, take_name (take (Z.to_nat node_size) root_str), is_end)
  end.

(** What follows the first [=]; NULL without one. *)
Definition configs_parser_str_valstr (root_str : bytes) : option bytes :=
  k ← strchr root_str 61; Some (drop (S k) root_str).

(** The result of the parser, and the value when that is positive. *)
Definition configs_parser_value_u32 (t : bytes) : Z * Z :=
  match t with
  | [] => (0, 0)
  | _ =>
      let pstr := skip_blanks t in
      match pstr with
      | 45 :: r => match scan_d r with Some v => (1, u32 (- s32 v)) | None => (0, 0) end
      | _ =>
          if strstr pstr (str "0x") then
            match scan_lit (str "0x") pstr with
            | Some r => match scan_x r with Some v => (1, v) | None => (0, 0) end
            | None => (0, 0)
            end
          else match kstrtou32 pstr with inr v => (1, v) | inl e => (e, 0) end
      end
  end.

Definition configs_parser_value_u64 (t : bytes) : Z * Z :=
  match t with
  | [] => (0, 0)
  | _ =>
      let pstr := skip_blanks t in
      match pstr with
      | 45 :: r => match scan_d r with Some v => (1, u64 (s32 (- s32 v))) | None => (0, 0) end
      | _ =>
          if strstr pstr (str "0x") then
            match scan_lit (str "0x") pstr with
            | Some r => match scan_llx r with Some v => (1, v) | None => (0, 0) end
            | None => (0, 0)
            end
          else match kstrtoull0 pstr with inr v => (1, v) | inl e => (e, 0) end
      end
  end.

Definition configs_parser_value_bool (t : bytes) : Z * bool :=
  match t with
  | [] => (0, false)
  | c :: _ =>
      if c =? 49 then (1, true)
      else if c =? 48 then (1, false)
      else if bool_decide (t = str "true") || bool_decide (t = str "TRUE") || bool_decide (t = str "true") then (1, true)
      else if negb (bool_decide (t = str "false")) || bool_decide (t = str "FALSE") || bool_decide (t = str "False")
      then (1, false)
      else (0, false)
  end.

(** [strncpy (dst, src, n)] as the bytes it writes; [src] is the memory at the
    source, which must not end before the string does. *)
Definition strncpy (n : Z) (src : bytes) : option bytes :=
  let t := take (Z.to_nat n) src in
  if (n <? 0) || ((zlen t <? n) && bool_decide (0 ∉ t)) then None
  else Some (c_str t ++ replicate (Z.to_nat n - length (c_str t)) 0).

(** The low [n] bytes of a word. *)
Definition low (n : nat) (x : Z) : Z := x mod 256 ^ Z.of_nat n.
Definition set_low (n : nat) (x v : Z) : Z := x - low n x + low n v.

Section Configs.
Context {W : Type} `{CfgFuns W}.
Abbreviation M := (@ST (cfg W)).

Definition node_at (a : Z) : M mconfig_node := fun s => n ← nodes s !! a; Some (n, s).
Definition put_at (a : Z) (n : mconfig_node) : M unit :=
  modify (fun s => mk_cfg (<[a := n]> (nodes s)) (arrays s) (vars s) (cworld s)).
Definition put_var (a : Z) (obj : bytes) : M unit :=
  modify (fun s => mk_cfg (nodes s) (arrays s) (<[a := obj]> (vars s)) (cworld s)).
Definition put_world (w : W) : M unit := modify (fun s => mk_cfg (nodes s) (arrays s) (vars s) w).

(** A [struct mconfig *]: the array and the index. *)
Definition config_at (c : Z * Z) : M mconfig := fun s =>
  arr ← arrays s !! c.1; x ← aget arr c.2; Some (x, s).
Definition put_config (c : Z * Z) (x : mconfig) : M unit := fun s =>
  arr ← arrays s !! c.1; arr ← aset arr c.2 x;
  Some (tt, mk_cfg (nodes s) (<[c.1 := arr]> (arrays s)) (vars s) (cworld s)).
Definition set_data0 (c : Z * Z) (v : Z) : M unit :=
  x ← config_at c; put_config c (mk_config (ctype x) (cid x) (item_name x) v (ldata1 x) (csize x)).

(** ** References *)

Definition configs_inc_node_ref (a : Z) : M Z :=
  n ← node_at a; let r := s32 (ref_cnt n + 1) in _ ← put_at a (with_ref n r); mret r.
Definition configs_dec_node_ref (a : Z) : M Z :=
  n ← node_at a; let r := s32 (ref_cnt n - 1) in _ ← put_at a (with_ref n r); mret r.

(** The walk to the top; nodes are at most eight deep. *)
Definition WALK : nat := 10.
Fixpoint put_parents (fuel : nat) (pnode root_node : option Z) : M unit :=
  match pnode with
  | None => mret tt
  | Some a =>
      if bool_decide (root_node = Some a) then mret tt
      else
        match fuel with
        | O => undef
        | S fuel => _ ← configs_dec_node_ref a; n ← node_at a; put_parents fuel (parent_node n) root_node
        end
  end.

Definition configs_put_node (node : option Z) (del_parent_ref : bool) (root_node : option Z) : M Z :=
  match node with
  | None => mret 0
  | Some a =>
      _ ← configs_dec_node_ref a;
      n ← node_at a;
      if negb del_parent_ref then mret 0
      else _ ← put_parents WALK (parent_node n) root_node; mret 0
  end.

(** ** The tree *)

Fixpoint find_son (l : list Z) (node_name : bytes) : M (option Z) :=
  match l with
  | [] => mret None
  | s :: l =>
      n ← node_at s;
      if bool_decide (name n = node_name) then
        if active n <=? 0 then mret None
        else r ← configs_inc_node_ref s; mret (if r <? 0 then None else Some s)
      else find_son l node_name
  end.
Definition configs_get_node_with_name (rootnode : option Z) (node_name : bytes) : M (option Z) :=
  n ← node_at (default ROOT rootnode);
  find_son (son_node_list n) node_name.

(** A node that is on a list, or has sons, must not be initialised: the lists
    would be left broken. *)
Definition configs_init_new_node (a : Z) (nm : bytes) (rw : Z) : M Z :=
  n ← node_at a;
  match link n, son_node_list n with
  | OnList _, _ | _, _ :: _ => undef
  | _, [] => _ ← put_at a (mk_node [] nm 1 0 (parent_node n) Alone 0 [] 0 None 0 rw); mret 0
  end.

(** The prefix below [p], in an array that holds [old]. *)
Definition son_prefix (p : mconfig_node) (old : bytes) : option bytes :=
  base ← match prefix p with [] => Some old | _ => cat_in MAX_PREFIX_NAME (prefix p) (str ".") end;
  cat_in MAX_PREFIX_NAME base (name p).

(** [list_add_tail] of a node that is on a list already breaks that list. *)
Definition configs_register_node (parent : option Z) (new_node : Z) : M Z :=
  let pa := default ROOT parent in
  if new_node =? pa then mret 0
  else
    p ← node_at pa;
    if MAX_DEPTH <=? depth p then mret (-1)
    else if MAX_PREFIX_NAME - 2 <=? zlen (prefix p) + zlen (name p) then mret (-2)
    else
      n ← node_at new_node;
      same ← configs_get_node_with_name (Some pa) (name n);
      match same with
      | Some _ => mret (-3)
      | None =>
          p ← node_at pa;
          n ← node_at new_node;
          let d := depth p + 1 in
          pre ← of_opt (if 2 <=? d then son_prefix p (prefix n) else Some (prefix n));
          match link n with
          | OnList _ => undef
          | _ =>
              _ ← put_at new_node
                (mk_node pre (name n) 1 d (Some pa) (OnList pa) (son_node_num n) (son_node_list n)
                   (configs_num n) (configs n) (ref_cnt n) (Z.land (rw_flags p) (rw_flags n)));
              _ ← put_at pa (with_sons p (son_node_num p + 1) (son_node_list p ++ [new_node]));
              mret 0
          end
      end.

Fixpoint end_node_loop (fuel : nat) (root_node : option Z) (start_node node : Z) (next_path : bytes) : M (option Z) :=
  match fuel with
  | O => undef
  | S fuel =>
      let '(i, sub, is_end) := configs_parser_first_node next_path in
      if (i <=? 0) || bool_decide (sub = []) then mret None
      else
        n ← node_at node;
        if is_end && bool_decide (root_node = None) && (node =? start_node) && bool_decide (name n = sub)
        then mret (Some node)
        else
          r ← configs_get_node_with_name (Some node) sub;
          match r with
          | None => mret None
          | Some a =>
              if is_end then mret (Some a)
              else end_node_loop fuel root_node start_node a (drop (Z.to_nat i + 1) next_path)
          end
  end.
(** Each turn takes a character of the path at least. *)
Definition configs_get_node_path_end_node (root_node : option Z) (path : bytes) : M (option Z) :=
  let start_node := default ROOT root_node in
  end_node_loop (S (length path)) root_node start_node start_node path.

Definition configs_register_path_node (path : bytes) (new_node : Z) : M Z :=
  match path with
  | [] => configs_register_node None new_node
  | _ =>
      parent ← configs_get_node_path_end_node None path;
      match parent with
      | None => mret (-1)
      | Some _ =>
          ret ← configs_register_node parent new_node;
          _ ← configs_put_node parent true None;
          mret ret
      end
  end.

Definition configs_register_configs (node : option Z) (arr : Z) (num : Z) : M Z :=
  match node with
  | None => mret (-1)
  | Some a =>
      n ← node_at a;
      if negb (bool_decide (configs n = None)) || (0 <? configs_num n) then mret (-2)
      else _ ← put_at a (with_configs n (Some arr) num); mret 0
  end.

Definition configs_register_path_configs (path : bytes) (arr num : Z) : M Z :=
  match path with
  | [] => mret (-1)
  | _ =>
      parent ← configs_get_node_path_end_node None path;
      match parent with
      | None => mret (-1)
      | Some _ =>
          ret ← configs_register_configs parent arr num;
          _ ← configs_put_node parent true None;
          mret ret
      end
  end.

(** [list_del (&node->list)] *)
Definition list_del (a : Z) : M unit :=
  n ← node_at a;
  match link n with
  | Poisoned => undef
  | Alone => put_at a (with_link n Poisoned)
  | OnList p =>
      _ ← put_at a (with_link n Poisoned);
      pn ← node_at p;
      put_at p (with_sons pn (son_node_num pn) (filter (fun x => x <> a) (son_node_list pn)))
  end.

Definition configs_del_endnode (parent : option Z) (a : Z) : M Z :=
  n ← node_at a;
  _ ← put_at a (with_active n 0);
  if negb (ref_cnt n =? 0) then mret (-1)
  else
    n ← node_at a;
    _ ← put_at a (with_configs n None 0);
    if 0 <? son_node_num n then mret (-2)
    else
      match parent with
      | None => mret 0
      | Some p =>
          _ ← list_del a;
          pn ← node_at p;
          _ ← put_at p (with_sons pn (son_node_num pn - 1) (son_node_list pn));
          mret 0
      end.

(** ** Items *)

Fixpoint find_config (n : nat) (arr i : Z) (nm : bytes) : M (option (Z * Z)) :=
  match n with
  | O => mret None
  | S n =>
      x ← config_at (arr, i);
      if bool_decide (item_name x = nm) then mret (Some (arr, i)) else find_config n arr (i + 1) nm
  end.
Definition configs_get_node_config (a : Z) (nm : bytes) : M (option (Z * Z)) :=
  n ← node_at a;
  if configs_num n <=? 0 then mret None
  else
    arr ← of_opt (configs n);
    c ← find_config (Z.to_nat (configs_num n)) arr 0 nm;
    match c with
    | None => mret None
    | Some _ => _ ← configs_inc_node_ref a; mret c
    end.

(** The object a pointer item points to, and an integer of [n] bytes in it. *)
Definition object (x : mconfig) : M bytes := fun s => o ← vars s !! ldata0 x; Some (o, s).
Definition read_int (n : Z) (x : mconfig) : M Z := o ← object x; b ← of_opt (bget o 0 n); mret (le_join b).
Definition write_int (n : nat) (x : mconfig) (v : Z) : M unit :=
  o ← object x; o ← of_opt (bput o 0 (le_split n v)); put_var (ldata0 x) o.

Definition bool_word (b : bool) : bytes := if b then str "true" else str "false".

(** What [snprintf] is given for the types that are printed; [None] for the
    others. *)
Definition config_text (x : mconfig) : option (M bytes) :=
  if ctype x =? CONFIG_TYPE_PBOOL then Some (v ← read_int 1 x; mret (bool_word (c_true v)))
  else if ctype x =? CONFIG_TYPE_PI32 then Some (v ← read_int 4 x; mret (fmt_u v))
  else if ctype x =? CONFIG_TYPE_PU32 then Some (v ← read_int 4 x; mret (fmt_d v))
  else if ctype x =? CONFIG_TYPE_PU64 then Some (v ← read_int 8 x; mret (fmt_llx v))
  else if (ctype x =? CONFIG_TYPE_PSTR) || (ctype x =? CONFIG_TYPE_PCSTR) then
    Some (if ldata0 x =? 0 then mret (str "(null)") else o ← object x; of_opt (until_zero o))
  else if ctype x =? CONFIG_TYPE_BOOL then Some (mret (bool_word (c_true (ldata0 x))))
  else if ctype x =? CONFIG_TYPE_I32 then Some (mret (fmt_d (ldata0 x)))
  else if ctype x =? CONFIG_TYPE_U32 then Some (mret (fmt_u (ldata0 x)))
  else if ctype x =? CONFIG_TYPE_U64 then Some (mret (str "0x" ++ fmt_llx (ldata0 x)))
  else None.

(** [buf + off] is the buffer of [size] bytes. *)
Definition configs_config2str (c : Z * Z) (buf : bytes) (off size : Z) : M (Z * bytes) :=
  if size <? 1 then mret (0, buf)
  else
    x ← config_at c;
    '(ret, buf) ←
      match config_text x with
      | Some m => t ← m; of_opt (snprintf buf off size t)
      | None =>
          if ctype x =? CONFIG_TYPE_FUN then
            if ldata0 x =? 0 then mret (0, buf)
            else
              w ← gets cworld;
              '(ret, t, w) ← of_opt (f_get (ldata0 x) (item_name x) (cid x) size w);
              _ ← put_world w;
              buf ← of_opt (bput buf off t);
              mret (ret, buf)
          else mret (-4, buf)
      end;
    if ret <=? 0 then mret (ret, buf)
    else if size <=? ret then buf ← of_opt (bput buf (off + size - 1) [0]); mret (size - 1, buf)
    else mret (ret, buf).

Definition configs_str2config (c : Z * Z) (t : bytes) : M Z :=
  if bool_decide (t = []) then mret 0
  else
    x ← config_at c;
    if (ctype x =? CONFIG_TYPE_PBOOL) || (ctype x =? CONFIG_TYPE_BOOL) then
      let '(ret, b) := configs_parser_value_bool t in
      if ret <=? 0 then mret ret
      else
        _ ← (if ctype x =? CONFIG_TYPE_PBOOL then write_int 1 x (Z.b2z b)
             else set_data0 c (set_low 1 (ldata0 x) (Z.b2z b)));
        mret ret
    else if (ctype x =? CONFIG_TYPE_PI32) || (ctype x =? CONFIG_TYPE_PU32) then
      let '(ret, v) := configs_parser_value_u32 t in
      _ ← when (0 <? ret) (write_int 4 x v); mret ret
    else if ctype x =? CONFIG_TYPE_PU64 then
      let '(ret, v) := configs_parser_value_u64 t in
      _ ← when (0 <? ret) (write_int 8 x v); mret ret
    else if ctype x =? CONFIG_TYPE_PSTR then
      o ← object x;
      w ← of_opt (strncpy (csize x) (t ++ [0]));
      o ← of_opt (bput o 0 w);
      _ ← put_var (ldata0 x) o;
      s ← of_opt (until_zero o);
      mret (zlen s)
    else if (ctype x =? CONFIG_TYPE_I32) || (ctype x =? CONFIG_TYPE_U32) then
      let '(ret, v) := configs_parser_value_u32 t in
      _ ← when (0 <? ret) (set_data0 c (set_low 4 (ldata0 x) v)); mret ret
    else if ctype x =? CONFIG_TYPE_U64 then
      let '(ret, v) := configs_parser_value_u64 t in
      _ ← when (0 <? ret) (set_data0 c v); mret ret
    else if ctype x =? CONFIG_TYPE_FUN then
      if ldata1 x =? 0 then mret (-1)
      else
        w ← gets cworld;
        '(ret, w) ← of_opt (f_set (ldata1 x) (item_name x) (cid x) t w);
        _ ← put_world w;
        mret ret
    else mret (-4).

(** ** Listings

    The buffer is [buf + off], [size] bytes long; the length returned counts what
    did not fit. *)

Definition has (flags bit : Z) : bool := c_true (Z.land flags bit).
Definition CPREFIX : Z := MAX_PREFIX_NAME + MAX_ITEM_NAME.

(** [None]: the string does not fit the array. *)
Definition configs_build_prefix (n : mconfig_node) (pre : bytes) (mode size : Z) : option bytes :=
  let buf :=
    if has mode LIST_MODE_PATH_FULLPREFIX then prefix n
    else if has mode LIST_MODE_PATH_PREFIX then pre else [] in
  let buf := take (Z.to_nat (size - 1)) buf in
  match last buf with
  | None => Some buf
  | Some c => if c =? 46 then Some buf else cat_in size buf (str ".")
  end.

Fixpoint list_items (n : nat) (nd : mconfig_node) (arr i : Z) (pn_size : Z) (buf : bytes) (off size : Z)
    (cprefix : bytes) (mode : Z) : M (Z * bytes) :=
  match n with
  | O => mret (pn_size, buf)
  | S n =>
      if size - pn_size <=? 8 then mret (pn_size, buf)
      else
        x ← config_at (arr, i);
        let readable := has (rw_flags nd) CONFIG_FOR_R in
        '(ret, buf) ← of_opt (snprintf buf (off + pn_size) (size - pn_size)
          (str " " ++ cprefix ++ name nd ++ str "." ++ item_name x ++ (if readable then str "=" else [])));
        let pn_size := pn_size + ret in
        if has mode LIST_MODE_VAL && (has mode CONFIG_FOR_T || negb (has (rw_flags nd) CONFIG_FOR_T)) && readable then
          '(ret, buf) ← configs_config2str (arr, i) buf (off + pn_size) (size - pn_size);
          if 0 <? ret then
            if pn_size + ret <? size then
              buf ← of_opt (strcat buf off [newline]);
              list_items n nd arr (i + 1) (pn_size + (ret + 1)) buf off size cprefix mode
            else list_items n nd arr (i + 1) (pn_size + ret) buf off size cprefix mode
          else if (ret =? 0) && (pn_size + ret <? size) then
            buf ← of_opt (strcat buf off [newline]);
            list_items n nd arr (i + 1) pn_size buf off size cprefix mode
          else mret (pn_size, buf)
        else
          '(ret, buf) ← of_opt (snprintf buf (off + pn_size) (size - pn_size) [newline]);
          list_items n nd arr (i + 1) (pn_size + ret) buf off size cprefix mode
  end.

Definition configs_list_node_configs_locked (a : Z) (buf : bytes) (off size : Z) (cprefix : bytes) (mode : Z) : M (Z * bytes) :=
  nd ← node_at a;
  match configs nd with
  | None => mret (0, buf)
  | Some arr =>
      if size <? 8 then mret (0, buf)
      else list_items (Z.to_nat (configs_num nd)) nd arr 0 0 buf off size cprefix mode
  end.
Definition configs_list_node_configs (a : Z) (buf : bytes) (off size mode : Z) : M (Z * bytes) :=
  configs_list_node_configs_locked a buf off size [] mode.

Definition rw_word (rw : Z) : bytes :=
  match Z.land rw 3 with 0 => str "N" | 1 => str "r" | 2 => str "w" | _ => str "rw" end.
Definition node_info (c_prefix : bytes) (nd : mconfig_node) : bytes :=
  str "[NODE]" ++ c_prefix ++ name nd ++ str ":[" ++ rw_word (rw_flags nd) ++ str "/" ++ fmt_d (ref_cnt nd) ++ str "/" ++
  fmt_d (configs_num nd) ++ str "/" ++ fmt_d (depth nd) ++ str "]" ++ [newline].

(** The loop over the sons. *)
Fixpoint list_sons (list_node : Z -> bytes -> Z -> Z -> M (Z * bytes)) (sons : list Z) (pn_size : Z) (buf : bytes)
    (off size : Z) : M (Z * bytes) :=
  match sons with
  | [] => mret (pn_size, buf)
  | s :: sons =>
      '(ret, buf) ← list_node s buf (off + pn_size) (size - pn_size);
      list_sons list_node sons (if 0 <? ret then pn_size + ret else pn_size) buf off size
  end.

Fixpoint configs_list_nodes_in (fuel : nat) (mode : Z) (pre : bytes) (a : Z) (buf : bytes) (off size : Z) : M (Z * bytes) :=
  match fuel with
  | O => undef
  | S fuel =>
      nd ← node_at a;
      if size <=? 0 then mret (0, buf)
      else if negb (has (rw_flags nd) mode) then mret (0, buf)
      else
        cprefix ← of_opt (configs_build_prefix nd pre mode CPREFIX);
        '(pn_size, buf) ←
          (if has mode LIST_MODE_NODE_INFO then of_opt (snprintf buf off size (node_info cprefix nd)) else mret (0, buf));
        '(pn_size, buf) ←
          (if has mode LIST_MODE_CONFIGS_VAL then
             '(ret, buf) ← configs_list_node_configs_locked a buf (off + pn_size) (size - pn_size) cprefix mode;
             mret (if 0 <? ret then pn_size + ret else pn_size, buf)
           else mret (pn_size, buf));
        if has mode LIST_MODE_SUB_NODES && (0 <? son_node_num nd) then
          cprefix ←
            (if has mode LIST_MODE_PATH_PREFIX && (0 <? depth nd) then
               of_opt (cat_in CPREFIX cprefix (take (Z.to_nat (CPREFIX - 1)) (name nd)))
             else mret cprefix);
          list_sons (configs_list_nodes_in fuel mode cprefix) (son_node_list nd) pn_size buf off size
        else mret (pn_size, buf)
  end.

Definition configs_list_nodes (a : option Z) (buf : bytes) (off size mode : Z) : M (Z * bytes) :=
  configs_list_nodes_in WALK mode [] (default ROOT a) buf off size.

Definition configs_list_path_nodes (path : bytes) (buf : bytes) (off size mode : Z) : M (Z * bytes) :=
  node ← configs_get_node_path_end_node None path;
  match node with
  | None => mret (0, buf)
  | Some _ =>
      '(ret, buf) ← configs_list_nodes node buf off size mode;
      _ ← configs_put_node node true None;
      mret (ret, buf)
  end.

(** ** Items by path *)

(** How the walk of [configs_get_node_path_config] ends: with a malformed path,
    without a node (and the node whose references are given back), or at the node
    of the item. *)
Inductive walk :=
| Malformed
| Missing (node : option Z) (err : Z)
| Arrived (node : Z) (item : bytes).

Fixpoint config_walk (fuel : nat) (root node : Z) (next_path : bytes) : M walk :=
  match fuel with
  | O => undef
  | S fuel =>
      let '(i, sub, is_end) := configs_parser_first_node next_path in
      if (i <=? 0) || bool_decide (sub = []) then mret Malformed
      else if is_end then mret (Arrived node sub)
      else
        r ← configs_get_node_with_name (Some node) sub;
        match r with
        | None => mret (if node =? root then Missing None (- ENOENT) else Missing (Some node) (- EPERM))
        | Some a => config_walk fuel root a (drop (Z.to_nat i + 1) next_path)
        end
  end.

(** The error, or the item and the node that is held. *)
Definition configs_get_node_path_config (root_node : option Z) (path : option bytes) (set : bool) : M (Z + (Z * Z) * Z) :=
  match path with
  | None => mret (inl (- EIO))
  | Some path =>
      let root := default ROOT root_node in
      r ← config_walk (S (length path)) root root path;
      match r with
      | Malformed => mret (inl (-1))
      | Missing node err => _ ← configs_put_node node true (Some root); mret (inl err)
      | Arrived node sub =>
          n ← node_at node;
          let fail err := _ ← configs_put_node (Some node) true (Some root); mret (inl err) in
          if set && negb (has (rw_flags n) CONFIG_FOR_W) then fail (- ENOENT)
          else if negb set && negb (has (rw_flags n) CONFIG_FOR_R) then fail (- EPERM)
          else
            c ← configs_get_node_config node sub;
            match c with
            | None => fail (- EPERM)
            | Some c => mret (inr (c, node))
            end
      end
  end.

(** [val] is the memory of the caller, [size] bytes: read by a call with [set],
    written by the others; NULL is [None]. *)
Definition configs_setget_config_value (c : Z * Z) (val : option bytes) (size : Z) (set : bool) : M (Z * option bytes) :=
  x ← config_at c;
  match val with
  | None => mret (-1, val)
  | Some v =>
      if ldata0 x =? 0 then mret (-1, val)
      else
        let copy n : M (Z * option bytes) :=
          if size <? n then mret (-2, val)
          else
            o ← object x;
            if set then b ← of_opt (bget v 0 n); o ← of_opt (bput o 0 b); _ ← put_var (ldata0 x) o; mret (n, val)
            else b ← of_opt (bget o 0 n); v ← of_opt (bput v 0 b); mret (n, Some v) in
        let inside (n : nat) : M (Z * option bytes) :=
          let n' := Z.of_nat n in
          if size <? n' then mret (-2, val)
          else if set then b ← of_opt (bget v 0 n'); _ ← set_data0 c (set_low n (ldata0 x) (le_join b)); mret (n', val)
          else v ← of_opt (bput v 0 (le_split n (low n (ldata0 x)))); mret (n', Some v) in
        if (ctype x =? CONFIG_TYPE_PU32) || (ctype x =? CONFIG_TYPE_PI32) then copy 4
        else if ctype x =? CONFIG_TYPE_PU64 then copy 8
        else if (ctype x =? CONFIG_TYPE_PCSTR) && set then mret (-3, val)
        else if (ctype x =? CONFIG_TYPE_PCSTR) || (ctype x =? CONFIG_TYPE_PSTR) then
          let s := Z.min (size - 1) (csize x - 1) in
          if 0 <? s then
            o ← object x;
            if set then b ← of_opt (strncpy s v); o ← of_opt (bput o 0 b); _ ← put_var (ldata0 x) o; mret (s, val)
            else b ← of_opt (strncpy s o); v ← of_opt (bput v 0 b); mret (s, Some v)
          else mret (-3, val)
        else if (ctype x =? CONFIG_TYPE_U32) || (ctype x =? CONFIG_TYPE_I32) then inside 4%nat
        else if ctype x =? CONFIG_TYPE_U64 then inside 8%nat
        else mret (-4, val)
  end.

Definition configs_setget_node_path_value (topnode : option Z) (path : option bytes) (val : option bytes) (size : Z)
    (set : bool) : M (Z * option bytes) :=
  r ← configs_get_node_path_config topnode path set;
  match r with
  | inl err => mret (err, val)
  | inr (c, node) =>
      _ ← when (set && bool_decide (val = None)) undef;
      '(ret, val) ← configs_setget_config_value c val size set;
      _ ← configs_put_node (Some node) false topnode;
      _ ← configs_put_node (Some node) true topnode;
      mret (ret, val)
  end.

Definition configs_set_node_path_str (topnode : option Z) (path : bytes) (val : option bytes) : M Z :=
  match val with
  | None => mret (-1)
  | Some v =>
      if bool_decide (path = []) || bool_decide (v = []) then mret (-1)
      else
        r ← configs_get_node_path_config topnode (Some path) true;
        match r with
        | inl err => mret err
        | inr (c, node) =>
            ret ← configs_str2config c v;
            _ ← configs_put_node (Some node) false topnode;
            _ ← configs_put_node (Some node) true topnode;
            mret (if 0 <? ret then 0 else if ret =? 0 then -1 else ret)
        end
  end.

(** [path + strlen (name) + 1]; the path must start with the name, and the byte
    after it must exist. *)
Definition below_name (nm path : bytes) : option bytes :=
  if (length nm <? length path)%nat then Some (drop (S (length nm)) path) else None.

Definition configs_set_node_nodepath_str (topnode : option Z) (path : bytes) (val : option bytes) : M Z :=
  match topnode with
  | None => configs_set_node_path_str None path val
  | Some a =>
      n ← node_at a;
      if negb (starts_with (name n) path) then mret (-1)
      else p ← of_opt (below_name (name n) path); configs_set_node_path_str topnode p val
  end.

(** [set] in a node found by its own path, which is given back. *)
Definition set_below (pre : bytes) (set : option Z -> M Z) : M Z :=
  match pre with
  | [] => ret ← set None; _ ← configs_put_node None true None; mret ret
  | _ =>
      topnode ← configs_get_node_path_end_node None pre;
      match topnode with
      | None => mret (-1)
      | Some _ => ret ← set topnode; _ ← configs_put_node topnode true None; mret ret
      end
  end.
Definition configs_set_prefix_path_str (pre path : bytes) (t : option bytes) : M Z :=
  set_below pre (fun topnode => configs_set_node_path_str topnode path t).
Definition configs_set_node_path_valonpath (topnode : option Z) (path : bytes) : M Z :=
  configs_set_node_path_str topnode path (configs_parser_str_valstr path).
Definition configs_set_path_valonpath (path : bytes) : M Z := configs_set_node_path_valonpath None path.
Definition configs_set_prefix_path_valonpath (pre path : bytes) : M Z :=
  set_below pre (fun topnode => configs_set_node_path_str topnode path (configs_parser_str_valstr path)).

Definition configs_get_node_path_str (topnode : option Z) (path : bytes) (buf : bytes) (off size : Z) : M (Z * bytes) :=
  if bool_decide (path = []) then mret (-1, buf)
  else
    r ← configs_get_node_path_config topnode (Some path) false;
    match r with
    | inl err => mret (err, buf)
    | inr (c, node) =>
        '(ret, buf) ← configs_config2str c buf off size;
        _ ← configs_put_node (Some node) false topnode;
        _ ← configs_put_node (Some node) true topnode;
        mret (ret, buf)
    end.
Definition configs_get_node_nodepath_str (topnode : option Z) (path : bytes) (buf : bytes) (off size : Z) : M (Z * bytes) :=
  match topnode with
  | None => configs_get_node_path_str None path buf off size
  | Some a =>
      n ← node_at a;
      if negb (starts_with (name n) path) then mret (-1, buf)
      else p ← of_opt (below_name (name n) path); configs_get_node_path_str topnode p buf off size
  end.

Definition configs_set_node_path_value (topnode : option Z) (path val : option bytes) (size : Z) : M (Z * option bytes) :=
  configs_setget_node_path_value topnode path val size true.
Definition configs_get_node_path_value (topnode : option Z) (path val : option bytes) (size : Z) : M (Z * option bytes) :=
  configs_setget_node_path_value topnode path val size false.
Definition configs_get_node_path_u32 (topnode : option Z) (path val : option bytes) : M (Z * option bytes) :=
  configs_get_node_path_value topnode path val 4.
Definition configs_get_node_path_u64 (topnode : option Z) (path val : option bytes) : M (Z * option bytes) :=
  configs_get_node_path_value topnode path val 8.
Definition configs_set_node_path_u32 (topnode : option Z) (path : option bytes) (val : Z) : M Z :=
  r ← configs_set_node_path_value topnode path (Some (le_split 4 val)) 4; mret r.1.
Definition configs_set_node_path_u64 (topnode : option Z) (path : option bytes) (val : Z) : M Z :=
  r ← configs_set_node_path_value topnode path (Some (le_split 8 val)) 8; mret r.1.

Definition configs_config_system_init : M Z :=
  _ ← configs_init_new_node ROOT (str "root") CONFIG_FOR_RW;
  _ ← configs_register_node None ROOT;
  mret 0.
End Configs.
