(* ===== verification/ConfigsModule.v ===== *)
(** * The devices of the configuration tree (codec_mm/configs/configs_module.c)

    Nine nodes of the tree are character devices: reading one lists the tree
    below its node, its [ioctl] reads and writes items by path.  The attributes
    of the class list parts of the tree and set items.  Registration with the
    driver core is an argument. *)

From stdpp Require Import base numbers list option strings gmap.
From S2P Require Import Prelude StateM KText KNum Configs.

Definition MAX_OPENED_CNT : Z := 65536.
Definition EMFILE : Z := 24.
Definition MAX_VALUE_NAME : Z := 256.

(** One entry of [mediaconfig_nodes]; its count of open files is in the state. *)
Record mediaconfig_node := mk_media {
  mparent : bytes;
  mname : bytes;
  dev_name : bytes;
  mrw_flags : Z }.
Definition mediaconfig_nodes : list mediaconfig_node :=
  [ mk_media [] (str "media") (str "media") CONFIG_FOR_RW;
    mk_media (str "media") (str "decoder") (str "media.decoder") CONFIG_FOR_RW;
    mk_media (str "media") (str "parser") (str "media.parser") CONFIG_FOR_RW;
    mk_media (str "media") (str "video") (str "media.video") CONFIG_FOR_RW;
    mk_media (str "media") (str "amports") (str "media.amports") CONFIG_FOR_RW;
    mk_media (str "media") (str "tsync") (str "media.tsync") CONFIG_FOR_RW;
    mk_media (str "media") (str "codec_mm") (str "media.codec_mm") CONFIG_FOR_RW;
    mk_media (str "media") (str "audio") (str "media.audio") CONFIG_FOR_RW;
    mk_media (str "media") (str "vfm") (str "media.vfm") CONFIG_FOR_RW ].

(** The address of the node inside entry [i]. *)
Definition MEDIA_NODE (i : Z) : Z := 1 + i.

(** The private data of an open file, as far as the code reads or counts it. *)
Record config_file_private := mk_file {
  fnode : Z;
  opened_jiffies : Z;
  last_access_jiffies : Z;
  access_get_cnt : Z;
  access_set_cnt : Z;
  error_cnt : Z }.

(** The two strings of a [media_config_io_str]; [cmd_path] is followed by [val]. *)
Record media_config_io_str := mk_io { cmd_path : bytes; val : bytes }.
Definition CMD_PATH : Z := MAX_PREFIX_NAME + MAX_ITEM_NAME + 4.

Section Module.
Context {W : Type} `{CfgFuns W}.

(** The tree and the counts of open files. *)
Record mcfg := mk_mcfg { tree : cfg W; opened_cnt : list Z }.
Abbreviation M := (@ST mcfg).
Definition on_tree {A} (m : @ST (cfg W) A) : M A := fun s =>
  '(a, t) ← m (tree s); Some (a, mk_mcfg t (opened_cnt s)).
Definition opened_of (i : Z) : M Z := fun s => c ← aget (opened_cnt s) i; Some (c, s).
Definition set_opened (i c : Z) : M unit := fun s => l ← aset (opened_cnt s) i c; Some (tt, mk_mcfg (tree s) l).

(** [iminor (inode)]; the memory for the file may be refused. *)
Definition configs_open (minor jiffies : Z) (kzalloc_ok : bool) : M (Z + config_file_private) :=
  cnt ← opened_of minor;
  if MAX_OPENED_CNT <? cnt then mret (inl (- EMFILE))
  else if negb kzalloc_ok then mret (inl (- ENOMEM))
  else
    _ ← set_opened minor (s32 (cnt + 1));
    _ ← on_tree (configs_inc_node_ref (MEDIA_NODE minor));
    mret (inr (mk_file minor jiffies 0 0 0 0)).

Definition configs_close (f : config_file_private) : M Z :=
  _ ← on_tree (configs_dec_node_ref (MEDIA_NODE (fnode f)));
  cnt ← opened_of (fnode f);
  _ ← set_opened (fnode f) (s32 (cnt - 1));
  mret 0.

(** The result, the buffer of the reader and the position. *)
Definition configs_read (f : config_file_private) (buf : bytes) (count ppos : Z) (access_ok : bool) : M (Z * bytes * Z) :=
  if 0 <? ppos then mret (0, buf, ppos)
  else if negb access_ok then mret (- EIO, buf, ppos)
  else
    '(ret, buf) ← on_tree (configs_list_nodes (Some (MEDIA_NODE (fnode f))) buf 0 (s32 count) LIST_MODE_NODE_CMDVAL_ALL);
    mret (ret, buf, if 0 <? ret then ret else ppos).

Inductive ioctl_cmd := MEDIA_CONFIG_SET_CMD_STR | MEDIA_CONFIG_GET_CMD_STR | OTHER_CMD.

(** What the caller finds in its structure: the result and the value, where they
    are written. *)
Record io_out := mk_out { out_ret : option Z; out_val : option bytes }.

(** [from_user]: whether the copies from the caller succeed; [to_user] the copy
    of the value. *)
Definition ioctl_set (f : config_file_private) (io : media_config_io_str) (from_user : bool) : M Z :=
  if negb from_user then mret (- EIO)
  else
    m ← of_opt (aget mediaconfig_nodes (fnode f));
    if starts_with (dev_name m) (cmd_path io) then
      path ← of_opt (cstring_at (cmd_path io ++ val io) 0);
      v ← of_opt (cstring_at (val io) 0);
      on_tree (configs_set_node_nodepath_str None path (Some v))
    else mret 0.

(** The bytes of [io.val] on the stack are [stack]; the first is cleared. *)
Definition ioctl_get (f : config_file_private) (io : media_config_io_str) (stack : bytes) (from_user to_user : bool) : M (Z * io_out) :=
  let nothing := mk_out None None in
  path ← of_opt (aset (cmd_path io) (CMD_PATH - 1) 0);
  if negb from_user then mret (- EIO, nothing)
  else
    v ← of_opt (aset stack 0 0);
    m ← of_opt (aget mediaconfig_nodes (fnode f));
    if starts_with (dev_name m) path then
      '(r, v) ← on_tree (configs_get_node_nodepath_str None (c_str path) v 0 MAX_VALUE_NAME);
      if (0 <? r) && (r <=? MAX_VALUE_NAME - 1) then
        if to_user then out ← of_opt (bget v 0 (r + 1)); mret (0, mk_out (Some r) (Some out))
        else mret (- EIO, nothing)
      else mret (r, mk_out (Some (-1)) None)
    else mret (0, nothing).

Definition configs_ioctl (f : config_file_private) (cmd : ioctl_cmd) (io : media_config_io_str) (stack : bytes)
    (from_user to_user : bool) (jiffies : Z) : M (Z * io_out * config_file_private) :=
  let nothing := mk_out None None in
  let f := mk_file (fnode f) (opened_jiffies f) jiffies (access_get_cnt f) (access_set_cnt f) (error_cnt f) in
  '(r, out, f) ←
    match cmd with
    | MEDIA_CONFIG_SET_CMD_STR =>
        let f := mk_file (fnode f) (opened_jiffies f) jiffies (access_get_cnt f) (s64 (access_set_cnt f + 1)) (error_cnt f) in
        r ← ioctl_set f io from_user; mret (r, nothing, f)
    | MEDIA_CONFIG_GET_CMD_STR =>
        let f := mk_file (fnode f) (opened_jiffies f) jiffies (s64 (access_get_cnt f + 1)) (access_set_cnt f) (error_cnt f) in
        '(r, out) ← ioctl_get f io stack from_user to_user; mret (r, out, f)
    | OTHER_CMD => mret (- EINVAL, nothing, f)
    end;
  mret (r, out,
    if r <? 0 then mk_file (fnode f) (opened_jiffies f) jiffies (access_get_cnt f) (access_set_cnt f) (s64 (error_cnt f + 1))
    else f).

(** ** The class *)

(** The [_show] functions of the parts: a path, or the whole tree. *)
Definition show_result (r : Z * bytes) : Z * bytes := (if 0 <? r.1 then r.1 else - EPERM, r.2).
Definition show_path (path : bytes) (page : bytes) : M (Z * bytes) :=
  r ← on_tree (configs_list_path_nodes path page 0 PAGE_SIZE LIST_MODE_NODE_CMDVAL_ALL); mret (show_result r).
Definition all_show (page : bytes) : M (Z * bytes) :=
  r ← on_tree (configs_list_nodes None page 0 PAGE_SIZE LIST_MODE_NODE_CMDVAL_ALL); mret (show_result r).
Definition config_show (page : bytes) : M (Z * bytes) := all_show page.
Definition media_show := show_path (str "media").
Definition video_show := show_path (str "media.video").
Definition decoder_show := show_path (str "media.decoder").
Definition vdec_show := show_path (str "media.vdec").
Definition tsync_show := show_path (str "media.tsync").
Definition amports_show := show_path (str "media.amports").
Definition parser_show := show_path (str "media.parser").
Definition audio_show := show_path (str "media.audio").
Definition vfm_show := show_path (str "media.vfm").

Definition config_store (buf : bytes) (size : Z) : M Z :=
  ret ← on_tree (configs_set_path_valonpath buf);
  mret (if 0 <=? ret then size else ret).

(** ** Start *)

Fixpoint register_media (l : list mediaconfig_node) (i : Z) : M Z :=
  match l with
  | [] => mret 0
  | m :: l =>
      _ ← on_tree (configs_init_new_node (MEDIA_NODE i) (mname m) (mrw_flags m));
      r ← on_tree (configs_register_path_node (mparent m) (MEDIA_NODE i));
      if r <? 0 then mret r else register_media l (i + 1)
  end.
Definition media_configs_system_init : M Z :=
  _ ← on_tree configs_config_system_init;
  register_media mediaconfig_nodes 0.
End Module.
Arguments mcfg W : clear implicits.

(** What the registration of the devices leaves registered: the class of the
    attributes, the device number, the class of the devices, the devices. *)
Inductive dev_res := ResClass | ResChrdev | ResDevClass | ResDevice (i : Z).

(** The answers of the driver core: [class_reg] of [class_register], [chrdev] of
    [register_chrdev] (an error below 0), [device_ok] of [device_create]. *)
Fixpoint create_devices (device_ok : Z -> bool) (n : nat) (i : Z) : Z * list dev_res :=
  match n with
  | O => (0, [])
  | S n =>
      if device_ok i then let '(r, l) := create_devices device_ok n (i + 1) in (r, ResDevice i :: l) else (-1, [])
  end.

(** Destroying a class whose registration failed uses memory that is gone. *)
Definition configs_init_devices (class_reg chrdev : Z) (device_ok : Z -> bool) : option (Z * list dev_res) :=
  if c_true class_reg then None
  else if chrdev <? 0 then Some (chrdev, [])
  else
    let '(r, devs) := create_devices device_ok (length mediaconfig_nodes) 0 in
    if r <? 0 then Some (r, ResDevClass :: devs) else Some (0, ResClass :: ResChrdev :: ResDevClass :: devs).
