(* ===== verification/ConfigsTree.v ===== *)
(** * The shape of the configuration tree and its references

    The invariant of the tree, the walks up and down it, and what the functions
    that look up a path do to the reference counts: every one of them is [bump], a
    change of the counts of a list of nodes. *)

From stdpp Require Import base numbers list option strings gmap sets.
From S2P Require Import Prelude StateM KText KNum Configs.

Abbreviation node_map := (gmap Z mconfig_node).

(** The dotted path of a node, as its sons carry it. *)
Definition path_below (n : mconfig_node) : bytes :=
  if depth n =? 0 then [] else match prefix n with [] => name n | p => p ++ str "." ++ name n end.

Record linked (p : mconfig_node) (pa : Z) (n : mconfig_node) : Prop := {
  lk_parent : parent_node n = Some pa;
  lk_depth : depth n = depth p + 1;
  lk_prefix : prefix n = path_below p;
  lk_rw : Z.land (rw_flags p) (rw_flags n) = rw_flags n;
  lk_room : depth p < MAX_DEPTH;
  lk_short : zlen (prefix p) + zlen (name p) < MAX_PREFIX_NAME - 2 }.

Record tree_ok (N : node_map) : Prop := {
  tk_root : exists r, N !! ROOT = Some r /\ parent_node r = None /\ depth r = 0 /\ prefix r = [] /\ link r = Alone;
  tk_sons : forall a n s, N !! a = Some n -> s ∈ son_node_list n -> exists m, N !! s = Some m /\ link m = OnList a /\ linked n a m;
  tk_link : forall s m p, N !! s = Some m -> link m = OnList p -> exists n, N !! p = Some n /\ s ∈ son_node_list n;
  tk_nodup : forall a n, N !! a = Some n -> NoDup (son_node_list n);
  tk_num : forall a n, N !! a = Some n -> son_node_num n = zlen (son_node_list n);
  tk_depth : forall a n, N !! a = Some n -> 0 <= depth n <= MAX_DEPTH;
  tk_prefix : forall a n, N !! a = Some n -> zlen (prefix n) < MAX_PREFIX_NAME - 1 /\ (depth n = 0 -> prefix n = []) }.

(** ** Changes of reference counts *)

Definition shift (d : Z) (n : mconfig_node) : mconfig_node := with_ref n (s32 (ref_cnt n + d)).
Definition bump (d : Z) (l : list Z) (N : node_map) : node_map := foldr (alter (shift d)) N l.
Definition counts_fit (N : node_map) : Prop := forall a n, N !! a = Some n -> - 2 ^ 31 <= ref_cnt n < 2 ^ 31.

Lemma shift_comm d e n : shift d (shift e n) = shift e (shift d n).
Proof. unfold shift, with_ref. cbn. rewrite !s32_add. by replace (ref_cnt n + e + d) with (ref_cnt n + d + e) by lia. Qed.
Lemma alter_shift_comm d e a b (N : node_map) : alter (shift d) a (alter (shift e) b N) = alter (shift e) b (alter (shift d) a N).
Proof.
  destruct (decide (a = b)) as [->|Hne]; [|by rewrite alter_alter_ne].
  apply map_eq. intros i. destruct (decide (b = i)) as [->|Hi]; [|by rewrite !lookup_alter_ne].
  rewrite !lookup_alter, !decide_True by done. destruct (N !! i); [|done]. cbn. by rewrite shift_comm.
Qed.
Lemma bump_cons d a l N : bump d (a :: l) N = alter (shift d) a (bump d l N).
Proof. done. Qed.
Lemma bump_alter d l e a N : bump d l (alter (shift e) a N) = alter (shift e) a (bump d l N).
Proof. induction l as [|b l IH]; [done|]. by rewrite !bump_cons, IH, alter_shift_comm. Qed.
Lemma bump_comm d l e k N : bump d l (bump e k N) = bump e k (bump d l N).
Proof. induction k as [|a k IH]; [done|]. by rewrite !bump_cons, bump_alter, IH. Qed.
Lemma bump_app d l k N : bump d (l ++ k) N = bump d l (bump d k N).
Proof. unfold bump. by rewrite foldr_app. Qed.
Lemma bump_out d l N a : a ∉ l -> bump d l N !! a = N !! a.
Proof.
  induction l as [|b l IH]; [done|]. rewrite not_elem_of_cons. intros [Hb Hl]. rewrite bump_cons, lookup_alter_ne by done. auto.
Qed.
Lemma bump_in d l N a : NoDup l -> a ∈ l -> bump d l N !! a = shift d <$> N !! a.
Proof.
  induction l as [|b l IH]; [intros _ Ha; by apply elem_of_nil in Ha|]. intros [Hb Hl]%NoDup_cons Ha. rewrite bump_cons.
  apply elem_of_cons in Ha as [->|Ha].
  - rewrite lookup_alter, decide_True by done. by rewrite bump_out.
  - rewrite lookup_alter_ne by (by intros ->). by apply IH.
Qed.
Lemma bump_fit d l N : counts_fit N -> counts_fit (bump d l N).
Proof.
  intros HN. induction l as [|b l IH]; [done|]. intros a n. rewrite bump_cons. intros E. apply lookup_alter_Some in E as [(<- & m & E & ->)|[_ E]].
  - cbn. pose proof (s32_range (ref_cnt m + d)). lia.
  - by eapply IH.
Qed.
Lemma bump_back l N : counts_fit N -> bump (-1) l (bump 1 l N) = N.
Proof.
  intros HN. induction l as [|a l IH]; [done|]. rewrite !bump_cons, bump_alter, IH.
  apply map_eq. intros i. destruct (decide (a = i)) as [->|Hi]; [|by rewrite !lookup_alter_ne].
  rewrite !lookup_alter, !decide_True by done. destruct (N !! i) as [n|] eqn:E; [|done]. cbn. f_equal.
  unfold shift, with_ref. cbn. rewrite s32_add. replace (ref_cnt n + 1 + -1) with (ref_cnt n) by lia.
  rewrite s32_small by (specialize (HN i n E); lia). by destruct n.
Qed.

(** A node without its count, and without its state and items as well. *)
Definition unref (n : mconfig_node) : mconfig_node := with_ref n 0.
Definition bare (n : mconfig_node) : mconfig_node := with_configs (with_active (with_ref n 0) 0) None 0.

(** [N'] is [N] up to the counts; up to counts, states and items. *)
Definition same_shape (N N' : node_map) : Prop := forall a, unref <$> N' !! a = unref <$> N !! a.
Definition same_frame (N N' : node_map) : Prop := forall a, bare <$> N' !! a = bare <$> N !! a.

Lemma bump_shape d l N : same_shape N (bump d l N).
Proof.
  intros a. induction l as [|b l IH]; [done|]. rewrite bump_cons. destruct (decide (b = a)) as [->|Hne]; [|by rewrite lookup_alter_ne].
  rewrite lookup_alter, decide_True by done. rewrite <- IH. by destruct (bump d l N !! a).
Qed.
Lemma same_shape_refl N : same_shape N N.
Proof. done. Qed.
Lemma same_shape_sym N N' : same_shape N N' -> same_shape N' N.
Proof. intros H a. by rewrite H. Qed.
Lemma same_shape_trans N1 N2 N3 : same_shape N1 N2 -> same_shape N2 N3 -> same_shape N1 N3.
Proof. intros H1 H2 a. by rewrite H2, H1. Qed.
Lemma shape_frame N N' : same_shape N N' -> same_frame N N'.
Proof.
  intros H a. specialize (H a). destruct (N !! a) as [n|], (N' !! a) as [n'|]; try done. apply (inj Some) in H. cbn. f_equal.
  unfold bare. change (with_ref n' 0) with (unref n'). by rewrite H.
Qed.
Lemma shape_at N N' a n : same_shape N N' -> N !! a = Some n -> exists n', N' !! a = Some n' /\ unref n' = unref n.
Proof. intros H E. specialize (H a). rewrite E in H. destruct (N' !! a) as [n'|]; [|done]. exists n'. split; [done|]. by apply (inj Some) in H. Qed.
Lemma frame_at N N' a n : same_frame N N' -> N !! a = Some n -> exists n', N' !! a = Some n' /\ bare n' = bare n.
Proof. intros H E. specialize (H a). rewrite E in H. destruct (N' !! a) as [n'|]; [|done]. exists n'. split; [done|]. by apply (inj Some) in H. Qed.
Lemma unref_fields n n' :
  unref n' = unref n ->
  prefix n' = prefix n /\ name n' = name n /\ active n' = active n /\ depth n' = depth n /\ parent_node n' = parent_node n /\
  link n' = link n /\ son_node_num n' = son_node_num n /\ son_node_list n' = son_node_list n /\ configs_num n' = configs_num n /\
  configs n' = configs n /\ rw_flags n' = rw_flags n.
Proof. destruct n, n'. unfold unref, with_ref. cbn. intros [= -> -> -> -> -> -> -> -> -> -> ->]. done. Qed.
Lemma bare_fields n n' :
  bare n' = bare n ->
  prefix n' = prefix n /\ name n' = name n /\ depth n' = depth n /\ parent_node n' = parent_node n /\
  link n' = link n /\ son_node_num n' = son_node_num n /\ son_node_list n' = son_node_list n /\ rw_flags n' = rw_flags n.
Proof. destruct n, n'. unfold bare, with_ref, with_active, with_configs. cbn. intros [= -> -> -> -> -> -> -> ->]. done. Qed.
Ltac unref_eqs H :=
  apply unref_fields in H as (Hf_prefix & Hf_name & Hf_active & Hf_depth & Hf_parent & Hf_link & Hf_num & Hf_sons & Hf_cnum & Hf_cfg & Hf_rw).
Ltac bare_eqs H := apply bare_fields in H as (Hf_prefix & Hf_name & Hf_depth & Hf_parent & Hf_link & Hf_num & Hf_sons & Hf_rw).

Lemma frame_ok N N' : same_frame N N' -> tree_ok N -> tree_ok N'.
Proof.
  intros HS [Hroot Hsons Hlink Hnd Hnum Hdep Hpre]. assert (HS' : same_frame N' N) by (intros a; by rewrite HS).
  assert (Hget : forall a n, N' !! a = Some n -> exists m, N !! a = Some m /\ bare m = bare n) by (intros a n; by apply frame_at).
  split.
  - destruct Hroot as (r & E & H1 & H2 & H3 & H4). destruct (frame_at _ _ _ _ HS E) as (r' & E' & U). bare_eqs U.
    exists r'. split; [done|]. by rewrite Hf_parent, Hf_depth, Hf_prefix, Hf_link.
  - intros a n s E Hs. destruct (Hget a n E) as (m & Em & U). bare_eqs U. rewrite <- Hf_sons in Hs.
    destruct (Hsons a m s Em Hs) as (x & Ex & Hl & [L1 L2 L3 L4 L5 L6]). destruct (frame_at _ _ _ _ HS Ex) as (x' & Ex' & V). exists x'.
    apply bare_fields in V as (V1 & V2 & V3 & V4 & V5 & V6 & V7 & V8). split; [done|]. split; [by rewrite V5|].
    split; rewrite ?V1, ?V3, ?V4, ?V8, <- ?Hf_depth, <- ?Hf_prefix, <- ?Hf_name, <- ?Hf_rw; try done.
    rewrite L3. unfold path_below. by rewrite Hf_depth, Hf_prefix, Hf_name.
  - intros s m p E Hl. destruct (Hget s m E) as (x & Ex & U). bare_eqs U. rewrite <- Hf_link in Hl.
    destruct (Hlink s x p Ex Hl) as (n & En & Hin). destruct (frame_at _ _ _ _ HS En) as (n' & En' & V). exists n'. split; [done|].
    apply bare_fields in V as (_ & _ & _ & _ & _ & _ & V7 & _). by rewrite V7.
  - intros a n E. destruct (Hget a n E) as (m & Em & U). bare_eqs U. rewrite <- Hf_sons. by eapply Hnd.
  - intros a n E. destruct (Hget a n E) as (m & Em & U). bare_eqs U. rewrite <- Hf_sons, <- Hf_num. by eapply Hnum.
  - intros a n E. destruct (Hget a n E) as (m & Em & U). bare_eqs U. rewrite <- Hf_depth. by eapply Hdep.
  - intros a n E. destruct (Hget a n E) as (m & Em & U). bare_eqs U. rewrite <- Hf_depth, <- Hf_prefix. by eapply Hpre.
Qed.
Lemma shape_ok N N' : same_shape N N' -> tree_ok N -> tree_ok N'.
Proof. intros H. by apply frame_ok, shape_frame. Qed.
Lemma bump_ok d l N : tree_ok N -> tree_ok (bump d l N).
Proof. apply shape_ok, bump_shape. Qed.
Create HintDb configs.
#[export] Hint Resolve bump_ok bump_fit bump_shape : configs.

(** ** The walk up *)

(** [l] is [a], its parent and so on up to [top], which is left out. *)
Inductive below (N : node_map) (top : Z) : list Z -> Z -> Prop :=
| below_top : below N top [] top
| below_son l p n s : below N top l p -> N !! p = Some n -> s ∈ son_node_list n -> below N top (s :: l) s.

Lemma below_shape N N' top l a : same_shape N N' -> below N top l a -> below N' top l a.
Proof.
  intros HS. induction 1 as [|l p n s H IH E Hs]; [constructor|]. destruct (shape_at _ _ _ _ HS E) as (n' & E' & U). unref_eqs U.
  apply below_son with p n'; [done|done|by rewrite Hf_sons].
Qed.

Lemma below_last N top l a : below N top l a -> match l with [] => a = top | b :: _ => b = a end.
Proof. by inversion 1. Qed.

Lemma below_depth N top l a t :
  tree_ok N -> N !! top = Some t -> below N top l a ->
  exists n, N !! a = Some n /\ depth n = depth t + zlen l /\
    forall x, x ∈ l -> exists m, N !! x = Some m /\ depth t < depth m <= depth n.
Proof.
  intros HN Ht. induction 1 as [|l p n s H IH E Hs].
  - exists t. split; [done|]. split; [cbn; lia|]. intros x Hx. by apply elem_of_nil in Hx.
  - destruct IH as (n' & E' & Hd & Hall). rewrite E in E'. injection E' as <-. destruct (tk_sons N HN p n s E Hs) as (m & Em & Hl & Hk). exists m.
    split; [done|]. pose proof (lk_depth _ _ _ Hk) as Hm. split; [cbn [length]; lia|]. intros x Hx. apply elem_of_cons in Hx as [->|Hx].
    + exists m. split; [done|]. lia.
    + destruct (Hall x Hx) as (y & Ey & Hy). exists y. split; [done|]. lia.
Qed.

(** A node below is not above. *)
Lemma below_fresh N top l a n s t :
  tree_ok N -> N !! top = Some t -> below N top l a -> N !! a = Some n -> s ∈ son_node_list n -> (s ∉ l) /\ s <> top.
Proof.
  intros HN Ht Hb E Hs. destruct (below_depth N top l a t HN Ht Hb) as (n' & E' & Hd & Hall). rewrite E in E'. injection E' as <-.
  destruct (tk_sons N HN a n s E Hs) as (m & Em & _ & Hk). pose proof (lk_depth _ _ _ Hk) as Hm. split.
  - intros Hin. destruct (Hall s Hin) as (y & Ey & Hy). simplify_eq. lia.
  - intros ->. simplify_eq. lia.
Qed.

Lemma below_length N l a : tree_ok N -> below N ROOT l a -> (length l <= 8)%nat.
Proof.
  intros HN H. destruct (tk_root N HN) as (r & Er & _ & Hr & _). destruct (below_depth N ROOT l a r HN Er H) as (n & En & Hd & _).
  pose proof (tk_depth N HN a n En). unfold MAX_DEPTH in *. lia.
Qed.
Lemma below_nodup N top l a t : tree_ok N -> N !! top = Some t -> below N top l a -> NoDup l.
Proof.
  intros HN Ht. induction 1 as [|l p n s H IH E Hs]; [constructor|]. constructor; [|done]. by destruct (below_fresh N top l p n s t HN Ht H E Hs).
Qed.
Lemma below_trans N top mid l k a : below N top l mid -> below N mid k a -> below N top (k ++ l) a.
Proof. intros Hl. induction 1 as [|k p n s H IH E Hs]; [done|]. cbn. by apply below_son with p n. Qed.

Section Runs.
Context {W : Type} `{CfgFuns W}.
Implicit Types (s : cfg W) (N : node_map).

Definition with_nodes s N : cfg W := mk_cfg N (arrays s) (vars s) (cworld s).
Lemma with_nodes_eta s : with_nodes s (nodes s) = s.
Proof. by destruct s. Qed.

Lemma node_at_run {B} a n N s (f : mconfig_node -> ST B) :
  N !! a = Some n -> (node_at a ≫= f) (with_nodes s N) = f n (with_nodes s N).
Proof. intros E. apply run_bind. unfold node_at. cbn. by rewrite E. Qed.

Lemma put_shift a n d N s : N !! a = Some n -> put_at a (with_ref n (s32 (ref_cnt n + d))) (with_nodes s N) = Some (tt, with_nodes s (bump d [a] N)).
Proof.
  intros E. unfold put_at, modify, with_nodes. cbn. repeat f_equal. apply map_eq. intros i. destruct (decide (a = i)) as [->|Hne].
  - rewrite lookup_insert, lookup_alter, !decide_True, E by done. done.
  - by rewrite lookup_insert_ne, lookup_alter_ne.
Qed.

Lemma inc_count_run {B} a n N s (f : Z -> ST B) :
  N !! a = Some n ->
  (configs_inc_node_ref a ≫= f) (with_nodes s N) = f (s32 (ref_cnt n + 1)) (with_nodes s (bump 1 [a] N)).
Proof.
  intros E. apply run_bind. unfold configs_inc_node_ref. rewrite (node_at_run a n) by done. cbv zeta. by rewrite (run_bind _ _ _ _ _ (put_shift a n 1 N s E)).
Qed.
Lemma dec_count_run {B} a n N s (f : Z -> ST B) :
  N !! a = Some n ->
  (configs_dec_node_ref a ≫= f) (with_nodes s N) = f (s32 (ref_cnt n - 1)) (with_nodes s (bump (-1) [a] N)).
Proof.
  intros E. apply run_bind. unfold configs_dec_node_ref. rewrite (node_at_run a n) by done. cbv zeta.
  change (ref_cnt n - 1) with (ref_cnt n + -1). by rewrite (run_bind _ _ _ _ _ (put_shift a n (-1) N s E)).
Qed.

(** Giving back the references above a node. *)
Lemma put_parents_run {B} fuel top l a N s (f : unit -> ST B) t :
  tree_ok N -> N !! top = Some t -> below N top l a -> (length l <= fuel)%nat ->
  (put_parents fuel (Some a) (Some top) ≫= f) (with_nodes s N) = f tt (with_nodes s (bump (-1) l N)).
Proof.
  intros HN Ht Hb. revert N t HN Ht Hb. revert fuel a.
  induction l as [|b l IH]; intros fuel a N t HN Ht Hb Hf.
  - pose proof (below_last _ _ _ _ Hb) as ->. destruct fuel; cbn [put_parents]; by rewrite bool_decide_eq_true_2.
  - pose proof (below_last _ _ _ _ Hb) as ->. inversion Hb as [|l' p n s' Hb' Ep Hs]; subst. destruct fuel as [|fuel]; [cbn in Hf; lia|].
    destruct (below_fresh _ _ _ _ _ _ _ HN Ht Hb' Ep Hs) as [Hnin Hne]. destruct (tk_sons N HN p n a Ep Hs) as (m & Em & _ & Hk).
    cbn [put_parents]. rewrite bool_decide_eq_false_2 by congruence. rewrite bind_assoc. rewrite (dec_count_run a m) by done.
    rewrite bind_assoc. destruct (shape_at N (bump (-1) [a] N) a m (bump_shape _ _ _) Em) as (m' & Em' & U). unref_eqs U.
    rewrite (node_at_run a m') by done. rewrite Hf_parent, (lk_parent _ _ _ Hk).
    destruct (shape_at N (bump (-1) [a] N) top t (bump_shape _ _ _) Ht) as (t' & Et' & _).
    rewrite (IH fuel p (bump (-1) [a] N) t') by (try eapply below_shape; eauto using bump_ok, bump_shape; cbn in Hf; lia).
    by rewrite <- bump_app, bump_app, bump_comm, <- bump_app.
Qed.
Lemma put_all_run {B} fuel l a root N s (f : unit -> ST B) :
  tree_ok N -> below N ROOT l a -> (length l < fuel)%nat -> (forall x, x ∈ l ++ [ROOT] -> root <> Some x) ->
  (put_parents fuel (Some a) root ≫= f) (with_nodes s N) = f tt (with_nodes s (bump (-1) (l ++ [ROOT]) N)).
Proof.
  intros HN Hb. revert N HN Hb. revert fuel a.
  induction l as [|b l IH]; intros fuel a N HN Hb Hf Hr; (destruct fuel as [|fuel]; [cbn in Hf; lia|]); cbn [put_parents];
    pose proof (below_last _ _ _ _ Hb) as Hl; cbn in Hl; rewrite bool_decide_eq_false_2 by (apply Hr; subst; set_solver); rewrite bind_assoc.
  - subst a. destruct (tk_root N HN) as (r & Er & Hp & _). rewrite (dec_count_run ROOT r), bind_assoc by done.
    destruct (shape_at N (bump (-1) [ROOT] N) ROOT r (bump_shape _ _ _) Er) as (r' & Er' & U). unref_eqs U.
    rewrite (node_at_run ROOT r'), Hf_parent, Hp by done. by destruct fuel.
  - subst b. inversion Hb as [|l' p n s' Hb' Ep Hs]; subst. destruct (tk_sons N HN p n a Ep Hs) as (m & Em & _ & Hk).
    rewrite (dec_count_run a m), bind_assoc by done.
    destruct (shape_at N (bump (-1) [a] N) a m (bump_shape _ _ _) Em) as (m' & Em' & U). unref_eqs U.
    rewrite (node_at_run a m'), Hf_parent, (lk_parent _ _ _ Hk) by done.
    rewrite (IH fuel p (bump (-1) [a] N)) by
      (first [by eapply below_shape; eauto using bump_shape|by apply bump_ok|cbn in Hf; lia|intros x Hx; apply Hr, elem_of_cons; by right]).
    by rewrite <- app_comm_cons, bump_cons, bump_alter.
Qed.

(** [configs_put_node] of a node found below [top], up to [top]; and, with no
    node to stop at above, up to the root and its count too. *)
Lemma put_node_run {B} top l a t N s (f : Z -> ST B) :
  tree_ok N -> N !! top = Some t -> below N top (a :: l) a -> (length l <= WALK)%nat ->
  (configs_put_node (Some a) true (Some top) ≫= f) (with_nodes s N) = f 0 (with_nodes s (bump (-1) (a :: l) N)).
Proof.
  intros HN Ht Hb Hl. inversion Hb as [|l' p n s' Hb' Ep Hs]; subst. destruct (tk_sons N HN p n a Ep Hs) as (m & Em & _ & Hk).
  unfold configs_put_node. cbn [negb]. rewrite bind_assoc, (dec_count_run a m), bind_assoc by done.
  destruct (shape_at N (bump (-1) [a] N) a m (bump_shape _ _ _) Em) as (m' & Em' & U). unref_eqs U.
  rewrite (node_at_run a m'), Hf_parent, (lk_parent _ _ _ Hk), bind_assoc by done.
  destruct (shape_at N (bump (-1) [a] N) top t (bump_shape _ _ _) Ht) as (t' & Et' & _).
  rewrite (put_parents_run WALK top l p _ s _ t') by (try eapply below_shape; eauto using bump_ok, bump_shape).
  rewrite run_ret. by rewrite bump_cons, bump_alter.
Qed.
Lemma put_node_all_run {B} l a root N s (f : Z -> ST B) :
  tree_ok N -> below N ROOT l a -> root = None \/ root = Some a ->
  (configs_put_node (Some a) true root ≫= f) (with_nodes s N) = f 0 (with_nodes s (bump (-1) (l ++ [ROOT]) N)).
Proof.
  intros HN Hb Hroot. pose proof (below_length N l a HN Hb) as Hlen. unfold configs_put_node. cbn [negb].
  pose proof (below_last _ _ _ _ Hb) as Hl. destruct (tk_root N HN) as (r & Er & Hp & _). destruct l as [|b l].
  - cbn in Hl. subst a. rewrite bind_assoc, (dec_count_run ROOT r), bind_assoc by done.
    destruct (shape_at N (bump (-1) [ROOT] N) ROOT r (bump_shape _ _ _) Er) as (r' & Er' & U). unref_eqs U.
    rewrite (node_at_run ROOT r'), Hf_parent, Hp by done. done.
  - cbn in Hl. subst b. inversion Hb as [|l' p n s' Hb' Ep Hs]; subst. destruct (tk_sons N HN p n a Ep Hs) as (m & Em & _ & Hk).
    rewrite bind_assoc, (dec_count_run a m), bind_assoc by done.
    destruct (shape_at N (bump (-1) [a] N) a m (bump_shape _ _ _) Em) as (m' & Em' & U). unref_eqs U.
    rewrite (node_at_run a m'), Hf_parent, (lk_parent _ _ _ Hk), bind_assoc by done.
    destruct (below_fresh N ROOT l p n a r HN Er Hb' Ep Hs) as [Hnin Hne].
    assert (forall x, x ∈ l ++ [ROOT] -> root <> Some x) as Habove.
    { intros x Hx ->. destruct Hroot as [?|[= ->]]; [done|]. apply elem_of_app in Hx as [Hx|Hx]; [done|]. by apply list_elem_of_singleton in Hx. }
    rewrite (put_all_run WALK l p) by
      (first [by eapply below_shape; eauto using bump_shape|by apply bump_ok|unfold WALK; cbn in Hlen; lia|exact Habove]).
    rewrite run_ret. by rewrite <- app_comm_cons, bump_cons, bump_alter.
Qed.

Lemma put_node_once_run {B} a n root N s (f : Z -> ST B) :
  N !! a = Some n -> (configs_put_node (Some a) false root ≫= f) (with_nodes s N) = f 0 (with_nodes s (bump (-1) [a] N)).
Proof.
  intros E. unfold configs_put_node. cbn [negb]. rewrite bind_assoc, (dec_count_run a n), bind_assoc by done.
  destruct (shape_at N (bump (-1) [a] N) a n (bump_shape _ _ _) E) as (n' & E' & _). by rewrite (node_at_run a n').
Qed.

(** ** The walk down *)

(** The active son of that name among [l]; a son of the name that is not active
    hides the others. *)
Fixpoint find_active N (l : list Z) (nm : bytes) : option Z :=
  match l with
  | [] => None
  | a :: l =>
      match N !! a with
      | None => None
      | Some n => if bool_decide (name n = nm) then if active n <=? 0 then None else Some a else find_active N l nm
      end
  end.

Lemma find_active_elem N l nm a : find_active N l nm = Some a -> a ∈ l.
Proof. induction l as [|b l IH]; cbn; [done|]. repeat case_goal; try done; set_solver. Qed.
Lemma find_active_shape N N' l nm : same_shape N N' -> find_active N' l nm = find_active N l nm.
Proof.
  intros HS. induction l as [|b l IH]; cbn; [done|]. specialize (HS b). destruct (N !! b) as [n|] eqn:E, (N' !! b) as [n'|] eqn:E'; try done.
  apply (inj Some) in HS. unref_eqs HS. by rewrite Hf_name, Hf_active, IH.
Qed.

(** The counts of the nodes of [l] do not run over. *)
Definition counts_below N (l : list Z) : Prop := forall a n, a ∈ l -> N !! a = Some n -> 0 <= ref_cnt n < 2 ^ 31 - 1.

Lemma find_son_run {B} l nm N s (f : option Z -> ST B) :
  (forall a, a ∈ l -> is_Some (N !! a)) -> counts_below N l ->
  (find_son l nm ≫= f) (with_nodes s N) =
  match find_active N l nm with Some a => f (Some a) (with_nodes s (bump 1 [a] N)) | None => f None (with_nodes s N) end.
Proof.
  induction l as [|a l IH]; intros Hin Hc; cbn [find_son find_active]; [done|].
  destruct (Hin a) as [n E]; [set_solver|]. rewrite bind_assoc, (node_at_run a n), E by done.
  case_goal; [case_goal; [done|]|].
  - rewrite bind_assoc, (inc_count_run a n), run_ret by done. specialize (Hc a n ltac:(set_solver) E).
    rewrite s32_small by lia. by destruct (Z.ltb_spec (ref_cnt n + 1) 0); [lia|].
  - apply IH; [set_solver|]. intros b m Hb. apply Hc. set_solver.
Qed.

(** From [a] along names: the nodes passed (the last one first, in front of
    [acc]), and the node arrived at. *)
Fixpoint descend N (a : Z) (names : list bytes) (acc : list Z) : list Z * option Z :=
  match names with
  | [] => (acc, Some a)
  | nm :: names =>
      match N !! a with
      | None => (acc, None)
      | Some n =>
          match find_active N (son_node_list n) nm with
          | None => (acc, None)
          | Some b => descend N b names (b :: acc)
          end
      end
  end.

Lemma descend_below N top a names acc :
  below N top acc a ->
  let '(v, o) := descend N a names acc in
  match o with Some b => below N top v b | None => below N top v (match v with [] => top | x :: _ => x end) end.
Proof.
  revert a acc. induction names as [|nm names IH]; intros a acc Hb; [done|]. cbn [descend].
  pose proof (below_last _ _ _ _ Hb) as Hl.
  assert (below N top acc (match acc with [] => top | x :: _ => x end)) as Hacc by (destruct acc; by subst).
  destruct (N !! a) as [n|] eqn:E; [|done]. destruct (find_active N (son_node_list n) nm) as [b|] eqn:Ef; [|done].
  apply IH. apply below_son with a n; [done|done|by eapply find_active_elem].
Qed.

(** The names of a path: of the nodes, and of the item behind the last dot;
    [None] when one is missing. *)
Fixpoint segments (fuel : nat) (path : bytes) : option (list bytes * bytes) :=
  match fuel with
  | O => None
  | S fuel =>
      let '(i, sub, is_end) := configs_parser_first_node path in
      if (i <=? 0) || bool_decide (sub = []) then None
      else if is_end then Some ([], sub)
      else '(l, item) ← segments fuel (drop (Z.to_nat i + 1) path); Some (sub :: l, item)
  end.

(** What the walk finds. *)
Definition walk_result (r : list Z * option Z) (item : bytes) : walk :=
  match r.2 with
  | Some b => Arrived b item
  | None => match r.1 with [] => Missing None (- ENOENT) | x :: _ => Missing (Some x) (- EPERM) end
  end.

Definition counts_ok N : Prop := forall a n, N !! a = Some n -> a <> ROOT -> 0 <= ref_cnt n < 2 ^ 31 - 2.

Lemma sons_counts N N0 acc a n top t :
  tree_ok N0 -> counts_ok N0 -> N0 !! top = Some t -> below N0 top acc a -> N = bump 1 acc N0 -> N0 !! a = Some n ->
  (forall b, b ∈ son_node_list n -> is_Some (N !! b)) /\ counts_below N (son_node_list n).
Proof.
  intros HN HC Ht Hb -> E. split.
  - intros b Hin. destruct (tk_sons N0 HN a n b E Hin) as (m & Em & _). destruct (shape_at _ _ _ _ (bump_shape 1 acc N0) Em) as (m' & -> & _). done.
  - intros b m Hin Em. destruct (below_fresh _ _ _ _ _ _ _ HN Ht Hb E Hin) as [Hnin _]. rewrite bump_out in Em by done.
    destruct (tk_sons N0 HN a n b E Hin) as (m' & Em' & Hl & _). simplify_eq. assert (b <> ROOT) as Hroot.
    { intros ->. destruct (tk_root N0 HN) as (r & Er & _ & _ & _ & Hl'). simplify_eq. congruence. }
    specialize (HC b m Em Hroot). lia.
Qed.

Lemma lookup_son_run {B} a acc top t nm N0 s (f : option Z -> ST B) n :
  tree_ok N0 -> counts_ok N0 -> N0 !! top = Some t -> below N0 top acc a -> N0 !! a = Some n ->
  (configs_get_node_with_name (Some a) nm ≫= f) (with_nodes s (bump 1 acc N0)) =
  match find_active N0 (son_node_list n) nm with
  | Some b => f (Some b) (with_nodes s (bump 1 (b :: acc) N0))
  | None => f None (with_nodes s (bump 1 acc N0))
  end.
Proof.
  intros HN HC Ht Hb E. unfold configs_get_node_with_name. cbn [default]. rewrite bind_assoc.
  destruct (shape_at _ _ _ _ (bump_shape 1 acc N0) E) as (n' & E' & U). unref_eqs U. cbn. rewrite (node_at_run a n') by done. rewrite Hf_sons.
  destruct (sons_counts _ N0 acc a n top t HN HC Ht Hb eq_refl E) as [H1 H2].
  rewrite find_son_run by done. rewrite (find_active_shape N0) by apply bump_shape. by destruct (find_active _ _ _).
Qed.

Lemma config_walk_run fuel top t a acc path names item N0 s :
  tree_ok N0 -> counts_ok N0 -> N0 !! top = Some t -> below N0 top acc a -> segments fuel path = Some (names, item) ->
  let r := descend N0 a names acc in
  config_walk fuel top a path (with_nodes s (bump 1 acc N0)) = Some (walk_result r item, with_nodes s (bump 1 r.1 N0)).
Proof.
  intros HN HC Ht. revert a acc path names. induction fuel as [|fuel IH]; intros a acc path names Hb Hseg; [done|].
  cbn [segments config_walk] in *. destruct (configs_parser_first_node path) as [[i sub] e]. case_goal; [done|].
  destruct e; [injection Hseg as <- <-; reflexivity|]. destruct (segments fuel _) as [[l it]|] eqn:Eseg; [|done]. cbn in Hseg. injection Hseg as <- ->.
  destruct (below_depth N0 top acc a t HN Ht Hb) as (n & En & Hd & _).
  rewrite (lookup_son_run a acc top t sub N0 s _ n) by done. cbn [descend]. rewrite En.
  destruct (find_active N0 (son_node_list n) sub) as [b|] eqn:Ef.
  - apply IH; [|done]. apply below_son with a n; [done|done|by eapply find_active_elem].
  - cbn. pose proof (below_last _ _ _ _ Hb) as Hl. destruct acc as [|x acc].
    + subst a. by rewrite Z.eqb_refl.
    + subst x. destruct (Z.eqb_spec a top) as [->|]; [|done]. simplify_eq. cbn [length] in Hd. lia.
Qed.

(** The walk of [configs_get_node_path_end_node]: the last name is that of a node
    too. *)
Lemma end_node_run fuel root t a acc path names item N0 s :
  let top := default ROOT root in
  tree_ok N0 -> counts_ok N0 -> N0 !! top = Some t -> below N0 top acc a -> segments fuel path = Some (names, item) ->
  (root = None -> a = top -> names = [] -> name t <> item) ->
  let r := descend N0 a (names ++ [item]) acc in
  end_node_loop fuel root top a path (with_nodes s (bump 1 acc N0)) = Some (r.2, with_nodes s (bump 1 r.1 N0)).
Proof.
  intros top HN HC Ht. revert a acc path names. induction fuel as [|fuel IH]; intros a acc path names Hb Hseg Hroot; [done|].
  cbn [segments end_node_loop] in *. destruct (configs_parser_first_node path) as [[i sub] e]. case_goal; [done|].
  destruct (below_depth N0 top acc a t HN Ht Hb) as (n & En & Hd & _).
  destruct (shape_at _ _ _ _ (bump_shape 1 acc N0) En) as (n' & En' & U). unref_eqs U. rewrite (node_at_run a n') by done. rewrite Hf_name.
  assert (e = true -> names = [] /\ item = sub) as He.
  { intros ->. by injection Hseg as <- <-. }
  assert (e && bool_decide (root = None) && (a =? top) && bool_decide (name n = sub) = false) as ->.
  { apply not_true_iff_false. intros Hall. apply andb_true_iff in Hall as [Hall H4]. apply andb_true_iff in Hall as [Hall H3].
    apply andb_true_iff in Hall as [H1 H2]. b2p. destruct (He H1) as [-> ->]. subst a. rewrite Ht in En. injection En as ->. by apply (Hroot H2). }
  rewrite (lookup_son_run a acc top t sub N0 s _ n) by done. destruct e.
  - destruct (He eq_refl) as [-> ->]. cbn [app descend]. rewrite En. by destruct (find_active N0 (son_node_list n) sub).
  - destruct (segments fuel _) as [[l it]|] eqn:Eseg; [|done]. cbn in Hseg. injection Hseg as <- ->. cbn [app descend]. rewrite En.
    destruct (find_active N0 (son_node_list n) sub) as [b|] eqn:Ef; [|done]. pose proof (find_active_elem _ _ _ _ Ef) as Hin.
    apply IH; [by apply below_son with a n|done|]. intros _ ->. destruct (below_fresh _ _ _ _ _ _ _ HN Ht Hb En Hin) as [_ Hne]. done.
Qed.
End Runs.
