(* ===== verification/ConfigsPath.v ===== *)
(** * Items by path

    What every function that takes the path of an item has in common: where the
    path leads ([item_by_path], a function of the tree), and what is left of the
    references it takes. *)

From stdpp Require Import base numbers list option strings gmap sets.
From S2P Require Import Prelude StateM KText KNum Configs ConfigsTree.

Section Path.
Context {W : Type} `{CfgFuns W}.
Implicit Types (s : cfg W) (N : node_map).

(** The first item of that name. *)
Fixpoint item_pos (l : list mconfig) (i : Z) (nm : bytes) : option Z :=
  match l with
  | [] => None
  | x :: l => if bool_decide (item_name x = nm) then Some i else item_pos l (i + 1) nm
  end.
Definition items_of s (n : mconfig_node) : option (list mconfig) :=
  arr ← configs n; l ← arrays s !! arr; Some (take (Z.to_nat (configs_num n)) l).
Definition item_of s (n : mconfig_node) (nm : bytes) : option (Z * Z) :=
  l ← items_of s n; arr ← configs n; i ← item_pos l 0 nm; Some (arr, i).

(** A node has as many items as it says. *)
Definition node_items_ok s (n : mconfig_node) : Prop :=
  configs_num n <= 0 \/ exists arr l, configs n = Some arr /\ arrays s !! arr = Some l /\ configs_num n <= zlen l.

Lemma find_config_run {B} k arr l i nm N s (f : option (Z * Z) -> ST B) :
  arrays s !! arr = Some l -> 0 <= i -> i + Z.of_nat k <= zlen l ->
  (find_config k arr i nm ≫= f) (with_nodes s N) =
  f ((fun j => (arr, j)) <$> item_pos (take k (drop (Z.to_nat i) l)) i nm) (with_nodes s N).
Proof.
  intros El. revert i. induction k as [|k IH]; intros i Hi Hk; cbn [find_config]; [by rewrite take_0|].
  destruct (drop (Z.to_nat i) l) as [|x r] eqn:Ed.
  { apply (f_equal length) in Ed. rewrite length_drop in Ed. cbn in Ed. lia. }
  assert (l !! Z.to_nat i = Some x) as Ex.
  { pose proof (lookup_drop l (Z.to_nat i) 0) as Hd. rewrite Ed in Hd. cbn in Hd. by rewrite Nat.add_0_r in Hd. }
  rewrite bind_assoc. erewrite run_bind; [|unfold config_at; cbn; rewrite El; cbn; unfold aget; destruct (Z.leb_spec 0 i); [|lia]; rewrite Ex; reflexivity].
  cbn [take item_pos]. case_goal; [done|]. rewrite IH by lia.
  replace (drop (Z.to_nat (i + 1)) l) with r; [done|]. replace (Z.to_nat (i + 1)) with (Z.to_nat i + 1)%nat by lia.
  by rewrite <- drop_drop, Ed.
Qed.

Lemma get_node_config_run {B} a n nm N s (f : option (Z * Z) -> ST B) :
  N !! a = Some n -> node_items_ok s n ->
  (configs_get_node_config a nm ≫= f) (with_nodes s N) =
  match item_of s n nm with
  | Some c => f (Some c) (with_nodes s (bump 1 [a] N))
  | None => f None (with_nodes s N)
  end.
Proof.
  intros E Hok. unfold configs_get_node_config. rewrite bind_assoc, (node_at_run a n) by done.
  destruct (Z.leb_spec (configs_num n) 0) as [Hle|Hgt].
  - unfold item_of, items_of. destruct (configs n) as [arr|]; [|done]. cbn. destruct (arrays s !! arr); [|done]. cbn.
    by rewrite Z2Nat.nonpos, take_0 by lia.
  - destruct Hok as [?|(arr & l & Ec & El & Hl)]; [lia|]. rewrite Ec. rewrite bind_assoc, run_of_opt, bind_assoc.
    rewrite (find_config_run (Z.to_nat (configs_num n)) arr l 0) by (try done; lia).
    unfold item_of, items_of. rewrite Ec. cbn. rewrite El. cbn. rewrite drop_0.
    destruct (item_pos (take (Z.to_nat (configs_num n)) l) 0 nm); [|done]. cbn. by rewrite bind_assoc, (inc_count_run a n).
Qed.

(** ** Where a path leads *)

Definition allowed (n : mconfig_node) (set : bool) : bool := has (rw_flags n) (if set then CONFIG_FOR_W else CONFIG_FOR_R).

(** The error, or the item and its node. *)
Definition item_by_path s N (top : Z) (names : list bytes) (item : bytes) (set : bool) : Z + (Z * Z) * Z :=
  let r := descend N top names [] in
  match r.2 with
  | None => inl (match r.1 with [] => - ENOENT | _ => - EPERM end)
  | Some b =>
      match N !! b with
      | None => inl (- EPERM)
      | Some n =>
          if negb (allowed n set) then inl (if set then - ENOENT else - EPERM)
          else match item_of s n item with None => inl (- EPERM) | Some c => inr (c, b) end
      end
  end.

(** The counts when the call is over: a path without nodes, or any path from the
    root that leads to an item, takes one from [top] and all nodes above it. *)
Definition nodes_after N (topnode : option Z) (up : list Z) (names : list bytes) (found : bool) : node_map :=
  if bool_decide (names = []) || (found && bool_decide (topnode = None)) then bump (-1) (up ++ [ROOT]) N else N.

Lemma descend_length N a names acc : (descend N a names acc).2 <> None -> length (descend N a names acc).1 = (length names + length acc)%nat.
Proof.
  revert a acc. induction names as [|nm names IH]; intros a acc; [done|]. cbn [descend].
  destruct (N !! a) as [n|]; [|done]. destruct (find_active N (son_node_list n) nm) as [b|]; [|done].
  intros Hd. rewrite IH by done. cbn. lia.
Qed.

Section Held.
Variables (s : cfg W) (N : node_map) (topnode : option Z) (up : list Z) (path : bytes) (names : list bytes) (item : bytes).
Abbreviation top := (default ROOT topnode).
Hypothesis HN : tree_ok N.
Hypothesis HC : counts_ok N.
Hypothesis HF : counts_fit N.
Hypothesis Hup : below N ROOT up top.
Hypothesis Hseg : segments (S (length path)) path = Some (names, item).
Hypothesis Hitems : forall a n, N !! a = Some n -> node_items_ok s n.

Lemma top_node : exists t, N !! top = Some t.
Proof. destruct (tk_root N HN) as (r & Er & _). destruct (below_depth N ROOT up top r HN Er Hup) as (t & Et & _). by exists t. Qed.

Abbreviation visited := ((descend N top names []).1).

Lemma visited_length : (length visited <= WALK)%nat.
Proof.
  pose proof (descend_below N top top names [] (below_top N top)) as Hb. destruct (descend N top names []) as [v o]. cbn.
  assert (exists x, below N top v x) as [x Hx] by (destruct o; eauto). pose proof (below_trans _ _ _ _ _ _ Hup Hx) as Ht.
  pose proof (below_length N _ _ HN Ht) as Hl. rewrite length_app in Hl. unfold WALK. lia.
Qed.

(** The references taken on the way to a node are given back on failure. *)
Lemma give_back_run {B} b (f : Z -> ST B) :
  below N top visited b -> names <> [] -> visited <> [] ->
  (configs_put_node (Some b) true (Some top) ≫= f) (with_nodes s (bump 1 visited N)) = f 0 (with_nodes s N).
Proof.
  intros Hb _ Hv. destruct top_node as [t Et]. pose proof (below_last _ _ _ _ Hb) as Hl. pose proof visited_length as Hlen.
  destruct visited as [|x v]; [done|]. subst x. destruct (shape_at _ _ _ _ (bump_shape 1 (b :: v) N) Et) as (t' & Et' & _).
  rewrite (put_node_run top v b t') by (try eapply below_shape; eauto using bump_ok, bump_shape; cbn in Hlen; lia).
  by rewrite bump_back.
Qed.

Lemma path_config_run {B} set (f : Z + (Z * Z) * Z -> ST B) :
  (configs_get_node_path_config topnode (Some path) set ≫= f) (with_nodes s N) =
  match item_by_path s N top names item set with
  | inl err => f (inl err) (with_nodes s (nodes_after N topnode up names false))
  | inr (c, b) => f (inr (c, b)) (with_nodes s (bump 1 (b :: visited) N))
  end.
Proof.
  destruct top_node as [t Et]. pose proof (descend_below N top top names [] (below_top N top)) as Hb.
  pose proof (descend_length N top names []) as Hdl.
  unfold configs_get_node_path_config. cbv zeta. rewrite bind_assoc.
  pose proof (config_walk_run _ top t top [] path names item N s HN HC Et (below_top N top) Hseg) as Hwalk. cbn [bump foldr] in Hwalk.
  rewrite (run_bind _ _ _ _ _ Hwalk). clear Hwalk. unfold item_by_path, walk_result, nodes_after.
  pose proof (@give_back_run B) as Hgb.
  destruct (descend N top names []) as [v o] eqn:Ed. cbn [fst snd] in *. rewrite orb_false_r. destruct o as [b|].
  - assert (exists n, N !! b = Some n) as [n En].
    { destruct (below_depth N top v b t HN Et Hb) as (n & En & _). by exists n. }
    rewrite En. destruct (shape_at _ _ _ _ (bump_shape 1 v N) En) as (n' & En' & U). unref_eqs U.
    rewrite bind_assoc, (node_at_run b n') by done. cbv zeta. rewrite Hf_rw.
    assert (forall err, ((configs_put_node (Some b) true (Some top) ≫= (fun _ => mret (inl err))) ≫= f) (with_nodes s (bump 1 v N)) =
      f (inl err) (with_nodes s (if bool_decide (names = []) then bump (-1) (up ++ [ROOT]) N else N))) as Hfail.
    { intros err. rewrite bind_assoc. destruct (decide (names = [])) as [->|Hne].
      - rewrite bool_decide_eq_true_2 by done. cbn in Ed. injection Ed as <- <-. cbn [bump foldr].
        rewrite (put_node_all_run up top) by auto. by rewrite run_ret.
      - rewrite bool_decide_eq_false_2 by done. rewrite Hgb; [by rewrite run_ret|done|done|].
        intros ->. cbn in Hdl. rewrite Nat.add_0_r in Hdl. destruct names; [done|]. specialize (Hdl ltac:(done)). done. }
    unfold allowed. destruct set; cbn [andb negb].
    + destruct (has (rw_flags n) CONFIG_FOR_W); cbn [negb]; [|apply Hfail].
      rewrite bind_assoc, (get_node_config_run b n') by (try done; by destruct (Hitems b n En) as [?|(arr & l & ? & ? & ?)]; [left; lia|right; exists arr, l; rewrite Hf_cfg, Hf_cnum]).
      unfold item_of, items_of. rewrite Hf_cfg, Hf_cnum. case_goal; [done|apply Hfail].
    + destruct (has (rw_flags n) CONFIG_FOR_R); cbn [negb]; [|apply Hfail].
      rewrite bind_assoc, (get_node_config_run b n') by (try done; by destruct (Hitems b n En) as [?|(arr & l & ? & ? & ?)]; [left; lia|right; exists arr, l; rewrite Hf_cfg, Hf_cnum]).
      unfold item_of, items_of. rewrite Hf_cfg, Hf_cnum. case_goal; [done|apply Hfail].
  - assert (names <> []) as Hne by (intros ->; cbn in Ed; discriminate Ed). rewrite bool_decide_eq_false_2 by done.
    destruct v as [|x v]; [done|]. rewrite bind_assoc, Hgb by done. by rewrite run_ret.
Qed.

(** The two [configs_put_node] at the end of a successful call; the call itself
    may have changed items ([s']), not the tree. *)
Lemma release_run {B} s' set c b (f : Z -> ST B) :
  item_by_path s N top names item set = inr (c, b) ->
  (configs_put_node (Some b) false topnode ≫= fun _ => configs_put_node (Some b) true topnode ≫= f)
    (with_nodes s' (bump 1 (b :: visited) N)) =
  f 0 (with_nodes s' (nodes_after N topnode up names true)).
Proof.
  intros Hi. destruct top_node as [t Et]. pose proof (descend_below N top top names [] (below_top N top)) as Hb.
  pose proof (descend_length N top names []) as Hdl. pose proof visited_length as Hlen. unfold item_by_path in Hi.
  destruct (descend N top names []) as [v o] eqn:Ed. cbn [fst snd] in *. destruct o as [b'|]; [|done].
  assert (b' = b) as ->. { repeat case_hyp Hi; try done. by injection Hi. }
  destruct (below_depth N top v b t HN Et Hb) as (n & En & _).
  destruct (shape_at _ _ _ _ (bump_shape 1 (b :: v) N) En) as (n' & En' & _).
  rewrite (put_node_once_run b n') by done. replace (bump (-1) [b] (bump 1 (b :: v) N)) with (bump 1 v N) by (symmetry; apply (bump_back [b]); by apply bump_fit).
  unfold nodes_after. cbn [andb]. specialize (Hdl ltac:(done)). rewrite Nat.add_0_r in Hdl.
  destruct topnode as [T|] eqn:Etop; cbn [default] in *.
  - rewrite (bool_decide_eq_false_2 (Some T = None)), orb_false_r by done. destruct (decide (names = [])) as [->|Hne].
    + rewrite bool_decide_eq_true_2 by done. cbn in Ed. injection Ed as <- <-. by rewrite (put_node_all_run up T) by auto.
    + rewrite bool_decide_eq_false_2 by done. pose proof (below_last _ _ _ _ Hb) as Hl. destruct v as [|x v]; [destruct names; done|].
      subst x. destruct (shape_at _ _ _ _ (bump_shape 1 (b :: v) N) Et) as (t' & Et' & _).
      rewrite (put_node_run T v b t') by
        (first [by eapply below_shape; eauto using bump_shape|by apply bump_ok|done|cbn in Hlen; lia]).
      by rewrite bump_back.
  - rewrite (bool_decide_eq_true_2 (None = None)), orb_true_r by done. assert (up = []) as ->.
    { destruct (tk_root N HN) as (r & Er & _ & Hr & _). destruct (below_depth N ROOT up ROOT r HN Er Hup) as (x & Ex & Hx & _).
      simplify_eq. destruct up; [done|cbn in Hx; lia]. }
    rewrite (put_node_all_run v b) by
      (first [by eapply below_shape; eauto using bump_shape|by apply bump_ok|by left]).
    by rewrite bump_app, (bump_comm (-1) [ROOT] 1 v), bump_back by (by apply bump_fit).
Qed.
End Held.
End Path.
