(* ===== verification/ConfigsItems.v ===== *)
(** * Items of the configuration tree: texts and listings

    When the items of a table point to objects of their types, reading and writing
    an item is defined.  A listing stays in its buffer, but for one byte: the
    newline behind a value that filled the buffer moves its end marker out of it. *)

From stdpp Require Import base numbers list option strings gmap sets.
From S2P Require Import Prelude StateM KText KNum Configs ConfigsTree ConfigsPath.

(** ** Parts of a buffer *)

(** [b'] is [b] but for the bytes from [lo] to [hi]. *)
Definition frame (lo hi : Z) (b b' : bytes) : Prop :=
  length b' = length b /\ forall i : nat, Z.of_nat i < lo \/ hi <= Z.of_nat i -> b' !! i = b !! i.

Lemma frame_refl lo hi b : frame lo hi b b.
Proof. done. Qed.
Lemma frame_trans lo hi b1 b2 b3 : frame lo hi b1 b2 -> frame lo hi b2 b3 -> frame lo hi b1 b3.
Proof. intros [H1 H2] [H3 H4]. split; [congruence|]. intros i Hi. by rewrite H4, H2. Qed.
Lemma frame_weaken lo hi lo' hi' b b' : frame lo hi b b' -> lo' <= lo -> hi <= hi' -> frame lo' hi' b b'.
Proof. intros [H1 H2] Hl Hh. split; [done|]. intros i Hi. apply H2. lia. Qed.
#[export] Hint Resolve frame_refl : configs.

Lemma bput_runs b off t : 0 <= off -> off + zlen t <= zlen b -> bput b off t = Some (splice b off t).
Proof. intros H1 H2. unfold bput. destruct (Z.leb_spec 0 off); [|lia]. by destruct (Z.leb_spec (off + zlen t) (zlen b)); [|lia]. Qed.
Lemma splice_lookup b off t (i : nat) :
  0 <= off -> off + zlen t <= zlen b ->
  splice b off t !! i =
    if bool_decide (Z.of_nat i < off) then b !! i
    else if bool_decide (Z.of_nat i < off + zlen t) then t !! (i - Z.to_nat off)%nat else b !! i.
Proof.
  intros H1 H2. unfold splice. repeat case_bool_decide.
  - rewrite lookup_app_l by (rewrite length_take; lia). by rewrite lookup_take_lt by lia.
  - rewrite lookup_app_r by (rewrite length_take; lia). rewrite length_take, Nat.min_l by lia. by rewrite lookup_app_l by lia.
  - rewrite lookup_app_r by (rewrite length_take; lia). rewrite length_take, Nat.min_l by lia. rewrite lookup_app_r by lia.
    rewrite lookup_drop. f_equal. lia.
Qed.
Lemma splice_frame b off t : 0 <= off -> off + zlen t <= zlen b -> frame off (off + zlen t) b (splice b off t).
Proof.
  intros H1 H2. split; [by apply splice_length|]. intros i Hi. rewrite splice_lookup by done. repeat case_bool_decide; try done. lia.
Qed.

(** [snprintf] into a part of a buffer: what is left behind is a string. *)
Lemma snprintf_runs buf off size t :
  0 <= off -> 0 <= size -> off + size <= zlen buf ->
  exists buf', snprintf buf off size t = Some (zlen t, buf') /\ frame off (off + size) buf buf' /\
    (0 < size -> buf' !! Z.to_nat (off + Z.min (zlen t) (size - 1)) = Some 0).
Proof.
  intros H1 H2 H3. unfold snprintf. destruct (Z.ltb_spec size 0); [lia|]. destruct (Z.eqb_spec size 0) as [->|Hs].
  - exists buf. split; [done|]. split; [apply frame_refl|lia].
  - assert (zlen (take (Z.to_nat (size - 1)) t ++ [0]) = Z.min (zlen t) (size - 1) + 1) as El.
    { rewrite length_app, length_take. cbn. lia. }
    rewrite bput_runs by lia. cbn. eexists. split; [done|]. split.
    + eapply frame_weaken; [apply splice_frame; lia|lia|lia].
    + intros _. rewrite splice_lookup by lia. rewrite bool_decide_eq_false_2, bool_decide_eq_true_2 by lia.
      rewrite lookup_app_r by (rewrite length_take; lia). rewrite length_take. replace (_ - _ - _)%nat with 0%nat by lia. done.
Qed.

Lemma snprintf_negative buf off size t : size < 0 -> snprintf buf off size t = Some (0, buf).
Proof. intros H1. unfold snprintf. by destruct (Z.ltb_spec size 0); [|lia]. Qed.

(** A zero at or behind [lo] ends the string there. *)
Lemma until_zero_runs l (i : nat) : l !! i = Some 0 -> exists t, until_zero l = Some t /\ (length t <= i)%nat.
Proof.
  revert i. induction l as [|x l IH]; intros i Hi; [done|]. cbn. destruct (Z.eqb_spec x 0) as [->|Hx]; [exists []; split; [done|cbn; lia]|].
  destruct i as [|i]; [by injection Hi|]. destruct (IH i Hi) as (t & -> & Ht). exists (x :: t). split; [done|]. cbn. lia.
Qed.

(** [strcat] writes at most one character and the end behind the end it finds. *)
Lemma strcat_runs buf off k c :
  0 <= off <= k -> k + 2 <= zlen buf -> buf !! Z.to_nat k = Some 0 ->
  exists buf', strcat buf off [c] = Some buf' /\ frame off (k + 2) buf buf'.
Proof.
  intros H1 H2 Hz. unfold strcat, cstring_at. destruct (Z.ltb_spec off 0); [lia|].
  destruct (until_zero_runs (drop (Z.to_nat off) buf) (Z.to_nat k - Z.to_nat off)) as (t & -> & Ht).
  { rewrite lookup_drop. rewrite <- Hz. f_equal. lia. }
  change (Some t ≫= (fun s => bput buf (off + zlen s) ([c] ++ [0]))) with (bput buf (off + zlen t) [c; 0]).
  rewrite bput_runs by (cbn; lia). eexists. split; [done|]. eapply frame_weaken; [apply splice_frame; cbn; lia|lia|cbn; lia].
Qed.

(** ** Objects and items *)

(** What is at an address: an integer of [n] bytes at least, or a string that an
    item may overwrite in its first [cap] bytes, with its end behind them. *)
Inductive obj_kind := IntObj (n : Z) | StrObj (cap : Z).
Definition obj_ok (k : obj_kind) (o : bytes) : Prop :=
  match k with
  | IntObj n => n <= zlen o
  | StrObj cap => 0 <= cap /\ exists i : nat, cap <= Z.of_nat i /\ o !! i = Some 0
  end.

(** The callbacks are defined; what [f_get] writes is in the buffer and ends
    where it says. *)
Class CfgFunsOk (W : Type) `{CfgFuns W} := {
  f_get_ok : forall fn nm id size w, 0 < size ->
    exists r t w', f_get fn nm id size w = Some (r, t, w') /\ zlen t <= size /\
      (0 <= r < size -> t !! Z.to_nat r = Some 0 \/ (r = 0 /\ t = []));
  f_set_ok : forall fn nm id t w, exists r w', f_set fn nm id t w = Some (r, w') }.

Section Items.
Context {W : Type} `{CfgFunsOk W}.
Variable K : gmap Z obj_kind.
Implicit Types (s : cfg W).

Definition points_to_int (x : mconfig) (n : Z) : Prop := exists m, K !! ldata0 x = Some (IntObj m) /\ n <= m.
Definition item_ok (x : mconfig) : Prop :=
  (ctype x = CONFIG_TYPE_PBOOL -> points_to_int x 1) /\
  (ctype x = CONFIG_TYPE_PI32 \/ ctype x = CONFIG_TYPE_PU32 -> points_to_int x 4) /\
  (ctype x = CONFIG_TYPE_PU64 -> points_to_int x 8) /\
  (ctype x = CONFIG_TYPE_PSTR \/ ctype x = CONFIG_TYPE_PCSTR -> exists cap, K !! ldata0 x = Some (StrObj cap) /\ 0 <= csize x <= cap).

Definition vars_ok (V : gmap Z bytes) : Prop := forall a k, K !! a = Some k -> exists o, V !! a = Some o /\ obj_ok k o.
Definition items_ok (A : gmap Z (list mconfig)) : Prop := forall a l, A !! a = Some l -> Forall item_ok l.

(** An item of a table. *)
Definition config_in (A : gmap Z (list mconfig)) (c : Z * Z) (x : mconfig) : Prop :=
  exists l, A !! c.1 = Some l /\ 0 <= c.2 /\ l !! Z.to_nat c.2 = Some x.
Lemma config_at_runs s c x (Q : mconfig -> cfg W -> Prop) : config_in (arrays s) c x -> Q x s -> runs (config_at c) Q s.
Proof.
  intros (l & El & Hc & Ex) HQ. exists x, s. split; [|done]. unfold config_at. rewrite El. cbn. unfold aget.
  destruct (Z.leb_spec 0 c.2); [|lia]. by rewrite Ex.
Qed.

(** States that differ in the world of the callbacks only. *)
Definition with_world s (w : W) : cfg W := mk_cfg (nodes s) (arrays s) (vars s) w.
Definition only_world s (s' : cfg W) : Prop := nodes s' = nodes s /\ arrays s' = arrays s /\ vars s' = vars s.
Lemma only_world_refl s : only_world s s.
Proof. done. Qed.
Lemma only_world_trans s1 s2 s3 : only_world s1 s2 -> only_world s2 s3 -> only_world s1 s3.
Proof. intros (H1 & H2 & H3) (H4 & H5 & H6). repeat split; congruence. Qed.

Lemma read_int_runs s n x : vars_ok (vars s) -> points_to_int x n -> 0 <= n -> runs (read_int n x) (fun _ s' => s' = s) s.
Proof.
  intros HV (m & Em & Hm) Hn. destruct (HV _ _ Em) as (o & Eo & Ho). cbn in Ho. unfold read_int.
  apply runs_bind. exists o, s. unfold object. rewrite Eo. split; [done|]. apply runs_bind.
  eapply runs_of_opt; [unfold bget; destruct (Z.leb_spec 0 n); [|lia]; destruct (Z.leb_spec (0 + n) (zlen o)); [reflexivity|lia]|].
  by apply runs_ret.
Qed.

Lemma config_text_runs s x m : vars_ok (vars s) -> item_ok x -> config_text x = Some m -> runs m (fun _ s' => s' = s) s.
Proof.
  intros HV (H1 & H2 & H3 & H4) Hm. unfold config_text in Hm. repeat case_hyp Hm; inv_some; b2p; try (by apply runs_ret).
  - apply runs_bind. eapply runs_mono; [apply read_int_runs; [done|auto|lia]|]. intros v s' ->. by apply runs_ret.
  - apply runs_bind. eapply runs_mono; [apply read_int_runs; [done|auto|lia]|]. intros v s' ->. by apply runs_ret.
  - apply runs_bind. eapply runs_mono; [apply read_int_runs; [done|auto|lia]|]. intros v s' ->. by apply runs_ret.
  - apply runs_bind. eapply runs_mono; [apply read_int_runs; [done|auto|lia]|]. intros v s' ->. by apply runs_ret.
  - destruct H4 as (cap & Ek & Hcap).
    { repeat match goal with H : _ || _ = true |- _ => apply orb_true_iff in H as [H|H] end; b2p; auto. }
    destruct (HV _ _ Ek) as (o & Eo & Ho & i & Hi & Ez). apply runs_bind. exists o, s. unfold object. rewrite Eo. split; [done|].
    destruct (until_zero_runs o i Ez) as (t & Et & _). by eapply runs_of_opt.
Qed.

(** Reading an item: what is returned fits the buffer and ends in it. *)
Lemma config2str_runs s c x buf off size :
  vars_ok (vars s) -> config_in (arrays s) c x -> item_ok x -> 0 <= off ->
  (0 < size -> off + size <= zlen buf /\ buf !! Z.to_nat off = Some 0) ->
  runs (configs_config2str c buf off size)
    (fun r s' => only_world s s' /\ frame off (off + Z.max 0 size) buf r.2 /\ (r.1 < Z.max 1 size) /\
       (0 < size -> 0 <= r.1 -> r.2 !! Z.to_nat (off + r.1) = Some 0)) s.
Proof.
  intros HV Hc Hx Hoff Hsize. unfold configs_config2str. destruct (Z.ltb_spec size 1).
  { apply runs_ret. cbn. split; [done|]. split; [apply frame_refl|]. split; [lia|]. lia. }
  destruct Hsize as [Hsize Hz]; [lia|]. apply runs_bind. eapply config_at_runs; [done|]. apply runs_bind.
  eapply runs_mono with (P := fun r s' => only_world s s' /\ frame off (off + size) buf r.2 /\
    (0 <= r.1 < size -> r.2 !! Z.to_nat (off + r.1) = Some 0)).
  - destruct (config_text x) as [m|] eqn:Em.
    + apply runs_bind. eapply runs_mono; [by eapply config_text_runs|]. intros t s' ->.
      destruct (snprintf_runs buf off size t) as (buf' & Es & Hf & Hend); [lia|lia|lia|]. eapply runs_of_opt; [done|]. cbn.
      split; [done|]. split; [done|]. intros Hr. rewrite <- Hend by lia. f_equal. lia.
    + case_goal; [|apply runs_ret; cbn; split; [done|]; split; [apply frame_refl|lia]]. case_goal.
      { apply runs_ret. cbn. split; [done|]. split; [apply frame_refl|]. intros _. by rewrite Z.add_0_r. }
      apply runs_bind, runs_gets. destruct (f_get_ok (ldata0 x) (item_name x) (cid x) size (cworld s)) as (r & t & w' & -> & Ht & Hr); [lia|].
      apply runs_bind. eapply runs_of_opt; [done|]. cbn. apply runs_bind, runs_modify, runs_bind.
      eapply runs_of_opt; [apply bput_runs; lia|]. apply runs_ret. cbn. split; [done|]. split; [eapply frame_weaken; [apply splice_frame; lia|lia|lia]|].
      intros Hrs. destruct (Hr Hrs) as [Ez|[-> ->]].
      * rewrite splice_lookup by lia. pose proof (lookup_lt_Some _ _ _ Ez). rewrite bool_decide_eq_false_2, bool_decide_eq_true_2 by lia.
        rewrite <- Ez. f_equal. lia.
      * rewrite splice_lookup by (cbn; lia). cbn [length]. by rewrite Z.add_0_r, !bool_decide_eq_false_2 by lia.
  - intros [r b] s' (Hw & Hf & Hend). cbn in *. rewrite Z.max_r by lia. repeat case_goal; b2p.
    + apply runs_ret. cbn. split; [done|]. split; [done|]. split; [lia|]. intros _ ?. apply Hend. lia.
    + apply runs_bind. assert (length b = length buf) as Hl by apply Hf. eapply runs_of_opt; [apply bput_runs; cbn; lia|]. apply runs_ret. cbn.
      split; [done|]. split; [eapply frame_trans; [done|]; eapply frame_weaken; [apply splice_frame; cbn; lia|lia|cbn; lia]|].
      split; [lia|]. intros _ _. rewrite splice_lookup by (cbn; lia). cbn [length]. rewrite bool_decide_eq_false_2, bool_decide_eq_true_2 by lia.
      replace (_ - _)%nat with 0%nat by lia. done.
    + apply runs_ret. cbn. split; [done|]. split; [done|]. split; [lia|]. intros _ _. apply Hend. lia.
Qed.
(** ** Listings *)

Lemma list_items_runs k nd arr l i pn buf off size cprefix mode s :
  vars_ok (vars s) -> arrays s !! arr = Some l -> Forall item_ok l -> 0 <= i -> i + Z.of_nat k <= zlen l ->
  0 <= off -> 0 <= pn -> off + size + 1 <= zlen buf ->
  runs (list_items k nd arr i pn buf off size cprefix mode)
    (fun r s' => only_world s s' /\ frame off (off + size + 1) buf r.2 /\ 0 <= r.1) s.
Proof.
  revert i pn buf s. induction k as [|k IH]; intros i pn buf s HV El Hl Hi Hk Hoff Hpn Hsize; cbn [list_items].
  { apply runs_ret. cbn. auto using frame_refl, only_world_refl. }
  case_goal; b2p; [apply runs_ret; cbn; auto using frame_refl, only_world_refl|].
  destruct (lookup_lt_is_Some_2 l (Z.to_nat i)) as [x Ex]; [lia|]. assert (config_in (arrays s) (arr, i) x) as Hin by (exists l; cbn; auto).
  pose proof (Forall_lookup_1 _ _ _ _ Hl Ex) as Hx. apply runs_bind. eapply config_at_runs; [done|]. cbv zeta.
  set (line := str " " ++ _).
  destruct (snprintf_runs buf (off + pn) (size - pn) line) as (b1 & Es & Hf1 & Hend1); [lia|lia|lia|].
  apply runs_bind. eapply runs_of_opt; [done|]. cbn [fst snd]. set (pn1 := pn + zlen line).
  assert (length b1 = length buf) as Hl1 by apply Hf1.
  assert (frame off (off + size + 1) buf b1) as Hf1' by (eapply frame_weaken; [done|lia|lia]).
  assert (forall s1 b pn', only_world s s1 -> frame off (off + size + 1) buf b -> 0 <= pn' ->
    runs (list_items k nd arr (i + 1) pn' b off size cprefix mode)
      (fun r s' => only_world s s' /\ frame off (off + size + 1) buf r.2 /\ 0 <= r.1) s1) as Hnext.
  { intros s1 b pn' (Hw1 & Hw2 & Hw3) Hf Hpn'. assert (length b = length buf) as Hb by apply Hf. eapply runs_mono; [apply IH|].
    - by rewrite Hw3.
    - by rewrite Hw2.
    - done.
    - lia.
    - lia.
    - lia.
    - done.
    - lia.
    - cbn. intros r s' (Hs1 & Hs2 & Hs3). split; [by eapply only_world_trans|]. split; [by eapply frame_trans|done]. }
  case_goal.
  - apply runs_bind. eapply runs_mono; [eapply (config2str_runs s (arr, i) x b1 (off + pn1) (size - pn1)); try done; [lia|]|].
    { intros Hpos. split; [lia|]. rewrite <- Hend1 by lia. f_equal. lia. }
    intros [ret b2] s1 (Hw & Hf2 & Hret & Hend2). cbn [fst snd] in *.
    assert (frame off (off + size + 1) b1 b2) as Hf2'.
    { destruct (Z.le_gt_cases 0 (size - pn1)); [eapply frame_weaken; [done|lia|lia]|].
      destruct Hf2 as [Hfl Hfi]. split; [done|]. intros j Hj. apply Hfi. lia. }
    assert (length b2 = length b1) as Hl2 by apply Hf2. pose proof (frame_trans _ _ _ _ _ Hf1' Hf2') as Hf3.
    case_goal; b2p.
    + case_goal; b2p; [|apply Hnext; [done|done|lia]].
      destruct (strcat_runs b2 off (off + pn1 + ret) newline) as (b3 & Ec & Hf4); [lia|lia|apply Hend2; lia|].
      apply runs_bind. eapply runs_of_opt; [done|]. apply Hnext; [done| |lia]. eapply frame_trans; [done|]. eapply frame_weaken; [done|lia|lia].
    + case_goal; b2p; [|apply runs_ret; cbn; split; [done|]; split; [done|lia]]. subst ret.
      destruct (strcat_runs b2 off (off + pn1 + 0) newline) as (b3 & Ec & Hf4); [lia|lia|apply Hend2; lia|].
      apply runs_bind. eapply runs_of_opt; [done|]. apply Hnext; [done| |lia]. eapply frame_trans; [done|]. eapply frame_weaken; [done|lia|lia].
  - apply runs_bind. destruct (Z.le_gt_cases 0 (size - pn1)).
    + destruct (snprintf_runs b1 (off + pn1) (size - pn1) [newline]) as (b2 & Es2 & Hf2 & _); [lia|lia|lia|].
      eapply runs_of_opt; [done|]. cbn. apply Hnext; [done| |lia]. eapply frame_trans; [done|]. eapply frame_weaken; [done|lia|lia].
    + eapply runs_of_opt; [by apply snprintf_negative|]. cbn. apply Hnext; [done|done|lia].
Qed.

Lemma build_prefix_runs nd pre mode :
  zlen (prefix nd) < MAX_PREFIX_NAME - 1 -> zlen pre <= zlen (prefix nd) ->
  exists c, configs_build_prefix nd pre mode CPREFIX = Some c /\ zlen c <= zlen (prefix nd) + 1 /\ (prefix nd = [] -> c = []).
Proof.
  intros H1 H2. unfold configs_build_prefix. set (p := if has mode LIST_MODE_PATH_FULLPREFIX then _ else _).
  assert (zlen p <= zlen (prefix nd)) as Hp by (subst p; repeat case_goal; cbn; lia).
  unfold CPREFIX, MAX_PREFIX_NAME, MAX_ITEM_NAME in *. rewrite take_ge by lia. destruct (last p) as [c|] eqn:El.
  - assert (prefix nd <> []) as Hne. { intros E. rewrite E in Hp. cbn in Hp. destruct p; [done|cbn in Hp; lia]. }
    case_goal; [exists p; split; [done|]; split; [lia|done]|]. unfold cat_in. change (str ".") with [46].
    destruct (Z.leb_spec (zlen p + zlen [46] + 1) (128 + 128)) as [Hle|Hle]; cbn [length] in *; [|lia].
    exists (p ++ [46]). split; [done|]. split; [rewrite length_app; cbn; lia|done].
  - apply last_None in El. rewrite El. exists []. split; [done|]. split; [cbn; lia|done].
Qed.

(** What a listing needs of the tree. *)
Definition listable s : Prop :=
  tree_ok (nodes s) /\ (forall a n, nodes s !! a = Some n -> node_items_ok s n) /\ items_ok (arrays s) /\ vars_ok (vars s).
Lemma listable_world s s' : only_world s s' -> listable s -> listable s'.
Proof.
  intros (H1 & H2 & H3) (L1 & L2 & L3 & L4). unfold listable. rewrite H1, H2, H3. split; [done|]. split; [|done].
  intros a n E. destruct (L2 a n E) as [?|(arr & l & ? & ? & ?)]; [by left|right; exists arr, l; by rewrite H2].
Qed.

Abbreviation lists buf off size s := (fun r s' => only_world s s' /\ frame off (off + size + 1) buf r.2 /\ 0 <= r.1).

Lemma lists_ret pn buf off size s : 0 <= pn -> runs (mret (pn, buf)) (lists buf off size s) s.
Proof. intros H1. apply runs_ret. split; [done|]. split; [apply frame_refl|done]. Qed.

Lemma list_sons_runs (f : Z -> bytes -> Z -> Z -> ST (Z * bytes)) sons pn buf off size s :
  listable s ->
  (forall x b o z s1, x ∈ sons -> only_world s s1 -> 0 <= o -> o + z + 1 <= zlen b -> runs (f x b o z) (lists b o z s1) s1) ->
  0 <= off -> 0 <= pn -> off + size + 1 <= zlen buf ->
  runs (list_sons f sons pn buf off size) (lists buf off size s) s.
Proof.
  revert pn buf s. induction sons as [|x sons IH]; intros pn buf s Hs Hf Hoff Hpn Hsize; cbn [list_sons].
  { by apply lists_ret. }
  apply runs_bind. eapply runs_mono; [apply Hf; [set_solver|apply only_world_refl|lia|lia]|].
  intros [r b] s1 (Hw & Hfr & Hr). cbn [fst snd] in *. assert (length b = length buf) as Hl by apply Hfr.
  eapply runs_mono; [apply IH|].
  - by eapply listable_world.
  - intros y b' o z s2 Hy Hs2. apply Hf; [set_solver|by eapply only_world_trans].
  - done.
  - case_goal; b2p; lia.
  - lia.
  - intros r' s2 (Hw2 & Hf2 & Hr2). split; [by eapply only_world_trans|]. split; [|done]. eapply frame_trans; [|done].
    eapply frame_weaken; [done|lia|lia].
Qed.

Lemma configs_locked_runs a nd buf off size cprefix mode s :
  listable s -> nodes s !! a = Some nd -> 0 <= off -> off + size + 1 <= zlen buf ->
  runs (configs_list_node_configs_locked a buf off size cprefix mode) (lists buf off size s) s.
Proof.
  intros (L1 & L2 & L3 & L4) E Hoff Hsize. unfold configs_list_node_configs_locked. apply runs_bind.
  exists nd, s. unfold node_at. rewrite E. split; [done|]. destruct (configs nd) as [arr|] eqn:Ec; [|by apply lists_ret].
  case_goal; [by apply lists_ret|].
  destruct (L2 a nd E) as [Hn|(arr' & l & Ec' & El & Hn)].
  - rewrite Z2Nat.nonpos by done. by apply lists_ret.
  - rewrite Ec in Ec'. injection Ec' as <-. destruct (Z.le_gt_cases (configs_num nd) 0).
    + rewrite Z2Nat.nonpos by done. by apply lists_ret.
    + eapply list_items_runs; [done|done|by eapply L3|lia|lia|done|lia|done].
Qed.

Lemma list_nodes_in_runs fuel mode pre a nd buf off size s :
  listable s -> nodes s !! a = Some nd -> MAX_DEPTH - depth nd < Z.of_nat fuel -> zlen pre <= zlen (prefix nd) ->
  0 <= off -> off + size + 1 <= zlen buf ->
  runs (configs_list_nodes_in fuel mode pre a buf off size) (lists buf off size s) s.
Proof.
  revert pre a nd buf off size s. induction fuel as [|fuel IH]; intros pre a nd buf off size s Hs E Hfuel Hpre Hoff Hsize.
  { destruct Hs as (L1 & _). pose proof (tk_depth _ L1 a nd E). lia. }
  cbn [configs_list_nodes_in]. apply runs_bind. exists nd, s. unfold node_at. rewrite E. split; [done|].
  case_goal; b2p; [by apply lists_ret|].
  case_goal; b2p; [by apply lists_ret|].
  pose proof Hs as (L1 & L2 & L3 & L4). destruct (tk_prefix _ L1 a nd E) as [Hp Hp0].
  destruct (build_prefix_runs nd pre mode Hp Hpre) as (c & Ec & Hc & Hc0). apply runs_bind. eapply runs_of_opt; [done|].
  apply runs_bind. eapply runs_mono with (P := fun r s' => s' = s /\ frame off (off + size) buf r.2 /\ 0 <= r.1).
  { case_goal; [|apply runs_ret; cbn; split; [done|split; [apply frame_refl|done]]]. destruct (snprintf_runs buf off size (node_info c nd)) as (b & Es & Hf & _); [lia|lia|lia|].
    eapply runs_of_opt; [done|]. cbn. split; [done|]. split; [done|lia]. }
  intros [pn b1] s1 (-> & Hf1 & Hpn). cbn [fst snd] in *. assert (length b1 = length buf) as Hl1 by apply Hf1.
  assert (frame off (off + size + 1) buf b1) as Hf1' by (eapply frame_weaken; [done|lia|lia]).
  apply runs_bind. eapply runs_mono with (P := lists buf off size s).
  { case_goal; [|by apply runs_ret; cbn].
    apply runs_bind. eapply runs_mono; [eapply configs_locked_runs; [done|done|lia|lia]|].
    intros [r b2] s2 (Hw & Hf2 & Hr). apply runs_ret. cbn [fst snd] in *. split; [done|]. split; [|case_goal; b2p; lia].
    eapply frame_trans; [done|]. eapply frame_weaken; [done|lia|lia]. }
  intros [pn2 b2] s2 (Hw2 & Hf2 & Hpn2). cbn [fst snd] in *. assert (length b2 = length buf) as Hl2 by apply Hf2.
  pose proof (listable_world _ _ Hw2 Hs) as Hs2.
  case_goal; [|by apply runs_ret]. b2p.
  assert (exists y m, y ∈ son_node_list nd /\ nodes s !! y = Some m /\ linked nd a m) as (y & m & Hy & Em & Hk).
  { pose proof (tk_num _ L1 a nd E) as Hnum. destruct (son_node_list nd) as [|y l] eqn:El; [cbn in Hnum; lia|].
    destruct (tk_sons _ L1 a nd y E) as (m & Em & _ & Hk); [rewrite El; set_solver|]. exists y, m. split; [set_solver|done]. }
  pose proof (lk_short _ _ _ Hk) as Hshort. unfold CPREFIX, MAX_PREFIX_NAME, MAX_ITEM_NAME in *.
  pose proof (tk_depth _ L1 a nd E) as Hdep.
  apply runs_bind. eapply runs_mono with (P := fun c' s' => s' = s2 /\ zlen c' <= zlen (path_below nd)).
  { unfold path_below. destruct (Z.eqb_spec (depth nd) 0) as [Ed|Ed].
    - rewrite Ed. replace (0 <? 0) with false by done. rewrite andb_false_r. rewrite (Hc0 (Hp0 Ed)). by apply runs_ret.
    - assert (zlen c + zlen (name nd) <= zlen (match prefix nd with [] => name nd | _ => prefix nd ++ str "." ++ name nd end)) as Hlen.
      { destruct (prefix nd) as [|z p] eqn:Ep; [rewrite Hc0 by done; cbn; lia|]. rewrite !length_app. cbn [length] in *. change (length (str ".")) with 1%nat. lia. }
      assert (zlen c <= zlen (prefix nd) + 1) as Hc' by done. case_goal; [|apply runs_ret; split; [done|]; destruct (prefix nd); lia].
      rewrite take_ge by lia. unfold cat_in. destruct (Z.leb_spec (zlen c + zlen (name nd) + 1) (128 + 128)); [|lia].
      eapply runs_of_opt; [done|]. split; [done|]. rewrite length_app. destruct (prefix nd); lia. }
  intros c' s3 (-> & Hc'). eapply runs_mono; [apply (list_sons_runs _ _ pn2 b2 off size s2 Hs2)|].
  - intros x b o z s4 Hx Hw4 Ho Hz. pose proof (only_world_trans _ _ _ Hw2 Hw4) as Hw5.
    destruct (tk_sons _ L1 a nd x E Hx) as (mx & Emx & _ & Hkx). apply (IH c' x mx).
    + by apply (listable_world s).
    + destruct Hw5 as (-> & _). done.
    + rewrite (lk_depth _ _ _ Hkx). lia.
    + by rewrite (lk_prefix _ _ _ Hkx).
    + done.
    + done.
  - done.
  - done.
  - lia.
  - intros r s4 (Hw4 & Hf4 & Hr4). split; [by eapply only_world_trans|]. split; [by eapply frame_trans|done].
Qed.
End Items.
