(* ===== verification/ConfigsInv.v ===== *)
(** * Every operation on the configuration tree is defined and keeps it well formed *)

From stdpp Require Import base numbers list option strings gmap sets.
From S2P Require Import Prelude StateM KText KNum Configs ConfigsTree ConfigsPath ConfigsItems.

Section Inv.
Context {W : Type} `{CfgFunsOk W}.
Variable K : gmap Z obj_kind.
Implicit Types (s : cfg W).
Abbreviation listable := (listable K).

(** ** Writing items *)

(** The call changed items, not the tree. *)
Definition stored s (s' : cfg W) : Prop := nodes s' = nodes s /\ listable s'.

Lemma points_runs s x k : vars_ok K (vars s) -> K !! ldata0 x = Some k -> exists o, vars s !! ldata0 x = Some o /\ obj_ok k o.
Proof. intros HV E. by apply HV. Qed.
Lemma object_runs s x o (Q : bytes -> cfg W -> Prop) : vars s !! ldata0 x = Some o -> Q o s -> runs (object x) Q s.
Proof. intros E HQ. exists o, s. unfold object. by rewrite E. Qed.

Lemma put_var_runs s a k o : listable s -> K !! a = Some k -> obj_ok k o -> runs (put_var a o) (fun _ s' => stored s s') s.
Proof.
  intros (L1 & L2 & L3 & L4) Ek Ho. apply runs_modify. split; [done|]. split; [done|]. split; [done|]. split; [done|].
  intros b k' Eb. cbn. destruct (decide (a = b)) as [<-|Hne]; [exists o; rewrite lookup_insert, decide_True by done; by simplify_eq|].
  rewrite lookup_insert_ne by done. by apply L4.
Qed.

Lemma put_config_runs s c x x' :
  listable s -> config_in (arrays s) c x -> item_ok K x' -> runs (put_config c x') (fun _ s' => stored s s') s.
Proof.
  intros (L1 & L2 & L3 & L4) (l & El & Hc & Ex) Hx'. pose proof (lookup_lt_Some _ _ _ Ex) as Hlt.
  exists tt. eexists. split.
  { unfold put_config. rewrite El. cbn. unfold aset. destruct (Z.leb_spec 0 c.2); [|lia]. destruct (Z.ltb_spec c.2 (zlen l)); [|lia]. reflexivity. }
  split; [done|]. split; [done|]. cbn. split; [|split; [|done]].
  - intros a n E. destruct (L2 a n E) as [?|(arr & l0 & E1 & E2 & E3)]; [by left|]. right. cbn.
    destruct (decide (c.1 = arr)) as [<-|Hne]; [|exists arr, l0; by rewrite lookup_insert_ne].
    exists c.1, (<[Z.to_nat c.2:=x']> l). rewrite lookup_insert, decide_True by done. split; [done|]. split; [done|]. simplify_eq. by rewrite length_insert.
  - intros b l' E. destruct (decide (c.1 = b)) as [<-|Hne].
    + rewrite lookup_insert, decide_True in E by done. injection E as <-. apply Forall_insert; [by eapply L3|done].
    + rewrite lookup_insert_ne in E by done. by eapply L3.
Qed.
Lemma set_data0_runs s c x v :
  listable s -> config_in (arrays s) c x ->
  item_ok K (mk_config (ctype x) (cid x) (item_name x) v (ldata1 x) (csize x)) -> runs (set_data0 c v) (fun _ s' => stored s s') s.
Proof. intros Hs Hc Hx. apply runs_bind. eapply config_at_runs; [done|]. by eapply put_config_runs. Qed.

Lemma write_int_runs s (n : nat) x v : listable s -> points_to_int K x (Z.of_nat n) -> runs (write_int n x v) (fun _ s' => stored s s') s.
Proof.
  intros Hs (m & Em & Hm). pose proof Hs as (_ & _ & _ & L4). destruct (L4 _ _ Em) as (o & Eo & Ho). cbn in Ho.
  assert (length (le_split n v) = n) as Hl. { clear. revert v. induction n as [|n IH]; intros v; [done|]. cbn. by rewrite IH. }
  apply runs_bind. eapply object_runs; [done|]. apply runs_bind. eapply runs_of_opt; [apply bput_runs; lia|].
  eapply put_var_runs; [done|done|]. cbn. rewrite splice_length by lia. done.
Qed.

(** An item that holds its value itself may hold any value. *)
Lemma value_item_ok ty i nm d0 d1 z :
  ty <> CONFIG_TYPE_PBOOL -> ty <> CONFIG_TYPE_PI32 -> ty <> CONFIG_TYPE_PU32 -> ty <> CONFIG_TYPE_PU64 ->
  ty <> CONFIG_TYPE_PSTR -> ty <> CONFIG_TYPE_PCSTR -> item_ok K (mk_config ty i nm d0 d1 z).
Proof. intros. unfold item_ok. cbn. repeat split; intros Hty; destruct_or?; done. Qed.

Lemma strncpy_runs n src : 0 <= n <= zlen src -> exists b, strncpy n src = Some b /\ zlen b = n.
Proof.
  intros Hn. unfold strncpy. assert (zlen (take (Z.to_nat n) src) = n) as El by (rewrite length_take; lia). rewrite El, Z.ltb_irrefl.
  destruct (Z.ltb_spec n 0); [lia|]. cbn. eexists. split; [done|]. rewrite length_app, length_replicate.
  assert (forall t, (length (c_str t) <= length t)%nat) as Hc by (induction t as [|x t IH]; cbn; [lia|case_goal; cbn; lia]).
  specialize (Hc (take (Z.to_nat n) src)). lia.
Qed.
Lemma strncpy_ended n src (i : nat) : 0 <= n -> src !! i = Some 0 -> exists b, strncpy n src = Some b /\ zlen b = n.
Proof.
  intros Hn Hi. unfold strncpy. destruct (Z.ltb_spec n 0); [lia|]. cbn [orb].
  set (t := take (Z.to_nat n) src). assert ((zlen t <? n) && bool_decide (0 ∉ t) = false) as ->.
  { apply andb_false_iff. destruct (Z.ltb_spec (zlen t) n) as [Hlt|]; [right|by left]. apply bool_decide_eq_false_2. intros Hnin. apply Hnin.
    subst t. rewrite length_take in Hlt. rewrite take_ge by lia. by eapply list_elem_of_lookup_2. }
  eexists. split; [done|]. rewrite length_app, length_replicate.
  assert (forall t, (length (c_str t) <= length t)%nat) as Hc by (clear; induction t as [|x t IH]; cbn; [lia|case_goal; cbn; lia]).
  specialize (Hc t). assert (length t <= Z.to_nat n)%nat by (subst t; rewrite length_take; lia). lia.
Qed.

(** A string object that is written below its limit keeps its end. *)
Lemma str_obj_splice cap o b : obj_ok (StrObj cap) o -> zlen b <= cap -> obj_ok (StrObj cap) (splice o 0 b) /\ 0 + zlen b <= zlen o.
Proof.
  intros (Hcap & i & Hi & Ez) Hb. pose proof (lookup_lt_Some _ _ _ Ez). split; [|lia]. split; [done|]. exists i. split; [done|].
  rewrite splice_lookup by lia. by rewrite !bool_decide_eq_false_2 by lia.
Qed.

Lemma str2config_runs s c x t :
  listable s -> config_in (arrays s) c x -> runs (configs_str2config c t) (fun _ s' => stored s s') s.
Proof.
  intros Hs Hc. assert (stored s s) as Hrefl by done. pose proof Hs as (L1 & L2 & L3 & L4).
  assert (item_ok K x) as Hx. { destruct Hc as (l & El & _ & Ex). by eapply Forall_lookup_1; [eapply L3|]. }
  pose proof Hx as (H1' & H2' & H3' & H4'). unfold configs_str2config. case_goal; [by apply runs_ret|].
  apply runs_bind. eapply config_at_runs; [done|].
  assert (forall b (m : ST unit) (r : Z), (b = true -> runs m (fun _ s' => stored s s') s) -> runs (_ ← when b m; mret r) (fun _ s' => stored s s') s) as Hwhen.
  { intros b m r Hm. apply runs_bind. apply runs_when; intros Eb.
    - eapply runs_mono; [by apply Hm|]. intros ? s' Hs'. by apply runs_ret.
    - by apply runs_ret. }
  case_goal; [|case_goal; [|case_goal; [|case_goal; [|case_goal; [|case_goal; [|case_goal; [|by apply runs_ret]]]]]]].
  - destruct (configs_parser_value_bool t) as [r b]. case_goal; [by apply runs_ret|]. apply runs_bind.
    eapply runs_mono with (P := fun _ s' => stored s s'); [|intros; by apply runs_ret]. apply orb_true_iff in E0. case_goal; b2p.
    + by apply (write_int_runs s 1), H1'.
    + destruct E0 as [E0|E0]; b2p; [done|]. eapply set_data0_runs; [done|done|]. apply value_item_ok; by rewrite E0.
  - destruct (configs_parser_value_u32 t) as [r v]. apply Hwhen. intros _. apply (write_int_runs s 4); [done|]. apply H2'.
    apply orb_true_iff in E1 as [E1|E1]; b2p; auto.
  - destruct (configs_parser_value_u64 t) as [r v]. apply Hwhen. intros _. apply (write_int_runs s 8); [done|]. b2p. by apply H3'.
  - b2p. destruct H4' as (cap & Ek & Hsz); [by left|]. destruct (L4 _ _ Ek) as (o & Eo & Ho). apply runs_bind. eapply object_runs; [done|].
    destruct (strncpy_ended (csize x) (t ++ [0]) (length t)) as (b & Eb & Hb); [lia|by rewrite lookup_app_r, Nat.sub_diag by lia|].
    destruct (str_obj_splice cap o b Ho) as [Ho' Hfit]; [lia|]. apply runs_bind. eapply runs_of_opt; [done|]. apply runs_bind.
    eapply runs_of_opt; [apply bput_runs; lia|]. runs_by (put_var_runs s (ldata0 x) (StrObj cap)); [done|done|done|].
    intros ? s' Hs'. apply runs_bind. destruct Ho' as (Hcap' & i & Hi' & Ez). destruct (until_zero_runs _ i Ez) as (u & Eu & _).
    eapply runs_of_opt; [done|]. by apply runs_ret.
  - destruct (configs_parser_value_u32 t) as [r v]. apply Hwhen. intros _. eapply set_data0_runs; [done|done|].
    apply orb_true_iff in E4 as [E4|E4]; b2p; apply value_item_ok; by rewrite E4.
  - destruct (configs_parser_value_u64 t) as [r v]. apply Hwhen. intros _. eapply set_data0_runs; [done|done|]. b2p.
    apply value_item_ok; by rewrite E5.
  - case_goal; [by apply runs_ret|]. apply runs_bind, runs_gets. destruct (f_set_ok (ldata1 x) (item_name x) (cid x) t (cworld s)) as (r & w & Er).
    apply runs_bind. eapply runs_of_opt; [done|]. cbn. apply runs_bind, runs_modify, runs_ret. done.
Qed.

Lemma setget_runs s c x val size set :
  listable s -> config_in (arrays s) c x -> (forall v, val = Some v -> 0 <= size <= zlen v) ->
  runs (configs_setget_config_value c val size set) (fun _ s' => stored s s') s.
Proof.
  intros Hs Hc Hval. assert (stored s s) as Hrefl by done. pose proof Hs as (L1 & L2 & L3 & L4).
  assert (item_ok K x) as Hx. { destruct Hc as (l & El & _ & Ex). by eapply Forall_lookup_1; [eapply L3|]. }
  pose proof Hx as (H1' & H2' & H3' & H4'). unfold configs_setget_config_value.
  apply runs_bind. eapply config_at_runs; [done|]. destruct val as [v|]; [|by apply runs_ret]. specialize (Hval v eq_refl).
  case_goal; [by apply runs_ret|]. cbv zeta.
  assert (forall b n, 0 <= n <= zlen b -> exists t, bget b 0 n = Some t /\ zlen t = n) as Hget.
  { intros b n Hn. unfold bget. destruct (Z.leb_spec 0 n); [|lia]. destruct (Z.leb_spec (0 + n) (zlen b)); [|lia]. cbn.
    eexists. split; [done|]. rewrite length_take, length_drop. lia. }
  assert (forall n, 0 <= n -> points_to_int K x n ->
    runs (if size <? n then mret (-2, Some v)
          else o ← object x;
            if set then b ← of_opt (bget v 0 n); o ← of_opt (bput o 0 b); _ ← put_var (ldata0 x) o; mret (n, Some v)
            else b ← of_opt (bget o 0 n); v ← of_opt (bput v 0 b); mret (n, Some v)) (fun _ s' => stored s s') s) as Hcopy.
  { intros n Hn (m & Em & Hm). case_goal; [by apply runs_ret|]. b2p. destruct (L4 _ _ Em) as (o & Eo & Ho). cbn in Ho.
    apply runs_bind. eapply object_runs; [done|]. destruct set.
    - destruct (Hget v n) as (b & Eb & Hb); [lia|]. apply runs_bind. eapply runs_of_opt; [done|]. apply runs_bind.
      eapply runs_of_opt; [apply bput_runs; lia|]. runs_by (put_var_runs s (ldata0 x) (IntObj m)); [done|done| |].
      + cbn. rewrite splice_length by lia. done.
      + intros ? s' Hs'. by apply runs_ret.
    - destruct (Hget o n) as (b & Eb & Hb); [lia|]. apply runs_bind. eapply runs_of_opt; [done|]. apply runs_bind.
      eapply runs_of_opt; [apply bput_runs; lia|]. by apply runs_ret. }
  assert (forall n, (n = 4 \/ n = 8)%nat -> (forall y, item_ok K (mk_config (ctype x) (cid x) (item_name x) y (ldata1 x) (csize x))) ->
    runs (if size <? Z.of_nat n then mret (-2, Some v)
          else if set then b ← of_opt (bget v 0 (Z.of_nat n)); _ ← set_data0 c (set_low n (ldata0 x) (le_join b)); mret (Z.of_nat n, Some v)
          else v ← of_opt (bput v 0 (le_split n (low n (ldata0 x)))); mret (Z.of_nat n, Some v)) (fun _ s' => stored s s') s) as Hinside.
  { intros n Hn Hy. case_goal; [by apply runs_ret|]. b2p. destruct set.
    - destruct (Hget v (Z.of_nat n)) as (b & Eb & Hb); [lia|]. apply runs_bind. eapply runs_of_opt; [done|]. runs_by set_data0_runs; [done|done|done|].
      intros ? s' Hs'. by apply runs_ret.
    - assert (length (le_split n (low n (ldata0 x))) = n) as Hl by (by destruct Hn as [-> | ->]).
      apply runs_bind. eapply runs_of_opt; [apply bput_runs; lia|]. by apply runs_ret. }
  case_goal; [apply (Hcopy 4); [lia|]; apply H2'; apply orb_true_iff in E0 as [E0|E0]; b2p; auto|].
  case_goal; [apply (Hcopy 8); [lia|]; apply H3'; by b2p|].
  case_goal; [by apply runs_ret|]. case_goal.
  { destruct H4' as (cap & Ek & Hsz); [apply orb_true_iff in E3 as [E3|E3]; b2p; auto|]. destruct (L4 _ _ Ek) as (o & Eo & Ho).
    case_goal; [|by apply runs_ret]. b2p. apply runs_bind. eapply object_runs; [done|]. set (k := Z.min (size - 1) (csize x - 1)) in *. destruct set.
    - destruct (strncpy_runs k v) as (b & Eb & Hb); [lia|]. destruct (str_obj_splice cap o b Ho) as [Ho' Hfit]; [lia|].
      apply runs_bind. eapply runs_of_opt; [done|]. apply runs_bind. eapply runs_of_opt; [apply bput_runs; lia|].
      runs_by (put_var_runs s (ldata0 x) (StrObj cap)); [done|done|done|]. intros ? s' Hs'. by apply runs_ret.
    - destruct Ho as (_ & i & Hi & Ez). destruct (strncpy_ended k o i) as (b & Eb & Hb); [lia|done|]. apply runs_bind. eapply runs_of_opt; [done|].
      apply runs_bind. eapply runs_of_opt; [apply bput_runs; lia|]. by apply runs_ret. }
  case_goal; [apply (Hinside 4%nat); [by left|]; intros y; apply orb_true_iff in E4 as [E4|E4]; b2p; apply value_item_ok; by rewrite E4|].
  case_goal; [apply (Hinside 8%nat); [by right|]; intros y; b2p; apply value_item_ok; by rewrite E5|by apply runs_ret].
Qed.

(** ** Walking *)

(** The call changed reference counts only. *)
Definition counted s (s' : cfg W) : Prop :=
  same_shape (nodes s) (nodes s') /\ arrays s' = arrays s /\ vars s' = vars s /\ cworld s' = cworld s.
Lemma counted_refl s : counted s s.
Proof. done. Qed.
Lemma counted_trans s1 s2 s3 : counted s1 s2 -> counted s2 s3 -> counted s1 s3.
Proof. intros (H1 & H2 & H3 & H4) (H5 & H6 & H7 & H8). split; [by eapply same_shape_trans|]. repeat split; congruence. Qed.
Lemma counted_bump s d l : counted s (with_nodes s (bump d l (nodes s))).
Proof. split; [apply bump_shape|done]. Qed.
Lemma counted_node s s' a n : counted s s' -> nodes s !! a = Some n -> exists n', nodes s' !! a = Some n' /\ unref n' = unref n.
Proof. intros (HS & _). by apply shape_at. Qed.
Lemma counted_below s s' top l a : counted s s' -> below (nodes s) top l a -> below (nodes s') top l a.
Proof. intros (HS & _). by apply below_shape. Qed.
Lemma listable_counted s s' : counted s s' -> listable s -> listable s'.
Proof.
  intros (HS & H2 & H3 & H4) (L1 & L2 & L3 & L4). unfold ConfigsItems.listable. rewrite H2, H3. split; [by eapply shape_ok|]. split; [|done].
  intros a n E. destruct (shape_at _ _ a n (same_shape_sym _ _ HS) E) as (m & Em & U). unref_eqs U. unfold node_items_ok. rewrite H2, <- Hf_cnum, <- Hf_cfg.
  by eapply L2.
Qed.

Lemma node_at_runs s a n (Q : mconfig_node -> cfg W -> Prop) : nodes s !! a = Some n -> Q n s -> runs (node_at a) Q s.
Proof. intros E HQ. exists n, s. unfold node_at. by rewrite E. Qed.
Lemma bind_ret_r {A} (m : ST A) s : (m ≫= mret) s = m s.
Proof. unfold mbind, ST_bind. by destruct (m s) as [[a s1]|]. Qed.
Lemma run_counted (m : ST Z) s d l :
  (m ≫= mret) (with_nodes s (nodes s)) = Some (0, with_nodes s (bump d l (nodes s))) -> runs m (fun _ s' => counted s s') s.
Proof. rewrite with_nodes_eta, bind_ret_r. intros E. eapply runs_eq; [done|]. apply counted_bump. Qed.

Lemma inc_runs s a n : nodes s !! a = Some n -> runs (configs_inc_node_ref a) (fun _ s' => counted s s') s.
Proof.
  intros E. exists (s32 (ref_cnt n + 1)), (with_nodes s (bump 1 [a] (nodes s))). split; [|apply counted_bump].
  rewrite <- (with_nodes_eta s) at 1. rewrite <- bind_ret_r. by rewrite (inc_count_run a n).
Qed.

Lemma put_node_runs s a l root :
  tree_ok (nodes s) -> below (nodes s) ROOT l a ->
  (root = None \/ root = Some a \/ exists top t k, root = Some top /\ nodes s !! top = Some t /\ below (nodes s) top (a :: k) a /\ (length k <= WALK)%nat) ->
  runs (configs_put_node (Some a) true root) (fun _ s' => counted s s') s.
Proof.
  intros HN Hb Hr. assert (root = None \/ root = Some a \/ exists top t k, root = Some top /\ nodes s !! top = Some t /\ below (nodes s) top (a :: k) a /\ (length k <= WALK)%nat) as [Hr'|[Hr'|(top & t & k & -> & Et & Hk & Hl)]] by done.
  - eapply run_counted. by rewrite (put_node_all_run l a root (nodes s) s) by auto.
  - eapply run_counted. by rewrite (put_node_all_run l a root (nodes s) s) by auto.
  - eapply run_counted. by rewrite (put_node_run top k a t (nodes s) s).
Qed.
Lemma put_node_once_runs s a n root : nodes s !! a = Some n -> runs (configs_put_node (Some a) false root) (fun _ s' => counted s s') s.
Proof. intros E. eapply run_counted. by rewrite (put_node_once_run a n root (nodes s) s). Qed.

Lemma find_son_runs l nm s :
  (forall a, a ∈ l -> is_Some (nodes s !! a)) -> runs (find_son l nm) (fun r s' => counted s s' /\ forall b, r = Some b -> b ∈ l) s.
Proof.
  induction l as [|a l IH]; intros Hin; cbn [find_son]; [by apply runs_ret|]. destruct (Hin a) as [n E]; [set_solver|].
  apply runs_bind. eapply node_at_runs; [done|]. case_goal; [case_goal; [by apply runs_ret|]|].
  - apply runs_bind. eapply runs_mono; [by eapply inc_runs|]. intros r s' Hc. apply runs_ret. split; [done|]. intros b. case_goal; [done|]. intros [= <-]. set_solver.
  - eapply runs_mono; [apply IH; set_solver|]. intros r s' (Hc & Hr). split; [done|]. intros b Eb. specialize (Hr b Eb). set_solver.
Qed.

(** The son found is below, wherever the node is. *)
Lemma lookup_son_runs s a n nm :
  tree_ok (nodes s) -> nodes s !! a = Some n ->
  runs (configs_get_node_with_name (Some a) nm) (fun r s' => counted s s' /\ forall b, r = Some b -> b ∈ son_node_list n) s.
Proof.
  intros HN E. unfold configs_get_node_with_name. apply runs_bind. eapply node_at_runs; [done|]. apply find_son_runs.
  intros b Hb. destruct (tk_sons _ HN a n b E Hb) as (m & Em & _). done.
Qed.

(** A turn of the walks leaves a shorter path. *)
Lemma first_node_rest path i sub e :
  configs_parser_first_node path = (i, sub, e) -> (i <=? 0) = false -> (length (drop (Z.to_nat i + 1) path) < length path)%nat.
Proof. intros E Hi. b2p. destruct path as [|c path]; [cbn in E; injection E as <- _ _; lia|]. rewrite length_drop. cbn. lia. Qed.

Lemma config_walk_runs fuel N top t l a s path :
  tree_ok N -> same_shape N (nodes s) -> N !! top = Some t -> below N top l a -> (length path < fuel)%nat ->
  runs (config_walk fuel top a path) (fun r s' => counted s s' /\
    match r with
    | Malformed => True
    | Missing None _ => True
    | Missing (Some b) _ => exists k, below N top (b :: k) b
    | Arrived b _ => exists k, below N top k b
    end) s.
Proof.
  intros HN HS Et. revert l a path s HS. induction fuel as [|fuel IH]; intros l a path s HS Hb Hf; [lia|]. cbn [config_walk].
  destruct (configs_parser_first_node path) as [[i sub] e] eqn:Ep. case_goal; [by apply runs_ret|]. apply orb_false_iff in E as [E _].
  destruct e; [apply runs_ret; split; [done|by exists l]|].
  destruct (below_depth N top l a t HN Et Hb) as (n & En & Hd & _). destruct (shape_at _ _ _ _ HS En) as (n' & En' & U). unref_eqs U.
  runs_by lookup_son_runs; [by eapply shape_ok|done|]. intros r s1 (Hc & Hr). rewrite Hf_sons in Hr. destruct r as [b|].
  - assert (below N top (b :: l) b) as Hb' by (apply below_son with a n; auto).
    pose proof (first_node_rest _ _ _ _ Ep E). eapply runs_mono; [apply (IH (b :: l) b)|].
    + eapply same_shape_trans; [done|apply Hc].
    + done.
    + lia.
    + intros r s2 (Hc2 & Hr2). split; [by eapply counted_trans|done].
  - apply runs_ret. split; [done|]. case_goal; [done|]. b2p. destruct l as [|b l]; [by inversion Hb|].
    pose proof (below_last _ _ _ _ Hb) as ->. by exists l.
Qed.

Lemma end_node_loop_runs fuel N root l a s path :
  tree_ok N -> same_shape N (nodes s) -> below N (default ROOT root) l a -> is_Some (N !! default ROOT root) -> (length path < fuel)%nat ->
  runs (end_node_loop fuel root (default ROOT root) a path)
    (fun r s' => counted s s' /\ forall b, r = Some b -> exists k, below N (default ROOT root) k b) s.
Proof.
  intros HN HS Hb [t Et]. revert l a path s HS Hb. induction fuel as [|fuel IH]; intros l a path s HS Hb Hf; [lia|]. cbn [end_node_loop].
  destruct (configs_parser_first_node path) as [[i sub] e] eqn:Ep. case_goal; [by apply runs_ret|]. apply orb_false_iff in E as [E _].
  destruct (below_depth N _ l a t HN Et Hb) as (n & En & Hd & _). destruct (shape_at _ _ _ _ HS En) as (n' & En' & U). unref_eqs U.
  apply runs_bind. eapply node_at_runs; [done|]. case_goal; [apply runs_ret; split; [done|]; intros b [= <-]; by exists l|].
  runs_by lookup_son_runs; [by eapply shape_ok|done|]. intros r s1 (Hc & Hr). rewrite Hf_sons in Hr. destruct r as [b|].
  - assert (below N (default ROOT root) (b :: l) b) as Hb' by (apply below_son with a n; auto).
    pose proof (first_node_rest _ _ _ _ Ep E). case_goal; [apply runs_ret; split; [done|]; intros b' [= <-]; by exists (b :: l)|].
    eapply runs_mono; [apply (IH (b :: l) b)|].
    + eapply same_shape_trans; [done|apply Hc].
    + done.
    + lia.
    + intros r s2 (Hc2 & Hr2). split; [by eapply counted_trans|done].
  - apply runs_ret. by split.
Qed.

(** The node at the end of a path from the root, while only counts change. *)
Lemma path_end_runs s path :
  tree_ok (nodes s) ->
  runs (configs_get_node_path_end_node None path)
    (fun r s' => counted s s' /\ forall b, r = Some b -> exists k, below (nodes s) ROOT k b) s.
Proof.
  intros HN. destruct (tk_root _ HN) as (r & Er & _). unfold configs_get_node_path_end_node. cbv zeta.
  eapply (end_node_loop_runs _ (nodes s) None [] ROOT); [done|apply same_shape_refl|apply below_top|by exists r|lia].
Qed.

(** ** Items by path *)

Lemma get_config_runs s a n nm :
  listable s -> nodes s !! a = Some n ->
  runs (configs_get_node_config a nm) (fun r s' => counted s s' /\ forall c, r = Some c -> exists x, config_in (arrays s) c x) s.
Proof.
  intros (L1 & L2 & L3 & L4) E. pose proof (get_node_config_run a n nm (nodes s) s mret E (L2 a n E)) as Hrun.
  rewrite with_nodes_eta, bind_ret_r in Hrun. destruct (item_of s n nm) as [c|] eqn:Ei; (eapply runs_eq; [done|]).
  - split; [apply counted_bump|]. intros c' [= <-]. unfold item_of, items_of in Ei.
    destruct (configs n) as [arr|]; [|done]. cbn in Ei. destruct (arrays s !! arr) as [l|] eqn:El; [|done]. cbn in Ei.
    destruct (item_pos (take (Z.to_nat (configs_num n)) l) 0 nm) as [i|] eqn:Ep; [|done]. cbn in Ei. injection Ei as <-.
    assert (forall l i j, item_pos l i nm = Some j -> 0 <= i -> i <= j /\ is_Some (l !! Z.to_nat (j - i))) as Hpos.
    { clear. induction l as [|x l IH]; intros i j Hp Hi; [done|]. cbn in Hp. case_hyp Hp.
      - injection Hp as <-. split; [lia|]. rewrite Z.sub_diag. by exists x.
      - destruct (IH (i + 1) j Hp) as [H1 H2]; [lia|]. split; [lia|]. by replace (Z.to_nat (j - i)) with (S (Z.to_nat (j - (i + 1)))) by lia. }
    destruct (Hpos _ _ _ Ep) as [Hi [x Ex]]; [lia|]. rewrite Z.sub_0_r in Ex. apply lookup_take_Some in Ex as [Ex _].
    exists x, l. cbn. by rewrite El.
  - by split.
Qed.

(** A [topnode] of the callers: NULL, or a node of the tree. *)
Definition top_ok N (topnode : option Z) : Prop := exists up, below N ROOT up (default ROOT topnode).

Lemma path_config_runs s topnode path set :
  listable s -> top_ok (nodes s) topnode ->
  runs (configs_get_node_path_config topnode path set) (fun r s' => counted s s' /\
    match r with
    | inl _ => True
    | inr (c, b) => (exists x, config_in (arrays s) c x) /\ exists k, below (nodes s) (default ROOT topnode) k b
    end) s.
Proof.
  intros Hs (up & Hup). unfold configs_get_node_path_config. destruct path as [path|]; [|by apply runs_ret]. cbv zeta.
  pose proof Hs as (HN & _). destruct (tk_root _ HN) as (r & Er & _). destruct (below_depth _ _ _ _ _ HN Er Hup) as (t & Et & _).
  set (top := default ROOT topnode) in *.
  assert (forall s1 b k, counted s s1 -> below (nodes s) top k b -> forall err,
    runs (_ ← configs_put_node (Some b) true (Some top); mret (inl err : Z + (Z * Z) * Z)) (fun r s' => counted s s' /\
      match r with inl _ => True | inr (c, b) => (exists x, config_in (arrays s) c x) /\ exists k, below (nodes s) top k b end) s1) as Hfail.
  { intros s1 b k Hc Hb err. apply runs_bind. eapply runs_mono; [eapply (put_node_runs s1 b (k ++ up))|].
    - eapply shape_ok; [apply Hc|done].
    - eapply counted_below; [done|by eapply below_trans].
    - destruct k as [|b' k]; [inversion Hb; subst; by auto|]. pose proof (below_last _ _ _ _ Hb) as ->. right. right.
      destruct (counted_node _ _ _ _ Hc Et) as (t' & Et' & _). exists top, t', k. split; [done|]. split; [done|].
      split; [by eapply counted_below|]. pose proof (below_length _ _ _ HN (below_trans _ _ _ _ _ _ Hup Hb)) as Hlen.
      rewrite length_app in Hlen. cbn in Hlen. unfold WALK. lia.
    - intros ? s2 Hc2. apply runs_ret. split; [by eapply counted_trans|done]. }
  runs_by (config_walk_runs (S (length path)) (nodes s) top t [] top); [done|apply same_shape_refl|done|apply below_top|lia|].
  intros w s1 (Hc & Hw). destruct w as [|[b|] err|b item]; [by apply runs_ret| | |].
  - destruct Hw as (k & Hb). by apply (Hfail s1 b (b :: k)).
  - cbn [configs_put_node]. apply runs_bind, runs_ret, runs_ret. done.
  - destruct Hw as (k & Hb). destruct (below_depth _ _ _ _ _ HN Et Hb) as (n & En & _). destruct (counted_node _ _ _ _ Hc En) as (n' & En' & U).
    apply runs_bind. eapply node_at_runs; [done|]. case_goal; [by eapply Hfail|]. case_goal; [by eapply Hfail|].
    runs_by get_config_runs; [by eapply listable_counted|done|]. intros [c|] s2 (Hc2 & Hr).
    + apply runs_ret. split; [by eapply counted_trans|]. destruct (Hr c eq_refl) as (x & Hx). destruct Hc as (_ & Ha & _). rewrite Ha in Hx. eauto.
    + eapply Hfail; [by eapply counted_trans|done].
Qed.
End Inv.
