(* ===== verification/ConfigsReach.v ===== *)
(** * Reachable configuration trees

    Adding and removing nodes keep the tree well formed, so every sequence of
    operations after the start of the module does. *)

From stdpp Require Import base numbers list option strings gmap sets.
From S2P Require Import Prelude StateM KText KNum Configs ConfigsTree ConfigsPath ConfigsItems ConfigsInv.

(** ** The tree with a node more or less *)

(** A node that may be registered: on no list, without sons, and without prefix,
    as [configs_init_new_node] leaves it. *)
Record fresh_node (n : mconfig_node) : Prop := {
  fr_link : forall p, link n <> OnList p;
  fr_sons : son_node_list n = [];
  fr_prefix : prefix n = [] }.

Lemma tree_ok_add N pa p new n n1 :
  tree_ok N -> N !! pa = Some p -> N !! new = Some n -> new <> pa -> new <> ROOT -> fresh_node n ->
  son_node_list n1 = [] -> son_node_num n1 = son_node_num n -> link n1 = OnList pa -> linked p pa n1 -> 
  tree_ok (<[pa := with_sons p (son_node_num p + 1) (son_node_list p ++ [new])]> (<[new := n1]> N)).
Proof.
  intros HN Ep En Hne Hroot [Fl Fs Fp] Hs1 Hn1 Hl1 Hk. set (p' := with_sons p _ _). set (N' := <[pa := p']> _).
  assert (N' !! pa = Some p') as Epa by (subst N'; by rewrite lookup_insert, decide_True).
  assert (N' !! new = Some n1) as Enew by (subst N'; rewrite lookup_insert_ne by done; by rewrite lookup_insert, decide_True).
  assert (forall x, x <> pa -> x <> new -> N' !! x = N !! x) as Eoth by (intros x H1 H2; subst N'; by rewrite !lookup_insert_ne).
  assert (forall a m, N !! a = Some m -> new ∉ son_node_list m) as Hnot.
  { intros a m E Hin. destruct (tk_sons N HN a m new E Hin) as (n' & En' & Hl & _). simplify_eq. by eapply Fl. }
  pose proof (lk_short _ _ _ Hk) as Hsh. pose proof (lk_depth _ _ _ Hk) as Hd. pose proof (lk_room _ _ _ Hk) as Hroom.
  pose proof (tk_depth N HN pa p Ep) as Hdp. pose proof (tk_prefix N HN pa p Ep) as [Hpp Hpp0].
  assert (forall x m, N' !! x = Some m -> exists m0, (x <> new -> N !! x = Some m0) /\ (x <> new -> m0 = m \/ (x = pa /\ m = p' /\ m0 = p))) as Hcase.
  { intros x m E. destruct (decide (x = pa)) as [->|H1]; [exists p; split; [done|]; intros _; right; by simplify_eq|].
    destruct (decide (x = new)) as [->|H2]; [by exists n|]. rewrite Eoth in E by done. exists m. auto. }
  assert (forall q qa m, linked q qa m -> q = p -> linked p' qa m) as Hlk by (intros q qa m [L1 L2 L3 L4 L5 L6] ->; by split).
  split.
  - destruct (tk_root N HN) as (r & Er & R1 & R2 & R3 & R4). destruct (decide (pa = ROOT)) as [->|H1].
    + exists p'. simplify_eq. by repeat split.
    + exists r. rewrite Eoth by done. done.
  - intros a m x E Hx. destruct (decide (a = new)) as [->|Ha]; [simplify_eq; rewrite Hs1 in Hx; set_solver|].
    destruct (decide (a = pa)) as [->|Ha'].
    + rewrite Epa in E. injection E as <-. cbn in Hx. apply elem_of_app in Hx as [Hx|Hx].
      * destruct (tk_sons N HN pa p x Ep Hx) as (y & Ey & Hly & Hky). assert (x <> new) as Hxn by (intros ->; by apply (Hnot pa p Ep)).
        destruct (decide (x = pa)) as [->|Hxp]; [|exists y; rewrite Eoth by done; split; [done|]; split; [done|by eapply Hlk]].
        simplify_eq. pose proof (lk_depth _ _ _ Hky). lia.
      * apply list_elem_of_singleton in Hx as ->. exists n1. split; [done|]. split; [done|]. by eapply Hlk.
    + rewrite Eoth in E by done. destruct (tk_sons N HN a m x E Hx) as (y & Ey & Hly & Hky).
      assert (x <> new) as Hxn by (intros ->; by apply (Hnot a m E)).
      destruct (decide (x = pa)) as [->|Hxp]; [|by exists y; rewrite Eoth].
      simplify_eq. exists p'. split; [done|]. split; [done|]. destruct Hky as [L1 L2 L3 L4 L5 L6]. by split.
  - intros x m q E Hl. destruct (decide (x = new)) as [->|Hxn].
    + rewrite Enew in E. injection E as <-. rewrite Hl1 in Hl. injection Hl as <-. exists p'. split; [done|]. cbn. apply elem_of_app. right. by apply list_elem_of_singleton.
    + destruct (Hcase x m E) as (m0 & E0 & Hm0). specialize (E0 Hxn). assert (link m0 = OnList q) as Hl0 by (destruct (Hm0 Hxn) as [->|(_ & -> & ->)]; done).
      destruct (tk_link N HN x m0 q E0 Hl0) as (z & Ez & Hz). destruct (decide (q = pa)) as [->|Hq].
      * exists p'. simplify_eq. split; [done|]. cbn. apply elem_of_app. by left.
      * destruct (decide (q = new)) as [->|Hq']; [simplify_eq; rewrite Fs in Hz; set_solver|]. exists z. by rewrite Eoth.
  - intros a m E. destruct (decide (a = new)) as [->|Ha]; [simplify_eq; rewrite Hs1; constructor|].
    destruct (decide (a = pa)) as [->|Ha']; [|rewrite Eoth in E by done; by eapply (tk_nodup N)].
    rewrite Epa in E. injection E as <-. cbn. apply NoDup_app. split; [by eapply (tk_nodup N)|]. split; [|apply NoDup_singleton].
    intros x Hx Hx'. apply list_elem_of_singleton in Hx' as ->. by apply (Hnot pa p Ep).
  - intros a m E. destruct (decide (a = new)) as [->|Ha].
    { simplify_eq. rewrite Hs1, Hn1. rewrite (tk_num N HN new n En), Fs. done. }
    destruct (decide (a = pa)) as [->|Ha']; [|rewrite Eoth in E by done; by eapply (tk_num N)].
    rewrite Epa in E. injection E as <-. cbn. rewrite length_app. cbn. pose proof (tk_num N HN pa p Ep). lia.
  - intros a m E. destruct (decide (a = new)) as [->|Ha]; [simplify_eq; lia|].
    destruct (Hcase a m E) as (m0 & E0 & Hm0). specialize (E0 Ha). pose proof (tk_depth N HN a m0 E0). destruct (Hm0 Ha) as [->|(_ & -> & ->)]; done.
  - intros a m E. destruct (decide (a = new)) as [->|Ha].
    { simplify_eq. rewrite (lk_prefix _ _ _ Hk), Hd. split; [|lia]. unfold path_below, MAX_PREFIX_NAME in *. destruct (depth p =? 0); [cbn; lia|].
      destruct (prefix p) as [|z q]; [cbn in Hsh |- *; lia|]. rewrite !length_app. change (length (str ".")) with 1%nat. lia. }
    destruct (Hcase a m E) as (m0 & E0 & Hm0). specialize (E0 Ha). pose proof (tk_prefix N HN a m0 E0). destruct (Hm0 Ha) as [->|(_ & -> & ->)]; done.
Qed.

Lemma filter_absent (a : Z) (l : list Z) : a ∉ l -> filter (fun x => x <> a) l = l.
Proof.
  induction l as [|x l IH]; [done|]. rewrite not_elem_of_cons. intros [Hx Hl]. rewrite filter_cons_True by congruence. by rewrite IH.
Qed.
Lemma filter_length_once (a : Z) (l : list Z) : a ∈ l -> NoDup l -> zlen (filter (fun x => x <> a) l) = zlen l - 1.
Proof.
  induction l as [|x l IH]; [set_solver|]. intros Hin [Hx Hnd]%NoDup_cons. destruct (decide (x = a)) as [->|Hne].
  - rewrite filter_cons_False by (intros Hc; by apply Hc). rewrite filter_absent by done. cbn. lia.
  - rewrite filter_cons_True by done. cbn [length]. apply elem_of_cons in Hin as [->|Hin]; [done|]. specialize (IH Hin Hnd). lia.
Qed.

(** A node without sons is taken off the list of its parent. *)
Lemma tree_ok_remove N p pn a n n1 :
  tree_ok N -> N !! p = Some pn -> N !! a = Some n -> link n = OnList p -> son_node_list n = [] ->
  n1 = with_link n Poisoned ->
  tree_ok (<[p := with_sons pn (son_node_num pn - 1) (filter (fun x => x <> a) (son_node_list pn))]> (<[a := n1]> N)).
Proof.
  intros HN Ep Ea Hl Hs ->. set (p' := with_sons pn _ _). set (N' := <[p := p']> _).
  destruct (tk_link N HN a n p Ea Hl) as (pn' & Ep' & Hin). simplify_eq. destruct (tk_sons N HN p pn a Ep Hin) as (n' & En' & _ & Hk). simplify_eq.
  assert (a <> p) as Hap. { intros ->. simplify_eq. pose proof (lk_depth _ _ _ Hk). lia. }
  assert (N' !! p = Some p') as Epa by (subst N'; by rewrite lookup_insert, decide_True).
  assert (N' !! a = Some (with_link n Poisoned)) as Eaa by (subst N'; rewrite lookup_insert_ne by done; by rewrite lookup_insert, decide_True).
  assert (forall x, x <> p -> x <> a -> N' !! x = N !! x) as Eoth by (intros x H1 H2; subst N'; by rewrite !lookup_insert_ne).
  (* every node, with its old self *)
  assert (forall x m, N' !! x = Some m -> exists m0, N !! x = Some m0 /\ prefix m = prefix m0 /\ name m = name m0 /\ depth m = depth m0 /\
    parent_node m = parent_node m0 /\ rw_flags m = rw_flags m0 /\ (x <> a -> link m = link m0) /\ (x <> p -> son_node_list m = son_node_list m0 /\ son_node_num m = son_node_num m0)) as Hold.
  { intros x m E. destruct (decide (x = p)) as [->|H1]; [rewrite Epa in E; injection E as <-; exists pn; by repeat split|].
    destruct (decide (x = a)) as [->|H2]; [rewrite Eaa in E; injection E as <-; exists n; by repeat split|]. rewrite Eoth in E by done. exists m. by repeat split. }
  assert (forall q m, N !! q = Some m -> q <> p -> a ∉ son_node_list m) as Hnot.
  { intros q m E Hq Hin'. destruct (tk_sons N HN q m a E Hin') as (n' & En'' & Hl' & _). simplify_eq. rewrite Hl in Hl'. by injection Hl'. }
  split.
  - destruct (tk_root N HN) as (r & Er & R1 & R2 & R3 & R4). destruct (decide (p = ROOT)) as [->|H1].
    + exists p'. simplify_eq. by repeat split.
    + exists r. rewrite Eoth; [done|done|]. intros <-. simplify_eq. congruence.
  - intros q m x E Hx. destruct (Hold q m E) as (m0 & E0 & O1 & O2 & O3 & O4 & O5 & O6 & O7).
    assert (x ∈ son_node_list m0 /\ x <> a) as [Hx0 Hxa].
    { destruct (decide (q = p)) as [->|Hq].
      - rewrite Epa in E. injection E as <-. cbn in Hx. apply list_elem_of_filter in Hx as [? ?]. by simplify_eq.
      - destruct (O7 Hq) as [O8 _]. rewrite O8 in Hx. split; [done|]. intros ->. by apply (Hnot q m0 E0). }
    destruct (tk_sons N HN q m0 x E0 Hx0) as (y & Ey & Hly & [L1 L2 L3 L4 L5 L6]).
    destruct (decide (x = p)) as [->|Hxp].
    + simplify_eq. exists p'. split; [done|]. split; [done|]. split; cbn; rewrite ?O1, ?O2, ?O3, ?O4, ?O5; try done. rewrite L3. unfold path_below. by rewrite O1, O2, O3.
    + exists y. rewrite Eoth by done. split; [done|]. split; [done|]. split; rewrite ?O1, ?O2, ?O3, ?O4, ?O5; try done. rewrite L3. unfold path_below. by rewrite O1, O2, O3.
  - intros x m q E Hlx. destruct (decide (x = a)) as [->|Hxa]; [rewrite Eaa in E; injection E as <-; done|].
    destruct (Hold x m E) as (m0 & E0 & _ & _ & _ & _ & _ & O6 & _). rewrite (O6 Hxa) in Hlx.
    destruct (tk_link N HN x m0 q E0 Hlx) as (z & Ez & Hz). destruct (decide (q = p)) as [->|Hq].
    + exists p'. simplify_eq. split; [done|]. cbn. by apply list_elem_of_filter.
    + destruct (decide (q = a)) as [->|Hqa]; [simplify_eq; rewrite Hs in Hz; set_solver|]. exists z. by rewrite Eoth.
  - intros q m E. destruct (Hold q m E) as (m0 & E0 & _ & _ & _ & _ & _ & _ & O7). destruct (decide (q = p)) as [->|Hq].
    + rewrite Epa in E. injection E as <-. cbn. apply NoDup_filter. by eapply (tk_nodup N).
    + destruct (O7 Hq) as [-> _]. by eapply (tk_nodup N).
  - intros q m E. destruct (Hold q m E) as (m0 & E0 & _ & _ & _ & _ & _ & _ & O7). destruct (decide (q = p)) as [->|Hq].
    + rewrite Epa in E. injection E as <-. cbn. rewrite (tk_num N HN p pn Ep). rewrite filter_length_once; [done|done|by eapply (tk_nodup N)].
    + destruct (O7 Hq) as [-> ->]. by eapply (tk_num N).
  - intros q m E. destruct (Hold q m E) as (m0 & E0 & _ & _ & -> & _). by eapply (tk_depth N).
  - intros q m E. destruct (Hold q m E) as (m0 & E0 & -> & _ & -> & _). by eapply (tk_prefix N).
Qed.

Section Reach.
Context {W : Type} `{CfgFunsOk W}.
Variable K : gmap Z obj_kind.
Implicit Types (s : cfg W).
Abbreviation listable := (listable K).

Definition keeps {A} (m : ST A) s : Prop := runs m (fun _ s' => listable s') s.

Lemma keeps_ret {A} (a : A) s : listable s -> keeps (mret a) s.
Proof. intros Hs. by apply runs_ret. Qed.
Lemma put_at_runs s a n (Q : unit -> cfg W -> Prop) : Q tt (with_nodes s (<[a := n]> (nodes s))) -> runs (put_at a n) Q s.
Proof. intros HQ. by apply runs_modify. Qed.

Lemma node_items_same s N n : node_items_ok (with_nodes s N) n <-> node_items_ok s n.
Proof. done. Qed.
Lemma listable_nodes s N :
  listable s -> tree_ok N -> (forall a n, N !! a = Some n -> node_items_ok s n) -> listable (with_nodes s N).
Proof. by intros (_ & _ & L3 & L4) HN Hi. Qed.

(** A node changes in its state or items only. *)
Lemma listable_update s a n n' :
  listable s -> nodes s !! a = Some n -> bare n' = bare n -> node_items_ok s n' -> listable (with_nodes s (<[a := n']> (nodes s))).
Proof.
  intros Hs E Hb Hi. apply listable_nodes; [done| |].
  - eapply frame_ok; [|apply Hs]. intros b. destruct (decide (a = b)) as [<-|Hne]; [|by rewrite lookup_insert_ne].
    rewrite lookup_insert, decide_True, E by done. cbn. by rewrite Hb.
  - intros b m. destruct (decide (a = b)) as [<-|Hne]; [rewrite lookup_insert, decide_True by done; by intros [= <-]|].
    rewrite lookup_insert_ne by done. apply Hs.
Qed.

Lemma init_new_node_keeps s a n nm rw :
  listable s -> nodes s !! a = Some n -> (forall p, link n <> OnList p) -> son_node_list n = [] ->
  runs (configs_init_new_node a nm rw) (fun r s' => listable s' /\ r = 0 /\
    nodes s' = <[a := mk_node [] nm 1 0 (parent_node n) Alone 0 [] 0 None 0 rw]> (nodes s)) s.
Proof.
  intros Hs E Hl Hsons. unfold configs_init_new_node. apply runs_bind. eapply node_at_runs; [done|]. rewrite Hsons.
  set (n' := mk_node _ _ _ _ _ _ _ _ _ _ _ _).
  assert (listable (with_nodes s (<[a := n']> (nodes s)))) as Hs'.
  { destruct Hs as (HN & Hi & Hs). apply listable_nodes; [done| |].
    - assert (forall b m, nodes s !! b = Some m -> a ∉ son_node_list m) as Hnot.
      { intros b m Eb Hin. destruct (tk_sons _ HN b m a Eb Hin) as (x & Ex & Hlx & _). simplify_eq. by eapply Hl. }
      assert (forall b m, <[a := n']> (nodes s) !! b = Some m -> (b = a /\ m = n') \/ (b <> a /\ nodes s !! b = Some m)) as Hcase.
      { intros b m. rewrite lookup_insert_Some. intros [[<- <-]|[? ?]]; [by left|right; by split]. }
      split.
      + destruct (tk_root _ HN) as (r & Er & R1 & R2 & R3 & R4). destruct (decide (a = ROOT)) as [->|Ha].
        * exists n'. simplify_eq. rewrite lookup_insert, decide_True by done. by rewrite <- R1.
        * exists r. by rewrite lookup_insert_ne.
      + intros b m x Eb Hx. destruct (Hcase b m Eb) as [[-> ->]|[Hb Eb']]; [by apply elem_of_nil in Hx|].
        destruct (tk_sons _ HN b m x Eb' Hx) as (y & Ey & Hy). exists y. rewrite lookup_insert_ne; [done|]. intros ->. by apply (Hnot b m).
      + intros x m p Ex Hlx. destruct (Hcase x m Ex) as [[-> ->]|[Hb Ex']]; [done|]. destruct (tk_link _ HN x m p Ex' Hlx) as (y & Ey & Hy).
        exists y. rewrite lookup_insert_ne; [done|]. intros ->. simplify_eq. rewrite Hsons in Hy. by apply elem_of_nil in Hy.
      + intros b m Eb. destruct (Hcase b m Eb) as [[-> ->]|[_ Eb']]; [constructor|by eapply (tk_nodup _ HN)].
      + intros b m Eb. destruct (Hcase b m Eb) as [[-> ->]|[_ Eb']]; [done|by eapply (tk_num _ HN)].
      + intros b m Eb. destruct (Hcase b m Eb) as [[-> ->]|[_ Eb']]; [done|by eapply (tk_depth _ HN)].
      + intros b m Eb. destruct (Hcase b m Eb) as [[-> ->]|[_ Eb']]; [done|by eapply (tk_prefix _ HN)].
    - intros b m. rewrite lookup_insert_Some. intros [[_ <-]|[_ Eb]]; [by left|by eapply Hi]. }
  destruct (link n) as [|p|]; [|by destruct (Hl p)|]; (apply runs_bind, put_at_runs, runs_ret; done).
Qed.

Lemma fresh_shape n n' : unref n' = unref n -> fresh_node n -> fresh_node n'.
Proof. intros U [F1 F2 F3]. unref_eqs U. split; [by rewrite Hf_link|by rewrite Hf_sons|by rewrite Hf_prefix]. Qed.

(** Nodes and sons were added only. *)
Definition grown (N N' : node_map) : Prop :=
  forall a m, N !! a = Some m -> exists m', N' !! a = Some m' /\ forall x, x ∈ son_node_list m -> x ∈ son_node_list m'.
Lemma shape_grown N N' : same_shape N N' -> grown N N'.
Proof. intros HS a m E. destruct (shape_at _ _ _ _ HS E) as (m' & E' & U). unref_eqs U. exists m'. split; [done|]. by rewrite Hf_sons. Qed.
Lemma grown_trans N1 N2 N3 : grown N1 N2 -> grown N2 N3 -> grown N1 N3.
Proof. intros H1 H2 a m E. destruct (H1 a m E) as (m2 & E2 & S2). destruct (H2 a m2 E2) as (m3 & E3 & S3). exists m3. auto. Qed.
Lemma below_grown N N' top l a : grown N N' -> below N top l a -> below N' top l a.
Proof.
  intros HG. induction 1 as [|l p n x Hb IH E Hx]; [constructor|]. destruct (HG p n E) as (n' & E' & Hs). by apply below_son with p n'; auto.
Qed.

Lemma register_node_keeps s parent p new n :
  listable s -> nodes s !! default ROOT parent = Some p -> nodes s !! new = Some n -> new <> ROOT -> fresh_node n ->
  runs (configs_register_node parent new) (fun _ s' => listable s' /\ grown (nodes s) (nodes s')) s.
Proof.
  intros Hs Ep En Hroot Hfr. pose proof Hs as (HN & Hi & _). unfold configs_register_node. cbv zeta. set (pa := default ROOT parent) in *.
  assert (listable s /\ grown (nodes s) (nodes s)) as Hrefl by (split; [done|by apply shape_grown, same_shape_refl]).
  case_goal; [by apply runs_ret|]. b2p. apply runs_bind. eapply node_at_runs; [done|].
  case_goal; [by apply runs_ret|]. case_goal; [by apply runs_ret|]. b2p. apply runs_bind. eapply node_at_runs; [done|].
  runs_by lookup_son_runs; [done|done|]. intros r s1 (Hc & _). pose proof (listable_counted _ _ _ Hc Hs) as Hs1.
  assert (grown (nodes s) (nodes s1)) as Hdom by (apply shape_grown, Hc).
  destruct r; [by apply runs_ret|]. destruct (counted_node _ _ _ _ Hc Ep) as (p1 & Ep1 & U). destruct (counted_node _ _ _ _ Hc En) as (n1 & En1 & V).
  pose proof (fresh_shape _ _ V Hfr) as Hfr1. apply runs_bind. eapply node_at_runs; [done|]. apply runs_bind. eapply node_at_runs; [done|].
  unref_eqs U. rewrite <- Hf_depth in E0. rewrite <- Hf_prefix, <- Hf_name in E1. clear - Hs1 Hdom Ep1 En1 Hroot Hfr1 E E0 E1.
  pose proof Hs1 as (HN & Hi & _). pose proof (tk_depth _ HN pa p1 Ep1) as Hd. destruct (tk_prefix _ HN pa p1 Ep1) as [_ Hp0].
  assert ((if 2 <=? depth p1 + 1 then son_prefix p1 (prefix n1) else Some (prefix n1)) = Some (path_below p1)) as Hpre.
  { rewrite (fr_prefix _ Hfr1). unfold path_below, son_prefix, cat_in, MAX_PREFIX_NAME in *. destruct (Z.leb_spec 2 (depth p1 + 1)); destruct (Z.eqb_spec (depth p1) 0); try lia; [|done].
    destruct (prefix p1) as [|z q] eqn:Eq; cbn [mbind option_bind]; cbn [length] in *; change (str ".") with [46].
    - rewrite app_nil_l. destruct (Z.leb_spec (Z.of_nat 0 + zlen (name p1) + 1) 128); [done|lia].
    - cbn [length]. destruct (Z.leb_spec (Z.of_nat (S (length q)) + Z.of_nat 1 + 1) 128); [|lia]. cbn [mbind option_bind]. rewrite length_app. cbn [length].
      destruct (Z.leb_spec (Z.of_nat (S (length q) + 1) + zlen (name p1) + 1) 128); [|lia]. by rewrite <- app_assoc. }
  apply runs_bind. eapply runs_of_opt; [done|].
  set (n2 := mk_node _ _ _ _ _ _ _ _ _ _ _ _). set (p2 := with_sons p1 _ _).
  assert (listable (with_nodes s1 (<[pa := p2]> (<[new := n2]> (nodes s1))))) as Hs2.
  { apply listable_nodes; [done| |].
    - apply (tree_ok_add _ pa p1 new n1); try done; [by apply Hfr1|]. split; try done.
      cbn. by rewrite Z.land_assoc, Z.land_diag.
    - intros a m. rewrite !lookup_insert_Some. intros [[_ <-]|[_ [[_ <-]|[_ Em]]]]; [exact (Hi pa p1 Ep1)|exact (Hi new n1 En1)|by eapply Hi]. }
  assert (grown (nodes s1) (<[pa := p2]> (<[new := n2]> (nodes s1)))) as Hgrow.
  { intros a m Em. destruct (decide (pa = a)) as [<-|H1]; [|rewrite lookup_insert_ne by done; destruct (decide (new = a)) as [<-|H2]].
    - exists p2. rewrite lookup_insert, decide_True by done. split; [done|]. simplify_eq. intros x Hx. apply elem_of_app. by left.
    - exists n2. rewrite lookup_insert, decide_True by done. by simplify_eq.
    - exists m. by rewrite lookup_insert_ne. }
  pose proof (fr_link _ Hfr1) as Hfl. destruct (link n1) as [|q|]; [|by destruct (Hfl q)|];
    (apply runs_bind, put_at_runs, runs_bind, put_at_runs, runs_ret; split; [done|]; eapply grown_trans; [done|]; exact Hgrow).
Qed.

(** The call kept the shape of the tree. *)
Definition shaped s (s' : cfg W) : Prop := listable s' /\ same_shape (nodes s) (nodes s').
Lemma shaped_counted s s' : listable s -> counted s s' -> shaped s s'.
Proof. intros Hs Hc. split; [by eapply listable_counted|apply Hc]. Qed.
Lemma shaped_trans s1 s2 s3 : shaped s1 s2 -> shaped s2 s3 -> shaped s1 s3.
Proof. intros [_ H1] [H2 H3]. split; [done|by eapply same_shape_trans]. Qed.

(** The end of a successful call: the node gives its references back. *)
Lemma release_node_runs {B} s0 s topnode k b (f : Z -> ST B) (Q : B -> cfg W -> Prop) :
  tree_ok (nodes s0) -> top_ok (nodes s0) topnode -> below (nodes s0) (default ROOT topnode) k b -> shaped s0 s ->
  (forall s', shaped s0 s' -> runs (f 0) Q s') ->
  runs (configs_put_node (Some b) false topnode ≫= fun _ => configs_put_node (Some b) true topnode ≫= f) Q s.
Proof.
  intros HN (up & Hup) Hb [Hs HS] Hf. destruct (tk_root _ HN) as (r & Er & _). destruct (below_depth _ _ _ _ _ HN Er Hup) as (t & Et & _).
  destruct (below_depth _ _ _ _ _ HN Et Hb) as (n & En & _). destruct (shape_at _ _ _ _ HS En) as (n' & En' & _).
  runs_by put_node_once_runs; [done|]. intros r1 s1 Hc1. assert (same_shape (nodes s0) (nodes s1)) as HS1 by (eapply same_shape_trans; [done|apply Hc1]).
  apply runs_bind. assert (runs (configs_put_node (Some b) true topnode) (fun r2 s2 => counted s1 s2 /\ r2 = 0) s1) as Hput.
  { assert (runs (configs_put_node (Some b) true topnode) (fun r2 s2 => counted s1 s2) s1) as (r2 & s2 & Hrun & Hc2).
    { apply (put_node_runs s1 b (k ++ up)).
      - by eapply shape_ok.
      - eapply below_shape; [done|by eapply below_trans].
      - destruct topnode as [T|]; [|by left]. right. destruct k as [|b' k]; [inversion Hb; subst; by left|].
        pose proof (below_last _ _ _ _ Hb) as ->. right. destruct (shape_at _ _ _ _ HS1 Et) as (t' & Et' & _).
        exists T, t', k. split; [done|]. split; [done|]. split; [by eapply below_shape|].
        pose proof (below_length _ _ _ HN (below_trans _ _ _ _ _ _ Hup Hb)) as Hlen. rewrite length_app in Hlen. cbn in Hlen. unfold WALK. lia. }
    exists r2, s2. split; [done|]. split; [done|]. unfold configs_put_node in Hrun. cbn [negb] in Hrun.
    bind_inv Hrun as x s3 H3. bind_inv Hrun as y s4 H4. bind_inv Hrun as z s5 H5. by injection Hrun as <- _. }
  eapply runs_mono; [exact Hput|]. intros r2 s2 (Hc2 & ->). apply Hf. split.
  - eapply listable_counted; [exact Hc2|]. eapply listable_counted; [exact Hc1|done].
  - eapply same_shape_trans; [done|apply Hc2].
Qed.

Lemma set_path_str_runs s topnode path val :
  listable s -> top_ok (nodes s) topnode -> runs (configs_set_node_path_str topnode path val) (fun _ s' => shaped s s') s.
Proof.
  intros Hs Htop. assert (shaped s s) as Hrefl by (split; [done|apply same_shape_refl]). unfold configs_set_node_path_str.
  destruct val as [v|]; [|by apply runs_ret]. case_goal; [by apply runs_ret|].
  runs_by path_config_runs; [done|done|]. intros [err|[c b]] s1 (Hc & Hr); [apply runs_ret; by apply shaped_counted|].
  destruct Hr as ((x & Hx) & k & Hb). pose proof (shaped_counted _ _ Hs Hc) as Hsh. assert (config_in (arrays s1) c x) as Hx1.
  { destruct Hc as (_ & -> & _). done. }
  runs_by str2config_runs; [apply Hsh|done|]. intros ret s2 (Hn2 & Hs2). assert (shaped s s2) as Hsh2 by (split; [done|rewrite Hn2; apply Hsh]).
  eapply release_node_runs; [apply Hs|done|done|done|]. intros s3 Hs3. by apply runs_ret.
Qed.

Lemma get_path_str_runs s topnode path buf off size :
  listable s -> top_ok (nodes s) topnode -> 0 <= off -> (0 < size -> off + size <= zlen buf /\ buf !! Z.to_nat off = Some 0) ->
  runs (configs_get_node_path_str topnode path buf off size) (fun r s' => shaped s s' /\ frame off (off + Z.max 0 size) buf r.2) s.
Proof.
  intros Hs Htop Hoff Hsize. assert (shaped s s) as Hrefl by (split; [done|apply same_shape_refl]). unfold configs_get_node_path_str.
  case_goal; [apply runs_ret; cbn; split; [done|apply frame_refl]|].
  runs_by path_config_runs; [done|done|]. intros [err|[c b]] s1 (Hc & Hr); [apply runs_ret; split; [by apply shaped_counted|apply frame_refl]|].
  destruct Hr as ((x & Hx) & k & Hb). pose proof (shaped_counted _ _ Hs Hc) as Hsh. assert (config_in (arrays s1) c x) as Hx1.
  { destruct Hc as (_ & -> & _). done. }
  destruct Hsh as [(M1 & M2 & M3 & M4) Hsh]. assert (item_ok K x) as Hix. { destruct Hx1 as (l & El & _ & Ex). by eapply Forall_lookup_1; [eapply M3|]. }
  runs_by (config2str_runs K s1 c x buf off size); [done|done|done|done|done|]. intros [ret b2] s2 (Hw & Hf & _). cbn [fst snd] in *.
  assert (shaped s s2) as Hsh2. { split; [eapply listable_world; [done|by split]|]. destruct Hw as (-> & _). done. }
  eapply release_node_runs; [apply Hs|done|done|done|]. intros s3 Hs3. by apply runs_ret.
Qed.

Lemma setget_path_runs s topnode path val size set :
  listable s -> top_ok (nodes s) topnode -> (forall v, val = Some v -> 0 <= size <= zlen v) -> (set = true -> val <> None) ->
  runs (configs_setget_node_path_value topnode path val size set) (fun _ s' => shaped s s') s.
Proof.
  intros Hs Htop Hval Hset. assert (shaped s s) as Hrefl by (split; [done|apply same_shape_refl]). unfold configs_setget_node_path_value.
  runs_by path_config_runs; [done|done|]. intros [err|[c b]] s1 (Hc & Hr); [apply runs_ret; by apply shaped_counted|].
  destruct Hr as ((x & Hx) & k & Hb). pose proof (shaped_counted _ _ Hs Hc) as Hsh. assert (config_in (arrays s1) c x) as Hx1.
  { destruct Hc as (_ & -> & _). done. }
  apply runs_bind, runs_when. { intros E. apply andb_true_iff in E as [E1 E2]. b2p. by destruct (Hset E1). }
  intros _. runs_by setget_runs; [apply Hsh|done|done|]. intros [ret v] s2 (Hn2 & Hs2).
  assert (shaped s s2) as Hsh2 by (split; [done|rewrite Hn2; apply Hsh]).
  eapply release_node_runs; [apply Hs|done|done|done|]. intros s3 Hs3. by apply runs_ret.
Qed.

(** Giving back a node that was found by its path. *)
Lemma put_found_runs s0 s k b :
  tree_ok (nodes s0) -> below (nodes s0) ROOT k b -> shaped s0 s -> runs (configs_put_node (Some b) true None) (fun _ s' => shaped s0 s') s.
Proof.
  intros HN Hb [Hs HS]. eapply runs_mono; [apply (put_node_runs s b k None)|].
  - by eapply shape_ok.
  - by eapply below_shape.
  - by left.
  - intros r s1 Hc. split; [eapply listable_counted; [exact Hc|exact Hs]|]. eapply same_shape_trans; [done|apply Hc].
Qed.

Lemma set_below_runs s pre path val :
  listable s -> runs (set_below pre (fun topnode => configs_set_node_path_str topnode path val)) (fun _ s' => shaped s s') s.
Proof.
  intros Hs. pose proof Hs as (HN & _). destruct pre as [|c pre]; cbn [set_below].
  - runs_by set_path_str_runs; [done|by exists []; apply below_top|]. intros r s1 Hs1. by apply runs_bind, runs_ret, runs_ret.
  - runs_by path_end_runs; [done|]. intros [b|] s1 (Hc & Hb); [|apply runs_ret; by apply shaped_counted].
    destruct (Hb b eq_refl) as (k & Hk). pose proof (shaped_counted _ _ Hs Hc) as Hsh.
    runs_by set_path_str_runs; [apply Hsh|exists k; by eapply counted_below|]. intros r s2 Hs2.
    runs_by put_found_runs; [done|done|by eapply shaped_trans|]. intros ? s3 Hs3. by apply runs_ret.
Qed.

Lemma list_path_runs s path buf off size mode :
  listable s -> 0 <= off -> off + size + 1 <= zlen buf ->
  runs (configs_list_path_nodes path buf off size mode) (fun r s' => shaped s s' /\ frame off (off + size + 1) buf r.2) s.
Proof.
  intros Hs Hoff Hsize. pose proof Hs as (HN & _). unfold configs_list_path_nodes. runs_by path_end_runs; [done|].
  intros [b|] s1 (Hc & Hb); [|apply runs_ret; split; [by apply shaped_counted|apply frame_refl]].
  destruct (Hb b eq_refl) as (k & Hk). pose proof (shaped_counted _ _ Hs Hc) as Hsh. destruct (tk_root _ HN) as (r & Er & _).
  destruct (below_depth _ _ _ _ _ HN Er Hk) as (n & En & _). destruct (counted_node _ _ _ _ Hc En) as (n' & En' & _).
  pose proof (tk_depth _ (proj1 (proj1 Hsh)) b n' En') as Hd.
  unfold configs_list_nodes. cbn [default]. runs_by (list_nodes_in_runs K WALK mode [] b n'); [apply Hsh|done|unfold WALK, MAX_DEPTH in *; lia|cbn; lia|done|done|].
  intros [r2 b2] s2 (Hw & Hf & _). cbn [fst snd] in *. assert (shaped s s2) as Hsh2.
  { split; [eapply listable_world; [done|apply Hsh]|]. destruct Hw as (-> & _). apply Hsh. }
  runs_by put_found_runs; [done|done|done|]. intros ? s3 Hs3. by apply runs_ret.
Qed.

Lemma register_path_keeps s path new n :
  listable s -> nodes s !! new = Some n -> new <> ROOT -> fresh_node n ->
  runs (configs_register_path_node path new) (fun _ s' => listable s') s.
Proof.
  intros Hs En Hroot Hfr. pose proof Hs as (HN & _). destruct (tk_root _ HN) as (r & Er & _). destruct path as [|c path]; cbn [configs_register_path_node].
  - eapply runs_mono; [by eapply (register_node_keeps s None)|]. by intros ? s1 [H1 _].
  - runs_by path_end_runs; [done|]. intros [b|] s1 (Hc & Hb); [|apply runs_ret; by eapply listable_counted].
    destruct (Hb b eq_refl) as (k & Hk). destruct (below_depth _ _ _ _ _ HN Er Hk) as (p & Ep & _).
    destruct (counted_node _ _ _ _ Hc Ep) as (p' & Ep' & _). destruct (counted_node _ _ _ _ Hc En) as (n' & En' & U).
    pose proof (listable_counted _ _ _ Hc Hs) as Hs1.
    runs_by (register_node_keeps s1 (Some b) p' new n'); [done|done|done|done|by eapply fresh_shape|]. intros ret s2 (Hs2 & Hg).
    assert (below (nodes s2) ROOT k b) as Hk2 by (eapply below_grown; [done|]; by eapply counted_below).
    runs_by put_node_runs; [apply Hs2|done|by left|]. intros ? s3 Hc3. apply runs_ret. eapply listable_counted; [exact Hc3|exact Hs2].
Qed.

Lemma register_configs_runs s a n arr l num :
  listable s -> nodes s !! a = Some n -> arrays s !! arr = Some l -> num <= zlen l ->
  runs (configs_register_configs (Some a) arr num) (fun _ s' => listable s' /\ grown (nodes s) (nodes s')) s.
Proof.
  intros Hs E El Hnum. assert (grown (nodes s) (nodes s)) as Hrefl by (apply shape_grown, same_shape_refl).
  apply runs_bind. eapply node_at_runs; [done|]. case_goal; [by apply runs_ret|]. apply runs_bind, put_at_runs, runs_ret. split.
  - eapply listable_update; [done|done|done|]. right. by exists arr, l.
  - intros b m Em. cbn. destruct (decide (a = b)) as [<-|Hne].
    + rewrite lookup_insert, decide_True by done. eexists. split; [done|]. by simplify_eq.
    + rewrite lookup_insert_ne by done. by exists m.
Qed.
Lemma register_path_configs_keeps s path arr l num :
  listable s -> arrays s !! arr = Some l -> num <= zlen l -> keeps (configs_register_path_configs path arr num) s.
Proof.
  intros Hs El Hnum. pose proof Hs as (HN & _). destruct path as [|c path]; [by apply runs_ret|]. cbn [configs_register_path_configs].
  runs_by path_end_runs; [done|]. intros [b|] s1 (Hc & Hb); [|apply runs_ret; by eapply listable_counted].
  destruct (Hb b eq_refl) as (k & Hk). destruct (tk_root _ HN) as (r & Er & _). destruct (below_depth _ _ _ _ _ HN Er Hk) as (p & Ep & _).
  destruct (counted_node _ _ _ _ Hc Ep) as (p' & Ep' & _). assert (arrays s1 !! arr = Some l) as El1 by (destruct Hc as (_ & -> & _); done).
  runs_by (register_configs_runs s1 b p' arr l num); [by eapply listable_counted|done|done|done|]. intros ret s2 (Hs2 & Hg).
  assert (below (nodes s2) ROOT k b) as Hk2 by (eapply below_grown; [done|]; by eapply counted_below).
  runs_by put_node_runs; [apply Hs2|done|by left|]. intros ? s3 Hc3. apply runs_ret. eapply listable_counted; [exact Hc3|exact Hs2].
Qed.

Lemma del_endnode_keeps s parent a n :
  listable s -> nodes s !! a = Some n -> match parent with None => True | Some p => link n = OnList p end ->
  keeps (configs_del_endnode parent a) s.
Proof.
  intros Hs E Hp. pose proof Hs as (HN & Hi & _). unfold keeps, configs_del_endnode. apply runs_bind. eapply node_at_runs; [done|].
  apply runs_bind, put_at_runs. set (s1 := with_nodes s _). assert (listable s1) as Hs1 by (by eapply listable_update; [| | |apply (Hi a n)]).
  case_goal; [by apply runs_ret|]. set (n1 := with_active n 0) in *.
  assert (nodes s1 !! a = Some n1) as Ea1 by (subst s1; cbn; by rewrite lookup_insert, decide_True).
  apply runs_bind. eapply node_at_runs; [done|]. apply runs_bind, put_at_runs. set (n2 := with_configs n1 None 0). set (s2 := with_nodes s1 _).
  assert (listable s2) as Hs2 by (eapply listable_update; [done|done|done|by left]).
  case_goal; [by apply runs_ret|]. b2p. destruct parent as [p|]; [|by apply runs_ret].
  assert (nodes s2 !! a = Some n2) as Ea2 by (subst s2; cbn; by rewrite lookup_insert, decide_True).
  pose proof Hs2 as (HN2 & Hi2 & _). pose proof (tk_num _ HN a n E) as Hnum. assert (son_node_list n = []) as Hsons.
  { destruct (son_node_list n); [done|]. cbn in *. lia. }
  destruct (tk_link _ HN2 a n2 p Ea2 Hp) as (pn & Epn & Hin). assert (a <> p) as Hap.
  { intros <-. destruct (tk_sons _ HN2 a pn a Epn Hin) as (y & Ey & _ & Hk). simplify_eq. pose proof (lk_depth _ _ _ Hk). lia. }
  pose proof (tree_ok_remove _ p pn a n2 _ HN2 Epn Ea2 Hp Hsons eq_refl) as HN3.
  unfold list_del. apply runs_bind, runs_bind. eapply node_at_runs; [done|]. change (link n2) with (link n). rewrite Hp.
  apply runs_bind, put_at_runs. set (s3 := with_nodes s2 _).
  assert (nodes s3 !! p = Some pn) as Ep3 by (subst s3; cbn; by rewrite lookup_insert_ne).
  apply runs_bind. eapply node_at_runs; [done|]. apply put_at_runs. set (pn2 := with_sons pn _ _). set (s4 := with_nodes s3 _).
  assert (nodes s4 !! p = Some pn2) as Ep4 by (subst s4; cbn; by rewrite lookup_insert, decide_True).
  apply runs_bind. eapply node_at_runs; [done|]. apply runs_bind, put_at_runs, runs_ret. subst s4 s3. unfold with_nodes. cbn.
  rewrite insert_insert, decide_True by done. apply (listable_nodes s2); [done|exact HN3|].
  intros b m Em. apply lookup_insert_Some in Em as [[_ <-]|[_ Em]]; [exact (Hi2 p pn Epn)|].
  apply lookup_insert_Some in Em as [[_ <-]|[_ Em]]; [by left|by eapply Hi2].
Qed.

(** ** All operations *)

Inductive cfg_op :=
| InitNode (a : Z) (nm : bytes) (rw : Z)
| RegisterNode (parent : option Z) (new : Z)
| RegisterPathNode (path : bytes) (new : Z)
| RegisterConfigs (a : Z) (arr num : Z)
| RegisterPathConfigs (path : bytes) (arr num : Z)
| DelEndnode (parent : option Z) (a : Z)
| SetPathStr (topnode : option Z) (path : bytes) (val : option bytes)
| SetPrefixStr (pre path : bytes) (val : option bytes)
| GetPathStr (topnode : option Z) (path buf : bytes) (off size : Z)
| PathValue (topnode : option Z) (path val : option bytes) (size : Z) (set : bool)
| ListNodes (a : option Z) (buf : bytes) (off size mode : Z)
| ListPathNodes (path buf : bytes) (off size mode : Z).

Definition exec (op : cfg_op) : ST (S := cfg W) unit :=
  match op with
  | InitNode a nm rw => _ ← configs_init_new_node a nm rw; mret tt
  | RegisterNode parent new => _ ← configs_register_node parent new; mret tt
  | RegisterPathNode path new => _ ← configs_register_path_node path new; mret tt
  | RegisterConfigs a arr num => _ ← configs_register_configs (Some a) arr num; mret tt
  | RegisterPathConfigs path arr num => _ ← configs_register_path_configs path arr num; mret tt
  | DelEndnode parent a => _ ← configs_del_endnode parent a; mret tt
  | SetPathStr topnode path val => _ ← configs_set_node_path_str topnode path val; mret tt
  | SetPrefixStr pre path val => _ ← configs_set_prefix_path_str pre path val; mret tt
  | GetPathStr topnode path buf off size => _ ← configs_get_node_path_str topnode path buf off size; mret tt
  | PathValue topnode path val size set => _ ← configs_setget_node_path_value topnode path val size set; mret tt
  | ListNodes a buf off size mode => _ ← configs_list_nodes a buf off size mode; mret tt
  | ListPathNodes path buf off size mode => _ ← configs_list_path_nodes path buf off size mode; mret tt
  end.

(** What a caller must respect: it names nodes and tables that exist, registers
    nodes that are fresh, deletes a node from its own parent, starts in the tree,
    and its buffers are as large as it says; a listing needs one byte more. *)
Definition op_ok s (op : cfg_op) : Prop :=
  match op with
  | InitNode a _ _ => exists n, nodes s !! a = Some n /\ (forall p, link n <> OnList p) /\ son_node_list n = []
  | RegisterNode parent new =>
      new = default ROOT parent \/ (is_Some (nodes s !! default ROOT parent) /\ new <> ROOT /\ exists n, nodes s !! new = Some n /\ fresh_node n)
  | RegisterPathNode _ new => new <> ROOT /\ exists n, nodes s !! new = Some n /\ fresh_node n
  | RegisterConfigs a arr num => is_Some (nodes s !! a) /\ exists l, arrays s !! arr = Some l /\ num <= zlen l
  | RegisterPathConfigs _ arr num => exists l, arrays s !! arr = Some l /\ num <= zlen l
  | DelEndnode parent a => exists n, nodes s !! a = Some n /\ match parent with None => True | Some p => link n = OnList p end
  | SetPathStr topnode _ _ => top_ok (nodes s) topnode
  | SetPrefixStr _ _ _ => True
  | GetPathStr topnode _ buf off size =>
      top_ok (nodes s) topnode /\ 0 <= off /\ (0 < size -> off + size <= zlen buf /\ buf !! Z.to_nat off = Some 0)
  | PathValue topnode _ val size set =>
      top_ok (nodes s) topnode /\ (forall v, val = Some v -> 0 <= size <= zlen v) /\ (set = true -> val <> None)
  | ListNodes a buf off size _ => is_Some (nodes s !! default ROOT a) /\ 0 <= off /\ off + size + 1 <= zlen buf
  | ListPathNodes _ buf off size _ => 0 <= off /\ off + size + 1 <= zlen buf
  end.

Lemma runs_unit {A} (m : ST A) (Q : A -> cfg W -> Prop) s : runs m Q s -> runs (_ ← m; mret tt) (fun _ s' => exists a, Q a s') s.
Proof. intros Hm. apply runs_bind. eapply runs_mono; [exact Hm|]. intros a s' HQ. apply runs_ret. by exists a. Qed.

Lemma list_nodes_runs s a buf off size mode :
  listable s -> is_Some (nodes s !! default ROOT a) -> 0 <= off -> off + size + 1 <= zlen buf ->
  runs (configs_list_nodes a buf off size mode) (fun r s' => only_world s s' /\ frame off (off + size + 1) buf r.2 /\ 0 <= r.1) s.
Proof.
  intros Hs [n E] Hoff Hsize. pose proof (tk_depth _ (proj1 Hs) _ _ E). eapply (list_nodes_in_runs K); [done|done|unfold WALK, MAX_DEPTH in *; lia|cbn; lia|done|done].
Qed.

Lemma exec_keeps s op : listable s -> op_ok s op -> exists s', exec op s = Some (tt, s') /\ listable s'.
Proof.
  intros Hs Hop. assert (runs (exec op) (fun _ s' => listable s') s) as ([] & s' & E & Hs').
  { destruct op; cbn in Hop; cbn [exec].
    - destruct Hop as (n & En & Hl & Hsons). eapply runs_mono; [apply runs_unit; by eapply init_new_node_keeps|]. by intros _ s' (a' & ? & _).
    - destruct Hop as [->|([p Ep] & Hroot & n & En & Hf)].
      { unfold configs_register_node. cbv zeta. rewrite Z.eqb_refl. by apply runs_bind, runs_ret, runs_ret. }
      eapply runs_mono; [apply runs_unit; by eapply register_node_keeps|]. by intros _ s' (a' & ? & _).
    - destruct Hop as (Hroot & n & En & Hf). eapply runs_mono; [apply runs_unit; by eapply register_path_keeps|]. by intros _ s' (a' & ?).
    - destruct Hop as ([n En] & l & El & Hn). eapply runs_mono; [apply runs_unit; by eapply register_configs_runs|]. by intros _ s' (a' & ? & _).
    - destruct Hop as (l & El & Hn). eapply runs_mono; [apply runs_unit; by eapply register_path_configs_keeps|]. by intros _ s' (a' & ?).
    - destruct Hop as (n & En & Hp). eapply runs_mono; [apply runs_unit; by eapply del_endnode_keeps|]. by intros _ s' (a' & ?).
    - eapply runs_mono; [apply runs_unit; by apply set_path_str_runs|]. by intros _ s' (a' & ? & _).
    - eapply runs_mono; [apply runs_unit; by apply set_below_runs|]. by intros _ s' (a' & ? & _).
    - destruct Hop as (H1 & H2 & H3). eapply runs_mono; [apply runs_unit; by apply get_path_str_runs|]. by intros _ s' (a' & [? _] & _).
    - destruct Hop as (H1 & H2 & H3). eapply runs_mono; [apply runs_unit; by apply setget_path_runs|]. by intros _ s' (a' & ? & _).
    - destruct Hop as (H1 & H2 & H3). eapply runs_mono; [apply runs_unit; by apply list_nodes_runs|]. intros _ s' (a' & Hw & _). by eapply listable_world.
    - destruct Hop as (H1 & H2). eapply runs_mono; [apply runs_unit; by apply list_path_runs|]. by intros _ s' (a' & [? _] & _). }
  by exists s'.
Qed.

(** ** Reachable trees *)

(** Every node is zeroed memory; the tables and variables are those of the drivers. *)
Definition boot_ok s : Prop :=
  (forall a n, nodes s !! a = Some n -> n = zero_node) /\ is_Some (nodes s !! ROOT) /\ items_ok K (arrays s) /\ vars_ok K (vars s).

Lemma boot_listable s : boot_ok s -> listable s.
Proof.
  intros (Hz & [r Er] & L3 & L4). split; [|split; [|done]].
  - split.
    + exists zero_node. rewrite <- (Hz _ _ Er) at 1. by repeat split.
    + intros a n x E Hx. rewrite (Hz _ _ E) in Hx. by apply elem_of_nil in Hx.
    + intros x m p E Hl. by rewrite (Hz _ _ E) in Hl.
    + intros a n E. rewrite (Hz _ _ E). constructor.
    + intros a n E. by rewrite (Hz _ _ E).
    + intros a n E. rewrite (Hz _ _ E). cbn. unfold MAX_DEPTH. lia.
    + intros a n E. rewrite (Hz _ _ E). cbn. unfold MAX_PREFIX_NAME. split; [lia|done].
  - intros a n E. rewrite (Hz _ _ E). by left.
Qed.

(** The trees that operations reach from there; the start of the module is such a
    sequence. *)
Inductive reachable : cfg W -> Prop :=
| reach_boot s : boot_ok s -> reachable s
| reach_op s op s' : reachable s -> op_ok s op -> exec op s = Some (tt, s') -> reachable s'.

Lemma reachable_listable s : reachable s -> listable s.
Proof.
  induction 1 as [s Hb|s op s' _ IH Hop E]; [by apply boot_listable|]. destruct (exec_keeps s op IH Hop) as (s2 & E2 & Hs2).
  rewrite E in E2. by injection E2 as ->.
Qed.
End Reach.
