(* ===== verification/ConfigsText.v ===== *)
(** * Numbers in items: what is printed is what is parsed

    For the types that are printed in a form their parser takes: all numbers but
    [CONFIG_TYPE_PU64], which is printed in hexadecimal without the prefix. *)

From stdpp Require Import base numbers list option strings gmap sets.
From S2P Require Import Prelude StateM KText KNum Configs ConfigsTree ConfigsPath ConfigsItems ConfigsInv.

(** A first character that the parsers do not take apart. *)
Lemma skip_blanks_other c t : c <> 32 -> skip_blanks (c :: t) = c :: t.
Proof. intros Hc. cbn. destruct c as [|p|p]; try done. repeat (destruct p as [p|p|]; try done). Qed.
Lemma value_u32_other c t :
  c <> 32 -> c <> 45 -> strstr (c :: t) (str "0x") = false ->
  configs_parser_value_u32 (c :: t) = match kstrtou32 (c :: t) with inr v => (1, v) | inl e => (e, 0) end.
Proof.
  intros H1 H2 H3. unfold configs_parser_value_u32. rewrite skip_blanks_other by done. cbv zeta. rewrite H3.
  destruct c as [|p|p]; try reflexivity. repeat (destruct p as [p|p|]; try reflexivity). done.
Qed.

Lemma parse_u32_digits v : in_u32 v -> configs_parser_value_u32 (fmt_base 10 10 v) = (1, v).
Proof.
  intros Hv. unfold in_u32 in Hv. destruct (fmt_base_head 10 10 v) as (d & t & E & Hd & _); [lia|change (10 ^ Z.of_nat 10) with 10000000000; lia|lia|].
  destruct (hex_digit_bounds d ltac:(lia)) as (_ & _ & Hm & Hb & _).
  pose proof (strstr_0x_fmt 10 10 v ltac:(lia)) as Hx. pose proof (kstrtou32_fmt v Hv) as Hk. rewrite E in *.
  by rewrite value_u32_other, Hk.
Qed.

Lemma parse_u32_fmt_u v : in_u32 v -> configs_parser_value_u32 (fmt_u v) = (1, v).
Proof. intros Hv. unfold fmt_u. rewrite u32_small by exact Hv. by apply parse_u32_digits. Qed.

Lemma parse_u32_fmt_d v : - 2 ^ 31 <= v < 2 ^ 31 -> configs_parser_value_u32 (fmt_d v) = (1, u32 v).
Proof.
  intros Hv. unfold fmt_d. rewrite s32_small by done. cbv zeta. destruct (Z.ltb_spec v 0) as [Hneg|Hpos].
  - unfold configs_parser_value_u32. rewrite skip_blanks_other by done. cbv zeta iota. rewrite scan_d_fmt by lia. f_equal.
    unfold u32, s32. destruct (Z.eq_dec v (- 2 ^ 31)) as [->|Hne]; [done|]. rewrite (Z.mod_small (- v + 2 ^ 31)) by lia. f_equal. lia.
  - rewrite parse_u32_digits by (unfold in_u32; lia). by rewrite u32_small by lia.
Qed.

Lemma parse_u64_0x v : in_u64 v -> configs_parser_value_u64 (str "0x" ++ fmt_llx v) = (1, v).
Proof.
  intros Hv. unfold fmt_llx. rewrite u64_small by exact Hv. change (str "0x" ++ fmt_base 16 16 v) with (48 :: 120 :: fmt_base 16 16 v).
  unfold configs_parser_value_u64. rewrite skip_blanks_other by done. cbv zeta iota.
  change (strstr (48 :: 120 :: fmt_base 16 16 v) (str "0x")) with true. cbv iota.
  change (scan_lit (str "0x") (48 :: 120 :: fmt_base 16 16 v)) with (Some (fmt_base 16 16 v)). cbv iota. by rewrite scan_llx_fmt.
Qed.

(** The text of a value of an item of type [ty]; [None] for the other types. *)
Definition num_text (ty v : Z) : option bytes :=
  if (ty =? CONFIG_TYPE_I32) || (ty =? CONFIG_TYPE_PU32) then (if (- 2 ^ 31 <=? v) && (v <? 2 ^ 31) then Some (fmt_d v) else None)
  else if (ty =? CONFIG_TYPE_U32) || (ty =? CONFIG_TYPE_PI32) then (if (0 <=? v) && (v <? 2 ^ 32) then Some (fmt_u v) else None)
  else if ty =? CONFIG_TYPE_U64 then (if (0 <=? v) && (v <? 2 ^ 64) then Some (str "0x" ++ fmt_llx v) else None)
  else None.

Lemma num_text_nonempty ty v t : num_text ty v = Some t -> t <> [].
Proof.
  unfold num_text. repeat case_goal; try done; intros [= <-].
  - unfold fmt_d. cbv zeta. pose proof (s32_range v). case_goal; b2p; [done|].
    destruct (fmt_base_head 10 10 (s32 v)) as (d & t & -> & _); [lia|change (10 ^ Z.of_nat 10) with 10000000000; lia|lia|done].
  - unfold fmt_u. pose proof (u32_range v).
    destruct (fmt_base_head 10 10 (u32 v)) as (d & t & -> & _); [lia|change (10 ^ Z.of_nat 10) with 10000000000; lia|lia|done].
  - change (str "0x") with [48; 120]. discriminate.
Qed.

(** Numbers are short, and hold no end of string. *)
Lemma num_text_length ty v t : num_text ty v = Some t -> zlen t <= 18 /\ Forall (fun c => c <> 0) t.
Proof.
  assert (forall b n x k, 1 < b <= 16 -> (n <= k)%nat -> (length (fmt_base b n x) <= k)%nat) as Hl.
  { intros b n x k _ Hk. pose proof (fmt_base_length b n x). lia. }
  unfold num_text. repeat case_goal; try done; intros [= <-].
  - unfold fmt_d. cbv zeta. case_goal.
    + cbn [length]. specialize (Hl 10 10%nat (- s32 v) 10%nat). split; [lia|]. constructor; [done|]. by apply fmt_base_nonzero.
    + specialize (Hl 10 10%nat (s32 v) 10%nat). split; [lia|]. by apply fmt_base_nonzero.
  - unfold fmt_u. specialize (Hl 10 10%nat (u32 v) 10%nat). split; [lia|]. by apply fmt_base_nonzero.
  - unfold fmt_llx. specialize (Hl 16 16%nat (u64 v) 16%nat). cbn [length]. split; [lia|].
    constructor; [done|]. constructor; [done|]. by apply fmt_base_nonzero.
Qed.

Lemma set_low_mod n x v : 0 <= v < 256 ^ Z.of_nat n -> (set_low n x v) mod 256 ^ Z.of_nat n = v.
Proof.
  intros Hv. unfold set_low, low. rewrite (Z.mod_small v) by done. assert (0 < 256 ^ Z.of_nat n) by lia.
  rewrite <- Zplus_mod_idemp_l, Zminus_mod, Z.mod_mod, Z.sub_diag by lia. rewrite Z.mod_0_l by lia. by apply Z.mod_small.
Qed.

Section Text.
Context {W : Type} `{CfgFuns W}.
Variable K : gmap Z obj_kind.
Implicit Types (s : cfg W) (N : node_map).

(** The state after [v] was written to the item [x] at [c]. *)
Definition with_value s (c : Z * Z) (x : mconfig) (v : Z) : cfg W :=
  let val d := mk_config (ctype x) (cid x) (item_name x) d (ldata1 x) (csize x) in
  let store d := mk_cfg (nodes s) (alter (fun l => <[Z.to_nat c.2 := val d]> l) c.1 (arrays s)) (vars s) (cworld s) in
  if (ctype x =? CONFIG_TYPE_I32) || (ctype x =? CONFIG_TYPE_U32) then store (set_low 4 (ldata0 x) (u32 v))
  else if ctype x =? CONFIG_TYPE_U64 then store v
  else mk_cfg (nodes s) (arrays s) (alter (fun o => splice o 0 (le_split 4 (u32 v))) (ldata0 x) (vars s)) (cworld s).

Lemma alter_is_insert {A} (M : gmap Z A) k (f : A -> A) y : M !! k = Some y -> <[k := f y]> M = alter f k M.
Proof.
  intros E. apply map_eq. intros i. destruct (decide (k = i)) as [->|Hne].
  - by rewrite lookup_insert, lookup_alter, !decide_True, E by done.
  - by rewrite lookup_insert_ne, lookup_alter_ne.
Qed.

Lemma set_data0_run {B} s c x v (f : unit -> ST B) :
  config_in (arrays s) c x ->
  (set_data0 c v ≫= f) s =
  f tt (mk_cfg (nodes s) (alter (fun l => <[Z.to_nat c.2 := mk_config (ctype x) (cid x) (item_name x) v (ldata1 x) (csize x)]> l) c.1 (arrays s)) (vars s) (cworld s)).
Proof.
  intros (l & El & Hc & Ex). pose proof (lookup_lt_Some _ _ _ Ex) as Hlt. apply run_bind. unfold set_data0.
  erewrite run_bind; [|unfold config_at; rewrite El; cbn; unfold aget; destruct (Z.leb_spec 0 c.2); [|lia]; rewrite Ex; reflexivity].
  unfold put_config. rewrite El. cbn. unfold aset. destruct (Z.leb_spec 0 c.2); [|lia]. destruct (Z.ltb_spec c.2 (zlen l)); [|lia]. cbn.
  by rewrite (alter_is_insert _ c.1 (fun l => <[Z.to_nat c.2 := _]> l) l El).
Qed.

Lemma config_at_run {B} s c x (f : mconfig -> ST B) : config_in (arrays s) c x -> (config_at c ≫= f) s = f x s.
Proof.
  intros (l & El & Hc & Ex). apply run_bind. unfold config_at. rewrite El. cbn. unfold aget. destruct (Z.leb_spec 0 c.2); [|lia]. by rewrite Ex.
Qed.

Lemma write_int_run {B} s x n v m (f : unit -> ST B) :
  vars_ok K (vars s) -> K !! ldata0 x = Some (IntObj m) -> Z.of_nat n <= m ->
  (write_int n x v ≫= f) s = f tt (mk_cfg (nodes s) (arrays s) (alter (fun o => splice o 0 (le_split n v)) (ldata0 x) (vars s)) (cworld s)).
Proof.
  intros HV Ek Hm. destruct (HV _ _ Ek) as (o & Eo & Ho). cbn in Ho. apply run_bind. unfold write_int.
  erewrite run_bind; [|unfold object; rewrite Eo; reflexivity].
  rewrite bput_runs by (rewrite ?le_split_length; lia). rewrite run_of_opt. unfold put_var, modify. cbn.
  by rewrite (alter_is_insert _ (ldata0 x) (fun o => splice o 0 (le_split n v)) o Eo).
Qed.

Ltac types := unfold CONFIG_TYPE_PI32, CONFIG_TYPE_PU32, CONFIG_TYPE_PU64, CONFIG_TYPE_PBOOL, CONFIG_TYPE_PSTR, CONFIG_TYPE_PCSTR,
  CONFIG_TYPE_I32, CONFIG_TYPE_U32, CONFIG_TYPE_U64, CONFIG_TYPE_BOOL in *; cbn [Z.eqb Pos.eqb orb].

Lemma num_text_cases ty v t :
  num_text ty v = Some t ->
  (ty = CONFIG_TYPE_I32 /\ - 2 ^ 31 <= v < 2 ^ 31 /\ t = fmt_d v) \/ (ty = CONFIG_TYPE_PU32 /\ - 2 ^ 31 <= v < 2 ^ 31 /\ t = fmt_d v) \/
  (ty = CONFIG_TYPE_U32 /\ in_u32 v /\ t = fmt_u v) \/ (ty = CONFIG_TYPE_PI32 /\ in_u32 v /\ t = fmt_u v) \/
  (ty = CONFIG_TYPE_U64 /\ in_u64 v /\ t = str "0x" ++ fmt_llx v).
Proof.
  unfold num_text, in_u32, in_u64. intros Ht.
  destruct (Z.eqb_spec ty CONFIG_TYPE_I32) as [->|H1]; [|destruct (Z.eqb_spec ty CONFIG_TYPE_PU32) as [->|H2];
    [|destruct (Z.eqb_spec ty CONFIG_TYPE_U32) as [->|H3]; [|destruct (Z.eqb_spec ty CONFIG_TYPE_PI32) as [->|H4];
    [|destruct (Z.eqb_spec ty CONFIG_TYPE_U64) as [->|H5]; [|done]]]]];
    cbn [orb] in Ht; (case_hyp Ht; [|done]); b2p; injection Ht as <-; tauto.
Qed.

(** Setting an item to the text of a value. *)
Lemma set_item_run {B} s N c x v t (f : Z -> ST B) :
  vars_ok K (vars s) -> config_in (arrays s) c x -> item_ok K x -> num_text (ctype x) v = Some t ->
  (configs_str2config c t ≫= f) (with_nodes s N) = f 1 (with_nodes (with_value s c x v) N).
Proof.
  intros HV Hc (_ & Hp & _ & _) Ht. pose proof (num_text_nonempty _ _ _ Ht) as Hne.
  unfold configs_str2config. rewrite bool_decide_eq_false_2 by done. rewrite bind_assoc, (config_at_run _ _ x) by done. unfold with_value.
  apply num_text_cases in Ht as [(E & Hv & ->)|[(E & Hv & ->)|[(E & Hv & ->)|[(E & Hv & ->)|(E & Hv & ->)]]]]; rewrite E.
  - types. rewrite parse_u32_fmt_d by done. cbn [Z.ltb Z.compare when]. rewrite bind_assoc, (set_data0_run _ c x), run_ret by done. by rewrite E.
  - types. rewrite parse_u32_fmt_d by done. cbn [Z.ltb Z.compare when]. destruct Hp as (m & Em & Hm); [by right|].
    by rewrite bind_assoc, (write_int_run _ x 4 _ m), run_ret.
  - types. rewrite parse_u32_fmt_u by done. cbn [Z.ltb Z.compare when]. rewrite u32_small by done. rewrite bind_assoc, (set_data0_run _ c x), run_ret by done. by rewrite E.
  - types. rewrite parse_u32_fmt_u by done. cbn [Z.ltb Z.compare when]. rewrite u32_small by done. destruct Hp as (m & Em & Hm); [by left|].
    by rewrite bind_assoc, (write_int_run _ x 4 _ m), run_ret.
  - types. rewrite parse_u64_0x by done. cbn [Z.ltb Z.compare when]. rewrite bind_assoc, (set_data0_run _ c x), run_ret by done. by rewrite E.
Qed.

(** The item after that. *)
Definition new_value (x : mconfig) (v : Z) : mconfig :=
  let d := if (ctype x =? CONFIG_TYPE_I32) || (ctype x =? CONFIG_TYPE_U32) then set_low 4 (ldata0 x) (u32 v)
           else if ctype x =? CONFIG_TYPE_U64 then v else ldata0 x in
  mk_config (ctype x) (cid x) (item_name x) d (ldata1 x) (csize x).

Lemma with_value_config s c x v t : config_in (arrays s) c x -> num_text (ctype x) v = Some t -> config_in (arrays (with_value s c x v)) c (new_value x v).
Proof.
  intros (l & El & Hc & Ex) Ht. pose proof (lookup_lt_Some _ _ _ Ex). unfold with_value, new_value.
  repeat case_goal; cbn.
  - exists (<[Z.to_nat c.2 := mk_config (ctype x) (cid x) (item_name x) (set_low 4 (ldata0 x) (u32 v)) (ldata1 x) (csize x)]> l).
    rewrite lookup_alter, decide_True, El by done. split; [done|]. split; [done|]. by rewrite list_lookup_insert_eq.
  - exists (<[Z.to_nat c.2 := mk_config (ctype x) (cid x) (item_name x) v (ldata1 x) (csize x)]> l).
    rewrite lookup_alter, decide_True, El by done. split; [done|]. split; [done|]. by rewrite list_lookup_insert_eq.
  - exists l. split; [done|]. split; [done|]. rewrite Ex. by destruct x.
Qed.

(** Reading it gives the text back. *)
Lemma splice_head o b : zlen b <= zlen o -> take (length b) (splice o 0 b) = b.
Proof. intros Hb. unfold splice. rewrite take_0, app_nil_l. by rewrite take_app_length. Qed.

Lemma read_back s N A x' m bs :
  vars_ok K (vars s) -> K !! ldata0 x' = Some (IntObj m) -> zlen bs <= m ->
  let s' := mk_cfg N A (alter (fun o => splice o 0 bs) (ldata0 x') (vars s)) (cworld s) in
  read_int (zlen bs) x' s' = Some (le_join bs, s').
Proof.
  intros HV Em Hm. destruct (HV _ _ Em) as (o & Eo & Ho). cbn in Ho. cbv zeta. unfold read_int.
  erewrite run_bind; [|unfold object; cbn [vars]; rewrite lookup_alter, decide_True, Eo by done; reflexivity].
  unfold bget. rewrite splice_length by lia. destruct (Z.leb_spec 0 (zlen bs)); [|lia]. destruct (Z.leb_spec (0 + zlen bs) (zlen o)); [|lia].
  cbn [Z.leb Z.compare andb]. change (Z.to_nat 0) with 0%nat. by rewrite drop_0, Nat2Z.id, splice_head by lia.
Qed.

Lemma low32_value d v : u32 (set_low 4 d (u32 v)) = u32 v /\ s32 (set_low 4 d (u32 v)) = s32 v.
Proof.
  pose proof (set_low_mod 4 d (u32 v)) as Hm. change (256 ^ Z.of_nat 4) with (2 ^ 32) in Hm. specialize (Hm (u32_range v)). split; [exact Hm|].
  unfold s32. rewrite <- (Zplus_mod_idemp_l (set_low 4 d (u32 v))), Hm. unfold u32. by rewrite Zplus_mod_idemp_l.
Qed.

Lemma item_text_run s N c x v t :
  vars_ok K (vars s) -> item_ok K x -> num_text (ctype x) v = Some t ->
  exists m, config_text (new_value x v) = Some m /\ m (with_nodes (with_value s c x v) N) = Some (t, with_nodes (with_value s c x v) N).
Proof.
  intros HV (_ & Hp & _ & _) Ht. pose proof (low32_value (ldata0 x) v) as [Hlow1 Hlow2].
  assert (forall m, K !! ldata0 x = Some (IntObj m) -> 4 <= m -> (ctype x = CONFIG_TYPE_PU32 \/ ctype x = CONFIG_TYPE_PI32) ->
    read_int 4 (new_value x v) (with_nodes (with_value s c x v) N) = Some (u32 v, with_nodes (with_value s c x v) N)) as Hread.
  { intros m Em Hm Hty. pose proof (read_back s N (arrays s) x m (le_split 4 (u32 v)) HV Em) as Hrb. rewrite le_split_length in Hrb.
    specialize (Hrb Hm). rewrite le_join_split in Hrb by (change (256 ^ Z.of_nat 4) with (2 ^ 32); apply u32_range).
    unfold with_value, new_value. destruct Hty as [E|E]; rewrite E; types; exact Hrb. }
  unfold config_text. change (ctype (new_value x v)) with (ctype x).
  apply num_text_cases in Ht as [(E & Hv & ->)|[(E & Hv & ->)|[(E & Hv & ->)|[(E & Hv & ->)|(E & Hv & ->)]]]].
  - rewrite !E. types. eexists. split; [done|]. unfold mret, ST_ret, new_value. cbn [ldata0]. rewrite E. types. unfold fmt_d. by rewrite Hlow2.
  - rewrite !E. types. eexists. split; [done|]. destruct Hp as (m & Em & Hm); [by right|]. rewrite (run_bind _ _ _ _ _ (Hread m Em Hm (or_introl E))).
    unfold mret, ST_ret, fmt_d. repeat f_equal. unfold s32, u32. by rewrite Zplus_mod_idemp_l.
  - rewrite !E. types. eexists. split; [done|]. unfold mret, ST_ret, new_value. cbn [ldata0]. rewrite E. types. unfold fmt_u. by rewrite Hlow1.
  - rewrite !E. types. eexists. split; [done|]. destruct Hp as (m & Em & Hm); [by left|]. rewrite (run_bind _ _ _ _ _ (Hread m Em Hm (or_intror E))).
    unfold mret, ST_ret, fmt_u. by rewrite (u32_small (u32 v)) by apply u32_range.
  - rewrite !E. types. eexists. split; [done|]. unfold mret, ST_ret, new_value. cbn [ldata0]. by rewrite E.
Qed.

Lemma get_item_run {B} s N c x v t buf size (f : Z * bytes -> ST B) :
  vars_ok K (vars s) -> config_in (arrays s) c x -> item_ok K x -> num_text (ctype x) v = Some t -> zlen t < size <= zlen buf ->
  (configs_config2str c buf 0 size ≫= f) (with_nodes (with_value s c x v) N) =
  f (zlen t, splice buf 0 (t ++ [0])) (with_nodes (with_value s c x v) N).
Proof.
  intros HV Hc Hx Ht Hsize. pose proof (with_value_config s c x v t Hc Ht) as Hc'. pose proof (num_text_nonempty _ _ _ Ht) as Hne.
  destruct (item_text_run s N c x v t HV Hx Ht) as (m & Em & Hm).
  unfold configs_config2str. destruct (Z.ltb_spec size 1); [lia|]. rewrite bind_assoc, (config_at_run _ _ (new_value x v)), Em by done.
  rewrite bind_assoc. rewrite bind_assoc, (run_bind _ _ _ _ _ Hm). unfold snprintf. destruct (Z.ltb_spec size 0); [lia|]. destruct (Z.eqb_spec size 0); [lia|].
  rewrite take_ge by lia. rewrite bput_runs by (rewrite ?length_app; cbn [length]; lia). cbn [mbind option_bind]. rewrite run_of_opt.
  assert (0 < zlen t) as Hpos by (destruct t; [done|cbn [length]; lia]).
  destruct (Z.leb_spec (zlen t) 0); [lia|]. destruct (Z.leb_spec size (zlen t)); [lia|]. by rewrite run_ret.
Qed.
End Text.
