(* ===== verification/ConfigsSpec.v ===== *)
(** * Properties of the configuration tree

    Reachable trees are well formed and every operation on them is defined;
    listings stay in their buffers but for one byte; what is set through a path or
    a device is read back; paths give back the references they take, but for the
    ones they take from the root and from a node given with a bare item name. *)

From stdpp Require Import base numbers list option strings gmap sets.
From S2P Require Import Prelude StateM KText KNum Configs ConfigsModule ConfigsTree ConfigsPath ConfigsItems ConfigsInv ConfigsReach ConfigsText.

Section Spec.
Context {W : Type} `{CfgFunsOk W}.
Variable K : gmap Z obj_kind.
Implicit Types (s : cfg W) (N : node_map).
Abbreviation listable := (listable K).

(** ** Where a path leads depends on the shape of the tree alone *)

Lemma descend_shape N N' a names acc : same_shape N N' -> descend N' a names acc = descend N a names acc.
Proof.
  intros HS. revert a acc. induction names as [|nm names IH]; intros a acc; [done|]. cbn [descend]. pose proof (HS a) as Ha.
  destruct (N !! a) as [n|], (N' !! a) as [n'|]; try done. apply (inj Some) in Ha. unref_eqs Ha. rewrite Hf_sons, (find_active_shape N N') by done.
  by destruct (find_active N (son_node_list n) nm).
Qed.

Lemma item_pos_names l l' i nm : item_name <$> l = item_name <$> l' -> item_pos l i nm = item_pos l' i nm.
Proof.
  revert l' i. induction l as [|x l IH]; intros [|x' l'] i E; try done. cbn in E. injection E as Ex El. cbn. rewrite Ex. case_goal; [done|by apply IH].
Qed.
Lemma item_of_value s c x v n nm : config_in (arrays s) c x -> item_of (with_value s c x v) n nm = item_of s n nm.
Proof.
  intros (l & El & Hc & Ex). unfold with_value.
  assert (forall d, item_of (mk_cfg (nodes s) (alter (fun l => <[Z.to_nat c.2 := mk_config (ctype x) (cid x) (item_name x) d (ldata1 x) (csize x)]> l) c.1 (arrays s)) (vars s) (cworld s)) n nm
    = item_of s n nm) as Hv.
  { intros d. unfold item_of, items_of. cbn. destruct (configs n) as [arr|]; [|done]. cbn. destruct (decide (c.1 = arr)) as [<-|Hne].
    - rewrite lookup_alter, decide_True, El by done. cbn. erewrite item_pos_names; [done|]. rewrite !fmap_take. f_equal. rewrite list_fmap_insert. cbn.
      apply list_insert_id. by rewrite list_lookup_fmap, Ex.
    - by rewrite lookup_alter_ne. }
  repeat case_goal; [apply Hv|apply Hv|done].
Qed.

Lemma item_by_path_stable s s' N N' top names item set :
  same_shape N N' -> (forall n nm, item_of s' n nm = item_of s n nm) ->
  item_by_path s' N' top names item set = item_by_path s N top names item set.
Proof.
  intros HS Hi. unfold item_by_path. rewrite (descend_shape N N') by done. destruct (descend N top names []) as [v [b|]]; [|done]. cbn.
  pose proof (HS b) as Hb. destruct (N !! b) as [n|], (N' !! b) as [n'|]; try done. apply (inj Some) in Hb. unref_eqs Hb.
  unfold allowed. rewrite Hf_rw. destruct (has (rw_flags n) _); cbn [negb]; [|done]. rewrite Hi. unfold item_of, items_of. by rewrite Hf_cfg, Hf_cnum.
Qed.

Lemma listable_held s : listable s -> tree_ok (nodes s) /\ forall a n, nodes s !! a = Some n -> node_items_ok s n.
Proof. intros (H1 & H2 & _). by split. Qed.

Lemma path_config_at {B} s topnode up path names item set (f : Z + (Z * Z) * Z -> ST B) :
  listable s -> counts_ok (nodes s) -> counts_fit (nodes s) -> below (nodes s) ROOT up (default ROOT topnode) ->
  segments (S (length path)) path = Some (names, item) ->
  (configs_get_node_path_config topnode (Some path) set ≫= f) s =
  match item_by_path s (nodes s) (default ROOT topnode) names item set with
  | inl err => f (inl err) (with_nodes s (nodes_after (nodes s) topnode up names false))
  | inr (c, b) => f (inr (c, b)) (with_nodes s (bump 1 (b :: (descend (nodes s) (default ROOT topnode) names []).1) (nodes s)))
  end.
Proof.
  intros Hs HC HF Hup Hseg. destruct (listable_held _ Hs) as [HN Hitems].
  pose proof (path_config_run s (nodes s) topnode up path names item HN HC HF Hup Hseg Hitems set f) as Hrun. by rewrite with_nodes_eta in Hrun.
Qed.

Lemma path_config_item s topnode up path names item set c b :
  listable s -> counts_ok (nodes s) -> counts_fit (nodes s) -> below (nodes s) ROOT up (default ROOT topnode) ->
  segments (S (length path)) path = Some (names, item) ->
  item_by_path s (nodes s) (default ROOT topnode) names item set = inr (c, b) -> exists x, config_in (arrays s) c x /\ item_ok K x.
Proof.
  intros Hs HC HF Hup Hseg Hi. pose proof Hs as (_ & _ & L3 & _).
  destruct (path_config_runs K s topnode (Some path) set Hs) as (r & s1 & E & Hc & Hr); [by exists up|].
  pose proof (path_config_at s topnode up path names item set mret Hs HC HF Hup Hseg) as Hrun.
  rewrite bind_ret_r, Hi, E in Hrun. injection Hrun as -> _. destruct Hr as ((x & Hx) & _). exists x. split; [done|].
  destruct Hx as (l & El & _ & Ex). by eapply Forall_lookup_1; [eapply L3|].
Qed.

(** ** Set and get *)

Lemma set_path_str_run s topnode up path names item c b x v t :
  listable s -> counts_ok (nodes s) -> counts_fit (nodes s) -> below (nodes s) ROOT up (default ROOT topnode) ->
  segments (S (length path)) path = Some (names, item) ->
  item_by_path s (nodes s) (default ROOT topnode) names item true = inr (c, b) -> config_in (arrays s) c x -> num_text (ctype x) v = Some t ->
  configs_set_node_path_str topnode path (Some t) s =
    Some (0, with_nodes (with_value s c x v) (nodes_after (nodes s) topnode up names true)).
Proof.
  intros Hs HC HF Hup Hseg Hi Hc Ht. destruct (listable_held _ Hs) as [HN Hitems]. pose proof Hs as (_ & _ & L3 & L4).
  assert (item_ok K x) as Hx. { destruct Hc as (l & El & _ & Ex). by eapply Forall_lookup_1; [eapply L3|]. }
  unfold configs_set_node_path_str. rewrite (bool_decide_eq_false_2 (path = [])) by (intros ->; done).
  rewrite (bool_decide_eq_false_2 (t = [])) by (by eapply num_text_nonempty). cbn [orb].
  rewrite (path_config_at s topnode up path names item true), Hi by done.
  rewrite (set_item_run K s _ c x v t) by done.
  by rewrite (release_run s (nodes s) topnode up path names item HN HF Hup Hseg (with_value s c x v) true c b).
Qed.

Lemma get_path_str_run s c x v t N path names item b buf size :
  tree_ok N -> counts_ok N -> counts_fit N -> (forall a n, N !! a = Some n -> node_items_ok s n) -> vars_ok K (vars s) ->
  segments (S (length path)) path = Some (names, item) ->
  item_by_path s N ROOT names item false = inr (c, b) -> config_in (arrays s) c x -> item_ok K x -> num_text (ctype x) v = Some t ->
  zlen t < size <= zlen buf ->
  configs_get_node_path_str None path buf 0 size (with_nodes (with_value s c x v) N) =
    Some (zlen t, splice buf 0 (t ++ [0]), with_nodes (with_value s c x v) (bump (-1) [ROOT] N)).
Proof.
  intros HN HC HF Hitems HV Hseg Hi Hc Hx Ht Hsize. set (s' := with_value s c x v).
  assert (item_by_path s' N ROOT names item false = inr (c, b)) as Hi'.
  { rewrite <- Hi. apply item_by_path_stable; [done|]. intros n nm. by apply item_of_value. }
  assert (forall a n, N !! a = Some n -> node_items_ok s' n) as Hitems'.
  { intros a n E. destruct (Hitems a n E) as [?|(arr & l & E1 & E2 & E3)]; [by left|]. right. unfold s', with_value.
    assert (forall y, exists l', alter (fun l => <[Z.to_nat c.2 := y]> l) c.1 (arrays s) !! arr = Some l' /\ length l' = length l) as Hl.
    { intros y. destruct (decide (c.1 = arr)) as [<-|Hne]; [rewrite lookup_alter, decide_True, E2 by done|rewrite lookup_alter_ne by done].
      - eexists. split; [done|]. by rewrite length_insert.
      - by exists l. }
    repeat case_goal; cbn [arrays]; [| |by exists arr, l];
      match goal with |- context [<[_ := ?y]>] => destruct (Hl y) as (l' & El' & Hlen) end; exists arr, l'; rewrite Hlen; auto. }
  unfold configs_get_node_path_str. rewrite bool_decide_eq_false_2 by (intros ->; done).
  rewrite (path_config_run s' N None [] path names item HN HC HF (below_top N ROOT) Hseg Hitems' false). cbn [default]. rewrite Hi'.
  rewrite (get_item_run K s _ c x v t buf size) by done.
  rewrite (release_run s' N None [] path names item HN HF (below_top N ROOT) Hseg s' false c b) by done.
  unfold nodes_after. by rewrite (bool_decide_eq_true_2 (@None Z = None)), orb_true_r by done.
Qed.

Lemma counts_ok_root N : counts_ok N -> counts_ok (bump (-1) [ROOT] N).
Proof. intros HC a n E Ha. rewrite bump_out in E by (rewrite list_elem_of_singleton; done). by eapply HC. Qed.

(** A number set through a path from the root is read back by the same path. *)
Lemma set_then_get s path names item c b x v t buf size :
  listable s -> counts_ok (nodes s) -> counts_fit (nodes s) -> segments (S (length path)) path = Some (names, item) ->
  item_by_path s (nodes s) ROOT names item true = inr (c, b) -> item_by_path s (nodes s) ROOT names item false = inr (c, b) ->
  config_in (arrays s) c x -> num_text (ctype x) v = Some t -> zlen t < size <= zlen buf ->
  exists s1 s2, configs_set_node_path_str None path (Some t) s = Some (0, s1) /\
    configs_get_node_path_str None path buf 0 size s1 = Some (zlen t, splice buf 0 (t ++ [0]), s2).
Proof.
  intros Hs HC HF Hseg Hw Hr Hc Ht Hsize. destruct (listable_held _ Hs) as [HN Hitems]. pose proof Hs as (_ & _ & L3 & L4).
  assert (item_ok K x) as Hx. { destruct Hc as (l & El & _ & Ex). by eapply Forall_lookup_1; [eapply L3|]. }
  eexists. eexists. split; [by eapply (set_path_str_run s None [] path names item c b x v t); try done; apply below_top|].
  unfold nodes_after. rewrite (bool_decide_eq_true_2 (@None Z = None)), orb_true_r by done.
  eapply (get_path_str_run s c x v t _ path names item b); try done.
  - by apply bump_ok.
  - by apply counts_ok_root.
  - by apply bump_fit.
  - intros a n E. destruct (shape_at _ _ a n (same_shape_sym _ _ (bump_shape (-1) [ROOT] (nodes s))) E) as (m & Em & U). unref_eqs U.
    destruct (Hitems a m Em) as [?|(arr & l & ? & ? & ?)]; [left; lia|]. right. exists arr, l. rewrite <- Hf_cfg, <- Hf_cnum. done.
  - rewrite <- Hr. apply item_by_path_stable; [apply bump_shape|done].
Qed.

(** ** Theorems *)

(** C20. Whatever drivers and users do with the configuration tree, from its zeroed
    memory on, it stays well formed: sons and parents agree, names fit their
    arrays, depth and permissions follow the parents; and every operation whose
    caller respects its contract returns, whatever text it is given as a path. *)
Theorem configs_reachable_ok s :
  reachable K s -> tree_ok (nodes s) /\ forall op, op_ok s op -> exists s', exec op s = Some (tt, s') /\ reachable K s'.
Proof.
  intros Hr. pose proof (reachable_listable K s Hr) as Hs. split; [apply Hs|]. intros op Hop.
  destruct (exec_keeps K s op Hs Hop) as (s' & E & _). exists s'. split; [done|]. by eapply reach_op.
Qed.

(** C28. A listing returns, and writes nothing outside its buffer but possibly the one
    byte behind it. *)
Theorem configs_listing_bounded s a buf off size mode :
  reachable K s -> is_Some (nodes s !! default ROOT a) -> 0 <= off -> off + size + 1 <= zlen buf ->
  exists ret buf' s', configs_list_nodes a buf off size mode s = Some (ret, buf', s') /\ 0 <= ret /\ length buf' = length buf /\
    (forall i : nat, Z.of_nat i < off \/ off + size + 1 <= Z.of_nat i -> buf' !! i = buf !! i) /\ nodes s' = nodes s.
Proof.
  intros Hr Ha Hoff Hsize. pose proof (reachable_listable K s Hr) as Hs.
  destruct (list_nodes_runs K s a buf off size mode Hs Ha Hoff Hsize) as ([ret buf'] & s' & E & (Hw & _) & (Hl & Hf) & Hret).
  exists ret, buf', s'. done.
Qed.

(** The tree after a call that sets an item. *)
Lemma path_calls_nodes s topnode up path names item val r s' :
  listable s -> counts_ok (nodes s) -> counts_fit (nodes s) -> below (nodes s) ROOT up (default ROOT topnode) ->
  segments (S (length path)) path = Some (names, item) -> val <> [] ->
  configs_set_node_path_str topnode path (Some val) s = Some (r, s') ->
  nodes s' = nodes_after (nodes s) topnode up names
    (match item_by_path s (nodes s) (default ROOT topnode) names item true with inr _ => true | inl _ => false end).
Proof.
  intros Hs HC HF Hup Hseg Hval Hrun. destruct (listable_held _ Hs) as [HN Hitems].
  assert (path <> []) as Hpath by (intros ->; done). set (top := default ROOT topnode) in *.
  unfold configs_set_node_path_str in Hrun. rewrite !bool_decide_eq_false_2 in Hrun by done. cbn [orb] in Hrun.
  rewrite (path_config_at s topnode up path names item true) in Hrun by done. fold top in Hrun.
  destruct (item_by_path s (nodes s) top names item true) as [err|[c b]] eqn:Hi; [by injection Hrun as _ <-|]. set (N1 := bump 1 _ _) in Hrun.
  destruct (path_config_item s topnode up path names item true c b Hs HC HF Hup Hseg Hi) as (x & Hx & _).
  destruct (str2config_runs K (with_nodes s N1) c x val) as (r1 & s1 & E1 & Hn1 & _); [by apply (listable_counted K s); [apply counted_bump|]|done|].
  rewrite (run_bind _ _ _ _ _ E1) in Hrun. rewrite <- (with_nodes_eta s1), Hn1 in Hrun. cbn [nodes with_nodes] in Hrun.
  rewrite (release_run s (nodes s) topnode up path names item HN HF Hup Hseg s1 true c b) in Hrun by done. by injection Hrun as _ <-.
Qed.

(** C26. A call that sets or reads an item by a path gives back the references it
    takes, whether it succeeds or not; but a path from the root that leads to an
    item takes one from the root, and a path without nodes takes one from the node
    it starts at and one from every node above it. *)
Theorem path_calls_balanced s topnode up path names item val buf off size :
  listable s -> counts_ok (nodes s) -> counts_fit (nodes s) -> below (nodes s) ROOT up (default ROOT topnode) ->
  segments (S (length path)) path = Some (names, item) -> val <> [] ->
  0 <= off -> (0 < size -> off + size <= zlen buf /\ buf !! Z.to_nat off = Some 0) ->
  let leads_to set := match item_by_path s (nodes s) (default ROOT topnode) names item set with inr _ => true | inl _ => false end in
  (exists r s', configs_set_node_path_str topnode path (Some val) s = Some (r, s') /\ nodes s' = nodes_after (nodes s) topnode up names (leads_to true)) /\
  (exists r b s', configs_get_node_path_str topnode path buf off size s = Some (r, b, s') /\ nodes s' = nodes_after (nodes s) topnode up names (leads_to false)).
Proof.
  intros Hs HC HF Hup Hseg Hval Hoff Hsize. cbv zeta. destruct (listable_held _ Hs) as [HN Hitems]. pose proof Hs as (_ & _ & L3 & L4).
  assert (path <> []) as Hpath by (intros ->; done).
  set (top := default ROOT topnode) in *. split.
  - destruct (set_path_str_runs K s topnode path (Some val) Hs) as (r & s' & E & _); [by exists up|]. exists r, s'. split; [done|].
    by apply (path_calls_nodes s topnode up path names item val r s').
  - unfold configs_get_node_path_str. rewrite bool_decide_eq_false_2 by done.
    rewrite (path_config_at s topnode up path names item false) by done. fold top.
    destruct (item_by_path s (nodes s) top names item false) as [err|[c b]] eqn:Hi; [by eexists _, _, _|].
    destruct (path_config_item s topnode up path names item false c b Hs HC HF Hup Hseg Hi) as (x & Hx & Hix). set (N1 := bump 1 _ _).
    destruct (config2str_runs K (with_nodes s N1) c x buf off size L4 Hx Hix Hoff Hsize) as ([r b'] & s1 & E1 & (Hn1 & _) & _).
    rewrite (run_bind _ _ _ _ _ E1). rewrite <- (with_nodes_eta s1), Hn1. cbn [nodes with_nodes].
    rewrite (release_run s (nodes s) topnode up path names item HN HF Hup Hseg s1 false c b) by done. by eexists _, _, _.
Qed.

(** C29. Setting an item of a node that is given by its own path from the root
    ([configs_set_prefix_path_str], with an item name that has no dots and a value)
    gives back more than it takes, whether the item is found or not: the call takes one
    reference from the node and from each node above it below the root, and two from
    the root.  This is while the counters are in range ([counts_ok], [counts_fit], and
    below 2^31-3 on the path). *)
Theorem prefix_set_drains s pre pnames pitem path item v T val :
  listable s -> counts_ok (nodes s) -> counts_fit (nodes s) ->
  segments (S (length pre)) pre = Some (pnames, pitem) -> descend (nodes s) ROOT (pnames ++ [pitem]) [] = (v, Some T) ->
  (forall r, nodes s !! ROOT = Some r -> pnames = [] -> name r <> pitem) ->
  (forall a n, a ∈ v -> nodes s !! a = Some n -> ref_cnt n < 2 ^ 31 - 3) ->
  segments (S (length path)) path = Some ([], item) -> val <> [] ->
  exists r s', configs_set_prefix_path_str pre path (Some val) s = Some (r, s') /\
    nodes s' = bump (-1) (v ++ [ROOT]) (bump (-1) [ROOT] (nodes s)).
Proof.
  intros Hs HC HF Hpre Hd Hroot Hfew Hseg Hval. pose proof Hs as (HN & _). destruct (tk_root _ HN) as (r & Er & _).
  assert (pre <> []) as Hne by (intros ->; done). unfold configs_set_prefix_path_str, set_below. destruct pre as [|c pre]; [done|].
  pose proof (end_node_run (S (length (c :: pre))) None r ROOT [] (c :: pre) pnames pitem (nodes s) s HN HC Er (below_top _ _) Hpre) as Hend.
  cbn [default bump foldr] in Hend. rewrite with_nodes_eta, Hd in Hend. cbn [fst snd] in Hend. specialize (Hend (fun _ _ => Hroot r Er)).
  unfold configs_get_node_path_end_node. cbv zeta. cbn [default]. rewrite (run_bind _ _ _ _ _ Hend). set (N1 := bump 1 v (nodes s)).
  pose proof (descend_below (nodes s) ROOT ROOT (pnames ++ [pitem]) [] (below_top _ _)) as Hb. rewrite Hd in Hb.
  set (s1 := with_nodes s N1). assert (listable s1) as Hs1 by (apply (listable_counted K s); [apply counted_bump|done]).
  assert (below (nodes s1) ROOT v T) as Hb1 by (by eapply below_shape; [apply bump_shape|]).
  assert (counts_ok (nodes s1)) as HC1.
  { intros a n E Ha. cbn in E. unfold N1 in E. destruct (decide (a ∈ v)) as [Hin|Hnin]; [|eapply HC; [|done]; by rewrite <- (bump_out 1 v)].
    rewrite bump_in in E by (try done; by eapply below_nodup). destruct (nodes s !! a) as [m|] eqn:Em; [|done]. injection E as <-.
    specialize (Hfew a m Hin Em). specialize (HC a m Em Ha). cbn. rewrite s32_small; lia. }
  assert (counts_fit (nodes s1)) as HF1 by (by apply bump_fit).
  assert (path <> []) as Hpath by (intros ->; done).
  destruct (set_path_str_runs K s1 (Some T) path (Some val) Hs1) as (ret & s2 & E2 & Hs2 & HS2); [by exists v|].
  pose proof (path_calls_nodes s1 (Some T) v path [] item val ret s2 Hs1 HC1 HF1 Hb1 Hseg Hval E2) as Hn2.
  cbn [mbind] in *. rewrite (run_bind _ _ _ _ _ E2).
  assert (tree_ok (nodes s2)) as HN2 by apply Hs2.
  pose proof (put_node_all_run v T None (nodes s2) s2 (fun _ => mret ret) HN2) as Hput.
  rewrite with_nodes_eta in Hput. rewrite Hput by (try (by left); by eapply below_shape).
  eexists _, _. split; [done|]. cbn. rewrite Hn2. unfold nodes_after. cbn [bool_decide]. 
  rewrite bool_decide_eq_true_2 by done. cbn [orb]. unfold s1, N1. cbn [nodes with_nodes].
  rewrite (bump_app (-1) v [ROOT] (bump 1 v (nodes s))), (bump_comm (-1) [ROOT] 1 v), bump_back by (by apply bump_fit). done.
Qed.

(** ** The devices *)

Lemma on_tree_run {A B} (m : ST (S := cfg W) A) (f : A -> ST B) (s : mcfg W) a t :
  m (tree s) = Some (a, t) -> (on_tree m ≫= f) s = f a (mk_mcfg t (opened_cnt s)).
Proof. intros E. apply run_bind. unfold on_tree. by rewrite E. Qed.

Lemma c_str_app p r : Forall (fun c => c <> 0) p -> c_str (p ++ 0 :: r) = p.
Proof. induction 1 as [|c p Hc Hp IH]; [done|]. cbn. destruct (Z.eqb_spec c 0); [done|]. by rewrite IH. Qed.
Lemma starts_with_app lit p r : starts_with lit p = true -> starts_with lit (p ++ r) = true.
Proof.
  revert p. induction lit as [|a lit IH]; intros [|b p]; cbn; try done. intros [? ?]%andb_true_iff. apply andb_true_iff. auto.
Qed.

(** The last byte of a terminated array is cleared without loss. *)
Lemma clear_last p r n : zlen (p ++ 0 :: r) = n -> exists r', aset (p ++ 0 :: r) (n - 1) 0 = Some (p ++ 0 :: r').
Proof.
  intros Hn. rewrite length_app in Hn. cbn [length] in Hn. unfold aset. destruct (Z.leb_spec 0 (n - 1)); [|lia].
  destruct (Z.ltb_spec (n - 1) (zlen (p ++ 0 :: r))) as [_|Hge]; [|rewrite length_app in Hge; cbn [length] in Hge; lia]. cbn [andb].
  rewrite insert_app_r_alt by lia. destruct (Z.to_nat (n - 1) - length p)%nat as [|k] eqn:Ek.
  - by exists r.
  - by exists (<[k := 0]> r).
Qed.

Lemma ioctl_set_run (s : mcfg W) f m io rest1 rest2 path t t1 :
  aget mediaconfig_nodes (fnode f) = Some m -> starts_with (dev_name m) path = true ->
  Forall (fun ch => ch <> 0) path -> Forall (fun ch => ch <> 0) t -> cmd_path io = path ++ 0 :: rest1 -> val io = t ++ 0 :: rest2 ->
  configs_set_node_path_str None path (Some t) (tree s) = Some (0, t1) ->
  ioctl_set f io true s = Some (0, mk_mcfg t1 (opened_cnt s)).
Proof.
  intros Hm Hdev Hpath Hnz Hcmd Hval E1. unfold ioctl_set. cbn [negb]. rewrite Hm, run_of_opt.
  rewrite Hcmd, starts_with_app by done. rewrite Hval. unfold cstring_at. change (0 <? 0) with false. cbv iota. change (Z.to_nat 0) with 0%nat. rewrite !drop_0.
  rewrite <- app_assoc, <- app_comm_cons, until_zero_app, until_zero_app, run_of_opt, run_of_opt by done.
  unfold configs_set_node_nodepath_str, on_tree. by rewrite E1.
Qed.

Lemma ioctl_get_run (s : mcfg W) f m io rest1 path t stack t2 :
  aget mediaconfig_nodes (fnode f) = Some m -> starts_with (dev_name m) path = true ->
  Forall (fun ch => ch <> 0) path -> cmd_path io = path ++ 0 :: rest1 -> zlen (cmd_path io) = CMD_PATH ->
  zlen stack = MAX_VALUE_NAME -> 0 < zlen t < MAX_VALUE_NAME ->
  configs_get_node_path_str None path (<[0%nat := 0]> stack) 0 MAX_VALUE_NAME (tree s) = Some (zlen t, splice (<[0%nat := 0]> stack) 0 (t ++ [0]), t2) ->
  ioctl_get f io stack true true s = Some ((0, mk_out (Some (zlen t)) (Some (t ++ [0]))), mk_mcfg t2 (opened_cnt s)).
Proof.
  intros Hm Hdev Hpath Hcmd Hlen Hstack Ht E2. destruct (clear_last path rest1 CMD_PATH) as (r' & Er); [by rewrite <- Hcmd|].
  unfold ioctl_get. cbv zeta. cbn [negb]. rewrite Hcmd, Er, run_of_opt.
  assert (aset stack 0 0 = Some (<[0%nat := 0]> stack)) as -> by (unfold aset; rewrite Hstack; done).
  rewrite run_of_opt, Hm, run_of_opt, starts_with_app, c_str_app by done.
  unfold configs_get_node_nodepath_str. rewrite (on_tree_run _ _ s _ _ E2).
  destruct (Z.ltb_spec 0 (zlen t)); [|lia]. destruct (Z.leb_spec (zlen t) (MAX_VALUE_NAME - 1)); [|lia]. cbn [andb].
  assert (zlen (<[0%nat := 0]> stack) = MAX_VALUE_NAME) as Hst by (by rewrite length_insert).
  assert (length (t ++ [0]) = S (length t)) as Hl by (rewrite length_app; cbn [length]; lia).
  assert (bget (splice (<[0%nat := 0]> stack) 0 (t ++ [0])) 0 (zlen t + 1) = Some (t ++ [0])) as ->; [|by rewrite run_of_opt].
  unfold bget. rewrite splice_length by lia. destruct (Z.leb_spec 0 (zlen t + 1)); [|lia].
  destruct (Z.leb_spec (0 + (zlen t + 1)) (zlen (<[0%nat := 0]> stack))); [|lia]. cbn [andb Z.leb Z.compare]. change (Z.to_nat 0) with 0%nat. rewrite drop_0.
  replace (Z.to_nat (zlen t + 1)) with (length (t ++ [0])) by lia. by rewrite splice_head by lia.
Qed.

(** C27. A number in the form in which it is printed ([num_text], which has a text for five of
    the types of numbers) that the set command of a device writes into an item of its
    tree is returned by its get command: the text, its length and its end. *)
Theorem media_ioctl_set_get (s : mcfg W) f m io rest1 rest2 path t names item c b x v stack jiffies :
  listable (tree s) -> counts_ok (nodes (tree s)) -> counts_fit (nodes (tree s)) ->
  aget mediaconfig_nodes (fnode f) = Some m -> starts_with (dev_name m) path = true ->
  Forall (fun ch => ch <> 0) path -> cmd_path io = path ++ 0 :: rest1 -> zlen (cmd_path io) = CMD_PATH -> val io = t ++ 0 :: rest2 ->
  segments (S (length path)) path = Some (names, item) ->
  item_by_path (tree s) (nodes (tree s)) ROOT names item true = inr (c, b) ->
  item_by_path (tree s) (nodes (tree s)) ROOT names item false = inr (c, b) ->
  config_in (arrays (tree s)) c x -> num_text (ctype x) v = Some t -> zlen stack = MAX_VALUE_NAME ->
  exists f1 (s1 : mcfg W) f2 (s2 : mcfg W),
    configs_ioctl f MEDIA_CONFIG_SET_CMD_STR io stack true true jiffies s = Some ((0, mk_out None None, f1), s1) /\
    configs_ioctl f1 MEDIA_CONFIG_GET_CMD_STR io stack true true jiffies s1 = Some ((0, mk_out (Some (zlen t)) (Some (t ++ [0])), f2), s2).
Proof.
  intros Hs HC HF Hm Hdev Hpath Hcmd Hlen Hval Hseg Hw Hr Hc Ht Hstack. destruct (num_text_length _ _ _ Ht) as [Hshort Hnz].
  pose proof (num_text_nonempty _ _ _ Ht) as Hne.
  assert (zlen t < MAX_VALUE_NAME <= zlen (<[0%nat := 0]> stack)) as Hbuf by (rewrite length_insert, Hstack; unfold MAX_VALUE_NAME; lia).
  destruct (set_then_get (tree s) path names item c b x v t (<[0%nat := 0]> stack) MAX_VALUE_NAME Hs HC HF Hseg Hw Hr Hc Ht Hbuf) as (t1 & t2 & E1 & E2).
  assert (0 < zlen t) as Hpos by (destruct t; [done|cbn [length]; lia]).
  eexists _, (mk_mcfg t1 (opened_cnt s)), _, (mk_mcfg t2 (opened_cnt s)). split.
  - unfold configs_ioctl. cbv zeta. rewrite bind_assoc. erewrite run_bind; [|eapply (ioctl_set_run s _ m io rest1 rest2 path t t1); [exact Hm|done..]]. reflexivity.
  - unfold configs_ioctl. cbv zeta. rewrite bind_assoc.
    erewrite run_bind; [|eapply (ioctl_get_run (mk_mcfg t1 (opened_cnt s)) _ m io rest1 path t stack t2); [exact Hm|done..|by unfold MAX_VALUE_NAME in *; lia|done]]. reflexivity.
Qed.

(** ** What the code does otherwise than it means to *)

(** A value of the types that hold it inside is taken for a pointer: with the
    value 0 neither [configs_get_node_path_u32] nor [configs_set_node_path_u32]
    and their 64-bit forms work. *)
Lemma value_api_refuses_zero s c x val size set :
  config_in (arrays s) c x -> ldata0 x = 0 -> configs_setget_config_value c val size set s = Some ((-1, val), s).
Proof. intros Hc E. unfold configs_setget_config_value. rewrite (config_at_run s c x) by done. destruct val; [|done]. by rewrite E. Qed.

(** [false] is the one word that is refused; every other means false. *)
Lemma bool_words c t :
  c <> 48 -> c <> 49 -> c :: t <> str "true" -> c :: t <> str "TRUE" ->
  configs_parser_value_bool (c :: t) = if bool_decide (c :: t = str "false") then (0, false) else (1, false).
Proof.
  intros H1 H2 H3 H4. unfold configs_parser_value_bool. rewrite (proj2 (Z.eqb_neq c 49)), (proj2 (Z.eqb_neq c 48)) by done.
  rewrite (bool_decide_eq_false_2 (c :: t = str "true")), (bool_decide_eq_false_2 (c :: t = str "TRUE")) by done. cbn [orb].
  case_bool_decide as Ht; [|done]. rewrite Ht. reflexivity.
Qed.

(** What [CONFIG_TYPE_PU64] prints is not read back. *)
Lemma pu64_text_not_parsed : configs_parser_value_u64 (fmt_llx 171) = (- EINVAL, 0) /\ configs_parser_value_u64 (fmt_llx 16) = (1, 10).
Proof. by split. Qed.

(** A set command with a path of another device does nothing and reports success. *)
Lemma ioctl_set_other_device (s : mcfg W) f m io :
  aget mediaconfig_nodes (fnode f) = Some m -> starts_with (dev_name m) (cmd_path io) = false -> ioctl_set f io true s = Some (0, s).
Proof. intros Hm Hd. unfold ioctl_set. cbn [negb]. by rewrite Hm, run_of_opt, Hd. Qed.

(** A device number behind the table reads past its end. *)
Lemma open_behind_table (s : mcfg W) minor j ok : zlen (opened_cnt s) <= minor -> configs_open minor j ok s = None.
Proof.
  intros Hm. unfold configs_open, opened_of, aget. unfold mbind, ST_bind at 1. destruct (0 <=? minor); [|done]. by rewrite lookup_ge_None_2 by lia.
Qed.

(** A node whose deletion failed is inactive but on its list still: a node of the
    same name can be registered behind it and is never found. *)
Lemma inactive_hides N a n l nm : N !! a = Some n -> name n = nm -> active n <= 0 -> find_active N (a :: l) nm = None.
Proof. intros E Hn Ha. cbn. rewrite E, bool_decide_eq_true_2 by done. by destruct (Z.leb_spec (active n) 0); [|lia]. Qed.
End Spec.

(** ** A system with one driver

    The callbacks keep one text: [f_set] stores it, [f_get] prints it.  The driver
    registers the node [scatter] with four items below [media.codec_mm]. *)

#[export] Instance text_funs : CfgFuns bytes := {
  f_get _ _ _ size w := Some (zlen w, take (Z.to_nat (size - 1)) w ++ [0], w);
  f_set _ _ _ t _ := Some (1, t) }.
#[export] Instance text_funs_ok : CfgFunsOk bytes.
Proof.
  split.
  - intros fn nm id size w Hs. exists (zlen w), (take (Z.to_nat (size - 1)) w ++ [0]), w. split; [done|]. split.
    + rewrite length_app, length_take. cbn. lia.
    + intros Hr. left. rewrite take_ge by lia. rewrite lookup_app_r by lia. by replace (Z.to_nat (zlen w) - length w)%nat with 0%nat by lia.
  - intros fn nm id t w. by exists 1, t.
Qed.

Definition demo_items : list mconfig :=
  [ mk_config CONFIG_TYPE_I32 0 (str "level") 5 0 0; mk_config CONFIG_TYPE_PI32 0 (str "keep") 2000 0 0;
    mk_config CONFIG_TYPE_U64 0 (str "mask") 1 0 0; mk_config CONFIG_TYPE_FUN 0 (str "trigger") 1 2 0 ].
Definition demo_kinds : gmap Z obj_kind := {[ 2000 := IntObj 4 ]}.
Definition demo_boot : cfg bytes :=
  mk_cfg (gset_to_gmap zero_node {[ROOT; 1; 7; 50]}) {[ 1000 := demo_items ]} {[ 2000 := [7; 0; 0; 0] ]} (str "idle").
Definition demo_ops : list cfg_op :=
  [ InitNode ROOT (str "root") CONFIG_FOR_RW; RegisterNode None ROOT;
    InitNode 1 (str "media") CONFIG_FOR_RW; RegisterPathNode [] 1;
    InitNode 7 (str "codec_mm") CONFIG_FOR_RW; RegisterPathNode (str "media") 7;
    InitNode 50 (str "scatter") CONFIG_FOR_RW; RegisterConfigs 50 1000 4; RegisterPathNode (str "media.codec_mm") 50 ].

(** The calls of a sequence, and what each asks of its caller. *)
Fixpoint exec_all {W} `{CfgFuns W} (ops : list cfg_op) (s : cfg W) : option (cfg W) :=
  match ops with
  | [] => Some s
  | op :: ops => '(_, s) ← exec op s; exec_all ops s
  end.
Fixpoint ops_ok {W} `{CfgFuns W} (ops : list cfg_op) (s : cfg W) : Prop :=
  match ops with
  | [] => True
  | op :: ops => op_ok s op /\ match exec op s with Some (_, s) => ops_ok ops s | None => False end
  end.
Lemma ops_ok_cons {W} `{CfgFuns W} op ops (s s1 : cfg W) :
  op_ok s op -> exec op s = Some (tt, s1) -> ops_ok ops s1 -> ops_ok (op :: ops) s.
Proof. intros H1 H2 H3. cbn. by rewrite H2. Qed.
Lemma exec_all_reachable {W} `{CfgFunsOk W} K ops (s s' : cfg W) :
  reachable K s -> ops_ok ops s -> exec_all ops s = Some s' -> reachable K s'.
Proof.
  revert s. induction ops as [|op ops IH]; intros s Hs Hok E; [by injection E as <-|]. cbn in Hok, E. destruct Hok as [Hop Hok].
  destruct (exec op s) as [[[] s1]|] eqn:E1; [|done]. apply (IH s1); [by eapply reach_op|done|done].
Qed.

Definition demo : cfg bytes := default demo_boot (exec_all demo_ops demo_boot).

Lemma demo_boot_ok : boot_ok demo_kinds demo_boot.
Proof.
  split; [intros a n E; by apply lookup_gset_to_gmap_Some in E as [_ E]|]. split; [vm_compute; by eexists|]. split.
  - intros a l E. change (({[1000 := demo_items]} : gmap Z (list mconfig)) !! a = Some l) in E. apply lookup_singleton_Some in E as [_ <-].
    unfold demo_items. repeat (apply Forall_cons_2); [..|apply Forall_nil_2]; repeat split; intros Hty; cbn in Hty; destruct_or?; try discriminate Hty.
    by exists 4.
  - intros a k E. change (({[2000 := IntObj 4]} : gmap Z obj_kind) !! a = Some k) in E. apply lookup_singleton_Some in E as [<- <-]. exists [7; 0; 0; 0]. split; [done|]. cbn. lia.
Qed.
Ltac demo_op :=
  match goal with
  | |- op_ok _ (InitNode _ _ _) => eexists; split; [vm_compute; reflexivity|split; [discriminate|reflexivity]]
  | |- op_ok _ (RegisterNode _ _) => by left
  | |- op_ok _ (RegisterPathNode _ _) =>
      split; [discriminate|eexists; split; [vm_compute; reflexivity|split; [discriminate|reflexivity|reflexivity]]]
  | |- op_ok _ (RegisterConfigs _ _ _) => split; [vm_compute; by eexists|eexists; split; [vm_compute; reflexivity|vm_compute; discriminate]]
  end.
Lemma demo_reachable : reachable demo_kinds demo.
Proof.
  apply (exec_all_reachable demo_kinds demo_ops demo_boot); [apply reach_boot, demo_boot_ok| |by vm_compute].
  unfold demo_ops. repeat (eapply ops_ok_cons; [demo_op|vm_compute; reflexivity|]). done.
Qed.

(** The demonstration satisfies what the theorems ask. *)
Lemma demo_counts : counts_ok (nodes demo) /\ counts_fit (nodes demo).
Proof.
  assert (map_Forall (fun a n => (a = ROOT \/ 0 <= ref_cnt n < 2 ^ 31 - 2) /\ - 2 ^ 31 <= ref_cnt n < 2 ^ 31) (nodes demo)) as Hall.
  { apply (bool_decide_unpack _). by vm_compute. }
  split; intros a n E.
  - intros Ha. destruct (Hall a n E) as [[?|?] _]; [done|lia].
  - by destruct (Hall a n E) as [_ ?].
Qed.
Lemma demo_listable : ConfigsItems.listable demo_kinds demo.
Proof. apply reachable_listable, demo_reachable. Qed.

Lemma configs_reachable_ok_witness :
  reachable demo_kinds demo /\ tree_ok (nodes demo) /\ exists s', exec (SetPathStr None (str "media.codec_mm.scatter.level") (Some (str "9"))) demo = Some (tt, s').
Proof.
  pose proof demo_reachable as Hd. destruct (configs_reachable_ok demo_kinds demo Hd) as [HN Hop]. split; [exact Hd|]. split; [exact HN|].
  destruct (Hop (SetPathStr None (str "media.codec_mm.scatter.level") (Some (str "9")))) as (s' & E & _); [exists []; apply below_top|]. by exists s'.
Defined.

(** A buffer of 17 bytes for [" scatter.level=5"]: the end of the string is moved
    to the byte behind it. *)
Lemma configs_listing_bounded_witness :
  reachable demo_kinds demo /\
  (exists ret buf' s', configs_list_nodes (Some 50) (replicate 20 255) 0 17 (Z.lor LIST_MODE_CONFIGS_VAL CONFIG_FOR_RW) demo = Some (ret, buf', s') /\
     0 <= ret /\ length buf' = 20%nat) /\
  (configs_list_nodes (Some 50) (replicate 20 255) 0 17 (Z.lor LIST_MODE_CONFIGS_VAL CONFIG_FOR_RW) demo ≫= (fun r => r.1.2 !! 17%nat)) = Some 0.
Proof.
  pose proof demo_reachable as Hd. split; [exact Hd|]. split; [|vm_compute; reflexivity].
  destruct (configs_listing_bounded demo_kinds demo (Some 50) (replicate 20 255) 0 17 (Z.lor LIST_MODE_CONFIGS_VAL CONFIG_FOR_RW) Hd)
    as (ret & buf' & s' & E & H1 & H2 & _); [vm_compute; eexists; reflexivity|lia|vm_compute; discriminate|].
  exists ret, buf', s'. split; [exact E|]. split; [exact H1|]. exact H2.
Defined.

Lemma path_calls_balanced_witness :
  exists r s', configs_set_node_path_str None (str "media.codec_mm.scatter.level") (Some (str "-12")) demo = Some (r, s') /\
    nodes s' !! 50 = nodes demo !! 50 /\ nodes s' !! 1 = nodes demo !! 1 /\ (ref_cnt <$> nodes demo !! ROOT) = Some (-2) /\ (ref_cnt <$> nodes s' !! ROOT) = Some (-3).
Proof.
  destruct demo_counts as [HC HF].
  destruct (path_calls_balanced demo_kinds demo None [] (str "media.codec_mm.scatter.level") [str "media"; str "codec_mm"; str "scatter"] (str "level")
    (str "-12") [0] 0 1 demo_listable HC HF (below_top _ _)) as [(r & s' & E & Hn) _];
    [vm_compute; reflexivity|discriminate|lia|intros _; split; [discriminate|reflexivity]|].
  exists r, s'. split; [exact E|]. rewrite Hn. split; [vm_compute; reflexivity|]. split; [vm_compute; reflexivity|]. split; vm_compute; reflexivity.
Defined.

(** Two such calls, and the third does not find the node any more. *)
Lemma prefix_set_drains_witness :
  (exists r s', configs_set_prefix_path_str (str "media.codec_mm.scatter") (str "level") (Some (str "3")) demo = Some (r, s') /\
     (ref_cnt <$> nodes s' !! 50) = Some (-1) /\ (ref_cnt <$> nodes s' !! 7) = Some (-1)) /\
  ('(_, s1) ← configs_set_prefix_path_str (str "media.codec_mm.scatter") (str "level") (Some (str "3")) demo;
   '(_, s2) ← configs_set_prefix_path_str (str "media.codec_mm.scatter") (str "level") (Some (str "4")) s1;
   '(r, _) ← configs_set_prefix_path_str (str "media.codec_mm.scatter") (str "level") (Some (str "5")) s2; Some r) = Some (-1).
Proof.
  split; [|vm_compute; reflexivity]. destruct demo_counts as [HC HF].
  destruct (prefix_set_drains demo_kinds demo (str "media.codec_mm.scatter") [str "media"; str "codec_mm"] (str "scatter") (str "level") (str "level")
    [50; 7; 1] 50 (str "3") demo_listable HC HF) as (r & s' & E & Hn);
    [vm_compute; reflexivity|vm_compute; reflexivity|discriminate| |vm_compute; reflexivity|discriminate|].
  - intros a n _ En. assert (map_Forall (fun _ n => ref_cnt n < 2 ^ 31 - 3) (nodes demo)) as Hall by (apply (bool_decide_unpack _); by vm_compute).
    by apply (Hall a n).
  - exists r, s'. split; [exact E|]. rewrite Hn. split; vm_compute; reflexivity.
Defined.

Definition demo_file : config_file_private := mk_file 6 0 0 0 0 0.
Definition demo_io (path t : bytes) : media_config_io_str :=
  mk_io (path ++ 0 :: replicate (Z.to_nat CMD_PATH - length path - 1) 0) (t ++ 0 :: replicate (Z.to_nat MAX_VALUE_NAME - length t - 1) 0).

Lemma media_ioctl_set_get_witness :
  exists f1 (s1 : mcfg bytes) f2 (s2 : mcfg bytes),
    configs_ioctl demo_file MEDIA_CONFIG_SET_CMD_STR (demo_io (str "media.codec_mm.scatter.keep") (str "4000")) (replicate 256 255) true true 1
      (mk_mcfg demo (replicate 9 0)) = Some ((0, mk_out None None, f1), s1) /\
    configs_ioctl f1 MEDIA_CONFIG_GET_CMD_STR (demo_io (str "media.codec_mm.scatter.keep") (str "4000")) (replicate 256 255) true true 1 s1 =
      Some ((0, mk_out (Some 4) (Some (str "4000" ++ [0])), f2), s2).
Proof.
  destruct demo_counts as [HC HF].
  apply (media_ioctl_set_get demo_kinds (mk_mcfg demo (replicate 9 0)) demo_file (mk_media (str "media") (str "codec_mm") (str "media.codec_mm") CONFIG_FOR_RW)
    (demo_io (str "media.codec_mm.scatter.keep") (str "4000")) (replicate 232 0) (replicate 251 0) (str "media.codec_mm.scatter.keep") (str "4000")
    [str "media"; str "codec_mm"; str "scatter"] (str "keep") (1000, 1) 50 (mk_config CONFIG_TYPE_PI32 0 (str "keep") 2000 0 0) 4000
    (replicate 256 255) 1 demo_listable HC HF); try (vm_compute; reflexivity).
  - by repeat (apply Forall_cons_2; [discriminate|]).
  - exists demo_items. split; [reflexivity|]. split; [discriminate|reflexivity].
Defined.
