(* ===== verification/Canvas.v ===== *)
(** * Canvas look-up table (src/a311d/soc/amlogic/canvas/canvas.c)

    The legacy canvas driver: a pool of 256 canvas descriptors, the 64-bit
    look-up-table entry built from a descriptor, and the operations that
    configure, copy, read and pre-allocate canvases.  The hardware side
    (drivers/soc/amlogic/meson-canvas) is not part of the repository: it is the
    class [MesonCanvas].  The spin lock of the driver is held around every
    update, so an operation is one step of the state. *)

From stdpp Require Import base numbers list option sets gmap.
From S2P Require Import Prelude.

(** ** Data (include/linux/amlogic/media/canvas/canvas.h) *)

Definition NUM_CANVAS : Z := 256.
Definition CANVAS_INDEX_START : Z := 0.
Definition CANVAS_INDEX_END : Z := 0xef.

Definition CANVAS_ADDR_NOWRAP : Z := 0x00.
Definition CANVAS_ADDR_WRAPX : Z := 0x01.
Definition CANVAS_ADDR_WRAPY : Z := 0x02.
Definition CANVAS_BLKMODE_MASK : Z := 3.

(** [struct canvas_s], without its embedded kobject. *)
Record canvas_s := mk_canvas_s {
  c_index : Z; c_addr : Z; c_width : Z; c_height : Z; c_wrap : Z;
  c_blkmode : Z; c_endian : Z; c_dataL : Z; c_dataH : Z; c_used : Z }.

Record canvas_config_s := mk_canvas_config_s {
  cc_phy_addr : Z; cc_width : Z; cc_height : Z; cc_block_mode : Z; cc_endian : Z }.

(** The entry points of the meson-canvas driver that the code calls. *)
Class MesonCanvas (M : Type) := {
  (** [meson_canvas_alloc_spec (canvas, index)]: 0 on success *)
  meson_canvas_alloc_spec : M -> Z -> Z * M;
  (** [meson_canvas_free (canvas, index)] *)
  meson_canvas_free : M -> Z -> M;
  (** [meson_canvas_config (canvas, index, addr, width, height, wrap, blkmode, endian)] *)
  meson_canvas_config : M -> Z -> Z -> Z -> Z -> Z -> Z -> Z -> M }.

(** [struct canvas_device_info] *)
Record canvas_device_info (M : Type) := mk_canvas_device_info {
  canvasPool : list canvas_s;
  meson_canvas : M }.
Arguments mk_canvas_device_info {M}.
Arguments canvasPool {M}.
Arguments meson_canvas {M}.

(** A descriptor after [memset]. *)
Definition canvas_zero : canvas_s := mk_canvas_s 0 0 0 0 0 0 0 0 0 0.

(** Assignments to groups of fields. *)
Definition set_geometry (c : canvas_s) (addr width height wrap blkmode endian : Z) : canvas_s :=
  mk_canvas_s (c_index c) addr width height wrap blkmode endian (c_dataL c) (c_dataH c) (c_used c).
Definition set_data (c : canvas_s) (l h : Z) : canvas_s :=
  mk_canvas_s (c_index c) (c_addr c) (c_width c) (c_height c) (c_wrap c) (c_blkmode c)
    (c_endian c) l h (c_used c).
Definition set_used (c : canvas_s) (u : Z) : canvas_s :=
  mk_canvas_s (c_index c) (c_addr c) (c_width c) (c_height c) (c_wrap c) (c_blkmode c)
    (c_endian c) (c_dataL c) (c_dataH c) u.

(** ** The look-up-table entry *)

Definition CANVAS_ADDR_LMASK : Z := 0x1fffffff.
Definition CANVAS_WIDTH_LMASK : Z := 0x7.
Definition CANVAS_WADDR_LBIT : Z := 0.
Definition CANVAS_WIDTH_LWID : Z := 3.
Definition CANVAS_WIDTH_LBIT : Z := 29.
Definition CANVAS_WIDTH_HBIT : Z := 0.
Definition CANVAS_BLKMODE_HBIT : Z := 56 - 32.
Definition CANVAS_ENDIAN_HBIT : Z := 58 - 32.
Definition CANVAS_HEIGHT_MASK : Z := 0x1fff.
Definition CANVAS_HEIGHT_BIT : Z := 9.

(** [addr] is an unsigned long, the other arguments are u32 promoted to long. *)
Definition canvas_lut_data_build (addr width height wrap blkmode endian : Z) : Z * Z :=
  let addr_bits_l := u32 (Z.shiftl (Z.land (Z.shiftr (u64 (addr + 7)) 3) CANVAS_ADDR_LMASK)
                            CANVAS_WADDR_LBIT) in
  let width_l := u32 (Z.shiftl (Z.land (Z.shiftr (width + 7) 3) CANVAS_WIDTH_LMASK)
                        CANVAS_WIDTH_LBIT) in
  let width_h := u32 (Z.shiftl (Z.shiftr (Z.shiftr (width + 7) 3) CANVAS_WIDTH_LWID)
                        CANVAS_WIDTH_HBIT) in
  let height_h := u32 (Z.shiftl (Z.land height CANVAS_HEIGHT_MASK) CANVAS_HEIGHT_BIT) in
  let wrap_h := Z.land wrap (Z.lor CANVAS_ADDR_WRAPX CANVAS_ADDR_WRAPY) in
  let blkmod_h := u32 (Z.shiftl (Z.land blkmode CANVAS_BLKMODE_MASK) CANVAS_BLKMODE_HBIT) in
  let switch_bits_ctl := u32 (Z.shiftl (Z.land endian 0xf) CANVAS_ENDIAN_HBIT) in
  (Z.lor addr_bits_l width_l,
   Z.lor (Z.lor (Z.lor (Z.lor width_h height_h) wrap_h) blkmod_h) switch_bits_ctl).

(** ** Operations *)

Section Operations.
Context {M : Type} `{MC : MesonCanvas M}.
Implicit Types (info : canvas_device_info M).

Definition CANVAS_VALID info (n : Z) : bool :=
  (n <? NUM_CANVAS) &&
  match aget (canvasPool info) n with
  | Some c => c_true (c_used c)
  | None => false
  end.

(** The descriptor and the hardware state after the configuration of [p]. *)
Definition canvas_config_locked (hw : M) (index : Z) (p : canvas_s) : canvas_s * M :=
  let '(datal, datah) :=
    canvas_lut_data_build (c_addr p) (c_width p) (c_height p) (c_wrap p)
      (c_blkmode p) (c_endian p) in
  let hw := meson_canvas_config hw (u8 index) (c_addr p) (c_width p) (c_height p)
              (c_wrap p) (c_blkmode p) (c_endian p) in
  (set_data p datal datah, hw).

(** [canvasPool[index] = c], after a successful [CANVAS_VALID (index)]. *)
Definition store_canvas info (index : Z) (c : canvas_s) (hw : M) : canvas_device_info M :=
  mk_canvas_device_info (<[Z.to_nat index := c]> (canvasPool info)) hw.

Definition canvas_config_ex info (index addr width height wrap blkmode endian : Z)
  : canvas_device_info M :=
  if negb (CANVAS_VALID info index) then info
  else match aget (canvasPool info) index with
       | None => info
       | Some canvas =>
           let canvas := set_geometry canvas addr width height wrap blkmode endian in
           let '(canvas, hw) := canvas_config_locked (meson_canvas info) index canvas in
           store_canvas info index canvas hw
       end.

Definition canvas_config_config info (index : Z) (cfg : canvas_config_s)
  : canvas_device_info M :=
  canvas_config_ex info index (cc_phy_addr cfg) (cc_width cfg) (cc_height cfg)
    CANVAS_ADDR_NOWRAP (cc_block_mode cfg) (cc_endian cfg).

Definition canvas_config info (index addr width height wrap blkmode : Z)
  : canvas_device_info M :=
  canvas_config_ex info index addr width height wrap blkmode 0.

(** The descriptor [*p] of the caller after the call. *)
Definition canvas_read info (index : Z) (p : canvas_s) : canvas_s :=
  if CANVAS_VALID info index
  then default p (aget (canvasPool info) index) else p.

Definition canvas_copy info (src dst : Z) : canvas_device_info M :=
  if negb (CANVAS_VALID info src) || negb (CANVAS_VALID info dst) then info
  else match aget (canvasPool info) src, aget (canvasPool info) dst with
       | Some s, Some d =>
           let d := set_geometry d (c_addr s) (c_width s) (c_height s) (c_wrap s)
                      (c_blkmode s) (c_endian s) in
           let d := set_data d (c_dataL s) (c_dataH s) in
           let '(d, hw) := canvas_config_locked (meson_canvas info) dst d in
           store_canvas info dst d hw
       | _, _ => info
       end.

Definition canvas_update_addr info (index addr : Z) : canvas_device_info M :=
  if negb (CANVAS_VALID info index) then info
  else match aget (canvasPool info) index with
       | None => info
       | Some c =>
           let c := set_geometry c addr (c_width c) (c_height c) (c_wrap c)
                      (c_blkmode c) (c_endian c) in
           let '(c, hw) := canvas_config_locked (meson_canvas info) index c in
           store_canvas info index c hw
       end.

(** No validity check here: an index outside the pool reads out of the array. *)
Definition canvas_get_addr info (index : Z) : option Z :=
  c ← aget (canvasPool info) index; Some (u32 (c_addr c)).

Definition canvas_get_width info (index : Z) : Z :=
  if negb (CANVAS_VALID info index) then 0
  else default 0 (c_width <$> aget (canvasPool info) index).

Definition canvas_get_height info (index : Z) : Z :=
  if negb (CANVAS_VALID info index) then 0
  else default 0 (c_height <$> aget (canvasPool info) index).

(** [canvasPool[i].used = u]; [i] is a uint8_t, so always inside the pool. *)
Definition mark_used info (i u : Z) (hw : M) : canvas_device_info M :=
  mk_canvas_device_info (alter (fun c => set_used c u) (Z.to_nat i) (canvasPool info)) hw.

(** [meson_canvas_free (j); canvasPool[j].used = 0] *)
Definition free_one info (j : Z) : canvas_device_info M :=
  mark_used info j 0 (meson_canvas_free (meson_canvas info) j).

Definition alloc_canvas_range_body (start last : Z) (s : Z * canvas_device_info M)
  : (Z * canvas_device_info M) + (Z * canvas_device_info M) :=
  let '(i, info) := s in
  if i <=? last then
    let '(err, hw) := meson_canvas_alloc_spec (meson_canvas info) i in
    if c_true err then
      inr (-1, foldl free_one (mk_canvas_device_info (canvasPool info) hw)
                 (seqZ start (i - start)))
    else inl (u8 (i + 1), mark_used info i 1 hw)
  else inr (0, info).

(** Returns the C result and the state; [None] when the fuel is spent. *)
Definition alloc_canvas_range (fuel : nat) info (start last : Z)
  : option (Z * canvas_device_info M) :=
  loop fuel (alloc_canvas_range_body start last) (start, info).

Definition free_canvas_range_body (last : Z) (s : Z * canvas_device_info M)
  : (Z * canvas_device_info M) + canvas_device_info M :=
  let '(i, info) := s in
  if i <=? last then inl (u8 (i + 1), free_one info i) else inr info.

Definition free_canvas_range (fuel : nat) info (start last : Z)
  : option (canvas_device_info M) :=
  loop fuel (free_canvas_range_body last) (start, info).

End Operations.

(** ** The look-up-table entry as the driver documents it

    The comment of [canvas_lut_data_build] gives the layout of the 64-bit
    entry: address in bits 28:0 and width in bits 40:29 (units of 8 bytes),
    height in 53:41, X and Y wrap in 54 and 55, block mode in 57:56, endian
    control in 61:58. *)

Definition lut_word (lh : Z * Z) : Z := Z.lor (fst lh) (Z.shiftl (snd lh) 32).

Record lut_entry := mk_lut_entry {
  lut_addr : Z; lut_width : Z; lut_height : Z; lut_wrap : Z; lut_blkmode : Z; lut_endian : Z }.

Definition lut_decode (w : Z) : lut_entry :=
  mk_lut_entry (bitfield w 0 29) (bitfield w 29 12) (bitfield w 41 13)
    (bitfield w 54 2) (bitfield w 56 2) (bitfield w 58 4).

(** Number of 8-byte units that hold [x] bytes. *)
Definition units8 (x : Z) : Z := (x + 7) / 8.

Lemma land_pow2_mask x n : 0 <= n -> Z.land x (2 ^ n - 1) = x mod 2 ^ n.
Proof. intros. rewrite <- Z.land_ones by lia. by rewrite Z.ones_equiv. Qed.

Lemma lut_data_build_sum addr width height wrap blkmode endian :
  0 <= addr < 2 ^ 32 - 7 -> 0 <= width < 2 ^ 15 - 7 ->
  canvas_lut_data_build addr width height wrap blkmode endian =
  (units8 addr + units8 width mod 8 * 2 ^ 29,
   Z.lor (units8 width / 8) (wrap mod 4) + height mod 2 ^ 13 * 2 ^ 9
   + blkmode mod 4 * 2 ^ 24 + endian mod 16 * 2 ^ 26).
Proof.
  intros Ha Hw. unfold canvas_lut_data_build, units8.
  change CANVAS_ADDR_LMASK with (2 ^ 29 - 1). change CANVAS_WIDTH_LMASK with (2 ^ 3 - 1).
  change CANVAS_HEIGHT_MASK with (2 ^ 13 - 1). change CANVAS_BLKMODE_MASK with (2 ^ 2 - 1).
  change (Z.lor CANVAS_ADDR_WRAPX CANVAS_ADDR_WRAPY) with (2 ^ 2 - 1).
  change 0xf with (2 ^ 4 - 1). rewrite !land_pow2_mask by lia.
  change CANVAS_WADDR_LBIT with 0. change CANVAS_WIDTH_HBIT with 0.
  change CANVAS_WIDTH_LBIT with 29. change CANVAS_WIDTH_LWID with 3.
  change CANVAS_HEIGHT_BIT with 9. change CANVAS_BLKMODE_HBIT with 24.
  change CANVAS_ENDIAN_HBIT with 26.
  rewrite (u64_small (addr + 7)) by lia. rewrite !Z.shiftl_0_r.
  rewrite !Z.shiftr_div_pow2 by lia. change (2 ^ 3) with 8. change (2 ^ 2) with 4.
  change (2 ^ 4) with 16.
  assert (0 <= (addr + 7) / 8 < 2 ^ 29).
  { split; [apply Z.div_pos; lia|]. apply Z.div_lt_upper_bound; lia. }
  rewrite (Z.mod_small ((addr + 7) / 8) (2 ^ 29)) by lia.
  assert (0 <= (width + 7) / 8 / 8 < 2 ^ 9).
  { rewrite Z.div_div by lia. split; [apply Z.div_pos; lia|].
    apply Z.div_lt_upper_bound; lia. }
  pose proof (Z.mod_pos_bound ((width + 7) / 8) 8).
  pose proof (Z.mod_pos_bound height (2 ^ 13)).
  pose proof (Z.mod_pos_bound blkmode 4). pose proof (Z.mod_pos_bound endian 16).
  pose proof (Z.mod_pos_bound wrap 4).
  rewrite !Z.shiftl_mul_pow2 by lia. rewrite !u32_small by lia.
  rewrite <- !Z.shiftl_mul_pow2 by lia. f_equal.
  - rewrite lor_add, Z.shiftl_mul_pow2 by lia. done.
  - assert (0 <= Z.lor ((width + 7) / 8 / 8) (wrap mod 4) < 2 ^ 9) by (apply lor_range; lia).
    rewrite <- (Z.lor_assoc ((width + 7) / 8 / 8)).
    rewrite (Z.lor_comm (Z.shiftl (height mod 2 ^ 13) 9)), Z.lor_assoc.
    rewrite (lor_add _ _ 9), (lor_add _ _ 24), (lor_add _ _ 26) by lia.
    rewrite !Z.shiftl_mul_pow2 by lia. lia.
Qed.

Lemma lor_shift3 W w :
  W mod 8 + Z.lor (W / 8) w * 8 = Z.lor W (Z.shiftl w 3).
Proof.
  change 8 with (2 ^ 3). rewrite <- lor_add by (try apply Z.mod_pos_bound; lia).
  rewrite Z.shiftl_lor, Z.lor_assoc. f_equal.
  rewrite lor_add by (try apply Z.mod_pos_bound; lia).
  pose proof (Z.div_mod W (2 ^ 3)). lia.
Qed.

Lemma lut_decode_build addr width height wrap blkmode endian :
  0 <= addr < 2 ^ 32 - 7 -> 0 <= width < 2 ^ 15 - 7 ->
  lut_decode (lut_word (canvas_lut_data_build addr width height wrap blkmode endian)) =
  mk_lut_entry (units8 addr) (Z.lor (units8 width) (Z.shiftl (wrap mod 4) 3))
    (height mod 2 ^ 13) 0 (blkmode mod 4) (endian mod 16).
Proof.
  intros Ha Hw. rewrite lut_data_build_sum by done. unfold lut_word; simpl fst; simpl snd.
  assert (0 <= units8 addr < 2 ^ 29) as HA.
  { unfold units8. split; [apply Z.div_pos; lia|]. apply Z.div_lt_upper_bound; lia. }
  assert (0 <= units8 width / 8 < 2 ^ 9).
  { unfold units8. rewrite Z.div_div by lia. split; [apply Z.div_pos; lia|].
    apply Z.div_lt_upper_bound; lia. }
  pose proof (Z.mod_pos_bound (units8 width) 8).
  pose proof (Z.mod_pos_bound height (2 ^ 13)).
  pose proof (Z.mod_pos_bound blkmode 4). pose proof (Z.mod_pos_bound endian 16).
  pose proof (Z.mod_pos_bound wrap 4).
  rewrite <- lor_shift3.
  assert (0 <= Z.lor (units8 width / 8) (wrap mod 4) < 2 ^ 9) by (apply lor_range; lia).
  rewrite lor_add by lia. unfold lut_decode. rewrite !bitfield_mod by lia.
  generalize dependent (units8 addr). generalize dependent (units8 width mod 8).
  generalize dependent (Z.lor (units8 width / 8) (wrap mod 4)).
  generalize dependent (height mod 2 ^ 13). generalize dependent (blkmode mod 4).
  generalize dependent (endian mod 16). intros e b h W w A **.
  f_equal; Z.to_euclidean_division_equations; lia.
Qed.

(** ** The pool and the hardware table *)

(** What a descriptor programs into the table. *)
Definition geometry (c : canvas_s) : list Z :=
  [c_addr c; c_width c; c_height c; c_wrap c; c_blkmode c; c_endian c].

(** The cached [dataL]/[dataH] of a descriptor are those of its fields. *)
Definition lut_consistent (c : canvas_s) : Prop :=
  (c_dataL c, c_dataH c) =
  canvas_lut_data_build (c_addr c) (c_width c) (c_height c) (c_wrap c) (c_blkmode c) (c_endian c).

(** What the driver relies on from meson-canvas: which canvases it owns and
    what was last programmed into each, and how the three calls change that. *)
Class MesonCanvasLaws (M : Type) `{MC : MesonCanvas M} := {
  mc_owned : M -> gset Z;
  mc_lut : M -> Z -> list Z;
  alloc_spec_ok m i m' :
    meson_canvas_alloc_spec m i = (0, m') ->
    (i ∉ mc_owned m) /\ mc_owned m' = {[i]} ∪ mc_owned m /\ mc_lut m' = mc_lut m;
  alloc_spec_err m i e m' :
    meson_canvas_alloc_spec m i = (e, m') -> e <> 0 ->
    mc_owned m' = mc_owned m /\ mc_lut m' = mc_lut m;
  free_owned m i : mc_owned (meson_canvas_free m i) = mc_owned m ∖ {[i]};
  free_lut m i : mc_lut (meson_canvas_free m i) = mc_lut m;
  config_owned m i a w h wr b e :
    mc_owned (meson_canvas_config m i a w h wr b e) = mc_owned m;
  config_lut m i a w h wr b e j :
    i ∈ mc_owned m ->
    mc_lut (meson_canvas_config m i a w h wr b e) j =
    if bool_decide (j = i) then [a; w; h; wr; b; e] else mc_lut m j }.

(** The configuration calls of the exported interface. *)
Inductive canvas_op :=
| OpConfigEx (index addr width height wrap blkmode endian : Z)
| OpConfigConfig (index : Z) (cfg : canvas_config_s)
| OpConfig (index addr width height wrap blkmode : Z)
| OpCopy (src dst : Z)
| OpUpdateAddr (index addr : Z).

(** The canvas an operation writes. *)
Definition op_target (op : canvas_op) : Z :=
  match op with
  | OpConfigEx i _ _ _ _ _ _ | OpConfigConfig i _ | OpConfig i _ _ _ _ _
  | OpUpdateAddr i _ => i
  | OpCopy _ dst => dst
  end.

Section Invariant.
Context {M : Type} `{MC : MesonCanvas M}.
Implicit Types (info : canvas_device_info M).

Definition canvas_exec info (op : canvas_op) : canvas_device_info M :=
  match op with
  | OpConfigEx i a w h wr b e => canvas_config_ex info i a w h wr b e
  | OpConfigConfig i cfg => canvas_config_config info i cfg
  | OpConfig i a w h wr b => canvas_config info i a w h wr b
  | OpCopy s d => canvas_copy info s d
  | OpUpdateAddr i a => canvas_update_addr info i a
  end.

(** Whether the operation passes its validity checks. *)
Definition op_valid info (op : canvas_op) : bool :=
  match op with
  | OpCopy s d => CANVAS_VALID info s && CANVAS_VALID info d
  | _ => CANVAS_VALID info (op_target op)
  end.

Definition pool_wf info : Prop :=
  length (canvasPool info) = 256%nat /\ Forall lut_consistent (canvasPool info).

(** One step of the driver: a configuration call, or the allocation or
    release of a range of canvases. *)
Inductive canvas_step : canvas_device_info M -> canvas_device_info M -> Prop :=
| step_op info op : canvas_step info (canvas_exec info op)
| step_alloc info fuel start last ret info' :
    alloc_canvas_range fuel info start last = Some (ret, info') -> canvas_step info info'
| step_free info fuel start last info' :
    free_canvas_range fuel info start last = Some info' -> canvas_step info info'.

Lemma CANVAS_VALID_get info n :
  CANVAS_VALID info n = true ->
  0 <= n < 256 /\ exists c, aget (canvasPool info) n = Some c /\ c_used c <> 0.
Proof.
  unfold CANVAS_VALID, NUM_CANVAS, c_true. intros H. b2p.
  destruct (aget (canvasPool info) n) as [c|] eqn:E; [|done].
  apply aget_Some in E as ?. b2p. split; [lia|]. eauto.
Qed.

(** Every configuration call has the same shape: when the checks pass, the
    target gets a new geometry, the table entry built from it, and the same
    geometry is sent to the hardware; otherwise nothing happens. *)
Lemma canvas_exec_shape info op :
  (op_valid info op = false /\ canvas_exec info op = info) \/
  (op_valid info op = true /\
   exists c c', aget (canvasPool info) (op_target op) = Some c /\
     lut_consistent c' /\ c_used c' = c_used c /\ c_index c' = c_index c /\
     canvas_exec info op =
       store_canvas info (op_target op) c'
         (meson_canvas_config (meson_canvas info) (u8 (op_target op)) (c_addr c') (c_width c')
            (c_height c') (c_wrap c') (c_blkmode c') (c_endian c'))).
Proof.
  destruct op as [i a w h wr b e|i cfg|i a w h wr b|s d|i a].
  all: unfold op_valid, canvas_exec, canvas_config_config, canvas_config, canvas_config_ex,
      canvas_update_addr, canvas_copy; simpl op_target.
  all: try (destruct (CANVAS_VALID info i) eqn:V; simpl; [right|by left];
    apply CANVAS_VALID_get in V as (_ & c & -> & _); split; [done|];
    unfold canvas_config_locked; simpl;
    match goal with |- context [store_canvas _ _ ?c' _] => exists c, c' end;
    by split_and!).
  destruct (CANVAS_VALID info s) eqn:V; simpl; [|by left].
  destruct (CANVAS_VALID info d) eqn:V'; simpl; [right|by left].
  apply CANVAS_VALID_get in V as (_ & c & -> & _).
  apply CANVAS_VALID_get in V' as (_ & c' & -> & _). split; [done|].
  unfold canvas_config_locked; simpl.
  match goal with |- context [store_canvas _ _ ?x _] => exists c', x end.
  by split_and!.
Qed.

Lemma op_valid_target info op :
  op_valid info op = true -> CANVAS_VALID info (op_target op) = true.
Proof. destruct op; simpl; try done. intros H. by b2p. Qed.

Lemma store_canvas_wf info i c hw :
  pool_wf info -> lut_consistent c -> pool_wf (store_canvas info i c hw).
Proof.
  intros [Hl Hf] Hc. split; simpl; [by rewrite length_insert|]. by apply Forall_insert.
Qed.

Lemma mark_used_wf info i u hw : pool_wf info -> pool_wf (mark_used info i u hw).
Proof.
  intros [Hl Hf]. split; simpl; [by rewrite length_alter|].
  apply Forall_alter; [done|]. by intros c _ Hc.
Qed.

Lemma free_one_wf info i : pool_wf info -> pool_wf (free_one info i).
Proof. apply mark_used_wf. Qed.

Lemma free_ones_wf l info : pool_wf info -> pool_wf (foldl free_one info l).
Proof. revert info. induction l; intros; simpl; auto using free_one_wf. Qed.

Lemma alloc_range_wf fuel info start last ret info' :
  pool_wf info -> alloc_canvas_range fuel info start last = Some (ret, info') -> pool_wf info'.
Proof.
  intros Hwf H. unfold alloc_canvas_range in H.
  eapply (loop_invariant _ (fun s => pool_wf (snd s)) (fun r => pool_wf (snd r))) in H; eauto.
  - intros [i s] [i' s'] Hs Hb. unfold alloc_canvas_range_body in Hb; simpl in Hs.
    repeat case_hyp Hb; inv_some. by apply mark_used_wf.
  - intros [i s] [r s'] Hs Hb. unfold alloc_canvas_range_body in Hb; simpl in Hs.
    repeat case_hyp Hb; inv_some; simpl; [|done]. by apply free_ones_wf.
Qed.

Lemma free_range_wf fuel info start last info' :
  pool_wf info -> free_canvas_range fuel info start last = Some info' -> pool_wf info'.
Proof.
  intros Hwf H. unfold free_canvas_range in H.
  eapply (loop_invariant _ (fun s => pool_wf (snd s)) pool_wf) in H; eauto.
  - intros [i s] [i' s'] Hs Hb. unfold free_canvas_range_body in Hb; simpl in Hs.
    case_hyp Hb; inv_some. by apply free_one_wf.
  - intros [i s] r Hs Hb. unfold free_canvas_range_body in Hb.
    case_hyp Hb; by inv_some.
Qed.

Lemma canvas_step_wf info info' : canvas_step info info' -> pool_wf info -> pool_wf info'.
Proof.
  intros Hs Hwf. destruct Hs.
  - destruct (canvas_exec_shape info op) as [[_ ->]|(_ & c & c' & _ & Hc & _ & _ & ->)]; [done|].
    by apply store_canvas_wf.
  - by eapply alloc_range_wf.
  - by eapply free_range_wf.
Qed.

(** The device state [canvas_probe] starts from. *)
Definition canvas_info_init (hw : M) : canvas_device_info M :=
  mk_canvas_device_info (replicate 256 canvas_zero) hw.

Lemma canvas_info_init_wf hw : pool_wf (canvas_info_init hw).
Proof.
  split; [done|]. by apply (Forall_replicate lut_consistent 256%nat canvas_zero).
Qed.

(** ** Coupling with the hardware table *)

Context {ML : MesonCanvasLaws M}.

(** Every canvas the pool marks used is owned in the hardware. *)
Definition used_owned info : Prop :=
  forall i c, aget (canvasPool info) i = Some c -> c_used c <> 0 -> i ∈ mc_owned (meson_canvas info).

(** Canvas [i] of the hardware table holds what the pool says. *)
Definition mirrored info (i : Z) : Prop :=
  exists c, aget (canvasPool info) i = Some c /\ mc_lut (meson_canvas info) i = geometry c.

Lemma canvas_exec_coupled info op :
  length (canvasPool info) = 256%nat -> used_owned info ->
  used_owned (canvas_exec info op) /\
  (forall j, mirrored info j -> mirrored (canvas_exec info op) j) /\
  (op_valid info op = true -> mirrored (canvas_exec info op) (op_target op)).
Proof.
  intros Hlen Ho.
  destruct (canvas_exec_shape info op) as [[Hv ->]|(Hv & c & c' & Hc & _ & Hu & _ & ->)].
  { rewrite Hv. done. }
  apply op_valid_target, CANVAS_VALID_get in Hv as (Hr & c0 & Hc0 & Hused).
  rewrite Hc in Hc0. injection Hc0 as <-. set (i := op_target op) in *.
  assert (i ∈ mc_owned (meson_canvas info)) as Hi by eauto.
  assert (aget (<[Z.to_nat i:=c']> (canvasPool info)) i = Some c') as Hget.
  { rewrite aget_lookup by lia. apply list_lookup_insert_eq. lia. }
  assert (forall j, j <> i -> aget (<[Z.to_nat i:=c']> (canvasPool info)) j
                              = aget (canvasPool info) j) as Hne.
  { intros j Hj. unfold aget. case_goal; [|done]. b2p. apply list_lookup_insert_ne. lia. }
  unfold store_canvas, used_owned, mirrored; simpl. rewrite u8_small by lia.
  rewrite config_owned. split_and!.
  - intros j d. destruct (decide (j = i)) as [->|Hj]; [done|]. rewrite Hne by done. apply Ho.
  - intros j (d & Hd & Hl). rewrite config_lut by done.
    destruct (decide (j = i)) as [->|Hj].
    + exists c'. rewrite bool_decide_eq_true_2 by done. done.
    + rewrite bool_decide_eq_false_2, Hne by done. eauto.
  - intros _. exists c'. rewrite config_lut by done.
    rewrite bool_decide_eq_true_2 by done. done.
Qed.

(** ** Allocation and release of ranges *)

Lemma free_ones_owned l info :
  mc_owned (meson_canvas (foldl free_one info l)) =
  mc_owned (meson_canvas info) ∖ list_to_set l.
Proof.
  revert info. induction l as [|j l IH]; intros info; simpl; [set_solver|].
  rewrite IH. simpl. rewrite free_owned. set_solver.
Qed.

Lemma alloc_range_step_measure start last :
  0 <= start <= last -> last < 255 ->
  forall s s' : Z * canvas_device_info M, start <= fst s <= last + 1 ->
    alloc_canvas_range_body start last s = inl s' ->
    start <= fst s' <= last + 1 /\ (Z.to_nat (last + 1 - fst s') < Z.to_nat (last + 1 - fst s))%nat.
Proof.
  intros Hr Hl [i s] [i' s'] Hi Hb. unfold alloc_canvas_range_body in Hb; simpl in *.
  repeat case_hyp Hb; inv_some. b2p. rewrite u8_small by lia. lia.
Qed.

(** The pool [p'] is [p] with the [used] flags of [lo .. hi-1] set to [u]. *)
Definition marked_range (u lo hi : Z) (p p' : list canvas_s) : Prop :=
  forall j, aget p' j =
    (fun c => if (lo <=? j) && (j <? hi) then set_used c u else c) <$> aget p j.

Lemma marked_range_refl u lo p : marked_range u lo lo p p.
Proof.
  intros j. destruct (aget p j); simpl; [|done]. case_goal; [b2p; lia|done].
Qed.

Lemma aget_alter (p : list canvas_s) f i j :
  0 <= i -> aget (alter f (Z.to_nat i) p) j = (if j =? i then f <$> aget p j else aget p j).
Proof.
  intros Hi. unfold aget. destruct (Z.leb_spec 0 j); [|by case_goal].
  rewrite list_lookup_alter. destruct (Z.eqb_spec j i).
  - subst. by rewrite decide_True.
  - by rewrite decide_False by lia.
Qed.

Lemma marked_range_step u lo hi p p' :
  0 <= lo <= hi -> marked_range u lo hi p p' ->
  marked_range u lo (hi + 1) p (alter (fun c => set_used c u) (Z.to_nat hi) p').
Proof.
  intros Hr Hm j. rewrite aget_alter by lia. rewrite (Hm j).
  destruct (aget p j); simpl; [|by case_goal].
  destruct (Z.eqb_spec j hi); subst; simpl.
  - rewrite (proj2 (Z.leb_le lo hi)), Z.ltb_irrefl, (proj2 (Z.ltb_lt hi (hi + 1))) by lia. done.
  - destruct (Z.ltb_spec j hi), (Z.ltb_spec j (hi + 1)); try lia; done.
Qed.

Lemma free_ones_marked lo n info :
  0 <= lo -> marked_range 0 lo (lo + Z.of_nat n) (canvasPool info)
               (canvasPool (foldl free_one info (seqZ lo (Z.of_nat n)))).
Proof.
  intros Hlo. induction n as [|n IH].
  - rewrite Z.add_0_r. apply marked_range_refl.
  - rewrite seqZ_S, foldl_app, Nat2Z.inj_succ. unfold Z.succ.
    rewrite Z.add_assoc. apply marked_range_step; [lia|done].
Qed.

Lemma marked_range_over u v lo hi p p' p'' :
  marked_range u lo hi p p' -> marked_range v lo hi p' p'' -> marked_range v lo hi p p''.
Proof.
  intros H1 H2 j. rewrite (H2 j), (H1 j). destruct (aget p j); simpl; [|done].
  by case_goal.
Qed.

(** The indices [lo .. hi-1]. *)
Definition zrange (lo hi : Z) : gset Z := list_to_set (seqZ lo (hi - lo)).

Lemma elem_of_zrange j lo hi : j ∈ zrange lo hi <-> lo <= j < hi.
Proof. unfold zrange. rewrite elem_of_list_to_set, elem_of_seqZ. lia. Qed.

(** The state of the allocation loop at index [i]. *)
Definition alloc_inv info0 (start last : Z) (s : Z * canvas_device_info M) : Prop :=
  let '(i, info) := s in
  start <= i <= last + 1 /\
  marked_range 1 start i (canvasPool info0) (canvasPool info) /\
  mc_owned (meson_canvas info) = zrange start i ∪ mc_owned (meson_canvas info0) /\
  mc_owned (meson_canvas info0) ## zrange start i.

Lemma alloc_inv_step info0 start last s s' :
  0 <= start <= last -> last < 255 ->
  alloc_inv info0 start last s -> alloc_canvas_range_body start last s = inl s' ->
  alloc_inv info0 start last s'.
Proof.
  intros Hr Hl Hinv Hb. destruct s as [i info], s' as [i' info'].
  destruct Hinv as (Hi & Hm & Ho & Hd). unfold alloc_canvas_range_body in Hb.
  destruct (i <=? last) eqn:El; [|done].
  destruct (meson_canvas_alloc_spec (meson_canvas info) i) as [err hw] eqn:Ea.
  destruct (c_true err) eqn:Ee; inv_some. unfold c_true in Ee. b2p. subst err.
  apply alloc_spec_ok in Ea as (Hni & Ho' & _). rewrite u8_small by lia.
  split_and!; [lia..|apply marked_range_step; [lia|done]| |].
  - simpl. rewrite Ho', Ho. apply set_eq. intros x.
    rewrite !elem_of_union, !elem_of_zrange, elem_of_singleton.
    destruct (decide (x ∈ mc_owned (meson_canvas info0))); intuition lia.
  - intros x Hx Hz. apply elem_of_zrange in Hz.
    destruct (decide (x = i)) as [->|].
    + apply Hni. rewrite Ho. set_solver.
    + apply (Hd x Hx). apply elem_of_zrange. lia.
Qed.

(** What the loop has established when it returns. *)
Definition alloc_post info0 (start last : Z) (r : Z * canvas_device_info M) : Prop :=
  let '(ret, info) := r in
  (ret = 0 /\ marked_range 1 start (last + 1) (canvasPool info0) (canvasPool info) /\
   mc_owned (meson_canvas info) = zrange start (last + 1) ∪ mc_owned (meson_canvas info0)) \/
  (ret = -1 /\ (exists i, start <= i <= last /\
     marked_range 0 start i (canvasPool info0) (canvasPool info)) /\
   mc_owned (meson_canvas info) = mc_owned (meson_canvas info0)).

Lemma alloc_inv_end info0 start last :
  0 <= start <= last -> forall s r,
  alloc_inv info0 start last s -> alloc_canvas_range_body start last s = inr r ->
  alloc_post info0 start last r.
Proof.
  intros Hr [i s] [r s'] (Hi & Hm & Ho & Hd) Hb. unfold alloc_canvas_range_body in Hb.
  destruct (i <=? last) eqn:El.
  - destruct (meson_canvas_alloc_spec (meson_canvas s) i) as [err hw] eqn:Ea.
    destruct (c_true err) eqn:Ee; inv_some. right. unfold c_true in Ee. b2p.
    apply alloc_spec_err in Ea as [Ho' _]; [|done]. split; [done|]. split.
    + exists i. split; [lia|]. eapply marked_range_over; [exact Hm|].
      pose proof (free_ones_marked start (Z.to_nat (i - start))
                    (mk_canvas_device_info (canvasPool s) hw)) as Hf.
      rewrite Z2Nat.id in Hf by lia. replace (start + (i - start)) with i in Hf by lia.
      apply Hf. lia.
    + rewrite free_ones_owned. simpl. rewrite Ho', Ho. unfold zrange in *. set_solver.
  - inv_some. left. b2p. assert (i = last + 1) as -> by lia. done.
Qed.

Lemma alloc_canvas_range_outcome info start last :
  0 <= start <= last -> last < 255 ->
  exists ret info', alloc_canvas_range 256 info start last = Some (ret, info') /\
    alloc_post info start last (ret, info').
Proof.
  intros Hr Hl.
  destruct (loop_terminates (alloc_canvas_range_body start last)
              (fun s => start <= fst s <= last + 1) (fun s => Z.to_nat (last + 1 - fst s))
              (alloc_range_step_measure start last Hr Hl) 256%nat (start, info))
    as [[ret info'] Hrun]; [simpl; lia..|].
  exists ret, info'. split; [exact Hrun|].
  apply (loop_invariant _ (alloc_inv info start last) (alloc_post info start last)) in Hrun.
  - exact Hrun.
  - intros. by eapply alloc_inv_step.
  - apply alloc_inv_end; lia.
  - split_and!; [lia..|apply marked_range_refl| |]; unfold zrange; rewrite Z.sub_diag; set_solver.
Qed.

End Invariant.

(** ** Correctness of the canvas driver *)

(** A meson-canvas device, for concrete runs: the canvases it owns and the
    table it has been given. *)
Record sim_canvas := mk_sim { sim_owned : gset Z; sim_lut : Z -> list Z }.

#[export] Instance sim_meson : MesonCanvas sim_canvas := {
  meson_canvas_alloc_spec m i :=
    if bool_decide (i ∈ sim_owned m) then (- EBUSY, m)
    else (0, mk_sim ({[i]} ∪ sim_owned m) (sim_lut m));
  meson_canvas_free m i := mk_sim (sim_owned m ∖ {[i]}) (sim_lut m);
  meson_canvas_config m i a w h wr b e :=
    if bool_decide (i ∈ sim_owned m)
    then mk_sim (sim_owned m) (fun j => if bool_decide (j = i) then [a; w; h; wr; b; e] else sim_lut m j)
    else m }.

#[export] Instance sim_meson_laws : MesonCanvasLaws sim_canvas.
Proof.
  refine {| mc_owned := sim_owned; mc_lut := sim_lut |}.
  - intros m i m'. simpl. case_bool_decide; intros [= <-]. done.
  - intros m i e m'. simpl. case_bool_decide; intros [= <- <-]; done.
  - done.
  - done.
  - intros. simpl. by case_bool_decide.
  - intros m i a w h wr b e j Hi. simpl. by rewrite bool_decide_eq_true_2.
Defined.

(** C30. Canvas descriptor round trip: within the address and width range the entry
    has room for, decoding the 64-bit entry by the documented layout gives back
    the address in 8-byte units, the height, the block mode and the endian control,
    whatever wrapping is asked for.  The width in 8-byte units comes back with the
    two bits of the wrapping or-ed into its bits 3 and 4, so it is the one given
    when no wrapping is asked for; the wrap field of the layout is always 0. *)
Theorem canvas_lut_roundtrip addr width height wrap blkmode endian :
  0 <= addr < 2 ^ 32 - 7 -> 0 <= width < 2 ^ 15 - 7 -> 0 <= height < 2 ^ 13 ->
  0 <= blkmode < 4 -> 0 <= endian < 16 ->
  let e := lut_decode (lut_word (canvas_lut_data_build addr width height wrap blkmode endian)) in
  lut_addr e = units8 addr /\ lut_height e = height /\ lut_blkmode e = blkmode /\ lut_endian e = endian /\
  lut_wrap e = 0 /\ lut_width e = Z.lor (units8 width) (Z.shiftl (wrap mod 4) 3) /\
  (wrap = CANVAS_ADDR_NOWRAP -> lut_width e = units8 width).
Proof.
  intros. subst e. rewrite lut_decode_build by done. cbn [lut_addr lut_height lut_blkmode lut_endian lut_wrap lut_width].
  rewrite !Z.mod_small by lia. split_and!; try done. intros ->. by rewrite Z.shiftl_0_l, Z.lor_0_r.
Qed.

Lemma canvas_lut_roundtrip_witness :
  let e := lut_decode (lut_word (canvas_lut_data_build 0x10000000 1920 1088 CANVAS_ADDR_WRAPY 1 7)) in
  lut_addr e = 0x2000000 /\ lut_height e = 1088 /\ lut_blkmode e = 1 /\ lut_endian e = 7 /\ lut_wrap e = 0 /\
  lut_width e = Z.lor 240 16 /\ (CANVAS_ADDR_WRAPY = CANVAS_ADDR_NOWRAP -> lut_width e = 240).
Proof. apply (canvas_lut_roundtrip 0x10000000 1920 1088 CANVAS_ADDR_WRAPY 1 7); lia. Defined.

(** Wrap control: whatever wrapping is asked for, the documented wrap bits 54
    and 55 of the entry stay 0, and the two wrap bits are or-ed into bits 3 and
    4 of the width field instead. *)
Theorem canvas_lut_wrap_in_width addr width height wrap blkmode endian :
  0 <= addr < 2 ^ 32 - 7 -> 0 <= width < 2 ^ 15 - 7 ->
  let e := lut_decode (lut_word
             (canvas_lut_data_build addr width height wrap blkmode endian)) in
  lut_wrap e = 0 /\
  lut_width e = Z.lor (units8 width) (Z.shiftl (wrap mod 4) 3).
Proof. intros. subst e. by rewrite lut_decode_build. Qed.

Lemma canvas_lut_wrap_in_width_witness :
  let e := lut_decode (lut_word
             (canvas_lut_data_build 0x10000000 0 1088 CANVAS_ADDR_WRAPY 0 0)) in
  lut_wrap e = 0 /\ lut_width e = 16.
Proof. apply (canvas_lut_wrap_in_width 0x10000000 0 1088 CANVAS_ADDR_WRAPY 0 0); lia. Defined.

(** Driver invariant: in every state reached from the zeroed pool by
    configuration calls and range allocations and releases, the pool has its
    256 descriptors and the cached table entry of each one is the entry of its
    own fields. *)
Theorem canvas_reachable_wf {M} `{MesonCanvas M} hw (info : canvas_device_info M) :
  rtc canvas_step (canvas_info_init hw) info -> pool_wf info.
Proof.
  intros Hr. pose proof (canvas_info_init_wf hw) as Hwf. revert Hwf.
  induction Hr; eauto using canvas_step_wf.
Qed.

Definition sim_init : canvas_device_info sim_canvas :=
  canvas_info_init (mk_sim ∅ (fun _ => [])).

Lemma canvas_reachable_wf_witness :
  pool_wf (canvas_exec sim_init (OpConfig 3 0x1000 64 64 0 0)).
Proof.
  apply (canvas_reachable_wf (mk_sim ∅ (fun _ => []))). apply rtc_once, step_op.
Defined.

(** C31. Hardware coupling: starting from a state where used canvases are owned, a
    configuration call keeps that, leaves every table entry that agreed with
    the pool in agreement, and, when its checks pass, brings the target's table
    entry into agreement with the pool. *)
Theorem canvas_exec_mirrors {M} `{ML : MesonCanvasLaws M} (info : canvas_device_info M) op :
  length (canvasPool info) = 256%nat -> used_owned info ->
  used_owned (canvas_exec info op) /\
  (forall j, mirrored info j -> mirrored (canvas_exec info op) j) /\
  (op_valid info op = true -> mirrored (canvas_exec info op) (op_target op)).
Proof. apply canvas_exec_coupled. Qed.

(** Range allocation is all or nothing: for a range below 255 the loop returns;
    on success exactly the range is added to the owned canvases and marked
    used; on failure (-1) nothing is left owned that was not before, and the
    canvases tried are marked unused again. *)
Theorem alloc_canvas_range_all_or_nothing {M} `{ML : MesonCanvasLaws M}
    (info : canvas_device_info M) start last :
  0 <= start <= last -> last < 255 ->
  exists ret info', alloc_canvas_range 256 info start last = Some (ret, info') /\
  ((ret = 0 /\ marked_range 1 start (last + 1) (canvasPool info) (canvasPool info') /\
    mc_owned (meson_canvas info') = zrange start (last + 1) ∪ mc_owned (meson_canvas info)) \/
   (ret = -1 /\ (exists i, start <= i <= last /\
      marked_range 0 start i (canvasPool info) (canvasPool info')) /\
    mc_owned (meson_canvas info') = mc_owned (meson_canvas info))).
Proof.
  intros Hr Hl. destruct (alloc_canvas_range_outcome info start last Hr Hl) as (r & info' & E & Hp).
  exists r, info'. split; [exact E|exact Hp].
Qed.

Lemma alloc_canvas_range_all_or_nothing_witness :
  exists info', alloc_canvas_range 256 sim_init CANVAS_INDEX_START CANVAS_INDEX_END
                = Some (0, info') /\
    sim_owned (meson_canvas info') = zrange 0 0xf0 ∪ ∅.
Proof.
  destruct (alloc_canvas_range_all_or_nothing sim_init CANVAS_INDEX_START CANVAS_INDEX_END)
    as (ret & info' & Hrun & [(-> & _ & Ho)|(-> & _)]).
  - unfold CANVAS_INDEX_START, CANVAS_INDEX_END; lia.
  - unfold CANVAS_INDEX_END; lia.
  - exists info'. split; [exact Hrun|exact Ho].
  - exfalso. assert (fst <$> alloc_canvas_range 256 sim_init CANVAS_INDEX_START CANVAS_INDEX_END
                     = Some 0) as H0 by (vm_compute; reflexivity).
    rewrite Hrun in H0. discriminate H0.
Defined.

(** The loop counter is a uint8_t: for a range that ends at 255 every
    allocation succeeding, the loop wraps to 0 and never returns. *)
Theorem alloc_canvas_range_255_diverges {M} `{MesonCanvas M}
    (info : canvas_device_info M) fuel start :
  0 <= start <= 255 ->
  (forall m i, exists m', meson_canvas_alloc_spec m i = (0, m')) ->
  alloc_canvas_range fuel info start 255 = None.
Proof.
  intros Hs Hok. apply (loop_diverges _ (fun s => 0 <= fst s <= 255)); [|done].
  intros [i s] Hi. simpl in Hi. unfold alloc_canvas_range_body.
  rewrite (proj2 (Z.leb_le i 255)) by lia.
  destruct (Hok (meson_canvas s) i) as [m' ->]. simpl.
  eexists. split; [done|]. simpl. pose proof (u8_range (i + 1)). lia.
Qed.

#[local] Instance lax_meson : MesonCanvas unit := {
  meson_canvas_alloc_spec _ _ := (0, tt);
  meson_canvas_free _ _ := tt;
  meson_canvas_config _ _ _ _ _ _ _ _ := tt }.

Lemma alloc_canvas_range_255_diverges_witness :
  alloc_canvas_range 1000 (canvas_info_init tt) 0xf0 255 = None.
Proof.
  apply (alloc_canvas_range_255_diverges (canvas_info_init tt) 1000 0xf0); [lia|].
  intros. by exists tt.
Defined.

Lemma canvas_exec_mirrors_witness :
  let info := mk_canvas_device_info
    (<[3%nat := set_used canvas_zero 1]> (replicate 256 canvas_zero))
    (mk_sim {[3]} (fun _ => [])) in
  mirrored (canvas_exec info (OpConfig 3 0x1000 64 64 0 0)) 3.
Proof.
  intros info. refine (proj2 (proj2 (canvas_exec_mirrors info (OpConfig 3 0x1000 64 64 0 0) _ _)) _).
  - done.
  - intros i c Hc Hu. unfold aget in Hc. case_hyp Hc; [|done]. unfold info in Hc. cbn [canvasPool] in Hc.
    destruct (decide (i = 3)) as [->|Hi]; [set_solver|].
    assert (Z.to_nat i <> 3%nat) by (b2p; lia).
    rewrite list_lookup_insert_ne in Hc by done.
    apply lookup_replicate in Hc as [-> _]. done.
  - done.
Defined.
