(* ===== verification/CanvasPool.v ===== *)
(** * Canvas index manager (src/a311d/soc/amlogic/canvas/canvas_mgr.c)

    The pool that hands out canvas indices: a bitmap of the indices in use,
    the owner information of each index, a next-fit cursor, the allocation of
    runs of consecutive indices packed into one u32, and tables of such runs.
    A result [None] means undefined behaviour (an access outside an array) or a
    spent loop bound; the theorems show that neither happens.

    The bitmap is one number: bit [i] of [canvas_map] is bit [i] of the array of
    unsigned longs.  [jiffies] is an argument of the operations that read it. *)

From stdpp Require Import base numbers list option strings sets.
From S2P Require Import Prelude Canvas.

Definition CANVAS_MAX_NUM : Z := 256.

Record canvas_info := mk_canvas_info {
  owner : option string; alloc_time : Z; oldowner : option string; fixed_onwer : Z }.

Record canvas_pool := mk_canvas_pool {
  canvas_max : Z;
  free_num : Z;
  info : list canvas_info;
  canvas_map : Z;
  next_alloced_index : Z;
  next_dump_index : Z;
  last_cat_map : Z }.

(** [enum canvas_map_type_e] and the values of its constants; a C enum holds
    other integers too, which the switches send to their default case. *)
Inductive canvas_map_type_e :=
| CANVAS_MAP_TYPE_1 | CANVAS_MAP_TYPE_NV21 | CANVAS_MAP_TYPE_YUV | CANVAS_MAP_TYPE_4
| CANVAS_MAP_TYPE_other (v : Z).

Definition map_type_val (t : canvas_map_type_e) : Z :=
  match t with
  | CANVAS_MAP_TYPE_1 => 1 | CANVAS_MAP_TYPE_NV21 => 2
  | CANVAS_MAP_TYPE_YUV => 3 | CANVAS_MAP_TYPE_4 => 4
  | CANVAS_MAP_TYPE_other v => v
  end.

(** Field updates. *)
Definition with_info (p : canvas_pool) l :=
  mk_canvas_pool (canvas_max p) (free_num p) l (canvas_map p) (next_alloced_index p)
    (next_dump_index p) (last_cat_map p).
Definition with_map (p : canvas_pool) m :=
  mk_canvas_pool (canvas_max p) (free_num p) (info p) m (next_alloced_index p)
    (next_dump_index p) (last_cat_map p).
Definition with_free_num (p : canvas_pool) n :=
  mk_canvas_pool (canvas_max p) n (info p) (canvas_map p) (next_alloced_index p)
    (next_dump_index p) (last_cat_map p).
Definition with_next (p : canvas_pool) n :=
  mk_canvas_pool (canvas_max p) (free_num p) (info p) (canvas_map p) n
    (next_dump_index p) (last_cat_map p).
Definition with_dump (p : canvas_pool) d t :=
  mk_canvas_pool (canvas_max p) (free_num p) (info p) (canvas_map p) (next_alloced_index p) d t.

(** ** Kernel bitmap operations *)

Fixpoint find_zero_from (n : nat) (map i : Z) : option Z :=
  match n with
  | O => None
  | S n => if Z.testbit map i then find_zero_from n map (i + 1) else Some i
  end.

(** First clear bit at or after [offset] and below [size], else [size]. *)
Definition find_next_zero_bit (map size offset : Z) : Z :=
  if (offset <? 0) || (size <=? offset) then size
  else default size (find_zero_from (Z.to_nat (size - offset)) map offset).

(** The bitmap has [CANVAS_MAX_NUM / BITS_PER_LONG + 1] words of 64 bits. *)
Definition map_bits : Z := (CANVAS_MAX_NUM / 64 + 1) * 64.

Definition test_and_set_bit (i map : Z) : option (bool * Z) :=
  if (0 <=? i) && (i <? map_bits) then Some (Z.testbit map i, Z.setbit map i) else None.

Definition test_and_clear_bit (i map : Z) : option (bool * Z) :=
  if (0 <=? i) && (i <? map_bits) then Some (Z.testbit map i, Z.clearbit map i) else None.

(** ** Allocation of one canvas *)

Definition VALID_CANVAS (p : canvas_pool) (n : Z) : bool := (0 <=? n) && (n <? canvas_max p).

Definition canvas_pool_canvas_num (p : canvas_pool) : Z := canvas_max p.

(** The section under the lock: take bit [i] and record its owner. *)
Definition take_canvas (p : canvas_pool) (jiffies : Z) (own : string) (i : Z)
  : option (option canvas_pool) :=
  '(was_set, map) ← test_and_set_bit i (canvas_map p);
  if (was_set : bool) then Some None
  else
    ci ← aget (info p) i;
    l ← aset (info p) i (mk_canvas_info (Some own) jiffies (Some own) (fixed_onwer ci));
    Some (Some (with_info (with_map p map) l)).

(** One turn of the do-while loop; the state is [start_index] and [looped],
    the result [index] and the pool. *)
Definition alloc_canvas_body (p : canvas_pool) (jiffies : Z) (own : string) (s : Z * bool)
  : (Z * bool) + option (Z * canvas_pool) :=
  let '(start_index, looped) := s in
  let i := find_next_zero_bit (canvas_map p) (canvas_max p) start_index in
  if negb (VALID_CANVAS p i) then
    if negb looped then inl (1, true) else inr (Some (-1, p))
  else
    match take_canvas p jiffies own i with
    | None => inr None
    | Some None => inl (start_index, looped)
    | Some (Some p') => inr (Some (i, p'))
    end.

(** Cursor and counter after the loop. *)
Definition advance_cursor (p : canvas_pool) (index : Z) : canvas_pool :=
  let p := with_next p (if index + 1 <? canvas_max p then index + 1 else 1) in
  with_free_num p (s32 (free_num p - 1)).

(** The loop turns at most twice when nobody else changes the bitmap. *)
Definition alloc_fuel : nat := 2.

Definition canvas_pool_map_alloc_canvas_in (p : canvas_pool) (jiffies : Z) (own : string)
  : option (Z * canvas_pool) :=
  let start_index := next_alloced_index p in
  let looped := start_index <=? 1 in
  r ← loop alloc_fuel (alloc_canvas_body p jiffies own) (start_index, looped);
  '(index, p) ← r;
  if 0 <? index then Some (index, advance_cursor p index) else Some (index, p).

Definition canvas_pool_map_alloc_canvas := canvas_pool_map_alloc_canvas_in.

(** ** Release of one canvas *)

Definition canvas_pool_map_free_canvas_in (p : canvas_pool) (index : Z)
  : option (Z * canvas_pool) :=
  if negb (VALID_CANVAS p index) then Some (-1, p)
  else
    '(_, map) ← test_and_clear_bit index (canvas_map p);
    ci ← aget (info p) index;
    l ← aset (info p) index (mk_canvas_info None 0 (owner ci) (fixed_onwer ci));
    Some (0, with_free_num (with_info (with_map p map) l) (s32 (free_num p + 1))).

Definition canvas_pool_map_free_canvas := canvas_pool_map_free_canvas_in.

(** Call for effect. *)
Definition free_canvas_ (p : canvas_pool) (index : Z) : option canvas_pool :=
  snd <$> canvas_pool_map_free_canvas p index.

(** ** Runs of consecutive canvases *)

(** The allocations of one attempt, in the order of the code. *)
Definition alloc_run (p : canvas_pool) (jiffies : Z) (own : string) (t : canvas_map_type_e)
  : option (Z * Z * Z * Z * canvas_pool) :=
  let alloc p := canvas_pool_map_alloc_canvas_in p jiffies own in
  match t with
  | CANVAS_MAP_TYPE_4 =>
      '(canvas1, p) ← alloc p; '(canvas2, p) ← alloc p;
      '(canvas3, p) ← alloc p; '(canvas4, p) ← alloc p;
      Some (canvas1, canvas2, canvas3, canvas4, p)
  | CANVAS_MAP_TYPE_YUV =>
      '(canvas2, p) ← alloc p; '(canvas3, p) ← alloc p; '(canvas4, p) ← alloc p;
      Some (0, canvas2, canvas3, canvas4, p)
  | CANVAS_MAP_TYPE_NV21 =>
      '(canvas3, p) ← alloc p; '(canvas4, p) ← alloc p;
      Some (0, 0, canvas3, canvas4, p)
  | CANVAS_MAP_TYPE_1 =>
      '(canvas4, p) ← alloc p; Some (0, 0, 0, canvas4, p)
  | CANVAS_MAP_TYPE_other _ => Some (0, 0, 0, 0, p)
  end.

(** [found] and [canvasval]. *)
Definition run_found (t : canvas_map_type_e) (canvas1 canvas2 canvas3 canvas4 : Z) : bool :=
  match t with
  | CANVAS_MAP_TYPE_4 =>
      (0 <? canvas1) && (canvas2 =? canvas1 + 1) && (canvas3 =? canvas2 + 1)
      && (canvas4 =? canvas3 + 1)
  | CANVAS_MAP_TYPE_YUV =>
      (0 <? canvas2) && (canvas3 =? canvas2 + 1) && (canvas4 =? canvas3 + 1)
  | CANVAS_MAP_TYPE_NV21 => (0 <? canvas3) && (canvas4 =? canvas3 + 1)
  | CANVAS_MAP_TYPE_1 => 0 <? canvas4
  | CANVAS_MAP_TYPE_other _ => false
  end.

Definition run_val (t : canvas_map_type_e) (canvas1 canvas2 canvas3 canvas4 : Z) : Z :=
  u32 match t with
      | CANVAS_MAP_TYPE_4 =>
          Z.lor (Z.lor (Z.lor canvas1 (Z.shiftl canvas2 8)) (Z.shiftl canvas3 16))
            (Z.shiftl canvas4 24)
      | CANVAS_MAP_TYPE_YUV =>
          Z.lor (Z.lor canvas2 (Z.shiftl canvas3 8)) (Z.shiftl canvas4 16)
      | CANVAS_MAP_TYPE_NV21 =>
          Z.lor (Z.lor canvas3 (Z.shiftl canvas4 8)) (Z.shiftl canvas4 16)
      | CANVAS_MAP_TYPE_1 => canvas4
      | CANVAS_MAP_TYPE_other _ => 0
      end.

(** [if (canvas > 0) canvas_pool_map_free_canvas (canvas)] *)
Definition free_if_pos (p : canvas_pool) (canvas : Z) : option canvas_pool :=
  if 0 <? canvas then free_canvas_ p canvas else Some p.

(** One turn of the do-while loop of the run allocation: [inl] when it has to
    be tried again, [inr canvasval] when a run was found. *)
Definition try_run (p : canvas_pool) (jiffies : Z) (own : string) (t : canvas_map_type_e)
    (start : Z) : option (canvas_pool + Z * canvas_pool) :=
  '(canvas1, canvas2, canvas3, canvas4, p) ← alloc_run p jiffies own t;
  if run_found t canvas1 canvas2 canvas3 canvas4
  then Some (inr (run_val t canvas1 canvas2 canvas3 canvas4, p))
  else
    p ← free_if_pos p canvas1; p ← free_if_pos p canvas2;
    p ← free_if_pos p canvas3; p ← free_if_pos p canvas4;
    Some (inl (with_next p
      (if start + 1 <? canvas_max p - map_type_val t then start + 1 else 1))).

(** [do ... while (!found && (found_retry++ < canvas_max))]: [n] more turns
    are allowed after this one. *)
Fixpoint run_retry (n : nat) (p : canvas_pool) (jiffies : Z) (own : string)
    (t : canvas_map_type_e) (start : Z) : option (Z * Z * canvas_pool) :=
  r ← try_run p jiffies own t start;
  match r with
  | inr (canvasval, p) => Some (0, canvasval, p)
  | inl p => match n with
             | O => Some (-1, 0, p)
             | S n => run_retry n p jiffies own t start
             end
  end.

(** Returns the C result, the value stored through [canvas] on success, and
    the pool. *)
Definition canvas_pool_map_alloc_canvas_continue_set (p : canvas_pool) (jiffies : Z)
    (own : string) (t : canvas_map_type_e) : option (Z * Z * canvas_pool) :=
  run_retry (Z.to_nat (canvas_max p)) p jiffies own t (next_alloced_index p).

(** ** Fixed canvases *)

Definition canvas_pool_init : canvas_pool :=
  mk_canvas_pool CANVAS_MAX_NUM 0
    (replicate (Z.to_nat CANVAS_MAX_NUM) (mk_canvas_info None 0 None 0))
    0 (CANVAS_MAX_NUM / 2) 0 0.

Definition register_one (p : canvas_pool) (jiffies : Z) (own : string) (index : Z)
  : option canvas_pool :=
  '(_, map) ← test_and_set_bit index (canvas_map p);
  l ← aset (info p) index (mk_canvas_info (Some own) jiffies None 1);
  Some (with_info (with_map p map) l).

Fixpoint register_from (n : nat) (p : canvas_pool) (jiffies : Z) (own : string) (index : Z)
  : option canvas_pool :=
  match n with
  | O => Some p
  | S n => p ← register_one p jiffies own index; register_from n p jiffies own (index + 1)
  end.

(** [for (i = 0; i < end - start_index + 1; i++)] *)
Definition canvas_pool_register_const_canvas (p : canvas_pool) (jiffies : Z)
    (start_index last : Z) (own : string) : option (Z * canvas_pool) :=
  p ← register_from (Z.to_nat (last - start_index + 1)) p jiffies own start_index;
  Some (0, p).

(** The ranges of [canvas_pool_config], in its order. *)
Definition const_ranges : list (Z * Z * string) :=
  [ (0, 0x25, "amvdec"); (0x26, 0x39, "vdin"); (0x40, 0x48, "osd"); (0x58, 0x6f, "display");
    (0x70, 0x77, "ppmgr"); (0x78, 0xbf, "amvdec"); (0xc0, 0xd7, "amlvideo2");
    (0xe4, 0xef, "encoder"); (0xf0, 0xff, "reserve_new") ]%string.

Fixpoint register_all (p : canvas_pool) (jiffies : Z) (l : list (Z * Z * string))
  : option canvas_pool :=
  match l with
  | [] => Some p
  | (start_index, last, own) :: l =>
      '(_, p) ← canvas_pool_register_const_canvas p jiffies start_index last own;
      register_all p jiffies l
  end.

Definition canvas_pool_config (jiffies : Z) : option canvas_pool :=
  register_all canvas_pool_init jiffies const_ranges.

(** ** Queries *)

(** Returns the C result and, on success, the information stored at [info]. *)
Definition canvas_pool_get_canvas_info (p : canvas_pool) (index : Z)
  : option (Z * option canvas_info) :=
  if negb (VALID_CANVAS p index) then Some (-1, None)
  else ci ← aget (info p) index; Some (0, Some ci).

(** The canvases whose information is printed. *)
Definition canvas_pool_dump_canvas_info (p : canvas_pool) : list (Z * canvas_info) :=
  omap (fun i =>
    match canvas_pool_get_canvas_info p i with
    | Some (ret, Some ci) =>
        if (ret =? 0) && Z.testbit (canvas_map p) i then Some (i, ci) else None
    | _ => None
    end) (seqZ 0 (canvas_max p)).

Definition canvas_pool_canvas_alloced (p : canvas_pool) (index : Z) : Z :=
  if (index <? 0) || (canvas_max p <=? index) then 0
  else Z.b2z (Z.testbit (canvas_map p) index).

(** [for (i = 0; i < canvas_max && j < size; i++)]; [acc] is [tab[0 .. j-1]].
    [strcmp] on a NULL owner is undefined. *)
Fixpoint static_from (n : nat) (p : canvas_pool) (own : string) (size : Z) (i : Z) (acc : list Z)
  : option (list Z) :=
  match n with
  | O => Some acc
  | S n =>
      if Z.of_nat (length acc) <? size then
        ci ← aget (info p) i;
        if Z.testbit (canvas_map p) i && c_true (fixed_onwer ci) then
          o ← owner ci;
          static_from n p own size (i + 1)
            (if bool_decide (o = own) then acc ++ [u8 i] else acc)
        else static_from n p own size (i + 1) acc
      else Some acc
  end.

(** Returns the count and the indices stored in [tab]. *)
Definition canvas_pool_get_static_canvas_by_name (p : canvas_pool) (own : string) (size : Z)
  : option (Z * list Z) :=
  tab ← static_from (Z.to_nat (canvas_max p)) p own size 0 [];
  Some (Z.of_nat (length tab), tab).

(** ** Tables of runs *)

(** The four bytes of a table entry. *)
Definition canvas_0 (v : Z) : Z := Z.land v 0xff.
Definition canvas_1 (v : Z) : Z := Z.land (Z.shiftr v 8) 0xff.
Definition canvas_2 (v : Z) : Z := Z.land (Z.shiftr v 16) 0xff.
Definition canvas_3 (v : Z) : Z := Z.land (Z.shiftr v 24) 0xff.

(** [if (guard) canvas_pool_map_free_canvas (c)] *)
Definition free_when (guard : bool) (p : canvas_pool) (c : Z) : option canvas_pool :=
  if guard then free_canvas_ p c else Some p.

Definition free_table_entry (p : canvas_pool) (v : Z) : option canvas_pool :=
  let canvas1 := canvas_0 v in
  let canvas2 := canvas_1 v in
  let canvas3 := canvas_2 v in
  let canvas4 := canvas_3 v in
  p ← free_when (0 <=? canvas1) p canvas1;
  p ← free_when ((0 <=? canvas2) && negb (canvas2 =? canvas1)) p canvas2;
  p ← free_when ((0 <=? canvas3) && negb (canvas3 =? canvas2) && negb (canvas3 =? canvas1))
        p canvas3;
  free_when ((0 <=? canvas4) && negb (canvas4 =? canvas3) && negb (canvas4 =? canvas2)
             && negb (canvas4 =? canvas1)) p canvas4.

Fixpoint free_table_entries (p : canvas_pool) (tab : list Z) : option canvas_pool :=
  match tab with
  | [] => Some p
  | v :: tab => p ← free_table_entry p v; free_table_entries p tab
  end.

(** [tab] is the array the caller passed, of at least [size] entries.  Returns
    the C result, the array and the pool. *)
Definition canvas_pool_free_canvas_table (p : canvas_pool) (tab : list Z) (size : Z)
  : option (Z * list Z * canvas_pool) :=
  if (size <? 0) || (Z.of_nat (length tab) <? size) then None
  else
    p ← free_table_entries p (take (Z.to_nat size) tab);
    Some (0, replicate (Z.to_nat size) 0 ++ drop (Z.to_nat size) tab, p).

(** The lines printed: the entry and its Y, U and V canvases. *)
Definition canvas_pool_dump_canvas_table (tab : list Z) (size : Z) : list (Z * Z * Z * Z) :=
  (fun v => (v, canvas_0 v, canvas_1 v, canvas_2 v)) <$> take (Z.to_nat size) tab.

(** The loop over the table: [i] entries are filled so far. *)
Fixpoint fill_table (n : nat) (p : canvas_pool) (jiffies : Z) (own : string)
    (t : canvas_map_type_e) (tab : list Z) (i : Z) : option (Z * Z * list Z * canvas_pool) :=
  match n with
  | O => Some (0, i, tab, p)
  | S n =>
      '(err, canvas, p) ← canvas_pool_map_alloc_canvas_continue_set p jiffies own t;
      if c_true err then Some (err, i, tab, p)
      else tab ← aset tab i canvas; fill_table n p jiffies own t tab (i + 1)
  end.

Definition canvas_pool_alloc_canvas_table (p : canvas_pool) (jiffies : Z) (own : string)
    (tab : list Z) (size : Z) (t : canvas_map_type_e) : option (Z * list Z * canvas_pool) :=
  let oldstart := next_alloced_index p in
  '(err, i, tab, p) ← fill_table (Z.to_nat size) p jiffies own t tab 0;
  if c_true err then
    if 0 <? i then
      '(_, tab, p) ← canvas_pool_free_canvas_table p tab i;
      Some (u32 err, tab, p)
    else Some (u32 err, tab, p)
  else
    let p := with_next p (oldstart + 1) in
    let p := if canvas_max p <=? next_alloced_index p then with_next p 1 else p in
    Some (0, tab, p).

(** ** The sysfs attributes *)

(** One line of [canvas_pool_map_show]: index, used bit, pool information and
    canvas descriptor. *)
Definition map_line : Type := Z * bool * canvas_info * canvas_s.

Section MapShow.
(** Ticks per second of the kernel configuration. *)
Variable HZ : Z.
(** The lengths [snprintf] returns for a line (both calls together). *)
Variable line_size : map_line -> Z.
(** The descriptor that [canvas_read] leaves in the uninitialised local. *)
Variable read_canvas : Z -> canvas_s -> canvas_s.

Fixpoint show_lines (n : nat) (p : canvas_pool) (max i size : Z) (ci : canvas_info)
    (c : canvas_s) : option (list map_line * Z * Z) :=
  match n with
  | O => Some ([], i, size)
  | S n =>
      if (i <? max) && (size <? PAGE_SIZE - 256) then
        '(_, r) ← canvas_pool_get_canvas_info p i;
        let ci := default ci r in
        let c := read_canvas i c in
        let l := (i, Z.testbit (canvas_map p) i, ci, c) in
        '(ls, i, size) ← show_lines n p max (i + 1) (size + line_size l) ci c;
        Some (l :: ls, i, size)
      else Some ([], i, size)
  end.

(** Returns the lines shown, the size and the pool. *)
Definition canvas_pool_map_show (p : canvas_pool) (jiffies : Z) (c : canvas_s)
  : option (list map_line * Z * canvas_pool) :=
  let max := Z.min (next_dump_index p + 64) (canvas_max p) in
  let first := if 5 * HZ <? u64 (jiffies - last_cat_map p) then 0 else next_dump_index p in
  '(ls, i, size) ← show_lines (Z.to_nat (canvas_max p)) p max first 0
                     (mk_canvas_info None 0 None 0) c;
  Some (ls, size, with_dump p (if canvas_max p <=? i then 0 else i) jiffies).
End MapShow.

(** [parsed] is what [kstrtoint] makes of the buffer. *)
Definition canvas_pool_debug_store (p : canvas_pool) (parsed : option Z) (size : Z)
  : Z * canvas_pool :=
  match parsed with
  | None => (- EINVAL, p)
  | Some val =>
      if val =? 1 then (size, with_dump p 0 (last_cat_map p))
      else if val =? 2 then (size, with_next p 0)
      else (size, p)
  end.

(** ** Well-formed pools *)

Record pool_ok (p : canvas_pool) : Prop := {
  ok_max : canvas_max p = 256;
  ok_info : length (info p) = 256%nat;
  ok_map : 0 <= canvas_map p < 2 ^ 256;
  ok_next : 0 <= next_alloced_index p;
  ok_dump : 0 <= next_dump_index p < 256;
  ok_free : - 2 ^ 31 <= free_num p < 2 ^ 31;
  (** an index in use has an owner *)
  ok_owner : forall i ci, Z.testbit (canvas_map p) i = true ->
               aget (info p) i = Some ci -> is_Some (owner ci) }.

(** ** The bitmap *)

Lemma find_zero_from_spec n map i :
  match find_zero_from n map i with
  | Some k => i <= k < i + Z.of_nat n /\ Z.testbit map k = false /\
              forall j, i <= j < k -> Z.testbit map j = true
  | None => forall j, i <= j < i + Z.of_nat n -> Z.testbit map j = true
  end.
Proof.
  revert i. induction n as [|n IH]; intros i; simpl; [intros; lia|].
  destruct (Z.testbit map i) eqn:E; [|split_and!; [lia..|done|lia]].
  specialize (IH (i + 1)). case_goal.
  - destruct IH as (? & ? & IH). split_and!; [lia..|done|].
    intros j Hj. destruct (decide (j = i)) as [->|]; [done|]. apply IH. lia.
  - intros j Hj. destruct (decide (j = i)) as [->|]; [done|]. apply IH. lia.
Qed.

(** [k] is the first clear bit in [lo .. hi-1]. *)
Definition first_clear (map lo hi k : Z) : Prop :=
  lo <= k < hi /\ Z.testbit map k = false /\ forall j, lo <= j < k -> Z.testbit map j = true.

Definition all_set (map lo hi : Z) : Prop := forall j, lo <= j < hi -> Z.testbit map j = true.

Lemma find_next_zero_bit_spec map size off :
  0 <= off ->
  let k := find_next_zero_bit map size off in
  (k < size /\ first_clear map off size k) \/ (k = size /\ all_set map off size).
Proof.
  intros Hoff k. subst k. unfold find_next_zero_bit.
  rewrite (proj2 (Z.ltb_ge off 0)) by lia. simpl.
  destruct (Z.leb_spec size off); [right; split; [done|intros ??; lia]|].
  pose proof (find_zero_from_spec (Z.to_nat (size - off)) map off) as H'.
  replace (off + Z.of_nat (Z.to_nat (size - off))) with size in H' by lia.
  destruct (find_zero_from _ _ _); simpl; [left|right; done].
  destruct H' as (? & ? & ?). split; [lia|]. split_and!; [lia..|done|done].
Qed.

(** Next-fit choice of an index, as a function of the bitmap and the cursor:
    -1 when there is none. *)
Definition next_fit (map max start : Z) : Z :=
  let i := find_next_zero_bit map max start in
  if i <? max then i
  else if start <=? 1 then -1
  else let i := find_next_zero_bit map max 1 in if i <? max then i else -1.

Lemma next_fit_spec map max start :
  0 <= start -> 1 <= max ->
  let i := next_fit map max start in
  first_clear map start max i \/
  (all_set map start max /\ 1 < start /\ first_clear map 1 max i) \/
  (i = -1 /\ all_set map (Z.min 1 start) max).
Proof.
  intros Hs Hm. unfold next_fit. simpl.
  destruct (find_next_zero_bit_spec map max start) as [[Hlt Hf]|[Heq Ha]]; [lia|..].
  { rewrite (proj2 (Z.ltb_lt _ _) Hlt). by left. }
  rewrite Heq, Z.ltb_irrefl. destruct (Z.leb_spec start 1).
  { right; right. split; [done|]. intros j Hj. apply Ha. lia. }
  destruct (find_next_zero_bit_spec map max 1) as [[Hlt' Hf']|[Heq' Ha']]; [lia|..].
  { rewrite (proj2 (Z.ltb_lt _ _) Hlt'). right; left. split_and!; [done|lia|done]. }
  rewrite Heq', Z.ltb_irrefl. right; right. split; [done|].
  intros j Hj. apply Ha'. lia.
Qed.

Lemma next_fit_range map max start :
  0 <= start -> 1 <= max ->
  let i := next_fit map max start in
  i = -1 \/ (0 <= i < max /\ Z.testbit map i = false).
Proof.
  intros Hs Hm i. destruct (next_fit_spec map max start) as [Hf|[(_ & _ & Hf)|[Hf _]]]; try done.
  - destruct Hf as (? & ? & _). right. split; [subst i; lia|done].
  - destruct Hf as (? & ? & _). right. split; [subst i; lia|done].
  - by left.
Qed.

Lemma setbit_range map i : 0 <= map < 2 ^ 256 -> 0 <= i < 256 -> 0 <= Z.setbit map i < 2 ^ 256.
Proof.
  intros Hm Hi. rewrite Z.setbit_spec'. apply lor_range; [lia..|].
  split; [lia|]. apply Z.pow_lt_mono_r; lia.
Qed.

Lemma clearbit_range map i : 0 <= map < 2 ^ 256 -> 0 <= Z.clearbit map i < 2 ^ 256.
Proof.
  intros Hm. assert (Z.clearbit map i = Z.clearbit map i mod 2 ^ 256) as ->;
    [|apply Z.mod_pos_bound; lia].
  apply Z.bits_inj'. intros j Hj. destruct (Z.lt_ge_cases j 256).
  - by rewrite Z.mod_pow2_bits_low by lia.
  - rewrite Z.mod_pow2_bits_high by lia. rewrite Z.clearbit_spec'.
    rewrite Z.ldiff_spec, (testbit_above map 256) by lia. done.
Qed.

Lemma testbit_setbit map i j :
  0 <= i -> Z.testbit (Z.setbit map i) j = (j =? i) || Z.testbit map j.
Proof. intros. rewrite Z.setbit_eqb by lia. by rewrite Z.eqb_sym. Qed.

Lemma testbit_clearbit map i j :
  Z.testbit (Z.clearbit map i) j = negb (j =? i) && Z.testbit map j.
Proof. rewrite Z.clearbit_eqb, Z.eqb_sym. apply andb_comm. Qed.

(** ** One canvas: the operations in closed form *)

Definition fixed_at (p : canvas_pool) (i : Z) : Z :=
  default 0 (fixed_onwer <$> aget (info p) i).

(** The pool after index [i] has been taken. *)
Definition after_take (p : canvas_pool) (jiffies : Z) (own : string) (i : Z) : canvas_pool :=
  with_info (with_map p (Z.setbit (canvas_map p) i))
    (<[Z.to_nat i := mk_canvas_info (Some own) jiffies (Some own) (fixed_at p i)]> (info p)).

Definition after_alloc (p : canvas_pool) (jiffies : Z) (own : string) (i : Z) : canvas_pool :=
  let p := after_take p jiffies own i in
  if 0 <? i then advance_cursor p i else p.

(** The pool after index [i] has been released. *)
Definition after_free (p : canvas_pool) (i : Z) : canvas_pool :=
  with_free_num
    (with_info (with_map p (Z.clearbit (canvas_map p) i))
       (alter (fun ci => mk_canvas_info None 0 (owner ci) (fixed_onwer ci)) (Z.to_nat i) (info p)))
    (s32 (free_num p + 1)).

Lemma pool_aget p i :
  pool_ok p -> 0 <= i < 256 -> exists ci, aget (info p) i = Some ci.
Proof. intros [] ?. apply aget_is_Some. lia. Qed.

Lemma take_canvas_clear p jiffies own i :
  pool_ok p -> 0 <= i < 256 -> Z.testbit (canvas_map p) i = false ->
  take_canvas p jiffies own i = Some (Some (after_take p jiffies own i)).
Proof.
  intros Hok Hi Hb. unfold take_canvas, test_and_set_bit.
  change map_bits with 320. rewrite (proj2 (Z.leb_le 0 i)), (proj2 (Z.ltb_lt i 320)) by lia.
  simpl. rewrite Hb. destruct (pool_aget p i Hok Hi) as [ci Hci]. rewrite Hci. simpl.
  rewrite aset_in by (destruct Hok; lia). simpl. unfold after_take, fixed_at. by rewrite Hci.
Qed.

Lemma alloc_in_eq p jiffies own :
  pool_ok p ->
  let i := next_fit (canvas_map p) (canvas_max p) (next_alloced_index p) in
  canvas_pool_map_alloc_canvas_in p jiffies own =
  Some (if 0 <=? i then (i, after_alloc p jiffies own i) else (-1, p)).
Proof.
  intros Hok. simpl. pose proof (ok_next p Hok) as Hn. pose proof (ok_max p Hok) as Hmax.
  unfold canvas_pool_map_alloc_canvas_in, next_fit, alloc_fuel.
  set (s := next_alloced_index p) in *. rewrite Hmax.
  pose proof (find_next_zero_bit_spec (canvas_map p) 256 s Hn) as Hs.
  set (k := find_next_zero_bit (canvas_map p) 256 s) in *. simpl in Hs.
  assert (forall j, VALID_CANVAS p j = (0 <=? j) && (j <? 256)) as HV
    by (intros; unfold VALID_CANVAS; by rewrite Hmax).
  destruct Hs as [[Hlt (Hr & Hb & _)]|[Heq Ha]].
  - rewrite (proj2 (Z.ltb_lt _ _) Hlt), (proj2 (Z.leb_le 0 k)) by lia. simpl.
    rewrite Hmax. fold k. rewrite HV, (proj2 (Z.ltb_lt k 256)), (proj2 (Z.leb_le 0 k)) by lia.
    simpl. rewrite take_canvas_clear by (done || lia). simpl. unfold after_alloc. by case_goal.
  - rewrite Heq, Z.ltb_irrefl. simpl. rewrite Hmax. fold k. rewrite HV, Heq. simpl.
    destruct (s <=? 1) eqn:El; simpl; [done|].
    pose proof (find_next_zero_bit_spec (canvas_map p) 256 1 ltac:(lia)) as Hs.
    set (k' := find_next_zero_bit (canvas_map p) 256 1) in *. simpl in Hs.
    rewrite HV, Hmax. fold k'.
    destruct Hs as [[Hlt (Hr & Hb & _)]|[Heq' Ha']].
    + rewrite (proj2 (Z.ltb_lt _ _) Hlt), (proj2 (Z.leb_le 0 k')) by lia. simpl.
      rewrite take_canvas_clear by (done || lia). simpl. unfold after_alloc. by case_goal.
    + rewrite Heq'. done.
Qed.

Lemma free_canvas_in_eq p i :
  pool_ok p -> 0 <= i < 256 ->
  canvas_pool_map_free_canvas_in p i = Some (0, after_free p i).
Proof.
  intros Hok Hi. unfold canvas_pool_map_free_canvas_in, VALID_CANVAS, test_and_clear_bit.
  rewrite (ok_max p Hok). change map_bits with 320.
  rewrite (proj2 (Z.leb_le 0 i)), (proj2 (Z.ltb_lt i 256)), (proj2 (Z.ltb_lt i 320)) by lia.
  simpl. destruct (pool_aget p i Hok Hi) as [ci Hci]. rewrite Hci. simpl.
  rewrite aset_in by (destruct Hok; lia). simpl. unfold after_free. do 3 f_equal.
  rewrite aget_lookup in Hci by lia. unfold with_info; simpl. f_equal.
  by rewrite (list_alter_Some _ _ _ _ Hci).
Qed.

(** ** Preservation of well-formedness *)

Lemma aget_insert {A} (l : list A) i j x :
  0 <= i < Z.of_nat (length l) ->
  aget (<[Z.to_nat i := x]> l) j = if j =? i then Some x else aget l j.
Proof.
  intros Hi. destruct (Z.eqb_spec j i) as [->|Hne].
  - rewrite aget_lookup by lia. apply list_lookup_insert_eq. lia.
  - unfold aget. case_goal; [|done]. b2p. apply list_lookup_insert_ne. lia.
Qed.

Lemma after_take_ok p jiffies own i :
  pool_ok p -> 0 <= i < 256 -> pool_ok (after_take p jiffies own i).
Proof.
  intros [Hm Hi Hr Hn Hd Hf Ho] H. split; simpl; auto.
  - by rewrite length_insert.
  - by apply setbit_range.
  - intros j ci. rewrite testbit_setbit, aget_insert by lia.
    destruct (j =? i); simpl; [intros _ [= <-]; by eexists|apply Ho].
Qed.

Lemma after_alloc_ok p jiffies own i :
  pool_ok p -> 0 <= i < 256 -> pool_ok (after_alloc p jiffies own i).
Proof.
  intros Hok Hi. apply (after_take_ok _ jiffies own i) in Hok; [|done].
  unfold after_alloc. case_goal; [|done]. destruct Hok as [Hm ? ? ? ? ? Ho].
  split; simpl in *; auto; [case_goal; b2p; lia|apply s32_range].
Qed.

Lemma after_free_ok p i : pool_ok p -> 0 <= i < 256 -> pool_ok (after_free p i).
Proof.
  intros [Hm Hi Hr Hn Hd Hf Ho] H. split; simpl; auto using clearbit_range, s32_range.
  - by rewrite length_alter.
  - intros j ci. rewrite testbit_clearbit.
    destruct (Z.eqb_spec j i) as [->|Hne]; simpl; [done|]. intros Hb Hg.
    apply (Ho j ci Hb). unfold aget in *. case_goal; [|done].
    rewrite list_lookup_alter_ne in Hg; [done|]. b2p. lia.
Qed.

Lemma alloc_in_ok p jiffies own i p' :
  pool_ok p -> canvas_pool_map_alloc_canvas_in p jiffies own = Some (i, p') -> pool_ok p'.
Proof.
  intros Hok. rewrite alloc_in_eq by done.
  destruct (next_fit_range (canvas_map p) (canvas_max p) (next_alloced_index p))
    as [E|[E _]].
  { apply (ok_next p Hok). } { rewrite (ok_max p Hok). lia. }
  { rewrite E. intros [= <- <-]. done. }
  rewrite (ok_max p Hok) in E. rewrite (proj2 (Z.leb_le 0 _)) by (rewrite (ok_max p Hok); lia).
  rewrite (ok_max p Hok). intros [= <- <-]. by apply after_alloc_ok.
Qed.

Lemma free_in_ok p i : pool_ok p ->
  exists ret p', canvas_pool_map_free_canvas_in p i = Some (ret, p') /\ pool_ok p'.
Proof.
  intros Hok. destruct (VALID_CANVAS p i) eqn:V.
  - unfold VALID_CANVAS in V. rewrite (ok_max p Hok) in V. b2p.
    rewrite free_canvas_in_eq by (done || lia). do 2 eexists. split; [done|].
    apply after_free_ok; [done|lia].
  - unfold canvas_pool_map_free_canvas_in. rewrite V. simpl. eauto.
Qed.

Lemma free_canvas__ok p i : pool_ok p -> exists p', free_canvas_ p i = Some p' /\ pool_ok p'.
Proof.
  intros Hok. destruct (free_in_ok p i Hok) as (r & p' & E & Hok').
  exists p'. split; [|done]. unfold free_canvas_, canvas_pool_map_free_canvas. by rewrite E.
Qed.

Lemma free_canvas__eq p i :
  pool_ok p -> 0 <= i < 256 -> free_canvas_ p i = Some (after_free p i).
Proof.
  intros. unfold free_canvas_, canvas_pool_map_free_canvas. by rewrite free_canvas_in_eq.
Qed.

Lemma with_next_ok p n : pool_ok p -> 0 <= n -> pool_ok (with_next p n).
Proof. intros [] ?. by split. Qed.

#[export] Hint Resolve after_alloc_ok after_free_ok alloc_in_ok with_next_ok : soc.

(** ** Sequences of allocations and releases *)

Definition next_cursor (i next : Z) : Z :=
  if 0 <? i then (if i + 1 <? 256 then i + 1 else 1) else next.

(** The indices [n] allocations return (-1 for a failed one), as a function of
    the bitmap and the cursor alone. *)
Fixpoint picks (n : nat) (map next : Z) : list Z :=
  match n with
  | O => []
  | S n =>
      let i := next_fit map 256 next in
      if 0 <=? i then i :: picks n (Z.setbit map i) (next_cursor i next)
      else (-1) :: picks n map next
  end.

Fixpoint alloc_n (n : nat) (p : canvas_pool) (jiffies : Z) (own : string)
  : option (list Z * canvas_pool) :=
  match n with
  | O => Some ([], p)
  | S n => '(i, p) ← canvas_pool_map_alloc_canvas_in p jiffies own;
           '(l, p) ← alloc_n n p jiffies own; Some (i :: l, p)
  end.

(** The successful ones. *)
Definition taken (l : list Z) : list Z := filter (fun i => 0 <= i) l.

Definition after_allocs (p : canvas_pool) (jiffies : Z) (own : string) (l : list Z) : canvas_pool :=
  foldl (fun p i => after_alloc p jiffies own i) p l.

Definition after_frees (p : canvas_pool) (l : list Z) : canvas_pool := foldl after_free p l.

Lemma after_alloc_map p jiffies own i :
  canvas_map (after_alloc p jiffies own i) = Z.setbit (canvas_map p) i.
Proof. unfold after_alloc. by case_goal. Qed.

Lemma after_alloc_next p jiffies own i :
  pool_ok p -> next_alloced_index (after_alloc p jiffies own i) = next_cursor i (next_alloced_index p).
Proof.
  intros Hok. unfold after_alloc, next_cursor, advance_cursor; simpl.
  rewrite (ok_max p Hok). by destruct (0 <? i).
Qed.

Lemma alloc_n_eq n p jiffies own :
  pool_ok p ->
  let l := picks n (canvas_map p) (next_alloced_index p) in
  alloc_n n p jiffies own = Some (l, after_allocs p jiffies own (taken l)) /\
  pool_ok (after_allocs p jiffies own (taken l)).
Proof.
  revert p. induction n as [|n IH]; intros p Hok; [done|]. cbn [alloc_n picks].
  rewrite alloc_in_eq by done. rewrite (ok_max p Hok). cbv zeta.
  destruct (next_fit_range (canvas_map p) 256 (next_alloced_index p)) as [E|[E _]];
    [apply (ok_next p Hok)|lia|..].
  - rewrite E. simpl. destruct (IH p Hok) as [-> Hok']. done.
  - set (i := next_fit _ _ _) in *. rewrite (proj2 (Z.leb_le 0 i)) by lia. simpl.
    destruct (IH (after_alloc p jiffies own i)) as [Hn Hok']; [by apply after_alloc_ok|].
    rewrite after_alloc_map, after_alloc_next in Hn, Hok' by done. rewrite Hn. simpl.
    unfold taken. rewrite filter_cons_True by lia. done.
Qed.

(** With canvas 0 in use, an allocation returns -1 or a clear index in 1..255,
    and no index twice. *)
Lemma picks_spec n map next :
  0 <= next -> Z.testbit map 0 = true ->
  Forall (fun i => i = -1 \/ (1 <= i < 256 /\ Z.testbit map i = false)) (picks n map next) /\
  NoDup (taken (picks n map next)).
Proof.
  revert map next. induction n as [|n IH]; intros map next Hn H0; [repeat constructor|].
  cbn [picks]. destruct (next_fit_range map 256 next) as [E|[E Hb]]; [done|lia|..].
  - rewrite E. simpl. destruct (IH map next) as [IHf IHn]; [done..|].
    split; [constructor; [by left|done]|done].
  - set (i := next_fit map 256 next) in *.
    assert (1 <= i < 256).
    { destruct (decide (i = 0)) as [e|]; [|lia]. rewrite e in Hb. congruence. }
    rewrite (proj2 (Z.leb_le 0 i)) by lia.
    destruct (IH (Z.setbit map i) (next_cursor i next)) as [IHf IHn].
    { unfold next_cursor. repeat case_goal; lia. }
    { rewrite testbit_setbit by lia. rewrite H0. apply orb_true_r. }
    split.
    + constructor; [right; split; [lia|done]|]. eapply Forall_impl; [exact IHf|].
      intros j [->|[Hj Hjb]]; [by left|right]. split; [done|].
      rewrite testbit_setbit in Hjb by lia. by apply orb_false_iff in Hjb as [_ ?].
    + unfold taken. rewrite filter_cons_True by lia. constructor; [|done].
      intros Hin. apply list_elem_of_filter in Hin as [_ Hin].
      rewrite Forall_forall in IHf. destruct (IHf i Hin) as [?|[_ Hjb]]; [lia|].
      rewrite testbit_setbit, Z.eqb_refl in Hjb by lia. done.
Qed.

Section RunEffect.
Variables (jiffies : Z) (own : string).

(** [own] held the canvases [l] and gave them back: only their owner history
    has changed. *)
Definition retire (p : canvas_pool) (l : list Z) : canvas_pool :=
  with_info p
    (foldl (fun li c => alter (fun ci => mk_canvas_info None 0 (Some own) (fixed_onwer ci))
                          (Z.to_nat c) li) (info p) l).

Lemma aget_alter_gen {A} (l : list A) f i j :
  0 <= i -> aget (alter f (Z.to_nat i) l) j = (if j =? i then f <$> aget l j else aget l j).
Proof.
  intros Hi. unfold aget. destruct (Z.leb_spec 0 j); [|by case_goal].
  rewrite list_lookup_alter. destruct (Z.eqb_spec j i).
  - subst. by rewrite decide_True.
  - by rewrite decide_False by lia.
Qed.

Lemma aget_ext {A} (l1 l2 : list A) : (forall j, 0 <= j -> aget l1 j = aget l2 j) -> l1 = l2.
Proof.
  intros H. apply list_eq. intros i. specialize (H (Z.of_nat i)).
  rewrite !aget_lookup, Nat2Z.id in H by lia. apply H. lia.
Qed.

(** Pointwise effect of a sequence of updates of distinct entries. *)
Lemma foldl_alter_aget (f : canvas_info -> canvas_info) (l : list Z) li j :
  NoDup l -> Forall (fun i => 0 <= i) l ->
  aget (foldl (fun li c => alter f (Z.to_nat c) li) li l) j =
  if bool_decide (j ∈ l) then f <$> aget li j else aget li j.
Proof.
  revert li. induction l as [|c l IH]; intros li Hnd Hl; simpl; [done|].
  inversion_clear Hl. apply NoDup_cons in Hnd as [Hc Hnd].
  rewrite IH by done. rewrite aget_alter_gen by done.
  destruct (Z.eqb_spec j c) as [->|Hne].
  - rewrite (bool_decide_eq_true_2 (c ∈ c :: l)) by set_solver.
    by rewrite bool_decide_eq_false_2.
  - assert (bool_decide (j ∈ c :: l) = bool_decide (j ∈ l)) as ->; [|done].
    apply bool_decide_ext. set_solver.
Qed.

Lemma after_allocs_map p l :
  canvas_map (after_allocs p jiffies own l) = foldl Z.setbit (canvas_map p) l.
Proof.
  revert p. induction l as [|i l IH]; intros p; simpl; [done|].
  rewrite IH. by rewrite after_alloc_map.
Qed.

Lemma testbit_setbits l map j :
  Forall (fun i => 0 <= i) l ->
  Z.testbit (foldl Z.setbit map l) j = bool_decide (j ∈ l) || Z.testbit map j.
Proof.
  revert map. induction l as [|i l IH]; intros map Hl; simpl; [done|].
  inversion_clear Hl. rewrite IH, testbit_setbit by done.
  destruct (Z.eqb_spec j i) as [->|]; simpl.
  - rewrite orb_true_r. by rewrite bool_decide_eq_true_2 by set_solver.
  - f_equal. apply bool_decide_ext. set_solver.
Qed.

Lemma testbit_clearbits l map j :
  Z.testbit (foldl Z.clearbit map l) j = negb (bool_decide (j ∈ l)) && Z.testbit map j.
Proof.
  revert map. induction l as [|i l IH]; intros map; simpl; [done|].
  rewrite IH, testbit_clearbit. destruct (Z.eqb_spec j i) as [->|]; simpl.
  - rewrite andb_false_r. by rewrite bool_decide_eq_true_2 by set_solver.
  - f_equal. f_equal. apply bool_decide_ext. set_solver.
Qed.

Lemma set_clear_bits l map :
  Forall (fun i => 0 <= i /\ Z.testbit map i = false) l ->
  foldl Z.clearbit (foldl Z.setbit map l) l = map.
Proof.
  intros Hl. apply Z.bits_inj'. intros j Hj. rewrite testbit_clearbits, testbit_setbits.
  - case_bool_decide as Hin; simpl; [|done].
    rewrite Forall_forall in Hl. symmetry. by apply Hl.
  - eapply Forall_impl; [exact Hl|]. by intros ? [? _].
Qed.

Lemma after_frees_fields p l :
  canvas_map (after_frees p l) = foldl Z.clearbit (canvas_map p) l /\
  info (after_frees p l) =
    foldl (fun li c => alter (fun ci => mk_canvas_info None 0 (owner ci) (fixed_onwer ci))
                         (Z.to_nat c) li) (info p) l /\
  s32 (free_num (after_frees p l)) = s32 (free_num p + Z.of_nat (length l)) /\
  next_alloced_index (after_frees p l) = next_alloced_index p /\
  canvas_max (after_frees p l) = canvas_max p /\
  next_dump_index (after_frees p l) = next_dump_index p /\
  last_cat_map (after_frees p l) = last_cat_map p.
Proof.
  revert p. induction l as [|i l IH]; intros p.
  { simpl. rewrite Z.add_0_r. done. }
  destruct (IH (after_free p i)) as (Hm & Hi & Hf & Hn & Hx & Hd & Ht).
  cbn [after_frees foldl]. change (foldl after_free (after_free p i) l)
    with (after_frees (after_free p i) l).
  rewrite Hm, Hi, Hf, Hn, Hx, Hd, Ht. split_and!; try done.
  cbn [after_free with_free_num free_num length]. rewrite s32_add. f_equal. lia.
Qed.

Lemma after_allocs_fields p l :
  Forall (fun i => 1 <= i < 256) l -> length (info p) = 256%nat ->
  s32 (free_num (after_allocs p jiffies own l)) = s32 (free_num p - Z.of_nat (length l)) /\
  canvas_max (after_allocs p jiffies own l) = canvas_max p /\
  next_dump_index (after_allocs p jiffies own l) = next_dump_index p /\
  last_cat_map (after_allocs p jiffies own l) = last_cat_map p /\
  length (info (after_allocs p jiffies own l)) = 256%nat /\
  (forall j, aget (info (after_allocs p jiffies own l)) j =
     if bool_decide (j ∈ l)
     then (fun ci => mk_canvas_info (Some own) jiffies (Some own) (fixed_onwer ci)) <$> aget (info p) j
     else aget (info p) j).
Proof.
  revert p. induction l as [|i l IH]; intros p Hl Hlen.
  { simpl. rewrite Z.sub_0_r. done. }
  inversion_clear Hl as [|? ? Hi Hl'].
  assert (info (after_alloc p jiffies own i) = info (after_take p jiffies own i)) as HiA
    by (unfold after_alloc; by case_goal).
  destruct (IH (after_alloc p jiffies own i)) as (Hf & Hx & Hd & Ht & Hn & Hg); [done|..].
  { rewrite HiA. simpl. by rewrite length_insert. }
  cbn [after_allocs foldl].
  change (foldl _ (after_alloc p jiffies own i) l)
    with (after_allocs (after_alloc p jiffies own i) jiffies own l).
  rewrite Hf, Hx, Hd, Ht, Hn. unfold after_alloc at 1 2 3 4.
  rewrite (proj2 (Z.ltb_lt 0 i)) by lia. split_and!; try done.
  - cbn [advance_cursor with_free_num with_next free_num length after_take with_info with_map].
    unfold Z.sub. rewrite s32_add. f_equal. lia.
  - intros j. rewrite Hg, HiA. cbn [after_take with_info info]. rewrite aget_insert by lia.
    destruct (Z.eqb_spec j i) as [->|Hne].
    + rewrite (bool_decide_eq_true_2 (i ∈ i :: l)) by set_solver.
      destruct (aget_is_Some (info p) i) as [ci Hci]; [lia|]. unfold fixed_at. rewrite Hci.
      simpl. by case_bool_decide.
    + assert (bool_decide (j ∈ i :: l) = bool_decide (j ∈ l)) as ->; [|done].
      apply bool_decide_ext. set_solver.
Qed.

Lemma canvas_pool_eq p q :
  canvas_max p = canvas_max q -> free_num p = free_num q -> info p = info q ->
  canvas_map p = canvas_map q -> next_alloced_index p = next_alloced_index q ->
  next_dump_index p = next_dump_index q -> last_cat_map p = last_cat_map q -> p = q.
Proof. destruct p, q; simpl; intros; congruence. Qed.

(** Distinct clear canvases other than canvas 0. *)
Definition fresh (p : canvas_pool) (l : list Z) : Prop :=
  NoDup l /\ Forall (fun i => 1 <= i < 256 /\ Z.testbit (canvas_map p) i = false) l.

Lemma fresh_range p l : fresh p l -> Forall (fun i => 1 <= i < 256) l.
Proof. intros [_ H]. eapply Forall_impl; [exact H|]. by intros ? [? _]. Qed.

Lemma fresh_nonneg p l : fresh p l -> Forall (fun i => 0 <= i) l.
Proof. intros H%fresh_range. eapply Forall_impl; [exact H|]. simpl. lia. Qed.

Lemma aget_retire p l j :
  fresh p l ->
  aget (info (retire p l)) j =
  if bool_decide (j ∈ l)
  then (fun ci => mk_canvas_info None 0 (Some own) (fixed_onwer ci)) <$> aget (info p) j
  else aget (info p) j.
Proof.
  intros Hl. unfold retire; cbn [with_info info].
  apply (foldl_alter_aget (fun ci => mk_canvas_info None 0 (Some own) (fixed_onwer ci)));
    [apply Hl|by eapply fresh_nonneg].
Qed.

(** Taking the canvases [l] and giving them back. *)
Lemma alloc_free_effect p l :
  pool_ok p -> fresh p l ->
  pool_ok (after_frees (after_allocs p jiffies own l) l) ->
  after_frees (after_allocs p jiffies own l) l =
  with_next (retire p l) (next_alloced_index (after_allocs p jiffies own l)).
Proof.
  intros Hok Hl Hok'.
  destruct (after_allocs_fields p l (fresh_range p l Hl) (ok_info p Hok))
    as (Hf & Hx & Hd & Ht & Hn & Hg).
  destruct (after_frees_fields (after_allocs p jiffies own l) l)
    as (Hm' & Hi' & Hf' & Hn' & Hx' & Hd' & Ht').
  apply canvas_pool_eq; cbn [with_next canvas_max free_num info canvas_map next_alloced_index
    next_dump_index last_cat_map retire with_info]; try congruence.
  - pose proof (ok_free _ Hok'). pose proof (ok_free _ Hok).
    rewrite (s32_small (free_num (after_frees _ _))) in Hf' by done.
    rewrite Hf'. rewrite <- s32_add, Hf, s32_add, s32_small; lia.
  - rewrite Hi'. apply aget_ext. intros j Hj.
    pose proof (aget_retire p l j Hl) as Hr. unfold retire in Hr; cbn [with_info info] in Hr.
    rewrite Hr. rewrite foldl_alter_aget by (apply Hl || by eapply fresh_nonneg).
    rewrite Hg. case_bool_decide; [|done]. by destruct (aget (info p) j).
  - rewrite Hm', after_allocs_map. apply set_clear_bits.
    eapply Forall_impl; [apply Hl|]. intros i [? ?]. split; [lia|done].
Qed.

Lemma retire_idem p l : fresh p l -> retire (retire p l) l = retire p l.
Proof.
  intros Hl. apply canvas_pool_eq; try done.
  apply aget_ext. intros j Hj. rewrite !aget_retire by done.
  case_bool_decide; [|done]. by destruct (aget (info p) j).
Qed.

Lemma retire_ok p l : pool_ok p -> fresh p l -> pool_ok (retire p l).
Proof.
  intros Hok Hl. destruct Hok as [Hm Hi Hr Hn Hd Hf Ho]. split; try done.
  - cbn [retire with_info info]. clear -Hi. revert Hi. generalize (info p).
    induction l as [|c l IH]; intros li Hi; simpl; [done|]. apply IH. by rewrite length_alter.
  - intros i ci Hb. rewrite aget_retire by done. cbn [retire with_info canvas_map] in Hb.
    case_bool_decide as Hin; [|by apply Ho].
    destruct Hl as [_ Hl]. rewrite Forall_forall in Hl. destruct (Hl i Hin). congruence.
Qed.

End RunEffect.

(** ** One attempt at a run *)

(** Number of canvases of a run, and where the code keeps them. *)
Definition run_len (t : canvas_map_type_e) : nat :=
  match t with
  | CANVAS_MAP_TYPE_1 => 1 | CANVAS_MAP_TYPE_NV21 => 2 | CANVAS_MAP_TYPE_YUV => 3
  | CANVAS_MAP_TYPE_4 => 4 | CANVAS_MAP_TYPE_other _ => 0
  end.

Definition quad (l : list Z) : Z * Z * Z * Z :=
  match l with
  | [d] => (0, 0, 0, d) | [c; d] => (0, 0, c, d) | [b; c; d] => (0, b, c, d)
  | [a; b; c; d] => (a, b, c, d) | _ => (0, 0, 0, 0)
  end.

Definition quad_found (t : canvas_map_type_e) (q : Z * Z * Z * Z) : bool :=
  let '(a, b, c, d) := q in run_found t a b c d.
Definition quad_val (t : canvas_map_type_e) (q : Z * Z * Z * Z) : Z :=
  let '(a, b, c, d) := q in run_val t a b c d.

Lemma alloc_run_n p jiffies own t :
  alloc_run p jiffies own t =
  ('(l, p) ← alloc_n (run_len t) p jiffies own;
   let '(a, b, c, d) := quad l in Some (a, b, c, d, p)).
Proof.
  destruct t; simpl; try done;
  repeat match goal with
  | |- context [canvas_pool_map_alloc_canvas_in ?p ?j ?o] =>
      destruct (canvas_pool_map_alloc_canvas_in p j o) as [[??]|]; simpl; [|done]
  end; done.
Qed.

Lemma picks_length n map next : length (picks n map next) = n.
Proof.
  revert map next. induction n as [|n IH]; intros; simpl; [done|].
  case_goal; simpl; by rewrite IH.
Qed.

Lemma free_if_pos_eq p c :
  pool_ok p -> c < 256 ->
  free_if_pos p c = Some (after_frees p (filter (fun i => 0 < i) [c])) /\
  pool_ok (after_frees p (filter (fun i => 0 < i) [c])).
Proof.
  intros Hok Hc. unfold free_if_pos. destruct (Z.ltb_spec 0 c).
  - rewrite free_canvas__eq by (done || lia). rewrite filter_cons_True, filter_nil by done.
    split; [done|]. apply after_free_ok; [done|lia].
  - rewrite filter_cons_False, filter_nil by lia. done.
Qed.

Lemma after_frees_app p l1 l2 : after_frees p (l1 ++ l2) = after_frees (after_frees p l1) l2.
Proof. apply foldl_app. Qed.

Lemma free_quad_eq p a b c d :
  pool_ok p -> a < 256 -> b < 256 -> c < 256 -> d < 256 ->
  let l := filter (fun i => 0 < i) [a; b; c; d] in
  (p ← free_if_pos p a; p ← free_if_pos p b; p ← free_if_pos p c; free_if_pos p d)
  = Some (after_frees p l) /\ pool_ok (after_frees p l).
Proof.
  intros Hok Ha Hb Hc Hd l.
  assert (l = filter (fun i => 0 < i) [a] ++ filter (fun i => 0 < i) [b]
              ++ filter (fun i => 0 < i) [c] ++ filter (fun i => 0 < i) [d]) as ->.
  { rewrite <- !filter_app. done. }
  rewrite !after_frees_app.
  destruct (free_if_pos_eq p a Hok Ha) as [-> Hok1]. cbn [mbind option_bind].
  destruct (free_if_pos_eq _ b Hok1 Hb) as [-> Hok2]. cbn [mbind option_bind].
  destruct (free_if_pos_eq _ c Hok2 Hc) as [-> Hok3]. cbn [mbind option_bind].
  by destruct (free_if_pos_eq _ d Hok3 Hd) as [-> Hok4].
Qed.

Lemma picks_fresh p n :
  pool_ok p -> Z.testbit (canvas_map p) 0 = true ->
  fresh p (taken (picks n (canvas_map p) (next_alloced_index p))).
Proof.
  intros Hok H0. destruct (picks_spec n _ _ (ok_next p Hok) H0) as [Hf Hnd]. split; [done|].
  unfold taken. apply Forall_forall. intros i [Hi Hin]%list_elem_of_filter.
  rewrite Forall_forall in Hf. destruct (Hf i Hin); [lia|done].
Qed.

(** The positive canvases among those of a run are those it took. *)
Lemma quad_taken l :
  (length l <= 4)%nat -> Forall (fun i => i = -1 \/ 1 <= i < 256) l ->
  let '(a, b, c, d) := quad l in
  filter (fun i => 0 < i) [a; b; c; d] = taken l /\ a < 256 /\ b < 256 /\ c < 256 /\ d < 256.
Proof.
  intros Hlen Hf.
  assert (filter (fun i => 0 < i) l = taken l) as He.
  { clear Hlen. induction Hf as [|i l Hi Hl IH]; [done|]. unfold taken in *.
    destruct Hi as [->|Hi].
    - rewrite !filter_cons_False by lia. done.
    - rewrite !filter_cons_True by lia. by f_equal. }
  rewrite <- He.
  repeat (let x := fresh "x" in destruct l as [|x l]; [
    simpl; repeat match goal with H : Forall _ (_ :: _) |- _ => inversion_clear H end;
    repeat match goal with |- context [filter _ (0 :: _)] =>
      rewrite (filter_cons_False _ 0) by lia end; split_and!; (done || lia)|]).
  simpl in Hlen. lia.
Qed.

(** An attempt in closed form: it depends on the bitmap and the cursor, and
    when it fails only the owner history and the cursor have changed. *)
Lemma try_run_eq p jiffies own t start :
  pool_ok p -> Z.testbit (canvas_map p) 0 = true ->
  let l := picks (run_len t) (canvas_map p) (next_alloced_index p) in
  try_run p jiffies own t start =
  Some (if quad_found t (quad l)
        then inr (quad_val t (quad l), after_allocs p jiffies own (taken l))
        else inl (with_next (retire own p (taken l))
               (if start + 1 <? 256 - map_type_val t then start + 1 else 1))).
Proof.
  intros Hok H0 l. unfold try_run. rewrite alloc_run_n.
  destruct (alloc_n_eq (run_len t) p jiffies own Hok) as [Hn Hok']. fold l in Hn, Hok'.
  rewrite Hn. simpl.
  destruct (picks_spec (run_len t) _ _ (ok_next p Hok) H0) as [Hf _]. fold l in Hf.
  pose proof (quad_taken l) as Hq. destruct (quad l) as [[[a b] c] d]. simpl.
  destruct (run_found t a b c d); [done|].
  destruct Hq as (Hq & Ha & Hb & Hc & Hd).
  { unfold l. rewrite picks_length. destruct t; simpl; lia. }
  { eapply Forall_impl; [exact Hf|]. simpl. intros i [?|[? _]]; [by left|by right]. }
  destruct (free_quad_eq _ a b c d Hok' Ha Hb Hc Hd) as [Hfr Hok2]. rewrite Hq in Hfr, Hok2.
  pose proof (alloc_free_effect jiffies own p _ Hok (picks_fresh p _ Hok H0) Hok2) as He.
  fold l in He.
  destruct (free_if_pos _ a) as [p1|]; simpl in *; [|done].
  destruct (free_if_pos p1 b) as [p2|]; simpl in *; [|done].
  destruct (free_if_pos p2 c) as [p3|]; simpl in *; [|done].
  rewrite Hfr. simpl. rewrite He. simpl. rewrite (ok_max p Hok). done.
Qed.
