(* ===== verification/CanvasPoolSpec.v ===== *)
(** * Canvas index manager: what its operations guarantee

    Theorems about the model of CanvasPool.v: next-fit allocation, runs and
    tables of canvases, the reachable states of the pool, and the exclusion of
    concurrent allocations. *)

From stdpp Require Import base numbers list option strings sets relations.
From S2P Require Import Prelude Canvas CanvasPool.

(** ** Reachable states *)

Lemma register_one_ok p jiffies own i p' :
  pool_ok p -> register_one p jiffies own i = Some p' ->
  pool_ok p' /\ canvas_map p' = Z.setbit (canvas_map p) i /\ 0 <= i < 256.
Proof.
  intros [Hm Hi Hr Hn Hd Hf Ho] H. unfold register_one, test_and_set_bit in H.
  case_hyp H; simpl in H; [|done]. b2p.
  destruct (aset (info p) i _) as [l|] eqn:E; simpl in H; [|done]. inv_some.
  apply aset_Some in E as [Hb ->]. split; [|split; [done|lia]]. split; simpl; auto.
  - by rewrite length_insert.
  - apply setbit_range; lia.
  - intros j ci. rewrite testbit_setbit, aget_insert by lia.
    destruct (j =? i); simpl; [intros _ [= <-]; by eexists|apply Ho].
Qed.

Lemma register_from_ok n p jiffies own i p' :
  pool_ok p -> register_from n p jiffies own i = Some p' -> pool_ok p'.
Proof.
  revert p i. induction n as [|n IH]; intros p i Hok H; simpl in H; [by inv_some|].
  destruct (register_one p jiffies own i) as [p1|] eqn:E; simpl in H; [|done].
  eapply IH; [|exact H]. by eapply register_one_ok.
Qed.

Lemma register_const_ok p jiffies a b own r p' :
  pool_ok p -> canvas_pool_register_const_canvas p jiffies a b own = Some (r, p') -> pool_ok p'.
Proof.
  intros Hok H. unfold canvas_pool_register_const_canvas in H.
  destruct (register_from _ _ _ _ _) eqn:E; simpl in H; [|done]. inv_some.
  by eapply register_from_ok.
Qed.

Lemma pool_init_ok : pool_ok canvas_pool_init.
Proof.
  split; try done. intros i ci. simpl. by rewrite Z.bits_0.
Qed.

Lemma register_all_ok l p jiffies p' :
  pool_ok p -> register_all p jiffies l = Some p' -> pool_ok p'.
Proof.
  revert p. induction l as [|[[a b] o] l IH]; intros p Hok H; simpl in H; [by inv_some|].
  destruct (canvas_pool_register_const_canvas _ _ _ _ _) as [[r p1]|] eqn:E; simpl in H; [|done].
  eapply IH; [|exact H]. by eapply register_const_ok.
Qed.

Lemma pool_config_ok jiffies p : canvas_pool_config jiffies = Some p -> pool_ok p.
Proof.
  unfold canvas_pool_config. intros H. exact (register_all_ok _ _ _ _ pool_init_ok H).
Qed.

Lemma alloc_in_total p jiffies own :
  pool_ok p -> exists i p', canvas_pool_map_alloc_canvas_in p jiffies own = Some (i, p') /\
    pool_ok p' /\ i < 256.
Proof.
  intros Hok. destruct (alloc_n_eq 1 p jiffies own Hok) as [E Hok']. simpl in E.
  destruct (canvas_pool_map_alloc_canvas_in p jiffies own) as [[i p']|] eqn:Ea; simpl in E; [|done].
  exists i, p'. split; [done|]. split; [exact (alloc_in_ok _ _ _ _ _ Hok Ea)|].
  rewrite alloc_in_eq in Ea by done. rewrite (ok_max p Hok) in Ea.
  destruct (next_fit_range (canvas_map p) 256 (next_alloced_index p)) as [E'|[E' _]];
    [apply (ok_next p Hok)|lia|..].
  - rewrite E' in Ea. simpl in Ea. inv_some. lia.
  - set (k := next_fit _ _ _) in *. case_hyp Ea; inv_some; lia.
Qed.

(** An attempt at a run never leaves the defined behaviour. *)
Lemma try_run_total p jiffies own t start :
  pool_ok p -> 0 <= start ->
  exists r, try_run p jiffies own t start = Some r /\
    match r with inl p' => pool_ok p' | inr (_, p') => pool_ok p' end.
Proof.
  intros Hok Hs. unfold try_run.
  assert (exists a b c d p', alloc_run p jiffies own t = Some (a, b, c, d, p') /\ pool_ok p' /\
            a < 256 /\ b < 256 /\ c < 256 /\ d < 256) as (a & b & c & d & p1 & -> & Hok1 & Hr).
  { destruct t; simpl; repeat
      (match goal with Hp : pool_ok ?p |- context [canvas_pool_map_alloc_canvas_in ?p ?j ?o] =>
         let i := fresh "i" in let q := fresh "q" in let Hq := fresh "Hq" in
         destruct (alloc_in_total p j o Hp) as (i & q & -> & Hq & ?) end; simpl);
    do 5 eexists; split_and!; (done || lia). }
  simpl. case_goal; [eexists; by split|].
  destruct (free_quad_eq p1 a b c d Hok1) as [Hf Hok2]; [tauto..|].
  destruct (free_if_pos p1 a) as [p2|]; simpl in *; [|done].
  destruct (free_if_pos p2 b) as [p3|]; simpl in *; [|done].
  destruct (free_if_pos p3 c) as [p4|]; simpl in *; [|done].
  rewrite Hf. simpl. eexists. split; [done|]. apply with_next_ok; [done|].
  case_goal; lia.
Qed.

Lemma run_retry_total n p jiffies own t start :
  pool_ok p -> 0 <= start ->
  exists ret v p', run_retry n p jiffies own t start = Some (ret, v, p') /\ pool_ok p' /\
    (ret = 0 \/ ret = -1).
Proof.
  revert p. induction n as [|n IH]; intros p Hok Hs; simpl;
    destruct (try_run_total p jiffies own t start Hok Hs) as ([p'|[v p']] & -> & Hok'); simpl;
    eauto 10.
Qed.

Lemma continue_set_total p jiffies own t :
  pool_ok p ->
  exists ret v p', canvas_pool_map_alloc_canvas_continue_set p jiffies own t = Some (ret, v, p') /\
    pool_ok p' /\ (ret = 0 \/ ret = -1).
Proof. intros Hok. apply run_retry_total; [done|]. apply (ok_next p Hok). Qed.

(** Releasing clears the bit of the canvas, and releasing it under a guard that
    only skips canvases already released clears it all the same. *)
Lemma free_when_eq g p c :
  pool_ok p -> 0 <= c < 256 -> (g = false -> Z.testbit (canvas_map p) c = false) ->
  exists p', free_when g p c = Some p' /\ pool_ok p' /\
    canvas_map p' = Z.clearbit (canvas_map p) c.
Proof.
  intros Hok Hc Hg. destruct g; simpl.
  - rewrite free_canvas__eq by done. eexists. split; [done|].
    split; [by apply after_free_ok|done].
  - exists p. split_and!; [done..|]. apply Z.bits_inj'. intros j _.
    rewrite testbit_clearbit. destruct (Z.eqb_spec j c) as [->|]; simpl; [auto|done].
Qed.

Lemma canvas_byte_range v :
  0 <= canvas_0 v < 256 /\ 0 <= canvas_1 v < 256 /\ 0 <= canvas_2 v < 256 /\ 0 <= canvas_3 v < 256.
Proof.
  unfold canvas_0, canvas_1, canvas_2, canvas_3. change 0xff with (Z.ones 8).
  split_and!; apply land_mask_range; lia.
Qed.

Lemma free_table_entry_eq p v :
  pool_ok p -> exists p', free_table_entry p v = Some p' /\ pool_ok p' /\
    canvas_map p' =
    foldl Z.clearbit (canvas_map p) [canvas_0 v; canvas_1 v; canvas_2 v; canvas_3 v].
Proof.
  intros Hok. destruct (canvas_byte_range v) as (H0 & H1 & H2 & H3). unfold free_table_entry.
  rewrite !(proj2 (Z.leb_le 0 _)) by lia. cbn [andb]. cbn [foldl].
  destruct (free_when_eq true p (canvas_0 v) Hok H0) as (p1 & -> & Hok1 & E1); [done|].
  cbn [mbind option_bind].
  destruct (free_when_eq (negb (canvas_1 v =? canvas_0 v)) p1 (canvas_1 v) Hok1 H1)
    as (p2 & -> & Hok2 & E2).
  { intros Hg. b2p. rewrite E1, testbit_clearbit, Hg, Z.eqb_refl. done. }
  cbn [mbind option_bind].
  destruct (free_when_eq (negb (canvas_2 v =? canvas_1 v) && negb (canvas_2 v =? canvas_0 v))
              p2 (canvas_2 v) Hok2 H2) as (p3 & -> & Hok3 & E3).
  { intros Hg. rewrite E2, testbit_clearbit, E1, testbit_clearbit.
    destruct (canvas_2 v =? canvas_1 v); [done|].
    destruct (canvas_2 v =? canvas_0 v); [by rewrite andb_false_r|done]. }
  cbn [mbind option_bind].
  destruct (free_when_eq (negb (canvas_3 v =? canvas_2 v) && negb (canvas_3 v =? canvas_1 v)
                          && negb (canvas_3 v =? canvas_0 v))
              p3 (canvas_3 v) Hok3 H3) as (p4 & -> & Hok4 & E4).
  { intros Hg. rewrite E3, testbit_clearbit, E2, testbit_clearbit, E1, testbit_clearbit.
    destruct (canvas_3 v =? canvas_2 v); [done|].
    destruct (canvas_3 v =? canvas_1 v); [by rewrite andb_false_r|].
    destruct (canvas_3 v =? canvas_0 v); [by rewrite !andb_false_r|done]. }
  exists p4. split_and!; [done..|]. by rewrite E4, E3, E2, E1.
Qed.

Lemma free_table_entries_eq p tab :
  pool_ok p -> exists p', free_table_entries p tab = Some p' /\ pool_ok p' /\
    canvas_map p' = foldl Z.clearbit (canvas_map p)
      (concat ((fun v => [canvas_0 v; canvas_1 v; canvas_2 v; canvas_3 v]) <$> tab)).
Proof.
  revert p. induction tab as [|v tab IH]; intros p Hok; [by exists p|].
  cbn [free_table_entries]. destruct (free_table_entry_eq p v Hok) as (p1 & -> & Hok1 & E1).
  cbn [mbind option_bind]. destruct (IH p1 Hok1) as (p2 & -> & Hok2 & E2).
  exists p2. split_and!; [done..|]. rewrite E2, E1, fmap_cons. cbn [concat].
  by rewrite foldl_app.
Qed.

(** ** Runs *)

(** The bytes of a table entry, low byte first, for the run that starts at [c]. *)
Definition run_bytes (t : canvas_map_type_e) (c : Z) : list Z :=
  match t with
  | CANVAS_MAP_TYPE_1 => [c; 0; 0; 0]
  | CANVAS_MAP_TYPE_NV21 => [c; c + 1; c + 1; 0]
  | CANVAS_MAP_TYPE_YUV => [c; c + 1; c + 2; 0]
  | CANVAS_MAP_TYPE_4 => [c; c + 1; c + 2; c + 3]
  | CANVAS_MAP_TYPE_other _ => [0; 0; 0; 0]
  end.

Definition entry_bytes (v : Z) : list Z := [canvas_0 v; canvas_1 v; canvas_2 v; canvas_3 v].

Lemma entry_bytes_sum b0 b1 b2 b3 :
  0 <= b0 < 256 -> 0 <= b1 < 256 -> 0 <= b2 < 256 -> 0 <= b3 < 256 ->
  entry_bytes (u32 (b0 + b1 * 2 ^ 8 + b2 * 2 ^ 16 + b3 * 2 ^ 24)) = [b0; b1; b2; b3].
Proof.
  intros. unfold entry_bytes, canvas_0, canvas_1, canvas_2, canvas_3. rewrite u32_small by lia.
  change 0xff with (Z.ones 8). rewrite !Z.land_ones, !Z.shiftr_div_pow2 by lia.
  repeat (apply (f_equal2 cons)); try done; Z.to_euclidean_division_equations; lia.
Qed.

(** Short sequences spelled out. *)
Lemma seqZ_run t c :
  seqZ c (Z.of_nat (run_len t)) =
  match t with
  | CANVAS_MAP_TYPE_1 => [c] | CANVAS_MAP_TYPE_NV21 => [c; c + 1]
  | CANVAS_MAP_TYPE_YUV => [c; c + 1; c + 2] | CANVAS_MAP_TYPE_4 => [c; c + 1; c + 2; c + 3]
  | CANVAS_MAP_TYPE_other _ => []
  end.
Proof.
  destruct t; simpl; unfold seqZ; simpl; repeat (apply (f_equal2 cons); [lia|]); done.
Qed.

Lemma run_val_bytes t c :
  1 <= c -> c + Z.of_nat (run_len t) <= 256 -> (0 < run_len t)%nat ->
  entry_bytes (quad_val t (quad (seqZ c (Z.of_nat (run_len t))))) = run_bytes t c.
Proof.
  intros Hc Hr Hn. rewrite seqZ_run.
  destruct t; simpl in Hn, Hr; try lia; cbn [quad quad_val run_bytes]; unfold run_val.
  - rewrite <- (entry_bytes_sum c 0 0 0) by lia. do 2 f_equal. lia.
  - rewrite (lor_add _ _ 8), (lor_add _ _ 16) by lia.
    rewrite <- (entry_bytes_sum c (c + 1) (c + 1) 0) by lia. do 2 f_equal. lia.
  - rewrite (lor_add _ _ 8), (lor_add _ _ 16) by lia.
    rewrite <- (entry_bytes_sum c (c + 1) (c + 2) 0) by lia. do 2 f_equal. lia.
  - rewrite (lor_add _ _ 8), (lor_add _ _ 16), (lor_add _ _ 24) by lia.
    by rewrite <- (entry_bytes_sum c (c + 1) (c + 2) (c + 3)) by lia.
Qed.

(** A run is found when the allocations returned consecutive indices. *)
Lemma quad_found_seq t l :
  length l = run_len t -> quad_found t (quad l) = true ->
  (0 < run_len t)%nat /\ exists c, 1 <= c /\ l = seqZ c (Z.of_nat (run_len t)).
Proof.
  intros Hlen Hf.
  destruct t, l as [|x [|x1 [|x2 [|x3 [|x4 l]]]]]; try discriminate Hlen; try discriminate Hf.
  all: cbn [quad quad_found run_found] in Hf; b2p; split; [simpl; lia|].
  all: exists x; split; [lia|]; rewrite seqZ_run.
  all: repeat (apply (f_equal2 cons); [lia|]); done.
Qed.

Lemma taken_nonneg l : Forall (fun i => 0 <= i) l -> taken l = l.
Proof.
  unfold taken. induction 1; [done|]. rewrite filter_cons_True by done. by f_equal.
Qed.

(** The canvases [c .. c+n-1] were free in [m] and are the ones [m'] adds. *)
Definition run_added (m m' c : Z) (n : nat) : Prop :=
  1 <= c /\ c + Z.of_nat n <= 256 /\
  (forall j, c <= j < c + Z.of_nat n -> Z.testbit m j = false) /\
  (forall j, Z.testbit m' j = ((c <=? j) && (j <? c + Z.of_nat n)) || Z.testbit m j).

(** [own] never held what it returns: only the owner history of free canvases
    can differ. *)
Definition only_history (p p' : canvas_pool) : Prop :=
  canvas_map p' = canvas_map p /\ free_num p' = free_num p /\
  forall j, Z.testbit (canvas_map p) j = true -> aget (info p') j = aget (info p) j.

Lemma only_history_refl p : only_history p p.
Proof. done. Qed.
Lemma only_history_trans p q r : only_history p q -> only_history q r -> only_history p r.
Proof.
  intros (M1 & F1 & I1) (M2 & F2 & I2). split_and!; [congruence..|].
  intros j Hj. rewrite I2, I1; [done..|]. by rewrite M1.
Qed.

(** The outcome of an attempt. *)
Lemma try_run_outcome p jiffies own t start :
  pool_ok p -> Z.testbit (canvas_map p) 0 = true -> 0 <= start ->
  match try_run p jiffies own t start with
  | Some (inr (v, p')) =>
      pool_ok p' /\ exists c, run_added (canvas_map p) (canvas_map p') c (run_len t) /\
        (0 < run_len t)%nat /\ entry_bytes v = run_bytes t c
  | Some (inl p') => pool_ok p' /\ only_history p p'
  | None => False
  end.
Proof.
  intros Hok H0 Hs. rewrite try_run_eq by done.
  pose proof (picks_fresh p (run_len t) Hok H0) as Hfr.
  destruct (alloc_n_eq (run_len t) p jiffies own Hok) as [_ Hok'].
  set (l := picks _ _ _) in *. destruct (quad_found t (quad l)) eqn:Ef.
  - split; [done|]. destruct (quad_found_seq t l) as (Hn & c & Hc & El); [apply picks_length|done|].
    assert (taken l = l) as Et.
    { apply taken_nonneg. rewrite El. apply Forall_forall. intros i Hi%elem_of_seqZ. lia. }
    rewrite Et in Hfr |- *. pose proof (fresh_range _ _ Hfr) as Hr.
    assert (c + Z.of_nat (run_len t) <= 256).
    { rewrite Forall_forall in Hr. specialize (Hr (c + Z.of_nat (run_len t) - 1)).
      rewrite El, elem_of_seqZ in Hr. lia. }
    exists c. split_and!; [|done|by rewrite El, run_val_bytes].
    split_and!; [lia..| |].
    + intros j Hj. destruct Hfr as [_ Hfr]. rewrite Forall_forall in Hfr.
      apply Hfr. rewrite El, elem_of_seqZ. lia.
    + intros j. rewrite after_allocs_map, testbit_setbits by (by eapply fresh_nonneg).
      f_equal. apply eq_true_iff_eq. rewrite bool_decide_eq_true, andb_true_iff, Z.leb_le, Z.ltb_lt.
      rewrite El, elem_of_seqZ. lia.
  - split; [apply with_next_ok; [by apply retire_ok|case_goal; lia]|].
    split_and!; [done..|]. intros j Hj. cbn [with_next info]. rewrite aget_retire by done.
    case_bool_decide as Hin; [|done]. destruct Hfr as [_ Hfr]. rewrite Forall_forall in Hfr.
    destruct (Hfr j Hin). congruence.
Qed.

Lemma run_retry_outcome n p jiffies own t start :
  pool_ok p -> Z.testbit (canvas_map p) 0 = true -> 0 <= start ->
  exists ret v p', run_retry n p jiffies own t start = Some (ret, v, p') /\ pool_ok p' /\
  ((ret = 0 /\ exists c, run_added (canvas_map p) (canvas_map p') c (run_len t) /\
      (0 < run_len t)%nat /\ entry_bytes v = run_bytes t c) \/
   (ret = -1 /\ only_history p p')).
Proof.
  revert p. induction n as [|n IH]; intros p Hok H0 Hs; cbn [run_retry];
    pose proof (try_run_outcome p jiffies own t start Hok H0 Hs) as Ho;
    destruct (try_run p jiffies own t start) as [[p'|[v p']]|]; try done; cbn [mbind option_bind].
  - destruct Ho. do 3 eexists. split; [done|]. split; [done|]. by right.
  - destruct Ho. do 3 eexists. split; [done|]. split; [done|]. by left.
  - destruct Ho as (Hok' & Hh). destruct (IH p') as (ret & v & p'' & E & Hok'' & Hr);
      [done|by rewrite (proj1 Hh)|done|].
    exists ret, v, p''. split; [done|]. split; [done|]. rewrite <- (proj1 Hh).
    destruct Hr as [Hr|[-> Hr]]; [by left|right]. split; [done|]. by eapply only_history_trans.
  - destruct Ho. do 3 eexists. split; [done|]. split; [done|]. by left.
Qed.

(** ** The retries of the run allocation *)

Lemma with_next_twice p a b : with_next (with_next p a) b = with_next p b.
Proof. done. Qed.

Lemma retire_with_next own p l n : retire own (with_next p n) l = with_next (retire own p l) n.
Proof. done. Qed.

Lemma fresh_with_next p n l : fresh (with_next p n) l <-> fresh p l.
Proof. done. Qed.

(** After a failed attempt the next one starts at [start + 1], or at 1, and if
    it fails too it leaves the pool as it found it. *)
Lemma second_attempt_fixpoint p jiffies own t start p1 p2 :
  pool_ok p -> Z.testbit (canvas_map p) 0 = true -> 0 <= start ->
  try_run p jiffies own t start = Some (inl p1) ->
  try_run p1 jiffies own t start = Some (inl p2) ->
  try_run p2 jiffies own t start = Some (inl p2).
Proof.
  intros Hok H0 Hs E1 E2.
  pose proof (try_run_outcome p jiffies own t start Hok H0 Hs) as O1. rewrite E1 in O1.
  destruct O1 as [Hok1 (M1 & _)].
  assert (Z.testbit (canvas_map p1) 0 = true) as H1 by (by rewrite M1).
  pose proof (try_run_outcome p1 jiffies own t start Hok1 H1 Hs) as O2. rewrite E2 in O2.
  destruct O2 as [Hok2 (M2 & _)].
  assert (next_alloced_index p1 = if start + 1 <? 256 - map_type_val t then start + 1 else 1) as N1.
  { rewrite try_run_eq in E1 by done. case_hyp E1; inv_some. done. }
  rewrite try_run_eq in E2 |- * by (done || by rewrite M2, M1).
  rewrite M2.
  assert (next_alloced_index p2 = next_alloced_index p1) as N2.
  { case_hyp E2; inv_some. by rewrite N1. }
  rewrite N2. case_hyp E2; inv_some. do 2 f_equal.
  rewrite retire_with_next, with_next_twice, retire_idem; [done|by apply picks_fresh].
Qed.

Lemma run_retry_settles n p jiffies own t start p1 p2 :
  pool_ok p -> Z.testbit (canvas_map p) 0 = true -> 0 <= start ->
  try_run p jiffies own t start = Some (inl p1) ->
  try_run p1 jiffies own t start = Some (inl p2) ->
  run_retry n p2 jiffies own t start = Some (-1, 0, p2).
Proof.
  intros Hok H0 Hs E1 E2.
  pose proof (second_attempt_fixpoint p jiffies own t start p1 p2 Hok H0 Hs E1 E2) as E3.
  induction n as [|n IH]; cbn [run_retry]; rewrite E3; simpl; [done|apply IH].
Qed.

Lemma run_retry_two n p jiffies own t start :
  pool_ok p -> Z.testbit (canvas_map p) 0 = true -> 0 <= start ->
  run_retry (S n) p jiffies own t start = run_retry 1 p jiffies own t start.
Proof.
  intros Hok H0 Hs. cbn [run_retry].
  destruct (try_run p jiffies own t start) as [[p1|[v p1]]|] eqn:E1; simpl; [|done..].
  destruct n as [|n]; [done|]. cbn [run_retry].
  destruct (try_run p1 jiffies own t start) as [[p2|[v p2]]|] eqn:E2; simpl; [|done..].
  by eapply run_retry_settles.
Qed.

(** ** Tables *)

(** The bits of the runs [cs] of type [t]. *)
Definition in_runs (t : canvas_map_type_e) (cs : list Z) (j : Z) : bool :=
  existsb (fun c => (c <=? j) && (j <? c + Z.of_nat (run_len t))) cs.

Lemma fill_table_outcome n p jiffies own t tab i :
  pool_ok p -> Z.testbit (canvas_map p) 0 = true ->
  0 <= i -> i + Z.of_nat n <= Z.of_nat (length tab) ->
  exists err k tab' p', fill_table n p jiffies own t tab i = Some (err, k, tab', p') /\ pool_ok p' /\
    Z.testbit (canvas_map p') 0 = true /\ (err = 0 \/ err = -1) /\ (err = 0 -> k = i + Z.of_nat n) /\
    i <= k <= i + Z.of_nat n /\
    length tab' = length tab /\ take (Z.to_nat i) tab' = take (Z.to_nat i) tab /\
    exists cs, entry_bytes <$> drop (Z.to_nat i) (take (Z.to_nat k) tab') = run_bytes t <$> cs /\
      Forall (fun c => 1 <= c) cs /\ (cs <> [] -> (0 < run_len t)%nat) /\
      (forall j, Z.testbit (canvas_map p') j = in_runs t cs j || Z.testbit (canvas_map p) j) /\
      (forall j, in_runs t cs j = true -> Z.testbit (canvas_map p) j = false).
Proof.
  revert p tab i. induction n as [|n IH]; intros p tab i Hok H0 Hi Hlen.
  { exists 0, i, tab, p. split_and!; (done || lia || eauto). exists [].
    rewrite drop_ge by (rewrite length_take; lia). done. }
  cbn [fill_table]. unfold canvas_pool_map_alloc_canvas_continue_set.
  destruct (run_retry_outcome (Z.to_nat (canvas_max p)) p jiffies own t (next_alloced_index p))
    as (ret & v & p1 & -> & Hok1 & Hr); [done..|apply (ok_next p Hok)|].
  cbn [mbind option_bind]. destruct Hr as [(-> & c & Ha & Hn & Hb)|[-> Hh]].
  - simpl. rewrite aset_in by lia. simpl. destruct Ha as (Hc & Hc' & Hfree & Hset).
    destruct (IH p1 (<[Z.to_nat i:=v]> tab) (i + 1)) as
      (err & k & tab' & p' & E & Hok' & H0' & He & Hk & Hk' & Hl' & Ht & cs & Hcs & H1 & Hne & Hs & Hd).
    { done. } { rewrite Hset, H0. apply orb_true_r. } { lia. } { rewrite length_insert. lia. }
    exists err, k, tab', p'. split; [exact E|]. split; [done|]. split; [done|].
    split; [done|]. split; [lia|]. split; [lia|]. split; [by rewrite Hl', length_insert|].
    assert (take (Z.to_nat i) tab' = take (Z.to_nat i) tab /\ tab' !! Z.to_nat i = Some v) as [Hti Hiv].
    { apply take_S_insert; [lia|]. by replace (S (Z.to_nat i)) with (Z.to_nat (i + 1)) by lia. }
    split; [done|]. exists (c :: cs). split_and!.
    + rewrite fmap_cons. rewrite (drop_S _ v).
      2: { rewrite lookup_take_lt by lia. done. }
      rewrite fmap_cons, Hb. f_equal. rewrite <- Hcs. do 2 f_equal. lia.
    + by constructor.
    + intros _. lia.
    + intros j. rewrite Hs, Hset. simpl. unfold in_runs.
      destruct (existsb _ cs), ((c <=? j) && _); done.
    + intros j Hj. simpl in Hj. apply orb_true_iff in Hj as [Hj|Hj].
      * b2p. apply Hfree. lia.
      * apply Hd in Hj. rewrite Hset in Hj. by apply orb_false_iff in Hj as [_ ?].
  - simpl. exists (-1), i, tab, p1. destruct Hh as (Hm & _ & _). split_and!; (done || lia || eauto).
    + by rewrite Hm.
    + exists []. rewrite drop_ge by (rewrite length_take; lia). split_and!; try done.
      intros j. by rewrite Hm.
Qed.

(** Allocating a table and freeing it again: the effect on the bitmap. *)
Lemma testbit_clear_runs t cs m m' j :
  (forall j, Z.testbit m' j = in_runs t cs j || Z.testbit m j) ->
  (forall j, in_runs t cs j = true -> Z.testbit m j = false) ->
  Forall (fun c => 1 <= c) cs -> (cs <> [] -> (0 < run_len t)%nat) -> 0 <= j ->
  Z.testbit (foldl Z.clearbit m' (concat (run_bytes t <$> cs))) j =
  Z.testbit m j && negb ((j =? 0) && negb (bool_decide (cs = []))
                         && match t with CANVAS_MAP_TYPE_4 => false | _ => true end).
Proof.
  intros Hm' Hd Hc Hn Hj. rewrite testbit_clearbits, Hm'.
  assert (j ∈ concat (run_bytes t <$> cs) <->
          in_runs t cs j = true \/
          (j = 0 /\ cs <> [] /\ match t with CANVAS_MAP_TYPE_4 => False | _ => True end)) as Hin.
  { clear Hm' Hd. induction Hc as [|c cs Hc1 Hcs IH]; simpl.
    { set_solver. }
    rewrite elem_of_app, IH by (intros _; apply Hn; done). unfold in_runs at 2. simpl existsb.
    fold (in_runs t cs j). rewrite orb_true_iff, andb_true_iff, Z.leb_le, Z.ltb_lt.
    assert (0 < run_len t)%nat as Hl by (by apply Hn).
    assert (j ∈ run_bytes t c <-> (c <= j < c + Z.of_nat (run_len t)) \/
              (j = 0 /\ match t with CANVAS_MAP_TYPE_4 => False | _ => True end)) as ->.
    { destruct t; simpl in Hl |- *; try lia; rewrite !elem_of_cons, elem_of_nil; lia. }
    intuition (try congruence). }
  destruct (in_runs t cs j) eqn:Er; simpl.
  - rewrite (Hd j Er), bool_decide_eq_true_2 by (apply Hin; by left). done.
  - destruct (decide (j ∈ concat (run_bytes t <$> cs))) as [Hi|Hi].
    + rewrite bool_decide_eq_true_2 by done. apply Hin in Hi as [?|(-> & Hne & Ht)]; [done|].
      rewrite bool_decide_eq_false_2 by done. destruct t; simpl in *; try done; by rewrite andb_false_r.
    + rewrite bool_decide_eq_false_2 by done. simpl.
      destruct (Z.testbit m j) eqn:Em; [|done]. simpl. symmetry. apply negb_true_iff.
      apply not_true_iff_false. intros Hx. b2p. apply Hi, Hin. right. subst. split_and!; [done| |by destruct t].
      intros ->. done.
Qed.

(** ** Static canvases *)

(** Canvas [i] is registered for [own] and in use. *)
Definition is_static (p : canvas_pool) (own : string) (i : Z) : bool :=
  Z.testbit (canvas_map p) i &&
  match aget (info p) i with
  | Some ci => c_true (fixed_onwer ci) && bool_decide (owner ci = Some own)
  | None => false
  end.

Definition static_canvases (p : canvas_pool) (own : string) : list Z :=
  filter (fun i => is_static p own i = true) (seqZ 0 256).

Lemma static_from_eq n p own size i acc :
  pool_ok p -> 0 <= i -> i + Z.of_nat n <= 256 -> Z.of_nat (length acc) <= size ->
  static_from n p own size i acc =
  Some (take (Z.to_nat size) (acc ++ filter (fun i => is_static p own i = true) (seqZ i (Z.of_nat n)))).
Proof.
  intros Hok. revert i acc. induction n as [|n IH]; intros i acc Hi Hn Hs.
  { simpl. rewrite app_nil_r, take_ge by lia. done. }
  cbn [static_from]. rewrite Nat2Z.inj_succ in Hn |- *. rewrite seqZ_cons by lia.
  rewrite Z.pred_succ. unfold Z.succ in *. destruct (Z.ltb_spec (Z.of_nat (length acc)) size).
  - destruct (pool_aget p i Hok) as [ci Hci]; [lia|]. rewrite Hci. cbn [mbind option_bind].
    destruct (Z.testbit (canvas_map p) i) eqn:Eb.
    + destruct (ok_owner p Hok i ci Eb Hci) as [o Ho].
      assert (is_static p own i = c_true (fixed_onwer ci) && bool_decide (o = own)) as Est.
      { unfold is_static. rewrite Eb, Hci, Ho. simpl. f_equal. apply bool_decide_ext.
        split; congruence. }
      destruct (c_true (fixed_onwer ci)); simpl in *.
      * rewrite Ho. cbn [mbind option_bind]. case_bool_decide.
        -- rewrite IH by (rewrite ?length_app; simpl; lia). rewrite filter_cons_True by done.
           rewrite <- app_assoc. simpl. rewrite u8_small by lia. done.
        -- rewrite IH by lia. rewrite filter_cons_False by (rewrite Est; done). done.
      * rewrite IH by lia. rewrite filter_cons_False by (rewrite Est; done). done.
    + simpl. rewrite IH by lia. rewrite filter_cons_False; [done|].
      unfold is_static. by rewrite Eb.
  - rewrite take_app_le, take_ge by lia. done.
Qed.

(** ** Concurrent allocation

    [canvas_pool_map_alloc_canvas_in] looks for a clear bit without the lock
    and takes it under the lock, then updates the cursor under the lock again.
    Threads run these three parts interleaved; a thread gives back only a
    canvas it holds. *)

Inductive thread :=
| TIdle
| TFind (start_index : Z) (looped : bool)
| TTake (i : Z) (start_index : Z) (looped : bool)
| THeld (i : Z)
| TDone (i : Z)
| TFail.

(** The canvas a thread holds. *)
Definition holds (t : thread) : option Z :=
  match t with THeld i | TDone i => Some i | _ => None end.

Section Concurrent.
Variables (jiffies : Z) (own : string).

(** One atomic step of a thread. *)
Inductive thread_step : canvas_pool -> thread -> canvas_pool -> thread -> Prop :=
| ts_call p :
    thread_step p TIdle p (TFind (next_alloced_index p) (next_alloced_index p <=? 1))
| ts_found p s l i :
    i = find_next_zero_bit (canvas_map p) (canvas_max p) s -> VALID_CANVAS p i = true ->
    thread_step p (TFind s l) p (TTake i s l)
| ts_wrap p s i :
    i = find_next_zero_bit (canvas_map p) (canvas_max p) s -> VALID_CANVAS p i = false ->
    thread_step p (TFind s false) p (TFind 1 true)
| ts_fail p s i :
    i = find_next_zero_bit (canvas_map p) (canvas_max p) s -> VALID_CANVAS p i = false ->
    thread_step p (TFind s true) p TFail
| ts_lost p i s l :
    take_canvas p jiffies own i = Some None -> thread_step p (TTake i s l) p (TFind s l)
| ts_take p p' i s l :
    take_canvas p jiffies own i = Some (Some p') -> thread_step p (TTake i s l) p' (THeld i)
| ts_cursor p i :
    thread_step p (THeld i) (if 0 <? i then advance_cursor p i else p) (TDone i)
| ts_free p p' r i :
    canvas_pool_map_free_canvas p i = Some (r, p') -> thread_step p (TDone i) p' TIdle.

(** A step of the system: one thread moves. *)
Inductive sys_step : canvas_pool * list thread -> canvas_pool * list thread -> Prop :=
| sys_move p ts k t p' t' :
    ts !! k = Some t -> thread_step p t p' t' -> sys_step (p, ts) (p', <[k := t']> ts).

(** What a thread has established so far. *)
Definition thread_ok (p : canvas_pool) (t : thread) : Prop :=
  match t with
  | TIdle | TFail => True
  | TFind s _ => 0 <= s
  | TTake i s _ => 0 <= i < 256 /\ 0 <= s
  | THeld i | TDone i => 0 <= i < 256 /\ Z.testbit (canvas_map p) i = true
  end.

Definition sys_ok (c : canvas_pool * list thread) : Prop :=
  let '(p, ts) := c in
  pool_ok p /\ Forall (thread_ok p) ts /\
  forall k1 k2 t1 t2 i, ts !! k1 = Some t1 -> ts !! k2 = Some t2 ->
    holds t1 = Some i -> holds t2 = Some i -> k1 = k2.

Lemma take_canvas_Some p i r :
  pool_ok p -> 0 <= i < 256 -> take_canvas p jiffies own i = Some r ->
  (Z.testbit (canvas_map p) i = true /\ r = None) \/
  (Z.testbit (canvas_map p) i = false /\ r = Some (after_take p jiffies own i)).
Proof.
  intros Hok Hi H. destruct (Z.testbit (canvas_map p) i) eqn:Eb.
  - left. split; [done|]. unfold take_canvas, test_and_set_bit in H. change map_bits with 320 in H.
    rewrite (proj2 (Z.leb_le 0 i)), (proj2 (Z.ltb_lt i 320)) in H by lia. simpl in H.
    rewrite Eb in H. by inv_some.
  - right. split; [done|]. rewrite take_canvas_clear in H by done. by inv_some.
Qed.

(** What a step does to the bitmap, and what the thread holds after it. *)
Lemma thread_step_effect p t p' t' :
  pool_ok p -> thread_ok p t -> thread_step p t p' t' ->
  pool_ok p' /\ thread_ok p' t' /\
  ((canvas_map p' = canvas_map p /\ holds t' = holds t) \/
   (exists i, holds t = None /\ holds t' = Some i /\ Z.testbit (canvas_map p) i = false /\
      0 <= i /\ canvas_map p' = Z.setbit (canvas_map p) i) \/
   (exists i, holds t = Some i /\ holds t' = None /\ canvas_map p' = Z.clearbit (canvas_map p) i)).
Proof.
  intros Hok Ht Hs. destruct Hs as [p|p s l i Hi V|p s i Hi V|p s i Hi V|p i s l E|p p' i s l E|p i|p p' r i E];
    simpl in Ht.
  - split_and!; [done|apply (ok_next p Hok)|by left].
  - unfold VALID_CANVAS in V. rewrite (ok_max p Hok) in V. b2p.
    split; [done|]. split; [simpl; lia|by left].
  - split; [done|]. split; [simpl; lia|by left].
  - split_and!; [done..|by left].
  - split_and!; [done|apply Ht|by left].
  - apply take_canvas_Some in E as [[_ E]|[Eb E]]; [done| |done|lia]. injection E as ->.
    split; [apply after_take_ok; [done|lia]|]. split.
    + split; [lia|]. simpl. rewrite testbit_setbit, Z.eqb_refl by lia. done.
    + right; left. exists i. split_and!; (done || lia).
  - assert (canvas_map (if 0 <? i then advance_cursor p i else p) = canvas_map p) as Em by (by case_goal).
    split; [|split; [|by left]].
    + case_goal; [|done]. destruct Hok as [Hm ? ? ? ? ? ?]. split; simpl; auto.
      * case_goal; b2p; lia.
      * apply s32_range.
    + simpl. by rewrite Em.
  - unfold canvas_pool_map_free_canvas in E.
    rewrite free_canvas_in_eq in E by (done || apply Ht). inv_some.
    split; [apply after_free_ok; [done|apply Ht]|]. split; [done|].
    right; right. by exists i.
Qed.

Lemma sys_step_ok c c' : sys_step c c' -> sys_ok c -> sys_ok c'.
Proof.
  intros Hs Hok. destruct Hs as [p ts k t p' t' Hk Ht]. destruct Hok as (Hok & Hf & Hx).
  assert (thread_ok p t) as Htok by (by eapply Forall_lookup_1).
  destruct (thread_step_effect p t p' t' Hok Htok Ht) as (Hok' & Htok' & He).
  assert (k < length ts)%nat as Hlt by (by eapply lookup_lt_Some).
  assert (forall j u, <[k:=t']> ts !! j = Some u ->
            (j = k /\ u = t') \/ (j <> k /\ ts !! j = Some u)) as Hlk.
  { intros j u Hj. destruct (decide (j = k)) as [->|Hne].
    - rewrite list_lookup_insert_eq in Hj by done. left. split; congruence.
    - rewrite list_lookup_insert_ne in Hj by done. by right. }
  split; [done|]. split.
  - apply Forall_lookup_2. intros j u Hj. destruct (Hlk j u Hj) as [[-> ->]|[Hne Hj']]; [done|].
    pose proof (Forall_lookup_1 _ _ _ _ Hf Hj') as Hu.
    destruct u as [| | |i|i|]; try done; destruct Hu as [Hi Hb]; (split; [done|]).
    all: destruct He as [[-> _]|[(n & _ & _ & _ & Hn0 & ->)|(n & Hn & _ & ->)]]; [done|..].
    all: rewrite ?testbit_setbit, ?testbit_clearbit, Hb by done; rewrite ?orb_true_r, ?andb_true_r; try done.
    all: apply negb_true_iff, Z.eqb_neq; intros ->; apply Hne; eapply Hx; eauto.
  - intros k1 k2 t1 t2 i H1 H2 Hh1 Hh2.
    destruct (Hlk _ _ H1) as [[-> ->]|[N1 H1']], (Hlk _ _ H2) as [[-> ->]|[N2 H2']]; [done|..|].
    + exfalso. destruct He as [[_ Heq]|[(n & _ & Hn & Hb & _)|(n & _ & Hn & _)]].
      * apply N2. eapply Hx; eauto. congruence.
      * rewrite Hn in Hh1. injection Hh1 as ->. pose proof (Forall_lookup_1 _ _ _ _ Hf H2') as Hu.
        destruct t2; try done; injection Hh2 as ->; destruct Hu; congruence.
      * congruence.
    + exfalso. destruct He as [[_ Heq]|[(n & _ & Hn & Hb & _)|(n & _ & Hn & _)]].
      * apply N1. eapply Hx; eauto. congruence.
      * rewrite Hn in Hh2. injection Hh2 as ->. pose proof (Forall_lookup_1 _ _ _ _ Hf H1') as Hu.
        destruct t1; try done; injection Hh1 as ->; destruct Hu; congruence.
      * congruence.
    + eapply Hx; eauto.
Qed.

End Concurrent.

(** ** Operations never leave the defined behaviour *)

Lemma fill_table_total n p jiffies own t tab i :
  pool_ok p -> 0 <= i -> i + Z.of_nat n <= Z.of_nat (length tab) ->
  exists err k tab' p', fill_table n p jiffies own t tab i = Some (err, k, tab', p') /\
    pool_ok p' /\ length tab' = length tab /\ i <= k <= i + Z.of_nat n.
Proof.
  revert p tab i. induction n as [|n IH]; intros p tab i Hok Hi Hl; cbn [fill_table].
  { do 4 eexists. split; [done|]. split_and!; (done || lia). }
  destruct (continue_set_total p jiffies own t Hok) as (ret & v & p1 & -> & Hok1 & Hr).
  cbn [mbind option_bind]. destruct Hr as [->| ->]; simpl.
  - rewrite aset_in by lia. simpl.
    destruct (IH p1 (<[Z.to_nat i:=v]> tab) (i + 1)) as (e & k & tab' & p' & -> & Hok' & Hl' & Hk);
      [done|lia|rewrite length_insert; lia|].
    do 4 eexists. split; [done|]. rewrite length_insert in Hl'. split_and!; (done || lia).
  - do 4 eexists. split; [done|]. split_and!; (done || lia).
Qed.

Lemma free_canvas_table_total p tab size :
  pool_ok p -> 0 <= size <= Z.of_nat (length tab) ->
  exists tab' p', canvas_pool_free_canvas_table p tab size = Some (0, tab', p') /\ pool_ok p'.
Proof.
  intros Hok Hs. unfold canvas_pool_free_canvas_table.
  rewrite (proj2 (Z.ltb_ge size 0)), (proj2 (Z.ltb_ge _ size)) by lia. simpl.
  destruct (free_table_entries_eq p (take (Z.to_nat size) tab) Hok) as (p' & -> & Hok' & _).
  simpl. eauto.
Qed.

Lemma alloc_canvas_table_total p jiffies own tab size t :
  pool_ok p -> 0 <= size <= Z.of_nat (length tab) ->
  exists err tab' p', canvas_pool_alloc_canvas_table p jiffies own tab size t = Some (err, tab', p') /\
    pool_ok p'.
Proof.
  intros Hok Hs. unfold canvas_pool_alloc_canvas_table.
  destruct (fill_table_total (Z.to_nat size) p jiffies own t tab 0) as
    (e & k & tab' & p' & -> & Hok' & Hl & Hk); [done|lia..|].
  cbn [mbind option_bind]. pose proof (ok_next p Hok) as Hn. case_goal.
  - case_goal; [|eauto].
    destruct (free_canvas_table_total p' tab' k Hok') as (tab2 & p2 & -> & Hok2); [lia|].
    simpl. eauto.
  - do 3 eexists. split; [done|].
    case_goal; repeat apply with_next_ok; try done; lia.
Qed.

Lemma show_lines_range line_size rc n p max i size ci c ls i' size' :
  show_lines line_size rc n p max i size ci c = Some (ls, i', size') ->
  0 <= i -> 0 <= i'.
Proof.
  revert i size ci c ls i' size'. induction n as [|n IH]; intros i size ci c ls i' size' H Hi;
    cbn [show_lines] in H; [by inv_some|].
  case_hyp H; [|by inv_some].
  destruct (canvas_pool_get_canvas_info p i) as [[r o]|]; simpl in H; [|done].
  destruct (show_lines _ _ n _ _ _ _ _ _) as [[[ls1 i1] s1]|] eqn:E1; simpl in H; [|done].
  inv_some. eapply IH; [exact E1|lia].
Qed.

Lemma map_show_ok hz line_size rc p jiffies c ls size p' :
  pool_ok p -> canvas_pool_map_show hz line_size rc p jiffies c = Some (ls, size, p') -> pool_ok p'.
Proof.
  intros Hok H. unfold canvas_pool_map_show in H.
  destruct (show_lines _ _ _ _ _ _ _ _ _) as [[[ls1 i1] s1]|] eqn:E1; simpl in H; [|done]. inv_some.
  apply show_lines_range in E1.
  - destruct Hok as [Hm ? ? ? ? ? ?]. split; simpl; auto. rewrite Hm. case_goal; b2p; lia.
  - case_goal; [lia|]. apply (ok_dump p Hok).
Qed.

Lemma debug_store_ok p parsed size : pool_ok p -> pool_ok (snd (canvas_pool_debug_store p parsed size)).
Proof.
  intros Hok. unfold canvas_pool_debug_store. destruct parsed; [|done].
  repeat case_goal; simpl; [|by apply with_next_ok|done].
  destruct Hok. by split.
Qed.

Lemma register_from_total n p jiffies own i :
  pool_ok p -> 0 <= i -> i + Z.of_nat n <= 256 -> is_Some (register_from n p jiffies own i).
Proof.
  revert p i. induction n as [|n IH]; intros p i Hok Hi Hn; cbn [register_from]; [by eexists|].
  destruct (register_one p jiffies own i) as [p1|] eqn:E.
  - apply IH; [by eapply register_one_ok|lia..].
  - unfold register_one, test_and_set_bit in E. rewrite (proj2 (Z.leb_le 0 i)), (proj2 (Z.ltb_lt i map_bits)) in E by (change map_bits with 320; lia).
    cbn [mbind option_bind] in E. rewrite aset_in in E by (rewrite (ok_info p Hok); lia). done.
Qed.
Lemma register_const_total p jiffies a b own :
  pool_ok p -> 0 <= a -> b < 256 -> is_Some (canvas_pool_register_const_canvas p jiffies a b own).
Proof.
  intros Hok Ha Hb. unfold canvas_pool_register_const_canvas. destruct (Z.le_gt_cases a b) as [Hle|Hgt].
  - destruct (register_from_total (Z.to_nat (b - a + 1)) p jiffies own a Hok Ha ltac:(lia)) as [p' ->]. by eexists.
  - replace (Z.to_nat (b - a + 1)) with O by lia. by eexists.
Qed.
Lemma show_lines_total line_size rc n p max i size ci c : pool_ok p -> is_Some (show_lines line_size rc n p max i size ci c).
Proof.
  intros Hok. revert i size ci c. induction n as [|n IH]; intros i size ci c; cbn [show_lines]; [by eexists|].
  case_goal; [|by eexists].
  assert (is_Some (canvas_pool_get_canvas_info p i)) as [[r o] ->].
  { unfold canvas_pool_get_canvas_info, VALID_CANVAS. case_goal; [by eexists|]. b2p. rewrite (ok_max p Hok) in *.
    destruct (aget_is_Some (info p) i) as [x ->]; [rewrite (ok_info p Hok); lia|by eexists]. }
  cbn [mbind option_bind]. match goal with |- context [show_lines _ _ n p max ?i ?s ?ci ?c] => destruct (IH i s ci c) as [[[ls i1] s1] ->] end. by eexists.
Qed.
Lemma map_show_total hz line_size rc p jiffies c : pool_ok p -> is_Some (canvas_pool_map_show hz line_size rc p jiffies c).
Proof.
  intros Hok. unfold canvas_pool_map_show.
  match goal with |- context [show_lines ?l ?r ?n p ?m ?i ?s ?ci ?c] => destruct (show_lines_total l r n p m i s ci c Hok) as [[[ls i1] s1] ->] end. by eexists.
Qed.

(** A call into the pool. *)
Inductive pool_step : canvas_pool -> canvas_pool -> Prop :=
| ps_alloc p jiffies own i p' :
    canvas_pool_map_alloc_canvas p jiffies own = Some (i, p') -> pool_step p p'
| ps_free p i r p' : canvas_pool_map_free_canvas p i = Some (r, p') -> pool_step p p'
| ps_alloc_table p jiffies own tab size t r tab' p' :
    0 <= size <= Z.of_nat (length tab) ->
    canvas_pool_alloc_canvas_table p jiffies own tab size t = Some (r, tab', p') -> pool_step p p'
| ps_free_table p tab size r tab' p' :
    0 <= size <= Z.of_nat (length tab) ->
    canvas_pool_free_canvas_table p tab size = Some (r, tab', p') -> pool_step p p'
| ps_register p jiffies a b own r p' :
    canvas_pool_register_const_canvas p jiffies a b own = Some (r, p') -> pool_step p p'
| ps_show p hz line_size rc jiffies c ls size p' :
    canvas_pool_map_show hz line_size rc p jiffies c = Some (ls, size, p') -> pool_step p p'
| ps_debug p parsed size : pool_step p (snd (canvas_pool_debug_store p parsed size)).

Lemma pool_step_ok p p' : pool_step p p' -> pool_ok p -> pool_ok p'.
Proof.
  intros Hs Hok. destruct Hs as [p j o i p' E|p i r p' E|p j o tab size t r tab' p' Hr E
    |p tab size r tab' p' Hr E|p j a b o r p' E|p hz ls rc j c l size p' E|p parsed size].
  - exact (alloc_in_ok _ _ _ _ _ Hok E).
  - destruct (free_in_ok p i Hok) as (r' & q & E' & Hq). unfold canvas_pool_map_free_canvas in E.
    congruence.
  - destruct (alloc_canvas_table_total p j o tab size t Hok Hr) as (? & ? & ? & E' & Hq). congruence.
  - destruct (free_canvas_table_total p tab size Hok Hr) as (? & ? & E' & Hq). congruence.
  - by eapply register_const_ok.
  - by eapply map_show_ok.
  - by apply debug_store_ok.
Qed.

(** * Correctness of the index manager *)

(** The pool after the boot-time registrations at tick [j], for concrete runs. *)
Definition boot_pool (j : Z) : canvas_pool := default canvas_pool_init (canvas_pool_config j).

Lemma boot_pool_ok : pool_ok (boot_pool 0).
Proof.
  apply (pool_config_ok 0). unfold boot_pool.
  assert (is_Some (canvas_pool_config 0)) as [p Hp] by (eexists; vm_compute; reflexivity).
  by rewrite Hp.
Qed.

(** C38. Next-fit allocation: an allocation returns; the index is the first clear
    bit at or after the cursor, or else the first one from 1 on, and only its
    bit and its owner entry change; it is -1, with the pool unchanged, exactly
    when no bit from 1 (from 0 when the cursor is 0) is clear. *)
Theorem alloc_canvas_next_fit p jiffies own :
  pool_ok p ->
  exists i p', canvas_pool_map_alloc_canvas p jiffies own = Some (i, p') /\ pool_ok p' /\
  ((i = -1 /\ p' = p /\ all_set (canvas_map p) (Z.min 1 (next_alloced_index p)) 256) \/
   ((first_clear (canvas_map p) (next_alloced_index p) 256 i \/
     (all_set (canvas_map p) (next_alloced_index p) 256 /\ first_clear (canvas_map p) 1 256 i)) /\
    canvas_map p' = Z.setbit (canvas_map p) i /\
    (forall j, j <> i -> aget (info p') j = aget (info p) j) /\
    owner <$> aget (info p') i = Some (Some own))).
Proof.
  intros Hok. pose proof (ok_max p Hok) as Hm. pose proof (ok_next p Hok) as Hn.
  destruct (alloc_in_total p jiffies own Hok) as (i & p' & E & Hok' & _).
  exists i, p'. split; [exact E|]. split; [done|].
  rewrite alloc_in_eq, Hm in E by done. cbv zeta in E.
  pose proof (next_fit_spec (canvas_map p) 256 (next_alloced_index p) Hn ltac:(lia)) as Hs.
  set (k := next_fit _ _ _) in *. cbv zeta in Hs.
  destruct (Z.leb_spec 0 k); inv_some.
  - right. assert (0 <= k < 256).
    { destruct Hs as [(? & _)|[(_ & _ & ? & _)|[? _]]]; lia. }
    assert (info (after_alloc p jiffies own k) = info (after_take p jiffies own k)) as Hi
      by (unfold after_alloc; by case_goal).
    rewrite Hi, after_alloc_map. simpl. pose proof (ok_info p Hok). split_and!.
    + destruct Hs as [?|[(? & _ & ?)|[? _]]]; [by left|by right|lia].
    + done.
    + intros j Hj. rewrite aget_insert by lia. by rewrite (proj2 (Z.eqb_neq j k)).
    + rewrite aget_insert, Z.eqb_refl by lia. done.
  - left. split_and!; [done..|]. destruct Hs as [(? & _)|[(_ & _ & ? & _)|[_ ?]]]; [lia..|done].
Qed.

Lemma alloc_canvas_next_fit_witness :
  exists i p', canvas_pool_map_alloc_canvas (boot_pool 0) 5 "ge2d" = Some (i, p') /\ pool_ok p' /\ i = 216.
Proof.
  destruct (alloc_canvas_next_fit (boot_pool 0) 5 "ge2d" boot_pool_ok) as (i & p' & E & Hok & _).
  exists i, p'. split; [exact E|]. split; [exact Hok|].
  assert (fst <$> canvas_pool_map_alloc_canvas (boot_pool 0) 5 "ge2d" = Some 216) as H
    by (vm_compute; reflexivity).
  rewrite E in H. by injection H.
Defined.

(** Allocating a canvas and releasing it restores the bitmap, the free counter
    and the entries of all other canvases. *)
Theorem alloc_free_roundtrip p jiffies own i p' :
  pool_ok p -> canvas_pool_map_alloc_canvas p jiffies own = Some (i, p') -> 0 < i ->
  exists p'', canvas_pool_map_free_canvas p' i = Some (0, p'') /\
    canvas_map p'' = canvas_map p /\ free_num p'' = free_num p /\
    (forall j, j <> i -> aget (info p'') j = aget (info p) j).
Proof.
  intros Hok E Hi. pose proof (alloc_in_ok _ _ _ _ _ Hok E) as Hok'.
  unfold canvas_pool_map_alloc_canvas in E. rewrite alloc_in_eq, (ok_max p Hok) in E by done.
  cbv zeta in E.
  pose proof (next_fit_range (canvas_map p) 256 (next_alloced_index p) (ok_next p Hok) ltac:(lia)) as Hr.
  set (k := next_fit _ _ _) in *. cbv zeta in Hr.
  destruct (Z.leb_spec 0 k); inv_some; [|lia]. destruct Hr as [?|[Hr Hb]]; [lia|].
  set (i := k) in *. assert (fresh p [i]) as Hfr
    by (split; [apply NoDup_singleton|repeat constructor; [lia..|done]]).
  pose proof (after_free_ok _ i Hok' ltac:(lia)) as Hok2.
  pose proof (alloc_free_effect jiffies own p [i] Hok Hfr Hok2) as He.
  exists (after_free (after_alloc p jiffies own i) i).
  split; [by apply free_canvas_in_eq|]. cbn [after_frees after_allocs foldl] in He. rewrite He.
  split; [done|]. split; [done|]. intros j Hj. cbn [with_next info]. rewrite aget_retire by done.
  rewrite bool_decide_eq_false_2; [done|]. rewrite list_elem_of_singleton. done.
Qed.

Lemma alloc_free_roundtrip_witness :
  exists p'' p', canvas_pool_map_alloc_canvas (boot_pool 0) 5 "ge2d" = Some (216, p') /\
    canvas_pool_map_free_canvas p' 216 = Some (0, p'') /\
    canvas_map p'' = canvas_map (boot_pool 0).
Proof.
  destruct (canvas_pool_map_alloc_canvas (boot_pool 0) 5 "ge2d") as [[i p']|] eqn:E.
  - assert (fst <$> canvas_pool_map_alloc_canvas (boot_pool 0) 5 "ge2d" = Some 216) as H
      by (vm_compute; reflexivity).
    rewrite E in H. injection H as ->.
    destruct (alloc_free_roundtrip (boot_pool 0) 5 "ge2d" 216 p' boot_pool_ok E) as (p'' & Hf & Hm & _);
      [lia|].
    exists p'', p'. split; [reflexivity|]. split; [exact Hf|exact Hm].
  - exfalso. assert (fst <$> canvas_pool_map_alloc_canvas (boot_pool 0) 5 "ge2d" = Some 216) as H
      by (vm_compute; reflexivity).
    rewrite E in H. discriminate H.
Defined.

(** Run allocation is all or nothing: with canvas 0 in use, the call returns 0
    after taking exactly [run_len t] consecutive canvases that were free, with
    their indices in the bytes of the entry in the documented order, or -1 with
    the bitmap, the free counter and the entries of canvases in use unchanged. *)
Theorem continue_set_all_or_nothing p jiffies own t :
  pool_ok p -> Z.testbit (canvas_map p) 0 = true ->
  exists ret v p', canvas_pool_map_alloc_canvas_continue_set p jiffies own t = Some (ret, v, p') /\
  pool_ok p' /\
  ((ret = 0 /\ exists c, run_added (canvas_map p) (canvas_map p') c (run_len t) /\
      (0 < run_len t)%nat /\ entry_bytes v = run_bytes t c) \/
   (ret = -1 /\ only_history p p')).
Proof.
  intros Hok H0. apply run_retry_outcome; [done..|]. apply (ok_next p Hok).
Qed.

Lemma continue_set_all_or_nothing_witness :
  exists v p', canvas_pool_map_alloc_canvas_continue_set (boot_pool 0) 5 "ge2d" CANVAS_MAP_TYPE_YUV
               = Some (0, v, p') /\ entry_bytes v = [0xd8; 0xd9; 0xda; 0].
Proof.
  destruct (continue_set_all_or_nothing (boot_pool 0) 5 "ge2d" CANVAS_MAP_TYPE_YUV boot_pool_ok
              ltac:(vm_compute; reflexivity)) as (ret & v & p' & E & _ & Hr).
  assert (fst <$> canvas_pool_map_alloc_canvas_continue_set (boot_pool 0) 5 "ge2d" CANVAS_MAP_TYPE_YUV
          = Some (0, 0xdad9d8)) as H by (vm_compute; reflexivity).
  rewrite E in H. injection H as -> ->. exists 0xdad9d8, p'. split; [exact E|reflexivity].
Defined.

(** The retries: the cursor is put back to [start + 1] after every failed
    attempt, so the up to 257 attempts of the call do no more than two: one at
    the cursor and one at the next position. *)
Theorem continue_set_two_attempts p jiffies own t :
  pool_ok p -> Z.testbit (canvas_map p) 0 = true ->
  canvas_pool_map_alloc_canvas_continue_set p jiffies own t =
  run_retry 1 p jiffies own t (next_alloced_index p).
Proof.
  intros Hok H0. unfold canvas_pool_map_alloc_canvas_continue_set. rewrite (ok_max p Hok).
  apply (run_retry_two 255); [done..|]. apply (ok_next p Hok).
Qed.

Lemma continue_set_two_attempts_witness :
  canvas_pool_map_alloc_canvas_continue_set (boot_pool 0) 5 "ge2d" CANVAS_MAP_TYPE_4 =
  run_retry 1 (boot_pool 0) 5 "ge2d" CANVAS_MAP_TYPE_4 128.
Proof.
  apply (continue_set_two_attempts (boot_pool 0) 5 "ge2d" CANVAS_MAP_TYPE_4 boot_pool_ok).
  vm_compute. reflexivity.
Defined.

(** A pool in which canvases 10, 12 and 20..23 are free, the cursor at 5. *)
Definition holes_pool : canvas_pool :=
  mk_canvas_pool 256 0 (replicate 256 (mk_canvas_info (Some "amvdec"%string) 0 None 0))
    (Z.ldiff (Z.ones 256) (2 ^ 10 + 2 ^ 12 + 2 ^ 20 + 2 ^ 21 + 2 ^ 22 + 2 ^ 23)) 5 0 0.

(** The retries miss runs that exist: with canvases 10, 12 and 20..23 free and
    the cursor at 5, a run of four is refused although 20..23 is one. *)
Theorem continue_set_misses_run :
  fst <$> canvas_pool_map_alloc_canvas_continue_set holes_pool 0 "ge2d" CANVAS_MAP_TYPE_4
  = Some (-1, 0) /\
  forall j, 20 <= j < 24 -> Z.testbit (canvas_map holes_pool) j = false.
Proof.
  split; [vm_compute; reflexivity|]. intros j Hj.
  assert (j = 20 \/ j = 21 \/ j = 22 \/ j = 23) as [->|[->|[->| ->]]] by lia; reflexivity.
Qed.

(** Table round trip: when a table of runs is allocated with canvas 0 in use
    and then freed, every canvas the table took is free again and no other
    canvas has changed, except that canvas 0 itself is freed too unless the
    runs have four canvases: the zero bytes of the shorter entries are taken
    for canvas 0. *)
Theorem canvas_table_roundtrip p jiffies own tab size t tab' p' :
  pool_ok p -> Z.testbit (canvas_map p) 0 = true -> 0 < size <= Z.of_nat (length tab) ->
  canvas_pool_alloc_canvas_table p jiffies own tab size t = Some (0, tab', p') ->
  exists tab'' p'', canvas_pool_free_canvas_table p' tab' size = Some (0, tab'', p'') /\
    canvas_map p'' = match t with
                     | CANVAS_MAP_TYPE_4 => canvas_map p
                     | _ => Z.clearbit (canvas_map p) 0
                     end.
Proof.
  intros Hok H0 Hs E. unfold canvas_pool_alloc_canvas_table in E.
  destruct (fill_table_outcome (Z.to_nat size) p jiffies own t tab 0) as
    (err & k & tab1 & p1 & Ef & Hok1 & _ & He & Hk & Hk' & Hl & _ & cs & Hcs & Hc1 & Hne & Hset & Hd);
    [done..|lia|lia|].
  rewrite Ef in E. cbn [mbind option_bind] in E. destruct He as [->| ->].
  2: { exfalso. change (c_true (-1)) with true in E. cbv iota in E.
       assert (u32 (-1) <> 0) as Hu by (vm_compute; lia). case_hyp E; [|congruence].
       destruct (free_canvas_table_total p1 tab1 k Hok1) as (? & ? & Ex & _); [lia|].
       rewrite Ex in E. cbn [mbind option_bind] in E. congruence. }
  simpl in E. assert (k = size) as -> by lia.
  assert (canvas_map p' = canvas_map p1 /\ tab' = tab1 /\ pool_ok p') as (Em & -> & Hok').
  { pose proof (ok_next p Hok). inv_some. case_goal; split_and!; try done.
    all: repeat apply with_next_ok; try done; lia. }
  unfold canvas_pool_free_canvas_table.
  rewrite (proj2 (Z.ltb_ge size 0)), (proj2 (Z.ltb_ge _ size)) by lia. simpl.
  destruct (free_table_entries_eq p' (take (Z.to_nat size) tab1) Hok') as (p'' & -> & _ & E2).
  simpl. do 2 eexists. split; [done|]. rewrite E2, Em.
  change (fun v => [canvas_0 v; canvas_1 v; canvas_2 v; canvas_3 v]) with entry_bytes.
  rewrite drop_0 in Hcs. rewrite Hcs.
  assert (cs <> []) as Hcs0.
  { intros ->. apply (f_equal length) in Hcs. rewrite length_fmap, length_take in Hcs. simpl in Hcs. lia. }
  apply Z.bits_inj'. intros j Hj. rewrite (testbit_clear_runs t cs (canvas_map p)) by done.
  rewrite bool_decide_eq_false_2 by done.
  destruct t; rewrite ?testbit_clearbit; simpl; rewrite ?andb_true_r, ?andb_false_r; simpl;
    rewrite ?andb_true_r; try done; apply andb_comm.
Qed.

Lemma canvas_table_roundtrip_witness :
  exists tab' p' tab'' p'',
    canvas_pool_alloc_canvas_table (boot_pool 0) 5 "ge2d" [0; 0] 2 CANVAS_MAP_TYPE_4
      = Some (0, tab', p') /\
    canvas_pool_free_canvas_table p' tab' 2 = Some (0, tab'', p'') /\
    canvas_map p'' = canvas_map (boot_pool 0).
Proof.
  destruct (canvas_pool_alloc_canvas_table (boot_pool 0) 5 "ge2d" [0; 0] 2 CANVAS_MAP_TYPE_4)
    as [[[r tab'] p']|] eqn:E.
  - assert ((fst ∘ fst) <$> canvas_pool_alloc_canvas_table (boot_pool 0) 5 "ge2d" [0; 0] 2 CANVAS_MAP_TYPE_4
            = Some 0) as H by (vm_compute; reflexivity).
    rewrite E in H. simpl in H. injection H as ->.
    destruct (canvas_table_roundtrip (boot_pool 0) 5 "ge2d" [0; 0] 2 CANVAS_MAP_TYPE_4 tab' p'
                boot_pool_ok ltac:(vm_compute; reflexivity) ltac:(simpl; lia) E)
      as (tab'' & p'' & Ef & Em).
    exists tab', p', tab'', p''. split; [reflexivity|]. split; [exact Ef|exact Em].
  - exfalso. assert ((fst ∘ fst) <$> canvas_pool_alloc_canvas_table (boot_pool 0) 5 "ge2d" [0; 0] 2
      CANVAS_MAP_TYPE_4 = Some 0) as H by (vm_compute; reflexivity).
    rewrite E in H. discriminate H.
Defined.

(** C32. Reachable pools: from the boot-time configuration, any sequence of calls
    (allocations, releases, tables, registrations, sysfs reads and writes) that run
    keeps the pool well formed; and there each of them runs without undefined
    behaviour: allocation, release of any index, tables as long as they are said to
    be, registration of ranges inside the 256 canvases, the listing. *)
Theorem pool_reachable_ok jiffies0 p0 p :
  canvas_pool_config jiffies0 = Some p0 -> rtc pool_step p0 p ->
  pool_ok p /\
  (forall jiffies own, is_Some (canvas_pool_map_alloc_canvas p jiffies own)) /\
  (forall i, is_Some (canvas_pool_map_free_canvas p i)) /\
  (forall jiffies own tab size t, 0 <= size <= Z.of_nat (length tab) ->
     is_Some (canvas_pool_alloc_canvas_table p jiffies own tab size t)) /\
  (forall tab size, 0 <= size <= Z.of_nat (length tab) -> is_Some (canvas_pool_free_canvas_table p tab size)) /\
  (forall jiffies a b own, 0 <= a -> b < 256 -> is_Some (canvas_pool_register_const_canvas p jiffies a b own)) /\
  (forall hz line_size rc jiffies c, is_Some (canvas_pool_map_show hz line_size rc p jiffies c)).
Proof.
  intros H0 Hr. assert (pool_ok p) as Hok.
  { apply pool_config_ok in H0. induction Hr; eauto using pool_step_ok. }
  split; [done|]. split_and!.
  - intros. destruct (alloc_in_total p jiffies own Hok) as (? & ? & E & _). by eexists.
  - intros. destruct (free_in_ok p i Hok) as (? & ? & E & _). by eexists.
  - intros. destruct (alloc_canvas_table_total p jiffies own tab size t Hok) as (? & ? & ? & E & _);
      [done|by eexists].
  - intros. destruct (free_canvas_table_total p tab size Hok) as (? & ? & E & _); [done|by eexists].
  - intros. by apply register_const_total.
  - intros. by apply map_show_total.
Qed.

Lemma pool_reachable_ok_witness :
  exists p0, canvas_pool_config 7 = Some p0 /\
    pool_ok (snd (canvas_pool_debug_store p0 (Some 2) 1)).
Proof.
  destruct (canvas_pool_config 7) as [p0|] eqn:E.
  - exists p0. split; [reflexivity|].
    apply (pool_reachable_ok 7 p0 _ E). apply rtc_once, ps_debug.
  - exfalso. assert (bool_decide (is_Some (canvas_pool_config 7)) = true) as H by (vm_compute; reflexivity).
    rewrite E in H. discriminate H.
Defined.

(** C8. No canvas is handed out twice: however the unlocked search, the locked
    test-and-set, the cursor update and the release of any number of threads
    interleave, two threads never hold the same canvas, and a held canvas is
    marked in the bitmap. *)
Theorem alloc_concurrent_exclusive jiffies own p0 n p ts :
  pool_ok p0 -> rtc (sys_step jiffies own) (p0, replicate n TIdle) (p, ts) ->
  forall k1 k2 t1 t2 i, ts !! k1 = Some t1 -> ts !! k2 = Some t2 ->
    holds t1 = Some i -> holds t2 = Some i ->
    k1 = k2 /\ Z.testbit (canvas_map p) i = true.
Proof.
  intros Hok Hr.
  assert (sys_ok (p0, replicate n TIdle)) as H0.
  { split; [done|]. split; [by apply Forall_replicate|].
    intros k1 k2 t1 t2 i [-> _]%lookup_replicate _ [=]. }
  assert (sys_ok (p, ts)) as (_ & Hf & Hx).
  { remember (p, ts) as c eqn:Ec. clear Ec. induction Hr; eauto using sys_step_ok. }
  intros k1 k2 t1 t2 i H1 H2 Hh1 Hh2. split; [by eapply Hx|].
  pose proof (Forall_lookup_1 _ _ _ _ Hf H1) as Hu.
  destruct t1; try done; injection Hh1 as ->; apply Hu.
Qed.

Lemma alloc_concurrent_exclusive_witness :
  let p := after_take (boot_pool 0) 5 "ge2d" 216 in
  let ts := [THeld 216; TTake 216 128 false] in
  rtc (sys_step 5 "ge2d") (boot_pool 0, replicate 2 TIdle) (p, ts) /\
  (forall k1 k2 t1 t2 i, ts !! k1 = Some t1 -> ts !! k2 = Some t2 ->
     holds t1 = Some i -> holds t2 = Some i ->
     k1 = k2 /\ Z.testbit (canvas_map p) i = true).
Proof.
  intros p ts.
  assert (rtc (sys_step 5 "ge2d") (boot_pool 0, replicate 2 TIdle) (p, ts)) as Hr.
  { eapply rtc_l; [eapply (sys_move _ _ _ _ 0); [reflexivity|apply ts_call]|].
    eapply rtc_l; [eapply (sys_move _ _ _ _ 1); [reflexivity|apply ts_call]|].
    eapply rtc_l; [eapply (sys_move _ _ _ _ 0);
      [reflexivity|eapply ts_found; [reflexivity|vm_compute; reflexivity]]|].
    eapply rtc_l; [eapply (sys_move _ _ _ _ 1);
      [reflexivity|eapply ts_found; [reflexivity|vm_compute; reflexivity]]|].
    assert (find_next_zero_bit (canvas_map (boot_pool 0)) (canvas_max (boot_pool 0))
              (next_alloced_index (boot_pool 0)) = 216) as Hf by (vm_compute; reflexivity).
    rewrite Hf. assert (next_alloced_index (boot_pool 0) = 128) as Hn by (vm_compute; reflexivity).
    rewrite Hn.
    apply rtc_once. change ts with (<[0%nat := THeld 216]> [TTake 216 128 false; TTake 216 128 false]).
    apply (sys_move 5 "ge2d" (boot_pool 0) _ 0 (TTake 216 128 false)); [reflexivity|].
    apply ts_take. apply take_canvas_clear; [exact boot_pool_ok|lia|vm_compute; reflexivity]. }
  split; [exact Hr|].
  apply (alloc_concurrent_exclusive 5 "ge2d" (boot_pool 0) 2 p ts boot_pool_ok Hr).
Defined.

(** Static canvases by name: the call stores the first [size] canvases that are
    registered for the name and in use, in increasing order, and returns how
    many it stored. *)
Theorem get_static_canvas_spec p own size :
  pool_ok p -> 0 <= size ->
  canvas_pool_get_static_canvas_by_name p own size =
  Some (Z.of_nat (length (take (Z.to_nat size) (static_canvases p own))),
        take (Z.to_nat size) (static_canvases p own)).
Proof.
  intros Hok Hs. unfold canvas_pool_get_static_canvas_by_name. rewrite (ok_max p Hok).
  rewrite static_from_eq by (done || simpl; lia). done.
Qed.

Lemma get_static_canvas_spec_witness :
  canvas_pool_get_static_canvas_by_name (boot_pool 0) "osd" 16 =
  Some (9, [0x40; 0x41; 0x42; 0x43; 0x44; 0x45; 0x46; 0x47; 0x48]).
Proof.
  rewrite (get_static_canvas_spec (boot_pool 0) "osd" 16 boot_pool_ok ltac:(lia)).
  vm_compute. reflexivity.
Defined.
