(* ===== verification/CanvasDriver.v ===== *)
(** * The canvas driver as a whole (canvas.c probe and remove, canvas_mgr.c init)

    Composition of the descriptor pool of Canvas.v and the index manager of
    CanvasPool.v: [canvas_probe] pre-allocates the legacy canvases and starts
    the manager, [canvas_remove] releases them. *)

From stdpp Require Import base numbers list option strings sets gmap relations.
From S2P Require Import Prelude Canvas CanvasPool CanvasPoolSpec.

Section Driver.
Context {M : Type} `{MC : MesonCanvas M}.

(** Returns the result of [class_register] and the configured pool. *)
Definition amcanvas_manager_init (jiffies class_register : Z) : option (Z * canvas_pool) :=
  p ← canvas_pool_config jiffies; Some (class_register, p).

(** The state of the driver: the device information, absent when
    [meson_canvas_get] failed, and the global pool. *)
Record canvas_driver := mk_canvas_driver {
  drv_info : option (canvas_device_info M);
  drv_pool : canvas_pool }.

(** [got] is what [meson_canvas_get] returns, [None] for an error pointer.  The
    loops run with 256 turns of fuel. *)
Definition canvas_probe (got : option M) (jiffies class_register : Z) (global_pool : canvas_pool)
  : option (Z * canvas_driver) :=
  match got with
  | None => Some (-1, mk_canvas_driver None global_pool)
  | Some hw =>
      let info := canvas_info_init hw in
      '(r, info) ← alloc_canvas_range 256 info CANVAS_INDEX_START CANVAS_INDEX_END;
      if c_true r then Some (- EBUSY, mk_canvas_driver (Some info) global_pool)
      else
        '(_, p) ← amcanvas_manager_init jiffies class_register;
        Some (0, mk_canvas_driver (Some info) p)
  end.

Definition canvas_remove (info : canvas_device_info M) : option (Z * canvas_device_info M) :=
  info ← free_canvas_range 256 info CANVAS_INDEX_START CANVAS_INDEX_END; Some (0, info).

Context {ML : MesonCanvasLaws M}.
Implicit Types (info : canvas_device_info M).

(** The pool has a descriptor for every index the code uses. *)
Lemma marked_valid info info' lo hi :
  length (canvasPool info) = 256%nat -> marked_range 1 lo hi (canvasPool info) (canvasPool info') ->
  0 <= lo -> hi <= 256 -> forall i, lo <= i < hi -> CANVAS_VALID info' i = true.
Proof.
  intros Hl Hm Hlo Hhi i Hi. unfold CANVAS_VALID, NUM_CANVAS. rewrite (Hm i).
  rewrite (proj2 (Z.ltb_lt i 256)) by lia.
  destruct (aget_is_Some (canvasPool info) i) as [c Hc]; [lia|]. rewrite Hc. simpl.
  rewrite (proj2 (Z.leb_le lo i)), (proj2 (Z.ltb_lt i hi)) by lia. done.
Qed.

(** The release loop, index by index. *)
Lemma free_canvas_range_eq n info i :
  0 <= i -> i + Z.of_nat n <= 255 ->
  forall fuel, (n < fuel)%nat ->
  loop fuel (free_canvas_range_body (i + Z.of_nat n - 1)) (i, info) =
  Some (foldl free_one info (seqZ i (Z.of_nat n))).
Proof.
  revert info i. induction n as [|n IH]; intros info i Hi Hn fuel Hf;
    destruct fuel as [|fuel]; try lia; cbn [loop]; unfold free_canvas_range_body at 1.
  - rewrite (proj2 (Z.leb_gt i _)) by lia. done.
  - rewrite (proj2 (Z.leb_le i _)) by lia. rewrite u8_small by lia.
    replace (i + Z.of_nat (S n) - 1) with (i + 1 + Z.of_nat n - 1) by lia.
    rewrite IH by lia. rewrite (seqZ_cons i) by lia.
    replace (Z.pred (Z.of_nat (S n))) with (Z.of_nat n) by lia. done.
Qed.

Lemma canvas_remove_eq info :
  canvas_remove info = Some (0, foldl free_one info (seqZ 0 0xf0)).
Proof.
  unfold canvas_remove, free_canvas_range, CANVAS_INDEX_START, CANVAS_INDEX_END.
  change 0xef with (0 + Z.of_nat 240 - 1). rewrite free_canvas_range_eq by lia. done.
Qed.

(** The indices of the "reserve_new" range stay out of the legacy pool. *)
Lemma boot_reserved jiffies p :
  canvas_pool_config jiffies = Some p -> forall j, 0xf0 <= j < 256 -> Z.testbit (canvas_map p) j = true.
Proof.
  intros H.
  assert (canvas_map <$> canvas_pool_config jiffies = canvas_map <$> canvas_pool_config 0) as Hm
    by (vm_compute; reflexivity).
  rewrite H in Hm.
  assert (exists m, canvas_map <$> canvas_pool_config 0 = Some m /\ bitfield m 0xf0 16 = Z.ones 16)
    as (m & Em & Hb) by (eexists; split; vm_compute; reflexivity).
  rewrite Em in Hm. injection Hm as ->. intros j Hj.
  assert (Z.testbit (bitfield m 0xf0 16) (j - 0xf0) = true) as Ht.
  { rewrite Hb. apply Z.ones_spec_low. lia. }
  rewrite bitfield_spec in Ht by lia. b2p. by replace (j - 0xf0 + 0xf0) with j in * by lia.
Qed.

End Driver.

Strategy opaque [canvas_pool_config alloc_canvas_range free_canvas_range].

(** Probe: when the canvas device is there and grants the legacy range, the
    driver starts; then exactly the indices 0..0xef pass the validity check of
    the configuration calls, the device owns them, and any index the manager
    hands out while the reserved range 0xf0..0xff stays in use is one of them. *)
Theorem canvas_probe_valid {M} `{ML : MesonCanvasLaws M} hw jiffies cr gp info pool :
  canvas_probe (Some hw) jiffies cr gp = Some (0, mk_canvas_driver (Some info) pool) ->
  (forall i, 0 <= i -> CANVAS_VALID info i = (i <? 0xf0)) /\
  mc_owned (meson_canvas info) = zrange 0 0xf0 ∪ mc_owned hw /\
  pool_ok pool /\
  forall p own j i p', pool_ok p -> (forall k, 0xf0 <= k < 256 -> Z.testbit (canvas_map p) k = true) ->
    canvas_pool_map_alloc_canvas p j own = Some (i, p') -> 0 <= i -> CANVAS_VALID info i = true.
Proof.
  unfold canvas_probe. intros H.
  destruct (alloc_canvas_range_outcome (canvas_info_init hw) CANVAS_INDEX_START CANVAS_INDEX_END)
    as (r & info1 & E & Hr); [done..|].
  rewrite E in H. cbn [mbind option_bind] in H.
  destruct Hr as [(-> & Hm & Ho)|(-> & _)]; [|discriminate H]. simpl c_true in H.
  unfold amcanvas_manager_init in H.
  destruct (canvas_pool_config jiffies) as [p1|] eqn:Ep; simpl in H; [|done]. injection H as -> ->.
  assert (forall i, 0 <= i < 0xf0 -> CANVAS_VALID info i = true) as Hv.
  { eapply marked_valid; [|exact Hm|done..]. done. }
  split_and!.
  - intros i Hi. destruct (Z.ltb_spec i 0xf0); [apply Hv; lia|].
    unfold CANVAS_VALID, NUM_CANVAS. rewrite (Hm i). destruct (Z.ltb_spec i 256); [|done]. cbn [andb].
    unfold canvas_info_init; cbn [canvasPool]. rewrite aget_lookup by lia.
    rewrite lookup_replicate_2 by lia. cbn [fmap option_fmap option_map].
    unfold CANVAS_INDEX_START, CANVAS_INDEX_END. rewrite (proj2 (Z.ltb_ge i _)) by lia.
    by rewrite andb_false_r.
  - exact Ho.
  - by eapply pool_config_ok.
  - intros p own j i p' Hok Hres Ea Hi. apply Hv. split; [done|].
    unfold canvas_pool_map_alloc_canvas in Ea. rewrite alloc_in_eq, (ok_max p Hok) in Ea by done.
    cbv zeta in Ea.
    destruct (next_fit_range (canvas_map p) 256 (next_alloced_index p) (ok_next p Hok)) as [En|[En Hb]];
      [lia|..].
    + rewrite En in Ea. simpl in Ea. inv_some. lia.
    + set (k := next_fit _ _ _) in *. rewrite (proj2 (Z.leb_le 0 k)) in Ea by lia. inv_some.
      destruct (Z.lt_ge_cases k 0xf0); [done|]. rewrite Hres in Hb by lia. done.
Qed.

Lemma canvas_probe_valid_witness :
  exists info pool,
    canvas_probe (Some (mk_sim ∅ (fun _ => []))) 9 0 canvas_pool_init
      = Some (0, mk_canvas_driver (Some info) pool) /\
    CANVAS_VALID info 0xef = true /\ CANVAS_VALID info 0xf0 = false.
Proof.
  destruct (canvas_probe (Some (mk_sim ∅ (fun _ => []))) 9 0 canvas_pool_init)
    as [[r [[info|] pool]]|] eqn:E.
  - assert (fst <$> canvas_probe (Some (mk_sim ∅ (fun _ => []))) 9 0 canvas_pool_init = Some 0) as H
      by (vm_compute; reflexivity).
    rewrite E in H. injection H as ->. exists info, pool. split; [reflexivity|].
    destruct (canvas_probe_valid _ _ _ _ _ _ E) as (Hv & _).
    rewrite !Hv by lia. split; reflexivity.
  - exfalso. assert ((fun r => bool_decide (is_Some (drv_info (snd r)))) <$> canvas_probe (Some (mk_sim ∅ (fun _ => []))) 9 0
      canvas_pool_init = Some true) as H by (vm_compute; reflexivity).
    rewrite E in H. discriminate H.
  - exfalso. assert (fst <$> canvas_probe (Some (mk_sim ∅ (fun _ => []))) 9 0 canvas_pool_init = Some 0)
      as H by (vm_compute; reflexivity).
    rewrite E in H. discriminate H.
Defined.

(** Remove: the release loop returns, the device no longer owns any legacy
    canvas, and no index passes the validity check that did not before. *)
Theorem canvas_remove_releases {M} `{ML : MesonCanvasLaws M} (info : canvas_device_info M) :
  exists info', canvas_remove info = Some (0, info') /\
    mc_owned (meson_canvas info') = mc_owned (meson_canvas info) ∖ zrange 0 0xf0 /\
    marked_range 0 0 0xf0 (canvasPool info) (canvasPool info') /\
    forall i, 0 <= i < 0xf0 -> CANVAS_VALID info' i = false.
Proof.
  exists (foldl free_one info (seqZ 0 0xf0)). split; [apply canvas_remove_eq|].
  pose proof (free_ones_marked 0 240 info ltac:(lia)) as Hm.
  change (Z.of_nat 240) with 0xf0 in Hm. change (0 + 0xf0) with 0xf0 in Hm.
  split; [apply free_ones_owned|]. split; [exact Hm|].
  intros i Hi. unfold CANVAS_VALID. rewrite (Hm i). destruct (i <? NUM_CANVAS); [|done]. simpl.
  destruct (aget (canvasPool info) i); simpl; [|done].
  rewrite (proj2 (Z.leb_le 0 i)), (proj2 (Z.ltb_lt i _)) by lia. done.
Qed.
