(* ===== verification/Tlv.v ===== *)
(** * The TLV codec of the normal key store (src/a311d/soc/amlogic/unifykey/normal_key.c)

    A key object is stored as a tag-length-value record that holds nested
    records, little endian, values padded to four bytes.  The functions work on
    one memory block: a pointer argument is an offset into the block, and
    reading or writing outside the block, or outside the fixed-size fields of an
    object, is [None].  [kmalloc] success is an argument. *)

From stdpp Require Import base numbers list option.
From S2P Require Import Prelude.

(** [enum emTLVTag] *)
Definition EMTLVNONE : Z := 0.
Definition EMTLVHEAD : Z := 1.
Definition EMTLVHEADSIZE : Z := 2.
Definition EMTLVOBJECT : Z := 3.
Definition EMTLVOBJNAMESIZE : Z := 4.
Definition EMTLVOBJNAME : Z := 5.
Definition EMTLVOBJDATASIZE : Z := 6.
Definition EMTLVOBJDATABUF : Z := 7.
Definition EMTLVOBJTYPE : Z := 8.
Definition EMTLVOBJATTR : Z := 9.
Definition EMTLVOBJHASHBUF : Z := 10.
Definition EMTLVHEADFLASHSIZE : Z := 11.

Definition MAX_OBJ_NAME_LEN : Z := 80.
Definition SHA256_DIGEST_SIZE : Z := 32.

(** [struct storage_object]: [name] and [hashptr] are arrays of 80 and 32
    bytes, [dataptr] the bytes of the allocation it points to. *)
Record storage_object := mk_storage_object {
  name : bytes;
  namesize : Z;
  attribute : Z;
  type : Z;
  datasize : Z;
  dataptr : option bytes;
  hashptr : bytes }.

Record storage_block_enc_head := mk_enc_head { blocksize : Z; flashsize : Z }.

(** ** Writing *)

Definition Tlv_WriteUint32 (buf : bytes) (output len tag value : Z) : option (Z * bytes) :=
  if len <? 12 then Some (0, buf)
  else
    buf ← put_u32 buf output tag;
    buf ← put_u32 buf (output + 4) 4;
    buf ← put_u32 buf (output + 8) value;
    Some (12, buf).

(** [input] are the bytes at the source pointer. *)
Definition Tlv_WriteBuf (buf : bytes) (output len tag length : Z) (input : bytes)
  : option (Z * bytes) :=
  let tmplen := u32 ((length + 3) / 4 * 4) in
  if len <? s32 (8 + tmplen) then Some (0, buf)
  else
    buf ← put_u32 buf output tag;
    buf ← put_u32 buf (output + 4) tmplen;
    buf ← bput buf (output + 8) (fill 0 tmplen);
    src ← bget input 0 length;
    buf ← bput buf (output + 8) src;
    Some (u32 (tmplen + 8), buf).

(** The macros [WRT_UINT32] and [WRT_BUF] as the code uses them:
    [if (!WRT_...) return 0;] and on with [idx] advanced. *)
Definition WRT_UINT32 (output len tag field : Z) (k : Z -> bytes -> option (Z * bytes))
    (idx : Z) (buf : bytes) : option (Z * bytes) :=
  '(tmp, buf) ← Tlv_WriteUint32 buf (output + idx) (s32 (len - idx)) tag field;
  if tmp =? 0 then Some (0, buf) else k (u32 (idx + tmp)) buf.

Definition WRT_BUF (output len tag buflen : Z) (src : bytes) (k : Z -> bytes -> option (Z * bytes))
    (idx : Z) (buf : bytes) : option (Z * bytes) :=
  '(tmp, buf) ← Tlv_WriteBuf buf (output + idx) (s32 (len - idx)) tag buflen src;
  if tmp =? 0 then Some (0, buf) else k (u32 (idx + tmp)) buf.

(** [*sum = idx - 8; return idx;] *)
Definition finish_record (output idx : Z) (buf : bytes) : option (Z * bytes) :=
  buf ← put_u32 buf (output + 4) (u32 (idx - 8)); Some (idx, buf).

Definition Tlv_WriteHead (h : storage_block_enc_head) (buf : bytes) (output len : Z)
  : option (Z * bytes) :=
  if len <? 8 then Some (0, buf)
  else
    buf ← put_u32 buf output EMTLVHEAD;
    WRT_UINT32 output len EMTLVHEADSIZE (blocksize h)
      (WRT_UINT32 output len EMTLVHEADFLASHSIZE (flashsize h)
        (finish_record output)) 8 buf.

Definition Tlv_WriteObject (object : storage_object) (buf : bytes) (output len : Z)
  : option (Z * bytes) :=
  if len <? 8 then Some (0, buf)
  else
    buf ← put_u32 buf output EMTLVOBJECT;
    let tail :=
      WRT_BUF output len EMTLVOBJHASHBUF 32 (hashptr object)
        (WRT_UINT32 output len EMTLVOBJTYPE (type object)
          (WRT_UINT32 output len EMTLVOBJATTR (attribute object)
            (finish_record output))) in
    let data :=
      match dataptr object with
      | Some d =>
          if negb (datasize object =? 0) then
            WRT_UINT32 output len EMTLVOBJDATASIZE (datasize object)
              (WRT_BUF output len EMTLVOBJDATABUF (datasize object) d tail)
          else tail
      | None => tail
      end in
    (if negb (namesize object =? 0) then
       WRT_UINT32 output len EMTLVOBJNAMESIZE (namesize object)
         (WRT_BUF output len EMTLVOBJNAME (namesize object) (name object) data)
     else data) 8 buf.

(** ** Reading *)

(** Returns the C result, and the tag, the length and [*idx] after the call. *)
Definition Tlv_ReadTl (buf : bytes) (input len : Z) (tag length idx : Z)
  : option (Z * Z * Z * Z) :=
  if len <? 8 then Some (0, tag, length, idx)
  else
    tag ← get_u32 buf input;
    length ← get_u32 buf (input + 4);
    if len <? 8 + length then Some (0, tag, length, idx)
    else Some (8, tag, length, u32 (idx + 8)).

(** One turn of the loop of [Tlv_ReadHead]: the state is [idx] and the head. *)
Definition read_head_body (buf : bytes) (input len sum : Z) (s : Z * storage_block_enc_head)
  : (Z * storage_block_enc_head) + option (Z * storage_block_enc_head) :=
  let '(idx, h) := s in
  if idx <? sum then
    match Tlv_ReadTl buf (input + idx) (s32 (len - idx)) 0 0 idx with
    | None => inr None
    | Some (ret, tag, length, idx) =>
        if ret =? 0 then inr (Some (0, h))
        else if tag =? EMTLVHEADSIZE then
          match get_u32 buf (input + idx) with
          | Some v => inl (u32 (idx + length), mk_enc_head v (flashsize h))
          | None => inr None
          end
        else if tag =? EMTLVHEADFLASHSIZE then
          match get_u32 buf (input + idx) with
          | Some v => inl (u32 (idx + length), mk_enc_head (blocksize h) v)
          | None => inr None
          end
        else inl (u32 (idx + length), h)
    end
  else inr (Some (sum, h)).

(** Fuel that the loops of the reader never exhaust: every turn consumes at
    least the eight bytes of a tag and a length. *)
Definition tlv_fuel (len : Z) : nat := S (S (Z.to_nat (len / 8))).

(** The outer [option] is the fuel of the loop. *)
Definition Tlv_ReadHead (buf : bytes) (input len : Z) (h : storage_block_enc_head)
  : option (option (Z * storage_block_enc_head)) :=
  match Tlv_ReadTl buf input len 0 0 0 with
  | None => Some None
  | Some (ret, tag, sum, idx) =>
      if ret =? 0 then Some (Some (0, h))
      else if negb (tag =? EMTLVHEAD) then Some (Some (0, h))
      else loop (tlv_fuel len) (read_head_body buf input len (u32 (sum + ret))) (idx, h)
  end.

(** The object after [memset]. *)
Definition object_zero : storage_object :=
  mk_storage_object (fill 0 MAX_OBJ_NAME_LEN) 0 0 0 0 None (fill 0 32).

Section Read.
(** Whether [kmalloc] of a size succeeds. *)
Variable kmalloc : Z -> bool.

(** The switch of [Tlv_ReadObject] on a record at [idx]: the new object, or the
    jump to the error label. *)
Definition read_field (buf : bytes) (input tag length idx : Z) (o : storage_object)
  : option (option storage_object) :=
  if tag =? EMTLVOBJNAMESIZE then
    v ← get_u32 buf (input + idx);
    Some (Some (mk_storage_object (name o) v (attribute o) (type o) (datasize o) (dataptr o) (hashptr o)))
  else if tag =? EMTLVOBJNAME then
    src ← bget buf (input + idx) (namesize o);
    n ← bput (fill 0 MAX_OBJ_NAME_LEN) 0 src;
    Some (Some (mk_storage_object n (namesize o) (attribute o) (type o) (datasize o) (dataptr o) (hashptr o)))
  else if tag =? EMTLVOBJTYPE then
    v ← get_u32 buf (input + idx);
    Some (Some (mk_storage_object (name o) (namesize o) (attribute o) v (datasize o) (dataptr o) (hashptr o)))
  else if tag =? EMTLVOBJATTR then
    v ← get_u32 buf (input + idx);
    Some (Some (mk_storage_object (name o) (namesize o) v (type o) (datasize o) (dataptr o) (hashptr o)))
  else if tag =? EMTLVOBJDATASIZE then
    v ← get_u32 buf (input + idx);
    Some (Some (mk_storage_object (name o) (namesize o) (attribute o) (type o) v (dataptr o) (hashptr o)))
  else if tag =? EMTLVOBJHASHBUF then
    if negb (length =? 32) then Some None
    else
      h ← bget buf (input + idx) length;
      Some (Some (mk_storage_object (name o) (namesize o) (attribute o) (type o) (datasize o) (dataptr o) h))
  else if tag =? EMTLVOBJDATABUF then
    if negb (kmalloc (datasize o)) then Some None
    else
      d ← bget buf (input + idx) (datasize o);
      Some (Some (mk_storage_object (name o) (namesize o) (attribute o) (type o) (datasize o) (Some d) (hashptr o)))
  else Some (Some o).

Definition read_object_body (buf : bytes) (input len sum : Z) (s : Z * storage_object)
  : (Z * storage_object) + option (Z * storage_object) :=
  let '(idx, o) := s in
  if idx <? sum then
    match Tlv_ReadTl buf (input + idx) (s32 (len - idx)) 0 0 idx with
    | None => inr None
    | Some (ret, tag, length, idx) =>
        if ret =? 0 then inr (Some (0, o))
        else
          match read_field buf input tag length idx o with
          | None => inr None
          | Some None => inr (Some (0, o))
          | Some (Some o) => inl (u32 (idx + length), o)
          end
    end
  else inr (Some (sum, o)).

Definition Tlv_ReadObject (buf : bytes) (input len : Z) : option (option (Z * storage_object)) :=
  match Tlv_ReadTl buf input len 0 0 0 with
  | None => Some None
  | Some (ret, tag, sum, idx) =>
      if ret =? 0 then Some (Some (0, object_zero))
      else if negb (tag =? EMTLVOBJECT) then Some (Some (0, object_zero))
      else loop (tlv_fuel len) (read_object_body buf input len (u32 (sum + ret))) (idx, object_zero)
  end.

End Read.
