(* ===== verification/TlvSpec.v ===== *)
(** * The TLV codec against its format (src/a311d/soc/amlogic/unifykey/normal_key.c)

    The wire format as pure functions on lists of fields, the writer of Tlv.v
    as the encoder of that format, and the reader as its decoder. *)

From stdpp Require Import base numbers list option.
From S2P Require Import Prelude Tlv.

(** ** The format *)

Definition pad4 (n : Z) : Z := (n + 3) / 4 * 4.

(** A nested record: a 32-bit value, or the first [n] bytes of a buffer. *)
Inductive field :=
| FU (tag v : Z)
| FB (tag n : Z) (src : bytes).

Definition field_value (f : field) : bytes :=
  match f with
  | FU _ v => le_split 4 v
  | FB _ n src => take (Z.to_nat n) src ++ fill 0 (pad4 n - n)
  end.

Definition field_tag (f : field) : Z := match f with FU tag _ | FB tag _ _ => tag end.

Definition enc_field (f : field) : bytes :=
  le_split 4 (field_tag f) ++ le_split 4 (zlen (field_value f)) ++ field_value f.

Definition enc_fields (fs : list field) : bytes := concat (map enc_field fs).

Definition enc_record (tag : Z) (fs : list field) : bytes :=
  le_split 4 tag ++ le_split 4 (zlen (enc_fields fs)) ++ enc_fields fs.

(** The fields of an object, in the order the code writes them. *)
Definition name_fields (o : storage_object) : list field :=
  if namesize o =? 0 then []
  else [FU EMTLVOBJNAMESIZE (namesize o); FB EMTLVOBJNAME (namesize o) (name o)].

Definition data_fields (o : storage_object) : list field :=
  match dataptr o with
  | Some d =>
      if datasize o =? 0 then []
      else [FU EMTLVOBJDATASIZE (datasize o); FB EMTLVOBJDATABUF (datasize o) d]
  | None => []
  end.

Definition object_fields (o : storage_object) : list field :=
  name_fields o ++ data_fields o
  ++ [FB EMTLVOBJHASHBUF 32 (hashptr o); FU EMTLVOBJTYPE (type o); FU EMTLVOBJATTR (attribute o)].

Definition head_fields (h : storage_block_enc_head) : list field :=
  [FU EMTLVHEADSIZE (blocksize h); FU EMTLVHEADFLASHSIZE (flashsize h)].

Definition enc_object (o : storage_object) : bytes := enc_record EMTLVOBJECT (object_fields o).
Definition enc_head (h : storage_block_enc_head) : bytes := enc_record EMTLVHEAD (head_fields h).

(** Fields that fit the 32-bit arithmetic of the code. *)
Definition field_ok (f : field) : Prop :=
  in_u32 (field_tag f) /\
  match f with
  | FU _ v => in_u32 v
  | FB _ n src => 0 <= n < 2 ^ 30 /\ n <= zlen src
  end.

(** The objects the store keeps. *)
Definition object_ok (o : storage_object) : Prop :=
  length (name o) = 80%nat /\ 0 <= namesize o <= 80 /\ in_u32 (attribute o) /\ in_u32 (type o) /\
  0 <= datasize o < 2 ^ 30 /\ datasize o <= zlen (default [] (dataptr o)) /\
  length (hashptr o) = 32%nat.

(** What is left of an object after it was written and read: the name is
    padded with zeros, the allocation cut to the data. *)
Definition norm_object (o : storage_object) : storage_object :=
  mk_storage_object (take (Z.to_nat (namesize o)) (name o) ++ fill 0 (80 - namesize o))
    (namesize o) (attribute o) (type o) (datasize o)
    (if datasize o =? 0 then None else (fun d => take (Z.to_nat (datasize o)) d) <$> dataptr o)
    (hashptr o).

(** ** Lengths *)

Lemma pad4_bounds n : 0 <= n -> n <= pad4 n < n + 4 /\ pad4 n mod 4 = 0.
Proof.
  intros. unfold pad4. pose proof (Z.div_mod (n + 3) 4). pose proof (Z.mod_pos_bound (n + 3) 4).
  split; [lia|]. by rewrite Z.mod_mul.
Qed.

Lemma field_value_length f :
  field_ok f -> zlen (field_value f) = match f with FU _ _ => 4 | FB _ n _ => pad4 n end.
Proof.
  destruct f as [tag v|tag n src]; intros [_ H]; simpl.
  - done.
  - destruct H as [H1 H2]. pose proof (pad4_bounds n).
    rewrite length_app, length_take. unfold fill. rewrite length_replicate. lia.
Qed.

Lemma enc_field_length f : zlen (enc_field f) = 8 + zlen (field_value f).
Proof. unfold enc_field. rewrite !length_app, !le_split_length. lia. Qed.

Lemma enc_fields_cons f fs : enc_fields (f :: fs) = enc_field f ++ enc_fields fs.
Proof. done. Qed.

Lemma enc_record_length tag fs : zlen (enc_record tag fs) = 8 + zlen (enc_fields fs).
Proof. unfold enc_record. rewrite !length_app, !le_split_length. lia. Qed.

(** Side conditions on concrete fields. *)
Ltac field_ok_tac :=
  repeat first [apply Forall_nil_2 | apply Forall_cons_2];
  unfold field_ok, in_u32 in *; cbn [field_tag]; cbv iota beta;
  unfold EMTLVHEAD, EMTLVHEADSIZE, EMTLVHEADFLASHSIZE, EMTLVOBJECT, EMTLVOBJNAMESIZE, EMTLVOBJNAME,
    EMTLVOBJDATASIZE, EMTLVOBJDATABUF, EMTLVOBJTYPE, EMTLVOBJATTR, EMTLVOBJHASHBUF in *; lia.

Lemma object_fields_ok o : object_ok o -> Forall field_ok (object_fields o).
Proof.
  intros (Hn & Hns & Ha & Ht & Hd & Hdd & Hh). unfold object_fields, name_fields, data_fields.
  apply Forall_app. split; [|apply Forall_app; split].
  - case_goal; [constructor|]. field_ok_tac.
  - destruct (dataptr o) as [d|]; simpl in *; [|done].
    case_goal; [constructor|]. field_ok_tac.
  - field_ok_tac.
Qed.

Lemma head_fields_ok h :
  in_u32 (blocksize h) -> in_u32 (flashsize h) -> Forall field_ok (head_fields h).
Proof. intros. unfold head_fields. field_ok_tac. Qed.

(** ** The writer emits the format *)

(** The nested writes of the code, from a list of fields. *)
Definition write_field (output len : Z) (f : field) (k : Z -> bytes -> option (Z * bytes))
  : Z -> bytes -> option (Z * bytes) :=
  match f with
  | FU tag v => WRT_UINT32 output len tag v k
  | FB tag n src => WRT_BUF output len tag n src k
  end.

Definition write_fields (output len : Z) (fs : list field) : Z -> bytes -> option (Z * bytes) :=
  foldr (write_field output len) (finish_record output) fs.

Lemma Tlv_WriteObject_fields o buf output len :
  Tlv_WriteObject o buf output len =
  if len <? 8 then Some (0, buf)
  else buf ← put_u32 buf output EMTLVOBJECT; write_fields output len (object_fields o) 8 buf.
Proof.
  unfold Tlv_WriteObject, object_fields, name_fields, data_fields.
  destruct (len <? 8); [done|]. destruct (put_u32 _ _ _); [|done].
  destruct (namesize o =? 0), (dataptr o) as [d|]; [destruct (datasize o =? 0)|..|destruct (datasize o =? 0)|]; done.
Qed.

Lemma splice_take_fill buf off src n m :
  0 <= off -> 0 <= n <= m -> n <= zlen src -> off + m <= zlen buf ->
  splice (splice buf off (fill 0 m)) off (take (Z.to_nat n) src)
  = splice buf off (take (Z.to_nat n) src ++ fill 0 (m - n)).
Proof.
  intros. assert (Hl : length (take (Z.to_nat n) src) = Z.to_nat n) by (rewrite length_take; lia).
  assert (fill 0 m = [] ++ fill 0 n ++ fill 0 (m - n)) as ->.
  { simpl. unfold fill. rewrite <- replicate_add. f_equal. lia. }
  replace off with (off + zlen (@nil Z)) at 2 by (simpl; lia).
  rewrite splice_inside; [done|lia| |].
  - simpl. unfold fill. rewrite length_app, !length_replicate. lia.
  - unfold fill. rewrite length_replicate. lia.
Qed.

Lemma Tlv_WriteUint32_spec buf output len tag v :
  0 <= output -> output + len <= zlen buf ->
  Tlv_WriteUint32 buf output len tag v =
  Some (if 12 <=? len then (12, splice buf output (enc_field (FU tag v))) else (0, buf)).
Proof.
  intros H0 H1. unfold Tlv_WriteUint32. rewrite Z.ltb_antisym.
  destruct (Z.leb_spec 12 len); simpl negb; [|done]. cbv iota.
  unfold put_u32. rewrite bput_in by (rewrite ?le_split_length; lia). cbn [mbind option_bind].
  rewrite bput_app by (rewrite ?le_split_length; lia). cbn [mbind option_bind].
  rewrite bput_app by (rewrite ?length_app, ?le_split_length; lia). cbn [mbind option_bind].
  by rewrite <- app_assoc.
Qed.

Lemma Tlv_WriteBuf_spec buf output len tag n src :
  0 <= output -> output + len <= zlen buf -> field_ok (FB tag n src) ->
  Tlv_WriteBuf buf output len tag n src =
  Some (if 8 + pad4 n <=? len then (8 + pad4 n, splice buf output (enc_field (FB tag n src)))
        else (0, buf)).
Proof.
  intros H0 H1 Hok. pose proof Hok as [_ [Hn Hs]]. pose proof (pad4_bounds n ltac:(lia)) as [Hp _].
  unfold Tlv_WriteBuf. fold (pad4 n). rewrite (u32_small (pad4 n)), s32_small by lia.
  rewrite Z.ltb_antisym. destruct (Z.leb_spec (8 + pad4 n) len); simpl negb; [|done]. cbv iota.
  rewrite u32_small by lia.
  unfold put_u32. rewrite bput_in by (rewrite ?le_split_length; lia). cbn [mbind option_bind].
  rewrite bput_app by (rewrite ?le_split_length; lia). cbn [mbind option_bind].
  rewrite bput_app by (rewrite ?length_app, ?le_split_length, ?fill_length; lia). cbn [mbind option_bind].
  rewrite bget_take by lia. cbn [mbind option_bind].
  rewrite bput_in by (rewrite ?splice_length; rewrite ?length_app, ?le_split_length, ?fill_length, ?length_take; lia).
  cbn [mbind option_bind]. f_equal. f_equal; [lia|].
  rewrite <- splice_app by (rewrite ?length_app, ?le_split_length; lia).
  rewrite length_app, !le_split_length.
  rewrite splice_take_fill by (rewrite ?splice_length; rewrite ?length_app, ?le_split_length; lia).
  replace (output + 8) with (output + zlen (le_split 4 tag ++ le_split 4 (pad4 n)))
    by (rewrite length_app, !le_split_length; lia).
  rewrite splice_app by (rewrite ?length_app, ?le_split_length; lia).
  unfold enc_field. rewrite field_value_length by done. by rewrite <- app_assoc.
Qed.

(** The nested writes, whatever the space left: the fields in the format and
    the record's length filled in, or 0 when they do not fit. *)
Lemma write_fields_spec output len fs : forall idx buf,
  Forall field_ok fs -> 8 <= idx <= len -> len < 2 ^ 31 -> 0 <= output -> output + len <= zlen buf ->
  exists x, length x = length buf /\
    write_fields output len fs idx buf =
    Some (let E := enc_fields fs in
          if idx + zlen E <=? len
          then (idx + zlen E,
                splice (splice buf (output + idx) E) (output + 4) (le_split 4 (idx + zlen E - 8)))
          else (0, x)).
Proof.
  induction fs as [|f fs IH]; intros idx buf Hok Hi Hl Ho Hb.
  - exists buf. split; [done|]. simpl. rewrite Z.add_0_r. rewrite (proj2 (Z.leb_le idx len)) by lia.
    unfold finish_record, put_u32. rewrite u32_small by lia. rewrite splice_nil.
    rewrite bput_in by (rewrite ?le_split_length; lia). done.
  - apply Forall_cons_1 in Hok as [Hf Hok]. cbn zeta. rewrite enc_fields_cons, length_app.
    pose proof (enc_field_length f) as Hfl. rewrite field_value_length in Hfl by done.
    assert (Hw : forall k, write_field output len f k idx buf =
              if idx + zlen (enc_field f) <=? len
              then k (idx + zlen (enc_field f)) (splice buf (output + idx) (enc_field f))
              else Some (0, buf)).
    { intros k. destruct f as [tag v|tag n src]; simpl write_field.
      - unfold WRT_UINT32. rewrite s32_small by lia. rewrite Tlv_WriteUint32_spec by lia.
        cbn [mbind option_bind].
        destruct (Z.leb_spec 12 (len - idx)), (Z.leb_spec (idx + zlen (enc_field (FU tag v))) len); try lia; [|done].
        simpl Z.eqb. cbv iota. rewrite u32_small by lia. done.
      - pose proof Hf as [_ [Hn _]]. pose proof (pad4_bounds n ltac:(lia)) as [Hp _].
        unfold WRT_BUF. rewrite s32_small by lia. rewrite Tlv_WriteBuf_spec by (done || lia).
        cbn [mbind option_bind].
        destruct (Z.leb_spec (8 + pad4 n) (len - idx)), (Z.leb_spec (idx + zlen (enc_field (FB tag n src))) len); try lia; [|done].
        rewrite (proj2 (Z.eqb_neq (8 + pad4 n) 0)) by lia. rewrite u32_small by lia.
        rewrite Hfl. done. }
    unfold write_fields in *. cbn [foldr]. rewrite Hw.
    destruct (Z.leb_spec (idx + zlen (enc_field f)) len).
    + destruct (IH (idx + zlen (enc_field f)) (splice buf (output + idx) (enc_field f))) as (x & Hx & ->);
        [done|lia|lia|lia|rewrite splice_length; lia|].
      rewrite splice_length in Hx by lia. exists x. split; [done|]. cbn zeta. f_equal.
      rewrite Nat2Z.inj_add, !Z.add_assoc. case_goal; [|done]. b2p. do 2 f_equal.
      rewrite splice_app by lia. done.
    + exists buf. split; [done|].
      rewrite (proj2 (Z.leb_gt _ len)); [done|]. lia.
Qed.

(** A whole record. *)
Lemma write_record_spec tag fs buf output len :
  Forall field_ok fs -> 8 <= len < 2 ^ 31 -> 0 <= output -> output + len <= zlen buf ->
  exists x, length x = length buf /\
    (buf ← put_u32 buf output tag; write_fields output len fs 8 buf) =
    Some (if zlen (enc_record tag fs) <=? len
          then (zlen (enc_record tag fs), splice buf output (enc_record tag fs))
          else (0, x)).
Proof.
  intros Hok Hl Ho Hb. unfold put_u32. rewrite bput_in by (rewrite ?le_split_length; lia).
  cbn [mbind option_bind].
  destruct (write_fields_spec output len fs 8 (splice buf output (le_split 4 tag)))
    as (x & Hx & ->); [done|lia|lia|lia|rewrite splice_length; rewrite ?le_split_length; lia|].
  rewrite splice_length in Hx by (rewrite ?le_split_length; lia).
  exists x. split; [done|]. cbn zeta. rewrite enc_record_length. case_goal; [|done]. b2p.
  do 2 f_equal. replace (8 + zlen (enc_fields fs) - 8) with (zlen (enc_fields fs)) by lia.
  unfold enc_record. set (L := le_split 4 (zlen _)).
  pose proof (splice_hole buf output (le_split 4 tag) L (enc_fields fs)) as Hh.
  unfold L in *. rewrite !le_split_length in Hh. change (Z.of_nat 4) with 4 in Hh.
  replace (output + 4 + 4) with (output + 8) in Hh by lia. apply Hh; lia.
Qed.

Lemma Tlv_WriteObject_spec o buf output len :
  object_ok o -> len < 2 ^ 31 -> 0 <= output -> output + len <= zlen buf ->
  exists x, length x = length buf /\
    Tlv_WriteObject o buf output len =
    Some (if zlen (enc_object o) <=? len
          then (zlen (enc_object o), splice buf output (enc_object o)) else (0, x)).
Proof.
  intros Hok Hl Ho Hb. rewrite Tlv_WriteObject_fields.
  destruct (Z.ltb_spec len 8).
  - exists buf. split; [done|]. unfold enc_object. rewrite enc_record_length.
    by rewrite (proj2 (Z.leb_gt _ len)) by lia.
  - apply write_record_spec; [by apply object_fields_ok|lia..].
Qed.

Lemma enc_head_length h : zlen (enc_head h) = 32.
Proof. done. Qed.

Lemma Tlv_WriteHead_spec h buf output len :
  in_u32 (blocksize h) -> in_u32 (flashsize h) ->
  32 <= len < 2 ^ 31 -> 0 <= output -> output + len <= zlen buf ->
  Tlv_WriteHead h buf output len = Some (32, splice buf output (enc_head h)).
Proof.
  intros Hb Hf Hl Ho Hz. unfold Tlv_WriteHead. rewrite (proj2 (Z.ltb_ge len 8)) by lia.
  destruct (write_record_spec EMTLVHEAD (head_fields h) buf output len) as (x & _ & Hw);
    [by apply head_fields_ok|lia..|].
  change (zlen (enc_record EMTLVHEAD (head_fields h))) with 32 in Hw.
  rewrite (proj2 (Z.leb_le 32 len)) in Hw by lia. exact Hw.
Qed.

(** ** The reader decodes the format *)

(** What the value of a field does to an object. *)
Definition set_field (f : field) (o : storage_object) : storage_object :=
  match f with
  | FU tag v =>
      if tag =? EMTLVOBJNAMESIZE then
        mk_storage_object (name o) v (attribute o) (type o) (datasize o) (dataptr o) (hashptr o)
      else if tag =? EMTLVOBJTYPE then
        mk_storage_object (name o) (namesize o) (attribute o) v (datasize o) (dataptr o) (hashptr o)
      else if tag =? EMTLVOBJATTR then
        mk_storage_object (name o) (namesize o) v (type o) (datasize o) (dataptr o) (hashptr o)
      else if tag =? EMTLVOBJDATASIZE then
        mk_storage_object (name o) (namesize o) (attribute o) (type o) v (dataptr o) (hashptr o)
      else o
  | FB tag n src =>
      if tag =? EMTLVOBJNAME then
        mk_storage_object (take (Z.to_nat n) src ++ fill 0 (80 - n)) (namesize o) (attribute o) (type o)
          (datasize o) (dataptr o) (hashptr o)
      else if tag =? EMTLVOBJHASHBUF then
        mk_storage_object (name o) (namesize o) (attribute o) (type o) (datasize o) (dataptr o)
          (take (Z.to_nat n) src)
      else if tag =? EMTLVOBJDATABUF then
        mk_storage_object (name o) (namesize o) (attribute o) (type o) (datasize o)
          (Some (take (Z.to_nat n) src)) (hashptr o)
      else o
  end.

Section Reader.
Context (kmalloc : Z -> bool).

(** A field that an object read so far can take: a value field of a value tag,
    or a buffer whose size the object already holds. *)
Definition takes_field (f : field) (o : storage_object) : Prop :=
  match f with
  | FU tag _ => tag = EMTLVOBJNAMESIZE \/ tag = EMTLVOBJTYPE \/ tag = EMTLVOBJATTR \/ tag = EMTLVOBJDATASIZE
  | FB tag n _ =>
      (tag = EMTLVOBJNAME /\ n = namesize o /\ n <= 80) \/ (tag = EMTLVOBJHASHBUF /\ n = 32)
      \/ (tag = EMTLVOBJDATABUF /\ n = datasize o /\ kmalloc n = true)
  end.

Lemma name_buffer src n :
  0 <= n <= 80 -> n <= zlen src ->
  bput (fill 0 MAX_OBJ_NAME_LEN) 0 (take (Z.to_nat n) src)
  = Some (take (Z.to_nat n) src ++ fill 0 (80 - n)).
Proof.
  intros. rewrite bput_in by (unfold MAX_OBJ_NAME_LEN; len_solve).
  unfold splice, fill. change (Z.to_nat 0) with O. cbn [take app Nat.add].
  rewrite length_take, drop_replicate.
  replace (Z.to_nat MAX_OBJ_NAME_LEN - Z.to_nat n `min` length src)%nat with (Z.to_nat (80 - n))
    by (unfold MAX_OBJ_NAME_LEN; lia). done.
Qed.

Lemma value_prefix buf off tag n src :
  field_ok (FB tag n src) -> holds_at buf off (field_value (FB tag n src)) ->
  bget buf off n = Some (take (Z.to_nat n) src).
Proof.
  intros [_ [Hn Hs]] Hv. cbn [field_value] in Hv. apply holds_at_app in Hv as [Hv _].
  apply bget_holds in Hv. rewrite length_take in Hv. rewrite <- Hv. f_equal. lia.
Qed.

Lemma read_field_spec f o buf input idx :
  field_ok f -> takes_field f o -> holds_at buf (input + idx) (field_value f) ->
  read_field kmalloc buf input (field_tag f) (zlen (field_value f)) idx o = Some (Some (set_field f o)).
Proof.
  intros Hok Ht Hv. destruct f as [tag v|tag n src]; cbn [field_tag] in *.
  - pose proof Hok as [_ Hu]. unfold read_field, set_field.
    rewrite (get_u32_holds _ _ _ Hu Hv).
    by destruct Ht as [-> | [-> | [-> | ->]]].
  - pose proof (value_prefix _ _ _ _ _ Hok Hv) as Hg. pose proof Hok as [_ [Hn Hs]].
    rewrite (field_value_length _ Hok). unfold read_field, set_field.
    destruct Ht as [(-> & Hn' & Hle) | [(-> & ->) | (-> & Hn' & Hk)]].
    + cbn [Z.eqb]. simpl (EMTLVOBJNAME =? _). cbv iota. rewrite <- Hn', Hg. cbn [mbind option_bind].
      by rewrite name_buffer by lia.
    + simpl (EMTLVOBJHASHBUF =? _). cbv iota. change (pad4 32) with 32. by rewrite Hg.
    + simpl (EMTLVOBJDATABUF =? _). cbv iota. rewrite <- Hn', Hk, Hg. done.
Qed.

(** One turn of the loop on a field of the format. *)
Lemma read_object_turn f o buf input len sum idx :
  field_ok f -> 0 <= idx -> idx + zlen (enc_field f) <= sum <= len ->
  len < 2 ^ 31 -> 0 <= input -> holds_at buf (input + idx) (enc_field f) ->
  holds_at buf (input + (idx + 8)) (field_value f) /\
  read_object_body kmalloc buf input len sum (idx, o)
  = match read_field kmalloc buf input (field_tag f) (zlen (field_value f)) (idx + 8) o with
    | None => inr None
    | Some None => inr (Some (0, o))
    | Some (Some o) => inl (idx + zlen (enc_field f), o)
    end.
Proof.
  intros Hok Hi Hs Hl Hin Hh. pose proof (enc_field_length f) as He.
  unfold enc_field in Hh. apply holds_at_app in Hh as [Htag Hh].
  apply holds_at_app in Hh as [Hlen Hv]. rewrite !le_split_length in Hv. rewrite le_split_length in Hlen.
  rewrite <- Z.add_assoc in Hv. change (Z.of_nat 4 + Z.of_nat 4) with 8 in Hv. change (Z.of_nat 4) with 4 in Hlen.
  rewrite <- Z.add_assoc in Hv. split; [done|].
  unfold read_object_body. rewrite (proj2 (Z.ltb_lt idx sum)) by lia.
  unfold Tlv_ReadTl. rewrite s32_small by lia. rewrite (proj2 (Z.ltb_ge (len - idx) 8)) by lia.
  rewrite (get_u32_holds _ (input + idx) (field_tag f)) by (done || apply Hok). cbn [mbind option_bind].
  rewrite (get_u32_holds _ (input + idx + 4) (zlen (field_value f))) by (done || lia). cbn [mbind option_bind].
  rewrite (proj2 (Z.ltb_ge (len - idx) _)) by lia. rewrite (u32_small (idx + 8)) by lia.
  simpl (8 =? 0). cbv iota. rewrite u32_small by lia.
  replace (idx + 8 + zlen (field_value f)) with (idx + zlen (enc_field f)) by lia. done.
Qed.

Lemma read_object_step f o buf input len sum idx :
  field_ok f -> takes_field f o -> 0 <= idx -> idx + zlen (enc_field f) <= sum <= len ->
  len < 2 ^ 31 -> 0 <= input -> holds_at buf (input + idx) (enc_field f) ->
  read_object_body kmalloc buf input len sum (idx, o)
  = inl (idx + zlen (enc_field f), set_field f o).
Proof.
  intros Hok Ht Hi Hs Hl Hin Hh.
  destruct (read_object_turn f o buf input len sum idx) as [Hv ->]; [done..|].
  by rewrite read_field_spec.
Qed.

Fixpoint takes_fields (fs : list field) (o : storage_object) : Prop :=
  match fs with
  | [] => True
  | f :: fs => takes_field f o /\ takes_fields fs (set_field f o)
  end.

Definition set_fields (fs : list field) (o : storage_object) : storage_object :=
  fold_left (fun o f => set_field f o) fs o.

Lemma enc_fields_count fs : 8 * zlen fs <= zlen (enc_fields fs).
Proof.
  induction fs as [|f fs IH]; [simpl; lia|].
  rewrite enc_fields_cons, length_app, Nat2Z.inj_add, enc_field_length. cbn [length]. lia.
Qed.

Lemma read_fields_spec buf input len sum fs : forall idx o,
  Forall field_ok fs -> takes_fields fs o -> 0 <= idx -> sum = idx + zlen (enc_fields fs) ->
  sum <= len < 2 ^ 31 -> 0 <= input -> holds_at buf (input + idx) (enc_fields fs) ->
  loop (S (length fs)) (read_object_body kmalloc buf input len sum) (idx, o)
  = Some (Some (sum, set_fields fs o)).
Proof.
  induction fs as [|f fs IH]; intros idx o Hok Ht Hi -> Hl Hin Hh.
  - cbn [loop read_object_body]. simpl. rewrite Z.add_0_r. by rewrite Z.ltb_irrefl.
  - apply Forall_cons_1 in Hok as [Hf Hok]. destruct Ht as [Ht Hts].
    rewrite enc_fields_cons, length_app, Nat2Z.inj_add in *.
    apply holds_at_app in Hh as [Hhf Hh]. cbn [loop length].
    rewrite (read_object_step f) by (done || lia).
    apply IH; [done..|lia|lia|lia|lia|]. by rewrite Z.add_assoc.
Qed.

(** The prologue shared by the readers. *)
Lemma ReadTl_record buf input len tag fs :
  in_u32 tag -> 0 <= input -> zlen (enc_record tag fs) <= len < 2 ^ 31 ->
  holds_at buf input (enc_record tag fs) ->
  Tlv_ReadTl buf input len 0 0 0 = Some (8, tag, zlen (enc_fields fs), 8)
  /\ holds_at buf (input + 8) (enc_fields fs).
Proof.
  intros Htag Hi Hl Hh. rewrite enc_record_length in Hl. unfold enc_record in Hh.
  apply holds_at_app in Hh as [Ht Hh]. apply holds_at_app in Hh as [Hn Hh].
  rewrite !le_split_length, <- Z.add_assoc in Hh. rewrite le_split_length in Hn. split; [|done].
  unfold Tlv_ReadTl. rewrite (proj2 (Z.ltb_ge len 8)) by lia.
  rewrite (get_u32_holds _ input tag) by done. cbn [mbind option_bind].
  rewrite (get_u32_holds _ (input + 4) (zlen (enc_fields fs))) by (done || lia). cbn [mbind option_bind].
  by rewrite (proj2 (Z.ltb_ge len _)) by lia.
Qed.

Lemma read_object_record buf input len fs :
  Forall field_ok fs -> takes_fields fs object_zero -> 0 <= input ->
  zlen (enc_record EMTLVOBJECT fs) <= len < 2 ^ 31 ->
  holds_at buf input (enc_record EMTLVOBJECT fs) ->
  Tlv_ReadObject kmalloc buf input len
  = Some (Some (zlen (enc_record EMTLVOBJECT fs), set_fields fs object_zero)).
Proof.
  intros Hok Ht Hi Hl Hh. pose proof (enc_record_length EMTLVOBJECT fs) as Hr.
  destruct (ReadTl_record buf input len EMTLVOBJECT fs) as [Htl Hf]; [done..|].
  pose proof (enc_fields_count fs) as Hc.
  unfold Tlv_ReadObject. rewrite Htl. simpl (8 =? 0). simpl (negb _). cbv iota.
  rewrite u32_small by lia. apply (loop_mono _ (S (length fs))).
  - unfold tlv_fuel. apply le_n_S, Nat.le_le_succ_r.
    apply Nat2Z.inj_le. rewrite Z2Nat.id by (apply Z.div_pos; lia).
    apply Z.div_le_lower_bound; lia.
  - rewrite Hr, (Z.add_comm 8). apply read_fields_spec; (done || lia).
Qed.

(** ** Round trip of an object *)

Lemma object_fields_taken o :
  object_ok o -> (datasize o <> 0 -> kmalloc (datasize o) = true) ->
  takes_fields (object_fields o) object_zero
  /\ set_fields (object_fields o) object_zero = norm_object o.
Proof.
  intros (Hn & Hns & Ha & Ht & Hd & Hdd & Hh) Hk.
  assert (Hh32 : take (Z.to_nat 32) (hashptr o) = hashptr o) by (apply take_ge; rewrite Hh; done).
  unfold object_fields, name_fields, data_fields, norm_object.
  destruct (Z.eqb_spec (namesize o) 0) as [Hn0|Hn0], (Z.eqb_spec (datasize o) 0) as [Hd0|Hd0].
  - assert (match dataptr o with Some d => [] | None => [] end = @nil field) as -> by (by destruct (dataptr o)).
    cbn [app]. unfold set_fields. simpl. rewrite Hn0, Hd0, Hh32. simpl. tauto.
  - destruct (dataptr o) as [d|]; simpl in Hdd; [|lia]. cbn [app].
    unfold set_fields. simpl. rewrite Hn0, Hh32. specialize (Hk Hd0). simpl. tauto.
  - assert (match dataptr o with Some d => [] | None => [] end = @nil field) as -> by (by destruct (dataptr o)).
    cbn [app]. unfold set_fields. simpl. rewrite Hd0, Hh32. split; [|done]. split; [tauto|].
    split; [left; split_and!; (done || lia)|tauto].
  - destruct (dataptr o) as [d|]; simpl in Hdd; [|lia]. cbn [app].
    unfold set_fields. simpl. rewrite Hh32. specialize (Hk Hd0). split; [|done]. split; [tauto|].
    split; [left; split_and!; (done || lia)|tauto].
Qed.

Lemma read_enc_object o buf input len :
  object_ok o -> (datasize o <> 0 -> kmalloc (datasize o) = true) -> 0 <= input ->
  zlen (enc_object o) <= len < 2 ^ 31 -> holds_at buf input (enc_object o) ->
  Tlv_ReadObject kmalloc buf input len = Some (Some (zlen (enc_object o), norm_object o)).
Proof.
  intros Hok Hk Hi Hl Hh. destruct (object_fields_taken o Hok Hk) as [Ht <-].
  apply read_object_record; [by apply object_fields_ok|done..].
Qed.
(** ** Robustness of the readers on arbitrary bytes *)

Lemma get_u32_range buf off v : Forall is_byte buf -> get_u32 buf off = Some v -> in_u32 v.
Proof.
  unfold get_u32. intros Hb H. destruct (bget buf off 4) as [bs|] eqn:E; [|done].
  cbn in H. injection H as <-. apply bget_Some in E as ((_ & _ & E) & Hl & _).
  unfold in_u32. replace (2 ^ 32) with (256 ^ zlen bs) by (rewrite Hl; done).
  apply le_join_range. rewrite <- E. by apply Forall_take, Forall_drop.
Qed.

Lemma Tlv_ReadTl_inv buf input len t l i ret tag length idx :
  Forall is_byte buf -> 0 <= i -> i + len < 2 ^ 31 ->
  Tlv_ReadTl buf input len t l i = Some (ret, tag, length, idx) ->
  ret = 0 \/ (ret = 8 /\ idx = i + 8 /\ 0 <= length /\ 8 + length <= len).
Proof.
  intros Hb Hi Hl. unfold Tlv_ReadTl. case_goal; [intros; inv_some; by left|].
  destruct (get_u32 buf input) as [tg|] eqn:Et; [|done]. cbn [mbind option_bind].
  destruct (get_u32 buf (input + 4)) as [n|] eqn:En; [|done]. cbn [mbind option_bind].
  apply get_u32_range in En; [|done]. unfold in_u32 in En.
  case_goal; intros; inv_some; b2p; [by left|right]. rewrite u32_small; lia.
Qed.

(** Every turn of the loops moves [idx] by at least eight bytes, inside [len]. *)
Lemma read_head_body_step buf input len sum idx h idx' h' :
  Forall is_byte buf -> 0 <= idx -> sum <= len < 2 ^ 31 ->
  read_head_body buf input len sum (idx, h) = inl (idx', h') -> idx + 8 <= idx' <= len.
Proof.
  intros Hb Hi Hs. unfold read_head_body. case_goal; [|done]. b2p.
  destruct (Tlv_ReadTl _ _ _ _ _ _) as [[[[ret tag] n] ix]|] eqn:HT; [|done].
  rewrite s32_small in HT by lia. apply Tlv_ReadTl_inv in HT as [-> | (-> & -> & Hn)]; [done| |done|lia..].
  simpl (8 =? 0). cbv iota. rewrite u32_small by lia.
  repeat (case_goal; try done); intros; inv_some; lia.
Qed.

Lemma read_object_body_step buf input len sum idx o idx' o' :
  Forall is_byte buf -> 0 <= idx -> sum <= len < 2 ^ 31 ->
  read_object_body kmalloc buf input len sum (idx, o) = inl (idx', o') -> idx + 8 <= idx' <= len.
Proof.
  intros Hb Hi Hs. unfold read_object_body. case_goal; [|done]. b2p.
  destruct (Tlv_ReadTl _ _ _ _ _ _) as [[[[ret tag] n] ix]|] eqn:HT; [|done].
  rewrite s32_small in HT by lia. apply Tlv_ReadTl_inv in HT as [-> | (-> & -> & Hn)]; [done| |done|lia..].
  simpl (8 =? 0). cbv iota. rewrite u32_small by lia.
  repeat (case_goal; try done); intros; inv_some; lia.
Qed.

(** A loop over [idx] that advances by eight within [len] has fuel enough. *)
Lemma idx_loop_returns {A R} (body : Z * A -> Z * A + R) len a :
  0 <= len ->
  (forall idx x idx' x', 0 <= idx <= len -> body (idx, x) = inl (idx', x') -> idx + 8 <= idx' <= len) ->
  8 <= len -> exists r, loop (tlv_fuel len) body (8, a) = Some r.
Proof.
  intros Hl Hstep H8.
  apply (loop_terminates body (fun s => 8 <= s.1 <= len) (fun s => Z.to_nat ((len - s.1) / 8))).
  - intros [i x] [i' x'] Hi E. cbn [fst] in *. apply Hstep in E; [|lia]. split; [lia|].
    apply Z2Nat.inj_lt; [apply Z.div_pos; lia..|].
    assert ((len - i') / 8 + 1 <= (len - i) / 8); [|lia].
    replace ((len - i') / 8 + 1) with ((len - i' + 1 * 8) / 8) by (apply Z.div_add; lia).
    apply Z.div_le_mono; lia.
  - simpl. lia.
  - cbn [fst]. unfold tlv_fuel. apply Nat.lt_lt_succ_r, Nat.lt_succ_r, Z2Nat.inj_le;
      [apply Z.div_pos; lia..|]. apply Z.div_le_mono; lia.
Qed.

Lemma ReadObject_returns buf input len :
  Forall is_byte buf -> len < 2 ^ 31 -> exists r, Tlv_ReadObject kmalloc buf input len = Some r.
Proof.
  intros Hb Hl. unfold Tlv_ReadObject.
  destruct (Tlv_ReadTl _ _ _ _ _ _) as [[[[ret tag] sum] idx]|] eqn:HT; [|eauto].
  apply Tlv_ReadTl_inv in HT as [-> | (-> & -> & Hn)]; [by eauto| |done|lia..].
  simpl (8 =? 0). cbv iota. case_goal; [by eauto|]. rewrite u32_small by lia.
  apply idx_loop_returns; [lia| |lia]. intros. by eapply read_object_body_step; eauto; lia.
Qed.

Lemma ReadHead_returns buf input len h :
  Forall is_byte buf -> len < 2 ^ 31 -> exists r, Tlv_ReadHead buf input len h = Some r.
Proof.
  intros Hb Hl. unfold Tlv_ReadHead.
  destruct (Tlv_ReadTl _ _ _ _ _ _) as [[[[ret tag] sum] idx]|] eqn:HT; [|eauto].
  apply Tlv_ReadTl_inv in HT as [-> | (-> & -> & Hn)]; [by eauto| |done|lia..].
  simpl (8 =? 0). cbv iota. case_goal; [by eauto|]. rewrite u32_small by lia.
  apply idx_loop_returns; [lia| |lia]. intros. by eapply read_head_body_step; eauto; lia.
Qed.

(** A record read consumes at least its own header and no more than it was given. *)
Lemma ReadObject_consumes buf input len ret o :
  Forall is_byte buf -> len < 2 ^ 31 -> Tlv_ReadObject kmalloc buf input len = Some (Some (ret, o)) ->
  ret = 0 \/ 8 <= ret <= len.
Proof.
  intros Hb Hl. unfold Tlv_ReadObject.
  destruct (Tlv_ReadTl _ _ _ _ _ _) as [[[[r tag] sum] idx]|] eqn:HT; [|done].
  apply Tlv_ReadTl_inv in HT as [-> | (-> & -> & Hn)]; [intros [= <- <-]; by left| |done|lia..].
  simpl (8 =? 0). cbv iota. case_goal; [intros [= <- <-]; by left|]. rewrite u32_small by lia.
  intros H.
  refine (loop_invariant _ (fun _ => True)
            (fun r => forall ret o, r = Some (ret, o) -> ret = 0 \/ 8 <= ret <= len)
            _ _ _ _ _ I H ret o eq_refl); [done|].
  intros [i x] r _. unfold read_object_body.
  destruct (i <? sum + 8); [|intros [= <-] ? ? [= <- <-]; lia].
  destruct (Tlv_ReadTl _ _ _ _ _ _) as [[[[rt tg] n] ix]|]; [|intros [= <-]; done].
  destruct (rt =? 0); [intros [= <-] ? ? [= <- <-]; lia|].
  destruct (read_field _ _ _ _ _ _ _) as [[|]|]; [done|intros [= <-] ? ? [= <- <-]; lia|intros [= <-]; done].
Qed.

End Reader.

(** ** The block head *)

Definition set_head_field (f : field) (h : storage_block_enc_head) : storage_block_enc_head :=
  match f with
  | FU tag v =>
      if tag =? EMTLVHEADSIZE then mk_enc_head v (flashsize h)
      else if tag =? EMTLVHEADFLASHSIZE then mk_enc_head (blocksize h) v
      else h
  | FB _ _ _ => h
  end.

Lemma read_head_step tag v h buf input len sum idx :
  field_ok (FU tag v) -> 0 <= idx -> idx + 12 <= sum <= len -> len < 2 ^ 31 -> 0 <= input ->
  holds_at buf (input + idx) (enc_field (FU tag v)) ->
  read_head_body buf input len sum (idx, h) = inl (idx + 12, set_head_field (FU tag v) h).
Proof.
  intros [Ht Hv] Hi Hs Hl Hin Hh. cbn [field_tag] in Ht. unfold enc_field in Hh. cbn [field_tag field_value] in Hh.
  rewrite !holds_at_app, !le_split_length in Hh. destruct Hh as (Htag & Hlen & Hval).
  rewrite <- (Z.add_assoc (input + idx)) in Hval.
  change (Z.of_nat 4 + Z.of_nat 4) with 8 in Hval. change (Z.of_nat 4) with 4 in Hlen.
  rewrite <- (Z.add_assoc input) in Hval.
  unfold read_head_body, set_head_field. rewrite (proj2 (Z.ltb_lt idx sum)) by lia.
  unfold Tlv_ReadTl. rewrite s32_small by lia. rewrite (proj2 (Z.ltb_ge (len - idx) 8)) by lia.
  rewrite (get_u32_holds _ (input + idx) tag) by done. cbn [mbind option_bind].
  rewrite (get_u32_holds _ (input + idx + 4) 4) by (done || lia). cbn [mbind option_bind].
  rewrite (proj2 (Z.ltb_ge (len - idx) _)) by lia. rewrite (u32_small (idx + 8)) by lia.
  simpl (8 =? 0). cbv iota. rewrite (get_u32_holds _ (input + (idx + 8)) v) by done.
  rewrite u32_small by lia. replace (idx + 8 + 4) with (idx + 12) by lia.
  destruct (tag =? EMTLVHEADSIZE); [done|]. by destruct (tag =? EMTLVHEADFLASHSIZE).
Qed.

Lemma read_enc_head h h0 buf input len :
  in_u32 (blocksize h) -> in_u32 (flashsize h) -> 0 <= input -> 32 <= len < 2 ^ 31 ->
  holds_at buf input (enc_head h) -> Tlv_ReadHead buf input len h0 = Some (Some (32, h)).
Proof.
  intros Hb Hf Hi Hl Hh. pose proof (head_fields_ok h Hb Hf) as Hok.
  destruct (ReadTl_record buf input len EMTLVHEAD (head_fields h)) as [Htl Hfs]; [done..|].
  apply Forall_cons_1 in Hok as [H1 Hok]. apply Forall_cons_1 in Hok as [H2 _].
  unfold Tlv_ReadHead. rewrite Htl. change (zlen (enc_fields (head_fields h))) with 24.
  simpl (8 =? 0). simpl (negb _). cbv iota. change (u32 (24 + 8)) with 32.
  unfold head_fields in Hfs. rewrite !enc_fields_cons in Hfs. apply holds_at_app in Hfs as [Ha Hfs].
  apply holds_at_app in Hfs as [Hc _]. change (zlen (enc_field (FU EMTLVHEADSIZE (blocksize h)))) with 12 in Hc.
  rewrite <- Z.add_assoc in Hc. change (8 + 12) with 20 in Hc.
  apply (loop_mono _ 3).
  - unfold tlv_fuel. assert (1 <= len / 8) by (apply Z.div_le_lower_bound; lia). lia.
  - cbn [loop]. rewrite (read_head_step EMTLVHEADSIZE (blocksize h)) by (done || lia). change (8 + 12) with 20.
    rewrite (read_head_step EMTLVHEADFLASHSIZE (flashsize h)) by (done || lia). destruct h. done.
Qed.

(** ** The properties of the codec *)

(** C18. Writing a key object and reading it back.  Where the record fits the space
    given, [Tlv_WriteObject] reports its size and changes exactly that many
    bytes, and [Tlv_ReadObject] at the same place consumes the same number of
    bytes and yields the object (its name padded with zeros, its allocation cut
    to the data).  Where it does not fit, the writer returns 0. *)
Theorem tlv_object_roundtrip (kmalloc : Z -> bool) o buf output len
  (Hok : object_ok o) (Hk : datasize o <> 0 -> kmalloc (datasize o) = true)
  (Hlen : len < 2 ^ 31) (Ho : 0 <= output) (Hb : output + len <= zlen buf) :
  let n := zlen (enc_object o) in
  (n <= len ->
     exists buf', Tlv_WriteObject o buf output len = Some (n, buf') /\
       length buf' = length buf /\
       take (Z.to_nat output) buf' = take (Z.to_nat output) buf /\
       drop (Z.to_nat (output + n)) buf' = drop (Z.to_nat (output + n)) buf /\
       Tlv_ReadObject kmalloc buf' output len = Some (Some (n, norm_object o))) /\
  (len < n -> exists buf', Tlv_WriteObject o buf output len = Some (0, buf')).
Proof.
  cbn zeta. destruct (Tlv_WriteObject_spec o buf output len) as (x & _ & ->); [done..|].
  split; intros Hn; [|rewrite (proj2 (Z.leb_gt _ _)) by lia; by eauto].
  rewrite (proj2 (Z.leb_le _ _)) by lia. eexists. split; [done|].
  split; [by apply splice_length; lia|].
  split; [by apply splice_take; lia|]. split; [by apply splice_drop; lia|].
  apply read_enc_object; [done..|lia|]. by apply holds_at_splice; lia.
Qed.

Definition sample_object : storage_object :=
  mk_storage_object ([109; 97; 99] ++ fill 7 77) 3 0 0xA00000BF 5 (Some [1; 2; 3; 4; 5; 6]) (fill 9 32).

Lemma sample_object_ok : object_ok sample_object.
Proof. repeat split; vm_compute; congruence. Qed.

Lemma tlv_object_roundtrip_witness :
  exists buf', Tlv_WriteObject sample_object (fill 255 200) 16 150 = Some (124, buf') /\
    Tlv_ReadObject (fun _ => true) buf' 16 150 = Some (Some (124, norm_object sample_object)).
Proof.
  destruct (tlv_object_roundtrip (fun _ => true) sample_object (fill 255 200) 16 150
              sample_object_ok ltac:(done) ltac:(done) ltac:(done) ltac:(by vm_compute)) as [H _].
  destruct H as (buf' & Hw & _ & _ & _ & Hr); [by vm_compute|]. exists buf'. split; [exact Hw|exact Hr].
Defined.

(** Inside the buffer a tag and a length are read, and a word four bytes behind them. *)
Lemma get_u32_in buf off : 0 <= off -> off + 4 <= zlen buf -> exists v, get_u32 buf off = Some v.
Proof. intros Ho Hl. unfold get_u32. rewrite bget_inside by lia. by eexists. Qed.
Lemma ReadTl_in buf input len t l i : 0 <= input -> input + len <= zlen buf -> exists x, Tlv_ReadTl buf input len t l i = Some x.
Proof.
  intros Hi Hl. unfold Tlv_ReadTl. case_goal; [by eexists|]. b2p. destruct (get_u32_in buf input) as [tg ->]; [lia..|]. destruct (get_u32_in buf (input + 4)) as [n ->]; [lia..|].
  cbn [mbind option_bind]. case_goal; by eexists.
Qed.
Lemma ReadHead_defined buf input len h : Forall is_byte buf -> len < 2 ^ 31 -> 0 <= input -> input + len + 4 <= zlen buf ->
  exists ret h', Tlv_ReadHead buf input len h = Some (Some (ret, h')) /\ (ret = 0 \/ 8 <= ret <= len).
Proof.
  intros Hb Hl Hi Hin. destruct (ReadHead_returns buf input len h Hb Hl) as [r E]. rewrite E. unfold Tlv_ReadHead in E.
  destruct (ReadTl_in buf input len 0 0 0) as [[[[ret tag] sum] idx] HT]; [lia..|]. rewrite HT in E.
  apply Tlv_ReadTl_inv in HT as [-> | (-> & -> & Hn)]; [injection E as <-; exists 0, h; by split; [|left]| |done|lia..].
  simpl (8 =? 0) in E. cbv iota in E. destruct (negb _) eqn:En in E; [injection E as <-; exists 0, h; by split; [|left]|]. rewrite u32_small in E by lia.
  refine (loop_invariant _ (fun s => 0 <= s.1 <= len) (fun r => exists ret h', Some r = Some (Some (ret, h')) /\ (ret = 0 \/ 8 <= ret <= len)) _ _ _ _ _ _ E); [| |cbn; lia].
  - intros [i x] [i' x'] Hx Es. apply read_head_body_step in Es; [cbn in *; lia|done|cbn in Hx; lia|lia].
  - intros [i x] r0 Hx. cbn [fst] in Hx. unfold read_head_body. case_goal; [|intros [= <-]; eexists _, _; split; [done|right; lia]]. b2p. rewrite s32_small by lia.
    destruct (ReadTl_in buf (input + i) (len - i) 0 0 i) as [[[[rt tg] n] ix] HT]; [lia..|]. rewrite HT.
    apply Tlv_ReadTl_inv in HT as [-> | (-> & -> & Hn2)]; [intros [= <-]; eexists _, _; split; [done|by left]| |done|lia..].
    simpl (8 =? 0). cbv iota. destruct (get_u32_in buf (input + (i + 8))) as [v ->]; [lia..|]. by repeat (case_goal; try done).
Qed.

(** C39. The loops of the readers end on every content of the block: each turn moves on by at
    least the eight bytes of a tag and a length, and not beyond [len], so the fuel of
    the model is never used up.  What a reader returns is 0 or between 8 and [len].  The
    reader of the head returns wherever the buffer has four bytes behind [len]; that of
    an object returns or reaches outside its memory, as it does for a long name. *)
Theorem tlv_readers_return (kmalloc : Z -> bool) buf input len h
  (Hb : Forall is_byte buf) (Hl : len < 2 ^ 31) :
  (forall sum idx x idx' x', sum <= len -> 0 <= idx -> read_head_body buf input len sum (idx, x) = inl (idx', x') -> idx + 8 <= idx' <= len) /\
  (forall sum idx o idx' o', sum <= len -> 0 <= idx -> read_object_body kmalloc buf input len sum (idx, o) = inl (idx', o') -> idx + 8 <= idx' <= len) /\
  is_Some (Tlv_ReadHead buf input len h) /\
  (0 <= input -> input + len + 4 <= zlen buf ->
     exists ret h', Tlv_ReadHead buf input len h = Some (Some (ret, h')) /\ (ret = 0 \/ 8 <= ret <= len)) /\
  exists r, Tlv_ReadObject kmalloc buf input len = Some r /\ forall ret o, r = Some (ret, o) -> ret = 0 \/ 8 <= ret <= len.
Proof.
  split; [intros; by eapply read_head_body_step|]. split; [intros; by eapply read_object_body_step|].
  split; [by destruct (ReadHead_returns buf input len h Hb Hl) as [r ->]|]. split; [by apply ReadHead_defined|].
  destruct (ReadObject_returns kmalloc buf input len Hb Hl) as [r E]. exists r. split; [done|]. intros ret o ->. by eapply ReadObject_consumes.
Qed.

Lemma tlv_readers_return_witness :
  (exists ret h', Tlv_ReadHead (fill 3 64) 0 60 (mk_enc_head 0 0) = Some (Some (ret, h')) /\ (ret = 0 \/ 8 <= ret <= 60)) /\
  exists r, Tlv_ReadObject (fun _ => true) (fill 3 64) 0 60 = Some r /\ forall ret o, r = Some (ret, o) -> ret = 0 \/ 8 <= ret <= 60.
Proof.
  assert (Hb : Forall is_byte (fill 3 64)) by (apply Forall_replicate; by vm_compute).
  destruct (tlv_readers_return (fun _ => true) (fill 3 64) 0 60 (mk_enc_head 0 0) Hb) as (_ & _ & _ & Hh & Ho); [done|].
  split; [by apply Hh|exact Ho].
Defined.

(** The name of an object has 80 bytes, but the reader copies as many as the
    record's own [NAMESIZE] field says: any record that announces a longer name
    makes [Tlv_ReadObject] write past the end of [name]. *)
Theorem tlv_name_overflow (kmalloc : Z -> bool) n src
  (Hn : 80 < n < 2 ^ 30) (Hs : zlen src = n) :
  let msg := enc_record EMTLVOBJECT [FU EMTLVOBJNAMESIZE n; FB EMTLVOBJNAME n src] in
  Tlv_ReadObject kmalloc msg 0 (zlen msg) = Some None.
Proof.
  cbn zeta. set (f1 := FU _ n). set (f2 := FB _ n src). set (msg := enc_record _ _).
  assert (H1 : field_ok f1) by (unfold f1, field_ok, in_u32, EMTLVOBJNAMESIZE; cbn [field_tag]; lia).
  assert (H2 : field_ok f2) by (unfold f2, field_ok, in_u32, EMTLVOBJNAME; cbn [field_tag]; lia).
  pose proof (enc_record_length EMTLVOBJECT [f1; f2]) as Hl. fold msg in Hl.
  rewrite !enc_fields_cons, !length_app, !Nat2Z.inj_add in Hl. change (zlen (enc_fields [])) with 0 in Hl.
  pose proof (enc_field_length f2) as Hl2. rewrite field_value_length in Hl2 by done. cbn [f2] in Hl2.
  change (zlen (enc_field f1)) with 12 in Hl. pose proof (pad4_bounds n ltac:(lia)) as [Hp _].
  destruct (ReadTl_record msg 0 (zlen msg) EMTLVOBJECT [f1; f2]) as [Htl Hfs]; [done|lia|fold msg; lia| |].
  { apply holds_at_lookup; [lia|fold msg; lia|]. intros i _. done. }
  rewrite !enc_fields_cons in Hfs. apply holds_at_app in Hfs as [Hf1 Hf2]. apply holds_at_app in Hf2 as [Hf2 _].
  change (zlen (enc_field f1)) with 12 in Hf2.
  unfold Tlv_ReadObject. rewrite Htl. simpl (8 =? 0). simpl (negb _). cbv iota.
  rewrite !enc_fields_cons, !length_app, !Nat2Z.inj_add. change (zlen (enc_fields [])) with 0.
  change (zlen (enc_field f1)) with 12. rewrite u32_small by lia.
  apply (loop_mono _ 2); [unfold tlv_fuel; lia|]. cbn [loop].
  rewrite (read_object_step kmalloc f1); [|done|by left|lia|change (zlen (enc_field f1)) with 12; lia|lia|lia|done].
  change (8 + zlen (enc_field f1)) with 20.
  destruct (read_object_turn kmalloc f2 (set_field f1 object_zero) msg 0 (zlen msg)
              (12 + (zlen (enc_field f2) + 0) + 8) 20) as [Hv ->]; [done|lia|lia|lia|lia|done|].
  cbn [field_tag f2]. unfold read_field. simpl (EMTLVOBJNAME =? _). cbv iota. simpl (namesize _).
  rewrite (value_prefix _ _ _ _ _ H2 Hv). cbn [mbind option_bind].
  unfold bput. rewrite (proj2 (Z.leb_gt (0 + zlen (take (Z.to_nat n) src)) _)); [done|].
  rewrite fill_length. unfold MAX_OBJ_NAME_LEN. len_solve.
Qed.

Lemma tlv_name_overflow_witness :
  Tlv_ReadObject (fun _ => true) (enc_record EMTLVOBJECT [FU EMTLVOBJNAMESIZE 84; FB EMTLVOBJNAME 84 (fill 65 84)])
    0 (zlen (enc_record EMTLVOBJECT [FU EMTLVOBJNAMESIZE 84; FB EMTLVOBJNAME 84 (fill 65 84)])) = Some None.
Proof. apply (tlv_name_overflow (fun _ => true) 84 (fill 65 84)); [lia|done]. Defined.
