(* ===== verification/NormalKey.v ===== *)
(** * The normal key store (src/a311d/soc/amlogic/unifykey/normal_key.c)

    Keys kept in RAM as a list of objects and saved in a storage block: a raw
    head with two hashes, an encoded head, and the TLV records of the objects
    (Tlv.v).  The crypto API, the allocator and the content of freshly allocated
    memory are arguments. *)

From stdpp Require Import base numbers list option.
From S2P Require Import Prelude Tlv.

Definition STORAGE_BLOCK_RAW_HEAD_SIZE : Z := 512.
Definition STORAGE_BLOCK_ENC_HEAD_SIZE : Z := 512.
Definition BLOCK_VERSION_0 : Z := 0.

Definition ERR_HEADER : Z := 0x1.
Definition ERR_KEYMEMFAIL : Z := 0x2.
Definition ERR_KEYRDFAIL : Z := 0x4.
Definition ERR_KEYCHKFAIL : Z := 0x8.
Definition ERR_ENCHDFAIL : Z := 0x10.
Definition ERR_DATASZ : Z := 0x20.

Definition OBJ_ATTR_SECURE : Z := 1.
Definition OBJ_TYPE_GENERIC : Z := 0xA00000BF.

(** "AMLNORMAL" *)
Definition blockmark : bytes := [65; 77; 76; 78; 79; 82; 77; 65; 76].

Record storage_block_raw_head := mk_raw_head {
  mark : bytes; version : Z; enctype : Z; keycnt : Z; initcnt : Z; wrtcnt : Z; errcnt : Z;
  flags : Z; headhash : bytes; hash : bytes }.

(** The memory image of the raw head, [sizeof] 108. *)
Definition raw_head_bytes (h : storage_block_raw_head) : bytes :=
  mark h ++ le_split 4 (version h) ++ le_split 4 (enctype h) ++ le_split 4 (keycnt h)
  ++ le_split 4 (initcnt h) ++ le_split 4 (wrtcnt h) ++ le_split 4 (errcnt h)
  ++ le_split 4 (flags h) ++ headhash h ++ hash h.

Definition sizeof_raw_head : Z := 108.
(** sizeof (struct storage_node) *)
Definition sizeof_storage_node : Z := 152.

Definition raw_head_zero : storage_block_raw_head :=
  mk_raw_head (fill 0 16) 0 0 0 0 0 0 0 (fill 0 32) (fill 0 32).

(** Field updates. *)
Definition set_counts (h : storage_block_raw_head) (k i w e f : Z) : storage_block_raw_head :=
  mk_raw_head (mark h) (version h) (enctype h) k i w e f (headhash h) (hash h).
Definition set_flag (h : storage_block_raw_head) (f : Z) : storage_block_raw_head :=
  set_counts h (keycnt h) (initcnt h) (wrtcnt h) (errcnt h) (Z.lor (flags h) f).
Definition set_keycnt (h : storage_block_raw_head) (k : Z) : storage_block_raw_head :=
  set_counts h k (initcnt h) (wrtcnt h) (errcnt h) (flags h).
Definition set_headhash (h : storage_block_raw_head) (x : bytes) : storage_block_raw_head :=
  mk_raw_head (mark h) (version h) (enctype h) (keycnt h) (initcnt h) (wrtcnt h) (errcnt h)
    (flags h) x (hash h).
Definition set_hash (h : storage_block_raw_head) (x : bytes) : storage_block_raw_head :=
  mk_raw_head (mark h) (version h) (enctype h) (keycnt h) (initcnt h) (wrtcnt h) (errcnt h)
    (flags h) (headhash h) x.

(** The static variables of the file. *)
Record normal_key_state := mk_normal_key {
  keys : list storage_object;
  blockinited : Z;
  rawhead : storage_block_raw_head;
  enchead : storage_block_enc_head }.

Definition with_keys (s : normal_key_state) ks :=
  mk_normal_key ks (blockinited s) (rawhead s) (enchead s).
Definition with_inited (s : normal_key_state) b :=
  mk_normal_key (keys s) b (rawhead s) (enchead s).
Definition with_raw (s : normal_key_state) r :=
  mk_normal_key (keys s) (blockinited s) r (enchead s).
Definition with_enc (s : normal_key_state) e :=
  mk_normal_key (keys s) (blockinited s) (rawhead s) e.

Section Store.
(** [crypto_shash_digest] with SHA-256: the digest, or an error code of any of
    the calls that set it up. *)
Variable digest : bytes -> Z + bytes.
(** Whether [kmalloc] of a size succeeds, and the bytes the memory then holds. *)
Variable kmalloc : Z -> bool.
Variable uninit : Z -> bytes.

(** Returns the C result and the hash stored. *)
Definition normalkey_hash (data : bytes) (len : Z) : option (Z * bytes) :=
  src ← bget data 0 len;
  match digest src with
  | inl err => Some (err, fill 0 SHA256_DIGEST_SIZE)
  | inr h => Some (0, h)
  end.

Definition normalkey_init (s : normal_key_state) : Z * normal_key_state :=
  if c_true (blockinited s) then (-1, s) else (0, with_inited s 1).

Definition normalkey_deinit (s : normal_key_state) : normal_key_state :=
  if negb (c_true (blockinited s)) then s else with_keys (with_inited s 0) [].

(** The position in the list and the object; [nm] is the string without its
    final NUL, [None] a null pointer. *)
Fixpoint get_in (ks : list storage_object) (nm : bytes) (i : nat)
  : option (option (nat * storage_object)) :=
  match ks with
  | [] => Some None
  | obj :: ks =>
      if Z.of_nat (length nm) =? namesize obj then
        n ← bget (name obj) 0 (Z.of_nat (length nm));
        if bool_decide (n = nm) then Some (Some (i, obj)) else get_in ks nm (S i)
      else get_in ks nm (S i)
  end.

Definition normalkey_get (s : normal_key_state) (nm : option bytes)
  : option (option (nat * storage_object)) :=
  match nm with
  | None => Some None
  | Some nm => get_in (keys s) nm 0
  end.

(** The last three statements of [normalkey_add]. *)
Definition fill_object (obj : storage_object) (buffer : bytes) (len : Z) : option storage_object :=
  src ← bget buffer 0 len;
  d ← dataptr obj;
  d ← bput d 0 src;
  '(_, h) ← normalkey_hash buffer len;
  Some (mk_storage_object (name obj) (namesize obj) (attribute obj) (type obj) len (Some d) h).

Definition with_dataptr (obj : storage_object) (d : bytes) : storage_object :=
  mk_storage_object (name obj) (namesize obj) (attribute obj) (type obj) (datasize obj) (Some d)
    (hashptr obj).

Definition normalkey_add (s : normal_key_state) (nm buffer : option bytes) (len attr : Z)
  : option (Z * normal_key_state) :=
  if negb (blockinited s =? 2) then Some (-1, s)
  else
    match nm, buffer with
    | Some nm, Some buffer =>
        if (len =? 0) || c_true (Z.land attr OBJ_ATTR_SECURE) then Some (-1, s)
        else if MAX_OBJ_NAME_LEN <? Z.of_nat (length nm) then Some (-1, s)
        else
          r ← normalkey_get s (Some nm);
          match r with
          | Some (i, obj) =>
              if negb (attr =? attribute obj) then Some (-1, s)
              else if datasize obj <? len then
                if negb (kmalloc len) then Some (-1, s)
                else
                  obj ← fill_object (with_dataptr obj (uninit len)) buffer len;
                  Some (0, with_keys s (<[i := obj]> (keys s)))
              else
                obj ← fill_object obj buffer len;
                Some (0, with_keys s (<[i := obj]> (keys s)))
          | None =>
              if negb (kmalloc sizeof_storage_node) then Some (-1, s)
              else if negb (kmalloc len) then Some (-1, s)
              else
                n ← bput (uninit MAX_OBJ_NAME_LEN) 0 nm;
                obj ← fill_object
                        (mk_storage_object n (Z.of_nat (length nm)) attr OBJ_TYPE_GENERIC 0
                           (Some (uninit len)) (uninit 32)) buffer len;
                Some (0, with_keys s (obj :: keys s))
          end
    | _, _ => Some (-1, s)
    end.

Definition normalkey_del (s : normal_key_state) (nm : option bytes) : option (Z * normal_key_state) :=
  if negb (blockinited s =? 2) then Some (-1, s)
  else
    r ← normalkey_get s nm;
    match r with
    | None => Some (-1, s)
    | Some (i, _) => Some (0, with_keys s (delete i (keys s)))
    end.

(** ** Loading a block *)

(** [strcmp (mark, blockmark) == 0] *)
Definition mark_matches (block : bytes) : bool :=
  bool_decide (take (S (length blockmark)) block = blockmark ++ [0]).

(** [normalkey_hash (obj->dataptr, obj->datasize, hash)]; a null pointer is
    only read when the size is not 0. *)
Definition object_hash (obj : storage_object) : option bytes :=
  snd <$> normalkey_hash (default [] (dataptr obj)) (datasize obj).

(** The loop over the objects: the flags raised, the keys, and whether the
    fuel was enough (outer [option]); the inner [option] is undefined behaviour. *)
Fixpoint read_objects (fuel : nat) (block : bytes) (pdata bsize idx : Z)
    (ks : list storage_object) (fl : Z) : option (option (list storage_object * Z)) :=
  match fuel with
  | O => None
  | S fuel =>
      if idx <? bsize then
        if negb (kmalloc sizeof_storage_node) then Some (Some (ks, Z.lor fl ERR_KEYMEMFAIL))
        else
          match Tlv_ReadObject kmalloc block (pdata + idx) (s32 (bsize - idx)) with
          | None => None
          | Some None => Some None
          | Some (Some (ret, obj)) =>
              if ret =? 0 then Some (Some (ks, Z.lor fl ERR_KEYRDFAIL))
              else
                match object_hash obj with
                | None => Some None
                | Some h =>
                    if bool_decide (h = hashptr obj)
                    then read_objects fuel block pdata bsize (u32 (idx + ret)) (obj :: ks) fl
                    else read_objects fuel block pdata bsize (u32 (idx + ret)) ks
                           (Z.lor fl ERR_KEYCHKFAIL)
                end
          end
      else Some (Some (ks, fl))
  end.

(** Turns of the loop over the objects: each consumes at least eight bytes. *)
Definition objects_fuel (block : bytes) : nat := S (length block).

(** The two heads against their hashes. *)
Definition check_raw_head (raw : storage_block_raw_head) (block : bytes)
  : option storage_block_raw_head :=
  '(_, hh) ← normalkey_hash block (sizeof_raw_head - 64);
  let raw := set_headhash raw hh in
  stored ← bget block 44 32;
  raw ← (if negb (bool_decide (hh = stored)) then Some (set_flag raw ERR_HEADER)
         else
           k ← get_u32 block 24; i ← get_u32 block 28; w ← get_u32 block 32;
           e ← get_u32 block 36; f ← get_u32 block 40;
           Some (set_counts raw k i w e f));
  Some (set_counts raw (keycnt raw) (u32 (initcnt raw + 1)) (wrtcnt raw) (errcnt raw) (flags raw)).

(** [block] is the memory at the pointer, [None] for a null pointer. *)
Definition normalkey_readfromblock (s : normal_key_state) (block : option bytes) (size : Z)
  : option (Z * normal_key_state) :=
  if negb (blockinited s =? 1) then Some (-1, s)
  else
    match block with
    | None => Some (-1, s)
    | Some block =>
        if size <=? STORAGE_BLOCK_ENC_HEAD_SIZE + STORAGE_BLOCK_RAW_HEAD_SIZE then Some (-1, s)
        else
          let penchead := STORAGE_BLOCK_RAW_HEAD_SIZE in
          let pdata := penchead + STORAGE_BLOCK_ENC_HEAD_SIZE in
          let s := with_inited s 2 in
          let raw := mk_raw_head (blockmark ++ fill 0 7) BLOCK_VERSION_0 0 0 0 0 0 0
                       (fill 0 32) (fill 0 32) in
          let s := with_enc (with_raw s raw) (mk_enc_head (blocksize (enchead s)) (u32 size)) in
          if negb (mark_matches block) then Some (0, s)
          else
            raw ← check_raw_head raw block;
            let dlen := u32 (size - STORAGE_BLOCK_RAW_HEAD_SIZE) in
            dat ← bget block penchead dlen;
            '(_, h) ← normalkey_hash dat dlen;
            let raw := set_hash raw h in
            stored ← bget block 76 32;
            if negb (bool_decide (h = stored)) then
              Some (0, with_raw s (set_counts raw (keycnt raw) (initcnt raw) (wrtcnt raw)
                                     (u32 (errcnt raw + 1)) (flags raw)))
            else
              r ← Tlv_ReadHead block penchead STORAGE_BLOCK_ENC_HEAD_SIZE (enchead s);
              '(ret, enc) ← r;
              let s := with_enc s enc in
              if ret =? 0 then Some (0, with_raw s (set_flag raw ERR_ENCHDFAIL))
              else if size <? u32 (blocksize enc + STORAGE_BLOCK_ENC_HEAD_SIZE
                                   + STORAGE_BLOCK_RAW_HEAD_SIZE)
              then Some (0, with_raw s (set_flag raw ERR_DATASZ))
              else
                r ← read_objects (objects_fuel block) block pdata (blocksize enc) 0 (keys s) (flags raw);
                '(ks, fl) ← r;
                Some (0, with_keys (with_raw s (set_counts raw (keycnt raw) (initcnt raw) (wrtcnt raw)
                                                  (errcnt raw) fl)) ks)
    end.

(** ** Saving to a block *)

(** The loop over the keys: the C result so far (1 while it goes on), [idx],
    the number of keys written and the block. *)
Fixpoint write_objects (ks : list storage_object) (block : bytes) (pdata size_tmp idx cnt : Z)
  : option (bool * Z * Z * bytes) :=
  match ks with
  | [] => Some (true, idx, cnt, block)
  | obj :: ks =>
      '(ret, block) ← Tlv_WriteObject obj block (pdata + idx) (s32 (size_tmp - idx));
      if ret =? 0 then Some (false, idx, cnt, block)
      else write_objects ks block pdata size_tmp (u32 (idx + ret)) (u32 (cnt + 1))
  end.

(** Returns the C result, the block and the state. *)
Definition normalkey_writetoblock (s : normal_key_state) (block : option bytes) (size : Z)
  : option (Z * option bytes * normal_key_state) :=
  if negb (blockinited s =? 2) then Some (-1, block, s)
  else
    match block with
    | None => Some (-1, block, s)
    | Some blk =>
        if size <=? STORAGE_BLOCK_ENC_HEAD_SIZE + STORAGE_BLOCK_RAW_HEAD_SIZE
        then Some (-1, block, s)
        else
          let penchead := STORAGE_BLOCK_RAW_HEAD_SIZE in
          let pdata := penchead + STORAGE_BLOCK_ENC_HEAD_SIZE in
          let s := with_enc s (mk_enc_head (blocksize (enchead s)) (u32 size)) in
          let size_tmp := size - (STORAGE_BLOCK_ENC_HEAD_SIZE + STORAGE_BLOCK_RAW_HEAD_SIZE) in
          '(fine, idx, cnt, blk) ← write_objects (keys s) blk pdata size_tmp 0 0;
          let s := with_raw s (set_keycnt (rawhead s) cnt) in
          if negb fine then Some (-1, Some blk, s)
          else
            let s := with_enc s (mk_enc_head idx (flashsize (enchead s))) in
            '(ret, blk) ← Tlv_WriteHead (enchead s) blk penchead STORAGE_BLOCK_ENC_HEAD_SIZE;
            if ret =? 0 then Some (-1, Some blk, s)
            else
              let raw := rawhead s in
              let raw := set_counts raw (keycnt raw) (initcnt raw) (u32 (wrtcnt raw + 1))
                           (errcnt raw) (flags raw) in
              '(_, hh) ← normalkey_hash (raw_head_bytes raw) (sizeof_raw_head - 64);
              let raw := set_headhash raw hh in
              let dlen := u32 (flashsize (enchead s) - STORAGE_BLOCK_RAW_HEAD_SIZE) in
              dat ← bget blk penchead dlen;
              '(_, h) ← normalkey_hash dat dlen;
              let raw := set_hash raw h in
              blk ← bput blk 0 (raw_head_bytes raw);
              Some (0, Some blk, with_raw s raw)
    end.

End Store.
