(* ===== verification/NormalKeySpec.v ===== *)
(** * Properties of the normal key store (src/a311d/soc/amlogic/unifykey/normal_key.c)

    The list of keys as a finite map from names to data: lookups, additions and
    deletions; the image of the store in a block, and that a block written is
    read back as the same map. *)

From stdpp Require Import base numbers list option.
From S2P Require Import Prelude Tlv TlvSpec NormalKey.

(** The name and the content of a key. *)
Definition key_name (o : storage_object) : bytes := take (Z.to_nat (namesize o)) (name o).
Definition key_data (o : storage_object) : bytes :=
  take (Z.to_nat (datasize o)) (default [] (dataptr o)).

Section Spec.
Context (digest : bytes -> Z + bytes) (kmalloc : Z -> bool) (uninit : Z -> bytes).
Context (Hdigest : forall d, exists h, digest d = inr h /\ length h = 32%nat).
Context (Huninit : forall n, length (uninit n) = Z.to_nat n).

(** A key whose stored hash is the hash of its data. *)
Definition key_ok (o : storage_object) : Prop :=
  object_ok o /\ object_hash digest o = Some (hashptr o).

(** The invariant of the store: well-formed keys with distinct names. *)
Definition keys_ok (ks : list storage_object) : Prop :=
  Forall key_ok ks /\ NoDup (map key_name ks).

(** ** Hashing *)

Lemma normalkey_hash_ok data len :
  0 <= len <= zlen data ->
  exists h, normalkey_hash digest data len = Some (0, h) /\ length h = 32%nat
            /\ digest (take (Z.to_nat len) data) = inr h.
Proof.
  intros H. unfold normalkey_hash. rewrite bget_take by lia. cbn [mbind option_bind].
  destruct (Hdigest (take (Z.to_nat len) data)) as (h & E & Hh). rewrite E. eauto.
Qed.

Lemma object_hash_data o o' :
  0 <= datasize o <= zlen (default [] (dataptr o)) -> 0 <= datasize o' <= zlen (default [] (dataptr o')) ->
  key_data o = key_data o' -> object_hash digest o = object_hash digest o'.
Proof.
  intros H H' E. unfold object_hash, normalkey_hash. rewrite !bget_take by lia.
  cbn [mbind option_bind]. unfold key_data in E. by rewrite E.
Qed.

(** ** Looking a name up *)

Lemma name_match o nm :
  object_ok o ->
  (if zlen nm =? namesize o
   then bget (name o) 0 (zlen nm) = Some (key_name o) /\ (key_name o = nm <-> key_name o = nm)
   else key_name o <> nm).
Proof.
  intros (Hn & Hns & _). unfold key_name. destruct (Z.eqb_spec (zlen nm) (namesize o)) as [E|E].
  - split; [|done]. rewrite bget_take by lia. by rewrite E.
  - intros <-. rewrite length_take in E. lia.
Qed.

Lemma get_in_find ks nm : forall i,
  Forall object_ok ks ->
  get_in ks nm i = Some ((fun p => (i + p.1, p.2)%nat) <$> list_find (fun o => key_name o = nm) ks).
Proof.
  induction ks as [|o ks IH]; intros i H; [done|].
  apply Forall_cons_1 in H as [Ho H]. pose proof (name_match o nm Ho) as Hm. cbn [get_in list_find].
  assert (Hrec : get_in ks nm (S i) = Some ((fun p => (i + p.1, p.2)%nat) <$>
            (prod_map S id <$> list_find (fun o => key_name o = nm) ks))).
  { rewrite IH by done. f_equal. destruct (list_find _ ks) as [[j x]|]; [|done].
    simpl. by rewrite <- plus_n_Sm. }
  destruct (zlen nm =? namesize o).
  - destruct Hm as [-> _]. cbn [mbind option_bind]. destruct (decide (key_name o = nm)) as [E|E].
    + rewrite bool_decide_true by done. simpl. by rewrite Nat.add_0_r.
    + rewrite bool_decide_false by done. exact Hrec.
  - rewrite decide_False by done. exact Hrec.
Qed.

Lemma keys_object_ok ks : keys_ok ks -> Forall object_ok ks.
Proof. intros [H _]. eapply Forall_impl; [|exact H]. by intros ? []. Qed.

Lemma normalkey_get_find s nm :
  keys_ok (keys s) ->
  normalkey_get s (Some nm) = Some (list_find (fun o => key_name o = nm) (keys s)).
Proof.
  intros H%keys_object_ok. unfold normalkey_get. rewrite get_in_find by done.
  by destruct (list_find _ _) as [[]|].
Qed.

(** With distinct names, looking up is membership. *)
Lemma find_iff ks nm i o :
  NoDup (map key_name ks) ->
  list_find (fun o => key_name o = nm) ks = Some (i, o) <-> ks !! i = Some o /\ key_name o = nm.
Proof.
  intros Hnd. rewrite list_find_Some. split; [tauto|]. intros [Hi Hn]. split_and!; [done..|].
  intros j y Hj Hlt Hy. assert (i = j); [|lia].
  apply (NoDup_lookup (map key_name ks) i j nm); [done|by rewrite list_lookup_fmap, Hi; simpl; rewrite Hn|].
  by rewrite list_lookup_fmap, Hj; simpl; rewrite Hy.
Qed.

Lemma find_None ks nm :
  list_find (fun o => key_name o = nm) ks = None <-> ~ In nm (map key_name ks).
Proof.
  rewrite list_find_None. rewrite in_map_iff. split.
  - intros H (o & <- & Hi). rewrite Forall_forall in H. by apply (H o).
  - intros H. apply Forall_forall. intros o Ho E. apply H. by exists o.
Qed.

(** The map the store stands for. *)
Definition lookup_key (ks : list storage_object) (nm : bytes) : option bytes :=
  key_data ∘ snd <$> list_find (fun o => key_name o = nm) ks.

Lemma lookup_key_iff ks nm d :
  NoDup (map key_name ks) ->
  lookup_key ks nm = Some d <-> exists o, In o ks /\ key_name o = nm /\ key_data o = d.
Proof.
  intros Hnd. unfold lookup_key. rewrite fmap_Some. split.
  - intros ([i o] & Hf & ->). apply find_iff in Hf as [Hi Hn]; [|done].
    exists o. split_and!; [|done..]. by eapply list_elem_of_In, list_elem_of_lookup_2.
  - intros (o & Hi & Hn & <-). apply list_elem_of_In, list_elem_of_lookup_1 in Hi as [i Hi].
    exists (i, o). split; [|done]. by apply find_iff.
Qed.

(** ** Adding a key *)

Lemma fill_object_spec obj d buffer len :
  object_ok obj -> dataptr obj = Some d -> 0 <= len <= zlen buffer -> len <= zlen d -> len < 2 ^ 30 ->
  exists obj', fill_object digest obj buffer len = Some obj' /\ key_ok obj' /\
    key_name obj' = key_name obj /\ key_data obj' = take (Z.to_nat len) buffer.
Proof.
  intros (Hn & Hns & Ha & Ht & Hd & Hdd & Hh) Hp Hl Hd' Hb. unfold fill_object.
  rewrite bget_take by lia. cbn [mbind option_bind]. rewrite Hp. cbn [mbind option_bind].
  rewrite bput_in by len_solve. cbn [mbind option_bind].
  destruct (normalkey_hash_ok buffer len Hl) as (h & -> & Hh32 & Hdg). cbn [mbind option_bind].
  eexists. split; [done|]. set (d' := splice _ _ _).
  assert (Hlen : length d' = length d) by (apply splice_length; len_solve).
  assert (Hdata : take (Z.to_nat len) d' = take (Z.to_nat len) buffer).
  { pose proof (holds_at_splice d 0 (take (Z.to_nat len) buffer)) as Hs.
    destruct Hs as (_ & _ & Hs); [lia|len_solve|]. fold d' in Hs. rewrite drop_0 in Hs.
    rewrite length_take, Nat.min_l in Hs by lia. done. }
  split_and!; [split| |].
  - unfold object_ok. simpl. split_and!; (done || lia).
  - unfold object_hash, normalkey_hash. simpl. rewrite bget_take by lia. cbn [mbind option_bind].
    rewrite Hdata, Hdg. done.
  - done.
  - unfold key_data. simpl. done.
Qed.

Lemma keys_ok_insert ks i o o' :
  keys_ok ks -> ks !! i = Some o -> key_ok o' -> key_name o' = key_name o -> keys_ok (<[i := o']> ks).
Proof.
  intros [Hf Hnd] Hi Ho Hn. split.
  - by apply Forall_insert.
  - change (map key_name (<[i := o']> ks)) with (key_name <$> <[i := o']> ks).
    rewrite list_fmap_insert, list_insert_id; [done|]. rewrite Hn. by rewrite list_lookup_fmap, Hi.
Qed.

Lemma lookup_key_insert ks i o o' nm :
  keys_ok ks -> ks !! i = Some o -> key_ok o' -> key_name o' = key_name o ->
  lookup_key (<[i := o']> ks) nm = if decide (nm = key_name o) then Some (key_data o') else lookup_key ks nm.
Proof.
  intros Hok Hi Ho Hn. pose proof (keys_ok_insert _ _ _ _ Hok Hi Ho Hn) as Hok'.
  destruct Hok as [_ Hnd], Hok' as [_ Hnd']. pose proof (lookup_lt_Some _ _ _ Hi) as Hlt.
  apply option_eq. intros d. rewrite lookup_key_iff by done. case_decide as Hd.
  - split.
    + intros (x & Hx & Hxn & <-). apply list_elem_of_In, list_elem_of_lookup_1 in Hx as [j Hj].
      assert (j = i) as ->.
      { apply (NoDup_lookup _ j i nm Hnd'); rewrite list_lookup_fmap; [by rewrite Hj; simpl; rewrite Hxn|].
        rewrite list_lookup_insert_eq by done. simpl. by rewrite Hn, Hd. }
      rewrite list_lookup_insert_eq in Hj by done. by injection Hj as ->.
    + intros [= <-]. exists o'. split_and!; [|by rewrite Hn|done].
      eapply list_elem_of_In, list_elem_of_lookup_2. by apply list_lookup_insert_eq.
  - rewrite lookup_key_iff by done. split; intros (x & Hx & Hxn & <-); exists x; (split; [|done]);
      apply list_elem_of_In, list_elem_of_lookup_1 in Hx as [j Hj];
      eapply list_elem_of_In, list_elem_of_lookup_2.
    + destruct (decide (i = j)) as [->|]; [|by rewrite list_lookup_insert_ne in Hj].
      rewrite list_lookup_insert_eq in Hj by done. injection Hj as <-. congruence.
    + destruct (decide (i = j)) as [->|]; [|by rewrite list_lookup_insert_ne].
      exfalso. congruence.
Qed.

Lemma lookup_key_cons ks o nm :
  lookup_key (o :: ks) nm = if decide (nm = key_name o) then Some (key_data o) else lookup_key ks nm.
Proof.
  unfold lookup_key. cbn [list_find]. destruct (decide (key_name o = nm)) as [E|E].
  - by rewrite decide_True by done.
  - rewrite decide_False by congruence. by destruct (list_find _ ks) as [[]|].
Qed.

(** The new content of an existing key, in an allocation that is large enough. *)
Lemma update_key ks i obj obj1 d buffer len :
  keys_ok ks -> ks !! i = Some obj -> 0 <= len <= zlen buffer -> len < 2 ^ 30 ->
  object_ok obj1 -> key_name obj1 = key_name obj -> dataptr obj1 = Some d -> len <= zlen d ->
  exists obj', fill_object digest obj1 buffer len = Some obj' /\ keys_ok (<[i := obj']> ks) /\
    forall nm', lookup_key (<[i := obj']> ks) nm'
      = if decide (nm' = key_name obj) then Some (take (Z.to_nat len) buffer) else lookup_key ks nm'.
Proof.
  intros Hok Hi Hl Hb Ho1 Hn1 Hp Hd.
  destruct (fill_object_spec obj1 d buffer len) as (obj' & Hfo & Hk & Hn & Hdata); [done..|].
  exists obj'. rewrite Hn1 in Hn. split_and!; [done|by eapply keys_ok_insert|].
  intros nm'. erewrite lookup_key_insert by done. by rewrite Hdata.
Qed.

(** What [normalkey_add] did: nothing, or a new content for one name. *)
Definition added (s : normal_key_state) (nm data : bytes) (attr r : Z) (s' : normal_key_state) : Prop :=
  (r = -1 /\ s' = s /\
     ((exists n, kmalloc n = false) \/ exists o, In o (keys s) /\ key_name o = nm /\ attribute o <> attr))
  \/ (r = 0 /\ s' = with_keys s (keys s') /\
     forall nm', lookup_key (keys s') nm' = if decide (nm' = nm) then Some data else lookup_key (keys s) nm').

Lemma with_dataptr_ok obj d :
  object_ok obj -> datasize obj <= zlen d -> object_ok (with_dataptr obj d).
Proof. intros (? & ? & ? & ? & ? & ? & ?) ?. unfold object_ok, with_dataptr. simpl. tauto. Qed.

Lemma normalkey_add_lemma s nm buffer len attr :
  keys_ok (keys s) -> blockinited s = 2 -> zlen nm <= 80 -> 0 < len < 2 ^ 30 ->
  len <= zlen buffer -> in_u32 attr -> Z.land attr 1 = 0 ->
  exists r s', normalkey_add digest kmalloc uninit s (Some nm) (Some buffer) len attr = Some (r, s') /\
    keys_ok (keys s') /\ added s nm (take (Z.to_nat len) buffer) attr r s'.
Proof.
  intros Hok Hbi Hnm Hl Hb Ha Hs. unfold normalkey_add. rewrite Hbi. simpl (negb (2 =? 2)). cbv iota.
  rewrite (proj2 (Z.eqb_neq len 0)) by lia. unfold OBJ_ATTR_SECURE. rewrite Hs. simpl (_ || _). cbv iota.
  unfold MAX_OBJ_NAME_LEN at 1. rewrite (proj2 (Z.ltb_ge 80 (zlen nm))) by lia.
  rewrite normalkey_get_find by done. cbn [mbind option_bind].
  destruct (list_find _ (keys s)) as [[i obj]|] eqn:Hf.
  - apply find_iff in Hf as [Hi <-]; [|apply Hok].
    assert (Hin : In obj (keys s)) by (by eapply list_elem_of_In, list_elem_of_lookup_2).
    assert (Hobj : object_ok obj) by (eapply Forall_lookup_1; [by apply keys_object_ok|done]).
    destruct (Z.eqb_spec attr (attribute obj)) as [Hat|Hat]; simpl negb; cbv iota.
    2:{ exists (-1), s. split_and!; [done..|]. left. split_and!; [done..|]. right. exists obj. split_and!; congruence. }
    destruct (Z.ltb_spec (datasize obj) len).
    + destruct (kmalloc len) eqn:Hk; simpl negb; cbv iota.
      2:{ exists (-1), s. split_and!; [done..|]. left. eauto 10. }
      destruct (update_key (keys s) i obj (with_dataptr obj (uninit len)) (uninit len) buffer len)
        as (o' & -> & Hok' & Hlk); [done|done|lia|lia|apply with_dataptr_ok; [done|rewrite Huninit; lia]|done|done|rewrite Huninit; lia|].
      cbn [mbind option_bind]. do 2 eexists. split; [done|]. split; [done|]. by right.
    + pose proof Hobj as (_ & _ & _ & _ & Hd & Hdd & _).
      destruct (dataptr obj) as [d|] eqn:Hp; simpl in Hdd; [|lia].
      destruct (update_key (keys s) i obj obj d buffer len) as (o' & -> & Hok' & Hlk);
        [done|done|lia|lia|done|done|done|lia|].
      cbn [mbind option_bind]. do 2 eexists. split; [done|]. split; [done|]. by right.
  - destruct (kmalloc sizeof_storage_node) eqn:Hk1; simpl negb; cbv iota.
    2:{ exists (-1), s. split_and!; [done..|]. left. eauto 10. }
    destruct (kmalloc len) eqn:Hk; simpl negb; cbv iota.
    2:{ exists (-1), s. split_and!; [done..|]. left. eauto 10. }
    rewrite bput_in by (rewrite ?Huninit; unfold MAX_OBJ_NAME_LEN; lia). cbn [mbind option_bind].
    set (n := splice _ 0 nm). set (obj := mk_storage_object n _ _ _ _ _ _).
    assert (Hn : length n = 80%nat).
    { unfold n. rewrite splice_length; rewrite ?Huninit; unfold MAX_OBJ_NAME_LEN; lia. }
    assert (Hkn : key_name obj = nm).
    { unfold key_name, obj, n. simpl. rewrite Nat2Z.id. unfold splice. simpl. by rewrite take_app_length. }
    destruct (fill_object_spec obj (uninit len) buffer len) as (o' & -> & Hk' & Hn' & Hdata);
      [|done|lia|rewrite Huninit; lia|lia|].
    { unfold object_ok, obj. simpl. rewrite !Huninit. split_and!; try done; try lia. }
    cbn [mbind option_bind]. do 2 eexists. split; [done|]. rewrite Hkn in Hn'. split.
    + destruct Hok as [Hfo Hnd]. split; simpl; [by constructor|]. constructor; [|done].
      rewrite Hn'. rewrite list_elem_of_In. by apply find_None.
    + right. split_and!; [done..|]. intros nm'. simpl. rewrite lookup_key_cons, Hn', Hdata. done.
Qed.

(** ** Deleting a key *)

(** The order of the list does not matter. *)
Lemma lookup_key_perm ks ks' nm :
  NoDup (map key_name ks) -> ks ≡ₚ ks' -> lookup_key ks nm = lookup_key ks' nm.
Proof.
  intros Hnd Hp. assert (Hnd' : NoDup (map key_name ks')) by (by rewrite <- Hp).
  apply option_eq. intros d. rewrite !lookup_key_iff by done.
  split; intros (o & Ho & Hx); exists o; (split; [|done]);
    apply list_elem_of_In; apply list_elem_of_In in Ho; [by rewrite <- Hp|by rewrite Hp].
Qed.

Lemma keys_ok_delete ks i : keys_ok ks -> keys_ok (delete i ks).
Proof.
  intros [Hf Hnd]. split; [by apply Forall_delete|].
  change (map key_name (delete i ks)) with (key_name <$> delete i ks).
  rewrite list_fmap_delete. eapply sublist_NoDup; [exact Hnd|apply sublist_delete].
Qed.

Lemma lookup_key_delete ks i o nm :
  keys_ok ks -> ks !! i = Some o ->
  lookup_key (delete i ks) nm = if decide (nm = key_name o) then None else lookup_key ks nm.
Proof.
  intros [_ Hnd] Hi. pose proof (delete_Permutation _ _ _ Hi) as Hp.
  rewrite (lookup_key_perm ks _ nm Hnd Hp), lookup_key_cons. case_decide as E; [|done].
  rewrite Hp in Hnd. apply NoDup_cons_1_1 in Hnd as Hn. unfold lookup_key.
  rewrite (proj2 (find_None _ _)); [done|]. rewrite <- list_elem_of_In. by rewrite E.
Qed.

Lemma normalkey_del_lemma s nm :
  keys_ok (keys s) -> blockinited s = 2 ->
  exists r s', normalkey_del s (Some nm) = Some (r, s') /\ keys_ok (keys s') /\
    s' = with_keys s (keys s') /\ r = (if lookup_key (keys s) nm is Some _ then 0 else -1) /\
    forall nm', lookup_key (keys s') nm' = if decide (nm' = nm) then None else lookup_key (keys s) nm'.
Proof.
  intros Hok Hbi. unfold normalkey_del. rewrite Hbi. simpl (negb (2 =? 2)). cbv iota.
  rewrite normalkey_get_find by done. cbn [mbind option_bind]. unfold lookup_key at 1.
  destruct (list_find _ (keys s)) as [[i o]|] eqn:Hf.
  - apply find_iff in Hf as [Hi <-]; [|apply Hok]. do 2 eexists.
    split_and!; [done|by apply keys_ok_delete|done..|]. intros nm'. simpl. by apply lookup_key_delete.
  - exists (-1), s. split_and!; [done|done|by destruct s|done|]. intros nm'. case_decide as E; [|done].
    subst. unfold lookup_key. by rewrite Hf.
Qed.

(** ** The image of the keys in a block *)

Definition enc_objects (ks : list storage_object) : bytes := concat (map enc_object ks).

Lemma enc_object_long o : 8 <= zlen (enc_object o).
Proof. unfold enc_object. rewrite enc_record_length. lia. Qed.

Lemma enc_objects_cons o ks : zlen (enc_objects (o :: ks)) = zlen (enc_object o) + zlen (enc_objects ks).
Proof. unfold enc_objects. simpl. rewrite length_app. lia. Qed.

Lemma enc_objects_count ks : 8 * zlen ks <= zlen (enc_objects ks).
Proof.
  induction ks as [|o ks IH]; [simpl; lia|]. rewrite enc_objects_cons.
  pose proof (enc_object_long o). cbn [length]. lia.
Qed.

Lemma write_objects_spec ks pdata size : forall block idx cnt,
  Forall object_ok ks -> 0 <= pdata -> 0 <= idx <= size -> size < 2 ^ 31 -> pdata + size <= zlen block ->
  0 <= cnt -> 8 * cnt <= idx ->
  if idx + zlen (enc_objects ks) <=? size
  then write_objects ks block pdata size idx cnt
       = Some (true, idx + zlen (enc_objects ks), cnt + zlen ks, splice block (pdata + idx) (enc_objects ks))
  else exists i c x, write_objects ks block pdata size idx cnt = Some (false, i, c, x) /\ length x = length block
       /\ in_u32 c.
Proof.
  induction ks as [|o ks IH]; intros block idx cnt Hok Hp Hi Hs Hb Hc Hk.
  - simpl. rewrite !Z.add_0_r, splice_nil. by rewrite (proj2 (Z.leb_le idx size)) by lia.
  - apply Forall_cons_1 in Hok as [Ho Hok]. rewrite enc_objects_cons. cbn [write_objects].
    cbn [length] in *. pose proof (enc_object_long o).
    rewrite s32_small by lia.
    destruct (Tlv_WriteObject_spec o block (pdata + idx) (size - idx)) as (x & Hx & ->); [done|lia..|].
    cbn [mbind option_bind]. destruct (Z.leb_spec (zlen (enc_object o)) (size - idx)).
    + rewrite (proj2 (Z.eqb_neq (zlen (enc_object o)) 0)) by lia. rewrite (u32_small (idx + _)), (u32_small (cnt + 1)) by lia.
      specialize (IH (splice block (pdata + idx) (enc_object o)) (idx + zlen (enc_object o)) (cnt + 1)).
      rewrite !Z.add_assoc. rewrite splice_length in IH by lia.
      destruct (idx + zlen (enc_object o) + zlen (enc_objects ks) <=? size) eqn:E.
      * rewrite IH by (done || lia). rewrite Z.add_assoc, splice_app by lia.
        unfold enc_objects. simpl concat. do 3 f_equal. lia.
      * apply IH; (done || lia).
    + rewrite (proj2 (Z.leb_gt _ size)) by lia. simpl. do 3 eexists. split; [done|]. split; [done|]. unfold in_u32. lia.
Qed.

(** ** Reading the keys of a block *)

Lemma norm_object_data o :
  object_ok o -> key_name (norm_object o) = key_name o /\ key_data (norm_object o) = key_data o
    /\ object_ok (norm_object o).
Proof.
  intros (Hn & Hns & Ha & Ht & Hd & Hdd & Hh). unfold key_name, key_data. cbn [norm_object name namesize datasize dataptr].
  assert (Hl : length (take (Z.to_nat (namesize o)) (name o)) = Z.to_nat (namesize o)) by len_solve.
  split_and!.
  - rewrite take_app_le by lia. by rewrite take_take, Nat.min_id.
  - destruct (Z.eqb_spec (datasize o) 0) as [->|]; [done|]. destruct (dataptr o); [|done].
    simpl. by rewrite take_take, Nat.min_id.
  - unfold object_ok. cbn [norm_object name namesize datasize dataptr attribute type hashptr].
    split_and!; try done; try lia; [len_solve|].
    destruct (Z.eqb_spec (datasize o) 0) as [->|]; [simpl; lia|].
    destruct (dataptr o); simpl in *; [len_solve|lia].
Qed.

Lemma norm_object_key_ok o : key_ok o -> key_ok (norm_object o).
Proof.
  intros [Ho Hh]. pose proof (norm_object_data o Ho) as (_ & Hd & Ho'). split; [done|].
  change (hashptr (norm_object o)) with (hashptr o). rewrite <- Hh.
  apply object_hash_data; [|destruct Ho as (? & ? & ? & ? & ? & ? & ?); lia|done].
  destruct Ho' as (? & ? & ? & ? & ? & ? & ?); lia.
Qed.

Context (Hkmalloc : forall n, 0 < n -> kmalloc n = true).

Lemma read_objects_spec block pdata fl ks : forall fuel idx acc bsize,
  Forall key_ok ks -> 0 <= pdata -> 0 <= idx -> bsize = idx + zlen (enc_objects ks) -> bsize < 2 ^ 31 ->
  holds_at block (pdata + idx) (enc_objects ks) -> (length ks < fuel)%nat ->
  read_objects digest kmalloc fuel block pdata bsize idx acc fl
  = Some (Some (rev (map norm_object ks) ++ acc, fl)).
Proof.
  induction ks as [|o ks IH]; intros fuel idx acc bsize Hok Hp Hi -> Hb Hh Hf;
    (destruct fuel as [|fuel]; [simpl in Hf; lia|]).
  - simpl. by rewrite Z.add_0_r, Z.ltb_irrefl.
  - apply Forall_cons_1 in Hok as [Ho Hok]. rewrite enc_objects_cons in *.
    pose proof (enc_object_long o). change (enc_objects (o :: ks)) with (enc_object o ++ enc_objects ks) in Hh.
    apply holds_at_app in Hh as [Hho Hh]. cbn [read_objects].
    rewrite (proj2 (Z.ltb_lt idx _)) by lia. rewrite Hkmalloc by done. simpl negb. cbv iota.
    rewrite s32_small by lia.
    rewrite (read_enc_object kmalloc o); [|apply Ho| |lia|lia|done].
    2:{ intros Hd. apply Hkmalloc. destruct Ho as [(? & ? & ? & ? & ? & ?) _]. lia. }
    rewrite (proj2 (Z.eqb_neq (zlen (enc_object o)) 0)) by lia.
    destruct (norm_object_key_ok o Ho) as [_ ->]. rewrite bool_decide_true by done.
    rewrite u32_small by lia. rewrite Z.add_assoc.
    rewrite IH; [|done|lia|lia|lia|lia|by rewrite Z.add_assoc|simpl in Hf; lia].
    simpl. by rewrite <- app_assoc.
Qed.

(** Whatever a block holds, the loop over its objects ends. *)
Lemma read_objects_returns block pdata bsize : forall fuel idx acc fl,
  Forall is_byte block -> 0 <= idx -> bsize < 2 ^ 31 ->
  (0 < fuel)%nat -> bsize - idx <= 8 * (Z.of_nat fuel - 1) ->
  exists r, read_objects digest kmalloc fuel block pdata bsize idx acc fl = Some r.
Proof.
  induction fuel as [|fuel IH]; intros idx acc fl Hb Hi Hs H0 Hf; [lia|].
  cbn [read_objects]. destruct (Z.ltb_spec idx bsize); [|by eauto].
  destruct (negb (kmalloc _)); [by eauto|]. rewrite s32_small by lia.
  destruct (ReadObject_returns kmalloc block (pdata + idx) (bsize - idx)) as [[[ret obj]|] Hr];
    [done|lia| |rewrite Hr; by eauto]. rewrite Hr.
  apply ReadObject_consumes in Hr as Hc; [|done|lia].
  destruct (Z.eqb_spec ret 0); [by eauto|]. destruct (object_hash digest obj); [|by eauto].
  rewrite u32_small by lia. case_goal; apply IH; (done || lia).
Qed.

(** ** Saving and loading *)

(** The head of a store that was initialised from a block. *)
Definition rawhead_ok (h : storage_block_raw_head) : Prop :=
  mark h = blockmark ++ fill 0 7 /\ in_u32 (version h) /\ in_u32 (enctype h) /\ in_u32 (keycnt h) /\
  in_u32 (initcnt h) /\ in_u32 (wrtcnt h) /\ in_u32 (errcnt h) /\ in_u32 (flags h) /\
  length (headhash h) = 32%nat /\ length (hash h) = 32%nat.

Lemma raw_head_length h : rawhead_ok h -> length (raw_head_bytes h) = 108%nat.
Proof.
  intros (Hm & _ & _ & _ & _ & _ & _ & _ & Hh & Hd). unfold raw_head_bytes.
  rewrite !length_app, !le_split_length, Hm, Hh, Hd. done.
Qed.

(** The layout of the image of a store. *)
Definition block_image (block : bytes) (h : storage_block_raw_head) (e : storage_block_enc_head)
    (ks : list storage_object) : Prop :=
  holds_at block 0 (raw_head_bytes h) /\ holds_at block 512 (enc_head e) /\
  holds_at block 1024 (enc_objects ks).

(** The image carries the hashes that the loader recomputes. *)
Definition sealed (block : bytes) (size : Z) (h : storage_block_raw_head) : Prop :=
  digest (take 44 (raw_head_bytes h)) = inr (headhash h) /\
  digest (take (Z.to_nat (size - 512)) (drop 512 block)) = inr (hash h).

(** The part of the raw head that its own hash covers. *)
Definition raw_front (h : storage_block_raw_head) : bytes :=
  mark h ++ le_split 4 (version h) ++ le_split 4 (enctype h) ++ le_split 4 (keycnt h)
  ++ le_split 4 (initcnt h) ++ le_split 4 (wrtcnt h) ++ le_split 4 (errcnt h) ++ le_split 4 (flags h).

Lemma raw_head_front h : raw_head_bytes h = raw_front h ++ headhash h ++ hash h.
Proof. unfold raw_head_bytes, raw_front. by rewrite <- !app_assoc. Qed.

Lemma raw_front_length h : rawhead_ok h -> length (raw_front h) = 44%nat.
Proof.
  intros (Hm & _). unfold raw_front. rewrite !length_app, !le_split_length, Hm. done.
Qed.

Lemma take_front h : rawhead_ok h -> take 44 (raw_head_bytes h) = raw_front h.
Proof.
  intros Hok. rewrite raw_head_front, <- (raw_front_length h Hok). apply take_app_length.
Qed.

(** The last steps of [normalkey_writetoblock]: hash, and copy the raw head. *)
Lemma seal_spec raw blk size {A} (k : bytes -> storage_block_raw_head -> option A) :
  rawhead_ok raw -> 1024 < size < 2 ^ 31 -> size <= zlen blk ->
  exists hh h, let raw' := set_hash (set_headhash raw hh) h in
    let blk' := splice blk 0 (raw_head_bytes raw') in
    rawhead_ok raw' /\ sealed blk' size raw' /\
    ('(_, hh) ← normalkey_hash digest (raw_head_bytes raw) (sizeof_raw_head - 64);
     dat ← bget blk 512 (u32 (size - 512));
     '(_, h) ← normalkey_hash digest dat (u32 (size - 512));
     blk ← bput blk 0 (raw_head_bytes (set_hash (set_headhash raw hh) h));
     k blk (set_hash (set_headhash raw hh) h)) = k blk' raw'.
Proof.
  intros Hraw Hsz Hbl. pose proof (raw_head_length raw Hraw) as Hl.
  destruct (normalkey_hash_ok (raw_head_bytes raw) (sizeof_raw_head - 64)) as (hh & -> & Hhh & Hd1);
    [unfold sizeof_raw_head; lia|]. rewrite u32_small by lia.
  rewrite bget_inside by lia. cbn [mbind option_bind]. set (dat := take _ _).
  assert (Hdl : zlen dat = size - 512) by (unfold dat; len_solve).
  destruct (normalkey_hash_ok dat (size - 512)) as (h & -> & Hh & Hd2); [lia|]. cbn [mbind option_bind].
  exists hh, h. cbn zeta. set (raw' := set_hash _ h).
  assert (Hraw' : rawhead_ok raw').
  { destruct Hraw as (?&?&?&?&?&?&?&?&?&?). unfold rawhead_ok, raw', set_hash, set_headhash. simpl. tauto. }
  pose proof (raw_head_length raw' Hraw') as Hl'. split; [done|]. split; [|by rewrite bput_in by lia].
  split.
  - rewrite take_front by done. rewrite take_front in Hd1 by done. done.
  - change (hash raw') with h. rewrite <- Hd2. f_equal. rewrite take_ge with (l := dat) by lia. unfold dat. f_equal.
    apply list_eq. intros i. rewrite !lookup_drop, lookup_splice by lia. repeat case_decide; (lia || done).
Qed.

(** What [normalkey_writetoblock] leaves behind. *)
Lemma writetoblock_spec s block size :
  blockinited s = 2 -> Forall object_ok (keys s) -> rawhead_ok (rawhead s) ->
  1024 < size < 2 ^ 31 -> size <= zlen block -> zlen (enc_objects (keys s)) <= size - 1024 ->
  exists block' raw,
    let e := mk_enc_head (zlen (enc_objects (keys s))) size in
    normalkey_writetoblock digest s (Some block) size
    = Some (0, Some block', mk_normal_key (keys s) 2 raw e) /\
    length block' = length block /\ rawhead_ok raw /\ block_image block' raw e (keys s) /\
    sealed block' size raw /\ keycnt raw = zlen (keys s) /\ wrtcnt raw = u32 (wrtcnt (rawhead s) + 1)
    /\ initcnt raw = initcnt (rawhead s) /\ flags raw = flags (rawhead s) /\ errcnt raw = errcnt (rawhead s).
Proof.
  intros Hbi Hok Hraw Hsz Hbl Hfit. pose proof (enc_objects_count (keys s)) as Hcnt.
  unfold normalkey_writetoblock. rewrite Hbi. simpl (negb (2 =? 2)). cbv iota.
  unfold STORAGE_BLOCK_ENC_HEAD_SIZE, STORAGE_BLOCK_RAW_HEAD_SIZE.
  rewrite (proj2 (Z.leb_gt size (512 + 512))) by lia.
  cbn zeta. unfold with_enc, with_raw. cbn [keys enchead rawhead blockinited blocksize flashsize].
  rewrite (u32_small size) by lia. change (512 + 512) with 1024.
  pose proof (write_objects_spec (keys s) 1024 (size - 1024) block 0 0) as Hw.
  rewrite (proj2 (Z.leb_le _ _)) in Hw by lia. rewrite Hw by (done || lia). clear Hw.
  cbn [mbind option_bind negb]. rewrite !Z.add_0_l. rewrite Hbi.
  change (1024 + 0) with 1024. set (E := enc_objects (keys s)) in *. set (e := mk_enc_head (zlen E) size).
  rewrite (Tlv_WriteHead_spec e) by (unfold in_u32, e; cbn [blocksize flashsize]; rewrite ?splice_length; lia).
  cbn [mbind option_bind]. simpl (32 =? 0). cbv iota.
  set (raw1 := set_counts _ _ _ _ _ _). set (blk1 := splice _ 512 _).
  assert (Hl1 : length blk1 = length block).
  { unfold blk1. pose proof (enc_head_length e). rewrite !splice_length; rewrite ?splice_length; lia. }
  assert (Hraw1 : rawhead_ok raw1).
  { destruct Hraw as (?&?&?&?&?&?&?&?&?&?). pose proof (u32_range (wrtcnt (rawhead s) + 1)).
    unfold rawhead_ok, raw1, set_keycnt, set_counts, in_u32 in *. simpl. split_and!; try done; lia. }
  destruct (seal_spec raw1 blk1 size (fun blk raw => Some (0, Some blk, mk_normal_key (keys s) 2 raw e)))
    as (hh & h & Hraw' & Hseal & Heq); [done|lia|lia|].
  unfold e in Heq at 1. cbn [flashsize] in Heq. do 2 eexists. split; [exact Heq|].
  pose proof (raw_head_length _ Hraw') as Hrl.
  split; [by rewrite splice_length by lia|]. split; [done|]. split; [|by split_and!].
  assert (Hh : holds_at blk1 512 (enc_head e) /\ holds_at blk1 1024 E).
  { pose proof (enc_head_length e). unfold blk1. split; [apply holds_at_splice; rewrite ?splice_length; lia|].
    apply holds_at_splice_ne; [apply holds_at_splice; lia|lia|rewrite splice_length; lia|lia]. }
  split; [by apply holds_at_splice; lia|]. split; apply holds_at_splice_ne; (apply Hh || lia).
Qed.

(** When the keys do not fit, the write reports it and the store stays usable. *)
Lemma writetoblock_fail s block size :
  blockinited s = 2 -> Forall object_ok (keys s) -> rawhead_ok (rawhead s) ->
  1024 < size < 2 ^ 31 -> size <= zlen block -> size - 1024 < zlen (enc_objects (keys s)) ->
  exists x raw e, normalkey_writetoblock digest s (Some block) size
    = Some (-1, Some x, mk_normal_key (keys s) 2 raw e) /\ length x = length block /\ rawhead_ok raw.
Proof.
  intros Hi Hok Hraw Hs Hb Hfit. unfold normalkey_writetoblock. rewrite Hi. simpl (negb (2 =? 2)). cbv iota.
  unfold STORAGE_BLOCK_ENC_HEAD_SIZE, STORAGE_BLOCK_RAW_HEAD_SIZE.
  rewrite (proj2 (Z.leb_gt size (512 + 512))) by lia. cbn zeta. cbn [keys with_enc].
  pose proof (write_objects_spec (keys s) 1024 (size - 1024) block 0 0) as Hw.
  rewrite (proj2 (Z.leb_gt _ _)) in Hw by lia.
  destruct Hw as (i & c & x & Hw & Hx & Hc); [done|lia..|].
  change (512 + 512) with 1024. rewrite Hw. cbn [mbind option_bind negb].
  unfold with_raw, with_enc. cbn [blockinited]. rewrite Hi. do 3 eexists. split; [done|]. split; [done|].
  destruct Hraw as (?&?&?&?&?&?&?&?&?&?). unfold rawhead_ok, set_keycnt, set_counts. simpl. tauto.
Qed.

Lemma holds_at_take block bs n :
  holds_at block 0 bs -> (n <= length bs)%nat -> take n block = take n bs.
Proof.
  intros (_ & Hl & H) Hn. rewrite <- H. rewrite drop_0, take_take. by rewrite Nat.min_l.
Qed.

Lemma image_mark block h e ks : rawhead_ok h -> block_image block h e ks -> mark_matches block = true.
Proof.
  intros Hok [Hh _]. pose proof (raw_head_length h Hok). destruct Hok as (Hm & _).
  unfold mark_matches. apply bool_decide_eq_true. rewrite (holds_at_take _ _ _ Hh) by (simpl; lia).
  unfold raw_head_bytes. rewrite Hm. done.
Qed.

(** The loader accepts the head of a sealed image and takes its counters over. *)
Lemma check_raw_head_spec raw0 block size h :
  rawhead_ok h -> holds_at block 0 (raw_head_bytes h) -> sealed block size h ->
  check_raw_head digest raw0 block
  = Some (set_counts (set_headhash raw0 (headhash h))
            (keycnt h) (u32 (initcnt h + 1)) (wrtcnt h) (errcnt h) (flags h)).
Proof.
  intros Hok Hh [Hd _]. pose proof (raw_head_length h Hok) as Hl. pose proof Hh as (_ & Hbl & _).
  unfold check_raw_head, normalkey_hash, sizeof_raw_head. change (108 - 64) with 44.
  rewrite bget_take by lia. cbn [mbind option_bind].
  change (Z.to_nat 44) with 44%nat. rewrite (holds_at_take _ _ _ Hh) by lia. rewrite Hd.
  destruct Hok as (Hm & Hv & He & Hk & Hi & Hw & Hec & Hf & Hhh & Hhs).
  unfold raw_head_bytes in Hh. rewrite !holds_at_app, !le_split_length, Hm in Hh. rewrite Hhh in Hh.
  destruct Hh as (_ & _ & _ & H1 & H2 & H3 & H4 & H5 & H6 & _).
  cbn [mbind option_bind]. apply bget_holds in H6. rewrite Hhh in H6.
  change (bget block 44 32 = Some (headhash h)) in H6. rewrite H6. cbn [mbind option_bind].
  rewrite bool_decide_true by done. simpl negb. cbv iota.
  rewrite (get_u32_holds block 24 (keycnt h)), (get_u32_holds block 28 (initcnt h)),
    (get_u32_holds block 32 (wrtcnt h)), (get_u32_holds block 36 (errcnt h)),
    (get_u32_holds block 40 (flags h)) by done. done.
Qed.

Lemma readfromblock_spec s block size h ks :
  let e := mk_enc_head (zlen (enc_objects ks)) size in
  blockinited s = 1 -> keys s = [] -> Forall key_ok ks -> rawhead_ok h ->
  1024 < size < 2 ^ 31 -> size <= zlen block -> zlen (enc_objects ks) <= size - 1024 ->
  block_image block h e ks -> sealed block size h ->
  exists raw, normalkey_readfromblock digest kmalloc s (Some block) size
    = Some (0, mk_normal_key (rev (map norm_object ks)) 2 raw e) /\
    rawhead_ok raw /\ keycnt raw = keycnt h /\ initcnt raw = u32 (initcnt h + 1) /\
    wrtcnt raw = wrtcnt h /\ flags raw = flags h /\ errcnt raw = errcnt h.
Proof.
  cbn zeta. set (e := mk_enc_head _ size). intros Hbi Hks Hok Hraw Hsz Hbl Hfit Him Hseal.
  pose proof (enc_objects_count ks) as Hcnt. pose proof Him as (Hi1 & Hi2 & Hi3).
  unfold normalkey_readfromblock. rewrite Hbi. simpl (negb (1 =? 1)). cbv iota.
  unfold STORAGE_BLOCK_ENC_HEAD_SIZE, STORAGE_BLOCK_RAW_HEAD_SIZE.
  rewrite (proj2 (Z.leb_gt size (512 + 512))) by lia. cbn zeta.
  rewrite (image_mark block h e ks) by done. simpl negb. cbv iota.
  rewrite (check_raw_head_spec _ block size h) by done. cbn [mbind option_bind].
  rewrite (u32_small (size - 512)) by lia. rewrite (bget_inside block 512) by lia. cbn [mbind option_bind].
  set (raw0 := mk_raw_head _ _ _ _ _ _ _ _ _ _).
  unfold normalkey_hash. rewrite bget_take by len_solve. cbn [mbind option_bind].
  rewrite take_take, Nat.min_id. destruct Hseal as [_ Hd]. change (Z.to_nat 512) with 512%nat. rewrite Hd.
  assert (Hst : bget block 76 32 = Some (hash h)).
  { rewrite raw_head_front, !holds_at_app in Hi1. destruct Hi1 as (_ & _ & Hi1). apply bget_holds in Hi1.
    rewrite raw_front_length in Hi1 by done. destruct Hraw as (?&?&?&?&?&?&?&?&Hl1&Hl2).
    rewrite Hl1, Hl2 in Hi1. exact Hi1. }
  rewrite Hst. cbn [mbind option_bind]. rewrite bool_decide_true by done. simpl negb. cbv iota.
  unfold with_enc, with_raw, with_inited, with_keys. cbn [keys blockinited rawhead enchead].
  rewrite (read_enc_head e) by (try done; unfold in_u32, e; simpl; lia). cbn [mbind option_bind].
  simpl (32 =? 0). cbv iota. unfold e at 1. cbn [blocksize]. rewrite (u32_small (zlen (enc_objects ks) + 512 + 512)) by lia.
  rewrite (proj2 (Z.ltb_ge size _)) by lia. rewrite Hks.
  change (blocksize e) with (zlen (enc_objects ks)).
  rewrite (read_objects_spec _ _ _ ks); [|done|lia|lia|lia|lia|done|unfold objects_fuel; lia].
  cbn [mbind option_bind]. rewrite app_nil_r. eexists. split; [done|].
  destruct Hraw as (?&?&?&?&?&?&?&?&?&?). pose proof (u32_range (initcnt h + 1)).
  unfold rawhead_ok, set_counts, set_hash, set_headhash, in_u32 in *. simpl. split_and!; try done; lia.
Qed.

(** A key list read back stands for the same map. *)
Lemma lookup_key_map_norm ks nm :
  Forall object_ok ks -> lookup_key (map norm_object ks) nm = lookup_key ks nm.
Proof.
  induction 1 as [|o ks Ho Hok IH]; [done|]. simpl map. rewrite !lookup_key_cons, IH.
  destruct (norm_object_data o Ho) as (-> & -> & _). done.
Qed.

Lemma map_norm_names ks : Forall object_ok ks -> map key_name (map norm_object ks) = map key_name ks.
Proof.
  induction 1 as [|o ks Ho Hok IH]; [done|]. simpl. rewrite IH. f_equal. by apply norm_object_data.
Qed.

Lemma keys_ok_reloaded ks : keys_ok ks -> keys_ok (rev (map norm_object ks)).
Proof.
  intros Hok. pose proof (keys_object_ok ks Hok) as Ho. destruct Hok as [Hf Hnd]. split.
  - apply Forall_rev, Forall_fmap. eapply Forall_impl; [|exact Hf]. apply norm_object_key_ok.
  - rewrite map_rev. rewrite <- (map_norm_names ks Ho) in Hnd. by rewrite <- Permutation_rev.
Qed.

Lemma lookup_key_reloaded ks nm :
  keys_ok ks -> lookup_key (rev (map norm_object ks)) nm = lookup_key ks nm.
Proof.
  intros Hok. rewrite <- (lookup_key_map_norm ks nm) by by apply keys_object_ok.
  apply lookup_key_perm; [|by rewrite <- Permutation_rev]. by apply keys_ok_reloaded.
Qed.
End Spec.

(** ** The properties of the store *)

Section Claims.
Context (digest : bytes -> Z + bytes) (kmalloc : Z -> bool) (uninit : Z -> bytes).

(** A key added under a name is what a lookup of that name then finds, every
    other name is as before, and the invariant of the store (distinct names,
    hashes that match the data) is kept; the call fails, leaving the store as it
    was, only when memory runs out or the name exists with another attribute. *)
Theorem normalkey_add_spec s nm buffer len attr
  (Hd : forall d, exists h, digest d = inr h /\ length h = 32%nat)
  (Hu : forall n, length (uninit n) = Z.to_nat n)
  (Hok : keys_ok digest (keys s)) (Hi : blockinited s = 2) (Hnm : zlen nm <= 80)
  (Hl : 0 < len < 2 ^ 30) (Hb : len <= zlen buffer) (Ha : in_u32 attr) (Hs : Z.land attr OBJ_ATTR_SECURE = 0) :
  exists r s', normalkey_add digest kmalloc uninit s (Some nm) (Some buffer) len attr = Some (r, s') /\
    keys_ok digest (keys s') /\ added kmalloc s nm (take (Z.to_nat len) buffer) attr r s'.
Proof. by apply normalkey_add_lemma. Qed.

(** Deleting a name removes it and nothing else, and reports -1 exactly when
    the name was not there. *)
Theorem normalkey_del_spec s nm (Hok : keys_ok digest (keys s)) (Hi : blockinited s = 2) :
  exists r s', normalkey_del s (Some nm) = Some (r, s') /\ keys_ok digest (keys s') /\
    s' = with_keys s (keys s') /\ r = (if lookup_key (keys s) nm is Some _ then 0 else -1) /\
    forall nm', lookup_key (keys s') nm' = if decide (nm' = nm) then None else lookup_key (keys s) nm'.
Proof. by apply normalkey_del_lemma. Qed.

(** C11. Saving and loading.  When the records of the keys fit the block, the store
    is written and a fresh store that reads the block holds, for every name, the
    same data, with the counters of the head carried over; otherwise the write
    reports -1. *)
Theorem normalkey_block_roundtrip s s0 block size
  (Hd : forall d, exists h, digest d = inr h /\ length h = 32%nat)
  (Hk : forall n, 0 < n -> kmalloc n = true)
  (Hok : keys_ok digest (keys s)) (Hi : blockinited s = 2) (Hr : rawhead_ok (rawhead s))
  (Hs : 1024 < size < 2 ^ 31) (Hb : size <= zlen block)
  (Hi0 : blockinited s0 = 0) (Hk0 : keys s0 = []) :
  if zlen (enc_objects (keys s)) <=? size - 1024 then
    exists block' s1 s2,
      normalkey_writetoblock digest s (Some block) size = Some (0, Some block', s1) /\
      normalkey_readfromblock digest kmalloc (normalkey_init s0).2 (Some block') size = Some (0, s2) /\
      blockinited s2 = 2 /\ keys_ok digest (keys s2) /\
      (forall nm, lookup_key (keys s2) nm = lookup_key (keys s) nm) /\
      keycnt (rawhead s2) = zlen (keys s) /\ wrtcnt (rawhead s2) = u32 (wrtcnt (rawhead s) + 1) /\
      initcnt (rawhead s2) = u32 (initcnt (rawhead s) + 1)
  else exists blk s1, normalkey_writetoblock digest s (Some block) size = Some (-1, Some blk, s1).
Proof.
  destruct (Z.leb_spec (zlen (enc_objects (keys s))) (size - 1024)).
  - destruct (writetoblock_spec digest Hd s block size) as (block' & raw & Hw & Hl & Hraw & Him & Hse & Hc & Hwc & Hic & _);
      [done|by eapply keys_object_ok|done|lia|lia|lia|].
    destruct (readfromblock_spec digest kmalloc Hk (normalkey_init s0).2 block' size raw (keys s))
      as (raw2 & Hrd & _ & Hc2 & Hi2 & Hw2 & _); [unfold normalkey_init; rewrite Hi0; done
      |unfold normalkey_init; rewrite Hi0; done|apply Hok|done|lia|lia|lia|done|done|].
    do 3 eexists. split; [exact Hw|]. split; [exact Hrd|]. cbn [keys blockinited rawhead].
    split_and!; [done|by apply keys_ok_reloaded|intros; by eapply lookup_key_reloaded|congruence..].
  - destruct (writetoblock_fail digest s block size) as (x & raw & e & -> & _);
      [done|by eapply keys_object_ok|done|lia|lia|lia|]. eauto.
Qed.

(** A block whose data does not have the hash its head announces is not
    loaded: no key is taken from it, and the error counter goes up. *)
Theorem normalkey_read_corrupt s block size h
  (Hi : blockinited s = 1) (Hm : mark_matches block = true)
  (Hs : 1024 < size < 2 ^ 31) (Hb : size <= zlen block)
  (Hd : digest (take (Z.to_nat (size - 512)) (drop 512 block)) = inr h)
  (Hne : take 32 (drop 76 block) <> h) :
  exists s', normalkey_readfromblock digest kmalloc s (Some block) size = Some (0, s') /\
    keys s' = keys s /\ blockinited s' = 2 /\ hash (rawhead s') = h /\
    (exists e, errcnt (rawhead s') = u32 (e + 1)).
Proof.
  unfold normalkey_readfromblock. rewrite Hi. simpl (negb (1 =? 1)). cbv iota.
  unfold STORAGE_BLOCK_ENC_HEAD_SIZE, STORAGE_BLOCK_RAW_HEAD_SIZE.
  rewrite (proj2 (Z.leb_gt size (512 + 512))) by lia. rewrite Hm. cbn zeta. simpl negb. cbv iota.
  set (raw0 := mk_raw_head _ _ _ _ _ _ _ _ _ _).
  assert (exists raw, check_raw_head digest raw0 block = Some raw) as [raw ->].
  { unfold check_raw_head, normalkey_hash, sizeof_raw_head. change (108 - 64) with 44.
    rewrite bget_take by lia. cbn [mbind option_bind].
    assert (forall o, 0 <= o -> o + 4 <= zlen block -> exists v, get_u32 block o = Some v) as Hg.
    { intros o H1 H2. unfold get_u32. rewrite bget_inside by lia. by eexists. }
    destruct (Hg 24) as [k Hk], (Hg 28) as [i Hin], (Hg 32) as [w Hw], (Hg 36) as [e He], (Hg 40) as [f Hf]; try lia.
    rewrite (bget_inside block 44 32) by lia.
    destruct (digest (take (Z.to_nat 44) block)); cbn [mbind option_bind]; case_goal; cbn [mbind option_bind];
      rewrite ?Hk, ?Hin, ?Hw, ?He, ?Hf; by eexists. }
  cbn [mbind option_bind]. rewrite (u32_small (size - 512)) by lia. rewrite (bget_inside block 512) by lia.
  cbn [mbind option_bind]. unfold normalkey_hash. rewrite bget_take by len_solve. cbn [mbind option_bind].
  rewrite take_take, Nat.min_id. change (Z.to_nat 512) with 512%nat. rewrite Hd. cbn [mbind option_bind].
  rewrite (bget_inside block 76 32) by lia. cbn [mbind option_bind].
  rewrite bool_decide_false by (intros E; by apply Hne). simpl negb. cbv iota.
  eexists. split; [done|]. simpl. split_and!; [done..|]. by eexists.
Qed.

(** Loading ends on every block: the loop over the objects of a block of any
    content uses less fuel than the block has bytes. *)
Theorem normalkey_load_loop_ends block bsize acc fl
  (Hb : Forall is_byte block) (Hs : bsize < 2 ^ 31) (Hl : bsize + 1024 <= zlen block) :
  exists r, read_objects digest kmalloc (objects_fuel block) block 1024 bsize 0 acc fl = Some r.
Proof. apply read_objects_returns; [done|lia|lia|unfold objects_fuel; lia|unfold objects_fuel; lia]. Qed.

End Claims.

(** *** Witnesses *)

Section Witnesses.

(** A digest that depends on every byte, as an instance of the crypto API. *)
Definition sum_digest (d : bytes) : Z + bytes :=
  inr (le_split 4 (fold_right (fun b a => u32 (31 * a + b)) 7 d) ++ fill 0 28).

Lemma sum_digest_total d : exists h, sum_digest d = inr h /\ length h = 32%nat.
Proof. eexists. split; [done|]. rewrite length_app, le_split_length. done. Qed.

Definition zeroed (n : Z) : bytes := fill 0 n.
Lemma zeroed_length n : length (zeroed n) = Z.to_nat n.
Proof. apply fill_length. Qed.

Definition fresh_state : normal_key_state :=
  mk_normal_key [] 0 raw_head_zero (mk_enc_head 0 0).
Definition empty_head : storage_block_raw_head :=
  mk_raw_head (blockmark ++ fill 0 7) 0 0 0 0 0 0 0 (fill 0 32) (fill 0 32).
Definition empty_store : normal_key_state :=
  mk_normal_key [] 2 empty_head (mk_enc_head 0 0).

Lemma normalkey_add_spec_witness :
  exists r s', normalkey_add sum_digest (fun _ => true) zeroed empty_store (Some [109; 97; 99]) (Some [1; 2; 3]) 3 0
    = Some (r, s') /\ added (fun _ => true) empty_store [109; 97; 99] [1; 2; 3] 0 r s'.
Proof.
  destruct (normalkey_add_spec sum_digest (fun _ => true) zeroed empty_store [109; 97; 99] [1; 2; 3] 3 0
              sum_digest_total zeroed_length) as (r & s' & H1 & _ & H2);
    [split; constructor|done|by vm_compute|lia|by vm_compute|by vm_compute|done|].
  exists r, s'. split; [exact H1|exact H2].
Defined.

(** A store with one key, as [normalkey_add] builds it. *)
Definition one_key_store : normal_key_state := Eval vm_compute in
  match normalkey_add sum_digest (fun _ => true) zeroed empty_store (Some [109; 97; 99]) (Some [1; 2; 3]) 3 0 with
  | Some (_, s) => s
  | None => empty_store
  end.

Lemma one_key_store_ok : keys_ok sum_digest (keys one_key_store).
Proof.
  split; [|by apply (bool_decide_unpack _); vm_compute].
  unfold one_key_store. cbn [keys]. constructor; [|constructor].
  split; [repeat split; vm_compute; congruence|by vm_compute].
Qed.

Lemma normalkey_del_spec_witness :
  exists r s', normalkey_del one_key_store (Some [109; 97; 99]) = Some (r, s') /\
    lookup_key (keys s') [109; 97; 99] = None.
Proof.
  destruct (normalkey_del_spec sum_digest one_key_store [109; 97; 99] one_key_store_ok) as (r & s' & H & _ & _ & _ & Hl);
    [by vm_compute|]. exists r, s'. split; [exact H|]. rewrite Hl. by rewrite decide_True.
Defined.

Lemma empty_head_ok : rawhead_ok empty_head.
Proof. repeat split; vm_compute; congruence. Qed.

Lemma normalkey_block_roundtrip_witness :
  exists block' s1 s2,
    normalkey_writetoblock sum_digest one_key_store (Some (fill 0 1536)) 1536 = Some (0, Some block', s1) /\
    normalkey_readfromblock sum_digest (fun _ => true) (normalkey_init fresh_state).2 (Some block') 1536 = Some (0, s2) /\
    lookup_key (keys s2) [109; 97; 99] = lookup_key (keys one_key_store) [109; 97; 99].
Proof.
  pose proof (normalkey_block_roundtrip sum_digest (fun _ => true) one_key_store fresh_state (fill 0 1536) 1536
                sum_digest_total ltac:(done) one_key_store_ok ltac:(by vm_compute) empty_head_ok ltac:(lia)
                ltac:(by vm_compute) ltac:(done) ltac:(done)) as H.
  replace (zlen (enc_objects (keys one_key_store)) <=? 1536 - 1024) with true in H by (by vm_compute).
  destruct H as (b & s1 & s2 & H1 & H2 & _ & _ & H3 & _). exists b, s1, s2. split; [exact H1|]. split; [exact H2|]. apply H3.
Defined.

(** A block with the mark and no valid hash. *)
Definition corrupt_block : bytes := blockmark ++ fill 0 1527.

Lemma normalkey_read_corrupt_witness :
  exists s', normalkey_readfromblock sum_digest (fun _ => true) (normalkey_init fresh_state).2 (Some corrupt_block) 1536
    = Some (0, s') /\ keys s' = [].
Proof.
  destruct (normalkey_read_corrupt sum_digest (fun _ => true) (normalkey_init fresh_state).2 corrupt_block 1536
              (match sum_digest (fill 0 1024) with inr h => h | inl _ => [] end))
    as (s' & H & Hk & _); [done|by vm_compute|lia|by vm_compute|by vm_compute|by vm_compute|].
  exists s'. split; [exact H|exact Hk].
Defined.

Lemma normalkey_load_loop_ends_witness :
  exists r, read_objects sum_digest (fun _ => true) (objects_fuel (fill 3 1100)) (fill 3 1100) 1024 70 0 [] 0 = Some r.
Proof.
  apply normalkey_load_loop_ends; [|lia|by vm_compute]. apply Forall_replicate. by vm_compute.
Defined.

End Witnesses.
