(* ===== verification/SecurityKey.v ===== *)
(** * The secure key store of the firmware (src/a311d/soc/amlogic/unifykey/security_key.c)

    Keys kept by the secure monitor (BL31) are reached through three buffers
    shared with it and the SMC instruction.  The monitor is a parameter: a
    function from the call number and the shared memory to the result register
    and the shared memory after the call. *)

From stdpp Require Import base numbers list option.
From S2P Require Import Prelude.

Definition RET_OK : Z := 0.
Definition RET_EFAIL : Z := 1.
Definition RET_EINVAL : Z := 2.
Definition RET_EMEM : Z := 3.
Definition RET_EUND : Z := 0xff.
Definition SMC_UNK : Z := 0xffffffff.

Definition BL31_STORAGE_QUERY : Z := 0x82000060.
Definition BL31_STORAGE_READ : Z := 0x82000061.
Definition BL31_STORAGE_WRITE : Z := 0x82000062.
Definition BL31_STORAGE_TELL : Z := 0x82000063.
Definition BL31_STORAGE_VERIFY : Z := 0x82000064.
Definition BL31_STORAGE_STATUS : Z := 0x82000065.
Definition BL31_STORAGE_IN : Z := 0x82000023.
Definition BL31_STORAGE_OUT : Z := 0x82000024.
Definition BL31_STORAGE_BLOCK : Z := 0x82000025.
Definition BL31_STORAGE_SIZE : Z := 0x82000027.

(** [struct bl31_storage_share_mem]: the buffers by content. *)
Record bl31_storage_share_mem := mk_share_mem {
  sm_in : bytes; sm_out : bytes; sm_block : bytes; sm_size : Z }.

Definition with_in (m : bl31_storage_share_mem) (b : bytes) :=
  mk_share_mem b (sm_out m) (sm_block m) (sm_size m).

(** The static variables. *)
Record security_key_state := mk_security_key {
  storage_init_status : Z; share_mem : bl31_storage_share_mem }.

Section Secure.
(** [arm_smccc_smc], result register [a0]. *)
Variable storage_smc_ops : Z -> bl31_storage_share_mem -> Z * bl31_storage_share_mem.

Definition with_mem (s : security_key_state) (m : bl31_storage_share_mem) :=
  mk_security_key (storage_init_status s) m.

(** Returns the size and the buffer, if any. *)
Definition secure_storage_getbuf (s : security_key_state) : Z * option bytes :=
  if storage_init_status s =? 1
  then (u32 (sm_size (share_mem s)), Some (sm_block (share_mem s)))
  else (0, None).

(** [namelen] is the [u32] that receives [strlen (keyname)]. *)
Definition secure_storage_write (s : security_key_state) (keyname keybuf : bytes) (keylen keyattr : Z)
  : option (Z * security_key_state) :=
  if negb (storage_init_status s =? 1) then Some (RET_EUND, s)
  else
    let m := share_mem s in
    let namelen := u32 (zlen keyname) in
    if sm_size m <? u32 (namelen + keylen) + 12 then Some (RET_EMEM, s)
    else
      b ← put_u32 (sm_in m) 0 namelen;
      b ← put_u32 b 4 keylen;
      b ← put_u32 b 8 keyattr;
      b ← bput b 12 keyname;
      dat ← bget keybuf 0 keylen;
      b ← bput b (12 + namelen) dat;
      let '(ret, m) := storage_smc_ops BL31_STORAGE_WRITE (with_in m b) in
      Some (ret, with_mem s m).

(** Returns the C result, the bytes copied to the caller and [*readlen] where
    they are set. *)
Definition secure_storage_read (s : security_key_state) (keyname : bytes) (keylen : Z)
  : option (Z * option (bytes * Z) * security_key_state) :=
  if negb (storage_init_status s =? 1) then Some (RET_EUND, None, s)
  else
    let m := share_mem s in
    let namelen := u32 (zlen keyname) in
    if sm_size m <? namelen + 8 then Some (RET_EMEM, None, s)
    else
      b ← put_u32 (sm_in m) 0 namelen;
      b ← put_u32 b 4 keylen;
      b ← bput b 8 keyname;
      let '(ret, m) := storage_smc_ops BL31_STORAGE_READ (with_in m b) in
      if ret =? RET_OK then
        readlen ← get_u32 (sm_out m) 0;
        let readlen := if keylen <? readlen then keylen else readlen in
        dat ← bget (sm_out m) 4 readlen;
        Some (ret, Some (dat, readlen), with_mem s m)
      else Some (ret, None, with_mem s m).

(** The common shape of the calls that pass a name and read the answer. *)
Definition name_call (func : Z) (s : security_key_state) (keyname : bytes) {A}
    (answer : bl31_storage_share_mem -> option A) : option (Z * option A * security_key_state) :=
  if negb (storage_init_status s =? 1) then Some (RET_EUND, None, s)
  else
    let m := share_mem s in
    let namelen := u32 (zlen keyname) in
    if sm_size m <? namelen + 4 then Some (RET_EMEM, None, s)
    else
      b ← put_u32 (sm_in m) 0 namelen;
      b ← bput b 4 keyname;
      let '(ret, m) := storage_smc_ops func (with_in m b) in
      if ret =? RET_OK then
        a ← answer m;
        Some (ret, Some a, with_mem s m)
      else Some (ret, None, with_mem s m).

Definition secure_storage_verify (s : security_key_state) (keyname : bytes) :=
  name_call BL31_STORAGE_VERIFY s keyname (fun m => bget (sm_out m) 0 32).
Definition secure_storage_query (s : security_key_state) (keyname : bytes) :=
  name_call BL31_STORAGE_QUERY s keyname (fun m => get_u32 (sm_out m) 0).
Definition secure_storage_tell (s : security_key_state) (keyname : bytes) :=
  name_call BL31_STORAGE_TELL s keyname (fun m => get_u32 (sm_out m) 0).
Definition secure_storage_status (s : security_key_state) (keyname : bytes) :=
  name_call BL31_STORAGE_STATUS s keyname (fun m => get_u32 (sm_out m) 0).

(** [security_key_init]: the addresses the firmware returns, whether the mapping
    of each of the three buffers succeeds, and their content. *)
Variable map_in map_out map_block : Z -> Z -> option bytes.

Definition security_key_init (kzalloc_ok : bool) (s : security_key_state)
  : Z * security_key_state :=
  let s := mk_security_key (-1) (share_mem s) in
  if negb kzalloc_ok then (- ENOMEM, s)
  else
    let m := mk_share_mem [] [] [] 0 in
    let '(phy_in, m) := storage_smc_ops BL31_STORAGE_IN m in
    let '(phy_out, m) := storage_smc_ops BL31_STORAGE_OUT m in
    let '(phy_block, m) := storage_smc_ops BL31_STORAGE_BLOCK m in
    let '(size, m) := storage_smc_ops BL31_STORAGE_SIZE m in
    let m := mk_share_mem (sm_in m) (sm_out m) (sm_block m) size in
    if (phy_in =? 0) || (phy_in =? SMC_UNK) || (phy_out =? 0) || (phy_out =? SMC_UNK)
       || (phy_block =? 0) || (phy_block =? SMC_UNK) || (size =? 0) || (size =? SMC_UNK)
    then (- EOPNOTSUPP, mk_security_key (-1) m)
    else
      match map_in phy_in size, map_out phy_out size, map_block phy_block size with
      | Some i, Some o, Some b => (0, mk_security_key 1 (mk_share_mem i o b size))
      | _, _, _ => (- EINVAL, mk_security_key (-1) m)
      end.
End Secure.
