(* ===== verification/StorageKey.v ===== *)
(** * The key storage layer (src/a311d/soc/amlogic/unifykey/storage_key.c)

    Two stores behind one table of operations: the secure store of the firmware
    (SecurityKey.v) and the normal store kept in a storage block (NormalKey.v).
    The block device is reached through a registered pair of operations; its type
    [D] and the operations are whatever a driver registers (EmmcKey.v does). *)

From stdpp Require Import base numbers list option.
From S2P Require Import Prelude Tlv NormalKey SecurityKey.

Definition UNIFYKEY_STORAGE_TYPE_INVALID : Z := 0.
Definition UNIFYKEY_STORAGE_TYPE_EMMC : Z := 1.
Definition UNIFYKEY_STORAGE_TYPE_NAND : Z := 2.
Definition UNIFYKEY_STORAGE_TYPE_MAX : Z := 3.

Definition SECUESTORAGE_HEAD_SIZE : Z := 256.
Definition SECUESTORAGE_WHOLE_SIZE : Z := 0x40000.
Definition SECUREKEY_SIZE : Z := SECUESTORAGE_WHOLE_SIZE.
Definition DEF_NORMAL_BLOCK_SIZE : Z := 256 * 1024.

Section StorageKey.
Context {D : Type}.

(** [read (buf, len, &actual_len)]: the C result, the buffer, [*actual_len] and
    the device; [write] likewise, without touching the buffer. *)
Definition read_op : Type := D -> bytes -> Z -> option (Z * bytes * Z * D).
Definition write_op : Type := D -> bytes -> Z -> option (Z * D).

(** [struct unifykey_storage_ops] and [struct unifykey_type]. *)
Record unifykey_storage_ops := mk_ops { read : option read_op; write : option write_op }.
Record unifykey_type := mk_type { storage_type : Z; ops : unifykey_storage_ops }.

(** The static variables of the file, the normal key store, the secure store and
    the block device they work on.  [storagekey_info.buffer] is null or the block
    of the memory shared with the firmware ([secure_storage_getbuf] is its only
    source), so the flag says whether it is set and its content is that block. *)
Record storage_key_state := mk_storage_key {
  unifykey_types : unifykey_type;
  storagekey_buffer : bool;
  storagekey_size : Z;
  securekey_prebuf : option bytes;
  normal_blksz : Z;
  normal_flashsize : Z;
  normal_block : option bytes;
  nk : normal_key_state;
  sk : security_key_state;
  device : D }.

Definition set_types s t := mk_storage_key t (storagekey_buffer s) (storagekey_size s)
  (securekey_prebuf s) (normal_blksz s) (normal_flashsize s) (normal_block s) (nk s) (sk s) (device s).
Definition set_info s b n := mk_storage_key (unifykey_types s) b n
  (securekey_prebuf s) (normal_blksz s) (normal_flashsize s) (normal_block s) (nk s) (sk s) (device s).
Definition set_prebuf s p := mk_storage_key (unifykey_types s) (storagekey_buffer s) (storagekey_size s)
  p (normal_blksz s) (normal_flashsize s) (normal_block s) (nk s) (sk s) (device s).
Definition set_normal s bs fs b := mk_storage_key (unifykey_types s) (storagekey_buffer s) (storagekey_size s)
  (securekey_prebuf s) bs fs b (nk s) (sk s) (device s).
Definition set_nk s n := mk_storage_key (unifykey_types s) (storagekey_buffer s) (storagekey_size s)
  (securekey_prebuf s) (normal_blksz s) (normal_flashsize s) (normal_block s) n (sk s) (device s).
Definition set_sk s x := mk_storage_key (unifykey_types s) (storagekey_buffer s) (storagekey_size s)
  (securekey_prebuf s) (normal_blksz s) (normal_flashsize s) (normal_block s) (nk s) x (device s).
Definition set_device s d := mk_storage_key (unifykey_types s) (storagekey_buffer s) (storagekey_size s)
  (securekey_prebuf s) (normal_blksz s) (normal_flashsize s) (normal_block s) (nk s) (sk s) d.

(** ** Registering a storage *)

Definition is_valid_unifykey_storage_type (t : Z) : Z :=
  if (t =? UNIFYKEY_STORAGE_TYPE_INVALID) || (UNIFYKEY_STORAGE_TYPE_MAX <=? t) then 0 else - EINVAL.

Definition register_unifykey_types (s : storage_key_state) (uk_type : option unifykey_type)
  : Z * storage_key_state :=
  match uk_type with
  | None => (- EINVAL, s)
  | Some t =>
      if negb (c_true (is_valid_unifykey_storage_type (storage_type t))) then (- EINVAL, s)
      else if c_true (is_valid_unifykey_storage_type (storage_type (unifykey_types s))) then (- EBUSY, s)
      else (0, set_types s (mk_type (storage_type t) (mk_ops (read (ops t)) (write (ops t)))))
  end.

(** ** The secure store *)

Section SecureOps.
Variable smc : Z -> bl31_storage_share_mem -> Z * bl31_storage_share_mem.
Variable kmalloc : Z -> bool.
(** The content of freshly allocated memory. *)
Variable uninit : Z -> bytes.

(** The content of the shared block, read and replaced. *)
Definition info_block (s : storage_key_state) : bytes := sm_block (share_mem (sk s)).
Definition set_info_block (s : storage_key_state) (b : bytes) : storage_key_state :=
  let m := share_mem (sk s) in
  set_sk s (mk_security_key (storage_init_status (sk s))
              (mk_share_mem (sm_in m) (sm_out m) b (sm_size m))).

(** [memset (storagekey_info.buffer, 0, SECUESTORAGE_HEAD_SIZE)] *)
Definition clear_head (s : storage_key_state) : option storage_key_state :=
  b ← bput (info_block s) 0 (fill 0 SECUESTORAGE_HEAD_SIZE); Some (set_info_block s b).

Definition _amlkey_init (s : storage_key_state) : option (Z * storage_key_state) :=
  if storagekey_buffer s then Some (0, s)
  else
    let '(size, buf) := secure_storage_getbuf (sk s) in
    let s := set_info s (if buf is Some _ then true else false) size in
    match buf with
    | None => Some (- EINVAL, s)
    | Some buf =>
        if negb (c_true (is_valid_unifykey_storage_type (storage_type (unifykey_types s))))
        then Some (- EINVAL, s)
        else
          match read (ops (unifykey_types s)) with
          | None => Some (- EINVAL, s)
          | Some rd =>
              '(ret, buf, actual_size, d) ← rd (device s) buf size;
              let s := set_info_block (set_device s d) buf in
              if c_true ret then s ← clear_head s; Some (ret, s)
              else if Z.shiftl 1 20 <=? actual_size then
                s ← clear_head s; Some (- EINVAL, s)
              else
                Some (0, set_info s true (u32 (Z.min (s32 actual_size) (s32 size))))
          end
    end.

Definition securekey_prebuf_init (s : storage_key_state) : Z * storage_key_state :=
  if kmalloc SECUREKEY_SIZE then (0, set_prebuf s (Some (uninit SECUREKEY_SIZE)))
  else (- ENOMEM, set_prebuf s None).

(** A query of the secure store: the value, 0 on an error. *)
Definition answer_or_0 (s : storage_key_state) (r : option (Z * option Z * security_key_state))
  : option (Z * storage_key_state) :=
  '(ret, v, sk) ← r;
  let s := set_sk s sk in
  if c_true ret then Some (0, s) else v ← v; Some (v, s).

Definition _amlkey_exsit (s : storage_key_state) (nm : option bytes) : option (Z * storage_key_state) :=
  match nm with
  | None => Some (0, s)
  | Some nm => answer_or_0 s (secure_storage_query smc (sk s) nm)
  end.
Definition _amlkey_get_attr (s : storage_key_state) (nm : option bytes) : option (Z * storage_key_state) :=
  match nm with
  | None => Some (0, s)
  | Some nm => answer_or_0 s (secure_storage_status smc (sk s) nm)
  end.
Definition _amlkey_size (s : storage_key_state) (nm : option bytes) : option (Z * storage_key_state) :=
  match nm with
  | None => Some (0, s)
  | Some nm => answer_or_0 s (secure_storage_tell smc (sk s) nm)
  end.

(** Returns the C result and the caller's buffer. *)
Definition _amlkey_read (s : storage_key_state) (nm : option bytes) (buffer : bytes) (len : Z)
  : option (Z * bytes * storage_key_state) :=
  match nm with
  | None => Some (0, buffer, s)
  | Some nm =>
      '(ret, v, sk) ← secure_storage_read smc (sk s) nm len;
      let s := set_sk s sk in
      if c_true ret then Some (0, buffer, s)
      else
        '(dat, n) ← v;
        buffer ← bput buffer 0 dat;
        Some (n, buffer, s)
  end.

Definition _amlkey_write (s : storage_key_state) (nm : option bytes) (buffer : bytes) (len attr : Z)
  : option (Z * storage_key_state) :=
  match nm with
  | None => Some (0, s)
  | Some nm =>
      '(ret, sk) ← secure_storage_write smc (sk s) nm buffer len attr;
      let s := set_sk s sk in
      if c_true ret then Some (0, s)
      else if negb (c_true (is_valid_unifykey_storage_type (storage_type (unifykey_types s)))) then Some (0, s)
      else
        if negb (storagekey_buffer s) then Some (0, s)
        else
          match securekey_prebuf s with
          | None => Some (0, s)
          | Some pre =>
              if SECUREKEY_SIZE <? storagekey_size s then Some (0, s)
              else
                buf ← bput pre 0 (fill 0 SECUREKEY_SIZE);
                src ← bget (info_block s) 0 (storagekey_size s);
                buf ← bput buf 0 src;
                let s := set_prebuf s (Some buf) in
                match write (ops (unifykey_types s)) with
                | None => Some (0, s)
                | Some wr =>
                    '(ret, d) ← wr (device s) buf (storagekey_size s);
                    let s := set_device s d in
                    if c_true ret then Some (0, s) else Some (len, s)
                end
          end
  end.

(** Returns the C result and the hash where it is written. *)
Definition _amlkey_hash (s : storage_key_state) (nm : bytes) : option (Z * option bytes * storage_key_state) :=
  '(ret, h, sk) ← secure_storage_verify smc (sk s) nm; Some (ret, h, set_sk s sk).

End SecureOps.

(** ** The normal store *)

Section NormalOps.
Variable digest : bytes -> Z + bytes.
Variable kmalloc : Z -> bool.
Variable uninit : Z -> bytes.

Definition _amlkey_init_normal (s : storage_key_state) : option (Z * storage_key_state) :=
  match normal_block s with
  | None => Some (-1, s)
  | Some blk =>
      match read (ops (unifykey_types s)) with
      | None => Some (-1, s)
      | Some rd =>
          let '(ret, n) := normalkey_init (nk s) in
          let s := set_nk s n in
          if c_true ret then Some (-1, s)
          else
            '(ret, blk, actual, d) ← rd (device s) blk (normal_blksz s);
            let s := set_normal (set_device s d) (normal_blksz s) actual (Some blk) in
            if c_true ret then Some (ret, set_nk s (normalkey_deinit (nk s)))
            else
              '(ret, n) ← normalkey_readfromblock digest kmalloc (nk s) (Some blk) (normal_flashsize s);
              let s := set_nk s n in
              if c_true ret then Some (ret, set_nk s (normalkey_deinit (nk s)))
              else Some (0, s)
      end
  end.

Definition _amlkey_exist_normal (s : storage_key_state) (nm : option bytes) : option Z :=
  obj ← normalkey_get (nk s) nm;
  Some (if obj is Some _ then 1 else 0).

Definition _amlkey_get_attr_normal (s : storage_key_state) (nm : option bytes) : option Z :=
  obj ← normalkey_get (nk s) nm;
  Some (if obj is Some (_, obj) then attribute obj else 0).

Definition _amlkey_size_normal (s : storage_key_state) (nm : option bytes) : option Z :=
  obj ← normalkey_get (nk s) nm;
  Some (if obj is Some (_, obj) then datasize obj else 0).

(** Returns the C result and the caller's buffer. *)
Definition _amlkey_read_normal (s : storage_key_state) (nm : option bytes) (buffer : bytes) (len : Z)
  : option (Z * bytes) :=
  obj ← normalkey_get (nk s) nm;
  match obj with
  | Some (_, obj) =>
      if datasize obj <=? len then
        src ← bget (default [] (dataptr obj)) 0 (datasize obj);
        buffer ← bput buffer 0 src;
        Some (datasize obj, buffer)
      else Some (0, buffer)
  | None => Some (0, buffer)
  end.

Definition _amlkey_write_normal (s : storage_key_state) (nm buffer : option bytes) (len attr : Z)
  : option (Z * storage_key_state) :=
  if c_true (Z.land attr OBJ_ATTR_SECURE) then Some (0, s)
  else
    match write (ops (unifykey_types s)) with
    | None => Some (0, s)
    | Some wr =>
        '(ret, n) ← normalkey_add digest kmalloc uninit (nk s) nm buffer len attr;
        let s := set_nk s n in
        if c_true ret then Some (0, s)
        else
          '(ret, blk, n) ← normalkey_writetoblock digest (nk s) (normal_block s) (normal_flashsize s);
          let s := set_normal (set_nk s n) (normal_blksz s) (normal_flashsize s) blk in
          if c_true ret then Some (0, s)
          else
            blk ← blk;
            '(ret, d) ← wr (device s) blk (normal_flashsize s);
            let s := set_device s d in
            if c_true ret then Some (0, s) else Some (s32 len, s)
    end.

(** Returns the C result and the caller's 32-byte buffer. *)
Definition _amlkey_hash_normal (s : storage_key_state) (nm : option bytes) (hash : bytes)
  : option (Z * bytes) :=
  obj ← normalkey_get (nk s) nm;
  match obj with
  | Some (_, obj) => hash ← bput hash 0 (hashptr obj); Some (0, hash)
  | None => Some (-1, hash)
  end.

(** [normal_key_init]: [blocksize] is the device property, if it can be read. *)
Definition normal_key_init (s : storage_key_state) (blocksize : option Z) : Z * storage_key_state :=
  let blksz :=
    match blocksize with
    | Some b => if c_true b && (b mod PAGE_SIZE =? 0) then b else normal_blksz s
    | None => normal_blksz s
    end in
  if kmalloc blksz then (0, set_normal s blksz (normal_flashsize s) (Some (uninit blksz)))
  else (-1, set_normal s blksz (normal_flashsize s) None).

End NormalOps.

(** ** Choosing a store *)

Inductive amlkey_if_type := IFTYPE_SECURE_STORAGE | IFTYPE_NORMAL_STORAGE.

(** [amlkey_if_init]: the result of [security_key_init] decides. *)
Definition amlkey_if_init (kmalloc : Z -> bool) (uninit : Z -> bytes) (blocksize : option Z)
    (security_init : security_key_state -> Z * security_key_state) (s : storage_key_state)
  : Z * amlkey_if_type * storage_key_state :=
  let '(ret, k) := security_init (sk s) in
  let s := set_sk s k in
  if negb (ret =? - EOPNOTSUPP) then
    let '(ret, s) := securekey_prebuf_init kmalloc uninit s in
    (ret, IFTYPE_SECURE_STORAGE, s)
  else
    let '(ret, s) := normal_key_init kmalloc uninit s blocksize in
    (ret, IFTYPE_NORMAL_STORAGE, s).

End StorageKey.
Arguments unifykey_storage_ops : clear implicits.
Arguments unifykey_type : clear implicits.
Arguments storage_key_state : clear implicits.
Arguments read_op : clear implicits.
Arguments write_op : clear implicits.
