(* ===== verification/StorageKeySpec.v ===== *)
(** * Properties of the key storage layer (src/a311d/soc/amlogic/unifykey/storage_key.c,
      security_key.c)

    What a block device must promise to the layer is a class; against it, a key
    written is there after a restart.  Then the messages to the firmware, the
    registration of a storage and the choice of a store. *)

From stdpp Require Import base numbers list option.
From S2P Require Import Prelude Tlv TlvSpec NormalKey NormalKeySpec SecurityKey StorageKey.

(** ** The contract of a registered storage *)

(** On a device in a good state, transfers of [L] bytes always return and keep it
    so; what a successful write left is what the next successful read finds. *)
Class StorageLaws {D} (rd : read_op D) (wr : write_op D) (L : Z) := {
  st_ok : D -> Prop;
  st_read_total : forall d b, st_ok d -> zlen b = L ->
    exists ret b' d', rd d b L = Some (ret, b', L, d') /\ st_ok d' /\ zlen b' = L;
  st_write_total : forall d b, st_ok d -> zlen b = L ->
    exists ret d', wr d b L = Some (ret, d') /\ st_ok d';
  st_write_read : forall d b d' b0 b1 n d'', st_ok d -> zlen b = L -> zlen b0 = L ->
    wr d b L = Some (0, d') -> rd d' b0 L = Some (0, b1, n, d'') -> b1 = b }.

Section Persist.
Context {D : Type} (rd : read_op D) (wr : write_op D) (L : Z) {laws : StorageLaws rd wr L}.
Context (digest : bytes -> Z + bytes) (kmalloc : Z -> bool) (uninit : Z -> bytes).
Context (Hdigest : forall d, exists h, digest d = inr h /\ length h = 32%nat).
Context (Huninit : forall n, length (uninit n) = Z.to_nat n).
Context (Hkmalloc : forall n, 0 < n -> kmalloc n = true).
Context (HL : 1024 < L < 2 ^ 31).

(** A key layer in operation on such a storage. *)
Definition running (s : storage_key_state D) : Prop :=
  ops (unifykey_types s) = mk_ops (Some rd) (Some wr) /\ normal_flashsize s = L /\
  (exists blk, normal_block s = Some blk /\ zlen blk = L) /\
  blockinited (nk s) = 2 /\ keys_ok digest (keys (nk s)) /\ rawhead_ok (rawhead (nk s)) /\
  st_ok (device s).

(** The layer of a system that starts: nothing in RAM, a block allocated. *)
Definition booted (s : storage_key_state D) : Prop :=
  ops (unifykey_types s) = mk_ops (Some rd) (Some wr) /\ normal_blksz s = L /\
  (exists blk, normal_block s = Some blk /\ zlen blk = L) /\
  blockinited (nk s) = 0 /\ keys (nk s) = [] /\ st_ok (device s).

(** A block, and the device, hold the image of a key list. *)
Definition block_holds (b1 : bytes) (ks : list storage_object) : Prop :=
  exists h, zlen b1 = L /\ rawhead_ok h /\ zlen (enc_objects ks) <= L - 1024 /\
    block_image b1 h (mk_enc_head (zlen (enc_objects ks)) L) ks /\ sealed digest b1 L h.
Definition device_holds (d : D) (ks : list storage_object) : Prop :=
  forall b0 b1 n d', zlen b0 = L -> rd d b0 L = Some (0, b1, n, d') -> block_holds b1 ks.

Ltac solve_running :=
  unfold running; cbn; split_and!; [done|done|eexists; split; [done|lia]|done|done|done|done].

Lemma running_nk s : running s -> keys_ok digest (keys (nk s)).
Proof. by intros (_ & _ & _ & _ & H & _). Qed.

(** The three steps of a write: the store, the block, the device, which has accepted
    one block. *)
Lemma write_normal_full s nm buffer len attr :
  running s -> zlen nm <= 80 -> 0 < len < 2 ^ 30 -> len <= zlen buffer -> in_u32 attr -> Z.land attr 1 = 0 ->
  exists ret s', _amlkey_write_normal digest kmalloc uninit s (Some nm) (Some buffer) len attr = Some (ret, s') /\
    running s' /\
    (ret = 0 \/ ret = len /\ (exists blk, block_holds blk (keys (nk s')) /\ wr (device s) blk L = Some (0, device s')) /\ device_holds (device s') (keys (nk s')) /\
       forall nm', lookup_key (keys (nk s')) nm'
         = if decide (nm' = nm) then Some (take (Z.to_nat len) buffer) else lookup_key (keys (nk s)) nm').
Proof.
  intros (Hops & Hfs & (blk & Hblk & Hbl) & Hbi & Hok & Hraw & Hst) Hnm Hl Hb Ha Hs.
  unfold _amlkey_write_normal, OBJ_ATTR_SECURE. rewrite Hs. change (c_true 0) with false. cbv iota.
  rewrite Hops. cbn [write].
  destruct (normalkey_add_lemma digest kmalloc uninit Hdigest Huninit (nk s) nm buffer len attr)
    as (r & n & -> & Hok' & Hadd); [done..|]. cbn [mbind option_bind].
  destruct Hadd as [(-> & -> & _) | (-> & Hn & Hlk)].
  { change (c_true (-1)) with true. cbv iota. exists 0, (set_nk s (nk s)). split; [done|]. split; [|by left].
    solve_running. }
  change (c_true 0) with false. cbv iota. cbn [nk set_nk normal_block normal_flashsize]. rewrite Hblk, Hfs.
  assert (Hn' : blockinited n = 2 /\ rawhead_ok (rawhead n)) by (rewrite Hn; done). destruct Hn' as [Hbi' Hraw'].
  destruct (Z.leb_spec (zlen (enc_objects (keys n))) (L - 1024)) as [Hfit|Hfit].
  - destruct (writetoblock_spec digest Hdigest n blk L) as (blk' & raw & -> & Hl' & Hrk & Him & Hse & _);
      [done|by eapply keys_object_ok|done|lia|lia|done|].
    cbn [mbind option_bind]. change (c_true 0) with false. cbv iota. cbn [mbind option_bind].
    cbn [device set_normal set_nk normal_flashsize].
    destruct (st_write_total (device s) blk' Hst) as (ret & d' & Hw & Hst'); [lia|]. rewrite Hw. cbn [mbind option_bind].
    destruct (c_true ret) eqn:Hret.
    + do 2 eexists. split; [done|]. split; [|by left]. solve_running.
    + do 2 eexists. split; [done|]. split; [solve_running|]. right.
      unfold c_true in Hret. b2p. subst ret.
      split; [apply s32_small; lia|]. cbn [nk set_device set_normal set_nk keys device]. assert (Hbh : block_holds blk' (keys n)) by (exists raw; split_and!; (lia || done)). split; [by exists blk'|]. split; [|done].
      intros b0 b1 n' d'' Hb0 Hrd.
      assert (b1 = blk') as -> by (eapply st_write_read; [exact Hst| |exact Hb0|exact Hw|exact Hrd]; lia). done.
  - destruct (writetoblock_fail digest n blk L) as (x & raw & e & -> & Hx & Hrk);
      [done|by eapply keys_object_ok|done|lia|lia|lia|].
    cbn [mbind option_bind]. change (c_true (-1)) with true. cbv iota. do 2 eexists. split; [done|]. split; [|by left].
    solve_running.
Qed.

Lemma write_normal_lemma s nm buffer len attr :
  running s -> zlen nm <= 80 -> 0 < len < 2 ^ 30 -> len <= zlen buffer -> in_u32 attr -> Z.land attr 1 = 0 ->
  exists ret s', _amlkey_write_normal digest kmalloc uninit s (Some nm) (Some buffer) len attr = Some (ret, s') /\
    running s' /\
    (ret = 0 \/ ret = len /\ device_holds (device s') (keys (nk s')) /\
       forall nm', lookup_key (keys (nk s')) nm'
         = if decide (nm' = nm) then Some (take (Z.to_nat len) buffer) else lookup_key (keys (nk s)) nm').
Proof.
  intros. destruct (write_normal_full s nm buffer len attr) as (ret & s' & E & Hr & Hres); [done..|].
  exists ret, s'. split; [done|]. split; [done|]. destruct Hres as [->|(-> & _ & Hres)]; [by left|by right].
Qed.

(** Starting on a device that holds a key list. *)
Lemma init_normal_lemma s ks :
  booted s -> device_holds (device s) ks -> keys_ok digest ks ->
  exists ret s' b1 d', _amlkey_init_normal digest kmalloc s = Some (ret, s') /\
    (exists blk, normal_block s = Some blk /\ rd (device s) blk L = Some (ret, b1, L, d')) /\
    (ret = 0 -> running s' /\ keys (nk s') = rev (map norm_object ks)).
Proof.
  intros (Hops & Hbs & (blk & Hblk & Hbl) & Hbi & Hks & Hst) Hdev Hok.
  unfold _amlkey_init_normal. rewrite Hblk, Hops. cbn [read].
  unfold normalkey_init. rewrite Hbi. change (c_true 0) with false. cbv iota. cbv iota beta.
  cbn [device set_nk normal_blksz]. rewrite Hbs.
  destruct (st_read_total (device s) blk Hst Hbl) as (ret & b1 & d' & Hrd & Hst' & _). rewrite Hrd. cbn [mbind option_bind].
  destruct (Z.eq_dec ret 0) as [->|Hret].
  - change (c_true 0) with false. cbv iota. destruct (Hdev _ _ _ _ Hbl Hrd) as (h & Hl1 & Hraw & Hfit & Him & Hse).
    cbn [nk set_normal set_device set_nk normal_flashsize].
    destruct (readfromblock_spec digest kmalloc Hkmalloc (with_inited (nk s) 1) b1 L h ks)
      as (raw & -> & Hrk & _); [done|done|apply Hok|done|lia|lia|done|done|done|].
    cbn [mbind option_bind]. change (c_true 0) with false. cbv iota. do 4 eexists. split; [done|]. split; [eauto|].
    intros _. split; [|done].
    unfold running. simpl. split_and!; [done|done|eauto|done|by apply keys_ok_reloaded|done|done].
  - assert (c_true ret = true) as -> by (unfold c_true; bsolve). do 4 eexists. split; [done|].
    split; [eauto|done].
Qed.

(** Reading a key of a store in operation. *)
Lemma read_normal_lemma (s : storage_key_state D) nm d buffer len :
  keys_ok digest (keys (nk s)) -> lookup_key (keys (nk s)) nm = Some d ->
  zlen d <= len <= zlen buffer ->
  _amlkey_read_normal s (Some nm) buffer len = Some (zlen d, d ++ drop (length d) buffer).
Proof.
  intros Hok Hlk Hl. unfold _amlkey_read_normal. erewrite normalkey_get_find by done.
  cbn [mbind option_bind]. unfold lookup_key in Hlk.
  destruct (list_find _ _) as [[i o]|] eqn:Hf; [|done]. simpl in Hlk. injection Hlk as <-.
  apply list_find_Some in Hf as (Hi & _ & _).
  assert (Ho : object_ok o) by (eapply Forall_lookup_1; [by eapply keys_object_ok|done]).
  destruct Ho as (_ & _ & _ & _ & Hd & Hdd & _).
  assert (Hkd : zlen (key_data o) = datasize o) by (unfold key_data; len_solve).
  rewrite Hkd in *. rewrite (proj2 (Z.leb_le _ len)) by lia.
  rewrite bget_take by lia. cbn [mbind option_bind]. fold (key_data o).
  rewrite bput_in by lia. cbn [mbind option_bind]. done.
Qed.


(** C1. A key that [_amlkey_write_normal] accepted survives a restart: on the same
    device, a system that starts with nothing in RAM loads the store (its
    initialisation returns what the device's read returns), finds for every name
    what was there before, and reads the key back byte for byte.  Until then the
    layer stays in a state from which it keeps operating, whatever the result. *)
Theorem normal_key_persists s nm buffer len attr
  (Hrun : running s) (Hnm : zlen nm <= 80) (Hl : 0 < len < 2 ^ 30) (Hb : len <= zlen buffer)
  (Ha : in_u32 attr) (Hs : Z.land attr OBJ_ATTR_SECURE = 0) :
  exists ret s', _amlkey_write_normal digest kmalloc uninit s (Some nm) (Some buffer) len attr = Some (ret, s') /\
    running s' /\
    (ret = 0 \/
     ret = len /\
     forall s0, booted s0 -> device s0 = device s' ->
     exists r s1 b1 d', _amlkey_init_normal digest kmalloc s0 = Some (r, s1) /\
       (exists blk, normal_block s0 = Some blk /\ rd (device s0) blk L = Some (r, b1, L, d')) /\
       (r = 0 -> running s1 /\
          (forall nm', lookup_key (keys (nk s1)) nm' = lookup_key (keys (nk s')) nm') /\
          (forall out n, len <= n <= zlen out ->
             _amlkey_read_normal s1 (Some nm) out n
             = Some (len, take (Z.to_nat len) buffer ++ drop (Z.to_nat len) out)))).
Proof.
  destruct (write_normal_lemma s nm buffer len attr) as (ret & s' & Hw & Hrun' & Hres); [done..|].
  exists ret, s'. split; [done|]. split; [done|]. destruct Hres as [Hr | (Hr & Hdev & Hlk)]; [by left|right].
  split; [done|]. intros s0 Hb0 Hd0. rewrite <- Hd0 in Hdev.
  destruct (init_normal_lemma s0 (keys (nk s')) Hb0 Hdev (running_nk _ Hrun')) as (r & s1 & b1 & d' & Hi & Hrd & Hok).
  exists r, s1, b1, d'. split; [done|]. split; [done|]. intros Hr0. destruct (Hok Hr0) as [Hrun1 Hk1].
  assert (Hlk1 : forall nm', lookup_key (keys (nk s1)) nm' = lookup_key (keys (nk s')) nm')
    by (intros; rewrite Hk1; eapply lookup_key_reloaded, running_nk; done).
  split; [done|]. split; [done|]. intros out n Hn.
  assert (Hkl : length (take (Z.to_nat len) buffer) = Z.to_nat len) by len_solve.
  erewrite read_normal_lemma; [|by eapply running_nk|rewrite Hlk1, Hlk; by rewrite decide_True|lia].
  rewrite Hkl. by rewrite Z2Nat.id by lia.
Qed.

(** Starting on a storage that does not carry the mark of the store (a blank
    device) gives an empty store in operation. *)
Theorem normal_key_blank_start s b1 d'
  (Hb : booted s)
  (Hrd : forall blk, normal_block s = Some blk -> rd (device s) blk L = Some (0, b1, L, d'))
  (Hm : mark_matches b1 = false) :
  exists s', _amlkey_init_normal digest kmalloc s = Some (0, s') /\ running s' /\ keys (nk s') = [].
Proof.
  destruct Hb as (Hops & Hbs & (blk & Hblk & Hbl) & Hbi & Hks & Hst). specialize (Hrd blk Hblk).
  unfold _amlkey_init_normal. rewrite Hblk, Hops. cbn [read].
  unfold normalkey_init. rewrite Hbi. change (c_true 0) with false. cbv iota beta.
  cbn [device set_nk normal_blksz]. rewrite Hbs, Hrd. cbn [mbind option_bind].
  change (c_true 0) with false. cbv iota. cbn [nk set_normal set_device set_nk normal_flashsize].
  unfold normalkey_readfromblock. cbn [blockinited with_inited]. simpl (negb (1 =? 1)). cbv iota.
  unfold STORAGE_BLOCK_ENC_HEAD_SIZE, STORAGE_BLOCK_RAW_HEAD_SIZE.
  rewrite (proj2 (Z.leb_gt L (512 + 512))) by lia. cbn zeta. rewrite Hm. simpl negb. cbv iota.
  cbn [mbind option_bind]. change (c_true 0) with false. cbv iota.
  eexists. split; [done|]. split; [|done].
  destruct (st_read_total (device s) blk Hst Hbl) as (ret & b' & d2 & Hrd' & Hst' & Hl1).
  rewrite Hrd in Hrd'. injection Hrd' as <- <- <-.
  unfold running. cbn. rewrite Hks. split_and!; [done|done|eauto|done|split; constructor| |done].
  repeat split; vm_compute; congruence.
Qed.
End Persist.

(** ** Registration *)

(** One storage registers and stays: after a successful registration its
    operations are the ones used, and every later registration is refused with
    [-EBUSY] or [-EINVAL] and changes nothing; a type outside the enumeration is
    always refused. *)
Theorem register_once {D} (s s' : storage_key_state D) t t'
  (Ht : in_u32 (storage_type t)) (H : register_unifykey_types s (Some t) = (0, s')) :
  0 < storage_type t < UNIFYKEY_STORAGE_TYPE_MAX /\
  unifykey_types s' = t /\ device s' = device s /\
  exists e, register_unifykey_types s' t' = (- e, s') /\ (e = EBUSY \/ e = EINVAL).
Proof.
  unfold in_u32 in Ht. unfold register_unifykey_types, is_valid_unifykey_storage_type in H. unfold UNIFYKEY_STORAGE_TYPE_INVALID, UNIFYKEY_STORAGE_TYPE_MAX in *.
  destruct ((storage_type t =? 0) || (3 <=? storage_type t)) eqn:Hv; [by simpl in H|].
  change (c_true (- EINVAL)) with true in H. simpl negb in H. cbv iota in H.
  destruct (c_true _); [done|]. injection H as <-. b2p. split; [lia|].
  split; [by destruct t as [ty [r w]]|]. split; [done|].
  unfold register_unifykey_types. destruct t' as [t'|]; [|by exists EINVAL; eauto].
  destruct (negb _); [by exists EINVAL; eauto|]. unfold is_valid_unifykey_storage_type at 1. cbn [unifykey_types set_types storage_type].
  rewrite (proj2 (Z.eqb_neq (storage_type t) UNIFYKEY_STORAGE_TYPE_INVALID)) by (unfold UNIFYKEY_STORAGE_TYPE_INVALID; lia).
  rewrite (proj2 (Z.leb_gt UNIFYKEY_STORAGE_TYPE_MAX (storage_type t))) by (unfold UNIFYKEY_STORAGE_TYPE_MAX; lia).
  exists EBUSY. eauto.
Qed.

(** ** Messages to the firmware *)

Section Secure.
Context (smc : Z -> bl31_storage_share_mem -> Z * bl31_storage_share_mem).

Lemma splice_0 buf x : (length x <= length buf)%nat -> splice buf 0 x = x ++ drop (length x) buf.
Proof. done. Qed.

(** A write that fits sends the firmware one message: name length, data length,
    attribute, name, data, in that order from the start of the input buffer, the
    rest of the buffer untouched; one that does not fit is refused without a
    call. *)
Theorem secure_write_message s keyname keybuf keylen keyattr
  (Hi : storage_init_status s = 1) (Hm : sm_size (share_mem s) <= zlen (sm_in (share_mem s)))
  (Hn : zlen keyname + keylen < 2 ^ 32) (Hk : 0 <= keylen <= zlen keybuf) :
  let m := share_mem s in
  let msg := le_split 4 (zlen keyname) ++ le_split 4 keylen ++ le_split 4 keyattr ++ keyname
             ++ take (Z.to_nat keylen) keybuf in
  secure_storage_write smc s keyname keybuf keylen keyattr =
  if zlen msg <=? sm_size m then
    let '(ret, m') := smc BL31_STORAGE_WRITE (with_in m (msg ++ drop (length msg) (sm_in m))) in
    Some (ret, mk_security_key 1 m')
  else Some (RET_EMEM, s).
Proof.
  cbn zeta. unfold secure_storage_write. rewrite Hi. simpl (negb (1 =? 1)). cbv iota.
  rewrite (u32_small (zlen keyname)) by lia. rewrite u32_small by lia.
  set (dat := take (Z.to_nat keylen) keybuf). assert (Hd : zlen dat = keylen) by (unfold dat; len_solve).
  set (msg := le_split 4 (zlen keyname) ++ _).
  assert (Hml : zlen msg = zlen keyname + keylen + 12).
  { unfold msg. rewrite !length_app, !le_split_length. lia. }
  rewrite Hml, Z.ltb_antisym. destruct (Z.leb_spec (zlen keyname + keylen + 12) (sm_size (share_mem s))); [|done].
  simpl negb. cbv iota. unfold put_u32.
  rewrite bput_in by len_solve. cbn [mbind option_bind].
  rewrite bput_app by len_solve. cbn [mbind option_bind].
  rewrite bput_app by len_solve. cbn [mbind option_bind].
  rewrite bput_app by len_solve. cbn [mbind option_bind].
  rewrite bget_take by lia. cbn [mbind option_bind]. fold dat.
  rewrite bput_app by len_solve. cbn [mbind option_bind].
  rewrite <- !app_assoc. fold msg. unfold with_mem. rewrite Hi. done.
Qed.

(** The size test adds the two lengths in 32 bits: a data length that makes the
    sum wrap passes it, and the copy then runs past the shared buffer. *)
Theorem secure_write_wraps s keyname keybuf keylen keyattr
  (Hi : storage_init_status s = 1) (Hm : zlen (sm_in (share_mem s)) = sm_size (share_mem s))
  (Hn : 0 < zlen keyname < 2 ^ 16) (Hs : 2 ^ 17 <= sm_size (share_mem s) < 2 ^ 31)
  (Hk : 2 ^ 32 - zlen keyname <= keylen < 2 ^ 32) (Hb : keylen <= zlen keybuf) :
  u32 (zlen keyname + keylen) + 12 <= sm_size (share_mem s) /\
  secure_storage_write smc s keyname keybuf keylen keyattr = None.
Proof.
  assert (Hw : u32 (u32 (zlen keyname) + keylen) = zlen keyname + keylen - 2 ^ 32).
  { rewrite (u32_small (zlen keyname)) by lia. unfold u32.
    rewrite <- (Z.mod_add _ (-1)) by lia. apply Z.mod_small. lia. }
  rewrite (u32_small (zlen keyname)) in Hw by lia. split; [lia|].
  unfold secure_storage_write. rewrite Hi. simpl (negb (1 =? 1)). cbv iota.
  rewrite (u32_small (zlen keyname)) by lia. rewrite Hw. rewrite (proj2 (Z.ltb_ge _ _)) by lia.
  unfold put_u32. rewrite bput_in by len_solve. cbn [mbind option_bind].
  rewrite bput_app by len_solve. cbn [mbind option_bind].
  rewrite bput_app by len_solve. cbn [mbind option_bind].
  rewrite bput_app by len_solve. cbn [mbind option_bind].
  rewrite bget_take by lia. cbn [mbind option_bind].
  unfold bput. rewrite (proj2 (Z.leb_gt (12 + zlen keyname + _) _)); [by rewrite andb_false_r|]. len_solve.
Qed.

(** Whatever the firmware answers, a read hands the caller at most the bytes
    asked for. *)
Theorem secure_read_bounded s keyname keylen ret dat n s'
  (H : secure_storage_read smc s keyname keylen = Some (ret, Some (dat, n), s')) :
  ret = RET_OK /\ zlen dat = n /\ n <= keylen.
Proof.
  unfold secure_storage_read in H. case_hyp H; [done|]. case_hyp H; [done|].
  unfold put_u32 in H.
  destruct (bput (sm_in (share_mem s)) _ _) as [b|]; [|done]. cbn [mbind option_bind] in H.
  destruct (bput b 4 _) as [b2|]; [|done]. cbn [mbind option_bind] in H.
  destruct (bput b2 8 _) as [b3|]; [|done]. cbn [mbind option_bind] in H.
  destruct (smc _ _) as [r m]. destruct (Z.eqb_spec r RET_OK) as [->|]; [|done].
  destruct (get_u32 _ _) as [rl|]; [|done]. cbn [mbind option_bind] in H.
  destruct (bget _ _ _) as [x|] eqn:Hx; [|done]. cbn [mbind option_bind] in H. injection H as <- <- <- <-.
  apply bget_Some in Hx as (_ & Hx & _). split; [done|]. split; [done|]. case_goal; b2p; lia.
Qed.

End Secure.

(** ** Witnesses *)

(** A disk of [L] bytes in memory; the device type keeps the length with the
    content. *)
Definition ram_disk (L : Z) : Type := { b : bytes | zlen b = L }.

Definition disk_read (L : Z) : read_op (ram_disk L) := fun d b n => Some (0, `d, L, d).
Definition disk_write (L : Z) : write_op (ram_disk L) := fun d b n =>
  match decide (zlen b = L) with
  | left H => Some (0, exist _ b H)
  | right _ => Some (- EINVAL, d)
  end.

#[export] Instance disk_laws L : StorageLaws (disk_read L) (disk_write L) L.
Proof.
  refine {| st_ok := fun _ => True |}; unfold disk_read, disk_write.
  - intros d b _ _. do 3 eexists. split; [done|]. split; [done|]. exact (proj2_sig d).
  - intros d b _ Hb. destruct (decide _); [eauto|done].
  - intros d b d' b0 b1 n d'' _ Hb _ Hw [= <- <- <-]. destruct (decide _); [|done].
    by injection Hw as <-.
Defined.

Definition blank_disk : ram_disk 2048 := exist _ (fill 0 2048) eq_refl.
Definition ram_type (L : Z) : unifykey_type (ram_disk L) :=
  mk_type UNIFYKEY_STORAGE_TYPE_EMMC (mk_ops (Some (disk_read L)) (Some (disk_write L))).
Definition no_share : security_key_state := mk_security_key 0 (mk_share_mem [] [] [] 0).

(** The layer of a system that starts on a disk of 2048 bytes. *)
Definition boot_state (d : ram_disk 2048) : storage_key_state (ram_disk 2048) :=
  mk_storage_key (ram_type 2048) false SECUESTORAGE_WHOLE_SIZE None 2048 DEF_NORMAL_BLOCK_SIZE
    (Some (fill 0 2048)) fresh_state no_share d.

Lemma boot_state_booted d : booted (disk_read 2048) (disk_write 2048) 2048 (boot_state d).
Proof. repeat split. exists (fill 0 2048). split; [done|by vm_compute]. Qed.

Lemma blank_start_witness :
  exists s', _amlkey_init_normal sum_digest (fun _ => true) (boot_state blank_disk) = Some (0, s') /\ keys (nk s') = [].
Proof.
  destruct (normal_key_blank_start (disk_read 2048) (disk_write 2048) 2048 sum_digest (fun _ => true) ltac:(lia)
              (boot_state blank_disk) (fill 0 2048) blank_disk (boot_state_booted _)) as (s' & H & _ & Hk);
    [by intros blk _|by vm_compute|]. exists s'. split; [exact H|exact Hk].
Defined.

(** The layer after that start. *)
Definition started : storage_key_state (ram_disk 2048) :=
  mk_storage_key (ram_type 2048) false SECUESTORAGE_WHOLE_SIZE None 2048 2048
    (Some (fill 0 2048)) (mk_normal_key [] 2 empty_head (mk_enc_head 0 2048)) no_share blank_disk.

Lemma started_running : running (disk_read 2048) (disk_write 2048) 2048 sum_digest started.
Proof.
  split_and!; [done|done|exists (fill 0 2048); split; [done|by vm_compute]|done|split; constructor| |done].
  exact empty_head_ok.
Qed.

Lemma normal_key_persists_witness :
  exists ret s', _amlkey_write_normal sum_digest (fun _ => true) zeroed started (Some [109; 97; 99]) (Some [1; 2; 3]) 3 0
    = Some (ret, s') /\ (ret = 0 \/ ret = 3).
Proof.
  destruct (normal_key_persists (disk_read 2048) (disk_write 2048) 2048 sum_digest (fun _ => true) zeroed
              sum_digest_total zeroed_length ltac:(done) ltac:(lia) started [109; 97; 99] [1; 2; 3] 3 0
              started_running) as (ret & s' & H & _ & Hr); [by vm_compute|lia|by vm_compute|by vm_compute|done|].
  exists ret, s'. split; [exact H|]. destruct Hr as [Hr|[Hr _]]; [left|right]; exact Hr.
Defined.

Lemma register_once_witness :
  exists e, register_unifykey_types (set_types (boot_state blank_disk) (ram_type 2048)) (Some (ram_type 2048))
    = (- e, set_types (boot_state blank_disk) (ram_type 2048)) /\ (e = EBUSY \/ e = EINVAL).
Proof.
  apply (register_once (set_types (boot_state blank_disk) (mk_type 0 (mk_ops None None))) _ (ram_type 2048)
           (Some (ram_type 2048))); [by vm_compute|reflexivity].
Defined.

Definition share_64 : security_key_state :=
  mk_security_key 1 (mk_share_mem (fill 0 64) (fill 0 64) (fill 0 64) 64).

Lemma secure_write_message_witness :
  secure_storage_write (fun _ m => (0, m)) share_64 [107; 49] [5; 6] 2 0
  = Some (0, mk_security_key 1 (mk_share_mem
      ([2; 0; 0; 0; 2; 0; 0; 0; 0; 0; 0; 0; 107; 49; 5; 6] ++ fill 0 48) (fill 0 64) (fill 0 64) 64)).
Proof.
  rewrite (secure_write_message (fun _ m => (0, m)) share_64 [107; 49] [5; 6] 2 0);
    [reflexivity|reflexivity|by vm_compute|by vm_compute|by vm_compute].
Defined.

Definition share_128k : security_key_state :=
  mk_security_key 1 (mk_share_mem (fill 0 (2 ^ 17)) [] [] (2 ^ 17)).

Lemma zlen_fill b n : 0 <= n -> zlen (fill b n) = n.
Proof. intros. rewrite fill_length. lia. Qed.

Lemma secure_write_wraps_witness :
  secure_storage_write (fun _ m => (0, m)) share_128k [107; 49] (fill 1 (2 ^ 32 - 1)) (2 ^ 32 - 1) 0 = None.
Proof.
  apply (secure_write_wraps (fun _ m => (0, m)) share_128k [107; 49] (fill 1 (2 ^ 32 - 1)) (2 ^ 32 - 1) 0);
    [reflexivity|by apply (zlen_fill 0 (2 ^ 17))|by vm_compute|by vm_compute|by vm_compute|by rewrite zlen_fill].
Defined.

Lemma secure_read_bounded_witness : zlen [0; 0] = 2 /\ 2 <= 2.
Proof.
  refine (proj2 (secure_read_bounded (fun _ m => (0, mk_share_mem (sm_in m) (le_split 4 9 ++ fill 0 60) [] 64))
                   share_64 [107] 2 0 [0; 0] 2 _ _)).
  vm_compute. reflexivity.
Defined.
