(* ===== verification/Mmc.v ===== *)
(** * Raw transfers and the partition table of the eMMC
      (src/a311d/soc/amlogic/mmc/emmc_partitions.c)

    A transfer builds an MMC request, switches to the user area when another
    hardware partition is selected, and reports the errors of the request.  The
    host controller and the medium behind it are a class; what the code relies on
    is the class of laws of MmcSpec.v. *)

From stdpp Require Import base numbers list option.
From S2P Require Import Prelude.

(** ** Requests *)

Inductive mmc_opcode :=
| MMC_WRITE_MULTIPLE_BLOCK | MMC_READ_MULTIPLE_BLOCK | MMC_WRITE_BLOCK | MMC_READ_SINGLE_BLOCK.

(** What [mmc_prepare_mrq] fills in: command, argument, whether a stop command
    follows, block size, number of blocks, direction, and the bytes to write. *)
Record mmc_request := mk_mrq {
  mrq_opcode : mmc_opcode;
  mrq_arg : Z;
  mrq_stop : bool;
  mrq_blksz : Z;
  mrq_blocks : Z;
  mrq_write : bool;
  mrq_out : bytes }.

(** What the host leaves in the request: the error fields, the bytes moved and
    the bytes that arrived in the buffer. *)
Record mmc_result := mk_mres {
  cmd_error : Z;
  data_error : Z;
  stop_error : Z;
  bytes_xfered : Z;
  data_in : bytes }.

(** The host controller: [mmc_switch] of the partition configuration, and
    [mmc_wait_for_req]. *)
Class MmcHost (M : Type) := {
  mmc_switch : M -> Z -> Z * M;
  mmc_wait_for_req : M -> mmc_request -> mmc_result * M }.

(** [struct mmc_card], with the depth of the claims on its host. *)
Record mmc_card (M : Type) := mk_card {
  read_blkbits : Z;
  csd_capacity : Z;
  part_config : Z;
  sectors : Z;
  is_blockaddr : bool;
  is_sd : bool;
  key_stamp : Z;
  claims : Z;
  media : M }.
Arguments mk_card {M}.
Arguments read_blkbits {M}.
Arguments csd_capacity {M}.
Arguments part_config {M}.
Arguments sectors {M}.
Arguments is_blockaddr {M}.
Arguments is_sd {M}.
Arguments key_stamp {M}.
Arguments claims {M}.
Arguments media {M}.

Definition EXT_CSD_PART_CONFIG_ACC_MASK : Z := 0x7.

Section Transfer.
Context {M : Type} {host : MmcHost M}.
(** Results of a check that failed without an error code. *)
Variable RESULT_FAIL RESULT_UNSUP_HOST : Z.

Implicit Types card : mmc_card M.

Definition set_media card (m : M) :=
  mk_card (read_blkbits card) (csd_capacity card) (part_config card) (sectors card)
    (is_blockaddr card) (is_sd card) (key_stamp card) (claims card) m.
Definition set_part_config card (p : Z) :=
  mk_card (read_blkbits card) (csd_capacity card) p (sectors card)
    (is_blockaddr card) (is_sd card) (key_stamp card) (claims card) (media card).
Definition set_key_stamp card (k : Z) :=
  mk_card (read_blkbits card) (csd_capacity card) (part_config card) (sectors card)
    (is_blockaddr card) (is_sd card) k (claims card) (media card).
Definition set_claims card (c : Z) :=
  mk_card (read_blkbits card) (csd_capacity card) (part_config card) (sectors card)
    (is_blockaddr card) (is_sd card) (key_stamp card) c (media card).

Definition mmc_claim_host card := set_claims card (claims card + 1).
Definition mmc_release_host card := set_claims card (claims card - 1).

Definition mmc_check_result (mrq : mmc_request) (res : mmc_result) : Z :=
  let ret := 0 in
  let ret := if (ret =? 0) && c_true (cmd_error res) then cmd_error res else ret in
  let ret := if (ret =? 0) && c_true (data_error res) then data_error res else ret in
  let ret := if (ret =? 0) && mrq_stop mrq && c_true (stop_error res) then stop_error res else ret in
  let ret := if (ret =? 0) && negb (bytes_xfered res =? u32 (mrq_blocks mrq * mrq_blksz mrq))
             then RESULT_FAIL else ret in
  if ret =? - EINVAL then RESULT_UNSUP_HOST else ret.

Definition mmc_prepare_mrq card (dev_addr blocks blksz : Z) (write : bool) (out : bytes) : mmc_request :=
  let opcode :=
    if 1 <? blocks then (if write then MMC_WRITE_MULTIPLE_BLOCK else MMC_READ_MULTIPLE_BLOCK)
    else (if write then MMC_WRITE_BLOCK else MMC_READ_SINGLE_BLOCK) in
  let arg := if negb (is_blockaddr card) then u32 (Z.shiftl dev_addr 9) else dev_addr in
  mk_mrq opcode arg (negb (blocks =? 1)) blksz blocks write out.

Definition mmc_capacity card : Z :=
  if negb (is_sd card) && is_blockaddr card then sectors card
  else u32 (Z.shiftl (csd_capacity card) (read_blkbits card - 9)).

(** [out] are the bytes written, [None] for a read.  Returns the C result and
    the bytes a read put into the buffer, if the request was made. *)
Definition mmc_transfer card (dev_addr blocks : Z) (out : option bytes)
  : Z * option bytes * mmc_card M :=
  let original_part_config := part_config card in
  let switch_partition := negb (Z.land original_part_config EXT_CSD_PART_CONFIG_ACC_MASK =? 0) in
  let switched :=
    if switch_partition then
      let cur := Z.land original_part_config (Z.lxor 0xff EXT_CSD_PART_CONFIG_ACC_MASK) in
      let '(ret, m) := mmc_switch (media card) cur in
      let card := set_media card m in
      if c_true ret then inl (ret, card) else inr (set_part_config card cur)
    else inr card in
  match switched with
  | inl (ret, card) => (ret, None, card)
  | inr card =>
      if mmc_capacity card <=? u32 (dev_addr + blocks) then (-1, None, card)
      else
        let write := if out is Some _ then true else false in
        let mrq := mmc_prepare_mrq card dev_addr blocks (Z.shiftl 1 (read_blkbits card)) write
                     (default [] out) in
        let '(res, m) := mmc_wait_for_req (media card) mrq in
        let card := set_media card m in
        let got := if write then None else Some (data_in res) in
        let ret := mmc_check_result mrq res in
        if switch_partition then
          let '(ret, m) := mmc_switch (media card) original_part_config in
          let card := set_media card m in
          if c_true ret then (ret, got, card)
          else (ret, got, set_part_config card original_part_config)
        else (ret, got, card)
  end.

Definition mmc_read_internal card (dev_addr blocks : Z) : Z * option bytes * mmc_card M :=
  mmc_transfer card dev_addr blocks None.

Definition mmc_write_internal card (dev_addr blocks : Z) (out : bytes) : Z * mmc_card M :=
  let '(ret, _, card) := mmc_transfer card dev_addr blocks (Some out) in (ret, card).

End Transfer.

(** ** The partition table *)

(** [struct partitions]: the fields the code uses. *)
Record partitions := mk_partitions {
  pname : bytes; psize : Z; poffset : Z; pmask_flags : Z }.

(** [struct mmc_partitions_fmt]: [partitions_] is the array of
    [MAX_MMC_PART_NUM] entries. *)
Record mmc_partitions_fmt := mk_fmt {
  magic : bytes; part_num : Z; checksum : Z; partitions_ : list partitions }.

Section Table.
(** The 32-bit words of an entry in memory, and the names of the header. *)
Variable part_words : partitions -> list Z.
Variable MMC_PARTITIONS_MAGIC MMC_RESERVED_NAME : bytes.
Variable MAX_MMC_PART_NUM : Z.

Definition sum_words (ws : list Z) (c : Z) : Z := fold_left (fun c w => u32 (c + w)) ws c.

(** The pointer [p] starts from [part] in every turn of the outer loop. *)
Fixpoint checksum_turns (n : nat) (part : partitions) (c : Z) : Z :=
  match n with
  | O => c
  | S n => checksum_turns n part (sum_words (part_words part) c)
  end.

Definition mmc_partition_tbl_checksum_calc (part : list partitions) (num : Z) : option Z :=
  if num <=? 0 then Some 0
  else p ← head part; Some (s32 (checksum_turns (Z.to_nat num) p 0)).

(** [strcmp] of NUL-terminated arrays: equality of the bytes before the NUL. *)
Fixpoint c_string (b : bytes) : bytes :=
  match b with
  | [] => []
  | c :: b => if c =? 0 then [] else c :: c_string b
  end.

Fixpoint find_reserved (n : nat) (ps : list partitions) : option Z :=
  match n with
  | O => Some (-1)
  | S n =>
      match ps with
      | [] => None
      | p :: ps =>
          if bool_decide (c_string (pname p) = MMC_RESERVED_NAME) then Some (s32 (poffset p))
          else find_reserved n ps
      end
  end.

(** Byte offset of the reserved partition, -1 when the table has none. *)
Definition get_reserve_partition_off_from_tbl (pt : mmc_partitions_fmt) : option Z :=
  find_reserved (Z.to_nat (part_num pt)) (partitions_ pt).

(** The verification at the end of [mmc_read_partition_tbl]: 0 or -1. *)
Definition verify_partition_tbl (pt : mmc_partitions_fmt) : option Z :=
  if bool_decide (magic pt = MMC_PARTITIONS_MAGIC) && (0 <? part_num pt)
     && (part_num pt <=? MAX_MMC_PART_NUM)
  then
    c ← mmc_partition_tbl_checksum_calc (partitions_ pt) (part_num pt);
    Some (if checksum pt =? c then 0 else -1)
  else Some (-1).

(** [add_emmc_partition]: the partitions of the table added to a disk of [cap]
    blocks, up to the first that does not fit. *)
Fixpoint add_emmc_partition (n : nat) (ps : list partitions) (cap : Z) : list (Z * Z * bytes) :=
  match n, ps with
  | S n, pp :: ps =>
      let offset := Z.shiftr (poffset pp) 9 in
      let size := Z.shiftr (psize pp) 9 in
      if u64 (offset + size) <=? cap then (offset, size, pname pp) :: add_emmc_partition n ps cap
      else []
  | _, _ => []
  end.

End Table.
