(* ===== verification/MmcSpec.v ===== *)
(** * Properties of the raw transfers and of the partition table
      (src/a311d/soc/amlogic/mmc/emmc_partitions.c) *)

From stdpp Require Import base numbers list option.
From S2P Require Import Prelude Mmc.

(** ** What the host controller promises *)

(** A request that ended without an error and moved all its bytes. *)
Definition mres_clean (mrq : mmc_request) (res : mmc_result) : Prop :=
  cmd_error res = 0 /\ data_error res = 0 /\ (mrq_stop mrq = true -> stop_error res = 0)
  /\ bytes_xfered res = u32 (mrq_blocks mrq * mrq_blksz mrq).

(** A host on which every request is clean. *)
Definition clean_host (M : Type) {host : MmcHost M} : Prop :=
  forall (m : M) mrq, mres_clean mrq (mmc_wait_for_req m mrq).1.

(** The blocks [a .. a + n - 1] of a medium of 512-byte sectors. *)
Definition read_area (sector : Z -> bytes) (a n : Z) : bytes := concat (map sector (seqZ a n)).

(** The medium as an array of sectors: reads return them and change nothing, a
    write changes only the sectors it addresses, and all of them when it is clean. *)
Class MmcLaws (M : Type) {host : MmcHost M} := {
  sector : M -> Z -> bytes;
  sector_length : forall m a, length (sector m a) = 512%nat;
  switch_law : forall m v, forall a, sector (mmc_switch m v).2 a = sector m a;
  read_law : forall m mrq, mrq_write mrq = false -> mrq_blksz mrq = 512 -> 0 <= mrq_blocks mrq ->
    (forall a, sector (mmc_wait_for_req m mrq).2 a = sector m a) /\
    zlen (data_in (mmc_wait_for_req m mrq).1) = 512 * mrq_blocks mrq /\
    (mres_clean mrq (mmc_wait_for_req m mrq).1 ->
     data_in (mmc_wait_for_req m mrq).1 = read_area (sector m) (mrq_arg mrq) (mrq_blocks mrq));
  write_law : forall m mrq, mrq_write mrq = true -> mrq_blksz mrq = 512 -> 0 <= mrq_blocks mrq ->
    zlen (mrq_out mrq) = 512 * mrq_blocks mrq ->
    (forall a, ~ (mrq_arg mrq <= a < mrq_arg mrq + mrq_blocks mrq) ->
       sector (mmc_wait_for_req m mrq).2 a = sector m a) /\
    (mres_clean mrq (mmc_wait_for_req m mrq).1 ->
     read_area (sector (mmc_wait_for_req m mrq).2) (mrq_arg mrq) (mrq_blocks mrq) = mrq_out mrq) }.

(** ** Areas *)

Section Areas.
Context {M : Type} {host : MmcHost M} {laws : MmcLaws M}.

Lemma read_area_app f a n k :
  0 <= n -> 0 <= k -> read_area f a (n + k) = read_area f a n ++ read_area f (a + n) k.
Proof.
  intros. unfold read_area. rewrite seqZ_app by lia. rewrite map_app. apply concat_app.
Qed.

Lemma read_area_ext f g a n :
  (forall x, a <= x < a + n -> f x = g x) -> read_area f a n = read_area g a n.
Proof.
  intros H. unfold read_area. f_equal. apply map_ext_in. intros x Hx.
  apply list_elem_of_In, elem_of_seqZ in Hx. apply H. lia.
Qed.

Lemma read_area_length m a n : 0 <= n -> zlen (read_area (sector m) a n) = 512 * n.
Proof.
  intros Hn. unfold read_area. assert (length (seqZ a n) = Z.to_nat n) as Hl by apply length_seqZ.
  replace (512 * n) with (512 * zlen (seqZ a n)) by lia. generalize (seqZ a n). intros l.
  induction l as [|x l IH]; [done|]. simpl map. simpl concat. rewrite length_app, sector_length.
  cbn [length]. lia.
Qed.
End Areas.

(** ** Transfers *)

Section Transfers.
Context {M : Type} {host : MmcHost M} {laws : MmcLaws M}.
Context (RESULT_FAIL RESULT_UNSUP_HOST : Z).
Context (HF : RESULT_FAIL <> 0) (HU : RESULT_UNSUP_HOST <> 0).
Implicit Types card : mmc_card M.

Abbreviation mread := (mmc_read_internal RESULT_FAIL RESULT_UNSUP_HOST).
Abbreviation mwrite := (mmc_write_internal RESULT_FAIL RESULT_UNSUP_HOST).

(** An eMMC of 512-byte blocks, addressed by block, with its user area selected. *)
Definition user_area card : Prop :=
  read_blkbits card = 9 /\ is_blockaddr card = true /\ is_sd card = false /\
  0 <= sectors card < 2 ^ 32 /\ Z.land (part_config card) EXT_CSD_PART_CONFIG_ACC_MASK = 0.

Lemma check_result_clean mrq res :
  mmc_check_result RESULT_FAIL RESULT_UNSUP_HOST mrq res = 0 <-> mres_clean mrq res.
Proof.
  unfold mmc_check_result, mres_clean, c_true, EINVAL.
  destruct (Z.eqb_spec (cmd_error res) 0) as [->|Hc], (Z.eqb_spec (data_error res) 0) as [->|Hd],
    (mrq_stop mrq), (Z.eqb_spec (stop_error res) 0) as [->|Hs],
    (Z.eqb_spec (bytes_xfered res) (u32 (mrq_blocks mrq * mrq_blksz mrq))) as [Hb|Hb];
    simpl; repeat (case_goal; b2p; subst; simpl in *); try tauto; try (split; [lia|]; intros (?&?&?&?); (lia || tauto)).
  all: split; [lia|intros (H1&H2&H3&H4)]; try lia; specialize (H3 eq_refl); lia.
Qed.

Lemma user_area_media card m : user_area card -> user_area (set_media card m).
Proof. done. Qed.

(** A transfer inside the capacity is one request. *)
Lemma transfer_user card dev_addr blocks out :
  user_area card -> 0 <= dev_addr -> 0 <= blocks -> dev_addr + blocks < sectors card ->
  let mrq := mmc_prepare_mrq card dev_addr blocks 512 (if out is Some _ then true else false) (default [] out) in
  mmc_transfer RESULT_FAIL RESULT_UNSUP_HOST card dev_addr blocks out
  = (mmc_check_result RESULT_FAIL RESULT_UNSUP_HOST mrq (mmc_wait_for_req (media card) mrq).1,
     if out is Some _ then None else Some (data_in (mmc_wait_for_req (media card) mrq).1),
     set_media card (mmc_wait_for_req (media card) mrq).2).
Proof.
  intros (Hb & Ha & Hs & Hsec & Hp) Hd Hbl Hr. cbn zeta. unfold mmc_transfer. rewrite Hp. simpl (negb (0 =? 0)). cbv iota.
  unfold mmc_capacity. rewrite Hs, Ha. simpl (negb false && true). cbv iota. rewrite u32_small by lia.
  rewrite (proj2 (Z.leb_gt _ _)) by lia. rewrite Hb. change (Z.shiftl 1 9) with 512.
  destruct out as [o|]; cbn [default]; destruct (mmc_wait_for_req _ _); done.
Qed.

Lemma prepare_arg card dev_addr blocks w out :
  user_area card ->
  let mrq := mmc_prepare_mrq card dev_addr blocks 512 w out in
  mrq_arg mrq = dev_addr /\ mrq_blocks mrq = blocks /\ mrq_blksz mrq = 512 /\ mrq_write mrq = w /\ mrq_out mrq = out.
Proof. intros (_ & Ha & _). unfold mmc_prepare_mrq. rewrite Ha. done. Qed.

Lemma read_internal_user card blk n :
  user_area card -> 0 <= blk -> 0 <= n -> blk + n < sectors card ->
  exists ret b m', mread card blk n = (ret, Some b, set_media card m') /\
    (forall a, sector m' a = sector (media card) a) /\ zlen b = 512 * n /\
    (ret = 0 -> b = read_area (sector (media card)) blk n) /\ (clean_host M -> ret = 0).
Proof.
  intros Hu Hb Hn Hr. unfold mmc_read_internal. rewrite transfer_user by done. cbn [default].
  destruct (prepare_arg card blk n false [] Hu) as (Ha & Hbl & Hsz & Hw & _).
  set (mrq := mmc_prepare_mrq _ _ _ _ _ _) in *.
  destruct (read_law (media card) mrq Hw Hsz ltac:(lia)) as (H1 & H2 & H3). do 3 eexists. split; [done|].
  split; [done|]. split; [by rewrite H2, Hbl|].
  split; [|intros Hcl; apply check_result_clean; by try apply Hcl]. intros Hc%check_result_clean; [|done..].
  rewrite H3 by done. by rewrite Ha, Hbl.
Qed.

Lemma write_internal_user card blk n out :
  user_area card -> 0 <= blk -> 0 <= n -> blk + n < sectors card -> zlen out = 512 * n ->
  exists ret m', mwrite card blk n out = (ret, set_media card m') /\
    (forall a, ~ (blk <= a < blk + n) -> sector m' a = sector (media card) a) /\
    (ret = 0 -> read_area (sector m') blk n = out) /\ (clean_host M -> ret = 0).
Proof.
  intros Hu Hb Hn Hr Ho. unfold mmc_write_internal. rewrite transfer_user by done. cbn [default].
  destruct (prepare_arg card blk n true out Hu) as (Ha & Hbl & Hsz & Hw & Hout).
  set (mrq := mmc_prepare_mrq _ _ _ _ _ _) in *.
  destruct (write_law (media card) mrq Hw Hsz ltac:(lia)) as (H1 & H2); [by rewrite Hout, Hbl|].
  do 2 eexists. split; [done|]. rewrite Ha, Hbl, Hout in *. split; [done|].
  split; [|intros Hcl; apply check_result_clean; by try apply Hcl].
  intros Hc%check_result_clean; [|done..]. by apply H2.
Qed.
End Transfers.

(** ** The properties of transfers *)

Section Claims.
Context {M : Type} {host : MmcHost M} {laws : MmcLaws M}.
Context (RESULT_FAIL RESULT_UNSUP_HOST : Z).
Implicit Types card : mmc_card M.

(** C35. On a block-addressed card with its user area selected, for a range of sectors
    that ends before the last one: what a write that
    returns 0 put on the medium is what a following read that returns 0 delivers,
    and sectors outside the range keep their content whatever the results. *)
Theorem mmc_write_read card blk n out
  (HF : RESULT_FAIL <> 0) (HU : RESULT_UNSUP_HOST <> 0)
  (Hu : user_area card) (Hb : 0 <= blk) (Hn : 0 <= n) (Hr : blk + n < sectors card) (Ho : zlen out = 512 * n) :
  exists r1 card1 r2 b card2,
    mmc_write_internal RESULT_FAIL RESULT_UNSUP_HOST card blk n out = (r1, card1) /\
    mmc_read_internal RESULT_FAIL RESULT_UNSUP_HOST card1 blk n = (r2, Some b, card2) /\
    zlen b = zlen out /\ (r1 = 0 -> r2 = 0 -> b = out) /\
    (forall a, ~ (blk <= a < blk + n) -> sector (media card2) a = sector (media card) a).
Proof.
  destruct (write_internal_user _ _ HF HU card blk n out) as (r1 & m1 & Hw & Hout & Hin & _); [done..|].
  destruct (read_internal_user _ _ HF HU (set_media card m1) blk n) as (r2 & b & m2 & Hrd & Hsame & Hl & Hb2 & _); [done..|].
  do 5 eexists. split; [exact Hw|]. split; [exact Hrd|]. split; [lia|]. split.
  - intros H1 H2. rewrite Hb2 by done. by apply Hin.
  - intros a Ha. simpl. rewrite Hsame. by apply Hout.
Qed.

(** When another hardware partition is selected, the result of the transfer is
    replaced by the result of switching back: a transfer that failed is reported
    as 0. *)
Theorem mmc_transfer_switch_masks_error card blk n out
  (Hp : Z.land (part_config card) EXT_CSD_PART_CONFIG_ACC_MASK <> 0)
  (Hs : forall m v, (mmc_switch m v).1 = 0)
  (Hr : u32 (blk + n) < mmc_capacity card) :
  (mmc_transfer RESULT_FAIL RESULT_UNSUP_HOST card blk n out).1.1 = 0.
Proof.
  unfold mmc_transfer. rewrite (proj2 (Z.eqb_neq _ 0) Hp). simpl negb. cbv iota.
  pose proof (Hs (media card)) as Hs1.
  destruct (mmc_switch (media card) _) as [r1 m1] eqn:E1. specialize (Hs1 (Z.land (part_config card) (Z.lxor 255 EXT_CSD_PART_CONFIG_ACC_MASK))).
  rewrite E1 in Hs1. simpl in Hs1. subst r1. change (c_true 0) with false. cbv iota.
  change (mmc_capacity (set_part_config (set_media card m1) _)) with (mmc_capacity card).
  rewrite (proj2 (Z.leb_gt _ _)) by lia.
  destruct (mmc_wait_for_req _ _) as [res m2]. cbn [media set_media].
  specialize (Hs m2 (part_config card)). destruct (mmc_switch m2 _) as [r3 m3]. simpl in Hs. subst r3. done.
Qed.

(** A transfer that would reach the end of the card is refused without a request;
    but if another hardware partition was selected, it is not selected again. *)
Theorem mmc_transfer_out_of_range card blk n out
  (Hs : forall m v, (mmc_switch m v).1 = 0) (Hr : mmc_capacity card <= u32 (blk + n)) :
  exists card', mmc_transfer RESULT_FAIL RESULT_UNSUP_HOST card blk n out = (-1, None, card') /\
    (forall a, sector (media card') a = sector (media card) a) /\
    part_config card' = (if Z.land (part_config card) EXT_CSD_PART_CONFIG_ACC_MASK =? 0 then part_config card
                         else Z.land (part_config card) 0xf8).
Proof.
  unfold mmc_transfer. destruct (Z.eqb_spec (Z.land (part_config card) EXT_CSD_PART_CONFIG_ACC_MASK) 0) as [Hp|Hp];
    simpl negb; cbv iota.
  - rewrite (proj2 (Z.leb_le _ _)) by lia. by eexists.
  - change (Z.lxor 255 EXT_CSD_PART_CONFIG_ACC_MASK) with 0xf8.
    pose proof (Hs (media card) (Z.land (part_config card) 0xf8)) as H1.
    pose proof (switch_law (media card) (Z.land (part_config card) 0xf8)) as H2.
    destruct (mmc_switch _ _) as [r m]. simpl in H1, H2. subst r. change (c_true 0) with false. cbv iota.
    change (mmc_capacity (set_part_config (set_media card m) _)) with (mmc_capacity card).
    rewrite (proj2 (Z.leb_le _ _)) by lia. by eexists.
Qed.
End Claims.

(** ** The properties of the partition table *)

Section TableClaims.
Context (part_words : partitions -> list Z) (MMC_PARTITIONS_MAGIC MMC_RESERVED_NAME : bytes).
Context (MAX_MMC_PART_NUM : Z).

(** The checksum of the partition table covers its first entry only, whatever
    the number of entries: tables that differ in any other entry are accepted
    alike. *)
Theorem partition_checksum_first_only pt ps
  (Hh : head ps = head (partitions_ pt)) :
  verify_partition_tbl part_words MMC_PARTITIONS_MAGIC MAX_MMC_PART_NUM
    (mk_fmt (magic pt) (part_num pt) (checksum pt) ps)
  = verify_partition_tbl part_words MMC_PARTITIONS_MAGIC MAX_MMC_PART_NUM pt.
Proof. unfold verify_partition_tbl, mmc_partition_tbl_checksum_calc. simpl. by rewrite Hh. Qed.

(** The offset of the reserved partition is that of the first entry with its
    name, and -1 when none of the [part_num] entries has it. *)
Theorem reserve_off_spec pt
  (Hn : 0 <= part_num pt <= zlen (partitions_ pt)) :
  let named p := c_string (pname p) = MMC_RESERVED_NAME in
  get_reserve_partition_off_from_tbl MMC_RESERVED_NAME pt
  = Some (match list_find named (take (Z.to_nat (part_num pt)) (partitions_ pt)) with
          | Some (_, p) => s32 (poffset p)
          | None => -1
          end).
Proof.
  cbn zeta. unfold get_reserve_partition_off_from_tbl.
  assert (Hl : (Z.to_nat (part_num pt) <= length (partitions_ pt))%nat) by lia. revert Hl.
  generalize (Z.to_nat (part_num pt)) as n. generalize (partitions_ pt) as ps.
  induction ps as [|p ps IH]; intros [|n] Hl; simpl in Hl |- *; try done; [lia|].
  destruct (decide (c_string (pname p) = MMC_RESERVED_NAME)) as [E|E].
  - by rewrite bool_decide_true.
  - rewrite bool_decide_false by done. rewrite IH by lia. f_equal.
    by destruct (list_find _ _) as [[]|].
Qed.

(** Every partition added to the disk lies within its capacity, and they are the
    first entries of the table in order. *)
Theorem add_emmc_partition_fits n ps cap
  (Hp : Forall (fun p => in_u64 (poffset p) /\ in_u64 (psize p)) ps) :
  Forall (fun '(off, size, _) => off + size <= cap) (add_emmc_partition n ps cap) /\
  exists k, add_emmc_partition n ps cap
            = map (fun p => (Z.shiftr (poffset p) 9, Z.shiftr (psize p) 9, pname p)) (take k ps).
Proof.
  revert ps Hp. induction n as [|n IH]; intros [|p ps] Hp; simpl; try (split; [constructor|by exists O]).
  apply Forall_cons_1 in Hp as [[Ho Hs] Hp]. destruct (IH ps Hp) as [H1 [k H2]].
  case_goal; [|split; [constructor|by exists O]]. b2p. split; [|exists (S k); simpl; by rewrite H2].
  constructor; [|done]. unfold in_u64 in *. rewrite u64_small in E; [done|].
  rewrite !Z.shiftr_div_pow2 by lia. change (2 ^ 9) with 512.
  split; [apply Z.add_nonneg_nonneg; apply Z.div_pos; lia|].
  assert (poffset p / 512 < 2 ^ 55) by (apply Z.div_lt_upper_bound; lia).
  assert (psize p / 512 < 2 ^ 55) by (apply Z.div_lt_upper_bound; lia). lia.
Qed.
End TableClaims.

(** ** A medium in memory, as an instance of the host *)

Definition disk : Type := { f : Z -> bytes | forall a, length (f a) = 512%nat }.

Definition disk_put (f : Z -> bytes) (a0 n : Z) (out : bytes) : Z -> bytes :=
  fun a => if bool_decide (a0 <= a < a0 + n /\ zlen out = 512 * n)
           then take 512 (drop (Z.to_nat (512 * (a - a0))) out) else f a.

Lemma disk_put_length f a0 n out :
  (forall a, length (f a) = 512%nat) -> forall a, length (disk_put f a0 n out a) = 512%nat.
Proof.
  intros Hf a. unfold disk_put. case_bool_decide as H; [|done]. rewrite length_take, length_drop. lia.
Qed.

Lemma disk_put_area f a0 n out :
  0 <= n -> zlen out = 512 * n -> read_area (disk_put f a0 n out) a0 n = out.
Proof.
  intros Hn Ho. assert (Hk : forall k, 0 <= k -> k <= n ->
    read_area (disk_put f a0 n out) a0 k = take (Z.to_nat (512 * k)) out).
  { apply (natlike_ind (fun k => k <= n -> _ = _)); [done|]. intros k Hk IH Hk'.
    rewrite <- Z.add_1_r, read_area_app, IH by lia.
    assert (read_area (disk_put f a0 n out) (a0 + k) 1
            = take 512 (drop (Z.to_nat (512 * k)) out)) as ->.
    { unfold read_area. rewrite (seqZ_cons (a0 + k) 1) by lia. change (Z.pred 1) with 0.
      change (map ?f (?x :: seqZ ?y 0)) with [f x]. simpl concat. rewrite app_nil_r. unfold disk_put.
      rewrite bool_decide_true by lia. do 2 f_equal. lia. }
    rewrite take_take_drop. f_equal. lia. }
  rewrite Hk by lia. apply take_ge. lia.
Qed.

#[export] Instance disk_host : MmcHost disk := {|
  mmc_switch := fun m _ => (0, m);
  mmc_wait_for_req := fun m mrq =>
    if mrq_write mrq then
      (mk_mres 0 0 0 (u32 (mrq_blocks mrq * mrq_blksz mrq)) [],
       exist _ (disk_put (`m) (mrq_arg mrq) (mrq_blocks mrq) (mrq_out mrq))
         (disk_put_length (`m) (mrq_arg mrq) (mrq_blocks mrq) (mrq_out mrq) (proj2_sig m)))
    else (mk_mres 0 0 0 (u32 (mrq_blocks mrq * mrq_blksz mrq))
            (read_area (`m) (mrq_arg mrq) (mrq_blocks mrq)), m) |}.

#[export] Instance disk_mmc_laws : MmcLaws disk.
Proof.
  refine {| sector := fun m => `m |}.
  - intros m. exact (proj2_sig m).
  - done.
  - intros m mrq Hw Hsz Hn. simpl. rewrite Hw. simpl. split_and!; [done| |done].
    unfold read_area.
    replace (512 * mrq_blocks mrq) with (512 * zlen (seqZ (mrq_arg mrq) (mrq_blocks mrq))) by (rewrite length_seqZ; lia).
    induction (seqZ _ _) as [|x l IH]; [done|]. simpl concat. rewrite length_app, (proj2_sig m x). cbn [length]. lia.
  - intros m mrq Hw Hsz Hn Ho. simpl. rewrite Hw. simpl. split.
    + intros a Ha. unfold disk_put. rewrite bool_decide_false by lia. done.
    + intros _. by apply disk_put_area.
Defined.

Definition zero_disk : disk := exist _ (fun _ => replicate 512 0) (fun _ => eq_refl).

(** A card of 1000 sectors on it, with the given partition configuration. *)
Definition sample_card (config : Z) : mmc_card disk :=
  mk_card 9 0 config 1000 true false 0 0 zero_disk.

Lemma mmc_write_read_witness :
  exists r1 card1 r2 b card2,
    mmc_write_internal 1 2 (sample_card 0) 5 2 (fill 7 1024) = (r1, card1) /\
    mmc_read_internal 1 2 card1 5 2 = (r2, Some b, card2) /\ zlen b = 1024.
Proof.
  destruct (mmc_write_read 1 2 (sample_card 0) 5 2 (fill 7 1024)) as (r1 & c1 & r2 & b & c2 & H1 & H2 & H3 & _);
    [done|done|by vm_compute|done|done|by vm_compute|by vm_compute|].
  exists r1, c1, r2, b, c2. split; [exact H1|]. split; [exact H2|]. rewrite H3. by vm_compute.
Defined.

(** A host on which every request fails. *)
Definition broken_host : MmcHost disk := {|
  mmc_switch := fun m _ => (0, m);
  mmc_wait_for_req := fun m mrq => (mk_mres (-110) 0 0 0 [], m) |}.

Lemma mmc_transfer_switch_masks_error_witness :
  (mmc_transfer (host := broken_host) 1 2 (sample_card 3) 5 2 (Some (fill 7 1024))).1.1 = 0 /\
  (mmc_transfer (host := broken_host) 1 2 (sample_card 0) 5 2 (Some (fill 7 1024))).1.1 = -110.
Proof.
  split; [|by vm_compute].
  apply (mmc_transfer_switch_masks_error (host := broken_host) 1 2); [done|done|by vm_compute].
Defined.

Lemma mmc_transfer_out_of_range_witness :
  exists card', mmc_transfer 1 2 (sample_card 3) 999 1 None = (-1, None, card') /\ part_config card' = 0.
Proof.
  destruct (mmc_transfer_out_of_range 1 2 (sample_card 3) 999 1 None) as (c & H & _ & Hp); [done|by vm_compute|].
  exists c. split; [exact H|]. rewrite Hp. by vm_compute.
Defined.

Definition sample_part (nm : bytes) (off size : Z) : partitions := mk_partitions nm size off 1.
Definition sample_table : mmc_partitions_fmt :=
  mk_fmt [77; 80; 84] 2 0 [sample_part [98; 0] 0 4194304; sample_part [114; 115; 118; 0] 4194304 8388608].

Lemma partition_checksum_first_only_witness :
  verify_partition_tbl (fun p => [psize p; poffset p]) [77; 80; 84] 32
    (mk_fmt [77; 80; 84] 2 0 [sample_part [98; 0] 0 4194304; sample_part [120; 0] 1 1])
  = verify_partition_tbl (fun p => [psize p; poffset p]) [77; 80; 84] 32 sample_table.
Proof.
  apply (partition_checksum_first_only (fun p => [psize p; poffset p]) [77; 80; 84] 32 sample_table
           [sample_part [98; 0] 0 4194304; sample_part [120; 0] 1 1]). reflexivity.
Defined.

Lemma reserve_off_spec_witness :
  get_reserve_partition_off_from_tbl [114; 115; 118] sample_table = Some 4194304.
Proof. rewrite (reserve_off_spec [114; 115; 118] sample_table); [by vm_compute|simpl; lia]. Defined.

Lemma add_emmc_partition_fits_witness :
  Forall (fun '(off, size, _) => off + size <= 10000) (add_emmc_partition 2 (partitions_ sample_table) 10000).
Proof.
  apply (add_emmc_partition_fits 2 (partitions_ sample_table) 10000).
  repeat constructor; by vm_compute.
Defined.
