(* ===== verification/EmmcKey.v ===== *)
(** * The key area of the eMMC (src/a311d/soc/amlogic/mmc/emmc_key.c)

    The reserved partition holds two copies of the key area (256 KiB each) and,
    after them, one block per copy with its checksum, stamp and magic.  The card is
    the one of Mmc.v; [None] is an access outside a buffer, or a transfer loop that
    is not over after the turns its block count needs. *)

From stdpp Require Import base numbers list option.
From S2P Require Import Prelude Mmc StorageKey.

Definition EMMC_BLOCK_SIZE : Z := 0x100.
Definition MAX_EMMC_BLOCK_SIZE : Z := 128 * 1024.
Definition MAX_TRANS_BLK : Z := 256.
Definition EMMC_KEYAREA_SIZE : Z := 256 * 1024.
Definition EMMC_KEYAREA_COUNT : Z := 2.
Definition EMMCKEY_RESERVE_OFFSET : Z := 0x4000.
Definition EMMCKEY_AREA_PHY_SIZE : Z := EMMC_KEYAREA_COUNT * EMMC_KEYAREA_SIZE.

(** [stamp_after (a, b)]: the difference is taken as an [int]. *)
Definition stamp_after (a b : Z) : bool := s32 (b - a) <? 0.

Record aml_key_info := mk_key_info { ki_checksum : Z; ki_stamp : Z; ki_magic : Z }.

Definition key_info_bytes (i : aml_key_info) : bytes :=
  le_split 8 (ki_checksum i) ++ le_split 4 (ki_stamp i) ++ le_split 4 (ki_magic i).

Definition key_info_of (b : bytes) : option aml_key_info :=
  c ← bget b 0 8; s ← get_u32 b 8; m ← get_u32 b 12;
  Some (mk_key_info (le_join c) s m).

(** The sum of the first [n] 32-bit words. *)
Fixpoint sum_u32 (n : nat) (b : bytes) (acc : Z) : option Z :=
  match n with
  | O => Some acc
  | S n =>
      match b with
      | b0 :: b1 :: b2 :: b3 :: b => sum_u32 n b (u64 (acc + le_join [b0; b1; b2; b3]))
      | _ => None
      end
  end.

Definition _calc_key_checksum (addr : bytes) (size : Z) : option Z :=
  sum_u32 (Z.to_nat (Z.shiftr size 2)) addr 0.

(** The static variables: the card and [key_infos]. *)
Record emmc_key_state (M : Type) := mk_emmc_key { card : mmc_card M; key_infos : list aml_key_info }.
Arguments mk_emmc_key {M}.
Arguments card {M}.
Arguments key_infos {M}.

Section EmmcKey.
Context {M : Type} {host : MmcHost M}.
Variable RESULT_FAIL RESULT_UNSUP_HOST : Z.
(** [get_reserve_partition_off_from_tbl ()] on the table in memory. *)
Variable reserve_off : Z.
Variable kmalloc : Z -> bool.

Implicit Types s : emmc_key_state M.

Definition set_card s (c : mmc_card M) : emmc_key_state M := mk_emmc_key c (key_infos s).
Definition set_infos s i : emmc_key_state M := mk_emmc_key (card s) i.

(** ** Transfer loops *)

(** What a read leaves in the buffer at [off]. *)
Definition store_read (buf : bytes) (off : Z) (got : option bytes) : option bytes :=
  match got with
  | Some b => bput buf off b
  | None => Some buf
  end.

(** One turn of [do { read; advance } while (more cnt)]: the card, the block, the
    count, the offset in the buffer and the buffer; [per cnt] blocks a turn.  From
    the second turn on the destination is [buffer + MAX_EMMC_BLOCK_SIZE]. *)
Definition read_turn (per : Z -> Z) (more : Z -> bool) (st : mmc_card M * Z * Z * Z * bytes)
  : mmc_card M * Z * Z * Z * bytes + option (Z * bytes * mmc_card M) :=
  let '(card, blk, cnt, off, buf) := st in
  let '(ret, got, card) := mmc_read_internal RESULT_FAIL RESULT_UNSUP_HOST card (u32 blk) (per cnt) in
  match store_read buf off got with
  | None => inr None
  | Some buf =>
      if c_true ret then inr (Some (ret, buf, card))
      else if more (cnt - 256) then inl (card, blk + 256, cnt - 256, MAX_EMMC_BLOCK_SIZE, buf)
      else inr (Some (0, buf, card))
  end.

Definition chunk_fuel (cnt : Z) : nat := S (Z.to_nat (cnt / 256)).

Definition read_chunks (per : Z -> Z) (more : Z -> bool) (card : mmc_card M) (blk cnt : Z) (buf : bytes)
  : option (Z * bytes * mmc_card M) :=
  r ← loop (chunk_fuel cnt) (read_turn per more) (card, blk, cnt, 0, buf); r.

Definition write_turn (buf : bytes) (st : mmc_card M * Z * Z * Z)
  : mmc_card M * Z * Z * Z + option (Z * mmc_card M) :=
  let '(card, blk, cnt, off) := st in
  match bget buf off (Z.shiftl EMMC_BLOCK_SIZE (read_blkbits card)) with
  | None => inr None
  | Some src =>
      let '(ret, card) := mmc_write_internal RESULT_FAIL RESULT_UNSUP_HOST card (u32 blk) EMMC_BLOCK_SIZE src in
      if c_true ret then inr (Some (ret, card))
      else if negb (cnt - EMMC_BLOCK_SIZE =? 0)
      then inl (card, blk + EMMC_BLOCK_SIZE, cnt - EMMC_BLOCK_SIZE, MAX_EMMC_BLOCK_SIZE)
      else inr (Some (0, card))
  end.

Definition write_chunks (card : mmc_card M) (blk cnt : Z) (buf : bytes) : option (Z * mmc_card M) :=
  r ← loop (chunk_fuel cnt) (write_turn buf) (card, blk, cnt, 0); r.

(** ** Operations *)

Definition emmc_read_valid_key s (buffer : bytes) (valid_flag : Z)
  : option (Z * bytes * emmc_key_state M) :=
  let bit := read_blkbits (card s) in
  let addr := u64 (reserve_off + EMMCKEY_RESERVE_OFFSET + (valid_flag - 1) * EMMC_KEYAREA_SIZE) in
  let blk := s32 (Z.shiftr addr bit) in
  let cnt := Z.shiftr EMMC_KEYAREA_SIZE bit in
  let c := mmc_claim_host (card s) in
  '(ret, buffer, c) ← read_chunks (fun _ => EMMC_BLOCK_SIZE) (fun cnt => negb (cnt =? 0)) c blk cnt buffer;
  Some (ret, buffer, set_card s (mmc_release_host c)).

Definition emmc_write_one_key s (buffer : bytes) (valid_flag : Z) : option (Z * emmc_key_state M) :=
  if negb (kmalloc 512) then Some (-1, s)
  else
    let bit := read_blkbits (card s) in
    let key_glb_offset := u64 (reserve_off + EMMCKEY_RESERVE_OFFSET) in
    let blk := Z.shiftr (u64 (key_glb_offset + valid_flag mod 2 * EMMC_KEYAREA_SIZE)) bit in
    let cnt := Z.shiftr EMMC_KEYAREA_SIZE bit in
    info ← aget (key_infos s) (valid_flag - 1);
    checksum_info ← bput (fill 0 512) 0 (key_info_bytes info);
    let c := mmc_claim_host (card s) in
    '(ret, c) ← write_chunks c blk cnt buffer;
    if c_true ret then Some (ret, set_card s c)
    else
      let blk := Z.shiftr (u64 (key_glb_offset + 2 * EMMC_KEYAREA_SIZE)) bit + valid_flag mod 2 in
      src ← bget checksum_info 0 (Z.shiftl 1 bit);
      let '(ret, c) := mmc_write_internal RESULT_FAIL RESULT_UNSUP_HOST c (u32 blk) 1 src in
      Some (ret, set_card s (mmc_release_host c)).

Definition update_old_key s (addr : bytes) : option (Z * emmc_key_state M) :=
  i0 ← aget (key_infos s) 0;
  i1 ← aget (key_infos s) 1;
  let choice :=
    if stamp_after (ki_stamp i1) (ki_stamp i0) then Some ([i0; i0], 2)
    else if stamp_after (ki_stamp i0) (ki_stamp i1) then Some ([i1; i1], 1)
    else None in
  match choice with
  | None => Some (0, s)
  | Some (infos, valid_flag) =>
      '(ret, s) ← emmc_write_one_key (set_infos s infos) addr valid_flag;
      if c_true ret then Some (ret, s)
      else
        i0 ← aget (key_infos s) 0;
        Some (ret, set_card s (set_key_stamp (card s) (ki_stamp i0)))
  end.

(** 0: the checksum of copy [cpy], whose content is at [addr], is right. *)
Definition _verify_key_checksum s (addr : bytes) (cpy : Z) : option (Z * emmc_key_state M) :=
  let bit := read_blkbits (card s) in
  let blk := u64 (reserve_off + EMMCKEY_RESERVE_OFFSET + EMMC_KEYAREA_SIZE * 2) in
  let blk := Z.shiftr blk bit + cpy in
  if negb (kmalloc 512) then Some (-1, s)
  else
    let c := mmc_claim_host (card s) in
    let '(ret, got, c) := mmc_read_internal RESULT_FAIL RESULT_UNSUP_HOST c (u32 blk) 1 in
    let s := set_card s (mmc_release_host c) in
    if c_true ret then Some (ret, s)
    else
      checksum_info ← store_read (fill 0 512) 0 got;
      info ← key_info_of checksum_info;
      infos ← aset (key_infos s) cpy info;
      checksum ← _calc_key_checksum addr EMMC_KEYAREA_SIZE;
      Some (if checksum =? ki_checksum info then 0 else 1, set_infos s infos).

Definition write_invalid_key s (addr : bytes) (valid_flag : Z) : option (Z * bytes * emmc_key_state M) :=
  if (2 <? valid_flag) || (valid_flag <? 1) then Some (-1, addr, s)
  else
    '(ret, addr, s) ← emmc_read_valid_key s addr valid_flag;
    if c_true ret then Some (ret, addr, s)
    else
      '(ret, s) ← emmc_write_one_key s addr valid_flag;
      Some (ret, addr, s).

Definition _amlmmc_read s (blk : Z) (buf : bytes) (cnt : Z) : option (Z * bytes * emmc_key_state M) :=
  '(ret, buf, c) ← read_chunks (fun _ => MAX_TRANS_BLK) (fun cnt => negb (cnt =? 0))
                     (mmc_claim_host (card s)) blk cnt buf;
  Some (if c_true ret then - EFAULT else 0, buf, set_card s (mmc_release_host c)).

(** One turn of the loop of [update_key_info], and the loop: copy 1, then 0. *)
Definition check_copy s (addr : bytes) (cpy valid_flag : Z) : option (Z * bytes * emmc_key_state M) :=
  let bit := read_blkbits (card s) in
  let cnt := Z.shiftr EMMC_KEYAREA_SIZE bit in
  let blk := Z.shiftr (reserve_off + EMMCKEY_RESERVE_OFFSET + cpy * EMMC_KEYAREA_SIZE) bit in
  '(ret, addr, s) ← _amlmmc_read s blk addr cnt;
  if c_true ret then Some (valid_flag, addr, s)
  else
    '(ret, s) ← _verify_key_checksum s addr cpy;
    info ← aget (key_infos s) cpy;
    Some (if (ret =? 0) && negb (ki_magic info =? 0) then valid_flag + (cpy + 1) else valid_flag, addr, s).

Definition update_key_info s (addr : bytes) : option (Z * bytes * emmc_key_state M) :=
  '(valid_flag, addr, s) ← check_copy s addr 1 0;
  '(valid_flag, addr, s) ← check_copy s addr 0 valid_flag;
  i0 ← aget (key_infos s) 0;
  i1 ← aget (key_infos s) 1;
  let stamp := if ki_stamp i1 <? ki_stamp i0 then ki_stamp i0 else ki_stamp i1 in
  Some (valid_flag, addr, set_card s (set_key_stamp (card s) stamp)).

(** [uninit] is the content of the allocated buffer. *)
Definition _key_init (uninit : bytes) s : option (Z * emmc_key_state M) :=
  if negb (kmalloc EMMC_KEYAREA_SIZE) then Some (- ENOMEM, s)
  else
    '(valid, key, s) ← update_key_info s uninit;
    if valid =? 1 then '(_, _, s) ← write_invalid_key s key 1; Some (0, s)
    else if valid =? 2 then '(_, _, s) ← write_invalid_key s key 2; Some (0, s)
    else if valid =? 3 then '(_, s) ← update_old_key s key; Some (0, s)
    else Some (0, s).

(** One turn of the loop of [emmc_key_write], for [cpy]. *)
Definition write_copy s (buffer : bytes) (length cpy : Z) : option (Z * emmc_key_state M) :=
  sum ← _calc_key_checksum buffer length;
  infos ← aset (key_infos s) (cpy - 1) (mk_key_info sum (u32 (key_stamp (card s) + 1)) 9);
  emmc_write_one_key (set_infos s infos) buffer cpy.

Definition emmc_key_write : write_op (emmc_key_state M) := fun s buffer length =>
  '(ret, s) ← write_copy s buffer length 1;
  if c_true ret then Some (ret, s) else write_copy s buffer length 2.

Definition emmc_key_read : read_op (emmc_key_state M) := fun s buffer length =>
  let bit := read_blkbits (card s) in
  let blk := s32 (Z.shiftr (u64 (reserve_off + EMMCKEY_RESERVE_OFFSET)) bit) in
  let cnt := Z.shiftr length bit in
  '(ret, buffer, c) ← read_chunks (fun cnt => Z.min EMMC_BLOCK_SIZE cnt) (fun cnt => 0 <? cnt)
                        (mmc_claim_host (card s)) blk cnt buffer;
  Some (ret, buffer, length, set_card s (mmc_release_host c)).

(** ** Initialisation *)

Record emmckey_valid_node_t := mk_node { phy_addr : Z; phy_size : Z }.
Record aml_emmckey_info_t := mk_emmckey_info {
  key_valid_node : list emmckey_valid_node_t;
  keyarea_phy_addr : Z; keyarea_phy_size : Z; lba_start : Z; lba_end : Z;
  key_init : Z; key_valid : Z; key_part_count : Z }.

(** The loop of [aml_emmc_key_check]: the areas appended to the list, the turn
    with counter [keypart_cnt]; [None] when the fuel runs out. *)
Fixpoint key_check_loop (fuel : nat) (i : aml_emmckey_info_t) (keypart_cnt : Z)
  : option (Z * aml_emmckey_info_t) :=
  match fuel with
  | O => None
  | S fuel =>
      if negb (kmalloc 24) then Some (- ENOMEM, i)
      else
        let node := mk_node (u64 (keyarea_phy_addr i + EMMC_KEYAREA_SIZE * keypart_cnt)) EMMC_KEYAREA_SIZE in
        let i := mk_emmckey_info (key_valid_node i ++ [node]) (keyarea_phy_addr i) (keyarea_phy_size i)
                   (lba_start i) (lba_end i) (key_init i) 0 (key_part_count i) in
        let keypart_cnt := u8 (keypart_cnt + 1) in
        if keypart_cnt <? key_part_count i then key_check_loop fuel i keypart_cnt
        else
          Some (0, mk_emmckey_info (key_valid_node i) (keyarea_phy_addr i) (keyarea_phy_size i)
                     (lba_start i) (lba_end i) (key_init i) 1 (key_part_count i))
  end.

Definition aml_emmc_key_check (i : aml_emmckey_info_t) : option (Z * aml_emmckey_info_t) :=
  let count := u8 (keyarea_phy_size i / EMMC_KEYAREA_SIZE) in
  let count := if EMMC_KEYAREA_COUNT <? count then EMMC_KEYAREA_COUNT else count in
  key_check_loop (S (Z.to_nat count))
    (mk_emmckey_info (key_valid_node i) (keyarea_phy_addr i) (keyarea_phy_size i) (lba_start i)
       (lba_end i) (key_init i) (key_valid i) count) 0.

(** [emmc_key_init]: the key area of [c] becomes the device of the key storage
    layer.  Whatever the outcome, [emmckey_info] is freed at the end, so it is not
    part of the result. *)
Definition emmc_key_init (uninit : bytes) (sizeof_info sizeof_type : Z) (c : mmc_card M)
    (k : storage_key_state (emmc_key_state M)) : option (Z * storage_key_state (emmc_key_state M)) :=
  let bit := read_blkbits c in
  if negb (kmalloc sizeof_info) then Some (- ENOMEM, k)
  else if negb (kmalloc sizeof_type) then Some (- ENOMEM, k)
  else
    let size := EMMCKEY_AREA_PHY_SIZE + 512 * 2 in
    if reserve_off <? 0 then Some (- EINVAL, k)
    else
      let addr := u64 (reserve_off + EMMCKEY_RESERVE_OFFSET) in
      let info := mk_emmckey_info [] addr size (Z.shiftr addr bit) (Z.shiftr (u64 (addr + size)) bit) 1 0 0 in
      '(_, s) ← _key_init uninit (set_card (device k) c);
      let k := set_device k s in
      '(err, info) ← aml_emmc_key_check info;
      if c_true err then Some (err, k)
      else
        let t := mk_type UNIFYKEY_STORAGE_TYPE_EMMC (mk_ops (Some emmc_key_read) (Some emmc_key_write)) in
        let '(ret, k) := register_unifykey_types k (Some t) in
        if c_true ret then Some (- EINVAL, k) else Some (0, k).

End EmmcKey.
