(* ===== verification/EmmcKeySpec.v ===== *)
(** * Properties of the key area of the eMMC (src/a311d/soc/amlogic/mmc/emmc_key.c) *)

From stdpp Require Import base numbers list option.
From S2P Require Import Prelude Tlv NormalKey NormalKeySpec StorageKey StorageKeySpec Mmc MmcSpec EmmcKey.

(** ** The checksum *)

Lemma sum_u32_total n : forall b acc, (4 * n <= length b)%nat -> exists c, sum_u32 n b acc = Some c.
Proof.
  induction n as [|n IH]; intros b acc Hb; [by eexists|].
  destruct b as [|b0 [|b1 [|b2 [|b3 b]]]]; simpl in Hb; try lia. apply IH. simpl in Hb. lia.
Qed.

Lemma sum_u32_range n : forall b acc c, in_u64 acc -> sum_u32 n b acc = Some c -> in_u64 c.
Proof.
  induction n as [|n IH]; intros b acc c Ha H; [by injection H as <-|].
  destruct b as [|b0 [|b1 [|b2 [|b3 b]]]]; try done. eapply IH; [|exact H]. apply u64_range.
Qed.

(** It looks at the first [4 n] bytes only. *)
Lemma sum_u32_prefix n : forall b b' acc,
  (4 * n <= length b)%nat -> sum_u32 n (b ++ b') acc = sum_u32 n b acc.
Proof.
  induction n as [|n IH]; intros b b' acc Hb; [done|].
  destruct b as [|b0 [|b1 [|b2 [|b3 b]]]]; simpl in Hb; try lia. simpl. apply IH. lia.
Qed.

Definition area_sum (b : bytes) : Z := default 0 (_calc_key_checksum b EMMC_KEYAREA_SIZE).

Lemma calc_area b : EMMC_KEYAREA_SIZE <= zlen b -> _calc_key_checksum b EMMC_KEYAREA_SIZE = Some (area_sum b).
Proof.
  intros H. unfold area_sum, _calc_key_checksum, EMMC_KEYAREA_SIZE in *.
  change (Z.shiftr (256 * 1024) 2) with 65536.
  destruct (sum_u32_total (Z.to_nat 65536) b 0) as [c Hc]; [lia|]. by rewrite Hc.
Qed.

Lemma area_sum_range b : in_u64 (area_sum b).
Proof.
  unfold area_sum, _calc_key_checksum. destruct (sum_u32 _ b 0) as [c|] eqn:E; [|done].
  eapply sum_u32_range; [|exact E]. done.
Qed.

Lemma area_sum_take b : EMMC_KEYAREA_SIZE <= zlen b -> area_sum (take (Z.to_nat EMMC_KEYAREA_SIZE) b) = area_sum b.
Proof.
  intros H. unfold area_sum, _calc_key_checksum. f_equal.
  rewrite <- (take_drop (Z.to_nat EMMC_KEYAREA_SIZE) b) at 2. symmetry. apply sum_u32_prefix.
  rewrite length_take. unfold EMMC_KEYAREA_SIZE in *. change (Z.shiftr (256 * 1024) 2) with 65536. lia.
Qed.

#[local] Strategy opaque [_calc_key_checksum area_sum sum_u32].

(** ** The blocks of information *)

Definition info_ok (i : aml_key_info) : Prop := in_u64 (ki_checksum i) /\ in_u32 (ki_stamp i) /\ in_u32 (ki_magic i).

Definition info_block (i : aml_key_info) : bytes := key_info_bytes i ++ fill 0 496.

Lemma info_bytes_length i : length (key_info_bytes i) = 16%nat.
Proof. unfold key_info_bytes. by rewrite !length_app, !le_split_length. Qed.

Lemma info_block_put i : bput (fill 0 512) 0 (key_info_bytes i) = Some (info_block i).
Proof. rewrite bput_in by (rewrite ?info_bytes_length; done). done. Qed.

Lemma info_block_length i : zlen (info_block i) = 512.
Proof. unfold info_block. rewrite length_app, info_bytes_length. done. Qed.

Lemma key_info_roundtrip i b : info_ok i -> key_info_of (info_block i ++ b) = Some i.
Proof.
  intros (Hc & Hs & Hm). unfold key_info_of, info_block, key_info_bytes.
  assert (Hh : holds_at ((le_split 8 (ki_checksum i) ++ le_split 4 (ki_stamp i) ++ le_split 4 (ki_magic i)) ++ fill 0 496) 0
            (le_split 8 (ki_checksum i) ++ le_split 4 (ki_stamp i) ++ le_split 4 (ki_magic i) ++ fill 0 496)).
  { split_and!; [done|rewrite <- !app_assoc; lia|]. rewrite drop_0, <- !app_assoc. by apply take_ge. }
  assert (Hb : forall x y o z, holds_at x o y -> holds_at (x ++ z) o y).
  { intros x y o z (H0 & H1 & H2). split; [done|]. split; [rewrite length_app; lia|].
    rewrite drop_app_le by lia. rewrite take_app_le by (rewrite length_drop; lia). done. }
  apply (Hb _ _ _ b) in Hh. rewrite !holds_at_app, !le_split_length in Hh. destruct Hh as (H1 & H2 & H3 & _).
  apply bget_holds in H1. rewrite le_split_length in H1. change (Z.of_nat 8) with 8 in *.
  rewrite H1. cbn [mbind option_bind].
  rewrite (get_u32_holds _ 8 (ki_stamp i)) by done. cbn [mbind option_bind].
  rewrite (get_u32_holds _ 12 (ki_magic i)) by done. cbn [mbind option_bind].
  rewrite le_join_split by exact Hc. by destruct i.
Qed.

(** ** Transfers of a whole area *)

Section Spec.
Context {M : Type} {host : MmcHost M} {laws : MmcLaws M}.
Context (RESULT_FAIL RESULT_UNSUP_HOST reserve_off : Z) (kmalloc : Z -> bool).
Context (HF : RESULT_FAIL <> 0) (HU : RESULT_UNSUP_HOST <> 0).
Implicit Types (c : mmc_card M) (s : emmc_key_state M) (m : M).

Abbreviation rchunks := (read_chunks RESULT_FAIL RESULT_UNSUP_HOST).
Abbreviation wchunks := (write_chunks RESULT_FAIL RESULT_UNSUP_HOST).

(** First block of the key area. *)
Definition base : Z := Z.shiftr (reserve_off + EMMCKEY_RESERVE_OFFSET) 9.

(** A card that holds the key area inside its capacity, block aligned. *)
Definition key_card c : Prop :=
  user_area c /\ 0 <= reserve_off < 2 ^ 30 /\ reserve_off mod 512 = 0 /\ base + 1026 < sectors c.

Definition area m (i : Z) : bytes := read_area (sector m) (base + 512 * i) 512.
Definition info_at m (i : Z) : bytes := sector m (base + 1024 + i).

Lemma base_eq : reserve_off mod 512 = 0 -> reserve_off + EMMCKEY_RESERVE_OFFSET = 512 * base.
Proof.
  intros H. unfold base, EMMCKEY_RESERVE_OFFSET. rewrite Z.shiftr_div_pow2 by lia. change (2 ^ 9) with 512.
  pose proof (Z.div_mod reserve_off 512). replace (0x4000) with (32 * 512) by lia.
  rewrite Z.div_add by lia. lia.
Qed.

Lemma base_range : 0 <= reserve_off < 2 ^ 30 -> reserve_off mod 512 = 0 -> 32 <= base < 2 ^ 22.
Proof. intros Hr H. pose proof (base_eq H). unfold EMMCKEY_RESERVE_OFFSET in *. lia. Qed.

Lemma shiftr_blocks k : Z.shiftr (512 * k) 9 = k.
Proof. rewrite Z.shiftr_div_pow2 by lia. change (2 ^ 9) with 512. rewrite Z.mul_comm. by apply Z.div_mul. Qed.

Lemma area_blocks : Z.shiftr EMMC_KEYAREA_SIZE 9 = 512.
Proof. done. Qed.

Lemma read_chunks_area per more c blk buf :
  user_area c -> 0 <= blk -> blk + 512 < sectors c -> EMMC_KEYAREA_SIZE <= zlen buf ->
  per 512 = 256 -> per 256 = 256 -> more 256 = true -> more 0 = false ->
  exists ret buf' m', rchunks per more c blk 512 buf = Some (ret, buf', set_media c m') /\
    (forall a, sector m' a = sector (media c) a) /\ length buf' = length buf /\
    (ret = 0 -> buf' = splice buf 0 (read_area (sector (media c)) blk 512)) /\ (clean_host M -> ret = 0).
Proof.
  intros Hu Hb Hr Hl Hp1 Hp2 Hm1 Hm2. pose proof Hu as (_ & _ & _ & Hsec & _). unfold EMMC_KEYAREA_SIZE in Hl.
  unfold read_chunks, chunk_fuel. change (S (Z.to_nat (512 / 256))) with 3%nat. cbn [loop read_turn].
  rewrite Hp1, u32_small by lia.
  destruct (read_internal_user _ _ HF HU c blk 256) as (r1 & b1 & m1 & -> & Hs1 & Hl1 & Hd1 & Hc1); [done|lia..|].
  cbn [store_read]. rewrite bput_in by lia. change (512 - 256) with 256.
  destruct (c_true r1) eqn:E1.
  { exists r1, (splice buf 0 b1), m1. split; [done|]. split; [done|]. split; [apply splice_length; lia|].
    split; [intros ->; done|done]. }
  rewrite Hm1. cbn [loop read_turn]. rewrite Hp2, u32_small by lia.
  destruct (read_internal_user _ _ HF HU (set_media c m1) (blk + 256) 256) as (r2 & b2 & m2 & -> & Hs2 & Hl2 & Hd2 & Hc2);
    [done|lia|lia|simpl; lia|].
  cbn [store_read]. unfold MAX_EMMC_BLOCK_SIZE. change (128 * 1024) with (512 * 256).
  rewrite bput_in by len_solve. change (256 - 256) with 0. rewrite Hm2.
  assert (Hsp : splice (splice buf 0 b1) (512 * 256) b2 = splice buf 0 (b1 ++ b2)).
  { rewrite <- splice_app by lia. by rewrite Hl1. }
  rewrite Hsp. exists (if c_true r2 then r2 else 0), (splice buf 0 (b1 ++ b2)), m2.
  split; [by destruct (c_true r2)|].
  split; [intros a; rewrite Hs2; apply Hs1|]. split; [apply splice_length; len_solve|].
  split; [|intros Hcl; by rewrite (Hc2 Hcl)]. intros Hz. assert (r2 = 0) as -> by (unfold c_true in *; destruct (Z.eqb_spec r2 0); simpl in Hz; lia).
  unfold c_true in E1. b2p. rewrite Hd1, Hd2 by done. f_equal.
  change 512 with (256 + 256). rewrite read_area_app by lia. f_equal.
  apply read_area_ext. intros a _. apply Hs1.
Qed.

Lemma write_chunks_area c blk buf :
  user_area c -> 0 <= blk -> blk + 512 < sectors c -> EMMC_KEYAREA_SIZE <= zlen buf ->
  exists ret m', wchunks c blk 512 buf = Some (ret, set_media c m') /\
    (forall a, ~ (blk <= a < blk + 512) -> sector m' a = sector (media c) a) /\
    (ret = 0 -> read_area (sector m') blk 512 = take (Z.to_nat EMMC_KEYAREA_SIZE) buf) /\
    (clean_host M -> ret = 0).
Proof.
  intros Hu Hb Hr Hl. pose proof Hu as (Hbit & _ & _ & Hsec & _). unfold EMMC_KEYAREA_SIZE in *.
  unfold write_chunks, chunk_fuel. change (S (Z.to_nat (512 / 256))) with 3%nat. cbn [loop write_turn].
  rewrite Hbit. unfold EMMC_BLOCK_SIZE. change (Z.shiftl 0x100 9) with 131072. change 0x100 with 256.
  rewrite bget_take by lia. rewrite u32_small by lia.
  destruct (write_internal_user _ _ HF HU c blk 256 (take (Z.to_nat 131072) buf)) as (r1 & m1 & -> & Ho1 & Hd1 & Hc1);
    [done|lia..|len_solve|].
  destruct (c_true r1) eqn:E1.
  { exists r1, m1. split; [done|]. split; [intros a Ha; apply Ho1; lia|].
    split; [intros ->; done|done]. }
  change (512 - 256) with 256. simpl (negb (256 =? 0)). cbv iota. cbn [loop write_turn].
  change (read_blkbits (set_media c m1)) with (read_blkbits c). rewrite Hbit. unfold EMMC_BLOCK_SIZE.
  change (Z.shiftl 0x100 9) with 131072. change 0x100 with 256.
  unfold MAX_EMMC_BLOCK_SIZE. change (128 * 1024) with 131072.
  rewrite (bget_inside buf 131072 131072) by lia. rewrite u32_small by lia.
  destruct (write_internal_user _ _ HF HU (set_media c m1) (blk + 256) 256
              (take (Z.to_nat 131072) (drop (Z.to_nat 131072) buf))) as (r2 & m2 & -> & Ho2 & Hd2 & Hc2);
    [done|lia|lia|simpl; lia|len_solve|].
  exists (if c_true r2 then r2 else 0), m2. change (256 - 256) with 0. simpl (negb (0 =? 0)).
  split; [by destruct (c_true r2)|].
  split; [intros a Ha; rewrite Ho2 by lia; apply Ho1; lia|].
  split; [|intros Hcl; by rewrite (Hc2 Hcl)]. intros Hz. assert (r2 = 0) as -> by (unfold c_true in *; destruct (Z.eqb_spec r2 0); simpl in Hz; lia).
  unfold c_true in E1. b2p. change 512 with (256 + 256). rewrite read_area_app, Hd2 by lia.
  rewrite (read_area_ext _ (sector m1)) by (intros; apply Ho2; lia). rewrite Hd1 by done.
  rewrite take_take_drop, <- Z2Nat.inj_add by lia. change (131072 + 131072) with (256 * 1024). done.
Qed.

(** A host that refuses every write. *)
Definition bad_writes : Prop :=
  forall m mrq, mrq_write mrq = true -> cmd_error (mmc_wait_for_req m mrq).1 = -110.

Lemma write_chunks_bad c blk buf :
  bad_writes -> user_area c -> 0 <= blk -> blk + 512 < sectors c -> EMMC_KEYAREA_SIZE <= zlen buf ->
  exists m', wchunks c blk 512 buf = Some (-110, set_media c m').
Proof.
  intros Hbad Hu Hb Hr Hl. pose proof Hu as (Hbit & _ & _ & Hsec & _). unfold EMMC_KEYAREA_SIZE in Hl.
  unfold write_chunks, chunk_fuel. change (S (Z.to_nat (512 / 256))) with 3%nat. cbn [loop write_turn].
  rewrite Hbit. unfold EMMC_BLOCK_SIZE. change (Z.shiftl 0x100 9) with 131072.
  rewrite bget_take by lia. rewrite u32_small by lia.
  unfold mmc_write_internal. rewrite transfer_user by (done || lia).
  set (mrq := mmc_prepare_mrq _ _ _ _ _ _).
  assert (Hret : mmc_check_result RESULT_FAIL RESULT_UNSUP_HOST mrq (mmc_wait_for_req (media c) mrq).1 = -110).
  { unfold mmc_check_result. by rewrite Hbad. }
  rewrite Hret. change (c_true (-110)) with true. cbv iota. by eexists.
Qed.

(** ** The operations on one copy *)

Lemma release_claim c m : mmc_release_host (set_media (mmc_claim_host c) m) = set_media c m.
Proof.
  destruct c. unfold mmc_release_host, mmc_claim_host, set_claims, set_media. simpl. f_equal. lia.
Qed.

Lemma key_card_media c m : key_card c -> key_card (set_media c m).
Proof. done. Qed.
Lemma key_card_claims c n : key_card c -> key_card (set_claims c n).
Proof. done. Qed.
Lemma key_card_stamp c n : key_card c -> key_card (set_key_stamp c n).
Proof. done. Qed.

Lemma area_length m i : zlen (area m i) = EMMC_KEYAREA_SIZE.
Proof. unfold area. by rewrite read_area_length by lia. Qed.

(** Areas and blocks of information are disjoint. *)
Lemma area_frame m m' i j :
  (forall a, ~ (base + 512 * j <= a < base + 512 * j + 512) -> a <> base + 1024 + j -> sector m' a = sector m a) ->
  0 <= i <= 1 -> 0 <= j <= 1 -> i <> j -> area m' i = area m i /\ info_at m' i = info_at m i.
Proof.
  intros H Hi Hj Hne. split; [|apply H; lia].
  apply read_area_ext. intros a Ha. apply H; lia.
Qed.

Lemma read_valid_spec s buf v :
  key_card (card s) -> 1 <= v <= 2 -> zlen buf = EMMC_KEYAREA_SIZE ->
  exists ret buf' m', emmc_read_valid_key RESULT_FAIL RESULT_UNSUP_HOST reserve_off s buf v
    = Some (ret, buf', set_card s (set_media (card s) m')) /\
    (forall a, sector m' a = sector (media (card s)) a) /\ zlen buf' = EMMC_KEYAREA_SIZE /\
    (ret = 0 -> buf' = area (media (card s)) (v - 1)) /\ (clean_host M -> ret = 0).
Proof.
  intros (Hu & Hr & Ha & Hb) Hv Hl. pose proof Hu as (Hbit & _ & _ & Hsec & _). pose proof (base_eq Ha) as Hbe.
  pose proof (base_range Hr Ha) as Hbr.
  unfold emmc_read_valid_key. rewrite Hbit, area_blocks. rewrite u64_small, Hbe by (unfold EMMC_KEYAREA_SIZE, EMMCKEY_RESERVE_OFFSET in *; lia).
  replace (512 * base + (v - 1) * EMMC_KEYAREA_SIZE) with (512 * (base + 512 * (v - 1))) by (unfold EMMC_KEYAREA_SIZE; lia).
  rewrite shiftr_blocks. rewrite s32_small by lia.
  destruct (read_chunks_area (fun _ => EMMC_BLOCK_SIZE) (fun cnt => negb (cnt =? 0)) (mmc_claim_host (card s))
              (base + 512 * (v - 1)) buf) as (ret & buf' & m' & -> & Hs & Hl' & Hd & Hc); [done|lia|cbn [sectors mmc_claim_host set_claims set_media]; lia|lia|done..|].
  cbn [mbind option_bind]. rewrite release_claim. exists ret, buf', m'. split_and!; [done|done|lia| |done].
  intros Hz. rewrite (Hd Hz). change (media (mmc_claim_host (card s))) with (media (card s)).
  fold (area (media (card s)) (v - 1)). unfold splice. change (Z.to_nat 0) with O. rewrite take_0.
  rewrite drop_ge; [by rewrite app_nil_r|]. pose proof (area_length (media (card s)) (v - 1)). lia.
Qed.

(** [v mod 2] is the area that [emmc_write_one_key] writes; with it goes the
    information of copy [v - 1]. *)
Lemma write_one_spec s buf v info :
  key_card (card s) -> 1 <= v <= 2 -> EMMC_KEYAREA_SIZE <= zlen buf -> kmalloc 512 = true ->
  aget (key_infos s) (v - 1) = Some info ->
  exists ret m' k,
    emmc_write_one_key RESULT_FAIL RESULT_UNSUP_HOST reserve_off kmalloc s buf v
    = Some (ret, set_card s (set_claims (set_media (card s) m') (claims (card s) + k))) /\
    (k = 0 \/ (k = 1 /\ ret <> 0)) /\
    (forall a, ~ (base + 512 * (v mod 2) <= a < base + 512 * (v mod 2) + 512) -> a <> base + 1024 + v mod 2 ->
       sector m' a = sector (media (card s)) a) /\
    (ret = 0 -> area m' (v mod 2) = take (Z.to_nat EMMC_KEYAREA_SIZE) buf /\ info_at m' (v mod 2) = info_block info) /\
    (clean_host M -> ret = 0).
Proof.
  intros (Hu & Hr & Ha & Hb) Hv Hl Hk Hinfo. pose proof Hu as (Hbit & _ & _ & Hsec & _). pose proof (base_eq Ha) as Hbe.
  pose proof (base_range Hr Ha) as Hbr.
  pose proof (Z.mod_pos_bound v 2 ltac:(lia)) as Hm2. set (i := v mod 2) in *.
  unfold emmc_write_one_key. rewrite Hk. simpl (negb true). cbv iota. rewrite Hbit, area_blocks, Hinfo.
  cbn [mbind option_bind]. rewrite info_block_put. cbn [mbind option_bind]. fold i.
  rewrite (u64_small (reserve_off + EMMCKEY_RESERVE_OFFSET)) by (unfold EMMCKEY_RESERVE_OFFSET; lia).
  rewrite Hbe.
  replace (512 * base + i * EMMC_KEYAREA_SIZE) with (512 * (base + 512 * i)) by (unfold EMMC_KEYAREA_SIZE; lia).
  replace (512 * base + 2 * EMMC_KEYAREA_SIZE) with (512 * (base + 1024)) by (unfold EMMC_KEYAREA_SIZE; lia).
  rewrite !u64_small by lia. rewrite !shiftr_blocks.
  destruct (write_chunks_area (mmc_claim_host (card s)) (base + 512 * i) buf) as (r1 & m1 & -> & Ho1 & Hd1 & Hc1);
    [done|lia|cbn [sectors mmc_claim_host set_claims set_media]; lia|done|]. cbn [mbind option_bind].
  destruct (c_true r1) eqn:E1.
  { exists r1, m1, 1. split; [done|]. unfold c_true in E1. b2p. split; [by right|].
    split; [intros a H1 H2; by apply Ho1|]. split; [done|]. intros Hcl. by apply Hc1. }
  change (Z.shiftl 1 9) with 512. rewrite bget_take by (rewrite info_block_length; lia).
  rewrite (take_ge (info_block info)) by (pose proof (info_block_length info); lia). cbn [mbind option_bind].
  rewrite u32_small by lia.
  destruct (write_internal_user _ _ HF HU (set_media (mmc_claim_host (card s)) m1) (base + 1024 + i) 1 (info_block info))
    as (r2 & m2 & -> & Ho2 & Hd2 & Hc2); [done|lia|lia|cbn [sectors mmc_claim_host set_claims set_media]; lia|by rewrite info_block_length|].
  exists r2, m2, 0. split.
  { do 3 f_equal. change (set_media (set_media (mmc_claim_host (card s)) m1) m2) with (set_media (mmc_claim_host (card s)) m2).
    rewrite release_claim. destruct (card s). unfold set_claims, set_media. simpl. f_equal. lia. }
  split; [by left|]. split.
  { intros a H1 H2. rewrite Ho2 by lia. by apply Ho1. }
  split; [|done]. intros Hz. unfold c_true in E1. b2p. split.
  - rewrite <- Hd1 by done. apply read_area_ext. intros a Har. apply Ho2. lia.
  - specialize (Hd2 Hz). unfold read_area in Hd2. rewrite seqZ_cons in Hd2 by lia. change (Z.pred 1) with 0 in Hd2.
    change (map (sector m2) ((base + 1024 + i) :: seqZ (Z.succ (base + 1024 + i)) 0)) with [sector m2 (base + 1024 + i)] in Hd2.
    simpl concat in Hd2. by rewrite app_nil_r in Hd2.
Qed.

(** ** Writing both copies *)

Context (Hkm : kmalloc 512 = true).

Definition key_state_ok s : Prop := key_card (card s) /\ length (key_infos s) = 2%nat.

(** The information that goes with a buffer written now. *)
Definition new_info s (buf : bytes) : aml_key_info :=
  mk_key_info (area_sum buf) (u32 (key_stamp (card s) + 1)) 9.

Lemma new_info_ok s buf : info_ok (new_info s buf).
Proof. split; [apply area_sum_range|]. split; [apply u32_range|]. done. Qed.

Abbreviation wcopy := (write_copy RESULT_FAIL RESULT_UNSUP_HOST reserve_off kmalloc).

Lemma write_copy_spec s buf v :
  key_state_ok s -> zlen buf = EMMC_KEYAREA_SIZE -> 1 <= v <= 2 ->
  exists ret s', wcopy s buf EMMC_KEYAREA_SIZE v = Some (ret, s') /\ key_state_ok s' /\
    key_infos s' = <[Z.to_nat (v - 1) := new_info s buf]> (key_infos s) /\
    key_stamp (card s') = key_stamp (card s) /\
    (forall a, ~ (base + 512 * (v mod 2) <= a < base + 512 * (v mod 2) + 512) -> a <> base + 1024 + v mod 2 ->
       sector (media (card s')) a = sector (media (card s)) a) /\
    (ret = 0 -> claims (card s') = claims (card s) /\
       area (media (card s')) (v mod 2) = buf /\
       info_at (media (card s')) (v mod 2) = info_block (new_info s buf)).
Proof.
  intros [Hc Hl] Hb Hv. unfold write_copy. rewrite calc_area by lia. cbn [mbind option_bind].
  rewrite aset_in by lia. cbn [mbind option_bind]. fold (new_info s buf).
  destruct (write_one_spec (set_infos s (<[Z.to_nat (v - 1) := new_info s buf]> (key_infos s))) buf v (new_info s buf))
    as (ret & m' & k & -> & Hk & Hout & Hin & _); [done|done|lia|done| |].
  { cbn [key_infos set_infos]. rewrite aget_lookup by lia. apply list_lookup_insert_eq. lia. }
  do 2 eexists. split; [done|]. split; [split; [exact Hc|cbn; rewrite length_insert; exact Hl]|].
  split; [done|]. split; [done|]. split; [exact Hout|]. intros Hz. destruct (Hin Hz) as [H1 H2].
  split; [destruct Hk as [->|[_ Hk]]; [cbn; lia|done]|]. split; [|exact H2].
  cbn in *. etransitivity; [exact H1|]. apply take_ge. lia.
Qed.

Lemma key_write_spec s buf :
  key_state_ok s -> zlen buf = EMMC_KEYAREA_SIZE ->
  exists ret s', emmc_key_write RESULT_FAIL RESULT_UNSUP_HOST reserve_off kmalloc s buf EMMC_KEYAREA_SIZE = Some (ret, s') /\
    key_state_ok s' /\
    (ret = 0 -> key_infos s' = [new_info s buf; new_info s buf] /\ claims (card s') = claims (card s) /\
       key_stamp (card s') = key_stamp (card s) /\
       forall j, 0 <= j <= 1 -> area (media (card s')) j = buf /\
         info_at (media (card s')) j = info_block (new_info s buf)).
Proof.
  intros Hok Hb. unfold emmc_key_write.
  destruct (write_copy_spec s buf 1) as (r1 & s1 & -> & Hok1 & Hi1 & Hk1 & Ho1 & Hd1); [done|done|lia|].
  cbn [mbind option_bind]. change (1 mod 2) with 1 in *.
  destruct (c_true r1) eqn:E1.
  { exists r1, s1. split; [done|]. split; [done|]. intros ->. done. }
  unfold c_true in E1. b2p. destruct (Hd1 E1) as (Hcl1 & Ha1 & Hn1).
  destruct (write_copy_spec s1 buf 2) as (r2 & s2 & -> & Hok2 & Hi2 & Hk2 & Ho2 & Hd2); [done|done|lia|].
  change (2 mod 2) with 0 in *. exists r2, s2. split; [done|]. split; [done|].
  intros Hz. destruct (Hd2 Hz) as (Hcl2 & Ha2 & Hn2).
  assert (Hni : new_info s1 buf = new_info s buf) by (unfold new_info; by rewrite Hk1).
  rewrite Hni in *. destruct Hok as [_ Hl]. destruct (key_infos s) as [|i0 [|i1 [|]]]; try done.
  split; [rewrite Hi2, Hi1; done|]. split; [lia|]. split; [lia|]. intros j Hj.
  destruct (Z.eq_dec j 0) as [->|Hj0]; [done|]. assert (j = 1) as -> by lia.
  destruct (area_frame (media (card s1)) (media (card s2)) 1 0) as [-> ->]; [|lia..|done].
  intros a H1 H2. by apply Ho2.
Qed.

(** ** Reading *)

Lemma key_read_spec s buf :
  key_state_ok s -> zlen buf = EMMC_KEYAREA_SIZE ->
  exists ret buf' m', emmc_key_read RESULT_FAIL RESULT_UNSUP_HOST reserve_off s buf EMMC_KEYAREA_SIZE
    = Some (ret, buf', EMMC_KEYAREA_SIZE, set_card s (set_media (card s) m')) /\
    (forall a, sector m' a = sector (media (card s)) a) /\ zlen buf' = EMMC_KEYAREA_SIZE /\
    (ret = 0 -> buf' = area (media (card s)) 0).
Proof.
  intros [(Hu & Hr & Ha & Hb) _] Hl. pose proof Hu as (Hbit & _ & _ & Hsec & _). pose proof (base_eq Ha) as Hbe.
  pose proof (base_range Hr Ha) as Hbr.
  unfold emmc_key_read. rewrite Hbit, area_blocks. rewrite u64_small, Hbe by (unfold EMMCKEY_RESERVE_OFFSET in *; lia).
  rewrite shiftr_blocks, s32_small by lia.
  destruct (read_chunks_area (fun cnt => Z.min EMMC_BLOCK_SIZE cnt) (fun cnt => 0 <? cnt) (mmc_claim_host (card s)) base buf)
    as (ret & buf' & m' & -> & Hs & Hl' & Hd & _); [done|lia|cbn [sectors mmc_claim_host set_claims]; lia|lia|done..|].
  cbn [mbind option_bind]. rewrite release_claim. exists ret, buf', m'. split_and!; [done|done|lia|].
  intros Hz. rewrite (Hd Hz). change (media (mmc_claim_host (card s))) with (media (card s)).
  unfold area. rewrite Z.mul_0_r, Z.add_0_r. unfold splice. change (Z.to_nat 0) with O. rewrite take_0.
  rewrite drop_ge; [by rewrite app_nil_r|].
  pose proof (read_area_length (media (card s)) base 512 ltac:(lia)). unfold EMMC_KEYAREA_SIZE in Hl. lia.
Qed.

(** The key area keeps the contract of the key storage layer. *)
#[export] Instance emmc_storage_laws :
  StorageLaws (emmc_key_read RESULT_FAIL RESULT_UNSUP_HOST reserve_off)
    (emmc_key_write RESULT_FAIL RESULT_UNSUP_HOST reserve_off kmalloc) EMMC_KEYAREA_SIZE.
Proof.
  refine {| st_ok := key_state_ok |}.
  - intros s b Hs Hb. destruct (key_read_spec s b Hs Hb) as (r & b' & m' & Hr & _ & Hl & _).
    do 3 eexists. split; [exact Hr|]. split; [exact Hs|done].
  - intros s b Hs Hb. destruct (key_write_spec s b Hs Hb) as (r & s' & Hw & Hs' & _). eauto.
  - intros s b s' b0 b1 n s'' Hs Hb Hb0 Hw Hr.
    destruct (key_write_spec s b Hs Hb) as (r & s1 & Hw1 & Hs1 & Hd). rewrite Hw in Hw1. injection Hw1 as <- <-.
    destruct (key_read_spec s' b0 Hs1 Hb0) as (r' & b' & m' & Hr1 & _ & _ & Hd1). rewrite Hr in Hr1.
    injection Hr1 as <- <- _ _. rewrite Hd1 by done. destruct (Hd eq_refl) as (_ & _ & _ & Hboth).
    by apply (Hboth 0).
Defined.

(** ** The check at start *)

Lemma read_copy_spec s buf i :
  key_state_ok s -> zlen buf = EMMC_KEYAREA_SIZE -> 0 <= i <= 1 ->
  exists ret buf' m',
    _amlmmc_read RESULT_FAIL RESULT_UNSUP_HOST s
      (Z.shiftr (reserve_off + EMMCKEY_RESERVE_OFFSET + i * EMMC_KEYAREA_SIZE) 9) buf 512
    = Some (ret, buf', set_card s (set_media (card s) m')) /\
    (forall a, sector m' a = sector (media (card s)) a) /\ zlen buf' = EMMC_KEYAREA_SIZE /\
    (ret = 0 -> buf' = area (media (card s)) i) /\ (clean_host M -> ret = 0).
Proof.
  intros [(Hu & Hr & Ha & Hb) _] Hl Hi. pose proof (base_eq Ha) as Hbe. pose proof (base_range Hr Ha) as Hbr.
  rewrite Hbe. replace (512 * base + i * EMMC_KEYAREA_SIZE) with (512 * (base + 512 * i)) by (unfold EMMC_KEYAREA_SIZE; lia).
  rewrite shiftr_blocks. unfold _amlmmc_read.
  destruct (read_chunks_area (fun _ => MAX_TRANS_BLK) (fun cnt => negb (cnt =? 0)) (mmc_claim_host (card s))
              (base + 512 * i) buf) as (ret & buf' & m' & -> & Hs & Hl' & Hd & Hc);
    [done|lia|cbn [sectors mmc_claim_host set_claims]; lia|lia|done..|].
  cbn [mbind option_bind]. rewrite release_claim. do 3 eexists. split; [done|]. split; [done|]. split; [lia|].
  split; [|intros Hcl; by rewrite (Hc Hcl)]. intros Hz. assert (ret = 0) as -> by (unfold c_true, EFAULT in Hz; destruct (Z.eqb_spec ret 0); simpl in Hz; lia).
  rewrite (Hd eq_refl). change (media (mmc_claim_host (card s))) with (media (card s)).
  fold (area (media (card s)) i). unfold splice. change (Z.to_nat 0) with O. rewrite take_0.
  rewrite drop_ge; [by rewrite app_nil_r|]. pose proof (area_length (media (card s)) i). lia.
Qed.

(** The verdict on copy [i] whose content is [buf]: the recorded information is
    taken into [key_infos], and 0 means that its checksum is the one computed. *)
Lemma verify_spec s buf i info :
  key_state_ok s -> zlen buf = EMMC_KEYAREA_SIZE -> 0 <= i <= 1 -> info_ok info ->
  info_at (media (card s)) i = info_block info ->
  exists ret m' infos, _verify_key_checksum RESULT_FAIL RESULT_UNSUP_HOST reserve_off kmalloc s buf i
    = Some (ret, mk_emmc_key (set_media (card s) m') infos) /\
    (forall a, sector m' a = sector (media (card s)) a) /\
    ((exists e, e <> 0 /\ ret = e /\ infos = key_infos s) \/
     (ret = (if area_sum buf =? ki_checksum info then 0 else 1) /\ infos = <[Z.to_nat i := info]> (key_infos s))) /\
    (clean_host M -> infos = <[Z.to_nat i := info]> (key_infos s) /\
       ret = (if area_sum buf =? ki_checksum info then 0 else 1)).
Proof.
  intros [(Hu & Hr & Ha & Hb) Hlen] Hl Hi Hok Hinfo. pose proof Hu as (Hbit & _ & _ & Hsec & _).
  pose proof (base_eq Ha) as Hbe. pose proof (base_range Hr Ha) as Hbr.
  unfold _verify_key_checksum. rewrite (calc_area buf) by lia. rewrite Hkm. simpl (negb true). cbv iota. rewrite Hbit, Hbe.
  replace (512 * base + EMMC_KEYAREA_SIZE * 2) with (512 * (base + 1024)) by (unfold EMMC_KEYAREA_SIZE; lia).
  rewrite u64_small, shiftr_blocks, u32_small by lia.
  destruct (read_internal_user _ _ HF HU (mmc_claim_host (card s)) (base + 1024 + i) 1)
    as (ret & b & m' & -> & Hs & Hbl & Hd & Hc); [done|lia|lia|cbn [sectors mmc_claim_host set_claims]; lia|].
  cbn [card set_card]. rewrite release_claim.
  destruct (c_true ret) eqn:E.
  { exists ret, m', (key_infos s). split; [done|]. split; [done|]. unfold c_true in E. b2p.
    split; [left; by exists ret|]. intros Hcl. by rewrite (Hc Hcl) in E. }
  unfold c_true in E. b2p. specialize (Hd E). subst ret. cbn [store_read].
  assert (Hb1 : b = info_block info).
  { rewrite Hd, <- Hinfo. unfold read_area, info_at. rewrite seqZ_cons by lia. change (Z.pred 1) with 0.
    change (map ?f (?x :: seqZ ?y 0)) with [f x]. simpl concat. by rewrite app_nil_r. }
  rewrite bput_in by (rewrite ?fill_length; lia). cbn [mbind option_bind].
  replace (splice (fill 0 512) 0 b) with (info_block info ++ []).
  2:{ rewrite app_nil_r, Hb1. unfold splice. change (Z.to_nat 0) with O. rewrite take_0. cbn [app Nat.add].
      rewrite drop_ge; [by rewrite app_nil_r|]. pose proof (info_block_length info). rewrite fill_length. lia. }
  rewrite key_info_roundtrip by done. cbn [mbind option_bind key_infos set_card].
  rewrite aset_in by lia. cbn [mbind option_bind].
  do 3 eexists. split; [done|]. split; [done|]. split; [by right|done].
Qed.

(** ** The check at start on a host without errors *)

Context (Hclean : clean_host M).

(** The two copies on a medium, with the information recorded for each. *)
Definition copies m (i0 i1 : aml_key_info) : Prop :=
  info_ok i0 /\ info_ok i1 /\ info_at m 0 = info_block i0 /\ info_at m 1 = info_block i1.

(** Copy with content [b] and information [i] passes the check. *)
Definition accepted (b : bytes) (i : aml_key_info) : bool :=
  (area_sum b =? ki_checksum i) && negb (ki_magic i =? 0).

Lemma same_medium m m' :
  (forall a, sector m' a = sector m a) -> (forall i, area m' i = area m i) /\ (forall i, info_at m' i = info_at m i).
Proof.
  intros H. split; intros i; [|apply H]. apply read_area_ext. intros a _. apply H.
Qed.

Lemma check_copy_spec s buf i vf info :
  key_state_ok s -> zlen buf = EMMC_KEYAREA_SIZE -> 0 <= i <= 1 -> info_ok info ->
  info_at (media (card s)) i = info_block info ->
  exists m', check_copy RESULT_FAIL RESULT_UNSUP_HOST reserve_off kmalloc s buf i vf
    = Some (if accepted (area (media (card s)) i) info then vf + (i + 1) else vf, area (media (card s)) i,
            mk_emmc_key (set_media (card s) m') (<[Z.to_nat i := info]> (key_infos s))) /\
    (forall a, sector m' a = sector (media (card s)) a).
Proof.
  intros Hok Hl Hi Hio Hinfo. pose proof Hok as [[(Hbit & _) _] Hlen].
  unfold check_copy. rewrite Hbit, area_blocks.
  destruct (read_copy_spec s buf i Hok Hl Hi) as (r1 & b1 & m1 & -> & Hs1 & Hl1 & Hd1 & Hc1).
  rewrite (Hc1 Hclean) in *. rewrite (Hd1 eq_refl) in *. cbn [mbind option_bind].
  change (c_true 0) with false. cbv iota.
  destruct (same_medium _ _ Hs1) as [Ha1 Hi1].
  destruct (verify_spec (set_card s (set_media (card s) m1)) (area (media (card s)) i) i info)
    as (r2 & m2 & infos & -> & Hs2 & _ & Hc2); [exact Hok|done|done|done|cbn [media card set_card set_media]; by rewrite Hi1|].
  destruct (Hc2 Hclean) as [-> ->]. cbn [mbind option_bind key_infos set_card].
  rewrite aget_lookup by lia. rewrite list_lookup_insert_eq by lia. cbn [mbind option_bind].
  exists m2. split; [|intros a; rewrite Hs2; apply Hs1].
  unfold accepted. cbn [card set_card]. by destruct (area_sum _ =? _).
Qed.

Lemma update_key_info_spec s buf i0 i1 :
  key_state_ok s -> zlen buf = EMMC_KEYAREA_SIZE -> copies (media (card s)) i0 i1 ->
  let m := media (card s) in
  exists m', update_key_info RESULT_FAIL RESULT_UNSUP_HOST reserve_off kmalloc s buf
    = Some ((if accepted (area m 1) i1 then 2 else 0) + (if accepted (area m 0) i0 then 1 else 0), area m 0,
            mk_emmc_key (set_key_stamp (set_media (card s) m')
                           (if ki_stamp i1 <? ki_stamp i0 then ki_stamp i0 else ki_stamp i1)) [i0; i1]) /\
    (forall a, sector m' a = sector m a).
Proof.
  intros Hok Hl (Ho0 & Ho1 & Hn0 & Hn1). cbn zeta. unfold update_key_info.
  destruct (check_copy_spec s buf 1 0 i1) as (m1 & -> & Hs1); [done|done|lia|done|done|].
  cbn [mbind option_bind]. change (Z.to_nat 1) with 1%nat.
  destruct (same_medium _ _ Hs1) as [Ha1 Hi1].
  destruct (check_copy_spec (mk_emmc_key (set_media (card s) m1) (<[1%nat := i1]> (key_infos s))) (area (media (card s)) 1) 0
              (if accepted (area (media (card s)) 1) i1 then 0 + (1 + 1) else 0) i0) as (m2 & -> & Hs2);
    [split; [apply Hok|cbn; rewrite length_insert; apply Hok]|apply area_length|lia|done|cbn [card media set_media]; by rewrite Hi1|].
  cbn [mbind option_bind card media set_media]. rewrite Ha1. change (Z.to_nat 0) with O. cbn [key_infos].
  destruct Hok as [_ Hlen]. destruct (key_infos s) as [|x0 [|x1 [|]]]; try done. cbn [mbind option_bind].
  exists m2. split; [|intros a; rewrite Hs2; apply Hs1].
  destruct (accepted (area (media (card s)) 1) i1), (accepted (area (media (card s)) 0) i0); done.
Qed.

Lemma write_one_clean s buf v info :
  key_state_ok s -> 1 <= v <= 2 -> zlen buf = EMMC_KEYAREA_SIZE -> aget (key_infos s) (v - 1) = Some info ->
  exists s', emmc_write_one_key RESULT_FAIL RESULT_UNSUP_HOST reserve_off kmalloc s buf v = Some (0, s') /\
    key_infos s' = key_infos s /\
    area (media (card s')) (v mod 2) = buf /\ info_at (media (card s')) (v mod 2) = info_block info /\
    (forall j, 0 <= j <= 1 -> j <> v mod 2 -> area (media (card s')) j = area (media (card s)) j /\
       info_at (media (card s')) j = info_at (media (card s)) j).
Proof.
  intros [Hc Hlen] Hv Hl Hinfo. pose proof (Z.mod_pos_bound v 2 ltac:(lia)).
  destruct (write_one_spec s buf v info) as (ret & m' & k & -> & _ & Hout & Hin & Hcl); [done|done|lia|done|done|].
  rewrite (Hcl Hclean) in *. destruct (Hin eq_refl) as [H1 H2]. eexists. split; [done|]. split; [done|].
  cbn [card set_card media set_claims set_media]. split; [rewrite H1; apply take_ge; lia|]. split; [done|].
  intros j Hj Hne. apply (area_frame (media (card s)) m' j (v mod 2)); [exact Hout|lia..|done].
Qed.

Lemma write_invalid_clean s buf v info :
  key_state_ok s -> 1 <= v <= 2 -> zlen buf = EMMC_KEYAREA_SIZE -> aget (key_infos s) (v - 1) = Some info ->
  exists b s', write_invalid_key RESULT_FAIL RESULT_UNSUP_HOST reserve_off kmalloc s buf v = Some (0, b, s') /\
    area (media (card s')) (v mod 2) = area (media (card s)) (v - 1) /\
    info_at (media (card s')) (v mod 2) = info_block info /\
    area (media (card s')) (v - 1) = area (media (card s)) (v - 1) /\
    info_at (media (card s')) (v - 1) = info_at (media (card s)) (v - 1).
Proof.
  intros Hok Hv Hl Hinfo. unfold write_invalid_key.
  rewrite (proj2 (Z.ltb_ge 2 v)), (proj2 (Z.ltb_ge v 1)) by lia. simpl (_ || _). cbv iota.
  destruct Hok as [Hc Hlen].
  destruct (read_valid_spec s buf v Hc Hv Hl) as (r & b & m1 & -> & Hs1 & Hl1 & Hd1 & Hc1).
  rewrite (Hc1 Hclean) in *. rewrite (Hd1 eq_refl) in *. cbn [mbind option_bind].
  change (c_true 0) with false. cbv iota. destruct (same_medium _ _ Hs1) as [Ha1 Hi1].
  destruct (write_one_clean (set_card s (set_media (card s) m1)) (area (media (card s)) (v - 1)) v info)
    as (s' & -> & _ & H1 & H2 & H3); [done|done|done|done|].
  cbn [mbind option_bind]. do 2 eexists. split; [done|]. split; [done|]. split; [done|].
  destruct (H3 (v - 1)) as [H4 H5]; [lia| |].
  { assert (v = 1 \/ v = 2) as [->| ->] by lia; done. }
  cbn [card set_card media set_media] in H4, H5. by rewrite H4, H5, Ha1, Hi1.
Qed.
End Spec.

(** ** The properties of the key area *)

Section Claims.
Context {M : Type} {host : MmcHost M} {laws : MmcLaws M}.
Context (RESULT_FAIL RESULT_UNSUP_HOST reserve_off : Z) (kmalloc : Z -> bool).
Implicit Types (s : emmc_key_state M).

(** C33. Each half of [emmc_key_write] leaves the other copy alone, whatever becomes of
    its requests.  A first half that fails is the end of the call, with copy 0 and its
    information as they were; after one that returns 0 copy 1 has the buffer and the
    information that belongs to it, and keeps them whatever the second half does.  A
    write that returns 0 leaves both copies so, and the host as often claimed as
    before. *)
Theorem emmc_key_write_copies s buf
  (HF : RESULT_FAIL <> 0) (HU : RESULT_UNSUP_HOST <> 0) (Hkm : kmalloc 512 = true)
  (Hok : key_state_ok reserve_off s) (Hl : zlen buf = EMMC_KEYAREA_SIZE) :
  exists r1 s1 ret s',
    write_copy RESULT_FAIL RESULT_UNSUP_HOST reserve_off kmalloc s buf EMMC_KEYAREA_SIZE 1 = Some (r1, s1) /\
    area reserve_off (media (card s1)) 0 = area reserve_off (media (card s)) 0 /\
    info_at reserve_off (media (card s1)) 0 = info_at reserve_off (media (card s)) 0 /\
    emmc_key_write RESULT_FAIL RESULT_UNSUP_HOST reserve_off kmalloc s buf EMMC_KEYAREA_SIZE = Some (ret, s') /\
    key_state_ok reserve_off s' /\
    (r1 <> 0 -> ret = r1 /\ s' = s1) /\
    (r1 = 0 -> area reserve_off (media (card s1)) 1 = buf /\ info_at reserve_off (media (card s1)) 1 = info_block (new_info s buf) /\
       area reserve_off (media (card s')) 1 = buf /\ info_at reserve_off (media (card s')) 1 = info_block (new_info s buf)) /\
    (ret = 0 -> claims (card s') = claims (card s) /\
       forall j, 0 <= j <= 1 -> area reserve_off (media (card s')) j = buf /\
         info_at reserve_off (media (card s')) j = info_block (new_info s buf)).
Proof.
  destruct (key_write_spec _ _ reserve_off kmalloc HF HU Hkm s buf Hok Hl) as (ret & s' & Hw & Hok' & Hd).
  destruct (write_copy_spec _ _ reserve_off kmalloc HF HU Hkm s buf 1) as (r1 & s1 & Hw1 & Hok1 & _ & Hk1 & Ho1 & Hd1); [done|done|lia|].
  destruct (area_frame reserve_off (media (card s)) (media (card s1)) 0 1 Ho1) as [Ha0 Hi0]; [lia..|].
  exists r1, s1, ret, s'. do 5 (split; [done|]). assert (Hw' := Hw). unfold emmc_key_write in Hw'. rewrite Hw1 in Hw'. cbn [mbind option_bind] in Hw'.
  unfold c_true in Hw'. split; [|split].
  - intros Hr. rewrite (proj2 (Z.eqb_neq r1 0) Hr) in Hw'. cbn in Hw'. by injection Hw' as <- <-.
  - intros ->. cbn in Hw'. destruct (Hd1 eq_refl) as (_ & Ha1 & Hi1). change (1 mod 2) with 1 in *.
    destruct (write_copy_spec _ _ reserve_off kmalloc HF HU Hkm s1 buf 2) as (r2 & s2 & Hw2 & _ & _ & _ & Ho2 & _); [done|done|lia|].
    rewrite Hw2 in Hw'. injection Hw' as <- <-. destruct (area_frame reserve_off (media (card s1)) (media (card s2)) 1 0 Ho2) as [-> ->]; [lia..|]. done.
  - intros Hz. by destruct (Hd Hz) as (_ & H1 & _ & H2).
Qed.

(** The check at start finds both copies as they should be and leaves them alone. *)
Lemma key_init_settled s buf buf2 i
  (HF : RESULT_FAIL <> 0) (HU : RESULT_UNSUP_HOST <> 0) (Hkm : kmalloc 512 = true) (Hcl : clean_host M)
  (Hok : key_state_ok reserve_off s) (Hl2 : zlen buf2 = EMMC_KEYAREA_SIZE) (Hio : info_ok i) (Hacc : accepted buf i = true)
  (Hboth : forall j, 0 <= j <= 1 -> area reserve_off (media (card s)) j = buf /\ info_at reserve_off (media (card s)) j = info_block i) :
  exists r s', _key_init RESULT_FAIL RESULT_UNSUP_HOST reserve_off kmalloc buf2 s = Some (r, s') /\ key_state_ok reserve_off s' /\
    (forall j, 0 <= j <= 1 -> area reserve_off (media (card s')) j = buf /\ info_at reserve_off (media (card s')) j = info_block i) /\
    (kmalloc EMMC_KEYAREA_SIZE = true -> r = 0 /\ key_stamp (card s') = ki_stamp i).
Proof.
  unfold _key_init. destruct (kmalloc EMMC_KEYAREA_SIZE) eqn:Hka; simpl negb; cbv iota; [|by exists (- ENOMEM), s].
  destruct (Hboth 0 ltac:(lia)) as [Ha0 Hn0], (Hboth 1 ltac:(lia)) as [Ha1 Hn1].
  destruct (update_key_info_spec _ _ reserve_off kmalloc HF HU Hkm Hcl s buf2 i i) as (m' & -> & Hs); [done|done|done|].
  destruct (same_medium reserve_off _ _ Hs) as [Ha Hi'].
  cbn [mbind option_bind card]. rewrite Ha0, Ha1, Hacc. change (2 + 1) with 3. simpl (3 =? _). cbv iota. rewrite Z.ltb_irrefl.
  unfold update_old_key. cbn [key_infos]. change (aget [i; i] 0) with (Some i). change (aget [i; i] 1) with (Some i).
  cbn [mbind option_bind]. unfold stamp_after. rewrite Z.sub_diag. change (s32 0 <? 0) with false. cbv iota.
  cbn [mbind option_bind]. eexists 0, _. split; [done|]. split; [split; [exact (proj1 Hok)|done]|]. split; [|done].
  intros j Hj. cbn [card set_key_stamp set_media media]. rewrite Ha, Hi'. by apply Hboth.
Qed.
Lemma key_check_total i : keyarea_phy_size i = EMMCKEY_AREA_PHY_SIZE + 512 * 2 -> is_Some (aml_emmc_key_check kmalloc i).
Proof.
  intros E. unfold aml_emmc_key_check. rewrite E. change (u8 ((EMMCKEY_AREA_PHY_SIZE + 512 * 2) / EMMC_KEYAREA_SIZE)) with 2.
  change (EMMC_KEYAREA_COUNT <? 2) with false. cbv iota. change (S (Z.to_nat 2)) with 3%nat. unfold key_check_loop.
  destruct (kmalloc 24); cbn; by eexists.
Qed.
(** The initialisation of the key area on a card whose copies are so. *)
Lemma emmc_init_settled c k buf buf2 i si sty
  (HF : RESULT_FAIL <> 0) (HU : RESULT_UNSUP_HOST <> 0) (Hkm : kmalloc 512 = true) (Hcl : clean_host M)
  (Hc : key_card reserve_off c) (Hk : length (key_infos (device k)) = 2%nat) (Hl2 : zlen buf2 = EMMC_KEYAREA_SIZE) (Hio : info_ok i) (Hacc : accepted buf i = true)
  (Hboth : forall j, 0 <= j <= 1 -> area reserve_off (media c) j = buf /\ info_at reserve_off (media c) j = info_block i) :
  exists e k1, emmc_key_init RESULT_FAIL RESULT_UNSUP_HOST reserve_off kmalloc buf2 si sty c k = Some (e, k1) /\
    (e = 0 -> key_state_ok reserve_off (device k1) /\ area reserve_off (media (card (device k1))) 0 = buf).
Proof.
  unfold emmc_key_init. cbv zeta. destruct (negb (kmalloc si)); [by eexists _, _|]. destruct (negb (kmalloc sty)); [by eexists _, _|].
  rewrite (proj2 (Z.ltb_ge reserve_off 0)) by apply Hc.
  destruct (key_init_settled (set_card (device k) c) buf buf2 i HF HU Hkm Hcl) as (r & s' & -> & Hok & Hs & _); [by split|done..|].
  cbn [mbind option_bind]. match goal with |- context [aml_emmc_key_check _ ?x] => destruct (key_check_total x eq_refl) as [[e info] ->] end.
  cbn [mbind option_bind]. assert (He : c_true e = true -> e <> 0) by (unfold c_true; destruct (Z.eqb_spec e 0); done).
  destruct (c_true e) eqn:Ee; [eexists _, _; split; [done|]; intros ->; by destruct He|].
  unfold register_unifykey_types. cbn [storage_type]. change (c_true (is_valid_unifykey_storage_type UNIFYKEY_STORAGE_TYPE_EMMC)) with true. cbn [negb].
  case_goal; cbn [c_true]; eexists _, _; (split; [reflexivity|]); [done|]. intros _. split; [exact Hok|]. by destruct (Hs 0 ltac:(lia)).
Qed.

(** C6. Keys written through the normal store survive a restart on the eMMC.  The key
    area meets the contract of the storage layer; a key accepted by
    [_amlkey_write_normal] is on the card, and when the card starts again, with
    nothing in RAM, through [emmc_key_init] and the recovery of [_key_init] it does, the
    store of that boot finds it byte for byte, and every other key as it was.  (On a
    host whose requests succeed while it starts, the recovery has nothing to do.) *)
Theorem emmc_key_persists (digest : bytes -> Z + bytes) (kmem : Z -> bool) (uninit : Z -> bytes)
    (st : storage_key_state (emmc_key_state M)) nm buffer len attr
  (HF : RESULT_FAIL <> 0) (HU : RESULT_UNSUP_HOST <> 0) (Hkm : kmalloc 512 = true)
  (Hd : forall d, exists h, digest d = inr h /\ length h = 32%nat)
  (Hu : forall n, length (uninit n) = Z.to_nat n) (Hk : forall n, 0 < n -> kmem n = true)
  (Hrun : running (laws := emmc_storage_laws _ _ reserve_off kmalloc HF HU Hkm) _ _ EMMC_KEYAREA_SIZE digest st)
  (Hnm : zlen nm <= 80) (Hl : 0 < len < 2 ^ 30) (Hb : len <= zlen buffer)
  (Ha : in_u32 attr) (Hs : Z.land attr OBJ_ATTR_SECURE = 0) :
  exists ret st', _amlkey_write_normal digest kmem uninit st (Some nm) (Some buffer) len attr = Some (ret, st') /\
    (ret = 0 \/ ret = len /\
     (clean_host M -> forall c k si sty buf0, media c = media (card (device st')) -> key_card reserve_off c ->
        length (key_infos (device k)) = 2%nat -> zlen buf0 = EMMC_KEYAREA_SIZE ->
      exists e k1, emmc_key_init RESULT_FAIL RESULT_UNSUP_HOST reserve_off kmalloc buf0 si sty c k = Some (e, k1) /\
       (e = 0 ->
        forall st0, booted (laws := emmc_storage_laws _ _ reserve_off kmalloc HF HU Hkm) _ _ EMMC_KEYAREA_SIZE st0 ->
          device st0 = device k1 ->
        exists r st1, _amlkey_init_normal digest kmem st0 = Some (r, st1) /\
         (r = 0 -> lookup_key (keys (nk st1)) nm = Some (take (Z.to_nat len) buffer) /\
            forall nm', nm' <> nm -> lookup_key (keys (nk st1)) nm' = lookup_key (keys (nk st)) nm')))).
Proof.
  set (L := emmc_storage_laws _ _ reserve_off kmalloc HF HU Hkm) in *.
  assert (HL : 1024 < EMMC_KEYAREA_SIZE < 2 ^ 31) by (unfold EMMC_KEYAREA_SIZE; lia).
  destruct (write_normal_full _ _ _ digest kmem uninit Hd Hu HL st nm buffer len attr)
    as (ret & st' & Hw & Hrun' & Hres); [done..|].
  exists ret, st'. split; [done|]. destruct Hres as [Hr | (Hr & (blk & Hblk & Hdw) & _ & Hlk)]; [by left|right].
  split; [done|]. intros Hcl c k si sty buf0 Hm Hcard Hk2 Hl0.
  assert (Hbl : zlen blk = EMMC_KEYAREA_SIZE) by (by destruct Hblk as (h & ? & _)).
  assert (Hst : key_state_ok reserve_off (device st)) by apply Hrun.
  destruct (key_write_spec _ _ reserve_off kmalloc HF HU Hkm (device st) blk Hst Hbl) as (rw & sw & Hw2 & _ & Hd2).
  rewrite Hdw in Hw2. injection Hw2 as <- <-. destruct (Hd2 eq_refl) as (_ & _ & _ & Hboth).
  destruct (emmc_init_settled c k blk buf0 (new_info (device st) blk) si sty HF HU Hkm Hcl Hcard Hk2 Hl0) as (e & k1 & Hini & Hset).
  { apply new_info_ok. } { unfold accepted, new_info. cbn [ki_checksum ki_magic]. by rewrite Z.eqb_refl. } { by rewrite Hm. }
  exists e, k1. split; [done|]. intros He st0 Hb0 Hd0. destruct (Hset He) as [Hok1 Ha1].
  assert (Hdev : device_holds (emmc_key_read RESULT_FAIL RESULT_UNSUP_HOST reserve_off) EMMC_KEYAREA_SIZE digest (device st0) (keys (nk st'))).
  { rewrite Hd0. intros b0 b1 n d' Hbz Hrd. destruct (key_read_spec _ _ reserve_off HF HU (device k1) b0 Hok1 Hbz) as (r & b' & m' & Hr1 & _ & _ & Hb1).
    rewrite Hrd in Hr1. injection Hr1 as <- <- _ _. by rewrite Hb1, Ha1. }
  destruct (init_normal_lemma _ _ _ digest kmem Hk HL st0 (keys (nk st')) Hb0 Hdev) as (r & st1 & b1 & d' & Hi & _ & Hfin);
    [by eapply running_nk|]. exists r, st1. split; [done|]. intros Hr0. destruct (Hfin Hr0) as [_ H].
  assert (Hkeys : keys_ok digest (keys (nk st'))) by (by eapply running_nk).
  split; [|intros nm' Hne]; rewrite H, (lookup_key_reloaded digest), Hlk by done; [by rewrite decide_True|by rewrite decide_False].
Qed.

(** When exactly one copy passes the check at start, the other is rewritten from
    it: both then hold its content and its information. *)
Theorem key_init_repairs s buf i0 i1
  (HF : RESULT_FAIL <> 0) (HU : RESULT_UNSUP_HOST <> 0)
  (Hkm : kmalloc 512 = true) (Hka : kmalloc EMMC_KEYAREA_SIZE = true) (Hcl : clean_host M)
  (Hok : key_state_ok reserve_off s) (Hl : zlen buf = EMMC_KEYAREA_SIZE)
  (Hc : copies reserve_off (media (card s)) i0 i1) (good bad : Z) (Hgb : good = 0 /\ bad = 1 \/ good = 1 /\ bad = 0)
  (Hg : accepted (area reserve_off (media (card s)) good) (if good =? 0 then i0 else i1) = true)
  (Hb : accepted (area reserve_off (media (card s)) bad) (if bad =? 0 then i0 else i1) = false) :
  exists s', _key_init RESULT_FAIL RESULT_UNSUP_HOST reserve_off kmalloc buf s = Some (0, s') /\
    forall j, 0 <= j <= 1 ->
      area reserve_off (media (card s')) j = area reserve_off (media (card s)) good /\
      info_at reserve_off (media (card s')) j = info_at reserve_off (media (card s)) good.
Proof.
  unfold _key_init. rewrite Hka. simpl negb. cbv iota.
  destruct (update_key_info_spec _ _ reserve_off kmalloc HF HU Hkm Hcl s buf i0 i1 Hok Hl Hc) as (m' & -> & Hs).
  destruct (same_medium reserve_off _ _ Hs) as [Ha Hi]. cbn [mbind option_bind].
  set (s1 := mk_emmc_key _ [i0; i1]). assert (Hok1 : key_state_ok reserve_off s1) by (split; [apply Hok|done]).
  destruct Hc as (_ & _ & Hn0 & Hn1). pose proof (area_length reserve_off (media (card s)) 0) as Hal.
  destruct Hgb as [[-> ->]|[-> ->]]; simpl (_ =? 0) in Hg, Hb; cbv iota in Hg, Hb; rewrite Hg, Hb; cbn [Z.add Z.eqb].
  - simpl (1 =? 1). cbv iota.
    destruct (write_invalid_clean _ _ reserve_off kmalloc HF HU Hkm Hcl s1 (area reserve_off (media (card s)) 0) 1 i0)
      as (b & s' & -> & H1 & H2 & H3 & H4); [done|lia|done|done|]. cbn [mbind option_bind].
    exists s'. split; [done|]. change (1 mod 2) with 1 in *. change (1 - 1) with 0 in *.
    unfold s1 in *. cbn [card set_key_stamp set_media media] in *. rewrite Ha, ?Hi, Hn0 in *.
    intros j Hj. assert (j = 0 \/ j = 1) as [->| ->] by lia; done.
  - simpl (2 =? 1). simpl (2 =? 2). cbv iota.
    destruct (write_invalid_clean _ _ reserve_off kmalloc HF HU Hkm Hcl s1 (area reserve_off (media (card s)) 0) 2 i1)
      as (b & s' & -> & H1 & H2 & H3 & H4); [done|lia|done|done|]. cbn [mbind option_bind].
    exists s'. split; [done|]. change (2 mod 2) with 0 in *. change (2 - 1) with 1 in *.
    unfold s1 in *. cbn [card set_key_stamp set_media media] in *. rewrite Ha, ?Hi, Hn1 in *.
    intros j Hj. assert (j = 0 \/ j = 1) as [->| ->] by lia; done.
Qed.

(** When both copies pass the check and their stamps differ, the recovery does
    not bring the older one up to date.  If copy 1 is the newer, both stay as they
    are; if copy 0 is the newer, its content goes to copy 1 but under copy 1's
    old information, so that copy 1 no longer passes the check unless the two
    checksums agree. *)
Theorem key_init_stale s buf i0 i1
  (HF : RESULT_FAIL <> 0) (HU : RESULT_UNSUP_HOST <> 0)
  (Hkm : kmalloc 512 = true) (Hka : kmalloc EMMC_KEYAREA_SIZE = true) (Hcl : clean_host M)
  (Hok : key_state_ok reserve_off s) (Hl : zlen buf = EMMC_KEYAREA_SIZE)
  (Hc : copies reserve_off (media (card s)) i0 i1)
  (H0 : accepted (area reserve_off (media (card s)) 0) i0 = true)
  (H1 : accepted (area reserve_off (media (card s)) 1) i1 = true) :
  let m := media (card s) in
  exists s', _key_init RESULT_FAIL RESULT_UNSUP_HOST reserve_off kmalloc buf s = Some (0, s') /\
    let m' := media (card s') in
    area reserve_off m' 0 = area reserve_off m 0 /\ info_at reserve_off m' 0 = info_at reserve_off m 0 /\
    info_at reserve_off m' 1 = info_at reserve_off m 1 /\
    (stamp_after (ki_stamp i1) (ki_stamp i0) = true -> area reserve_off m' 1 = area reserve_off m 1) /\
    (stamp_after (ki_stamp i0) (ki_stamp i1) = true -> stamp_after (ki_stamp i1) (ki_stamp i0) = false ->
       area reserve_off m' 1 = area reserve_off m 0 /\
       (ki_checksum i0 <> ki_checksum i1 -> accepted (area reserve_off m' 1) i1 = false)).
Proof.
  cbn zeta. unfold _key_init. rewrite Hka. simpl negb. cbv iota.
  destruct (update_key_info_spec _ _ reserve_off kmalloc HF HU Hkm Hcl s buf i0 i1 Hok Hl Hc) as (m' & -> & Hs).
  destruct (same_medium reserve_off _ _ Hs) as [Ha Hi]. cbn [mbind option_bind].
  rewrite H0, H1. change (2 + 1) with 3. simpl (3 =? _). cbv iota.
  set (s1 := mk_emmc_key _ [i0; i1]). destruct Hc as (_ & _ & Hn0 & Hn1).
  pose proof (area_length reserve_off (media (card s)) 0) as Hal.
  unfold update_old_key. change (aget (key_infos s1) 0) with (Some i0). change (aget (key_infos s1) 1) with (Some i1).
  cbn [mbind option_bind].
  assert (Hok1 : forall i j, key_state_ok reserve_off (set_infos s1 [i; j])) by (split; [apply Hok|done]).
  destruct (stamp_after (ki_stamp i1) (ki_stamp i0)) eqn:E1.
  - destruct (write_one_clean _ _ reserve_off kmalloc HF HU Hkm Hcl (set_infos s1 [i0; i0]) (area reserve_off (media (card s)) 0) 2 i0)
      as (s' & -> & Hk & Hw1 & Hw2 & Hw3); [done|lia|done|done|].
    cbn [mbind option_bind]. change (c_true 0) with false. cbv iota. rewrite Hk. cbn [set_infos key_infos].
    cbn [mbind option_bind]. eexists. split; [done|]. change (2 mod 2) with 0 in *.
    destruct (Hw3 1) as [Hw4 Hw5]; [lia|lia|]. unfold s1 in *.
    cbn [card set_card set_infos set_key_stamp set_media media] in *. rewrite Hw1, Hw2, Hw4, Hw5, Ha, Hi, Hn0. done.
  - destruct (stamp_after (ki_stamp i0) (ki_stamp i1)) eqn:E0.
    + destruct (write_one_clean _ _ reserve_off kmalloc HF HU Hkm Hcl (set_infos s1 [i1; i1]) (area reserve_off (media (card s)) 0) 1 i1)
        as (s' & -> & Hk & Hw1 & Hw2 & Hw3); [done|lia|done|done|].
      cbn [mbind option_bind]. change (c_true 0) with false. cbv iota. rewrite Hk. cbn [set_infos key_infos].
      cbn [mbind option_bind]. eexists. split; [done|]. change (1 mod 2) with 1 in *.
      destruct (Hw3 0) as [Hw4 Hw5]; [lia|lia|]. unfold s1 in *.
      cbn [card set_card set_infos set_key_stamp set_media media] in *. rewrite Hw1, Hw2, Hw4, Hw5, Ha, Hi, Hn1.
      split_and!; [done..|]. intros _ _. split; [done|]. intros Hne. unfold accepted in *. b2p.
      apply andb_false_intro1. apply Z.eqb_neq. congruence.
    + cbn [mbind option_bind]. exists s1. unfold s1. cbn [card set_key_stamp set_media media]. rewrite !Ha, !Hi. done.
Qed.

(** After a write that returned 0, the check of the next start accepts both
    copies, finds their stamps equal and leaves them alone, and goes on from the
    stamp that was written. *)
Theorem key_init_after_write s buf buf2
  (HF : RESULT_FAIL <> 0) (HU : RESULT_UNSUP_HOST <> 0)
  (Hkm : kmalloc 512 = true) (Hka : kmalloc EMMC_KEYAREA_SIZE = true) (Hcl : clean_host M)
  (Hok : key_state_ok reserve_off s) (Hl : zlen buf = EMMC_KEYAREA_SIZE) (Hl2 : zlen buf2 = EMMC_KEYAREA_SIZE) s1
  (Hw : emmc_key_write RESULT_FAIL RESULT_UNSUP_HOST reserve_off kmalloc s buf EMMC_KEYAREA_SIZE = Some (0, s1))
  infos (Hi : length infos = 2%nat) :
  exists s', _key_init RESULT_FAIL RESULT_UNSUP_HOST reserve_off kmalloc buf2 (mk_emmc_key (card s1) infos) = Some (0, s') /\
    key_stamp (card s') = u32 (key_stamp (card s) + 1) /\
    forall j, 0 <= j <= 1 -> area reserve_off (media (card s')) j = buf /\
      info_at reserve_off (media (card s')) j = info_block (new_info s buf).
Proof.
  destruct (key_write_spec _ _ reserve_off kmalloc HF HU Hkm s buf Hok Hl) as (r & s2 & Hw2 & [Hok2 _] & Hd).
  rewrite Hw in Hw2. injection Hw2 as <- <-. destruct (Hd eq_refl) as (_ & _ & _ & Hboth).
  destruct (key_init_settled (mk_emmc_key (card s1) infos) buf buf2 (new_info s buf) HF HU Hkm Hcl) as (r & s' & E & _ & Hs & Hr);
    [done|done|apply new_info_ok|unfold accepted, new_info; cbn [ki_checksum ki_magic]; by rewrite Z.eqb_refl|done|].
  destruct (Hr Hka) as [-> Hstamp]. exists s'. done.
Qed.

(** A transfer that fails while a copy is written leaves the host claimed. *)
Theorem emmc_write_leaks_claim s buf v info
  (Hkm : kmalloc 512 = true) (Hv : 1 <= v <= 2) (Hl : zlen buf = EMMC_KEYAREA_SIZE)
  (Hc : key_card reserve_off (card s)) (Hi : aget (key_infos s) (v - 1) = Some info)
  (Hbad : bad_writes (M := M)) :
  exists s', emmc_write_one_key RESULT_FAIL RESULT_UNSUP_HOST reserve_off kmalloc s buf v = Some (-110, s') /\
    claims (card s') = claims (card s) + 1.
Proof.
  destruct Hc as (Hu & Hr & Ha & Hb). pose proof Hu as (Hbit & Hba & Hsd & Hsec & Hp).
  pose proof (base_range reserve_off Hr Ha) as Hbr. pose proof (base_eq reserve_off Ha) as Hbe.
  pose proof (Z.mod_pos_bound v 2 ltac:(lia)) as Hm.
  set (i := v mod 2) in *.
  unfold emmc_write_one_key. rewrite Hkm. simpl (negb true). cbv iota. rewrite Hbit, area_blocks, Hi. fold i.
  cbn [mbind option_bind]. rewrite info_block_put. cbn [mbind option_bind].
  rewrite (u64_small (reserve_off + EMMCKEY_RESERVE_OFFSET)) by (unfold EMMCKEY_RESERVE_OFFSET; lia).
  rewrite Hbe.
  replace (512 * base reserve_off + i * EMMC_KEYAREA_SIZE) with (512 * (base reserve_off + 512 * i))
    by (unfold EMMC_KEYAREA_SIZE; lia).
  rewrite !u64_small by (unfold EMMC_KEYAREA_SIZE; lia). rewrite shiftr_blocks.
  destruct (write_chunks_bad RESULT_FAIL RESULT_UNSUP_HOST (mmc_claim_host (card s)) (base reserve_off + 512 * i) buf Hbad)
    as [m' ->]; [done|lia|cbn [sectors mmc_claim_host set_claims]; lia|lia|].
  cbn [mbind option_bind]. change (c_true (-110)) with true. cbv iota. eexists. split; done.
Qed.
End Claims.

(** ** Witnesses *)

Definition big_card (d : disk) : mmc_card disk := mk_card 9 0 0 20000 true false 5 0 d.

(** The reserved partition at 4 MiB. *)
Definition off4 : Z := 4 * 1024 * 1024.
Definition boot_key (d : disk) : emmc_key_state disk :=
  mk_emmc_key (big_card d) [mk_key_info 0 0 0; mk_key_info 0 0 0].

Lemma boot_key_ok d : key_state_ok off4 (boot_key d).
Proof. split; [|done]. repeat split; vm_compute; congruence. Qed.

Definition zeros_area : bytes := fill 0 EMMC_KEYAREA_SIZE.
Lemma zeros_length : zlen zeros_area = EMMC_KEYAREA_SIZE.
Proof. unfold zeros_area. rewrite fill_length. unfold EMMC_KEYAREA_SIZE. lia. Qed.

Lemma disk_clean : clean_host disk.
Proof. intros m mrq. unfold mres_clean. simpl. by destruct (mrq_write mrq). Qed.

Lemma emmc_key_write_copies_witness :
  exists r1 s1 ret s', write_copy 1 2 off4 (fun _ => true) (boot_key zero_disk) zeros_area EMMC_KEYAREA_SIZE 1 = Some (r1, s1) /\
    emmc_key_write 1 2 off4 (fun _ => true) (boot_key zero_disk) zeros_area EMMC_KEYAREA_SIZE = Some (ret, s').
Proof.
  destruct (emmc_key_write_copies 1 2 off4 (fun _ => true) (boot_key zero_disk) zeros_area) as (r1 & s1 & ret & s' & H1 & _ & _ & H2 & _);
    [done|done|done|apply boot_key_ok|apply zeros_length|]. exists r1, s1, ret, s'. split; [exact H1|exact H2].
Defined.

#[local] Strategy transparent [_calc_key_checksum area_sum sum_u32].

Lemma sum_u32_zero n : forall m, (4 * n <= m)%nat -> sum_u32 n (replicate m 0) 0 = Some 0.
Proof.
  induction n as [|n IH]; intros m Hm; [done|].
  destruct m as [|[|[|[|m]]]]; [lia..|]. cbn [sum_u32 replicate]. change (u64 (0 + le_join [0; 0; 0; 0])) with 0.
  apply IH. lia.
Qed.

Lemma zeros_sum : area_sum zeros_area = 0.
Proof.
  unfold area_sum, _calc_key_checksum, zeros_area, fill. rewrite sum_u32_zero; [done|].
  unfold EMMC_KEYAREA_SIZE. change (Z.shiftr (256 * 1024) 2) with 65536. lia.
Qed.

Lemma read_area_zero f a n :
  0 <= n -> (forall x, a <= x < a + n -> f x = replicate 512 0) -> read_area f a n = fill 0 (512 * n).
Proof.
  intros Hn. revert a. pattern n. apply natlike_ind; [done| |done]. clear n Hn. intros n Hn IH a Hf.
  unfold read_area in *. rewrite seqZ_cons by lia. rewrite Z.pred_succ. cbn [map concat].
  rewrite IH by (intros; apply Hf; lia). rewrite Hf by lia. unfold fill. rewrite <- replicate_add. f_equal. lia.
Qed.

(** A blank medium on which the two blocks of information were written. *)
Definition info_disk (i0 i1 : aml_key_info) : disk :=
  let b := base off4 in
  exist _ (disk_put (disk_put (`zero_disk) (b + 1024) 1 (info_block i0)) (b + 1025) 1 (info_block i1))
    (disk_put_length _ _ _ _ (disk_put_length _ _ _ _ (proj2_sig zero_disk))).

Lemma info_disk_area i0 i1 j : 0 <= j <= 1 -> area off4 (info_disk i0 i1) j = zeros_area.
Proof.
  intros Hj. unfold area, zeros_area. assert (EMMC_KEYAREA_SIZE = 512 * 512) as -> by done.
  apply read_area_zero; [lia|]. intros x Hx. unfold sector, disk_mmc_laws, info_disk. cbn [proj1_sig].
  unfold disk_put. rewrite !bool_decide_false by lia. done.
Qed.

Lemma info_disk_info i0 i1 :
  info_at off4 (info_disk i0 i1) 0 = info_block i0 /\ info_at off4 (info_disk i0 i1) 1 = info_block i1.
Proof.
  pose proof (info_block_length i0). pose proof (info_block_length i1).
  unfold info_at, sector, disk_mmc_laws, info_disk. cbn [proj1_sig]. unfold disk_put. split.
  - rewrite bool_decide_false, bool_decide_true by lia. rewrite Z.add_0_r, Z.sub_diag. apply take_ge. simpl. lia.
  - rewrite bool_decide_true by lia. replace (base off4 + 1024 + 1 - (base off4 + 1025)) with 0 by lia. apply take_ge. simpl. lia.
Qed.

#[local] Strategy opaque [_calc_key_checksum area_sum sum_u32].

Lemma info_disk_copies i0 i1 : info_ok i0 -> info_ok i1 -> copies off4 (info_disk i0 i1) i0 i1.
Proof. intros. destruct (info_disk_info i0 i1). done. Qed.

Lemma zeros_accepted i j0 j1 j :
  0 <= j <= 1 -> accepted (area off4 (info_disk j0 j1) j) i = (0 =? ki_checksum i) && negb (ki_magic i =? 0).
Proof. intros Hj. unfold accepted. by rewrite info_disk_area, zeros_sum. Qed.

Lemma key_init_repairs_witness :
  exists s', _key_init 1 2 off4 (fun _ => true) zeros_area (boot_key (info_disk (mk_key_info 0 1 9) (mk_key_info 7 1 9))) = Some (0, s') /\
    info_at off4 (media (card s')) 1 = info_block (mk_key_info 0 1 9).
Proof.
  destruct (key_init_repairs 1 2 off4 (fun _ => true) (boot_key (info_disk (mk_key_info 0 1 9) (mk_key_info 7 1 9))) zeros_area
              (mk_key_info 0 1 9) (mk_key_info 7 1 9)) with (good := 0) (bad := 1) as (s' & H & Hj);
    [done|done|done|done|apply disk_clean|apply boot_key_ok|apply zeros_length
    |apply info_disk_copies; by vm_compute|by left
    |apply (zeros_accepted (mk_key_info 0 1 9)); lia|apply (zeros_accepted (mk_key_info 7 1 9)); lia|].
  exists s'. split; [exact H|]. destruct (Hj 1 ltac:(lia)) as [_ ->]. apply info_disk_info.
Defined.

Lemma key_init_stale_witness :
  exists s', _key_init 1 2 off4 (fun _ => true) zeros_area (boot_key (info_disk (mk_key_info 0 1 9) (mk_key_info 0 2 9))) = Some (0, s') /\
    info_at off4 (media (card s')) 0 = info_block (mk_key_info 0 1 9).
Proof.
  destruct (key_init_stale 1 2 off4 (fun _ => true) (boot_key (info_disk (mk_key_info 0 1 9) (mk_key_info 0 2 9))) zeros_area
              (mk_key_info 0 1 9) (mk_key_info 0 2 9)) as (s' & H & _ & Hi & _);
    [done|done|done|done|apply disk_clean|apply boot_key_ok|apply zeros_length
    |apply info_disk_copies; by vm_compute
    |apply (zeros_accepted (mk_key_info 0 1 9)); lia|apply (zeros_accepted (mk_key_info 0 2 9)); lia|].
  exists s'. split; [exact H|]. rewrite Hi. apply info_disk_info.
Defined.

Lemma key_write_clean s buf :
  key_state_ok off4 s -> zlen buf = EMMC_KEYAREA_SIZE ->
  exists s1, emmc_key_write (M := disk) 1 2 off4 (fun _ => true) s buf EMMC_KEYAREA_SIZE = Some (0, s1).
Proof.
  intros [Hc Hl] Hb. unfold emmc_key_write, write_copy. rewrite calc_area by lia. cbn [mbind option_bind].
  rewrite aset_in by lia. cbn [mbind option_bind].
  destruct (write_one_clean 1 2 off4 (fun _ => true) ltac:(done) ltac:(done) eq_refl disk_clean
              (set_infos s (<[Z.to_nat (1 - 1) := mk_key_info (area_sum buf) (u32 (key_stamp (card s) + 1)) 9]> (key_infos s))) buf 1
              (mk_key_info (area_sum buf) (u32 (key_stamp (card s) + 1)) 9)) as (s1 & Hw1 & Hk1 & _).
  { split; [done|]. cbn [key_infos set_infos]. by rewrite length_insert. }
  { lia. } { done. } { cbn [key_infos set_infos]. rewrite aget_lookup by lia. apply list_lookup_insert_eq. lia. }
  destruct (write_one_spec 1 2 off4 (fun _ => true) ltac:(done) ltac:(done)
              (set_infos s (<[Z.to_nat (1 - 1) := mk_key_info (area_sum buf) (u32 (key_stamp (card s) + 1)) 9]> (key_infos s))) buf 1
              (mk_key_info (area_sum buf) (u32 (key_stamp (card s) + 1)) 9)) as (r & m' & k & Hw1' & _).
  { done. } { lia. } { lia. } { done. } { cbn [key_infos set_infos]. rewrite aget_lookup by lia. apply list_lookup_insert_eq. lia. }
  rewrite Hw1 in Hw1'. injection Hw1' as <- Hs1. rewrite Hw1. cbn [mbind option_bind].
  change (c_true 0) with false. cbv iota. rewrite aset_in by (rewrite Hk1; cbn [key_infos set_infos]; rewrite length_insert; lia).
  cbn [mbind option_bind].
  match goal with |- exists s1, emmc_write_one_key _ _ _ _ ?x _ _ = _ => destruct (write_one_clean 1 2 off4 (fun _ => true) ltac:(done) ltac:(done) eq_refl disk_clean
              x buf 2 (mk_key_info (area_sum buf) (u32 (key_stamp (card s1) + 1)) 9)) as (s2 & Hw2 & _) end.
  { rewrite Hs1. split; [done|]. cbn [key_infos set_infos set_card]. by rewrite !length_insert. }
  { lia. } { done. }
  { cbn [key_infos set_infos]. rewrite aget_lookup by lia. apply list_lookup_insert_eq.
    rewrite Hk1. cbn [key_infos set_infos]. rewrite length_insert. lia. }
  exists s2. exact Hw2.
Qed.

Lemma key_init_after_write_witness :
  exists s1 s', emmc_key_write 1 2 off4 (fun _ => true) (boot_key zero_disk) zeros_area EMMC_KEYAREA_SIZE = Some (0, s1) /\
    _key_init 1 2 off4 (fun _ => true) zeros_area (mk_emmc_key (card s1) [mk_key_info 0 0 0; mk_key_info 0 0 0]) = Some (0, s') /\
    key_stamp (card s') = 6.
Proof.
  destruct (key_write_clean (boot_key zero_disk) zeros_area (boot_key_ok _) zeros_length) as [s1 Hw].
  destruct (key_init_after_write 1 2 off4 (fun _ => true) (boot_key zero_disk) zeros_area zeros_area) with (s1 := s1)
      (infos := [mk_key_info 0 0 0; mk_key_info 0 0 0]) as (s' & H & Hk & _);
    [done|done|done|done|apply disk_clean|apply boot_key_ok|apply zeros_length|apply zeros_length|exact Hw|done|].
  exists s1, s'. split; [exact Hw|]. split; [exact H|exact Hk].
Defined.

Lemma emmc_write_leaks_claim_witness :
  exists s', emmc_write_one_key (host := broken_host) 1 2 off4 (fun _ => true) (boot_key zero_disk) zeros_area 1 = Some (-110, s') /\
    claims (card s') = 1.
Proof.
  apply (emmc_write_leaks_claim (host := broken_host) 1 2 off4 (fun _ => true) (boot_key zero_disk) zeros_area 1 (mk_key_info 0 0 0));
    [done|lia|apply zeros_length|repeat split; vm_compute; congruence|done|done].
Defined.

(** A key layer in operation on an empty key area. *)
Definition emmc_started : storage_key_state (emmc_key_state disk) :=
  mk_storage_key
    (mk_type UNIFYKEY_STORAGE_TYPE_EMMC
       (mk_ops (Some (emmc_key_read 1 2 off4)) (Some (emmc_key_write 1 2 off4 (fun _ => true)))))
    false SECUESTORAGE_WHOLE_SIZE None EMMC_KEYAREA_SIZE EMMC_KEYAREA_SIZE (Some zeros_area)
    (mk_normal_key [] 2 empty_head (mk_enc_head 0 0)) no_share (boot_key zero_disk).

Lemma emmc_key_persists_witness :
  exists ret st', _amlkey_write_normal sum_digest (fun _ => true) zeroed emmc_started (Some [109; 97; 99]) (Some [1; 2; 3]) 3 0
    = Some (ret, st') /\ (ret = 0 \/ ret = 3).
Proof.
  destruct (emmc_key_persists 1 2 off4 (fun _ => true) sum_digest (fun _ => true) zeroed emmc_started [109; 97; 99] [1; 2; 3] 3 0)
    with (HF := ltac:(done) : 1 <> 0) (HU := ltac:(done) : 2 <> 0) (Hkm := eq_refl true) as (ret & st' & H & Hr);
    [apply sum_digest_total|apply zeroed_length|done| |by vm_compute|lia|by vm_compute|by vm_compute|done|].
  - split_and!; [done|done|exists zeros_area; split; [done|apply zeros_length]|done|split; constructor|exact empty_head_ok|apply boot_key_ok].
  - exists ret, st'. split; [exact H|]. destruct Hr as [Hr|[Hr _]]; [left|right]; exact Hr.
Defined.
