(* ===== verification/EmmcDtb.v ===== *)
(** * The device tree area of the eMMC (src/a311d/soc/amlogic/mmc/emmc_partitions.c)

    Two copies of a 256 KiB device tree in the reserved partition, each ending in
    magic, version, timestamp and checksum, and the character device that reads and
    writes them.  The sizes that the kernel configuration and its headers fix
    ([CONFIG_DTB_SIZE], [DTB_CELL_SIZE]) are arguments. *)

From stdpp Require Import base numbers list option.
From S2P Require Import Prelude Mmc EmmcKey.

Definition SZ_1M : Z := 0x00100000.
Definition MMC_DTB_PART_OFFSET : Z := 40 * SZ_1M.
Definition DTB_RESERVE_OFFSET : Z := 4 * SZ_1M.
Definition DTB_BLK_SIZE : Z := 0x200.
Definition DTB_BLK_CNT : Z := 512.
Definition DTB_SIZE : Z := DTB_BLK_CNT * DTB_BLK_SIZE.
Definition DTB_COPIES : Z := 2.

(** [struct aml_dtb_rsv] as its bytes: the offsets of the last four fields. *)
Definition off_magic : Z := DTB_SIZE - 16.
Definition off_version : Z := DTB_SIZE - 12.
Definition off_timestamp : Z := DTB_SIZE - 8.
Definition off_checksum : Z := DTB_SIZE - 4.

(** The sum of the first [n] words, in 32 bits. *)
Fixpoint sum_words32 (n : nat) (b : bytes) (acc : Z) : option Z :=
  match n with
  | O => Some acc
  | S n =>
      match b with
      | b0 :: b1 :: b2 :: b3 :: b => sum_words32 n b (u32 (acc + le_join [b0; b1; b2; b3]))
      | _ => None
      end
  end.

Definition _calc_dtb_checksum (dtb : bytes) : option Z :=
  sum_words32 (Z.to_nat (Z.shiftr (DTB_SIZE - 4) 2)) dtb 0.

(** 0: the checksum is right. *)
Definition _verify_dtb_checksum (dtb : bytes) : option Z :=
  c ← _calc_dtb_checksum dtb;
  stored ← get_u32 dtb off_checksum;
  Some (if c =? stored then 0 else 1).

(** [struct aml_dtb_info] and the other static variables. *)
Record dtb_state (M : Type) := mk_dtb {
  card_dtb : mmc_card M; stamp : list Z; valid : list Z; glb_dtb_buf : option bytes }.
Arguments mk_dtb {M}.
Arguments card_dtb {M}.
Arguments stamp {M}.
Arguments valid {M}.
Arguments glb_dtb_buf {M}.

Section Dtb.
Context {M : Type} {host : MmcHost M}.
Variable RESULT_FAIL RESULT_UNSUP_HOST : Z.
Variable reserve_off : Z.
Variable kmalloc : Z -> bool.
Variable CONFIG_DTB_SIZE DTB_CELL_SIZE : Z.
Implicit Types s : dtb_state M.

Definition with_card s (c : mmc_card M) : dtb_state M := mk_dtb c (stamp s) (valid s) (glb_dtb_buf s).
Definition with_buf s (b : bytes) : dtb_state M := mk_dtb (card_dtb s) (stamp s) (valid s) (Some b).

(** The loops are those of the key area (256 blocks a turn, the second half of
    the buffer from the second turn on). *)
Definition _dtb_write (c : mmc_card M) (blk : Z) (buf : bytes) : option (Z * mmc_card M) :=
  let cnt := Z.shiftr CONFIG_DTB_SIZE (read_blkbits c) in
  '(ret, c) ← write_chunks RESULT_FAIL RESULT_UNSUP_HOST (mmc_claim_host c) blk cnt buf;
  Some (if c_true ret then - EFAULT else 0, mmc_release_host c).

Definition _dtb_read (c : mmc_card M) (blk : Z) (buf : bytes) : option (Z * bytes * mmc_card M) :=
  let cnt := Z.shiftr CONFIG_DTB_SIZE (read_blkbits c) in
  '(ret, buf, c) ← read_chunks RESULT_FAIL RESULT_UNSUP_HOST (fun _ => MAX_TRANS_BLK)
                     (fun cnt => negb (cnt =? 0)) (mmc_claim_host c) blk cnt buf;
  Some (if c_true ret then - EFAULT else 0, buf, mmc_release_host c).

Definition dtb_blk (c : mmc_card M) (cpy : Z) : Z :=
  Z.shiftr (reserve_off + DTB_RESERVE_OFFSET) (read_blkbits c) + cpy * DTB_BLK_CNT.

(** One turn of the loop of [_dtb_init]: the result so far, the number of valid
    copies, the buffer and the state. *)
Definition init_copy s (dtb : bytes) (cpy ret0 : Z) : option (Z * bytes * dtb_state M) :=
  '(ret, dtb, c) ← _dtb_read (card_dtb s) (dtb_blk (card_dtb s) cpy) dtb;
  let s := with_card s c in
  if c_true ret then Some (ret0, dtb, s)
  else
    ret ← _verify_dtb_checksum dtb;
    if ret =? 0 then
      ts ← get_u32 dtb off_timestamp;
      st ← aset (stamp s) cpy ts;
      va ← aset (valid s) cpy 1;
      Some (0, dtb, mk_dtb (card_dtb s) st va (glb_dtb_buf s))
    else Some (ret, dtb, s).

Definition _dtb_init (uninit : bytes) s : option (Z * dtb_state M) :=
  match glb_dtb_buf s, kmalloc CONFIG_DTB_SIZE with
  | None, false => Some (- ENOMEM, s)
  | buf, _ =>
      '(ret, dtb, s) ← init_copy s (default uninit buf) 1 0;
      '(ret, dtb, s) ← init_copy s dtb 0 ret;
      Some (ret, with_buf s dtb)
  end.

(** The timestamp [amlmmc_dtb_write] gives to the next device tree. *)
Definition next_timestamp s : option Z :=
  s0 ← aget (stamp s) 0; s1 ← aget (stamp s) 1;
  v0 ← aget (valid s) 0; v1 ← aget (valid s) 1;
  Some (if v0 + v1 =? 0 then 0
        else if v0 + v1 =? 1 then u32 (1 + (if c_true v0 then s0 else s1))
        else if negb (s0 =? s1) then u32 (1 + (if stamp_after s1 s0 then s1 else s0))
        else u32 (1 + s0)).

Definition amlmmc_dtb_write s (buf : bytes) (len : Z) : option (Z * bytes * dtb_state M) :=
  if CONFIG_DTB_SIZE <? len then Some (- EFAULT, buf, s)
  else
    ts ← next_timestamp s;
    buf ← put_u32 buf off_timestamp ts;
    buf ← put_u32 buf off_version 1;
    buf ← put_u32 buf off_magic 0x00447e41;
    c ← _calc_dtb_checksum buf;
    buf ← put_u32 buf off_checksum c;
    '(r0, c0) ← _dtb_write (card_dtb s) (dtb_blk (card_dtb s) 0) buf;
    '(r1, c1) ← _dtb_write c0 (dtb_blk (card_dtb s) 1) buf;
    Some (Z.lor r0 r1, buf, with_card s c1).

(** The loop of [amlmmc_dtb_read]: one cell a turn, appended to the output. *)
Definition dtb_cell (st : mmc_card M * Z * Z * bytes) : mmc_card M * Z * Z * bytes + option (Z * bytes * mmc_card M) :=
  let '(c, start_blk, blk_cnt, out) := st in
  if negb (blk_cnt =? 0) then
    let n := Z.shiftr DTB_CELL_SIZE (read_blkbits c) in
    let '(ret, got, c) := mmc_read_internal RESULT_FAIL RESULT_UNSUP_HOST c (u32 start_blk) n in
    match store_read (fill 0 DTB_CELL_SIZE) 0 got with
    | None => inr None
    | Some cell =>
        if c_true ret then inr (Some (- EFAULT, out, c))
        else inl (c, start_blk + n, blk_cnt - n, out ++ cell)
    end
  else inr (Some (0, out, c)).

(** Returns the C result and the bytes read into [buf]; the number of turns is
    the number of cells. *)
Definition amlmmc_dtb_read (c : mmc_card M) (buf : bytes) (len : Z) : option (Z * bytes * mmc_card M) :=
  if CONFIG_DTB_SIZE <? len then Some (- EFAULT, buf, c)
  else
    buf ← bput buf 0 (fill 0 len);
    if negb (kmalloc DTB_CELL_SIZE) then Some (- ENOMEM, buf, c)
    else
      let bit := read_blkbits c in
      r ← loop (S (Z.to_nat (CONFIG_DTB_SIZE / DTB_CELL_SIZE))) dtb_cell
            (c, Z.shiftr MMC_DTB_PART_OFFSET bit, Z.shiftr CONFIG_DTB_SIZE bit, []);
      '(ret, out, c) ← r;
      buf ← bput buf 0 out;
      Some (ret, buf, c).

(** The character device: [count] bytes at [ppos].  Returns the number of bytes,
    what the user gets and the new position. *)
Definition mmc_dtb_read s (count ppos : Z) : option (Z * bytes * Z * dtb_state M) :=
  if ppos =? CONFIG_DTB_SIZE then Some (0, [], ppos, s)
  else if CONFIG_DTB_SIZE <=? ppos then Some (- EFAULT, [], ppos, s)
  else
    match glb_dtb_buf s with
    | None => Some (- ENOMEM, [], ppos, s)
    | Some dtb =>
        '(ret, dtb, c) ← amlmmc_dtb_read (mmc_claim_host (card_dtb s)) dtb CONFIG_DTB_SIZE;
        let s := with_buf (with_card s (mmc_release_host c)) dtb in
        if c_true ret then Some (0, [], ppos, s)
        else
          let read_size := if CONFIG_DTB_SIZE <? ppos + count then CONFIG_DTB_SIZE - ppos else count in
          out ← bget dtb ppos read_size;
          Some (read_size, out, ppos + read_size, s)
    end.

Definition mmc_dtb_write s (user : bytes) (count ppos : Z) : option (Z * Z * dtb_state M) :=
  if ppos =? CONFIG_DTB_SIZE then Some (0, ppos, s)
  else if CONFIG_DTB_SIZE <=? ppos then Some (- EFAULT, ppos, s)
  else
    match glb_dtb_buf s with
    | None => Some (- ENOMEM, ppos, s)
    | Some dtb =>
        let s := with_card s (mmc_claim_host (card_dtb s)) in
        let write_size := if CONFIG_DTB_SIZE <? ppos + count then CONFIG_DTB_SIZE - ppos else count in
        src ← bget user 0 write_size;
        dtb ← bput dtb ppos src;
        '(ret, dtb, s) ← amlmmc_dtb_write s dtb CONFIG_DTB_SIZE;
        let s := with_buf (with_card s (mmc_release_host (card_dtb s))) dtb in
        if c_true ret then Some (write_size, ppos, s)
        else Some (write_size, ppos + write_size, s)
    end.

End Dtb.

(** ** The partition table as read from the medium *)

Section ReadTable.
Context {M : Type} {host : MmcHost M}.
Variable RESULT_FAIL RESULT_UNSUP_HOST : Z.
Variable kmalloc : Z -> bool.
(** The header's constants, the size of the table and its layout. *)
Variable MMC_BOOT_PARTITION_SIZE MMC_BOOT_PARTITION_RESERVED sizeof_fmt : Z.
Variable decode_fmt : bytes -> mmc_partitions_fmt.
Variable part_words : partitions -> list Z.
Variable MMC_PARTITIONS_MAGIC : bytes.
Variable MAX_MMC_PART_NUM : Z.

Definition get_reserve_partition_off : Z := s32 (MMC_BOOT_PARTITION_SIZE + MMC_BOOT_PARTITION_RESERVED).

(** [tbl0] is the memory of the table before; returns the C result and the bytes
    of the table. *)
Definition mmc_read_partition_tbl (c : mmc_card M) (tbl0 : bytes) : option (Z * bytes * mmc_card M) :=
  let bit := read_blkbits c in
  let blk_size := Z.shiftl 1 bit in
  let tbl := fill 0 sizeof_fmt in
  if negb (kmalloc blk_size) then Some (- ENOMEM, tbl0, c)
  else if get_reserve_partition_off <? 0 then Some (- EINVAL, tbl, c)
  else
    let start_blk := Z.shiftr get_reserve_partition_off bit in
    let blk_cnt := if blk_size <=? sizeof_fmt then Z.shiftr sizeof_fmt bit else 0 in
    '(ret, tbl, c) ←
      (if blk_size <=? sizeof_fmt then
         let '(ret, got, c) := mmc_read_internal RESULT_FAIL RESULT_UNSUP_HOST c (u32 start_blk) blk_cnt in
         tbl ← store_read tbl 0 got; Some (ret, tbl, c)
       else Some (0, tbl, c));
    if c_true ret then Some (ret, tbl, c)
    else
      let size := sizeof_fmt - Z.shiftl blk_cnt bit in
      '(ret, tbl, c) ←
        (if 0 <? size then
           let '(ret, got, c) := mmc_read_internal RESULT_FAIL RESULT_UNSUP_HOST c (u32 (start_blk + blk_cnt)) 1 in
           if c_true ret then Some (ret, tbl, c)
           else
             buf ← store_read (fill 0 blk_size) 0 got;
             last ← bget buf 0 size;
             tbl ← bput tbl (Z.shiftl blk_cnt bit) last;
             Some (0, tbl, c)
         else Some (0, tbl, c));
      if c_true ret then Some (ret, tbl, c)
      else
        v ← verify_partition_tbl part_words MMC_PARTITIONS_MAGIC MAX_MMC_PART_NUM (decode_fmt tbl);
        Some (v, tbl, c).

End ReadTable.

(** ** The partition table for user space ([emmc_part_table_get]) *)

Section TableGet.
Variable MAX_MMC_PART_NAME_LEN STORE_CODE STORE_CACHE STORE_DATA : Z.
Variable uninit_part : partitions.

(** [strncpy]: the bytes before the NUL, padded with zeros. *)
Definition strncpy (src : bytes) (n : Z) : bytes :=
  let s := take (Z.to_nat n) (c_string src) in s ++ fill 0 (n - zlen s).

Definition copy_part (p : partitions) : partitions :=
  mk_partitions (strncpy (pname p) MAX_MMC_PART_NAME_LEN) (psize p) (poffset p) (pmask_flags p).

(** The entries of one class of storage, in table order. *)
Definition parts_of (flag : Z) (tmp : list partitions) : list partitions :=
  map copy_part (filter (fun p => pmask_flags p = flag) tmp).

(** The last data partition takes the rest of the medium. *)
Definition grow_data (p : partitions) : partitions :=
  if bool_decide (c_string (pname p) = [100; 97; 116; 97])
  then mk_partitions (pname p) (u64 (-1)) (poffset p) (pmask_flags p) else p.

(** The table handed to user space: [MAX_MMC_PART_NUM] entries, those past the
    last one copied with the content the allocation had. *)
Definition emmc_part_table_get (tmp : list partitions) : list partitions :=
  let filled := parts_of STORE_CODE tmp ++ parts_of STORE_CACHE tmp ++ map grow_data (parts_of STORE_DATA tmp) in
  filled ++ replicate (length tmp - length filled) uninit_part.
End TableGet.
