(* ===== verification/EmmcDtbSpec.v ===== *)
(** * Properties of the device tree area (src/a311d/soc/amlogic/mmc/emmc_partitions.c) *)

From stdpp Require Import base numbers list option.
From S2P Require Import Prelude Mmc MmcSpec EmmcKey EmmcKeySpec EmmcDtb.

(** ** The checksum *)

Lemma sum_words32_total n : forall b acc, (4 * n <= length b)%nat -> exists c, sum_words32 n b acc = Some c.
Proof.
  induction n as [|n IH]; intros b acc Hb; [by eexists|].
  destruct b as [|b0 [|b1 [|b2 [|b3 b]]]]; simpl in Hb; try lia. apply IH. simpl in Hb. lia.
Qed.

Lemma sum_words32_range n : forall b acc c, in_u32 acc -> sum_words32 n b acc = Some c -> in_u32 c.
Proof.
  induction n as [|n IH]; intros b acc c Ha H; [by injection H as <-|].
  destruct b as [|b0 [|b1 [|b2 [|b3 b]]]]; try done. eapply IH; [|exact H]. apply u32_range.
Qed.

Lemma sum_words32_take n : forall b b' acc, (4 * n <= length b)%nat ->
  take (4 * n) b = take (4 * n) b' -> sum_words32 n b acc = sum_words32 n b' acc.
Proof.
  induction n as [|n IH]; intros b b' acc Hb H; [done|].
  replace (4 * S n)%nat with (S (S (S (S (4 * n))))) in * by lia.
  destruct b as [|b0 [|b1 [|b2 [|b3 b]]]]; simpl in Hb; try lia.
  destruct b' as [|c0 [|c1 [|c2 [|c3 b']]]]; cbn [take] in H; try discriminate H.
  injection H as E0 E1 E2 E3 H. subst c0 c1 c2 c3. cbn [sum_words32]. apply IH; [lia|done].
Qed.

Definition dtb_sum (b : bytes) : Z := default 0 (_calc_dtb_checksum b).

Lemma calc_dtb b : zlen b = DTB_SIZE -> _calc_dtb_checksum b = Some (dtb_sum b) /\ in_u32 (dtb_sum b).
Proof.
  intros H. unfold dtb_sum, _calc_dtb_checksum, DTB_SIZE, DTB_BLK_CNT, DTB_BLK_SIZE in *.
  change (Z.shiftr (512 * 0x200 - 4) 2) with 65535.
  destruct (sum_words32_total (Z.to_nat 65535) b 0) as [c Hc]; [lia|]. rewrite Hc. split; [done|].
  eapply sum_words32_range; [|exact Hc]. done.
Qed.

(** Storing the checksum does not change it. *)
Lemma dtb_sum_splice b x :
  zlen b = DTB_SIZE -> length x = 4%nat -> dtb_sum (splice b off_checksum x) = dtb_sum b.
Proof.
  intros H Hx. unfold dtb_sum, _calc_dtb_checksum, off_checksum, DTB_SIZE, DTB_BLK_CNT, DTB_BLK_SIZE in *.
  change (Z.shiftr (512 * 0x200 - 4) 2) with 65535. f_equal. symmetry.
  apply sum_words32_take; [lia|]. replace (4 * Z.to_nat 65535)%nat with (Z.to_nat (512 * 512 - 4)) by lia.
  symmetry. apply splice_take. lia.
Qed.
#[local] Strategy opaque [_calc_dtb_checksum dtb_sum sum_words32].

Section Spec.
Context {M : Type} {host : MmcHost M} {laws : MmcLaws M}.
Context (RESULT_FAIL RESULT_UNSUP_HOST reserve_off : Z) (kmalloc : Z -> bool).
Context (HF : RESULT_FAIL <> 0) (HU : RESULT_UNSUP_HOST <> 0).
Implicit Types (s : dtb_state M) (c : mmc_card M) (m : M).

Definition dtb_base : Z := Z.shiftr (reserve_off + DTB_RESERVE_OFFSET) 9.

(** A card that holds both copies inside its capacity. *)
Definition dtb_card c : Prop :=
  user_area c /\ 0 <= reserve_off < 2 ^ 30 /\ dtb_base + 1024 < sectors c.

(** Copy [i] on the medium. *)
Definition dtb_copy m (i : Z) : bytes := read_area (sector m) (dtb_base + 512 * i) 512.

Lemma dtb_base_range : 0 <= reserve_off < 2 ^ 30 -> 0 <= dtb_base < 2 ^ 22.
Proof.
  intros H. unfold dtb_base, DTB_RESERVE_OFFSET, SZ_1M. rewrite Z.shiftr_div_pow2 by lia.
  change (2 ^ 9) with 512. split; [apply Z.div_pos; lia|]. apply Z.div_lt_upper_bound; lia.
Qed.

Lemma dtb_blk_eq c i : read_blkbits c = 9 -> dtb_blk reserve_off c i = dtb_base + 512 * i.
Proof. intros Hb. unfold dtb_blk. rewrite Hb. unfold dtb_base, DTB_BLK_CNT. lia. Qed.

Lemma dtb_copy_length m i : zlen (dtb_copy m i) = DTB_SIZE.
Proof. unfold dtb_copy. by rewrite read_area_length by lia. Qed.

Lemma dtb_write_spec c i buf :
  dtb_card c -> 0 <= i <= 1 -> zlen buf = DTB_SIZE ->
  exists ret m', _dtb_write RESULT_FAIL RESULT_UNSUP_HOST DTB_SIZE c (dtb_blk reserve_off c i) buf
    = Some (ret, set_media c m') /\ (ret = 0 \/ ret = - EFAULT) /\
    (ret = 0 -> dtb_copy m' i = buf) /\
    (forall j, 0 <= j <= 1 -> j <> i -> dtb_copy m' j = dtb_copy (media c) j) /\
    (clean_host M -> ret = 0).
Proof.
  intros (Hu & Hr & Hs) Hi Hl. pose proof Hu as (Hb & _). pose proof (dtb_base_range Hr).
  unfold _dtb_write. rewrite dtb_blk_eq by done. rewrite Hb. change (Z.shiftr DTB_SIZE 9) with 512.
  destruct (write_chunks_area _ _ HF HU (mmc_claim_host c) (dtb_base + 512 * i) buf) as (ret & m' & -> & Ho & Hd & Hc);
    [done|lia|cbn [sectors mmc_claim_host set_claims]; lia|unfold DTB_SIZE, DTB_BLK_CNT, DTB_BLK_SIZE, EMMC_KEYAREA_SIZE in *; lia|].
  cbn [mbind option_bind]. rewrite release_claim. do 2 eexists. split; [done|].
  split; [destruct (c_true ret); [by right|by left]|]. split; [|split].
  - intros Hz. assert (ret = 0) as -> by (unfold c_true, EFAULT in Hz; destruct (Z.eqb_spec ret 0); simpl in Hz; lia).
    unfold dtb_copy. rewrite Hd by done. apply take_ge.
    unfold DTB_SIZE, DTB_BLK_CNT, DTB_BLK_SIZE, EMMC_KEYAREA_SIZE in *. lia.
  - intros j Hj Hne. apply read_area_ext. intros a Ha. apply Ho. lia.
  - intros Hcl. by rewrite (Hc Hcl).
Qed.

Lemma dtb_read_spec c i buf :
  dtb_card c -> 0 <= i <= 1 -> zlen buf = DTB_SIZE -> clean_host M ->
  exists m', _dtb_read RESULT_FAIL RESULT_UNSUP_HOST DTB_SIZE c (dtb_blk reserve_off c i) buf
    = Some (0, dtb_copy (media c) i, set_media c m') /\ (forall a, sector m' a = sector (media c) a).
Proof.
  intros (Hu & Hr & Hs) Hi Hl Hcl. pose proof Hu as (Hb & _). pose proof (dtb_base_range Hr).
  unfold _dtb_read. rewrite dtb_blk_eq by done. rewrite Hb. change (Z.shiftr DTB_SIZE 9) with 512.
  destruct (read_chunks_area _ _ HF HU (fun _ => MAX_TRANS_BLK) (fun cnt => negb (cnt =? 0)) (mmc_claim_host c)
              (dtb_base + 512 * i) buf) as (ret & b & m' & -> & Hsec & Hlb & Hd & Hc);
    [done|lia|cbn [sectors mmc_claim_host set_claims]; lia
    |unfold DTB_SIZE, DTB_BLK_CNT, DTB_BLK_SIZE, EMMC_KEYAREA_SIZE in *; lia|done..|].
  rewrite (Hc Hcl) in *. rewrite (Hd eq_refl). cbn [mbind option_bind]. rewrite release_claim.
  exists m'. split; [|done]. change (c_true 0) with false. cbv iota. do 3 f_equal.
  change (media (mmc_claim_host c)) with (media c). fold (dtb_copy (media c) i). unfold splice.
  change (Z.to_nat 0) with O. rewrite take_0, drop_ge; [by rewrite app_nil_r|].
  pose proof (dtb_copy_length (media c) i). lia.
Qed.

(** The trailer that a write puts in the device tree. *)
Definition sealed_dtb (ts : Z) (buf : bytes) : bytes :=
  let b := splice (splice (splice buf off_timestamp (le_split 4 ts)) off_version (le_split 4 1))
             off_magic (le_split 4 0x00447e41) in
  splice b off_checksum (le_split 4 (dtb_sum b)).

Lemma dtb_put b off v :
  zlen b = DTB_SIZE -> off_magic <= off <= off_checksum ->
  put_u32 b off v = Some (splice b off (le_split 4 v)) /\ zlen (splice b off (le_split 4 v)) = DTB_SIZE.
Proof.
  intros Hl Ho. unfold off_magic, off_checksum, DTB_SIZE, DTB_BLK_CNT, DTB_BLK_SIZE in *. unfold put_u32.
  rewrite bput_in by len_solve. split; [done|len_solve].
Qed.

Lemma sealed_checks ts buf :
  zlen buf = DTB_SIZE -> in_u32 ts ->
  zlen (sealed_dtb ts buf) = DTB_SIZE /\ _verify_dtb_checksum (sealed_dtb ts buf) = Some 0 /\
  get_u32 (sealed_dtb ts buf) off_timestamp = Some ts.
Proof.
  intros Hl Hts. unfold sealed_dtb.
  assert (Hoff : off_magic = 262128 /\ off_version = 262132 /\ off_timestamp = 262136 /\ off_checksum = 262140 /\ DTB_SIZE = 262144)
    by done. destruct Hoff as (E1 & E2 & E3 & E4 & E5).
  destruct (dtb_put buf off_timestamp ts Hl) as [_ L1]; [lia|].
  set (b1 := splice buf _ _) in *. destruct (dtb_put b1 off_version 1 L1) as [_ L2]; [lia|].
  set (b2 := splice b1 _ _) in *. destruct (dtb_put b2 off_magic 0x00447e41 L2) as [_ L3]; [lia|].
  set (b3 := splice b2 _ _) in *. destruct (dtb_put b3 off_checksum (dtb_sum b3) L3) as [_ L4]; [lia|].
  split; [done|]. split.
  - unfold _verify_dtb_checksum. destruct (calc_dtb _ L4) as [-> _]. cbn [mbind option_bind].
    rewrite (get_u32_holds _ _ (dtb_sum b3)).
    + cbn [mbind option_bind]. rewrite dtb_sum_splice by (done || apply le_split_length). by rewrite Z.eqb_refl.
    + by apply calc_dtb.
    + apply holds_at_splice; [lia|len_solve].
  - apply get_u32_holds; [done|].
    apply holds_at_splice_ne; [|lia|len_solve|len_solve].
    apply holds_at_splice_ne; [|lia|len_solve|len_solve].
    apply holds_at_splice_ne; [|lia|len_solve|len_solve].
    apply holds_at_splice; [lia|len_solve].
Qed.

Definition dtb_ok s : Prop := dtb_card (card_dtb s) /\ length (stamp s) = 2%nat /\ length (valid s) = 2%nat.

Lemma next_timestamp_total s : dtb_ok s -> exists ts, next_timestamp s = Some ts /\ in_u32 ts.
Proof.
  intros (_ & Hs & Hv). destruct (stamp s) as [|s0 [|s1 [|]]] eqn:Es; try done.
  destruct (valid s) as [|v0 [|v1 [|]]] eqn:Ev; try done.
  unfold next_timestamp. rewrite Es, Ev. cbn -[u32]. eexists. split; [done|].
  repeat case_goal; try apply u32_range. done.
Qed.

Lemma dtb_write_both s buf :
  dtb_ok s -> zlen buf = DTB_SIZE ->
  exists ret ts m', next_timestamp s = Some ts /\ in_u32 ts /\
    amlmmc_dtb_write RESULT_FAIL RESULT_UNSUP_HOST reserve_off DTB_SIZE s buf DTB_SIZE
    = Some (ret, sealed_dtb ts buf, with_card s (set_media (card_dtb s) m')) /\
    (ret = 0 -> forall j, 0 <= j <= 1 -> dtb_copy m' j = sealed_dtb ts buf) /\ (clean_host M -> ret = 0).
Proof.
  intros Hok Hl. destruct (next_timestamp_total s Hok) as (ts & Hts & Hr). destruct Hok as (Hc & Hs & Hv).
  unfold amlmmc_dtb_write. rewrite Z.ltb_irrefl, Hts. cbn [mbind option_bind].
  destruct (dtb_put buf off_timestamp ts Hl) as [-> L1]; [done|]. cbn [mbind option_bind].
  set (b1 := splice buf _ _) in *. destruct (dtb_put b1 off_version 1 L1) as [-> L2]; [done|]. cbn [mbind option_bind].
  set (b2 := splice b1 _ _) in *. destruct (dtb_put b2 off_magic 0x00447e41 L2) as [-> L3]; [done|]. cbn [mbind option_bind].
  set (b3 := splice b2 _ _) in *. destruct (calc_dtb b3 L3) as [-> _]. cbn [mbind option_bind].
  destruct (dtb_put b3 off_checksum (dtb_sum b3) L3) as [-> L4]; [done|]. cbn [mbind option_bind].
  change (splice b3 off_checksum _) with (sealed_dtb ts buf) in *.
  destruct (dtb_write_spec (card_dtb s) 0 (sealed_dtb ts buf)) as (r0 & m0 & -> & Hr0 & Hd0 & Hf0 & Hc0); [done|lia|done|].
  cbn [mbind option_bind].
  change (dtb_blk reserve_off (card_dtb s) 1) with (dtb_blk reserve_off (set_media (card_dtb s) m0) 1).
  destruct (dtb_write_spec (set_media (card_dtb s) m0) 1 (sealed_dtb ts buf)) as (r1 & m1 & -> & Hr1 & Hd1 & Hf1 & Hc1); [done|lia|done|].
  cbn [mbind option_bind]. exists (Z.lor r0 r1), ts, m1. split; [done|]. split; [done|]. split; [done|]. split.
  - intros Hz j Hj. apply Z.lor_eq_0_iff in Hz as [H0 H1].
    assert (j = 0 \/ j = 1) as [->| ->] by lia; [|by apply Hd1]. rewrite Hf1 by lia. by apply Hd0.
  - intros Hcl. by rewrite (Hc0 Hcl), (Hc1 Hcl).
Qed.

Lemma init_copy_valid s dtb i r0 ts buf :
  dtb_ok s -> 0 <= i <= 1 -> zlen dtb = DTB_SIZE -> clean_host M -> zlen buf = DTB_SIZE -> in_u32 ts ->
  dtb_copy (media (card_dtb s)) i = sealed_dtb ts buf ->
  exists m', init_copy RESULT_FAIL RESULT_UNSUP_HOST reserve_off DTB_SIZE s dtb i r0
    = Some (0, sealed_dtb ts buf,
            mk_dtb (set_media (card_dtb s) m') (<[Z.to_nat i := ts]> (stamp s)) (<[Z.to_nat i := 1]> (valid s)) (glb_dtb_buf s)) /\
    (forall a, sector m' a = sector (media (card_dtb s)) a).
Proof.
  intros (Hc & Hs & Hv) Hi Hl Hcl Hb Hts Hcopy. unfold init_copy.
  destruct (dtb_read_spec (card_dtb s) i dtb Hc Hi Hl Hcl) as (m' & -> & Hsec). cbn [mbind option_bind].
  change (c_true 0) with false. cbv iota. rewrite Hcopy.
  destruct (sealed_checks ts buf Hb Hts) as (_ & -> & ->). cbn [mbind option_bind]. simpl (0 =? 0). cbv iota.
  cbn [stamp valid with_card card_dtb glb_dtb_buf].
  rewrite !aset_in by lia. cbn [mbind option_bind]. eauto.
Qed.
End Spec.

(** ** Stamps that wrap around *)

Lemma s32_cong x y : (x - y) mod 2 ^ 32 = 0 -> s32 x = s32 y.
Proof.
  intros H. unfold s32. f_equal. apply Z.mod_divide in H as [k Hk]; [|lia].
  replace (x + 2 ^ 31) with (y + 2 ^ 31 + k * 2 ^ 32) by lia. by rewrite Z.mod_add by lia.
Qed.

Lemma s32_self x : exists k, s32 x = x - k * 2 ^ 32.
Proof.
  exists ((x + 2 ^ 31) / 2 ^ 32). unfold s32. rewrite (Z.mod_eq (x + 2 ^ 31)) by lia. lia.
Qed.

Lemma mod_multiple x k : x = k * 2 ^ 32 -> x mod 2 ^ 32 = 0.
Proof. intros ->. apply Z.mod_mul. lia. Qed.

Lemma s32_sub_u32 x y : s32 (x - u32 y) = s32 (x - y).
Proof.
  apply s32_cong. unfold u32. rewrite (Z.mod_eq y) by lia. apply (mod_multiple _ (y / 2 ^ 32)). lia.
Qed.

Lemma s32_opp x : s32 x <> - 2 ^ 31 -> s32 (- x) = - s32 x.
Proof.
  intros H. pose proof (s32_range x). destruct (s32_self x) as [k Hk].
  rewrite (s32_cong (- x) (- s32 x)); [apply s32_small; lia|]. apply (mod_multiple _ (- k)). lia.
Qed.

(** One more than a stamp comes after it, and after those it comes after. *)
Lemma stamp_after_succ a b :
  (a = b \/ stamp_after a b = true) -> s32 (b - a) <> - 2 ^ 31 -> stamp_after (u32 (1 + a)) b = true.
Proof.
  intros Ha Hne. unfold stamp_after in *. rewrite s32_sub_u32. apply Z.ltb_lt.
  assert (Hd : s32 (b - a) <= 0).
  { destruct Ha as [->|Ha]; [by rewrite Z.sub_diag|b2p; lia]. }
  pose proof (s32_range (b - a)). rewrite (s32_cong _ (s32 (b - a) - 1)).
  - rewrite s32_small by lia. lia.
  - destruct (s32_self (b - a)) as [k Hk]. apply (mod_multiple _ k). lia.
Qed.

Section Claims.
Context {M : Type} {host : MmcHost M} {laws : MmcLaws M}.
Context (RESULT_FAIL RESULT_UNSUP_HOST reserve_off : Z) (kmalloc : Z -> bool).
Implicit Types (s : dtb_state M).

(** C34. A device tree written is what both copies hold: on a host without errors
    [amlmmc_dtb_write] returns 0, both copies are the buffer with its trailer
    sealed, and a start from them finds two valid copies with the timestamp that
    was written. *)
Theorem dtb_write_then_init s buf buf2 st va
  (HF : RESULT_FAIL <> 0) (HU : RESULT_UNSUP_HOST <> 0) (Hcl : clean_host M) (Hk : kmalloc DTB_SIZE = true)
  (Hok : dtb_ok reserve_off s) (Hl : zlen buf = DTB_SIZE) (Hl2 : zlen buf2 = DTB_SIZE)
  (Hst : length st = 2%nat) (Hva : length va = 2%nat) :
  exists ts s', next_timestamp s = Some ts /\
    amlmmc_dtb_write RESULT_FAIL RESULT_UNSUP_HOST reserve_off DTB_SIZE s buf DTB_SIZE = Some (0, sealed_dtb ts buf, s') /\
    (forall j, 0 <= j <= 1 -> dtb_copy reserve_off (media (card_dtb s')) j = sealed_dtb ts buf) /\
    exists s2, _dtb_init RESULT_FAIL RESULT_UNSUP_HOST reserve_off kmalloc DTB_SIZE buf2 (mk_dtb (card_dtb s') st va None) = Some (0, s2) /\
      valid s2 = [1; 1] /\ stamp s2 = [ts; ts] /\ glb_dtb_buf s2 = Some (sealed_dtb ts buf).
Proof.
  destruct (dtb_write_both _ _ reserve_off HF HU s buf Hok Hl) as (ret & ts & m' & Hts & Hr & Hw & Hd & Hc).
  rewrite (Hc Hcl) in *. specialize (Hd eq_refl). exists ts, (with_card s (set_media (card_dtb s) m')).
  split; [done|]. split; [done|]. split; [done|].
  unfold _dtb_init. cbn [glb_dtb_buf]. rewrite Hk. cbn [default card_dtb with_card].
  set (s1 := mk_dtb (set_media (card_dtb s) m') st va None).
  assert (Hok1 : dtb_ok reserve_off s1) by (split; [apply Hok|done]).
  destruct (init_copy_valid _ _ reserve_off HF HU s1 buf2 1 0 ts buf) as (m1 & -> & Hs1); [done|lia|done|done|done|done|by apply Hd|].
  cbn [mbind option_bind]. destruct (sealed_checks ts buf Hl Hr) as (Hsl & _).
  destruct (init_copy_valid _ _ reserve_off HF HU
              (mk_dtb (set_media (card_dtb s1) m1) (<[Z.to_nat 1 := ts]> (stamp s1)) (<[Z.to_nat 1 := 1]> (valid s1)) (glb_dtb_buf s1))
              (sealed_dtb ts buf) 0 0 ts buf) as (m2 & -> & _).
  { split; [apply Hok|]. cbn [stamp valid]. by rewrite !length_insert. }
  { lia. } { done. } { done. } { done. } { done. }
  { cbn [card_dtb media set_media]. transitivity (dtb_copy reserve_off m' 0); [|by apply Hd].
    apply read_area_ext. intros a _. apply Hs1. }
  cbn [mbind option_bind]. eexists. split; [done|]. unfold s1. cbn [stamp valid glb_dtb_buf with_buf].
  destruct st as [|? [|? [|]]]; try done. destruct va as [|? [|? [|]]]; try done.
Qed.

(** The timestamp of the next device tree comes after those of the copies found
    valid, also when stamps wrap around. *)
Theorem dtb_timestamp_later s x0 x1 v0 v1 ts
  (Hr : in_u32 x0 /\ in_u32 x1) (Hs : stamp s = [x0; x1]) (Hv : valid s = [v0; v1]) (Hb : (v0 = 0 \/ v0 = 1) /\ (v1 = 0 \/ v1 = 1))
  (Hd : s32 (x0 - x1) <> - 2 ^ 31) (Hts : next_timestamp s = Some ts) :
  (v0 = 1 -> stamp_after ts x0 = true) /\ (v1 = 1 -> stamp_after ts x1 = true).
Proof.
  unfold next_timestamp in Hts. rewrite Hs, Hv in Hts. cbn -[u32 stamp_after s32] in Hts. injection Hts as <-.
  assert (Hself : forall a, stamp_after (u32 (1 + a)) a = true).
  { intros a. apply stamp_after_succ; [by left|]. rewrite Z.sub_diag. done. }
  destruct Hb as [[-> | ->] [-> | ->]]; cbn -[u32 stamp_after s32]; try (split; intros; try apply Hself; lia).
  destruct (Z.eqb_spec x0 x1) as [->|Hne]; cbn -[u32 stamp_after s32]; [split; intros; apply Hself|].
  destruct (stamp_after x1 x0) eqn:E; split; intros _; try apply Hself.
  - apply stamp_after_succ; [by right|done].
  - assert (Hop : s32 (x1 - x0) = - s32 (x0 - x1)).
    { rewrite <- s32_opp by done. f_equal. lia. }
    pose proof (s32_range (x0 - x1)). apply stamp_after_succ; [|lia]. right.
    unfold stamp_after in *. b2p. apply Z.ltb_lt. rewrite Hop.
    destruct (s32_self (x0 - x1)) as [k Hk]. unfold in_u32 in Hr. lia.
Qed.
(** A write to the character device that the medium refuses is still reported as
    written: the call returns the number of bytes and only leaves the position
    where it was. *)
Theorem dtb_write_hides_failure s user dtb count ppos
  (Hb : glb_dtb_buf s = Some dtb) (Hl : zlen dtb = DTB_SIZE)
  (Hok : dtb_ok reserve_off s) (Hbad : bad_writes (M := M))
  (Hp : 0 <= ppos) (Hc : 0 < count <= zlen user) (Hw : ppos + count <= DTB_SIZE) :
  exists s', mmc_dtb_write RESULT_FAIL RESULT_UNSUP_HOST reserve_off DTB_SIZE s user count ppos
    = Some (count, ppos, s').
Proof.
  unfold mmc_dtb_write. rewrite (proj2 (Z.eqb_neq ppos _)), (proj2 (Z.leb_gt _ ppos)) by lia. rewrite Hb.
  rewrite (proj2 (Z.ltb_ge DTB_SIZE (ppos + count))) by lia.
  rewrite bget_take by lia. cbn [mbind option_bind]. rewrite bput_in by len_solve. cbn [mbind option_bind].
  set (dtb1 := splice dtb ppos _). assert (Hl1 : zlen dtb1 = DTB_SIZE) by (unfold dtb1; len_solve).
  set (s1 := with_card s (mmc_claim_host (card_dtb s))).
  assert (Hok1 : dtb_ok reserve_off s1) by done.
  destruct (next_timestamp_total reserve_off s1 Hok1) as (ts & Hts & _).
  unfold amlmmc_dtb_write. rewrite Z.ltb_irrefl, Hts. cbn [mbind option_bind].
  destruct (dtb_put dtb1 off_timestamp ts Hl1) as [-> L1]; [done|]. cbn [mbind option_bind].
  set (b1 := splice dtb1 _ _) in *. destruct (dtb_put b1 off_version 1 L1) as [-> L2]; [done|]. cbn [mbind option_bind].
  set (b2 := splice b1 _ _) in *. destruct (dtb_put b2 off_magic 0x00447e41 L2) as [-> L3]; [done|]. cbn [mbind option_bind].
  set (b3 := splice b2 _ _) in *. destruct (calc_dtb b3 L3) as [-> _]. cbn [mbind option_bind].
  destruct (dtb_put b3 off_checksum (dtb_sum b3) L3) as [-> L4]; [done|]. cbn [mbind option_bind].
  set (b4 := splice b3 _ _) in *.
  assert (Hbadw : forall c i, dtb_card reserve_off c -> 0 <= i <= 1 ->
            exists m', _dtb_write RESULT_FAIL RESULT_UNSUP_HOST DTB_SIZE c (dtb_blk reserve_off c i) b4
            = Some (- EFAULT, set_media c m')).
  { intros c i (Hu & Hr & Hs) Hi. pose proof Hu as (Hbit & _). pose proof (dtb_base_range reserve_off Hr).
    unfold _dtb_write. rewrite dtb_blk_eq by done. rewrite Hbit. change (Z.shiftr DTB_SIZE 9) with 512.
    destruct (write_chunks_bad RESULT_FAIL RESULT_UNSUP_HOST (mmc_claim_host c) (dtb_base reserve_off + 512 * i) b4 Hbad) as [m' ->];
      [done|lia|cbn [sectors mmc_claim_host set_claims]; lia|unfold DTB_SIZE, DTB_BLK_CNT, DTB_BLK_SIZE, EMMC_KEYAREA_SIZE in *; lia|].
    cbn [mbind option_bind]. rewrite release_claim. by eexists. }
  destruct (Hbadw (card_dtb s1) 0) as [m0 ->]; [apply Hok|lia|]. cbn [mbind option_bind].
  change (dtb_blk reserve_off (card_dtb s1) 1) with (dtb_blk reserve_off (set_media (card_dtb s1) m0) 1).
  destruct (Hbadw (set_media (card_dtb s1) m0) 1) as [m1 ->]; [apply Hok|lia|]. cbn [mbind option_bind].
  change (c_true (Z.lor (- EFAULT) (- EFAULT))) with true. cbv iota. by eexists.
Qed.
End Claims.

(** The table handed to user space has one entry per entry of the table in memory;
    it lists the code, cache and data partitions in that order, and its other
    entries are the unwritten memory of the allocation. *)
Theorem part_table_get_spec nlen code cache data uninit tmp
  (Hd : code <> cache /\ code <> data /\ cache <> data) :
  let filled := parts_of nlen code tmp ++ parts_of nlen cache tmp ++ map grow_data (parts_of nlen data tmp) in
  let out := emmc_part_table_get nlen code cache data uninit tmp in
  length out = length tmp /\ take (length filled) out = filled /\
  forall i, (length filled <= i < length tmp)%nat -> out !! i = Some uninit.
Proof.
  cbn zeta. unfold emmc_part_table_get. set (filled := parts_of nlen code tmp ++ _).
  assert (Hl : (length filled <= length tmp)%nat).
  { unfold filled, parts_of. rewrite !length_app, !length_map.
    clear filled. induction tmp as [|p l IH]; [simpl; lia|]. rewrite !filter_cons.
    repeat case_decide; cbn [length]; try lia; exfalso; intuition congruence. }
  split; [rewrite length_app, length_replicate; lia|]. split; [apply take_app_length|].
  intros i Hi. rewrite lookup_app_r by lia. apply lookup_replicate_2. lia.
Qed.

(** ** Witnesses *)

Definition zero_dtb : bytes := fill 0 DTB_SIZE.
Lemma zero_dtb_length : zlen zero_dtb = DTB_SIZE.
Proof. unfold zero_dtb. rewrite fill_length. unfold DTB_SIZE, DTB_BLK_CNT, DTB_BLK_SIZE. lia. Qed.

Definition dtb_sample : dtb_state disk :=
  mk_dtb (mk_card 9 0 0 40000 true false 0 0 zero_disk) [7; 0] [1; 0] (Some zero_dtb).
Lemma dtb_sample_ok : dtb_ok off4 dtb_sample.
Proof. repeat split; vm_compute; congruence. Qed.

Lemma dtb_write_then_init_witness :
  exists ts s', next_timestamp dtb_sample = Some ts /\
    amlmmc_dtb_write 1 2 off4 DTB_SIZE dtb_sample zero_dtb DTB_SIZE = Some (0, sealed_dtb ts zero_dtb, s').
Proof.
  destruct (dtb_write_then_init 1 2 off4 (fun _ => true) dtb_sample zero_dtb zero_dtb [0; 0] [0; 0])
    as (ts & s' & H1 & H2 & _);
    [done|done|apply disk_clean|done|apply dtb_sample_ok|apply zero_dtb_length|apply zero_dtb_length|done|done|].
  exists ts, s'. split; [exact H1|exact H2].
Defined.

(** Copy 0 with the last stamp before the wrap, copy 1 one behind. *)
Definition wrap_sample : dtb_state disk :=
  mk_dtb (mk_card 9 0 0 40000 true false 0 0 zero_disk) [2 ^ 32 - 1; 2 ^ 32 - 2] [1; 1] None.

Lemma dtb_timestamp_later_witness : stamp_after 0 (2 ^ 32 - 1) = true /\ stamp_after 0 (2 ^ 32 - 2) = true.
Proof.
  destruct (dtb_timestamp_later wrap_sample (2 ^ 32 - 1) (2 ^ 32 - 2) 1 1 0) as [H1 H2];
    [by vm_compute|reflexivity|reflexivity|split; by right|by vm_compute|by vm_compute|].
  split; [by apply H1|by apply H2].
Defined.

Lemma dtb_write_hides_failure_witness :
  exists s', mmc_dtb_write (host := broken_host) 1 2 off4 DTB_SIZE dtb_sample [1; 2; 3] 3 0 = Some (3, 0, s').
Proof.
  apply (dtb_write_hides_failure (host := broken_host) 1 2 off4 dtb_sample [1; 2; 3] zero_dtb 3 0);
    [reflexivity|apply zero_dtb_length|apply dtb_sample_ok|done|lia|split; [lia|done]|done].
Defined.

Lemma part_table_get_spec_witness :
  length (emmc_part_table_get 16 1 2 4 (mk_partitions [255] 0 0 0) [sample_part [98; 0] 0 512; mk_partitions [99; 0] 8 8 9]) = 2%nat.
Proof.
  exact (proj1 (part_table_get_spec 16 1 2 4 (mk_partitions [255] 0 0 0)
                  [sample_part [98; 0] 0 512; mk_partitions [99; 0] 8 8 9] ltac:(lia))).
Defined.
