(* ===== verification/Keeper.v ===== *)
(** * Keeping decoder frames alive
      (src/a311d/soc/amlogic/media/common/codec_mm/codec_mm_keeper.c)

    A decoder that is closed while its last picture is still displayed masks the
    picture's memory: the keeper takes a reference and hands out an id.  Unmasking
    the id lets a delayed work drop the reference once its deadline has passed.
    The memory managers behind the references are a class. *)

From stdpp Require Import base numbers list option strings pretty.
From S2P Require Import Prelude.

Definition MAX_KEEP_FRAME : Z := 16.
Definition START_KEEP_ID : Z := 0x9.
Definition INT_MAX : Z := 2 ^ 31 - 1.
Definition MAX_KEEP_ID : Z := INT_MAX - 1.
Definition MEM_TYPE_CODEC_MM : Z := 111.
Definition MEM_TYPE_CODEC_MM_SCATTER : Z := 222.
Definition NULL : Z := 0.

Record keep_mem_info := mk_keep {
  handle : Z;
  keep_id : Z;
  ktype : Z;
  user : Z;
  delay_on_jiffies64 : Z }.

(** [dealy_work] is the delay of the pending work, [None] when none is pending. *)
Record codec_mm_keeper_mgr := mk_mgr {
  num : Z;
  dealy_work : option Z;
  work_runs : Z;
  keep_list : list keep_mem_info;
  next_id : Z }.

(** The two memory managers, as the keeper uses them. *)
Class KeepMem (M : Type) := {
  codec_mm_scatter_inc_for_keeper : M -> Z -> Z * M;
  codec_mm_scatter_dec_keeper_user : M -> Z -> M;
  codec_mm_request_shared_mem : M -> Z -> Z * M;
  codec_mm_release_with_check : M -> Z -> M }.

(** [time_after64 (a, b)]: [(s64)(b - a) < 0]. *)
Definition time_after64 (a b : Z) : bool := 2 ^ 63 <=? u64 (b - a).

Definition set_user (k : keep_mem_info) (u d : Z) : keep_mem_info :=
  mk_keep (handle k) (keep_id k) (ktype k) u d.

(** [schedule_delayed_work] leaves a work that is pending as it is. *)
Definition schedule_delayed_work (mgr : codec_mm_keeper_mgr) (delay : Z) : codec_mm_keeper_mgr :=
  match dealy_work mgr with
  | Some _ => mgr
  | None => mk_mgr (num mgr) (Some delay) (work_runs mgr) (keep_list mgr) (next_id mgr)
  end.

Definition set_keep_list (mgr : codec_mm_keeper_mgr) (n : Z) (l : list keep_mem_info) :=
  mk_mgr n (dealy_work mgr) (work_runs mgr) l (next_id mgr).

Definition codec_mm_keeper_mgr_init : codec_mm_keeper_mgr :=
  mk_mgr 0 None 0 (replicate (Z.to_nat MAX_KEEP_FRAME) (mk_keep NULL 0 0 0 0)) START_KEEP_ID.

(** The scan of [codec_mm_keeper_mask_keep_mem]: the first free slot, and the
    id of the slot that already holds the handle. *)
Fixpoint keeper_scan (l : list keep_mem_info) (i slot_i mem_handle : Z) : Z * option Z :=
  match l with
  | [] => (slot_i, None)
  | k :: l =>
      if (handle k =? NULL) && (slot_i <? 0) then keeper_scan l (i + 1) i mem_handle
      else if handle k =? mem_handle then (slot_i, Some (keep_id k))
      else keeper_scan l (i + 1) slot_i mem_handle
  end.

Section Keeper.
Context {M : Type} {mem : KeepMem M}.
(** Ticks per second. *)
Variable HZ : Z.

(** The reference that masking takes, and its release. *)
Definition keeper_take (m : M) (mem_handle type : Z) : Z * M :=
  if type =? MEM_TYPE_CODEC_MM_SCATTER then codec_mm_scatter_inc_for_keeper m mem_handle
  else codec_mm_request_shared_mem m mem_handle.

Definition keeper_drop (m : M) (mem_handle type : Z) : M :=
  if type =? MEM_TYPE_CODEC_MM_SCATTER then codec_mm_scatter_dec_keeper_user m mem_handle
  else if type =? MEM_TYPE_CODEC_MM then codec_mm_release_with_check m mem_handle
  else m.

(** The part of the mask under the lock. *)
Definition keeper_insert (mgr : codec_mm_keeper_mgr) (mem_handle type : Z)
  : option (Z * bool * codec_mm_keeper_mgr) :=
  let id := next_id mgr in
  let next := s32 (next_id mgr + 1) in
  let next := if MAX_KEEP_ID <=? next then START_KEEP_ID else next in
  let mgr := mk_mgr (num mgr) (dealy_work mgr) (work_runs mgr) (keep_list mgr) next in
  match keeper_scan (keep_list mgr) 0 (-1) mem_handle with
  | (_, Some old) => Some (old, true, mgr)
  | (slot_i, None) =>
      if 0 <=? slot_i then
        old ← aget (keep_list mgr) slot_i;
        l ← aset (keep_list mgr) slot_i (mk_keep mem_handle id type 1 (delay_on_jiffies64 old));
        Some (id, false, set_keep_list mgr (s32 (num mgr + 1)) l)
      else Some (-1, false, mgr)
  end.

Definition codec_mm_keeper_mask_keep_mem (mgr : codec_mm_keeper_mgr) (m : M) (mem_handle type : Z)
  : option (Z * codec_mm_keeper_mgr * M) :=
  if mem_handle =? NULL then Some (-2, mgr, m)
  else if negb (type =? MEM_TYPE_CODEC_MM_SCATTER) && negb (type =? MEM_TYPE_CODEC_MM) then
    Some (-3, mgr, m)
  else
    let '(ret, m) := keeper_take m mem_handle type in
    if ret <? 0 then Some (-4, mgr, m)
    else
      '(id, have_samed, mgr) ← keeper_insert mgr mem_handle type;
      let m := if (id <? 0) || have_samed then keeper_drop m mem_handle type else m in
      Some (id, mgr, m).

(** The first slot with the id loses a user and gets a deadline. *)
Fixpoint keeper_unuse (l : list keep_mem_info) (id jiffies delayms : Z) : list keep_mem_info :=
  match l with
  | [] => []
  | k :: l =>
      if id =? keep_id k then
        set_user k (s32 (user k - 1)) (u64 (jiffies + Z.quot (s32 (delayms * HZ)) 1000)) :: l
      else k :: keeper_unuse l id jiffies delayms
  end.

Definition codec_mm_keeper_unmask_keeper (mgr : codec_mm_keeper_mgr) (jiffies id delayms : Z)
  : Z * codec_mm_keeper_mgr :=
  if (id <? START_KEEP_ID) || (MAX_KEEP_ID <=? id) then (-1, mgr)
  else
    let mgr := set_keep_list mgr (num mgr) (keeper_unuse (keep_list mgr) id jiffies delayms) in
    (0, schedule_delayed_work mgr delayms).

Definition codec_mm_keeper_free_keep (mgr : codec_mm_keeper_mgr) (m : M) (index : Z)
  : option (Z * codec_mm_keeper_mgr * M) :=
  k ← aget (keep_list mgr) index;
  let mem_handle := handle k in
  let type := ktype k in
  l ← aset (keep_list mgr) index (mk_keep NULL (keep_id k) (ktype k) (user k) 0);
  let mgr := set_keep_list mgr (s32 (num mgr - 1)) l in
  if mem_handle =? NULL then Some (-1, mgr, m)
  else if type =? MEM_TYPE_CODEC_MM then Some (0, mgr, codec_mm_release_with_check m mem_handle)
  else if type =? MEM_TYPE_CODEC_MM_SCATTER then
    Some (0, mgr, codec_mm_scatter_dec_keeper_user m mem_handle)
  else Some (0, mgr, m).

(** The unlocked test of a slot in [codec_mm_keeper_free_all_keep]. *)
Definition keeper_want_free (info : keep_mem_info) (jiffies force : Z) : bool :=
  if (handle info =? NULL) || (keep_id info <? 0) then false
  else
    let time_after := time_after64 jiffies (delay_on_jiffies64 info) in
    if force =? 1 then true
    else if (force =? 2) && (user info <=? 0) then true
    else (user info <=? 0) && time_after.

(** One round of its loop; [now i] is the clock the round reads. *)
Definition free_all_body (now : Z -> Z) (force : Z) (st : Z * codec_mm_keeper_mgr * M)
  : (Z * codec_mm_keeper_mgr * M) + option (Z * codec_mm_keeper_mgr * M) :=
  let '(i, mgr, m) := st in
  if i <? MAX_KEEP_FRAME then
    match aget (keep_list mgr) i with
    | None => inr None
    | Some info =>
        if keeper_want_free info (now i) force then
          match codec_mm_keeper_free_keep mgr m i with
          | Some (_, mgr, m) => inl (i + 1, mgr, m)
          | None => inr None
          end
        else inl (i + 1, mgr, m)
    end
  else inr (Some (0, mgr, m)).

Definition codec_mm_keeper_free_all_keep (mgr : codec_mm_keeper_mgr) (m : M) (now : Z -> Z) (force : Z)
  : option (Z * codec_mm_keeper_mgr * M) :=
  r ← loop (S (Z.to_nat MAX_KEEP_FRAME)) (free_all_body now force) (0, mgr, m); r.

(** The delayed work; it is no longer pending when it runs. *)
Definition codec_mm_keeper_monitor (mgr : codec_mm_keeper_mgr) (m : M) (now : Z -> Z)
  : option (codec_mm_keeper_mgr * M) :=
  let mgr := mk_mgr (num mgr) None (s32 (work_runs mgr + 1)) (keep_list mgr) (next_id mgr) in
  '(_, mgr, m) ← codec_mm_keeper_free_all_keep mgr m now 0;
  Some (if 0 <? num mgr then schedule_delayed_work mgr 10 else mgr, m).

End Keeper.

(** ** The dump: [%d] is [pretty], [%p] a parameter *)

Section Dump.
Variable fmt_p : Z -> string.

Definition tab : string := String (Ascii.ascii_of_nat 9) EmptyString.
Definition nl : string := String (Ascii.ascii_of_nat 10) EmptyString.

Fixpoint keeper_lines (l : list keep_mem_info) (i : Z) : list string :=
  match l with
  | [] => []
  | k :: l =>
      ("keeper:[" +:+ pretty i +:+ "]:" +:+ tab +:+ tab +:+ "id:" +:+ pretty (keep_id k) +:+ tab +:+
       "handle:" +:+ fmt_p (handle k) +:+ ",type:" +:+ pretty (ktype k) +:+ ",user:" +:+
       pretty (user k) +:+ nl)%string :: keeper_lines l (i + 1)
  end.

Definition keeper_dump_lines (mgr : codec_mm_keeper_mgr) : list string :=
  ("dump keep list:next_id=" +:+ pretty (next_id mgr) +:+ ",work_run:" +:+ pretty (work_runs mgr) +:+
   ",num=" +:+ pretty (num mgr) +:+ nl)%string :: keeper_lines (keep_list mgr) 0.

(** [BUFPRINT]: each line and its terminating zero go to the end of what is
    already written; a buffer that is too short is overrun. *)
Fixpoint bufprint (lines : list string) (capacity tsize : Z) : option Z :=
  match lines with
  | [] => Some tsize
  | line :: lines =>
      let s := Z.of_nat (String.length line) in
      if tsize + s + 1 <=? capacity then bufprint lines capacity (tsize + s) else None
  end.

(** [capacity] is the size of the caller's buffer, [None] for no buffer: the
    local array of 512 bytes is then used.  [size] is not looked at. *)
Definition codec_mm_keeper_dump_info (mgr : codec_mm_keeper_mgr) (buf : option Z) (size : Z) : option Z :=
  bufprint (keeper_dump_lines mgr) (match buf with Some c => c | None => 512 end) 0.

End Dump.
