(* ===== verification/KeeperSpec.v ===== *)
(** * Correctness of the keeper

    What each call does to the list; for a manager of the memory that counts references
    as [KeepLaws] says, the references; and what the code does with a handle that is
    masked again, with two concurrent sweeps, and with a dump without a buffer.
    [KeeperSteps] has the calls as they interleave, over any manager. *)

From stdpp Require Import base numbers list option strings pretty relations.
From S2P Require Import Prelude Keeper.

(** ** Abstract state: the references per handle and type *)

Definition slot_ref (h t : Z) (k : keep_mem_info) : Z :=
  if negb (handle k =? NULL) && (handle k =? h) && (ktype k =? t) then 1 else 0.
Definition slot_live (k : keep_mem_info) : Z := if handle k =? NULL then 0 else 1.

Definition held (mgr : codec_mm_keeper_mgr) (h t : Z) : Z := lsum (slot_ref h t) (keep_list mgr).

Definition valid_type (t : Z) : Prop := t = MEM_TYPE_CODEC_MM \/ t = MEM_TYPE_CODEC_MM_SCATTER.

Definition slot_ok (k : keep_mem_info) : Prop :=
  handle k <> NULL -> valid_type (ktype k) /\ START_KEEP_ID <= keep_id k < MAX_KEEP_ID.

(** What the keeper relies on from the memory managers: a reference taken is
    counted, one given back is no longer. *)
Class KeepLaws (M : Type) {mem : KeepMem M} (refs : M -> Z -> Z -> Z) : Prop := {
  law_inc m h h' t :
    refs (codec_mm_scatter_inc_for_keeper m h).2 h' t
    = refs m h' t + (if (0 <=? (codec_mm_scatter_inc_for_keeper m h).1) && (h =? h') &&
                        (MEM_TYPE_CODEC_MM_SCATTER =? t) then 1 else 0);
  law_request m h h' t :
    refs (codec_mm_request_shared_mem m h).2 h' t
    = refs m h' t + (if (0 <=? (codec_mm_request_shared_mem m h).1) && (h =? h') &&
                        (MEM_TYPE_CODEC_MM =? t) then 1 else 0);
  law_dec m h h' t : 0 < refs m h MEM_TYPE_CODEC_MM_SCATTER ->
    refs (codec_mm_scatter_dec_keeper_user m h) h' t
    = refs m h' t - (if (h =? h') && (MEM_TYPE_CODEC_MM_SCATTER =? t) then 1 else 0);
  law_release m h h' t : 0 < refs m h MEM_TYPE_CODEC_MM ->
    refs (codec_mm_release_with_check m h) h' t
    = refs m h' t - (if (h =? h') && (MEM_TYPE_CODEC_MM =? t) then 1 else 0) }.

Record keeper_ok (mgr : codec_mm_keeper_mgr) : Prop := {
  ok_length : length (keep_list mgr) = 16%nat;
  ok_num : num mgr = lsum slot_live (keep_list mgr);
  ok_next : START_KEEP_ID <= next_id mgr < MAX_KEEP_ID;
  ok_slots : Forall slot_ok (keep_list mgr);
  ok_unique : forall i j a b, keep_list mgr !! i = Some a -> keep_list mgr !! j = Some b ->
    handle a = handle b -> handle a <> NULL -> i = j }.

Lemma slot_ref_range h t k : 0 <= slot_ref h t k <= 1.
Proof. unfold slot_ref. case_goal; lia. Qed.
Lemma slot_live_range k : 0 <= slot_live k <= 1.
Proof. unfold slot_live. case_goal; lia. Qed.
Create HintDb keeper.
#[export] Hint Resolve slot_ref_range slot_live_range : keeper.

Lemma slot_ref_dead h t k : handle k = NULL -> slot_ref h t k = 0.
Proof. intros E. unfold slot_ref. by rewrite E. Qed.

Lemma slot_ref_live h t k : handle k <> NULL ->
  slot_ref h t k = if (handle k =? h) && (ktype k =? t) then 1 else 0.
Proof. intros E. unfold slot_ref. by rewrite (proj2 (Z.eqb_neq _ _) E). Qed.

Lemma keeper_init_ok : keeper_ok codec_mm_keeper_mgr_init.
Proof.
  split; [done|done|done|repeat constructor; unfold slot_ok; done|].
  intros i j a b Ha _ _ Hn. apply lookup_replicate in Ha as [-> _]. done.
Qed.

(** ** The scan *)

Lemma keeper_scan_old l i slot_i h id : h <> NULL ->
  (keeper_scan l i slot_i h).2 = Some id ->
  exists n k, l !! n = Some k /\ handle k = h /\ keep_id k = id.
Proof.
  intros Hh. revert i slot_i. induction l as [|k l IH]; intros i slot_i H; [done|].
  simpl in H. repeat case_hyp H; simpl in H; inv_some.
  - destruct (IH _ _ H) as (n & k' & ? & ?). by exists (S n), k'.
  - b2p. by exists O, k.
  - destruct (IH _ _ H) as (n & k' & ? & ?). by exists (S n), k'.
Qed.

Lemma keeper_scan_none l i slot_i h : h <> NULL ->
  (keeper_scan l i slot_i h).2 = None -> Forall (fun k => handle k <> h) l.
Proof.
  intros Hh. revert i slot_i. induction l as [|k l IH]; intros i slot_i H; [by constructor|].
  simpl in H. repeat case_hyp H; simpl in H; inv_some; b2p; constructor; eauto.
  congruence.
Qed.

(** The slot returned is the caller's or the first free one of the list. *)
Lemma keeper_scan_slot l i slot_i h s : h <> NULL ->
  keeper_scan l i slot_i h = (s, None) -> 0 <= i ->
  (0 <= slot_i /\ s = slot_i) \/
  (slot_i < 0 /\ (s = slot_i /\ Forall (fun k => handle k <> NULL) l \/
     exists n k, s = i + Z.of_nat n /\ l !! n = Some k /\ handle k = NULL /\
       Forall (fun k => handle k <> NULL) (take n l))).
Proof.
  intros Hh. revert i slot_i. induction l as [|k l IH]; intros i slot_i H Hi; simpl in H.
  - inv_some. destruct (Z.ltb_spec s 0); [right|left]; auto.
  - repeat case_hyp H; inv_some; b2p.
    + destruct (IH _ _ H) as [[_ ->]|[? _]]; [lia| |lia].
      right. split; [done|]. right. exists O, k. repeat split; [lia|done|by constructor].
    + apply andb_false_iff in E as [E|E]; b2p.
      * destruct (IH _ _ H ltac:(lia)) as [?|[? [[-> Hl]|(n & k' & -> & Hn & Hk & Hl)]]]; [by left| |]; right; split; try done.
        -- left. split; [done|by constructor].
        -- right. exists (S n), k'. repeat split; [lia|done|done|by constructor].
      * destruct (IH _ _ H ltac:(lia)) as [?|[? _]]; [by left|lia].
Qed.

Definition bump_id (mgr : codec_mm_keeper_mgr) : codec_mm_keeper_mgr :=
  let next := s32 (next_id mgr + 1) in
  mk_mgr (num mgr) (dealy_work mgr) (work_runs mgr) (keep_list mgr)
    (if MAX_KEEP_ID <=? next then START_KEEP_ID else next).

Lemma bump_id_ok mgr : keeper_ok mgr -> keeper_ok (bump_id mgr).
Proof.
  intros [? ? Hn ? ?]. split; try done. unfold bump_id. simpl.
  unfold START_KEEP_ID, MAX_KEEP_ID, INT_MAX in *. rewrite s32_small by lia. case_goal; b2p; lia.
Qed.

Lemma first_free_live l n k :
  l !! n = Some k -> handle k = NULL -> lsum slot_live l < zlen l.
Proof.
  intros Hn Hk. pose proof (lsum_insert slot_live l n k (mk_keep 1 0 0 0 0) Hn) as E.
  pose proof (lsum_bits slot_live (<[n := mk_keep 1 0 0 0 0]> l) slot_live_range) as B.
  rewrite length_insert in B. assert (Hz : slot_live k = 0) by (unfold slot_live; by rewrite Hk).
  change (slot_live (mk_keep 1 0 0 0 0)) with 1 in E. lia.
Qed.

(** The three outcomes of the insertion under the lock. *)
Lemma keeper_insert_cases mgr h ty :
  keeper_ok mgr -> h <> NULL ->
  (exists n k, keep_list mgr !! n = Some k /\ handle k = h /\
     keeper_insert mgr h ty = Some (keep_id k, true, bump_id mgr)) \/
  (Forall (fun k => handle k <> h) (keep_list mgr) /\
   Forall (fun k => handle k <> NULL) (keep_list mgr) /\
   keeper_insert mgr h ty = Some (-1, false, bump_id mgr)) \/
  (Forall (fun k => handle k <> h) (keep_list mgr) /\
   exists n k, keep_list mgr !! n = Some k /\ handle k = NULL /\
     keeper_insert mgr h ty
     = Some (next_id mgr, false,
         set_keep_list (bump_id mgr) (num mgr + 1)
           (<[n := mk_keep h (next_id mgr) ty 1 (delay_on_jiffies64 k)]> (keep_list mgr)))).
Proof.
  intros Hok Hh. unfold keeper_insert. fold (bump_id mgr).
  change (keep_list (bump_id mgr)) with (keep_list mgr).
  destruct (keeper_scan (keep_list mgr) 0 (-1) h) as [s [id|]] eqn:E.
  - left. destruct (keeper_scan_old (keep_list mgr) 0 (-1) h id Hh) as (n & k & ? & ? & <-); [by rewrite E|].
    by exists n, k.
  - right. pose proof (keeper_scan_none (keep_list mgr) 0 (-1) h Hh) as Hf. rewrite E in Hf.
    destruct (keeper_scan_slot _ _ _ _ _ Hh E) as [[? _]|[_ [[-> Hl]|(n & k & -> & Hn & Hk & _)]]];
      [lia|lia| |].
    + left. by split; [apply Hf|].
    + right. split; [by apply Hf|]. exists n, k. split; [done|]. split; [done|].
      assert (Hlt := lookup_lt_Some _ _ _ Hn). pose proof (first_free_live _ _ _ Hn Hk) as Hnum.
      destruct Hok as [Hlen Hcount _ _ _].
      rewrite (proj2 (Z.leb_le 0 _)) by lia. rewrite aget_lookup by lia.
      replace (Z.to_nat (0 + Z.of_nat n)) with n by lia. rewrite Hn. simpl.
      rewrite aset_in by lia. replace (Z.to_nat (0 + Z.of_nat n)) with n by lia. simpl.
      pose proof (lsum_bits slot_live (keep_list mgr) slot_live_range).
      rewrite s32_small; [done|]. rewrite Hcount. lia.
Qed.

Lemma insert_ok mgr n k k' num' :
  keeper_ok mgr -> keep_list mgr !! n = Some k -> slot_ok k' ->
  (handle k' <> NULL -> handle k' <> handle k -> Forall (fun x => handle x <> handle k') (keep_list mgr)) ->
  num' = num mgr - slot_live k + slot_live k' ->
  keeper_ok (set_keep_list mgr num' (<[n := k']> (keep_list mgr))).
Proof.
  intros [Hlen Hnum Hid Hs Hu] Hn Hk' Hfresh ->. assert (Hlt := lookup_lt_Some _ _ _ Hn).
  split; simpl; [by rewrite length_insert|rewrite (lsum_insert _ _ _ _ _ Hn); lia|done|by apply Forall_insert|].
  assert (Hother : forall j b, j <> n -> keep_list mgr !! j = Some b -> handle b = handle k' -> handle k' <> NULL -> False).
  { intros j b Hj Hb Eb Hk'0. destruct (decide (handle k' = handle k)) as [Ek|Nk].
    - apply Hj. eapply Hu; [exact Hb|exact Hn|congruence|congruence].
    - rewrite Forall_lookup in Hfresh. by eapply Hfresh. }
  intros i j a b Ha Hb Hab Hnull.
  apply list_lookup_insert_Some in Ha as [(<- & <- & _)|[Hi Ha]];
    apply list_lookup_insert_Some in Hb as [(<- & <- & _)|[Hj Hb]]; [done| | |by eauto].
  - exfalso. eapply (Hother j b); eauto.
  - exfalso. eapply (Hother i a); eauto. congruence.
Qed.

Section Accounting.
Context {M : Type} {mem : KeepMem M} {refs : M -> Z -> Z -> Z} {laws : KeepLaws M refs}.
Variable HZ : Z.

Lemma keeper_take_refs m h ty r m' : valid_type ty ->
  keeper_take m h ty = (r, m') -> forall h' t,
  refs m' h' t = refs m h' t + (if (0 <=? r) && (h =? h') && (ty =? t) then 1 else 0).
Proof.
  intros [-> | ->] E h' t; unfold keeper_take in E; simpl in E.
  - pose proof (law_request m h h' t) as L. by rewrite E in L.
  - pose proof (law_inc m h h' t) as L. by rewrite E in L.
Qed.

Lemma keeper_drop_refs m h ty : valid_type ty -> 0 < refs m h ty -> forall h' t,
  refs (keeper_drop m h ty) h' t = refs m h' t - (if (h =? h') && (ty =? t) then 1 else 0).
Proof. intros [-> | ->] E h' t; unfold keeper_drop; simpl; by rewrite ?law_release, ?law_dec. Qed.

(** The invariant: the manager's list is well formed, and beyond the references
    of others, [base], there is one for each entry. *)
Definition keeper_inv (base : Z -> Z -> Z) (mgr : codec_mm_keeper_mgr) (m : M) : Prop :=
  keeper_ok mgr /\ forall h t, refs m h t = base h t + held mgr h t.

(** *** Masking *)

Lemma mask_inv base mgr m h ty r mgr' m' :
  keeper_inv base mgr m -> (forall h t, 0 <= base h t) ->
  codec_mm_keeper_mask_keep_mem mgr m h ty = Some (r, mgr', m') -> keeper_inv base mgr' m'.
Proof.
  intros [Hok Hrefs] Hbase H. unfold codec_mm_keeper_mask_keep_mem in H.
  destruct (Z.eqb_spec h NULL) as [|Hh]; [by inv_some|].
  case_hyp H; [by inv_some|].
  assert (Hty : valid_type ty) by (unfold valid_type; apply andb_false_iff in E as [?|?]; b2p; auto).
  destruct (keeper_take m h ty) as [ret m1] eqn:Et.
  pose proof (keeper_take_refs _ _ _ _ _ Hty Et) as Ht.
  assert (Hheld : 0 <= held mgr h ty).
  { apply (lsum_bits (slot_ref h ty)). auto with keeper. }
  destruct (Z.ltb_spec ret 0).
  - inv_some. split; [done|]. intros h' t. rewrite Ht, Hrefs, (proj2 (Z.leb_gt 0 ret)) by done.
    simpl. lia.
  - rewrite (proj2 (Z.leb_le 0 ret)) in Ht by done. simpl in Ht.
    assert (Hdrop : forall h' t, refs (keeper_drop m1 h ty) h' t = base h' t + held mgr h' t).
    { intros h' t. rewrite keeper_drop_refs, Ht, Hrefs; [lia|done|].
      rewrite Ht, Hrefs, !Z.eqb_refl. simpl. specialize (Hbase h ty). lia. }
    destruct (keeper_insert_cases mgr h ty Hok Hh) as
      [(n & k & Hn & Hk & Ei)|[(_ & _ & Ei)|(Hf & n & k & Hn & Hk & Ei)]];
      rewrite Ei in H; simpl in H; inv_some.
    + rewrite orb_true_r. split; [by apply bump_id_ok|done].
    + split; [by apply bump_id_ok|done].
    + assert (Hnext := ok_next _ Hok). rewrite orb_false_r, (proj2 (Z.ltb_ge _ 0)) by (unfold START_KEEP_ID in *; lia).
      split.
      * apply (insert_ok (bump_id mgr) n k); [by apply bump_id_ok|done| |done|].
        -- intros _. done.
        -- unfold slot_live. rewrite Hk. simpl. rewrite (proj2 (Z.eqb_neq _ _) Hh). lia.
      * intros h' t. rewrite Ht, Hrefs. unfold held. simpl. rewrite (lsum_insert _ _ _ _ _ Hn).
        rewrite (slot_ref_dead h' t k Hk), slot_ref_live by done. simpl. lia.
Qed.

Lemma mask_returns mgr m h ty : keeper_ok mgr ->
  exists r mgr' m', codec_mm_keeper_mask_keep_mem mgr m h ty = Some (r, mgr', m').
Proof.
  intros Hok. unfold codec_mm_keeper_mask_keep_mem.
  destruct (Z.eqb_spec h NULL) as [|Hh]; [eauto|]. case_goal; [eauto|].
  destruct (keeper_take m h ty) as [ret m1]. case_goal; [eauto|].
  destruct (keeper_insert_cases mgr h ty Hok Hh) as
      [(n & k & Hn & Hk & ->)|[(_ & _ & ->)|(Hf & n & k & Hn & Hk & ->)]]; simpl; eauto.
Qed.

(** *** Unmasking *)

Lemma keeper_unuse_spec l id j d :
  (exists n k, l !! n = Some k /\ keep_id k = id /\
     Forall (fun x => keep_id x <> id) (take n l) /\
     keeper_unuse HZ l id j d
     = <[n := set_user k (s32 (user k - 1)) (u64 (j + Z.quot (s32 (d * HZ)) 1000))]> l) \/
  (Forall (fun x => keep_id x <> id) l /\ keeper_unuse HZ l id j d = l).
Proof.
  induction l as [|k l IH]; [right; by split; [constructor|]|]. simpl.
  destruct (Z.eqb_spec id (keep_id k)) as [->|Hne].
  - left. exists O, k. split; [done|]. split; [done|]. by split; [constructor|].
  - destruct IH as [(n & k' & ? & ? & ? & ->)|[? ->]].
    + left. exists (S n), k'. split; [done|]. split; [done|]. by split; [constructor|].
    + right. split; [by constructor|done].
Qed.

Lemma schedule_ok mgr d : keeper_ok mgr -> keeper_ok (schedule_delayed_work mgr d).
Proof. intros [? ? ? ? ?]. unfold schedule_delayed_work. by case_goal. Qed.

Lemma schedule_list mgr d : keep_list (schedule_delayed_work mgr d) = keep_list mgr.
Proof. unfold schedule_delayed_work. by case_goal. Qed.

Lemma unmask_inv base mgr m j id d :
  keeper_inv base mgr m -> keeper_inv base (codec_mm_keeper_unmask_keeper HZ mgr j id d).2 m.
Proof.
  intros [Hok Hrefs]. unfold codec_mm_keeper_unmask_keeper. case_goal; [done|]. simpl.
  destruct (keeper_unuse_spec (keep_list mgr) id j d) as [(n & k & Hn & _ & _ & ->)|[_ ->]].
  - split.
    + apply schedule_ok. apply (insert_ok mgr n k); [done|done| |done|unfold slot_live; simpl; lia].
      exact (proj1 (Forall_lookup _ _) (ok_slots _ Hok) _ _ Hn).
    + intros h t. rewrite Hrefs. unfold held. rewrite schedule_list. simpl.
      rewrite (lsum_insert _ _ _ _ _ Hn). unfold slot_ref. simpl. lia.
  - split; [by apply schedule_ok; destruct Hok|]. intros h t. rewrite Hrefs. unfold held. by rewrite schedule_list.
Qed.

(** *** Releasing *)

Definition freed (k : keep_mem_info) : keep_mem_info := mk_keep NULL (keep_id k) (ktype k) (user k) 0.

Lemma free_keep_live mgr m n k :
  keeper_ok mgr -> keep_list mgr !! n = Some k -> handle k <> NULL ->
  codec_mm_keeper_free_keep mgr m (Z.of_nat n)
  = Some (0, set_keep_list mgr (num mgr - 1) (<[n := freed k]> (keep_list mgr)),
          keeper_drop m (handle k) (ktype k)).
Proof.
  intros Hok Hn Hk. assert (Hlt := lookup_lt_Some _ _ _ Hn). unfold codec_mm_keeper_free_keep.
  rewrite aget_lookup by lia. rewrite Nat2Z.id, Hn. simpl. rewrite aset_in, Nat2Z.id by lia. simpl.
  destruct (proj1 (Forall_lookup _ _) (ok_slots _ Hok) _ _ Hn Hk) as [Hty _].
  rewrite (proj2 (Z.eqb_neq _ _) Hk).
  pose proof (lsum_bits slot_live (keep_list mgr) slot_live_range) as B.
  pose proof (ok_length _ Hok). rewrite <- (ok_num _ Hok) in B.
  rewrite s32_small by lia. unfold keeper_drop, freed.
  destruct Hty as [E|E]; rewrite E; reflexivity.
Qed.

Lemma free_keep_inv base mgr m n k r mgr' m' :
  keeper_inv base mgr m -> (forall h t, 0 <= base h t) ->
  keep_list mgr !! n = Some k -> handle k <> NULL ->
  codec_mm_keeper_free_keep mgr m (Z.of_nat n) = Some (r, mgr', m') ->
  keeper_inv base mgr' m'.
Proof.
  intros [Hok Hrefs] Hbase Hn Hk H. rewrite (free_keep_live _ _ _ _ Hok Hn Hk) in H. inv_some.
  destruct (proj1 (Forall_lookup _ _) (ok_slots _ Hok) _ _ Hn Hk) as [Hty _].
  split.
  - apply (insert_ok mgr n k); [done|done|done|done|].
    unfold slot_live. rewrite (proj2 (Z.eqb_neq _ _) Hk). simpl. lia.
  - intros h t. rewrite keeper_drop_refs, Hrefs.
    + unfold held. simpl. rewrite (lsum_insert _ _ _ _ _ Hn), slot_ref_live by done.
      rewrite (slot_ref_dead h t (freed k)) by done. lia.
    + done.
    + rewrite Hrefs. specialize (Hbase (handle k) (ktype k)).
      assert (slot_ref (handle k) (ktype k) k <= held mgr (handle k) (ktype k)).
      { apply (lsum_member _ _ n); [intros; apply slot_ref_range|done]. }
      rewrite slot_ref_live, !Z.eqb_refl in H by done. simpl in H. lia.
Qed.

(** What a sweep leaves in the list. *)
Fixpoint sweep (now : Z -> Z) (force i : Z) (l : list keep_mem_info) : list keep_mem_info :=
  match l with
  | [] => []
  | k :: l => (if keeper_want_free k (now i) force then freed k else k) :: sweep now force (i + 1) l
  end.

Lemma want_free_live k j force : keeper_want_free k j force = true -> handle k <> NULL.
Proof. unfold keeper_want_free. case_goal; [done|]. intros _. by b2p. Qed.

Lemma free_all_loop now force rest : forall pre mgr m,
  keeper_ok mgr -> keep_list mgr = pre ++ rest ->
  exists m', loop (S (length rest)) (free_all_body now force) (zlen pre, mgr, m)
  = Some (Some (0, set_keep_list mgr (lsum slot_live (pre ++ sweep now force (zlen pre) rest))
                     (pre ++ sweep now force (zlen pre) rest), m')).
Proof.
  induction rest as [|k rest IH]; intros pre mgr m Hok Hl.
  - exists m. rewrite app_nil_r in Hl. simpl. rewrite app_nil_r.
    pose proof (ok_length _ Hok) as L. rewrite Hl in L. rewrite L. simpl.
    do 4 f_equal. destruct mgr. unfold set_keep_list. simpl in *. subst. f_equal. by destruct Hok.
  - assert (Hn : keep_list mgr !! length pre = Some k) by (rewrite Hl; by apply list_lookup_middle).
    assert (L := ok_length _ Hok). rewrite Hl, length_app in L. simpl in L.
    change (loop (S (length (k :: rest))) (free_all_body now force) (zlen pre, mgr, m)) with
      (match free_all_body now force (zlen pre, mgr, m) with
       | inl s => loop (S (length rest)) (free_all_body now force) s | inr r => Some r end).
    unfold free_all_body at 1. rewrite (proj2 (Z.ltb_lt _ MAX_KEEP_FRAME)) by (unfold MAX_KEEP_FRAME; lia).
    rewrite aget_lookup, Nat2Z.id, Hn by lia. simpl sweep.
    assert (Hz : forall x : keep_mem_info, zlen (pre ++ [x]) = zlen pre + 1)
      by (intros; rewrite length_app; simpl; lia).
    destruct (keeper_want_free k (now (zlen pre)) force) eqn:Ew.
    + assert (Hk := want_free_live _ _ _ Ew). rewrite (free_keep_live _ _ _ _ Hok Hn Hk).
      destruct (IH (pre ++ [freed k]) (set_keep_list mgr (num mgr - 1) (<[length pre := freed k]> (keep_list mgr)))
        (keeper_drop m (handle k) (ktype k))) as [m' Hm].
      * apply (insert_ok mgr (length pre) k); [done|done|done|done|].
        unfold slot_live. rewrite (proj2 (Z.eqb_neq _ _) Hk). simpl. lia.
      * simpl. rewrite Hl, insert_app_r_alt, Nat.sub_diag by lia. simpl. by rewrite <- app_assoc.
      * exists m'. rewrite Hz, <- app_assoc in Hm. exact Hm.
    + destruct (IH (pre ++ [k]) mgr m) as [m' Hm]; [done|by rewrite <- app_assoc|].
      exists m'. rewrite Hz, <- app_assoc in Hm. exact Hm.
Qed.

Lemma free_all_spec mgr m now force : keeper_ok mgr ->
  exists m', codec_mm_keeper_free_all_keep mgr m now force
  = Some (0, set_keep_list mgr (lsum slot_live (sweep now force 0 (keep_list mgr)))
               (sweep now force 0 (keep_list mgr)), m').
Proof.
  intros Hok. destruct (free_all_loop now force (keep_list mgr) [] mgr m Hok eq_refl) as [m' H].
  exists m'. unfold codec_mm_keeper_free_all_keep.
  rewrite (ok_length _ Hok) in H. change (Z.to_nat MAX_KEEP_FRAME) with 16%nat.
  change (zlen []) with 0 in H. by rewrite H.
Qed.

Lemma free_all_inv base mgr m now force r mgr' m' :
  keeper_inv base mgr m -> (forall h t, 0 <= base h t) ->
  codec_mm_keeper_free_all_keep mgr m now force = Some (r, mgr', m') ->
  keeper_inv base mgr' m'.
Proof.
  intros Hinv Hbase. unfold codec_mm_keeper_free_all_keep.
  destruct (loop _ _ _) as [res|] eqn:E; [|done]. simpl. intros ->.
  refine (loop_invariant (free_all_body now force)
    (fun st => 0 <= st.1.1 /\ keeper_inv base st.1.2 st.2)
    (fun res => forall r mgr' m', res = Some (r, mgr', m') -> keeper_inv base mgr' m')
    _ _ _ _ _ _ E _ _ _ eq_refl); [| |by split].
  - intros [[i g] w] [[i' g'] w'] [Hi Hg] H. unfold free_all_body in H. simpl in *.
    case_hyp H; [|done]. destruct (aget (keep_list g) i) as [k|] eqn:Ek; [|done].
    destruct (keeper_want_free k (now i) force) eqn:Ew; [|inv_some; split; [lia|done]].
    destruct (codec_mm_keeper_free_keep g w i) as [[[r1 g1] w1]|] eqn:Ef; [|done]. inv_some.
    split; [lia|]. rewrite aget_lookup in Ek by done. rewrite <- (Z2Nat.id i) in Ef by done.
    eapply free_keep_inv; [exact Hg|done|exact Ek|by eapply want_free_live|exact Ef].
  - intros [[i g] w] res [Hi Hg] H r1 g1 w1 ->. unfold free_all_body in H. simpl in *.
    repeat case_hyp H; inv_some; done.
Qed.

Lemma monitor_inv base mgr m now mgr' m' :
  keeper_inv base mgr m -> (forall h t, 0 <= base h t) ->
  codec_mm_keeper_monitor mgr m now = Some (mgr', m') -> keeper_inv base mgr' m'.
Proof.
  intros [[] Hrefs] Hbase. unfold codec_mm_keeper_monitor.
  destruct (codec_mm_keeper_free_all_keep _ _ _ _) as [[[r g] w]|] eqn:E; [|done]. simpl. intros H. inv_some.
  eapply (free_all_inv base) in E as [Hok Hr]; [|by split|done].
  case_goal; [|done]. split; [by apply schedule_ok|]. intros h t. rewrite Hr. unfold held. by rewrite schedule_list.
Qed.

(** ** The life of a kept buffer *)

Lemma sweep_lookup now force l : forall i n,
  sweep now force i l !! n
  = (fun k => if keeper_want_free k (now (i + Z.of_nat n)) force then freed k else k) <$> l !! n.
Proof.
  induction l as [|k l IH]; intros i [|n]; try done; simpl.
  - by rewrite Z.add_0_r.
  - rewrite IH. by replace (i + 1 + Z.of_nat n) with (i + Z.of_nat (S n)) by lia.
Qed.

Lemma mask_fresh mgr m h ty id mgr1 m1 :
  keeper_ok mgr -> Forall (fun k => handle k <> h) (keep_list mgr) ->
  codec_mm_keeper_mask_keep_mem mgr m h ty = Some (id, mgr1, m1) -> 0 <= id ->
  h <> NULL /\ valid_type ty /\ id = next_id mgr /\ exists n k,
    keep_list mgr !! n = Some k /\ handle k = NULL /\
    keep_list mgr1 = <[n := mk_keep h id ty 1 (delay_on_jiffies64 k)]> (keep_list mgr).
Proof.
  intros Hok Hf H Hid. unfold codec_mm_keeper_mask_keep_mem in H.
  destruct (Z.eqb_spec h NULL) as [|Hh]; [inv_some; lia|]. split; [done|].
  case_hyp H; [inv_some; lia|].
  split; [unfold valid_type; apply andb_false_iff in E as [?|?]; b2p; auto|].
  destruct (keeper_take m h ty) as [ret m2]. case_hyp H; [inv_some; lia|].
  destruct (keeper_insert_cases mgr h ty Hok Hh) as
      [(n & k & Hn & Hk & Ei)|[(_ & _ & Ei)|(_ & n & k & Hn & Hk & Ei)]];
      rewrite Ei in H; simpl in H; inv_some; [|lia|].
  - rewrite Forall_lookup in Hf. by destruct (Hf _ _ Hn).
  - split; [done|]. by exists n, k.
Qed.

(** Unmasking an id that one slot has hits that slot. *)
Lemma unmask_slot mgr n k j d :
  keep_list mgr !! n = Some k -> START_KEEP_ID <= keep_id k < MAX_KEEP_ID ->
  (forall i x, keep_list mgr !! i = Some x -> keep_id x = keep_id k -> i = n) ->
  keep_list (codec_mm_keeper_unmask_keeper HZ mgr j (keep_id k) d).2
  = <[n := set_user k (s32 (user k - 1)) (u64 (j + Z.quot (s32 (d * HZ)) 1000))]> (keep_list mgr)
  /\ is_Some (dealy_work (codec_mm_keeper_unmask_keeper HZ mgr j (keep_id k) d).2).
Proof.
  intros Hn Hr Hu. unfold codec_mm_keeper_unmask_keeper.
  rewrite (proj2 (Z.ltb_ge _ _)), (proj2 (Z.leb_gt _ _)) by lia. simpl. split.
  - rewrite schedule_list. simpl.
    destruct (keeper_unuse_spec (keep_list mgr) (keep_id k) j d) as [(n' & k' & Hn' & Hk' & _ & ->)|[Hf _]].
    + assert (n' = n) as -> by eauto. by simplify_eq.
    + rewrite Forall_lookup in Hf. by destruct (Hf _ _ Hn).
  - unfold schedule_delayed_work. simpl. destruct (dealy_work mgr) as [w|] eqn:E; simpl; rewrite ?E; by eexists.
Qed.

(** A slot whose buffer nobody uses is released by the work after its deadline. *)
Lemma monitor_releases base mgr m now n k :
  keeper_inv base mgr m -> (forall h t, 0 <= base h t) ->
  keep_list mgr !! n = Some k -> handle k <> NULL -> user k <= 0 ->
  (forall i, time_after64 (now i) (delay_on_jiffies64 k) = true) ->
  exists mgr' m', codec_mm_keeper_monitor mgr m now = Some (mgr', m') /\
    held mgr' (handle k) (ktype k) = 0 /\
    refs m' (handle k) (ktype k) = base (handle k) (ktype k).
Proof.
  intros Hinv Hb Hn Hk Hu Ht. destruct Hinv as [Hok Hr].
  assert (Hok1 : keeper_ok (mk_mgr (num mgr) None (s32 (work_runs mgr + 1)) (keep_list mgr) (next_id mgr)))
    by (by destruct Hok).
  destruct (free_all_spec _ m now 0 Hok1) as [m' E]. simpl in E.
  assert (Hm : exists mgr', codec_mm_keeper_monitor mgr m now = Some (mgr', m') /\
     keep_list mgr' = sweep now 0 0 (keep_list mgr)).
  { unfold codec_mm_keeper_monitor. rewrite E. simpl. eexists. split; [done|].
    case_goal; rewrite ?schedule_list; done. }
  destruct Hm as (mgr' & Em & El). exists mgr', m'. split; [done|].
  apply (monitor_inv base) in Em as [_ Hr']; [|done..].
  assert (Hheld : held mgr' (handle k) (ktype k) = 0); [|split; [done|rewrite Hr'; lia]].
  unfold held. rewrite El. clear -Hn Hk Hu Ht Hok.
  assert (Hall : Forall (fun x => slot_ref (handle k) (ktype k) x = 0) (sweep now 0 0 (keep_list mgr))).
  { apply Forall_lookup. intros i x. rewrite sweep_lookup. intros Hx.
    destruct (keep_list mgr !! i) as [y|] eqn:Ey; [|done]. simpl in Hx. injection Hx as <-.
    destruct (decide (handle y = handle k)) as [Ehk|Ne].
    - assert (i = n) as -> by (eapply (ok_unique _ Hok); eauto; congruence). simplify_eq.
      destruct (proj1 (Forall_lookup _ _) (ok_slots _ Hok) _ _ Hn Hk) as [_ ?].
      unfold keeper_want_free. rewrite (proj2 (Z.eqb_neq _ _) Hk), (proj2 (Z.ltb_ge _ 0)) by (unfold START_KEEP_ID in *; lia).
      rewrite Ht, (proj2 (Z.leb_le _ 0)) by done. simpl. by apply slot_ref_dead.
    - case_goal; [by apply slot_ref_dead|]. unfold slot_ref.
      rewrite (proj2 (Z.eqb_neq (handle y) (handle k))) by done. by rewrite andb_false_r. }
  clear -Hall. induction Hall as [|x l Hx _ IH]; [done|]. rewrite lsum_cons. lia.
Qed.

End Accounting.

(** ** The properties *)

(** A memory manager that only counts. *)
Definition count_ref (m : Z -> Z -> Z) (h t n : Z) : Z -> Z -> Z :=
  fun h' t' => m h' t' + (if (h =? h') && (t =? t') then n else 0).

#[export] Instance counting_mem : KeepMem (Z -> Z -> Z) := {
  codec_mm_scatter_inc_for_keeper m h := (1, count_ref m h MEM_TYPE_CODEC_MM_SCATTER 1);
  codec_mm_scatter_dec_keeper_user m h := count_ref m h MEM_TYPE_CODEC_MM_SCATTER (-1);
  codec_mm_request_shared_mem m h := (0, count_ref m h MEM_TYPE_CODEC_MM 1);
  codec_mm_release_with_check m h := count_ref m h MEM_TYPE_CODEC_MM (-1) }.

#[export] Instance counting_laws : KeepLaws (Z -> Z -> Z) (fun m => m).
Proof.
  split; intros; cbn -[Z.eqb Z.add MEM_TYPE_CODEC_MM MEM_TYPE_CODEC_MM_SCATTER]; unfold count_ref;
    destruct (h =? h'), (_ =? t); cbn -[Z.add]; lia.
Qed.

(** The keeper with one picture, handle 77, masked at the start. *)
Definition one_kept : codec_mm_keeper_mgr :=
  mk_mgr 1 None 0 (mk_keep 77 9 111 1 0 :: replicate 15 (mk_keep NULL 0 0 0 0)) 10.

Lemma mask_77 :
  codec_mm_keeper_mask_keep_mem codec_mm_keeper_mgr_init (fun _ _ => 0) 77 MEM_TYPE_CODEC_MM
  = Some (9, one_kept, count_ref (fun _ _ => 0) 77 MEM_TYPE_CODEC_MM 1).
Proof. reflexivity. Qed.

Section Life.
Context {M : Type} {mem : KeepMem M} {refs : M -> Z -> Z -> Z} {laws : KeepLaws M refs}.
Variable HZ : Z.
Variables (base : Z -> Z -> Z) (mgr mgr1 : codec_mm_keeper_mgr) (m m1 : M) (h ty id : Z).
Hypothesis base_pos : forall h t, 0 <= base h t.
Hypothesis inv : keeper_inv (refs := refs) base mgr m.
Hypothesis fresh_handle : Forall (fun k => handle k <> h) (keep_list mgr).
Hypothesis fresh_id : Forall (fun k => keep_id k <> next_id mgr) (keep_list mgr).
Hypothesis masked : codec_mm_keeper_mask_keep_mem mgr m h ty = Some (id, mgr1, m1).
Hypothesis id_pos : 0 <= id.

(** The slot of the masked handle, before and after the unmask. *)
Lemma masked_slot : exists n k,
  keep_list mgr1 !! n = Some k /\ handle k = h /\ ktype k = ty /\ keep_id k = id /\ user k = 1 /\
  START_KEEP_ID <= id < MAX_KEEP_ID /\ h <> NULL /\ keeper_inv (refs := refs) base mgr1 m1 /\
  (forall i x, keep_list mgr1 !! i = Some x -> keep_id x = id -> i = n).
Proof.
  destruct (mask_fresh _ _ _ _ _ _ _ (proj1 inv) fresh_handle masked id_pos) as (Hh & Hty & Hid & n & k & Hn & Hk & El).
  assert (Hlt := lookup_lt_Some _ _ _ Hn).
  eexists n, _. split; [rewrite El; apply list_lookup_insert_eq; done|].
  do 4 (split; [done|]). split; [rewrite Hid; apply (ok_next _ (proj1 inv))|]. split; [done|].
  split; [exact (mask_inv _ _ _ _ _ _ _ _ inv base_pos masked)|].
  intros i x Hi Hx. rewrite El in Hi. apply list_lookup_insert_Some in Hi as [(-> & _)|[_ Hi]]; [done|].
  rewrite Forall_lookup in fresh_id. destruct (fresh_id _ _ Hi). congruence.
Qed.

Definition deadline (j d : Z) : Z := u64 (j + Z.quot (s32 (d * HZ)) 1000).

Lemma unmasked_slot j d : exists n k mgr2,
  mgr2 = (codec_mm_keeper_unmask_keeper HZ mgr1 j id d).2 /\
  keep_list mgr2 !! n = Some k /\ handle k = h /\ ktype k = ty /\ keep_id k = id /\ user k = 0 /\
  delay_on_jiffies64 k = deadline j d /\ h <> NULL /\ is_Some (dealy_work mgr2) /\
  keeper_inv (refs := refs) base mgr2 m1.
Proof.
  destruct masked_slot as (n & k & Hn & Hh & Ht & Hi & Hu & Hr & Hnull & Hinv & Huniq). subst id.
  destruct (unmask_slot HZ mgr1 n k j d Hn Hr Huniq) as [El Hw].
  assert (Hlt := lookup_lt_Some _ _ _ Hn).
  eexists n, _, _. split; [done|]. rewrite El. split; [apply list_lookup_insert_eq; done|].
  simpl. rewrite Hu. do 7 (split; [done|]). exact (unmask_inv HZ base mgr1 m1 j (keep_id k) d Hinv).
Qed.

(** Masking a handle again between its unmask and the work returns the old id as
    if the buffer were kept again, but takes no reference and no user: the work
    still releases the buffer under the second owner. *)
Theorem keeper_remask_lost j d id3 mgr3 m3 :
  codec_mm_keeper_mask_keep_mem (codec_mm_keeper_unmask_keeper HZ mgr1 j id d).2 m1 h ty
    = Some (id3, mgr3, m3) -> 0 <= id3 ->
  id3 = id /\
  forall now, (forall i, time_after64 (now i) (deadline j d) = true) ->
  exists mgr4 m4, codec_mm_keeper_monitor mgr3 m3 now = Some (mgr4, m4) /\
    held mgr4 h ty = 0 /\ refs m4 h ty = base h ty.
Proof.
  destruct (unmasked_slot j d) as (n & k & mgr2 & <- & Hn & Hh & Hk & Hki & Hu & Hd & Hnull & _ & Hinv).
  intros Hm Hid. pose proof (mask_inv _ _ _ _ _ _ _ _ Hinv base_pos Hm) as Hinv3.
  unfold codec_mm_keeper_mask_keep_mem in Hm.
  rewrite (proj2 (Z.eqb_neq _ _) Hnull) in Hm. case_hyp Hm; [inv_some; lia|].
  destruct (keeper_take m1 h ty) as [ret m2]. case_hyp Hm; [inv_some; lia|].
  destruct (keeper_insert_cases mgr2 h ty (proj1 Hinv) Hnull) as
      [(n' & k' & Hn' & Hk' & Ei)|[(Hf & _ & _)|(Hf & _)]].
  - rewrite Ei in Hm. simpl in Hm. inv_some.
    assert (n' = n) as -> by (eapply (ok_unique _ (proj1 Hinv)); eauto; congruence). simplify_eq.
    split; [done|]. intros now Ht. apply (monitor_releases _ _ _ _ n); [done..|lia|by rewrite Hd].
  - rewrite Forall_lookup in Hf. by destruct (Hf _ _ Hn).
  - rewrite Forall_lookup in Hf. by destruct (Hf _ _ Hn).
Qed.

End Life.

Lemma empty_inv : keeper_inv (refs := fun m => m) (fun _ _ => 0) codec_mm_keeper_mgr_init (fun _ _ : Z => 0).
Proof.
  split; [apply keeper_init_ok|]. intros h t. unfold held. simpl. rewrite !slot_ref_dead by done. done.
Qed.

Lemma keeper_remask_lost_witness : exists mgr3 m3,
  codec_mm_keeper_mask_keep_mem (codec_mm_keeper_unmask_keeper 250 one_kept 1000 9 0).2
    (count_ref (fun _ _ => 0) 77 MEM_TYPE_CODEC_MM 1) 77 MEM_TYPE_CODEC_MM = Some (9, mgr3, m3) /\
  exists mgr4 m4, codec_mm_keeper_monitor mgr3 m3 (fun _ => 1001) = Some (mgr4, m4) /\
    held mgr4 77 MEM_TYPE_CODEC_MM = 0 /\ m4 77 MEM_TYPE_CODEC_MM = 0.
Proof.
  eexists _, _. split; [reflexivity|].
  refine (proj2 (keeper_remask_lost 250 (fun _ _ => 0) codec_mm_keeper_mgr_init one_kept
    (fun _ _ => 0) (count_ref (fun _ _ => 0) 77 MEM_TYPE_CODEC_MM 1) 77 MEM_TYPE_CODEC_MM 9
    _ empty_inv _ _ mask_77 _ 1000 0 9 _ _ _ _) (fun _ => 1001) _).
  - intros. lia.
  - repeat constructor; simpl; unfold NULL; lia.
  - repeat constructor; simpl; unfold START_KEEP_ID; lia.
  - lia.
  - reflexivity.
  - lia.
  - reflexivity.
Defined.

(** Two sweeps that both see a buffer due before either has taken the lock both
    call the release: the second finds no handle but has already decremented the
    counter, which is then one below the number of buffers still kept. *)
Theorem keeper_double_sweep_count {M : Type} {mem : KeepMem M} mgr (m : M) n k :
  keeper_ok mgr -> keep_list mgr !! n = Some k -> handle k <> NULL ->
  exists mgr1 m1 mgr2,
    codec_mm_keeper_free_keep mgr m (Z.of_nat n) = Some (0, mgr1, m1) /\
    codec_mm_keeper_free_keep mgr1 m1 (Z.of_nat n) = Some (-1, mgr2, m1) /\
    num mgr2 = lsum slot_live (keep_list mgr2) - 1.
Proof.
  intros Hok Hn Hk. rewrite (free_keep_live _ _ _ _ Hok Hn Hk). eexists _, _, _. split; [done|].
  assert (Hlt := lookup_lt_Some _ _ _ Hn).
  unfold codec_mm_keeper_free_keep. simpl. rewrite aget_lookup, Nat2Z.id by lia.
  rewrite list_lookup_insert_eq by done. simpl. rewrite aset_in by (rewrite length_insert; lia). simpl.
  split; [done|]. simpl. rewrite Nat2Z.id, list_insert_insert_eq, (lsum_insert _ _ _ _ _ Hn).
  pose proof (lsum_bits slot_live (keep_list mgr) slot_live_range) as B.
  rewrite <- (ok_num _ Hok) in *. rewrite (ok_length _ Hok) in B.
  rewrite s32_small by lia.
  unfold slot_live. rewrite (proj2 (Z.eqb_neq _ _) Hk). simpl. lia.
Qed.

(** With a second picture kept, the counter then reads 0 and the work, run
    before that picture is due, is not scheduled again. *)
Definition two_kept : codec_mm_keeper_mgr :=
  mk_mgr 2 None 0 (mk_keep 77 9 111 0 5 :: mk_keep 78 10 111 0 2000 :: replicate 14 (mk_keep NULL 0 0 0 0)) 11.

Lemma two_kept_ok : keeper_ok two_kept.
Proof.
  split; try done.
  - repeat (apply Forall_cons_2; [intros H; first [by destruct H|split; [by left|done]]|]). apply Forall_nil_2.
  - intros i j a b Ha Hb. do 16 (destruct i as [|i]; [simpl in Ha; injection Ha as <-;
      do 16 (destruct j as [|j]; [simpl in Hb; injection Hb as <-; done|]); done|]). done.
Qed.

Lemma keeper_double_sweep_count_witness : exists mgr1 m1 mgr2 mgr3 m3,
  codec_mm_keeper_free_keep two_kept (fun _ _ => 1) 0 = Some (0, mgr1, m1) /\
  codec_mm_keeper_free_keep mgr1 m1 0 = Some (-1, mgr2, m1) /\
  num mgr2 = lsum slot_live (keep_list mgr2) - 1 /\
  codec_mm_keeper_monitor mgr2 m1 (fun _ => 1000) = Some (mgr3, m3) /\
  dealy_work mgr3 = None /\ lsum slot_live (keep_list mgr3) = 1.
Proof.
  destruct (keeper_double_sweep_count two_kept (fun _ _ => 1) 0 (mk_keep 77 9 111 0 5) two_kept_ok)
    as (mgr1 & m1 & mgr2 & H1 & H2 & H3); [done|done|].
  assert (E1 := H1). vm_compute in E1. injection E1 as <- <-. assert (E2 := H2). vm_compute in E2. injection E2 as <-.
  eexists _, _, _, _, _. split; [exact H1|]. split; [exact H2|]. split; [exact H3|].
  split; [reflexivity|]. by split.
Defined.

(** A forced sweep empties the list and gives every reference back. *)
Theorem keeper_force_free {M : Type} {mem : KeepMem M} {refs : M -> Z -> Z -> Z} {laws : KeepLaws M refs}
    base mgr (m : M) now :
  keeper_inv (refs := refs) base mgr m -> (forall h t, 0 <= base h t) ->
  exists mgr' m', codec_mm_keeper_free_all_keep mgr m now 1 = Some (0, mgr', m') /\
    num mgr' = 0 /\ Forall (fun k => handle k = NULL) (keep_list mgr') /\
    forall h t, refs m' h t = base h t.
Proof.
  intros Hinv Hb. destruct (free_all_spec mgr m now 1 (proj1 Hinv)) as [m' E].
  eexists _, m'. split; [exact E|]. pose proof (free_all_inv _ _ _ _ _ _ _ _ Hinv Hb E) as [Hok' Hr'].
  assert (Hall : Forall (fun k => handle k = NULL) (sweep now 1 0 (keep_list mgr))).
  { apply Forall_lookup. intros i x. rewrite sweep_lookup. intros Hx.
    destruct (keep_list mgr !! i) as [y|] eqn:Ey; [|done]. simpl in Hx. injection Hx as <-.
    destruct (decide (handle y = NULL)) as [Ez|Nz]; [case_goal; done|].
    destruct (proj1 (Forall_lookup _ _) (ok_slots _ (proj1 Hinv)) _ _ Ey Nz) as [_ Hid].
    unfold keeper_want_free. rewrite (proj2 (Z.eqb_neq _ _) Nz), (proj2 (Z.ltb_ge _ 0)) by (unfold START_KEEP_ID in *; lia).
    done. }
  assert (Hz : forall f, (forall k, handle k = NULL -> f k = 0) -> lsum f (sweep now 1 0 (keep_list mgr)) = 0).
  { intros f Hf. clear -Hall Hf. induction Hall as [|x l Hx _ IH]; [done|]. rewrite lsum_cons, (Hf x Hx). lia. }
  split; [apply Hz; unfold slot_live; by intros k ->|]. split; [done|].
  intros h t. rewrite Hr'. unfold held. simpl. rewrite Hz; [lia|]. intros. by apply slot_ref_dead.
Qed.

Lemma keeper_force_free_witness : exists mgr' m',
  codec_mm_keeper_free_all_keep one_kept (count_ref (fun _ _ => 0) 77 MEM_TYPE_CODEC_MM 1) (fun _ => 0) 1
    = Some (0, mgr', m') /\
  num mgr' = 0 /\ Forall (fun k => handle k = NULL) (keep_list mgr') /\ forall h t, m' h t = 0.
Proof.
  apply (keeper_force_free (refs := fun m => m) (fun _ _ => 0)); [|intros; lia].
  exact (mask_inv (refs := fun m => m) _ _ _ _ _ _ _ _ empty_inv (fun _ _ => Z.le_refl 0) mask_77).
Defined.

(** ** The dump *)

Lemma str_length_app (s t : string) :
  String.length (s +:+ t) = (String.length s + String.length t)%nat.
Proof. induction s as [|c s IH]; [done|]. change (S (String.length (s +:+ t)) = S (String.length s) + String.length t)%nat. lia. Qed.

Lemma bufprint_overrun lines c t :
  c < t + lsum (fun s => Z.of_nat (String.length s)) lines -> t <= c -> bufprint lines c t = None.
Proof.
  revert t. induction lines as [|s lines IH]; intros t H Ht; simpl in H; [lia|]. simpl.
  case_goal; [|done]. b2p. apply IH; lia.
Qed.

Lemma keeper_lines_length fmt_p l : forall i,
  36 * zlen l <= lsum (fun s => Z.of_nat (String.length s)) (keeper_lines fmt_p l i).
Proof.
  induction l as [|k l IH]; intros i; [done|]. simpl keeper_lines. rewrite lsum_cons.
  specialize (IH (i + 1)). rewrite !str_length_app. simpl String.length. simpl length. lia.
Qed.

(** Without a buffer the dump is built in a local array of 512 bytes, which the
    sixteen lines overrun whatever the list holds. *)
Theorem keeper_dump_overruns fmt_p mgr size :
  keeper_ok mgr -> codec_mm_keeper_dump_info fmt_p mgr None size = None.
Proof.
  intros Hok. apply bufprint_overrun; [|lia]. unfold keeper_dump_lines. rewrite lsum_cons.
  pose proof (keeper_lines_length fmt_p (keep_list mgr) 0) as H. rewrite (ok_length _ Hok) in H. lia.
Qed.

Lemma keeper_dump_overruns_witness :
  codec_mm_keeper_dump_info (fun _ => "0000000000000000"%string) codec_mm_keeper_mgr_init None 512 = None.
Proof. exact (keeper_dump_overruns _ _ 512 keeper_init_ok). Defined.
