(* ===== verification/KeeperSteps.v ===== *)
(** * The keeper, piece by piece

    The calls of the keeper as the lock divides them: a mask takes its reference before
    the lock, a release drops its reference behind it, and a sweep looks at a slot
    without it.  Any number of masks, unmasks and sweeps run at once, over any manager of the
    memory.  The whole calls of [Keeper] are runs of these pieces. *)

From stdpp Require Import base numbers list option relations.
From S2P Require Import Prelude Keeper KeeperSpec.

(** ** The pieces of the calls *)

(** The part of [codec_mm_keeper_free_keep] under the lock: what was in the slot. *)
Definition free_locked (mgr : codec_mm_keeper_mgr) (index : Z) : option (Z * Z * codec_mm_keeper_mgr) :=
  k ← aget (keep_list mgr) index;
  l ← aset (keep_list mgr) index (mk_keep NULL (keep_id k) (ktype k) (user k) 0);
  Some (handle k, ktype k, set_keep_list mgr (s32 (num mgr - 1)) l).

Section Parts.
Context {M : Type} {mem : KeepMem M}.

Lemma free_keep_parts mgr (m : M) i : codec_mm_keeper_free_keep mgr m i =
  ('(h, ty, mgr1) ← free_locked mgr i; Some (if h =? NULL then (-1, mgr1, m) else (0, mgr1, keeper_drop m h ty))).
Proof.
  unfold codec_mm_keeper_free_keep, free_locked. destruct (aget (keep_list mgr) i) as [k|]; [|done]. cbn [mbind option_bind].
  destruct (aset _ _ _) as [l|]; [|done]. cbn [mbind option_bind]. destruct (handle k =? NULL); [done|]. unfold keeper_drop.
  destruct (Z.eqb_spec (ktype k) MEM_TYPE_CODEC_MM) as [->|]; [done|]. by destruct (ktype k =? MEM_TYPE_CODEC_MM_SCATTER).
Qed.
Lemma mask_parts mgr (m : M) h ty : h <> NULL -> valid_type ty -> codec_mm_keeper_mask_keep_mem mgr m h ty =
  (let '(ret, m1) := keeper_take m h ty in
   if ret <? 0 then Some (-4, mgr, m1)
   else '(id, have_samed, mgr1) ← keeper_insert mgr h ty; Some (id, mgr1, if (id <? 0) || have_samed then keeper_drop m1 h ty else m1)).
Proof.
  intros Hh Hty. unfold codec_mm_keeper_mask_keep_mem. rewrite (proj2 (Z.eqb_neq _ _) Hh). by destruct Hty as [-> | ->].
Qed.
End Parts.

(** ** The list *)

(** The list is well formed, whatever the counter says. *)
Definition slots_ok (l : list keep_mem_info) (next : Z) : Prop := keeper_ok (mk_mgr (lsum slot_live l) None 0 l next).

Lemma slots_upd l next n k k' : slots_ok l next -> l !! n = Some k -> slot_ok k' ->
  (handle k' <> NULL -> handle k' <> handle k -> Forall (fun x => handle x <> handle k') l) -> slots_ok (<[n := k']> l) next.
Proof. intros Hok Hn Hk Hf. unfold slots_ok. rewrite (lsum_insert _ _ _ _ _ Hn). by apply (insert_ok (mk_mgr (lsum slot_live l) None 0 l next) n k). Qed.
Definition bumped (next : Z) : Z := let n := s32 (next + 1) in if MAX_KEEP_ID <=? n then START_KEEP_ID else n.
Lemma slots_bump l next : slots_ok l next -> slots_ok l (bumped next).
Proof. intros Hok. exact (bump_id_ok _ Hok). Qed.
Lemma slots_unuse HZ l next id j d : slots_ok l next -> slots_ok (keeper_unuse HZ l id j d) next /\ (lsum slot_live (keeper_unuse HZ l id j d) = lsum slot_live l) /\
  forall h t, lsum (slot_ref h t) (keeper_unuse HZ l id j d) = lsum (slot_ref h t) l.
Proof.
  intros Hok. destruct (keeper_unuse_spec HZ l id j d) as [(n & k & Hn & _ & _ & ->)|[_ ->]]; [|done]. split; [|split].
  - apply (slots_upd l next n k); [done|done| |done]. exact (proj1 (Forall_lookup _ _) (ok_slots _ Hok) _ _ Hn).
  - rewrite (lsum_insert _ _ _ _ _ Hn). unfold slot_live. cbn. lia.
  - intros h t. rewrite (lsum_insert _ _ _ _ _ Hn). unfold slot_ref. cbn. lia.
Qed.

(** What the part of a mask under the lock does. *)
Lemma insert_slots mgr h ty id same mgr' : slots_ok (keep_list mgr) (next_id mgr) -> h <> NULL -> valid_type ty -> keeper_insert mgr h ty = Some (id, same, mgr') ->
  slots_ok (keep_list mgr') (next_id mgr') /\ (same = true \/ 0 <= id \/ id = -1) /\
  if (id <? 0) || same then keep_list mgr' = keep_list mgr /\ num mgr' = num mgr
  else num mgr' = s32 (num mgr + 1) /\ lsum slot_live (keep_list mgr') = lsum slot_live (keep_list mgr) + 1 /\
    forall h' t, held mgr' h' t = held mgr h' t + if (h =? h') && (ty =? t) then 1 else 0.
Proof.
  intros Hok Hh Hty E. pose proof (keeper_insert_cases (mk_mgr (lsum slot_live (keep_list mgr)) None 0 (keep_list mgr) (next_id mgr)) h ty Hok Hh) as Hc.
  unfold keeper_insert in E, Hc. cbn [keep_list next_id] in E, Hc. fold (bumped (next_id mgr)) in E, Hc. pose proof (slots_bump _ _ Hok) as Hok1. pose proof (ok_next _ Hok) as Hnext. cbn [next_id] in Hnext.
  destruct (keeper_scan (keep_list mgr) 0 (-1) h) as [s [old|]].
  - inversion E; subst id same mgr'. rewrite orb_true_r. split; [exact Hok1|]. split; [by left|done].
  - destruct Hc as [(n & k & _ & _ & Hc)|[(_ & _ & Hc)|(Hf & n & k & Hn & Hk & Hc)]].
    + exfalso. destruct (0 <=? s); [|done]. destruct (aget _ s); [|done]. cbn [mbind option_bind] in Hc. by destruct (aset _ _ _).
    + destruct (0 <=? s); [destruct (aget _ s); [|done]; cbn [mbind option_bind] in Hc; destruct (aset _ _ _); [|done]; inversion Hc; unfold START_KEEP_ID in *; lia|].
      inversion E; subst id same mgr'. split; [exact Hok1|]. split; [by do 2 right|done].
    + cbn [keep_list] in *. destruct (0 <=? s); [|inversion Hc; unfold START_KEEP_ID in *; lia]. destruct (aget _ s) as [o|]; [|done]. cbn [mbind option_bind] in E, Hc. destruct (aset _ _ _) as [l|]; [|done].
      cbn [mbind option_bind] in E, Hc. inversion Hc; subst l. inversion E; subst id same mgr'. clear E Hc. unfold set_keep_list, held. cbn [keep_list next_id num]. rewrite orb_false_r, (proj2 (Z.ltb_ge _ 0)) by (unfold START_KEEP_ID in *; lia).
      split; [|split; [by right; left; unfold START_KEEP_ID in *; lia|]].
      * apply (slots_upd _ _ n k); [done|done|by intros _|intros _ _; done].
      * split; [done|]. split.
        -- rewrite (lsum_insert _ _ _ _ _ Hn). assert (L0 : slot_live k = 0) by (unfold slot_live; by rewrite Hk). rewrite L0. unfold slot_live at 2. cbn [handle]. rewrite (proj2 (Z.eqb_neq _ _) Hh). lia.
        -- intros h' t. rewrite (lsum_insert _ _ _ _ _ Hn), (slot_ref_dead h' t k Hk), slot_ref_live by done. cbn [handle ktype]. lia.
Qed.
Lemma free_slots mgr i h ty mgr' : slots_ok (keep_list mgr) (next_id mgr) -> free_locked mgr i = Some (h, ty, mgr') ->
  slots_ok (keep_list mgr') (next_id mgr') /\ num mgr' = s32 (num mgr - 1) /\
  (h <> NULL -> valid_type ty) /\ lsum slot_live (keep_list mgr') = lsum slot_live (keep_list mgr) - (if h =? NULL then 0 else 1) /\
  forall h' t, held mgr' h' t = held mgr h' t - if h =? NULL then 0 else if (h =? h') && (ty =? t) then 1 else 0.
Proof.
  intros Hok E. unfold free_locked in E. destruct (aget (keep_list mgr) i) as [k|] eqn:Ek; [|done]. cbn [mbind option_bind] in E. pose proof (aget_Some _ _ _ Ek) as Hi.
  rewrite aget_lookup in Ek by lia. rewrite aset_in in E by lia. cbn [mbind option_bind] in E. inversion E; subst h ty mgr'. clear E. unfold set_keep_list, held. cbn [keep_list next_id num].
  fold (freed k). split; [by apply (slots_upd _ _ _ k)|]. split; [done|]. split; [intros Hk; by destruct (proj1 (Forall_lookup _ _) (ok_slots _ Hok) _ _ Ek Hk)|].
  split; [rewrite (lsum_insert _ _ _ _ _ Ek); change (slot_live (freed k)) with 0; unfold slot_live at 2; destruct (handle k =? NULL); lia|].
  intros h' t. rewrite (lsum_insert _ _ _ _ _ Ek), (slot_ref_dead h' t (freed k)) by done. unfold slot_ref at 2. destruct (handle k =? NULL); cbn [negb andb]; lia.
Qed.

Lemma insert_returns g h ty : slots_ok (keep_list g) (next_id g) -> h <> NULL -> is_Some (keeper_insert g h ty).
Proof.
  intros Hok Hh. pose proof (keeper_insert_cases (mk_mgr (lsum slot_live (keep_list g)) None 0 (keep_list g) (next_id g)) h ty Hok Hh) as Hc.
  assert (Hs : is_Some (keeper_insert (mk_mgr (lsum slot_live (keep_list g)) None 0 (keep_list g) (next_id g)) h ty)).
  { destruct Hc as [(n & k & _ & _ & ->)|[(_ & _ & ->)|(_ & n & k & _ & _ & ->)]]; by eexists. }
  clear Hc. unfold keeper_insert in *. cbn [keep_list next_id] in *. destruct (keeper_scan _ _ _ _) as [s [old|]]; [by eexists|]. destruct (0 <=? s); [|by eexists].
  destruct (aget _ s); [|by destruct Hs]. cbn [mbind option_bind] in *. destruct (aset _ _ _); [by eexists|by destruct Hs].
Qed.
Lemma mask_total {M} {mem : KeepMem M} g (m : M) h ty : slots_ok (keep_list g) (next_id g) -> is_Some (codec_mm_keeper_mask_keep_mem g m h ty).
Proof.
  intros Hok. unfold codec_mm_keeper_mask_keep_mem. destruct (Z.eqb_spec h NULL); [by eexists|]. destruct (_ && _); [by eexists|]. destruct (keeper_take m h ty) as [ret m1].
  destruct (ret <? 0); [by eexists|]. destruct (insert_returns g h ty Hok) as [[[id same] g1] ->]; [done|]. by eexists.
Qed.
Lemma free_keep_total {M} {mem : KeepMem M} g (m : M) i : length (keep_list g) = 16%nat -> 0 <= i < 16 ->
  exists r g1 m1, codec_mm_keeper_free_keep g m i = Some (r, g1, m1) /\ length (keep_list g1) = 16%nat.
Proof.
  intros Hl Hi. rewrite free_keep_parts. unfold free_locked. destruct (aget_is_Some (keep_list g) i) as [k ->]; [lia|]. cbn [mbind option_bind]. rewrite aset_in by lia. cbn [mbind option_bind].
  destruct (handle k =? NULL); eexists _, _, _; (split; [reflexivity|]); cbn; by rewrite length_insert.
Qed.
Lemma sweep_total {M} {mem : KeepMem M} g (m : M) now force : slots_ok (keep_list g) (next_id g) -> is_Some (codec_mm_keeper_free_all_keep g m now force).
Proof.
  intros Hok. pose proof (ok_length _ Hok) as Hl. cbn [keep_list] in Hl. unfold codec_mm_keeper_free_all_keep.
  set (I := fun st : Z * codec_mm_keeper_mgr * M => 0 <= st.1.1 /\ length (keep_list st.1.2) = 16%nat).
  assert (Hbody : forall st, I st -> match free_all_body now force st with inl st1 => I st1 /\ st1.1.1 = st.1.1 + 1 /\ st.1.1 < 16 | inr r => is_Some r end).
  { intros [[i g1] m1] [Hi Hl1]. cbn [fst snd] in Hi, Hl1. unfold free_all_body. destruct (Z.ltb_spec i MAX_KEEP_FRAME) as [Hlt|]; [|by eexists]. unfold MAX_KEEP_FRAME in Hlt.
    destruct (aget_is_Some (keep_list g1) i) as [k ->]; [lia|]. destruct (keeper_want_free k (now i) force); [|by split; [split; [cbn; lia|]|]].
    destruct (free_keep_total g1 m1 i Hl1) as (r & g2 & m2 & -> & Hl2); [lia|]. by split; [split; [cbn; lia|]|]. }
  destruct (loop_terminates (free_all_body now force) I (fun st => Z.to_nat (16 - st.1.1)) ltac:(intros st st1 Hst E; pose proof (Hbody st Hst) as Hb; rewrite E in Hb; destruct Hb as (? & ? & ?); split; [done|lia])
    (S (Z.to_nat MAX_KEEP_FRAME)) (0, g, m)) as [r E]; [by split|unfold MAX_KEEP_FRAME; cbn [fst]; lia|]. rewrite E. cbn [mbind option_bind].
  refine (loop_invariant (free_all_body now force) I (fun r => is_Some r) _ _ _ (0, g, m) r _ E); [| |by split].
  - intros st st1 Hst E1. pose proof (Hbody st Hst) as Hb. by rewrite E1 in Hb; destruct Hb.
  - intros st r1 Hst E1. pose proof (Hbody st Hst) as Hb. by rewrite E1 in Hb.
Qed.

(** ** The system *)

Section System.
Context {M : Type} {mem : KeepMem M}.
Variable HZ : Z.

(** The keeper and the memory; the references of masks that have not had the lock yet,
    and of releases that have had it; the releases that found their slot empty; and the
    references taken less those given back. *)
Record keeping := mk_keeping {
  keeper : codec_mm_keeper_mgr; memory : M; taking : list (Z * Z); dropping : list (Z * Z); missed : Z; net : Z -> Z -> Z }.

Inductive keeper_piece : relation keeping :=
| piece_take g m tk dr ms nt h ty ret m' : h <> NULL -> valid_type ty -> keeper_take m h ty = (ret, m') ->
    keeper_piece (mk_keeping g m tk dr ms nt)
      (if ret <? 0 then mk_keeping g m' tk dr ms nt else mk_keeping g m' ((h, ty) :: tk) dr ms (count_ref nt h ty 1))
| piece_insert g m tk1 h ty tk2 dr ms nt id same g' : keeper_insert g h ty = Some (id, same, g') ->
    keeper_piece (mk_keeping g m (tk1 ++ (h, ty) :: tk2) dr ms nt)
      (if (id <? 0) || same then mk_keeping g' (keeper_drop m h ty) (tk1 ++ tk2) dr ms (count_ref nt h ty (-1)) else mk_keeping g' m (tk1 ++ tk2) dr ms nt)
| piece_unmask g m tk dr ms nt j id d :
    keeper_piece (mk_keeping g m tk dr ms nt) (mk_keeping (codec_mm_keeper_unmask_keeper HZ g j id d).2 m tk dr ms nt)
| piece_free g m tk dr ms nt i h ty g' : free_locked g i = Some (h, ty, g') ->
    keeper_piece (mk_keeping g m tk dr ms nt) (if h =? NULL then mk_keeping g' m tk dr (ms + 1) nt else mk_keeping g' m tk ((h, ty) :: dr) ms nt)
| piece_drop g m tk dr1 h ty dr2 ms nt :
    keeper_piece (mk_keeping g m tk (dr1 ++ (h, ty) :: dr2) ms nt) (mk_keeping g (keeper_drop m h ty) tk (dr1 ++ dr2) ms (count_ref nt h ty (-1)))
| piece_work g m tk dr ms nt w r : (** the work is scheduled, or starts *)
    keeper_piece (mk_keeping g m tk dr ms nt) (mk_keeping (mk_mgr (num g) w r (keep_list g) (next_id g)) m tk dr ms nt).
(** With others that use the memory. *)
Inductive system_piece : relation keeping :=
| own_piece x y : keeper_piece x y -> system_piece x y
| others_piece g m tk dr ms nt m' : system_piece (mk_keeping g m tk dr ms nt) (mk_keeping g m' tk dr ms nt).

Definition started (m : M) : keeping := mk_keeping codec_mm_keeper_mgr_init m [] [] 0 (fun _ _ => 0).

(** References on their way. *)
Definition is_ref (h t : Z) (p : Z * Z) : Z := if (p.1 =? h) && (p.2 =? t) then 1 else 0.

Record pieces_ok (x : keeping) : Prop := {
  po_slots : slots_ok (keep_list (keeper x)) (next_id (keeper x));
  po_num : num (keeper x) = s32 (lsum slot_live (keep_list (keeper x)) - missed x);
  po_taking : Forall (fun p => p.1 <> NULL /\ valid_type p.2) (taking x);
  po_net : forall h t, net x h t = held (keeper x) h t + lsum (is_ref h t) (taking x) + lsum (is_ref h t) (dropping x) }.

Lemma refs_cons h t h1 ty l : lsum (is_ref h t) ((h1, ty) :: l) = (if (h1 =? h) && (ty =? t) then 1 else 0) + lsum (is_ref h t) l.
Proof. done. Qed.

Lemma piece_ok x y : keeper_piece x y -> pieces_ok x -> pieces_ok y.
Proof.
  intros [g m tk dr ms nt h ty ret m' Hh Hty Ht|g m tk1 h ty tk2 dr ms nt id same g' E|g m tk dr ms nt j id d|g m tk dr ms nt i h ty g' E|g m tk dr1 h ty dr2 ms nt|g m tk dr ms nt w r] [Hs Hn Hf Hr];
    cbn [keeper memory taking dropping missed net] in *; try done.
  - destruct (ret <? 0); [done|]. split; cbn [keeper taking dropping missed net]; [done..|by constructor|]. intros h' t. rewrite refs_cons. unfold count_ref. rewrite Hr. lia.
  - apply Forall_app in Hf as [Hf1 Hf2]. apply Forall_cons in Hf2 as [[Hh Hty] Hf2]. destruct (insert_slots g h ty id same g' Hs Hh Hty E) as (Hs' & _ & Hi).
    assert (Hf' : Forall (fun p : Z * Z => p.1 <> NULL /\ valid_type p.2) (tk1 ++ tk2)) by (by apply Forall_app).
    assert (Hp : forall h' t, lsum (is_ref h' t) (tk1 ++ (h, ty) :: tk2) = lsum (is_ref h' t) (tk1 ++ tk2) + if (h =? h') && (ty =? t) then 1 else 0)
      by (intros h' t; rewrite !lsum_app, refs_cons; lia).
    destruct ((id <? 0) || same).
    + destruct Hi as [El En]. split; cbn [keeper taking dropping missed net]; [done|by rewrite En, El|done|]. intros h' t. unfold count_ref. rewrite Hr, Hp. unfold held. rewrite El. destruct (_ && _); lia.
    + destruct Hi as (En & El & Hh'). split; cbn [keeper taking dropping missed net]; [done|rewrite En, Hn, s32_add, El; f_equal; lia|done|]. intros h' t. rewrite Hr, Hp, Hh'. lia.
  - unfold codec_mm_keeper_unmask_keeper. destruct (_ || _); [done|]. cbn [snd]. destruct (slots_unuse HZ (keep_list g) (next_id g) id j d Hs) as (Hs' & El & Er).
    unfold schedule_delayed_work. cbn [dealy_work set_keep_list]. destruct (dealy_work g); split; cbn [keeper taking dropping missed net keep_list next_id num set_keep_list]; try done; try (by rewrite El); intros h' t; unfold held; cbn [keep_list set_keep_list]; by rewrite Er.
  - destruct (free_slots g i h ty g' Hs E) as (Hs' & En & Hty & El & Hh'). destruct (h =? NULL) eqn:Eh; rewrite ?Eh in El, Hh'; split; cbn [keeper taking dropping missed net]; try done.
    + rewrite En, Hn, El, <- Z.add_opp_r, s32_add. f_equal. lia.
    + intros h' t. rewrite Hr, Hh'. lia.
    + rewrite En, Hn, El, <- Z.add_opp_r, s32_add. f_equal. lia.
    + intros h' t. rewrite Hr, Hh', refs_cons. lia.
  - split; cbn [keeper taking dropping missed net]; try done. intros h' t. unfold count_ref. rewrite Hr, !lsum_app, refs_cons. destruct (_ && _); lia.
Qed.
Lemma system_ok x y : system_piece x y -> pieces_ok x -> pieces_ok y.
Proof. intros [x1 y1 Hp|g m tk dr ms nt m'] Hx; [by eapply piece_ok|]. by destruct Hx. Qed.
Lemma pieces_reach m x : rtc system_piece (started m) x -> pieces_ok x.
Proof.
  intros Hr. refine (rtc_ind_l (fun y => pieces_ok y -> pieces_ok x) x _ _ _ Hr _); [done|by intros y z Hyz _ IH Hy; apply IH, (system_ok y)|].
  split; [exact keeper_init_ok|done|constructor|]. intros h t. unfold held. simpl. by rewrite !slot_ref_dead.
Qed.

(** *** The calls are runs *)

Lemma mask_is_run g m tk dr ms nt h ty r g' m' : codec_mm_keeper_mask_keep_mem g m h ty = Some (r, g', m') ->
  exists nt', rtc keeper_piece (mk_keeping g m tk dr ms nt) (mk_keeping g' m' tk dr ms nt').
Proof.
  intros E. destruct (Z.eqb_spec h NULL) as [Hh|Hh]; [unfold codec_mm_keeper_mask_keep_mem in E; rewrite Hh in E; inversion E; subst; by exists nt|].
  destruct (decide (valid_type ty)) as [Hty|Hty].
  2:{ unfold codec_mm_keeper_mask_keep_mem in E. rewrite (proj2 (Z.eqb_neq _ _) Hh) in E. unfold valid_type in Hty.
      rewrite (proj2 (Z.eqb_neq ty MEM_TYPE_CODEC_MM_SCATTER)), (proj2 (Z.eqb_neq ty MEM_TYPE_CODEC_MM)) in E by tauto. inversion E; subst. by exists nt. }
  rewrite mask_parts in E by done. destruct (keeper_take m h ty) as [ret m1] eqn:Et. pose proof (piece_take g m tk dr ms nt h ty ret m1 Hh Hty Et) as P1. destruct (ret <? 0).
  - inversion E; subst. exists nt. by apply rtc_once.
  - destruct (keeper_insert g h ty) as [[[id same] g1]|] eqn:Ei; [|done]. cbn [mbind option_bind] in E. inversion E; subst.
    pose proof (piece_insert g m1 [] h ty tk dr ms (count_ref nt h ty 1) r same g' Ei) as P2. destruct (_ || _); eexists; (eapply rtc_l; [exact P1|]; apply rtc_once; exact P2).
Qed.
(** A sweep alone finds no slot empty that it wants to free. *)
Lemma sweep_is_run g m tk dr ms nt now force r g' m' : codec_mm_keeper_free_all_keep g m now force = Some (r, g', m') ->
  exists nt', rtc keeper_piece (mk_keeping g m tk dr ms nt) (mk_keeping g' m' tk dr ms nt').
Proof.
  unfold codec_mm_keeper_free_all_keep. destruct (loop _ _ _) as [res|] eqn:E; [|done]. cbn [mbind option_bind]. intros ->.
  refine (loop_invariant (free_all_body now force) (fun st => exists nt', rtc keeper_piece (mk_keeping g m tk dr ms nt) (mk_keeping st.1.2 st.2 tk dr ms nt'))
    (fun res => forall r g' m', res = Some (r, g', m') -> exists nt', rtc keeper_piece (mk_keeping g m tk dr ms nt) (mk_keeping g' m' tk dr ms nt')) _ _ _ _ _ _ E _ _ _ eq_refl).
  - intros [[i g1] m1] [[i2 g2] m2] (nt1 & Hrun) H. cbn [fst snd] in *. unfold free_all_body in H. destruct (i <? MAX_KEEP_FRAME); [|done]. destruct (aget (keep_list g1) i) as [k|] eqn:Ek; [|done].
    destruct (keeper_want_free k (now i) force) eqn:Ew; [|inversion H; subst; by exists nt1]. rewrite free_keep_parts in H. destruct (free_locked g1 i) as [[[h ty] g3]|] eqn:Ef; [|done]. cbn [mbind option_bind] in H.
    assert (Hh : h <> NULL) by (unfold free_locked in Ef; rewrite Ek in Ef; cbn [mbind option_bind] in Ef; destruct (aset _ _ _); [|done]; inversion Ef; subst; by eapply want_free_live).
    pose proof (piece_free g1 m1 tk dr ms nt1 i h ty g3 Ef) as P1. rewrite (proj2 (Z.eqb_neq _ _) Hh) in H, P1. inversion H; subst. eexists. eapply rtc_r; [eapply rtc_r; [exact Hrun|exact P1]|]. apply (piece_drop g2 m1 tk [] h ty dr ms nt1).
  - intros [[i g1] m1] res0 (nt1 & Hrun) H r1 g2 m2 ->. cbn [fst snd] in *. unfold free_all_body in H. destruct (i <? MAX_KEEP_FRAME); [|inversion H; subst; by exists nt1].
    destruct (aget _ _); [|done]. destruct (keeper_want_free _ _ _); [|done]. by destruct (codec_mm_keeper_free_keep _ _ _) as [[[? ?] ?]|].
  - by exists nt.
Qed.
Lemma monitor_is_run g m tk dr ms nt now g' m' : codec_mm_keeper_monitor g m now = Some (g', m') ->
  exists nt', rtc keeper_piece (mk_keeping g m tk dr ms nt) (mk_keeping g' m' tk dr ms nt').
Proof.
  unfold codec_mm_keeper_monitor. destruct (codec_mm_keeper_free_all_keep _ m now 0) as [[[r g1] m1]|] eqn:E; [|done]. cbn [mbind option_bind]. intros [= <- <-].
  apply (sweep_is_run _ _ tk dr ms nt) in E as (nt' & Hrun). exists nt'. eapply rtc_l; [apply (piece_work g m tk dr ms nt None (s32 (work_runs g + 1)))|]. etrans; [exact Hrun|].
  unfold schedule_delayed_work. destruct (0 <? num g1); [|done]. destruct (dealy_work g1); [done|]. apply rtc_once. apply (piece_work g1 m1 tk dr ms nt' (Some 10) (work_runs g1)).
Qed.

(** C23. However many masks, unmasks and sweeps run at once, over any manager of the
    memory and with others that use it: the list of the keeper stays well formed (16
    slots, no buffer in two of them, types and ids in range), and the references that the
    manager has granted the keeper, less those it has given back, are one for each entry,
    each mask on its way to the lock and each release behind it.  The counter is the number
    of entries less the releases that found their slot empty, of which a sweep that runs
    alone has none.  A mask and a sweep return, and are runs of these pieces. *)
Theorem keeper_interleaved_inv m x : rtc system_piece (started m) x ->
  let g := keeper x in
  (length (keep_list g) = 16%nat /\ START_KEEP_ID <= next_id g < MAX_KEEP_ID /\ Forall slot_ok (keep_list g) /\
   forall i j a b, keep_list g !! i = Some a -> keep_list g !! j = Some b -> handle a = handle b -> handle a <> NULL -> i = j) /\
  (forall h t, net x h t = held g h t + lsum (is_ref h t) (taking x) + lsum (is_ref h t) (dropping x)) /\
  num g = s32 (lsum slot_live (keep_list g) - missed x) /\
  (forall h ty, exists r g' m' nt', codec_mm_keeper_mask_keep_mem g (memory x) h ty = Some (r, g', m') /\
     rtc keeper_piece x (mk_keeping g' m' (taking x) (dropping x) (missed x) nt')) /\
  forall now force, exists r g' m' nt', codec_mm_keeper_free_all_keep g (memory x) now force = Some (r, g', m') /\
     rtc keeper_piece x (mk_keeping g' m' (taking x) (dropping x) (missed x) nt').
Proof.
  intros Hr. pose proof (pieces_reach m x Hr) as [Hs Hn _ Hnet]. cbv zeta. split; [exact (conj (ok_length _ Hs) (conj (ok_next _ Hs) (conj (ok_slots _ Hs) (ok_unique _ Hs))))|]. split; [done|]. split; [done|].
  assert (Ex : x = mk_keeping (keeper x) (memory x) (taking x) (dropping x) (missed x) (net x)) by (by destruct x). split.
  - intros h ty. destruct (mask_total (keeper x) (memory x) h ty Hs) as [[[r g'] m'] E]. destruct (mask_is_run _ _ (taking x) (dropping x) (missed x) (net x) _ _ _ _ _ E) as (nt' & Hrun).
    rewrite <- Ex in Hrun. exists r, g', m', nt'. by split.
  - intros now force. destruct (sweep_total (keeper x) (memory x) now force Hs) as [[[r g'] m'] E]. destruct (sweep_is_run _ _ (taking x) (dropping x) (missed x) (net x) _ _ _ _ _ E) as (nt' & Hrun).
    rewrite <- Ex in Hrun. exists r, g', m', nt'. by split.
Qed.
End System.

(** ** A race

    A second picture is about to be masked while the first, unmasked, has left its slot
    and is not given back yet. *)
Definition unmasked : codec_mm_keeper_mgr := (codec_mm_keeper_unmask_keeper 250 one_kept 1000 9 0).2.
Definition emptied : codec_mm_keeper_mgr := default unmasked (snd <$> free_locked unmasked 0).
Definition both_taken : Z -> Z -> Z := count_ref (count_ref (fun _ _ => 0) 77 MEM_TYPE_CODEC_MM 1) 78 MEM_TYPE_CODEC_MM 1.
Definition race : keeping (M := Z -> Z -> Z) := mk_keeping emptied both_taken [(78, MEM_TYPE_CODEC_MM)] [(77, MEM_TYPE_CODEC_MM)] 0 both_taken.
Lemma race_reached : rtc (system_piece 250) (started (fun _ _ => 0)) race.
Proof.
  assert (Hty : valid_type MEM_TYPE_CODEC_MM) by by left.
  eapply rtc_l; [apply own_piece; by eapply (piece_take 250 codec_mm_keeper_mgr_init _ [] [] 0 _ 77 MEM_TYPE_CODEC_MM)|].
  eapply rtc_l; [apply own_piece; by eapply (piece_take 250 codec_mm_keeper_mgr_init _ [(77, MEM_TYPE_CODEC_MM)] [] 0 _ 78 MEM_TYPE_CODEC_MM)|].
  eapply rtc_l; [apply own_piece; eapply (piece_insert 250 codec_mm_keeper_mgr_init _ [(78, MEM_TYPE_CODEC_MM)] 77 MEM_TYPE_CODEC_MM [] [] 0 _ 9 false one_kept); reflexivity|].
  eapply rtc_l; [apply own_piece; eapply (piece_unmask 250 one_kept _ _ [] 0 _ 1000 9 0)|].
  apply rtc_once, own_piece. eapply (piece_free 250 unmasked _ _ [] 0 _ 0 77 MEM_TYPE_CODEC_MM emptied). reflexivity.
Qed.
Lemma keeper_interleaved_inv_witness :
  net race 77 MEM_TYPE_CODEC_MM = 1 /\ num emptied = 0 /\
  (forall h t, net race h t = held emptied h t + lsum (is_ref h t) [(78, MEM_TYPE_CODEC_MM)] + lsum (is_ref h t) [(77, MEM_TYPE_CODEC_MM)]) /\
  num emptied = s32 (lsum slot_live (keep_list emptied) - 0).
Proof.
  split; [reflexivity|]. split; [reflexivity|].
  destruct (keeper_interleaved_inv 250 (fun _ _ => 0) race race_reached) as (_ & Hnet & Hnum & _). split; [exact Hnet|exact Hnum].
Defined.
