(* ===== verification/Unifykey.v ===== *)
(** * The unified key manager (src/a311d/soc/amlogic/unifykey/unifykey.c, unifykey_dts.c)

    The keys a board knows come from its device tree: name, device, permissions.
    A character device addresses a key by its number, a sysfs class by its name;
    both go to the efuses or to the key storage layer behind [struct amlkey_if].
    That structure of function pointers is a class here; the tables of
    storage_key.c are its instances. *)

From stdpp Require Import base numbers list option strings pretty.
From S2P Require Import Prelude KText NormalKey SecurityKey StorageKey.

Definition KEY_UNIFY_NAME_LEN : Z := 48.
Definition KEY_EMPTY : Z := 0.
Definition KEY_BURNED : Z := 1.
Definition SHA256_SUM_LEN : Z := 32.
Definition KEY_ATTR_ENCRYPT : Z := Z.shiftl 1 8.
Definition KEY_ATTR_SECURE : Z := Z.shiftl 1 0.
Definition KEY_PERM_READ : Z := Z.shiftl 1 0.
Definition KEY_PERM_WRITE : Z := Z.shiftl 1 1.

(** [enum key_manager_dev_e], with its values. *)
Inductive key_manager_dev_e := KEY_UNKNOWN_DEV | KEY_EFUSE | KEY_NORMAL | KEY_SECURE.
Definition dev_val (d : key_manager_dev_e) : Z :=
  match d with KEY_UNKNOWN_DEV => 0 | KEY_EFUSE => 1 | KEY_NORMAL => 2 | KEY_SECURE => 3 end.

#[export] Instance key_manager_dev_eq_dec : EqDecision key_manager_dev_e.
Proof. solve_decision. Defined.

(** Names are C strings: the bytes before the terminating zero. *)
Record key_item_t := mk_item {
  kname : bytes;
  id : Z;
  dev : key_manager_dev_e;
  perm : Z;
  attr : Z }.

Record key_info_t := mk_info { key_num : Z; key_flag : Z; encrypt_type : Z }.

Record aml_uk_dev := mk_ukdev {
  init_flag : Z;
  lock_flag : Z;
  curkey : option key_item_t;
  uk_hdr : list key_item_t;
  uk_info : key_info_t }.

(** [struct amlkey_if] over a state [K]; [None] is undefined behaviour. *)
Class AmlkeyIf (K : Type) := {
  amlkey_init : K -> option (Z * K);
  amlkey_exsit : K -> bytes -> option (Z * K);
  amlkey_size : K -> bytes -> option (Z * K);
  amlkey_get_attr : K -> bytes -> option (Z * K);
  amlkey_read : K -> bytes -> bytes -> Z -> option (Z * bytes * K);
  amlkey_write : K -> bytes -> bytes -> Z -> Z -> option (Z * K);
  amlkey_hash : K -> bytes -> bytes -> option (Z * bytes * K) }.

(** The functions of efuse.c the manager calls: [efuse_getinfo] (result and size
    of a key), [efuse_user_attr_store] and [efuse_user_attr_read] (into the
    caller's buffer); [None] is an access outside of an object.  [efuse_on] says
    whether CONFIG_AMLOGIC_EFUSE is set. *)
Class EfuseIf (E : Type) := {
  efuse_on : bool;
  fuse_getinfo : E -> bytes -> option (Z * Z);
  fuse_store : E -> bytes -> bytes -> Z -> option (Z * E);
  fuse_read : E -> bytes -> bytes -> option (Z * bytes * E) }.

(** ** Finding keys *)

(** [strncmp (a, b, n) == 0] on C strings. *)
Fixpoint strn_eq (a b : bytes) (n : nat) {struct n} : bool :=
  match n with
  | O => true
  | S n =>
      match a, b with
      | [], [] => true
      | x :: a, y :: b => (x =? y) && strn_eq a b n
      | _, _ => false
      end
  end.

Definition same_name (a b : bytes) : bool :=
  strn_eq a b (if (length b <? length a)%nat then length a else length b).

Fixpoint uk_find_item_by_name (l : list key_item_t) (nm : bytes) : option key_item_t :=
  match l with
  | [] => None
  | item :: l => if same_name (kname item) nm then Some item else uk_find_item_by_name l nm
  end.

Fixpoint uk_find_item_by_id (l : list key_item_t) (i : Z) : option key_item_t :=
  match l with
  | [] => None
  | item :: l => if id item =? i then Some item else uk_find_item_by_id l i
  end.

Definition uk_count_key (l : list key_item_t) : Z := zlen l.

(** ** The device tree *)

(** A child node; [None] is a property that is not there. *)
Record dt_key := mk_dt_key {
  dt_name : option bytes;
  dt_device : option string;
  dt_permit_read : bool;
  dt_permit_write : bool;
  dt_encrypt : bool }.

(** The item of a node, or the error. *)
Definition uk_item_parse_dt (node : dt_key) (i : Z) : Z + key_item_t :=
  match dt_name node with
  | None => inl (- EINVAL)
  | Some propname =>
      let count := Z.of_nat (length propname) in
      let count := if KEY_UNIFY_NAME_LEN <=? count then KEY_UNIFY_NAME_LEN - 1 else count in
      let nm := take (Z.to_nat count) propname in
      match dt_device node with
      | None => inl (- EINVAL)
      | Some d =>
          let d := if decide (d = "efuse"%string) then KEY_EFUSE
                   else if decide (d = "normal"%string) then KEY_NORMAL
                   else if decide (d = "secure"%string) then KEY_SECURE
                   else KEY_UNKNOWN_DEV in
          let p := 0 in
          let p := if dt_permit_read node then Z.lor p KEY_PERM_READ else p in
          let p := if dt_permit_write node then Z.lor p KEY_PERM_WRITE else p in
          inr (mk_item nm i d p (if dt_encrypt node then KEY_ATTR_ENCRYPT else 0))
      end
  end.

(** [list_add] puts an item at the head; a node that is not usable is skipped.
    [memory i] tells whether the allocation for child [i] succeeds. *)
Fixpoint uk_item_create (memory : nat -> bool) (n : nat) (children : list dt_key)
    (l : list key_item_t) (index : Z) : list key_item_t * Z :=
  match children with
  | [] => (l, index)
  | child :: children =>
      match (if memory n then uk_item_parse_dt child index else inl (- ENOMEM)) with
      | inl _ => uk_item_create memory (S n) children l index
      | inr item => uk_item_create memory (S n) children (item :: l) (index + 1)
      end
  end.

Definition with_hdr (u : aml_uk_dev) (l : list key_item_t) (inf : key_info_t) : aml_uk_dev :=
  mk_ukdev (init_flag u) (lock_flag u) (curkey u) l inf.

Definition uk_dt_create (memory : nat -> bool) (encrypt_prop : option Z) (children : list dt_key)
    (u : aml_uk_dev) : aml_uk_dev :=
  let enc := match encrypt_prop with Some e => s32 e | None => -1 end in
  if c_true (key_flag (uk_info u)) then
    with_hdr u (uk_hdr u) (mk_info (key_num (uk_info u)) (key_flag (uk_info u)) enc)
  else
    let '(l, n) := uk_item_create memory 0 children (uk_hdr u) 0 in
    with_hdr u l (mk_info n 1 enc).

(** [curkey] is not touched: it points to a freed item then. *)
Definition uk_dt_release (u : aml_uk_dev) : aml_uk_dev :=
  with_hdr u [] (mk_info (key_num (uk_info u)) 0 (encrypt_type (uk_info u))).

(** ** Key operations *)

Section Ops.
Context {K E : Type} {kif : AmlkeyIf K} {eif : EfuseIf E}.

(** The device with the two stores behind it. *)
Record uk_state := mk_uk { ukdev : aml_uk_dev; keystore : K; efuse : E }.

Definition set_ukdev (s : uk_state) u := mk_uk u (keystore s) (efuse s).
Definition set_keystore (s : uk_state) k := mk_uk (ukdev s) k (efuse s).
Definition set_efuse (s : uk_state) e := mk_uk (ukdev s) (keystore s) e.

(** A call into the storage layer. *)
Definition call {A} (s : uk_state) (r : option (A * K)) : option (A * uk_state) :=
  '(a, k) ← r; Some (a, set_keystore s k).

(** Memory allocation. *)
Variable kzalloc : Z -> bool.

(** [real] is the caller's variable before the call; the results are the C
    result, the buffer and the variable after it. *)
Definition key_storage_read (s : uk_state) (nm : bytes) (data : bytes) (len real flag : Z)
  : option (Z * bytes * Z * uk_state) :=
  '(a, s) ← call s (amlkey_get_attr (keystore s) nm);
  if c_true (Z.land a KEY_ATTR_SECURE) then Some (- EINVAL, data, real, s)
  else
    '(a, s) ← call s (amlkey_get_attr (keystore s) nm);
    let encrypt := Z.land a KEY_ATTR_ENCRYPT in
    let encrypt_dts := if c_true (Z.land flag KEY_ATTR_ENCRYPT) then 1 else 0 in
    if negb (encrypt =? encrypt_dts) then Some (- EINVAL, data, real, s)
    else
      '(r, data, k) ← amlkey_read (keystore s) nm data len;
      let s := set_keystore s k in
      let read_len := u32 r in
      if negb (read_len =? len) then Some (- EINVAL, data, real, s)
      else Some (0, data, read_len, s).

Definition key_efuse_write (s : uk_state) (nm data : bytes) (len : Z) : option (Z * uk_state) :=
  if efuse_on then
    '(found, _) ← fuse_getinfo (efuse s) nm;
    if found <? 0 then Some (- EINVAL, s)
    else
      '(ret, e) ← fuse_store (efuse s) nm data len;
      let s := set_efuse s e in
      if ret <? 0 then Some (-1, s) else Some (0, s)
  else Some (- EINVAL, s).

Definition key_efuse_read (s : uk_state) (nm : bytes) (data : bytes) (len real : Z)
  : option (Z * bytes * Z * uk_state) :=
  if efuse_on then
    '(found, size) ← fuse_getinfo (efuse s) nm;
    if found <? 0 then Some (- EINVAL, data, real, s)
    else if negb (kzalloc size) then Some (- ENOMEM, data, real, s)
    else
      '(ret, buf, e) ← fuse_read (efuse s) nm (fill 0 size);
      let s := set_efuse s e in
      let err := s32 ret in
      if 0 <=? err then
        let len := if size <? len then size else len in
        src ← bget buf 0 len;
        data ← bput data 0 src;
        Some (err, data, size, s)
      else Some (err, data, real, s)
  else Some (- EINVAL, data, real, s).

(** The result and the state of the key, [state] where it is not written. *)
Definition key_efuse_query (s : uk_state) (nm : bytes) (state : Z) : option (Z * Z * uk_state) :=
  if efuse_on then
    '(found, size) ← fuse_getinfo (efuse s) nm;
    if found <? 0 then Some (- EINVAL, state, s)
    else if negb (kzalloc size) then Some (- ENOMEM, state, s)
    else
      '(ret, buf, e) ← fuse_read (efuse s) nm (fill 0 size);
      let s := set_efuse s e in
      let err := s32 ret in
      if (0 <? err) && existsb (fun b => negb (b =? 0)) (take (Z.to_nat size) buf)
      then Some (err, KEY_BURNED, s) else Some (err, KEY_EMPTY, s)
  else Some (- EINVAL, state, s).

Definition key_unify_init (s : uk_state) : option (Z * uk_state) :=
  if init_flag (ukdev s) =? 1 then Some (0, s)
  else
    '(ret, s) ← call s (amlkey_init (keystore s));
    if ret <? 0 then Some (ret, s)
    else
      let u := ukdev s in
      Some (0, set_ukdev s (mk_ukdev 1 (lock_flag u) (curkey u) (uk_hdr u) (uk_info u))).

Definition key_unify_write (s : uk_state) (nm data : bytes) (len : Z) : option (Z * uk_state) :=
  match uk_find_item_by_name (uk_hdr (ukdev s)) nm with
  | None => Some (- EINVAL, s)
  | Some key =>
      if negb (Z.land (perm key) KEY_PERM_WRITE =? KEY_PERM_WRITE) then Some (- EPERM, s)
      else
        match dev key with
        | KEY_EFUSE => key_efuse_write s nm data len
        | KEY_SECURE | KEY_NORMAL =>
            let a := if decide (dev key = KEY_SECURE) then KEY_ATTR_SECURE else 0 in
            let a := Z.lor a (if c_true (Z.land (attr key) KEY_ATTR_ENCRYPT) then KEY_ATTR_ENCRYPT else 0) in
            '(write_len, s) ← call s (amlkey_write (keystore s) nm data len a);
            if negb (write_len =? len) then Some (- EINVAL, s) else Some (0, s)
        | KEY_UNKNOWN_DEV => Some (0, s)
        end
  end.

Definition key_unify_read (s : uk_state) (nm : bytes) (data : bytes) (len real : Z)
  : option (Z * bytes * Z * uk_state) :=
  match uk_find_item_by_name (uk_hdr (ukdev s)) nm with
  | None => Some (- EINVAL, data, real, s)
  | Some key =>
      if negb (Z.land (perm key) KEY_PERM_READ =? KEY_PERM_READ) then Some (- EPERM, data, real, s)
      else
        match dev key with
        | KEY_EFUSE => key_efuse_read s nm data len real
        | KEY_SECURE =>
            '(ret, data, k) ← amlkey_hash (keystore s) nm data;
            Some (ret, data, SHA256_SUM_LEN, set_keystore s k)
        | KEY_NORMAL => key_storage_read s nm data len real (attr key)
        | KEY_UNKNOWN_DEV => Some (0, data, real, s)
        end
  end.

Definition key_unify_size (s : uk_state) (nm : bytes) (real : Z) : option (Z * Z * uk_state) :=
  match uk_find_item_by_name (uk_hdr (ukdev s)) nm with
  | None => Some (- EINVAL, real, s)
  | Some key =>
      if negb (Z.land (perm key) KEY_PERM_READ =? KEY_PERM_READ) then Some (- EPERM, real, s)
      else
        match dev key with
        | KEY_EFUSE =>
            if efuse_on then
              '(ret, size) ← fuse_getinfo (efuse s) nm;
              Some (ret, if ret =? 0 then size else real, s)
            else Some (0, real, s)
        | KEY_SECURE | KEY_NORMAL =>
            '(n, s) ← call s (amlkey_size (keystore s) nm);
            Some (0, n, s)
        | KEY_UNKNOWN_DEV => Some (0, real, s)
        end
  end.

(** [state] and [pm] are the variables the pointers lead to, [pm] being [None]
    for a null pointer; the results are the C result and the variables. *)
Definition key_unify_query (s : uk_state) (nm : bytes) (state : Z) (pm : option Z)
  : option (Z * Z * option Z * uk_state) :=
  match uk_find_item_by_name (uk_hdr (ukdev s)) nm with
  | None => Some (- EINVAL, state, pm, s)
  | Some key =>
      if negb (Z.land (perm key) KEY_PERM_READ =? KEY_PERM_READ) then Some (- EINVAL, state, pm, s)
      else
        match dev key with
        | KEY_EFUSE =>
            '(ret, state, s) ← key_efuse_query s nm state;
            _ ← pm;
            Some (ret, state, Some (perm key), s)
        | KEY_SECURE | KEY_NORMAL =>
            '(e, s) ← call s (amlkey_exsit (keystore s) nm);
            let state := if c_true e then KEY_BURNED else KEY_EMPTY in
            Some (0, state, (fun _ => perm key) <$> pm, s)
        | KEY_UNKNOWN_DEV => Some (0, state, pm, s)
        end
  end.

(** [stack] is the value of a local variable before it is written. *)
Variable stack : Z.

Definition key_unify_secure (s : uk_state) (nm : bytes) (secure : Z) : option (Z * Z * uk_state) :=
  match uk_find_item_by_name (uk_hdr (ukdev s)) nm with
  | None => Some (- EINVAL, secure, s)
  | Some key =>
      '(ret, state, _, s) ← key_unify_query s (kname key) stack None;
      if c_true ret then Some (ret, secure, s)
      else if state =? KEY_BURNED then
        '(a, s) ← call s (amlkey_get_attr (keystore s) (kname key));
        Some (ret, Z.land a KEY_ATTR_SECURE, s)
      else Some (ret, if decide (dev key = KEY_SECURE) then 1 else 0, s)
  end.

Definition key_unify_encrypt (s : uk_state) (nm : bytes) (enc : Z) : option (Z * Z * uk_state) :=
  match uk_find_item_by_name (uk_hdr (ukdev s)) nm with
  | None => Some (- EINVAL, enc, s)
  | Some key =>
      '(ret, state, _, s) ← key_unify_query s (kname key) stack None;
      if c_true ret then Some (ret, enc, s)
      else if state =? KEY_BURNED then
        '(a, s) ← call s (amlkey_get_attr (keystore s) (kname key));
        Some (ret, Z.land a KEY_ATTR_ENCRYPT, s)
      else Some (ret, if c_true (Z.land (attr key) KEY_ATTR_ENCRYPT) then 1 else 0, s)
  end.

(** [g] is what [ukdev_global] points to. *)
Definition key_unify_get_init_flag (g : option aml_uk_dev) : Z :=
  match g with Some u => init_flag u | None => 0 end.

(** ** The character device *)

(** Returns the C result and the file position. *)
Definition unifykey_llseek (s : uk_state) (f_pos off whence : Z) : Z * Z :=
  let seek newpos :=
    if newpos <? 0 then (- EINVAL, f_pos)
    else if uk_count_key (uk_hdr (ukdev s)) <=? newpos then (- EINVAL, f_pos)
    else (newpos, newpos) in
  if whence =? 0 then seek off
  else if whence =? 1 then seek (f_pos + off)
  else if whence =? 2 then seek (uk_count_key (uk_hdr (ukdev s)) - 1 - off)
  else (- EINVAL, f_pos).

(** [copied]: whether [copy_to_user] succeeds.  Returns the C result and the
    bytes that reach user space. *)
Definition unifykey_read (s : uk_state) (copied : bool) (count ppos : Z) : option (Z * bytes * uk_state) :=
  match uk_find_item_by_id (uk_hdr (ukdev s)) (s32 ppos) with
  | None => Some (- EINVAL, [], s)
  | Some item =>
      let count := if decide (dev item = KEY_SECURE) then SHA256_SUM_LEN else count in
      if negb (kzalloc count) then Some (- ENOMEM, [], s)
      else
        let local_buf := fill 0 count in
        '(ret, local_buf, reallen, s) ← key_unify_read s (kname item) local_buf (u32 count) stack;
        if ret <? 0 then Some (ret, [], s)
        else
          let count := if reallen <? count then reallen else count in
          if negb copied then Some (- EFAULT, [], s)
          else
            out ← bget local_buf 0 count;
            Some (s32 count, out, s)
  end.

(** [user] are the bytes at the user's address, [None] where they cannot be read. *)
Definition unifykey_write (s : uk_state) (user : option bytes) (count ppos : Z) : option (Z * uk_state) :=
  if negb (kzalloc count) then Some (- ENOMEM, s)
  else
    match uk_find_item_by_id (uk_hdr (ukdev s)) (s32 ppos) with
    | None => Some (- EINVAL, s)
    | Some item =>
        match user with
        | None => Some (- EFAULT, s)
        | Some user =>
            local_buf ← bget user 0 count;
            '(ret, s) ← key_unify_write s (kname item) local_buf (u32 count);
            if ret <? 0 then Some (ret, s) else Some (s32 count, s)
        end
    end.

(** The record of KEYUNIFY_GET_INFO. *)
Record key_item_info_t := mk_item_info {
  ii_id : Z;
  ii_name : bytes;
  ii_size : Z;
  ii_perm : Z;
  ii_flag : Z }.

(** KEYUNIFY_ATTACH; [left] is the result of [copy_from_user], the number of
    bytes that could not be copied. *)
Definition unifykey_ioctl_attach (s : uk_state) (memory : bool) (left : Z) : option (Z * uk_state) :=
  if negb memory then Some (- ENOMEM, s)
  else if c_true left then Some (left, s)
  else
    '(ret, s) ← key_unify_init s;
    if c_true ret then Some (ret, s) else Some (0, s).

(** KEYUNIFY_GET_INFO: [item] is the record of the user, [left_in] and [left_out]
    what the two copies leave.  Returns the C result and the record that reaches
    the user. *)
Definition unifykey_ioctl_get_info (s : uk_state) (memory : bool) (left_in left_out : Z) (item : key_item_info_t)
  : option (Z * option key_item_info_t * uk_state) :=
  if negb memory then Some (- ENOMEM, None, s)
  else if c_true left_in then Some (left_in, None, s)
  else
    let nm := c_str (take (Z.to_nat (KEY_UNIFY_NAME_LEN - 1)) (ii_name item)) in
    let key :=
      if (0 <? length nm)%nat then uk_find_item_by_name (uk_hdr (ukdev s)) nm
      else uk_find_item_by_id (uk_hdr (ukdev s)) (s32 (ii_id item)) in
    match key with
    | None => Some (- EINVAL, None, s)
    | Some key =>
        '(ret, state, pm, s) ← key_unify_query s (kname key) stack (Some stack);
        if c_true ret then Some (ret, None, s)
        else
          let nm := take (Z.to_nat (KEY_UNIFY_NAME_LEN - 1)) (kname key) in
          '(ret, size, s) ← key_unify_size s (kname key) (ii_size item);
          if c_true ret then Some (- EFAULT, None, s)
          else if c_true left_out then Some (left_out, None, s)
          else Some (0, Some (mk_item_info (u32 (id key)) nm size (default stack pm) state), s)
    end.

(** The commands; the copies between user and kernel space are arguments. *)
Inductive uk_cmd :=
| KEYUNIFY_ATTACH (memory : bool) (left : Z)
| KEYUNIFY_GET_INFO (memory : bool) (left_in left_out : Z) (item : key_item_info_t)
| UnknownCmd.

Definition unifykey_unlocked_ioctl (s : uk_state) (cmd : uk_cmd)
  : option (Z * option key_item_info_t * uk_state) :=
  match cmd with
  | KEYUNIFY_ATTACH memory rest => '(ret, s) ← unifykey_ioctl_attach s memory rest; Some (ret, None, s)
  | KEYUNIFY_GET_INFO memory left_in left_out item => unifykey_ioctl_get_info s memory left_in left_out item
  | UnknownCmd => Some (- EINVAL, None, s)
  end.

End Ops.
Arguments uk_state : clear implicits.
