(* ===== verification/UnifykeySysfs.v ===== *)
(** * The sysfs class and the life of the unified key manager
      (src/a311d/soc/amlogic/unifykey/unifykey.c)

    The attributes of the class work on a current key that is chosen by name.
    What a show function writes must fit the page sysfs gives it, with the zero
    the code puts behind it; [None] is a write beyond the page. *)

From stdpp Require Import base numbers list option strings pretty.
From S2P Require Import Prelude KText NormalKey SecurityKey StorageKey Unifykey.

Section Sysfs.
Context {K E : Type} {kif : AmlkeyIf K} {eif : EfuseIf E}.
Variable kzalloc : Z -> bool.
Variable stack : Z.
Implicit Types s : uk_state K E.

(** A show function returns the C result, the text and the new state. *)
Definition show_text s (text : bytes) : option (Z * bytes * uk_state K E) :=
  '(n, t) ← sysfs_emit text; Some (n, t, s).

Definition version_show s := show_text s (str "version:1.0" ++ [newline]).

Definition keydev (d : key_manager_dev_e) : bytes :=
  match d with
  | KEY_UNKNOWN_DEV => str "unknown"
  | KEY_EFUSE => str "efuse"
  | KEY_NORMAL => str "normal"
  | KEY_SECURE => str "secure"
  end.

(** The line of key [index], if there is one. *)
Definition list_line (l : list key_item_t) (index : Z) : bytes :=
  match uk_find_item_by_id l index with
  | Some k => fmt_02d index ++ str ": " ++ kname k ++ str ", " ++ keydev (dev k) ++ str ", "
              ++ fmt_x (perm k) ++ [newline]
  | None => []
  end.

Definition list_show s : option (Z * bytes * uk_state K E) :=
  let l := uk_hdr (ukdev s) in
  show_text s (str (pretty (uk_count_key l)) ++ str " keys installed" ++ [newline] ++
    concat ((fun i => list_line l (Z.of_nat i)) <$> seq 0 (length l))).

Definition exist_show s : option (Z * bytes * uk_state K E) :=
  match curkey (ukdev s) with
  | None => Some (- EINVAL, [], s)
  | Some k =>
      '(ret, keystate, _, s) ← key_unify_query kzalloc s (kname k) stack (Some stack);
      if ret <? 0 then Some (0, [], s)
      else
        let keystate := if 2 <? keystate then 2 else keystate in
        t ← aget [str "none"; str "exist"; str "unknown"] keystate;
        show_text s (t ++ [newline])
  end.

(** The three texts of [secure] and [encrypt]. *)
Definition state_text (v : Z) : option bytes := aget [str "false"; str "true"; str "error"] v.

Definition secure_show s : option (Z * bytes * uk_state K E) :=
  match curkey (ukdev s) with
  | None => Some (- EINVAL, [], s)
  | Some k =>
      '(ret, secure, s) ← key_unify_secure kzalloc stack s (kname k) 0;
      let secure := if ret <? 0 then 2 else if 1 <? secure then 1 else secure in
      t ← state_text secure;
      show_text s (t ++ [newline])
  end.

Definition encrypt_show s : option (Z * bytes * uk_state K E) :=
  match curkey (ukdev s) with
  | None => Some (- EINVAL, [], s)
  | Some k =>
      '(ret, encrypt, s) ← key_unify_encrypt kzalloc stack s (kname k) stack;
      let encrypt := if ret <? 0 then 2 else if 1 <? encrypt then 1 else encrypt in
      t ← state_text encrypt;
      show_text s (t ++ [newline])
  end.

(** [%d] of an unsigned variable. *)
Definition size_show s : option (Z * bytes * uk_state K E) :=
  match curkey (ukdev s) with
  | None => Some (- EINVAL, [], s)
  | Some k =>
      '(ret, reallen, s) ← key_unify_size s (kname k) stack;
      if ret <? 0 then Some (0, [], s) else show_text s (str (pretty (s32 reallen)) ++ [newline])
  end.

Definition name_show s : option (Z * bytes * uk_state K E) :=
  match curkey (ukdev s) with
  | None => Some (0, [], s)
  | Some k => show_text s (kname k ++ [newline])
  end.

(** The search of [name_store], by number, newest or oldest as the numbers go. *)
Fixpoint find_by_number (l : list key_item_t) (nm : bytes) (n : nat) (index : Z) : option key_item_t :=
  match n with
  | O => None
  | S n =>
      match uk_find_item_by_id l index with
      | Some k => if same_name nm (kname k) then Some k else find_by_number l nm n (index + 1)
      | None => find_by_number l nm n (index + 1)
      end
  end.

Definition set_curkey s (k : key_item_t) : uk_state K E :=
  let u := ukdev s in
  set_ukdev s (mk_ukdev (init_flag u) (lock_flag u) (Some k) (uk_hdr u) (uk_info u)).

(** [buf] is what was written to the attribute, [count] its length. *)
Definition name_store s (buf : bytes) : option (Z * uk_state K E) :=
  let count := zlen buf in
  let count := if KEY_UNIFY_NAME_LEN <=? count then KEY_UNIFY_NAME_LEN - 1 else count in
  if count <=? 0 then Some (- EINVAL, s)
  else if negb (kzalloc (count + 1)) then Some (- EINVAL, s)
  else
    last ← aget buf (count - 1);
    src ← bget buf 0 (if last =? newline then count - 1 else count);
    match find_by_number (uk_hdr (ukdev s)) (c_str src) (length (uk_hdr (ukdev s))) 0 with
    | None => Some (- EINVAL, s)
    | Some k => Some (count, set_curkey s k)
    end.

Definition read_show s : option (Z * bytes * uk_state K E) :=
  match curkey (ukdev s) with
  | None => Some (0, [], s)
  | Some k =>
      '(ret, keysize, s) ← key_unify_size s (kname k) stack;
      if ret <? 0 then Some (0, [], s)
      else if keysize =? 0 then Some (0, [], s)
      else
        let keysize := if decide (dev k = KEY_SECURE) then SHA256_SUM_LEN else keysize in
        if negb (kzalloc keysize) then Some (0, [], s)
        else
          '(ret, keydata, _, s) ← key_unify_read kzalloc s (kname k) (fill 0 keysize) keysize stack;
          if ret <? 0 then Some (0, [], s)
          else
            src ← bget keydata 0 keysize;
            show_text s src
  end.

(** [isascii] of a [char]. *)
Definition isascii (c : Z) : bool := (0 <=? c) && (c <? 128).

Definition write_store s (buf : bytes) : option (Z * uk_state K E) :=
  let count := zlen buf in
  if count <=? 0 then Some (- EINVAL, s)
  else
    match curkey (ukdev s) with
    | None => Some (count, s)
    | Some k =>
        if negb (kzalloc count) then Some (count, s)
        else
          last ← aget buf (count - 1);
          let key_len := if forallb isascii buf && (last =? newline) then count - 1 else count in
          src ← bget buf 0 key_len;
          '(_, s) ← key_unify_write s (kname k) (src ++ fill 0 (count - key_len)) (u32 key_len);
          Some (count, s)
    end.

Definition attach_show s : option (Z * bytes * uk_state K E) :=
  show_text s (str (if init_flag (ukdev s) =? 0 then "no" else "yes") ++ [newline]).

Definition attach_store s (buf : bytes) : option (Z * uk_state K E) :=
  '(_, s) ← key_unify_init s; Some (zlen buf, s).

Definition lock_show s : option (Z * bytes * uk_state K E) :=
  show_text s (str (pretty (lock_flag (ukdev s))) ++ [newline]).

Definition set_lock s (v : Z) : uk_state K E :=
  let u := ukdev s in
  set_ukdev s (mk_ukdev (init_flag u) v (curkey u) (uk_hdr u) (uk_info u)).

Definition lock_store s (buf : bytes) : option (Z * uk_state K E) :=
  let count := zlen buf in
  if count <=? 0 then Some (- EINVAL, s)
  else
    last ← aget buf (count - 1);
    let len := if last =? newline then count - 1 else count in
    if strn_eq (c_str buf) (str "1") (Z.to_nat len) then Some (count, set_lock s 1)
    else if strn_eq (c_str buf) (str "0") (Z.to_nat len) then Some (count, set_lock s 0)
    else Some (- EINVAL, s).

End Sysfs.

(** ** Probe and remove *)

(** What the kernel answers to each step of the probe. *)
Record uk_probe_env := mk_uk_env {
  if_init : Z;
  ukdev_memory : bool;
  item_memory : nat -> bool;
  encrypt_prop : option Z;
  dt_children : list dt_key;
  chrdev_region : Z;
  class_register : Z;
  cdev_add : Z;
  device_create : Z }.

(** The resources the driver holds ([RKeyif]: the buffers of the storage layer),
    and whether [ukdev_global] points to a device. *)
Inductive uk_resource := RChrdev | RClass | RCdev | RDevice | RUkdev | RKeyif.
#[export] Instance uk_resource_eq_dec : EqDecision uk_resource.
Proof. solve_decision. Defined.

Record uk_driver := mk_uk_driver {
  drv_ukdev : option aml_uk_dev;
  drv_global : bool;
  drv_held : list uk_resource }.

Definition drop_res (r : uk_resource) (d : uk_driver) : uk_driver :=
  mk_uk_driver (drv_ukdev d) (drv_global d) (filter (fun x => x <> r) (drv_held d)).
Definition take_res (r : uk_resource) (d : uk_driver) : uk_driver :=
  mk_uk_driver (drv_ukdev d) (drv_global d) (r :: drv_held d).

(** The error labels fall through to the ones below them. *)
Definition probe_error1 (d : uk_driver) : uk_driver := drop_res RKeyif (drop_res RUkdev d).
Definition probe_error2 (d : uk_driver) : uk_driver := probe_error1 (drop_res RChrdev d).
Definition probe_error3 (d : uk_driver) : uk_driver := probe_error2 (drop_res RClass d).
Definition probe_error4 (d : uk_driver) : uk_driver := probe_error3 (drop_res RCdev d).

Definition ukdev_zero : aml_uk_dev := mk_ukdev 0 0 None [] (mk_info 0 0 0).

Definition aml_unifykeys_probe (e : uk_probe_env) (d : uk_driver) : Z * uk_driver :=
  if c_true (if_init e) then (- ENODEV, drop_res RKeyif d)
  else
  let d := take_res RKeyif d in
  if negb (ukdev_memory e) then (- ENOMEM, drop_res RKeyif d)
  else
    let u := uk_dt_create (item_memory e) (encrypt_prop e) (dt_children e) ukdev_zero in
    let d := take_res RUkdev (mk_uk_driver (Some u) true (drv_held d)) in
    if c_true (chrdev_region e) then (chrdev_region e, probe_error1 d)
    else
      let d := take_res RChrdev d in
      if c_true (class_register e) then (class_register e, probe_error2 d)
      else
        let d := take_res RClass d in
        if c_true (cdev_add e) then (cdev_add e, probe_error3 d)
        else
          let d := take_res RCdev d in
          if device_create e <? 0 then (device_create e, probe_error4 d)
          else (0, take_res RDevice d).

Definition aml_unifykeys_remove (of_node : bool) (d : uk_driver) : Z * uk_driver :=
  let d := if of_node then mk_uk_driver (uk_dt_release <$> drv_ukdev d) (drv_global d) (drv_held d) else d in
  (0, drop_res RKeyif (drop_res RClass (drop_res RCdev (drop_res RDevice (drop_res RChrdev d))))).

(** ** The stores behind the interface *)

Section Stores.
Context {D : Type}.
Variable digest : bytes -> Z + bytes.
Variable kmalloc : Z -> bool.
Variable uninit : Z -> bytes.

(** [amlkey_ifs[IFTYPE_NORMAL_STORAGE]] *)
Definition normal_if : AmlkeyIf (storage_key_state D) := {|
  amlkey_init := _amlkey_init_normal digest kmalloc;
  amlkey_exsit s nm := r ← _amlkey_exist_normal s (Some nm); Some (r, s);
  amlkey_size s nm := r ← _amlkey_size_normal s (Some nm); Some (r, s);
  amlkey_get_attr s nm := r ← _amlkey_get_attr_normal s (Some nm); Some (r, s);
  amlkey_read s nm buf len := '(r, buf) ← _amlkey_read_normal s (Some nm) buf len; Some (r, buf, s);
  amlkey_write s nm buf len attr := _amlkey_write_normal digest kmalloc uninit s (Some nm) (Some buf) len attr;
  amlkey_hash s nm buf := '(r, buf) ← _amlkey_hash_normal s (Some nm) buf; Some (r, buf, s) |}.

Variable smc : Z -> bl31_storage_share_mem -> Z * bl31_storage_share_mem.

(** [amlkey_ifs[IFTYPE_SECURE_STORAGE]] *)
Definition secure_if : AmlkeyIf (storage_key_state D) := {|
  amlkey_init := _amlkey_init;
  amlkey_exsit s nm := _amlkey_exsit smc s (Some nm);
  amlkey_size s nm := _amlkey_size smc s (Some nm);
  amlkey_get_attr s nm := _amlkey_get_attr smc s (Some nm);
  amlkey_read s nm buf len := _amlkey_read smc s (Some nm) buf len;
  amlkey_write s nm buf len attr := _amlkey_write smc s (Some nm) buf len attr;
  amlkey_hash s nm buf :=
    '(r, h, s) ← _amlkey_hash smc s nm;
    match h with
    | Some h => buf ← bput buf 0 h; Some (r, buf, s)
    | None => Some (r, buf, s)
    end |}.

End Stores.
