(* ===== verification/UnifykeySpec.v ===== *)
(** * Correctness of the unified key manager

    Against the contract of the storage interface, what the character device
    writes it reads back; the normal store meets that contract, so the key is
    there after a restart too.  Then the numbering of the keys, permissions, and
    the paths on which the code does not do what it means to. *)

From stdpp Require Import base numbers list option strings.
From S2P Require Import Prelude KText Tlv TlvSpec NormalKey NormalKeySpec SecurityKey StorageKey StorageKeySpec Unifykey UnifykeySysfs.

(** Signs of error numbers. *)
Ltac errno := unfold EPERM, EINVAL, ENOMEM, EFAULT in *; lia.

(** ** Names *)

Lemma strn_eq_refl a n : strn_eq a a n = true.
Proof.
  revert a. induction n as [|n IH]; intros a; [done|]. simpl. destruct a as [|x a]; [done|].
  by rewrite Z.eqb_refl, IH.
Qed.

Lemma strn_eq_long a : forall b n, (length a <= n)%nat -> (length b <= n)%nat ->
  strn_eq a b n = true -> a = b.
Proof.
  induction a as [|x a IH]; intros [|y b] [|n] Ha Hb H; simpl in *; try done; try lia.
  b2p. f_equal; [done|]. eapply IH; [| |done]; lia.
Qed.

Lemma same_name_eq a b : same_name a b = true <-> a = b.
Proof.
  unfold same_name. split.
  - apply strn_eq_long; case_goal; rewrite ?Nat.ltb_lt, ?Nat.ltb_ge in *; lia.
  - intros ->. apply strn_eq_refl.
Qed.

(** The comparison of the code, [strncmp] over the longer of the two lengths, is
    equality of names: the search by name is the search for the first item that
    has the name, and the search of [name_store] over the numbers finds a key
    exactly when the name is known. *)
Theorem find_by_name_is_lookup l nm :
  uk_find_item_by_name l nm = snd <$> list_find (fun k => kname k = nm) l.
Proof.
  induction l as [|k l IH]; [done|]. simpl uk_find_item_by_name. cbn [list_find].
  destruct (decide (kname k = nm)) as [E|E].
  - by rewrite (proj2 (same_name_eq _ _) E).
  - destruct (same_name (kname k) nm) eqn:Es; [by apply same_name_eq in Es|].
    rewrite IH. by destruct (list_find _ l) as [[]|].
Qed.

Lemma find_name_Some l nm k : uk_find_item_by_name l nm = Some k -> In k l /\ kname k = nm.
Proof.
  induction l as [|x l IH]; [done|]. simpl. destruct (same_name (kname x) nm) eqn:E.
  - intros [= ->]. apply same_name_eq in E. auto.
  - intros H. destruct (IH H). auto.
Qed.

Lemma find_id_Some l i k : uk_find_item_by_id l i = Some k -> In k l /\ id k = i.
Proof.
  induction l as [|x l IH]; [done|]. simpl. destruct (Z.eqb_spec (id x) i).
  - intros [= ->]. auto.
  - intros H. destruct (IH H). auto.
Qed.

(** ** Numbers from the device tree *)

(** The list is numbered from its last item up. *)
Fixpoint numbered (l : list key_item_t) : Prop :=
  match l with
  | [] => True
  | k :: l => id k = zlen l /\ numbered l
  end.

Lemma parse_dt_id node i k : uk_item_parse_dt node i = inr k -> id k = i /\ zlen (kname k) <= 47.
Proof.
  unfold uk_item_parse_dt. destruct (dt_name node) as [nm|]; [|done]. destruct (dt_device node); [|done].
  intros [= <-]. simpl. split; [done|]. unfold KEY_UNIFY_NAME_LEN. rewrite length_take. case_goal; b2p; lia.
Qed.

Lemma item_create_numbered memory n children l :
  numbered l -> let '(l', m) := uk_item_create memory n children l (zlen l) in numbered l' /\ m = zlen l'.
Proof.
  revert n l. induction children as [|c cs IH]; intros n l Hl; [done|]. simpl.
  destruct (if memory n then uk_item_parse_dt c (zlen l) else inl (- ENOMEM)) as [e|k] eqn:E; [by apply IH|].
  replace (zlen l + 1) with (zlen (k :: l)) by (simpl length; lia). apply IH. simpl. split; [|done].
  destruct (memory n); [|done]. by apply parse_dt_id in E as [? _].
Qed.

Lemma numbered_bound l k : numbered l -> In k l -> 0 <= id k < zlen l.
Proof.
  induction l as [|x l IH]; [done|]. intros [Hx Hl] [->|Hk]; simpl length; [lia|]. specialize (IH Hl Hk). lia.
Qed.

Lemma numbered_find l i : numbered l -> 0 <= i < zlen l -> exists k, uk_find_item_by_id l i = Some k.
Proof.
  induction l as [|x l IH]; simpl length; intros H Hi; [lia|]. destruct H as [Hx Hl]. simpl.
  destruct (Z.eqb_spec (id x) i); [eauto|]. apply IH; [done|lia].
Qed.

(** The keys made from the device tree are numbered 0 to [key_num - 1] without
    gaps, whatever nodes are skipped; a seek to a position succeeds exactly when
    it is the number of a key, and then that key is found under it. *)
Theorem dt_keys_numbered {K E} (memory : nat -> bool) enc children u (k : K) (e : E) f_pos pos
  (Hu : key_flag (uk_info u) = 0) (Hl : uk_hdr u = []) :
  let u' := uk_dt_create memory enc children u in
  key_num (uk_info u') = zlen (uk_hdr u') /\
  (forall item, In item (uk_hdr u') -> 0 <= id item < key_num (uk_info u')) /\
  (if (0 <=? pos) && (pos <? key_num (uk_info u'))
   then unifykey_llseek (mk_uk u' k e) f_pos pos 0 = (pos, pos) /\
        exists item, uk_find_item_by_id (uk_hdr u') pos = Some item /\ id item = pos
   else unifykey_llseek (mk_uk u' k e) f_pos pos 0 = (- EINVAL, f_pos) /\
        uk_find_item_by_id (uk_hdr u') pos = None).
Proof.
  cbn zeta. unfold uk_dt_create. rewrite Hu, Hl. change (c_true 0) with false. cbv iota.
  pose proof (item_create_numbered memory 0 children [] I) as H. change (zlen []) with 0 in H.
  destruct (uk_item_create memory 0 children [] 0) as [l n]. destruct H as [Hnum ->]. simpl.
  split; [done|]. split; [intros; by apply numbered_bound|].
  unfold unifykey_llseek, uk_count_key. simpl.
  destruct (Z.leb_spec 0 pos) as [H0|H0]; simpl.
  - rewrite (proj2 (Z.ltb_ge pos 0)) by done. destruct (Z.ltb_spec pos (zlen l)) as [H1|H1].
    + rewrite (proj2 (Z.leb_gt _ _)) by done. split; [done|].
      destruct (numbered_find l pos Hnum) as [it Hit]; [lia|]. exists it. split; [done|].
      by apply find_id_Some in Hit as [_ ?].
    + rewrite (proj2 (Z.leb_le _ _)) by done. split; [done|].
      destruct (uk_find_item_by_id l pos) as [it|] eqn:Ef; [|done].
      apply find_id_Some in Ef as [Hin <-]. pose proof (numbered_bound _ _ Hnum Hin). lia.
  - rewrite (proj2 (Z.ltb_lt pos 0)) by done. split; [done|].
    destruct (uk_find_item_by_id l pos) as [it|] eqn:Ef; [|done].
    apply find_id_Some in Ef as [Hin <-]. pose proof (numbered_bound _ _ Hnum Hin). lia.
Qed.

(** ** The contract of the storage interface

    A store in a good state answers queries without changing; a write that
    reports the length asked for has stored the data and the attribute under the
    name and left the other names alone. *)
Class AmlkeyLaws {K} (kif : AmlkeyIf K) (ok : K -> Prop) (look : K -> bytes -> option (bytes * Z)) : Prop := {
  law_get_attr k nm : ok k -> amlkey_get_attr k nm = Some (default 0 (snd <$> look k nm), k);
  law_size k nm : ok k -> amlkey_size k nm = Some (default 0 ((fun x => zlen x.1) <$> look k nm), k);
  law_read k nm d a buf len : ok k -> look k nm = Some (d, a) -> zlen buf = len -> 0 <= len < 2 ^ 30 ->
    amlkey_read k nm buf len
    = Some (if zlen d <=? len then zlen d else 0, if zlen d <=? len then d ++ drop (length d) buf else buf, k);
  law_data k nm d a : ok k -> look k nm = Some (d, a) -> zlen d < 2 ^ 30;
  law_write k nm buf len a : ok k -> zlen nm <= 80 -> 0 < len < 2 ^ 30 -> zlen buf = len ->
    0 <= a < 2 ^ 32 -> Z.land a 1 = 0 ->
    exists r k', amlkey_write k nm buf len a = Some (r, k') /\ ok k' /\
      (r = 0 \/ r = len /\ forall nm', look k' nm' = if decide (nm' = nm) then Some (buf, a) else look k nm') }.

Section Client.
Context {K E : Type} {kif : AmlkeyIf K} {eif : EfuseIf E}.
Context {ok : K -> Prop} {look : K -> bytes -> option (bytes * Z)} {laws : AmlkeyLaws kif ok look}.
Variables (kzalloc : Z -> bool) (stack : Z).
Implicit Types s : uk_state K E.

(** A key of the normal store that its number and its name both lead to. *)
Definition normal_item s (pos : Z) (item : key_item_t) : Prop :=
  uk_find_item_by_id (uk_hdr (ukdev s)) (s32 pos) = Some item /\
  uk_find_item_by_name (uk_hdr (ukdev s)) (kname item) = Some item /\
  dev item = KEY_NORMAL /\ zlen (kname item) <= 80.

Lemma write_normal_item s pos item data count :
  normal_item s pos item -> ok (keystore s) -> Z.land (perm item) KEY_PERM_WRITE = KEY_PERM_WRITE ->
  kzalloc count = true -> zlen data = count -> 0 < count < 2 ^ 30 ->
  exists r s', unifykey_write kzalloc s (Some data) count pos = Some (r, s') /\
    ukdev s' = ukdev s /\ efuse s' = efuse s /\ ok (keystore s') /\
    (r = - EINVAL \/
     r = count /\ forall nm, look (keystore s') nm
       = if decide (nm = kname item)
         then Some (data, if c_true (Z.land (attr item) KEY_ATTR_ENCRYPT) then KEY_ATTR_ENCRYPT else 0)
         else look (keystore s) nm).
Proof.
  intros (Hid & Hnm & Hdev & Hlen) Hok Hp Hk Hd Hc. unfold unifykey_write. rewrite Hk, Hid. simpl negb. cbv iota.
  assert (Hb : bget data 0 count = Some data).
  { rewrite bget_take by lia. by rewrite take_ge by lia. }
  rewrite Hb. cbn [mbind option_bind]. unfold key_unify_write. rewrite Hnm, Hp, Z.eqb_refl. simpl negb. cbv iota.
  rewrite Hdev, decide_False by done. rewrite (u32_small count) by lia. rewrite Z.lor_0_l.
  set (a := if c_true _ then _ else _).
  assert (Ha : 0 <= a < 2 ^ 32 /\ Z.land a 1 = 0) by (unfold a; case_goal; done). destruct Ha as [Ha1 Ha2].
  destruct (law_write (keystore s) (kname item) data count a Hok Hlen) as (r & k' & -> & Hok' & Hr);
    [done|done|done|done|].
  unfold call. cbn [mbind option_bind].
  destruct (Z.eqb_spec r count) as [->|Hne]; simpl negb; cbv iota; cbn [mbind option_bind].
  - rewrite s32_small by lia. do 2 eexists. split; [done|]. do 3 (split; [done|]).
    destruct Hr as [->|[_ Hr]]; [lia|]. right. by split.
  - do 2 eexists. split; [done|]. do 3 (split; [done|]). by left.
Qed.

Lemma read_normal_item s pos item count d a :
  normal_item s pos item -> ok (keystore s) -> Z.land (perm item) KEY_PERM_READ = KEY_PERM_READ ->
  kzalloc count = true -> 0 <= count < 2 ^ 30 -> look (keystore s) (kname item) = Some (d, a) ->
  Z.land a 1 = 0 ->
  unifykey_read kzalloc stack s true count pos
  = if negb (Z.land a KEY_ATTR_ENCRYPT =? (if c_true (Z.land (attr item) KEY_ATTR_ENCRYPT) then 1 else 0)) ||
       negb ((if zlen d <=? count then zlen d else 0) =? count)
    then Some (- EINVAL, [], s) else Some (count, if zlen d <=? count then d else [], s).
Proof.
  intros (Hid & Hnm & Hdev & _) Hok Hp Hk Hc Hl Ha. unfold unifykey_read. rewrite Hid, Hdev, decide_False, Hk by done.
  simpl negb. cbv iota. unfold key_unify_read. rewrite Hnm, Hp, Z.eqb_refl. simpl negb. cbv iota. rewrite Hdev.
  assert (Hat : amlkey_get_attr (keystore s) (kname item) = Some (a, keystore s))
    by (rewrite law_get_attr, Hl by done; done).
  unfold key_storage_read, call. rewrite Hat. cbn [mbind option_bind set_keystore keystore].
  unfold KEY_ATTR_SECURE. change (Z.shiftl 1 0) with 1. rewrite Ha. change (c_true 0) with false. cbv iota.
  rewrite Hat. cbn [mbind option_bind set_keystore keystore].
  assert (Hs : set_keystore (set_keystore s (keystore s)) (keystore s) = s) by (by destruct s).
  destruct (negb (Z.land a KEY_ATTR_ENCRYPT =? _)); simpl orb; cbv iota; cbn [mbind option_bind].
  { rewrite Hs. done. }
  rewrite (u32_small count) by lia.
  erewrite law_read; [|done|done|unfold fill; rewrite length_replicate; lia|lia]. cbn [mbind option_bind].
  assert (Hs3 : set_keystore (set_keystore (set_keystore s (keystore s)) (keystore s)) (keystore s) = s) by (by destruct s).
  simpl set_keystore in Hs3 |- *. pose proof (law_data _ _ _ _ Hok Hl).
  destruct (Z.leb_spec (zlen d) count) as [Hle|Hle].
  - rewrite u32_small by lia. destruct (Z.eqb_spec (zlen d) count) as [Hq|Hq]; simpl negb; cbv iota; cbn [mbind option_bind].
    + rewrite Hq, !Z.ltb_irrefl. simpl negb. cbv iota.
      rewrite drop_ge by (unfold fill; rewrite length_replicate; lia). rewrite app_nil_r.
      rewrite bget_take by lia. rewrite take_ge by lia. cbn [mbind option_bind].
      rewrite s32_small by lia. by destruct s.
    + by destruct s.
  - rewrite u32_small by lia. destruct (Z.eqb_spec 0 count) as [Hq|Hq]; simpl negb; cbv iota; cbn [mbind option_bind].
    + rewrite <- Hq. simpl. by destruct s.
    + by destruct s.
Qed.

(** What is written through the character device is read back through it: a write
    at the position of a writable key of the normal store that returns the number
    of bytes leaves every other key as it was, and the key, if readable and not
    marked as encrypted, is then read byte for byte with a buffer of its size. *)
Theorem unifykey_write_read s pos item data count
  (Hit : normal_item s pos item) (Hok : ok (keystore s))
  (Hw : Z.land (perm item) KEY_PERM_WRITE = KEY_PERM_WRITE)
  (Hk : kzalloc count = true) (Hd : zlen data = count) (Hc : 0 < count < 2 ^ 30) :
  exists r s', unifykey_write kzalloc s (Some data) count pos = Some (r, s') /\
    (r = - EINVAL \/
     r = count /\ (forall nm, nm <> kname item -> look (keystore s') nm = look (keystore s) nm) /\
     (Z.land (perm item) KEY_PERM_READ = KEY_PERM_READ -> attr item = 0 ->
      unifykey_read kzalloc stack s' true count pos = Some (count, data, s'))).
Proof.
  destruct (write_normal_item s pos item data count Hit Hok Hw Hk Hd Hc) as (r & s' & Hwr & Hu & _ & Hok' & Hr).
  exists r, s'. split; [done|]. destruct Hr as [?|[-> Hl]]; [by left|right]. split; [done|].
  split; [intros nm Hne; by rewrite Hl, decide_False|]. intros Hrd Ha.
  assert (Hit' : normal_item s' pos item) by (unfold normal_item; rewrite Hu; exact Hit).
  specialize (Hl (kname item)). rewrite decide_True, Ha in Hl by done.
  rewrite (read_normal_item s' pos item count data 0) by (done || lia).
  rewrite Ha, Hd, Z.leb_refl, (Z.eqb_refl count). reflexivity.
Qed.

(** A stored key is read only with a buffer of exactly its size: with a larger one
    (or a smaller one) the call fails although the code goes on to cut the count
    to the length it was given. *)
Theorem unifykey_read_exact_only s pos item count d
  (Hit : normal_item s pos item) (Hok : ok (keystore s))
  (Hp : Z.land (perm item) KEY_PERM_READ = KEY_PERM_READ) (Hk : kzalloc count = true)
  (Hc : 0 < count < 2 ^ 30) (Hl : look (keystore s) (kname item) = Some (d, 0)) (Ha : attr item = 0) :
  unifykey_read kzalloc stack s true count pos
  = if zlen d =? count then Some (count, d, s) else Some (- EINVAL, [], s).
Proof.
  rewrite (read_normal_item s pos item count d 0) by (done || lia). rewrite Ha.
  change (negb (Z.land 0 KEY_ATTR_ENCRYPT =? _)) with false.
  destruct (Z.leb_spec (zlen d) count), (Z.eqb_spec (zlen d) count); cbn [negb orb]; try done; try lia.
  by rewrite (proj2 (Z.eqb_neq 0 count)) by lia.
Qed.

(** A key that the device tree marks as encrypted is never read: the attribute of
    the store has bit 8 or nothing, the mark of the device tree is turned into 1,
    and the two are compared for equality. *)
Theorem encrypted_key_unreadable s pos item count
  (Hit : normal_item s pos item) (Hok : ok (keystore s))
  (Hp : Z.land (perm item) KEY_PERM_READ = KEY_PERM_READ) (Hk : kzalloc count = true)
  (Ha : c_true (Z.land (attr item) KEY_ATTR_ENCRYPT) = true) :
  unifykey_read kzalloc stack s true count pos = Some (- EINVAL, [], s).
Proof.
  destruct Hit as (Hid & Hnm & Hdev & _). unfold unifykey_read. rewrite Hid, Hdev, decide_False, Hk by done.
  simpl negb. cbv iota. unfold key_unify_read. rewrite Hnm, Hp, Z.eqb_refl. simpl negb. cbv iota. rewrite Hdev.
  unfold key_storage_read, call.
  assert (Hs : set_keystore (set_keystore s (keystore s)) (keystore s) = s) by (by destruct s).
  rewrite law_get_attr by done. set (a := default 0 _). cbn [mbind option_bind set_keystore keystore].
  destruct (c_true (Z.land a KEY_ATTR_SECURE)); [cbn [mbind option_bind]; by destruct s|].
  rewrite law_get_attr by done. fold a. cbn [mbind option_bind]. rewrite Ha.
  assert (Hne : (Z.land a KEY_ATTR_ENCRYPT =? 1) = false).
  { bsolve. intros H. assert (Hb : Z.testbit (Z.land a KEY_ATTR_ENCRYPT) 0 = Z.testbit 1 0) by by rewrite H.
    rewrite Z.land_spec in Hb. unfold KEY_ATTR_ENCRYPT in Hb. simpl in Hb. by rewrite andb_false_r in Hb. }
  rewrite Hne. simpl negb. cbv iota. cbn [mbind option_bind]. by rewrite Hs.
Qed.

End Client.

(** ** The normal store meets the contract *)

Definition attr_of (ks : list storage_object) (nm : bytes) : option Z :=
  attribute ∘ snd <$> list_find (fun o => key_name o = nm) ks.

Lemma attr_of_cons ks o nm :
  attr_of (o :: ks) nm = if decide (nm = key_name o) then Some (attribute o) else attr_of ks nm.
Proof.
  unfold attr_of. cbn [list_find]. destruct (decide (key_name o = nm)) as [E|E].
  - by rewrite decide_True by done.
  - rewrite decide_False by congruence. by destruct (list_find _ ks) as [[]|].
Qed.

(** The attributes depend on names and attributes only. *)
Lemma attr_of_insert ks i o o' nm :
  ks !! i = Some o -> key_name o' = key_name o -> attribute o' = attribute o ->
  attr_of (<[i := o']> ks) nm = attr_of ks nm.
Proof.
  revert i. induction ks as [|x ks IH]; intros [|i] Hi Hn Ha; try done; simpl in Hi; simpl insert.
  - injection Hi as ->. by rewrite !attr_of_cons, Hn, Ha.
  - by rewrite !attr_of_cons, IH.
Qed.

Lemma attr_of_iff ks nm a :
  NoDup (map key_name ks) ->
  attr_of ks nm = Some a <-> exists o, In o ks /\ key_name o = nm /\ attribute o = a.
Proof.
  intros Hnd. unfold attr_of. rewrite fmap_Some. split.
  - intros ([i o] & Hf & ->). apply find_iff in Hf as [Hi Hn]; [|done].
    exists o. split_and!; [|done..]. by eapply list_elem_of_In, list_elem_of_lookup_2.
  - intros (o & Hi & Hn & <-). apply list_elem_of_In, list_elem_of_lookup_1 in Hi as [i Hi].
    exists (i, o). split; [|done]. by apply find_iff.
Qed.

Section NormalStore.
Context {D : Type} (rd : read_op D) (wr : write_op D) (L : Z) {laws : StorageLaws rd wr L}.
Context (digest : bytes -> Z + bytes) (kmalloc : Z -> bool) (uninit : Z -> bytes).
Context (Hdigest : forall d, exists h, digest d = inr h /\ length h = 32%nat).
Context (Huninit : forall n, length (uninit n) = Z.to_nat n).
Context (Hkmalloc : forall n, 0 < n -> kmalloc n = true).
Context (HL : 1024 < L < 2 ^ 31).

Lemma fill_object_attr o buf len o' :
  fill_object digest o buf len = Some o' -> attribute o' = attribute o /\ key_name o' = key_name o.
Proof.
  unfold fill_object. destruct (bget buf 0 len); [|done]. cbn [mbind option_bind].
  destruct (dataptr o); [|done]. cbn [mbind option_bind]. destruct (bput _ _ _); [|done]. cbn [mbind option_bind].
  destruct (normalkey_hash digest buf len) as [[]|]; [|done]. by intros [= <-].
Qed.

Lemma normalkey_add_attrs s nm buf len a s' :
  keys_ok digest (keys s) -> normalkey_add digest kmalloc uninit s (Some nm) (Some buf) len a = Some (0, s') ->
  forall nm', attr_of (keys s') nm' = if decide (nm' = nm) then Some a else attr_of (keys s) nm'.
Proof.
  intros Hok H nm'. unfold normalkey_add in H. do 3 (case_hyp H; [done|]).
  erewrite normalkey_get_find in H by done. cbn [mbind option_bind] in H.
  destruct (list_find _ (keys s)) as [[i o]|] eqn:Hf.
  - assert (Ef := Hf). apply find_iff in Hf as [Hi Hn]; [|apply Hok].
    case_hyp H; [done|]. b2p. subst a.
    assert (Ha : forall o1 o', key_name o1 = key_name o -> attribute o1 = attribute o ->
      fill_object digest o1 buf len = Some o' ->
      attr_of (<[i := o']> (keys s)) nm' = if decide (nm' = nm) then Some (attribute o) else attr_of (keys s) nm').
    { intros o1 o' Hn1 Ha1 [Ha2 Hn2]%fill_object_attr.
      rewrite (attr_of_insert _ _ o) by congruence. case_decide as Enm; [|done]. subst nm'.
      unfold attr_of. by rewrite Ef. }
    case_hyp H; [case_hyp H; [done|]|];
      (destruct (fill_object digest _ buf len) as [o'|] eqn:Eo; [|done]); cbn [mbind option_bind] in H;
      injection H as <-; (eapply Ha; [| |exact Eo]); done.
  - do 2 (case_hyp H; [done|]). destruct (bput _ 0 nm) as [n|] eqn:Eb; [|done]. cbn [mbind option_bind] in H.
    destruct (fill_object digest _ buf len) as [o'|] eqn:Eo; [|done]. cbn [mbind option_bind] in H.
    injection H as <-. apply fill_object_attr in Eo as [Ha Hn]. simpl keys. rewrite attr_of_cons, Ha, Hn. simpl.
    assert (key_name (mk_storage_object n (Z.of_nat (length nm)) a OBJ_TYPE_GENERIC 0 (Some (uninit len)) (uninit 32)) = nm)
      as ->; [|done].
    unfold key_name. simpl. unfold bput in Eb. case_hyp Eb; [|done]. injection Eb as <-.
    rewrite Nat2Z.id. unfold splice. simpl. by rewrite take_app_length.
Qed.

Lemma writetoblock_keys s blk size r blk' s' :
  normalkey_writetoblock digest s blk size = Some (r, blk', s') -> keys s' = keys s.
Proof.
  unfold normalkey_writetoblock. intros H. case_hyp H; [by inv_some|]. destruct blk as [blk|]; [|by inv_some].
  case_hyp H; [by inv_some|]. cbn zeta in H. destruct (write_objects _ _ _ _ _ _) as [[[[] ?] ?]|]; [|done].
  cbn [mbind option_bind] in H. case_hyp H; [by inv_some|]. destruct (Tlv_WriteHead _ _ _ _) as [[]|]; [|done].
  cbn [mbind option_bind] in H. case_hyp H; [by inv_some|]. destruct (normalkey_hash _ _ _) as [[]|]; [|done].
  cbn [mbind option_bind] in H. destruct (bget _ _ _); [|done]. cbn [mbind option_bind] in H.
  destruct (normalkey_hash _ _ _) as [[]|]; [|done]. cbn [mbind option_bind] in H.
  destruct (bput _ _ _); [|done]. cbn [mbind option_bind] in H. by inv_some.
Qed.

Lemma write_normal_attrs s nm buf len a r s' :
  keys_ok digest (keys (nk s)) -> r <> 0 ->
  _amlkey_write_normal (D := D) digest kmalloc uninit s (Some nm) (Some buf) len a = Some (r, s') ->
  forall nm', attr_of (keys (nk s')) nm' = if decide (nm' = nm) then Some a else attr_of (keys (nk s)) nm'.
Proof.
  intros Hok Hr H. unfold _amlkey_write_normal in H. case_hyp H; [by inv_some|].
  destruct (write (ops (unifykey_types s))) as [w|]; [|by inv_some].
  destruct (normalkey_add _ _ _ _ _ _ _ _) as [[r1 n]|] eqn:Ea; [|done]. cbn [mbind option_bind] in H.
  case_hyp H; [by inv_some|]. unfold c_true in E0. b2p. subst r1.
  destruct (normalkey_writetoblock _ _ _ _) as [[[r2 blk] n2]|] eqn:Ew; [|done]. cbn [mbind option_bind] in H.
  apply writetoblock_keys in Ew. case_hyp H; [by inv_some|]. destruct blk as [blk|]; [|done].
  cbn [mbind option_bind] in H. destruct (w _ _ _) as [[r3 d]|]; [|done]. cbn [mbind option_bind] in H.
  case_hyp H; [by inv_some|]. injection H as <- <-. simpl keys. rewrite Ew.
  by eapply normalkey_add_attrs.
Qed.

Definition normal_ok (s : storage_key_state D) : Prop := running (laws := laws) rd wr L digest s.
Definition normal_look (s : storage_key_state D) (nm : bytes) : option (bytes * Z) :=
  d ← lookup_key (keys (nk s)) nm; a ← attr_of (keys (nk s)) nm; Some (d, a).

Lemma normal_look_find s nm :
  normal_look s nm = (fun x => (key_data x.2, attribute x.2)) <$> list_find (fun o => key_name o = nm) (keys (nk s)).
Proof. unfold normal_look, lookup_key, attr_of. by destruct (list_find _ _) as [[]|]. Qed.

Lemma normal_store_laws : AmlkeyLaws (normal_if digest kmalloc uninit) normal_ok normal_look.
Proof.
  split.
  - intros s nm Hs. simpl. unfold _amlkey_get_attr_normal. erewrite normalkey_get_find by by eapply running_nk.
    rewrite normal_look_find. cbn [mbind option_bind]. by destruct (list_find _ _) as [[]|].
  - intros s nm Hs. simpl. unfold _amlkey_size_normal. erewrite normalkey_get_find by by eapply running_nk.
    rewrite normal_look_find. cbn [mbind option_bind]. destruct (list_find _ _) as [[i o]|] eqn:Ef; [|done].
    simpl. apply list_find_Some in Ef as (Hi & _). pose proof (running_nk _ _ _ _ _ Hs) as Hok.
    assert (Ho : object_ok o) by (eapply Forall_lookup_1; [by eapply keys_object_ok|done]).
    destruct Ho as (_ & _ & _ & _ & ? & ? & _). unfold key_data. rewrite length_take. do 2 f_equal. lia.
  - intros s nm d a buf len Hs Hl Hb Hlen. simpl.
    pose proof (running_nk _ _ _ _ _ Hs) as Hok.
    assert (Hlk : lookup_key (keys (nk s)) nm = Some d)
      by (rewrite normal_look_find in Hl; unfold lookup_key; destruct (list_find _ _) as [[]|]; [|done]; by injection Hl as <- <-).
    destruct (Z.leb_spec (zlen d) len).
    + erewrite read_normal_lemma by (done || lia). done.
    + unfold _amlkey_read_normal. erewrite normalkey_get_find by done. unfold lookup_key in Hlk.
      destruct (list_find _ _) as [[i o]|] eqn:Ef; [|done]. injection Hlk as <-. cbn [mbind option_bind].
      apply list_find_Some in Ef as (Hi & _).
      assert (Ho : object_ok o) by (eapply Forall_lookup_1; [by eapply keys_object_ok|done]).
      destruct Ho as (_ & _ & _ & _ & ? & ? & _). unfold compose, key_data in H. simpl in H. rewrite length_take in H.
      rewrite (proj2 (Z.leb_gt _ _)) by lia. done.
  - intros s nm d a Hs Hl. rewrite normal_look_find in Hl. destruct (list_find _ _) as [[i o]|] eqn:Ef; [|done].
    injection Hl as <- <-. apply list_find_Some in Ef as (Hi & _). pose proof (running_nk _ _ _ _ _ Hs) as Hok.
    assert (Ho : object_ok o) by (eapply Forall_lookup_1; [by eapply keys_object_ok|done]).
    destruct Ho as (_ & _ & _ & _ & ? & ? & _). unfold key_data. simpl. rewrite length_take. lia.
  - intros s nm buf len a Hs Hnm Hlen Hb Ha Hsec. simpl.
    destruct (write_normal_lemma rd wr L digest kmalloc uninit Hdigest Huninit HL s nm buf len a Hs Hnm Hlen)
      as (r & s' & Hw & Hs' & Hr); [lia|done|done|].
    exists r, s'. split; [done|]. split; [done|]. destruct Hr as [->|(-> & _ & Hlk)]; [by left|right]. split; [done|].
    intros nm'. pose proof (write_normal_attrs s nm buf len a len s' (running_nk _ _ _ _ _ Hs) ltac:(lia) Hw nm') as Hat.
    unfold normal_look. rewrite Hlk, Hat. rewrite take_ge by lia. by case_decide.
Qed.

Lemma norm_object_key_name o : object_ok o -> key_name (norm_object o) = key_name o.
Proof.
  intros (Hn & Hns & _). unfold key_name, norm_object. simpl.
  rewrite take_app_le, take_take, Nat.min_id; [done|]. rewrite length_take. lia.
Qed.

Lemma attr_of_reloaded ks nm :
  keys_ok digest ks -> attr_of (rev (map norm_object ks)) nm = attr_of ks nm.
Proof.
  intros Hok. pose proof (keys_ok_reloaded digest ks Hok) as [_ Hnd]. pose proof (keys_object_ok _ _ Hok) as Ho.
  apply option_eq. intros a. rewrite !attr_of_iff by (done || apply Hok).
  rewrite List.Forall_forall in Ho.
  split; intros (o & Hin & Hn & Ha).
  - apply in_rev, in_map_iff in Hin as (o' & <- & Hin). exists o'.
    rewrite norm_object_key_name in Hn by auto. done.
  - exists (norm_object o). rewrite norm_object_key_name by auto. split; [|done].
    apply -> in_rev. by apply in_map.
Qed.

Context {E : Type} {eif : EfuseIf E}.
Context (kzalloc : Z -> bool) (stack : Z).

(** C2. A key that belongs to the normal store ([normal_item]: its name is the only one), is
    not to be encrypted and may be both written and read: when the character device has
    accepted it, a system that starts on the same storage, with the same keys in its
    device tree, and attaches the store ([ri = 0]) reads it byte for byte.  A write that
    is not accepted returns -EINVAL. *)
Theorem unifykey_survives_restart (s : uk_state (storage_key_state D) E) pos item data count
  (Hit : normal_item s pos item) (Hrun : normal_ok (keystore s))
  (Hw : Z.land (perm item) KEY_PERM_WRITE = KEY_PERM_WRITE)
  (Hr : Z.land (perm item) KEY_PERM_READ = KEY_PERM_READ) (Ha : attr item = 0)
  (Hk : kzalloc count = true) (Hd : zlen data = count) (Hc : 0 < count < 2 ^ 30) :
  exists r s', unifykey_write (kif := normal_if digest kmalloc uninit) kzalloc s (Some data) count pos = Some (r, s') /\
    (r = - EINVAL \/ r = count /\
     forall s0, booted (laws := laws) rd wr L (keystore s0) -> device (keystore s0) = device (keystore s') ->
       uk_hdr (ukdev s0) = uk_hdr (ukdev s) -> init_flag (ukdev s0) = 0 ->
     exists ri st1, _amlkey_init_normal digest kmalloc (keystore s0) = Some (ri, st1) /\
       (ri = 0 -> exists s1, key_unify_init (kif := normal_if digest kmalloc uninit) s0 = Some (0, s1) /\
          init_flag (ukdev s1) = 1 /\
          unifykey_read (kif := normal_if digest kmalloc uninit) kzalloc stack s1 true count pos
          = Some (count, data, s1))).
Proof.
  pose proof normal_store_laws as KL. pose proof Hit as (Hid & Hnm & Hdev & Hlen).
  set (KI := normal_if digest kmalloc uninit) in *.
  unfold unifykey_write. rewrite Hk, Hid. simpl negb. cbv iota.
  assert (Hb : bget data 0 count = Some data) by (rewrite bget_take by lia; by rewrite take_ge by lia).
  rewrite Hb. cbn [mbind option_bind]. unfold key_unify_write. rewrite Hnm, Hw, Z.eqb_refl. simpl negb. cbv iota.
  rewrite Hdev, decide_False, Ha by done. rewrite (u32_small count) by lia.
  change (Z.lor 0 (if c_true (Z.land 0 KEY_ATTR_ENCRYPT) then KEY_ATTR_ENCRYPT else 0)) with 0.
  change (amlkey_write (keystore s) (kname item) data count 0) with
    (_amlkey_write_normal digest kmalloc uninit (keystore s) (Some (kname item)) (Some data) count 0).
  destruct (write_normal_lemma rd wr L digest kmalloc uninit Hdigest Huninit HL (keystore s) (kname item) data count 0)
    as (r & k' & Ew & Hk' & Hres); [done|done|done|lia|done|done|].
  rewrite Ew. unfold call. cbn [mbind option_bind].
  destruct Hres as [->|(-> & Hholds & Hlk)].
  { rewrite (proj2 (Z.eqb_neq 0 count)) by lia. simpl negb. cbv iota. cbn [mbind option_bind].
    do 2 eexists. split; [done|]. by left. }
  rewrite Z.eqb_refl. simpl negb. cbv iota. cbn [mbind option_bind]. rewrite s32_small by lia.
  do 2 eexists. split; [done|]. right. split; [done|]. intros s0 Hboot Hdv Hhdr Hflag. simpl in Hdv.
  rewrite <- Hdv in Hholds.
  destruct (init_normal_lemma rd wr L digest kmalloc Hkmalloc HL (keystore s0) (keys (nk k')) Hboot Hholds)
    as (ri & st1 & b1 & d' & Ei & _ & Hi); [by eapply running_nk|].
  exists ri, st1. split; [done|]. intros ->. destruct (Hi eq_refl) as [Hrun1 Hks1].
  unfold key_unify_init. rewrite Hflag. simpl (0 =? 1). cbv iota. unfold call.
  change (amlkey_init (keystore s0)) with (_amlkey_init_normal digest kmalloc (keystore s0)). rewrite Ei.
  cbn [mbind option_bind]. simpl (0 <? 0). cbv iota. eexists. split; [done|]. split; [done|].
  assert (Hkeys : keys_ok digest (keys (nk k'))) by by eapply running_nk.
  assert (Hlook : normal_look st1 (kname item) = Some (data, 0)).
  { unfold normal_look. rewrite Hks1, (lookup_key_reloaded digest), attr_of_reloaded by done.
    rewrite Hlk, decide_True by done.
    rewrite (write_normal_attrs (keystore s) (kname item) data count 0 count k'); [|by eapply running_nk|lia|done].
    rewrite decide_True, take_ge by (done || lia). done. }
  set (s1 := set_ukdev _ _).
  assert (Hit1 : normal_item s1 pos item) by (unfold normal_item; simpl; rewrite Hhdr; exact Hit).
  rewrite (read_normal_item kzalloc stack s1 pos item count data 0); [|done|exact Hrun1|done|done|lia|exact Hlook|done].
  rewrite Ha, Hd, Z.leb_refl, (Z.eqb_refl count). reflexivity.
Qed.

End NormalStore.

(** ** Permissions and error paths *)

Section Paths.
Context {K E : Type} {kif : AmlkeyIf K} {eif : EfuseIf E}.
Variables (kzalloc : Z -> bool) (stack : Z).
Implicit Types s : uk_state K E.

(** C37. Where no two items of the device tree have one name, the permissions of an item bind
    the character device, whichever store the key lives in: without the read permission a
    read is an error that hands out no byte and changes nothing, and without the write
    permission a write is an error that changes nothing. *)
Theorem permissions_enforced s pos copied user count r out s'
  (Hn : forall k, In k (uk_hdr (ukdev s)) -> uk_find_item_by_name (uk_hdr (ukdev s)) (kname k) = Some k) :
  let item := uk_find_item_by_id (uk_hdr (ukdev s)) (s32 pos) in
  (unifykey_read kzalloc stack s copied count pos = Some (r, out, s') ->
   r < 0 /\ out = [] /\ s' = s \/ exists k, item = Some k /\ Z.land (perm k) KEY_PERM_READ = KEY_PERM_READ) /\
  (unifykey_write kzalloc s user count pos = Some (r, s') ->
   r < 0 /\ s' = s \/ exists k, item = Some k /\ Z.land (perm k) KEY_PERM_WRITE = KEY_PERM_WRITE).
Proof.
  cbn zeta. split; intros H.
  - unfold unifykey_read in H. destruct (uk_find_item_by_id _ _) as [k|] eqn:Ei; [|inv_some; left; split_and!; [errno|done..]].
    apply find_id_Some in Ei as [Hin _].
    destruct (negb (kzalloc _)); [inv_some; left; split_and!; [errno|done..]|]. unfold key_unify_read in H. rewrite (Hn k Hin) in H.
    destruct (Z.eqb_spec (Z.land (perm k) KEY_PERM_READ) KEY_PERM_READ); [right; by exists k|]. simpl in H. inv_some. left. split_and!; [errno|done..].
  - unfold unifykey_write in H. case_hyp H; [inv_some; left; split; [errno|done]|].
    destruct (uk_find_item_by_id _ _) as [k|] eqn:Ei; [|inv_some; left; split; [errno|done]].
    apply find_id_Some in Ei as [Hin _]. destruct user as [user|]; [|inv_some; left; split; [errno|done]].
    destruct (bget user 0 count) as [b|]; [|done]. cbn [mbind option_bind] in H.
    unfold key_unify_write in H. rewrite (Hn k Hin) in H.
    destruct (Z.eqb_spec (Z.land (perm k) KEY_PERM_WRITE) KEY_PERM_WRITE); [right; by exists k|].
    simpl in H. inv_some. left. split; [errno|done].
Qed.

(** Asking whether an efuse key is secure or encrypted runs into a null pointer:
    [key_unify_query] stores the permissions through the pointer it was given as
    NULL. *)
Theorem efuse_secure_null s nm key v
  (Hf : uk_find_item_by_name (uk_hdr (ukdev s)) nm = Some key)
  (Hd : dev key = KEY_EFUSE) (Hp : Z.land (perm key) KEY_PERM_READ = KEY_PERM_READ) :
  key_unify_secure kzalloc stack s nm v = None /\ key_unify_encrypt kzalloc stack s nm v = None.
Proof.
  assert (Hq : key_unify_query kzalloc s (kname key) stack None = None).
  { unfold key_unify_query. assert (Hnm := Hf). apply find_name_Some in Hnm as [_ ->]. rewrite Hf, Hp, Hd, Z.eqb_refl.
    simpl. by destruct (key_efuse_query kzalloc s nm stack) as [[[] ?]|]. }
  unfold key_unify_secure, key_unify_encrypt. by rewrite Hf, Hq.
Qed.

(** A key that lives nowhere is written with success: the character device
    reports all bytes as written and nothing has changed. *)
Theorem unknown_device_write s pos item data count
  (Hi : uk_find_item_by_id (uk_hdr (ukdev s)) (s32 pos) = Some item)
  (Hn : uk_find_item_by_name (uk_hdr (ukdev s)) (kname item) = Some item)
  (Hd : dev item = KEY_UNKNOWN_DEV) (Hp : Z.land (perm item) KEY_PERM_WRITE = KEY_PERM_WRITE)
  (Hk : kzalloc count = true) (Hc : 0 <= count < 2 ^ 31) (Hl : zlen data = count) :
  unifykey_write kzalloc s (Some data) count pos = Some (count, s).
Proof.
  unfold unifykey_write. rewrite Hk, Hi. simpl negb. cbv iota. rewrite bget_take by lia. cbn [mbind option_bind].
  unfold key_unify_write. rewrite Hn, Hp, Hd, Z.eqb_refl. simpl. by rewrite s32_small by lia.
Qed.

(** The sysfs attribute [write] reports success whatever became of the key, and
    an empty line written to [lock] locks. *)
Theorem sysfs_stores_hide s buf r s' :
  write_store kzalloc s buf = Some (r, s') -> buf <> [] ->
  r = zlen buf /\ exists s2, lock_store s [newline] = Some (1, s2) /\ lock_flag (ukdev s2) = 1.
Proof.
  intros H Hb. split; [|eexists; by split].
  assert (Hl : 0 < zlen buf) by (destruct buf; [done|simpl length; lia]).
  unfold write_store in H. rewrite (proj2 (Z.leb_gt _ 0)) in H by done.
  destruct (curkey (ukdev s)); [|by inv_some]. case_hyp H; [by inv_some|].
  destruct (aget _ _); [|done]. cbn [mbind option_bind] in H. destruct (bget _ _ _); [|done]. cbn [mbind option_bind] in H.
  destruct (key_unify_write _ _ _ _) as [[]|]; [|done]. cbn [mbind option_bind] in H. by inv_some.
Qed.

(** The page of sysfs is not enough for a key of a page or more: the attribute
    [read] copies the whole key into it. *)
Theorem read_show_overruns {ok look} {laws : AmlkeyLaws kif ok look} s item d
  (Hc : curkey (ukdev s) = Some item)
  (Hn : uk_find_item_by_name (uk_hdr (ukdev s)) (kname item) = Some item)
  (Hd : dev item = KEY_NORMAL) (Hp : Z.land (perm item) KEY_PERM_READ = KEY_PERM_READ) (Ha : attr item = 0)
  (Hok : ok (keystore s)) (Hl : look (keystore s) (kname item) = Some (d, 0))
  (Hk : forall n, kzalloc n = true) (Hbig : PAGE_SIZE <= zlen d) :
  read_show kzalloc stack s = None.
Proof.
  unfold PAGE_SIZE in Hbig. pose proof (law_data _ _ _ _ Hok Hl) as Hlen.
  unfold read_show. rewrite Hc. unfold key_unify_size. rewrite Hn, Hp, Hd, Z.eqb_refl. simpl negb. cbv iota.
  assert (Hsz : amlkey_size (keystore s) (kname item) = Some (zlen d, keystore s)) by (rewrite law_size, Hl by done; done).
  assert (Hat : amlkey_get_attr (keystore s) (kname item) = Some (0, keystore s)) by (rewrite law_get_attr, Hl by done; done).
  unfold call. rewrite Hsz. cbn [mbind option_bind]. simpl (0 <? 0). cbv iota.
  rewrite (proj2 (Z.eqb_neq (zlen d) 0)) by lia. rewrite Hk. simpl negb. cbv iota.
  rewrite decide_False by done. unfold key_unify_read. simpl ukdev. rewrite Hn, Hp, Hd, Z.eqb_refl. simpl negb. cbv iota.
  unfold key_storage_read, call. simpl keystore. rewrite Hat. cbn [mbind option_bind keystore set_keystore].
  change (c_true (Z.land 0 KEY_ATTR_SECURE)) with false. cbv iota. rewrite Hat. cbn [mbind option_bind keystore set_keystore].
  rewrite Ha. change (negb _) with false at 1. cbv iota.
  erewrite law_read; [|done|done|unfold fill; rewrite length_replicate; lia|lia]. cbn [mbind option_bind].
  rewrite Z.leb_refl, u32_small, Z.eqb_refl by lia. simpl negb. cbv iota. cbn [mbind option_bind]. simpl (0 <? 0). cbv iota.
  rewrite drop_ge by (unfold fill; rewrite length_replicate; lia). rewrite app_nil_r, bget_take, take_ge by lia.
  cbn [mbind option_bind]. unfold show_text, sysfs_emit. by rewrite (proj2 (Z.leb_gt _ PAGE_SIZE)) by (unfold PAGE_SIZE; lia).
Qed.

End Paths.

(** A probe that fails after the device structure was made frees it but leaves
    [ukdev_global] set: the functions other drivers call then use freed memory. *)
Theorem probe_failure_dangles e
  (Hi : if_init e = 0) (Hm : ukdev_memory e = true)
  (Hf : chrdev_region e <> 0 \/ class_register e <> 0 \/ cdev_add e <> 0 \/ device_create e < 0) :
  let '(ret, d) := aml_unifykeys_probe e (mk_uk_driver None false []) in
  drv_held d = [] /\ drv_global d = true /\ ret <> 0.
Proof.
  unfold aml_unifykeys_probe. rewrite Hi, Hm. change (c_true 0) with false. simpl negb. cbv iota.
  unfold c_true. repeat (case_goal; b2p; [simpl; split_and!; (done || lia)|]).
  destruct Hf as [?|[?|[?|?]]]; b2p; lia.
Qed.

(** ** Witnesses *)

(** A store that is a list. *)
Definition list_store : Type := list (bytes * (bytes * Z)).
Definition list_look (k : list_store) (nm : bytes) : option (bytes * Z) :=
  (fun x => x.2.2) <$> list_find (fun x => x.1 = nm) k.
Definition list_ok (k : list_store) : Prop := Forall (fun x => zlen x.2.1 < 2 ^ 30) k.

#[export] Instance list_if : AmlkeyIf list_store := {|
  amlkey_init k := Some (0, k);
  amlkey_exsit k nm := Some (match list_look k nm with Some _ => 1 | None => 0 end, k);
  amlkey_size k nm := Some (default 0 ((fun x => zlen x.1) <$> list_look k nm), k);
  amlkey_get_attr k nm := Some (default 0 (snd <$> list_look k nm), k);
  amlkey_read k nm buf len :=
    match list_look k nm with
    | Some (d, _) => if zlen d <=? len then Some (zlen d, d ++ drop (length d) buf, k) else Some (0, buf, k)
    | None => Some (0, buf, k)
    end;
  amlkey_write k nm buf len a := Some (len, (nm, (buf, a)) :: k);
  amlkey_hash k nm buf := Some (-1, buf, k) |}.

#[export] Instance list_laws : AmlkeyLaws list_if list_ok list_look.
Proof.
  split.
  - done.
  - done.
  - intros k nm d a buf len _ Hl _ _. simpl. rewrite Hl. by case_goal.
  - intros k nm d a Hok Hl. unfold list_look in Hl. destruct (list_find _ _) as [[i x]|] eqn:Ef; [|done].
    simpl in Hl. apply list_find_Some in Ef as (Hi & _). pose proof (Forall_lookup_1 _ _ _ _ Hok Hi) as H.
    destruct x as [n [d' a']]. simpl in *. by injection Hl as -> ->.
  - intros k nm buf len a Hok _ Hlen Hb _ _. exists len, ((nm, (buf, a)) :: k). split; [done|].
    split; [constructor; simpl; [lia|done]|]. right. split; [done|]. intros nm'. unfold list_look. cbn [list_find]. simpl.
    destruct (decide (nm = nm')) as [->|]; [by rewrite decide_True|]. rewrite decide_False by congruence.
    by destruct (list_find _ k) as [[]|].
Qed.

#[export] Instance no_efuse : EfuseIf unit := {|
  efuse_on := false;
  fuse_getinfo _ _ := Some (-1, 0);
  fuse_store e _ _ _ := Some (-1, e);
  fuse_read e _ buf := Some (-1, buf, e) |}.

Definition mac_item : key_item_t := mk_item (str "mac") 0 KEY_NORMAL 3 0.
Definition mac_dev : aml_uk_dev := mk_ukdev 0 0 (Some mac_item) [mac_item] (mk_info 1 1 (-1)).
Definition mac_state {K} (k : K) : uk_state K unit := mk_uk mac_dev k tt.

Lemma mac_normal {K} (k : K) : normal_item (mac_state k) 0 mac_item.
Proof. by repeat split. Qed.

Lemma dt_keys_numbered_witness :
  let u := uk_dt_create (fun _ => true) None
             [mk_dt_key (Some (str "mac")) (Some "normal"%string) true true false;
              mk_dt_key None None false false false;
              mk_dt_key (Some (str "hdcp")) (Some "secure"%string) true true false] ukdev_zero in
  key_num (uk_info u) = 2 /\ unifykey_llseek (mk_uk u tt tt) 0 1 0 = (1, 1).
Proof.
  split; [reflexivity|].
  exact (proj1 (proj2 (proj2 (dt_keys_numbered (fun _ => true) None
             [mk_dt_key (Some (str "mac")) (Some "normal"%string) true true false;
              mk_dt_key None None false false false;
              mk_dt_key (Some (str "hdcp")) (Some "secure"%string) true true false] ukdev_zero tt tt 0 1 eq_refl eq_refl)))).
Defined.

Lemma unifykey_write_read_witness : exists r s',
  unifykey_write (fun _ => true) (mac_state ([] : list_store)) (Some [1; 2; 3]) 3 0 = Some (r, s') /\
  (r = - EINVAL \/ unifykey_read (fun _ => true) 7 s' true 3 0 = Some (3, [1; 2; 3], s')).
Proof.
  destruct (unifykey_write_read (fun _ => true) 7 (mac_state ([] : list_store)) 0 mac_item [1; 2; 3] 3
    (mac_normal _)) as (r & s' & H & Hr); [constructor|reflexivity|reflexivity|reflexivity|lia|].
  exists r, s'. split; [exact H|]. destruct Hr as [Hr|(_ & _ & Hr)]; [by left|right]. by apply Hr.
Defined.

Lemma unifykey_read_exact_only_witness :
  unifykey_read (fun _ => true) 7 (mac_state ([(str "mac", ([1; 2; 3], 0))] : list_store)) true 64 0
  = Some (- EINVAL, [], mac_state [(str "mac", ([1; 2; 3], 0))]).
Proof.
  apply (unifykey_read_exact_only (fun _ => true) 7 (mac_state ([(str "mac", ([1; 2; 3], 0))] : list_store)) 0 mac_item 64 [1; 2; 3]
    (mac_normal _)); [by repeat constructor|reflexivity|reflexivity|lia|reflexivity|reflexivity].
Defined.

Definition enc_item : key_item_t := mk_item (str "enc") 0 KEY_NORMAL 3 KEY_ATTR_ENCRYPT.
Definition enc_state : uk_state list_store unit :=
  mk_uk (mk_ukdev 0 0 None [enc_item] (mk_info 1 1 (-1))) [(str "enc", ([1; 2; 3], KEY_ATTR_ENCRYPT))] tt.

Lemma encrypted_key_unreadable_witness :
  unifykey_read (fun _ => true) 7 enc_state true 3 0 = Some (- EINVAL, [], enc_state).
Proof.
  apply (encrypted_key_unreadable (fun _ => true) 7 enc_state 0 enc_item 3); by repeat constructor.
Defined.

Lemma unifykey_survives_restart_witness : exists r s',
  unifykey_write (kif := normal_if sum_digest (fun _ => true) zeroed) (fun _ => true) (mac_state started)
    (Some [1; 2; 3]) 3 0 = Some (r, s') /\ (r = - EINVAL \/ r = 3).
Proof.
  destruct (unifykey_survives_restart (disk_read 2048) (disk_write 2048) 2048 sum_digest (fun _ => true) zeroed
    sum_digest_total zeroed_length ltac:(done) ltac:(lia) (fun _ => true) 7 (mac_state started) 0 mac_item [1; 2; 3] 3
    (mac_normal _) started_running) as (r & s' & H & Hr);
    [reflexivity|reflexivity|reflexivity|reflexivity|reflexivity|lia|].
  exists r, s'. split; [exact H|]. destruct Hr as [Hr|[Hr _]]; [by left|by right].
Defined.

(** A key that may be written and one that may not be read. *)
Definition hidden_item : key_item_t := mk_item (str "hdcp") 0 KEY_NORMAL 2 0.
Definition hidden_state : uk_state list_store unit := mk_uk (mk_ukdev 0 0 (Some hidden_item) [hidden_item] (mk_info 1 1 (-1))) [(str "hdcp", ([1], 0))] tt.
Lemma permissions_enforced_witness :
  unifykey_write (fun _ => true) (mac_state ([] : list_store)) (Some [1]) 1 0
    = Some (1, mac_state [(str "mac", ([1], 0))]) /\
  (exists k, uk_find_item_by_id [mac_item] 0 = Some k /\ Z.land (perm k) KEY_PERM_WRITE = KEY_PERM_WRITE) /\
  exists r, unifykey_read (fun _ => true) 7 hidden_state true 1 0 = Some (r, [], hidden_state) /\ r < 0.
Proof.
  assert (Hw : unifykey_write (fun _ => true) (mac_state ([] : list_store)) (Some [1]) 1 0
    = Some (1, mac_state [(str "mac", ([1], 0))])) by reflexivity.
  split; [exact Hw|]. split.
  - edestruct (permissions_enforced (fun _ => true) 7 (mac_state ([] : list_store)) 0 true (Some [1]) 1 1 []) as [_ H].
    2: { destruct (H Hw) as [[E _]|E]; [discriminate E|exact E]. }
    intros k [<-|[]]. reflexivity.
  - destruct (unifykey_read (fun _ => true) 7 hidden_state true 1 0) as [[[r out] s']|] eqn:Hr; [|vm_compute in Hr; discriminate Hr].
    edestruct (permissions_enforced (fun _ => true) 7 hidden_state 0 true (Some [1]) 1 r out s') as [H _].
    2: { destruct (H Hr) as [(Hneg & -> & ->)|(k & E & Hp)]; [exists r; split; [reflexivity|exact Hneg]|]. injection E as <-. discriminate Hp. }
    intros k [<-|[]]. reflexivity.
Defined.

Definition fuse_item : key_item_t := mk_item (str "usid") 0 KEY_EFUSE 3 0.
Definition fuse_state : uk_state list_store unit :=
  mk_uk (mk_ukdev 0 0 (Some fuse_item) [fuse_item] (mk_info 1 1 (-1))) [] tt.

Lemma efuse_secure_null_witness : secure_show (fun _ => true) 7 fuse_state = None.
Proof.
  unfold secure_show. simpl curkey. cbv iota.
  by rewrite (proj1 (efuse_secure_null (fun _ => true) 7 fuse_state (str "usid") fuse_item 0 eq_refl eq_refl eq_refl)).
Defined.

Definition odd_item : key_item_t := mk_item (str "odd") 0 KEY_UNKNOWN_DEV 3 0.

Lemma unknown_device_write_witness :
  unifykey_write (fun _ => true) (mk_uk (mk_ukdev 0 0 None [odd_item] (mk_info 1 1 (-1))) ([] : list_store) tt)
    (Some [1; 2]) 2 0
  = Some (2, mk_uk (mk_ukdev 0 0 None [odd_item] (mk_info 1 1 (-1))) [] tt).
Proof. by apply (unknown_device_write (fun _ => true) _ 0 odd_item [1; 2] 2). Defined.

Lemma sysfs_stores_hide_witness : exists s',
  write_store (fun _ => true) (mk_uk (mk_ukdev 0 0 (Some mac_item) [] (mk_info 0 1 (-1))) ([] : list_store) tt) [65; 10]
  = Some (2, s').
Proof.
  destruct (write_store (fun _ => true) (mk_uk (mk_ukdev 0 0 (Some mac_item) [] (mk_info 0 1 (-1))) ([] : list_store) tt)
    [65; 10]) as [[r s']|] eqn:E; [|discriminate E].
  destruct (sysfs_stores_hide (fun _ => true) _ _ _ _ E) as [-> _]; [done|]. by exists s'.
Defined.

Lemma read_show_overruns_witness :
  read_show (fun _ => true) 7 (mac_state ([(str "mac", (fill 1 4096, 0))] : list_store)) = None.
Proof.
  apply (read_show_overruns (fun _ => true) 7 (mac_state ([(str "mac", (fill 1 4096, 0))] : list_store)) mac_item (fill 1 4096));
    [reflexivity|reflexivity|reflexivity|reflexivity|reflexivity| |reflexivity|reflexivity|vm_compute; discriminate].
  constructor; [vm_compute; reflexivity|constructor].
Defined.

Lemma probe_failure_dangles_witness :
  let '(ret, d) := aml_unifykeys_probe (mk_uk_env 0 true (fun _ => true) None [] 0 (- EBUSY) 0 0) (mk_uk_driver None false []) in
  drv_held d = [] /\ drv_global d = true /\ ret <> 0.
Proof. apply probe_failure_dangles; [reflexivity|reflexivity|right; left; done]. Defined.
