(* ===== verification/Efuse.v ===== *)
(** * The one-time memory (src/a311d/soc/amlogic/unifykey/efuse_api.c, efuse.c)

    The user area of the fuses is read and programmed by the secure monitor.  A
    call carries the number of a service and its arguments in registers; bytes go
    through two areas of physical memory whose addresses the monitor tells.  The
    monitor and the memory it shares are a class; [None] as a result of a
    function is an access outside of an object or of mapped memory.  Pinning the
    task to the first processor and the mutex around the calls do not change what
    a call computes and are left out: each definition is one call under the
    mutex. *)

From stdpp Require Import base numbers list option strings.
From S2P Require Import Prelude KText.

(** ** The secure monitor *)

(** [smc m f x1 x2 x3 x4] is [arm_smccc_smc]: register a0 after the call and the
    new state.  [phys_read] and [phys_write] access shared memory at a physical
    address, through the kernel's own mapping or through [ioremap_nocache]. *)
Class SecMon (M : Type) := {
  smc : M -> Z -> Z -> Z -> Z -> Z -> Z * M;
  phys_read : M -> Z -> Z -> option bytes;
  phys_write : M -> Z -> bytes -> option M }.

(** The numbers of the services, from the device tree. *)
Record aml_efuse_cmd := mk_efuse_cmd {
  read_cmd : Z;
  write_cmd : Z;
  get_max_cmd : Z;
  mem_in_base_cmd : Z;
  mem_out_base_cmd : Z }.

Definition EFUSE_HAL_API_READ : Z := 0.
Definition EFUSE_HAL_API_WRITE : Z := 1.
Definition EFUSE_HAL_API_USER_MAX : Z := 3.
Definition AML_DATA_PROCESS : Z := 0x820000FF.
Definition AML_D_P_W_EFUSE_AMLOGIC : Z := 0x20.
Definition EFUSE_PATTERN_SIZE : Z := 0x400.
Definition EFUSE_CHECK_NAME_LEN : Z := 32.

(** The pointers [buffer] and [retcnt] of the argument are results here. *)
Record efuse_hal_api_arg := mk_arg {
  cmd : Z;
  offset : Z;
  size : Z;
  buffer : bytes }.

Section Api.
Context {M : Type} {mon : SecMon M}.
Variable efuse_cmd : aml_efuse_cmd.
Variable kmalloc : Z -> bool.
(** The content of fresh memory. *)
Variable uninit : Z -> bytes.
Implicit Types m : M.

Definition get_sharemem_info m (function_id : Z) : Z * M := smc m function_id 0 0 0 0.

(** Result, the buffer of the caller, and [*retcnt]: [None] where it is not
    written. *)
Definition meson_efuse_fn_smc m (arg : efuse_hal_api_arg) : option (Z * bytes * option Z * M) :=
  if negb ((cmd arg =? EFUSE_HAL_API_READ) || (cmd arg =? EFUSE_HAL_API_WRITE)) then Some (-1, buffer arg, None, m)
  else
    let c := if cmd arg =? EFUSE_HAL_API_READ then read_cmd efuse_cmd else write_cmd efuse_cmd in
    m ← (if cmd arg =? EFUSE_HAL_API_WRITE then
           let '(phy_in_base, m) := get_sharemem_info m (mem_in_base_cmd efuse_cmd) in
           src ← bget (buffer arg) 0 (size arg);
           phys_write m phy_in_base src
         else Some m);
    let '(a0, m) := smc m c (offset arg) (size arg) 0 0 in
    let ret := s64 a0 in
    '(buf, m) ← (if (cmd arg =? EFUSE_HAL_API_READ) && negb (ret =? 0) then
           let '(phy_out_base, m) := get_sharemem_info m (mem_out_base_cmd efuse_cmd) in
           if ret <? 0 then None
           else
             src ← phys_read m phy_out_base ret;
             buf ← bput (buffer arg) 0 src;
             Some (buf, m)
         else Some (buffer arg, m));
    Some (if ret =? 0 then -1 else 0, buf, Some a0, m).

Definition meson_trustzone_efuse m (arg : option efuse_hal_api_arg) : option (Z * bytes * option Z * M) :=
  match arg with
  | None => Some (-1, [], None, m)
  | Some arg => meson_efuse_fn_smc m arg
  end.

(** Returns a0. *)
Definition efuse_data_process m (type : Z) (buf : bytes) (length opt : Z) : option (Z * M) :=
  let '(phy_in_base, m) := get_sharemem_info m (mem_in_base_cmd efuse_cmd) in
  src ← bget buf 0 length;
  m ← phys_write m phy_in_base src;
  Some (smc m AML_DATA_PROCESS type phy_in_base length opt).

Definition efuse_amlogic_set m (buf : bytes) (count : Z) : option (Z * M) :=
  efuse_data_process m AML_D_P_W_EFUSE_AMLOGIC buf count 0.

(** Constants of the calibration items, from a header outside of the repository. *)
Record efuse_items := mk_items {
  EFUSE_READ_CALI_ITEM : Z;
  EFUSE_CALI_SUBITEM_WHOBURN : Z;
  EFUSE_CALI_SUBITEM_BC : Z;
  EFUSE_LOCK_SUBITEM_BASE : Z;
  EFUSE_LOCK_SUBITEM_MAX : Z }.
Variable items : efuse_items.

Definition efuse_amlogic_cali_item_read m (item : Z) : Z * M :=
  if (item <? EFUSE_CALI_SUBITEM_WHOBURN items) || (EFUSE_CALI_SUBITEM_BC items <? item) then (- EINVAL, m)
  else
    let '(a0, m) := smc m (EFUSE_READ_CALI_ITEM items) item 0 0 0 in (s32 a0, m).

Definition efuse_amlogic_check_lockable_item m (item : Z) : Z * M :=
  if (item <? EFUSE_LOCK_SUBITEM_BASE items) || (EFUSE_LOCK_SUBITEM_MAX items <? item) then (- EINVAL, m)
  else
    let '(a0, m) := smc m (EFUSE_READ_CALI_ITEM items) item 0 0 0 in (s32 a0, m).

Definition meson_trustzone_efuse_get_max m (c : Z) : Z * M :=
  if negb (c =? EFUSE_HAL_API_USER_MAX) then (-1, m)
  else
    let '(a0, m) := smc m (get_max_cmd efuse_cmd) 0 0 0 0 in
    let ret := s64 a0 in
    (if ret =? 0 then -1 else ret, m).

Definition efuse_get_max m : Z * M := meson_trustzone_efuse_get_max m EFUSE_HAL_API_USER_MAX.

(** [retcnt] is an [unsigned int] that receives the 64 bits of a0: the low half
    is its value.  (The high half lands in the four bytes behind it.)  Returns
    the result, the buffer and the position. *)
Definition _efuse_read m (buf : bytes) (count ppos : Z) : option (Z * bytes * Z * M) :=
  '(ret, buf, cnt, m) ← meson_trustzone_efuse m (Some (mk_arg EFUSE_HAL_API_READ (u32 ppos) (u32 count) buf));
  if ret =? 0 then
    cnt ← cnt;
    let retcnt := u32 cnt in
    Some (retcnt, buf, ppos + retcnt, m)
  else Some (ret, buf, ppos, m).

Definition _efuse_write m (buf : bytes) (count ppos : Z) : option (Z * Z * M) :=
  '(ret, _, cnt, m) ← meson_trustzone_efuse m (Some (mk_arg EFUSE_HAL_API_WRITE (u32 ppos) (u32 count) buf));
  if ret =? 0 then
    cnt ← cnt;
    let retcnt := u32 cnt in
    Some (retcnt, retcnt, m)
  else Some (ret, ppos, m).

(** The position is a copy: the caller's [*ppos] does not change. *)
Definition efuse_read_usr m (buf : bytes) (count ppos : Z) : option (Z * bytes * M) :=
  if negb (kmalloc count) then Some (- ENOMEM, buf, m)
  else
    let pdata := uninit count in
    '(ret, pdata, _, m) ← _efuse_read m pdata count ppos;
    src ← bget pdata 0 count;
    buf ← bput buf 0 src;
    Some (ret, buf, m).

Definition efuse_write_usr m (buf : bytes) (count ppos : Z) : option (Z * M) :=
  if negb (kmalloc count) then Some (- ENOMEM, m)
  else
    src ← bget buf 0 count;
    pdata ← bput (uninit count) 0 src;
    '(ret, _, m) ← _efuse_write m pdata count ppos;
    Some (ret, m).

End Api.

(** ** The keys of the user area *)

(** [keyname] is the string in the array of 32 characters. *)
Record efusekey_info := mk_efusekey { keyname : bytes; koffset : Z; ksize : Z }.
Record lockable_info := mk_lockable { itemname : bytes; subcmd : Z }.

(** A table behind a pointer: never made, released, or there. *)
Inductive table (A : Type) := TNull | TFreed | TLive (l : list A).
Arguments TNull {A}.
Arguments TFreed {A}.
Arguments TLive {A}.

Definition tget {A} (t : table A) (i : Z) : option A :=
  match t with TLive l => aget l i | TNull | TFreed => None end.

(** The variables of efuse.c, with the monitor. *)
Record aml_efuse_key := mk_key { num : Z; infos : table efusekey_info }.
Record aml_efuse_lockable_check := mk_check { main_cmd : Z; item_num : Z; check_infos : table lockable_info }.
Record efuse_state (M : Type) := mk_efuse {
  efuse_key : aml_efuse_key;
  efusecheck : aml_efuse_lockable_check;
  efuse_pattern_size : Z;
  monitor : M }.
Arguments mk_efuse {M}.
Arguments efuse_key {M}.
Arguments efusecheck {M}.
Arguments efuse_pattern_size {M}.
Arguments monitor {M}.

(** The first of [n] entries from [i] on whose name is [nm]: [None] is a use of a
    table that is not there. *)
Fixpoint find_named {A} (name : A -> bytes) (t : table A) (nm : bytes) (i : Z) (n : nat) : option (option A) :=
  match n with
  | O => Some None
  | S n =>
      x ← tget t i;
      if bool_decide (name x = c_str nm) then Some (Some x) else find_named name t nm (i + 1) n
  end.

Section Efuse.
Context {M : Type} {mon : SecMon M}.
Variable efuse_cmd : aml_efuse_cmd.
Variable items : efuse_items.
Variable kmalloc : Z -> bool.
Variable uninit : Z -> bytes.
(** What follows a buffer of the given size in memory. *)
Variable slack : Z -> bytes.
Implicit Types st : efuse_state M.

Definition with_mon st (m : M) := mk_efuse (efuse_key st) (efusecheck st) (efuse_pattern_size st) m.

(** Result and record of the key, where it is found. *)
Definition efuse_getinfo st (item : bytes) : option (Z * option efusekey_info) :=
  r ← find_named keyname (infos (efuse_key st)) item 0 (Z.to_nat (num (efuse_key st)));
  match r with
  | Some info => Some (0, Some info)
  | None => Some (- EINVAL, None)
  end.

Definition efuse_burn_lockable_is_cfg st (nm : bytes) : option Z :=
  r ← find_named itemname (check_infos (efusecheck st)) nm 0 (Z.to_nat (item_num (efusecheck st)));
  match r with Some _ => Some 0 | None => Some (-1) end.

(** The number of the item is an [int] on its way to the check. *)
Definition efuse_burn_check_burned st (nm : bytes) : option (Z * efuse_state M) :=
  r ← find_named itemname (check_infos (efusecheck st)) nm 0 (Z.to_nat (item_num (efusecheck st)));
  match r with
  | Some i =>
      let '(ret, m) := efuse_amlogic_check_lockable_item items (monitor st) (u32 (s32 (subcmd i))) in
      Some (ret, with_mon st m)
  | None => Some (-1, st)
  end.

(** ** The character device *)

(** Result and file position. *)
Definition efuse_llseek st (f_pos off whence : Z) : Z * Z * efuse_state M :=
  let '(max_size, m) := efuse_get_max efuse_cmd (monitor st) in
  let st := with_mon st m in
  if max_size <=? 0 then (- EINVAL, f_pos, st)
  else
    let seek newpos :=
      if (newpos <? 0) || (max_size <=? newpos) then (- EINVAL, f_pos, st) else (newpos, newpos, st) in
    if whence =? 0 then seek off
    else if whence =? 1 then seek (f_pos + off)
    else if whence =? 2 then seek (max_size + off)
    else (- EINVAL, f_pos, st).

(** EFUSE_INFO_GET; [user] is the record at the user's address.  Returns the
    result and the record that reaches the user. *)
Definition efuse_unlocked_ioctl st (info_get : bool) (user : option efusekey_info) (copied : bool)
  : option (Z * option efusekey_info) :=
  if negb info_get then Some (- ENOTTY, None)
  else
    match user with
    | None => Some (- EFAULT, None)
    | Some u =>
        '(ret, info) ← efuse_getinfo st (keyname u);
        if ret <? 0 then Some (- EFAULT, None)
        else if negb copied then Some (- EFAULT, None)
        else Some (0, info)
    end.

(** The test both transfers share: position and length lie in the user area. *)
Definition out_of_range (pos count max_size : Z) : bool :=
  (max_size <=? pos) || (max_size <? count) || (u32 (max_size - pos) <? count).

(** Returns the result, the bytes that reach user space and the position. *)
Definition efuse_read st (copied : bool) (count ppos : Z) : option (Z * bytes * Z * efuse_state M) :=
  let pos := u32 ppos in
  let '(ret, m) := efuse_get_max efuse_cmd (monitor st) in
  let st := with_mon st m in
  if ret <? 0 then Some (ret, [], ppos, st)
  else if out_of_range pos count (u32 ret) then Some (- EINVAL, [], ppos, st)
  else if negb (kmalloc count) then Some (- ENOMEM, [], ppos, st)
  else
    '(ret, op, m) ← efuse_read_usr efuse_cmd kmalloc uninit (monitor st) (fill 0 count) count ppos;
    let st := with_mon st m in
    if ret <? 0 then Some (ret, [], ppos, st)
    else if negb copied then Some (- EFAULT, [], ppos, st)
    else Some (s64 count, op, ppos, st).

Definition efuse_write st (user : option bytes) (count ppos : Z) : option (Z * Z * efuse_state M) :=
  let pos := u32 ppos in
  let '(ret, m) := efuse_get_max efuse_cmd (monitor st) in
  let st := with_mon st m in
  if ret <? 0 then Some (ret, ppos, st)
  else if out_of_range pos count (u32 ret) then Some (- EINVAL, ppos, st)
  else if negb (kmalloc count) then Some (- ENOMEM, ppos, st)
  else
    match user with
    | None => Some (- EFAULT, ppos, st)
    | Some user =>
        op ← bget user 0 count;
        '(ret, m) ← efuse_write_usr efuse_cmd kmalloc uninit (monitor st) op count ppos;
        let st := with_mon st m in
        if ret <? 0 then Some (ret, ppos, st) else Some (s64 count, ppos, st)
    end.

(** ** Keys by name *)

Definition colon : Z := 58.

(** The loop that turns [aa:bb:...] into bytes, in the buffer it reads from:
    [n] turns are left, [i] is the next byte and [s] the place in the text.
    [inl] is the error it ends with. *)
Fixpoint parse_bytes (size : Z) (op beyond : bytes) (i s : Z) (n : nat) {struct n} : option (Z + bytes) :=
  match n with
  | O => Some (inr op)
  | S n =>
      text ← cstring_at (op ++ beyond) s;
      let r :=
        if negb (i =? u32 (size - 1)) then
          match scan_x text with
          | Some v => if 255 <? v then inl (- EINVAL) else inr v
          | None => inl (- EINVAL)
          end
        else kstrtou8_16 text in
      match r with
      | inl err => Some (inl err)
      | inr v =>
          op ← aset op i (u8 v);
          let s := s + 2 in
          c ← aget (op ++ beyond) s;
          parse_bytes size op beyond (i + 1) (if c =? colon then s + 1 else s) n
      end
  end.

(** What is to be programmed for the [count] bytes at [buf]: text with colons is
    parsed, other content must have the size of the key, or be one newline
    longer. *)
Definition store_data (info : efusekey_info) (buf : bytes) (count : Z) : option (Z + bytes) :=
  op ← bget buf 0 count;
  text ← cstring_at (op ++ slack count) 0;
  if existsb (Z.eqb colon) text then parse_bytes (ksize info) op (slack count) 0 0 (Z.to_nat (ksize info))
  else
    c ← aget op (count - 1);
    if (negb (c =? newline) && negb (count =? ksize info)) || (ksize info <? u64 (count - 1)) || (count <? ksize info)
    then Some (inl (- EINVAL))
    else Some (inr op).

Definition efuse_user_attr_store st (nm buf : bytes) (count : Z) : option (Z * efuse_state M) :=
  '(ret, info) ← efuse_getinfo st nm;
  match info with
  | None => Some (- EINVAL, st)
  | Some info =>
      if negb (kmalloc count) then Some (- ENOMEM, st)
      else
        d ← store_data info buf count;
        match d with
        | inl err => Some (err, st)
        | inr op =>
            '(ret, m) ← efuse_write_usr efuse_cmd kmalloc uninit (monitor st) op (ksize info) (koffset info);
            let st := with_mon st m in
            if ret <? 0 then Some (ret, st) else Some (s64 count, st)
        end
  end.

(** The bytes as text, sixteen in a line with their number in front. *)
Fixpoint hex_lines (i : Z) (bs : bytes) : bytes :=
  match bs with
  | [] => []
  | b :: bs =>
      (if negb (i =? 0) && (i mod 16 =? 0) then [newline] else [])
      ++ (if i mod 16 =? 0 then str "0x" ++ fmt_02x i ++ str ": " else [])
      ++ fmt_02x b ++ str " " ++ hex_lines (i + 1) bs
  end.

Definition efuse_user_attr_show st (nm : bytes) : option (Z * bytes * efuse_state M) :=
  '(ret, info) ← efuse_getinfo st nm;
  match info with
  | None => Some (- EINVAL, [], st)
  | Some info =>
      if negb (kmalloc (ksize info)) then Some (- ENOMEM, [], st)
      else
        '(ret, op, m) ← efuse_read_usr efuse_cmd kmalloc uninit (monitor st) (fill 0 (ksize info)) (ksize info) (koffset info);
        let st := with_mon st m in
        if ret <? 0 then Some (ret, [], st)
        else
          '(len, text) ← sysfs_emit (hex_lines 0 op ++ [newline]);
          Some (len, text, st)
  end.

(** [buf] is the buffer of the caller. *)
Definition efuse_user_attr_read st (nm buf : bytes) : option (Z * bytes * efuse_state M) :=
  '(ret, info) ← efuse_getinfo st nm;
  match info with
  | None => Some (- EINVAL, buf, st)
  | Some info =>
      if negb (kmalloc (ksize info)) then Some (- ENOMEM, buf, st)
      else
        '(ret, op, m) ← efuse_read_usr efuse_cmd kmalloc uninit (monitor st) (fill 0 (ksize info)) (ksize info) (koffset info);
        let st := with_mon st m in
        if ret <? 0 then Some (ret, buf, st)
        else
          src ← bget op 0 (ksize info);
          buf ← bput buf 0 src;
          Some (ksize info, buf, st)
  end.

(** ** The class attributes *)

Definition userdata_show st : option (Z * bytes * efuse_state M) :=
  let '(ret, m) := efuse_get_max efuse_cmd (monitor st) in
  let st := with_mon st m in
  if ret <? 0 then Some (ret, [], st)
  else
    let max_size := u32 ret in
    if negb (kmalloc max_size) then Some (- ENOMEM, [], st)
    else
      '(ret, op, m) ← efuse_read_usr efuse_cmd kmalloc uninit (monitor st) (fill 0 max_size) max_size 0;
      let st := with_mon st m in
      if ret <? 0 then Some (ret, [], st)
      else
        bs ← bget op 0 ret;
        '(len, text) ← sysfs_emit (hex_lines 0 bs ++ [newline]);
        Some (len, text, st).

Definition userdata_store st (buf : bytes) (count : Z) : option (Z * efuse_state M) :=
  let '(ret, m) := efuse_get_max efuse_cmd (monitor st) in
  let st := with_mon st m in
  if ret <? 0 then Some (ret, st)
  else if u32 ret <? count then Some (- EINVAL, st)
  else if negb (kmalloc count) then Some (- ENOMEM, st)
  else
    op ← bget buf 0 count;
    '(ret, m) ← efuse_write_usr efuse_cmd kmalloc uninit (monitor st) op count 0;
    let st := with_mon st m in
    if ret <? 0 then Some (ret, st) else Some (s64 count, st).

Definition amlogic_set_store st (buf : bytes) (count : Z) : option (Z * efuse_state M) :=
  if negb (count =? efuse_pattern_size st) then Some (- EINVAL, st)
  else if negb (kmalloc count) then Some (- ENOMEM, st)
  else
    op ← bget buf 0 count;
    '(ret, m) ← efuse_amlogic_set efuse_cmd (monitor st) op count;
    let st := with_mon st m in
    if c_true (s64 ret) then Some (- EINVAL, st) else Some (s64 count, st).

(** The part of the device structure the attributes use. *)
Record aml_efuse_dev := mk_efuse_dev {
  reg_base : option Z;
  secureboot_mask : Z;
  dev_name : bytes }.

(** [readl] of the register at an address. *)
Variable readl : Z -> Z.

Definition secureboot_check_show (d : aml_efuse_dev) : option (Z * bytes) :=
  let ret := match reg_base d with
             | None => - EINVAL
             | Some a => s32 (Z.land (readl a) (secureboot_mask d))
             end in
  sysfs_emit (if ret <? 0 then str "fail" else if ret =? 0 then str "raw" else str "encrypt").

Definition checkburn_show st (d : aml_efuse_dev) : option (Z * bytes * efuse_state M) :=
  '(text, st) ←
    (if bool_decide (c_str (dev_name d) = []) then Some (str "unknown", st)
     else
       cfg ← efuse_burn_lockable_is_cfg st (dev_name d);
       if cfg =? 0 then
         '(n, st) ← efuse_burn_check_burned st (dev_name d);
         Some (if n =? 1 then str "wrote" else if n =? 0 then str "notwrite" else str "error", st)
       else Some (str "nocfg", st));
  '(n, text) ← sysfs_emit text;
  Some (n, text, st).

(** [buf] is the string of the caller, [page] the memory it lies in. *)
Definition checkburn_store (d : aml_efuse_dev) (page : bytes) (count : Z) : option (Z * aml_efuse_dev) :=
  text ← cstring_at page 0;
  let n := zlen text - 1 in
  let n := if EFUSE_CHECK_NAME_LEN <=? n then EFUSE_CHECK_NAME_LEN - 1 else n in
  if n <? 0 then None
  else
    src ← bget page 0 n;
    nm ← bput (fill 0 EFUSE_CHECK_NAME_LEN) 0 src;
    Some (s64 count, mk_efuse_dev (reg_base d) (secureboot_mask d) nm).

(** The names are used as formats: a conversion in one has no argument. *)
Definition percent : Z := 37.
Fixpoint checklist_lines (t : table lockable_info) (i : Z) (n : nat) : option bytes :=
  match n with
  | O => Some []
  | S n =>
      x ← tget t i;
      if existsb (Z.eqb percent) (itemname x) then None
      else
        rest ← checklist_lines t (i + 1) n;
        Some (itemname x ++ [newline] ++ rest)
  end.

Definition checklist_show st : option (Z * bytes) :=
  text ← checklist_lines (check_infos (efusecheck st)) 0 (Z.to_nat (item_num (efusecheck st)));
  sysfs_emit text.

End Efuse.
