(* ===== verification/EfuseDriver.v ===== *)
(** * Start and stop of the fuse drivers (src/a311d/soc/amlogic/unifykey/efuse.c,
      efuse_burn.c, efuse_unifykey.c)

    The tables of keys and of lockable items come from the device tree; probe
    takes kernel resources one after the other and its error labels give them
    back.  What the kernel answers to each step is an argument. *)

From stdpp Require Import base numbers list option strings.
From S2P Require Import Prelude KText Efuse.

(** ** The tables of the device tree *)

(** Reading a property: an error or its value. *)
Abbreviation prop A := (Z + A)%type.

(** What is found for one entry: the phandle, its node, and three properties
    ([second] is not used for a lockable item). *)
Record dt_entry := mk_dt_entry {
  has_phandle : bool;
  has_node : bool;
  dt_name : prop bytes;
  dt_first : prop Z;
  dt_second : prop Z }.

(** One table: the phandle of the driver's node, the node it leads to, the number
    of entries, the memory and the entries by number. *)
Record dt_table := mk_dt_table {
  tbl_phandle : bool;
  tbl_node : bool;
  tbl_maincmd : prop Z;
  tbl_num : prop Z;
  tbl_memory : bool;
  tbl_entry : Z -> dt_entry }.

Section Tables.
(** EFUSE_KEY_NAME_LEN, from a header outside of the repository. *)
Variable EFUSE_KEY_NAME_LEN : Z.
Variable items : efuse_items.
Context {M : Type}.
Implicit Types st : efuse_state M.

Definition key_item_parse_dt (e : dt_entry) : Z + efusekey_info :=
  if negb (has_phandle e) then inl (- EINVAL)
  else if negb (has_node e) then inl (- EINVAL)
  else
    match dt_name e with
    | inl err => inl err
    | inr nm =>
        match dt_first e with
        | inl err => inl err
        | inr o =>
            match dt_second e with
            | inl err => inl err
            | inr sz => inr (mk_efusekey (take (Z.to_nat (EFUSE_KEY_NAME_LEN - 1)) nm) o sz)
            end
        end
    end.

Definition check_item_parse_dt (e : dt_entry) : Z + lockable_info :=
  if negb (has_phandle e) then inl (- EINVAL)
  else if negb (has_node e) then inl (- EINVAL)
  else
    match dt_name e with
    | inl err => inl err
    | inr nm =>
        match dt_first e with
        | inl err => inl err
        | inr sub => inr (mk_lockable (take (Z.to_nat (EFUSE_CHECK_NAME_LEN - 1)) nm) sub)
        end
    end.

(** The loop over the entries; [inl] is the error of the first that fails. *)
Fixpoint parse_table {A} (parse : dt_entry -> Z + A) (entry : Z -> dt_entry) (i : Z) (n : nat) : Z + list A :=
  match n with
  | O => inr []
  | S n =>
      match parse (entry i) with
      | inl err => inl err
      | inr x =>
          match parse_table parse entry (i + 1) n with
          | inl err => inl err
          | inr l => inr (x :: l)
          end
      end
  end.

Definition with_key st (k : aml_efuse_key) := mk_efuse k (efusecheck st) (efuse_pattern_size st) (monitor st).
Definition with_check st (c : aml_efuse_lockable_check) := mk_efuse (efuse_key st) c (efuse_pattern_size st) (monitor st).

Definition get_efusekey_info (t : dt_table) st : Z * efuse_state M :=
  if negb (tbl_phandle t) then (- EINVAL, st)
  else if negb (tbl_node t) then (- EINVAL, st)
  else
    match tbl_num t with
    | inl err => (err, st)
    | inr n =>
        let n := s32 n in
        let k := efuse_key st in
        if n <=? 0 then (- EINVAL, with_key st (mk_key n (infos k)))
        else if negb (tbl_memory t) then (- ENOMEM, with_key st (mk_key n TNull))
        else
          match parse_table key_item_parse_dt (tbl_entry t) 0 (Z.to_nat n) with
          | inl err => (err, with_key st (mk_key n TFreed))
          | inr l => (0, with_key st (mk_key n (TLive l)))
          end
    end.

Definition get_efusecheck_info (t : dt_table) st : Z * efuse_state M :=
  if negb (tbl_phandle t) then (- EINVAL, st)
  else if negb (tbl_node t) then (- EINVAL, st)
  else
    let mc := match tbl_maincmd t with inl _ => EFUSE_READ_CALI_ITEM items | inr c => c end in
    let c := efusecheck st in
    match tbl_num t with
    | inl err => (err, with_check st (mk_check mc (item_num c) (check_infos c)))
    | inr n =>
        if n <=? 0 then (- EINVAL, with_check st (mk_check mc n (check_infos c)))
        else if negb (tbl_memory t) then (- ENOMEM, with_check st (mk_check mc n TNull))
        else
          match parse_table check_item_parse_dt (tbl_entry t) 0 (Z.to_nat n) with
          | inl err => (err, with_check st (mk_check mc n TFreed))
          | inr l => (0, with_check st (mk_check mc n (TLive l)))
          end
    end.

(** ** Probe and remove of the fuse device *)

Inductive fuse_res := FDev | FClk | FChrdev | FClass | FCdev | FDevice.
#[export] Instance fuse_res_eq_dec : EqDecision fuse_res.
Proof. solve_decision. Defined.

(** A clock that cannot be found is done without; [reg_mem] is the register
    resource and the result of mapping it. *)
Record efuse_probe_env := mk_fuse_env {
  fe_memory : bool;
  fe_clk : option Z;
  fe_read : prop Z;
  fe_write : prop Z;
  fe_max : prop Z;
  fe_in : prop Z;
  fe_out : prop Z;
  fe_pattern : prop Z;
  fe_reg : option (prop Z);
  fe_mask : prop Z;
  fe_keys : dt_table;
  fe_checks : dt_table;
  fe_chrdev : Z;
  fe_class : Z;
  fe_cdev : Z;
  fe_device : Z }.

(** The driver: the command table as far as it was read, the variables of
    efuse.c, the device structure and the resources held. *)
Record efuse_driver := mk_efuse_driver {
  drv_cmd : aml_efuse_cmd;
  drv_state : efuse_state M;
  drv_dev : option aml_efuse_dev;
  drv_res : list fuse_res }.

Definition put_res (r : fuse_res) (d : efuse_driver) : efuse_driver :=
  mk_efuse_driver (drv_cmd d) (drv_state d) (drv_dev d) (r :: drv_res d).
Definition rm_res (r : fuse_res) (d : efuse_driver) : efuse_driver :=
  mk_efuse_driver (drv_cmd d) (drv_state d) (drv_dev d) (filter (fun x => x <> r) (drv_res d)).
Definition set_dev (v : option aml_efuse_dev) (d : efuse_driver) : efuse_driver :=
  mk_efuse_driver (drv_cmd d) (drv_state d) v (drv_res d).
Definition set_cmd (c : aml_efuse_cmd) (d : efuse_driver) : efuse_driver :=
  mk_efuse_driver c (drv_state d) (drv_dev d) (drv_res d).
Definition set_state (s : efuse_state M) (d : efuse_driver) : efuse_driver :=
  mk_efuse_driver (drv_cmd d) s (drv_dev d) (drv_res d).

(** The labels error1 .. error4. *)
Definition efuse_error1 (d : efuse_driver) : efuse_driver := set_dev None (rm_res FDev d).
Definition efuse_error2 (d : efuse_driver) : efuse_driver := efuse_error1 (rm_res FChrdev d).
Definition efuse_error3 (d : efuse_driver) : efuse_driver := efuse_error2 (rm_res FClass d).
Definition efuse_error4 (d : efuse_driver) : efuse_driver := efuse_error3 (rm_res FCdev d).

(** The five numbers of services are read one after the other; the error of the
    first that is missing, with those before it stored. *)
Definition read_cmds (e : efuse_probe_env) (c : aml_efuse_cmd) : Z * aml_efuse_cmd :=
  match fe_read e with
  | inl err => (err, c)
  | inr r =>
      let c := mk_efuse_cmd r (write_cmd c) (get_max_cmd c) (mem_in_base_cmd c) (mem_out_base_cmd c) in
      match fe_write e with
      | inl err => (err, c)
      | inr w =>
          let c := mk_efuse_cmd r w (get_max_cmd c) (mem_in_base_cmd c) (mem_out_base_cmd c) in
          match fe_max e with
          | inl err => (err, c)
          | inr x =>
              let c := mk_efuse_cmd r w x (mem_in_base_cmd c) (mem_out_base_cmd c) in
              match fe_in e with
              | inl err => (err, c)
              | inr i =>
                  let c := mk_efuse_cmd r w x i (mem_out_base_cmd c) in
                  match fe_out e with
                  | inl err => (err, c)
                  | inr o => (0, mk_efuse_cmd r w x i o)
                  end
              end
          end
      end
  end.

(** [stack] is what the local [secureboot_mask] holds before it is read. *)
Variable stack : Z.

(** The register and its mask. *)
Definition probe_reg (e : efuse_probe_env) : Z + (option Z * Z) :=
  match fe_reg e with
  | None => inr (None, stack)
  | Some (inl err) => inl err
  | Some (inr a) =>
      match fe_mask e with
      | inl err => inl err
      | inr mask => inr (Some a, mask)
      end
  end.

(** From [alloc_chrdev_region] on. *)
Definition probe_register (e : efuse_probe_env) (dev : aml_efuse_dev) (d : efuse_driver) : Z * efuse_driver :=
  if fe_chrdev e <? 0 then (fe_chrdev e, efuse_error1 d)
  else
    let d := set_dev (Some dev) (put_res FChrdev d) in
    if c_true (fe_class e) then (fe_class e, efuse_error2 d)
    else
      let d := put_res FClass d in
      if c_true (fe_cdev e) then (fe_cdev e, efuse_error3 d)
      else
        let d := put_res FCdev d in
        if fe_device e <? 0 then (fe_device e, efuse_error4 d)
        else (0, put_res FDevice d).

Definition efuse_probe (e : efuse_probe_env) (d : efuse_driver) : Z * efuse_driver :=
  if negb (fe_memory e) then (- ENOMEM, d)
  else
    let d := put_res FDev d in
    let clk := match fe_clk e with Some r => r | None => 0 end in
    if c_true clk then (clk, efuse_error1 d)
    else
      let d := match fe_clk e with Some _ => put_res FClk d | None => d end in
      let '(ret, c) := read_cmds e (drv_cmd d) in
      let d := set_cmd c d in
      if c_true ret then (ret, efuse_error1 d)
      else
        let s := drv_state d in
        let pat := match fe_pattern e with inl _ => EFUSE_PATTERN_SIZE | inr p => p end in
        let s := mk_efuse (efuse_key s) (efusecheck s) pat (monitor s) in
        match probe_reg e with
        | inl err => (err, efuse_error1 (set_state s d))
        | inr (reg, mask) =>
            let '(_, s) := get_efusekey_info (fe_keys e) s in
            let '(_, s) := get_efusecheck_info (fe_checks e) s in
            probe_register e (mk_efuse_dev reg mask (fill 0 EFUSE_CHECK_NAME_LEN)) (set_state s d)
        end.

Definition efuse_remove (d : efuse_driver) : Z * efuse_driver :=
  (0, rm_res FClass (rm_res FCdev (rm_res FDevice (rm_res FChrdev d)))).

End Tables.
Arguments efuse_driver : clear implicits.

(** ** The burning device *)

Section Burn.
Context {M : Type} {mon : SecMon M}.
Variable efuse_cmd : aml_efuse_cmd.
Variable items : efuse_items.
Variable kmalloc : Z -> bool.
Implicit Types st : efuse_state M.

Record efuse_burn_info := mk_burn_info { burn_item : bytes; status : Z }.

(** EFUSE_BURN_CHECK_KEY; [user] is the record at the user's address.  Returns
    the result and the record that reaches the user. *)
Definition efuse_burn_unlocked_ioctl st (check_key : bool) (user : option efuse_burn_info) (copied : bool)
  : option (Z * option efuse_burn_info * efuse_state M) :=
  let ret := - ENOTTY in
  if negb check_key then Some (ret, None, st)
  else
    match user with
    | None => Some (- EFAULT, None, st)
    | Some info =>
        cfg ← efuse_burn_lockable_is_cfg st (burn_item info);
        if cfg =? 0 then
          '(v, st) ← efuse_burn_check_burned items st (burn_item info);
          if negb copied then Some (- EFAULT, None, st)
          else Some (ret, Some (mk_burn_info (burn_item info) v), st)
        else Some (- EFAULT, None, st)
    end.

(** [pattern] is [devp->efuse_pattern_size], an [int] compared with a [size_t]. *)
Definition efuse_burn_write (m : M) (pattern : Z) (user : option bytes) (count : Z) : option (Z * M) :=
  if negb (count =? u64 pattern) then Some (- EINVAL, m)
  else if negb (kmalloc count) then Some (- ENOMEM, m)
  else
    match user with
    | None => Some (- EFAULT, m)
    | Some user =>
        op ← bget user 0 count;
        '(ret, m) ← efuse_amlogic_set efuse_cmd m op count;
        if c_true (s64 ret) then Some (- EINVAL, m) else Some (s64 count, m)
    end.

End Burn.

(** What the kernel answers to the burning device's probe. *)
Record burn_probe_env := mk_burn_env {
  be_memory : bool;
  be_pattern : prop Z;
  be_chrdev : Z;
  be_class : Z;
  be_cdev : Z;
  be_device : Z }.

(** The pattern size in the device structure and the resources held. *)
Record burn_driver := mk_burn { burn_pattern : option Z; burn_res : list fuse_res }.

Definition burn_put (r : fuse_res) (d : burn_driver) : burn_driver := mk_burn (burn_pattern d) (r :: burn_res d).
Definition burn_rm (r : fuse_res) (d : burn_driver) : burn_driver :=
  mk_burn (burn_pattern d) (filter (fun x => x <> r) (burn_res d)).
Definition burn_free (d : burn_driver) : burn_driver := mk_burn None (burn_res (burn_rm FDev d)).

Definition efuse_burn_probe (e : burn_probe_env) (d : burn_driver) : Z * burn_driver :=
  if negb (be_memory e) then (- ENOMEM, d)
  else
    let d := burn_put FDev d in
    match be_pattern e with
    | inl err => (err, burn_free d)
    | inr p =>
        let d := mk_burn (Some (s32 p)) (burn_res d) in
        if be_chrdev e <? 0 then (be_chrdev e, burn_free d)
        else
          let d := burn_put FChrdev d in
          if c_true (be_class e) then (be_class e, burn_free (burn_rm FChrdev d))
          else
            let d := burn_put FClass d in
            if c_true (be_cdev e) then (be_cdev e, burn_free (burn_rm FChrdev (burn_rm FClass d)))
            else
              let d := burn_put FCdev d in
              if be_device e <? 0 then (be_device e, burn_free (burn_rm FChrdev (burn_rm FClass (burn_rm FCdev d))))
              else (0, burn_put FDevice d)
    end.

Definition efuse_burn_remove (d : burn_driver) : Z * burn_driver :=
  (0, burn_free (burn_rm FClass (burn_rm FCdev (burn_rm FDevice (burn_rm FChrdev d))))).

(** ** The module *)

(** The platform drivers of the module; registering one is a kernel call with
    the given result, unregistering one that is not registered has no effect. *)
Inductive module_driver := DrvEfuse | DrvUnifykeys | DrvBurn.
#[export] Instance module_driver_eq_dec : EqDecision module_driver.
Proof. solve_decision. Defined.

Definition register (result : module_driver -> Z) (d : module_driver) (l : list module_driver) : Z * list module_driver :=
  if c_true (result d) then (result d, l) else (0, d :: l).
Definition unregister (d : module_driver) (l : list module_driver) : list module_driver := filter (fun x => x <> d) l.

Definition efuse_unifykey_init (result : module_driver -> Z) (l : list module_driver) : Z * list module_driver :=
  let '(ret, l) := register result DrvEfuse l in
  if c_true ret then (ret, l)
  else
    let '(ret, l) := register result DrvUnifykeys l in
    if c_true ret then (ret, unregister DrvEfuse l)
    else
      let '(ret, l) := register result DrvBurn l in
      if c_true ret then (ret, unregister DrvBurn l) else (0, l).

Definition efuse_unifykey_exit (l : list module_driver) : list module_driver :=
  unregister DrvBurn (unregister DrvUnifykeys (unregister DrvEfuse l)).
