(* ===== verification/EfuseSpec.v ===== *)
(** * What the fuse drivers promise

    The parser of key text works in the buffer it reads from; it is proved equal
    to one that leaves its input alone, and to invert the usual way of writing
    addresses.  Against what the firmware documents of its services ([FuseArea])
    a key that was programmed reads back, alone and through the unified key
    manager. *)

From stdpp Require Import base numbers list option strings.
From S2P Require Import Prelude KText NormalKey SecurityKey StorageKey Unifykey UnifykeySysfs Efuse EfuseDriver.

(** ** The parser *)

(** The parser on a memory that does not change; [lim] is the size of the buffer
    the bytes go to. *)
Fixpoint parse_ref (size lim : Z) (mem : bytes) (i s : Z) (n : nat) {struct n} : option (Z + bytes) :=
  match n with
  | O => Some (inr [])
  | S n =>
      text ← cstring_at mem s;
      match
        (if negb (i =? u32 (size - 1)) then
           match scan_x text with
           | Some v => if 255 <? v then inl (- EINVAL) else inr v
           | None => inl (- EINVAL)
           end
         else kstrtou8_16 text) with
      | inl err => Some (inl err)
      | inr v =>
          if lim <=? i then None
          else
            c ← aget mem (s + 2);
            r ← parse_ref size lim mem (i + 1) (if c =? colon then s + 3 else s + 2) n;
            Some (match r with inl e => inl e | inr bs => inr (u8 v :: bs) end)
      end
  end.

(** What the reference result looks like in the buffer. *)
Definition in_buffer (pre post : bytes) (r : Z + bytes) : Z + bytes :=
  match r with inl e => inl e | inr bs => inr (pre ++ bs ++ drop (length bs) post) end.

Lemma aget_drop {A} (l k : list A) (i j : Z) :
  0 <= j <= i -> drop (Z.to_nat j) l = drop (Z.to_nat j) k -> aget l i = aget k i.
Proof.
  intros Hj H. rewrite !aget_lookup by lia.
  replace (Z.to_nat i) with (Z.to_nat j + Z.to_nat (i - j))%nat by lia. by rewrite <- !lookup_drop, H.
Qed.

Lemma drop_later {A} (l k : list A) (i j : nat) : (i <= j)%nat -> drop i l = drop i k -> drop j l = drop j k.
Proof. intros Hi H. replace j with (i + (j - i))%nat by lia. by rewrite <- !drop_drop, H. Qed.

Lemma parse_in_place_gen size mem beyond lim n : forall done todo s,
  lim = zlen (done ++ todo) -> zlen done <= s ->
  drop (length done) mem = todo ++ beyond ->
  parse_bytes size (done ++ todo) beyond (zlen done) s n
  = in_buffer done todo <$> parse_ref size lim mem (zlen done) s n.
Proof.
  induction n as [|n IH]; intros done todo s Hlim Hs Hmem; simpl.
  { by rewrite ?app_nil_r. }
  assert (Hd : drop (length done) ((done ++ todo) ++ beyond) = drop (length done) mem).
  { by rewrite <- app_assoc, drop_app_length, Hmem. }
  assert (Hc : cstring_at ((done ++ todo) ++ beyond) s = cstring_at mem s).
  { unfold cstring_at. rewrite (drop_later _ mem (length done)); [done|lia|done]. }
  rewrite Hc. destruct (cstring_at mem s) as [text|]; [|done]. cbn [mbind option_bind].
  destruct (if negb _ then _ else _) as [err|v]; [done|].
  unfold aset at 1. rewrite length_app in Hlim.
  destruct todo as [|x todo].
  { simpl in Hlim. rewrite app_nil_r.
    rewrite (proj2 (Z.ltb_ge (zlen done) _)) by lia. rewrite andb_false_r. simpl.
    by rewrite (proj2 (Z.leb_le lim _)) by lia. }
  simpl in Hlim. rewrite (proj2 (Z.leb_gt lim _)) by lia.
  rewrite (proj2 (Z.leb_le 0 (zlen done))) by lia. rewrite (proj2 (Z.ltb_lt (zlen done) _)) by (rewrite length_app; simpl; lia).
  simpl andb. cbn [mbind option_bind].
  rewrite Nat2Z.id, insert_app_r_alt, Nat.sub_diag by lia. simpl insert.
  assert (Hmem' : drop (length (done ++ [u8 v])) mem = todo ++ beyond).
  { rewrite length_app. simpl. rewrite <- drop_drop, Hmem. done. }
  assert (Hsnoc : done ++ u8 v :: todo = (done ++ [u8 v]) ++ todo) by by rewrite <- app_assoc.
  assert (Hlen : zlen (done ++ [u8 v]) = zlen done + 1) by (rewrite length_app; simpl; lia).
  assert (Hg : aget ((done ++ u8 v :: todo) ++ beyond) (s + 2) = aget mem (s + 2)).
  { apply (aget_drop _ _ _ (zlen done + 1)); [lia|]. rewrite <- Hlen, Nat2Z.id, Hmem'.
    by rewrite Hsnoc, <- app_assoc, drop_app_length. }
  rewrite Hg. destruct (aget mem (s + 2)) as [c|]; [|done]. cbn [mbind option_bind].
  rewrite Hsnoc, <- Hlen. replace (s + 2 + 1) with (s + 3) by lia.
  rewrite (IH (done ++ [u8 v]) todo); [|rewrite !length_app; simpl; lia|destruct (c =? colon); lia|done].
  destruct (parse_ref _ _ _ _ _ n) as [[e|bs]|]; [done| |done].
  cbn. by rewrite <- !app_assoc.
Qed.

(** C25. The loop of [efuse_user_attr_store] writes the bytes into the buffer whose
    text it is still reading; what it computes is what the parser that leaves
    the text alone computes, and the bytes end up in front of the buffer. *)
Theorem parse_in_place size op beyond n :
  parse_bytes size op beyond 0 0 n
  = in_buffer [] op <$> parse_ref size (zlen op) (op ++ beyond) 0 0 n.
Proof. by apply (parse_in_place_gen size (op ++ beyond) beyond (zlen op) n [] op 0). Qed.

(** *** Addresses *)

(** A byte as two digits, and bytes the way addresses are written. *)
Definition hex_pair (b : Z) : bytes := [hex_digit (b / 16); hex_digit (b mod 16)].
Fixpoint mac_text (bs : bytes) : bytes :=
  match bs with
  | [] => []
  | [b] => hex_pair b
  | b :: bs => hex_pair b ++ colon :: mac_text bs
  end.

Lemma mac_text_cons b bs : bs <> [] -> mac_text (b :: bs) = hex_pair b ++ colon :: mac_text bs.
Proof. by destruct bs. Qed.

Lemma hex_digit_cases d : 0 <= d < 16 ->
  hex_digit d <> 0 /\ xdigit (hex_digit d) = Some d /\ isspace (hex_digit d) = false /\
  (hex_digit d =? colon) = false /\ (hex_digit d =? 120) || (hex_digit d =? 88) = false /\ hex_digit d <> 43.
Proof.
  intros Hd. assert (H : In d (map Z.of_nat (seq 0 16))).
  { replace d with (Z.of_nat (Z.to_nat d)) by lia. apply in_map, in_seq. lia. }
  simpl in H. destruct H as [<-|H]; [vm_compute; split_and!; done || (intros; discriminate)|].
  repeat (destruct H as [<-|H]; [vm_compute; split_and!; done || (intros; discriminate)|]). destruct H.
Qed.

Lemma pair_digits b : is_byte b -> 0 <= b / 16 < 16 /\ 0 <= b mod 16 < 16 /\ b / 16 * 16 + b mod 16 = b.
Proof. unfold is_byte. intros. pose proof (Z.div_mod b 16). pose proof (Z.mod_pos_bound b 16). lia. Qed.

Lemma skip_0x_pair d1 d2 r : 0 <= d2 < 16 ->
  skip_0x (hex_digit d1 :: hex_digit d2 :: r) = hex_digit d1 :: hex_digit d2 :: r.
Proof.
  intros H2. apply hex_digit_cases in H2 as (_ & _ & _ & _ & H & _).
  cbn [skip_0x]. repeat case_match; try done; congruence.
Qed.

(** The digits of a byte are its value, up to the first other character. *)
Lemma parse_hex_pair b r acc n : is_byte b ->
  match r with [] => True | c :: _ => xdigit c = None end ->
  parse_hex acc n (hex_pair b ++ r) = (acc * 256 + b, S (S n), r).
Proof.
  intros Hb Hr. destruct (pair_digits b Hb) as (H1 & H2 & H3).
  apply hex_digit_cases in H1 as (_ & H1 & _). apply hex_digit_cases in H2 as (_ & H2 & _).
  cbn [hex_pair app parse_hex]. rewrite H1, H2.
  replace ((acc * 16 + b / 16) * 16 + b mod 16) with (acc * 256 + b) by lia.
  destruct r as [|c r]; [done|]. cbn [parse_hex]. by rewrite Hr.
Qed.

Lemma scan_pair b r : is_byte b -> scan_x (hex_pair b ++ colon :: r) = Some b.
Proof.
  intros Hb. destruct (pair_digits b Hb) as (H1 & H2 & _). unfold scan_x. cbn [hex_pair app skip_spaces].
  apply hex_digit_cases in H1 as (_ & Hx & -> & _). rewrite Hx, skip_0x_pair by done.
  change (hex_digit (b / 16) :: hex_digit (b mod 16) :: colon :: r) with (hex_pair b ++ colon :: r).
  rewrite parse_hex_pair by done. simpl. unfold is_byte in Hb. by rewrite u64_small, u32_small by lia.
Qed.

(** What may follow the last byte. *)
Definition text_end (t : bytes) : Prop := t = [] \/ t = [newline].

Lemma kstrtou8_pair b t : is_byte b -> text_end t -> kstrtou8_16 (hex_pair b ++ t) = inr b.
Proof.
  intros Hb Ht. destruct (pair_digits b Hb) as (H1 & H2 & _). unfold kstrtou8_16.
  assert (Hp : (match hex_pair b ++ t with 43 :: r => r | _ => hex_pair b ++ t end) = hex_pair b ++ t).
  { cbn [hex_pair app]. apply hex_digit_cases in H1 as (_ & _ & _ & _ & _ & H1). by repeat case_match. }
  rewrite Hp. cbn [hex_pair app]. rewrite skip_0x_pair by done.
  change (hex_digit (b / 16) :: hex_digit (b mod 16) :: t) with (hex_pair b ++ t).
  unfold is_byte in Hb. rewrite parse_hex_pair; [|done|by destruct Ht as [-> | ->]].
  rewrite (proj2 (Z.leb_gt (2 ^ 64) _)) by lia. cbn [Nat.eqb].
  destruct Ht as [-> | ->]; cbn; by rewrite (proj2 (Z.leb_gt 256 _)) by lia.
Qed.

Lemma mac_text_nonzero bs t : Forall is_byte bs -> text_end t -> Forall (fun c => c <> 0) (mac_text bs ++ t).
Proof.
  intros Hb Ht. apply Forall_app. split; [|by destruct Ht as [-> | ->]; repeat constructor].
  induction Hb as [|b bs Hb Hbs IH]; [constructor|]. destruct (pair_digits b Hb) as (H1 & H2 & _).
  apply hex_digit_cases in H1 as (H1 & _). apply hex_digit_cases in H2 as (H2 & _).
  destruct bs as [|c bs]; [by repeat constructor|]. rewrite mac_text_cons by done. by repeat constructor.
Qed.

Lemma aget_app_skip {A} (l k : list A) i : 0 <= i -> aget (l ++ k) (zlen l + i) = aget k i.
Proof.
  intros ?. rewrite !aget_lookup by lia. rewrite lookup_app_r by lia. f_equal. lia.
Qed.

(** The reference parser from byte [i] on, in a memory that ends with the text of
    the bytes that are left. *)
Lemma parse_ref_mac size lim t rest bs : forall pre i s,
  bs <> [] -> Forall is_byte bs -> text_end t -> s = zlen pre -> size = i + zlen bs -> size <= lim -> 0 <= i -> 0 < size < 2 ^ 32 ->
  parse_ref size lim (pre ++ mac_text bs ++ t ++ 0 :: rest) i s (length bs) = Some (inr bs).
Proof.
  induction bs as [|b bs IH]; intros pre i s Hne Hb Ht -> Hsz Hlim Hi Hs; [done|].
  apply Forall_cons in Hb as [Hb Hbs]. cbn [length parse_ref].
  assert (Hc : cstring_at (pre ++ mac_text (b :: bs) ++ t ++ 0 :: rest) (zlen pre) = Some (mac_text (b :: bs) ++ t)).
  { unfold cstring_at. rewrite (proj2 (Z.ltb_ge _ 0)) by lia. rewrite Nat2Z.id, drop_app_length, app_assoc.
    apply until_zero_app, mac_text_nonzero; [by constructor|done]. }
  rewrite Hc. cbn [mbind option_bind]. simpl length in Hsz. unfold is_byte in Hb.
  rewrite u32_small by lia. rewrite (proj2 (Z.leb_gt lim i)) by lia.
  destruct bs as [|c bs].
  - rewrite (proj2 (Z.eqb_eq i _)) by (simpl in Hsz; lia). cbn [negb mac_text].
    rewrite kstrtou8_pair by done. cbn [parse_ref length].
    rewrite aget_app_skip by lia.
    assert (He : exists x, aget (hex_pair b ++ t ++ 0 :: rest) 2 = Some x) by (destruct Ht as [-> | ->]; by eexists).
    destruct He as [x ->]. cbn [mbind option_bind]. rewrite u8_small by done. done.
  - rewrite mac_text_cons by done. rewrite (proj2 (Z.eqb_neq i _)) by (simpl length in Hsz; lia). cbn [negb].
    rewrite <- !app_assoc. cbn [app]. rewrite scan_pair by done. rewrite (proj2 (Z.ltb_ge 255 b)) by lia.
    rewrite aget_app_skip by lia. change (aget _ 2) with (Some colon). cbn [mbind option_bind].
    rewrite Z.eqb_refl, u8_small by done.
    assert (Hpre : pre ++ hex_pair b ++ colon :: mac_text (c :: bs) ++ t ++ 0 :: rest
      = (pre ++ hex_pair b ++ [colon]) ++ mac_text (c :: bs) ++ t ++ 0 :: rest) by (by rewrite <- !app_assoc).
    rewrite Hpre, (IH (pre ++ hex_pair b ++ [colon]) (i + 1)); try done; rewrite ?length_app; simpl length in *; lia.
Qed.

Lemma mac_text_length bs : bs <> [] -> zlen (mac_text bs) = 3 * zlen bs - 1.
Proof.
  induction bs as [|b bs IH]; intros; [done|]. destruct bs as [|c bs]; [done|].
  rewrite mac_text_cons, length_app by done. 
  assert (IH' := IH ltac:(done)). simpl length in *. lia.
Qed.

Lemma existsb_app_r {A} (f : A -> bool) l x k : f x = true -> existsb f (l ++ x :: k) = true.
Proof. intros H. rewrite existsb_app. simpl. rewrite H. by rewrite orb_true_r. Qed.

Lemma mac_text_stored slack info bs t rest :
  (2 <= length bs)%nat -> Forall is_byte bs -> text_end t -> ksize info = zlen bs -> zlen bs < 2 ^ 32 ->
  slack (zlen (mac_text bs ++ t)) = 0 :: rest ->
  exists op, store_data slack info (mac_text bs ++ t) (zlen (mac_text bs ++ t)) = Some (inr op) /\
    take (length bs) op = bs /\ zlen bs <= zlen op.
Proof.
  intros Hl Hb Ht Hk Hn Hs. unfold store_data. rewrite bget_take, take_ge by lia. cbn [mbind option_bind]. rewrite Hs.
  assert (Hc : cstring_at ((mac_text bs ++ t) ++ 0 :: rest) 0 = Some (mac_text bs ++ t)).
  { unfold cstring_at. simpl. apply until_zero_app. by apply mac_text_nonzero. }
  rewrite Hc. cbn [mbind option_bind]. destruct bs as [|b [|c bs]]; [simpl in Hl; lia..|].
  assert (He : existsb (Z.eqb colon) (mac_text (b :: c :: bs) ++ t) = true).
  { rewrite mac_text_cons, <- app_assoc by done. by apply existsb_app_r. }
  rewrite He.
  rewrite Hk, Nat2Z.id.
  pose proof (parse_in_place_gen (zlen (b :: c :: bs)) ((mac_text (b :: c :: bs) ++ t) ++ 0 :: rest) (0 :: rest) _
    (length (b :: c :: bs)) [] (mac_text (b :: c :: bs) ++ t) 0 eq_refl (Z.le_refl 0) eq_refl) as Hg.
  change (zlen []) with 0 in Hg. rewrite !app_nil_l in Hg. rewrite Hg.
  assert (Hm := mac_text_length (b :: c :: bs) ltac:(done)).
  rewrite <- app_assoc. pose proof (parse_ref_mac (zlen (b :: c :: bs)) (zlen (mac_text (b :: c :: bs) ++ t)) t rest (b :: c :: bs) [] 0 0) as Hr.
  rewrite app_nil_l in Hr. rewrite Hr; try done; [|rewrite length_app; simpl length in *; lia].
  eexists. split; [done|]. rewrite app_nil_l. split; [by rewrite (take_app_length (b :: c :: bs))|]. rewrite length_app. lia.
Qed.

(** ** The services of the firmware *)

(** What the monitor documents of its services for the user area, as far as the
    driver relies on it: it tells the size of the area and the addresses of the
    shared memory; a request for bytes inside the area is answered with their
    number once they are there; programming either works for the whole request
    or answers 0 and changes nothing. *)
Class FuseArea {M : Type} {mon : SecMon M} (c : aml_efuse_cmd) (max : Z) (fuse : M -> bytes) (ok : M -> Prop) := {
  in_base : Z;
  out_base : Z;
  area_max : 0 < max < 2 ^ 31;
  area_len m : ok m -> zlen (fuse m) = max;
  ask_max m : ok m -> smc m (get_max_cmd c) 0 0 0 0 = (max, m);
  ask_in m : ok m -> smc m (mem_in_base_cmd c) 0 0 0 0 = (in_base, m);
  ask_out m : ok m -> smc m (mem_out_base_cmd c) 0 0 0 0 = (out_base, m);
  do_read m off n : ok m -> 0 <= off -> 0 < n -> off + n <= max ->
    exists m1, smc m (read_cmd c) off n 0 0 = (n, m1) /\ ok m1 /\ fuse m1 = fuse m /\
      phys_read m1 out_base n = bget (fuse m) off n;
  do_write m off src : ok m -> 0 <= off -> src <> [] -> off + zlen src <= max ->
    exists m1 a0 m2, phys_write m in_base src = Some m1 /\ smc m1 (write_cmd c) off (zlen src) 0 0 = (a0, m2) /\ ok m2 /\
      (a0 = 0 /\ fuse m2 = fuse m \/ a0 = zlen src /\ fuse m2 = splice (fuse m) off src) }.

Lemma splice_whole buf src : zlen src = zlen buf -> splice buf 0 src = src.
Proof. intros. unfold splice. simpl. rewrite drop_ge by lia. by rewrite app_nil_r. Qed.

Section Fuses.
Context {M : Type} {mon : SecMon M}.
Variable c : aml_efuse_cmd.
Context {max : Z} {fuse : M -> bytes} {ok : M -> Prop} {area : FuseArea c max fuse ok}.
Variable items : efuse_items.
Variable kmalloc : Z -> bool.
Variable uninit : Z -> bytes.
Hypothesis uninit_length : forall n, zlen (uninit n) = Z.max 0 n.
Variable slack : Z -> bytes.
Implicit Types st : efuse_state M.

(** A read inside the area. *)
Lemma read_usr_spec m buf n off :
  ok m -> 0 <= off -> 0 < n -> off + n <= max -> zlen buf = n -> kmalloc n = true ->
  exists bs m', efuse_read_usr c kmalloc uninit m buf n off = Some (n, bs, m') /\
    bget (fuse m) off n = Some bs /\ ok m' /\ fuse m' = fuse m.
Proof.
  intros Hok Ho Hn Hm Hb Hk. pose proof area_max as Hmax.
  destruct (do_read m off n Hok Ho Hn Hm) as (m1 & Hr & Hok1 & Hf1 & Hp).
  assert (Hlen := area_len m Hok). pose proof (uninit_length n) as Hu.
  destruct (bget (fuse m) off n) as [bs|] eqn:Hbs; [|by rewrite bget_inside in Hbs by lia].
  exists bs, m1. split; [|done]. apply bget_Some in Hbs as (_ & Hbl & _).
  unfold efuse_read_usr. rewrite Hk. simpl negb. cbv iota. unfold _efuse_read, meson_trustzone_efuse, meson_efuse_fn_smc.
  cbn [cmd offset size buffer]. rewrite !u32_small by lia. cbn - [smc s64 u32 bput bget].
  rewrite Hr, s64_small by lia. rewrite (proj2 (Z.eqb_neq n 0)) by lia. cbn - [smc s64 u32 bput bget].
  unfold get_sharemem_info. rewrite ask_out by done. rewrite (proj2 (Z.ltb_ge n 0)) by lia. rewrite Hp. cbn - [u32 bput bget].
  rewrite bput_in, splice_whole by lia. cbn - [u32 bput bget]. rewrite u32_small by lia.
  rewrite bget_take, take_ge by lia. cbn - [u32 bput bget]. by rewrite bput_in, splice_whole by lia.
Qed.

(** A write inside the area. *)
Lemma write_usr_spec m buf n off :
  ok m -> 0 <= off -> 0 < n -> off + n <= max -> n <= zlen buf -> 
  exists r m', efuse_write_usr c kmalloc uninit m buf n off = Some (r, m') /\ ok m' /\
    (r < 0 /\ fuse m' = fuse m \/ r = n /\ fuse m' = splice (fuse m) off (take (Z.to_nat n) buf)).
Proof.
  intros Hok Ho Hn Hm Hb. pose proof area_max as Hmax. unfold efuse_write_usr.
  destruct (kmalloc n); [|by exists (- ENOMEM), m; split_and!; [..|left]]. simpl negb. cbv iota.
  rewrite bget_take by lia. set (src := take (Z.to_nat n) buf).
  assert (Hl : zlen src = n) by (unfold src; rewrite length_take; lia). pose proof (uninit_length n) as Hu.
  destruct (do_write m off src Hok Ho) as (m1 & a0 & m2 & Hp & Hw & Hok2 & Hf); [by destruct src; simpl in *; [lia|]|lia|].
  cbn - [bput]. rewrite bput_in, splice_whole by lia. cbn - [_efuse_write].
  unfold _efuse_write, meson_trustzone_efuse, meson_efuse_fn_smc. cbn [cmd offset size buffer].
  rewrite !u32_small by lia. cbn - [smc s64 u32 bput bget].
  unfold get_sharemem_info. rewrite ask_in by done. rewrite bget_take, take_ge by lia. cbn - [smc s64 u32 bput bget].
  rewrite Hp. cbn - [smc s64 u32 bput bget]. rewrite <- Hl, Hw.
  destruct Hf as [[-> Hf]|[-> Hf]].
  - exists (-1), m2. by split_and!; [..|left].
  - rewrite s64_small by lia. rewrite (proj2 (Z.eqb_neq _ 0)) by lia. cbn - [u32]. rewrite u32_small by lia.
    exists (zlen src), m2. by split_and!; [..|right].
Qed.

(** A key of the device tree that lies in the user area. *)
Definition fits (info : efusekey_info) : Prop := 0 <= koffset info /\ 0 < ksize info /\ koffset info + ksize info <= max.
Definition key_at st (nm : bytes) (info : efusekey_info) : Prop := efuse_getinfo st nm = Some (0, Some info) /\ fits info.

Lemma key_at_same st st' nm info : efuse_key st' = efuse_key st -> key_at st nm info -> key_at st' nm info.
Proof. unfold key_at, efuse_getinfo. by intros ->. Qed.

Lemma attr_read_spec st nm info buf :
  ok (monitor st) -> key_at st nm info -> zlen buf = ksize info -> kmalloc (ksize info) = true ->
  exists bs st', efuse_user_attr_read c kmalloc uninit st nm buf = Some (ksize info, bs, st') /\
    bget (fuse (monitor st)) (koffset info) (ksize info) = Some bs /\ ok (monitor st') /\
    fuse (monitor st') = fuse (monitor st) /\ efuse_key st' = efuse_key st.
Proof.
  intros Hok [Hi (H1 & H2 & H3)] Hb Hk. unfold efuse_user_attr_read. rewrite Hi. cbn - [efuse_read_usr bget bput]. rewrite Hk. simpl negb. cbv iota.
  destruct (read_usr_spec (monitor st) (fill 0 (ksize info)) (ksize info) (koffset info)) as (bs & m' & Hr & Hf & Hok' & Hs);
    [done|done|done|done|rewrite fill_length; lia|done|].
  rewrite Hr. cbn - [bget bput]. rewrite (proj2 (Z.ltb_ge (ksize info) 0)) by lia.
  assert (Hl := Hf). apply bget_Some in Hl as (_ & Hl & _).
  rewrite bget_take, take_ge by lia. cbn - [bget bput]. rewrite bput_in, splice_whole by lia.
  by exists bs, (with_mon st m').
Qed.

Lemma attr_store_spec st nm info buf count op :
  ok (monitor st) -> key_at st nm info -> 0 <= count < 2 ^ 63 ->
  store_data slack info buf count = Some (inr op) -> ksize info <= zlen op ->
  exists r st', efuse_user_attr_store c kmalloc uninit slack st nm buf count = Some (r, st') /\
    ok (monitor st') /\ efuse_key st' = efuse_key st /\
    (r < 0 /\ fuse (monitor st') = fuse (monitor st) \/
     r = count /\ fuse (monitor st') = splice (fuse (monitor st)) (koffset info) (take (Z.to_nat (ksize info)) op)).
Proof.
  intros Hok [Hi (H1 & H2 & H3)] Hc Hd Hl. unfold efuse_user_attr_store. rewrite Hi. cbn - [store_data efuse_write_usr].
  destruct (kmalloc count); [|by exists (- ENOMEM), st; split_and!; [..|left]]. simpl negb. cbv iota. rewrite Hd. cbn - [efuse_write_usr].
  destruct (write_usr_spec (monitor st) op (ksize info) (koffset info)) as (r & m' & Hw & Hok' & Hr); [done..|].
  rewrite Hw. cbn. destruct Hr as [[Hr Hf]|[-> Hf]].
  - rewrite (proj2 (Z.ltb_lt r 0)) by done. exists r, (with_mon st m'). by split_and!; [..|left].
  - rewrite (proj2 (Z.ltb_ge _ 0)) by lia. rewrite s64_small by lia. exists count, (with_mon st m'). by split_and!; [..|right].
Qed.

(** What the code takes for the text of a buffer: it reads on behind the end, up to
    the first zero. *)
Definition text_of (buf : bytes) : option bytes := cstring_at (buf ++ slack (zlen buf)) 0.

(** The two ways of giving the bytes of a key: as text with colons, or as they
    are, either with a newline at the end or without.  For the first the text must end
    with the buffer, for the second it must hold no colon. *)
Inductive spells (bs : bytes) : bytes -> Prop :=
| spells_text t : (2 <= length bs)%nat -> text_end t -> text_of (mac_text bs ++ t) = Some (mac_text bs ++ t) -> spells bs (mac_text bs ++ t)
| spells_raw t w : text_end t -> text_of (bs ++ t) = Some w -> ~ In colon w -> spells bs (bs ++ t).

Lemma until_zero_whole l r : until_zero (l ++ r) = Some l -> exists rest, r = 0 :: rest.
Proof.
  induction l as [|x l IH]; cbn [app until_zero].
  - destruct r as [|x r]; [done|]. cbn [until_zero]. destruct (Z.eqb_spec x 0) as [->|Hx]; [by exists r|]. by destruct (until_zero r).
  - destruct (Z.eqb_spec x 0) as [->|Hx]; [done|]. destruct (until_zero (l ++ r)) as [k|]; [|done]. intros [= ->]. by apply IH.
Qed.

Lemma until_zero_prefix l r : exists k, until_zero (l ++ 0 :: r) = Some (take k l).
Proof.
  induction l as [|x l [k IH]]; [by exists 0%nat|]. cbn [app until_zero].
  case_goal; [by exists 0%nat|]. exists (S k). by rewrite IH.
Qed.

Lemma existsb_colon_false l : ~ In colon l -> existsb (Z.eqb colon) l = false.
Proof.
  intros H. destruct (existsb _ l) eqn:Hx; [|done]. apply existsb_exists in Hx as (x & Hx & He).
  apply Z.eqb_eq in He as <-. done.
Qed.

Lemma raw_stored info bs t w :
  0 < ksize info -> text_end t -> ksize info = zlen bs -> zlen bs < 2 ^ 32 ->
  text_of (bs ++ t) = Some w -> ~ In colon w ->
  store_data slack info (bs ++ t) (zlen (bs ++ t)) = Some (inr (bs ++ t)).
Proof.
  intros H0 Ht Hk Hn Hs Hc. unfold store_data. rewrite bget_take, take_ge by lia. cbn [mbind option_bind].
  unfold text_of in Hs. rewrite Hs. cbn [mbind option_bind]. rewrite existsb_colon_false by done.
  assert (Hl : zlen (bs ++ t) = zlen bs \/ zlen (bs ++ t) = zlen bs + 1 /\ t = [newline]).
  { destruct Ht as [-> | ->]; [left; by rewrite app_nil_r|right; rewrite length_app; simpl; split; [lia|done]]. }
  destruct Hl as [Hl|[Hl ->]].
  - destruct (aget_is_Some (bs ++ t) (zlen (bs ++ t) - 1)) as [x ->]; [lia|]. cbn [mbind option_bind].
    rewrite u64_small by lia. rewrite (proj2 (Z.eqb_eq _ (ksize info))), (proj2 (Z.ltb_ge (ksize info) _)), (proj2 (Z.ltb_ge _ (ksize info))) by lia.
    by rewrite andb_false_r.
  - replace (zlen (bs ++ [newline]) - 1) with (zlen bs + 0) by lia. rewrite aget_app_skip by lia.
    change (aget [newline] 0) with (Some newline). cbn [mbind option_bind].
    rewrite u64_small by lia. rewrite (proj2 (Z.ltb_ge (ksize info) _)), (proj2 (Z.ltb_ge _ (ksize info))) by lia. done.
Qed.

Lemma spelled_stored info bs buf :
  spells bs buf -> 0 < ksize info -> Forall is_byte bs -> ksize info = zlen bs -> zlen bs < 2 ^ 32 ->
  exists op, store_data slack info buf (zlen buf) = Some (inr op) /\ take (length bs) op = bs /\ zlen bs <= zlen op.
Proof.
  intros [t Hl Ht Hs|t w Ht Hs Hc] H0 Hb Hk Hn.
  - destruct (until_zero_whole _ _ Hs) as [rest Hr]. by eapply mac_text_stored.
  - exists (bs ++ t). split; [by eapply raw_stored|]. rewrite take_app_length, length_app. split; [done|lia].
Qed.

Lemma bget_splice_same buf off src :
  0 <= off -> off + zlen src <= zlen buf -> bget (splice buf off src) off (zlen src) = Some src.
Proof. intros. by apply bget_holds, holds_at_splice. Qed.

Lemma bget_splice_other buf off src o n :
  0 <= off -> off + zlen src <= zlen buf -> 0 <= o -> 0 <= n -> o + n <= zlen buf ->
  o + n <= off \/ off + zlen src <= o ->
  bget (splice buf off src) o n = bget buf o n.
Proof.
  intros H1 H2 H3 H4 H5 H6. destruct (bget buf o n) as [bs|] eqn:Hb; [|by rewrite bget_inside in Hb by lia].
  apply bget_Some in Hb as (Hh & <- & _). apply bget_holds. apply holds_at_splice_ne; [done|lia..].
Qed.

(** C22. A key whose bytes are given as an address with colons or as they are, with a
    newline or without, is programmed into its place of the user area or not at
    all.  When the store reports success, reading the key gives the bytes, and
    every key that does not overlap it reads as before.  The code reads its copy of the
    buffer as text up to the first zero, wherever that is: an address must end with
    the buffer there, and what is given as bytes have no colon up to there. *)
Theorem efuse_key_roundtrip st nm info bs buf
  (Hok : ok (monitor st)) (Hkey : key_at st nm info) (Hsp : spells bs buf) (Hb : Forall is_byte bs)
  (Hsz : ksize info = zlen bs) (Hbig : zlen buf < 2 ^ 63) :
  exists r st', efuse_user_attr_store c kmalloc uninit slack st nm buf (zlen buf) = Some (r, st') /\ ok (monitor st') /\
    (r < 0 /\ fuse (monitor st') = fuse (monitor st) \/
     r = zlen buf /\
     (forall mem, zlen mem = ksize info -> kmalloc (ksize info) = true ->
        exists st2, efuse_user_attr_read c kmalloc uninit st' nm mem = Some (ksize info, bs, st2)) /\
     (forall nm2 info2 mem, key_at st nm2 info2 -> zlen mem = ksize info2 -> kmalloc (ksize info2) = true ->
        koffset info2 + ksize info2 <= koffset info \/ koffset info + ksize info <= koffset info2 ->
        exists old st2 st3, efuse_user_attr_read c kmalloc uninit st nm2 mem = Some (ksize info2, old, st2) /\
          efuse_user_attr_read c kmalloc uninit st' nm2 mem = Some (ksize info2, old, st3))).
Proof.
  pose proof area_max as Hmax. pose proof (area_len _ Hok) as Hlen. destruct Hkey as [Hi Hfit]. assert (Hfit' := Hfit). destruct Hfit' as (F1 & F2 & F3).
  destruct (spelled_stored info bs buf) as (op & Hop & Htk & Hopl); [done|lia|done|lia|lia|].
  destruct (attr_store_spec st nm info buf (zlen buf) op) as (r & st' & Hst & Hok' & Hek & Hr); [done|by split|lia|done|lia|].
  exists r, st'. split_and!; [done|done|]. destruct Hr as [Hr|[-> Hf]]; [by left|right].
  rewrite Hsz, Nat2Z.id, Htk in Hf. split_and!; [done| |].
  - intros mem Hm Hk. destruct (attr_read_spec st' nm info mem) as (bs' & st2 & Hrd & Hg & _); [done|by eapply key_at_same|done|done|].
    rewrite Hf, Hsz, bget_splice_same in Hg by lia. injection Hg as <-. by exists st2.
  - intros nm2 info2 mem Hk2 Hm Hk Hdis. assert (Hk2' := Hk2). destruct Hk2' as [_ (G1 & G2 & G3)].
    destruct (attr_read_spec st nm2 info2 mem) as (old & st2 & Hr1 & Hg1 & _); [done..|].
    destruct (attr_read_spec st' nm2 info2 mem) as (old' & st3 & Hr2 & Hg2 & _); [done|by eapply key_at_same|done|done|].
    rewrite Hf, bget_splice_other, Hg1 in Hg2 by lia. injection Hg2 as <-. by exists old, st2, st3.
Qed.

End Fuses.

(** ** Fuse keys of the unified key manager *)

Section Unified.
Context {K : Type} {kif : AmlkeyIf K} {M : Type} {mon : SecMon M}.
Variable c : aml_efuse_cmd.
Context {max : Z} {fuse : M -> bytes} {ok : M -> Prop} {area : FuseArea c max fuse ok}.
Variable kmalloc : Z -> bool.
Variable uninit : Z -> bytes.
Hypothesis uninit_length : forall n, zlen (uninit n) = Z.max 0 n.
Variable slack : Z -> bytes.
Variable stack : Z.

(** The functions of efuse.c behind the interface of the manager. *)
Definition efuse_if : EfuseIf (efuse_state M) := {|
  efuse_on := true;
  fuse_getinfo e nm := '(ret, info) ← efuse_getinfo e nm; Some (ret, default 0 (ksize <$> info));
  fuse_store := efuse_user_attr_store c kmalloc uninit slack;
  fuse_read := efuse_user_attr_read c kmalloc uninit |}.

Implicit Types s : uk_state K (efuse_state M).

(** A key in the fuses that its number and its name both lead to. *)
Definition fuse_item s (pos : Z) (item : key_item_t) (info : efusekey_info) : Prop :=
  uk_find_item_by_id (uk_hdr (ukdev s)) (s32 pos) = Some item /\
  uk_find_item_by_name (uk_hdr (ukdev s)) (kname item) = Some item /\
  dev item = KEY_EFUSE /\ @key_at M max (efuse s) (kname item) info.

Lemma fuse_getinfo_key s pos item info :
  fuse_item s pos item info -> fuse_getinfo (EfuseIf := efuse_if) (efuse s) (kname item) = Some (0, ksize info).
Proof. intros (_ & _ & _ & H & _). cbn - [efuse_getinfo]. by rewrite H. Qed.

Lemma fuse_item_same s s' pos item info :
  ukdev s' = ukdev s -> efuse_key (efuse s') = efuse_key (efuse s) -> fuse_item s pos item info -> fuse_item s' pos item info.
Proof. intros Hu He (H1 & H2 & H3 & H4). unfold fuse_item. rewrite Hu. split_and!; try done. by eapply key_at_same. Qed.

(** Reading a key of the fuses through the character device gives its bytes. *)
Lemma unifykey_read_fuse s pos item info :
  fuse_item s pos item info -> ok (monitor (efuse s)) -> Z.land (perm item) KEY_PERM_READ = KEY_PERM_READ ->
  kmalloc (ksize info) = true -> ksize info < 2 ^ 31 ->
  exists bs s', unifykey_read (eif := efuse_if) kmalloc stack s true (ksize info) pos = Some (ksize info, bs, s') /\
    bget (fuse (monitor (efuse s))) (koffset info) (ksize info) = Some bs.
Proof.
  intros Hit Hok Hp Hk Hs. assert (Hit' := Hit). destruct Hit' as (Hi & Hn & Hd & Hkey). assert (Hfit := Hkey). destruct Hfit as [_ (F1 & F2 & F3)].
  unfold unifykey_read. rewrite Hi, Hd. rewrite decide_False by done. rewrite Hk. simpl negb. cbv iota.
  unfold key_unify_read. rewrite Hn, Hp, Hd, Z.eqb_refl. simpl negb. cbv iota.
  unfold key_efuse_read. simpl efuse_on. cbv iota. rewrite (fuse_getinfo_key _ _ _ _ Hit). cbn - [fuse_read bget bput fill u32 s32].
  rewrite Hk. cbn - [fuse_read bget bput fill u32 s32].
  destruct (attr_read_spec c kmalloc uninit uninit_length (efuse s) (kname item) info (fill 0 (ksize info))) as (bs & e & Hr & Hg & _ & _ & _);
    [done|done|rewrite fill_length; lia|done|].
  cbn - [efuse_user_attr_read bget bput fill u32 s32]. rewrite Hr. cbn - [bget bput fill u32 s32].
  rewrite s32_small, u32_small by lia. rewrite (proj2 (Z.leb_le 0 _)) by lia. rewrite Z.ltb_irrefl.
  assert (Hl := Hg). apply bget_Some in Hl as (_ & Hl & _).
  rewrite bget_take, take_ge by lia. cbn - [bget bput fill u32 s32]. rewrite bput_in, splice_whole by (rewrite ?fill_length; lia).
  cbn - [bget s32]. rewrite (proj2 (Z.ltb_ge (ksize info) 0)) by lia. rewrite Z.ltb_irrefl, bget_take, take_ge by lia. cbn - [s32].
  rewrite s32_small by lia. by eexists _, _.
Qed.

(** C7. A key of the fuses with write and read permission, written through the character
    device as bytes in which the code finds no colon (it reads them as text up to the
    first zero, also behind the buffer), reads back through it byte for byte, or the
    write reports an error and the fuses are as before. *)
Theorem unifykey_fuse_roundtrip s pos item info data text
  (Hit : fuse_item s pos item info) (Hok : ok (monitor (efuse s)))
  (Hpw : Z.land (perm item) KEY_PERM_WRITE = KEY_PERM_WRITE) (Hpr : Z.land (perm item) KEY_PERM_READ = KEY_PERM_READ)
  (Htext : text_of slack data = Some text) (Hraw : ~ In colon text)
  (Hb : Forall is_byte data) (Hsz : ksize info = zlen data) (Hk : kmalloc (ksize info) = true) :
  exists r s', unifykey_write (eif := efuse_if) kmalloc s (Some data) (zlen data) pos = Some (r, s') /\
    (r < 0 /\ fuse (monitor (efuse s')) = fuse (monitor (efuse s)) \/
     r = zlen data /\ exists s2, unifykey_read (eif := efuse_if) kmalloc stack s' true (zlen data) pos = Some (zlen data, data, s2)).
Proof.
  assert (Hit' := Hit). destruct Hit' as (Hi & Hn & Hd & Hkey). assert (Hfit := Hkey). destruct Hfit as [_ (F1 & F2 & F3)].
  pose proof area_max as Hmax. pose proof (area_len _ Hok) as Hlen.
  assert (Hst := raw_stored slack info data [] text F2 (or_introl eq_refl) Hsz ltac:(lia)).
  rewrite app_nil_r in Hst. specialize (Hst Htext Hraw).
  destruct (attr_store_spec c kmalloc uninit uninit_length slack (efuse s) (kname item) info data (zlen data) data)
    as (r & e & Hw & Hok' & Hek & Hr); [done|done|lia|done|lia|].
  unfold unifykey_write. rewrite <- Hsz, Hk, Hi. simpl negb. cbv iota. rewrite Hsz, bget_take, take_ge by lia. cbn [mbind option_bind].
  unfold key_unify_write. rewrite Hn, Hpw, Hd, Z.eqb_refl. simpl negb. cbv iota. unfold key_efuse_write. simpl efuse_on. cbv iota.
  rewrite (fuse_getinfo_key _ _ _ _ Hit). cbn - [fuse_store s32 u32]. rewrite u32_small by lia.
  cbn - [efuse_user_attr_store s32 u32]. rewrite Hw. cbn - [s32 u32].
  destruct Hr as [[Hr Hf]|[-> Hf]].
  - rewrite (proj2 (Z.ltb_lt r 0)) by done. cbn - [s32]. eexists _, _. split; [done|]. by left.
  - rewrite (proj2 (Z.ltb_ge _ 0)) by lia. cbn - [s32]. rewrite s32_small by lia. eexists _, _. split; [done|]. right. split; [done|].
    destruct (unifykey_read_fuse (set_efuse s e) pos item info) as (bs & s2 & Hrd & Hg); [by apply (fuse_item_same s)|done|done|done|lia|].
    cbn [efuse set_efuse] in Hg. rewrite Hf, Hsz, Nat2Z.id, take_ge, bget_splice_same in Hg by lia. injection Hg as <-.
    rewrite Hsz in Hrd. by exists s2.
Qed.

(** The information about a key of the fuses cannot be asked for: the query
    answers the size of the key where the ioctl expects 0, and the ioctl returns
    that number as an error. *)
Theorem unifykey_fuse_no_info s pos item info rec
  (Hit : fuse_item s pos item info) (Hok : ok (monitor (efuse s)))
  (Hp : Z.land (perm item) KEY_PERM_READ = KEY_PERM_READ) (Hk : kmalloc (ksize info) = true) (Hs : ksize info < 2 ^ 31)
  (Hnm : c_str (take 47 (ii_name rec)) = kname item) (Hne : kname item <> []) :
  exists s', unifykey_ioctl_get_info (eif := efuse_if) kmalloc stack s true 0 0 rec = Some (ksize info, None, s').
Proof.
  assert (Hit' := Hit). destruct Hit' as (Hi & Hn & Hd & Hkey). assert (Hfit := Hkey). destruct Hfit as [_ (F1 & F2 & F3)].
  unfold unifykey_ioctl_get_info. change (c_true 0) with false. simpl negb. cbv iota.
  change (Z.to_nat (KEY_UNIFY_NAME_LEN - 1)) with 47%nat. rewrite Hnm.
  rewrite (proj2 (Nat.ltb_lt 0 _)) by (destruct (kname item); [done|simpl; lia]). rewrite Hn.
  unfold key_unify_query. rewrite Hn, Hp, Hd, Z.eqb_refl. simpl negb. cbv iota. unfold key_efuse_query. simpl efuse_on. cbv iota.
  rewrite (fuse_getinfo_key _ _ _ _ Hit). cbn - [fuse_read fill s32]. rewrite Hk. cbn - [fuse_read fill s32].
  destruct (attr_read_spec c kmalloc uninit uninit_length (efuse s) (kname item) info (fill 0 (ksize info))) as (bs & e & Hr & Hg & _ & _ & _);
    [done|done|rewrite fill_length; lia|done|].
  cbn - [efuse_user_attr_read fill s32]. rewrite Hr. cbn - [fill s32]. rewrite s32_small by lia.
  destruct ((0 <? ksize info) && _); cbn; unfold c_true; rewrite (proj2 (Z.eqb_neq (ksize info) 0)) by lia; by eexists.
Qed.

(** Bytes that begin with a colon are taken for text: the write of such a key is
    refused although its length is right. *)
Theorem unifykey_fuse_colon s pos item info data rest
  (Hit : fuse_item s pos item info)
  (Hpw : Z.land (perm item) KEY_PERM_WRITE = KEY_PERM_WRITE)
  (Hsz : ksize info = zlen (colon :: data)) (Hk : kmalloc (ksize info) = true) (Hbig : ksize info < 2 ^ 31)
  (Hsl : slack (ksize info) = 0 :: rest) :
  unifykey_write (eif := efuse_if) kmalloc s (Some (colon :: data)) (ksize info) pos = Some (-1, s).
Proof.
  assert (Hit' := Hit). destruct Hit' as (Hi & Hn & Hd & Hkey). remember (colon :: data) as d eqn:Hdd.
  unfold unifykey_write. rewrite Hk, Hi. simpl negb. cbv iota. rewrite Hsz, bget_take, take_ge by lia. cbn [mbind option_bind].
  unfold key_unify_write. rewrite Hn, Hpw, Hd, Z.eqb_refl. simpl negb. cbv iota. unfold key_efuse_write. simpl efuse_on. cbv iota.
  rewrite (fuse_getinfo_key _ _ _ _ Hit). cbn - [fuse_store u32]. rewrite u32_small by lia.
  unfold fuse_store, efuse_if, efuse_user_attr_store. destruct Hkey as [-> _]. cbn - [store_data]. rewrite <- Hsz, Hk. cbn - [store_data].
  assert (Hst : store_data slack info d (ksize info) = Some (inl (- EINVAL))); [|rewrite Hst; by destruct s].
  unfold store_data. rewrite Hsz, bget_take, take_ge by lia. cbn [mbind option_bind]. rewrite <- Hsz, Hsl. subst d.
  destruct (until_zero_prefix data rest) as [k Hu].
  assert (Hc : cstring_at ((colon :: data) ++ 0 :: rest) 0 = Some (colon :: take k data)).
  { change (cstring_at _ 0) with ((fun t => colon :: t) <$> until_zero (data ++ 0 :: rest)). by rewrite Hu. }
  rewrite Hc. cbn - [parse_bytes cstring_at Z.to_nat]. rewrite Hsz at 2. simpl length. rewrite Nat2Z.id. cbn [parse_bytes].
  cbn [app] in *. rewrite Hc. cbn [mbind option_bind]. by case_goal.
Qed.

End Unified.

(** ** The character device and the attributes *)

Section Device.
Context {M : Type} {mon : SecMon M}.
Variable c : aml_efuse_cmd.
Context {max : Z} {fuse : M -> bytes} {ok : M -> Prop} {area : FuseArea c max fuse ok}.
Variable items : efuse_items.
Variable kmalloc : Z -> bool.
Variable uninit : Z -> bytes.
Hypothesis uninit_length : forall n, zlen (uninit n) = Z.max 0 n.
Implicit Types st : efuse_state M.

Lemma get_max_spec m : ok m -> efuse_get_max c m = (max, m).
Proof.
  intros Hok. pose proof area_max. unfold efuse_get_max, meson_trustzone_efuse_get_max. cbn - [smc s64]. rewrite ask_max by done.
  rewrite s64_small by lia. by rewrite (proj2 (Z.eqb_neq max 0)) by lia.
Qed.

Lemma with_mon_id st : with_mon st (monitor st) = st.
Proof. by destruct st. Qed.

Lemma out_of_range_spec pos count : 0 <= pos -> 0 < max < 2 ^ 31 ->
  out_of_range pos count max = true <-> max <= pos \/ max < pos + count.
Proof.
  intros Hp Hm. unfold out_of_range. rewrite !orb_true_iff, Z.leb_le, !Z.ltb_lt.
  destruct (decide (pos < max)); [rewrite u32_small by lia; lia|].
  split; [lia|]. intros _. left. left. lia.
Qed.

(** Writing through the character device: a request that leaves the user area is
    refused and nothing is programmed; any other is programmed at the position
    as a whole, or the error of the kernel or of the firmware is returned and
    the fuses are as before.  The position does not move. *)
Theorem efuse_write_spec st data count ppos
  (Hok : ok (monitor st)) (Hp : 0 <= ppos < 2 ^ 32) (Hc : 0 < count <= zlen data) :
  exists r st', efuse_write c kmalloc uninit st (Some data) count ppos = Some (r, ppos, st') /\ ok (monitor st') /\
    (max < ppos + count -> r = - EINVAL /\ st' = st) /\
    (ppos + count <= max ->
       r < 0 /\ fuse (monitor st') = fuse (monitor st) \/
       r = count /\ fuse (monitor st') = splice (fuse (monitor st)) ppos (take (Z.to_nat count) data)).
Proof.
  pose proof area_max as Hm. unfold efuse_write. rewrite get_max_spec, with_mon_id by done.
  rewrite (proj2 (Z.ltb_ge max 0)) by lia. rewrite !u32_small by lia.
  destruct (out_of_range ppos count max) eqn:Ho.
  { apply out_of_range_spec in Ho; [|lia..]. exists (- EINVAL), st. split_and!; [done|done|done|lia]. }
  assert (Hin : ppos + count <= max).
  { destruct (decide (ppos + count <= max)); [done|]. by rewrite (proj2 (out_of_range_spec ppos count ltac:(lia) Hm)) in Ho by lia. }
  destruct (kmalloc count) eqn:Hk; cbn - [efuse_write_usr bget s64]; [|exists (- ENOMEM), st; split_and!; [done|done|lia|by left]].
  rewrite bget_take by lia. cbn - [efuse_write_usr s64].
  destruct (write_usr_spec c kmalloc uninit uninit_length (monitor st) (take (Z.to_nat count) data) count ppos)
    as (r & m' & Hw & Hok' & Hr); [done|lia|lia|lia|rewrite length_take; lia|].
  rewrite Hw. cbn - [s64]. rewrite take_take, Nat.min_id in Hr. destruct Hr as [[Hr Hf]|[-> Hf]].
  - rewrite (proj2 (Z.ltb_lt r 0)) by done. exists r, (with_mon st m'). split_and!; [done|done|lia|by left].
  - rewrite (proj2 (Z.ltb_ge count 0)), s64_small by lia. exists count, (with_mon st m'). split_and!; [done|done|lia|by right].
Qed.

(** Reading never moves the position: a second read delivers the same bytes
    again, so a reader that goes on until the end of the file does not end. *)
Theorem efuse_read_repeats st count ppos
  (Hok : ok (monitor st)) (Hp : 0 <= ppos) (Hc : 0 < count) (Hin : ppos + count <= max) (Hk : kmalloc count = true) :
  exists bs st1 st2, bget (fuse (monitor st)) ppos count = Some bs /\
    efuse_read c kmalloc uninit st true count ppos = Some (count, bs, ppos, st1) /\
    efuse_read c kmalloc uninit st1 true count ppos = Some (count, bs, ppos, st2).
Proof.
  pose proof area_max as Hm.
  assert (Hone : forall t, ok (monitor t) -> exists bs t', efuse_read c kmalloc uninit t true count ppos = Some (count, bs, ppos, t') /\
    bget (fuse (monitor t)) ppos count = Some bs /\ ok (monitor t') /\ fuse (monitor t') = fuse (monitor t)).
  { intros t Ht. unfold efuse_read. rewrite get_max_spec, with_mon_id by done. rewrite (proj2 (Z.ltb_ge max 0)) by lia.
    rewrite !u32_small by lia.
    destruct (out_of_range ppos count max) eqn:Ho; [apply out_of_range_spec in Ho; lia|]. rewrite Hk. simpl negb. cbv iota.
    destruct (read_usr_spec c kmalloc uninit uninit_length (monitor t) (fill 0 count) count ppos) as (bs & m' & Hr & Hf & Hok' & Hs);
      [done|done|done|done|rewrite fill_length; lia|done|].
    rewrite Hr. cbn - [s64]. rewrite (proj2 (Z.ltb_ge count 0)), s64_small by lia. by exists bs, (with_mon t m'). }
  destruct (Hone st Hok) as (bs & st1 & H1 & Hg & Hok1 & Hf). destruct (Hone st1 Hok1) as (bs' & st2 & H2 & Hg2 & _ & _).
  rewrite Hf, Hg in Hg2. injection Hg2 as <-. by exists bs, st1, st2.
Qed.

End Device.

Section Firmware.
Context {M : Type} {mon : SecMon M}.
Variable c : aml_efuse_cmd.
Variable kmalloc : Z -> bool.
Variable uninit : Z -> bytes.
Hypothesis uninit_length : forall n, zlen (uninit n) = Z.max 0 n.
Implicit Types st : efuse_state M.

(** When the firmware delivers fewer bytes than were asked for, user space still
    gets the whole number: the rest is memory of the kernel nothing was written
    to.  When it delivers more, the copy runs past the buffer. *)
Theorem efuse_read_trusts_firmware m m1 count ppos n out base
  (Hk : kmalloc count = true) (Hc : 0 < count < 2 ^ 32) (Hp : 0 <= ppos < 2 ^ 32) (Hn : 0 < n < 2 ^ 31)
  (Hr : smc m (read_cmd c) ppos count 0 0 = (n, m1)) (Hb : smc m1 (mem_out_base_cmd c) 0 0 0 0 = (base, m1))
  (Hm : phys_read m1 base n = Some out) (Ho : zlen out = n) :
  efuse_read_usr c kmalloc uninit m (fill 0 count) count ppos
  = if n <=? count then Some (n, out ++ drop (Z.to_nat n) (uninit count), m1) else None.
Proof.
  pose proof (uninit_length count) as Hu.
  unfold efuse_read_usr. rewrite Hk. simpl negb. cbv iota. unfold _efuse_read, meson_trustzone_efuse, meson_efuse_fn_smc.
  cbn [cmd offset size buffer]. rewrite !u32_small by lia. cbn - [smc s64 u32 bput bget].
  rewrite Hr, s64_small by lia. rewrite (proj2 (Z.eqb_neq n 0)) by lia. cbn - [smc s64 u32 bput bget].
  unfold get_sharemem_info. rewrite Hb. rewrite (proj2 (Z.ltb_ge n 0)) by lia. rewrite Hm. cbn - [u32 bput bget].
  destruct (Z.leb_spec n count) as [Hle|Hgt].
  - rewrite bput_in by lia. cbn - [u32 bput bget]. rewrite u32_small by lia.
    unfold splice. change (Z.to_nat 0) with 0%nat. rewrite take_0, app_nil_l, Nat.add_0_l. replace (length out) with (Z.to_nat n) by lia.
    assert (Hl : zlen (out ++ drop (Z.to_nat n) (uninit count)) = count) by (rewrite length_app, length_drop; lia).
    rewrite bget_take, take_ge by lia. cbn - [bput].
    by rewrite bput_in, splice_whole by (rewrite ?fill_length; lia).
  - by rewrite bput_out by lia.
Qed.

End Firmware.

(** The check ioctl of the burning device reports an error even when it has
    answered: its result is never 0. *)
Theorem efuse_burn_ioctl_never_zero {M} {mon : SecMon M} items (st : efuse_state M) check_key user copied ret rec st' :
  efuse_burn_unlocked_ioctl items st check_key user copied = Some (ret, rec, st') -> ret < 0.
Proof.
  unfold efuse_burn_unlocked_ioctl. intros H. destruct check_key; simpl in H; [|inv_some; unfold ENOTTY; lia].
  destruct user as [info|]; [|inv_some; unfold EFAULT; lia].
  destruct (efuse_burn_lockable_is_cfg _ _) as [cfg|]; [|done]. cbn [mbind option_bind] in H.
  destruct (cfg =? 0); [|inv_some; unfold EFAULT; lia].
  destruct (efuse_burn_check_burned _ _ _) as [[v s]|]; [|done]. cbn [mbind option_bind] in H.
  destruct (negb copied); inv_some; unfold ENOTTY, EFAULT; lia.
Qed.

(** One bad entry in the device tree releases the table of keys but not its
    number of entries, and the probe goes on and creates the device: every
    lookup of a key then reads released memory. *)
Theorem efuse_probe_dangling {M} {mon : SecMon M} len items stack e (d : efuse_driver M) n err nm
  (H0 : drv_res d = []) (Hdev : In FDevice (drv_res (efuse_probe len items stack e d).2))
  (Ht : tbl_phandle (fe_keys e) = true) (Hn : tbl_node (fe_keys e) = true) (Hm : tbl_memory (fe_keys e) = true)
  (Hnum : tbl_num (fe_keys e) = inr n) (Hpos : 0 < n < 2 ^ 31)
  (Hbad : parse_table (key_item_parse_dt len) (tbl_entry (fe_keys e)) 0 (Z.to_nat n) = inl err) :
  efuse_getinfo (drv_state (efuse_probe len items stack e d).2) nm = None.
Proof.
  assert (Hk : forall s : efuse_state M, get_efusekey_info len (fe_keys e) s = (err, with_key s (mk_key n TFreed))).
  { intros s. unfold get_efusekey_info. rewrite Ht, Hn, Hnum, Hm. simpl negb. cbv iota. rewrite s32_small by lia.
    rewrite (proj2 (Z.leb_gt n 0)) by lia. by rewrite Hbad. }
  assert (Hg : forall s : efuse_state M, efuse_key s = mk_key n TFreed -> efuse_getinfo s nm = None).
  { intros s Hs. unfold efuse_getinfo. rewrite Hs. cbn [num infos]. destruct (Z.to_nat n) eqn:Hz; [lia|done]. }
  assert (Hc : forall s : efuse_state M, efuse_key (get_efusecheck_info items (fe_checks e) s).2 = efuse_key s).
  { intros s. unfold get_efusecheck_info. by repeat case_goal. }
  revert Hdev. unfold efuse_probe. destruct (negb (fe_memory e)); [cbn [snd]; by rewrite H0|].
  assert (Hno : forall x : efuse_driver M, drv_res x = [FDev] \/ drv_res x = [FClk; FDev] -> ~ In FDevice (drv_res (efuse_error1 x))).
  { intros x [Hx|Hx]; cbn; rewrite Hx; cbn; naive_solver. }
  destruct (c_true match fe_clk e with Some r => r | None => 0 end); [intros Hx; exfalso; revert Hx; apply Hno; cbn; rewrite H0; by left|].
  destruct (read_cmds e _) as [r cs]. destruct (c_true r).
  { intros Hx. exfalso. revert Hx. apply Hno. destruct (fe_clk e); cbn; rewrite H0; [by right|by left]. }
  destruct (probe_reg stack e) as [er|[reg mask]].
  { intros Hx. exfalso. revert Hx. apply Hno. destruct (fe_clk e); cbn; rewrite H0; [by right|by left]. }
  rewrite Hk. intros _. match goal with |- context [get_efusecheck_info _ _ ?s] => specialize (Hc s) end.
  destruct (get_efusecheck_info _ _ _) as [r2 s2]. apply Hg. unfold probe_register. repeat case_goal; exact Hc.
Qed.

(** Writing an empty string to [checkburn] copies the whole address space: the
    length of the string less its newline is -1, which passes the test against
    the size of the name.  Without a newline the last character is lost. *)
Theorem checkburn_store_edges d rest text
  (Hz : Forall (fun x => x <> 0) text) (Hl : 0 < zlen text < EFUSE_CHECK_NAME_LEN) count :
  checkburn_store d (0 :: rest) count = None /\
  exists d', checkburn_store d (text ++ 0 :: rest) count = Some (s64 count, d') /\
    c_str (dev_name d') = take (length text - 1) text.
Proof.
  split; [done|]. unfold EFUSE_CHECK_NAME_LEN in Hl. unfold checkburn_store.
  assert (Hc : cstring_at (text ++ 0 :: rest) 0 = Some text) by (by apply (until_zero_app text rest)).
  rewrite Hc. cbn - [bget bput s64 fill]. unfold EFUSE_CHECK_NAME_LEN.
  rewrite (proj2 (Z.leb_gt 32 _)), (proj2 (Z.ltb_ge (zlen text - 1) 0)) by lia.
  rewrite bget_take by (rewrite length_app; lia). cbn - [bput s64 fill].
  assert (Hlen : length (take (Z.to_nat (zlen text - 1)) (text ++ 0 :: rest)) = (length text - 1)%nat)
    by (rewrite length_take, length_app; lia).
  rewrite bput_in by (rewrite ?fill_length, ?Hlen; lia). cbn - [s64 splice fill]. eexists. split; [done|].
  cbn [dev_name]. unfold splice. rewrite take_0, app_nil_l, Hlen. rewrite take_app_le by lia.
  replace (Z.to_nat (zlen text - 1)) with (length text - 1)%nat by lia.
  unfold fill. rewrite drop_replicate. destruct (Z.to_nat 32 - _)%nat eqn:He; [lia|]. cbn [replicate].
  assert (Hpre : Forall (fun x => x <> 0) (take (length text - 1) text)) by by apply Forall_take.
  revert Hpre. generalize (take (length text - 1) text). intros l Hpre. induction Hpre as [|x l Hx _ IH]; [done|].
  cbn [app c_str]. by rewrite (proj2 (Z.eqb_neq x 0)), IH.
Qed.

(** When the third driver of the module does not register, loading the module
    fails with the first two still registered; unloading removes all three. *)
Theorem module_init_leaves_drivers result (He : result DrvEfuse = 0) (Hu : result DrvUnifykeys = 0) (Hb : result DrvBurn <> 0) :
  efuse_unifykey_init result [] = (result DrvBurn, [DrvUnifykeys; DrvEfuse]) /\
  forall l, efuse_unifykey_exit l = [].
Proof.
  split.
  - unfold efuse_unifykey_init, register. rewrite He, Hu. cbn - [unregister]. unfold c_true.
    rewrite (proj2 (Z.eqb_neq _ 0)) by done. cbn - [unregister]. by rewrite (proj2 (Z.eqb_neq _ 0)).
  - intros l. unfold efuse_unifykey_exit, unregister. induction l as [|[] l IH]; [done|..]; cbn; exact IH.
Qed.

(** ** The listing of a key *)

(** A number with at most [k] digits takes at most [k] characters, and two at
    least. *)
Lemma fmt_x_from_length f : forall m z, (m <= f)%nat -> 0 <= z < 16 ^ Z.of_nat m ->
  (length (fmt_x_from f z) <= Nat.max 1 m)%nat.
Proof.
  induction f as [|f IH]; intros m z Hm Hz; [simpl; lia|]. cbn [fmt_x_from]. rewrite length_app. simpl (length [_]).
  destruct (Z.eqb_spec (z / 16) 0) as [Hq|Hq]; [simpl; lia|].
  destruct m as [|m]; [simpl in Hz; assert (z = 0) by lia; subst z; done|].
  assert (Hd : z / 16 < 16 ^ Z.of_nat m).
  { apply Z.div_lt_upper_bound; [lia|]. rewrite Nat2Z.inj_succ, Z.pow_succ_r in Hz by lia. lia. }
  pose proof (Z.div_pos z 16 ltac:(lia) ltac:(lia)). specialize (IH m (z / 16) ltac:(lia) ltac:(lia)).
  destruct m as [|m]; [simpl in Hd; lia|]. lia.
Qed.

Lemma fmt_02x_length k x : 2 <= Z.of_nat k <= 8 -> 0 <= x < 16 ^ Z.of_nat k -> (length (fmt_02x x) <= k)%nat.
Proof.
  intros Hk Hx. assert (Hb : 16 ^ Z.of_nat k <= 16 ^ 8) by (apply Z.pow_le_mono_r; lia).
  unfold fmt_02x, fmt_x. rewrite u32_small by lia.
  pose proof (fmt_x_from_length 8 k x ltac:(lia) ltac:(lia)) as Hf.
  destruct (Nat.ltb_spec (length (fmt_x_from 8 x)) 2); cbn [length]; lia.
Qed.

(** Each byte takes three characters, each line of sixteen at most nine more. *)
Lemma hex_lines_length bs : forall i, 0 <= i -> i + zlen bs <= 4096 -> Forall is_byte bs ->
  zlen (hex_lines i bs) <= 3 * zlen bs + 9 * ((i + zlen bs + 15) / 16 - (i + 15) / 16).
Proof.
  induction bs as [|b bs IH]; intros i Hi Hl Hb.
  { simpl. rewrite Z.add_0_r. lia. }
  apply Forall_cons in Hb as [Hb Hbs]. simpl length in *. cbn [hex_lines].
  specialize (IH (i + 1) ltac:(lia) ltac:(lia) Hbs).
  pose proof (fmt_02x_length 2 b ltac:(lia) ltac:(unfold is_byte in Hb; simpl; lia)) as H2.
  pose proof (fmt_02x_length 3 i ltac:(lia) ltac:(simpl; lia)) as H3.
  rewrite !length_app.
  assert (Hq : (i + 1 + 15) / 16 - (i + 15) / 16 = if i mod 16 =? 0 then 1 else 0).
  { destruct (Z.eqb_spec (i mod 16) 0) as [Hz|Hz]; pose proof (Z.div_mod i 16); pose proof (Z.mod_pos_bound i 16);
      pose proof (Z.div_mod (i + 1 + 15) 16); pose proof (Z.mod_pos_bound (i + 1 + 15) 16);
      pose proof (Z.div_mod (i + 15) 16); pose proof (Z.mod_pos_bound (i + 15) 16); lia. }
  replace (i + Z.of_nat (S (length bs)) + 15) with (i + 1 + zlen bs + 15) by lia.
  destruct (i mod 16 =? 0).
  - rewrite andb_true_r. destruct (negb (i =? 0)); cbn [length]; rewrite length_app; change (length (str ": ")) with 2%nat; lia.
  - rewrite andb_false_r. cbn [length]. lia.
Qed.

(** The attribute that lists a key stays inside the page it writes to for every
    key of at most 1120 bytes, whatever the bytes are. *)
Theorem efuse_show_fits {M} {mon : SecMon M} c max fuse ok {area : FuseArea (M := M) c max fuse ok} kmalloc uninit st nm info
  (Hu : forall n, zlen (uninit n) = Z.max 0 n) (Hok : ok (monitor st)) (Hkey : key_at (max := max) st nm info)
  (Hb : Forall is_byte (fuse (monitor st))) (Hs : ksize info <= 1120) (Hk : kmalloc (ksize info) = true) :
  exists bs st', bget (fuse (monitor st)) (koffset info) (ksize info) = Some bs /\
    efuse_user_attr_show c kmalloc uninit st nm
    = Some (zlen (hex_lines 0 bs) + 1, hex_lines 0 bs ++ [newline], st').
Proof.
  destruct Hkey as [Hi (F1 & F2 & F3)]. unfold efuse_user_attr_show. rewrite Hi. cbn - [efuse_read_usr sysfs_emit hex_lines]. rewrite Hk. simpl negb. cbv iota.
  destruct (read_usr_spec c kmalloc uninit Hu (monitor st) (fill 0 (ksize info)) (ksize info) (koffset info)) as (bs & m' & Hr & Hg & _ & _);
    [done|done|done|done|rewrite fill_length; lia|done|].
  rewrite Hr. cbn - [sysfs_emit hex_lines]. rewrite (proj2 (Z.ltb_ge (ksize info) 0)) by lia.
  assert (Hl := Hg). apply bget_Some in Hl as (_ & Hl & _).
  assert (Hbs : Forall is_byte bs).
  { unfold bget in Hg. case_hyp Hg; [|done]. injection Hg as <-. by apply Forall_take, Forall_drop. }
  pose proof (hex_lines_length bs 0 ltac:(lia) ltac:(lia) Hbs) as Hh. change ((0 + 15) / 16) with 0 in Hh.
  assert (Hq : (0 + zlen bs + 15) / 16 <= 70) by (apply Z.lt_succ_r, Z.div_lt_upper_bound; lia).
  unfold sysfs_emit. rewrite length_app, (proj2 (Z.leb_le _ PAGE_SIZE)) by (unfold PAGE_SIZE; simpl; lia). cbn - [hex_lines].
  exists bs, (with_mon st m'). split; [done|]. do 3 f_equal. lia.
Qed.

(** ** Witnesses *)

(** A firmware with sixteen bytes of fuses and two shared areas of 64 bytes. *)
Record toy_mon := mk_toy { toy_fuse : bytes; toy_in : bytes; toy_out : bytes }.
Definition toy_cmd : aml_efuse_cmd := mk_efuse_cmd 1 2 3 4 5.

Definition toy_smc (m : toy_mon) (f x1 x2 : Z) : Z * toy_mon :=
  if f =? 1 then
    match bget (toy_fuse m) x1 x2 with
    | Some bs => (x2, mk_toy (toy_fuse m) (toy_in m) bs)
    | None => (0, m)
    end
  else if f =? 2 then
    match bget (toy_in m) 0 x2 with
    | Some src =>
        match bput (toy_fuse m) x1 src with
        | Some fs => (x2, mk_toy fs (toy_in m) (toy_out m))
        | None => (0, m)
        end
    | None => (0, m)
    end
  else if f =? 3 then (16, m) else if f =? 4 then (0x1000, m) else if f =? 5 then (0x2000, m) else (0, m).

#[export] Instance toy_secmon : SecMon toy_mon := {|
  smc m f x1 x2 _ _ := toy_smc m f x1 x2;
  phys_read m a n := if a =? 0x2000 then bget (toy_out m) 0 n else None;
  phys_write m a src :=
    if (a =? 0x1000) && (zlen src <=? 64) then Some (mk_toy (toy_fuse m) src (toy_out m)) else None |}.

Definition toy_ok (m : toy_mon) : Prop := zlen (toy_fuse m) = 16.

#[export] Instance toy_area : FuseArea toy_cmd 16 toy_fuse toy_ok.
Proof.
  refine {| in_base := 0x1000; out_base := 0x2000 |}; try done.
  - intros m off n Hok Ho Hn Hm. unfold toy_ok in Hok. cbn - [bget]. destruct (bget (toy_fuse m) off n) as [bs|] eqn:Hb; [|by rewrite bget_inside in Hb by lia].
    eexists. split; [done|]. cbn - [bget]. split_and!; [done|done|]. apply bget_Some in Hb as (_ & <- & _). by rewrite bget_take, take_ge by lia.
  - intros m off src Hok Ho Hne Hm. unfold toy_ok in Hok. cbn - [bget bput zlen].
    rewrite (proj2 (Z.leb_le (zlen src) 64)) by lia. eexists _, _, _. split; [done|]. cbn - [bget bput].
    rewrite bget_take, take_ge, bput_in by lia. split; [done|]. unfold toy_ok. cbn - [splice].
    split; [rewrite splice_length; lia|by right].
Defined.

Definition yes (_ : Z) : bool := true.
Definition junk (n : Z) : bytes := fill 165 n.
Definition zeros (_ : Z) : bytes := fill 0 8.
Lemma junk_length n : zlen (junk n) = Z.max 0 n.
Proof. unfold junk. rewrite fill_length. lia. Qed.

Definition mac_info : efusekey_info := mk_efusekey (str "mac") 2 6.
Definition usid_info : efusekey_info := mk_efusekey (str "usid") 8 4.
Definition toy_state : efuse_state toy_mon :=
  mk_efuse (mk_key 2 (TLive [mac_info; usid_info])) (mk_check 0 0 TNull) 0 (mk_toy (fill 0 16) [] []).
Definition mac_bytes : bytes := [0; 0x1a; 0x2b; 0x3c; 0x4d; 0x5e].

(** Storing ["00:1a:2b:3c:4d:5e\n"] and reading the key. *)
Lemma efuse_key_roundtrip_witness : exists st',
  efuse_user_attr_store toy_cmd yes junk zeros toy_state (str "mac") (str "00:1a:2b:3c:4d:5e" ++ [newline]) 18 = Some (18, st') /\
  exists st2, efuse_user_attr_read toy_cmd yes junk st' (str "mac") (fill 0 6) = Some (6, mac_bytes, st2).
Proof.
  destruct (efuse_key_roundtrip toy_cmd yes junk junk_length zeros toy_state (str "mac") mac_info mac_bytes
    (str "00:1a:2b:3c:4d:5e" ++ [newline])) as (r & st' & H & _ & Hr);
    [done|by split_and!|apply (spells_text zeros mac_bytes [newline]); [simpl; lia|by right|by vm_compute]|by repeat constructor|done|done|].
  exists st'. assert (Hv := H). vm_compute in Hv. injection Hv as <- <-. split; [exact H|].
  destruct Hr as [[Hr _]|(_ & Hr & _)]; [exfalso; vm_compute in Hr; discriminate|].
  apply (Hr (fill 0 6)); done.
Defined.

Definition efuse_mac_item : key_item_t := mk_item (str "mac") 0 KEY_EFUSE 3 0.
Definition efuse_uk : uk_state unit (efuse_state toy_mon) :=
  mk_uk (mk_ukdev 1 0 None [efuse_mac_item] (mk_info 1 1 (-1))) tt toy_state.
#[export] Instance unit_if : AmlkeyIf unit := {|
  amlkey_init k := Some (0, k);
  amlkey_exsit k _ := Some (0, k);
  amlkey_size k _ := Some (0, k);
  amlkey_get_attr k _ := Some (0, k);
  amlkey_read k _ b _ := Some (0, b, k);
  amlkey_write k _ _ _ _ := Some (0, k);
  amlkey_hash k _ b := Some (0, b, k) |}.

Lemma efuse_uk_item : fuse_item (max := 16) efuse_uk 0 efuse_mac_item mac_info.
Proof. by split_and!. Defined.

Lemma unifykey_fuse_roundtrip_witness : exists s' s2,
  unifykey_write (eif := efuse_if toy_cmd yes junk zeros) yes efuse_uk (Some mac_bytes) 6 0 = Some (6, s') /\
  unifykey_read (eif := efuse_if toy_cmd yes junk zeros) yes 7 s' true 6 0 = Some (6, mac_bytes, s2).
Proof.
  destruct (unifykey_fuse_roundtrip toy_cmd yes junk junk_length zeros 7 efuse_uk 0 efuse_mac_item mac_info mac_bytes [])
    as (r & s' & H & Hr);
    [apply efuse_uk_item|done|done|done|by vm_compute|by intros []|by repeat constructor|done|done|].
  exists s'. assert (Hv := H). vm_compute in Hv. injection Hv as <- <-.
  destruct Hr as [[Hr _]|(_ & s2 & Hr)]; [exfalso; vm_compute in Hr; discriminate|].
  exists s2. split; [exact H|exact Hr].
Defined.

Lemma unifykey_fuse_no_info_witness : exists s',
  unifykey_ioctl_get_info (eif := efuse_if toy_cmd yes junk zeros) yes 7 efuse_uk true 0 0
    (mk_item_info 0 (str "mac" ++ fill 0 45) 0 0 0) = Some (6, None, s').
Proof.
  apply (unifykey_fuse_no_info toy_cmd yes junk junk_length zeros 7 efuse_uk 0 efuse_mac_item mac_info);
    [apply efuse_uk_item|done..].
Defined.

Lemma unifykey_fuse_colon_witness :
  unifykey_write (eif := efuse_if toy_cmd yes junk zeros) yes efuse_uk (Some [58; 1; 2; 3; 4; 5]) 6 0 = Some (-1, efuse_uk).
Proof.
  apply (unifykey_fuse_colon (max := 16) toy_cmd yes junk zeros efuse_uk 0 efuse_mac_item mac_info [1; 2; 3; 4; 5] (fill 0 7));
    [apply efuse_uk_item|done..].
Defined.

Lemma efuse_write_spec_witness : exists st',
  efuse_write toy_cmd yes junk toy_state (Some [1; 2; 3]) 3 15 = Some (- EINVAL, 15, st') /\ st' = toy_state.
Proof.
  destruct (efuse_write_spec toy_cmd yes junk junk_length toy_state [1; 2; 3] 3 15) as (r & st' & H & _ & Hout & _);
    [done|lia|simpl; lia|]. destruct (Hout ltac:(lia)) as [-> ->]. by exists toy_state.
Defined.

Lemma efuse_read_repeats_witness : exists bs st1 st2,
  efuse_read toy_cmd yes junk toy_state true 4 2 = Some (4, bs, 2, st1) /\
  efuse_read toy_cmd yes junk st1 true 4 2 = Some (4, bs, 2, st2).
Proof.
  destruct (efuse_read_repeats toy_cmd yes junk junk_length toy_state 4 2) as (bs & st1 & st2 & _ & H); [done|lia..|done|].
  by exists bs, st1, st2.
Defined.

(** The firmware answers three of five bytes. *)
Definition short_secmon : SecMon toy_mon := {|
  smc m f _ _ _ _ := (if f =? 1 then 3 else 0x2000, m);
  phys_read m a n := Some (fill 1 n);
  phys_write m a src := Some m |}.

Lemma efuse_read_trusts_firmware_witness :
  efuse_read_usr (mon := short_secmon) toy_cmd yes junk (mk_toy [] [] []) (fill 0 5) 5 0
  = Some (3, [1; 1; 1; 165; 165], mk_toy [] [] []).
Proof.
  apply (efuse_read_trusts_firmware (mon := short_secmon) toy_cmd yes junk junk_length (mk_toy [] [] []) (mk_toy [] [] []) 5 0 3 (fill 1 3) 0x2000);
    (done || lia).
Defined.

Lemma efuse_burn_ioctl_never_zero_witness :
  - ENOTTY < 0.
Proof.
  apply (efuse_burn_ioctl_never_zero (mon := toy_secmon) (mk_items 9 0 5 10 20)
    (mk_efuse (mk_key 0 TNull) (mk_check 0 1 (TLive [mk_lockable (str "k") 12])) 0 (mk_toy [] [] []))
    true (Some (mk_burn_info (str "k") 0)) true (- ENOTTY) (Some (mk_burn_info (str "k") 0)) 
    (mk_efuse (mk_key 0 TNull) (mk_check 0 1 (TLive [mk_lockable (str "k") 12])) 0 (mk_toy [] [] []))).
  reflexivity.
Defined.

Definition bad_keys : dt_table :=
  mk_dt_table true true (inl (-1)) (inr 1) true (fun _ => mk_dt_entry false false (inl (-1)) (inl (-1)) (inl (-1))).
Definition no_checks : dt_table :=
  mk_dt_table false false (inl (-1)) (inl (-1)) false (fun _ => mk_dt_entry false false (inl (-1)) (inl (-1)) (inl (-1))).
Definition bad_env : efuse_probe_env :=
  mk_fuse_env true None (inr 1) (inr 2) (inr 3) (inr 4) (inr 5) (inl (-1)) None (inl (-1)) bad_keys no_checks 0 0 0 0.
Definition fresh_driver : efuse_driver toy_mon :=
  mk_efuse_driver toy_cmd (mk_efuse (mk_key 0 TNull) (mk_check 0 0 TNull) 0 (mk_toy [] [] [])) None [].

Lemma efuse_probe_dangling_witness :
  (efuse_probe 32 (mk_items 0 0 0 0 0) 7 bad_env fresh_driver).1 = 0 /\
  efuse_getinfo (drv_state (efuse_probe 32 (mk_items 0 0 0 0 0) 7 bad_env fresh_driver).2) (str "mac") = None.
Proof.
  split; [reflexivity|].
  apply (efuse_probe_dangling (mon := toy_secmon) 32 (mk_items 0 0 0 0 0) 7 bad_env fresh_driver 1 (- EINVAL));
    (done || lia || (vm_compute; tauto)).
Defined.

Lemma checkburn_store_edges_witness :
  checkburn_store (mk_efuse_dev None 0 []) [0; 1] 1 = None.
Proof. apply (checkburn_store_edges (mk_efuse_dev None 0 []) [1] [65; 66]); [by repeat constructor|done]. Defined.

Lemma module_init_leaves_drivers_witness :
  efuse_unifykey_init (fun d => match d with DrvBurn => - EBUSY | _ => 0 end) [] = (- EBUSY, [DrvUnifykeys; DrvEfuse]).
Proof.
  by destruct (module_init_leaves_drivers (fun d => match d with DrvBurn => - EBUSY | _ => 0 end) eq_refl eq_refl ltac:(done)) as [H _].
Defined.

Lemma efuse_show_fits_witness : exists st',
  efuse_user_attr_show toy_cmd yes junk toy_state (str "usid") = Some (19, str "0x00: 00 00 00 00 " ++ [newline], st').
Proof.
  destruct (efuse_show_fits toy_cmd 16 toy_fuse toy_ok yes junk toy_state (str "usid") usid_info) as (bs & st' & Hb & H);
    [apply junk_length|done|by split_and!|by repeat constructor|done|done|].
  vm_compute in Hb. injection Hb as <-. exists st'. exact H.
Defined.
