(* ===== verification/CodecMm.v ===== *)
(** * Decoder memory (src/a311d/soc/amlogic/media/common/codec_mm/codec_mm.c)

    The manager hands out physically contiguous buffers from five sources: pages
    of the system, the contiguous area of the device (CMA), the reserved memory
    of the device, and two pools carved out of those, one protected for video
    (TVP) and one kept for fast start.  A buffer is shared by up to eight users
    and goes back to its source when the last one releases it.

    The allocators of the kernel, its page tables and the trusted environment
    are a class; a C pointer to a [struct codec_mm_s] is a number, and the
    structures that are alive are those of the list of the manager.  [None] as a
    result of a function is an access to a structure that is gone, through a
    null pointer or outside of an array.  Each definition is one call under the
    locks of the code. *)

From stdpp Require Import base numbers list option strings.
From S2P Require Import Prelude KText.

Definition PAGE_SHIFT : Z := 12.
Definition SZ_1M : Z := 0x100000.
Definition RESERVE_MM_ALIGNED_2N : Z := 17.
Definition RES_MEM_FLAGS_HAVE_MAPED : Z := 4.
Definition TVP_MAX_SLOT : nat := 8.
Definition DEFAULT_TVP_SIZE_FOR_4K : Z := 236 * SZ_1M.
Definition DEFAULT_TVP_SIZE_FOR_NO4K : Z := 160 * SZ_1M.

Definition CODEC_MM_FLAGS_DMA : Z := 1.
Definition CODEC_MM_FLAGS_CPU : Z := 2.
Definition CODEC_MM_FLAGS_TVP : Z := 4.
Definition CODEC_MM_FLAGS_RESERVED : Z := 0x100.
Definition CODEC_MM_FLAGS_CMA : Z := 0x200.
Definition CODEC_MM_FLAGS_CMA_FIRST : Z := 0x400.
Definition CODEC_MM_FLAGS_FOR_LOCAL_MGR : Z := 0x8000000.
Definition CODEC_MM_FLAGS_FOR_SCATTER : Z := 0x10000000.
Definition CODEC_MM_FLAGS_FOR_PHYS_VMAPED : Z := 0x20000000.
Definition CODEC_MM_FLAGS_FROM_MASK : Z := 7.
Definition CODEC_MM_FLAGS_DMA_CPU : Z := 3.

(** The values of [from_flags]; 0 before an allocation was tried. *)
Definition FROM_PAGES : Z := 2.
Definition FROM_REVERSED : Z := 3.
Definition FROM_CMA : Z := 4.
Definition FROM_TVP : Z := 5.
Definition FROM_CMA_RES : Z := 6.
Definition FROM_COHERENT : Z := 7.

Definition flag (flags f : Z) : bool := c_true (Z.land flags f).
Definition CODEC_MM_FOR_DMA_ONLY (flags : Z) : bool := Z.land flags CODEC_MM_FLAGS_FROM_MASK =? CODEC_MM_FLAGS_DMA.

(** [ALIGN] and [PAGE_ALIGN] of an [int], and [MM_ALIGN_DOWN]. *)
Definition align_int (x a : Z) : Z := s32 (Z.land (x + (a - 1)) (Z.lnot (a - 1))).
Definition PAGE_ALIGN (x : Z) : Z := align_int x PAGE_SIZE.
Definition MM_ALIGN_DOWN (addr size : Z) : Z := Z.land addr (Z.lnot (size - 1)).

(** [get_order]: the power of two of pages that holds a size. *)
Definition get_order (size : Z) : Z :=
  let n := u64 size in if n =? 0 then 52 else Z.log2_up ((n + 4095) / 4096).

(** ** State *)

Record codec_mm_s := mk_mm {
  owner : list (option bytes);
  ins_id : Z;
  ins_buffer_id : Z;
  vbuffer : Z;
  mem_handle : Z;
  from_ext : option Z;
  phy_addr : Z;
  buffer_size : Z;
  page_count : Z;
  align2n : Z;
  flags : Z;
  from_flags : Z;
  use_cnt : Z;
  mem_id : Z;
  tvp_handle : Z }.

(** The pool of protected memory, and the one for fast start: the sizes allocated
    from them are with the other counters. *)
Record extpool_mgt_s := mk_pool {
  gen_pool : list (option Z);
  mm : list (option Z);
  slot_num : Z;
  total_size : Z }.

Record mm_counters := mk_counters {
  total_alloced_size : Z;
  max_used_mem_size : Z;
  alloced_res_size : Z;
  alloced_cma_size : Z;
  alloced_sys_size : Z;
  alloced_tvp_size : Z;
  alloced_cma_res_size : Z;
  alloced_for_sc_size : Z;
  alloced_for_sc_cnt : Z;
  alloced_from_coherent : Z;
  phys_vmaped_page_cnt : Z }.

(** What is set when the manager starts, and the variables of the module. *)
Record mm_config := mk_config {
  res_pool : option Z;
  rmem_base : Z;
  rmem_size : Z;
  total_codec_mem_size : Z;
  total_cma_size : Z;
  total_reserved_size : Z;
  alloc_from_sys_pages_max : Z;
  enable_kmalloc_on_nomem : Z;
  res_mem_flags : Z;
  debug_mode : Z;
  tvp_mode : Z;
  default_tvp_size : Z;
  default_tvp_4k_size : Z;
  default_cma_res_size : Z }.

Record codec_mm_mgt_s := mk_mgt {
  mem_list : list (Z * codec_mm_s);
  cnt : mm_counters;
  tvp_pool : extpool_mgt_s;
  cma_res_pool : extpool_mgt_s;
  cfg : mm_config;
  global_memid : Z;
  tvp_enable : Z;
  fastplay_enable : Z;
  tvp_user_count : Z }.

(** ** The kernel below *)

(** An allocation answers [None] where the kernel answers NULL.  Sizes of pages
    are given by their order, of the contiguous area by the number of pages. *)
Class MmEnv (W : Type) := {
  kmalloc_mm : W -> option Z * W;
  kfree_mm : W -> Z -> W;
  get_free_pages : W -> Z -> option Z * W;
  free_pages : W -> Z -> Z -> W;
  dma_alloc_from_contiguous : W -> Z -> Z -> option Z * W;
  dma_release_from_contiguous : W -> Z -> Z -> W;
  gen_pool_create : W -> option Z * W;
  gen_pool_add : W -> Z -> Z -> Z -> Z * W;
  gen_pool_destroy : W -> Z -> W;
  gen_pool_alloc : W -> Z -> Z -> option Z * W;
  gen_pool_free : W -> Z -> Z -> Z -> W;
  gen_pool_avail : W -> Z -> Z;
  gen_pool_size : W -> Z -> Z;
  virt_to_phys : Z -> Z;
  phys_to_virt : Z -> Z;
  page_to_phys : Z -> Z;
  phys_to_page : Z -> Z;
  page_high : Z -> bool;
  vmap : W -> list Z -> option Z * W;
  vunmap : W -> Z -> W;
  is_vmalloc_addr : Z -> bool;
  page_address : Z -> Z;
  pte_there : W -> Z -> bool;
  set_pte : W -> Z -> option Z -> W;
  tee_protect_tvp_mem : W -> Z -> Z -> Z * Z * W;
  tee_unprotect_tvp_mem : W -> Z -> W;
  cma_base : Z }.

Section CodecMm.
Context {W : Type} {env : MmEnv W}.

Record mm_state := mk_st { mgt : codec_mm_mgt_s; world : W }.
Implicit Types s : mm_state.
Implicit Types mem : codec_mm_s.

(** *** Access to the parts of the state *)

Definition with_list s l :=
  mk_st (mk_mgt l (cnt (mgt s)) (tvp_pool (mgt s)) (cma_res_pool (mgt s)) (cfg (mgt s)) (global_memid (mgt s))
    (tvp_enable (mgt s)) (fastplay_enable (mgt s)) (tvp_user_count (mgt s))) (world s).
Definition with_cnt s c :=
  mk_st (mk_mgt (mem_list (mgt s)) c (tvp_pool (mgt s)) (cma_res_pool (mgt s)) (cfg (mgt s)) (global_memid (mgt s))
    (tvp_enable (mgt s)) (fastplay_enable (mgt s)) (tvp_user_count (mgt s))) (world s).
Definition with_memid s i :=
  mk_st (mk_mgt (mem_list (mgt s)) (cnt (mgt s)) (tvp_pool (mgt s)) (cma_res_pool (mgt s)) (cfg (mgt s)) i
    (tvp_enable (mgt s)) (fastplay_enable (mgt s)) (tvp_user_count (mgt s))) (world s).
Definition with_tvp s e u :=
  mk_st (mk_mgt (mem_list (mgt s)) (cnt (mgt s)) (tvp_pool (mgt s)) (cma_res_pool (mgt s)) (cfg (mgt s))
    (global_memid (mgt s)) e (fastplay_enable (mgt s)) u) (world s).
Definition with_fastplay s f :=
  mk_st (mk_mgt (mem_list (mgt s)) (cnt (mgt s)) (tvp_pool (mgt s)) (cma_res_pool (mgt s)) (cfg (mgt s))
    (global_memid (mgt s)) (tvp_enable (mgt s)) f (tvp_user_count (mgt s))) (world s).
Definition with_world s (w : W) := mk_st (mgt s) w.

(** The two pools, by name. *)
Inductive pool_name := TVP | CMA_RES.
Definition pool_of s (p : pool_name) : extpool_mgt_s :=
  match p with TVP => tvp_pool (mgt s) | CMA_RES => cma_res_pool (mgt s) end.
Definition with_pool s (p : pool_name) (x : extpool_mgt_s) :=
  mk_st (mk_mgt (mem_list (mgt s)) (cnt (mgt s))
    (match p with TVP => x | CMA_RES => tvp_pool (mgt s) end)
    (match p with TVP => cma_res_pool (mgt s) | CMA_RES => x end)
    (cfg (mgt s)) (global_memid (mgt s)) (tvp_enable (mgt s)) (fastplay_enable (mgt s)) (tvp_user_count (mgt s))) (world s).

(** The structure behind a pointer; writing to it. *)
Fixpoint find_mm (l : list (Z * codec_mm_s)) (p : Z) : option codec_mm_s :=
  match l with
  | [] => None
  | (q, m) :: l => if q =? p then Some m else find_mm l p
  end.
Fixpoint update_mm (l : list (Z * codec_mm_s)) (p : Z) (m : codec_mm_s) : list (Z * codec_mm_s) :=
  match l with
  | [] => []
  | (q, m') :: l => if q =? p then (q, m) :: l else (q, m') :: update_mm l p m
  end.
Fixpoint remove_mm (l : list (Z * codec_mm_s)) (p : Z) : list (Z * codec_mm_s) :=
  match l with
  | [] => []
  | (q, m') :: l => if q =? p then l else (q, m') :: remove_mm l p
  end.

Definition codec_mm_valid_mm_locked s (p : Z) : bool :=
  match find_mm (mem_list (mgt s)) p with Some _ => true | None => false end.

(** ** Page tables *)

(** The pages from [addr] on, until one has no entry. *)
Fixpoint mmu_pages (w : W) (addr page : Z) (set : bool) (n : nat) : W :=
  match n with
  | O => w
  | S n =>
      if negb (pte_there w addr) then w
      else mmu_pages (set_pte w addr (if set then Some page else None)) (addr + PAGE_SIZE) (page + 1) set n
  end.

Definition cma_mmu_op (w : W) (page count : Z) (set : bool) : Z * W :=
  if (page =? 0) || page_high page then (- EINVAL, w)
  else (0, mmu_pages w (page_address page) page set (Z.to_nat count)).

(** ** Allocation *)

Definition codec_mm_alloc_pre_check_in s (need_size flags : Z) : Z :=
  let c := cfg (mgt s) in
  let n := cnt (mgt s) in
  let aligned_size := PAGE_ALIGN need_size in
  let bit (b : bool) (v : Z) := if b then v else 0 in
  let have_space :=
    Z.lor (bit (aligned_size <=? s32 (total_reserved_size c - alloced_res_size n)) 1)
   (Z.lor (bit (aligned_size <=? s32 (total_size (cma_res_pool (mgt s)) - alloced_cma_res_size n)) 1)
   (Z.lor (bit (aligned_size <=? s32 (total_cma_size c - alloced_cma_size n)) 2)
   (Z.lor (bit (u64 aligned_size / PAGE_SIZE <=? u64 (alloc_from_sys_pages_max c)) 4)
          (bit (aligned_size <=? s32 (total_size (tvp_pool (mgt s)) - alloced_tvp_size n)) 8)))) in
  let have_space := if c_true (Z.land flags 1) then Z.land have_space 8 else have_space in
  let d := debug_mode c in
  if c_true (Z.land d 0xf) then
    let have_space := Z.land have_space (Z.lnot (Z.land d 1)) in
    let have_space := Z.land have_space (Z.lnot (Z.land d 2)) in
    let have_space := Z.land have_space (Z.lnot (Z.land d 4)) in
    if c_true (Z.land d 8) && (Z.quot (total_codec_mem_size c) 2 <? total_alloced_size n) then 0 else have_space
  else have_space.

(** Tries the slots of a pool in order. *)
Fixpoint extpool_try (w : W) (pool : extpool_mgt_s) (size i : Z) (n : nat) : option (option (Z * Z) * W) :=
  match n with
  | O => Some (None, w)
  | S n =>
      slot ← aget (gen_pool pool) i;
      match slot with
      | None => Some (None, w)
      | Some p =>
          let '(handle, w) := gen_pool_alloc w p size in
          match handle with
          | Some h => Some (Some (h, p), w)
          | None => extpool_try w pool size (i + 1) n
          end
      end
  end.

(** The handle and the slot it comes from. *)
Definition codec_mm_extpool_alloc (w : W) (pool : extpool_mgt_s) (size : Z) : option (option (Z * Z) * W) :=
  extpool_try w pool size 0 (Z.to_nat (slot_num pool)).

Definition page_list (start : Z) (n : nat) : list Z := (fun i => phys_to_page (start + Z.of_nat i * PAGE_SIZE)) <$> seq 0 n.

(** A virtual address for physical memory; 0 where there is none. *)
Definition codec_mm_vmap (w : W) (addr size : Z) : Z * W :=
  if negb (page_high (phys_to_page addr)) then (phys_to_virt addr, w)
  else
    let offset := addr mod PAGE_SIZE in
    let page_start := addr - offset in
    let npages := u32 (size + offset + (PAGE_SIZE - 1)) / PAGE_SIZE in
    let '(v, w) := vmap w (page_list page_start (Z.to_nat npages)) in
    match v with Some v => (v + offset, w) | None => (0, w) end.

Definition codec_mm_unmap_phyaddr (w : W) (vaddr : Z) : W :=
  if is_vmalloc_addr vaddr then vunmap w (MM_ALIGN_DOWN vaddr PAGE_SIZE) else w.

(** Fields of a buffer that an allocation sets. *)
Definition set_place mem (vbuf handle : Z) (ext : option Z) (phy size flgs from : Z) : codec_mm_s :=
  mk_mm (owner mem) (ins_id mem) (ins_buffer_id mem) vbuf handle ext phy size (page_count mem) (align2n mem) flgs from
    (use_cnt mem) (mem_id mem) (tvp_handle mem).
(** The attempt failed: [mem_handle] is NULL. *)
Definition no_place mem (from : Z) : codec_mm_s :=
  set_place mem (vbuffer mem) 0 (from_ext mem) (phy_addr mem) (buffer_size mem) (flags mem) from.

(** Physical addresses are narrowed to 32 bits on the way to the mapping. *)
Definition codec_mm_map_phyaddr (w : W) mem : codec_mm_s * W :=
  let phys := u32 (phy_addr mem) in
  let set vaddr flgs :=
    set_place mem vaddr (mem_handle mem) (from_ext mem) (phy_addr mem) (buffer_size mem) flgs (from_flags mem) in
  if negb (page_high (phys_to_page phys)) then (set (phys_to_virt phys) (flags mem), w)
  else
    let '(vaddr, w) := codec_mm_vmap w phys (u32 (buffer_size mem)) in
    (set vaddr (Z.lor (flags mem) CODEC_MM_FLAGS_FOR_PHYS_VMAPED), w).

(** *** The attempts of one pass, each with its success *)

Definition try_pages (w : W) mem : bool * codec_mm_s * W :=
  let '(h, w) := get_free_pages w (get_order (buffer_size mem)) in
  match h with
  | Some h => (true, set_place mem h h (from_ext mem) (virt_to_phys h) (buffer_size mem) (flags mem) FROM_PAGES, w)
  | None => (false, no_place mem FROM_PAGES, w)
  end.

Definition try_cma (w : W) (order : Z) (map_cpu : bool) mem : bool * codec_mm_s * W :=
  let '(h, w) := dma_alloc_from_contiguous w (page_count mem) order in
  match h with
  | Some h =>
      let at_ v := set_place mem v h (from_ext mem) (page_to_phys h) (buffer_size mem) (flags mem) FROM_CMA in
      if map_cpu then
        if flag (flags mem) CODEC_MM_FLAGS_CPU then let '(mem, w) := codec_mm_map_phyaddr w (at_ (vbuffer mem)) in (true, mem, w)
        else (true, at_ (vbuffer mem), w)
      else (true, at_ h, w)
  | None => (false, no_place mem FROM_CMA, w)
  end.

Definition try_reserved (w : W) (pool : Z) mem : bool * codec_mm_s * W :=
  let size := align_int (buffer_size mem) (2 ^ RESERVE_MM_ALIGNED_2N) in
  let '(h, w) := gen_pool_alloc w pool size in
  match h with
  | Some h => (true, set_place mem 0 h (from_ext mem) h size (flags mem) FROM_REVERSED, w)
  | None => (false, no_place mem FROM_REVERSED, w)
  end.

Definition try_ext (w : W) (pool : extpool_mgt_s) (from : Z) mem : option (bool * codec_mm_s * W) :=
  let size := align_int (buffer_size mem) (2 ^ RESERVE_MM_ALIGNED_2N) in
  '(r, w) ← codec_mm_extpool_alloc w pool size;
  match r with
  | Some (h, p) => Some (true, set_place mem 0 h (Some p) h size (flags mem) from, w)
  | None => Some (false, no_place mem from, w)
  end.

(** One attempt after the other; [break] at the first that succeeds. *)
Definition attempt (c : bool) (f : W -> codec_mm_s -> option (bool * codec_mm_s * W))
    (next : W -> codec_mm_s -> option (bool * codec_mm_s * W)) (w : W) mem : option (bool * codec_mm_s * W) :=
  if c then
    '(ok, mem, w) ← f w mem;
    if (ok : bool) then Some (true, mem, w) else next w mem
  else next w mem.

(** The sources a buffer may come from, before and after the look at free space. *)
Definition can_from s mem : bool * bool * bool * bool :=
  let c := cfg (mgt s) in
  let f := flags mem in
  let res :=
    ((bool_decide (res_pool c <> None) || (0 <? total_size (cma_res_pool (mgt s)))) && negb (flag f CODEC_MM_FLAGS_CMA))
    || (flag f CODEC_MM_FLAGS_RESERVED || CODEC_MM_FOR_DMA_ONLY f
        || (flag f CODEC_MM_FLAGS_CPU && flag (res_mem_flags c) RES_MEM_FLAGS_HAVE_MAPED)) in
  let cma := ((0 <? total_cma_size c) && negb (flag f CODEC_MM_FLAGS_RESERVED)) || flag f CODEC_MM_FLAGS_CMA in
  let sys := flag f CODEC_MM_FLAGS_DMA_CPU && (page_count mem <=? alloc_from_sys_pages_max c) in
  let tvp := flag f CODEC_MM_FLAGS_TVP in
  if tvp then (false, false, false, true) else (res, cma, sys, false).

(** The single pass over the sources. *)
Definition alloc_pass s (res cma tvp : bool) mem : option (bool * codec_mm_s * W) :=
  let c := cfg (mgt s) in
  let p := cma_res_pool (mgt s) in
  let align_2n := if align2n mem <? PAGE_SHIFT then PAGE_SHIFT else align2n mem in
  let order := align_2n - PAGE_SHIFT in
  let small := flag (flags mem) CODEC_MM_FLAGS_DMA_CPU && (page_count mem <=? alloc_from_sys_pages_max c)
               && (align_2n <=? PAGE_SHIFT) in
  attempt small (fun w mem => Some (try_pages w mem))
  (attempt (flag (flags mem) CODEC_MM_FLAGS_CMA_FIRST && cma) (fun w mem => Some (try_cma w order false mem))
  (attempt (res && bool_decide (res_pool c <> None) && (align_2n <=? RESERVE_MM_ALIGNED_2N))
     (fun w mem => pool ← res_pool c; Some (try_reserved w pool mem))
  (attempt (res && ((0 <? total_size p) && (s32 (alloced_cma_res_size (cnt (mgt s)) + buffer_size mem) <? total_size p)))
     (fun w mem => try_ext w p FROM_CMA_RES mem)
  (attempt cma (fun w mem => Some (try_cma w order true mem))
  (attempt (tvp && (align_2n <=? RESERVE_MM_ALIGNED_2N)) (fun w mem => try_ext w (tvp_pool (mgt s)) FROM_TVP mem)
  (attempt (flag (flags mem) CODEC_MM_FLAGS_DMA_CPU && c_true (enable_kmalloc_on_nomem c) && negb small)
     (fun w mem => Some (try_pages w mem))
  (fun w mem => Some (false, mem, w)))))))) (world s) mem.

Definition codec_mm_alloc_in s mem : option (Z * codec_mm_s * W) :=
  let '(res, cma, sys, tvp) := can_from s mem in
  let have_space := codec_mm_alloc_pre_check_in s (buffer_size mem) 0 in
  if have_space =? 0 then Some (-10001, mem, world s)
  else
    let res := res && flag have_space 1 in
    let cma := cma && flag have_space 2 in
    let sys := sys && flag have_space 4 in
    let tvp := tvp && flag have_space 8 in
    if negb res && negb cma && negb sys && negb tvp then Some (-10002, mem, world s)
    else
      '(ok, mem, w) ← alloc_pass s res cma tvp mem;
      if c_true (mem_handle mem) then Some (0, mem, w) else Some (-10003, mem, w).

(** *** The books *)

Definition add_if (b : bool) (x n : Z) : Z := if b then s32 (x + n) else x.

(** What the switch and the tests after it count for a new buffer. *)
Definition count_alloc (n : mm_counters) mem : mm_counters :=
  let sz := buffer_size mem in
  let from x := from_flags mem =? x in
  let global := negb (flag (flags mem) CODEC_MM_FLAGS_FOR_LOCAL_MGR) in
  let sc := flag (flags mem) CODEC_MM_FLAGS_FOR_SCATTER in
  let total := add_if global (total_alloced_size n) sz in
  mk_counters total
    (if global && (max_used_mem_size n <? total) then total else max_used_mem_size n)
    (add_if (from FROM_REVERSED) (alloced_res_size n) sz)
    (add_if (from FROM_CMA) (alloced_cma_size n) sz)
    (add_if (from FROM_PAGES) (alloced_sys_size n) sz)
    (add_if (from FROM_TVP) (alloced_tvp_size n) sz)
    (add_if (from FROM_CMA_RES) (alloced_cma_res_size n) sz)
    (add_if sc (alloced_for_sc_size n) sz)
    (add_if sc (alloced_for_sc_cnt n) 1)
    (alloced_from_coherent n)
    (add_if (flag (flags mem) CODEC_MM_FLAGS_FOR_PHYS_VMAPED) (phys_vmaped_page_cnt n) (page_count mem)).

(** What [codec_mm_free_in] takes off. *)
Definition count_free (n : mm_counters) mem : mm_counters :=
  let sz := buffer_size mem in
  let from x := from_flags mem =? x in
  let sc := flag (flags mem) CODEC_MM_FLAGS_FOR_SCATTER in
  mk_counters
    (add_if (negb (flag (flags mem) CODEC_MM_FLAGS_FOR_LOCAL_MGR)) (total_alloced_size n) (- sz))
    (max_used_mem_size n)
    (add_if (from FROM_REVERSED) (alloced_res_size n) (- sz))
    (add_if (from FROM_CMA) (alloced_cma_size n) (- sz))
    (add_if (from FROM_PAGES) (alloced_sys_size n) (- sz))
    (add_if (from FROM_TVP) (alloced_tvp_size n) (- sz))
    (add_if (from FROM_CMA_RES) (alloced_cma_res_size n) (- sz))
    (add_if sc (alloced_for_sc_size n) (- sz))
    (add_if sc (alloced_for_sc_cnt n) (-1))
    (alloced_from_coherent n)
    (add_if (flag (flags mem) CODEC_MM_FLAGS_FOR_PHYS_VMAPED) (phys_vmaped_page_cnt n) (- page_count mem)).

(** [codec_mm_scatter_free_all_ignorecache] of codec_mm_scatter.c, which gives
    cached buffers back to this manager. *)
Variable scatter_free_all : mm_state -> Z -> option mm_state.

(** The structure as [codec_mm_alloc] fills it. *)
Definition fresh_mm (size align flgs : Z) : codec_mm_s :=
  let bs := PAGE_ALIGN size in
  mk_mm (replicate 8 None) 0 0 0 0 None 0 bs (s32 (u64 bs / PAGE_SIZE)) align flgs 0 0 0 0.

(** [memflags] with the source the caller asked for. *)
Definition alloc_flags s (memflags : Z) : Z :=
  let f := if c_true (Z.land (tvp_enable (mgt s)) 3) && flag memflags CODEC_MM_FLAGS_TVP
           then Z.lor (Z.land memflags (Z.lnot CODEC_MM_FLAGS_FROM_MASK)) CODEC_MM_FLAGS_TVP else memflags in
  if Z.land f CODEC_MM_FLAGS_FROM_MASK =? 0 then Z.lor f CODEC_MM_FLAGS_DMA else f.

(** The structure joins the list with one user. *)
Definition admit_mm s (p : Z) (nm : bytes) mem : mm_state :=
  let mem := mk_mm (<[0%nat := Some nm]> (owner mem)) (ins_id mem) (ins_buffer_id mem) (vbuffer mem) (mem_handle mem)
    (from_ext mem) (phy_addr mem) (buffer_size mem) (page_count mem) (align2n mem) (flags mem) (from_flags mem) 1
    (global_memid (mgt s)) (tvp_handle mem) in
  with_cnt (with_memid (with_list s (mem_list (mgt s) ++ [(p, mem)])) (s32 (global_memid (mgt s) + 1)))
    (count_alloc (cnt (mgt s)) mem).

(** Returns the pointer, [None] for NULL. *)
Definition codec_mm_alloc s (nm : bytes) (size align memflags : Z) : option (option Z * mm_state) :=
  let '(ptr, w) := kmalloc_mm (world s) in
  let s := with_world s w in
  match ptr with
  | None => Some (None, s)
  | Some p =>
      let flgs := alloc_flags s memflags in
      '(ret, mem, w) ← codec_mm_alloc_in s (fresh_mm size align flgs);
      let s := with_world s w in
      '(ret, mem, s) ←
        (if (ret <? 0) && (0 <? alloced_for_sc_cnt (cnt (mgt s))) && negb (flag flgs CODEC_MM_FLAGS_FOR_SCATTER) then
           s ← scatter_free_all s (if flag flgs CODEC_MM_FLAGS_TVP then 2 else 1);
           '(ret, mem, w) ← codec_mm_alloc_in s mem;
           Some (ret, mem, with_world s w)
         else Some (ret, mem, s));
      if ret <? 0 then Some (None, with_world s (kfree_mm (world s) p))
      else Some (Some p, admit_mm s p nm mem)
  end.

(** ** Release *)

(** The first part of [codec_mm_free_in]: the memory goes back to its source. *)
Definition give_back s mem : option W :=
  let w := world s in
  let f := from_flags mem in
  if f =? FROM_CMA then
    let w := if flag (flags mem) CODEC_MM_FLAGS_FOR_PHYS_VMAPED then codec_mm_unmap_phyaddr w (vbuffer mem) else w in
    Some (dma_release_from_contiguous w (mem_handle mem) (page_count mem))
  else if f =? FROM_REVERSED then
    pool ← res_pool (cfg (mgt s));
    Some (gen_pool_free w pool (mem_handle mem) (buffer_size mem))
  else if (f =? FROM_TVP) || (f =? FROM_CMA_RES) then
    pool ← from_ext mem;
    Some (gen_pool_free w pool (mem_handle mem) (buffer_size mem))
  else if f =? FROM_PAGES then Some (free_pages w (mem_handle mem) (get_order (buffer_size mem)))
  else Some w.

(** [tvp_handle] is unsigned: the mark -1 is greater than 0. *)
Fixpoint unprotect_slots s (i : Z) (n : nat) : option mm_state :=
  match n with
  | O => Some s
  | S n =>
      slot ← aget (mm (tvp_pool (mgt s))) i;
      p ← slot;
      m ← find_mm (mem_list (mgt s)) p;
      let s :=
        if 0 <? u32 (tvp_handle m) then
          let m' := mk_mm (owner m) (ins_id m) (ins_buffer_id m) (vbuffer m) (mem_handle m) (from_ext m) (phy_addr m)
            (buffer_size m) (page_count m) (align2n m) (flags m) (from_flags m) (use_cnt m) (mem_id m) (u32 (-1)) in
          with_world (with_list s (update_mm (mem_list (mgt s)) p m')) (tee_unprotect_tvp_mem (world s) (tvp_handle m))
        else s in
      unprotect_slots s (i + 1) n
  end.

Definition codec_mm_tvp_pool_unprotect s : option (Z * mm_state) :=
  if alloced_tvp_size (cnt (mgt s)) <=? 0 then
    s ← unprotect_slots s 0 (Z.to_nat (slot_num (tvp_pool (mgt s))));
    Some (0, s)
  else Some (-1, s).

(** The owners after one of the users, [nm], is gone: the last one takes the
    places of its name. *)
Definition drop_owner (l : list (option bytes)) (nm : bytes) (index : Z) : option (list (option bytes)) :=
  max_owner ← aget l index;
  aset (imap (fun i o => if (Z.of_nat i <? index) && bool_decide (o = Some nm) then max_owner else o) l) index None.

Definition with_users mem (o : list (option bytes)) (n : Z) : codec_mm_s :=
  mk_mm o (ins_id mem) (ins_buffer_id mem) (vbuffer mem) (mem_handle mem) (from_ext mem) (phy_addr mem) (buffer_size mem)
    (page_count mem) (align2n mem) (flags mem) (from_flags mem) n (mem_id mem) (tvp_handle mem).

(** [codec_mm_release], with what it does to a buffer without users. *)
Definition release_with (free_in : mm_state -> codec_mm_s -> option mm_state) s (p : Z) (nm : bytes) : option mm_state :=
  match find_mm (mem_list (mgt s)) p with
  | None => Some s
  | Some mem =>
      let index := s32 (use_cnt mem - 1) in
      o ← drop_owner (owner mem) nm index;
      let mem := with_users mem o index in
      if index =? 0 then
        s ← free_in (with_list s (remove_mm (mem_list (mgt s)) p)) mem;
        Some (with_world s (kfree_mm (world s) p))
      else Some (with_list s (update_mm (mem_list (mgt s)) p mem))
  end.

Definition set_slot (x : extpool_mgt_s) (i : Z) (g m : option Z) : option extpool_mgt_s :=
  gs ← aset (gen_pool x) i g;
  ms ← aset (mm x) i m;
  Some (mk_pool gs ms (slot_num x) (total_size x)).

Definition TVP_POOL_NAME : bytes := str "TVP_POOL".
Definition CMA_RES_POOL_NAME : bytes := str "CMA_RES".

(** One turn of the loop of [codec_mm_extpool_pool_release]; the answer says
    whether the slot was left because memory of it is in use.  Whatever the
    pool, the size is taken off the protected one. *)
Definition release_slot (release : mm_state -> Z -> bytes -> option mm_state) s (p : pool_name) (i : Z) : option (bool * mm_state) :=
  g ← aget (gen_pool (pool_of s p)) i;
  m ← aget (mm (pool_of s p)) i;
  '(busy, size, s) ←
    (match g with
     | None => Some (false, 0, s)
     | Some g =>
         if negb (gen_pool_avail (world s) g =? gen_pool_size (world s) g) then Some (true, 0, s)
         else
           let size := s32 (gen_pool_size (world s) g) in
           let s := with_world s (gen_pool_destroy (world s) g) in
           match m with
           | None => Some (false, size, s)
           | Some q =>
               mem ← find_mm (mem_list (mgt s)) q;
               let page := if from_flags mem =? FROM_CMA_RES then phys_to_page (mem_handle mem) else mem_handle mem in
               let '(_, w) := cma_mmu_op (world s) page (page_count mem) true in
               s ← release (with_world s w) q TVP_POOL_NAME;
               Some (false, size, s)
           end
     end);
  if (busy : bool) then Some (true, s)
  else
    let t := tvp_pool (mgt s) in
    let s := with_pool s TVP (mk_pool (gen_pool t) (mm t) (slot_num t) (s32 (total_size t - size))) in
    x ← set_slot (pool_of s p) i None None;
    Some (false, with_pool s p x).

Fixpoint release_slots (release : mm_state -> Z -> bytes -> option mm_state) s (p : pool_name) (i ignored : Z) (n : nat)
  : option (Z * mm_state) :=
  match n with
  | O => Some (ignored, s)
  | S n =>
      '(busy, s) ← release_slot release s p i;
      release_slots release s p (i + 1) (if (busy : bool) then ignored + 1 else ignored) n
  end.

(** The loop that moves the slots that are left to the front. *)
Fixpoint compact_slots (x : extpool_mgt_s) (before i : Z) (n : nat) : option extpool_mgt_s :=
  match n with
  | O => Some x
  | S n =>
      g ← aget (gen_pool x) i;
      '(x, before) ←
        (match g with
         | Some _ =>
             if before <? i then
               m ← aget (mm x) i;
               x ← set_slot x before g m;
               x ← set_slot x i None None;
               Some (x, before + 1)
             else Some (x, before)
         | None => Some (x, before)
         end);
      g ← aget (gen_pool x) i;
      compact_slots x (match g with None => if i <? before then i else before | Some _ => before end) (i + 1) n
  end.

Definition pool_release_with (release : mm_state -> Z -> bytes -> option mm_state) s (p : pool_name) : option (Z * mm_state) :=
  let n := Z.to_nat (slot_num (pool_of s p)) in
  '(ignored, s) ← release_slots release s p 0 0 n;
  let x := pool_of s p in
  x ← (if 0 <? ignored then compact_slots x (slot_num x + 1) 0 n else Some x);
  Some (ignored, with_pool s p (mk_pool (gen_pool x) (mm x) ignored (total_size x))).

(** Giving back the last buffer of the protected pool releases the pool when it
    has no users, and with it the buffers the pool is made of: the recursion is
    bounded by [depth]. *)
Fixpoint free_in (depth : nat) s mem : option mm_state :=
  match depth with
  | O => None
  | S depth =>
      w ← give_back s mem;
      let s := with_cnt (with_world s w) (count_free (cnt (mgt s)) mem) in
      if (from_flags mem =? FROM_TVP) && (1 <=? tvp_mode (cfg (mgt s))) && (tvp_user_count (mgt s) =? 0) then
        '(ret, s) ← codec_mm_tvp_pool_unprotect s;
        if ret =? 0 then
          '(_, s) ← pool_release_with (release_with (free_in depth)) s TVP;
          Some (with_tvp s 0 (tvp_user_count (mgt s)))
        else Some s
      else Some s
  end.

(** The pools are made of buffers from other sources, so one level below a
    buffer of a pool is enough. *)
Definition DEPTH : nat := 3.
Definition codec_mm_free_in s mem : option mm_state := free_in DEPTH s mem.
Definition codec_mm_release s (p : Z) (nm : bytes) : option mm_state := release_with codec_mm_free_in s p nm.
Definition codec_mm_extpool_pool_release s (p : pool_name) : option (Z * mm_state) := pool_release_with codec_mm_release s p.

Definition codec_mm_release_with_check s (p : Z) (nm : bytes) : option mm_state :=
  if codec_mm_valid_mm_locked s p then codec_mm_release s p nm else Some s.

(** ** Sharing *)

Definition codec_mm_has_owner s (p : Z) (nm : bytes) : bool :=
  match find_mm (mem_list (mgt s)) p with
  | None => false
  | Some mem => existsb (fun o => bool_decide (o = Some nm)) (take (Z.to_nat (use_cnt mem)) (owner mem))
  end.

(** The result is 0 on every path. *)
Definition codec_mm_request_shared_mem s (p : Z) (nm : bytes) : option (Z * mm_state) :=
  match find_mm (mem_list (mgt s)) p with
  | None => Some (0, s)
  | Some mem =>
      if 7 <? use_cnt mem then Some (0, s)
      else
        o ← aset (owner mem) (use_cnt mem) (Some nm);
        Some (0, with_list s (update_mm (mem_list (mgt s)) p (with_users mem o (use_cnt mem + 1))))
  end.

(** The last buffer of the list with the given value. *)
Definition codec_mm_get_by_val_off s (off : codec_mm_s -> Z) (val : Z) : option Z :=
  foldl (fun want '(p, m) => if off m =? val then Some p else want) None (mem_list (mgt s)).

(** The physical address, 0 when there is no memory. *)
Definition codec_mm_alloc_for_dma s (nm : bytes) (page_cnt align memflags : Z) : option (Z * mm_state) :=
  '(p, s) ← codec_mm_alloc s nm (s32 (Z.shiftl page_cnt PAGE_SHIFT)) align memflags;
  match p with
  | None => Some (0, s)
  | Some p => m ← find_mm (mem_list (mgt s)) p; Some (phy_addr m, s)
  end.

Definition codec_mm_alloc_for_dma_ex s (nm : bytes) (page_cnt align memflags ins buffer_id : Z) : option (Z * mm_state) :=
  '(p, s) ← codec_mm_alloc s nm (s32 (Z.shiftl page_cnt PAGE_SHIFT)) align memflags;
  match p with
  | None => Some (0, s)
  | Some p =>
      m ← find_mm (mem_list (mgt s)) p;
      let m' := mk_mm (owner m) ins buffer_id (vbuffer m) (mem_handle m) (from_ext m) (phy_addr m) (buffer_size m)
        (page_count m) (align2n m) (flags m) (from_flags m) (use_cnt m) (mem_id m) (tvp_handle m) in
      Some (phy_addr m, with_list s (update_mm (mem_list (mgt s)) p m'))
  end.

Definition codec_mm_free_for_dma s (nm : bytes) (addr : Z) : option (Z * mm_state) :=
  match codec_mm_get_by_val_off s phy_addr addr with
  | Some p => s ← codec_mm_release s p nm; Some (0, s)
  | None => Some (-1, s)
  end.

(** ** The pools *)

(** A buffer becomes the memory of the next slot. *)
Definition codec_mm_init_tvp_pool s (p : pool_name) (q : Z) : option (Z * mm_state) :=
  let '(pool, w) := gen_pool_create (world s) in
  let s := with_world s w in
  match pool with
  | None => Some (- ENOMEM, s)
  | Some g =>
      m ← find_mm (mem_list (mgt s)) q;
      let '(ret, w) := gen_pool_add (world s) g (phy_addr m) (buffer_size m) in
      let s := with_world s w in
      if ret <? 0 then Some (-1, with_world s (gen_pool_destroy (world s) g))
      else
        let m' := mk_mm (owner m) (ins_id m) (ins_buffer_id m) (vbuffer m) (mem_handle m) (from_ext m) (phy_addr m)
          (buffer_size m) (page_count m) (align2n m) (flags m) (from_flags m) (use_cnt m) (mem_id m) (u32 (-1)) in
        let s := with_list s (update_mm (mem_list (mgt s)) q m') in
        x ← set_slot (pool_of s p) (slot_num (pool_of s p)) (Some g) (Some q);
        Some (0, with_pool s p x)
  end.

Fixpoint protect_slots s (p : pool_name) (i ret : Z) (n : nat) : option (Z * mm_state) :=
  match n with
  | O => Some (ret, s)
  | S n =>
      slot ← aget (mm (pool_of s p)) i;
      q ← slot;
      m ← find_mm (mem_list (mgt s)) q;
      if u32 (tvp_handle m) =? u32 (-1) then
        let '(ret, h, w) := tee_protect_tvp_mem (world s) (u32 (phy_addr m)) (u32 (buffer_size m)) in
        let m' := mk_mm (owner m) (ins_id m) (ins_buffer_id m) (vbuffer m) (mem_handle m) (from_ext m) (phy_addr m)
          (buffer_size m) (page_count m) (align2n m) (flags m) (from_flags m) (use_cnt m) (mem_id m) h in
        protect_slots (with_world (with_list s (update_mm (mem_list (mgt s)) q m')) w) p (i + 1) (s32 ret) n
      else protect_slots s p (i + 1) ret n
  end.
Definition codec_mm_tvp_pool_protect s (p : pool_name) : option (Z * mm_state) :=
  protect_slots s p 0 0 (Z.to_nat (slot_num (pool_of s p))).

(** One turn of the loops of [codec_mm_extpool_pool_alloc]: a buffer of the size
    becomes a slot, or a smaller size is to be tried.  The answer is what the
    slot adds to the size of the pool, or [None] for another turn. *)
Definition pool_alloc_turn s (p : pool_name) (from_cma : bool) (size : Z) : option (option Z * mm_state) :=
  let for_tvp := match p with TVP => true | CMA_RES => false end in
  let nm := if for_tvp then TVP_POOL_NAME else CMA_RES_POOL_NAME in
  let kind := if from_cma then CODEC_MM_FLAGS_CMA else CODEC_MM_FLAGS_RESERVED in
  '(q, s) ← codec_mm_alloc s nm size RESERVE_MM_ALIGNED_2N (Z.lor CODEC_MM_FLAGS_FOR_LOCAL_MGR kind);
  match q with
  | None => Some (None, s)
  | Some q =>
      m ← find_mm (mem_list (mgt s)) q;
      let page := if from_flags m =? FROM_CMA_RES then phys_to_page (mem_handle m) else mem_handle m in
      let mmu s set := if from_cma && for_tvp then with_world s (cma_mmu_op (world s) page (page_count m) set).2 else s in
      let s := mmu s false in
      '(ret, s) ← codec_mm_init_tvp_pool s p q;
      if ret <? 0 then
        s ← codec_mm_release (mmu s true) q TVP_POOL_NAME;
        Some (Some 0, s)
      else
        let x := pool_of s p in
        Some (Some size, with_pool s p (mk_pool (gen_pool x) (mm x) (slot_num x + 1) (total_size x)))
  end.

Fixpoint pool_alloc_turns s (p : pool_name) (from_cma : bool) (size : Z) (n : nat) : option (Z * mm_state) :=
  match n with
  | O => Some (0, s)
  | S n =>
      '(r, s) ← pool_alloc_turn s p from_cma size;
      match r with
      | Some added => Some (added, s)
      | None =>
          let size := size - 4 * SZ_1M in
          if size <? 16 * SZ_1M then Some (0, s) else pool_alloc_turns s p from_cma size n
      end
  end.

(** The loops run eleven times at most. *)
Definition codec_mm_extpool_pool_alloc s (p : pool_name) (size : Z) : option (Z * mm_state) :=
  let for_tvp := match p with TVP => true | CMA_RES => false end in
  let alloced := total_size (pool_of s p) in
  let space := s32 (total_reserved_size (cfg (mgt s)) - alloced_res_size (cnt (mgt s))) in
  '(added, s) ←
    (if (0 <? space) && for_tvp then
       pool_alloc_turns s p false (MM_ALIGN_DOWN (Z.min (s32 (size - alloced)) space) RESERVE_MM_ALIGNED_2N) 11
     else Some (0, s));
  let alloced := s32 (alloced + added) in
  '(alloced, s) ←
    (if size <=? alloced then Some (alloced, s)
     else
       let space := s32 (total_cma_size (cfg (mgt s)) - alloced_cma_size (cnt (mgt s))) in
       if 0 <? space then
         '(added, s) ← pool_alloc_turns s p true (MM_ALIGN_DOWN (Z.min (s32 (size - alloced)) space) RESERVE_MM_ALIGNED_2N) 11;
         Some (s32 (alloced + added), s)
       else Some (alloced, s));
  let x := pool_of s p in
  let s := if 0 <? alloced then with_pool s p (mk_pool (gen_pool x) (mm x) (slot_num x) alloced) else s in
  s ← (if (1 <=? tvp_mode (cfg (mgt s))) && for_tvp then '(_, s) ← codec_mm_tvp_pool_protect s p; Some s else Some s);
  Some (alloced, s).

(** ** Protected playback *)

Definition codec_mm_enable_tvp s : option (Z * mm_state) :=
  if tvp_mode (cfg (mgt s)) =? 0 then Some (-1, s)
  else
    let ret := s32 (tvp_user_count (mgt s) + 1) in
    let s := with_tvp s (tvp_enable (mgt s)) ret in
    if ret =? 1 then
      '(_, s) ← codec_mm_extpool_pool_alloc s TVP (default_tvp_4k_size (cfg (mgt s)));
      Some (ret, with_tvp s 2 (tvp_user_count (mgt s)))
    else Some (ret, s).

Definition codec_mm_disable_tvp s : option (Z * mm_state) :=
  if tvp_mode (cfg (mgt s)) =? 0 then Some (-1, s)
  else
    let n := s32 (tvp_user_count (mgt s) - 1) in
    let s := with_tvp s (tvp_enable (mgt s)) n in
    let finish s := Some (0, if tvp_user_count (mgt s) <? 0 then with_tvp s (tvp_enable (mgt s)) 0 else s) in
    if n =? 0 then
      '(r, s) ← codec_mm_tvp_pool_unprotect s;
      if r =? 0 then
        '(ret, s) ← codec_mm_extpool_pool_release s TVP;
        Some (ret, with_tvp s 0 (tvp_user_count (mgt s)))
      else finish s
    else finish s.

(** [parsed] is what [kstrtoint] makes of the text.  [keep_free] is
    [codec_mm_keeper_free_all_keep] of the keeper, which releases the buffers it
    holds. *)
Definition tvp_enable_store (keep_free : mm_state -> Z -> option mm_state) s (parsed : option Z) (size : Z) : option (Z * mm_state) :=
  match parsed with
  | None => Some (- EINVAL, s)
  | Some val =>
      let mode := tvp_mode (cfg (mgt s)) in
      if mode =? 0 then
        s ← keep_free s 2;
        s ← scatter_free_all s 3;
        s ← (if val =? 0 then
               '(_, s) ← codec_mm_extpool_pool_release s TVP;
               Some (with_tvp s 0 (tvp_user_count (mgt s)))
             else if val =? 1 then
               '(_, s) ← codec_mm_extpool_pool_alloc s TVP (default_tvp_size (cfg (mgt s)));
               Some (with_tvp s 1 (tvp_user_count (mgt s)))
             else if val =? 2 then
               '(_, s) ← codec_mm_extpool_pool_alloc s TVP (default_tvp_4k_size (cfg (mgt s)));
               Some (with_tvp s 2 (tvp_user_count (mgt s)))
             else Some s);
        Some (size, s)
      else if mode =? 1 then
        s ← (if val =? 0 then '(_, s) ← codec_mm_disable_tvp s; Some s
             else if (val =? 1) || (val =? 2) then '(_, s) ← codec_mm_enable_tvp s; Some s
             else Some s);
        Some (size, s)
      else Some (size, s)
  end.

Definition fastplay_enable_store s (parsed : option Z) (size : Z) : option (Z * mm_state) :=
  match parsed with
  | None => Some (- EINVAL, s)
  | Some val =>
      s ← (if val =? 0 then
             '(_, s) ← codec_mm_extpool_pool_release s CMA_RES;
             Some (with_fastplay s 0)
           else if val =? 1 then
             '(_, s) ← codec_mm_extpool_pool_alloc s CMA_RES (default_cma_res_size (cfg (mgt s)));
             Some (with_fastplay s 1)
           else Some s);
      Some (size, s)
  end.

(** ** Addresses *)

(** The pairs of first and last address of the slots, for at most [victor_size]
    numbers; a slot without memory leaves its pair as it is. *)
Definition codec_mm_tvp_get_mem_resource s (res : list Z) (victor_size : Z) : option (Z * list Z) :=
  let x := tvp_pool (mgt s) in
  let n := Z.max 0 (Z.min (slot_num x) (Z.quot victor_size 2)) in
  res ← foldl (fun acc i =>
    res ← acc;
    slot ← aget (mm x) (Z.of_nat i);
    match slot with
    | None => Some res
    | Some q =>
        m ← find_mm (mem_list (mgt s)) q;
        res ← aset res (2 * Z.of_nat i) (phy_addr m);
        aset res (2 * Z.of_nat i + 1) (u64 (phy_addr m + buffer_size m - 1))
    end) (Some res) (seq 0 (Z.to_nat n));
  Some (n, res).

Fixpoint in_slots s (addr : Z) (i : Z) (n : nat) : option bool :=
  match n with
  | O => Some false
  | S n =>
      slot ← aget (mm (tvp_pool (mgt s))) i;
      match slot with
      | None => in_slots s addr (i + 1) n
      | Some q =>
          m ← find_mm (mem_list (mgt s)) q;
          if (phy_addr m <=? addr) && (addr <=? u64 (phy_addr m + buffer_size m - 1)) then Some true
          else in_slots s addr (i + 1) n
      end
  end.
Definition codec_mm_is_in_tvp_region s (addr : Z) : option bool :=
  in_slots s addr 0 (Z.to_nat (slot_num (tvp_pool (mgt s)))).

(** The first buffer of the list whose virtual memory holds the address; 0
    where there is none. *)
Definition codec_mm_search_phy_addr s (vaddr : Z) : Z :=
  match find (fun '(_, m) => (0 <=? vaddr - vbuffer m) && (vaddr - vbuffer m <? buffer_size m)) (mem_list (mgt s)) with
  | Some (_, m) => if c_true (phy_addr m) then phy_addr m + (vaddr - vbuffer m) else 0
  | None => 0
  end.

Definition codec_mm_search_vaddr s (addr : Z) : Z :=
  if negb (page_high (phys_to_page addr)) then phys_to_virt addr
  else
    match find (fun '(_, m) => (phy_addr m <=? addr) && (addr <? u64 (phy_addr m + buffer_size m))) (mem_list (mgt s)) with
    | Some (_, m) => if c_true (vbuffer m) then vbuffer m + (addr - phy_addr m) else 0
    | None => 0
    end.

Definition codec_mm_phys_to_virt s (addr : Z) : option Z :=
  let c := cfg (mgt s) in
  inside ← codec_mm_is_in_tvp_region s addr;
  if (inside : bool) then Some 0
  else if (rmem_base c <=? addr) && (addr <? rmem_base c + rmem_size c) then
    if flag (res_mem_flags c) RES_MEM_FLAGS_HAVE_MAPED then Some (codec_mm_search_vaddr s addr) else Some 0
  else Some (codec_mm_search_vaddr s addr).

(** ** Sizes *)

Definition codec_mm_get_total_size s : Z :=
  let c := cfg (mgt s) in
  let d := debug_mode c in
  let total := total_codec_mem_size c in
  if Z.land d 0xf =? 0 then total
  else
    let total := if c_true (Z.land d 8) then s32 (total - Z.quot (total_codec_mem_size c) 2) else total in
    let total := if c_true (Z.land d 1)
      then s32 (s32 (total - total_reserved_size c) - total_size (cma_res_pool (mgt s))) else total in
    let total := if c_true (Z.land d 2) then s32 (total - total_cma_size c) else total in
    if total <? 0 then 0 else total.

Definition codec_mm_get_free_size s : Z := s32 (codec_mm_get_total_size s - total_alloced_size (cnt (mgt s))).
Definition codec_mm_get_reserved_size s : Z := total_reserved_size (cfg (mgt s)).
Definition codec_mm_video_tvp_enabled s : Z := tvp_enable (mgt s).

Definition codec_mm_enough_for_size s (size with_wait : Z) : option (Z * mm_state) :=
  let have_mem := codec_mm_alloc_pre_check_in s size 0 in
  if (have_mem =? 0) && c_true with_wait && (0 <? alloced_for_sc_cnt (cnt (mgt s))) then
    s ← scatter_free_all s 1;
    if negb (codec_mm_alloc_pre_check_in s size 0 =? 0) then Some (1, s) else Some (0, s)
  else Some (1, s).

(** ** Memory of others *)

(** What it counts for: also for the contiguous area. *)
Definition count_coherent (n : mm_counters) (sz : Z) : mm_counters :=
  mk_counters (s32 (total_alloced_size n + sz)) (max_used_mem_size n) (alloced_res_size n)
    (s32 (alloced_cma_size n + sz)) (alloced_sys_size n) (alloced_tvp_size n) (alloced_cma_res_size n)
    (alloced_for_sc_size n) (alloced_for_sc_cnt n) (s32 (alloced_from_coherent n + sz)) (phys_vmaped_page_cnt n).

(** A buffer whose memory was allocated elsewhere is only listed. *)
Definition v4l_reqbufs_from_codec_mm s (nm : bytes) (addr size index : Z) : option Z * mm_state :=
  let buf_size := align_int (u32 size) PAGE_SIZE in
  let '(ptr, w) := kmalloc_mm (world s) in
  let s := with_world s w in
  match ptr with
  | None => (None, s)
  | Some p =>
      let mem := mk_mm (<[0%nat := Some nm]> (replicate 8 None)) 0 (s32 index) 0 0 None (u32 addr) buf_size
        (s32 (u64 buf_size / PAGE_SIZE)) 0 0 FROM_COHERENT 0 (global_memid (mgt s)) 0 in
      (Some p, with_cnt (with_memid (with_list s (mem_list (mgt s) ++ [(p, mem)])) (s32 (global_memid (mgt s) + 1)))
                 (count_coherent (cnt (mgt s)) buf_size))
  end.

Definition v4l_freebufs_back_to_codec_mm s (nm : bytes) (ptr : option Z) : option mm_state :=
  match ptr with
  | None => Some s
  | Some p =>
      mem ← find_mm (mem_list (mgt s)) p;
      o ← aget (owner mem) 0;
      let s :=
        if bool_decide (o = Some nm) && c_true (buffer_size mem) then
          with_cnt (with_list s (remove_mm (mem_list (mgt s)) p)) (count_coherent (cnt (mgt s)) (- buffer_size mem))
        else s in
      Some (with_world s (kfree_mm (world s) p))
  end.

(** ** Start *)

(** [rmem] is the reserved memory of the device, [cma_size] the size of its own
    contiguous area. *)
Definition codec_mm_mgt_init (w : W) (base size cma_size debug tmode : Z) : Z * mm_state :=
  let zero := mk_counters 0 0 0 0 0 0 0 0 0 0 0 in
  let pool0 := mk_pool (replicate TVP_MAX_SLOT None) (replicate TVP_MAX_SLOT None) 0 0 in
  let start c w := mk_st (mk_mgt [] zero pool0 pool0 c 0 0 0 0) w in
  let finish pool res_size resflags w :=
    let total := s32 (res_size + cma_size) in
    let tvp4k := s32 (total - SZ_1M * 2) in
    let tvp4k := if DEFAULT_TVP_SIZE_FOR_4K <? tvp4k then DEFAULT_TVP_SIZE_FOR_4K else tvp4k in
    let tvp := if DEFAULT_TVP_SIZE_FOR_NO4K <? total - SZ_1M * 2 then DEFAULT_TVP_SIZE_FOR_NO4K else tvp4k in
    (0, start (mk_config pool base size total cma_size res_size 4 0 resflags debug tmode tvp tvp4k cma_size) w) in
  if 0 <? size then
    let '(pool, w) := gen_pool_create w in
    match pool with
    | None => (- ENOMEM, start (mk_config None base size 0 0 0 4 0 0 debug tmode 0 0 0) w)
    | Some g =>
        let a := 2 ^ RESERVE_MM_ALIGNED_2N in
        let aligned_addr := Z.land (u64 (base + (a - 1))) (Z.lnot (a - 1)) in
        let aligned_size := s32 (size - s32 (aligned_addr - base)) in
        let '(_, w) := gen_pool_add w g aligned_addr aligned_size in
        finish (Some g) aligned_size RES_MEM_FLAGS_HAVE_MAPED w
    end
  else finish None 0 0 w.

End CodecMm.
Arguments mm_state : clear implicits.
