(* ===== verification/CodecMmLaws.v ===== *)
(** * The allocators under the manager of decoder memory

    What the kernel documents of its allocators ([MmLaws]), and a ledger that
    keeps these promises: pages and buffers at fresh addresses, a contiguous area
    of a given size and pools that know how much of them is handed out. *)

From stdpp Require Import base numbers list option strings sets.
From S2P Require Import Prelude KText CodecMm.

(** ** The allocators of the kernel *)

(** Memory in the hands of the manager: pages, a run of the contiguous area, or a
    piece of a pool. *)
Inductive chunk :=
| CPages (addr order : Z)
| CCma (page count : Z)
| CPool (pool addr size : Z).
#[export] Instance chunk_eq_dec : EqDecision chunk.
Proof. solve_decision. Defined.

(** What the kernel documents of its allocators: an allocation that succeeds
    hands out memory that is not NULL and was not handed out, and giving memory
    back takes exactly it.  The other operations leave the memory alone.
    [ptrs] are the structures allocated for buffers. *)
Class MmLaws {W : Type} (env : MmEnv W) (held : W -> list chunk) (ptrs : W -> list Z) : Prop := {
  law_kmalloc w r w' : kmalloc_mm w = (r, w') -> held w' = held w /\
    (match r with Some p => (p ∉ ptrs w) /\ ptrs w' = p :: ptrs w | None => ptrs w' = ptrs w end);
  law_kfree w p : held (kfree_mm w p) = held w /\ ptrs (kfree_mm w p) = filter (fun q => q <> p) (ptrs w);
  law_pages w o r w' : get_free_pages w o = (r, w') -> ptrs w' = ptrs w /\
    match r with Some h => h <> 0 /\ held w' = CPages h o :: held w | None => held w' = held w end;
  law_free_pages w h o : CPages h o ∈ held w ->
    Permutation (held w) (CPages h o :: held (free_pages w h o)) /\ ptrs (free_pages w h o) = ptrs w;
  law_cma w n o r w' : dma_alloc_from_contiguous w n o = (r, w') -> ptrs w' = ptrs w /\
    match r with Some h => h <> 0 /\ held w' = CCma h n :: held w | None => held w' = held w end;
  law_cma_free w h n : CCma h n ∈ held w ->
    Permutation (held w) (CCma h n :: held (dma_release_from_contiguous w h n)) /\
    ptrs (dma_release_from_contiguous w h n) = ptrs w;
  law_pool w p n r w' : gen_pool_alloc w p n = (r, w') -> ptrs w' = ptrs w /\
    match r with Some h => h <> 0 /\ held w' = CPool p h n :: held w | None => held w' = held w end;
  law_pool_free w p h n : CPool p h n ∈ held w ->
    Permutation (held w) (CPool p h n :: held (gen_pool_free w p h n)) /\ ptrs (gen_pool_free w p h n) = ptrs w;
  law_create w r w' : gen_pool_create w = (r, w') -> held w' = held w /\ ptrs w' = ptrs w;
  law_add w p a n r w' : gen_pool_add w p a n = (r, w') -> held w' = held w /\ ptrs w' = ptrs w;
  law_destroy w p : held (gen_pool_destroy w p) = held w /\ ptrs (gen_pool_destroy w p) = ptrs w;
  law_vmap w l r w' : vmap w l = (r, w') -> held w' = held w /\ ptrs w' = ptrs w;
  law_vunmap w v : held (vunmap w v) = held w /\ ptrs (vunmap w v) = ptrs w;
  law_pte w a v : held (set_pte w a v) = held w /\ ptrs (set_pte w a v) = ptrs w;
  law_protect w a n r h w' : tee_protect_tvp_mem w a n = (r, h, w') -> held w' = held w /\ ptrs w' = ptrs w;
  law_unprotect w h : held (tee_unprotect_tvp_mem w h) = held w /\ ptrs (tee_unprotect_tvp_mem w h) = ptrs w }.

(** ** A ledger *)

Record ledger := mk_ledger {
  l_held : list chunk;
  l_ptrs : list Z;
  l_tick : nat;
  l_cma : Z;
  l_pools : list (Z * Z) }.

Definition l_fresh (w : ledger) : Z := SZ_1M * (1 + Z.of_nat (l_tick w)).
Definition l_take (w : ledger) (c : chunk) : ledger := mk_ledger (c :: l_held w) (l_ptrs w) (S (l_tick w)) (l_cma w) (l_pools w).
Fixpoint drop_first (c : chunk) (l : list chunk) : list chunk :=
  match l with [] => [] | d :: l => if bool_decide (c = d) then l else d :: drop_first c l end.
Definition l_give (w : ledger) (c : chunk) : ledger := mk_ledger (drop_first c (l_held w)) (l_ptrs w) (l_tick w) (l_cma w) (l_pools w).
Definition l_in_cma (c : chunk) : Z := match c with CCma _ n => n | _ => 0 end.
Definition l_in_pool (p : Z) (c : chunk) : Z := match c with CPool q _ n => if q =? p then n else 0 | _ => 0 end.
Definition l_pool_size (w : ledger) (p : Z) : Z := foldr (fun '(q, n) a => if q =? p then a + n else a) 0 (l_pools w).

#[export] Instance ledger_env : MmEnv ledger := {
  kmalloc_mm w := let p := 1 + foldr Z.max 0 (l_ptrs w) in (Some p, mk_ledger (l_held w) (p :: l_ptrs w) (l_tick w) (l_cma w) (l_pools w));
  kfree_mm w p := mk_ledger (l_held w) (filter (fun q => q <> p) (l_ptrs w)) (l_tick w) (l_cma w) (l_pools w);
  get_free_pages w o := (Some (l_fresh w), l_take w (CPages (l_fresh w) o));
  free_pages w h o := l_give w (CPages h o);
  dma_alloc_from_contiguous w n o :=
    if lsum l_in_cma (l_held w) + n <=? l_cma w then (Some (l_fresh w), l_take w (CCma (l_fresh w) n)) else (None, w);
  dma_release_from_contiguous w h n := l_give w (CCma h n);
  gen_pool_create w := (Some (l_fresh w), mk_ledger (l_held w) (l_ptrs w) (S (l_tick w)) (l_cma w) (l_pools w));
  gen_pool_add w p a n := (0, mk_ledger (l_held w) (l_ptrs w) (l_tick w) (l_cma w) ((p, n) :: l_pools w));
  gen_pool_destroy w p := mk_ledger (l_held w) (l_ptrs w) (l_tick w) (l_cma w) (filter (fun x => x.1 <> p) (l_pools w));
  gen_pool_alloc w p n :=
    if lsum (l_in_pool p) (l_held w) + n <=? l_pool_size w p then (Some (l_fresh w), l_take w (CPool p (l_fresh w) n)) else (None, w);
  gen_pool_free w p h n := l_give w (CPool p h n);
  gen_pool_avail w p := l_pool_size w p - lsum (l_in_pool p) (l_held w);
  gen_pool_size w p := l_pool_size w p;
  virt_to_phys v := v;
  phys_to_virt p := p;
  page_to_phys p := p;
  phys_to_page p := p;
  page_high _ := false;
  vmap w _ := (None, w);
  vunmap w _ := w;
  is_vmalloc_addr _ := false;
  page_address p := p;
  pte_there _ _ := false;
  set_pte w _ _ := w;
  tee_protect_tvp_mem w _ _ := (0, 1, w);
  tee_unprotect_tvp_mem w _ := w;
  cma_base := 0 }.

Lemma fresh_ptr l : (1 + foldr Z.max 0 l) ∉ l.
Proof.
  assert (H : forall x, x ∈ l -> x <= foldr Z.max 0 l).
  { induction l as [|y l IH]; intros x Hx; [set_solver|]. cbn. apply elem_of_cons in Hx as [->|Hx]; [lia|]. apply IH in Hx. lia. }
  intros Hin. apply H in Hin. lia.
Qed.

Lemma drop_first_perm c l : c ∈ l -> Permutation l (c :: drop_first c l).
Proof.
  induction l as [|d l IH]; intros Hin; [set_solver|]. cbn. case_bool_decide as Hc; [by rewrite Hc|].
  rewrite Permutation_swap. f_equiv. apply IH. set_solver.
Qed.

Lemma l_fresh_pos w : l_fresh w <> 0.
Proof. unfold l_fresh, SZ_1M. lia. Qed.

#[export] Instance ledger_laws : MmLaws ledger_env l_held l_ptrs.
Proof.
  split; intros; cbn in *; repeat case_match; simplify_eq; cbn; try done;
    first [split; [done|]; split; [exact (fresh_ptr _)|done]|split; [done|]; split; [exact (l_fresh_pos _)|done]|by split; [apply drop_first_perm|]].
Qed.

(** The manager on an empty ledger, with reserved memory and a contiguous area. *)
Definition ledger0 (cma_pages : Z) : ledger := mk_ledger [] [] 0 cma_pages [].
Definition mm_start (base size cma_size tmode : Z) : mm_state ledger :=
  (codec_mm_mgt_init (ledger0 (cma_size / PAGE_SIZE)) base size cma_size 0 tmode).2.
