(* ===== verification/CodecMmSpec.v ===== *)
(** * What the manager of decoder memory promises

    The books: every counter of the manager is the sum over the buffers of its
    list, and the memory taken from the allocators of the kernel is exactly the
    memory of those buffers.  They are kept by every operation, also when the
    release of a buffer takes a whole pool with it. *)

From stdpp Require Import base numbers list option strings sets relations.
From S2P Require Import Prelude KText CodecMm CodecMmLaws.

(** ** The books *)

(** What a buffer stands for in each counter. *)
Definition from (m : codec_mm_s) (f : Z) : Z := if from_flags m =? f then buffer_size m else 0.
Definition w_total (m : codec_mm_s) : Z := if flag (flags m) CODEC_MM_FLAGS_FOR_LOCAL_MGR then 0 else buffer_size m.
Definition w_cma (m : codec_mm_s) : Z := from m FROM_CMA + from m FROM_COHERENT.
Definition w_sc (m : codec_mm_s) : Z := if flag (flags m) CODEC_MM_FLAGS_FOR_SCATTER then buffer_size m else 0.
Definition w_sc_cnt (m : codec_mm_s) : Z := if flag (flags m) CODEC_MM_FLAGS_FOR_SCATTER then 1 else 0.
Definition w_vmaped (m : codec_mm_s) : Z := if flag (flags m) CODEC_MM_FLAGS_FOR_PHYS_VMAPED then page_count m else 0.

(** The counters, as [int]s, are the sums over the buffers. *)
Record balanced (n : mm_counters) (l : list codec_mm_s) : Prop := {
  bal_total : total_alloced_size n = s32 (lsum w_total l);
  bal_res : alloced_res_size n = s32 (lsum (fun m => from m FROM_REVERSED) l);
  bal_cma : alloced_cma_size n = s32 (lsum w_cma l);
  bal_sys : alloced_sys_size n = s32 (lsum (fun m => from m FROM_PAGES) l);
  bal_tvp : alloced_tvp_size n = s32 (lsum (fun m => from m FROM_TVP) l);
  bal_cres : alloced_cma_res_size n = s32 (lsum (fun m => from m FROM_CMA_RES) l);
  bal_sc : alloced_for_sc_size n = s32 (lsum w_sc l);
  bal_sc_cnt : alloced_for_sc_cnt n = s32 (lsum w_sc_cnt l);
  bal_coh : alloced_from_coherent n = s32 (lsum (fun m => from m FROM_COHERENT) l);
  bal_vmaped : phys_vmaped_page_cnt n = s32 (lsum w_vmaped l) }.

(** The memory of a buffer; [rp] is the reserved pool of the manager. *)
Definition chunk_of (rp : option Z) (m : codec_mm_s) : option chunk :=
  if from_flags m =? FROM_PAGES then Some (CPages (mem_handle m) (get_order (buffer_size m)))
  else if from_flags m =? FROM_CMA then Some (CCma (mem_handle m) (page_count m))
  else if from_flags m =? FROM_REVERSED then p ← rp; Some (CPool p (mem_handle m) (buffer_size m))
  else if (from_flags m =? FROM_TVP) || (from_flags m =? FROM_CMA_RES) then p ← from_ext m; Some (CPool p (mem_handle m) (buffer_size m))
  else None.

(** A buffer that is well formed: memory of the manager has one to eight users,
    memory of others is only listed. *)
Definition good (rp : option Z) (m : codec_mm_s) : Prop :=
  length (owner m) = 8%nat /\
  (is_Some (chunk_of rp m) /\ 1 <= use_cnt m <= 8 \/ from_flags m = FROM_COHERENT /\ use_cnt m = 0 /\ flags m = 0).

Section Laws.
Context {W : Type} {env : MmEnv W} {held : W -> list chunk} {ptrs : W -> list Z} {laws : MmLaws env held ptrs}.
Implicit Types s : mm_state W.

(** The state, with buffers [ex] that have left the list and whose memory is
    still to be given back. *)
Record books (ex : list codec_mm_s) s : Prop := {
  bk_cnt : balanced (cnt (mgt s)) (ex ++ (mem_list (mgt s)).*2);
  bk_held : Permutation (held (world s)) (omap (chunk_of (res_pool (cfg (mgt s)))) (ex ++ (mem_list (mgt s)).*2));
  bk_good : Forall (good (res_pool (cfg (mgt s)))) (mem_list (mgt s)).*2;
  bk_ptrs : Forall (fun p => p ∈ ptrs (world s)) (mem_list (mgt s)).*1;
  bk_nodup : NoDup (mem_list (mgt s)).*1 }.

(** The parts of a state the books depend on. *)
Lemma books_ext ex s s' :
  mem_list (mgt s') = mem_list (mgt s) -> cnt (mgt s') = cnt (mgt s) -> res_pool (cfg (mgt s')) = res_pool (cfg (mgt s)) ->
  held (world s') = held (world s) -> ptrs (world s') = ptrs (world s) -> books ex s -> books ex s'.
Proof. intros Hl Hc Hr Hh Hp [H1 H2 H3 H4 H5]. split; rewrite ?Hl, ?Hc, ?Hr, ?Hh, ?Hp; done. Qed.

(** *** Sums *)

Lemma lsum_perm {A} (f : A -> Z) l k : Permutation l k -> lsum f l = lsum f k.
Proof. induction 1; rewrite ?lsum_cons; try lia. Qed.

Lemma balanced_perm n l k : Permutation l k -> balanced n l -> balanced n k.
Proof.
  intros Hp []. split; match goal with |- _ = s32 (lsum ?f k) => rewrite <- (lsum_perm f l k Hp) end; done.
Qed.

Lemma s32_idem x : s32 (s32 x) = s32 x.
Proof. pose proof (s32_range x). by apply s32_small. Qed.

Lemma add_if_sum (b : bool) x y n : x = s32 y -> add_if b x n = s32 (y + if b then n else 0).
Proof. intros ->. unfold add_if. destruct b; [apply s32_add|by rewrite Z.add_0_r]. Qed.

Lemma balanced_alloc n l m : from_flags m <> FROM_COHERENT -> balanced n l -> balanced (count_alloc n m) (m :: l).
Proof.
  intros Hf []. unfold count_alloc.
  split; cbn [total_alloced_size alloced_res_size alloced_cma_size alloced_sys_size alloced_tvp_size alloced_cma_res_size
    alloced_for_sc_size alloced_for_sc_cnt alloced_from_coherent phys_vmaped_page_cnt]; rewrite lsum_cons;
    erewrite ?add_if_sum by eassumption;
    unfold w_total, w_cma, w_sc, w_sc_cnt, w_vmaped, from; rewrite ?(proj2 (Z.eqb_neq _ FROM_COHERENT) Hf);
    try (destruct (flag _ _) || destruct (_ =? _)); cbn [negb]; rewrite ?bal_coh0; f_equal; lia.
Qed.

Lemma balanced_free n l m : from_flags m <> FROM_COHERENT -> balanced n (m :: l) -> balanced (count_free n m) l.
Proof.
  intros Hf []. unfold count_free.
  split; cbn [total_alloced_size alloced_res_size alloced_cma_size alloced_sys_size alloced_tvp_size alloced_cma_res_size
    alloced_for_sc_size alloced_for_sc_cnt alloced_from_coherent phys_vmaped_page_cnt];
    rewrite lsum_cons in *; erewrite ?add_if_sum by eassumption; rewrite ?bal_coh0;
    unfold w_total, w_cma, w_sc, w_sc_cnt, w_vmaped, from; rewrite ?(proj2 (Z.eqb_neq _ FROM_COHERENT) Hf);
    try (destruct (flag _ _) || destruct (_ =? _)); cbn [negb]; f_equal; lia.
Qed.

Lemma balanced_coherent n l m d : from_flags m = FROM_COHERENT -> flags m = 0 ->
  (d = 1 -> balanced n l -> balanced (count_coherent n (buffer_size m)) (m :: l)) /\
  (d = -1 -> balanced n (m :: l) -> balanced (count_coherent n (- buffer_size m)) l).
Proof.
  intros Hf Hfl.
  assert (Hw : forall l, lsum w_total (m :: l) = lsum w_total l + buffer_size m /\ lsum w_cma (m :: l) = lsum w_cma l + buffer_size m /\
    lsum (fun m => from m FROM_COHERENT) (m :: l) = lsum (fun m => from m FROM_COHERENT) l + buffer_size m /\
    lsum w_sc (m :: l) = lsum w_sc l /\ lsum w_sc_cnt (m :: l) = lsum w_sc_cnt l /\ lsum w_vmaped (m :: l) = lsum w_vmaped l /\
    forall f, f <> FROM_COHERENT -> lsum (fun m => from m f) (m :: l) = lsum (fun m => from m f) l).
  { assert (Hfr : forall f, from m f = if FROM_COHERENT =? f then buffer_size m else 0) by (intros; unfold from; by rewrite Hf).
    assert (H1 : w_total m = buffer_size m) by (unfold w_total; by rewrite Hfl).
    assert (H2 : w_cma m = buffer_size m) by (unfold w_cma; rewrite !Hfr; reflexivity).
    assert (H3 : w_sc m = 0 /\ w_sc_cnt m = 0 /\ w_vmaped m = 0) by (unfold w_sc, w_sc_cnt, w_vmaped; by rewrite Hfl).
    destruct H3 as (H3 & H4 & H5).
    intros k. rewrite !lsum_cons, H1, H2, H3, H4, H5, Hfr. cbn [Z.eqb FROM_COHERENT Pos.eqb]. split_and!; try lia.
    intros f Hne. rewrite lsum_cons, Hfr, (proj2 (Z.eqb_neq FROM_COHERENT f)) by done. lia. }
  destruct (Hw l) as (W1 & W2 & W3 & W4 & W5 & W6 & W7).
  split; intros _ []; rewrite ?W1, ?W2, ?W3, ?W4, ?W5, ?W6, ?W7 in * by done;
    split; cbn [count_coherent total_alloced_size alloced_res_size alloced_cma_size alloced_sys_size alloced_tvp_size alloced_cma_res_size
      alloced_for_sc_size alloced_for_sc_cnt alloced_from_coherent phys_vmaped_page_cnt];
    rewrite ?W1, ?W2, ?W3, ?W4, ?W5, ?W6, ?W7 by done; try done;
    match goal with H : ?x = s32 _ |- s32 (?x + _) = _ => rewrite H, s32_add end; f_equal; lia.
Qed.

(** *** Buffers in the list *)

Lemma find_split l p m : find_mm l p = Some m -> exists l1 l2, l = l1 ++ (p, m) :: l2 /\
  (forall m', update_mm l p m' = l1 ++ (p, m') :: l2) /\ remove_mm l p = l1 ++ l2.
Proof.
  induction l as [|[q m1] l IH]; intros H; [done|]. cbn [find_mm] in H. destruct (Z.eqb_spec q p) as [->|Hne].
  - injection H as ->. exists [], l. cbn. by rewrite Z.eqb_refl.
  - destruct (IH H) as (l1 & l2 & -> & Hu & Hr). exists ((q, m1) :: l1), l2. cbn.
    rewrite (proj2 (Z.eqb_neq q p)) by done. split_and!; [done| |by rewrite Hr]. intros m'. by rewrite Hu.
Qed.

Lemma find_in l p m : find_mm l p = Some m -> (p, m) ∈ l.
Proof. intros H. destruct (find_split _ _ _ H) as (l1 & l2 & -> & _). set_solver. Qed.

Lemma find_update l p m m' : find_mm l p = Some m -> find_mm (update_mm l p m') p = Some m'.
Proof.
  induction l as [|[q mq] l IH]; intros H; [done|]. cbn in *. destruct (q =? p) eqn:Hq; cbn; rewrite Hq; [done|by apply IH].
Qed.

Lemma find_none l p : p ∉ l.*1 -> find_mm l p = None.
Proof. intros Hni. destruct (find_mm l p) as [m|] eqn:H; [|done]. apply find_in in H. destruct Hni. apply list_elem_of_fmap. by exists (p, m). Qed.

Lemma find_removed l p : NoDup l.*1 -> p ∈ l.*1 -> find_mm (remove_mm l p) p = None.
Proof.
  induction l as [|[q mq] l IH]; intros Hnd Hin; cbn in *; [set_solver|]. apply NoDup_cons in Hnd as [Hq Hnd].
  destruct (Z.eqb_spec q p) as [->|Hne]; [by apply find_none|]. cbn. rewrite (proj2 (Z.eqb_neq q p)) by done. apply IH; [done|set_solver].
Qed.

Lemma find_app_last l p m : p ∉ l.*1 -> find_mm (l ++ [(p, m)]) p = Some m.
Proof. induction l as [|[q mq] l IH]; intros Hni; cbn; [by rewrite Z.eqb_refl|]. rewrite (proj2 (Z.eqb_neq q p)) by set_solver. apply IH. set_solver. Qed.

Lemma remove_app_last l p m : p ∉ l.*1 -> remove_mm (l ++ [(p, m)]) p = l.
Proof. induction l as [|[q mq] l IH]; intros Hni; cbn; [by rewrite Z.eqb_refl|]. rewrite (proj2 (Z.eqb_neq q p)) by set_solver. f_equal. apply IH. set_solver. Qed.

Lemma find_update_other l p q m : q <> p -> find_mm (update_mm l p m) q = find_mm l q.
Proof.
  intros Hq. induction l as [|[x mx] l IH]; [done|]. cbn. destruct (Z.eqb_spec x p) as [->|]; cbn; [by rewrite (proj2 (Z.eqb_neq p q)) by done|by rewrite IH].
Qed.

Lemma find_remove_other l p q : q <> p -> find_mm (remove_mm l p) q = find_mm l q.
Proof.
  intros Hq. induction l as [|[x mx] l IH]; [done|]. cbn. destruct (Z.eqb_spec x p) as [->|]; cbn; [by rewrite (proj2 (Z.eqb_neq p q)) by done|by rewrite IH].
Qed.

(** What two states of a buffer have in common when it only changed its users
    or its protection. *)
Record same_memory (m m' : codec_mm_s) : Prop := {
  sm_size : buffer_size m' = buffer_size m;
  sm_count : page_count m' = page_count m;
  sm_flags : flags m' = flags m;
  sm_from : from_flags m' = from_flags m;
  sm_handle : mem_handle m' = mem_handle m;
  sm_ext : from_ext m' = from_ext m }.

Lemma same_memory_chunk rp m m' : same_memory m m' -> chunk_of rp m' = chunk_of rp m.
Proof. intros []. unfold chunk_of. by rewrite sm_size0, sm_count0, sm_from0, sm_handle0, sm_ext0. Qed.

Lemma balanced_same n l k m m' : same_memory m m' -> balanced n (l ++ m :: k) -> balanced n (l ++ m' :: k).
Proof.
  intros [] []. split; match goal with |- ?x = s32 (lsum ?f _) => replace (lsum f (l ++ m' :: k)) with (lsum f (l ++ m :: k)); [done|] end;
    rewrite !lsum_app, !lsum_cons; unfold w_total, w_cma, w_sc, w_sc_cnt, w_vmaped, from;
    by rewrite ?sm_size0, ?sm_count0, ?sm_flags0, ?sm_from0.
Qed.

Lemma books_good ex s p m : books ex s -> find_mm (mem_list (mgt s)) p = Some m -> good (res_pool (cfg (mgt s))) m.
Proof.
  intros Hb Hf. pose proof (bk_good _ _ Hb) as Hgs. rewrite Forall_forall in Hgs. apply Hgs. apply find_in in Hf.
  apply list_elem_of_fmap. by exists (p, m).
Qed.

Lemma books_update ex s p m m' :
  books ex s -> find_mm (mem_list (mgt s)) p = Some m -> same_memory m m' -> good (res_pool (cfg (mgt s))) m' ->
  books ex (with_list s (update_mm (mem_list (mgt s)) p m')).
Proof.
  intros [H1 H2 H3 H4 H5] Hf Hs Hg. destruct (find_split _ _ _ Hf) as (l1 & l2 & Hl & Hu & _).
  specialize (Hu m'). split; cbn; rewrite Hu, ?fmap_app; rewrite Hl, ?fmap_app in *; cbn [fmap list_fmap fst snd] in *.
  - rewrite app_assoc in *. by eapply balanced_same.
  - rewrite H2, !omap_app. cbn. by rewrite (same_memory_chunk _ _ _ Hs).
  - apply Forall_app in H3 as [H3 H3']. apply Forall_cons in H3' as [_ H3']. by apply Forall_app; split; [|constructor].
  - done.
  - done.
Qed.

Lemma books_take_out ex s p m m' :
  books ex s -> find_mm (mem_list (mgt s)) p = Some m -> same_memory m m' ->
  books (m' :: ex) (with_list s (remove_mm (mem_list (mgt s)) p)) /\ p ∉ (remove_mm (mem_list (mgt s)) p).*1.
Proof.
  intros [H1 H2 H3 H4 H5] Hf Hs. destruct (find_split _ _ _ Hf) as (l1 & l2 & Hl & _ & Hr).
  assert (Hp : Permutation (ex ++ l1.*2 ++ m' :: l2.*2) (m' :: ex ++ l1.*2 ++ l2.*2)).
  { symmetry. rewrite !app_assoc. apply Permutation_middle. }
  rewrite Hr. rewrite Hl, ?fmap_app in *; cbn [fmap list_fmap fst snd] in *.
  split; [|apply NoDup_app in H5 as (_ & Hd & H5); apply NoDup_cons in H5 as [H5 _]; rewrite ?fmap_app; set_solver].
  split; cbn; rewrite ?fmap_app.
  - eapply balanced_perm; [exact Hp|]. rewrite app_assoc in *. by eapply balanced_same.
  - rewrite H2.
    transitivity (omap (chunk_of (res_pool (cfg (mgt s)))) (ex ++ l1.*2 ++ m' :: l2.*2)).
    + rewrite !omap_app. cbn. by rewrite (same_memory_chunk _ _ _ Hs).
    + by rewrite Hp.
  - rewrite ?fmap_app. apply Forall_app in H3 as [H3 H3']. apply Forall_cons in H3' as [_ H3']. by apply Forall_app.
  - rewrite ?fmap_app. apply Forall_app in H4 as [H4 H4']. apply Forall_cons in H4' as [_ H4']. by apply Forall_app.
  - rewrite ?fmap_app. apply NoDup_app in H5 as (Ha & Hd & H5). apply NoDup_cons in H5 as [_ H5].
    apply NoDup_app. split_and!; [done| |done]. intros x Hx. specialize (Hd x Hx). set_solver.
Qed.

(** *** Giving memory back *)

(** A state with the books in order, the same configuration and at most the
    buffers of another, in which no other structure was freed. *)
Definition after ex s s' : Prop :=
  books ex s' /\ cfg (mgt s') = cfg (mgt s) /\ (mem_list (mgt s')).*1 ⊆ (mem_list (mgt s)).*1 /\
  (forall p, p ∈ ptrs (world s) -> p ∉ (mem_list (mgt s)).*1 -> p ∈ ptrs (world s')).

Lemma after_refl ex s : books ex s -> after ex s s.
Proof. by intros. Qed.

Lemma after_trans ex s1 s2 s3 : after ex s1 s2 -> after ex s2 s3 -> after ex s1 s3.
Proof.
  intros (_ & Hc & Hl & Hk) (Hb & Hc' & Hl' & Hk'). split_and!; [done|congruence|set_solver|].
  intros p Hp Hn. apply Hk'; [by apply Hk|set_solver].
Qed.

(** A change of a part the books do not look at. *)
Lemma after_ext ex s s' :
  mem_list (mgt s') = mem_list (mgt s) -> cnt (mgt s') = cnt (mgt s) -> cfg (mgt s') = cfg (mgt s) ->
  held (world s') = held (world s) -> ptrs (world s') = ptrs (world s) -> books ex s -> after ex s s'.
Proof. intros Hl Hc Hf Hh Hp Hb. split_and!; [apply (books_ext ex s); congruence|done|by rewrite Hl|by rewrite Hp]. Qed.

Lemma after_update ex s p m m' :
  books ex s -> find_mm (mem_list (mgt s)) p = Some m -> same_memory m m' -> good (res_pool (cfg (mgt s))) m' ->
  after ex s (with_list s (update_mm (mem_list (mgt s)) p m')).
Proof.
  intros Hb Hf Hs Hg. split_and!; [by eapply books_update|done| |done]. cbn.
  destruct (find_split _ _ _ Hf) as (l1 & l2 & -> & -> & _). by rewrite !fmap_app.
Qed.

Lemma chunk_held ex s m c : books (m :: ex) s -> chunk_of (res_pool (cfg (mgt s))) m = Some c -> c ∈ held (world s).
Proof. intros Hb Hc. rewrite (bk_held _ _ Hb). cbn. rewrite Hc. set_solver. Qed.

Lemma good_chunk rp m : good rp m -> use_cnt m <> 0 -> exists c, chunk_of rp m = Some c.
Proof. intros [_ [[[c Hc] _]|(_ & Hu & _)]] ?; [by exists c|done]. Qed.

Lemma chunk_not_coherent rp m c : chunk_of rp m = Some c -> from_flags m <> FROM_COHERENT.
Proof. intros H Hf. unfold chunk_of in H. by rewrite Hf in H. Qed.

(** The memory that [give_back] returns is the chunk of the buffer. *)
Lemma give_back_held s m c w ex :
  books (m :: ex) s -> chunk_of (res_pool (cfg (mgt s))) m = Some c -> give_back s m = Some w ->
  Permutation (held (world s)) (c :: held w) /\ ptrs w = ptrs (world s).
Proof.
  intros Hb Hc Hg. pose proof (chunk_held _ _ _ _ Hb Hc) as Hin. unfold give_back in Hg. unfold chunk_of in Hc.
  destruct (Z.eqb_spec (from_flags m) FROM_PAGES) as [Hf|Hf].
  { rewrite Hf in Hg. cbn in Hg. injection Hg as <-. injection Hc as <-. by apply law_free_pages. }
  destruct (Z.eqb_spec (from_flags m) FROM_CMA) as [Hf2|Hf2].
  { injection Hc as <-. injection Hg as <-.
    set (w0 := if flag _ _ then _ else _).
    assert (H0 : held w0 = held (world s) /\ ptrs w0 = ptrs (world s)).
    { unfold w0, codec_mm_unmap_phyaddr. destruct (flag _ _); [|done]. destruct (is_vmalloc_addr _); [apply law_vunmap|done]. }
    destruct H0 as [H0 H0']. rewrite <- H0 in Hin |- *. rewrite <- H0'. by apply law_cma_free. }
  destruct (Z.eqb_spec (from_flags m) FROM_REVERSED) as [Hf3|Hf3].
  { destruct (res_pool _) as [q|]; [|done]. injection Hc as <-. injection Hg as <-. by apply law_pool_free. }
  destruct ((from_flags m =? FROM_TVP) || (from_flags m =? FROM_CMA_RES)); [|done].
  destruct (from_ext m) as [q|]; [|done]. injection Hc as <-. injection Hg as <-. by apply law_pool_free.
Qed.

Lemma books_give_back ex s m w :
  books (m :: ex) s -> is_Some (chunk_of (res_pool (cfg (mgt s))) m) -> give_back s m = Some w ->
  after ex s (with_cnt (with_world s w) (count_free (cnt (mgt s)) m)).
Proof.
  intros Hb [c Hc] Hg. destruct (give_back_held s m c w ex Hb Hc Hg) as [Hh Hp]. destruct Hb as [H1 H2 H3 H4 H5].
  split_and!; [|done|done|cbn; by rewrite Hp]. split; cbn; rewrite ?Hp; try done.
  - apply balanced_free; [by eapply chunk_not_coherent|done].
  - rewrite Hh in H2. cbn in H2. rewrite Hc in H2. by apply Permutation_cons_inv in H2.
Qed.

(** What a way of disposing of a buffer without users must do. *)
Definition disposes (free : mm_state W -> codec_mm_s -> option (mm_state W)) : Prop :=
  forall ex s m s', books (m :: ex) s -> is_Some (chunk_of (res_pool (cfg (mgt s))) m) -> free s m = Some s' -> after ex s s'.

Lemma drop_owner_length l nm i o : drop_owner l nm i = Some o -> length o = length l /\ 0 <= i < zlen l.
Proof.
  unfold drop_owner. destruct (aget l i) as [x|] eqn:Hg; [|done]. cbn [mbind option_bind]. intros H.
  apply aset_length in H. rewrite length_imap in H. apply aget_Some in Hg. split; [done|]. naive_solver lia.
Qed.

Lemma release_after free : disposes free -> forall ex s p nm s',
  books ex s -> release_with free s p nm = Some s' -> after ex s s'.
Proof.
  intros Hd ex s p nm s' Hb H. unfold release_with in H.
  destruct (find_mm (mem_list (mgt s)) p) as [m|] eqn:Hf; [|by injection H as <-].
  destruct (drop_owner _ _ _) as [o|] eqn:Ho; [|done]. cbn [mbind option_bind] in H.
  apply drop_owner_length in Ho as [Hol Hi].
  assert (Hg := books_good _ _ _ _ Hb Hf).
  destruct Hg as [Hl [[Hc Hu]|(_ & Hu & _)]]; [|rewrite Hu in Hi; change (s32 (0 - 1)) with (-1) in Hi; lia].
  rewrite s32_small in * by lia.
  assert (Hs : same_memory m (with_users m o (use_cnt m - 1))) by done.
  destruct (Z.eqb_spec (use_cnt m - 1) 0) as [Hz|Hz].
  - destruct (free _ _) as [s1|] eqn:Hfr; [|done]. cbn [mbind option_bind] in H. injection H as <-.
    destruct (books_take_out ex s p m _ Hb Hf Hs) as [Ht Hp].
    eapply Hd in Hfr; [|exact Ht|cbn; by rewrite (same_memory_chunk _ _ _ Hs)].
    destruct Hfr as (Hb1 & Hc1 & Hl1 & Hk1). cbn in Hc1, Hl1, Hk1.
    assert (Hsub : (remove_mm (mem_list (mgt s)) p).*1 ⊆ (mem_list (mgt s)).*1).
    { destruct (find_split _ _ _ Hf) as (l1 & l2 & -> & _ & ->). rewrite !fmap_app. cbn. set_solver. }
    assert (Hpin : p ∈ (mem_list (mgt s)).*1) by (apply find_in in Hf; apply list_elem_of_fmap; by exists (p, m)).
    split_and!; [|done|set_solver|].
    2: { intros q Hq Hn. cbn. destruct (law_kfree (world s1) p) as [_ ->]. apply list_elem_of_filter.
         split; [by intros ->|]. apply Hk1; [done|set_solver]. }
    destruct (law_kfree (world s1) p) as [Hk Hk']. destruct Hb1 as [B1 B2 B3 B4 B5]. split; cbn; rewrite ?Hk, ?Hk'; try done.
    rewrite Forall_forall in B4 |- *. intros q Hq. apply list_elem_of_filter. split; [|by apply B4]. intros ->. set_solver.
  - injection H as <-. apply (after_update ex s p m); [done|done|done|]. split; [cbn; lia|]. left. cbn.
    rewrite (same_memory_chunk _ _ _ Hs). split; [done|lia].
Qed.

Lemma mmu_pages_same w a pg set n : held (mmu_pages w a pg set n) = held w /\ ptrs (mmu_pages w a pg set n) = ptrs w.
Proof.
  revert w a pg. induction n as [|n IH]; intros; [done|]. cbn [mmu_pages]. destruct (negb _); [done|].
  destruct (law_pte w a (if set then Some pg else None)) as [<- <-]. apply IH.
Qed.

Lemma cma_mmu_op_same w pg n set : held (cma_mmu_op w pg n set).2 = held w /\ ptrs (cma_mmu_op w pg n set).2 = ptrs w.
Proof. unfold cma_mmu_op. destruct (_ || _); [done|]. apply mmu_pages_same. Qed.

Lemma release_slot_after rel : (forall ex s p nm s', books ex s -> rel s p nm = Some s' -> after ex s s') ->
  forall ex s pn i busy s', books ex s -> release_slot rel s pn i = Some (busy, s') -> after ex s s'.
Proof.
  intros Hrel ex s pn i busy s' Hb H. unfold release_slot in H.
  destruct (aget (gen_pool (pool_of s pn)) i) as [g|]; [|done]. cbn [mbind option_bind] in H.
  destruct (aget (mm (pool_of s pn)) i) as [m|]; [|done]. cbn [mbind option_bind] in H.
  match type of H with (mbind _ ?e) = _ => destruct e as [[[b sz] s1]|] eqn:He; [|done] end. cbn [mbind option_bind] in H.
  assert (H1 : after ex s s1).
  { destruct g as [g|]; [|by inv_some]. destruct (negb _); [by inv_some|].
    destruct (law_destroy (world s) g) as [Hd1 Hd2].
    assert (Ha : after ex s (with_world s (gen_pool_destroy (world s) g))) by by apply after_ext.
    destruct m as [q|]; [|by inv_some]. destruct (find_mm _ _) as [mem|]; [|done]. cbn [mbind option_bind] in He.
    destruct (cma_mmu_op _ _ _ _) as [r w] eqn:Hw. destruct (rel _ _ _) as [s2|] eqn:Hr; [|done]. cbn [mbind option_bind] in He. inv_some.
    eapply after_trans; [exact Ha|]. match type of Hw with cma_mmu_op ?w0 ?pg ?n ?b = _ => destruct (cma_mmu_op_same w0 pg n b) as [Hw1 Hw2] end.
    rewrite Hw in Hw1, Hw2. eapply after_trans; [|eapply Hrel; [|exact Hr]].
    - apply after_ext; try done. apply Ha.
    - apply (books_ext ex (with_world s (gen_pool_destroy (world s) g))); try done. apply Ha. }
  destruct b; [by inv_some|]. destruct (set_slot _ _ _ _) as [x|]; [|done]. cbn [mbind option_bind] in H. inv_some.
  eapply after_trans; [exact H1|]. apply after_ext; try (by destruct pn). apply H1.
Qed.

Lemma release_slots_after rel : (forall ex s p nm s', books ex s -> rel s p nm = Some s' -> after ex s s') ->
  forall n ex s pn i ign r s', books ex s -> release_slots rel s pn i ign n = Some (r, s') -> after ex s s'.
Proof.
  intros Hrel. induction n as [|n IH]; intros ex s pn i ign r s' Hb H; cbn [release_slots] in H; [by inv_some|].
  destruct (release_slot _ _ _ _) as [[busy s1]|] eqn:H1; [|done]. cbn [mbind option_bind] in H.
  eapply release_slot_after in H1; [|done|done]. eapply after_trans; [exact H1|]. eapply IH; [apply H1|exact H].
Qed.

Lemma pool_release_after rel : (forall ex s p nm s', books ex s -> rel s p nm = Some s' -> after ex s s') ->
  forall ex s pn r s', books ex s -> pool_release_with rel s pn = Some (r, s') -> after ex s s'.
Proof.
  intros Hrel ex s pn r s' Hb H. unfold pool_release_with in H.
  destruct (release_slots _ _ _ _ _ _) as [[ign s1]|] eqn:H1; [|done]. cbn [mbind option_bind] in H.
  eapply release_slots_after in H1; [|done|done].
  destruct (if 0 <? ign then _ else _) as [x|]; [|done]. cbn [mbind option_bind] in H. inv_some.
  eapply after_trans; [exact H1|]. apply after_ext; try done. apply H1.
Qed.

Lemma unprotect_slots_after n : forall ex s i s', books ex s -> unprotect_slots s i n = Some s' -> after ex s s'.
Proof.
  induction n as [|n IH]; intros ex s i s' Hb H; cbn [unprotect_slots] in H; [by inv_some|].
  destruct (aget _ _) as [slot|]; [|done]. cbn [mbind option_bind] in H. destruct slot as [p|]; [|done]. cbn [mbind option_bind] in H.
  destruct (find_mm _ _) as [m|] eqn:Hf; [|done]. cbn [mbind option_bind] in H.
  match type of H with unprotect_slots ?s1 _ _ = _ => assert (Ha : after ex s s1) end.
  { destruct (0 <? u32 (tvp_handle m)); [|by apply after_refl]. match goal with |- after _ _ (with_world (with_list _ (update_mm _ _ ?m')) _) =>
      assert (Hu : after ex s (with_list s (update_mm (mem_list (mgt s)) p m'))) end.
    { apply (after_update ex s p m); [done|done|done|exact (books_good _ _ _ _ Hb Hf)]. }
    eapply after_trans; [exact Hu|]. apply after_ext; try done; try apply law_unprotect. apply Hu. }
  eapply after_trans; [exact Ha|]. eapply IH; [apply Ha|exact H].
Qed.

Lemma unprotect_after ex s r s' : books ex s -> codec_mm_tvp_pool_unprotect s = Some (r, s') -> after ex s s'.
Proof.
  unfold codec_mm_tvp_pool_unprotect. intros Hb H. destruct (_ <=? _); [|by inv_some].
  destruct (unprotect_slots _ _ _) as [s1|] eqn:H1; [|done]. cbn [mbind option_bind] in H. inv_some.
  by eapply unprotect_slots_after.
Qed.

(** Disposing of a buffer keeps the books, however deep it goes. *)
Lemma free_in_disposes n : disposes (free_in n).
Proof.
  induction n as [|n IH]; intros ex s m s' Hb Hc H; [done|]. cbn [free_in] in H.
  destruct (give_back s m) as [w|] eqn:Hg; [|done]. cbn [mbind option_bind] in H.
  pose proof (books_give_back _ _ _ _ Hb Hc Hg) as Ha. set (s1 := with_cnt _ _) in *.
  destruct (_ && _); [|by inv_some]. destruct (codec_mm_tvp_pool_unprotect s1) as [[r s2]|] eqn:Hu; [|done]. cbn [mbind option_bind] in H.
  eapply unprotect_after in Hu; [|apply Ha]. destruct (r =? 0); [|inv_some; by apply (after_trans ex s s1)].
  destruct (pool_release_with _ _ _) as [[q s3]|] eqn:Hp; [|done]. cbn [mbind option_bind] in H. inv_some.
  eapply pool_release_after in Hp; [|intros; by eapply release_after|apply Hu].
  eapply after_trans; [exact Ha|]. eapply after_trans; [exact Hu|]. eapply after_trans; [exact Hp|].
  apply after_ext; try done. apply Hp.
Qed.

Lemma codec_release_after ex s p nm s' : books ex s -> codec_mm_release s p nm = Some s' -> after ex s s'.
Proof. apply release_after, free_in_disposes. Qed.

Lemma extpool_release_after ex s pn r s' : books ex s -> codec_mm_extpool_pool_release s pn = Some (r, s') -> after ex s s'.
Proof. intros Hb H. eapply pool_release_after; [|done|exact H]. intros. by eapply codec_release_after. Qed.

(** *** Taking memory *)

(** What an attempt to find memory for a buffer leads to. *)
Definition tried (rp : option Z) (w : W) (m : codec_mm_s) (r : bool * codec_mm_s * W) : Prop :=
  let '(ok, m', w') := r in
  owner m' = owner m /\ page_count m' = page_count m /\ use_cnt m' = use_cnt m /\ ptrs w' = ptrs w /\
  (buffer_size m' = buffer_size m \/ buffer_size m' = align_int (buffer_size m) (2 ^ RESERVE_MM_ALIGNED_2N)) /\
  if ok then mem_handle m' <> 0 /\ exists c, chunk_of rp m' = Some c /\ held w' = c :: held w
  else mem_handle m' = 0 /\ buffer_size m' = buffer_size m /\ flags m' = flags m /\ held w' = held w.

Lemma try_pages_tried rp w m : tried rp w m (try_pages w m).
Proof.
  unfold try_pages. destruct (get_free_pages w _) as [[h|] w'] eqn:E; apply law_pages in E as [Hp Hh]; cbn; [|by split_and!; try left].
  destruct Hh as [Hn Hh]. split_and!; try done; [by left|]. eexists; split; [reflexivity|exact Hh].
Qed.

Lemma map_phyaddr_same w m m' w' : codec_mm_map_phyaddr w m = (m', w') ->
  owner m' = owner m /\ page_count m' = page_count m /\ use_cnt m' = use_cnt m /\ buffer_size m' = buffer_size m /\
  from_flags m' = from_flags m /\ mem_handle m' = mem_handle m /\ held w' = held w /\ ptrs w' = ptrs w.
Proof.
  unfold codec_mm_map_phyaddr, codec_mm_vmap. intros H. destruct (negb _); [by inv_some|].
  destruct (vmap w _) as [[v|] w1] eqn:E; apply law_vmap in E as [E1 E2]; injection H as <- <-; by rewrite ?E1, ?E2.
Qed.

Lemma try_cma_tried rp w o b m : tried rp w m (try_cma w o b m).
Proof.
  unfold try_cma. destruct (dma_alloc_from_contiguous w _ _) as [[h|] w'] eqn:E; apply law_cma in E as [Hp Hh]; [|by split_and!; try left].
  destruct Hh as [Hn Hh].
  assert (Hok : forall v, tried rp w m (true, set_place m v h (from_ext m) (page_to_phys h) (buffer_size m) (flags m) FROM_CMA, w')).
  { intros v. split_and!; try done; [by left|]. eexists; split; [reflexivity|exact Hh]. }
  destruct b; [|apply Hok]. destruct (flag _ _); [|apply Hok].
  destruct (codec_mm_map_phyaddr _ _) as [m' w2] eqn:E. apply map_phyaddr_same in E as (E1 & E2 & E3 & E4 & E5 & E6 & E7 & E8).
  destruct (Hok (vbuffer m)) as (O1 & O2 & O3 & O4 & O5 & O6 & c & O7 & O8).
  split_and!; try congruence. exists c. split; [|congruence].
  rewrite <- O7. unfold chunk_of. by rewrite E2, E4, E5, E6.
Qed.

Lemma try_reserved_tried rp w q m : rp = Some q -> tried rp w m (try_reserved w q m).
Proof.
  intros ->. unfold try_reserved. destruct (gen_pool_alloc w _ _) as [[h|] w'] eqn:E; apply law_pool in E as [Hp Hh]; [|by split_and!; try left].
  destruct Hh as [Hn Hh]. split_and!; try done; [by right|]. eexists; split; [reflexivity|exact Hh].
Qed.

Lemma extpool_try_held n : forall w x sz i r w', extpool_try w x sz i n = Some (r, w') -> ptrs w' = ptrs w /\
  match r with Some (h, p) => h <> 0 /\ held w' = CPool p h sz :: held w | None => held w' = held w end.
Proof.
  induction n as [|n IH]; intros w x sz i r w' H; cbn [extpool_try] in H; [by inv_some|].
  destruct (aget _ _) as [[p|]|]; [| |done]; cbn [mbind option_bind] in H; [|by inv_some].
  destruct (gen_pool_alloc w p sz) as [[h|] w1] eqn:E; apply law_pool in E as [Hp Hh]; [by inv_some|].
  apply IH in H as [-> H]. split; [done|]. by rewrite Hh in H.
Qed.

Lemma try_ext_tried rp w x f m r : f = FROM_CMA_RES \/ f = FROM_TVP -> try_ext w x f m = Some r -> tried rp w m r.
Proof.
  intros Hf H. unfold try_ext, codec_mm_extpool_alloc in H.
  destruct (extpool_try _ _ _ _ _) as [[q w1]|] eqn:E; [|done]. cbn [mbind option_bind] in H.
  apply extpool_try_held in E as [Hp Hh]. destruct q as [[h p]|]; inv_some; [|by split_and!; try left].
  destruct Hh as [Hn Hh]. split_and!; try done; [by right|]. exists (CPool p h (align_int (buffer_size m) (2 ^ RESERVE_MM_ALIGNED_2N))).
  split; [by destruct Hf as [-> | ->]|done].
Qed.

Lemma attempt_tried rp c f next w m r :
  (forall r, f w m = Some r -> tried rp w m r) ->
  (forall w' m', tried rp w m (false, m', w') \/ m' = m /\ w' = w -> forall r, next w' m' = Some r -> tried rp w' m' r) ->
  attempt c f next w m = Some r -> tried rp w m r.
Proof.
  intros Hf Hn H. unfold attempt in H. destruct c; [|by eapply Hn; [right|]].
  destruct (f w m) as [[[ok m1] w1]|] eqn:E; [|done]. cbn [mbind option_bind] in H. specialize (Hf _ eq_refl).
  destruct ok; [by inv_some|]. specialize (Hn w1 m1 (or_introl Hf) r H).
  destruct r as [[ok m2] w2]. destruct Hf as (F1 & F2 & F3 & F4 & F5 & F6 & F7 & F8 & F9).
  destruct Hn as (N1 & N2 & N3 & N4 & N5 & N6). split_and!; try congruence.
  destruct ok; [|destruct N6 as (N6 & N7 & N8 & N9); split_and!; congruence].
  destruct N6 as (N6 & c & N7 & N8). split; [done|]. exists c. by rewrite N8, F9.
Qed.

Lemma alloc_pass_tried s res cma tvp m r : mem_handle m = 0 ->
  alloc_pass s res cma tvp m = Some r -> tried (res_pool (cfg (mgt s))) (world s) m r.
Proof.
  intros H0 H. unfold alloc_pass in H. revert H.
  assert (Hstep : forall c f next, (forall w m r, mem_handle m = 0 -> f w m = Some r -> tried (res_pool (cfg (mgt s))) w m r) ->
    (forall w m r, mem_handle m = 0 -> next w m = Some r -> tried (res_pool (cfg (mgt s))) w m r) ->
    forall w m r, mem_handle m = 0 -> attempt c f next w m = Some r -> tried (res_pool (cfg (mgt s))) w m r).
  { intros c f next Hf Hn w m0 r0 Hm. apply attempt_tried; [by intros; apply Hf|]. intros w' m' Hw r1. apply Hn.
    destruct Hw as [Hw|[-> _]]; [|done]. by destruct Hw as (_ & _ & _ & _ & _ & -> & _). }
  intros H. refine (Hstep _ _ _ _ _ _ _ _ H0 H); [|repeat (apply Hstep; [|])]; intros w1 m1 r1 Hm1 Hr.
  - injection Hr as <-. apply try_pages_tried.
  - injection Hr as <-. apply try_cma_tried.
  - destruct (res_pool _) as [q|]; [|done]. cbn [mbind option_bind] in Hr. injection Hr as <-. by apply try_reserved_tried.
  - apply (try_ext_tried _ _ _ _ _ _ (or_introl eq_refl) Hr).
  - injection Hr as <-. apply try_cma_tried.
  - apply (try_ext_tried _ _ _ _ _ _ (or_intror eq_refl) Hr).
  - injection Hr as <-. apply try_pages_tried.
  - injection Hr as <-. by split_and!; try left.
Qed.

(** The result of [codec_mm_alloc_in] is 0 exactly when the buffer has memory. *)
Lemma alloc_in_spec s m ret m' w' : mem_handle m = 0 -> codec_mm_alloc_in s m = Some (ret, m', w') ->
  (ret = 0 \/ ret < 0) /\ tried (res_pool (cfg (mgt s))) (world s) m (ret =? 0, m', w').
Proof.
  intros H0 H. unfold codec_mm_alloc_in in H. destruct (can_from s m) as [[[a b] c] d].
  assert (Hno : forall r, r < 0 -> (r = 0 \/ r < 0) /\ tried (res_pool (cfg (mgt s))) (world s) m (r =? 0, m, world s)).
  { intros r Hr. split; [by right|]. rewrite (proj2 (Z.eqb_neq r 0)) by lia. by split_and!; try left. }
  destruct (_ =? 0); [inv_some; by apply Hno|]. destruct (_ && _); [inv_some; by apply Hno|].
  destruct (alloc_pass _ _ _ _ _) as [[[ok m1] w1]|] eqn:E; [|done]. cbn [mbind option_bind] in H.
  apply alloc_pass_tried in E; [|done]. destruct ok.
  - assert (Hn : mem_handle m1 <> 0) by (by destruct E as (_ & _ & _ & _ & _ & Hn & _)).
    unfold c_true in H. rewrite (proj2 (Z.eqb_neq _ 0)) in H by done. cbn in H. inv_some. split; [by left|]. exact E.
  - assert (Hn : mem_handle m1 = 0) by (by destruct E as (_ & _ & _ & _ & _ & Hn & _)).
    unfold c_true in H. rewrite Hn in H. cbn in H. inv_some. split; [by right|]. exact E.
Qed.

(** *** The operations *)

(** A client of the manager that releases buffers through it. *)
Definition gives_back (f : mm_state W -> Z -> option (mm_state W)) : Prop :=
  forall ex s k s', books ex s -> f s k = Some s' -> after ex s s'.

Section Clients.
(** The scatter manager gives cached buffers back. *)
Variable scatter_free_all : mm_state W -> Z -> option (mm_state W).
Hypothesis scatter : gives_back scatter_free_all.

(** The books are in order and the manager runs with the same configuration. *)
Definition keeps ex s s' : Prop := books ex s' /\ cfg (mgt s') = cfg (mgt s).

Lemma keeps_after ex s s' : after ex s s' -> keeps ex s s'.
Proof. by intros (? & ? & _). Qed.
Lemma keeps_refl ex s : books ex s -> keeps ex s s.
Proof. by intros. Qed.
Lemma keeps_trans ex s1 s2 s3 : keeps ex s1 s2 -> keeps ex s2 s3 -> keeps ex s1 s3.
Proof. intros (_ & H1) (H2 & H3). split; [done|congruence]. Qed.
Lemma keeps_ext ex s s' :
  mem_list (mgt s') = mem_list (mgt s) -> cnt (mgt s') = cnt (mgt s) -> cfg (mgt s') = cfg (mgt s) ->
  held (world s') = held (world s) -> ptrs (world s') = ptrs (world s) -> books ex s -> keeps ex s s'.
Proof. intros. by apply keeps_after, after_ext. Qed.
Lemma keeps_books ex s s' : keeps ex s s' -> books ex s'.
Proof. by intros [? _]. Qed.

(** More structures of the kernel do not matter. *)
Lemma books_more ex s w : held w = held (world s) -> (forall p, p ∈ ptrs (world s) -> p ∈ ptrs w) -> books ex s -> books ex (with_world s w).
Proof.
  intros Hh Hp [H1 H2 H3 H4 H5]. split; cbn; rewrite ?Hh; try done. eapply Forall_impl; [exact H4|]. intros p. apply Hp.
Qed.

Lemma books_admit ex s w p nm m c :
  books ex s -> held w = c :: held (world s) -> ptrs w = ptrs (world s) -> p ∉ (mem_list (mgt s)).*1 -> p ∈ ptrs (world s) ->
  chunk_of (res_pool (cfg (mgt s))) m = Some c -> length (owner m) = 8%nat -> books ex (admit_mm (with_world s w) p nm m).
Proof.
  intros [H1 H2 H3 H4 H5] Hh Hp Hn Hin Hc Ho. unfold admit_mm. set (m' := mk_mm _ _ _ _ _ _ _ _ _ _ _ _ _ _ _).
  assert (Hs : same_memory m m') by done.
  assert (Hperm : Permutation (m' :: ex ++ (mem_list (mgt s)).*2) (ex ++ (mem_list (mgt s) ++ [(p, m')]).*2)).
  { rewrite fmap_app. cbn. rewrite app_assoc. apply Permutation_cons_append. }
  split; cbn.
  - eapply balanced_perm; [exact Hperm|]. change (count_alloc (cnt (mgt s)) m) with (count_alloc (cnt (mgt s)) m').
    apply balanced_alloc; [by eapply chunk_not_coherent|done].
  - rewrite <- Hperm, Hh. cbn. rewrite (same_memory_chunk _ _ _ Hs), Hc. by rewrite H2.
  - rewrite fmap_app. apply Forall_app. split; [done|]. apply Forall_singleton. split; [cbn; by rewrite length_insert|].
    left. rewrite (same_memory_chunk _ _ _ Hs). split; [by eexists|cbn; lia].
  - rewrite fmap_app. apply Forall_app. rewrite Hp. split; [done|]. by apply Forall_singleton.
  - rewrite fmap_app. apply NoDup_app. split_and!; [done| |apply NoDup_singleton]. cbn. set_solver.
Qed.

(** A new buffer: its one user, its memory, and a size that is the requested one
    in whole pages or in units of the pools. *)
Definition new_buffer s p nm size m : Prop :=
  find_mm (mem_list (mgt s)) p = Some m /\ use_cnt m = 1 /\ owner m !! 0%nat = Some (Some nm) /\
  is_Some (chunk_of (res_pool (cfg (mgt s))) m) /\
  (buffer_size m = PAGE_ALIGN size \/ buffer_size m = align_int (PAGE_ALIGN size) (2 ^ RESERVE_MM_ALIGNED_2N)).

(** The state in which an allocation tries for the last time, with its structure at
    [p]: that of the caller, or what the scatter managers leave when their memory is
    taken back first. *)
Definition attempted s p s2 : Prop := exists w, held w = held (world s) /\ ptrs w = p :: ptrs (world s) /\ (p ∉ ptrs (world s)) /\
  (s2 = with_world s w \/ 0 < alloced_for_sc_cnt (cnt (mgt s)) /\ exists w1 k, held w1 = held w /\ ptrs w1 = ptrs w /\ scatter_free_all (with_world s w1) k = Some s2).
(** The last try: the new buffer is behind the others and takes one chunk; or nothing
    is taken and the structure is freed. *)
Definition last_try s2 s' nm size p (r : option Z) : Prop :=
  match r with
  | Some q => q = p /\ (p ∉ (mem_list (mgt s2)).*1) /\ exists m c, mem_list (mgt s') = mem_list (mgt s2) ++ [(p, m)] /\ new_buffer s' p nm size m /\
      chunk_of (res_pool (cfg (mgt s'))) m = Some c /\ held (world s') = c :: held (world s2) /\ ptrs (world s') = ptrs (world s2)
  | None => mgt s' = mgt s2 /\ held (world s') = held (world s2) /\ ptrs (world s') = filter (fun q => q <> p) (ptrs (world s2))
  end.

(** The end of an allocation that tried with [s2]. *)
Lemma alloc_ends ex s2 p nm size ret m2 w2 r s' : books ex s2 -> p ∉ (mem_list (mgt s2)).*1 -> p ∈ ptrs (world s2) ->
  length (owner m2) = 8%nat -> (ret = 0 \/ ret < 0) ->
  (buffer_size m2 = PAGE_ALIGN size \/ buffer_size m2 = align_int (PAGE_ALIGN size) (2 ^ RESERVE_MM_ALIGNED_2N)) ->
  (ptrs w2 = ptrs (world s2) /\ if ret =? 0 then exists c, chunk_of (res_pool (cfg (mgt s2))) m2 = Some c /\ held w2 = c :: held (world s2)
     else held w2 = held (world s2)) ->
  (if ret <? 0 then Some (None, with_world (with_world s2 w2) (kfree_mm w2 p)) else Some (Some p, admit_mm (with_world s2 w2) p nm m2)) = Some (r, s') ->
  keeps ex s2 s' /\ last_try s2 s' nm size p r.
Proof.
  intros Hb2 Hn2 Hp2 Hl Hr0 Hsz [Hpt Hhd] He. destruct Hr0 as [-> |Hr0].
  - cbn in He, Hhd. inv_some. destruct Hhd as (c & Hc & Hhd). split; [split; [by eapply books_admit|done]|]. split; [done|]. split; [done|]. unfold new_buffer. cbn.
    eexists _, c. split; [done|]. cbn. assert (Hch : forall m, same_memory m2 m -> chunk_of (res_pool (cfg (mgt s2))) m = Some c) by (intros m Hm; rewrite <- Hc; by apply same_memory_chunk).
    split_and!; [by apply find_app_last|done|by apply list_lookup_insert_eq; lia|eexists; by apply Hch|done|by apply Hch|done|done].
  - rewrite (proj2 (Z.ltb_lt ret 0)) in He by done. rewrite (proj2 (Z.eqb_neq ret 0)) in Hhd by lia. inv_some. destruct (law_kfree w2 p) as [K1 K2].
    split; [|split; [done|]; cbn; by rewrite K1, K2, Hhd, Hpt]. split; [|done]. destruct Hb2 as [B1 B2 B3 B4 B5]. split; cbn; rewrite ?K1, ?K2, ?Hhd, ?Hpt; try done.
    rewrite Forall_forall in B4 |- *. intros q Hq. apply list_elem_of_filter. split; [by intros ->|by apply B4].
Qed.
(** What [codec_mm_alloc] does: nothing, where there is no structure, or a try. *)
Lemma alloc_tries ex s nm size align flgs r s' : books ex s -> codec_mm_alloc scatter_free_all s nm size align flgs = Some (r, s') ->
  keeps ex s s' /\ (r = None /\ mgt s' = mgt s /\ held (world s') = held (world s) /\ ptrs (world s') = ptrs (world s) \/
    exists p s2, attempted s p s2 /\ (mem_list (mgt s2)).*1 ⊆ (mem_list (mgt s)).*1 /\ last_try s2 s' nm size p r).
Proof.
  intros Hb H. unfold codec_mm_alloc in H. destruct (kmalloc_mm (world s)) as [q w] eqn:Hk. apply law_kmalloc in Hk as [Hh Hp].
  destruct q as [p|].
  2: { inv_some. split; [|by left]. split; [|done]. apply books_more; [done|by rewrite Hp|done]. }
  destruct Hp as [Hfresh Hp].
  assert (Hb1 : books ex (with_world s w)) by (apply books_more; [done|rewrite Hp; set_solver|done]).
  assert (Hn1 : p ∉ (mem_list (mgt s)).*1).
  { intros Hin. pose proof (bk_ptrs _ _ Hb) as Hall. rewrite Forall_forall in Hall. by apply Hfresh, Hall. }
  assert (Hp1 : p ∈ ptrs (world (with_world s w))) by (cbn; rewrite Hp; set_solver).
  destruct (codec_mm_alloc_in (with_world s w) _) as [[[ret m1] w1]|] eqn:H1; [|done]. cbn [mbind option_bind] in H.
  apply alloc_in_spec in H1 as [Hr1 (O1 & O2 & O3 & O4 & O5 & O6)]; [|done].
  assert (Hl1 : length (owner m1) = 8%nat) by by rewrite O1.
  destruct (_ && _) eqn:Hretry.
  - rewrite !andb_true_iff, !Z.ltb_lt in Hretry. destruct Hretry as [[Hneg Hsc0] _].
    rewrite (proj2 (Z.eqb_neq ret 0)) in O6 by lia. destruct O6 as (O6 & O7 & O8 & O9).
    destruct (scatter_free_all _ _) as [s2|] eqn:Hsc; [|done]. cbn [mbind option_bind] in H.
    assert (Hat : attempted s p s2) by (exists w; split_and!; [done..|right; split; [exact Hsc0|]; by exists w1, (if flag (alloc_flags (with_world s w) flgs) CODEC_MM_FLAGS_TVP then 2 else 1)]).
    apply (scatter ex) in Hsc; [|apply books_more; [by rewrite O9|by rewrite O4|done]].
    destruct Hsc as (Hb2 & Hc2 & Hl2 & Hk2). cbn in Hc2, Hl2, Hk2.
    destruct (codec_mm_alloc_in s2 m1) as [[[ret2 m2] w2]|] eqn:H2; [|done]. cbn [mbind option_bind] in H.
    apply alloc_in_spec in H2 as [Hr2 (N1 & N2 & N3 & N4 & N5 & N6)]; [|done].
    apply (alloc_ends ex s2 p nm size ret2 m2 w2) in H as [[K1 K2] Ht]; [split; [split; [done|congruence]|right; by exists p, s2]|done|set_solver|apply Hk2; [rewrite O4; set_solver|done]|congruence|done|by rewrite O7 in N5|].
    split; [done|]. destruct (ret2 =? 0); [by destruct N6 as [_ N6]|by destruct N6 as (_ & _ & _ & N6)].
  - apply (alloc_ends ex (with_world s w) p nm size ret m1 w1) in H as [K Ht]; [split; [exact K|right; exists p, (with_world s w); split; [|by split]]|done..|].
    + exists w. split_and!; [done..|by left].
    + split; [done|]. destruct (ret =? 0); [by destruct O6 as [_ O6]|by destruct O6 as (_ & _ & _ & O6)].
Qed.
Lemma alloc_keeps ex s nm size align flgs r s' : books ex s ->
  codec_mm_alloc scatter_free_all s nm size align flgs = Some (r, s') -> keeps ex s s' /\
  match r with Some p => (p ∉ (mem_list (mgt s)).*1) /\ exists m, new_buffer s' p nm size m | None => True end.
Proof.
  intros Hb H. destruct (alloc_tries ex s nm size align flgs r s' Hb H) as [K [(-> & _)|(p & s2 & (w & _ & _ & Hf & _) & _ & Ht)]]; [done|]. split; [done|]. destruct r as [q|]; [|done].
  destruct Ht as (-> & _ & m & c & _ & Hm & _). split; [|by exists m]. intros Hin. pose proof (bk_ptrs _ _ Hb) as Hall. rewrite Forall_forall in Hall. by apply Hf, Hall.
Qed.

Lemma update_keeps ex s p m m' :
  books ex s -> find_mm (mem_list (mgt s)) p = Some m -> same_memory m m' -> good (res_pool (cfg (mgt s))) m' ->
  keeps ex s (with_list s (update_mm (mem_list (mgt s)) p m')).
Proof. intros. by eapply keeps_after, after_update. Qed.

(** Sharing memory of the manager. *)
Lemma request_keeps ex s p nm r s' m : books ex s -> find_mm (mem_list (mgt s)) p = Some m -> from_flags m <> FROM_COHERENT ->
  codec_mm_request_shared_mem s p nm = Some (r, s') -> keeps ex s s'.
Proof.
  intros Hb Hf Hn H. unfold codec_mm_request_shared_mem in H. rewrite Hf in H. destruct (Z.ltb_spec 7 (use_cnt m)); [by inv_some|].
  destruct (aset _ _ _) as [o|] eqn:Ho; [|done]. cbn [mbind option_bind] in H. inv_some.
  apply aset_length in Ho. destruct (books_good _ _ _ _ Hb Hf) as [Hl [[Hc Hu]|(Hco & _)]]; [|done].
  apply (update_keeps ex s p m); try done. split; [cbn; lia|]. left. split; [done|cbn; lia].
Qed.

Lemma request_runs s p m nm : books [] s -> find_mm (mem_list (mgt s)) p = Some m -> from_flags m <> FROM_COHERENT -> use_cnt m <= 7 ->
  exists o, codec_mm_request_shared_mem s p nm = Some (0, with_list s (update_mm (mem_list (mgt s)) p (with_users m o (use_cnt m + 1)))) /\
    books [] (with_list s (update_mm (mem_list (mgt s)) p (with_users m o (use_cnt m + 1)))).
Proof.
  intros Hb Hf Hco Hu. destruct (books_good _ _ _ _ Hb Hf) as [Hl [[Hc H1]|(H1 & _)]]; [|done].
  exists (<[Z.to_nat (use_cnt m) := Some nm]> (owner m)).
  assert (Hr : codec_mm_request_shared_mem s p nm = Some (0, with_list s (update_mm (mem_list (mgt s)) p (with_users m (<[Z.to_nat (use_cnt m) := Some nm]> (owner m)) (use_cnt m + 1))))).
  { unfold codec_mm_request_shared_mem. rewrite Hf, (proj2 (Z.ltb_ge 7 _)), aset_in by lia. done. }
  split; [done|]. eapply request_keeps in Hr; [|done|done|done]. apply Hr.
Qed.

Lemma init_pool_keeps ex s pn q r s' : books ex s -> codec_mm_init_tvp_pool s pn q = Some (r, s') -> keeps ex s s'.
Proof.
  intros Hb H. unfold codec_mm_init_tvp_pool in H. destruct (gen_pool_create (world s)) as [g w] eqn:Hg. apply law_create in Hg as [G1 G2].
  assert (K0 : keeps ex s (with_world s w)) by by apply keeps_ext.
  destruct g as [g|]; [|by inv_some]. destruct (find_mm _ q) as [m|] eqn:Hf; [|done]. cbn [mbind option_bind] in H.
  destruct (gen_pool_add _ _ _ _) as [ret w2] eqn:Ha. apply law_add in Ha as [A1 A2].
  assert (K1 : keeps ex s (with_world (with_world s w) w2)) by (eapply keeps_trans; [exact K0|by apply keeps_ext; [..|apply K0]]).
  destruct (ret <? 0).
  { inv_some. eapply keeps_trans; [exact K1|]. destruct (law_destroy w2 g) as [D1 D2]. apply keeps_ext; try done. apply K1. }
  destruct (set_slot _ _ _ _) as [x|]; [|done]. cbn [mbind option_bind] in H. inv_some.
  match goal with |- keeps _ _ (with_pool (with_list _ (update_mm _ _ ?m')) _ _) =>
    assert (K2 : keeps ex (with_world (with_world s w) w2) (with_list (with_world (with_world s w) w2) (update_mm (mem_list (mgt s)) q m'))) end.
  { apply (update_keeps ex (with_world (with_world s w) w2) q m); [apply K1|done|done|].
    exact (books_good _ _ _ _ (keeps_books _ _ _ K1) Hf). }
  eapply keeps_trans; [exact K1|]. eapply keeps_trans; [exact K2|]. apply keeps_ext; try (by destruct pn). apply K2.
Qed.

Lemma protect_slots_keeps n : forall ex s pn i ret r s', books ex s -> protect_slots s pn i ret n = Some (r, s') -> keeps ex s s'.
Proof.
  induction n as [|n IH]; intros ex s pn i ret r s' Hb H; cbn [protect_slots] in H; [by inv_some|].
  destruct (aget _ _) as [slot|]; [|done]. cbn [mbind option_bind] in H. destruct slot as [q|]; [|done]. cbn [mbind option_bind] in H.
  destruct (find_mm _ _) as [m|] eqn:Hf; [|done]. cbn [mbind option_bind] in H.
  destruct (_ =? _); [|by eapply IH]. destruct (tee_protect_tvp_mem _ _ _) as [[ret2 h] w] eqn:Ht. apply law_protect in Ht as [T1 T2].
  match type of H with protect_slots (with_world (with_list _ (update_mm _ _ ?m')) _) _ _ _ _ = _ =>
    assert (K1 : keeps ex s (with_list s (update_mm (mem_list (mgt s)) q m'))) end.
  { apply (update_keeps ex s q m); [done|done|done|exact (books_good _ _ _ _ Hb Hf)]. }
  eapply keeps_trans; [exact K1|]. match type of H with protect_slots ?s1 _ _ _ _ = _ => assert (K2 : keeps ex s1 s1) end.
  { apply keeps_refl. eapply books_ext; [..|exact (keeps_books _ _ _ K1)]; done. }
  eapply IH in H; [|exact (keeps_books _ _ _ K2)]. exact H.
Qed.

Lemma mmu_keeps ex s (b : bool) pg n set : books ex s ->
  keeps ex s (if b then with_world s (cma_mmu_op (world s) pg n set).2 else s).
Proof. intros. destruct b; [|by apply keeps_refl]. destruct (cma_mmu_op_same (world s) pg n set). by apply keeps_ext. Qed.

Lemma pool_turn_keeps ex s pn b sz r s' : books ex s -> pool_alloc_turn scatter_free_all s pn b sz = Some (r, s') -> keeps ex s s'.
Proof.
  intros Hb H. unfold pool_alloc_turn in H. destruct (codec_mm_alloc _ _ _ _ _ _) as [[q s1]|] eqn:Ha; [|done]. cbn [mbind option_bind] in H.
  apply (alloc_keeps ex) in Ha as [K1 _]; [|done]. destruct q as [q|]; [|by inv_some].
  destruct (find_mm _ q) as [m|]; [|done]. cbn [mbind option_bind] in H.
  set (bb := b && _) in *. set (pg := if _ =? FROM_CMA_RES then _ else _) in *.
  pose proof (mmu_keeps ex s1 bb pg (page_count m) false (keeps_books _ _ _ K1)) as K2.
  set (s2 := if bb then _ else _) in *.
  destruct (codec_mm_init_tvp_pool s2 pn q) as [[ret s3]|] eqn:Hi; [|done]. cbn [mbind option_bind] in H.
  apply (init_pool_keeps ex) in Hi; [|exact (keeps_books _ _ _ K2)].
  assert (K3 : keeps ex s s3) by (eapply keeps_trans; [exact K1|]; by eapply keeps_trans).
  destruct (ret <? 0).
  - pose proof (mmu_keeps ex s3 bb pg (page_count m) true (keeps_books _ _ _ K3)) as K4.
    destruct (codec_mm_release _ _ _) as [s4|] eqn:Hr; [|done]. cbn [mbind option_bind] in H. inv_some.
    apply (codec_release_after ex) in Hr; [|exact (keeps_books _ _ _ K4)].
    eapply keeps_trans; [exact K3|]. eapply keeps_trans; [exact K4|]. by apply keeps_after.
  - inv_some. eapply keeps_trans; [exact K3|]. apply keeps_ext; try (by destruct pn). apply K3.
Qed.

Lemma pool_turns_keeps n : forall ex s pn b sz r s', books ex s -> pool_alloc_turns scatter_free_all s pn b sz n = Some (r, s') -> keeps ex s s'.
Proof.
  induction n as [|n IH]; intros ex s pn b sz r s' Hb H; cbn [pool_alloc_turns] in H; [by inv_some|].
  destruct (pool_alloc_turn _ _ _ _ _) as [[q s1]|] eqn:Ht; [|done]. cbn [mbind option_bind] in H.
  apply (pool_turn_keeps ex) in Ht; [|done]. destruct q as [q|]; [by inv_some|]. cbv zeta in H. destruct (_ <? _); [by inv_some|].
  eapply IH in H; [|exact (keeps_books _ _ _ Ht)]. by eapply keeps_trans.
Qed.

Lemma extpool_alloc_keeps ex s pn sz r s' : books ex s -> codec_mm_extpool_pool_alloc scatter_free_all s pn sz = Some (r, s') -> keeps ex s s'.
Proof.
  intros Hb H. unfold codec_mm_extpool_pool_alloc in H.
  match type of H with (mbind _ ?e) = _ => destruct e as [[a1 s1]|] eqn:H1; [|done] end. cbn [mbind option_bind] in H.
  assert (K1 : keeps ex s s1) by (destruct (_ && _) in H1; [by eapply pool_turns_keeps|by inv_some]).
  match type of H with (mbind _ ?e) = _ => destruct e as [[a2 s2]|] eqn:H2; [|done] end. cbn [mbind option_bind] in H.
  assert (K2 : keeps ex s1 s2).
  { destruct (_ <=? _) in H2; [inv_some; by apply keeps_refl, (keeps_books _ _ _ K1)|]. cbv zeta in H2.
    destruct (_ <? _) in H2; [|inv_some; by apply keeps_refl, (keeps_books _ _ _ K1)].
    clear H1. destruct (pool_alloc_turns _ _ _ _ _ _) as [[a3 s3]|] eqn:H3; [|done]. cbn [mbind option_bind] in H2. inv_some.
    eapply pool_turns_keeps; [exact (keeps_books _ _ _ K1)|exact H3]. }
  assert (K3 : forall s3, keeps ex s s3 -> forall b : bool,
    (s4 ← (if b then '(_, s) ← codec_mm_tvp_pool_protect s3 pn; Some s else Some s3); Some (a2, s4)) = Some (r, s') -> keeps ex s s').
  { intros s3 Hk b Hx. destruct b; cbn [mbind option_bind] in Hx; [|by inv_some]. destruct (codec_mm_tvp_pool_protect s3 pn) as [[q s4]|] eqn:Hp; [|done].
    cbn [mbind option_bind] in Hx. inv_some. eapply keeps_trans; [exact Hk|]. eapply protect_slots_keeps; [exact (keeps_books _ _ _ Hk)|exact Hp]. }
  eapply (K3 _ _ _ H). Unshelve. destruct (0 <? a2); [|by eapply keeps_trans].
  eapply keeps_trans; [exact K1|]. eapply keeps_trans; [exact K2|]. apply keeps_ext; try (by destruct pn). apply K2.
Qed.

Lemma enable_keeps s r s' : books [] s -> codec_mm_enable_tvp scatter_free_all s = Some (r, s') -> keeps [] s s'.
Proof.
  intros Hb H. unfold codec_mm_enable_tvp in H. destruct (_ =? _); [by inv_some|]. cbv zeta in H.
  destruct (_ =? 1); [|inv_some; by apply keeps_ext].
  destruct (codec_mm_extpool_pool_alloc _ _ _ _) as [[q s1]|] eqn:H1; [|done]. cbn [mbind option_bind] in H. inv_some.
  apply (extpool_alloc_keeps []) in H1; [|by apply (books_ext [] s)].
  eapply keeps_trans; [by apply keeps_ext; [..|exact Hb]|]. eapply keeps_trans; [exact H1|].
  apply keeps_ext; try done. exact (keeps_books _ _ _ H1).
Qed.

Lemma disable_keeps s r s' : books [] s -> codec_mm_disable_tvp s = Some (r, s') -> keeps [] s s'.
Proof.
  intros Hb H. unfold codec_mm_disable_tvp in H. destruct (_ =? 0); [by inv_some|]. cbv zeta in H.
  set (s1 := with_tvp s _ _) in *. assert (K1 : keeps [] s s1) by by apply keeps_ext.
  assert (Hfin : forall s2, keeps [] s s2 -> Some (0, if tvp_user_count (mgt s2) <? 0 then with_tvp s2 (tvp_enable (mgt s2)) 0 else s2) = Some (r, s') -> keeps [] s s').
  { intros s2 K2 He. injection He as _ <-. destruct (tvp_user_count (mgt s2) <? 0); [|exact K2]. eapply keeps_trans; [exact K2|]. apply keeps_ext; try done. exact (keeps_books _ _ _ K2). }
  destruct (_ =? 0); [|by eapply Hfin].
  destruct (codec_mm_tvp_pool_unprotect s1) as [[q s2]|] eqn:H2; [|done]. cbn [mbind option_bind] in H.
  apply (unprotect_after []) in H2; [|exact (keeps_books _ _ _ K1)]. apply keeps_after in H2.
  assert (K2 : keeps [] s s2) by by eapply keeps_trans. destruct (_ =? 0); [|by eapply Hfin].
  destruct (codec_mm_extpool_pool_release s2 TVP) as [[q2 s3]|] eqn:H3; [|done]. cbn [mbind option_bind] in H. inv_some.
  apply (extpool_release_after []) in H3; [|exact (keeps_books _ _ _ K2)]. apply keeps_after in H3.
  eapply keeps_trans; [exact K2|]. eapply keeps_trans; [exact H3|]. apply keeps_ext; try done. exact (keeps_books _ _ _ H3).
Qed.

Lemma fastplay_keeps s v sz r s' : books [] s -> fastplay_enable_store scatter_free_all s v sz = Some (r, s') -> keeps [] s s'.
Proof.
  intros Hb H. unfold fastplay_enable_store in H. destruct v as [v|]; [|by inv_some].
  match type of H with (mbind _ ?e) = _ => destruct e as [s1|] eqn:H1; [|done] end. cbn [mbind option_bind] in H. inv_some.
  destruct (v =? 0).
  { destruct (codec_mm_extpool_pool_release s CMA_RES) as [[q s2]|] eqn:H2; [|done]. cbn [mbind option_bind] in H1. inv_some.
    apply (extpool_release_after []), keeps_after in H2; [|done]. eapply keeps_trans; [exact H2|].
    apply keeps_ext; try done. exact (keeps_books _ _ _ H2). }
  destruct (v =? 1); [|by inv_some].
  destruct (codec_mm_extpool_pool_alloc _ _ _ _) as [[q s2]|] eqn:H2; [|done]. cbn [mbind option_bind] in H1. inv_some.
  apply (extpool_alloc_keeps []) in H2; [|done]. eapply keeps_trans; [exact H2|].
  apply keeps_ext; try done. exact (keeps_books _ _ _ H2).
Qed.

(** Listing memory of others, and taking it off the list. *)
Lemma v4l_req_keeps s nm a sz ix r s' : books [] s -> v4l_reqbufs_from_codec_mm s nm a sz ix = (r, s') -> keeps [] s s'.
Proof.
  intros Hb H. unfold v4l_reqbufs_from_codec_mm in H. destruct (kmalloc_mm (world s)) as [q w] eqn:Hk. apply law_kmalloc in Hk as [Hh Hp].
  destruct q as [p|]; inv_some; [|split; [|done]; apply books_more; [done|by rewrite Hp|done]].
  destruct Hp as [Hfresh Hp]. split; [|done]. destruct Hb as [H1 H2 H3 H4 H5]. set (m := mk_mm _ _ _ _ _ _ _ _ _ _ _ _ _ _ _).
  assert (Hperm : Permutation (m :: (mem_list (mgt s)).*2) ((mem_list (mgt s) ++ [(p, m)]).*2)).
  { rewrite fmap_app. apply Permutation_cons_append. }
  split; cbn [mgt world cnt mem_list cfg with_cnt with_memid with_list with_world app] in *.
  - eapply balanced_perm; [exact Hperm|]. by apply (balanced_coherent _ _ m 1).
  - rewrite <- Hperm. cbn. by rewrite Hh.
  - rewrite fmap_app. apply Forall_app. split; [done|]. apply Forall_singleton. split; [done|by right].
  - rewrite fmap_app. apply Forall_app. rewrite Hp. split; [|apply Forall_singleton; set_solver].
    eapply Forall_impl; [exact H4|]. set_solver.
  - rewrite fmap_app. apply NoDup_app. split_and!; [done| |apply NoDup_singleton]. cbn.
    intros x Hx Hy. apply list_elem_of_singleton in Hy as ->. rewrite Forall_forall in H4. by apply Hfresh, H4.
Qed.

(** The buffer is the caller's own. *)
Lemma v4l_free_keeps s nm p m s' : books [] s -> find_mm (mem_list (mgt s)) p = Some m -> from_flags m = FROM_COHERENT ->
  owner m !! 0%nat = Some (Some nm) -> buffer_size m <> 0 -> v4l_freebufs_back_to_codec_mm s nm (Some p) = Some s' -> keeps [] s s'.
Proof.
  intros Hb Hf Hco Ho Hz H. unfold v4l_freebufs_back_to_codec_mm in H. rewrite Hf in H. cbn [mbind option_bind] in H.
  assert (Hoa : aget (owner m) 0 = Some (Some nm)) by by rewrite aget_lookup. rewrite Hoa in H. cbn [mbind option_bind] in H.
  rewrite bool_decide_true in H by done. unfold c_true in H. rewrite (proj2 (Z.eqb_neq _ 0)) in H by done. cbn [andb negb] in H. inv_some.
  destruct (books_good _ _ _ _ Hb Hf) as [_ [[[c Hc] _]|(_ & _ & Hfl)]]; [by apply chunk_not_coherent in Hc|].
  destruct (books_take_out [] s p m m Hb Hf ltac:(done)) as [[T1 T2 T3 T4 T5] Hn]. split; [|done].
  destruct (law_kfree (world s) p) as [K1 K2].
  split; cbn [mgt world cnt mem_list cfg with_cnt with_memid with_list with_world app] in *; rewrite ?K1, ?K2; try done.
  - apply (balanced_coherent _ _ m (-1)); done.
  - rewrite T2. cbn. unfold chunk_of at 1. by rewrite Hco.
  - rewrite Forall_forall in T4 |- *. intros q Hq. apply list_elem_of_filter. split; [by intros ->|by apply T4].
Qed.

(** *** Reachable states *)

(** A call of the manager that returns.  Memory of others is neither shared nor
    released, and taken off the list by the one who listed it. *)
Inductive mm_step : mm_state W -> mm_state W -> Prop :=
| step_alloc s nm size align flgs r s' : codec_mm_alloc scatter_free_all s nm size align flgs = Some (r, s') -> mm_step s s'
| step_alloc_dma s nm n align flgs r s' : codec_mm_alloc_for_dma scatter_free_all s nm n align flgs = Some (r, s') -> mm_step s s'
| step_release s p nm s' : codec_mm_release s p nm = Some s' -> mm_step s s'
| step_release_check s p nm s' : codec_mm_release_with_check s p nm = Some s' -> mm_step s s'
| step_free_dma s nm a r s' : codec_mm_free_for_dma s nm a = Some (r, s') -> mm_step s s'
| step_request s p nm m r s' : find_mm (mem_list (mgt s)) p = Some m -> from_flags m <> FROM_COHERENT ->
    codec_mm_request_shared_mem s p nm = Some (r, s') -> mm_step s s'
| step_enable s r s' : codec_mm_enable_tvp scatter_free_all s = Some (r, s') -> mm_step s s'
| step_disable s r s' : codec_mm_disable_tvp s = Some (r, s') -> mm_step s s'
| step_tvp_store keep_free s v sz r s' : gives_back keep_free -> tvp_enable_store scatter_free_all keep_free s v sz = Some (r, s') -> mm_step s s'
| step_fastplay s v sz r s' : fastplay_enable_store scatter_free_all s v sz = Some (r, s') -> mm_step s s'
| step_enough s sz wt r s' : codec_mm_enough_for_size scatter_free_all s sz wt = Some (r, s') -> mm_step s s'
| step_v4l_req s nm a sz ix r s' : v4l_reqbufs_from_codec_mm s nm a sz ix = (r, s') -> mm_step s s'
| step_v4l_free s nm p m s' : find_mm (mem_list (mgt s)) p = Some m -> from_flags m = FROM_COHERENT ->
    owner m !! 0%nat = Some (Some nm) -> buffer_size m <> 0 ->
    v4l_freebufs_back_to_codec_mm s nm (Some p) = Some s' -> mm_step s s'.

Lemma tvp_store_keeps keep_free s v sz r s' : gives_back keep_free -> books [] s -> tvp_enable_store scatter_free_all keep_free s v sz = Some (r, s') -> keeps [] s s'.
Proof.
  intros keeper Hb H. unfold tvp_enable_store in H. destruct v as [v|]; [|by inv_some].
  destruct (tvp_mode (cfg (mgt s)) =? 0).
  - destruct (keep_free s 2) as [s1|] eqn:H1; [|done]. cbn [mbind option_bind] in H. apply (keeper []), keeps_after in H1; [|done].
    destruct (scatter_free_all s1 3) as [s2|] eqn:H2; [|done]. cbn [mbind option_bind] in H.
    apply (scatter []), keeps_after in H2; [|exact (keeps_books _ _ _ H1)].
    assert (K2 : keeps [] s s2) by by eapply keeps_trans. assert (B2 := keeps_books _ _ _ K2).
    match type of H with (mbind _ ?e) = _ => destruct e as [s3|] eqn:H3; [|done] end. cbn [mbind option_bind] in H. inv_some.
    eapply keeps_trans; [exact K2|].
    assert (Hal : forall size e, ('(_, s) ← codec_mm_extpool_pool_alloc scatter_free_all s2 TVP size; Some (with_tvp s e (tvp_user_count (mgt s)))) = Some s' -> keeps [] s2 s').
    { intros size e Hx. destruct (codec_mm_extpool_pool_alloc scatter_free_all s2 TVP size) as [[q s4]|] eqn:H4; [|done]. cbn [mbind option_bind] in Hx. inv_some.
      apply (extpool_alloc_keeps []) in H4; [|done]. eapply keeps_trans; [exact H4|]. apply keeps_ext; try done. exact (keeps_books _ _ _ H4). }
    destruct (v =? 0).
    { destruct (codec_mm_extpool_pool_release s2 TVP) as [[q s4]|] eqn:H4; [|done]. cbn [mbind option_bind] in H3. inv_some.
      apply (extpool_release_after []), keeps_after in H4; [|done]. eapply keeps_trans; [exact H4|]. apply keeps_ext; try done. exact (keeps_books _ _ _ H4). }
    destruct (v =? 1); [by eapply Hal|]. destruct (v =? 2); [by eapply Hal|by inv_some].
  - destruct (_ =? 1); [|by inv_some].
    match type of H with (mbind _ ?e) = _ => destruct e as [s3|] eqn:H3; [|done] end. cbn [mbind option_bind] in H. inv_some.
    destruct (v =? 0).
    { destruct (codec_mm_disable_tvp s) as [[q s4]|] eqn:H4; [|done]. cbn [mbind option_bind] in H3. inv_some. by eapply disable_keeps. }
    destruct (_ || _); [|by inv_some].
    destruct (codec_mm_enable_tvp _ s) as [[q s4]|] eqn:H4; [|done]. cbn [mbind option_bind] in H3. inv_some. by eapply enable_keeps.
Qed.

Lemma step_keeps s s' : books [] s -> mm_step s s' -> keeps [] s s'.
Proof.
  intros Hb Hst. destruct Hst.
  - by apply (alloc_keeps []) in H as [K _].
  - unfold codec_mm_alloc_for_dma in H. destruct (codec_mm_alloc _ _ _ _ _ _) as [[q s1]|] eqn:H1; [|done]. cbn [mbind option_bind] in H.
    apply (alloc_keeps []) in H1 as [K _]; [|done]. destruct q; [|by inv_some]. destruct (find_mm _ _); [|done]. cbn [mbind option_bind] in H. by inv_some.
  - apply keeps_after. by eapply codec_release_after.
  - unfold codec_mm_release_with_check in H. destruct (codec_mm_valid_mm_locked _ _); [|by inv_some]. apply keeps_after. by eapply codec_release_after.
  - unfold codec_mm_free_for_dma in H. destruct (codec_mm_get_by_val_off _ _ _); [|by inv_some].
    destruct (codec_mm_release _ _ _) as [s1|] eqn:H1; [|done]. cbn [mbind option_bind] in H. inv_some. apply keeps_after. by eapply codec_release_after.
  - by eapply request_keeps.
  - by eapply enable_keeps.
  - by eapply disable_keeps.
  - by eapply tvp_store_keeps.
  - by eapply fastplay_keeps.
  - unfold codec_mm_enough_for_size in H. destruct (_ && _); [|by inv_some].
    destruct (scatter_free_all _ _) as [s1|] eqn:H1; [|done]. cbn [mbind option_bind] in H. apply (scatter []), keeps_after in H1; [|done].
    by destruct (negb _); inv_some.
  - by eapply v4l_req_keeps.
  - by eapply v4l_free_keeps.
Qed.

Lemma init_books w base size cma dbg tm r s : held w = [] -> codec_mm_mgt_init w base size cma dbg tm = (r, s) -> books [] s.
Proof.
  intros Hh H. unfold codec_mm_mgt_init in H. cbv zeta in H.
  assert (Hz : forall c w', held w' = [] -> books [] (mk_st (mk_mgt [] (mk_counters 0 0 0 0 0 0 0 0 0 0 0)
    (mk_pool (replicate TVP_MAX_SLOT None) (replicate TVP_MAX_SLOT None) 0 0) (mk_pool (replicate TVP_MAX_SLOT None) (replicate TVP_MAX_SLOT None) 0 0) c 0 0 0 0) w')).
  { intros c w' Hw. split; cbn; [by split|by rewrite Hw|constructor|constructor|constructor]. }
  destruct (0 <? size); [|inv_some; by apply Hz].
  destruct (gen_pool_create w) as [g w1] eqn:Hc. apply law_create in Hc as [Hc _]. destruct g as [g|]; [|inv_some; apply Hz; by rewrite Hc].
  destruct (gen_pool_add _ _ _ _) as [q w2] eqn:Ha. apply law_add in Ha as [Ha _]. inv_some. apply Hz. by rewrite Ha, Hc.
Qed.

Lemma rtc_books s0 s : books [] s0 -> rtc mm_step s0 s -> books [] s.
Proof. intros Hb Hr. revert Hb. induction Hr as [|x y z Hxy _ IH]; intros Hb; [done|]. apply IH. by eapply keeps_books, step_keeps. Qed.

(** In every state the manager reaches from its start, each counter is the sum
    over the buffers of the list, the memory held from the kernel is that of
    those buffers and nothing else, and every buffer of its own has one to eight
    users: nothing leaks and nothing is given back twice, also when the end of
    protected playback takes a pool apart. *)
Theorem mm_books_balanced w base size cma dbg tm r s0 s
  (Hw : held w = []) (Hinit : codec_mm_mgt_init w base size cma dbg tm = (r, s0)) (Hreach : rtc mm_step s0 s) :
  let bufs := (mem_list (mgt s)).*2 in
  balanced (cnt (mgt s)) bufs /\
  Permutation (held (world s)) (omap (chunk_of (res_pool (cfg (mgt s)))) bufs) /\
  Forall (good (res_pool (cfg (mgt s)))) bufs /\ NoDup (mem_list (mgt s)).*1.
Proof.
  apply init_books in Hinit; [|done]. apply rtc_books in Hreach as [H1 H2 H3 H4 H5]; [|done]. by split_and!.
Qed.

(** ** The life of a buffer *)

Lemma filter_map_absent (p : Z) (l : list Z) : p ∉ l -> filter (fun q => q <> p) l = l.
Proof.
  induction l as [|q l IH]; intros Hn; [done|]. apply not_elem_of_cons in Hn as [Hq Hn]. by rewrite filter_cons_True, IH by done.
Qed.
Lemma align_int_ge x n b : 0 <= n <= 30 -> 0 <= x <= b * 2 ^ n -> b * 2 ^ n < 2 ^ 31 -> x <= align_int x (2 ^ n) <= b * 2 ^ n.
Proof.
  intros Hn Hx Hb. assert (Hpn : 0 < 2 ^ n) by lia.
  unfold align_int. replace (Z.land (x + (2 ^ n - 1)) (Z.lnot (2 ^ n - 1))) with ((x + (2 ^ n - 1)) / 2 ^ n * 2 ^ n).
  2:{ replace (2 ^ n - 1) with (Z.ones n) by (rewrite Z.ones_equiv; lia). by rewrite <- Z.ldiff_land, Z.ldiff_ones_r, Z.shiftl_mul_pow2, Z.shiftr_div_pow2 by lia. }
  pose proof (Z.div_mod (x + (2 ^ n - 1)) (2 ^ n) ltac:(lia)) as D. pose proof (Z.mod_pos_bound (x + (2 ^ n - 1)) (2 ^ n) Hpn). set (q := _ / _) in *.
  assert (q < b + 1) by (apply (Z.mul_lt_mono_pos_l (2 ^ n)); lia). assert (2 ^ n * q <= 2 ^ n * b) by (apply Z.mul_le_mono_nonneg_l; lia).
  rewrite s32_small; lia.
Qed.
(** C36. Where memory of the scatter managers is not asked back first, an allocation that
    fails leaves the manager, the memory held from the kernel and its structures as they
    were.  One that succeeds puts the new buffer behind the others, with one user and a
    chunk that is the only memory taken; its structure is the only one, at an address not
    in use.  The same holds from the state that giving back scatter memory leaves.  The
    buffer is at least as large as asked for, up to 2 GB less the unit of the pools. *)
Theorem mm_alloc_spec s nm size align flgs r s'
  (Hb : books [] s) (H : codec_mm_alloc scatter_free_all s nm size align flgs = Some (r, s')) :
  books [] s' /\
  (r = None /\ mgt s' = mgt s /\ held (world s') = held (world s) /\ ptrs (world s') = ptrs (world s) \/
    exists p s2, attempted s p s2 /\ last_try s2 s' nm size p r) /\
  (alloced_for_sc_cnt (cnt (mgt s)) = 0 -> match r with
   | None => mgt s' = mgt s /\ held (world s') = held (world s) /\ ptrs (world s') = ptrs (world s)
   | Some p => exists m c, mem_list (mgt s') = mem_list (mgt s) ++ [(p, m)] /\ new_buffer s' p nm size m /\
       held (world s') = c :: held (world s) /\ ptrs (world s') = p :: ptrs (world s) /\ (p ∉ ptrs (world s)) end) /\
  (forall p m, r = Some p -> find_mm (mem_list (mgt s')) p = Some m -> 0 <= size <= 2 ^ 31 - 2 ^ RESERVE_MM_ALIGNED_2N -> size <= buffer_size m).
Proof.
  destruct (alloc_tries [] s nm size align flgs r s' Hb H) as [[K _] Ht]. split; [done|]. split; [|split].
  - destruct Ht as [Ht|(p & s2 & Ha & _ & Ht)]; [by left|right; by exists p, s2].
  - intros Hsc. destruct Ht as [(-> & Ht)|(p & s2 & (w & Hh & Hp & Hf & [->|[Hlt _]]) & _ & Ht)]; [done| |lia]. destruct r as [q|]; cbn in Ht.
    + destruct Ht as (-> & _ & m & c & Hl & Hm & _ & Hc & Hq). exists m, c. split_and!; try done; congruence.
    + destruct Ht as (-> & -> & ->). split_and!; [done|done|]. rewrite Hp, filter_cons_False by (by intros []). by apply filter_map_absent.
  - intros p m -> Hm Hsz. destruct Ht as [[? _]|(q & s2 & _ & _ & -> & _ & m1 & c & _ & (Hm1 & _ & _ & _ & Hs) & _)]; [done|]. rewrite Hm in Hm1. inversion Hm1; subst m1.
    unfold RESERVE_MM_ALIGNED_2N in *. pose proof (align_int_ge size 12 (2 ^ 19 - 32) ltac:(lia) ltac:(lia) ltac:(lia)) as A1. unfold PAGE_ALIGN in Hs. change PAGE_SIZE with (2 ^ 12) in Hs.
    pose proof (align_int_ge (align_int size (2 ^ 12)) 17 (2 ^ 14 - 1) ltac:(lia) ltac:(lia) ltac:(lia)) as A2. lia.
Qed.

End Clients.

Lemma drop_owner_total l nm i : 0 <= i < zlen l -> exists o, drop_owner l nm i = Some o.
Proof.
  intros Hi. unfold drop_owner. destruct (aget_is_Some l i Hi) as [x ->]. cbn [mbind option_bind]. unfold aset.
  rewrite length_imap, (proj2 (Z.leb_le 0 i)), (proj2 (Z.ltb_lt i (zlen l))) by lia. by eexists.
Qed.

Lemma give_back_total s m c : chunk_of (res_pool (cfg (mgt s))) m = Some c -> exists w, give_back s m = Some w.
Proof.
  unfold chunk_of, give_back. intros H. destruct (Z.eqb_spec (from_flags m) FROM_PAGES) as [Hf|Hf].
  { rewrite Hf. by eexists. }
  destruct (_ =? FROM_CMA); [by eexists|]. destruct (_ =? FROM_REVERSED); [destruct (res_pool _)|destruct (_ || _); [destruct (from_ext m)|]];
    first [done|by eexists].
Qed.

(** Giving the buffer back takes the protected pool apart. *)
Definition ends_pool s (m : codec_mm_s) : bool :=
  (from_flags m =? FROM_TVP) && (1 <=? tvp_mode (cfg (mgt s))) && (tvp_user_count (mgt s) =? 0).

(** Nothing but one buffer is touched. *)
Definition only_buffer s s' (p : Z) : Prop :=
  (forall pn, pool_of s' pn = pool_of s pn) /\ forall q, q <> p -> find_mm (mem_list (mgt s')) q = find_mm (mem_list (mgt s)) q.

(** The owners when one of the users called [nm] is gone: the place of the last user is
    empty, and its name is where [nm] was. *)
Definition owners_after (l : list (option bytes)) (nm : bytes) (last : Z) (o : list (option bytes)) : Prop :=
  length o = length l /\ forall i x, l !! i = Some x ->
    o !! i = Some (if Z.of_nat i =? last then None else if (Z.of_nat i <? last) && bool_decide (x = Some nm) then default None (l !! Z.to_nat last) else x).
Lemma drop_owner_spec l nm last o : 0 <= last -> drop_owner l nm last = Some o -> owners_after l nm last o.
Proof.
  intros Hlast H. unfold drop_owner in H. rewrite aget_lookup in H by done. destruct (l !! Z.to_nat last) as [x|] eqn:Hx; [|done]. cbn [mbind option_bind] in H.
  set (l1 := imap _ l) in H. assert (Hl : length l1 = length l) by apply length_imap. assert (Hlt : (Z.to_nat last < length l)%nat) by (by eapply lookup_lt_Some).
  rewrite aset_in in H by lia. injection H as <-. split; [by rewrite length_insert|]. intros i y Hy. destruct (Z.eqb_spec (Z.of_nat i) last) as [E|Hne].
  - replace (Z.to_nat last) with i by lia. apply list_lookup_insert_eq. rewrite Hl. by eapply lookup_lt_Some.
  - rewrite list_lookup_insert_ne by lia. unfold l1. rewrite list_lookup_imap, Hy, Hx. cbn. by destruct (_ && _).
Qed.

Lemma release_full s p m nm :
  books [] s -> find_mm (mem_list (mgt s)) p = Some m -> from_flags m <> FROM_COHERENT -> ends_pool s m = false ->
  exists s', codec_mm_release s p nm = Some s' /\ books [] s' /\
    (1 < use_cnt m -> exists o, owners_after (owner m) nm (use_cnt m - 1) o /\
       s' = with_list s (update_mm (mem_list (mgt s)) p (with_users m o (use_cnt m - 1)))) /\
    (use_cnt m = 1 -> mgt s' = mgt (with_cnt (with_list s (remove_mm (mem_list (mgt s)) p)) (count_free (cnt (mgt s)) m)) /\
       ptrs (world s') = filter (fun q => q <> p) (ptrs (world s)) /\
       exists c, chunk_of (res_pool (cfg (mgt s))) m = Some c /\ Permutation (held (world s)) (c :: held (world s'))).
Proof.
  intros Hb Hf Hn Hp. destruct (books_good _ _ _ _ Hb Hf) as [Hl [[[c Hc] Hu]|(Hco & _)]]; [|done].
  destruct (drop_owner_total (owner m) nm (use_cnt m - 1)) as [o Ho]; [lia|].
  enough (exists s', codec_mm_release s p nm = Some s' /\
    (1 < use_cnt m -> s' = with_list s (update_mm (mem_list (mgt s)) p (with_users m o (use_cnt m - 1)))) /\
    (use_cnt m = 1 -> exists w, give_back (with_list s (remove_mm (mem_list (mgt s)) p)) (with_users m o 0) = Some w /\
       mgt s' = mgt (with_cnt (with_list s (remove_mm (mem_list (mgt s)) p)) (count_free (cnt (mgt s)) m)) /\ world s' = kfree_mm w p)) as (s' & Hr & Hmore & Hlast).
  - exists s'. split; [done|]. assert (Ha := codec_release_after [] _ _ _ _ Hb Hr). split; [by destruct Ha|].
    split; [intros H1; exists o; split; [apply drop_owner_spec; [lia|done]|by apply Hmore]|]. intros H1. destruct (Hlast H1) as (w & Hg & -> & Hw). split; [done|].
    destruct (books_take_out [] s p m (with_users m o 0) Hb Hf ltac:(done)) as [Ht _].
    destruct (give_back_held _ _ c w [] Ht Hc Hg) as [Hh Hpt]. rewrite Hw. destruct (law_kfree w p) as [-> ->]. split; [by rewrite Hpt|]. by exists c.
  - unfold codec_mm_release, release_with. rewrite Hf, s32_small, Ho by lia. cbn [mbind option_bind].
    destruct (Z.eqb_spec (use_cnt m - 1) 0) as [Hz|Hz].
    + destruct (give_back_total (with_list s (remove_mm (mem_list (mgt s)) p)) (with_users m o 0) c Hc) as [w Hw].
      rewrite Hz. unfold codec_mm_free_in, DEPTH. cbn [free_in]. rewrite Hw. cbn [mbind option_bind].
      unfold ends_pool in Hp. cbn [from_flags with_users mgt cfg tvp_user_count with_cnt with_world with_list mem_list]. rewrite Hp. cbn [mbind option_bind].
      eexists. split; [done|]. split; [lia|]. intros _. by exists w.
    + eexists. split; [done|]. split; [done|lia].
Qed.
Lemma release_runs s p m nm :
  books [] s -> find_mm (mem_list (mgt s)) p = Some m -> from_flags m <> FROM_COHERENT -> ends_pool s m = false ->
  exists s', codec_mm_release s p nm = Some s' /\ books [] s' /\ only_buffer s s' p /\
    (1 < use_cnt m -> exists o, s' = with_list s (update_mm (mem_list (mgt s)) p (with_users m o (use_cnt m - 1)))) /\
    (use_cnt m = 1 -> mem_list (mgt s') = remove_mm (mem_list (mgt s)) p /\
       exists c, chunk_of (res_pool (cfg (mgt s))) m = Some c /\ Permutation (held (world s)) (c :: held (world s'))).
Proof.
  intros Hb Hf Hn Hp. destruct (release_full s p m nm Hb Hf Hn Hp) as (s' & Hr & Hb' & Hmore & Hlast). exists s'. split; [done|]. split; [done|].
  destruct (books_good _ _ _ _ Hb Hf) as [_ [[_ Hu]|(Hco & _)]]; [|done]. split; [|split].
  - destruct (decide (use_cnt m = 1)) as [H1|H1].
    + destruct (Hlast H1) as (E & _). unfold only_buffer, pool_of. rewrite E. split; [by intros []|intros q Hq; by apply find_remove_other].
    + destruct Hmore as (o & _ & ->); [lia|]. split; [by intros []|intros q Hq; by apply find_update_other].
  - intros H1. destruct (Hmore H1) as (o & _ & E). by exists o.
  - intros H1. destruct (Hlast H1) as (E & _ & Hc). by rewrite E.
Qed.

(** C21. Releasing memory of the manager, where that does not take the protected pool
    apart.  With other users the buffer has one less and [nm] is no longer an owner, its
    place taken by the last; that is all that changes.  The last user takes the buffer
    off the list and its size off the counters, and gives exactly its memory back to where
    it came from, and its structure; nothing else of the manager changes. *)
Theorem mm_release_spec s p m nm
  (Hb : books [] s) (Hf : find_mm (mem_list (mgt s)) p = Some m) (Hn : from_flags m <> FROM_COHERENT) (Hp : ends_pool s m = false) :
  exists s', codec_mm_release s p nm = Some s' /\ books [] s' /\
    (1 < use_cnt m -> exists o, owners_after (owner m) nm (use_cnt m - 1) o /\
       s' = with_list s (update_mm (mem_list (mgt s)) p (with_users m o (use_cnt m - 1)))) /\
    (use_cnt m = 1 -> mgt s' = mgt (with_cnt (with_list s (remove_mm (mem_list (mgt s)) p)) (count_free (cnt (mgt s)) m)) /\
       find_mm (mem_list (mgt s')) p = None /\ ptrs (world s') = filter (fun q => q <> p) (ptrs (world s)) /\
       exists c, chunk_of (res_pool (cfg (mgt s))) m = Some c /\ Permutation (held (world s)) (c :: held (world s'))).
Proof.
  destruct (release_full s p m nm Hb Hf Hn Hp) as (s' & Hr & Hb' & Hmore & Hlast). exists s'. split_and!; [done..|].
  intros H1. destruct (Hlast H1) as (Hl & Hpt & Hc). split_and!; try done. rewrite Hl. apply find_removed; [apply (bk_nodup _ _ Hb)|].
  apply list_elem_of_fmap. exists (p, m). split; [done|]. by apply find_in.
Qed.

(** Without scatter memory an allocation only adds its buffer to the list. *)
Lemma alloc_appends scatter s nm size align flgs p s1 :
  alloced_for_sc_cnt (cnt (mgt s)) = 0 -> codec_mm_alloc scatter s nm size align flgs = Some (Some p, s1) ->
  exists m, mem_list (mgt s1) = mem_list (mgt s) ++ [(p, m)] /\ tvp_user_count (mgt s1) = tvp_user_count (mgt s).
Proof.
  intros Hsc H. unfold codec_mm_alloc in H. destruct (kmalloc_mm (world s)) as [[q|] w]; [|done].
  destruct (codec_mm_alloc_in (with_world s w) _) as [[[ret m1] w1]|]; [|done]. cbn [mbind option_bind] in H.
  cbn [mgt cnt with_world] in H. rewrite Hsc, (Z.ltb_irrefl 0), andb_false_r in H. cbn [andb mbind option_bind] in H.
  destruct (ret <? 0); [done|]. injection H as <- <-. by eexists.
Qed.

(** Memory allocated for the device and freed by its address: the list, the
    memory held and the books are as before.  (No scatter memory is cached.) *)
Theorem mm_dma_roundtrip scatter s nm n align flgs addr s1
  (Hb : books [] s) (Hs : gives_back scatter) (Hsc : alloced_for_sc_cnt (cnt (mgt s)) = 0)
  (Hu : tvp_mode (cfg (mgt s)) <= 0 \/ tvp_user_count (mgt s) <> 0)
  (Ha : codec_mm_alloc_for_dma scatter s nm n align flgs = Some (addr, s1)) (Hz : addr <> 0) :
  exists s2, codec_mm_free_for_dma s1 nm addr = Some (0, s2) /\ books [] s2 /\ mem_list (mgt s2) = mem_list (mgt s) /\
    Permutation (held (world s2)) (held (world s)) /\
    total_alloced_size (cnt (mgt s2)) = total_alloced_size (cnt (mgt s)).
Proof.
  unfold codec_mm_alloc_for_dma in Ha. destruct (codec_mm_alloc _ _ _ _ _ _) as [[[p|] s']|] eqn:H; [| |done]; cbn [mbind option_bind] in Ha; [|by inv_some].
  destruct (find_mm (mem_list (mgt s')) p) as [m|] eqn:Hf; [|done]. cbn [mbind option_bind] in Ha. inv_some.
  destruct (alloc_appends _ _ _ _ _ _ _ _ Hsc H) as (m1 & Hl & Htu).
  destruct (alloc_keeps scatter Hs [] _ _ _ _ _ _ _ Hb H) as [[Hb1 Hcf] [Hni (m2 & Hf2 & Hu1 & _ & [c Hc] & _)]].
  rewrite Hl, find_app_last in Hf, Hf2 by done. injection Hf as ->. injection Hf2 as <-.
  assert (Hf : find_mm (mem_list (mgt s1)) p = Some m) by by rewrite Hl, find_app_last.
  destruct (release_runs s1 p m nm Hb1 Hf) as (s2 & Hr & Hb2 & _ & _ & Hlast).
  - intros Hco. by eapply chunk_not_coherent.
  - unfold ends_pool. rewrite Hcf, Htu. destruct Hu as [Hu|Hu]; [rewrite (proj2 (Z.leb_gt 1 _)) by lia|rewrite (proj2 (Z.eqb_neq _ 0)) by done];
      by rewrite ?andb_false_r.
  - destruct (Hlast Hu1) as [Hl2 _]. rewrite Hl, remove_app_last in Hl2 by done. exists s2.
    assert (Hk := keeps_after _ _ _ (codec_release_after [] _ _ _ _ Hb1 Hr)). destruct Hk as [_ Hcf2].
    split; [|split; [done|split; [done|split]]].
    + unfold codec_mm_free_for_dma, codec_mm_get_by_val_off. rewrite Hl, foldl_app. cbn. rewrite Z.eqb_refl. cbn. by rewrite Hr.
    + rewrite (bk_held _ _ Hb2), (bk_held _ _ Hb). by rewrite Hl2, Hcf2, Hcf.
    + rewrite (bal_total _ _ (bk_cnt _ _ Hb2)), (bal_total _ _ (bk_cnt _ _ Hb)). by rewrite Hl2.
Qed.

(** A ninth user is refused without a sign: the result is 0 as for any other, and
    nothing has changed. *)
Theorem mm_request_full s p m nm
  (Hf : find_mm (mem_list (mgt s)) p = Some m) (Hu : 7 < use_cnt m) :
  codec_mm_request_shared_mem s p nm = Some (0, s).
Proof. unfold codec_mm_request_shared_mem. by rewrite Hf, (proj2 (Z.ltb_lt 7 _)). Qed.

(** Memory of others that is listed has no users: releasing it as a buffer of the
    manager reads its owners at -1. *)
Theorem mm_release_v4l s nm a sz ix p s' nm2
  (Hb : books [] s) (H : v4l_reqbufs_from_codec_mm s nm a sz ix = (Some p, s')) :
  codec_mm_release s' p nm2 = None.
Proof.
  unfold v4l_reqbufs_from_codec_mm in H. destruct (kmalloc_mm (world s)) as [[q|] w] eqn:Hk; [|done]. inv_some.
  apply law_kmalloc in Hk as [_ [Hfresh _]].
  assert (Hni : p ∉ (mem_list (mgt s)).*1).
  { intros Hin. pose proof (bk_ptrs _ _ Hb) as Hall. rewrite Forall_forall in Hall. by apply Hfresh, Hall. }
  unfold codec_mm_release, release_with. cbn [mgt with_cnt with_memid with_list with_world mem_list]. set (m := mk_mm _ _ _ _ _ _ _ _ _ _ _ _ _ _ _).
  by rewrite find_app_last.
Qed.

End Laws.

(** ** On the ledger *)

Definition no_scatter (s : mm_state ledger) (_ : Z) : option (mm_state ledger) := Some s.
Definition mm_run (r : option (option Z * mm_state ledger)) : option Z * mm_state ledger :=
  default (None, mm_start 0 0 0 0) r.

(** 16 MB reserved and 16 MB of contiguous area; a buffer of 1 MB and one byte
    for the device, a second user of it. *)
Definition st0 : mm_state ledger := mm_start 0x10000000 (16 * SZ_1M) (16 * SZ_1M) 1.
Definition st1 : option Z * mm_state ledger := mm_run (codec_mm_alloc no_scatter st0 (str "vdec") (SZ_1M + 1) 17 CODEC_MM_FLAGS_DMA).
Definition st2 : mm_state ledger :=
  from_option snd st0 (codec_mm_request_shared_mem st1.2 1 (str "disp")).
Definition held_chunks (s : mm_state ledger) : list chunk := l_held (world s).
Definition buf1 : codec_mm_s := default (fresh_mm 0 0 0) (find_mm (mem_list (mgt st1.2)) 1).
Definition buf2 : codec_mm_s := default (fresh_mm 0 0 0) (find_mm (mem_list (mgt st2)) 1).

Lemma st_reach : rtc (mm_step (held := l_held) (ptrs := l_ptrs) no_scatter) st0 st2.
Proof.
  eapply rtc_l; [eapply (step_alloc _ _ (str "vdec") (SZ_1M + 1) 17 CODEC_MM_FLAGS_DMA (Some 1)); by vm_compute|].
  eapply (rtc_l _ _ st2); [|apply rtc_refl].
  by apply (step_request _ _ 1 (str "disp") buf1 0).
Qed.

Lemma no_scatter_gives_back : gives_back (held := l_held) (ptrs := l_ptrs) no_scatter.
Proof. intros ex s k s' Hb [= <-]. by apply after_refl. Qed.

Lemma start_books base size cma tm : books (held := l_held) (ptrs := l_ptrs) [] (mm_start base size cma tm).
Proof.
  unfold mm_start. destruct (codec_mm_mgt_init _ _ _ _ _ _) as [r s] eqn:H. by apply init_books in H.
Qed.

Lemma st_books s : rtc (mm_step (held := l_held) (ptrs := l_ptrs) no_scatter) st0 s -> books (held := l_held) (ptrs := l_ptrs) [] s.
Proof. apply (rtc_books no_scatter no_scatter_gives_back), start_books. Qed.

Lemma st1_books : books (held := l_held) (ptrs := l_ptrs) [] st1.2.
Proof.
  apply st_books. eapply rtc_l; [|apply rtc_refl].
  eapply (step_alloc _ _ (str "vdec") (SZ_1M + 1) 17 CODEC_MM_FLAGS_DMA (Some 1)). by vm_compute.
Qed.

Lemma mm_books_balanced_witness :
  let bufs := (mem_list (mgt st2)).*2 in
  bufs = [buf2] /\ balanced (cnt (mgt st2)) bufs /\
  Permutation (held_chunks st2) (omap (chunk_of (res_pool (cfg (mgt st2)))) bufs).
Proof.
  split; [by vm_compute|].
  destruct (mm_books_balanced no_scatter no_scatter_gives_back
    (ledger0 (16 * SZ_1M / PAGE_SIZE)) 0x10000000 (16 * SZ_1M) (16 * SZ_1M) 0 1 0 st0 st2) as (H1 & H2 & _);
    [done|by vm_compute|exact st_reach|by split].
Defined.

(** One byte more than a megabyte is rounded to 128 kB. *)
Lemma mm_alloc_spec_witness :
  buffer_size buf1 = 0x120000 /\ use_cnt buf1 = 1 /\ SZ_1M + 1 <= buffer_size buf1 /\
  exists m c, mem_list (mgt st1.2) = [] ++ [(1, m)] /\ new_buffer st1.2 1 (str "vdec") (SZ_1M + 1) m /\
    held_chunks st1.2 = c :: held_chunks st0 /\ l_ptrs (world st1.2) = 1 :: l_ptrs (world st0) /\ (1 ∉ l_ptrs (world st0)).
Proof.
  split; [by vm_compute|]. split; [by vm_compute|].
  destruct (mm_alloc_spec no_scatter no_scatter_gives_back st0 (str "vdec") (SZ_1M + 1) 17 CODEC_MM_FLAGS_DMA (Some 1) st1.2) as (_ & _ & H & Hs);
    [by apply st_books, rtc_refl|by vm_compute|]. split; [apply (Hs 1 buf1); by vm_compute|apply H; by vm_compute].
Defined.

Lemma mm_dma_roundtrip_witness : exists s1 s2,
  codec_mm_alloc_for_dma no_scatter (mm_start 0x10000000 (16 * SZ_1M) (16 * SZ_1M) 0) (str "vdec") 300 0 CODEC_MM_FLAGS_CMA = Some (2 * SZ_1M, s1) /\
  codec_mm_free_for_dma s1 (str "vdec") (2 * SZ_1M) = Some (0, s2) /\ mem_list (mgt s2) = [].
Proof.
  eexists. edestruct (mm_dma_roundtrip no_scatter (mm_start 0x10000000 (16 * SZ_1M) (16 * SZ_1M) 0) (str "vdec") 300 0 CODEC_MM_FLAGS_CMA (2 * SZ_1M)) as (s2 & Hs2 & _ & Hl & _);
    [apply start_books|exact no_scatter_gives_back|by vm_compute|left; by vm_compute|by vm_compute|by vm_compute|].
  exists s2. split; [by vm_compute|]. split; [exact Hs2|exact Hl].
Defined.

(** The last user, and one of two. *)
Lemma mm_release_spec_witness : (use_cnt buf1 = 1 /\ exists s', codec_mm_release st1.2 1 (str "vdec") = Some s' /\
  find_mm (mem_list (mgt s')) 1 = None /\ held_chunks s' = []) /\
  use_cnt buf2 = 2 /\ exists s' o, codec_mm_release st2 1 (str "vdec") = Some s' /\ owners_after (owner buf2) (str "vdec") 1 o /\
    s' = with_list st2 (update_mm (mem_list (mgt st2)) 1 (with_users buf2 o 1)).
Proof.
  split; (split; [by vm_compute|]).
  - destruct (mm_release_spec st1.2 1 buf1 (str "vdec")) as (s' & Hr & _ & _ & Hlast);
      [exact st1_books|by vm_compute|by vm_compute|by vm_compute|].
    exists s'. split; [exact Hr|]. destruct (Hlast eq_refl) as (_ & Hf & _ & c & Hc & Hp). split; [done|].
    apply Permutation_length in Hp. unfold held_chunks. destruct (l_held (world s')) as [|d l]; [done|].
    assert (Hl : length (l_held (world st1.2)) = 1%nat) by by vm_compute. rewrite Hl in Hp. by cbn in Hp.
  - destruct (mm_release_spec st2 1 buf2 (str "vdec")) as (s' & Hr & _ & Hmore & _);
      [by apply st_books, st_reach|by vm_compute|by vm_compute|by vm_compute|].
    exists s'. destruct (Hmore eq_refl) as (o & Ho & Es). by exists o.
Defined.

(** Seven more users fill the buffer. *)
Fixpoint share (s : mm_state ledger) (n : nat) : mm_state ledger :=
  match n with O => s | S n => share (from_option snd s (codec_mm_request_shared_mem s 1 (str "disp"))) n end.
Definition st_full : mm_state ledger := share st1.2 7.
Definition buf_full : codec_mm_s := default (fresh_mm 0 0 0) (find_mm (mem_list (mgt st_full)) 1).

Lemma mm_request_full_witness : use_cnt buf_full = 8 /\ codec_mm_request_shared_mem st_full 1 (str "keeper") = Some (0, st_full).
Proof. split; [by vm_compute|]. apply (mm_request_full st_full 1 buf_full (str "keeper")); by vm_compute. Defined.

Lemma mm_release_v4l_witness : exists s', v4l_reqbufs_from_codec_mm st0 (str "v4l") 0x20000000 4096 0 = (Some 1, s') /\
  codec_mm_release s' 1 (str "v4l") = None.
Proof.
  eexists. split; [by vm_compute|].
  eapply (mm_release_v4l st0 (str "v4l") 0x20000000 4096 0 1); [by apply st_books, rtc_refl|by vm_compute].
Defined.
