(* ===== verification/CodecMmPool.v ===== *)
(** * The pools of the manager of decoder memory

    The slots of a pool that is only partly released end up in front, in their
    order; and what the size that is taken off the wrong pool means for the
    memory for fast start. *)

From stdpp Require Import base numbers list option strings.
From S2P Require Import Prelude KText CodecMm CodecMmLaws CodecMmSpec.

(** ** Compaction *)

(** A slot: its pool and its buffer. *)
Abbreviation slot := (option Z * option Z)%type.
Definition no_slot : slot := (None, None).
Definition pool_of_slots (l : list slot) (n t : Z) : extpool_mgt_s := mk_pool l.*1 l.*2 n t.
Definition live_slot (x : slot) : bool := bool_decide (x.1 <> None).
(** A slot without a pool has no buffer. *)
Definition slot_clean (x : slot) : Prop := x.1 = None -> x.2 = None.

Lemma aget_fst l i : 0 <= i -> aget (l : list slot).*1 i = fst <$> l !! Z.to_nat i.
Proof. intros. by rewrite aget_lookup, list_lookup_fmap. Qed.
Lemma aget_snd l i : 0 <= i -> aget (l : list slot).*2 i = snd <$> l !! Z.to_nat i.
Proof. intros. by rewrite aget_lookup, list_lookup_fmap. Qed.

Lemma insert_mid {A B} (f : A -> B) (l : list A) (x : A) k (y : B) : <[length l := y]> (f <$> l ++ x :: k) = (f <$> l) ++ y :: (f <$> k).
Proof. induction l as [|z l IH]; cbn; [done|]. f_equal. exact IH. Qed.

Lemma set_slot_at l k i n t g m : i = zlen l -> 
  set_slot (pool_of_slots (l ++ k) n t) i g m = match k with [] => None | _ :: k => Some (pool_of_slots (l ++ (g, m) :: k) n t) end.
Proof.
  intros ->. unfold set_slot, pool_of_slots. cbn [gen_pool mm slot_num total_size]. destruct k as [|x k].
  - rewrite app_nil_r. unfold aset. rewrite !length_fmap. by rewrite Z.ltb_irrefl, andb_false_r.
  - rewrite !aset_in by (rewrite length_fmap, length_app; cbn [length]; lia). cbn [mbind option_bind]. do 2 f_equal.
    + by rewrite Nat2Z.id, insert_mid, fmap_app.
    + by rewrite Nat2Z.id, insert_mid, fmap_app.
Qed.

Lemma get_slot_at l x k i n t : i = zlen l ->
  aget (gen_pool (pool_of_slots (l ++ x :: k) n t)) i = Some x.1 /\ aget (mm (pool_of_slots (l ++ x :: k) n t)) i = Some x.2.
Proof.
  intros ->. cbn [gen_pool mm pool_of_slots]. rewrite aget_fst, aget_snd, Nat2Z.id by lia. by rewrite list_lookup_middle.
Qed.

Lemma repl_mid k (l : list slot) : replicate k no_slot ++ (None, None) :: l = replicate (S k) no_slot ++ l.
Proof. induction k as [|k IH]; [done|]. cbn [replicate app] in *. by rewrite IH. Qed.

Lemma compact_loop n t tail rest : forall front (k : nat) before,
  Forall slot_clean rest ->
  (k = 0%nat /\ zlen front + zlen rest < before \/ (0 < k)%nat /\ before = zlen front) ->
  compact_slots (pool_of_slots (front ++ replicate k no_slot ++ rest ++ tail) n t) before (zlen front + Z.of_nat k) (length rest)
  = Some (pool_of_slots (front ++ filter live_slot rest ++
        replicate (k + length (filter (fun x => negb (live_slot x)) rest)) no_slot ++ tail) n t).
Proof.
  induction rest as [|x rest IH]; intros front k before Hc Hk; cbn [compact_slots length].
  { cbn. by rewrite Nat.add_0_r. }
  apply Forall_cons in Hc as [Hx Hc]. set (i := zlen front + Z.of_nat k).
  assert (Hi : i = zlen (front ++ replicate k no_slot)) by (rewrite length_app, length_replicate; lia).
  assert (Hlist : front ++ replicate k no_slot ++ (x :: rest) ++ tail = (front ++ replicate k no_slot) ++ x :: (rest ++ tail))
    by by rewrite <- app_assoc.
  destruct (get_slot_at (front ++ replicate k no_slot) x (rest ++ tail) i n t Hi) as [Hg Hm].
  rewrite Hlist, Hg. cbn [mbind option_bind]. cbn [length] in Hk.
  assert (Hd : forall b fr k', zlen fr + Z.of_nat k' = i + 1 -> (k' = 0%nat /\ zlen fr + zlen rest < b \/ (0 < k')%nat /\ b = zlen fr) ->
    fr ++ filter live_slot rest ++ replicate (k' + length (filter (fun x => negb (live_slot x)) rest)) no_slot ++ tail
    = front ++ filter live_slot (x :: rest) ++ replicate (k + length (filter (fun x => negb (live_slot x)) (x :: rest))) no_slot ++ tail ->
    compact_slots (pool_of_slots (fr ++ replicate k' no_slot ++ rest ++ tail) n t) b (i + 1) (length rest)
    = Some (pool_of_slots (front ++ filter live_slot (x :: rest) ++
        replicate (k + length (filter (fun x => negb (live_slot x)) (x :: rest))) no_slot ++ tail) n t)).
  { intros b fr k' Hlen Hb He. rewrite <- Hlen, IH by done. by rewrite He. }
  destruct x as [[g|] m].
  - rewrite filter_cons_True in Hd |- * by done. rewrite filter_cons_False in Hd |- * by (by intros []).
    cbn [fst] in *. destruct (Z.ltb_spec before i) as [Hlt|Hge].
    + destruct Hk as [[-> Hk]|[Hk ->]]; [lia|]. destruct k as [|k]; [lia|]. rewrite Hm. cbn [mbind option_bind snd].
      rewrite <- (app_assoc front). rewrite (set_slot_at front) by done. cbn [replicate app mbind option_bind].
      change (front ++ (Some g, m) :: replicate k no_slot ++ (Some g, m) :: rest ++ tail)
        with (front ++ ((Some g, m) :: replicate k no_slot) ++ (Some g, m) :: rest ++ tail).
      rewrite app_assoc, (set_slot_at (front ++ _)) by (rewrite length_app in Hi |- *; cbn [length replicate] in Hi |- *; lia).
      cbn [mbind option_bind].
      destruct (get_slot_at (front ++ (Some g, m) :: replicate k no_slot) (None, None) (rest ++ tail) i n t) as [-> _];
        [rewrite length_app in Hi |- *; cbn [length replicate] in Hi |- *; lia|].
      cbn [fst mbind option_bind]. rewrite (proj2 (Z.ltb_ge i _)) by lia.
      refine (eq_trans _ (Hd (zlen front + 1) (front ++ [(Some g, m)]) (S k) _ _ _)).
      * do 2 f_equal. rewrite <- !app_assoc, <- repl_mid. done.
      * rewrite length_app. cbn [length]. lia.
      * right. rewrite length_app. cbn [length]. lia.
      * by rewrite <- !app_assoc.
    + destruct Hk as [[-> Hk]|[Hk ->]]; [|lia]. cbn [mbind option_bind]. rewrite Hg. cbn [fst mbind option_bind].
      rewrite app_nil_r. change ((Some g, m) :: rest ++ tail) with ([(Some g, m)] ++ rest ++ tail). rewrite app_assoc.
      apply (Hd before (front ++ [(Some g, m)]) 0%nat).
      * rewrite length_app. cbn [length]. lia.
      * left. rewrite length_app. cbn [length]. lia.
      * by rewrite <- !app_assoc.
  - rewrite filter_cons_False in Hd |- * by (by intros []). rewrite filter_cons_True in Hd |- * by done.
    cbn [fst snd] in *. assert (m = None) as -> by by apply Hx. cbn [mbind option_bind]. rewrite Hg. cbn [fst mbind option_bind].
    refine (eq_trans _ (Hd (if i <? before then i else before) front (S k) _ _ _)).
    + do 2 f_equal. by rewrite <- !app_assoc, <- repl_mid.
    + lia.
    + right. split; [lia|]. destruct (Z.ltb_spec i before); lia.
    + do 2 f_equal. cbn [length]. by rewrite Nat.add_succ_r.
Qed.

(** ** Releasing a pool *)

Section Release.
Context {W : Type} {env : MmEnv W} {held : W -> list chunk} {ptrs : W -> list Z} {laws : MmLaws env held ptrs}.
Implicit Types s : mm_state W.
Abbreviation books := (books (held := held) (ptrs := ptrs)).

(** The buffers of the slots are the pool's own: on the list, one each, and
    neither memory of others nor taken from the protected pool itself. *)
Definition own_slot s (x : slot) : Prop :=
  slot_clean x /\ forall q, x.2 = Some q -> exists m, find_mm (mem_list (mgt s)) q = Some m /\ from_flags m <> FROM_TVP /\ from_flags m <> FROM_COHERENT.
Definition own_slots s (l : list slot) : Prop := Forall (own_slot s) l /\ NoDup (omap snd l).

Lemma own_slots_mono s s' x l : own_slots s (x :: l) ->
  (forall q, x.2 <> Some q -> find_mm (mem_list (mgt s')) q = find_mm (mem_list (mgt s)) q) -> own_slots s' l.
Proof.
  intros [Hf Hn] Hs. apply Forall_cons in Hf as [_ Hf]. split.
  - assert (Hni : forall q, Some q ∈ l.*2 -> x.2 <> Some q).
    { intros q Hq Hx. cbn in Hn. rewrite Hx in Hn. apply NoDup_cons in Hn as [Hn _]. apply Hn, list_elem_of_omap.
      apply list_elem_of_fmap in Hq as (y & Hy & Hin). by exists y. }
    rewrite Forall_forall in Hf |- *. intros y Hy. destruct (Hf y Hy) as [Hc Hm]. split; [done|]. intros q Hq. rewrite Hs; [by apply Hm|].
    apply Hni, list_elem_of_fmap. by exists y.
  - cbn in Hn. destruct x.2; [by apply NoDup_cons in Hn as [_ Hn]|done].
Qed.

(** One turn: a slot in use stays, any other is emptied. *)
Lemma release_slot_runs s pn front x tail n t :
  books [] s -> pool_of s pn = pool_of_slots (front ++ x :: tail) n t -> own_slot s x ->
  exists busy s' t', release_slot codec_mm_release s pn (zlen front) = Some (busy, s') /\ books [] s' /\
    pool_of s' pn = pool_of_slots (front ++ (if busy : bool then x else no_slot) :: tail) n t' /\ (pn = CMA_RES -> t' = t) /\
    (busy = true -> live_slot x = true) /\
    forall q, x.2 <> Some q -> find_mm (mem_list (mgt s')) q = find_mm (mem_list (mgt s)) q.
Proof.
  intros Hb Hp [Hc Hm]. unfold release_slot. destruct (get_slot_at front x tail (zlen front) n t eq_refl) as [Hg1 Hg2].
  rewrite Hp, Hg1, Hg2. cbn [mbind option_bind].
  match goal with |- context [mbind _ ?e] => assert (H1 : exists busy sz s1, e = Some (busy, sz, s1) /\ books [] s1 /\
    pool_of s1 pn = pool_of s pn /\ (busy = true -> live_slot x = true) /\
    forall q, x.2 <> Some q -> find_mm (mem_list (mgt s1)) q = find_mm (mem_list (mgt s)) q) end.
  { destruct x.1 as [g|] eqn:Hx1; [|by eexists false, 0, s]. assert (Hlive : live_slot x = true) by (unfold live_slot; by rewrite Hx1).
    destruct (negb _); [by eexists true, 0, s|].
    destruct (law_destroy (world s) g) as [Hd1 Hd2]. set (s0 := with_world s (gen_pool_destroy (world s) g)).
    assert (Hb0 : books [] s0) by by apply (books_ext [] s).
    destruct x.2 as [q|] eqn:Hx2; [|by eexists false, _, s0].
    destruct (Hm q eq_refl) as (m & Hf & Ht & Hco). assert (Hf0 : find_mm (mem_list (mgt s0)) q = Some m) by done. rewrite Hf0. cbn [mbind option_bind].
    match goal with |- context [cma_mmu_op ?w ?pg ?k ?b] => destruct (cma_mmu_op_same w pg k b) as [Hw1 Hw2]; destruct (cma_mmu_op w pg k b) as [r w1] end.
    assert (Hb1 : books [] (with_world s0 w1)) by by apply (books_ext [] s0).
    destruct (release_runs (with_world s0 w1) q m TVP_POOL_NAME Hb1 Hf Hco) as (s2 & Hr & Hb2 & [Hpl Hoth] & _).
    { unfold ends_pool. by rewrite (proj2 (Z.eqb_neq _ FROM_TVP)). }
    rewrite Hr. cbn [mbind option_bind]. eexists false, _, s2. split; [done|]. split; [done|]. split; [by rewrite Hpl|]. split; [done|].
    intros q' Hq. apply Hoth. congruence. }
  destruct H1 as (busy & sz & s1 & -> & Hb1 & Hp1 & Hl & Hoth). cbn [mbind option_bind]. rewrite Hp in Hp1. destruct busy.
  - eexists true, s1, t. split; [done|]. by split_and!.
  - set (s2 := with_pool s1 TVP _).
    assert (Hp2 : exists t', pool_of s2 pn = pool_of_slots (front ++ x :: tail) n t' /\ (pn = CMA_RES -> t' = t)).
    { destruct pn; cbn in Hp1 |- *; [rewrite Hp1|]; eexists; by split. }
    destruct Hp2 as (t' & -> & Ht). rewrite (set_slot_at front) by done. cbn [mbind option_bind]. eexists false, _, t'. split; [done|].
    split; [by apply (books_ext [] s1)|]. split; [by destruct pn|]. by split_and!.
Qed.

Definition left_or_empty (x y : slot) : Prop := y = x /\ live_slot x = true \/ y = no_slot.

Lemma release_slots_runs pn tail n rest : forall s front ign t,
  books [] s -> pool_of s pn = pool_of_slots (front ++ rest ++ tail) n t -> own_slots s rest ->
  exists s' t' now, release_slots codec_mm_release s pn (zlen front) ign (length rest) = Some (ign + zlen (filter live_slot now), s') /\
    books [] s' /\ Forall2 left_or_empty rest now /\ pool_of s' pn = pool_of_slots (front ++ now ++ tail) n t' /\ (pn = CMA_RES -> t' = t).
Proof.
  induction rest as [|x rest IH]; intros s front ign t Hb Hp Ho.
  - exists s, t, []. cbn. rewrite Z.add_0_r. by split_and!.
  - assert (Hx : own_slot s x) by (destruct Ho as [Ho _]; by apply Forall_cons in Ho as [Ho _]).
    destruct (release_slot_runs s pn front x (rest ++ tail) n t Hb Hp Hx) as (busy & s1 & t1 & Hr & Hb1 & Hp1 & Ht1 & Hl & Hoth).
    set (y := if busy then x else no_slot) in *.
    destruct (IH s1 (front ++ [y]) (if busy then ign + 1 else ign) t1 Hb1) as (s2 & t2 & now & Hr2 & Hb2 & Hf2 & Hp2 & Ht2).
    { by rewrite <- app_assoc. }
    { by apply (own_slots_mono s s1 x). }
    exists s2, t2, (y :: now). cbn [length release_slots]. rewrite Hr. cbn [mbind option_bind].
    rewrite length_app, Nat2Z.inj_add in Hr2. cbn [length] in Hr2. change (Z.of_nat 1) with 1 in Hr2. rewrite Hr2. split; [|split_and!; [done| |by rewrite <- app_assoc in Hp2|intros Hpn; by rewrite (Ht2 Hpn), (Ht1 Hpn)]].
    + do 2 f_equal. unfold y. destruct busy.
      * rewrite filter_cons_True by (by rewrite Hl). cbn [length]. lia.
      * rewrite filter_cons_False by (by intros []). done.
    + constructor; [|done]. unfold left_or_empty, y. destruct busy; [left; by rewrite Hl|by right].
Qed.

Lemma left_clean rest now : Forall2 left_or_empty rest now -> Forall slot_clean rest -> Forall slot_clean now.
Proof. induction 1 as [|x y l k Hxy _ IH]; intros Hc; [done|]. apply Forall_cons in Hc as [Hx Hc]. constructor; [|by apply IH]. by destruct Hxy as [[-> _]| ->]. Qed.

Lemma live_split (l : list slot) : (length (filter live_slot l) + length (filter (fun x => negb (live_slot x)) l))%nat = length l.
Proof.
  induction l as [|x l IH]; [done|]. destruct (live_slot x) eqn:Hx.
  - rewrite filter_cons_True, filter_cons_False by (rewrite Hx; auto). cbn [length]. lia.
  - rewrite filter_cons_False, filter_cons_True by (rewrite Hx; auto). cbn [length]. lia.
Qed.

Lemma none_left rest now : Forall2 left_or_empty rest now -> length (filter live_slot now) = 0%nat -> now = replicate (length rest) no_slot.
Proof.
  induction 1 as [|x y l k Hxy _ IH]; intros Hl; [done|]. destruct Hxy as [[-> Hx]| ->].
  - rewrite filter_cons_True in Hl by (by rewrite Hx). done.
  - rewrite filter_cons_False in Hl by (by intros []). cbn. f_equal. by apply IH.
Qed.

Lemma pool_release_runs s pn slots tail t :
  books [] s -> pool_of s pn = pool_of_slots (slots ++ tail) (zlen slots) t -> own_slots s slots ->
  exists s' t' now, Forall2 left_or_empty slots now /\ let left := filter live_slot now in
    codec_mm_extpool_pool_release s pn = Some (zlen left, s') /\ books [] s' /\
    pool_of s' pn = pool_of_slots (left ++ replicate (length slots - length left) no_slot ++ tail) (zlen left) t' /\
    (pn = CMA_RES -> t' = t).
Proof.
  intros Hb Hp Ho.
  destruct (release_slots_runs pn tail (zlen slots) slots s [] 0 t Hb Hp Ho) as (s1 & t1 & now & Hr & Hb1 & Hf & Hp1 & Ht1).
  assert (Hlen := Forall2_length _ _ _ Hf).
  assert (Hclean : Forall slot_clean now).
  { eapply left_clean; [done|]. destruct Ho as [Ho _]. eapply Forall_impl; [exact Ho|]. by intros x [Hx _]. }
  cbv zeta. unfold codec_mm_extpool_pool_release, pool_release_with. rewrite Hp. cbn [slot_num pool_of_slots]. rewrite Nat2Z.id.
  change (zlen []) with 0 in Hr. rewrite Hr. cbn [mbind option_bind]. rewrite Z.add_0_l, Hp1. set (left := filter live_slot now).
  assert (Hsum := live_split now). fold left in Hsum.
  assert (Hx : (if 0 <? zlen left then compact_slots (pool_of_slots ([] ++ now ++ tail) (zlen slots) t1) (zlen slots + 1) 0 (length slots)
                else Some (pool_of_slots ([] ++ now ++ tail) (zlen slots) t1))
    = Some (pool_of_slots (left ++ replicate (length slots - length left) no_slot ++ tail) (zlen slots) t1)).
  { destruct (Z.ltb_spec 0 (zlen left)) as [Hl|Hl].
    - rewrite Hlen. refine (eq_trans (compact_loop (zlen now) t1 tail now [] 0 (zlen now + 1) Hclean _) _); [left; cbn [length]; lia|].
      do 2 f_equal. cbn [app]. do 3 f_equal. lia.
    - assert (H0 : length left = 0%nat) by lia. rewrite (nil_length_inv left H0), (none_left slots now Hf H0). cbn. by rewrite Nat.sub_0_r. }
  cbn [slot_num pool_of_slots] in *. rewrite Hx. cbn [mbind option_bind].
  eexists _, t1, now. split; [done|]. split; [done|]. split; [by apply (books_ext [] s1)|]. split; [by destruct pn|done].
Qed.
(** Releasing a pool empties every slot that is not in use, gives its buffer back
    with the books in order, and leaves the slots in use in front, in their
    order: the result and the new number of slots is how many are left. *)
Theorem pool_release_spec s pn slots tail t
  (Hb : books [] s) (Hp : pool_of s pn = pool_of_slots (slots ++ tail) (zlen slots) t) (Ho : own_slots s slots) :
  exists s' t' now, Forall2 left_or_empty slots now /\ let left := filter live_slot now in
    codec_mm_extpool_pool_release s pn = Some (zlen left, s') /\ books [] s' /\
    pool_of s' pn = pool_of_slots (left ++ replicate (length slots - length left) no_slot ++ tail) (zlen left) t'.
Proof.
  destruct (pool_release_runs s pn slots tail t Hb Hp Ho) as (s' & t' & now & H1 & H2 & H3 & H4 & _). by exists s', t', now.
Qed.

(** The size of the memory for fast start is taken off the protected pool: fast
    start that was switched off still counts as there, and switching it on again
    takes no memory. *)
Theorem fastplay_only_once scatter s slots tail t size
  (Hb : books [] s) (Hp : cma_res_pool (mgt s) = pool_of_slots (slots ++ tail) (zlen slots) t) (Ho : own_slots s slots)
  (Ht : 0 < t < 2 ^ 31) (Hs : size <= t) :
  exists r s1 s2, codec_mm_extpool_pool_release s CMA_RES = Some (r, s1) /\ total_size (cma_res_pool (mgt s1)) = t /\
    codec_mm_extpool_pool_alloc scatter s1 CMA_RES size = Some (t, s2) /\
    mem_list (mgt s2) = mem_list (mgt s1) /\ cma_res_pool (mgt s2) = cma_res_pool (mgt s1) /\ world s2 = world s1.
Proof.
  destruct (pool_release_runs s CMA_RES slots tail t Hb Hp Ho) as (s1 & t1 & now & _ & Hr & _ & Hp1 & Ht1). rewrite (Ht1 eq_refl) in Hp1.
  set (x := pool_of_slots _ _ _) in Hp1. cbn in Hp1.
  assert (Ha : exists s2, codec_mm_extpool_pool_alloc scatter s1 CMA_RES size = Some (t, s2) /\
    mem_list (mgt s2) = mem_list (mgt s1) /\ cma_res_pool (mgt s2) = cma_res_pool (mgt s1) /\ world s2 = world s1).
  { unfold codec_mm_extpool_pool_alloc. rewrite andb_false_r. cbn [mbind option_bind pool_of]. rewrite Hp1.
    change (total_size x) with t. rewrite Z.add_0_r, s32_small, (proj2 (Z.leb_le size t)) by lia.
    cbn [mbind option_bind pool_of]. rewrite (proj2 (Z.ltb_lt 0 t)) by lia. rewrite andb_false_r. cbn [mbind option_bind]. eexists. split; [done|]. cbn. by rewrite Hp1. }
  destruct Ha as (s2 & Ha & Hrest). eexists _, s1, s2. split; [exact Hr|]. split; [by rewrite Hp1|]. by split.
Qed.
End Release.

(** ** On the ledger *)

(** A device without reserved memory and 64 MB of contiguous area; fast start
    takes 32 MB of it. *)
Definition fp0 : mm_state ledger := mm_start 0 0 (64 * SZ_1M) 1.
Definition fp_size : Z := 32 * SZ_1M.
Definition fp1 : mm_state ledger := from_option snd fp0 (codec_mm_extpool_pool_alloc no_scatter fp0 CMA_RES fp_size).
Definition fp_slot : slot := (Some (2 * SZ_1M), Some 1).
Definition fp_buf : codec_mm_s := default (fresh_mm 0 0 0) (find_mm (mem_list (mgt fp1)) 1).

Lemma fp1_books : books (held := l_held) (ptrs := l_ptrs) [] fp1.
Proof.
  destruct (codec_mm_extpool_pool_alloc no_scatter fp0 CMA_RES fp_size) as [[r s']|] eqn:H; unfold fp1; rewrite H; [|exact (start_books 0 0 (64 * SZ_1M) 1)].
  eapply (extpool_alloc_keeps no_scatter no_scatter_gives_back []) in H; [by apply H|apply start_books].
Qed.

Lemma fp1_pool : cma_res_pool (mgt fp1) = pool_of_slots ([fp_slot] ++ replicate 7 no_slot) 1 fp_size.
Proof. by vm_compute. Qed.

Lemma fp1_own : own_slots fp1 [fp_slot].
Proof.
  split; [|apply NoDup_singleton]. constructor; [|done]. split; [done|]. intros q [= <-]. exists fp_buf.
  split; [by vm_compute|]. split; by vm_compute.
Qed.

Lemma pool_release_spec_witness : exists s', codec_mm_extpool_pool_release fp1 CMA_RES = Some (0, s') /\
  held_chunks fp1 <> [] /\ books (held := l_held) (ptrs := l_ptrs) [] s'.
Proof.
  destruct (pool_release_spec fp1 CMA_RES [fp_slot] (replicate 7 no_slot) fp_size fp1_books fp1_pool fp1_own) as (s' & t' & now & Hf & Hr & Hb & _).
  exists s'. split; [|split; [by vm_compute|exact Hb]]. rewrite Hr. assert (Hx : codec_mm_extpool_pool_release fp1 CMA_RES = Some (0, s')); [|by rewrite <- Hr, Hx].
  assert (Hc : from_option fst 7 (codec_mm_extpool_pool_release fp1 CMA_RES) = 0) by by vm_compute. rewrite Hr in Hc |- *. cbn in Hc. by rewrite Hc.
Defined.

Lemma fastplay_only_once_witness : exists r s1 s2,
  codec_mm_extpool_pool_release fp1 CMA_RES = Some (r, s1) /\ held_chunks fp1 <> [] /\
  codec_mm_extpool_pool_alloc no_scatter s1 CMA_RES fp_size = Some (fp_size, s2) /\ world s2 = world s1.
Proof.
  destruct (fastplay_only_once no_scatter fp1 [fp_slot] (replicate 7 no_slot) fp_size fp_size fp1_books fp1_pool fp1_own)
    as (r & s1 & s2 & Hr & _ & Ha & _ & _ & Hw); [by split|done|].
  exists r, s1, s2. split; [exact Hr|]. split; [by vm_compute|]. by split.
Defined.
