(* ===== verification/CodecMmKeep.v ===== *)
(** * The keeper on the manager of decoder memory
      (codec_mm_keeper.c on codec_mm.c)

    What the keeper takes and gives back is in [KeeperSteps]; here it runs on the
    manager itself.  What it keeps survives its decoder, a sweep of the
    keeper leaves the books of the manager in order, and a buffer that has eight
    users already shows where the manager does not count as [KeepLaws] says. *)

From stdpp Require Import base numbers list option strings.
From S2P Require Import Prelude KText Keeper KeeperSpec CodecMm CodecMmLaws CodecMmSpec.

Definition KEEP_NAME : bytes := str "keeper".

Section Keep.
Context {W : Type} {env : MmEnv W}.
Implicit Types s : mm_state W.

(** The references of the scatter manager are its own. *)
Variable scatter_inc : mm_state W -> Z -> option (Z * mm_state W).
Variable scatter_dec : mm_state W -> Z -> option (mm_state W).

(** [None]: a function of the manager went through memory that is gone. *)
Definition mm_keep : KeepMem (option (mm_state W)) := {|
  codec_mm_scatter_inc_for_keeper m h := match m ≫= (fun s => scatter_inc s h) with Some (r, s) => (r, Some s) | None => (0, None) end;
  codec_mm_scatter_dec_keeper_user m h := m ≫= (fun s => scatter_dec s h);
  Keeper.codec_mm_request_shared_mem m h :=
    match m ≫= (fun s => CodecMm.codec_mm_request_shared_mem s h KEEP_NAME) with Some (r, s) => (r, Some s) | None => (0, None) end;
  Keeper.codec_mm_release_with_check m h := m ≫= (fun s => CodecMm.codec_mm_release_with_check s h KEEP_NAME) |}.
#[local] Existing Instance mm_keep.

(** A sweep, as the manager calls it before it changes its mode. *)
Definition keeper_sweep (mgr : codec_mm_keeper_mgr) (now : Z -> Z) s (force : Z) : option (mm_state W) :=
  match codec_mm_keeper_free_all_keep mgr (Some s) now force with Some (_, _, m) => m | None => None end.

Context {held : W -> list chunk} {ptrs : W -> list Z} {laws : MmLaws env held ptrs}.
Abbreviation books := (books (held := held) (ptrs := ptrs)).
Abbreviation after := (after (held := held) (ptrs := ptrs)).
Abbreviation gives_back := (gives_back (held := held) (ptrs := ptrs)).

Hypothesis scatter_dec_after : forall ex s h s', books ex s -> scatter_dec s h = Some s' -> after ex s s'.

Lemma release_check_after ex s p nm s' : books ex s -> CodecMm.codec_mm_release_with_check s p nm = Some s' -> after ex s s'.
Proof.
  intros Hb H. unfold CodecMm.codec_mm_release_with_check in H. destruct (codec_mm_valid_mm_locked s p); [by eapply codec_release_after|].
  inv_some. by apply after_refl.
Qed.

Definition after_opt ex s (m : option (mm_state W)) : Prop := match m with Some s' => after ex s s' | None => True end.

Lemma dec_after_opt ex s m h : after_opt ex s m -> after_opt ex s (codec_mm_scatter_dec_keeper_user m h).
Proof.
  destruct m as [s1|]; [|done]. intros Ha. cbn [Keeper.codec_mm_scatter_dec_keeper_user mm_keep mbind option_bind].
  destruct (scatter_dec s1 h) as [s2|] eqn:Hd; [|done]. eapply after_trans; [exact Ha|]. eapply scatter_dec_after; [apply Ha|exact Hd].
Qed.

Lemma release_after_opt ex s m h : after_opt ex s m -> after_opt ex s (Keeper.codec_mm_release_with_check m h).
Proof.
  destruct m as [s1|]; [|done]. intros Ha. cbn [Keeper.codec_mm_release_with_check mm_keep mbind option_bind].
  destruct (CodecMm.codec_mm_release_with_check s1 h KEEP_NAME) as [s2|] eqn:Hr; [|done].
  eapply after_trans; [exact Ha|]. eapply (release_check_after ex); [apply Ha|exact Hr].
Qed.

Lemma free_keep_after ex s mgr m i r mgr' m' :
  after_opt ex s m -> codec_mm_keeper_free_keep mgr m i = Some (r, mgr', m') -> after_opt ex s m'.
Proof.
  intros Ha H. unfold codec_mm_keeper_free_keep in H. destruct (aget _ _) as [k|]; [|done]. cbn [mbind option_bind] in H.
  destruct (aset _ _ _) as [l|]; [|done]. cbn [mbind option_bind] in H.
  repeat case_hyp H; injection H as <- <- <-; [done|by apply release_after_opt|by apply dec_after_opt|done].
Qed.

(** One sweep, whatever it is forced to free. *)
Lemma free_all_after ex s mgr now force r mgr' m' : books ex s ->
  codec_mm_keeper_free_all_keep mgr (Some s) now force = Some (r, mgr', m') -> after_opt ex s m'.
Proof.
  intros Hb H. unfold codec_mm_keeper_free_all_keep in H. destruct (loop _ _ _) as [res|] eqn:He; [|done]. cbn [mbind option_bind] in H. subst res.
  enough (Hq : forall r1 g1 m1, Some (r, mgr', m') = Some (r1, g1, m1) -> after_opt ex s m1) by exact (Hq r mgr' m' eq_refl).
  refine (loop_invariant (free_all_body now force) (fun st => after_opt ex s st.2)
    (fun res => forall r mgr' m', res = Some (r, mgr', m') -> after_opt ex s m') _ _ _ _ _ _ He).
  - intros [[i g] w] [[i' g'] w'] Hg Hs. cbn in *. repeat case_hyp Hs; try done; injection Hs as <- <- <-; [by eapply free_keep_after|done].
  - intros [[i g] w] res1 Hg Hs r1 g1 w1 ->. cbn in *. repeat case_hyp Hs; try done. by injection Hs as <- <- <-.
  - by apply after_refl.
Qed.

(** A sweep of the keeper is a client as [mm_books_balanced] assumes. *)
Theorem keeper_sweep_gives_back mgr now : gives_back (keeper_sweep mgr now).
Proof.
  intros ex s force s' Hb H. unfold keeper_sweep in H. destruct (codec_mm_keeper_free_all_keep _ _ _ _) as [[[r g] m]|] eqn:He; [|done].
  subst m. exact (free_all_after _ _ _ _ _ _ _ _ Hb He).
Qed.

Lemma monitor_after ex s mgr now mgr' m' : books ex s -> codec_mm_keeper_monitor mgr (Some s) now = Some (mgr', m') -> after_opt ex s m'.
Proof.
  intros Hb H. unfold codec_mm_keeper_monitor in H. destruct (codec_mm_keeper_free_all_keep _ _ _ _) as [[[r g] m]|] eqn:He; [|done].
  cbn [mbind option_bind] in H. injection H as _ <-. exact (free_all_after _ _ _ _ _ _ _ _ Hb He).
Qed.

(** Masking takes a reference, and gives it back when there is no room. *)
Lemma mask_keeps ex s mgr h ty r mgr' m' :
  (forall r s', scatter_inc s h = Some (r, s') -> CodecMmSpec.keeps (held := held) (ptrs := ptrs) ex s s') ->
  (forall m, find_mm (mem_list (mgt s)) h = Some m -> from_flags m <> FROM_COHERENT) ->
  books ex s -> codec_mm_keeper_mask_keep_mem mgr (Some s) h ty = Some (r, mgr', m') ->
  match m' with Some s' => CodecMmSpec.keeps (held := held) (ptrs := ptrs) ex s s' | None => True end.
Proof.
  intros Hinc Hco Hb H. unfold codec_mm_keeper_mask_keep_mem in H.
  destruct (h =? NULL); [injection H as _ _ <-; by apply keeps_refl|].
  destruct (negb (ty =? MEM_TYPE_CODEC_MM_SCATTER) && negb (ty =? MEM_TYPE_CODEC_MM)); [injection H as _ _ <-; by apply keeps_refl|].
  destruct (keeper_take (Some s) h ty) as [ret m] eqn:Ht.
  assert (Hm : match m with Some s1 => CodecMmSpec.keeps (held := held) (ptrs := ptrs) ex s s1 | None => True end).
  { unfold keeper_take in Ht. destruct (ty =? MEM_TYPE_CODEC_MM_SCATTER); cbn [Keeper.codec_mm_scatter_inc_for_keeper Keeper.codec_mm_request_shared_mem mm_keep mbind option_bind] in Ht.
    - destruct (scatter_inc s h) as [[q s1]|] eqn:Hi; injection Ht as <- <-; [by eapply Hinc|done].
    - destruct (CodecMm.codec_mm_request_shared_mem s h KEEP_NAME) as [[q s1]|] eqn:Hi; injection Ht as <- <-; [|done].
      destruct (find_mm (mem_list (mgt s)) h) as [x|] eqn:Hf; [eapply request_keeps; [done|exact Hf|by apply Hco|exact Hi]|].
      unfold CodecMm.codec_mm_request_shared_mem in Hi. rewrite Hf in Hi. injection Hi as _ <-. by apply keeps_refl. }
  destruct (ret <? 0); [by injection H as _ _ <-|].
  destruct (keeper_insert mgr h ty) as [[[id same] g]|]; [|done]. cbn [mbind option_bind] in H. injection H as _ _ <-.
  destruct ((id <? 0) || same); [|done]. destruct m as [s1|].
  - assert (Ha : after_opt ex s1 (keeper_drop (Some s1) h ty)).
    { assert (Hr : after_opt ex s1 (Some s1)) by by apply after_refl, Hm. unfold keeper_drop. repeat case_match; [by apply dec_after_opt|by apply release_after_opt|done]. }
    destruct (keeper_drop (Some s1) h ty); [|done]. eapply keeps_trans; [exact Hm|]. by apply keeps_after.
  - unfold keeper_drop. by repeat case_match.
Qed.

(** *** Masking a buffer of the manager *)

(** A keeper with a free slot that does not hold the buffer yet. *)
Definition can_keep (mgr : codec_mm_keeper_mgr) (p : Z) : Prop :=
  keeper_ok mgr /\ p <> NULL /\ Forall (fun k => handle k <> p) (keep_list mgr) /\ Exists (fun k => handle k = NULL) (keep_list mgr).

(** The slot it is kept in. *)
Definition kept_at (mgr : codec_mm_keeper_mgr) (n : nat) (p ty id : Z) : Prop :=
  keeper_ok mgr /\ exists d, keep_list mgr !! n = Some (mk_keep p id ty 1 d).

Lemma mask_runs mgr s p ty s1 : can_keep mgr p -> valid_type ty -> keeper_take (Some s) p ty = (0, Some s1) ->
  exists mgr1 n, codec_mm_keeper_mask_keep_mem mgr (Some s) p ty = Some (next_id mgr, mgr1, Some s1) /\
    START_KEEP_ID <= next_id mgr /\ kept_at mgr1 n p ty (next_id mgr).
Proof.
  intros (Hok & Hp & Hf & He) Hty Hr. unfold codec_mm_keeper_mask_keep_mem. rewrite (proj2 (Z.eqb_neq p NULL)) by done.
  assert (Hgo : negb (ty =? MEM_TYPE_CODEC_MM_SCATTER) && negb (ty =? MEM_TYPE_CODEC_MM) = false) by (by destruct Hty as [->| ->]).
  rewrite Hgo, Hr. cbn [Z.ltb Z.compare]. pose proof (ok_next _ Hok) as Hn.
  destruct (keeper_insert_cases mgr p ty Hok Hp) as [(n & k & Hk & Hh & _)|[(_ & Hall & _)|(_ & n & k & Hk & Hh & ->)]].
  - rewrite Forall_forall in Hf. exfalso. apply (Hf k); [by eapply list_elem_of_lookup_2|done].
  - exfalso. apply Exists_exists in He as (x & Hx & Hz). rewrite Forall_forall in Hall. by apply (Hall x).
  - cbn [mbind option_bind]. rewrite (proj2 (Z.ltb_ge _ 0)) by (unfold START_KEEP_ID in Hn; lia). cbn [orb].
    eexists _, n. split; [done|]. split; [lia|]. split; [|exists (delay_on_jiffies64 k); apply list_lookup_insert_eq; by eapply lookup_lt_Some].
    apply (insert_ok (bump_id mgr) n k); [by apply bump_id_ok|done|split; [done|done]|done|].
    unfold slot_live. cbn. by rewrite Hh, (proj2 (Z.eqb_neq p NULL)), Z.sub_0_r by done.
Qed.

(** The keeper lets go of a slot: its reference is dropped. *)
Lemma unkeep_runs mgr n p ty id s s' : kept_at mgr n p ty id -> p <> NULL -> keeper_drop (Some s) p ty = Some s' ->
  exists mgr', codec_mm_keeper_free_keep mgr (Some s) (Z.of_nat n) = Some (0, mgr', Some s').
Proof.
  intros [Hok [d Hn]] Hp Hr. rewrite (free_keep_live _ _ _ _ Hok Hn Hp). eexists. cbn [handle ktype]. by rewrite Hr.
Qed.

Lemma drop_release s p m s' : find_mm (mem_list (mgt s)) p = Some m -> codec_mm_release s p KEEP_NAME = Some s' ->
  keeper_drop (Some s) p MEM_TYPE_CODEC_MM = Some s'.
Proof.
  intros Hf Hr. unfold keeper_drop. cbn [Z.eqb MEM_TYPE_CODEC_MM MEM_TYPE_CODEC_MM_SCATTER Pos.eqb Keeper.codec_mm_release_with_check mm_keep mbind option_bind].
  unfold CodecMm.codec_mm_release_with_check, codec_mm_valid_mm_locked. by rewrite Hf, Hr.
Qed.
Lemma take_request s p s1 : CodecMm.codec_mm_request_shared_mem s p KEEP_NAME = Some (0, s1) -> keeper_take (Some s) p MEM_TYPE_CODEC_MM = (0, Some s1).
Proof. intros Hr. unfold keeper_take. cbn [Z.eqb MEM_TYPE_CODEC_MM MEM_TYPE_CODEC_MM_SCATTER Pos.eqb Keeper.codec_mm_request_shared_mem mm_keep mbind option_bind]. by rewrite Hr. Qed.

(** C10. A buffer the keeper masks outlives the release by its decoder, memory and
    all, and the manager takes the memory back when the keeper lets go of it. *)
Theorem keeper_outlives_decoder mgr s p m nm
  (Hk : can_keep mgr p) (Hb : books [] s) (Hf : find_mm (mem_list (mgt s)) p = Some m)
  (Hco : from_flags m <> FROM_COHERENT) (He : ends_pool s m = false) (Hu : use_cnt m = 1) :
  exists mgr1 s1 n s2 mgr3 s3,
    codec_mm_keeper_mask_keep_mem mgr (Some s) p MEM_TYPE_CODEC_MM = Some (next_id mgr, mgr1, Some s1) /\
    codec_mm_release s1 p nm = Some s2 /\ held (world s2) = held (world s) /\
    (exists m2, find_mm (mem_list (mgt s2)) p = Some m2 /\ same_memory m m2) /\
    codec_mm_keeper_free_keep mgr1 (Some s2) n = Some (0, mgr3, Some s3) /\
    mem_list (mgt s3) = remove_mm (mem_list (mgt s2)) p /\
    exists c, chunk_of (res_pool (cfg (mgt s))) m = Some c /\ Permutation (held (world s)) (c :: held (world s3)).
Proof.
  destruct (request_runs s p m KEEP_NAME Hb Hf Hco ltac:(lia)) as (o & Hr & Hb1).
  set (s1 := with_list _ _) in *. set (m1 := with_users _ _ _) in *.
  assert (Hf1 : find_mm (mem_list (mgt s1)) p = Some m1) by by eapply find_update.
  destruct (mask_runs mgr s p _ s1 Hk (or_introl eq_refl) (take_request _ _ _ Hr)) as (mgr1 & n & Hm & _ & Hat). destruct Hk as (_ & Hp & _).
  destruct (release_runs s1 p m1 nm Hb1 Hf1 Hco He) as (s2 & Hr2 & Hb2 & _ & Hmore & _).
  destruct Hmore as [o2 Hs2]; [cbn; lia|]. set (m2 := with_users m1 o2 (use_cnt m1 - 1)) in *.
  assert (Hf2 : find_mm (mem_list (mgt s2)) p = Some m2) by (rewrite Hs2; by eapply find_update).
  destruct (release_runs s2 p m2 KEEP_NAME Hb2 Hf2) as (s3 & Hr3 & _ & _ & _ & Hlast); [done|by rewrite Hs2|].
  destruct (unkeep_runs _ _ _ _ _ _ _ Hat Hp (drop_release _ _ _ _ Hf2 Hr3)) as [mgr3 Hm3]. destruct Hlast as (Hl3 & c & Hc & Hp3); [cbn; lia|].
  exists mgr1, s1, (Z.of_nat n), s2, mgr3, s3. rewrite Hs2 in Hc, Hp3. split_and!; try done.
  - by rewrite Hs2.
  - by exists m2.
  - by exists c.
Qed.

(** A buffer with eight users: the keeper is told that it has a reference it does
    not have, and when it lets go of it one of the eight loses theirs: the
    manager then counts seven users. *)
Theorem keeper_takes_a_users_reference mgr s p m
  (Hk : can_keep mgr p) (Hb : books [] s) (Hf : find_mm (mem_list (mgt s)) p = Some m)
  (Hco : from_flags m <> FROM_COHERENT) (He : ends_pool s m = false) (Hu : use_cnt m = 8) :
  exists mgr1 n mgr2 s2 m2,
    codec_mm_keeper_mask_keep_mem mgr (Some s) p MEM_TYPE_CODEC_MM = Some (next_id mgr, mgr1, Some s) /\
    START_KEEP_ID <= next_id mgr /\
    codec_mm_keeper_free_keep mgr1 (Some s) n = Some (0, mgr2, Some s2) /\
    find_mm (mem_list (mgt s2)) p = Some m2 /\ use_cnt m2 = 7.
Proof.
  assert (Hr : CodecMm.codec_mm_request_shared_mem s p KEEP_NAME = Some (0, s)).
  { unfold CodecMm.codec_mm_request_shared_mem. by rewrite Hf, (proj2 (Z.ltb_lt 7 _)) by lia. }
  destruct (mask_runs mgr s p _ s Hk (or_introl eq_refl) (take_request _ _ _ Hr)) as (mgr1 & n & Hm & Hid & Hat). destruct Hk as (_ & Hp & _).
  destruct (release_runs s p m KEEP_NAME Hb Hf Hco He) as (s2 & Hr2 & _ & _ & Hmore & _). destruct Hmore as [o ->]; [lia|].
  destruct (unkeep_runs _ _ _ _ _ _ _ Hat Hp (drop_release _ _ _ _ Hf Hr2)) as [mgr2 Hm2].
  eexists mgr1, (Z.of_nat n), mgr2, _, _. split_and!; [done|done|done|by eapply find_update|cbn; lia].
Qed.

End Keep.

(** ** On the ledger *)

Definition no_inc (s : mm_state ledger) (_ : Z) : option (Z * mm_state ledger) := Some (0, s).
Definition no_dec (s : mm_state ledger) (_ : Z) : option (mm_state ledger) := Some s.

Lemma no_dec_after ex s h s' : books (held := l_held) (ptrs := l_ptrs) ex s -> no_dec s h = Some s' -> after (held := l_held) (ptrs := l_ptrs) ex s s'.
Proof. intros Hb [= <-]. by apply after_refl. Qed.

Lemma init_can_keep : can_keep codec_mm_keeper_mgr_init 1.
Proof.
  split; [exact keeper_init_ok|]. split; [done|]. split.
  - by repeat constructor.
  - by constructor.
Qed.

(** The buffer [buf1] kept, released by its decoder, then swept. *)
Lemma keeper_outlives_decoder_witness : exists mgr1 s1 n s2 mgr3 s3,
  codec_mm_keeper_mask_keep_mem (mem := mm_keep no_inc no_dec) codec_mm_keeper_mgr_init (Some st1.2) 1 MEM_TYPE_CODEC_MM
    = Some (9, mgr1, Some s1) /\
  codec_mm_release s1 1 (str "vdec") = Some s2 /\ length (l_held (world s2)) = 1%nat /\
  codec_mm_keeper_free_keep (mem := mm_keep no_inc no_dec) mgr1 (Some s2) n = Some (0, mgr3, Some s3) /\
  l_held (world s3) = [].
Proof.
  destruct (keeper_outlives_decoder no_inc no_dec (held := l_held) (ptrs := l_ptrs) codec_mm_keeper_mgr_init st1.2 1 buf1 (str "vdec"))
    as (mgr1 & s1 & n & s2 & mgr3 & s3 & Hm & Hr & Hh & _ & Hf & _ & c & _ & Hp);
    [exact init_can_keep|exact st1_books|by vm_compute|by vm_compute|by vm_compute|by vm_compute|].
  assert (Hl : length (l_held (world st1.2)) = 1%nat) by by vm_compute.
  exists mgr1, s1, n, s2, mgr3, s3. split; [exact Hm|]. split; [exact Hr|]. split; [by rewrite Hh|]. split; [exact Hf|].
  rewrite Hp in Hl. cbn in Hl. by destruct (l_held (world s3)).
Defined.

Lemma share_books n : forall s, books (held := l_held) (ptrs := l_ptrs) [] s ->
  (forall m, find_mm (mem_list (mgt s)) 1 = Some m -> from_flags m <> FROM_COHERENT) -> books (held := l_held) (ptrs := l_ptrs) [] (share s n).
Proof.
  induction n as [|n IH]; intros s Hb Hm; [done|]. cbn [share]. destruct (codec_mm_request_shared_mem s 1 (str "disp")) as [[r s']|] eqn:H; [|by apply IH].
  destruct (find_mm (mem_list (mgt s)) 1) as [m|] eqn:Hf.
  - assert (Hco := Hm _ eq_refl). assert (Hb' := request_keeps [] s 1 _ _ _ m Hb Hf Hco H). apply IH; [by apply Hb'|].
    unfold codec_mm_request_shared_mem in H. rewrite Hf in H. destruct (7 <? use_cnt m); [injection H as _ <-; cbn; intros m1; rewrite Hf; by intros [= <-]|].
    destruct (aset _ _ _) as [o|]; [|done]. injection H as _ <-. cbn. intros m1. rewrite (find_update _ _ _ _ Hf). by intros [= <-].
  - unfold codec_mm_request_shared_mem in H. rewrite Hf in H. injection H as _ <-. cbn. apply IH; [done|]. by rewrite Hf.
Qed.

Lemma keeper_takes_a_users_reference_witness : exists mgr1 n mgr2 s2 m2,
  codec_mm_keeper_mask_keep_mem (mem := mm_keep no_inc no_dec) codec_mm_keeper_mgr_init (Some st_full) 1 MEM_TYPE_CODEC_MM
    = Some (9, mgr1, Some st_full) /\ use_cnt buf_full = 8 /\
  codec_mm_keeper_free_keep (mem := mm_keep no_inc no_dec) mgr1 (Some st_full) n = Some (0, mgr2, Some s2) /\
  find_mm (mem_list (mgt s2)) 1 = Some m2 /\ use_cnt m2 = 7.
Proof.
  destruct (keeper_takes_a_users_reference no_inc no_dec (held := l_held) (ptrs := l_ptrs) codec_mm_keeper_mgr_init st_full 1 buf_full)
    as (mgr1 & n & mgr2 & s2 & m2 & Hm & _ & Hf & H2 & Hu).
  - exact init_can_keep.
  - apply share_books; [exact st1_books|]. intros m Hm. assert (E : find_mm (mem_list (mgt st1.2)) 1 = Some buf1) by by vm_compute.
    rewrite E in Hm. injection Hm as <-. by vm_compute.
  - by vm_compute.
  - by vm_compute.
  - by vm_compute.
  - by vm_compute.
  - exists mgr1, n, mgr2, s2, m2. split; [exact Hm|]. split; [by vm_compute|]. split; [exact Hf|]. by split.
Defined.

Lemma keeper_sweep_gives_back_witness : exists s',
  keeper_sweep no_inc no_dec codec_mm_keeper_mgr_init (fun _ => 0) st1.2 1 = Some s' /\
  books (held := l_held) (ptrs := l_ptrs) [] s'.
Proof.
  eexists. assert (H : keeper_sweep no_inc no_dec codec_mm_keeper_mgr_init (fun _ => 0) st1.2 1 = Some st1.2) by by vm_compute.
  split; [exact H|].
  eapply (keeper_sweep_gives_back no_inc no_dec (laws := ledger_laws) no_dec_after); [exact st1_books|exact H].
Defined.
