(* ===== verification/Scatter.v ===== *)
(** * Scattered decoder memory
      (src/a311d/soc/amlogic/media/common/codec_mm/codec_mm_scatter.c)

    A scatter is a list of pages for one frame buffer.  Pages come from slots
    (runs of pages of the decoder memory or of the system, with a bitmap), from
    single pages of the system, and from two scatters that cache free pages.
    There are two managers, one for protected memory.

    The managers live beside the kernel under the manager of decoder memory, so
    that its calls and theirs act on one state.  A definition is one call under
    the locks of the code; [None] is an access through a pointer to a structure
    that is gone or outside of an array, or a loop that does not end. *)

From stdpp Require Import base numbers list option strings gmap.
From S2P Require Import Prelude KText CodecMm.

Definition SCATTER_MEM : bytes := str "SCATTER_MEM".
Definition SID_MASK : Z := 0xfff.
Definition MAX_SID : Z := SID_MASK - 1.
Definition ONE_PAGE_SID : Z := SID_MASK.
Definition MAX_SYS_BLOCK_PAGE : Z := 128.
Definition MIN_SYS_BLOCK_PAGE : Z := 8.
Definition MAX_SC_LIST : nat := 64.
Definition SLOT_FROM_CODEC_MM : Z := 1.
Definition SLOT_FROM_GET_FREE_PAGES : Z := 2.
Definition CODEC_MM_FLAGS_FOR_VDECODER : Z := 0x1000.
Definition CODEC_MM_S_ERR (x : Z) : Z := -1000 - x.

(** ** Page words: a page address with the hash of its slot in the low bits *)

Definition ADDR_SEED (p : Z) : Z := u64 (Z.shiftr p (2 * PAGE_SHIFT) + Z.shiftr p PAGE_SHIFT + p).
Definition HASH_PAGE_ADDR (p : Z) : Z := ADDR_SEED p mod MAX_SID.
Definition PAGE_SID (page : Z) : Z := Z.land page SID_MASK.
Definition PAGE_ADDR (page : Z) : Z := Z.shiftl (Z.shiftr page PAGE_SHIFT) PAGE_SHIFT.
Definition ADDR2PAGE (addr sid : Z) : Z := Z.lor (Z.land addr (Z.lnot SID_MASK)) sid.
Definition ADDR2BIT (base addr : Z) : Z := s32 (Z.shiftr (u64 (addr - base)) PAGE_SHIFT).
Definition BIT2ADDR (base bit : Z) : Z := u64 (base + PAGE_SIZE * bit).
Definition SID_OF_ONEPAGE (sid : Z) : bool := sid =? ONE_PAGE_SID.
Definition VALID_SID (sid : Z) : bool := (sid <? MAX_SID) || SID_OF_ONEPAGE sid.

(** [phy_addr_type]: 32 bits in this configuration. *)
Definition phy_addr_type (x : Z) : Z := u32 x.

Definition time_after (a b : Z) : bool := 2 ^ 63 <=? u64 (b - a).

(** ** State *)

(** [pagemap] is the bitmap, 8 bits for each of its bytes. *)
Record codec_mm_slot := mk_slot {
  slot_mm : option Z;
  page_header : Z;
  from_type : Z;
  pagemap : option (Z * list bool);
  slot_phy_addr : Z;
  page_num : Z;
  slot_alloced : Z;
  next_bit : Z;
  sid : Z;
  isroot : bool;
  on_alloc_free : Z }.

(** [manager] tells the protected manager from the other one. *)
Record codec_mm_scatter := mk_sc {
  manager : bool;
  pages_list : list Z;
  page_max_cnt : Z;
  page_cnt : Z;
  page_tail : Z;
  page_used : Z;
  user_cnt : Z;
  tofree_jiffies : Z }.

(** The settings of a manager, and their global copy. *)
Record codec_mm_scatter_s := mk_sconf {
  keep_size_PAGE : Z;
  reserved_block_mm_M : Z;
  try_alloc_in_cma_page_cnt : Z;
  try_alloc_in_sys_page_cnt_max : Z;
  try_alloc_in_sys_page_cnt_min : Z;
  enable_slot_from_sys : Z;
  no_cache_size_M : Z;
  support_from_slot_sys : Z;
  no_alloc_from_sys : Z }.

Record sc_counts := mk_scounts {
  total_page_num : Z;
  alloced_page_num : Z;
  max_alloced : Z;
  one_page_cnt : Z;
  scatters_cnt : Z;
  slot_cnt : Z;
  alloc_from_sys_sc_cnt : Z;
  alloc_from_sys_page_cnt : Z;
  alloc_from_sys_max_page_cnt : Z;
  cached_pages : Z }.

(** Count, total, longest and the seven classes of a duration. *)
Record time_stat := mk_stat {
  t_cnt : Z;
  t_total_us : Z;
  t_max_us : Z;
  t_class : list Z }.

Record sc_policy := mk_policy {
  try_alloc_in_sys_page_cnt : Z;
  delay_free_on : Z;
  force_cache_on : Z;
  force_cache_page_cnt : Z;
  delay_free_timeout_jiffies64 : Z;
  alloc_time : time_stat;
  free_time : time_stat;
  dealy_work : option Z;
  scatter_task_run_num : Z }.

(** [slot_list_map] maps a hash to the ring of its slots, the root first;
    [scatter_list] and [free_list] are the linked lists of the code. *)
Record codec_mm_scatter_mgt := mk_smgt {
  smgt_tvp : bool;
  sconf : codec_mm_scatter_s;
  counts : sc_counts;
  policy : sc_policy;
  slot_list_map : gmap Z (list Z);
  free_list : list Z;
  scatter_list : list Z;
  scmap : list (option Z);
  cache_scs : option Z * option Z }.

Record scatters := mk_scs {
  slots : gmap Z codec_mm_slot;
  mmss : gmap Z codec_mm_scatter;
  scatter_mgt : codec_mm_scatter_mgt;
  scatter_tvp_mgt : codec_mm_scatter_mgt;
  g_scatter : codec_mm_scatter_s }.

(** The kernel as the scatter code uses it: structures, pages of the system by
    their order, the two clocks and the mutex of a scatter. *)
Class ScEnv (W : Type) := {
  sc_kmalloc : W -> Z -> option Z * W;
  sc_kfree : W -> Z -> W;
  sc_get_free_pages : W -> Z -> option Z * W;
  sc_free_pages : W -> Z -> Z -> W;
  sc_jiffies : W -> Z * W;
  sc_local_clock : W -> Z * W;
  sc_trylock : W -> Z -> bool * W;
  sc_totalram_pages : Z }.

(** The kernel under the manager of decoder memory, with the scatter managers
    beside it. *)
Section Beside.
Context {W : Type} {env : MmEnv W}.
Definition on_fst {A} (r : A * W) (c : scatters) : A * (W * scatters) := let '(a, w) := r in (a, (w, c)).
#[export] Instance beside_env : MmEnv (W * scatters) := {
  kmalloc_mm w := on_fst (kmalloc_mm w.1) w.2;
  kfree_mm w p := (kfree_mm w.1 p, w.2);
  get_free_pages w o := on_fst (get_free_pages w.1 o) w.2;
  free_pages w h o := (free_pages w.1 h o, w.2);
  dma_alloc_from_contiguous w n o := on_fst (dma_alloc_from_contiguous w.1 n o) w.2;
  dma_release_from_contiguous w h n := (dma_release_from_contiguous w.1 h n, w.2);
  gen_pool_create w := on_fst (gen_pool_create w.1) w.2;
  gen_pool_add w p a n := on_fst (gen_pool_add w.1 p a n) w.2;
  gen_pool_destroy w p := (gen_pool_destroy w.1 p, w.2);
  gen_pool_alloc w p n := on_fst (gen_pool_alloc w.1 p n) w.2;
  gen_pool_free w p h n := (gen_pool_free w.1 p h n, w.2);
  gen_pool_avail w p := gen_pool_avail w.1 p;
  gen_pool_size w p := gen_pool_size w.1 p;
  virt_to_phys := virt_to_phys;
  phys_to_virt := phys_to_virt;
  page_to_phys := page_to_phys;
  phys_to_page := phys_to_page;
  page_high := page_high;
  vmap w l := on_fst (vmap w.1 l) w.2;
  vunmap w v := (vunmap w.1 v, w.2);
  is_vmalloc_addr := is_vmalloc_addr;
  page_address := page_address;
  pte_there w a := pte_there w.1 a;
  set_pte w a v := (set_pte w.1 a v, w.2);
  tee_protect_tvp_mem w a n := on_fst (tee_protect_tvp_mem w.1 a n) w.2;
  tee_unprotect_tvp_mem w h := (tee_unprotect_tvp_mem w.1 h, w.2);
  cma_base := cma_base }.
End Beside.

(** ** Computations on the state *)

Section Scatter.
Context {W : Type} {env : MmEnv W} {senv : ScEnv W}.
(** Ticks per second. *)
Variable HZ : Z.

Definition St : Type := mm_state (W * scatters).
Definition M (A : Type) : Type := St -> option (A * St).
#[global] Instance M_ret : MRet M := fun A a s => Some (a, s).
#[global] Instance M_bind : MBind M := fun A B f m s => '(a, s) ← m s; f a s.

Definition undef {A} : M A := fun _ => None.
Definition of_opt {A} (o : option A) : M A := fun s => a ← o; Some (a, s).
Definition gets {A} (f : St -> A) : M A := fun s => Some (f s, s).
Definition modify (f : St -> St) : M unit := fun s => Some (tt, f s).
Definition when (b : bool) (m : M unit) : M unit := if b then m else mret tt.

Definition scs (s : St) : scatters := (world s).2.
Definition with_scs (s : St) (c : scatters) : St := with_world s ((world s).1, c).
Definition upd_scs (f : scatters -> scatters) : M unit := modify (fun s => with_scs s (f (scs s))).
(** A call to the kernel. *)
Definition kcall {A} (f : W -> A * W) : M A :=
  fun s => let '(a, w) := f (world s).1 in Some (a, with_world s (w, scs s)).
Definition kdo (f : W -> W) : M unit := modify (fun s => with_world s (f (world s).1, scs s)).
(** A call of the manager of decoder memory. *)
Definition mmcall {A} (f : St -> option (A * St)) : M A := f.
Definition mmdo (f : St -> option St) : M unit := fun s => s ← f s; Some (tt, s).

Definition mgt_of (c : scatters) (t : bool) : codec_mm_scatter_mgt := if t then scatter_tvp_mgt c else scatter_mgt c.
Definition with_mgt (c : scatters) (t : bool) (g : codec_mm_scatter_mgt) : scatters :=
  if t then mk_scs (slots c) (mmss c) (scatter_mgt c) g (g_scatter c) else mk_scs (slots c) (mmss c) g (scatter_tvp_mgt c) (g_scatter c).
Definition with_slots (c : scatters) (x : gmap Z codec_mm_slot) : scatters := mk_scs x (mmss c) (scatter_mgt c) (scatter_tvp_mgt c) (g_scatter c).
Definition with_mmss (c : scatters) (x : gmap Z codec_mm_scatter) : scatters := mk_scs (slots c) x (scatter_mgt c) (scatter_tvp_mgt c) (g_scatter c).

Definition smgt (t : bool) : M codec_mm_scatter_mgt := gets (fun s => mgt_of (scs s) t).
Definition upd_smgt (t : bool) (f : codec_mm_scatter_mgt -> codec_mm_scatter_mgt) : M unit :=
  upd_scs (fun c => with_mgt c t (f (mgt_of c t))).
Definition get_slot (p : Z) : M codec_mm_slot := s ← gets scs; of_opt (slots s !! p).
Definition put_slot (p : Z) (x : codec_mm_slot) : M unit := upd_scs (fun c => with_slots c (<[p := x]> (slots c))).
Definition get_mms (p : Z) : M codec_mm_scatter := s ← gets scs; of_opt (mmss s !! p).
Definition put_mms (p : Z) (x : codec_mm_scatter) : M unit := upd_scs (fun c => with_mmss c (<[p := x]> (mmss c))).

(** *** Parts of a manager *)

Definition with_conf (g : codec_mm_scatter_mgt) x := mk_smgt (smgt_tvp g) x (counts g) (policy g) (slot_list_map g) (free_list g) (scatter_list g) (scmap g) (cache_scs g).
Definition with_counts (g : codec_mm_scatter_mgt) x := mk_smgt (smgt_tvp g) (sconf g) x (policy g) (slot_list_map g) (free_list g) (scatter_list g) (scmap g) (cache_scs g).
Definition with_policy (g : codec_mm_scatter_mgt) x := mk_smgt (smgt_tvp g) (sconf g) (counts g) x (slot_list_map g) (free_list g) (scatter_list g) (scmap g) (cache_scs g).
Definition with_map (g : codec_mm_scatter_mgt) x := mk_smgt (smgt_tvp g) (sconf g) (counts g) (policy g) x (free_list g) (scatter_list g) (scmap g) (cache_scs g).
Definition with_free (g : codec_mm_scatter_mgt) x := mk_smgt (smgt_tvp g) (sconf g) (counts g) (policy g) (slot_list_map g) x (scatter_list g) (scmap g) (cache_scs g).
Definition with_scatters (g : codec_mm_scatter_mgt) x := mk_smgt (smgt_tvp g) (sconf g) (counts g) (policy g) (slot_list_map g) (free_list g) x (scmap g) (cache_scs g).
Definition with_scmap (g : codec_mm_scatter_mgt) x := mk_smgt (smgt_tvp g) (sconf g) (counts g) (policy g) (slot_list_map g) (free_list g) (scatter_list g) x (cache_scs g).
Definition with_cache (g : codec_mm_scatter_mgt) x := mk_smgt (smgt_tvp g) (sconf g) (counts g) (policy g) (slot_list_map g) (free_list g) (scatter_list g) (scmap g) x.

(** Additions to the counters: pages in all, pages handed out, single pages,
    scatters, slots, cached pages. *)
Definition add_counts (total alloced one scat slt cached : Z) (g : codec_mm_scatter_mgt) : codec_mm_scatter_mgt :=
  let n := counts g in
  with_counts g (mk_scounts (s32 (total_page_num n + total)) (s32 (alloced_page_num n + alloced)) (max_alloced n)
    (s32 (one_page_cnt n + one)) (s32 (scatters_cnt n + scat)) (s32 (slot_cnt n + slt)) (alloc_from_sys_sc_cnt n)
    (alloc_from_sys_page_cnt n) (alloc_from_sys_max_page_cnt n) (s32 (cached_pages n + cached))).
(** A slot from the system comes (1) or goes (-1). *)
Definition add_sys_slot (dir pages : Z) (g : codec_mm_scatter_mgt) : codec_mm_scatter_mgt :=
  let n := counts g in
  let cnt := s32 (alloc_from_sys_page_cnt n + dir * pages) in
  with_counts g (mk_scounts (total_page_num n) (alloced_page_num n) (max_alloced n) (one_page_cnt n) (scatters_cnt n) (slot_cnt n)
    (s32 (alloc_from_sys_sc_cnt n + dir)) cnt
    (if (dir =? 1) && (alloc_from_sys_max_page_cnt n <? cnt) then cnt else alloc_from_sys_max_page_cnt n) (cached_pages n)).
Definition set_cached (x : Z) (g : codec_mm_scatter_mgt) : codec_mm_scatter_mgt :=
  let n := counts g in
  with_counts g (mk_scounts (total_page_num n) (alloced_page_num n) (max_alloced n) (one_page_cnt n) (scatters_cnt n) (slot_cnt n)
    (alloc_from_sys_sc_cnt n) (alloc_from_sys_page_cnt n) (alloc_from_sys_max_page_cnt n) x).
Definition note_max (g : codec_mm_scatter_mgt) : codec_mm_scatter_mgt :=
  let n := counts g in
  with_counts g (mk_scounts (total_page_num n) (alloced_page_num n) (Z.max (max_alloced n) (alloced_page_num n)) (one_page_cnt n)
    (scatters_cnt n) (slot_cnt n) (alloc_from_sys_sc_cnt n) (alloc_from_sys_page_cnt n) (alloc_from_sys_max_page_cnt n) (cached_pages n)).

Definition set_sys_cnt (x : Z) (g : codec_mm_scatter_mgt) : codec_mm_scatter_mgt :=
  let p := policy g in
  with_policy g (mk_policy x (delay_free_on p) (force_cache_on p) (force_cache_page_cnt p) (delay_free_timeout_jiffies64 p)
    (alloc_time p) (free_time p) (dealy_work p) (scatter_task_run_num p)).
Definition set_delay (on timeout : Z) (g : codec_mm_scatter_mgt) : codec_mm_scatter_mgt :=
  let p := policy g in
  with_policy g (mk_policy (try_alloc_in_sys_page_cnt p) on (force_cache_on p) (force_cache_page_cnt p) timeout
    (alloc_time p) (free_time p) (dealy_work p) (scatter_task_run_num p)).
Definition set_force (on cnt timeout : Z) (g : codec_mm_scatter_mgt) : codec_mm_scatter_mgt :=
  let p := policy g in
  with_policy g (mk_policy (try_alloc_in_sys_page_cnt p) (delay_free_on p) on cnt timeout
    (alloc_time p) (free_time p) (dealy_work p) (scatter_task_run_num p)).
Definition set_times (a f : time_stat) (g : codec_mm_scatter_mgt) : codec_mm_scatter_mgt :=
  let p := policy g in
  with_policy g (mk_policy (try_alloc_in_sys_page_cnt p) (delay_free_on p) (force_cache_on p) (force_cache_page_cnt p)
    (delay_free_timeout_jiffies64 p) a f (dealy_work p) (scatter_task_run_num p)).
Definition set_work (w : option Z) (runs : Z) (g : codec_mm_scatter_mgt) : codec_mm_scatter_mgt :=
  let p := policy g in
  with_policy g (mk_policy (try_alloc_in_sys_page_cnt p) (delay_free_on p) (force_cache_on p) (force_cache_page_cnt p)
    (delay_free_timeout_jiffies64 p) (alloc_time p) (free_time p) w runs).
Definition set_support (x : Z) (g : codec_mm_scatter_mgt) : codec_mm_scatter_mgt :=
  let c := sconf g in
  with_conf g (mk_sconf (keep_size_PAGE c) (reserved_block_mm_M c) (try_alloc_in_cma_page_cnt c) (try_alloc_in_sys_page_cnt_max c)
    (try_alloc_in_sys_page_cnt_min c) (enable_slot_from_sys c) (no_cache_size_M c) x (no_alloc_from_sys c)).

(** *** Changes of a slot or a scatter *)

Definition slot_link (x : codec_mm_slot) (id : Z) (root : bool) : codec_mm_slot :=
  mk_slot (slot_mm x) (page_header x) (from_type x) (pagemap x) (slot_phy_addr x) (page_num x) (slot_alloced x) (next_bit x) id root (on_alloc_free x).
Definition slot_bits (x : codec_mm_slot) (b : list bool) (n next : Z) : codec_mm_slot :=
  mk_slot (slot_mm x) (page_header x) (from_type x) ((fun m => (m.1, b)) <$> pagemap x) (slot_phy_addr x) (page_num x) n next (sid x) (isroot x) (on_alloc_free x).
Definition slot_busy (x : codec_mm_slot) (n : Z) : codec_mm_slot :=
  mk_slot (slot_mm x) (page_header x) (from_type x) (pagemap x) (slot_phy_addr x) (page_num x) (slot_alloced x) (next_bit x) (sid x) (isroot x) n.
Definition sc_pages (x : codec_mm_scatter) (l : list Z) (cnt tail : Z) : codec_mm_scatter :=
  mk_sc (manager x) l (page_max_cnt x) cnt tail (page_used x) (user_cnt x) (tofree_jiffies x).
Definition sc_used (x : codec_mm_scatter) (u : Z) : codec_mm_scatter :=
  mk_sc (manager x) (pages_list x) (page_max_cnt x) (page_cnt x) (page_tail x) u (user_cnt x) (tofree_jiffies x).
Definition sc_user (x : codec_mm_scatter) (n j : Z) : codec_mm_scatter :=
  mk_sc (manager x) (pages_list x) (page_max_cnt x) (page_cnt x) (page_tail x) (page_used x) n j.

(** ** Times and the delayed work *)

(** Whether the work was queued: a pending work is left alone, or queued again
    with the new delay when [for_update]. *)
Definition codec_mm_schedule_delay_work (t : bool) (delay_ms : Z) (for_update : bool) : M Z :=
  g ← smgt t;
  if negb for_update && bool_decide (dealy_work (policy g) <> None) then mret 0
  else
    upd_smgt t (fun g => set_work (Some (Z.quot (s32 (delay_ms * HZ)) 1000)) (scatter_task_run_num (policy g)) g);;
    mret 1.

Definition codec_mm_get_current_us : M Z := t ← kcall sc_local_clock; mret (t / 1000).
Definition get_jiffies : M Z := kcall sc_jiffies.

(** The class of a duration: below 10, 50, 100, 1000, 10000, 100000 us or above. *)
Definition time_class (us : Z) : nat :=
  if us <? 10 then 0 else if us <? 50 then 1 else if us <? 100 then 2 else if us <? 1000 then 3
  else if us <? 10000 then 4 else if us <? 100000 then 5 else 6.
Definition note_time (st : time_stat) (us : Z) : time_stat :=
  if (0 <? us) && (us <? 100000000) then
    mk_stat (s32 (t_cnt st + 1)) (u64 (t_total_us st + us)) (Z.max (t_max_us st) us) (alter (fun n => s32 (n + 1)) (time_class us) (t_class st))
  else st.
Definition codec_mm_update_alloc_time (t : bool) (startus : Z) : M unit :=
  now ← codec_mm_get_current_us;
  upd_smgt t (fun g => set_times (note_time (alloc_time (policy g)) (s32 (now - startus))) (free_time (policy g)) g).
Definition codec_mm_update_free_time (t : bool) (startus : Z) : M unit :=
  now ← codec_mm_get_current_us;
  upd_smgt t (fun g => set_times (alloc_time (policy g)) (note_time (free_time (policy g)) (s32 (now - startus))) g).
Definition zero_stat : time_stat := mk_stat 0 0 0 (replicate 7 0).
Definition codec_mm_clear_alloc_infos : M unit :=
  upd_smgt false (set_times zero_stat zero_stat);; upd_smgt true (set_times zero_stat zero_stat).

(** ** Slots *)

Definition SLOT_TO_SID (x : codec_mm_slot) : Z := HASH_PAGE_ADDR (Z.shiftr (slot_phy_addr x) PAGE_SHIFT).
Definition VALID_BIT (b : list bool) (bit : Z) : bool := (0 <=? bit) && (bit <? zlen b).
Definition slot_has (x : codec_mm_slot) (addr : Z) : bool :=
  (slot_phy_addr x <=? addr) && (addr <? u64 (slot_phy_addr x + s32 (Z.shiftl (page_num x) PAGE_SHIFT))).

Definition codec_mm_set_slot_in_hash (t : bool) (p : Z) : M Z :=
  x ← get_slot p;
  let id := SLOT_TO_SID x in
  if MAX_SID <? id then mret (-1)
  else
    g ← smgt t;
    let ring := default [] (slot_list_map g !! id) in
    put_slot p (slot_link x id (bool_decide (ring = [])));;
    upd_smgt t (fun g => with_map g (<[id := ring ++ [p]]> (slot_list_map g)));;
    upd_smgt t (add_counts (page_num x) 0 0 0 1 0);;
    when (from_type x =? SLOT_FROM_GET_FREE_PAGES) (upd_smgt t (add_sys_slot 1 (page_num x)));;
    upd_smgt t (fun g => with_free g (free_list g ++ [p]));;
    mret 0.

(** The first slot of a list that has the address. *)
Fixpoint find_slot (l : list Z) (addr : Z) : M (option Z) :=
  match l with
  | [] => mret None
  | p :: l => x ← get_slot p; if slot_has x addr then mret (Some p) else find_slot l addr
  end.

(** From the root backwards along the ring. *)
Definition codec_mm_find_slot_in_hash (t : bool) (id addr : Z) : M (option Z) :=
  if negb (VALID_SID id) || SID_OF_ONEPAGE id then mret None
  else
    g ← smgt t;
    match slot_list_map g !! id with
    | Some (root :: ring) => find_slot (root :: rev ring) addr
    | _ => mret None
    end.

(** Out of its ring; the next slot becomes the root. *)
Definition unlink_slot (t : bool) (p : Z) (x : codec_mm_slot) : M unit :=
  g ← smgt t;
  let ring := default [] (slot_list_map g !! sid x) in
  if bool_decide (length ring <= 1)%nat then upd_smgt t (fun g => with_map g (delete (sid x) (slot_list_map g)))
  else
    let rest := filter (fun q => q <> p) ring in
    match isroot x, rest with
    | true, q :: _ => y ← get_slot q; put_slot q (slot_link y (sid y) true)
    | _, _ => mret tt
    end;;
    upd_smgt t (fun g => with_map g (<[sid x := rest]> (slot_list_map g))).

(** The memory of a slot goes back to where it came from. *)
Definition release_slot_memory (x : codec_mm_slot) : M unit :=
  if from_type x =? SLOT_FROM_CODEC_MM then
    match slot_mm x with Some q => mmdo (fun s => codec_mm_release s q SCATTER_MEM) | None => mret tt end
  else if from_type x =? SLOT_FROM_GET_FREE_PAGES then
    when (c_true (page_header x)) (kdo (fun w => sc_free_pages w (page_header x) (get_order (PAGE_SIZE * page_num x))))
  else mret tt.

Definition free_pagemap (x : codec_mm_slot) : M unit :=
  match pagemap x with Some (m, _) => kdo (fun w => sc_kfree w m) | None => mret tt end.

Definition codec_mm_slot_free (t : bool) (p : Z) : M Z :=
  x ← get_slot p;
  if (0 <? slot_alloced x) || c_true (on_alloc_free x) then mret (-1)
  else
    upd_smgt t (fun g => with_free g (filter (fun q => q <> p) (free_list g)));;
    unlink_slot t p x;;
    upd_smgt t (add_counts (- page_num x) 0 0 0 (-1) 0);;
    when (from_type x =? SLOT_FROM_GET_FREE_PAGES) (upd_smgt t (add_sys_slot (-1) (page_num x)));;
    release_slot_memory x;;
    free_pagemap x;;
    kdo (fun w => sc_kfree w p);;
    upd_scs (fun c => with_slots c (delete p (slots c)));;
    mret 0.

(** The comparison is one of unsigned numbers. *)
Definition codec_mm_slot_try_free (t : bool) (p : Z) : M Z :=
  g ← smgt t;
  let keep := keep_size_PAGE (sconf g) in
  let free_pages := s32 (total_page_num (counts g) - alloced_page_num (counts g)) in
  if (0 <? keep) && (u32 free_pages <? keep) then mret (-1) else codec_mm_slot_free t p.

(** The bitmap of a new slot; [None] when there is no memory for it. *)
Definition codec_mm_slot_init_bitmap (pages : Z) : M (option (Z * list bool)) :=
  let size := Z.shiftr pages 3 + 2 in
  m ← kcall (fun w => sc_kmalloc w size);
  mret ((fun m => (m, replicate (Z.to_nat (size * 8)) false)) <$> m).

Definition new_slot (q : option Z) (header from : Z) (map : Z * list bool) (phy pages : Z) : codec_mm_slot :=
  mk_slot q header from (Some map) phy pages 0 0 0 false 0.

(** [codec_mm_alloc] for scatter memory does not sweep the scatter caches. *)
Definition no_sweep : St -> Z -> option St := fun _ _ => None.

(** A slot of decoder memory. *)
Definition slot_from_codec_mm (t : bool) (size : Z) : M (option codec_mm_slot) :=
  g ← smgt t;
  free ← gets codec_mm_get_free_size;
  if ((size <=? 0) || (64 * 1024 <? size)) && (smgt_tvp g || (u32 (reserved_block_mm_M (sconf g) * SZ_1M) <? u32 free)) then
    let try := if size <=? 0 then s32 (try_alloc_in_cma_page_cnt (sconf g) * PAGE_SIZE) else size in
    let try := if free <? try then free else try in
    q ← mmcall (fun s => codec_mm_alloc no_sweep s SCATTER_MEM try 0
          (Z.lor (Z.lor CODEC_MM_FLAGS_FOR_VDECODER CODEC_MM_FLAGS_FOR_SCATTER) (if smgt_tvp g then CODEC_MM_FLAGS_TVP else 0)));
    match q with
    | None => mret None
    | Some q =>
        l ← gets (fun s => mem_list (mgt s));
        b ← of_opt (find_mm l q);
        m ← codec_mm_slot_init_bitmap (page_count b);
        match m with
        | None => mmdo (fun s => codec_mm_release s q SCATTER_MEM);; mret None
        | Some m => mret (Some (new_slot (Some q) 0 SLOT_FROM_CODEC_MM m (phy_addr b) (page_count b)))
        end
    end
  else mret None.

(** A slot of system pages: smaller and smaller blocks are tried down to the
    smallest of the settings, after which the system is not asked any more. *)
Fixpoint slot_from_sys (t : bool) (try : Z) (fuel : nat) : M (option codec_mm_slot) :=
  match fuel with
  | O => undef
  | S fuel =>
      let order := get_order try in
      h ← kcall (fun w => sc_get_free_pages w order);
      match h with
      | None =>
          g ← smgt t;
          if try_alloc_in_sys_page_cnt_min (sconf g) <=? u32 (Z.shiftr try (PAGE_SHIFT + 1)) then
            let try := Z.shiftr try 1 in
            upd_smgt t (set_sys_cnt (u32 (Z.shiftr try PAGE_SHIFT)));;
            slot_from_sys t try fuel
          else upd_smgt t (set_support 0);; mret None
      | Some h =>
          let pages := s32 (Z.shiftl 1 order) in
          m ← codec_mm_slot_init_bitmap pages;
          match m with
          | None => kdo (fun w => sc_free_pages w h order);; mret None
          | Some m => mret (Some (new_slot None h SLOT_FROM_GET_FREE_PAGES m (virt_to_phys h) pages))
          end
      end
  end.

(** The halvings of a positive [int] come to an end after 31 turns. *)
Definition SYS_TRIES : nat := 33.

(** The system, when the settings allow it and the block is more than two pages. *)
Definition slot_from_sys_if (t : bool) (size : Z) : M (option codec_mm_slot) :=
  g ← smgt t;
  let try := if size <=? 0 then s32 (Z.shiftl (try_alloc_in_sys_page_cnt (policy g)) PAGE_SHIFT) else PAGE_ALIGN size in
  if negb (c_true (support_from_slot_sys (sconf g))) || (u64 try <=? 2 * PAGE_SIZE)
     || smgt_tvp g || c_true (no_alloc_from_sys (sconf g)) then mret None
  else slot_from_sys t try SYS_TRIES.

(** [flags & 1]: not from the decoder memory. *)
Definition codec_mm_slot_alloc (t : bool) (size flgs : Z) : M (option Z) :=
  if (0 <? size) && (size <=? PAGE_SIZE) then mret None
  else
    p ← kcall (fun w => sc_kmalloc w 0);
    match p with
    | None => mret None
    | Some p =>
        x ← (if c_true (Z.land flgs 1) then mret None else slot_from_codec_mm t size);
        x ← (match x with Some x => mret (Some x) | None => slot_from_sys_if t size end);
        match x with
        | None => kdo (fun w => sc_kfree w p);; mret None
        | Some x => put_slot p x;; codec_mm_set_slot_in_hash t p;; mret (Some p)
        end
    end.

(** *** Pages of a slot *)

Definition codec_mm_slot_free_page (p addr : Z) : M Z :=
  x ← get_slot p;
  match pagemap x with
  | None => mret (CODEC_MM_S_ERR 4)
  | Some (_, bits) =>
      if page_num x <=? 0 then mret (CODEC_MM_S_ERR 4)
      else
        let bit := ADDR2BIT (slot_phy_addr x) addr in
        if negb (VALID_BIT bits bit) then mret (CODEC_MM_S_ERR 5)
        else if negb (default false (bits !! Z.to_nat bit)) then mret (CODEC_MM_S_ERR 6)
        else
          put_slot p (slot_bits x (<[Z.to_nat bit := false]> bits) (s32 (slot_alloced x - 1)) (next_bit x));;
          mret 0
  end.

(** The search of [codec_mm_slot_alloc_pages] for clear bits from bit [i] on,
    once around: the pages found, the bits and the bit after the last one. *)
Fixpoint take_bits (x : codec_mm_slot) (bits : list bool) (i need : Z) (n : nat) : list Z * list bool * Z :=
  match n with
  | O => ([], bits, i)
  | S n =>
      if (need <=? 0) || negb (VALID_BIT bits i) then ([], bits, i)
      else
        let next := if page_num x <=? i + 1 then 0 else i + 1 in
        if default false (bits !! Z.to_nat i) then take_bits x bits next need n
        else
          let '(pages, bits, j) := take_bits x (<[Z.to_nat i := true]> bits) next (need - 1) n in
          (phy_addr_type (ADDR2PAGE (BIT2ADDR (slot_phy_addr x) i) (sid x)) :: pages, bits, j)
  end.

Definition codec_mm_slot_alloc_pages (p num : Z) : M (Z * list Z) :=
  x ← get_slot p;
  match pagemap x with
  | None => mret (-1, [])
  | Some (_, bits) =>
      if page_num x <=? slot_alloced x then mret (-2, [])
      else
        let need := Z.min num (page_num x - slot_alloced x) in
        let '(pages, bits, i) := if on_alloc_free x =? 1 then take_bits x bits (next_bit x) need (Z.to_nat (page_num x)) else ([], bits, next_bit x) in
        put_slot p (slot_bits x bits (s32 (slot_alloced x + zlen pages)) (if page_num x <=? i then 0 else i));;
        mret (zlen pages, pages)
  end.
End Scatter.
