(* ===== verification/ScatterOps.v ===== *)
(** * Scatters and their managers (codec_mm_scatter.c)

    Pages in and out of scatters, the scatters that cache free pages, users, the
    work that runs in the background, and the sweep that gives everything back. *)

From stdpp Require Import base numbers list option strings gmap.
From S2P Require Import Prelude KText CodecMm Scatter.

Section Ops.
Context {W : Type} {env : MmEnv W} {senv : ScEnv W}.
Variable HZ : Z.
Abbreviation M := (M (W := W)).

(** ** Pages from slots and from the system *)

(** A page is put back to its slot; the slot goes when it is empty and enough
    is free, else it joins the list of free slots. *)
Definition codec_mm_page_free_to_slot (t : bool) (id addr : Z) : M Z :=
  p ← codec_mm_find_slot_in_hash t id addr;
  match p with
  | None => mret (-1)
  | Some p =>
      codec_mm_slot_free_page p addr;;
      x ← get_slot p;
      ret ← (if slot_alloced x =? 0 then codec_mm_slot_try_free t p else mret (-1));
      if ret =? 0 then mret 0
      else
        g ← smgt t;
        when (bool_decide (p ∉ free_list g) && (slot_alloced x <? page_num x)) (upd_smgt t (fun g => with_free g (free_list g ++ [p])));;
        mret 0
  end.

(** Single pages until the system has no more. *)
Fixpoint one_pages (n : nat) : M (list Z) :=
  match n with
  | O => mret []
  | S n =>
      v ← kcall (fun w => sc_get_free_pages w 0);
      match v with
      | None => mret []
      | Some v => l ← one_pages n; mret (phy_addr_type (Z.lor (virt_to_phys v) ONE_PAGE_SID) :: l)
      end
  end.
Definition codec_mm_page_alloc_from_one_pages (t : bool) (num : Z) : M (list Z) :=
  l ← one_pages (Z.to_nat num);
  upd_smgt t (add_counts (zlen l) (zlen l) (zlen l) 0 0 0);;
  mret l.

(** A slot to take pages from: a new one when there is none free, else the
    first of the free ones.  It leaves the list while pages are taken. *)
Definition pick_slot (t : bool) : M (option (option Z)) :=
  g ← smgt t;
  let n := counts g in
  p ← (if (total_page_num n <=? 0) || (alloced_page_num n =? total_page_num n) || bool_decide (free_list g = []) then
         p ← codec_mm_slot_alloc t 0 0;
         match p with
         | Some p => mret (Some (Some p))
         | None =>
             let pages := try_alloc_in_cma_page_cnt (sconf g) / 4 in
             p ← codec_mm_slot_alloc t (s32 (pages * PAGE_SIZE)) 0;
             mret (match p with Some p => Some (Some p) | None => None end)
         end
       else mret (Some None));
  match p with
  | None => mret None
  | Some p =>
      p ← (match p with Some p => x ← get_slot p; mret (if c_true (on_alloc_free x) then None else Some p) | None => mret None end);
      g ← smgt t;
      p ← (match p, free_list g with
           | None, q :: _ => x ← get_slot q; mret (if c_true (on_alloc_free x) then None else Some q)
           | _, _ => mret p
           end);
      match p with
      | None => mret (Some None)
      | Some p =>
          x ← get_slot p;
          put_slot p (slot_busy x (on_alloc_free x + 1));;
          upd_smgt t (fun g => with_free g (filter (fun q => q <> p) (free_list g)));;
          mret (Some (Some p))
      end
  end.

(** One turn: the pages, or [None] when no slot is left. *)
Definition slot_turn (t : bool) (need : Z) : M (option (list Z)) :=
  p ← pick_slot t;
  match p with
  | Some (Some p) =>
      '(n, l) ← codec_mm_slot_alloc_pages p need;
      x ← get_slot p;
      put_slot p (slot_busy x (on_alloc_free x - 1));;
      g ← smgt t;
      when ((slot_alloced x <? page_num x) && bool_decide (p ∉ free_list g)) (upd_smgt t (fun g => with_free g (free_list g ++ [p])));;
      mret (Some l)
  | _ => mret None
  end.

(** Every turn takes a page or takes a full slot off the list of free ones. *)
Fixpoint slot_turns (t : bool) (need : Z) (fuel : nat) : M (list Z) :=
  match fuel with
  | O => undef
  | S fuel =>
      l ← slot_turn t need;
      match l with
      | None => mret []
      | Some l => if 0 <? need - zlen l then k ← slot_turns t (need - zlen l) fuel; mret (l ++ k) else mret l
      end
  end.

Definition codec_mm_page_alloc_from_slot (t : bool) (num : Z) : M (list Z) :=
  g ← smgt t;
  free ← gets codec_mm_get_free_size;
  if negb (smgt_tvp g) && bool_decide (free_list g = []) && (u32 free <? u32 (reserved_block_mm_M (sconf g) * SZ_1M))
     && negb (c_true (support_from_slot_sys (sconf g))) then mret []
  else
    l ← slot_turns t num (S (Z.to_nat num + length (free_list g)));
    upd_smgt t (add_counts 0 (zlen l) 0 0 0 0);; upd_smgt t note_max;;
    mret l.

(** ** The scatters that cache *)

(** [flags & 1]: the one with more pages; [cur]: the other one. *)
Definition codec_mm_get_next_cache_scatter (t : bool) (cur : option Z) (flgs : Z) : M (option Z) :=
  g ← smgt t;
  let '(a, b) := cache_scs g in
  match cur with
  | Some c => mret (if bool_decide (a = Some c) then b else a)
  | None =>
      match a, b with
      | Some a, Some b =>
          x ← get_mms a; y ← get_mms b;
          let more := c_true (Z.land flgs 1) in
          mret (Some (if page_cnt y <=? page_cnt x then (if more then a else b) else (if more then b else a)))
      | Some a, None => mret (Some a)
      | None, _ => mret b
      end
  end.

(** [n] words from position [i] of a page list; zeros there; words written there. *)
Definition words_at (l : list Z) (i n : Z) : option (list Z) :=
  if (0 <=? i) && (0 <=? n) && (i + n <=? zlen l) then Some (take (Z.to_nat n) (drop (Z.to_nat i) l)) else None.
Definition put_words (l : list Z) (i : Z) (x : list Z) : option (list Z) :=
  if (0 <=? i) && (i + zlen x <=? zlen l) then Some (take (Z.to_nat i) l ++ x ++ drop (Z.to_nat i + length x) l) else None.
Definition clear_words (l : list Z) (i n : Z) : option (list Z) := put_words l i (replicate (Z.to_nat n) 0).

(** A mutex that is only tried may be taken. *)
Definition sc_lock (p : Z) (wait : bool) : M bool := if wait then mret true else kcall (fun w => sc_trylock w p).

(** Pages off the tail of a caching scatter: their number, and the pages. *)
Definition codec_mm_page_alloc_from_free_scatter (t : bool) (src : option Z) (num : Z) (wait : bool) : M (Z * list Z) :=
  match src with
  | None => mret (0, [])
  | Some p =>
      ok ← sc_lock p wait;
      if negb (ok : bool) then mret (0, [])
      else
        x ← get_mms p;
        let n := Z.min (page_cnt x) num in
        l ← (if 0 <? n then
               let tail := page_tail x - n in
               l ← of_opt (words_at (pages_list x) (tail + 1) n);
               rest ← of_opt (clear_words (pages_list x) (tail + 1) n);
               put_mms p (sc_pages x rest (page_cnt x - n) tail);;
               mret l
             else mret []);
        upd_smgt t (add_counts 0 0 0 0 0 (- n));;
        mret (n, l)
  end.

Definition codec_mm_page_alloc_from_cache_scatter (t : bool) (num : Z) : M (Z * list Z) :=
  src ← codec_mm_get_next_cache_scatter t None 1;
  '(n, l) ← codec_mm_page_alloc_from_free_scatter t src num false;
  if n <? num then
    src ← codec_mm_get_next_cache_scatter t src 1;
    '(m, k) ← codec_mm_page_alloc_from_free_scatter t src (num - n) true;
    mret (n + m, l ++ k)
  else mret (n, l).

(** From the caches, then from slots, then single pages of the system, as long
    as each of them gives some. *)
Fixpoint alloc_turns (t : bool) (from_sc from_slot : bool) (need : Z) (fuel : nat) : M (list Z) :=
  match fuel with
  | O => undef
  | S fuel =>
      if need <=? 0 then mret []
      else if from_sc then
        '(n, l) ← codec_mm_page_alloc_from_cache_scatter t need;
        k ← alloc_turns t (0 <? n) from_slot (need - n) fuel;
        mret (l ++ k)
      else if from_slot then
        l ← codec_mm_page_alloc_from_slot t need;
        k ← alloc_turns t false (0 <? zlen l) (need - zlen l) fuel;
        mret (l ++ k)
      else
        g ← smgt t;
        if negb (c_true (no_alloc_from_sys (sconf g))) && negb (smgt_tvp g) then
          l ← codec_mm_page_alloc_from_one_pages t need;
          if zlen l <=? 0 then mret []
          else k ← alloc_turns t false false (need - zlen l) fuel; mret (l ++ k)
        else mret []
  end.
(** Every turn gives a page or rules out a source. *)
Definition codec_mm_page_alloc_all_locked (t : bool) (num : Z) (iscache : bool) : M (list Z) :=
  alloc_turns t (negb iscache) true num (Z.to_nat num + 4).

Definition is_cache_sc (g : codec_mm_scatter_mgt) (p : Z) : bool := bool_decide ((cache_scs g).1 = Some p) || bool_decide ((cache_scs g).2 = Some p).

(** Unused pages of a scatter to a caching one: how many, -1 when all are used,
    -2 when the caching one is locked. *)
Definition codec_mm_pages_free_to_scatter (t : bool) (src : Z) (dst : option Z) (wait : bool) : M Z :=
  x ← get_mms src;
  if page_cnt x <=? page_used x then mret (-1)
  else
    match dst with
    | None => mret 0
    | Some q =>
        if q =? src then mret 0
        else
          ok ← sc_lock q wait;
          if negb (ok : bool) then mret (-2)
          else
            y ← get_mms q;
            let moved := Z.min (page_cnt x - page_used x) (page_max_cnt y - page_cnt y) in
            let left := page_cnt x - moved in
            '(xl, yl) ← of_opt (if 0 <? moved then
                w ← words_at (pages_list x) left moved;
                yl ← put_words (pages_list y) (page_tail y + 1) w;
                xl ← clear_words (pages_list x) left moved;
                Some (xl, yl)
              else Some (pages_list x, pages_list y));
            put_mms q (sc_pages y yl (page_cnt y + moved) (page_tail y + moved));;
            put_mms src (sc_pages x xl (page_cnt x - moved) (page_tail x - moved));;
            upd_smgt t (add_counts 0 0 0 0 0 moved);;
            mret moved
    end.

Definition codec_mm_page_free_to_cache_scatter (t : bool) (src : Z) : M Z :=
  dst ← codec_mm_get_next_cache_scatter t None 0;
  n ← codec_mm_pages_free_to_scatter t src dst false;
  if n =? -2 then
    dst ← codec_mm_get_next_cache_scatter t dst 0;
    m ← codec_mm_pages_free_to_scatter t src dst true;
    mret (n + m)
  else mret n.

(** ** Freeing pages *)

(** The caller clears the word of the page. *)
Definition codec_mm_scatter_free_page_id_locked (t : bool) (p id : Z) : M Z :=
  x ← get_mms p;
  if (page_cnt x <=? id) || (id <? 0) then mret (CODEC_MM_S_ERR 1)
  else
    w ← of_opt (aget (pages_list x) id);
    let s := PAGE_SID w in
    if negb (VALID_SID s) then mret (CODEC_MM_S_ERR 2)
    else if SID_OF_ONEPAGE s then
      kdo (fun k => sc_free_pages k (phys_to_virt (PAGE_ADDR w)) 0);;
      upd_smgt t (add_counts (-1) 0 (-1) 0 0 0);;
      put_mms p (sc_pages x (pages_list x) (page_cnt x - 1) (if id =? page_tail x then page_tail x - 1 else page_tail x));;
      mret 0
    else
      ret ← codec_mm_page_free_to_slot t s (PAGE_ADDR w);
      x ← get_mms p;
      when (ret =? 0) (put_mms p (sc_pages x (pages_list x) (page_cnt x - 1) (page_tail x - 1)));;
      mret ret.

(** Down from position [i] for [n] pages. *)
Fixpoint free_ids (t : bool) (p i : Z) (n : nat) : M unit :=
  match n with
  | O => mret tt
  | S n =>
      codec_mm_scatter_free_page_id_locked t p i;;
      x ← get_mms p;
      l ← of_opt (aset (pages_list x) i 0);
      put_mms p (sc_pages x l (page_cnt x) (page_tail x));;
      free_ids t p (i - 1) n
  end.

Definition codec_mm_scatter_free_pages_in_locked (p start : Z) : M Z :=
  x ← get_mms p;
  let t := manager x in
  let n := Z.max 0 (page_tail x - start + 1) in
  free_ids t p (page_tail x) (Z.to_nat n);;
  g ← smgt t;
  upd_smgt t (add_counts 0 (- n) 0 0 0 (if is_cache_sc g p then - n else 0));;
  mret 0.

(** [fast_mode] 1: only mark the pages as unused; 2: give them to a cache;
    3: to a cache, the rest to their slots; else: to their slots.
    [free_mode] 0: from [id] on; 1: the unused pages; 2: the last [id] pages. *)
Definition codec_mm_scatter_free_tail_pages_in (p id fast_mode free_mode : Z) : M Z :=
  x ← get_mms p;
  let start := if free_mode =? 1 then page_used x else id in
  let start :=
    if free_mode =? 2 then
      if 0 <? id then if page_cnt x <=? id then 0 else page_cnt x - id else -1
    else start in
  if (start <? 0) || (page_cnt x <=? start) || (page_tail x <? 0) then mret (-1)
  else
    let t := manager x in
    put_mms p (sc_used x start);;
    if fast_mode =? 1 then mret 0
    else
      done ← (if (fast_mode =? 2) || (fast_mode =? 3) then
        us ← codec_mm_get_current_us;
        codec_mm_page_free_to_cache_scatter t p;;
        codec_mm_update_free_time t us;;
        x ← get_mms p;
        mret ((fast_mode =? 2) || (page_used x =? page_cnt x))
      else mret false);
      if (done : bool) then mret 0
      else codec_mm_scatter_free_pages_in_locked p start;; mret 0.

Definition codec_mm_scatter_free_tail_pages (p start : Z) : M Z := codec_mm_scatter_free_tail_pages_in p start 0 0.
Definition codec_mm_scatter_free_tail_pages_fast (p start : Z) : M Z :=
  x ← get_mms p;
  ret ← (if start <? page_cnt x then codec_mm_scatter_free_tail_pages_in p start 2 0 else mret 0);
  codec_mm_schedule_delay_work HZ (manager x) 100 false;;
  mret ret.
Definition codec_mm_scatter_free_unused_pages (p : Z) : M Z := codec_mm_scatter_free_tail_pages_in p 0 0 1.
Definition codec_mm_scatter_less_pages (p nums : Z) : M Z := codec_mm_scatter_free_tail_pages_in p nums 0 2.
Definition codec_mm_scatter_free_all_pages (p : Z) : M Z := codec_mm_scatter_free_tail_pages p 0.

(** ** Users *)

Fixpoint map_add (l : list (option Z)) (p : Z) : list (option Z) :=
  match l with
  | [] => []
  | None :: l => Some p :: l
  | Some q :: l => Some q :: map_add l p
  end.
(** A full map leaves the scatter out. *)
Definition codec_mm_scatter_map_add_locked (t : bool) (p : Z) : M unit := upd_smgt t (fun g => with_scmap g (map_add (scmap g) p)).
Fixpoint map_del (l : list (option Z)) (p : Z) : list (option Z) :=
  match l with
  | [] => []
  | q :: l => if bool_decide (q = Some p) then None :: l else q :: map_del l p
  end.
Definition codec_mm_scatter_map_del_locked (t : bool) (p : Z) : M unit := upd_smgt t (fun g => with_scmap g (map_del (scmap g) p)).
Definition codec_mm_scatter_valid_locked (g : codec_mm_scatter_mgt) (p : Z) : bool := bool_decide (Some p ∈ scmap g).

(** The scatter goes when it has no users. *)
Definition codec_mm_scatter_free_on_nouser_ext (t : bool) (p : Z) (not_in_mgt : bool) : M Z :=
  x ← get_mms p;
  if 0 <? user_cnt x then mret 0
  else
    upd_smgt t (fun g => with_scatters g (filter (fun q => q <> p) (scatter_list g)));;
    when (negb not_in_mgt) (upd_smgt t (add_counts 0 0 0 (-1) 0 0);; codec_mm_scatter_map_del_locked t p);;
    ret ← (if 0 <? page_cnt x then codec_mm_scatter_free_tail_pages_in p 0 0 0 else mret (user_cnt x));
    g ← smgt t;
    let c := sconf g in
    let sys := try_alloc_in_sys_page_cnt (policy g) in
    when ((256 <=? page_cnt x) && (sys <? try_alloc_in_sys_page_cnt_max c) && (total_page_num (counts g) <? 8192))
      (upd_smgt t (set_sys_cnt (u32 (sys * 2)));;
       when (support_from_slot_sys c =? 0) (upd_smgt t (set_support (enable_slot_from_sys c))));;
    kdo (fun w => sc_kfree w p);;
    upd_scs (fun c => with_mmss c (delete p (mmss c)));;
    mret ret.
Definition codec_mm_scatter_free_on_nouser (t : bool) (p : Z) : M Z := codec_mm_scatter_free_on_nouser_ext t p false.

Definition codec_mm_scatter_inc_user_in1 (t : bool) (p cnt : Z) : M Z :=
  g ← smgt t;
  if negb (codec_mm_scatter_valid_locked g p) then mret (-1)
  else
    x ← get_mms p;
    let old := user_cnt x in
    if 0 <=? old then
      let ret := s32 (old + cnt) in
      j ← (if old =? 1 then get_jiffies else mret (tofree_jiffies x));
      put_mms p (sc_user x ret j);;
      mret (if ret <=? 0 then ret else 0)
    else mret (-1).
Definition codec_mm_scatter_inc_user_in (p cnt : Z) : M Z :=
  ret ← codec_mm_scatter_inc_user_in1 false p cnt;
  if ret <? 0 then codec_mm_scatter_inc_user_in1 true p cnt else mret ret.

Definition codec_mm_scatter_dec_user_in1 (t : bool) (p delay_free_ms cnt : Z) : M Z :=
  g ← smgt t;
  if negb (codec_mm_scatter_valid_locked g p) then mret (-1)
  else
    x ← get_mms p;
    after ← (if 1 <=? user_cnt x then
      let n := s32 (user_cnt x - cnt) in
      j ← (if n =? 0 then j ← get_jiffies; mret (u64 (j + Z.quot (s32 (delay_free_ms * HZ)) 1000)) else mret (tofree_jiffies x));
      put_mms p (sc_user x n j);;
      mret n
    else mret 1);
    when (after =? 0) (codec_mm_schedule_delay_work HZ t 0 true;; mret tt);;
    mret 0.
Definition codec_mm_scatter_dec_user_in (p delay_free_ms cnt : Z) : M Z :=
  ret ← codec_mm_scatter_dec_user_in1 false p delay_free_ms cnt;
  if ret <? 0 then codec_mm_scatter_dec_user_in1 true p delay_free_ms cnt else mret ret.

(** An owner counts for a thousand, a keeper for a hundred. *)
Definition codec_mm_scatter_inc_for_keeper (p : Z) : M Z := codec_mm_scatter_inc_user_in p 100.
Definition codec_mm_scatter_dec_keeper_user (p delay_ms : Z) : M Z := codec_mm_scatter_dec_user_in p delay_ms 100.
Definition codec_mm_scatter_dec_owner_user (p delay_ms : Z) : M Z := codec_mm_scatter_dec_user_in p delay_ms 1000.

(** ** Scatters *)

(** Page words written from position [i] on. *)
Definition store_pages (x : codec_mm_scatter) (l : list Z) : option codec_mm_scatter :=
  pl ← put_words (pages_list x) (page_tail x + 1) l;
  Some (sc_pages x pl (page_cnt x + zlen l) (page_tail x + zlen l)).

Definition codec_mm_scatter_alloc_new (t : bool) (max_page page_num : Z) : M (option Z) :=
  if max_page <? page_num then mret None
  else
    p ← kcall (fun w => sc_kmalloc w (4 * max_page));
    match p with
    | None => mret None
    | Some p =>
        put_mms p (mk_sc t (replicate (Z.to_nat max_page) 0) max_page 0 (-1) 0 0 0);;
        ok ← (if 0 <? page_num then
          g ← smgt t;
          l ← codec_mm_page_alloc_all_locked t page_num (is_cache_sc g p);
          if zlen l <=? 0 then mret false
          else
            x ← get_mms p;
            x ← of_opt (store_pages x l);
            put_mms p x;; mret true
        else mret true);
        if negb (ok : bool) then codec_mm_scatter_free_on_nouser_ext t p true;; mret None
        else
          x ← get_mms p;
          put_mms p (sc_used (sc_user x 1000 (tofree_jiffies x)) (page_cnt x));;
          upd_smgt t (fun g => with_scatters g (scatter_list g ++ [p]));;
          upd_smgt t (add_counts 0 0 0 1 0 0);;
          codec_mm_scatter_map_add_locked t p;;
          mret (Some p)
    end.

(** As many pages as wanted; the result is 0 also when there are fewer. *)
Definition codec_mm_scatter_alloc_want_pages_in (t : bool) (p want : Z) : M Z :=
  x ← get_mms p;
  if page_max_cnt x <? want then mret (CODEC_MM_S_ERR 100)
  else
    put_mms p (sc_used x want);;
    g ← smgt t;
    let cache := is_cache_sc g p in
    got ← (if page_cnt x <? want then
      l ← codec_mm_page_alloc_all_locked t (want - page_cnt x) cache;
      if zlen l <=? 0 then mret None
      else
        x ← get_mms p;
        x ← of_opt (store_pages x l);
        put_mms p x;; mret (Some (zlen l))
    else mret (Some 0));
    match got with
    | None => mret 0
    | Some n =>
        when ((0 <? n) && cache) (upd_smgt t (add_counts 0 0 0 0 0 n));;
        g ← smgt t;
        when (cached_pages (counts g) <? keep_size_PAGE (sconf g) / 2) (codec_mm_schedule_delay_work HZ t 0 true;; mret tt);;
        mret 0
    end.
Definition codec_mm_scatter_alloc_want_pages (p want : Z) : M Z :=
  x ← get_mms p;
  us ← codec_mm_get_current_us;
  ret ← codec_mm_scatter_alloc_want_pages_in (manager x) p want;
  codec_mm_update_alloc_time (manager x) us;;
  mret ret.

(** From the tail of the list of scatters, the first without users and large
    enough. *)
Fixpoint find_unused (l : list Z) (max_page : Z) : M (option Z) :=
  match l with
  | [] => mret None
  | p :: l =>
      x ← get_mms p;
      if (max_page <=? page_max_cnt x) && (user_cnt x =? 0) then
        put_mms p (sc_used (sc_user x 1000 (tofree_jiffies x)) (page_cnt x));;
        mret (Some p)
      else find_unused l max_page
  end.

Definition codec_mm_scatter_alloc (t : bool) (max_page page_num : Z) : M (option Z) :=
  us ← codec_mm_get_current_us;
  g ← smgt t;
  p ← find_unused (rev (scatter_list g)) max_page;
  p ← (match p with Some p => mret (Some p) | None => codec_mm_scatter_alloc_new t max_page 0 end);
  match p with
  | None => mret None
  | Some p =>
      ret ← codec_mm_scatter_alloc_want_pages_in t p page_num;
      if ret <? 0 then
        x ← get_mms p;
        put_mms p (sc_user x (s32 (user_cnt x - 1000)) (tofree_jiffies x));;
        mret None
      else codec_mm_update_alloc_time t us;; mret (Some p)
  end.

(** ** In the background *)

(** The last of the free slots nobody has pages of. *)
Fixpoint find_empty (l : list Z) : M (option Z) :=
  match l with
  | [] => mret None
  | p :: l => x ← get_slot p; if slot_alloced x =? 0 then mret (Some p) else find_empty l
  end.
Fixpoint free_empty (t : bool) (fuel : nat) : M unit :=
  match fuel with
  | O => undef
  | S fuel =>
      g ← smgt t;
      p ← find_empty (rev (free_list g));
      match p with
      | None => mret tt
      | Some p =>
          upd_smgt t (fun g => with_free g (filter (fun q => q <> p) (free_list g)));;
          codec_mm_slot_free t p;;
          free_empty t fuel
      end
  end.
(** Every turn takes a slot off the list. *)
Definition codec_mm_free_all_free_slots_in (t : bool) : M Z :=
  g ← smgt t; free_empty t (S (length (free_list g)));; mret 0.
Definition codec_mm_free_all_free_slots : M Z :=
  codec_mm_free_all_free_slots_in false;; codec_mm_free_all_free_slots_in true.

Definition codec_mm_scatter_update_config (t : bool) : M Z := c ← gets scs; upd_smgt t (fun g => with_conf g (g_scatter c));; mret 0.
Definition codec_mm_scatter_size (t : bool) : M Z := g ← smgt t; mret (total_page_num (counts g)).

Definition ticks (ms : Z) : Z := Z.quot (s32 (ms * HZ)) 1000.

Definition codec_mm_scatter_mgt_delay_free_swith (on : bool) (delay_ms wait_size_M : Z) (t : bool) : M Z :=
  g ← smgt t;
  (if on then
     j ← get_jiffies;
     upd_smgt t (set_delay (s32 (delay_free_on (policy g) + 1)) (u64 (j + ticks delay_ms)))
   else
     let n := s32 (delay_free_on (policy g) - 1) in
     if n <=? 0 then j ← get_jiffies; upd_smgt t (set_delay 0 (u64 (j + ticks delay_ms)))
     else upd_smgt t (set_delay n (delay_free_timeout_jiffies64 (policy g))));;
  (if on && (0 <? wait_size_M) then
     j ← get_jiffies;
     upd_smgt t (set_force 1 (Z.shiftr wait_size_M PAGE_SHIFT) (u64 (j + Z.quot (10000 * HZ) 1000)));;
     codec_mm_schedule_delay_work HZ t 0 true
   else if on then codec_mm_schedule_delay_work HZ t 0 true
   else codec_mm_schedule_delay_work HZ t delay_ms false);;
  mret 0.

(** More pages are wanted for the caches. *)
Definition cache_need (g : codec_mm_scatter_mgt) (x : codec_mm_scatter) : Z :=
  let n := counts g in
  let p := policy g in
  let spare := total_page_num n - alloced_page_num n in
  let once := if c_true (force_cache_on p) then Z.max 4000 spare else 1000 in
  let need := page_cnt x + once in
  let need := if force_cache_page_cnt p <? need then force_cache_page_cnt p else need in
  if page_max_cnt x <? need then page_max_cnt x - 4 else need.

(** The first [if] of [codec_mm_scatter_cache_manage]; the answer is its
    [alloced]. *)
Definition cache_adjust (t : bool) : M bool :=
  g ← smgt t;
  let n := counts g in
  let c := sconf g in
  let p := policy g in
  let end_force := g ← smgt t; j ← get_jiffies;
      upd_smgt t (set_force 0 (force_cache_page_cnt (policy g)) (u64 (j + Z.quot (2000 * HZ) 1000))) in
  if (0 <? delay_free_on p) && (0 <? keep_size_PAGE c) then
    if (0 <? no_cache_size_M c) && (u32 (cached_pages n) <=? keep_size_PAGE c) && (u32 (no_cache_size_M c * 256) <=? u32 (total_page_num n)) then
      when (c_true (force_cache_on p)) end_force;; mret false
    else if (u32 (cached_pages n) <? keep_size_PAGE c) || (c_true (force_cache_on p) && (total_page_num n <? force_cache_page_cnt p)) then
      m ← codec_mm_get_next_cache_scatter t None 0;
      alloced ← (match m with
                 | None => mret false
                 | Some m =>
                     x ← get_mms m;
                     let need := cache_need g x in
                     if page_cnt x <? need then ret ← codec_mm_scatter_alloc_want_pages_in t m need; mret (ret =? 0) else mret false
                 end);
      g ← smgt t;
      when (alloced && c_true (force_cache_on (policy g)) && (force_cache_page_cnt (policy g) <=? cached_pages (counts g))) end_force;;
      mret alloced
    else if keep_size_PAGE c + 1000 <? cached_pages n then
      j ← get_jiffies;
      when (time_after j (delay_free_timeout_jiffies64 p))
        (m ← codec_mm_get_next_cache_scatter t None 0;
         (match m with Some m => codec_mm_scatter_less_pages m 256;; mret tt | None => mret tt end);;
         codec_mm_free_all_free_slots_in t;; mret tt);;
      mret false
    else mret false
  else if delay_free_on p <=? 0 then
    j ← get_jiffies;
    when (time_after j (delay_free_timeout_jiffies64 p)) (codec_mm_free_all_free_slots_in t;; mret tt);;
    mret false
  else mret false.

Definition codec_mm_scatter_cache_manage (t : bool) : M unit :=
  g ← smgt t;
  let n := counts g in
  let total_free := s32 (total_page_num n - alloced_page_num n + cached_pages n) in
  alloced ← cache_adjust t;
  g ← smgt t;
  let keep := keep_size_PAGE (sconf g) in
  let p := policy g in
  if (0 <? keep) && c_true (delay_free_on p) then
    if (c_true (force_cache_on p) || (u32 total_free <? keep)) && (alloced : bool) then
      if c_true (force_cache_on p) && negb (smgt_tvp g) then codec_mm_schedule_delay_work HZ t 0 true;; mret tt
      else codec_mm_schedule_delay_work HZ t 10 false;; mret tt
    else codec_mm_schedule_delay_work HZ t 100 false;; mret tt
  else when (negb (c_true (delay_free_on p)) && (0 <? total_page_num (counts g))) (codec_mm_schedule_delay_work HZ t 100 false;; mret tt).

(** A new caching scatter leaves the list of scatters. *)
Definition new_cache (t : bool) (second : bool) : M unit :=
  p ← codec_mm_scatter_alloc_new t 16384 0;
  match p with
  | None => mret tt
  | Some p =>
      upd_smgt t (fun g => with_scatters g (filter (fun q => q <> p) (scatter_list g)));;
      upd_smgt t (fun g => with_cache g (if second then ((cache_scs g).1, Some p) else (Some p, (cache_scs g).2)))
  end.
Definition drop_cache (t : bool) (p : option Z) : M unit :=
  match p with
  | None => mret tt
  | Some p => codec_mm_scatter_dec_owner_user p 0;; codec_mm_scatter_free_on_nouser t p;; mret tt
  end.

(** Whether some scatter of the list may be freed. *)
Fixpoint some_free (l : list Z) : M bool :=
  match l with
  | [] => mret false
  | p :: l =>
      x ← get_mms p;
      b ← (if user_cnt x =? 0 then j ← get_jiffies; mret (time_after j (tofree_jiffies x)) else mret false);
      c ← some_free l;
      mret (b || c)
  end.

(** The scatter that is moved to the tail is the one the loop ended with. *)
Definition codec_mm_scatter_scatter_arrange (t : bool) : M Z :=
  g ← smgt t;
  when ((0 <? delay_free_on (policy g)) && bool_decide ((cache_scs g).1 = None)) (new_cache t false;; new_cache t true);;
  g ← smgt t;
  (if (delay_free_on (policy g) <=? 0) && bool_decide ((cache_scs g).1 <> None) then
     j ← get_jiffies;
     when (time_after j (delay_free_timeout_jiffies64 (policy g)))
       (upd_smgt t (fun g => set_cached 0 (with_cache g (None, None)));;
        drop_cache t (cache_scs g).1;; drop_cache t (cache_scs g).2)
   else mret tt);;
  g ← smgt t;
  match last (scatter_list g) with
  | None => mret 0
  | Some p =>
      free ← some_free (scatter_list g);
      when free (upd_smgt t (fun g => with_scatters g (filter (fun q => q <> p) (scatter_list g) ++ [p])));;
      mret 0
  end.

(** The scatter without users to be freed first, how many there are, and the
    first scatter with unused pages, where the search ends. *)
Fixpoint clear_scan (l : list Z) (best : option (Z * Z)) (cnt : Z) : M (option (Z * Z) * Z * option Z) :=
  match l with
  | [] => mret (best, cnt, None)
  | p :: l =>
      x ← get_mms p;
      let free := user_cnt x =? 0 in
      let best := if free then match best with
                               | Some (q, j) => if tofree_jiffies x <? j then Some (p, tofree_jiffies x) else Some (q, j)
                               | None => Some (p, tofree_jiffies x)
                               end else best in
      let cnt := if free then cnt + 1 else cnt in
      if page_used x <? page_cnt x then mret (best, cnt, Some p) else clear_scan l best cnt
  end.

Definition codec_mm_scatter_scatter_clear (t : bool) (force : bool) : M bool :=
  g ← smgt t;
  '(best, cnt, less) ← clear_scan (scatter_list g) None 0;
  to_free ← (match best with
    | None => mret None
    | Some (p, j) =>
        due ← (if (1 <? cnt) || negb (c_true (delay_free_on (policy g))) then now ← get_jiffies; mret (time_after now j) else mret false);
        if (due : bool) || force then
          x ← get_mms p;
          let n := s32 (user_cnt x - 100000) in
          if n =? -100000 then
            put_mms p (sc_user x n (tofree_jiffies x));;
            upd_smgt t (fun g => with_scatters g (filter (fun q => q <> p) (scatter_list g)));;
            mret (Some p)
          else mret None
        else mret None
    end);
  (match to_free with Some p => codec_mm_scatter_free_on_nouser t p;; mret tt | None => mret tt end);;
  (match less with
   | Some q => when (negb (bool_decide (to_free = Some q))) (codec_mm_scatter_free_unused_pages q;; mret tt)
   | None => mret tt
   end);;
  mret (bool_decide (to_free <> None) || bool_decide (less <> None)).

(** The caches first: the second one moves up until none is left. *)
Fixpoint drop_caches (t : bool) (fuel : nat) : M unit :=
  match fuel with
  | O => undef
  | S fuel =>
      g ← smgt t;
      upd_smgt t (fun g => set_cached 0 (with_cache (set_delay 0 (delay_free_timeout_jiffies64 (policy g)) g) ((cache_scs g).2, None)));;
      drop_cache t (cache_scs g).1;;
      g ← smgt t;
      if bool_decide ((cache_scs g).1 = None) then mret tt else drop_caches t fuel
  end.
(** At most 1001 turns. *)
Fixpoint clear_turns (t : bool) (force : bool) (n : nat) : M unit :=
  match n with
  | O => mret tt
  | S n =>
      codec_mm_scatter_scatter_clear t force;;
      g ← smgt t;
      if 0 <? scatters_cnt (counts g) then clear_turns t force n else mret tt
  end.

Definition codec_mm_scatter_free_all_ignorecache_in (t : bool) (flgs : Z) : M Z :=
  drop_caches t 3;;
  when (1 <=? flgs) (clear_turns t (flgs =? 2) 1001);;
  codec_mm_free_all_free_slots_in t;;
  g ← smgt t;
  mret (total_page_num (counts g)).

Definition codec_mm_scatter_free_all_ignorecache (flgs : Z) : M Z :=
  when (c_true (Z.land flgs 1)) (codec_mm_scatter_free_all_ignorecache_in false 2;; mret tt);;
  when (c_true (Z.land flgs 2)) (codec_mm_scatter_free_all_ignorecache_in true 1;; mret tt);;
  mret 0.

(** The work is no longer pending when it runs. *)
Definition codec_mm_scatter_monitor (t : bool) : M unit :=
  upd_smgt t (fun g => set_work None (scatter_task_run_num (policy g)) g);;
  codec_mm_scatter_update_config t;;
  upd_smgt t (fun g => set_work (dealy_work (policy g)) (s32 (scatter_task_run_num (policy g) + 1)) g);;
  codec_mm_scatter_scatter_arrange t;;
  again ← codec_mm_scatter_scatter_clear t false;
  g ← smgt t;
  (if (again : bool) then codec_mm_schedule_delay_work HZ t 10 false;; mret tt
   else when (0 <? scatters_cnt (counts g)) (codec_mm_schedule_delay_work HZ t 100 false;; mret tt));;
  codec_mm_scatter_cache_manage t.

(** ** Start *)

Definition codec_mm_scatter_mgt_alloc_in (t : bool) : codec_mm_scatter_mgt :=
  let c := mk_sconf (20 * SZ_1M / PAGE_SIZE) 300 (16 * SZ_1M / PAGE_SIZE) MAX_SYS_BLOCK_PAGE MIN_SYS_BLOCK_PAGE 0
    (if sc_totalram_pages * PAGE_SIZE <? 800 * SZ_1M then 100 else 0) 0 0 in
  mk_smgt t c (mk_scounts 0 0 0 0 0 0 0 0 0 0) (mk_policy MAX_SYS_BLOCK_PAGE 0 0 0 0 zero_stat zero_stat None 0)
    ∅ [] [] (replicate MAX_SC_LIST None) (None, None).

(** The settings of the first manager become the global ones. *)
Definition codec_mm_scatter_mgt_init : scatters :=
  mk_scs ∅ ∅ (codec_mm_scatter_mgt_alloc_in false) (codec_mm_scatter_mgt_alloc_in true) (sconf (codec_mm_scatter_mgt_alloc_in false)).

End Ops.
