(* ===== verification/ScatterBooks.v ===== *)
(** * The scatter managers keep the books of the decoder memory

    Whatever the scatter managers do, the manager of decoder memory under them
    stays balanced: its counters, its list and the memory it holds agree.  With
    the sweep of the scatter managers and that of the keeper as the clients that
    [CodecMmSpec] only assumed, the books of the whole of the decoder memory are
    balanced in every reachable state. *)

From stdpp Require Import base numbers list option strings gmap relations.
From S2P Require Import Prelude KText CodecMm CodecMmLaws CodecMmSpec Scatter ScatterOps.

(** ** Computations that respect a relation *)

Section Resp.
Context {W : Type}.
Abbreviation St := (Scatter.St (W := W)).
Abbreviation M := (Scatter.M (W := W)).
Variable R : St -> St -> Prop.
Hypothesis R_refl : forall s, R s s.
Hypothesis R_trans : forall s1 s2 s3, R s1 s2 -> R s2 s3 -> R s1 s3.

Definition resp {A} (m : M A) : Prop := forall s a s', m s = Some (a, s') -> R s s'.

Lemma resp_ret {A} (a : A) : resp (mret a).
Proof. intros s b s' [= <- <-]. apply R_refl. Qed.
Lemma resp_bind {A B} (m : M A) (f : A -> M B) : resp m -> (forall a, resp (f a)) -> resp (m ≫= f).
Proof.
  intros Hm Hf s b s' H. unfold mbind, M_bind in H. destruct (m s) as [[a s1]|] eqn:H1; [|done].
  apply (R_trans _ s1); [by eapply Hm|by eapply Hf].
Qed.
Lemma resp_undef {A} : resp (undef : M A).
Proof. by intros s a s'. Qed.
Lemma resp_of_opt {A} (o : option A) : resp (of_opt o).
Proof. intros s a s' H. unfold of_opt in H. destruct o as [x|]; [|done]. injection H as <- <-. apply R_refl. Qed.
Lemma resp_gets {A} (f : St -> A) : resp (gets f).
Proof. intros s a s' [= <- <-]. apply R_refl. Qed.
Lemma resp_if {A} (b : bool) (m n : M A) : resp m -> resp n -> resp (if b then m else n).
Proof. by destruct b. Qed.
Lemma resp_when b (m : M unit) : resp m -> resp (when b m).
Proof. intros Hm. apply resp_if; [done|apply resp_ret]. Qed.
Lemma resp_modify f : (forall s, R s (f s)) -> resp (modify f).
Proof. intros Hf s a s' [= <- <-]. apply Hf. Qed.
End Resp.

Create HintDb resp.

Ltac resp_step :=
  first
    [ match goal with |- forall _, _ => intro end
    | solve [eauto with resp]
    | apply resp_bind; [eassumption| |]
    | apply resp_ret; eassumption
    | apply resp_undef
    | apply resp_of_opt; eassumption
    | apply resp_gets; eassumption
    | apply resp_when; [eassumption|]
    | match goal with |- resp _ (match ?x with _ => _ end) => destruct x end
    | match goal with |- resp _ (let _ := _ in _) => cbv zeta end ].
Ltac resp_tac := repeat resp_step.

(** ** What only touches the scatter managers *)

Section Ops.
Context {W : Type} {env : MmEnv W} {senv : ScEnv W}.
Context {held : W -> list chunk} {ptrs : W -> list Z}.
Variable HZ : Z.

(** The kernel structures and pages of the scatter managers are not memory of
    the manager of decoder memory. *)
Class ScLaws : Prop := {
  law_sc_kmalloc w n r w' : sc_kmalloc w n = (r, w') -> held w' = held w /\ ptrs w' = ptrs w;
  law_sc_kfree w p : held (sc_kfree w p) = held w /\ ptrs (sc_kfree w p) = ptrs w;
  law_sc_pages w o r w' : sc_get_free_pages w o = (r, w') -> held w' = held w /\ ptrs w' = ptrs w;
  law_sc_free w p o : held (sc_free_pages w p o) = held w /\ ptrs (sc_free_pages w p o) = ptrs w;
  law_sc_jiffies w r w' : sc_jiffies w = (r, w') -> held w' = held w /\ ptrs w' = ptrs w;
  law_sc_clock w r w' : sc_local_clock w = (r, w') -> held w' = held w /\ ptrs w' = ptrs w;
  law_sc_trylock w p r w' : sc_trylock w p = (r, w') -> held w' = held w /\ ptrs w' = ptrs w }.
Context {sclaws : ScLaws}.

Abbreviation St := (Scatter.St (W := W)).
Variable R : St -> St -> Prop.
Hypothesis R_refl : forall s, R s s.
Hypothesis R_trans : forall s1 s2 s3, R s1 s2 -> R s2 s3 -> R s1 s3.
Hypothesis R_beside : forall s w c, held w = held (world s).1 -> ptrs w = ptrs (world s).1 -> R s (with_world s (w, c)).
Hypothesis R_release : forall s p nm s', codec_mm_release s p nm = Some s' -> R s s'.

Abbreviation resp := (resp R).

Lemma resp_upd_scs f : resp (upd_scs f).
Proof. apply resp_modify. intros s. by apply R_beside. Qed.
Lemma resp_kcall {A} (f : W -> A * W) : (forall w a w', f w = (a, w') -> held w' = held w /\ ptrs w' = ptrs w) -> resp (kcall f).
Proof.
  intros Hf s a s' H. unfold kcall in H. destruct (f (world s).1) as [b w] eqn:Hw. injection H as <- <-.
  apply Hf in Hw as [H1 H2]. by apply R_beside.
Qed.
Lemma resp_kdo (f : W -> W) : (forall w, held (f w) = held w /\ ptrs (f w) = ptrs w) -> resp (kdo f).
Proof. intros Hf. apply resp_modify. intros s. destruct (Hf (world s).1). by apply R_beside. Qed.
Lemma resp_release p nm : resp (mmdo (fun s => codec_mm_release s p nm)).
Proof. intros s a s' H. unfold mmdo in H. destruct (codec_mm_release s p nm) eqn:Hr; [|done]. injection H as <- <-. by eapply R_release. Qed.
Lemma resp_kmalloc n : resp (kcall (fun w => sc_kmalloc w n)).
Proof. apply resp_kcall. intros w a w' H. exact (law_sc_kmalloc _ _ _ _ H). Qed.
Lemma resp_kfree p : resp (kdo (fun w => sc_kfree w p)).
Proof. apply resp_kdo. intros w. apply law_sc_kfree. Qed.
Lemma resp_pages o : resp (kcall (fun w => sc_get_free_pages w o)).
Proof. apply resp_kcall. intros w a w' H. exact (law_sc_pages _ _ _ _ H). Qed.
Lemma resp_free_pages p o : resp (kdo (fun w => sc_free_pages w p o)).
Proof. apply resp_kdo. intros w. apply law_sc_free. Qed.
Lemma resp_jiffies : resp get_jiffies.
Proof. apply resp_kcall. intros w a w' H. exact (law_sc_jiffies _ _ _ H). Qed.
Lemma resp_clock : resp (kcall sc_local_clock).
Proof. apply resp_kcall. intros w a w' H. exact (law_sc_clock _ _ _ H). Qed.
Lemma resp_trylock p : resp (kcall (fun w => sc_trylock w p)).
Proof. apply resp_kcall. intros w a w' H. exact (law_sc_trylock _ _ _ _ H). Qed.
Local Hint Resolve resp_upd_scs resp_release resp_kmalloc resp_kfree resp_pages resp_free_pages resp_jiffies resp_clock resp_trylock : resp.

Lemma resp_upd_smgt t f : resp (upd_smgt t f).
Proof. apply resp_upd_scs. Qed.
Lemma resp_smgt t : resp (smgt t).
Proof. by apply resp_gets. Qed.
Local Hint Resolve resp_upd_smgt resp_smgt : resp.
Lemma resp_get_slot p : resp (get_slot p).
Proof. unfold get_slot. resp_tac. Qed.
Lemma resp_put_slot p x : resp (put_slot p x).
Proof. apply resp_upd_scs. Qed.
Lemma resp_get_mms p : resp (get_mms p).
Proof. unfold get_mms. resp_tac. Qed.
Lemma resp_put_mms p x : resp (put_mms p x).
Proof. apply resp_upd_scs. Qed.
Local Hint Resolve resp_get_slot resp_put_slot resp_get_mms resp_put_mms : resp.
Lemma resp_schedule t d b : resp (codec_mm_schedule_delay_work HZ t d b).
Proof. unfold codec_mm_schedule_delay_work. resp_tac. Qed.
Lemma resp_current_us : resp codec_mm_get_current_us.
Proof. unfold codec_mm_get_current_us. resp_tac. Qed.
Local Hint Resolve resp_schedule resp_current_us : resp.
Lemma resp_alloc_time t us : resp (codec_mm_update_alloc_time t us).
Proof. unfold codec_mm_update_alloc_time. resp_tac. Qed.
Lemma resp_free_time t us : resp (codec_mm_update_free_time t us).
Proof. unfold codec_mm_update_free_time. resp_tac. Qed.
Local Hint Resolve resp_alloc_time resp_free_time : resp.

Lemma resp_set_slot t p : resp (codec_mm_set_slot_in_hash t p).
Proof. unfold codec_mm_set_slot_in_hash. resp_tac. Qed.
Lemma resp_find_slot l a : resp (find_slot l a).
Proof. induction l as [|p l IH]; cbn [find_slot]; resp_tac. Qed.
Local Hint Resolve resp_set_slot resp_find_slot : resp.
Lemma resp_find_in_hash t i a : resp (codec_mm_find_slot_in_hash t i a).
Proof. unfold codec_mm_find_slot_in_hash. resp_tac. Qed.
Lemma resp_unlink t p x : resp (unlink_slot t p x).
Proof. unfold unlink_slot. resp_tac. Qed.
Lemma resp_slot_memory x : resp (release_slot_memory x).
Proof. unfold release_slot_memory. resp_tac. Qed.
Lemma resp_pagemap x : resp (free_pagemap x).
Proof. unfold free_pagemap. resp_tac. Qed.
Local Hint Resolve resp_find_in_hash resp_unlink resp_slot_memory resp_pagemap : resp.
Lemma resp_slot_free t p : resp (codec_mm_slot_free t p).
Proof. unfold codec_mm_slot_free. resp_tac. Qed.
Local Hint Resolve resp_slot_free : resp.
Lemma resp_try_free t p : resp (codec_mm_slot_try_free t p).
Proof. unfold codec_mm_slot_try_free. resp_tac. Qed.
Lemma resp_free_page p a : resp (codec_mm_slot_free_page p a).
Proof. unfold codec_mm_slot_free_page. resp_tac. Qed.
Local Hint Resolve resp_try_free resp_free_page : resp.
Lemma resp_page_to_slot t i a : resp (codec_mm_page_free_to_slot t i a).
Proof. unfold codec_mm_page_free_to_slot. resp_tac. Qed.
Lemma resp_next_cache t c f : resp (codec_mm_get_next_cache_scatter t c f).
Proof. unfold codec_mm_get_next_cache_scatter. resp_tac. Qed.
Lemma resp_lock p b : resp (sc_lock p b).
Proof. unfold sc_lock. resp_tac. Qed.
Local Hint Resolve resp_page_to_slot resp_next_cache resp_lock : resp.
Lemma resp_to_scatter t p q b : resp (codec_mm_pages_free_to_scatter t p q b).
Proof. unfold codec_mm_pages_free_to_scatter. resp_tac. Qed.
Local Hint Resolve resp_to_scatter : resp.
Lemma resp_to_cache t p : resp (codec_mm_page_free_to_cache_scatter t p).
Proof. unfold codec_mm_page_free_to_cache_scatter. resp_tac. Qed.
Lemma resp_free_id t p i : resp (codec_mm_scatter_free_page_id_locked t p i).
Proof. unfold codec_mm_scatter_free_page_id_locked. resp_tac. Qed.
Local Hint Resolve resp_to_cache resp_free_id : resp.
Lemma resp_free_ids t p n : forall i, resp (free_ids t p i n).
Proof. induction n as [|n IH]; intros i; cbn [free_ids]; resp_tac. Qed.
Local Hint Resolve resp_free_ids : resp.
Lemma resp_free_pages_in p i : resp (codec_mm_scatter_free_pages_in_locked p i).
Proof. unfold codec_mm_scatter_free_pages_in_locked. resp_tac. Qed.
Local Hint Resolve resp_free_pages_in : resp.
Lemma resp_free_tail p i f m : resp (codec_mm_scatter_free_tail_pages_in p i f m).
Proof. unfold codec_mm_scatter_free_tail_pages_in. resp_tac. Qed.
Local Hint Resolve resp_free_tail : resp.
Lemma resp_on_nouser t p b : resp (codec_mm_scatter_free_on_nouser_ext t p b).
Proof. unfold codec_mm_scatter_free_on_nouser_ext, codec_mm_scatter_map_del_locked. resp_tac. Qed.
Local Hint Resolve resp_on_nouser : resp.
Lemma resp_inc p n : resp (codec_mm_scatter_inc_user_in p n).
Proof. unfold codec_mm_scatter_inc_user_in, codec_mm_scatter_inc_user_in1. resp_tac. Qed.
Lemma resp_dec p d n : resp (codec_mm_scatter_dec_user_in HZ p d n).
Proof. unfold codec_mm_scatter_dec_user_in, codec_mm_scatter_dec_user_in1. resp_tac. Qed.
Local Hint Resolve resp_inc resp_dec : resp.
Lemma resp_find_empty l : resp (find_empty l).
Proof. induction l as [|p l IH]; cbn [find_empty]; resp_tac. Qed.
Local Hint Resolve resp_find_empty : resp.
Lemma resp_free_empty t n : resp (free_empty t n).
Proof. induction n as [|n IH]; cbn [free_empty]; resp_tac. Qed.
Local Hint Resolve resp_free_empty : resp.
Lemma resp_free_slots t : resp (codec_mm_free_all_free_slots_in t).
Proof. unfold codec_mm_free_all_free_slots_in. resp_tac. Qed.
Lemma resp_drop_cache t p : resp (drop_cache HZ t p).
Proof. unfold drop_cache, codec_mm_scatter_free_on_nouser. resp_tac. Qed.
Local Hint Resolve resp_free_slots resp_drop_cache : resp.
Lemma resp_clear_scan l : forall b n, resp (clear_scan l b n).
Proof. induction l as [|p l IH]; intros b n; cbn [clear_scan]; resp_tac. Qed.
Local Hint Resolve resp_clear_scan : resp.
Lemma resp_clear t f : resp (codec_mm_scatter_scatter_clear t f).
Proof. unfold codec_mm_scatter_scatter_clear, codec_mm_scatter_free_on_nouser, codec_mm_scatter_free_unused_pages. resp_tac. Qed.
Local Hint Resolve resp_clear : resp.
Lemma resp_drop_caches t n : resp (drop_caches HZ t n).
Proof. induction n as [|n IH]; cbn [drop_caches]; resp_tac. Qed.
Lemma resp_clear_turns t f n : resp (clear_turns t f n).
Proof. induction n as [|n IH]; cbn [clear_turns]; resp_tac. Qed.
Local Hint Resolve resp_drop_caches resp_clear_turns : resp.
Lemma resp_sweep_in t f : resp (codec_mm_scatter_free_all_ignorecache_in HZ t f).
Proof. unfold codec_mm_scatter_free_all_ignorecache_in. generalize 1001%nat as n. intros n. resp_tac. Qed.
Local Hint Resolve resp_sweep_in : resp.
Lemma resp_sweep f : resp (codec_mm_scatter_free_all_ignorecache HZ f).
Proof. unfold codec_mm_scatter_free_all_ignorecache. resp_tac. Qed.
Local Hint Resolve resp_sweep : resp.

(** ** What also takes decoder memory *)

Section Alloc.
Hypothesis R_alloc : forall s nm n al f r s', codec_mm_alloc no_sweep s nm n al f = Some (r, s') -> R s s'.

Lemma resp_mm_alloc nm n al f : resp (mmcall (fun s => codec_mm_alloc no_sweep s nm n al f)).
Proof. intros s a s' H. by eapply R_alloc. Qed.
Local Hint Resolve resp_mm_alloc : resp.
Lemma resp_bitmap n : resp (codec_mm_slot_init_bitmap n).
Proof. unfold codec_mm_slot_init_bitmap. resp_tac. Qed.
Local Hint Resolve resp_bitmap : resp.
Lemma resp_from_mm t n : resp (slot_from_codec_mm t n).
Proof. unfold slot_from_codec_mm. resp_tac. Qed.
Lemma resp_from_sys t n : forall try, resp (slot_from_sys t try n).
Proof. induction n as [|n IH]; intros try; cbn [slot_from_sys]; resp_tac. Qed.
Local Hint Resolve resp_from_mm resp_from_sys : resp.
Lemma resp_slot_alloc t n f : resp (codec_mm_slot_alloc t n f).
Proof. unfold codec_mm_slot_alloc, slot_from_sys_if. resp_tac. Qed.
Local Hint Resolve resp_slot_alloc : resp.
Lemma resp_one_pages n : resp (one_pages n).
Proof. induction n as [|n IH]; cbn [one_pages]; resp_tac. Qed.
Local Hint Resolve resp_one_pages : resp.
Lemma resp_from_one t n : resp (codec_mm_page_alloc_from_one_pages t n).
Proof. unfold codec_mm_page_alloc_from_one_pages. resp_tac. Qed.
Lemma resp_alloc_pages p n : resp (codec_mm_slot_alloc_pages p n).
Proof. unfold codec_mm_slot_alloc_pages. resp_tac. Qed.
Lemma resp_pick t : resp (pick_slot t).
Proof. unfold pick_slot. resp_tac. Qed.
Local Hint Resolve resp_from_one resp_alloc_pages resp_pick : resp.
Lemma resp_slot_turn t n : resp (slot_turn t n).
Proof. unfold slot_turn. resp_tac. Qed.
Local Hint Resolve resp_slot_turn : resp.
Lemma resp_slot_turns t n : forall need, resp (slot_turns t need n).
Proof. induction n as [|n IH]; intros need; cbn [slot_turns]; resp_tac. Qed.
Local Hint Resolve resp_slot_turns : resp.
Lemma resp_from_slot t n : resp (codec_mm_page_alloc_from_slot t n).
Proof. unfold codec_mm_page_alloc_from_slot. resp_tac. Qed.
Lemma resp_from_free t p n b : resp (codec_mm_page_alloc_from_free_scatter t p n b).
Proof. unfold codec_mm_page_alloc_from_free_scatter. resp_tac. Qed.
Local Hint Resolve resp_from_slot resp_from_free : resp.
Lemma resp_from_cache t n : resp (codec_mm_page_alloc_from_cache_scatter t n).
Proof. unfold codec_mm_page_alloc_from_cache_scatter. resp_tac. Qed.
Local Hint Resolve resp_from_cache : resp.
Lemma resp_turns t n : forall a b need, resp (alloc_turns t a b need n).
Proof. induction n as [|n IH]; intros a b need; cbn [alloc_turns]; resp_tac. Qed.
Local Hint Resolve resp_turns : resp.
Lemma resp_alloc_new t a b : resp (codec_mm_scatter_alloc_new t a b).
Proof. unfold codec_mm_scatter_alloc_new, codec_mm_page_alloc_all_locked, codec_mm_scatter_map_add_locked. resp_tac. Qed.
Lemma resp_want_in t p n : resp (codec_mm_scatter_alloc_want_pages_in HZ t p n).
Proof. unfold codec_mm_scatter_alloc_want_pages_in, codec_mm_page_alloc_all_locked. resp_tac. Qed.
Local Hint Resolve resp_alloc_new resp_want_in : resp.
Lemma resp_want p n : resp (codec_mm_scatter_alloc_want_pages HZ p n).
Proof. unfold codec_mm_scatter_alloc_want_pages. resp_tac. Qed.
Lemma resp_find_unused l n : resp (find_unused l n).
Proof. induction l as [|p l IH]; cbn [find_unused]; resp_tac. Qed.
Local Hint Resolve resp_find_unused : resp.
Lemma resp_scatter_alloc t a b : resp (codec_mm_scatter_alloc HZ t a b).
Proof. unfold codec_mm_scatter_alloc. resp_tac. Qed.
Lemma resp_delay_switch b d w t : resp (codec_mm_scatter_mgt_delay_free_swith HZ b d w t).
Proof. unfold codec_mm_scatter_mgt_delay_free_swith. resp_tac. Qed.
Lemma resp_free_fast p i : resp (codec_mm_scatter_free_tail_pages_fast HZ p i).
Proof. unfold codec_mm_scatter_free_tail_pages_fast. resp_tac. Qed.
Lemma resp_cache_adjust t : resp (cache_adjust HZ t).
Proof. unfold cache_adjust, codec_mm_scatter_less_pages. resp_tac. Qed.
Local Hint Resolve resp_cache_adjust : resp.
Lemma resp_cache_manage t : resp (codec_mm_scatter_cache_manage HZ t).
Proof. unfold codec_mm_scatter_cache_manage. resp_tac. Qed.
Lemma resp_new_cache t b : resp (new_cache t b).
Proof. unfold new_cache. resp_tac. Qed.
Lemma resp_some_free l : resp (some_free l).
Proof. induction l as [|p l IH]; cbn [some_free]; resp_tac. Qed.
Local Hint Resolve resp_cache_manage resp_new_cache resp_some_free : resp.
Lemma resp_arrange t : resp (codec_mm_scatter_scatter_arrange HZ t).
Proof. unfold codec_mm_scatter_scatter_arrange. resp_tac. Qed.
Local Hint Resolve resp_arrange : resp.
Lemma resp_monitor t : resp (codec_mm_scatter_monitor HZ t).
Proof. unfold codec_mm_scatter_monitor, codec_mm_scatter_update_config. resp_tac. Qed.
End Alloc.
End Ops.

(** ** The books of the whole *)

Section Books.
Context {W : Type} {env : MmEnv W} {senv : ScEnv W} {held : W -> list chunk} {ptrs : W -> list Z}.
Context {laws : MmLaws env held ptrs} {sclaws : ScLaws (held := held) (ptrs := ptrs)}.
Variable HZ : Z.
Abbreviation St := (Scatter.St (W := W)).

(** Memory and structures of the kernel beside which the scatter managers are. *)
Definition beside {A} (f : W -> A) (w : W * scatters) : A := f w.1.

Lemma on_fst_eq {A} (r : A * W) c a w : on_fst r c = (a, w) -> r = (a, w.1) /\ w.2 = c.
Proof. destruct r as [b v]. intros [= <- <-]. done. Qed.

#[export] Instance beside_laws : MmLaws (W := W * scatters) beside_env (beside held) (beside ptrs).
Proof.
  split; unfold beside; intros; cbn in *;
    try match goal with H : on_fst _ _ = _ |- _ => apply on_fst_eq in H as [H _] end.
  - by apply law_kmalloc.
  - by apply law_kfree.
  - by apply law_pages.
  - by apply law_free_pages.
  - by eapply law_cma.
  - by apply law_cma_free.
  - by apply law_pool.
  - by apply law_pool_free.
  - by eapply law_create.
  - by eapply law_add.
  - by apply law_destroy.
  - by eapply law_vmap.
  - by apply law_vunmap.
  - by apply law_pte.
  - by eapply law_protect.
  - by apply law_unprotect.
Qed.

Abbreviation books := (CodecMmSpec.books (held := beside held) (ptrs := beside ptrs)).
Abbreviation after := (CodecMmSpec.after (held := beside held) (ptrs := beside ptrs)).
Abbreviation keeps := (CodecMmSpec.keeps (held := beside held) (ptrs := beside ptrs)).
Abbreviation gives_back := (CodecMmSpec.gives_back (held := beside held) (ptrs := beside ptrs)).

Definition R_after (s s' : St) : Prop := forall ex, books ex s -> after ex s s'.
Definition R_keeps (s s' : St) : Prop := forall ex, books ex s -> keeps ex s s'.

Lemma R_after_refl s : R_after s s.
Proof. intros ex. apply after_refl. Qed.
Lemma R_after_trans s1 s2 s3 : R_after s1 s2 -> R_after s2 s3 -> R_after s1 s3.
Proof. intros H1 H2 ex Hb. specialize (H1 ex Hb). eapply after_trans; [exact H1|]. apply H2, H1. Qed.
Lemma R_after_beside s w c : held w = held (world s).1 -> ptrs w = ptrs (world s).1 -> R_after s (with_world s (w, c)).
Proof. intros H1 H2 ex Hb. by apply after_ext. Qed.
Lemma R_after_release s p nm s' : codec_mm_release s p nm = Some s' -> R_after s s'.
Proof. intros H ex Hb. by eapply codec_release_after. Qed.
Lemma R_keeps_refl s : R_keeps s s.
Proof. intros ex. apply keeps_refl. Qed.
Lemma R_keeps_trans s1 s2 s3 : R_keeps s1 s2 -> R_keeps s2 s3 -> R_keeps s1 s3.
Proof. intros H1 H2 ex Hb. specialize (H1 ex Hb). eapply keeps_trans; [exact H1|]. apply H2, H1. Qed.
Lemma R_keeps_after s s' : R_after s s' -> R_keeps s s'.
Proof. intros H ex Hb. by apply keeps_after, H. Qed.
Lemma R_keeps_beside s w c : held w = held (world s).1 -> ptrs w = ptrs (world s).1 -> R_keeps s (with_world s (w, c)).
Proof. intros. by apply R_keeps_after, R_after_beside. Qed.
Lemma R_keeps_release s p nm s' : codec_mm_release s p nm = Some s' -> R_keeps s s'.
Proof. intros. by eapply R_keeps_after, R_after_release. Qed.
Lemma no_sweep_gives_back : gives_back no_sweep.
Proof. by intros ex s k s' _. Qed.
Lemma R_keeps_alloc s nm n al f r s' : codec_mm_alloc no_sweep s nm n al f = Some (r, s') -> R_keeps s s'.
Proof. intros H ex Hb. by destruct (alloc_keeps no_sweep no_sweep_gives_back ex _ _ _ _ _ _ _ Hb H). Qed.

(** The sweep, as the manager of decoder memory calls it. *)
Definition scatter_sweep (s : St) (flgs : Z) : option St := snd <$> codec_mm_scatter_free_all_ignorecache HZ flgs s.

Lemma sweep_gives_back : gives_back scatter_sweep.
Proof.
  intros ex s k s' Hb H. unfold scatter_sweep in H. destruct (codec_mm_scatter_free_all_ignorecache HZ k s) as [[r s1]|] eqn:Hs; [|done].
  injection H as <-.
  exact (resp_sweep (sclaws := sclaws) HZ R_after R_after_refl R_after_trans R_after_beside R_after_release k s r s1 Hs ex Hb).
Qed.

(** The calls of the scatter managers. *)
Inductive sc_call : St -> St -> Prop :=
| call_alloc t a b r s s' : codec_mm_scatter_alloc HZ t a b s = Some (r, s') -> sc_call s s'
| call_alloc_new t a b r s s' : codec_mm_scatter_alloc_new t a b s = Some (r, s') -> sc_call s s'
| call_want p n r s s' : codec_mm_scatter_alloc_want_pages HZ p n s = Some (r, s') -> sc_call s s'
| call_free_tail p i f m r s s' : codec_mm_scatter_free_tail_pages_in p i f m s = Some (r, s') -> sc_call s s'
| call_free_fast p i r s s' : codec_mm_scatter_free_tail_pages_fast HZ p i s = Some (r, s') -> sc_call s s'
| call_inc p n r s s' : codec_mm_scatter_inc_user_in p n s = Some (r, s') -> sc_call s s'
| call_dec p d n r s s' : codec_mm_scatter_dec_user_in HZ p d n s = Some (r, s') -> sc_call s s'
| call_delay b d w t r s s' : codec_mm_scatter_mgt_delay_free_swith HZ b d w t s = Some (r, s') -> sc_call s s'
| call_free_slots t r s s' : codec_mm_free_all_free_slots_in t s = Some (r, s') -> sc_call s s'
| call_monitor t r s s' : codec_mm_scatter_monitor HZ t s = Some (r, s') -> sc_call s s'.

Lemma sc_call_keeps s s' : sc_call s s' -> R_keeps s s'.
Proof.
  intros Hc. destruct Hc.
  - eapply (resp_scatter_alloc (sclaws := sclaws) HZ R_keeps R_keeps_refl R_keeps_trans R_keeps_beside R_keeps_release R_keeps_alloc); exact H.
  - eapply (resp_alloc_new (sclaws := sclaws) R_keeps R_keeps_refl R_keeps_trans R_keeps_beside R_keeps_release R_keeps_alloc); exact H.
  - eapply (resp_want (sclaws := sclaws) HZ R_keeps R_keeps_refl R_keeps_trans R_keeps_beside R_keeps_release R_keeps_alloc); exact H.
  - eapply (resp_free_tail (sclaws := sclaws) R_keeps R_keeps_refl R_keeps_trans R_keeps_beside R_keeps_release); exact H.
  - eapply (resp_free_fast (sclaws := sclaws) HZ R_keeps R_keeps_refl R_keeps_trans R_keeps_beside R_keeps_release); exact H.
  - eapply (resp_inc (sclaws := sclaws) R_keeps R_keeps_refl R_keeps_trans R_keeps_beside); exact H.
  - eapply (resp_dec (sclaws := sclaws) HZ R_keeps R_keeps_refl R_keeps_trans R_keeps_beside); exact H.
  - eapply (resp_delay_switch (sclaws := sclaws) HZ R_keeps R_keeps_refl R_keeps_trans R_keeps_beside); exact H.
  - eapply (resp_free_slots (sclaws := sclaws) R_keeps R_keeps_refl R_keeps_trans R_keeps_beside R_keeps_release); exact H.
  - eapply (resp_monitor (sclaws := sclaws) HZ R_keeps R_keeps_refl R_keeps_trans R_keeps_beside R_keeps_release R_keeps_alloc); exact H.
Qed.

(** The whole of the decoder memory: a call of its manager, with the sweep of
    the scatter managers as the way to make room, or of a scatter manager. *)
Definition dm_step (s s' : St) : Prop :=
  mm_step (held := beside held) (ptrs := beside ptrs) scatter_sweep s s' \/ sc_call s s'.


Lemma dm_keeps s s' : books [] s -> dm_step s s' -> keeps [] s s'.
Proof. intros Hb [Hm|Hc]; [by eapply step_keeps; [exact sweep_gives_back|..]|by apply sc_call_keeps]. Qed.

(** The references of the keeper on the scatter managers. *)
Lemma inc_keeps ex s p n r s' : books ex s -> codec_mm_scatter_inc_user_in p n s = Some (r, s') -> keeps ex s s'.
Proof. intros Hb H. exact (resp_inc (sclaws := sclaws) R_keeps R_keeps_refl R_keeps_trans R_keeps_beside p n s r s' H ex Hb). Qed.
Lemma dec_after ex s p d n r s' : books ex s -> codec_mm_scatter_dec_user_in HZ p d n s = Some (r, s') -> after ex s s'.
Proof. intros Hb H. exact (resp_dec (sclaws := sclaws) HZ R_after R_after_refl R_after_trans R_after_beside p d n s r s' H ex Hb). Qed.
End Books.

(** ** On the ledger

    Structures and pages at fresh addresses, a clock that ticks at every call. *)

Definition l_tick_on (w : ledger) : ledger := mk_ledger (l_held w) (l_ptrs w) (S (l_tick w)) (l_cma w) (l_pools w).
#[export] Instance ledger_scatter : ScEnv ledger := {
  sc_kmalloc w _ := (Some (l_fresh w), l_tick_on w);
  sc_kfree w _ := w;
  sc_get_free_pages w _ := (Some (l_fresh w), l_tick_on w);
  sc_free_pages w _ _ := w;
  sc_jiffies w := (Z.of_nat (l_tick w), l_tick_on w);
  sc_local_clock w := (1000 * Z.of_nat (l_tick w), l_tick_on w);
  sc_trylock w _ := (true, w);
  sc_totalram_pages := 2 ^ 19 }.
#[export] Instance ledger_sc_laws : ScLaws (W := ledger) (held := l_held) (ptrs := l_ptrs).
Proof. split; intros; cbn in *; simplify_eq; done. Qed.

(** The managers at their start, and after a scatter of [n] pages. *)
Definition sc_start : mm_state (ledger * scatters) :=
  (codec_mm_mgt_init (ledger0 131072, codec_mm_scatter_mgt_init) 0x10000000 (16 * SZ_1M) (512 * SZ_1M) 0 1).2.
Definition sc_run {A} (r : option (A * mm_state (ledger * scatters))) : mm_state (ledger * scatters) := from_option snd sc_start r.
Definition sc_start_pages (n : Z) : mm_state (ledger * scatters) := sc_run (codec_mm_scatter_alloc 100 false 64 n sc_start).
