(* ===== verification/ScatterSpec.v ===== *)
(** * What the scatter managers promise

    Pages of a slot and their way back, pages moved to and from the caches,
    the users of a scatter, and where the code does otherwise than it means to. *)

From stdpp Require Import base numbers list option strings gmap relations.
From S2P Require Import Prelude KText CodecMm CodecMmLaws CodecMmSpec Keeper Scatter ScatterOps ScatterBooks.

(** ** Page words *)

Lemma page_word k s : 0 <= k -> 0 <= s < 2 ^ 12 -> ADDR2PAGE (k * 2 ^ 12) s = k * 2 ^ 12 + s.
Proof.
  intros Hk Hs. unfold ADDR2PAGE, SID_MASK. change 0xfff with (Z.ones 12).
  rewrite <- Z.ldiff_land, Z.ldiff_ones_r, Z.shiftr_div_pow2, Z.div_mul, Z.lor_comm, lor_add by lia. lia.
Qed.
Lemma page_word_sid k s : 0 <= k -> 0 <= s < 2 ^ 12 -> PAGE_SID (k * 2 ^ 12 + s) = s.
Proof. intros Hk Hs. unfold PAGE_SID, SID_MASK. change 0xfff with (Z.ones 12). rewrite Z.land_ones, Z.add_comm, Z_mod_plus_full, Z.mod_small by lia. done. Qed.
Lemma page_word_addr k s : 0 <= k -> 0 <= s < 2 ^ 12 -> PAGE_ADDR (k * 2 ^ 12 + s) = k * 2 ^ 12.
Proof.
  intros Hk Hs. unfold PAGE_ADDR, PAGE_SHIFT. rewrite Z.shiftr_div_pow2, Z.shiftl_mul_pow2, Z.div_add_l, (Z.div_small s) by lia. lia.
Qed.

(** ** Slots *)

Definition set_bits (b : list bool) : Z := lsum (fun x : bool => if x then 1 else 0) b.

(** A slot in order: it lies at a page below 4 GB, its bitmap has a bit for each
    of its pages and counts them. *)
Record slot_ok (x : codec_mm_slot) (bits : list bool) : Prop := {
  so_map : exists m, pagemap x = Some (m, bits);
  so_len : page_num x <= zlen bits;
  so_pos : 0 < page_num x < 2 ^ 19;
  so_phy : exists k, slot_phy_addr x = k * 2 ^ 12 /\ 0 <= k /\ (k + page_num x) * 2 ^ 12 <= 2 ^ 32;
  so_sid : 0 <= sid x < MAX_SID;
  so_cnt : slot_alloced x = set_bits (take (Z.to_nat (page_num x)) bits);
  so_next : 0 <= next_bit x < page_num x }.

(** The word of page [i]. *)
Definition page_of (x : codec_mm_slot) (i : Z) : Z := slot_phy_addr x + i * 2 ^ 12 + sid x.

Lemma page_of_word x bits i : slot_ok x bits -> 0 <= i < page_num x ->
  phy_addr_type (ADDR2PAGE (BIT2ADDR (slot_phy_addr x) i) (sid x)) = page_of x i /\
  PAGE_SID (page_of x i) = sid x /\ PAGE_ADDR (page_of x i) = slot_phy_addr x + i * 2 ^ 12 /\
  ADDR2BIT (slot_phy_addr x) (PAGE_ADDR (page_of x i)) = i /\ slot_has x (PAGE_ADDR (page_of x i)) = true.
Proof.
  intros [_ _ Hpos (k & Hk & Hk0 & Hk1) Hs _ _] Hi.
  assert (Hs' : 0 <= sid x < 2 ^ 12) by (unfold MAX_SID, SID_MASK in Hs; lia).
  assert (Hw : page_of x i = (k + i) * 2 ^ 12 + sid x) by (unfold page_of; rewrite Hk; lia).
  assert (Ha : slot_phy_addr x + i * 2 ^ 12 = (k + i) * 2 ^ 12) by (rewrite Hk; lia).
  rewrite Hw, page_word_sid, page_word_addr, Ha by lia. split_and!; try done.
  - unfold BIT2ADDR, PAGE_SIZE. replace (slot_phy_addr x + 4096 * i) with ((k + i) * 2 ^ 12) by lia.
    rewrite u64_small, page_word by lia. unfold phy_addr_type. by rewrite u32_small by lia.
  - unfold ADDR2BIT, PAGE_SHIFT. replace ((k + i) * 2 ^ 12 - slot_phy_addr x) with (i * 2 ^ 12) by lia.
    rewrite u64_small, Z.shiftr_div_pow2, Z.div_mul by lia. apply s32_small. lia.
  - unfold slot_has, PAGE_SHIFT. rewrite Z.shiftl_mul_pow2 by lia. rewrite Hk. apply andb_true_intro. split; [apply Z.leb_le; lia|].
    apply Z.ltb_lt. rewrite s32_small, u64_small by lia. lia.
Qed.

Lemma set_bits_insert (b : list bool) i (v w : bool) : b !! i = Some v ->
  set_bits (<[i := w]> b) = set_bits b - (if v then 1 else 0) + (if w then 1 else 0).
Proof. intros Hi. unfold set_bits. by rewrite (lsum_insert _ _ _ _ _ Hi). Qed.

Lemma set_bits_range (b : list bool) : 0 <= set_bits b <= zlen b.
Proof. unfold set_bits. apply lsum_bits. intros []; lia. Qed.

Lemma set_bits_full (b : list bool) : (forall i, (i < length b)%nat -> b !! i = Some true) -> set_bits b = zlen b.
Proof.
  induction b as [|x b IH]; intros Hb; [done|]. unfold set_bits in *. rewrite lsum_cons.
  assert (Hx : x = true) by (specialize (Hb 0%nat ltac:(cbn; lia)); by injection Hb). rewrite Hx, IH; [cbn [length]; lia|].
  intros i Hi. apply (Hb (S i)). cbn. lia.
Qed.

(** Bits after pages of some positions were taken. *)
Definition mark (bits : list bool) (l : list nat) : list bool := foldl (fun b i => <[i := true]> b) bits l.

Lemma mark_bits_length l : forall bits, length (mark bits l) = length bits.
Proof. induction l as [|i l IH]; intros bits; [done|]. cbn. unfold mark in IH. by rewrite IH, length_insert. Qed.
Lemma mark_other l : forall bits i, i ∉ l -> mark bits l !! i = bits !! i.
Proof. induction l as [|j l IH]; intros bits i Hi; [done|]. cbn. unfold mark in IH. rewrite IH by set_solver. apply list_lookup_insert_ne. set_solver. Qed.
Lemma mark_set l : forall bits i, (i < length bits)%nat -> (i ∈ l \/ bits !! i = Some true) -> mark bits l !! i = Some true.
Proof.
  induction l as [|j l IH]; intros bits i Hl Hi; [by destruct Hi as [Hi|Hi]; [set_solver|]|]. cbn. unfold mark in IH. apply IH; [by rewrite length_insert|].
  destruct (decide (i = j)) as [->|Hne]; [right; by apply list_lookup_insert_eq|]. rewrite list_lookup_insert_ne by done. set_solver.
Qed.

(** The search finds clear bits only, each once, and as many as are needed
    unless all the bits it came by are set. *)
Lemma take_bits_spec x bits n : forall i need,
  0 < page_num x <= zlen bits -> 0 <= i < page_num x ->
  (forall q, (q < Z.to_nat (page_num x))%nat -> phy_addr_type (ADDR2PAGE (BIT2ADDR (slot_phy_addr x) (Z.of_nat q)) (sid x)) = page_of x (Z.of_nat q)) ->
  exists l j, take_bits x bits i need n = ((fun q => page_of x (Z.of_nat q)) <$> l, mark bits l, j) /\
    NoDup l /\ Forall (fun q => bits !! q = Some false /\ (q < Z.to_nat (page_num x))%nat) l /\ 0 <= j < page_num x /\ zlen l <= Z.max 0 need /\
    (zlen l = Z.max 0 need \/ forall t, (t < n)%nat -> mark bits l !! Z.to_nat ((i + Z.of_nat t) mod page_num x) = Some true).
Proof.
  revert bits. induction n as [|n IH]; intros bits i need Hlen Hi Hw; cbn [take_bits].
  { exists [], i. cbn. split_and!; try done; [constructor|lia..|]. right. intros t Ht. lia. }
  destruct (Z.leb_spec need 0) as [Hn|Hn]; cbn [orb].
  { exists [], i. cbn. split_and!; try done; [constructor|lia..|left; lia]. }
  assert (Hb : exists v, bits !! Z.to_nat i = Some v) by (apply lookup_lt_is_Some_2; lia). destruct Hb as [v Hb].
  assert (Hv : VALID_BIT bits i = true) by (unfold VALID_BIT; bsolve). rewrite Hv. cbn [negb].
  set (next := if page_num x <=? i + 1 then 0 else i + 1).
  assert (Hnext : 0 <= next < page_num x /\ next = (i + 1) mod page_num x).
  { unfold next. destruct (Z.leb_spec (page_num x) (i + 1)); [|split; [lia|by rewrite Z.mod_small by lia]].
    replace (i + 1) with (page_num x) by lia. rewrite Z.mod_same by lia. lia. }
  destruct Hnext as [Hnext Hmod].
  assert (Hround : forall b : list bool, b !! Z.to_nat i = Some true ->
    (forall t, (t < n)%nat -> b !! Z.to_nat ((next + Z.of_nat t) mod page_num x) = Some true) ->
    forall t, (t < S n)%nat -> b !! Z.to_nat ((i + Z.of_nat t) mod page_num x) = Some true).
  { intros b H0 H1 [|t] Ht; [rewrite Z.mod_small by lia; by replace (i + Z.of_nat 0) with i by lia|].
    rewrite <- (H1 t) by lia. do 2 f_equal. rewrite Hmod, Zplus_mod_idemp_l. f_equal. lia. }
  rewrite Hb. destruct v; cbn [default].
  - destruct (IH bits next need) as (l & j & -> & Hl1 & Hl2 & Hj & Hl3 & Hl4); [done..|].
    exists l, j. split_and!; try done; [lia..|]. destruct Hl4 as [Hl4|Hl4]; [by left|right].
    apply Hround; [|done]. apply mark_set; [by apply lookup_lt_Some in Hb|by right].
  - destruct (IH (<[Z.to_nat i := true]> bits) next (need - 1)) as (l & j & -> & Hl1 & Hl2 & Hj & Hl3 & Hl4); [by rewrite length_insert|done..|].
    assert (Hil : Z.to_nat i ∉ l).
    { intros Hin. rewrite Forall_forall in Hl2. destruct (Hl2 _ Hin) as [Hl2' _].
      rewrite list_lookup_insert_eq in Hl2' by (by apply lookup_lt_Some in Hb). done. }
    exists (Z.to_nat i :: l), j. split_and!; [|by constructor| |lia..| |].
    + cbn. rewrite <- Hw by lia. rewrite Z2Nat.id by lia. done.
    + constructor; [split; [done|lia]|]. rewrite Forall_forall in *. intros q Hq. destruct (Hl2 q Hq) as [H1 H2].
      rewrite list_lookup_insert_ne in H1 by (intros Heq; by rewrite Heq in Hil). done.
    + cbn [length]. lia.
    + destruct Hl4 as [Hl4|Hl4]; [left; cbn [length]; lia|right]. cbn. apply Hround; [|done].
      apply mark_set; [rewrite length_insert; by apply lookup_lt_Some in Hb|right]. rewrite list_lookup_insert_eq by (by apply lookup_lt_Some in Hb). done.
Qed.

Lemma set_bits_mark x l : forall bits,
  NoDup l -> Forall (fun q => bits !! q = Some false /\ (q < x)%nat) l ->
  set_bits (take x (mark bits l)) = set_bits (take x bits) + zlen l.
Proof.
  induction l as [|q l IH]; intros bits Hnd Hl; [cbn; lia|]. apply NoDup_cons in Hnd as [Hq Hnd]. apply Forall_cons in Hl as [[Hb Hqx] Hl].
  cbn [mark foldl]. unfold mark in IH. rewrite IH; [|done|].
  - rewrite take_insert_lt by done. rewrite (set_bits_insert _ _ false true) by (by rewrite lookup_take_lt). cbn [length]. lia.
  - rewrite Forall_forall in *. intros r Hr. destruct (Hl r Hr) as [H1 H2]. split; [|done].
    rewrite list_lookup_insert_ne; [done|]. intros ->. done.
Qed.

(** Once around and all the bits set: the slot is full. *)
Lemma all_round (b : list bool) i n : 0 < n <= zlen b -> 0 <= i < n ->
  (forall t, (t < Z.to_nat n)%nat -> b !! Z.to_nat ((i + Z.of_nat t) mod n) = Some true) -> set_bits (take (Z.to_nat n) b) = n.
Proof.
  intros Hn Hi Ht. rewrite set_bits_full; [rewrite length_take; lia|]. intros q Hq. rewrite length_take in Hq. rewrite lookup_take_lt by lia.
  rewrite <- (Ht (Z.to_nat ((Z.of_nat q - i) mod n))) by (pose proof (Z.mod_pos_bound (Z.of_nat q - i) n); lia).
  rewrite Z2Nat.id by (apply Z.mod_pos_bound; lia). rewrite Zplus_mod_idemp_r. replace (i + (Z.of_nat q - i)) with (Z.of_nat q) by lia.
  rewrite Z.mod_small by lia. by rewrite Nat2Z.id.
Qed.

Section Slots.
Context {W : Type}.
Abbreviation St := (Scatter.St (W := W)).

Definition set_slot (s : St) (p : Z) (x : codec_mm_slot) : St := with_scs s (with_slots (scs s) (<[p := x]> (slots (scs s)))).

Lemma put_slot_run p x s : put_slot p x s = Some (tt, set_slot s p x).
Proof. done. Qed.
Lemma get_slot_run p (s : St) x : slots (scs s) !! p = Some x -> get_slot p s = Some (x, s).
Proof. intros H. unfold get_slot, mbind, M_bind, gets, of_opt. cbn. by rewrite H. Qed.
Lemma set_slot_get s p x : slots (scs (set_slot s p x)) !! p = Some x.
Proof. apply lookup_insert_eq. Qed.
Lemma set_slot_set s p x y : set_slot (set_slot s p x) p y = set_slot s p y.
Proof. unfold set_slot. cbn. by rewrite insert_insert_eq. Qed.

(** What a slot hands out: as many distinct clear pages as are asked for or
    left, which are then marked and counted. *)
Lemma slot_alloc_run (s : St) p x bits num : slots (scs s) !! p = Some x -> slot_ok x bits -> on_alloc_free x = 1 ->
  0 <= num -> slot_alloced x < page_num x ->
  exists l y, codec_mm_slot_alloc_pages p num s = Some ((zlen l, (fun q => page_of x (Z.of_nat q)) <$> l), set_slot s p y) /\
    zlen l = Z.min num (page_num x - slot_alloced x) /\ NoDup l /\
    Forall (fun q => bits !! q = Some false /\ (q < Z.to_nat (page_num x))%nat) l /\
    slot_ok y (mark bits l) /\ exists i, y = slot_bits x (mark bits l) (slot_alloced x + zlen l) i.
Proof.
  intros Hs Hok Hbusy Hnum Hroom. pose proof Hok as [(m & Hmap) Hlen Hpos (k & Hk) Hsid Hcnt Hnext].
  unfold codec_mm_slot_alloc_pages, mbind, M_bind. rewrite (get_slot_run _ _ _ Hs). cbn [mbind option_bind]. rewrite Hmap.
  rewrite (proj2 (Z.leb_gt _ _) Hroom), Hbusy, Z.eqb_refl.
  set (need := Z.min num (page_num x - slot_alloced x)).
  destruct (take_bits_spec x bits (Z.to_nat (page_num x)) (next_bit x) need) as (l & j & Ht & Hnd & Hl & Hj & Hn & Hdone); [lia|done| |].
  { intros q Hq. apply (page_of_word x bits); [done|lia]. }
  rewrite Ht. assert (Hall : zlen l = need).
  { destruct Hdone as [->|Hfull]; [lia|]. apply all_round in Hfull; [|rewrite mark_bits_length; lia|done]. rewrite set_bits_mark in Hfull by done. lia. }
  assert (Hc : s32 (slot_alloced x + zlen l) = slot_alloced x + zlen l).
  { apply s32_small. pose proof (set_bits_range (take (Z.to_nat (page_num x)) bits)). lia. }
  cbv beta iota zeta. rewrite length_fmap, Hc. rewrite (proj2 (Z.leb_gt (page_num x) j)) by lia.
  exists l, (slot_bits x (mark bits l) (slot_alloced x + zlen l) j). split_and!; [done..| |by exists j].
  split; cbn [pagemap slot_bits page_num slot_phy_addr sid slot_alloced next_bit]; rewrite ?mark_bits_length; try done.
  - rewrite Hmap. by exists m.
  - by exists k.
  - by rewrite set_bits_mark, Hcnt by done.
Qed.

(** A page given back: its bit is cleared and the count goes down. *)
Lemma slot_free_run (s : St) p x bits q : slots (scs s) !! p = Some x -> slot_ok x bits ->
  bits !! q = Some true -> (q < Z.to_nat (page_num x))%nat ->
  let y := slot_bits x (<[q := false]> bits) (slot_alloced x - 1) (next_bit x) in
  codec_mm_slot_free_page p (PAGE_ADDR (page_of x (Z.of_nat q))) s = Some (0, set_slot s p y) /\ slot_ok y (<[q := false]> bits).
Proof.
  intros Hs Hok Hq Hlt y. pose proof Hok as [(m & Hmap) Hlen Hpos Hk Hsid Hcnt Hnext].
  destruct (page_of_word x bits (Z.of_nat q) Hok) as (_ & _ & Ha & Hbit & _); [lia|]. rewrite Ha in Hbit |- *.
  assert (Hsum : slot_alloced x - 1 = set_bits (take (Z.to_nat (page_num x)) (<[q := false]> bits))).
  { rewrite take_insert_lt by done. rewrite (set_bits_insert _ _ true false) by (by rewrite lookup_take_lt). lia. }
  split.
  - unfold codec_mm_slot_free_page, mbind, M_bind. rewrite (get_slot_run _ _ _ Hs). cbn [mbind option_bind]. rewrite Hmap.
    rewrite (proj2 (Z.leb_gt (page_num x) 0)) by lia. rewrite Hbit.
    assert (Hv : VALID_BIT bits (Z.of_nat q) = true) by (apply lookup_lt_Some in Hq; unfold VALID_BIT; bsolve). rewrite Hv, Nat2Z.id, Hq. cbn [negb default].
    rewrite s32_small; [done|]. pose proof (set_bits_range (take (Z.to_nat (page_num x)) bits)). rewrite length_take in H. lia.
  - unfold y. split; cbn [pagemap slot_bits page_num slot_phy_addr sid slot_alloced next_bit]; rewrite ?length_insert; try done. rewrite Hmap. by exists m.
Qed.

Fixpoint free_each (p : Z) (pages : list Z) : Scatter.M (W := W) unit :=
  match pages with
  | [] => mret tt
  | w :: l => codec_mm_slot_free_page p (PAGE_ADDR w);; free_each p l
  end.

Definition unmark (bits : list bool) (l : list nat) : list bool := foldl (fun b i => <[i := false]> b) bits l.

Lemma unmark_length l : forall bits, length (unmark bits l) = length bits.
Proof. induction l as [|i l IH]; intros bits; [done|]. cbn. unfold unmark in IH. by rewrite IH, length_insert. Qed.
Lemma unmark_lookup l : forall bits i, unmark bits l !! i = if decide (i ∈ l) then (fun _ => false) <$> bits !! i else bits !! i.
Proof.
  induction l as [|j l IH]; intros bits i; [by rewrite decide_False by set_solver|]. cbn. unfold unmark in IH. rewrite IH.
  destruct (decide (i = j)) as [->|Hne].
  - rewrite (decide_True (P := j ∈ j :: l)) by set_solver. destruct (bits !! j) as [v|] eqn:Hj.
    + rewrite list_lookup_insert_eq by (by apply lookup_lt_Some in Hj). by case_decide.
    + rewrite (lookup_ge_None_2 (<[j := false]> bits)) by (rewrite length_insert; by apply lookup_ge_None). by case_decide.
  - rewrite list_lookup_insert_ne by done. do 2 case_decide; try done; set_solver.
Qed.
Lemma unmark_mark l bits : Forall (fun q => bits !! q = Some false) l -> unmark (mark bits l) l = bits.
Proof.
  intros Hl. apply list_eq. intros i. rewrite unmark_lookup. case_decide as Hi; [|by apply mark_other].
  rewrite Forall_forall in Hl. rewrite (Hl i Hi). rewrite mark_set; [done| |by left]. by eapply lookup_lt_Some, Hl.
Qed.

Lemma free_each_run l : forall (s : St) p x bits, slots (scs s) !! p = Some x -> slot_ok x bits -> NoDup l ->
  Forall (fun q => bits !! q = Some true /\ (q < Z.to_nat (page_num x))%nat) l ->
  free_each p ((fun q => page_of x (Z.of_nat q)) <$> l) s = Some (tt, set_slot s p (slot_bits x (unmark bits l) (slot_alloced x - zlen l) (next_bit x))) /\
  slot_ok (slot_bits x (unmark bits l) (slot_alloced x - zlen l) (next_bit x)) (unmark bits l).
Proof.
  induction l as [|q l IH]; intros s p x bits Hs Hok Hnd Hl.
  { cbn [fmap list_fmap free_each length unmark foldl]. rewrite Z.sub_0_r.
    assert (Hx : slot_bits x bits (slot_alloced x) (next_bit x) = x).
    { destruct Hok as [(m & Hmap) _ _ _ _ _ _]. destruct x. cbn in *. unfold slot_bits. cbn. by rewrite Hmap. }
    rewrite Hx. split; [|done]. unfold set_slot. rewrite insert_id by done. by destruct s as [? [? []]]. }
  apply NoDup_cons in Hnd as [Hq Hnd]. apply Forall_cons in Hl as [[Hb Hqx] Hl].
  destruct (slot_free_run s p x bits q Hs Hok Hb Hqx) as [Hrun Hok1]. cbv zeta in Hrun, Hok1.
  set (y := slot_bits x (<[q := false]> bits) (slot_alloced x - 1) (next_bit x)) in *.
  destruct (IH (set_slot s p y) p y (<[q := false]> bits) (set_slot_get _ _ _) Hok1 Hnd) as [Hrun2 Hok2].
  { rewrite Forall_forall in *. intros r Hr. destruct (Hl r Hr). split; [|done]. rewrite list_lookup_insert_ne; [done|]. intros ->. done. }
  assert (Hy : slot_bits y (unmark (<[q := false]> bits) l) (slot_alloced y - zlen l) (next_bit y) =
    slot_bits x (unmark bits (q :: l)) (slot_alloced x - zlen (q :: l)) (next_bit x)).
  { destruct Hok as [(m & Hmap) _ _ _ _ _ _]. unfold y, slot_bits. cbn. rewrite Hmap. cbn. f_equal. lia. }
  rewrite Hy in Hrun2, Hok2. rewrite set_slot_set in Hrun2. split; [|exact Hok2].
  cbn [fmap list_fmap free_each]. unfold mbind, M_bind. rewrite Hrun. exact Hrun2.
Qed.
End Slots.

Section SlotLaws.
Context {W : Type}.
Abbreviation St := (Scatter.St (W := W)).

(** C19. Pages taken from a slot are distinct pages of it that nobody had, as many
    as were asked for or are left; given back one by one they leave the bitmap
    and the count as they were, and a page given back twice is refused. *)
Theorem slot_pages_roundtrip (s : St) p x bits num
  (Hslot : slots (scs s) !! p = Some x) (Hok : slot_ok x bits) (Hbusy : on_alloc_free x = 1)
  (Hnum : 0 <= num) (Hroom : slot_alloced x < page_num x) :
  exists pages y s2 i,
    codec_mm_slot_alloc_pages p num s = Some ((zlen pages, pages), set_slot s p y) /\
    zlen pages = Z.min num (page_num x - slot_alloced x) /\ slot_alloced y = slot_alloced x + zlen pages /\ NoDup pages /\
    Forall (fun w => PAGE_SID w = sid x /\ slot_has x (PAGE_ADDR w) = true /\
      bits !! Z.to_nat (ADDR2BIT (slot_phy_addr x) (PAGE_ADDR w)) = Some false) pages /\
    free_each p pages (set_slot s p y) = Some (tt, s2) /\
    s2 = set_slot s p (slot_bits x bits (slot_alloced x) i) /\
    Forall (fun w => codec_mm_slot_free_page p (PAGE_ADDR w) s2 = Some (CODEC_MM_S_ERR 6, s2)) pages.
Proof.
  destruct (slot_alloc_run s p x bits num Hslot Hok Hbusy Hnum Hroom) as (l & y & Hrun & Hlen & Hnd & Hl & Hok1 & i & ->).
  destruct (free_each_run l (set_slot s p (slot_bits x (mark bits l) (slot_alloced x + zlen l) i)) p _ (mark bits l) (set_slot_get _ _ _) Hok1 Hnd) as [Hfree _].
  { rewrite Forall_forall in *. intros q Hq. destruct (Hl q Hq) as [Hb Hqx]. split; [|done]. apply mark_set; [by eapply lookup_lt_Some|by left]. }
  rewrite set_slot_set in Hfree. cbn [slot_alloced slot_bits next_bit] in Hfree.
  rewrite unmark_mark in Hfree by (eapply Forall_impl; [exact Hl|]; by intros q []).
  eexists ((fun q => page_of x (Z.of_nat q)) <$> l), _, _, i. rewrite length_fmap. split_and!; [exact Hrun|done..| | |exact Hfree| |].
  - apply NoDup_fmap_2_strong; [|done]. intros q r _ _ Heq. unfold page_of in Heq. lia.
  - apply Forall_fmap. eapply Forall_impl; [exact Hl|]. intros q [Hb Hq]. cbn.
    destruct (page_of_word x bits (Z.of_nat q) Hok) as (_ & H1 & _ & H3 & H4); [lia|]. by rewrite H1, H3, H4, Nat2Z.id.
  - f_equal. destruct Hok as [(m & Hmap) _ _ _ _ _ _]. unfold slot_bits. cbn. rewrite Hmap. cbn. f_equal. lia.
  - apply Forall_fmap. eapply Forall_impl; [exact Hl|]. intros q [Hb Hq]. cbn.
    destruct (page_of_word x bits (Z.of_nat q) Hok) as (_ & _ & _ & H3 & _); [lia|].
    unfold codec_mm_slot_free_page, mbind, M_bind. erewrite get_slot_run by apply set_slot_get.
    destruct Hok as [(m & Hmap) Hlen' Hpos _ _ _ _]. cbn [mbind option_bind slot_bits pagemap page_num slot_phy_addr]. rewrite Hmap. cbn [fmap option_fmap option_map].
    rewrite (proj2 (Z.leb_gt (page_num x) 0)) by lia. rewrite H3.
    assert (Hv : VALID_BIT bits (Z.of_nat q) = true) by (apply lookup_lt_Some in Hb; unfold VALID_BIT; bsolve). by rewrite Hv, Nat2Z.id, Hb.
Qed.
End SlotLaws.

(** ** Scatters *)

(** The pages of a scatter in order: at the front of its list, zeros after them. *)
Record sc_ok (x : codec_mm_scatter) (ps : list Z) : Prop := {
  sk_cnt : page_cnt x = zlen ps;
  sk_max : zlen ps <= page_max_cnt x;
  sk_tail : page_tail x = page_cnt x - 1;
  sk_list : pages_list x = ps ++ replicate (Z.to_nat (page_max_cnt x - zlen ps)) 0 }.

Lemma words_at_app a b c : words_at (a ++ b ++ c) (zlen a) (zlen b) = Some b.
Proof.
  unfold words_at. rewrite !length_app, !Nat2Z.id. rewrite drop_app_length, take_app_length.
  rewrite (proj2 (Z.leb_le _ _)), (proj2 (Z.leb_le 0 (zlen b))), (proj2 (Z.leb_le (zlen a + _) _)) by lia. done.
Qed.
Lemma put_words_app a b b' c : length b' = length b -> put_words (a ++ b ++ c) (zlen a) b' = Some (a ++ b' ++ c).
Proof.
  intros Hb. unfold put_words. rewrite !length_app, !Nat2Z.id, take_app_length, Hb.
  rewrite (proj2 (Z.leb_le _ _)), (proj2 (Z.leb_le (zlen a + _) _)) by lia. cbn [andb]. do 3 f_equal.
  rewrite <- drop_drop, drop_app_length. by rewrite drop_app_length.
Qed.
Lemma clear_words_app a b c : clear_words (a ++ b ++ c) (zlen a) (zlen b) = Some (a ++ replicate (length b) 0 ++ c).
Proof. unfold clear_words. rewrite Nat2Z.id. apply put_words_app. by rewrite length_replicate. Qed.

(** The last pages of a scatter, its words cleared. *)
Lemma sc_take x ps w : sc_ok x (ps ++ w) ->
  words_at (pages_list x) (zlen ps) (zlen w) = Some w /\
  exists l, clear_words (pages_list x) (zlen ps) (zlen w) = Some l /\
    sc_ok (sc_pages x l (page_cnt x - zlen w) (page_tail x - zlen w)) ps.
Proof.
  intros [Hc Hm Ht Hl]. rewrite length_app in Hc, Hm, Hl. rewrite Hl, <- app_assoc. split; [apply words_at_app|].
  eexists. split; [apply clear_words_app|]. split; cbn; [lia..|]. rewrite <- replicate_add. do 2 f_equal. lia.
Qed.

(** Pages stored after those of a scatter. *)
Lemma sc_store x ps w : sc_ok x ps -> zlen ps + zlen w <= page_max_cnt x ->
  exists l, put_words (pages_list x) (page_tail x + 1) w = Some l /\ store_pages x w = Some (sc_pages x l (page_cnt x + zlen w) (page_tail x + zlen w)) /\
    sc_ok (sc_pages x l (page_cnt x + zlen w) (page_tail x + zlen w)) (ps ++ w).
Proof.
  intros [Hc Hm Ht Hl] Hw. assert (Hput : put_words (pages_list x) (page_tail x + 1) w = Some (ps ++ w ++ replicate (Z.to_nat (page_max_cnt x - zlen ps - zlen w)) 0)).
  { rewrite Hl. replace (page_tail x + 1) with (zlen ps) by lia.
    replace (Z.to_nat (page_max_cnt x - zlen ps)) with (length w + Z.to_nat (page_max_cnt x - zlen ps - zlen w))%nat by lia.
    rewrite replicate_add. apply put_words_app. by rewrite length_replicate. }
  eexists. split; [exact Hput|]. split; [unfold store_pages; by rewrite Hput|].
  split; cbn; rewrite ?length_app; [lia..|]. rewrite <- app_assoc. do 3 f_equal. lia.
Qed.

Section Scatters.
Context {W : Type} {senv : ScEnv W}.
Abbreviation St := (Scatter.St (W := W)).

Definition set_mms (s : St) (p : Z) (x : codec_mm_scatter) : St := with_scs s (with_mmss (scs s) (<[p := x]> (mmss (scs s)))).
Definition set_mgt (s : St) (t : bool) (f : codec_mm_scatter_mgt -> codec_mm_scatter_mgt) : St := with_scs s (with_mgt (scs s) t (f (mgt_of (scs s) t))).

Lemma get_mms_run p (s : St) x : mmss (scs s) !! p = Some x -> get_mms p s = Some (x, s).
Proof. intros H. unfold get_mms, mbind, M_bind, gets, of_opt. cbn. by rewrite H. Qed.
Lemma put_mms_run p x s : put_mms p x s = Some (tt, set_mms s p x).
Proof. done. Qed.
Lemma upd_smgt_run t f s : upd_smgt t f s = Some (tt, set_mgt s t f).
Proof. done. Qed.
Lemma smgt_run t (s : St) : smgt t s = Some (mgt_of (scs s) t, s).
Proof. done. Qed.
Lemma set_mgt_mmss s t f : mmss (scs (set_mgt s t f)) = mmss (scs s).
Proof. by destruct t. Qed.
Lemma set_mgt_slots s t f : slots (scs (set_mgt s t f)) = slots (scs s).
Proof. by destruct t. Qed.
Lemma set_mgt_of s t f : mgt_of (scs (set_mgt s t f)) t = f (mgt_of (scs s) t).
Proof. by destruct t. Qed.
Lemma set_mms_of s p x t : mgt_of (scs (set_mms s p x)) t = mgt_of (scs s) t.
Proof. by destruct t. Qed.
Lemma s32_add_sub c k : in_u32 c -> c < 2 ^ 31 -> s32 (s32 (c + k) + - k) = c.
Proof.
  unfold in_u32. intros H0 H1. unfold s32. pose proof (Z.div_mod (c + k + 2 ^ 31) (2 ^ 32)) as Hd.
  replace ((c + k + 2 ^ 31) mod 2 ^ 32 - 2 ^ 31 + - k + 2 ^ 31) with (c + 2 ^ 31 + (- ((c + k + 2 ^ 31) / 2 ^ 32)) * 2 ^ 32) by lia.
  rewrite Z_mod_plus_full, Z.mod_small by lia. lia.
Qed.

Lemma sc_same x ps l c t : sc_ok x ps -> sc_ok (sc_pages x l c t) ps -> sc_pages x l c t = x.
Proof. intros [H1 H2 H3 H4] [H5 H6 H7 H8]. cbn in *. destruct x. unfold sc_pages. cbn in *. subst. do 2 f_equal; lia. Qed.

(** The words that move, and what they leave behind. *)
Lemma move_lists x y kept w qs k : sc_ok x (kept ++ w) -> sc_ok y qs -> zlen w = k -> zlen qs + k <= page_max_cnt y ->
  exists xl yl,
    (if 0 <? k then
       w ← words_at (pages_list x) (page_cnt x - k) k;
       yl ← put_words (pages_list y) (page_tail y + 1) w;
       xl ← clear_words (pages_list x) (page_cnt x - k) k;
       Some (xl, yl)
     else Some (pages_list x, pages_list y)) = Some (xl, yl) /\
    sc_ok (sc_pages x xl (page_cnt x - k) (page_tail x - k)) kept /\
    sc_ok (sc_pages y yl (page_cnt y + k) (page_tail y + k)) (qs ++ w).
Proof.
  intros Hx Hy Hw Hroom. destruct (Z.ltb_spec 0 k) as [Hk|Hk].
  - pose proof Hx as [Hc _ _ _]. rewrite length_app in Hc. replace (page_cnt x - k) with (zlen kept) by lia.
    destruct (sc_take _ _ _ Hx) as (Hr & xl & Hcl & Hxok). rewrite Hw in Hr, Hcl, Hxok.
    destruct (sc_store y qs w Hy) as (yl & Hp & _ & Hyok); [lia|]. rewrite Hw in Hyok.
    exists xl, yl. rewrite Hr. cbn [mbind option_bind]. rewrite Hp. cbn [mbind option_bind]. rewrite Hcl.
    replace (zlen kept) with (page_cnt x - k) by lia. done.
  - destruct w; [|cbn in Hw; lia]. rewrite app_nil_r in *. cbn in Hw. subst k.
    exists (pages_list x), (pages_list y). rewrite !Z.sub_0_r, !Z.add_0_r.
    assert (Hid : forall z, sc_pages z (pages_list z) (page_cnt z) (page_tail z) = z) by (by intros []). by rewrite !Hid.
Qed.

(** The last pages of a caching scatter are taken off. *)
Lemma take_cache_run (s : St) t p y w qs : mmss (scs s) !! p = Some y -> sc_ok y (qs ++ w) ->
  exists z s', codec_mm_page_alloc_from_free_scatter t (Some p) (zlen w) true s = Some ((zlen w, w), s') /\
    (exists l c e, z = sc_pages y l c e) /\ sc_ok z qs /\ mmss (scs s') = <[p := z]> (mmss (scs s)) /\
    cached_pages (counts (mgt_of (scs s') t)) = s32 (cached_pages (counts (mgt_of (scs s) t)) + - zlen w).
Proof.
  intros Hp Hy. pose proof Hy as [H1 H2 H3 H4]. rewrite length_app in *. destruct (sc_take _ _ _ Hy) as (Hr & l & Hc & Hok).
  unfold codec_mm_page_alloc_from_free_scatter, mbind, M_bind. cbn [sc_lock mret M_ret mbind option_bind negb].
  rewrite (get_mms_run _ _ _ Hp). cbn [mbind option_bind]. replace (Z.min (page_cnt y) (zlen w)) with (zlen w) by lia.
  destruct (Z.ltb_spec 0 (zlen w)) as [Hk|Hk].
  - replace (page_tail y - zlen w + 1) with (zlen qs) by lia. unfold of_opt at 1 2. rewrite Hr. cbn [mbind option_bind]. rewrite Hc. cbn [mbind option_bind].
    rewrite put_mms_run. cbn [mbind option_bind mret M_ret]. rewrite upd_smgt_run. cbn [mbind option_bind].
    eexists _, _. split; [done|]. split; [by do 3 eexists|]. split; [exact Hok|]. split; [by rewrite set_mgt_mmss|].
    by rewrite set_mgt_of, set_mms_of.
  - destruct w; [|cbn in Hk; lia]. cbn [mret M_ret mbind option_bind]. rewrite upd_smgt_run. cbn [mbind option_bind].
    exists y. eexists. split; [done|]. split; [exists (pages_list y), (page_cnt y), (page_tail y); by destruct y|].
    rewrite app_nil_r in Hy. split; [done|]. split; [by rewrite set_mgt_mmss, insert_id|]. by rewrite set_mgt_of.
Qed.

(** Unused pages given to a caching scatter: the last ones of the scatter, as
    many as are unused and find room, go behind those of the cache; taken from
    the cache again they come in the same order and both scatters and the count
    of cached pages are as before.  The used pages stay where they are. *)
Theorem cache_pages_roundtrip (s : St) t src dst x y ps qs
  (Hx : mmss (scs s) !! src = Some x) (Hy : mmss (scs s) !! dst = Some y) (Hne : src <> dst)
  (Hxok : sc_ok x ps) (Hyok : sc_ok y qs) (Hused : 0 <= page_used x < page_cnt x)
  (Hcached : 0 <= cached_pages (counts (mgt_of (scs s) t)) < 2 ^ 31) :
  let k := Z.min (page_cnt x - page_used x) (page_max_cnt y - page_cnt y) in
  exists kept w x' y' s1 s2,
    ps = kept ++ w /\ zlen w = k /\ page_used x <= zlen kept /\
    codec_mm_pages_free_to_scatter t src (Some dst) true s = Some (k, s1) /\
    mmss (scs s1) = <[src := x']> (<[dst := y']> (mmss (scs s))) /\ sc_ok x' kept /\ sc_ok y' (qs ++ w) /\
    cached_pages (counts (mgt_of (scs s1) t)) = s32 (cached_pages (counts (mgt_of (scs s) t)) + k) /\
    codec_mm_page_alloc_from_free_scatter t (Some dst) k true s1 = Some ((k, w), s2) /\
    mmss (scs s2) = <[src := x']> (mmss (scs s)) /\ store_pages x' w = Some x /\
    cached_pages (counts (mgt_of (scs s2) t)) = cached_pages (counts (mgt_of (scs s) t)).
Proof.
  intros k. pose proof Hxok as [Hc Hm Ht Hl]. pose proof Hyok as [Hc' Hm' Ht' Hl'].
  set (kept := take (Z.to_nat (page_cnt x - k)) ps). set (w := drop (Z.to_nat (page_cnt x - k)) ps).
  assert (Hps : ps = kept ++ w) by (unfold kept, w; by rewrite take_drop).
  assert (Hw : zlen w = k) by (unfold w; rewrite length_drop; lia).
  assert (Hkept : zlen kept = page_cnt x - k) by (unfold kept; rewrite length_take; lia).
  rewrite Hps in Hxok. destruct (move_lists x y kept w qs k Hxok Hyok Hw) as (xl & yl & Hmove & Hx1 & Hy1); [lia|].
  set (x' := sc_pages x xl (page_cnt x - k) (page_tail x - k)) in *. set (y' := sc_pages y yl (page_cnt y + k) (page_tail y + k)) in *.
  set (s1 := set_mgt (set_mms (set_mms s dst y') src x') t (add_counts 0 0 0 0 0 k)).
  assert (Hrun1 : codec_mm_pages_free_to_scatter t src (Some dst) true s = Some (k, s1)).
  { unfold codec_mm_pages_free_to_scatter, mbind, M_bind. rewrite (get_mms_run _ _ _ Hx). cbn [mbind option_bind].
    rewrite (proj2 (Z.leb_gt (page_cnt x) _)) by lia. rewrite (proj2 (Z.eqb_neq dst src)) by done. cbn [sc_lock mret M_ret mbind option_bind negb].
    rewrite (get_mms_run _ _ _ Hy). cbn [mbind option_bind]. fold k. unfold of_opt. cbn [mbind option_bind] in Hmove |- *. unfold mbind in Hmove. by rewrite Hmove. }
  assert (Hdst : mmss (scs s1) !! dst = Some y').
  { unfold s1. rewrite set_mgt_mmss. cbn. rewrite lookup_insert_ne by done. apply lookup_insert_eq. }
  assert (Hst : exists l, store_pages x' w = Some (sc_pages x' l (page_cnt x' + zlen w) (page_tail x' + zlen w)) /\ sc_pages x' l (page_cnt x' + zlen w) (page_tail x' + zlen w) = x).
  { destruct (sc_store x' kept w Hx1) as (l & _ & Hs & Hok); [cbn; lia|]. exists l. split; [done|]. by apply (sc_same x (kept ++ w)). }
  destruct Hst as (l & Hst & Hxx). rewrite Hxx in Hst.
  assert (Hc1 : cached_pages (counts (mgt_of (scs s1) t)) = s32 (cached_pages (counts (mgt_of (scs s) t)) + k)).
  { unfold s1. by rewrite set_mgt_of, !set_mms_of. }
  destruct (take_cache_run s1 t dst y' w qs Hdst Hy1) as (z & s2 & Hrun2 & (l' & c & e & Hz) & Hzok & Hm2 & Hc2).
  assert (Hzy : z = y) by (rewrite Hz in Hzok |- *; by apply (sc_same y qs)). rewrite Hw, Hzy, Hc1 in *.
  exists kept, w, x', y', s1, s2. rewrite s32_add_sub in Hc2 by (unfold in_u32; lia).
  split_and!; try done; [lia|by unfold s1; rewrite set_mgt_mmss|].
  rewrite Hm2. unfold s1. rewrite set_mgt_mmss. cbn. rewrite insert_insert_ne by done. rewrite insert_insert_eq. f_equal. by apply insert_id.
Qed.
End Scatters.

(** ** Results and loops *)

Lemma bind_inv {W A B} (m : Scatter.M (W := W) A) (f : A -> Scatter.M (W := W) B) s b s' :
  (m ≫= f) s = Some (b, s') -> exists a s1, m s = Some (a, s1) /\ f a s1 = Some (b, s').
Proof. unfold mbind, M_bind. destruct (m s) as [[a s1]|]; [|done]. cbn. intros H. by exists a, s1. Qed.
Ltac bind_inv H := apply bind_inv in H as (? & ? & ? & H).

Section Results.
Context {W : Type} {env : MmEnv W} {senv : ScEnv W}.
Variable HZ : Z.
Abbreviation St := (Scatter.St (W := W)).

(** Whatever number of pages was found, the request for pages says 0; only a
    scatter that is too small for them is refused. *)
Theorem want_pages_hides_shortfall (s : St) t p x want r s'
  (Hx : mmss (scs s) !! p = Some x) (Hrun : codec_mm_scatter_alloc_want_pages_in HZ t p want s = Some (r, s')) :
  r = if page_max_cnt x <? want then CODEC_MM_S_ERR 100 else 0.
Proof.
  unfold codec_mm_scatter_alloc_want_pages_in in Hrun. apply bind_inv in Hrun as (y & s1 & Hy & Hrun).
  rewrite (get_mms_run _ _ _ Hx) in Hy. injection Hy as <- <-. destruct (page_max_cnt x <? want); [by injection Hrun|].
  bind_inv Hrun. bind_inv Hrun. bind_inv Hrun. match goal with got : option Z |- _ => destruct got end; [|by injection Hrun].
  bind_inv Hrun. bind_inv Hrun. bind_inv Hrun. by injection Hrun.
Qed.

Lemma next_cache_same t c f (s : St) r s' : codec_mm_get_next_cache_scatter t c f s = Some (r, s') -> s' = s.
Proof.
  unfold codec_mm_get_next_cache_scatter, get_mms. intros H. bind_inv H. unfold smgt, gets in *. simplify_eq.
  destruct (cache_scs _) as [[a|] [b|]], c; try (by injection H).
  unfold mbind, M_bind, gets, of_opt in H. cbn in H.
  destruct (mmss (scs _) !! a); [|done]. cbn in H. destruct (mmss (scs _) !! b); [|done]. by injection H.
Qed.

(** The number of pages to fill the caches with at the start is the size in
    megabytes shifted right by the bits of a page: it is 0 for every size below
    4096 MB, and then the caches are never filled. *)
Theorem delay_switch_prefills_nothing (s s1 : St) t d wait r
  (Hwait : 0 < wait < 4096) (Hrun : codec_mm_scatter_mgt_delay_free_swith HZ true d wait t s = Some (r, s1))
  (Hscs : forall p x, mmss (scs s1) !! p = Some x -> 0 <= page_cnt x <= page_max_cnt x) :
  force_cache_on (policy (mgt_of (scs s1) t)) = 1 /\
  (forall x, 0 <= page_cnt x <= page_max_cnt x -> cache_need (mgt_of (scs s1) t) x <= page_cnt x) /\
  (forall b s2, cache_adjust HZ t s1 = Some (b, s2) -> b = false).
Proof.
  assert (Hp : force_cache_on (policy (mgt_of (scs s1) t)) = 1 /\ force_cache_page_cnt (policy (mgt_of (scs s1) t)) = 0).
  { unfold codec_mm_scatter_mgt_delay_free_swith, get_jiffies, kcall, codec_mm_schedule_delay_work, mbind, M_bind, upd_smgt, upd_scs, modify, smgt, gets in Hrun.
    rewrite (proj2 (Z.ltb_lt 0 wait)) in Hrun by lia. cbn [mbind option_bind andb negb] in Hrun.
    rewrite Z.shiftr_div_pow2, Z.div_small in Hrun by (unfold PAGE_SHIFT; lia).
    destruct (sc_jiffies (world s).1) as [j w]. cbn [mbind option_bind] in Hrun.
    destruct (sc_jiffies _) as [j2 w2]. cbn [mbind option_bind mret M_ret] in Hrun. injection Hrun as _ <-. by destruct t. }
  destruct Hp as [Hf Hn].
  assert (Hneed : forall x, 0 <= page_cnt x <= page_max_cnt x -> cache_need (mgt_of (scs s1) t) x <= page_cnt x).
  { intros x Hx. unfold cache_need. rewrite Hn. set (need := page_cnt x + _). destruct (Z.ltb_spec 0 need).
    - rewrite (proj2 (Z.ltb_ge (page_max_cnt x) 0)) by lia. lia.
    - rewrite (proj2 (Z.ltb_ge (page_max_cnt x) need)) by lia. lia. }
  split; [done|]. split; [done|]. intros b s2 Ha. unfold cache_adjust in Ha. bind_inv Ha.
  match goal with H : smgt t s1 = _ |- _ => rewrite smgt_run in H; injection H as <- <- end.
  repeat match type of Ha with (if ?c then _ else _) _ = _ => destruct c end; try (repeat bind_inv Ha; by injection Ha).
  apply bind_inv in Ha as (m & s3 & Hm & Ha). apply next_cache_same in Hm as ->. apply bind_inv in Ha as (al & s4 & Hal & Ha).
  assert (Hfalse : al = false).
  { destruct m as [m|]; [|by injection Hal as <-]. apply bind_inv in Hal as (x & s5 & Hg & Hal). unfold get_mms in Hg. bind_inv Hg.
    unfold gets, of_opt in *. simplify_eq. destruct (mmss (scs _) !! m) as [y|] eqn:Hy; [|done]. cbn in Hg. injection Hg as <- <-.
    rewrite (proj2 (Z.ltb_ge (page_cnt y) _)) in Hal by (apply Hneed; by eapply Hscs). by injection Hal as <-. }
  subst al. bind_inv Ha. bind_inv Ha. by injection Ha as <-.
Qed.

Lemma from_sys_total n : forall (s : St) t try,
  1 <= try_alloc_in_sys_page_cnt_min (sconf (mgt_of (scs s) t)) -> 0 <= try < 2 ^ (12 + Z.of_nat n) -> (0 < n)%nat ->
  exists r s', slot_from_sys t try n s = Some (r, s').
Proof.
  induction n as [|n IH]; intros s t try Hmin Htry Hn; [lia|]. cbn [slot_from_sys]. unfold mbind, M_bind, kcall.
  destruct (sc_get_free_pages (world s).1 (get_order try)) as [[h|] w]; cbn [mbind option_bind].
  - unfold codec_mm_slot_init_bitmap, mbind, M_bind, kcall. destruct (sc_kmalloc _ _) as [[m|] w2]; cbn; by do 2 eexists.
  - rewrite smgt_run. cbn [mbind option_bind]. set (s2 := with_world s (w, scs s)).
    assert (Hs2 : scs s2 = scs s) by done. rewrite Hs2. destruct (_ <=? u32 _) eqn:Hgo.
    + b2p. rewrite upd_smgt_run. cbn [mbind option_bind].
      assert (H13 : 1 <= try / 2 ^ 13).
      { destruct (Z.le_gt_cases 1 (try / 2 ^ 13)); [done|]. exfalso. rewrite Z.shiftr_div_pow2 in Hgo by (unfold PAGE_SHIFT; lia).
        pose proof (Z.div_pos try (2 ^ 13)). unfold PAGE_SHIFT in Hgo. change (12 + 1) with 13 in Hgo. rewrite u32_small in Hgo by lia. lia. }
      assert (H13' : 2 ^ 13 <= try) by (pose proof (Z.mul_div_le try (2 ^ 13)); lia).
      apply IH; [by rewrite set_mgt_of| |destruct n; [change (2 ^ (12 + Z.of_nat 1)) with (2 ^ 13) in Htry; lia|lia]].
      rewrite Z.shiftr_div_pow2 by lia. split; [by apply Z.div_pos; lia|]. apply Z.div_lt_upper_bound; [lia|].
      replace (2 ^ 1 * 2 ^ (12 + Z.of_nat n)) with (2 ^ (12 + Z.of_nat (S n))); [lia|]. rewrite <- Z.pow_add_r by lia. f_equal. lia.
    + rewrite upd_smgt_run. cbn. by do 2 eexists.
Qed.
(** The search for a block of system pages ends when the smallest block of the
    settings is at least one page: the fuel of the model is enough for it. *)
Theorem slot_from_sys_returns (s : St) t size
  (Hmin : 1 <= try_alloc_in_sys_page_cnt_min (sconf (mgt_of (scs s) t)))
  (Hcnt : 0 <= try_alloc_in_sys_page_cnt (policy (mgt_of (scs s) t)) < 2 ^ 19) (Hsize : size <= 2 ^ 31 - PAGE_SIZE) :
  exists r s', slot_from_sys_if t size s = Some (r, s').
Proof.
  unfold slot_from_sys_if, mbind, M_bind. rewrite smgt_run. cbn [mbind option_bind].
  set (try := if size <=? 0 then _ else _). destruct (_ || _) eqn:Hno; [by do 2 eexists|].
  assert (Hlt : 0 <= try < 2 ^ 31).
  { unfold try. unfold PAGE_SIZE in Hsize. destruct (Z.leb_spec size 0) as [Hs|Hs].
    - rewrite Z.shiftl_mul_pow2 by (unfold PAGE_SHIFT; lia). unfold PAGE_SHIFT. rewrite s32_small; lia.
    - unfold PAGE_ALIGN, align_int. change (PAGE_SIZE - 1) with (Z.ones 12). rewrite <- Z.ldiff_land, Z.ldiff_ones_r, Z.shiftl_mul_pow2, Z.shiftr_div_pow2 by lia.
      change (Z.ones 12) with 4095. pose proof (Z.mul_div_le (size + 4095) (2 ^ 12)). pose proof (Z.div_pos (size + 4095) (2 ^ 12)).
      rewrite s32_small; lia. }
  apply from_sys_total; [done|unfold SYS_TRIES; lia|unfold SYS_TRIES; lia].
Qed.
End Results.

(** ** On the ledger *)

(** A slot of eight pages at 1 MB, in the hands of a call that takes pages. *)
Definition one_slot : codec_mm_slot :=
  mk_slot None SZ_1M SLOT_FROM_GET_FREE_PAGES (Some (77, replicate 24 false)) SZ_1M 8 0 6 256 true 1.
Definition slot_state : mm_state (ledger * scatters) := set_slot sc_start 7 one_slot.

Lemma one_slot_ok : slot_ok one_slot (replicate 24 false).
Proof.
  split; [by exists 77|by vm_compute|by vm_compute| |by vm_compute|by vm_compute|by vm_compute].
  exists 256. split_and!; by vm_compute.
Qed.

(** The cursor is at page 6: five pages are 6, 7, 0, 1 and 2. *)
Lemma slot_pages_roundtrip_witness : exists pages y s2,
  codec_mm_slot_alloc_pages 7 5 slot_state = Some ((5, pages), set_slot slot_state 7 y) /\ NoDup pages /\
  free_each 7 pages (set_slot slot_state 7 y) = Some (tt, s2).
Proof.
  destruct (slot_pages_roundtrip slot_state 7 one_slot (replicate 24 false) 5) as (pages & y & s2 & i & Hr & Hl & _ & Hnd & _ & Hf & _);
    [by vm_compute|exact one_slot_ok|done|done|by vm_compute|].
  change (Z.min 5 (page_num one_slot - slot_alloced one_slot)) with 5 in Hl. rewrite Hl in Hr. by exists pages, y, s2.
Defined.

(** A scatter with five pages of which two are used, and a cache with one. *)
Definition sc_five : codec_mm_scatter := mk_sc false [0x100fff; 0x101fff; 0x102fff; 0x103fff; 0x104fff; 0; 0] 7 5 4 2 1000 0.
Definition sc_cache : codec_mm_scatter := mk_sc false [0x200fff; 0; 0] 3 1 0 1 1000 0.
Definition two_scatters : mm_state (ledger * scatters) := set_mms (set_mms sc_start 11 sc_five) 12 sc_cache.

Lemma cache_pages_roundtrip_witness : exists x' y' s1 s2,
  codec_mm_pages_free_to_scatter false 11 (Some 12) true two_scatters = Some (2, s1) /\
  mmss (scs s1) = <[11 := x']> (<[12 := y']> (mmss (scs two_scatters))) /\
  codec_mm_page_alloc_from_free_scatter false (Some 12) 2 true s1 = Some ((2, [0x103fff; 0x104fff]), s2).
Proof.
  destruct (cache_pages_roundtrip two_scatters false 11 12 sc_five sc_cache [0x100fff; 0x101fff; 0x102fff; 0x103fff; 0x104fff] [0x200fff])
    as (kept & w & x' & y' & s1 & s2 & Hps & Hw & _ & Hr & Hm & _ & _ & _ & Ht & _); [by vm_compute|by vm_compute|done| | |done|by vm_compute|].
  - by split; vm_compute.
  - by split; vm_compute.
  - change (Z.min _ _) with 2 in *. exists x', y', s1, s2. split; [exact Hr|]. split; [exact Hm|].
    assert (Hwv : w = [0x103fff; 0x104fff]).
    { apply (f_equal (drop 3)) in Hps as Hd. assert (Hk : length kept = 3%nat) by (apply (f_equal length) in Hps; rewrite length_app in Hps; cbn in Hps; lia).
      rewrite <- Hk, drop_app_length in Hd. rewrite Hk in Hd. by cbn in Hd. }
    by rewrite Hwv in Ht.
Defined.

(** A protected scatter when there is no memory: five pages are wanted, none is
    found, and the call says 0. *)
Definition sc_dry : mm_state (ledger * scatters) :=
  (codec_mm_mgt_init (ledger0 0, codec_mm_scatter_mgt_init) 0x10000000 0 0 0 1).2.
Definition dry_scatter : mm_state (ledger * scatters) := sc_run (codec_mm_scatter_alloc_new true 64 0 sc_dry).
Definition dry_want : option (Z * mm_state (ledger * scatters)) := codec_mm_scatter_alloc_want_pages_in 100 true SZ_1M 5 dry_scatter.

Lemma want_pages_hides_shortfall_witness :
  dry_want = Some (0, sc_run dry_want) /\ page_cnt <$> mmss (scs (sc_run dry_want)) !! SZ_1M = Some 0.
Proof.
  split; [|by vm_compute]. destruct dry_want as [[r s']|] eqn:H; [|by vm_compute in H]. cbn [sc_run from_option snd].
  do 2 f_equal. assert (Hx : exists x, mmss (scs dry_scatter) !! SZ_1M = Some x /\ page_max_cnt x = 64) by (eexists; split; by vm_compute).
  destruct Hx as (x & Hx & Hm). rewrite (want_pages_hides_shortfall 100 dry_scatter true SZ_1M x 5 r s' Hx H). by rewrite Hm.
Defined.

(** Caching is switched on with 100 MB to wait for. *)
Definition caching : option (Z * mm_state (ledger * scatters)) := codec_mm_scatter_mgt_delay_free_swith 100 true 2000 100 false two_scatters.
Lemma delay_switch_prefills_nothing_witness :
  force_cache_on (policy (scatter_mgt (scs (sc_run caching)))) = 1 /\ cache_need (scatter_mgt (scs (sc_run caching))) sc_five <= 5.
Proof.
  destruct caching as [[r s1]|] eqn:H; [|by vm_compute in H]. cbn [sc_run from_option snd].
  assert (Hs : mmss (scs s1) = mmss (scs two_scatters)) by (assert (E : s1 = sc_run caching) by (by rewrite H); rewrite E; by vm_compute).
  destruct (delay_switch_prefills_nothing 100 two_scatters s1 false 2000 100 r) as (H1 & H2 & _); [done|exact H| |split; [exact H1|by apply H2]].
  intros p x Hp. rewrite Hs in Hp. cbn in Hp. apply lookup_insert_Some in Hp as [[_ <-]|[_ Hp]]; [by vm_compute|].
  apply lookup_insert_Some in Hp as [[_ <-]|[_ Hp]]; [by vm_compute|]. by vm_compute in Hp.
Defined.

(** The system is asked for a megabyte. *)
Definition from_sys_state : mm_state (ledger * scatters) := set_mgt sc_start false (set_support 1).
Lemma slot_from_sys_returns_witness : exists r s', slot_from_sys_if false SZ_1M from_sys_state = Some (r, s').
Proof. apply (slot_from_sys_returns from_sys_state false SZ_1M); by vm_compute. Defined.
