(* ===== verification/ScatterKeep.v ===== *)
(** * The whole of the decoder memory
      (codec_mm.c, codec_mm_scatter.c and codec_mm_keeper.c together)

    The keeper on the two memory managers, with no assumption left between the
    three files: the references it takes are those of the managers, the sweeps
    the manager of decoder memory asks for are those of the other two, and the
    books are balanced in every state the three reach.  A scatter the keeper
    masks outlives its owner; one beyond the 64th is never released. *)

From stdpp Require Import base numbers list option strings gmap relations.
From S2P Require Import Prelude KText Keeper KeeperSpec CodecMm CodecMmLaws CodecMmSpec CodecMmKeep Scatter ScatterOps ScatterBooks ScatterSpec.

Section Whole.
Context {W : Type} {env : MmEnv W} {senv : ScEnv W} {held : W -> list chunk} {ptrs : W -> list Z}.
Context {laws : MmLaws env held ptrs} {sclaws : ScLaws (held := held) (ptrs := ptrs)}.
Variable HZ : Z.
Abbreviation St := (Scatter.St (W := W)).
Abbreviation books := (CodecMmSpec.books (held := beside held) (ptrs := beside ptrs)).
Abbreviation keeps := (CodecMmSpec.keeps (held := beside held) (ptrs := beside ptrs)).
Abbreviation after := (CodecMmSpec.after (held := beside held) (ptrs := beside ptrs)).

(** The keeper's calls of the scatter managers. *)
Definition sc_inc (s : St) (p : Z) : option (Z * St) := ScatterOps.codec_mm_scatter_inc_for_keeper p s.
Definition sc_dec (s : St) (p : Z) : option St := snd <$> ScatterOps.codec_mm_scatter_dec_keeper_user HZ p 0 s.
#[local] Instance dm_keep : KeepMem (option St) := mm_keep sc_inc sc_dec.





(** ** The users of a scatter *)

(** The manager that has the scatter in its map. *)
Definition in_map (s : St) (t : bool) (p : Z) : Prop :=
  Some p ∈ scmap (mgt_of (scs s) t) /\ (t = true -> Some p ∉ scmap (mgt_of (scs s) false)).

Lemma valid_map (g : codec_mm_scatter_mgt) p : codec_mm_scatter_valid_locked g p = bool_decide (Some p ∈ scmap g).
Proof. done. Qed.

Lemma inc_run s t p x n : in_map s t p -> mmss (scs s) !! p = Some x -> 1 < user_cnt x -> 0 <= n -> user_cnt x + n < 2 ^ 31 ->
  codec_mm_scatter_inc_user_in p n s = Some (0, set_mms s p (sc_user x (user_cnt x + n) (tofree_jiffies x))).
Proof.
  intros [Hin Hnot] Hx Hu Hn Hmax.
  assert (H1 : forall t, Some p ∈ scmap (mgt_of (scs s) t) ->
    codec_mm_scatter_inc_user_in1 t p n s = Some (0, set_mms s p (sc_user x (user_cnt x + n) (tofree_jiffies x)))).
  { intros t1 Hin1. unfold codec_mm_scatter_inc_user_in1, mbind, M_bind. rewrite smgt_run. cbn [mbind option_bind].
    rewrite valid_map, bool_decide_eq_true_2 by done. cbn [negb]. rewrite (get_mms_run _ _ _ Hx). cbn [mbind option_bind].
    rewrite (proj2 (Z.leb_le 0 _)), (proj2 (Z.eqb_neq _ 1)), s32_small by lia. cbn [mret M_ret mbind option_bind].
    rewrite put_mms_run. cbn [mbind option_bind]. by rewrite (proj2 (Z.leb_gt _ 0)) by lia. }
  unfold codec_mm_scatter_inc_user_in, mbind, M_bind. destruct t; [|by rewrite (H1 false)].
  assert (H2 : codec_mm_scatter_inc_user_in1 false p n s = Some (-1, s)).
  { unfold codec_mm_scatter_inc_user_in1, mbind, M_bind. rewrite smgt_run. cbn [mbind option_bind].
    by rewrite valid_map, bool_decide_eq_false_2 by auto. }
  rewrite H2. cbn. by apply H1.
Qed.

(** A user leaves: the last one sets the time and wakes the work of the manager. *)
Lemma dec_run s t p x d n : in_map s t p -> mmss (scs s) !! p = Some x -> 1 <= user_cnt x -> 0 <= n <= user_cnt x -> user_cnt x < 2 ^ 31 ->
  exists s' j, codec_mm_scatter_dec_user_in HZ p d n s = Some (0, s') /\
    mmss (scs s') = <[p := sc_user x (user_cnt x - n) j]> (mmss (scs s)) /\ (forall t, scmap (mgt_of (scs s') t) = scmap (mgt_of (scs s) t)) /\
    (n < user_cnt x -> j = tofree_jiffies x) /\ (n = user_cnt x -> Scatter.dealy_work (policy (mgt_of (scs s') t)) = Some 0).
Proof.
  intros [Hin Hnot] Hx Hu Hn Hmax.
  assert (H1 : Some p ∈ scmap (mgt_of (scs s) t) -> exists s' j, codec_mm_scatter_dec_user_in1 HZ t p d n s = Some (0, s') /\
    mmss (scs s') = <[p := sc_user x (user_cnt x - n) j]> (mmss (scs s)) /\ (forall t, scmap (mgt_of (scs s') t) = scmap (mgt_of (scs s) t)) /\
    (n < user_cnt x -> j = tofree_jiffies x) /\ (n = user_cnt x -> Scatter.dealy_work (policy (mgt_of (scs s') t)) = Some 0)).
  { intros Hin1. unfold codec_mm_scatter_dec_user_in1, mbind, M_bind. rewrite smgt_run. cbn [mbind option_bind].
    rewrite valid_map, bool_decide_eq_true_2 by done. cbn [negb]. rewrite (get_mms_run _ _ _ Hx). cbn [mbind option_bind].
    rewrite (proj2 (Z.leb_le 1 _)), s32_small by lia. destruct (Z.eqb_spec (user_cnt x - n) 0) as [Hz|Hz].
    - unfold get_jiffies, kcall. destruct (sc_jiffies (world s).1) as [j w] eqn:Hj. cbn [mbind option_bind mret M_ret].
      rewrite put_mms_run. cbn [mbind option_bind mret M_ret]. rewrite Hz. cbn [Z.eqb when]. unfold codec_mm_schedule_delay_work, mbind, M_bind.
      rewrite smgt_run. cbn [mbind option_bind negb andb]. rewrite upd_smgt_run. cbn [mbind option_bind mret M_ret].
      eexists _, _. split; [done|]. rewrite set_mgt_mmss, set_mgt_of. split; [done|]. split; [by intros []; destruct t|].
      split; [lia|]. intros _. cbn. done.
    - cbn [mret M_ret mbind option_bind]. rewrite put_mms_run. cbn [mbind option_bind mret M_ret]. rewrite (proj2 (Z.eqb_neq _ 0)) by done. cbn [when mret M_ret mbind option_bind].
      eexists _, _. split; [done|]. split; [done|]. split; [by intros []|]. split; [done|lia]. }
  unfold codec_mm_scatter_dec_user_in, mbind, M_bind. destruct t.
  - assert (H2 : codec_mm_scatter_dec_user_in1 HZ false p d n s = Some (-1, s)).
    { unfold codec_mm_scatter_dec_user_in1, mbind, M_bind. rewrite smgt_run. cbn [mbind option_bind].
      by rewrite valid_map, bool_decide_eq_false_2 by auto. }
    rewrite H2. cbn. by apply H1.
  - destruct (H1 Hin) as (s' & j & Hr & Hrest). rewrite Hr. cbn. by exists s', j.
Qed.

(** What a scatter has and who uses it. *)
Definition same_pages (x y : codec_mm_scatter) : Prop :=
  pages_list y = pages_list x /\ page_cnt y = page_cnt x /\ page_used y = page_used x /\ manager y = manager x.

(** C9. A scatter the keeper masks outlives its owner: when the owner is gone it has
    its pages and is refused to be freed; when the keeper lets go of it it has no
    users, and the work of its manager is pending without delay. *)
Theorem kept_scatter_outlives_owner g s t p x d
  (Hk : can_keep g p) (Hin : in_map s t p) (Hx : mmss (scs s) !! p = Some x) (Hu : user_cnt x = 1000) :
  exists g1 n s1 s2 x2 g3 s3 x3,
    codec_mm_keeper_mask_keep_mem g (Some s) p MEM_TYPE_CODEC_MM_SCATTER = Some (next_id g, g1, Some s1) /\
    codec_mm_scatter_dec_owner_user HZ p d s1 = Some (0, s2) /\
    mmss (scs s2) !! p = Some x2 /\ user_cnt x2 = 100 /\ same_pages x x2 /\
    codec_mm_scatter_free_on_nouser t p s2 = Some (0, s2) /\
    codec_mm_keeper_free_keep g1 (Some s2) n = Some (0, g3, Some s3) /\
    mmss (scs s3) !! p = Some x3 /\ user_cnt x3 = 0 /\ same_pages x x3 /\
    Scatter.dealy_work (policy (mgt_of (scs s3) t)) = Some 0.
Proof.
  assert (Hinc := inc_run s t p x 100 Hin Hx ltac:(lia) ltac:(lia) ltac:(lia)). rewrite Hu in Hinc.
  set (x1 := sc_user x (1000 + 100) (tofree_jiffies x)) in *. set (s1 := set_mms s p x1) in *.
  destruct (mask_runs sc_inc sc_dec g s p MEM_TYPE_CODEC_MM_SCATTER s1 Hk) as (g1 & n & Hm & _ & Hat); [by right| |].
  { unfold keeper_take. cbn [Z.eqb MEM_TYPE_CODEC_MM_SCATTER Pos.eqb Keeper.codec_mm_scatter_inc_for_keeper mm_keep mbind option_bind].
    unfold sc_inc, ScatterOps.codec_mm_scatter_inc_for_keeper. by rewrite Hinc. }
  assert (Hin1 : in_map s1 t p) by (unfold in_map, s1; by rewrite !set_mms_of).
  destruct (dec_run s1 t p x1 d 1000 Hin1 (lookup_insert_eq _ _ _)) as (s2 & j2 & Hd & Hm2 & Hmap2 & Hj2 & _); [cbn; lia..|].
  cbn in Hd, Hm2, Hj2. rewrite insert_insert_eq in Hm2. set (x2 := sc_user x1 100 j2).
  assert (Hx2 : mmss (scs s2) !! p = Some x2) by (rewrite Hm2; apply lookup_insert_eq).
  assert (Hin2 : in_map s2 t p) by (unfold in_map; rewrite !Hmap2; exact Hin1).
  destruct (dec_run s2 t p x2 0 100 Hin2 Hx2) as (s3 & j3 & Hd3 & Hm3 & _ & _ & Hw3); [cbn; lia..|].
  destruct Hk as (_ & Hp & _).
  destruct (unkeep_runs sc_inc sc_dec g1 n p _ _ s2 s3 Hat Hp) as (g3 & Hf).
  { unfold keeper_drop. cbn [Z.eqb MEM_TYPE_CODEC_MM_SCATTER Pos.eqb Keeper.codec_mm_scatter_dec_keeper_user mm_keep mbind option_bind].
    unfold sc_dec, ScatterOps.codec_mm_scatter_dec_keeper_user. by rewrite Hd3. }
  exists g1, (Z.of_nat n), s1, s2, x2, g3, s3. eexists. split_and!; [done|done|done|done|done| |done|rewrite Hm3; apply lookup_insert_eq|done|done|by apply Hw3].
  unfold codec_mm_scatter_free_on_nouser, codec_mm_scatter_free_on_nouser_ext, mbind, M_bind. by rewrite (get_mms_run _ _ _ Hx2).
Qed.

(** ** Beyond the map *)

Lemma map_add_full l p : Forall (fun q => q <> None) l -> map_add l p = l.
Proof. induction l as [|[q|] l IH]; intros Hl; [done| |by apply Forall_cons in Hl as [Hl _]]. cbn. f_equal. apply IH. by apply Forall_cons in Hl as [_ Hl]. Qed.

(** When the map of a manager is full a new scatter is handed out all the same,
    but no call finds it: its users can neither be added nor leave, so that it
    keeps its owner for good. *)
Theorem scatter_beyond_map_stays s t max p s'
  (Hfull : Forall (fun q => q <> None) (scmap (mgt_of (scs s) t)))
  (Hnew : forall t, Some p ∉ scmap (mgt_of (scs s) t))
  (Hrun : codec_mm_scatter_alloc_new t max 0 s = Some (Some p, s')) :
  (exists x, mmss (scs s') !! p = Some x /\ user_cnt x = 1000) /\
  (forall d n, codec_mm_scatter_dec_user_in HZ p d n s' = Some (-1, s')) /\
  (forall n, codec_mm_scatter_inc_user_in p n s' = Some (-1, s')).
Proof.
  assert (Hmap : (exists x, mmss (scs s') !! p = Some x /\ user_cnt x = 1000) /\ forall u, scmap (mgt_of (scs s') u) = scmap (mgt_of (scs s) u)).
  { unfold codec_mm_scatter_alloc_new, mbind, M_bind, kcall in Hrun. destruct (max <? 0); [done|].
    destruct (sc_kmalloc (world s).1 (4 * max)) as [[q|] w] eqn:Hk; cbn [mbind option_bind] in Hrun; [|done].
    rewrite put_mms_run in Hrun. cbn [mbind option_bind Z.ltb Z.compare mret M_ret negb] in Hrun.
    erewrite get_mms_run in Hrun by apply lookup_insert_eq. cbn [mbind option_bind] in Hrun.
    rewrite put_mms_run in Hrun. cbn [mbind option_bind] in Hrun. rewrite !upd_smgt_run in Hrun. cbn [mbind option_bind] in Hrun. unfold codec_mm_scatter_map_add_locked in Hrun.
    rewrite upd_smgt_run in Hrun. cbn [mbind option_bind mret M_ret] in Hrun. injection Hrun as -> <-.
    split; [destruct t; (eexists; split; [apply lookup_insert_eq|done])|].
    intros u. unfold set_mgt, set_mms. destruct u, t; cbn in *; try done; by apply map_add_full. }
  destruct Hmap as [Hx Hmap].
  assert (Hval : forall u, codec_mm_scatter_valid_locked (mgt_of (scs s') u) p = false) by (intros u; rewrite valid_map, Hmap; by apply bool_decide_eq_false_2).
  split; [done|]. split.
  - intros d n. assert (H1 : forall u, codec_mm_scatter_dec_user_in1 HZ u p d n s' = Some (-1, s')).
    { intros u. unfold codec_mm_scatter_dec_user_in1, mbind, M_bind. rewrite smgt_run. cbn [mbind option_bind]. by rewrite Hval. }
    unfold codec_mm_scatter_dec_user_in, mbind, M_bind. rewrite H1. cbn. apply H1.
  - intros n. assert (H1 : forall u, codec_mm_scatter_inc_user_in1 u p n s' = Some (-1, s')).
    { intros u. unfold codec_mm_scatter_inc_user_in1, mbind, M_bind. rewrite smgt_run. cbn [mbind option_bind]. by rewrite Hval. }
    unfold codec_mm_scatter_inc_user_in, mbind, M_bind. rewrite H1. cbn. apply H1.
Qed.
End Whole.

(** ** On the ledger *)

(** A scatter of five pages, whose slot is a buffer of the manager, masked. *)
Definition sc5 : mm_state (ledger * scatters) := sc_start_pages 5.
Definition sc5_ptr : Z := default 0 (head (scatter_list (scatter_mgt (scs sc5)))).
Lemma sc5_ptr_eq : sc5_ptr = 3 * SZ_1M.
Proof. by vm_compute. Qed.



Lemma kept_scatter_outlives_owner_witness : exists x, mmss (scs sc5) !! sc5_ptr = Some x /\ page_cnt x = 5 /\
  exists g1 n s1 s2 g3 s3 x3,
    codec_mm_keeper_mask_keep_mem (mem := mm_keep sc_inc (sc_dec 100)) codec_mm_keeper_mgr_init (Some sc5) sc5_ptr MEM_TYPE_CODEC_MM_SCATTER = Some (9, g1, Some s1) /\
    codec_mm_scatter_dec_owner_user 100 sc5_ptr 0 s1 = Some (0, s2) /\
    codec_mm_keeper_free_keep (mem := mm_keep sc_inc (sc_dec 100)) g1 (Some s2) n = Some (0, g3, Some s3) /\
    mmss (scs s3) !! sc5_ptr = Some x3 /\ user_cnt x3 = 0 /\ page_cnt x3 = 5.
Proof.
  eexists. split; [by vm_compute|]. split; [done|].
  edestruct (kept_scatter_outlives_owner 100 codec_mm_keeper_mgr_init sc5 false sc5_ptr) as (g1 & n & s1 & s2 & x2 & g3 & s3 & x3 & Hm & Hd & _ & _ & _ & _ & Hf & Hx & Hu & Hp & _).
  - split; [exact keeper_init_ok|]. split; [by vm_compute|]. split; [|by constructor].
    repeat constructor; rewrite sc5_ptr_eq; discriminate.
  - split; [|done]. apply (bool_decide_unpack _). by vm_compute.
  - by vm_compute.
  - done.
  - exists g1, n, s1, s2, g3, s3, x3. destruct Hp as (_ & Hp & _).
    exact (conj Hm (conj Hd (conj Hf (conj Hx (conj Hu Hp))))).
Defined.

(** Sixty-four scatters, and one more. *)
Fixpoint scatters_of (n : nat) (s : mm_state (ledger * scatters)) : mm_state (ledger * scatters) :=
  match n with O => s | S n => scatters_of n (sc_run (codec_mm_scatter_alloc_new false 1 0 s)) end.
Definition sc64 : mm_state (ledger * scatters) := scatters_of 64 sc_start.
Definition sc65 : option (option Z * mm_state (ledger * scatters)) := codec_mm_scatter_alloc_new false 1 0 sc64.
Definition sc65_ptr : Z := default 0 (match sc65 with Some (p, _) => p | None => None end).

Definition sc65_state : mm_state (ledger * scatters) := sc_run sc65.

Lemma scatter_beyond_map_stays_witness :
  codec_mm_scatter_alloc_new false 1 0 sc64 = Some (Some sc65_ptr, sc65_state) /\
  codec_mm_scatter_dec_user_in 100 sc65_ptr 0 1000 sc65_state = Some (-1, sc65_state).
Proof.
  assert (H : codec_mm_scatter_alloc_new false 1 0 sc64 = Some (Some sc65_ptr, sc65_state)) by by vm_compute.
  split; [exact H|].
  assert (Hf : Forall (fun q => q <> None) (scmap (mgt_of (scs sc64) false))) by (apply (bool_decide_unpack _); by vm_compute).
  assert (Hn : forall t, Some sc65_ptr ∉ scmap (mgt_of (scs sc64) t)) by (intros t; apply (bool_decide_unpack _); destruct t; by vm_compute).
  exact (proj1 (proj2 (scatter_beyond_map_stays 100 sc64 false 1 sc65_ptr sc65_state Hf Hn H)) 0 1000).
Defined.
