(* ===== verification/GpioKeypad.v ===== *)
(** * The polled GPIO keypad (src/a311d/soc/amlogic/input/keyboard/gpio_keypad.c)

    Every poll reads the buttons, debounces them and reports them to the input
    core.  The GPIO lines and the device tree are arguments; what the driver asks
    of the input core and of the HDF adapter is recorded as a trace of effects. *)

From stdpp Require Import base numbers list option strings.
From S2P Require Import Prelude.

Definition EV_SYN : Z := 0x00.
Definition EV_KEY : Z := 0x01.
Definition EV_REL : Z := 0x02.
Definition EV_ABS : Z := 0x03.
Definition EV_REP : Z := 0x14.
Definition SYN_REPORT : Z := 0.
Definition KEY_POWER : Z := 116.
(** [BITS_TO_LONGS (REL_CNT)] and [BITS_TO_LONGS (ABS_CNT)] words of 64 bits. *)
Definition REL_BITS : Z := 64.
Definition ABS_BITS : Z := 64.

Record gpio_keys_button := mk_button {
  code : Z;
  gpio : Z;
  active_low : bool;
  desc : option string;
  btype : Z;
  wakeup : bool;
  debounce_interval : Z;
  value : Z }.

(** [enable] and [disable]: whether the platform has these callbacks. *)
Record gpio_keys_platform_data := mk_pdata {
  buttons : list gpio_keys_button;
  poll_interval : Z;
  rep : bool;
  pname : option string;
  enable : bool;
  disable : bool }.

(** [gpiod] is the number of the descriptor, 0 for NULL. *)
Record gpio_keys_button_data := mk_bdata {
  gpiod : Z;
  last_state : Z;
  count : Z;
  threshold : Z }.

Inductive effect :=
| InputEvent (type code value : Z)
| InputSync
| SetEvbit (type : Z)
| SetCapability (type code : Z)
| SetAbsParams (code min max : Z)
| HidReportEvent (type code value : Z)
| PlatformEnable
| PlatformDisable
| SendInfoToHdf
| HidRegisterHdfKeyPadDev.

Record gpio_keypad_dev := mk_dev {
  rel_axis_seen : list bool;
  abs_axis_seen : list bool;
  data : list gpio_keys_button_data;
  out : list effect }.

Definition emit (bdev : gpio_keypad_dev) (es : list effect) : gpio_keypad_dev :=
  mk_dev (rel_axis_seen bdev) (abs_axis_seen bdev) (data bdev) (out bdev ++ es).
Definition set_data (bdev : gpio_keypad_dev) (d : list gpio_keys_button_data) : gpio_keypad_dev :=
  mk_dev (rel_axis_seen bdev) (abs_axis_seen bdev) d (out bdev).

(** [button->type ?: EV_KEY] *)
Definition button_type (b : gpio_keys_button) : Z := if btype b =? 0 then EV_KEY else btype b.

Definition gpio_keys_button_event (bdev : gpio_keypad_dev) (button : gpio_keys_button) (state : Z)
  : option gpio_keypad_dev :=
  let type := button_type button in
  if type =? EV_REL then
    if c_true state then
      let bdev := emit bdev [InputEvent type (code button) (value button)] in
      seen ← aset (rel_axis_seen bdev) (code button) true;
      Some (mk_dev seen (abs_axis_seen bdev) (data bdev) (out bdev))
    else Some bdev
  else if type =? EV_ABS then
    if c_true state then
      let bdev := emit bdev [InputEvent type (code button) (value button)] in
      seen ← aset (abs_axis_seen bdev) (code button) true;
      Some (mk_dev (rel_axis_seen bdev) seen (data bdev) (out bdev))
    else Some bdev
  else Some (emit bdev [InputEvent type (code button) state; InputSync]).

Section Poll.
(** Both [g_hidInputDev] and the input manager of HDF are there; without
    CONFIG_DRIVERS_HDF_INPUT this is false. *)
Variable hdf : bool.

(** [gpio_value d]: what [gpiod_get_value_cansleep] returns for descriptor [d]. *)
Definition gpio_keypad_check_state (gpio_value : Z -> Z) (bdev : gpio_keypad_dev)
    (button : gpio_keys_button) (i : Z) : option gpio_keypad_dev :=
  bdata ← aget (data bdev) i;
  let state := gpio_value (gpiod bdata) in
  if state <? 0 then Some bdev
  else
    bdev ← gpio_keys_button_event bdev button state;
    if negb (state =? last_state bdata) then
      d ← aset (data bdev) i (mk_bdata (gpiod bdata) state 0 (threshold bdata));
      let bdev := set_data bdev d in
      Some (if hdf && (code button =? KEY_POWER)
            then emit bdev [HidReportEvent EV_KEY KEY_POWER (if state =? 0 then 1 else 0);
                            HidReportEvent EV_SYN SYN_REPORT 0]
            else bdev)
    else Some bdev.

(** One button of a poll. *)
Definition poll_button (gpio_value : Z -> Z) (bdev : gpio_keypad_dev) (button : gpio_keys_button) (i : Z)
  : option gpio_keypad_dev :=
  bdata ← aget (data bdev) i;
  if count bdata <? threshold bdata then
    d ← aset (data bdev) i (mk_bdata (gpiod bdata) (last_state bdata) (s32 (count bdata + 1)) (threshold bdata));
    gpio_keys_button_event (set_data bdev d) button (last_state bdata)
  else gpio_keypad_check_state gpio_value bdev button i.

Fixpoint poll_buttons (gpio_value : Z -> Z) (bs : list gpio_keys_button) (i : Z) (bdev : gpio_keypad_dev)
  : option gpio_keypad_dev :=
  match bs with
  | [] => Some bdev
  | b :: bs => bdev ← poll_button gpio_value bdev b i; poll_buttons gpio_value bs (i + 1) bdev
  end.

(** [for_each_set_bit] over an axis map, given as the codes of its set bits: an
    axis that no button moved is reported at rest. *)
Fixpoint release_axes (type : Z) (codes : list Z) (seen : list bool) : option (list effect) :=
  match codes with
  | [] => Some []
  | c :: codes =>
      b ← aget seen c;
      es ← release_axes type codes seen;
      Some (if negb b then InputEvent type c 0 :: es else es)
  end.

(** [relbit] and [absbit]: the codes set in the maps of the input device. *)
Definition gpio_keypad_poll (relbit absbit : list Z) (pdata : gpio_keys_platform_data)
    (gpio_value : Z -> Z) (bdev : gpio_keypad_dev) : option gpio_keypad_dev :=
  let bdev := mk_dev (replicate (Z.to_nat REL_BITS) false) (replicate (Z.to_nat ABS_BITS) false)
                (data bdev) (out bdev) in
  bdev ← poll_buttons gpio_value (buttons pdata) 0 bdev;
  rel ← release_axes EV_REL relbit (rel_axis_seen bdev);
  abs ← release_axes EV_ABS absbit (abs_axis_seen bdev);
  Some (emit bdev (rel ++ abs ++ [InputSync])).

(** The reports of the initial states. *)
Fixpoint initial_states (gpio_value : Z -> Z) (bs : list gpio_keys_button) (i : Z) (bdev : gpio_keypad_dev)
  : option gpio_keypad_dev :=
  match bs with
  | [] => Some bdev
  | b :: bs =>
      bdev ← gpio_keypad_check_state gpio_value bdev b i;
      initial_states gpio_value bs (i + 1) bdev
  end.

End Poll.

(** ** Opening and closing *)

Definition gpio_keypad_open (pdata : gpio_keys_platform_data) (bdev : gpio_keypad_dev) : Z * gpio_keypad_dev :=
  (0, if enable pdata then emit bdev [PlatformEnable] else bdev).

Definition gpio_keypad_close (pdata : gpio_keys_platform_data) (bdev : gpio_keypad_dev) : gpio_keypad_dev :=
  if disable pdata then emit bdev [PlatformDisable] else bdev.

(** ** Probing *)

(** The properties of a child node; [None] is an absent one. *)
Record child_node := mk_child {
  linux_code : option Z;
  child_label : option string;
  linux_input_type : option Z;
  linux_input_value : option Z;
  wakeup_source : bool;
  gpio_key_wakeup : bool;
  debounce_prop : option Z }.

(** What the probe is told by the rest of the kernel.  [devm_fwnode_gpiod_get]
    of child [n] is an error number or a descriptor. *)
Record probe_env := mk_env {
  platdata : option gpio_keys_platform_data;
  children : list child_node;
  autorepeat : bool;
  poll_interval_prop : option Z;
  label_prop : option string;
  pdata_memory : bool;
  bdev_memory : bool;
  input_memory : bool;
  fwnode_gpiod_get : Z -> Z + Z;
  gpio_is_valid : Z -> bool;
  gpio_request_one : Z -> Z;
  gpio_to_desc : Z -> Z;
  input_setup_polling : Z;
  input_register_device : Z;
  gpio_value_at_probe : Z -> Z;
  hdf_config : bool;
  hidinfo_memory : bool;
  hid_registered : bool }.

Definition devtree_button (c : child_node) : option gpio_keys_button :=
  k ← linux_code c;
  Some (mk_button k 0 false (child_label c)
    (match linux_input_type c with Some t => t | None => EV_KEY end)
    (wakeup_source c || gpio_key_wakeup c)
    (match debounce_prop c with Some d => s32 d | None => 5 end)
    (match linux_input_value c with Some v => s32 v | None => 1 end)).

Fixpoint devtree_buttons (cs : list child_node) : option (list gpio_keys_button) :=
  match cs with
  | [] => Some []
  | c :: cs => b ← devtree_button c; bs ← devtree_buttons cs; Some (b :: bs)
  end.

Definition gpio_keypad_get_devtree_pdata (e : probe_env) : Z + gpio_keys_platform_data :=
  if zlen (children e) =? 0 then inl (- EINVAL)
  else if negb (pdata_memory e) then inl (- ENOMEM)
  else match devtree_buttons (children e) with
       | None => inl (- EINVAL)
       | Some bs =>
           inr (mk_pdata bs (match poll_interval_prop e with Some p => p | None => 0 end)
                  (autorepeat e) (label_prop e) false false)
       end.

Fixpoint abs_range (bs : list gpio_keys_button) (c min max : Z) : Z * Z :=
  match bs with
  | [] => (min, max)
  | b :: bs =>
      if negb (btype b =? EV_ABS) || negb (code b =? c) then abs_range bs c min max
      else
        let min := if value b <? min then value b else min in
        let max := if max <? value b then value b else max in
        abs_range bs c min max
  end.

Definition gpio_keypad_set_abs_params (pdata : gpio_keys_platform_data) (c : Z) : effect :=
  let '(min, max) := abs_range (buttons pdata) c 0 0 in SetAbsParams c min max.

(** [DIV_ROUND_UP (button->debounce_interval, pdata->poll_interval)]: the second
    operand is unsigned, and so is the division. *)
Definition debounce_threshold (b : gpio_keys_button) (poll : Z) : Z :=
  s32 (u32 (u32 (debounce_interval b) + poll - 1) / poll).

(** The descriptor of button [i], or the error the probe returns. *)
Definition probe_gpiod (e : probe_env) (b : gpio_keys_button) (i : Z) : Z + Z :=
  match platdata e with
  | None =>
      if i <? zlen (children e) then fwnode_gpiod_get e i
      else inl (- EINVAL)
  | Some _ =>
      if gpio_is_valid e (gpio b) then
        let error := gpio_request_one e (gpio b) in
        if c_true error then inl error
        else if gpio_to_desc e (gpio b) =? 0 then inl (- EINVAL)
        else inr (gpio_to_desc e (gpio b))
      else inr 0
  end.

(** The loop over the buttons: their data and the capabilities they ask for. *)
Fixpoint probe_buttons (e : probe_env) (pdata : gpio_keys_platform_data) (bs : list gpio_keys_button) (i : Z)
  : Z + list gpio_keys_button_data * list effect :=
  match bs with
  | [] => inr ([], [])
  | b :: bs =>
      if wakeup b then inl (- EINVAL)
      else match probe_gpiod e b i with
           | inl error => inl error
           | inr g =>
               match probe_buttons e pdata bs (i + 1) with
               | inl error => inl error
               | inr (ds, es) =>
                   inr (mk_bdata g (-1) 0 (debounce_threshold b (poll_interval pdata)) :: ds,
                        SetCapability (button_type b) (code b) ::
                        (if button_type b =? EV_ABS then [gpio_keypad_set_abs_params pdata (code b)] else [])
                        ++ es)
               end
           end
  end.

(** The HDF part at the end of the probe. *)
Definition probe_hdf (e : probe_env) (bdev : gpio_keypad_dev) : Z * gpio_keypad_dev :=
  if hdf_config e then
    if negb (hidinfo_memory e) then (- EINVAL, bdev)
    else
      let bdev := emit bdev [SendInfoToHdf; HidRegisterHdfKeyPadDev] in
      if negb (hid_registered e) then (- EINVAL, bdev) else (0, bdev)
  else (0, bdev).

(** Returns the C result and, from the registration on, the device; [None] is an
    access outside the axis maps. *)
Definition gpio_keypad_probe (e : probe_env)
  : option (Z * option (gpio_keys_platform_data * gpio_keypad_dev)) :=
  match (match platdata e with Some p => inr p | None => gpio_keypad_get_devtree_pdata e end) with
  | inl error => Some (error, None)
  | inr pdata =>
      if poll_interval pdata =? 0 then Some (- EINVAL, None)
      else if negb (bdev_memory e) then Some (- ENOMEM, None)
      else if negb (input_memory e) then Some (- ENOMEM, None)
      else match probe_buttons e pdata (buttons pdata) 0 with
           | inl error => Some (error, None)
           | inr (ds, es) =>
               let bdev := mk_dev (replicate (Z.to_nat REL_BITS) false) (replicate (Z.to_nat ABS_BITS) false) ds
                   (SetEvbit EV_KEY :: (if rep pdata then [SetEvbit EV_REP] else []) ++ es) in
               if c_true (input_setup_polling e) then Some (input_setup_polling e, None)
               else if c_true (input_register_device e) then Some (input_register_device e, None)
               else
                 bdev ← initial_states false (gpio_value_at_probe e) (buttons pdata) 0 bdev;
                 let bdev := emit bdev [InputSync] in
                 let '(ret, bdev) := probe_hdf e bdev in
                 Some (ret, Some (pdata, bdev))
           end
  end.
