(* ===== verification/GpioKeypadSpec.v ===== *)
(** * Correctness of the GPIO keypad

    A poll is the debounce machine of each button run side by side; a change of a
    button locks it for its threshold, which covers the debounce interval; every
    axis is reported in every poll. *)

From stdpp Require Import base numbers list option strings.
From S2P Require Import Prelude GpioKeypad.

(** ** The debounce machine of one button

    From the data of the button and the value of its line: the new data, and the
    state reported, if any. *)

Definition debounce (d : gpio_keys_button_data) (g : Z) : gpio_keys_button_data * option Z :=
  if count d <? threshold d
  then (mk_bdata (gpiod d) (last_state d) (count d + 1) (threshold d), Some (last_state d))
  else if g <? 0 then (d, None)
  else if g =? last_state d then (d, Some g)
  else (mk_bdata (gpiod d) g 0 (threshold d), Some g).

(** What a report sends to the input core. *)
Definition report_effects (b : gpio_keys_button) (state : option Z) : list effect :=
  match state with
  | None => []
  | Some s =>
      if (button_type b =? EV_REL) || (button_type b =? EV_ABS) then
        if c_true s then [InputEvent (button_type b) (code b) (value b)] else []
      else [InputEvent (button_type b) (code b) s; InputSync]
  end.

(** The change of a power key also goes to HDF, inverted. *)
Definition hdf_effects (hdf : bool) (b : gpio_keys_button) (d : gpio_keys_button_data) (g : Z) : list effect :=
  if negb (count d <? threshold d) && (0 <=? g) && negb (g =? last_state d) && hdf && (code b =? KEY_POWER)
  then [HidReportEvent EV_KEY KEY_POWER (if g =? 0 then 1 else 0); HidReportEvent EV_SYN SYN_REPORT 0]
  else [].

Definition button_effects (hdf : bool) (b : gpio_keys_button) (d : gpio_keys_button_data) (g : Z) : list effect :=
  report_effects b (debounce d g).2 ++ hdf_effects hdf b d g.

(** The axis a report marks as moved. *)
Definition moves (type : Z) (b : gpio_keys_button) (state : option Z) : bool :=
  match state with Some s => (button_type b =? type) && c_true s | None => false end.

Definition mark (type : Z) (b : gpio_keys_button) (state : option Z) (seen : list bool) : list bool :=
  if moves type b state then <[Z.to_nat (code b) := true]> seen else seen.

(** Codes inside the axis maps, and a counter in its width. *)
Definition button_ok (b : gpio_keys_button) : Prop :=
  (button_type b = EV_REL -> 0 <= code b < REL_BITS) /\ (button_type b = EV_ABS -> 0 <= code b < ABS_BITS).
Definition bdata_ok (d : gpio_keys_button_data) : Prop :=
  0 <= count d /\ threshold d < 2 ^ 31.

Definition dev_ok (bdev : gpio_keypad_dev) : Prop :=
  length (rel_axis_seen bdev) = Z.to_nat REL_BITS /\ length (abs_axis_seen bdev) = Z.to_nat ABS_BITS.

Lemma mark_length type b s seen : length (mark type b s seen) = length seen.
Proof. unfold mark. case_goal; [apply length_insert|done]. Qed.

(** ** Reports *)

Lemma button_event_spec bdev b s :
  button_ok b -> dev_ok bdev ->
  gpio_keys_button_event bdev b s
  = Some (mk_dev (mark EV_REL b (Some s) (rel_axis_seen bdev)) (mark EV_ABS b (Some s) (abs_axis_seen bdev))
            (data bdev) (out bdev ++ report_effects b (Some s))).
Proof.
  intros [Hr Ha] [Lr La]. unfold gpio_keys_button_event, mark, moves, report_effects.
  destruct (Z.eqb_spec (button_type b) EV_REL) as [E|E].
  - rewrite E. destruct (c_true s); simpl.
    + rewrite aset_in by (rewrite Lr; unfold REL_BITS in *; lia). done.
    + rewrite app_nil_r. by destruct bdev.
  - destruct (Z.eqb_spec (button_type b) EV_ABS) as [E'|E']; simpl.
    + destruct (c_true s); simpl.
      * rewrite aset_in by (rewrite La; unfold ABS_BITS in *; lia). done.
      * rewrite app_nil_r. by destruct bdev.
    + done.
Qed.

(** One button of a poll is one step of its machine. *)
Lemma poll_button_spec hdf gv bdev b i d :
  button_ok b -> dev_ok bdev -> bdata_ok d -> aget (data bdev) i = Some d ->
  let g := gv (gpiod d) in
  let s := (debounce d g).2 in
  poll_button hdf gv bdev b i
  = Some (mk_dev (mark EV_REL b s (rel_axis_seen bdev)) (mark EV_ABS b s (abs_axis_seen bdev))
            (<[Z.to_nat i := (debounce d g).1]> (data bdev)) (out bdev ++ button_effects hdf b d g)).
Proof.
  intros Hb Hdev [Hc Ht] Hd. simpl. pose proof (aget_Some _ _ _ Hd) as Hi.
  unfold poll_button, button_effects, hdf_effects, debounce. rewrite Hd. simpl.
  destruct (Z.ltb_spec (count d) (threshold d)).
  - rewrite aset_in by done. simpl. rewrite button_event_spec by done. simpl.
    rewrite s32_small, app_nil_r by lia. done.
  - unfold gpio_keypad_check_state. rewrite Hd. simpl.
    assert (Hid : <[Z.to_nat i := d]> (data bdev) = data bdev).
    { apply list_insert_id. by rewrite <- aget_lookup by lia. }
    destruct (Z.ltb_spec (gv (gpiod d)) 0) as [Hg|Hg].
    + simpl. rewrite Hid, (proj2 (Z.leb_gt 0 _)) by done. simpl. rewrite app_nil_r. by destruct bdev.
    + rewrite (proj2 (Z.leb_le 0 _)) by done. rewrite button_event_spec by done. simpl.
      destruct (gv (gpiod d) =? last_state d); simpl.
      * by rewrite Hid, app_nil_r.
      * rewrite aset_in by done. simpl. destruct (hdf && (code b =? KEY_POWER)); unfold emit, set_data; simpl.
        -- by rewrite app_assoc.
        -- by rewrite app_nil_r.
Qed.

(** ** The whole poll *)

Section Poll.
Variable hdf : bool.
Variable gv : Z -> Z.

Abbreviation stepped d := (debounce d (gv (gpiod d))).

Fixpoint poll_effects (bs : list gpio_keys_button) (ds : list gpio_keys_button_data) : list effect :=
  match bs, ds with
  | b :: bs, d :: ds => button_effects hdf b d (gv (gpiod d)) ++ poll_effects bs ds
  | _, _ => []
  end.

Fixpoint poll_seen (type : Z) (bs : list gpio_keys_button) (ds : list gpio_keys_button_data) (seen : list bool)
  : list bool :=
  match bs, ds with
  | b :: bs, d :: ds => poll_seen type bs ds (mark type b (stepped d).2 seen)
  | _, _ => seen
  end.

Lemma poll_seen_length type bs : forall ds seen, length (poll_seen type bs ds seen) = length seen.
Proof.
  induction bs as [|b bs IH]; intros [|d ds] seen; try done. simpl. rewrite IH. apply mark_length.
Qed.

Lemma poll_buttons_spec bs : forall pre ds bdev,
  data bdev = pre ++ ds -> length ds = length bs ->
  Forall button_ok bs -> Forall bdata_ok ds -> dev_ok bdev ->
  poll_buttons hdf gv bs (zlen pre) bdev
  = Some (mk_dev (poll_seen EV_REL bs ds (rel_axis_seen bdev)) (poll_seen EV_ABS bs ds (abs_axis_seen bdev))
            (pre ++ ((fun d => (stepped d).1) <$> ds)) (out bdev ++ poll_effects bs ds)).
Proof.
  induction bs as [|b bs IH]; intros pre [|d ds] bdev Hd Hl Hb Hds Hdev; try done.
  - simpl in *. rewrite !app_nil_r in *. destruct bdev. simpl in *. by subst.
  - apply Forall_cons_1 in Hb as [Hb Hbs]. apply Forall_cons_1 in Hds as [Hd0 Hds].
    simpl poll_buttons. rewrite (poll_button_spec hdf gv bdev b (zlen pre) d Hb Hdev Hd0).
    2: { rewrite aget_lookup, Nat2Z.id, Hd by lia. by apply list_lookup_middle. }
    cbn [mbind option_bind].
    specialize (IH (pre ++ [(stepped d).1]) ds (mk_dev (mark EV_REL b (stepped d).2 (rel_axis_seen bdev))
      (mark EV_ABS b (stepped d).2 (abs_axis_seen bdev)) (<[Z.to_nat (zlen pre) := (stepped d).1]> (data bdev))
      (out bdev ++ button_effects hdf b d (gv (gpiod d))))).
    replace (zlen (pre ++ [(stepped d).1])) with (zlen pre + 1) in IH by (rewrite length_app; simpl; lia).
    rewrite IH.
    + cbn [rel_axis_seen abs_axis_seen out poll_seen poll_effects].
      rewrite fmap_cons, <- !app_assoc. reflexivity.
    + simpl. rewrite Hd, Nat2Z.id, insert_app_r_alt, Nat.sub_diag, <- app_assoc by lia. done.
    + simpl in Hl. lia.
    + done.
    + done.
    + destruct Hdev. by split; simpl; rewrite mark_length.
Qed.

(** Whether the report of some button moved axis [c]. *)
Fixpoint moved (type : Z) (bs : list gpio_keys_button) (ds : list gpio_keys_button_data) (c : Z) : bool :=
  match bs, ds with
  | b :: bs, d :: ds => (moves type b (stepped d).2 && (code b =? c)) || moved type bs ds c
  | _, _ => false
  end.
(** The events of the axes no button moved, in the order of their codes. *)
Definition at_rest (type : Z) (bs : list gpio_keys_button) (ds : list gpio_keys_button_data) (codes : list Z) : list effect :=
  (fun c => InputEvent type c 0) <$> filter (fun c => moved type bs ds c = false) codes.

Lemma poll_seen_moved type bs : forall ds seen c,
  Forall (fun b => button_type b = type -> 0 <= code b < zlen seen) bs -> 0 <= c ->
  poll_seen type bs ds seen !! Z.to_nat c = (orb (moved type bs ds c)) <$> seen !! Z.to_nat c.
Proof.
  induction bs as [|b bs IH]; intros [|d ds] seen c Hb Hc; cbn [poll_seen moved]; try by destruct (seen !! _).
  apply Forall_cons_1 in Hb as [Hb Hbs]. rewrite IH; [|by rewrite mark_length|done]. unfold mark.
  destruct (moves type b (stepped d).2) eqn:Em; cbn [andb]; [|done].
  assert (0 <= code b < zlen seen) as Hr.
  { apply Hb. unfold moves in Em. destruct ((stepped d).2); [|done]. by b2p. }
  destruct (Z.eqb_spec (code b) c) as [Ec|Hne]; cbn [orb].
  - rewrite Ec in *. destruct (lookup_lt_is_Some_2 seen (Z.to_nat c)) as [x Hx]; [lia|].
    rewrite list_lookup_insert_eq, Hx by lia. cbn. by rewrite orb_true_r.
  - by rewrite list_lookup_insert_ne by lia.
Qed.

Lemma release_axes_spec type bs ds codes seen :
  Forall (fun b => button_type b = type -> 0 <= code b < zlen seen) bs ->
  (forall n, seen !! n <> Some true) -> Forall (fun c => 0 <= c < zlen seen) codes ->
  release_axes type codes (poll_seen type bs ds seen) = Some (at_rest type bs ds codes).
Proof.
  intros Hb Hz H. unfold at_rest. induction codes as [|c codes IH]; [done|].
  apply Forall_cons_1 in H as [Hc H]. cbn [release_axes]. rewrite (IH H), aget_lookup, poll_seen_moved by (done || lia).
  destruct (lookup_lt_is_Some_2 seen (Z.to_nat c)) as [x Hx]; [lia|]. rewrite Hx.
  destruct x; [by destruct (Hz (Z.to_nat c))|]. cbn [fmap option_fmap option_map mbind option_bind]. rewrite orb_false_r.
  destruct (moved type bs ds c) eqn:Em; [by rewrite filter_cons_False by congruence|by rewrite filter_cons_True].
Qed.

(** An axis that was moved has an event. *)
Lemma moved_event type bs : forall ds c, type = EV_REL \/ type = EV_ABS ->
  moved type bs ds c = true -> exists v, In (InputEvent type c v) (poll_effects bs ds).
Proof.
  induction bs as [|b bs IH]; intros [|d ds] c Ht H; try done. cbn [moved poll_effects] in *.
  apply orb_true_iff in H as [H|H]; [|destruct (IH ds c Ht H) as [v Hv]; exists v; apply in_or_app; by right].
  b2p. exists (value b). apply in_or_app. left. unfold button_effects. apply in_or_app. left.
  unfold moves in *. destruct (stepped d).2 as [s|]; [|done]. b2p. subst. unfold report_effects.
  replace ((button_type b =? EV_REL) || (button_type b =? EV_ABS)) with true by (destruct Ht as [-> | ->]; done).
  replace (c_true s) with true by done. by left.
Qed.
Lemma axis_reported type bs ds codes c : type = EV_REL \/ type = EV_ABS -> In c codes ->
  exists v, In (InputEvent type c v) (poll_effects bs ds ++ at_rest type bs ds codes).
Proof.
  intros Ht Hc. destruct (moved type bs ds c) eqn:Em.
  - destruct (moved_event type bs ds c Ht Em) as [v Hv]. exists v. apply in_or_app. by left.
  - exists 0. apply in_or_app. right. apply in_map_iff. exists c. split; [done|]. apply list_elem_of_In, list_elem_of_filter.
    split; [done|]. by apply list_elem_of_In.
Qed.

End Poll.

(** What a poll needs: as many data as buttons, codes within the maps. *)
Record poll_pre (relbit absbit : list Z) (pdata : gpio_keys_platform_data) (bdev : gpio_keypad_dev) : Prop := {
  pre_length : length (data bdev) = length (buttons pdata);
  pre_buttons : Forall button_ok (buttons pdata);
  pre_data : Forall bdata_ok (data bdev);
  pre_rel : Forall (fun c => 0 <= c < REL_BITS) relbit;
  pre_abs : Forall (fun c => 0 <= c < ABS_BITS) absbit }.

Lemma poll_spec hdf relbit absbit pdata gv bdev :
  poll_pre relbit absbit pdata bdev ->
  exists bdev', gpio_keypad_poll hdf relbit absbit pdata gv bdev = Some bdev' /\
    data bdev' = (fun d => (debounce d (gv (gpiod d))).1) <$> data bdev /\
    out bdev' = out bdev ++ poll_effects hdf gv (buttons pdata) (data bdev) ++
      at_rest gv EV_REL (buttons pdata) (data bdev) relbit ++ at_rest gv EV_ABS (buttons pdata) (data bdev) absbit ++ [InputSync].
Proof.
  intros [Hl Hb Hd Hr Ha]. unfold gpio_keypad_poll.
  change (replicate (Z.to_nat REL_BITS) false) with (replicate 64 false).
  change (replicate (Z.to_nat ABS_BITS) false) with (replicate 64 false).
  set (z := replicate 64 false).
  pose proof (poll_buttons_spec hdf gv (buttons pdata) [] (data bdev) (mk_dev z z (data bdev) (out bdev))
    eq_refl Hl Hb Hd (conj eq_refl eq_refl)) as E. change (zlen []) with 0 in E. rewrite E. clear E.
  cbn [mbind option_bind rel_axis_seen abs_axis_seen data out app].
  assert (Hz : forall n, z !! n <> Some true) by (intros n Hn; by apply lookup_replicate_1 in Hn as [Hf _]).
  assert (Hbr : Forall (fun b => button_type b = EV_REL -> 0 <= code b < zlen z) (buttons pdata)) by (apply (Forall_impl _ _ _ Hb); by intros b [Hx _]).
  assert (Hba : Forall (fun b => button_type b = EV_ABS -> 0 <= code b < zlen z) (buttons pdata)) by (apply (Forall_impl _ _ _ Hb); by intros b [_ Hx]).
  rewrite (release_axes_spec gv EV_REL _ _ relbit z Hbr Hz Hr), (release_axes_spec gv EV_ABS _ _ absbit z Hba Hz Ha).
  cbn [mbind option_bind]. eexists. split; [done|]. split; [done|]. unfold emit. cbn [out]. by rewrite <- !app_assoc.
Qed.

(** C24. A poll returns, and is one step of the debounce machine of every button: the
    data of each button are those of its machine, and what is sent is what the
    machines report, in the order of the buttons, then exactly the axes that none of
    these reports moved, at rest, in the order of their codes, and the closing sync.
    So every axis of the device is reported in every poll.  The codes of buttons and
    axes are in the maps of the poll ([poll_pre]), which the probe does not ensure. *)
Theorem keypad_poll_refines hdf relbit absbit pdata gv bdev :
  poll_pre relbit absbit pdata bdev ->
  let bs := buttons pdata in let ds := data bdev in
  let rel := at_rest gv EV_REL bs ds relbit in let abs := at_rest gv EV_ABS bs ds absbit in
  exists bdev', gpio_keypad_poll hdf relbit absbit pdata gv bdev = Some bdev' /\
    data bdev' = (fun d => (debounce d (gv (gpiod d))).1) <$> ds /\
    out bdev' = out bdev ++ poll_effects hdf gv bs ds ++ rel ++ abs ++ [InputSync] /\
    (forall c, In c relbit -> exists v, In (InputEvent EV_REL c v) (poll_effects hdf gv bs ds ++ rel)) /\
    (forall c, In c absbit -> exists v, In (InputEvent EV_ABS c v) (poll_effects hdf gv bs ds ++ abs)).
Proof.
  intros Hpre bs ds rel abs. destruct (poll_spec hdf relbit absbit pdata gv bdev Hpre) as (bdev' & E & Hd & Ho).
  exists bdev'. do 3 (split; [done|]). split; intros c Hc; (apply axis_reported; [|done]); auto.
Qed.

(** ** Debouncing over several polls *)

Fixpoint polls (hdf : bool) (relbit absbit : list Z) (pdata : gpio_keys_platform_data)
    (gvs : list (Z -> Z)) (bdev : gpio_keypad_dev) : option gpio_keypad_dev :=
  match gvs with
  | [] => Some bdev
  | gv :: gvs => bdev ← gpio_keypad_poll hdf relbit absbit pdata gv bdev; polls hdf relbit absbit pdata gvs bdev
  end.

Lemma debounce_ok d g : bdata_ok d -> bdata_ok (debounce d g).1.
Proof. intros [? ?]. unfold debounce. repeat case_goal; split; simpl; lia. Qed.

(** The step of one button, and that the next poll can run. *)
Lemma poll_step hdf relbit absbit pdata gv bdev i d :
  poll_pre relbit absbit pdata bdev -> data bdev !! i = Some d ->
  exists bdev', gpio_keypad_poll hdf relbit absbit pdata gv bdev = Some bdev' /\
    poll_pre relbit absbit pdata bdev' /\ data bdev' !! i = Some (debounce d (gv (gpiod d))).1.
Proof.
  intros Hpre Hi. destruct (poll_spec hdf relbit absbit pdata gv bdev Hpre) as (bdev' & E & Hd & _).
  destruct Hpre as [Hl Hb Hds Hr Ha]. exists bdev'. split; [done|]. split; [split; try done|].
  - by rewrite Hd, length_fmap.
  - rewrite Hd. apply Forall_fmap. apply (Forall_impl _ _ _ Hds). intros. by apply debounce_ok.
  - by rewrite Hd, list_lookup_fmap, Hi.
Qed.

Lemma polls_locked hdf relbit absbit pdata gvs : forall bdev i d,
  poll_pre relbit absbit pdata bdev -> data bdev !! i = Some d ->
  count d + zlen gvs <= threshold d ->
  exists bdev', polls hdf relbit absbit pdata gvs bdev = Some bdev' /\ poll_pre relbit absbit pdata bdev' /\
    data bdev' !! i = Some (mk_bdata (gpiod d) (last_state d) (count d + zlen gvs) (threshold d)).
Proof.
  induction gvs as [|gv gvs IH]; intros bdev i d Hpre Hi Hc.
  - exists bdev. simpl. rewrite Z.add_0_r. by destruct d.
  - simpl length in Hc. destruct (poll_step hdf relbit absbit pdata gv bdev i d Hpre Hi) as (b1 & E & Hpre1 & H1).
    unfold debounce in H1. rewrite (proj2 (Z.ltb_lt _ _)) in H1 by lia. simpl in H1.
    destruct (IH b1 i _ Hpre1 H1) as (b2 & E2 & Hpre2 & H2); [simpl; lia|].
    exists b2. simpl. rewrite E. split; [done|]. split; [done|]. rewrite H2. simpl. do 2 f_equal. lia.
Qed.

(** A poll that changes a button locks it: for the next [threshold] polls its
    state stays whatever its line does, and the poll after them samples the line
    again. *)
Theorem keypad_change_locks hdf relbit absbit pdata gv0 bdev0 bdev i d0 d gvs gv :
  poll_pre relbit absbit pdata bdev0 ->
  data bdev0 !! i = Some d0 ->
  gpio_keypad_poll hdf relbit absbit pdata gv0 bdev0 = Some bdev ->
  data bdev !! i = Some d -> last_state d <> last_state d0 ->
  0 <= threshold d0 -> zlen gvs <= threshold d0 ->
  exists bdev1 bdev2 d1 d2,
    polls hdf relbit absbit pdata gvs bdev = Some bdev1 /\ data bdev1 !! i = Some d1 /\
    last_state d1 = last_state d /\
    gpio_keypad_poll hdf relbit absbit pdata gv bdev1 = Some bdev2 /\ data bdev2 !! i = Some d2 /\
    (zlen gvs = threshold d0 -> 0 <= gv (gpiod d) -> last_state d2 = gv (gpiod d)).
Proof.
  intros Hpre Hi E Hd Hne Ht Hlen.
  destruct (poll_step hdf relbit absbit pdata gv0 bdev0 i d0 Hpre Hi) as (b & E' & Hpre1 & H1).
  rewrite E in E'. injection E' as <-. rewrite Hd in H1. injection H1 as ->.
  assert (Hch : (debounce d0 (gv0 (gpiod d0))).1 = mk_bdata (gpiod d0) (gv0 (gpiod d0)) 0 (threshold d0)).
  { unfold debounce in *. repeat (case_hyp Hne; simpl in Hne; try done). }
  rewrite Hch in *.
  destruct (polls_locked hdf relbit absbit pdata gvs bdev i _ Hpre1 Hd) as (b1 & E1 & Hpre2 & H1); [simpl; lia|].
  destruct (poll_step hdf relbit absbit pdata gv b1 i _ Hpre2 H1) as (b2 & E2 & _ & H2).
  eexists b1, b2, _, _. split; [done|]. split; [done|]. split; [done|]. split; [done|]. split; [done|].
  intros Hfull Hg. simpl in *. unfold debounce. simpl. rewrite Hfull, Z.ltb_irrefl, (proj2 (Z.ltb_ge _ 0)) by done.
  destruct (Z.eqb_spec (gv (gpiod d0)) (gv0 (gpiod d0))) as [Eg|]; simpl; [by rewrite Eg|done].
Qed.

(** ** Probing *)

(** The first reading of a button. *)
Definition sampled (g : Z) (d : gpio_keys_button_data) : gpio_keys_button_data :=
  if g <? 0 then d else if g =? last_state d then d else mk_bdata (gpiod d) g 0 (threshold d).

Lemma check_state_data hdf gv bdev b i d :
  button_ok b -> dev_ok bdev -> aget (data bdev) i = Some d ->
  exists bdev', gpio_keypad_check_state hdf gv bdev b i = Some bdev' /\ dev_ok bdev' /\
    data bdev' = <[Z.to_nat i := sampled (gv (gpiod d)) d]> (data bdev).
Proof.
  intros Hb Hdev Hd. pose proof (aget_Some _ _ _ Hd) as Hi.
  assert (Hid : <[Z.to_nat i := d]> (data bdev) = data bdev).
  { apply list_insert_id. by rewrite <- aget_lookup by lia. }
  unfold gpio_keypad_check_state, sampled. rewrite Hd. cbn [mbind option_bind].
  destruct (gv (gpiod d) <? 0); [exists bdev; by rewrite Hid|].
  rewrite button_event_spec by done. cbn [mbind option_bind data].
  destruct Hdev as [Lr La].
  destruct (gv (gpiod d) =? last_state d); simpl.
  - eexists. split; [done|]. split; [split; simpl; by rewrite mark_length|]. by rewrite Hid.
  - rewrite aset_in by done. simpl. eexists. split; [done|].
    split; [split; case_goal; simpl; by rewrite mark_length|]. by case_goal.
Qed.

Lemma initial_states_spec gv bs : forall pre ds bdev,
  data bdev = pre ++ ds -> length ds = length bs -> Forall button_ok bs -> dev_ok bdev ->
  exists bdev', initial_states false gv bs (zlen pre) bdev = Some bdev' /\ dev_ok bdev' /\
    data bdev' = pre ++ ((fun d => sampled (gv (gpiod d)) d) <$> ds).
Proof.
  induction bs as [|b bs IH]; intros pre [|d ds] bdev Hd Hl Hb Hdev; try done; [by exists bdev|].
  apply Forall_cons_1 in Hb as [Hb Hbs]. simpl initial_states.
  destruct (check_state_data false gv bdev b (zlen pre) d Hb Hdev) as (b1 & -> & Hdev1 & H1).
  { rewrite aget_lookup, Nat2Z.id, Hd by lia. by apply list_lookup_middle. }
  cbn [mbind option_bind].
  destruct (IH (pre ++ [sampled (gv (gpiod d)) d]) ds b1) as (b2 & E & Hdev2 & H2).
  - rewrite H1, Hd, Nat2Z.id, insert_app_r_alt, Nat.sub_diag, <- app_assoc by lia. done.
  - simpl in Hl. lia.
  - done.
  - done.
  - exists b2. rewrite length_app in E. simpl in E. replace (Z.of_nat (length pre + 1)) with (zlen pre + 1) in E by lia.
    split; [done|]. split; [done|]. by rewrite H2, fmap_cons, <- app_assoc.
Qed.

Lemma probe_buttons_data e pdata bs : forall i ds es,
  probe_buttons e pdata bs i = inr (ds, es) ->
  Forall2 (fun b d => wakeup b = false /\ last_state d = -1 /\ count d = 0 /\
    threshold d = debounce_threshold b (poll_interval pdata)) bs ds.
Proof.
  induction bs as [|b bs IH]; intros i ds es H; simpl in H; [inv_some; constructor|].
  destruct (wakeup b) eqn:Ew; [done|]. destruct (probe_gpiod e b i) as [|g]; [done|].
  destruct (probe_buttons e pdata bs (i + 1)) as [|[ds' es']] eqn:E; [done|]. inv_some.
  constructor; [done|eauto].
Qed.

(** The lockout lasts the debounce interval, and less than a poll longer. *)
Lemma debounce_threshold_spec b p :
  0 < p -> 0 <= debounce_interval b -> debounce_interval b + p <= 2 ^ 31 ->
  debounce_interval b <= debounce_threshold b p * p < debounce_interval b + p.
Proof.
  intros Hp Hd Hs. unfold debounce_threshold. rewrite (u32_small (debounce_interval b)) by lia.
  rewrite u32_small by lia.
  pose proof (Z.div_mod (debounce_interval b + p - 1) p ltac:(lia)) as E.
  pose proof (Z.mod_pos_bound (debounce_interval b + p - 1) p Hp) as B.
  set (q := (debounce_interval b + p - 1) / p) in *.
  rewrite s32_small by nia. nia.
Qed.

Lemma probed_data e ret pdata bdev :
  gpio_keypad_probe e = Some (ret, Some (pdata, bdev)) -> Forall button_ok (buttons pdata) ->
  exists ds,
    Forall2 (fun b d => wakeup b = false /\ last_state d = -1 /\ count d = 0 /\
      threshold d = debounce_threshold b (poll_interval pdata)) (buttons pdata) ds /\
    data bdev = (fun d => sampled (gpio_value_at_probe e (gpiod d)) d) <$> ds.
Proof.
  unfold gpio_keypad_probe. intros H Hb.
  destruct (match platdata e with Some p => inr p | None => gpio_keypad_get_devtree_pdata e end) as [|g]; [done|].
  do 3 (case_hyp H; [done|]).
  destruct (probe_buttons e g (buttons g) 0) as [|[ds es]] eqn:Ep; [done|].
  do 2 (case_hyp H; [done|]).
  destruct (initial_states false _ _ _ _) as [b1|] eqn:Ei; [|done]. cbn [mbind option_bind] in H.
  destruct (probe_hdf e (emit b1 [InputSync])) as [r b2] eqn:Eh. inv_some.
  pose proof (probe_buttons_data _ _ _ _ _ _ Ep) as H2. exists ds. split; [done|].
  destruct (initial_states_spec (gpio_value_at_probe e) (buttons pdata) [] ds
    (mk_dev (replicate (Z.to_nat REL_BITS) false) (replicate (Z.to_nat ABS_BITS) false) ds
       (SetEvbit EV_KEY :: (if rep pdata then [SetEvbit EV_REP] else []) ++ es))) as (b1' & Eb1 & _ & Hd1).
  - done.
  - symmetry. by eapply Forall2_length.
  - done.
  - done.
  - change (zlen []) with 0 in Eb1. rewrite Ei in Eb1. injection Eb1 as <-.
    simpl in Hd1. rewrite <- Hd1. unfold probe_hdf in Eh. repeat case_hyp Eh; inv_some; done.
Qed.

(** A device the probe has registered has one datum per button, none of which
    wakes the system; the state of each is what its line read, or -1 when the
    reading failed, and its lockout covers the debounce interval and ends within
    a poll of it. *)
Theorem keypad_probe_ready e ret pdata bdev :
  gpio_keypad_probe e = Some (ret, Some (pdata, bdev)) ->
  Forall button_ok (buttons pdata) -> 0 < poll_interval pdata ->
  Forall (fun b => 0 <= debounce_interval b /\ debounce_interval b + poll_interval pdata <= 2 ^ 31) (buttons pdata) ->
  Forall2 (fun b d => wakeup b = false /\
      last_state d = (if gpio_value_at_probe e (gpiod d) <? 0 then -1 else gpio_value_at_probe e (gpiod d)) /\
      debounce_interval b <= threshold d * poll_interval pdata < debounce_interval b + poll_interval pdata)
    (buttons pdata) (data bdev).
Proof.
  intros H Hb Hp Hdb.
  destruct (probed_data e ret pdata bdev H Hb) as (ds & Hds & ->).
  apply Forall2_fmap_r. revert Hdb. clear -Hds Hp. induction Hds as [|b d bs ds (Hw & Hl & Hc & Ht) _ IH]; intros Hdb; [constructor|].
  apply Forall_cons_1 in Hdb as [[Hb1 Hb2] Hdb]. constructor; [|by apply IH].
  assert (Eg : gpiod (sampled (gpio_value_at_probe e (gpiod d)) d) = gpiod d) by (unfold sampled; repeat case_goal; done).
  assert (Et : threshold (sampled (gpio_value_at_probe e (gpiod d)) d) = threshold d) by (unfold sampled; repeat case_goal; done).
  unfold compose. rewrite Eg, Et, Ht. split; [done|]. split; [|by apply debounce_threshold_spec].
  unfold sampled. rewrite Hl. repeat case_goal; b2p; simpl; congruence || lia.
Qed.

Lemma Forall2_lookup_both {A B} (P : A -> B -> Prop) l k i x y :
  Forall2 P l k -> l !! i = Some x -> k !! i = Some y -> P x y.
Proof. intros H Hx Hy. by eapply Forall2_lookup_lr. Qed.

Lemma poll_effects_button hdf gv bs : forall ds i b d,
  bs !! i = Some b -> ds !! i = Some d ->
  forall x, In x (button_effects hdf b d (gv (gpiod d))) -> In x (poll_effects hdf gv bs ds).
Proof.
  induction bs as [|b0 bs IH]; intros [|d0 ds] [|i] b d Hb Hd x Hx; try done; simpl in *; apply in_or_app.
  - simplify_eq. by left.
  - right. by eapply IH.
Qed.

(** A key whose line could not be read while probing is not left alone: until
    its lockout is over every poll reports the value -1 for it, which the input
    core takes for a press. *)
Theorem keypad_failed_read_reports hdf relbit absbit e ret pdata bdev gv i b d :
  gpio_keypad_probe e = Some (ret, Some (pdata, bdev)) ->
  poll_pre relbit absbit pdata bdev ->
  buttons pdata !! i = Some b -> data bdev !! i = Some d ->
  gpio_value_at_probe e (gpiod d) < 0 -> button_type b = EV_KEY -> 0 < threshold d ->
  exists bdev', gpio_keypad_poll hdf relbit absbit pdata gv bdev = Some bdev' /\
    In (InputEvent EV_KEY (code b) (-1)) (skipn (length (out bdev)) (out bdev')).
Proof.
  intros H Hpre Hb Hd Hg Hty Ht.
  destruct (probed_data e ret pdata bdev H (pre_buttons _ _ _ _ Hpre)) as (ds & Hds & Ed).
  rewrite Ed, list_lookup_fmap in Hd. destruct (ds !! i) as [d0|] eqn:E0; [|done]. simpl in Hd. injection Hd as Hd.
  destruct (Forall2_lookup_both _ _ _ _ _ _ Hds Hb E0) as (_ & Hl & Hc & _).
  assert (d = d0) as ->.
  { rewrite <- Hd. unfold sampled. destruct (Z.ltb_spec (gpio_value_at_probe e (gpiod d0)) 0); [done|].
    exfalso. rewrite <- Hd in Hg. unfold sampled in Hg. rewrite (proj2 (Z.ltb_ge _ 0)) in Hg by done.
    case_hyp Hg; simpl in Hg; lia. }
  destruct (poll_spec hdf relbit absbit pdata gv bdev Hpre) as (bdev' & E & _ & Ho).
  exists bdev'. split; [done|]. rewrite Ho. change (skipn ?n ?l) with (drop n l). rewrite drop_app_length.
  apply in_or_app. left. apply (poll_effects_button hdf gv (buttons pdata) (data bdev) i b d0); [done| |].
  - by rewrite Ed, list_lookup_fmap, E0; simpl; rewrite Hd.
  - unfold button_effects, debounce. rewrite Hc, (proj2 (Z.ltb_lt 0 _)) by done. simpl.
    unfold report_effects. rewrite Hty, Hl. by left.
Qed.

(** The codes of relative and absolute axes come from the device tree unchecked:
    a pressed button with a code beyond the map of its axis type is written
    outside the map. *)
Theorem keypad_axis_overrun bdev b s :
  dev_ok bdev -> button_type b = EV_REL \/ button_type b = EV_ABS -> 64 <= code b -> s <> 0 ->
  gpio_keys_button_event bdev b s = None.
Proof.
  intros [Lr La] Ht Hc Hs. unfold gpio_keys_button_event.
  assert (Hset : forall l : list bool, length l = 64%nat -> aset l (code b) true = None).
  { intros l Hl. unfold aset. rewrite (proj2 (Z.ltb_ge (code b) _)) by lia. by rewrite andb_false_r. }
  assert (Hcs : c_true s = true) by (unfold c_true; bsolve; done).
  rewrite Hcs. destruct Ht as [-> | ->]; simpl; by rewrite Hset.
Qed.

(** ** Axis ranges *)

Lemma abs_range_spec bs c : forall min max min' max',
  abs_range bs c min max = (min', max') ->
  min' <= min /\ max <= max' /\
  Forall (fun b => btype b = EV_ABS -> code b = c -> min' <= value b <= max') bs /\
  (min' = min \/ exists b, In b bs /\ btype b = EV_ABS /\ code b = c /\ min' = value b) /\
  (max' = max \/ exists b, In b bs /\ btype b = EV_ABS /\ code b = c /\ max' = value b).
Proof.
  induction bs as [|b bs IH]; intros min max min' max' H; simpl in H.
  - inv_some. split; [lia|]. split; [lia|]. split; [constructor|]. by split; left.
  - destruct (negb (btype b =? EV_ABS) || negb (code b =? c)) eqn:E.
    + destruct (IH _ _ _ _ H) as (H1 & H2 & H3 & H4 & H5). split; [done|]. split; [done|].
      split; [apply Forall_cons_2; [|done]|].
      * intros Eb Ec. apply orb_true_iff in E as [?|?]; b2p; congruence.
      * split; [destruct H4 as [?|(x & ? & ?)]|destruct H5 as [?|(x & ? & ?)]]; auto; right; exists x; split; try right; done.
    + destruct (IH _ _ _ _ H) as (H1 & H2 & H3 & H4 & H5). b2p.
      split; [case_hyp H1; b2p; lia|]. split; [case_hyp H2; b2p; lia|].
      split; [apply Forall_cons_2; [|done]; intros _ _; split; [case_hyp H1|case_hyp H2]; b2p; lia|].
      split.
      * destruct H4 as [->|(x & ? & ?)]; [|right; exists x; split; [by right|done]].
        case_goal; [right; exists b; split; [by left|done]|by left].
      * destruct H5 as [->|(x & ? & ?)]; [|right; exists x; split; [by right|done]].
        case_goal; [right; exists b; split; [by left|done]|by left].
Qed.

(** The range set for an absolute axis is the least one that contains 0 and the
    value of every button of the axis. *)
Theorem keypad_abs_params_cover pdata c : exists min max,
  gpio_keypad_set_abs_params pdata c = SetAbsParams c min max /\ min <= 0 <= max /\
  Forall (fun b => btype b = EV_ABS -> code b = c -> min <= value b <= max) (buttons pdata) /\
  (min = 0 \/ exists b, In b (buttons pdata) /\ btype b = EV_ABS /\ code b = c /\ min = value b) /\
  (max = 0 \/ exists b, In b (buttons pdata) /\ btype b = EV_ABS /\ code b = c /\ max = value b).
Proof.
  unfold gpio_keypad_set_abs_params. destruct (abs_range (buttons pdata) c 0 0) as [min max] eqn:E.
  exists min, max. split; [done|]. destruct (abs_range_spec _ _ _ _ _ _ E) as (? & ? & ? & ? & ?).
  split; [lia|done].
Qed.

(** ** Witnesses: a power key on line 7 *)

Definition power_env (line : Z) : probe_env :=
  mk_env None [mk_child (Some KEY_POWER) None None None false false (Some 20)] false (Some 5) None
    true true true (fun _ => inr 7) (fun _ => true) (fun _ => 0) (fun _ => 7) 0 0 (fun _ => line) false true true.

Definition power_pdata : gpio_keys_platform_data :=
  mk_pdata [mk_button KEY_POWER 0 false None EV_KEY false 20 1] 5 false None false false.

Definition power_dev (line : Z) : gpio_keypad_dev :=
  default (mk_dev [] [] [] []) (r ← gpio_keypad_probe (power_env line); d ← r.2; Some d.2).

Lemma power_probe line :
  line = 0 \/ line = - EINVAL ->
  gpio_keypad_probe (power_env line) = Some (0, Some (power_pdata, power_dev line)).
Proof. intros [-> | ->]; reflexivity. Qed.

Lemma power_pre line : line = 0 \/ line = - EINVAL -> poll_pre [] [] power_pdata (power_dev line).
Proof. intros [-> | ->]; split; repeat constructor; done. Qed.

Lemma keypad_poll_refines_witness : exists bdev',
  gpio_keypad_poll false [3] [4] power_pdata (fun _ => 1) (power_dev 0) = Some bdev' /\
  out bdev' = out (power_dev 0) ++ [InputEvent EV_KEY KEY_POWER 0; InputSync; InputEvent EV_REL 3 0; InputEvent EV_ABS 4 0; InputSync].
Proof.
  destruct (power_pre 0 (or_introl eq_refl)) as [P1 P2 P3 _ _].
  destruct (keypad_poll_refines false [3] [4] power_pdata (fun _ => 1) (power_dev 0)) as (bdev' & H1 & _ & H2 & _).
  { split; [exact P1|exact P2|exact P3|constructor; [done|constructor]|constructor; [done|constructor]]. }
  exists bdev'. split; [exact H1|exact H2].
Defined.

(** The line rises at the poll after the lockout of the probe; the three polls
    with a falling line do not change the key. *)
Lemma keypad_change_locks_witness : exists bdev0 bdev bdev1 bdev2 d1 d2,
  polls false [] [] power_pdata (replicate 4 (fun _ => 1)) (power_dev 0) = Some bdev0 /\
  gpio_keypad_poll false [] [] power_pdata (fun _ => 1) bdev0 = Some bdev /\
  polls false [] [] power_pdata (replicate 3 (fun _ => 0)) bdev = Some bdev1 /\
  data bdev1 !! 0%nat = Some d1 /\ last_state d1 = 1 /\
  gpio_keypad_poll false [] [] power_pdata (fun _ => 0) bdev1 = Some bdev2 /\ data bdev2 !! 0%nat = Some d2.
Proof.
  destruct (polls false [] [] power_pdata (replicate 4 (fun _ => 1)) (power_dev 0)) as [bdev0|] eqn:E0; [|discriminate E0].
  destruct (gpio_keypad_poll false [] [] power_pdata (fun _ => 1) bdev0) as [bdev|] eqn:E1;
    [|vm_compute in E0; injection E0 as <-; discriminate E1].
  assert (E0' := E0). vm_compute in E0'. injection E0' as E0'.
  assert (E1' := E1). rewrite <- E0' in E1'. vm_compute in E1'. injection E1' as E1'.
  destruct (keypad_change_locks false [] [] power_pdata (fun _ => 1) bdev0 bdev 0 (mk_bdata 7 0 4 4) (mk_bdata 7 1 0 4)
    (replicate 3 (fun _ => 0)) (fun _ => 0)) as (bdev1 & bdev2 & d1 & d2 & H1 & H2 & H3 & H4 & H5 & _).
  - rewrite <- E0'. split; repeat constructor; done.
  - rewrite <- E0'. reflexivity.
  - exact E1.
  - rewrite <- E1'. reflexivity.
  - discriminate.
  - simpl. lia.
  - simpl. lia.
  - exists bdev0, bdev, bdev1, bdev2, d1, d2. by repeat split.
Defined.

Lemma keypad_probe_ready_witness :
  Forall2 (fun b d => wakeup b = false /\
      last_state d = (if gpio_value_at_probe (power_env 0) (gpiod d) <? 0 then -1
                      else gpio_value_at_probe (power_env 0) (gpiod d)) /\
      debounce_interval b <= threshold d * 5 < debounce_interval b + 5)
    (buttons power_pdata) (data (power_dev 0)).
Proof.
  apply (keypad_probe_ready (power_env 0) 0 power_pdata (power_dev 0)).
  - reflexivity.
  - repeat constructor; done.
  - reflexivity.
  - repeat constructor; done.
Defined.

Lemma keypad_failed_read_reports_witness : exists bdev',
  gpio_keypad_poll false [] [] power_pdata (fun _ => 0) (power_dev (- EINVAL)) = Some bdev' /\
  In (InputEvent EV_KEY KEY_POWER (-1)) (skipn (length (out (power_dev (- EINVAL)))) (out bdev')).
Proof.
  apply (keypad_failed_read_reports false [] [] (power_env (- EINVAL)) 0 power_pdata (power_dev (- EINVAL)) (fun _ => 0)
    0 (mk_button KEY_POWER 0 false None EV_KEY false 20 1) (mk_bdata 7 (-1) 0 4)).
  - reflexivity.
  - exact (power_pre (- EINVAL) (or_intror eq_refl)).
  - reflexivity.
  - reflexivity.
  - reflexivity.
  - reflexivity.
  - reflexivity.
Defined.

Lemma keypad_axis_overrun_witness :
  gpio_keys_button_event (mk_dev (replicate 64 false) (replicate 64 false) [] [])
    (mk_button 64 0 false None EV_ABS false 5 1) 1 = None.
Proof. apply keypad_axis_overrun; [by split|by right|simpl; lia|lia]. Defined.
