(* ===== verification/Ge2dReg.v ===== *)
(** * The registers of the 2D engine (ge2d/ge2d_io.h, ge2d_reg.h)

    Reads, writes and bit fields of registers over the mapping that the first access
    makes, and sequences of them as values: the functions of ge2d_hw.c that program
    the engine are lists of [reg_op].  What such a list leaves in each bit of each
    register is [last_bit]. *)

From stdpp Require Import base numbers list option gmap.
From S2P Require Import Prelude.

(** ** Register numbers *)

Definition GE2D_GEN_CTRL0 : Z := 0x18a0.
Definition GE2D_GEN_CTRL1 : Z := 0x18a1.
Definition GE2D_GEN_CTRL2 : Z := 0x18a2.
Definition GE2D_CMD_CTRL : Z := 0x18a3.
Definition GE2D_STATUS0 : Z := 0x18a4.
Definition GE2D_STATUS1 : Z := 0x18a5.
Definition GE2D_SRC1_DEF_COLOR : Z := 0x18a6.
Definition GE2D_SRC1_CLIPX_START_END : Z := 0x18a7.
Definition GE2D_SRC1_CLIPY_START_END : Z := 0x18a8.
Definition GE2D_SRC1_CANVAS : Z := 0x18a9.
Definition GE2D_SRC1_X_START_END : Z := 0x18aa.
Definition GE2D_SRC1_Y_START_END : Z := 0x18ab.
Definition GE2D_SRC1_FMT_CTRL : Z := 0x18ae.
Definition GE2D_SRC2_DEF_COLOR : Z := 0x18af.
Definition GE2D_SRC2_CLIPX_START_END : Z := 0x18b0.
Definition GE2D_SRC2_CLIPY_START_END : Z := 0x18b1.
Definition GE2D_SRC2_X_START_END : Z := 0x18b2.
Definition GE2D_SRC2_Y_START_END : Z := 0x18b3.
Definition GE2D_DST_CLIPX_START_END : Z := 0x18b4.
Definition GE2D_DST_CLIPY_START_END : Z := 0x18b5.
Definition GE2D_DST_X_START_END : Z := 0x18b6.
Definition GE2D_DST_Y_START_END : Z := 0x18b7.
Definition GE2D_SRC2_DST_CANVAS : Z := 0x18b8.
Definition GE2D_VSC_START_PHASE_STEP : Z := 0x18b9.
Definition GE2D_VSC_PHASE_SLOPE : Z := 0x18ba.
Definition GE2D_VSC_INI_CTRL : Z := 0x18bb.
Definition GE2D_HSC_START_PHASE_STEP : Z := 0x18bc.
Definition GE2D_HSC_PHASE_SLOPE : Z := 0x18bd.
Definition GE2D_HSC_INI_CTRL : Z := 0x18be.
Definition GE2D_HSC_ADV_CTRL : Z := 0x18bf.
Definition GE2D_SC_MISC_CTRL : Z := 0x18c0.
Definition GE2D_MATRIX_PRE_OFFSET : Z := 0x18c5.
Definition GE2D_MATRIX_COEF00_01 : Z := 0x18c6.
Definition GE2D_MATRIX_COEF02_10 : Z := 0x18c7.
Definition GE2D_MATRIX_COEF11_12 : Z := 0x18c8.
Definition GE2D_MATRIX_COEF20_21 : Z := 0x18c9.
Definition GE2D_MATRIX_COEF22_CTRL : Z := 0x18ca.
Definition GE2D_MATRIX_OFFSET : Z := 0x18cb.
Definition GE2D_ALU_OP_CTRL : Z := 0x18cc.
Definition GE2D_ALU_CONST_COLOR : Z := 0x18cd.
Definition GE2D_SRC1_KEY : Z := 0x18ce.
Definition GE2D_SRC1_KEY_MASK : Z := 0x18cf.
Definition GE2D_SRC2_KEY : Z := 0x18d0.
Definition GE2D_SRC2_KEY_MASK : Z := 0x18d1.
Definition GE2D_DST_BITMASK : Z := 0x18d2.
Definition GE2D_DP_ONOFF_CTRL : Z := 0x18d3.
Definition GE2D_SCALE_COEF_IDX : Z := 0x18d4.
Definition GE2D_SCALE_COEF : Z := 0x18d5.
Definition GE2D_SRC_OUTSIDE_ALPHA : Z := 0x18d6.
Definition GE2D_ANTIFLICK_CTRL0 : Z := 0x18d8.
Definition GE2D_ANTIFLICK_CTRL1 : Z := 0x18d9.
Definition GE2D_ANTIFLICK_COLOR_FILT0 : Z := 0x18da.
Definition GE2D_ANTIFLICK_COLOR_FILT1 : Z := 0x18db.
Definition GE2D_ANTIFLICK_COLOR_FILT2 : Z := 0x18dc.
Definition GE2D_ANTIFLICK_COLOR_FILT3 : Z := 0x18dd.
Definition GE2D_ANTIFLICK_ALPHA_FILT0 : Z := 0x18de.
Definition GE2D_ANTIFLICK_ALPHA_FILT1 : Z := 0x18df.
Definition GE2D_ANTIFLICK_ALPHA_FILT2 : Z := 0x18e0.
Definition GE2D_ANTIFLICK_ALPHA_FILT3 : Z := 0x18e1.
Definition GE2D_GEN_CTRL3 : Z := 0x18e8.
Definition GE2D_GEN_CTRL4 : Z := 0x18ea.
Definition GE2D_DST1_BADDR_CTRL : Z := 0x18f1.
Definition GE2D_DST1_STRIDE_CTRL : Z := 0x18f2.
Definition GE2D_GEN_CTRL5 : Z := 0x18f1.

Definition MESON_CPU_MAJOR_ID_GXBB : Z := 0x1F.

(** ** Access *)

(** The bus: registers as the CPU reads them, through the old register bus or the
    mapping.  [ioremap_ok] is the result of mapping the default region,
    [coef_writes] the writes that the coefficient memory behind its two registers
    has seen. *)
Class GeBus (H : Type) := {
  bus_read : Z -> H -> Z;
  bus_write : Z -> Z -> H -> H;
  coef_writes : H -> list (Z * Z);
  ioremap_ok : bool;
  get_cpu_type : Z }.

(** Registers that do not keep what is written: the status, the start of a command
    and the port of the coefficient memory. *)
Definition volatile (r : Z) : bool :=
  (r =? GE2D_STATUS0) || (r =? GE2D_STATUS1) || (r =? GE2D_CMD_CTRL) || (r =? GE2D_SCALE_COEF_IDX) || (r =? GE2D_SCALE_COEF).
Definition coef_port (r : Z) : bool := (r =? GE2D_SCALE_COEF_IDX) || (r =? GE2D_SCALE_COEF).

Class GeBusLaws (H : Type) `{GeBus H} := {
  read_write h r v r' : volatile r' = false -> bus_read r' (bus_write r v h) = if r =? r' then u32 v else bus_read r' h;
  coef_write h r v : coef_writes (bus_write r v h) = if coef_port r then coef_writes h ++ [(r, v)] else coef_writes h }.

Record io_s (H : Type) := mk_io {
  map_flag : bool; (* reg_map.flag *)
  ge2d_reg_map : bool; (* ge2d_reg_map is not NULL *)
  ge2d_dump_reg_enable : Z; ge2d_dump_reg_cnt : Z;
  hw : H }.
Arguments mk_io {H}.
Arguments map_flag {H}.
Arguments ge2d_reg_map {H}.
Arguments ge2d_dump_reg_enable {H}.
Arguments ge2d_dump_reg_cnt {H}.
Arguments hw {H}.

Inductive reg_op :=
| Wr (reg val : Z)
| Bits (reg val start len : Z).

Section Access.
Context {H : Type} `{GeBus H}.
Implicit Types io : io_s H.

Definition check_map_flag io : bool * io_s H :=
  if map_flag io then (true, io)
  else
    let flag := ge2d_reg_map io || ioremap_ok in
    (flag, mk_io flag (ge2d_reg_map io) (ge2d_dump_reg_enable io) (ge2d_dump_reg_cnt io) (hw io)).

Definition ge2d_reg_read (reg : Z) io : Z * io_s H :=
  if get_cpu_type <? MESON_CPU_MAJOR_ID_GXBB then (bus_read reg (hw io), io)
  else let '(ok, io) := check_map_flag io in (if ok then bus_read reg (hw io) else 0, io).

Definition ge2d_reg_write (reg val : Z) io : io_s H :=
  if get_cpu_type <? MESON_CPU_MAJOR_ID_GXBB then
    mk_io (map_flag io) (ge2d_reg_map io) (ge2d_dump_reg_enable io) (ge2d_dump_reg_cnt io) (bus_write reg (u32 val) (hw io))
  else
  let '(ok, io) := check_map_flag io in
  let cnt := if c_true (ge2d_dump_reg_enable io) && (0 <? ge2d_dump_reg_cnt io) then ge2d_dump_reg_cnt io - 1 else ge2d_dump_reg_cnt io in
  mk_io (map_flag io) (ge2d_reg_map io) (ge2d_dump_reg_enable io) cnt (if ok then bus_write reg (u32 val) (hw io) else hw io).

Definition ge2d_reg_get_bits (reg start len : Z) io : Z * io_s H :=
  let '(v, io) := ge2d_reg_read reg io in (Z.land (Z.shiftr v start) (Z.shiftl 1 len - 1), io).

Definition set_field (old value start len : Z) : Z :=
  Z.lor (Z.land old (Z.lnot (Z.shiftl (Z.shiftl 1 len - 1) start))) (Z.shiftl (Z.land value (Z.shiftl 1 len - 1)) start).

Definition ge2d_reg_set_bits (reg value start len : Z) io : io_s H :=
  let '(v, io) := ge2d_reg_read reg io in ge2d_reg_write reg (set_field v value start len) io.

Definition run_op (o : reg_op) io : io_s H :=
  match o with
  | Wr r v => ge2d_reg_write r v io
  | Bits r v s n => ge2d_reg_set_bits r v s n io
  end.
Definition run_ops (l : list reg_op) io : io_s H := foldl (fun io o => run_op o io) io l.
End Access.

(** ** What a sequence leaves in a bit *)

Definition op_bit (o : reg_op) (r b : Z) : option bool :=
  match o with
  | Wr r' v => if r' =? r then Some (Z.testbit (u32 v) b) else None
  | Bits r' v s n => if (r' =? r) && (s <=? b) && (b <? s + n) then Some (Z.testbit v (b - s)) else None
  end.
Definition last_bit (l : list reg_op) (r b : Z) : option bool :=
  foldl (fun acc o => from_option Some acc (op_bit o r b)) None l.

(** A field lies in its register. *)
Definition op_sane (o : reg_op) : bool :=
  match o with Wr _ _ => true | Bits _ _ s n => (0 <=? s) && (0 <=? n) && (s + n <=? 32) end.

(** The fields that a list of operations writes, without the values. *)
Definition op_field (o : reg_op) : Z * Z * Z :=
  match o with Wr r _ => (r, 0, 32) | Bits r _ s n => (r, s, n) end.
Definition in_field (f : Z * Z * Z) (r b : Z) : bool := (f.1.1 =? r) && (f.1.2 <=? b) && (b <? f.1.2 + f.2).
Definition in_fields (fs : list (Z * Z * Z)) (r b : Z) : bool := existsb (fun f => in_field f r b) fs.
Definition fields_apart (f g : Z * Z * Z) : bool :=
  negb (f.1.1 =? g.1.1) || (f.1.2 + f.2 <=? g.1.2) || (g.1.2 + g.2 <=? f.1.2).
Definition all_apart (fs gs : list (Z * Z * Z)) : bool := forallb (fun f => forallb (fields_apart f) gs) fs.

Lemma is_Some_if {A} (c : bool) (x : A) : is_Some (if c then Some x else None) <-> c = true.
Proof. destruct c; split; intros Hs; [done|by exists x|by destruct Hs|done]. Qed.
Lemma op_bit_in_field o r b : 0 <= b < 32 -> is_Some (op_bit o r b) <-> in_field (op_field o) r b = true.
Proof.
  intros Hb. destruct o as [r' v|r' v s n]; unfold in_field; cbn [op_bit op_field fst snd]; rewrite is_Some_if; [|done].
  destruct (r' =? r); [|done]. rewrite (proj2 (Z.leb_le 0 b)), (proj2 (Z.ltb_lt b (0 + 32))) by lia. done.
Qed.

Lemma last_bit_snoc l o r b : last_bit (l ++ [o]) r b = from_option Some (last_bit l r b) (op_bit o r b).
Proof. unfold last_bit. by rewrite foldl_app. Qed.
Lemma last_bit_app l l' r b : last_bit (l ++ l') r b = from_option Some (last_bit l r b) (last_bit l' r b).
Proof.
  induction l' as [|o l' IH] using rev_ind; [by rewrite app_nil_r|]. rewrite app_assoc, !last_bit_snoc, IH.
  by destruct (op_bit o r b).
Qed.

Lemma last_bit_field l r b : 0 <= b < 32 -> is_Some (last_bit l r b) <-> in_fields (op_field <$> l) r b = true.
Proof.
  intros Hb. induction l as [|o l IH] using rev_ind; [split; [intros [? [=]]|done]|].
  rewrite last_bit_snoc, fmap_app. unfold in_fields in *. rewrite existsb_app, orb_true_iff, <- IH. cbn [existsb fmap list_fmap].
  rewrite orb_false_r. destruct (op_bit o r b) as [v|] eqn:E; cbn [from_option].
  - split; [|by eexists]. intros _. right. apply op_bit_in_field; [done|]. by rewrite E.
  - cbn. split; [auto|]. intros [?|Hf]; [done|]. apply op_bit_in_field in Hf; [|done]. rewrite E in Hf. by destruct Hf.
Qed.

Lemma all_apart_spec fs gs r b : all_apart fs gs = true -> in_fields fs r b = true -> in_fields gs r b = false.
Proof.
  intros Ha Hf. apply not_true_is_false. intros Hg. unfold in_fields in *. apply existsb_exists in Hf as (f & Hf & Ef).
  apply existsb_exists in Hg as (g & Hg & Eg). unfold all_apart in Ha. rewrite forallb_forall in Ha. specialize (Ha f Hf).
  rewrite forallb_forall in Ha. specialize (Ha g Hg). unfold fields_apart, in_field in *. b2p. lia.
Qed.

(** Fields that are all in a list of fields. *)
Definition field_within (f g : Z * Z * Z) : bool := (f.1.1 =? g.1.1) && (g.1.2 <=? f.1.2) && (f.1.2 + f.2 <=? g.1.2 + g.2).
Definition all_within (fs gs : list (Z * Z * Z)) : bool := forallb (fun f => existsb (field_within f) gs) fs.
Lemma all_within_spec fs gs r b : all_within fs gs = true -> in_fields fs r b = true -> in_fields gs r b = true.
Proof.
  intros Ha Hf. unfold in_fields in *. apply existsb_exists in Hf as (f & Hf & Ef). unfold all_within in Ha.
  rewrite forallb_forall in Ha. specialize (Ha f Hf). apply existsb_exists in Ha as (g & Hg & Eg). apply existsb_exists. exists g.
  split; [done|]. unfold field_within, in_field in *. b2p. bsolve.
Qed.

Section Facts.
Context {H : Type} `{GeBusLaws H}.
Implicit Types io : io_s H.

(** The registers are mapped, or will be by the next access. *)
Definition ready io : Prop :=
  (get_cpu_type <? MESON_CPU_MAJOR_ID_GXBB) || map_flag io || ge2d_reg_map io || ioremap_ok = true.

Definition reg_bit io (r b : Z) : bool := Z.testbit (bus_read r (hw io)) b.

Lemma reg_read_ready r io : ready io -> exists io', ge2d_reg_read r io = (bus_read r (hw io), io') /\ hw io' = hw io /\ ready io'.
Proof.
  intros Hr. unfold ready in Hr. unfold ge2d_reg_read, check_map_flag. destruct (get_cpu_type <? MESON_CPU_MAJOR_ID_GXBB) eqn:Ec.
  - exists io. split_and!; [done..|]. unfold ready. by rewrite Ec.
  - destruct (map_flag io) eqn:Ef.
    + exists io. split_and!; [done..|]. unfold ready. by rewrite Ec, Ef.
    + cbn [orb] in Hr. rewrite Hr. eexists. split_and!; [done..|]. unfold ready. cbn. by rewrite orb_true_r.
Qed.

Lemma reg_write_ready r v io : ready io ->
  hw (ge2d_reg_write r v io) = bus_write r (u32 v) (hw io) /\ ready (ge2d_reg_write r v io).
Proof.
  intros Hr. unfold ready in Hr. unfold ge2d_reg_write, check_map_flag, ready. destruct (get_cpu_type <? MESON_CPU_MAJOR_ID_GXBB) eqn:Ec; [done|].
  destruct (map_flag io) eqn:Ef; cbn.
  - by rewrite Ef.
  - cbn [orb] in Hr. rewrite Hr. by split.
Qed.

Lemma set_field_bit old v s n b : 0 <= s -> 0 <= n -> s + n <= 32 -> 0 <= b < 32 ->
  Z.testbit (u32 (set_field old v s n)) b = if (s <=? b) && (b <? s + n) then Z.testbit v (b - s) else Z.testbit old b.
Proof.
  intros Hs Hn Hsn Hb. unfold u32. rewrite Z.mod_pow2_bits_low by lia. unfold set_field. rewrite Z.lor_spec, Z.land_spec, Z.lnot_spec by lia.
  rewrite !Z.shiftl_spec, Z.land_spec by lia. change (Z.shiftl 1 n - 1) with (Z.pred (Z.shiftl 1 n)).
  replace (Z.pred (Z.shiftl 1 n)) with (Z.ones n) by (by rewrite Z.ones_equiv, Z.shiftl_1_l).
  destruct (Z.leb_spec s b), (Z.ltb_spec b (s + n)); cbn [andb].
  - rewrite Z.ones_spec_low by lia. cbn. by rewrite andb_false_r, andb_true_r.
  - rewrite Z.ones_spec_high by lia. cbn. by rewrite andb_true_r, andb_false_r, orb_false_r.
  - rewrite (Z.testbit_neg_r (Z.ones n)), (Z.testbit_neg_r v) by lia. cbn. by rewrite andb_true_r, orb_false_r.
  - rewrite (Z.testbit_neg_r (Z.ones n)), (Z.testbit_neg_r v) by lia. cbn. by rewrite andb_true_r, orb_false_r.
Qed.

Lemma u32_u32 v : u32 (u32 v) = u32 v.
Proof. unfold u32. by rewrite Zmod_mod. Qed.
Lemma run_op_bit o io r b : ready io -> op_sane o = true -> volatile r = false -> 0 <= b < 32 ->
  reg_bit (run_op o io) r b = default (reg_bit io r b) (op_bit o r b) /\ ready (run_op o io).
Proof.
  intros Hr Ho Hv Hb. unfold reg_bit. destruct o as [r' v|r' v s n]; cbn [run_op op_bit].
  - destruct (reg_write_ready r' v io Hr) as [-> Hr']. split; [|done]. rewrite read_write, u32_u32 by done. by case_goal.
  - unfold ge2d_reg_set_bits. destruct (reg_read_ready r' io Hr) as (io1 & -> & Eh & Hr1).
    destruct (reg_write_ready r' (set_field (bus_read r' (hw io)) v s n) io1 Hr1) as [-> Hr']. split; [|done]. rewrite read_write, u32_u32 by done. rewrite Eh.
    destruct (Z.eqb_spec r' r) as [->|]; [|done]. cbn [andb]. cbn in Ho. b2p. rewrite set_field_bit by lia. by case_goal.
Qed.

Lemma run_ops_app l l' io : run_ops (l ++ l') io = run_ops l' (run_ops l io).
Proof. unfold run_ops. by rewrite foldl_app. Qed.

Lemma run_ops_bit l io r b : ready io -> forallb op_sane l = true -> volatile r = false -> 0 <= b < 32 ->
  reg_bit (run_ops l io) r b = default (reg_bit io r b) (last_bit l r b) /\ ready (run_ops l io).
Proof.
  intros Hr Hl Hv Hb. induction l as [|o l IH] using rev_ind; [done|]. rewrite forallb_app in Hl. b2p. cbn in *. b2p.
  destruct IH as [IH Hr']; [done|]. rewrite run_ops_app, last_bit_snoc. cbn [run_ops foldl].
  destruct (run_op_bit o (run_ops l io) r b) as [E Hr'']; [done..|]. split; [|done]. unfold run_ops in *. cbn. rewrite E, IH. by destruct (op_bit o r b).
Qed.
End Facts.
