(* ===== verification/Ge2dStruct.v ===== *)
(** * The structures of the 2D engine (ge2d/ge2d.h) and its filter tables

    The parts of a configuration of the engine as the driver keeps them, under the
    field names of the code; a name that two structures share carries a tag of its
    structure ([s1_], [sd_], [dp_], [cv_]).  [<|f := v|>] is an assignment to a field;
    the width of a field shows at its assignments. *)

From stdpp Require Import base numbers list option.
From coqutil Require Import Datatypes.RecordSetters.
From S2P Require Import Prelude.
Export TriangleBracketNotations.

Definition MAX_PLANE : nat := 4.
Definition FILTER_TYPE_BICUBIC : Z := 1.
Definition FILTER_TYPE_BILINEAR : Z := 2.
Definition FILTER_TYPE_TRIANGLE : Z := 3.
Definition FILTER_TYPE_GAU0 : Z := 4.
Definition FILTER_TYPE_GAU0_BOT : Z := 5.
Definition FILTER_TYPE_GAU1 : Z := 6.
Definition MATRIX_YCC_TO_RGB : Z := 1.
Definition MATRIX_RGB_TO_YCC : Z := 2.
Definition MATRIX_FULL_RANGE_YCC_TO_RGB : Z := 4.
Definition MATRIX_RGB_TO_FULL_RANGE_YCC : Z := 8.
Definition MATRIX_BT_601 : Z := 0.
Definition MATRIX_BT_709 : Z := 16.
Definition MATRIX_CUSTOM : Z := 32.
Definition GE2D_FORMAT_BT_STANDARD : Z := 268435456.
Definition GE2D_MATRIX_CUSTOM : Z := 536870912.
Definition GE2D_ENDIAN_SHIFT : Z := 24.
Definition GE2D_COLOR_MAP_SHIFT : Z := 20.
Definition GE2D_FORMAT_DEEP_COLOR : Z := 0x40000.
Definition GE2D_FORMAT_YUV : Z := 0x20000.
Definition GE2D_FORMAT_FULL_RANGE : Z := 0x10000.
Definition GE2D_BPP_MASK : Z := 0x00300.
Definition GE2D_BPP_8BIT : Z := 0x00000.
Definition GE2D_BPP_16BIT : Z := 0x00100.
Definition GE2D_BPP_24BIT : Z := 0x00200.
Definition GE2D_BPP_32BIT : Z := 0x00300.
Definition OPERATION_LOGIC : Z := 5.
Definition LOGIC_OPERATION_COPY : Z := 1.
Definition LOGIC_OPERATION_SET : Z := 3.
Definition DST_CLIP_MODE_INSIDE : Z := 0.
Definition START_FLAG : Z := 0x20.
Definition UPDATE_SRC_DATA : Z := 0x01.
Definition UPDATE_SRC_GEN : Z := 0x02.
Definition UPDATE_DST_DATA : Z := 0x04.
Definition UPDATE_DST_GEN : Z := 0x08.
Definition UPDATE_DP_GEN : Z := 0x10.
Definition UPDATE_SCALE_COEF : Z := 0x20.
Definition UPDATE_ALL : Z := 0x3f.
Definition RELEASE_SRC1_CANVAS : Z := 0x01.
Definition RELEASE_SRC2_CANVAS : Z := 0x02.
Definition RELEASE_SRC1_BUFFER : Z := 0x04.
Definition RELEASE_SRC2_BUFFER : Z := 0x08.
Definition RELEASE_CB : Z := 0x10.
Definition GE2D_ENDIAN_MASK : Z := Z.shiftl 0x1 GE2D_ENDIAN_SHIFT.
Definition GE2D_COLOR_MAP_MASK : Z := Z.shiftl 0xf GE2D_COLOR_MAP_SHIFT.
Definition GE2D_COLOR_MAP_NV12 : Z := Z.shiftl 15 GE2D_COLOR_MAP_SHIFT.
Definition GE2D_COLOR_MAP_NV21 : Z := Z.shiftl 14 GE2D_COLOR_MAP_SHIFT.

(** ** Structures, and their zeroed memory *)

Record ge2d_gen_s := mk_gen {
  interrupt_ctrl : Z; dp_onoff_mode : Z; vfmt_onoff_en : Z; dp_on_cnt : Z; dp_off_cnt : Z; fifo_size : Z; burst_ctrl : Z }.
Definition zero_gen : ge2d_gen_s := mk_gen 0 0 0 0 0 0 0.

Record ge2d_src1_data_s := mk_src1_data {
  s1_urgent_en : Z; ddr_burst_size_y : Z; ddr_burst_size_cb : Z; ddr_burst_size_cr : Z; canaddr : Z; x_yc_ratio : Z; y_yc_ratio : Z; sep_en : Z;
  s1_format : Z; s1_endian : Z; s1_color_map : Z; s1_mode_8b_sel : Z; lut_en : Z; s1_deep_color : Z; mult_rounding : Z; alpha_conv_mode0 : Z;
  alpha_conv_mode1 : Z; color_conv_mode0 : Z; color_conv_mode1 : Z; def_color : Z; format_all : Z; s1_phy_addr : Z; s1_stride : Z }.
Definition zero_src1_data : ge2d_src1_data_s := mk_src1_data 0 0 0 0 0 0 0 0 0 0 0 0 0 0 0 0 0 0 0 0 0 0 0.

Record ge2d_src1_gen_s := mk_src1_gen {
  clipx_start : Z; clipx_end : Z; clipy_start : Z; clipy_end : Z; clipx_start_ex : Z; clipx_end_ex : Z; clipy_start_ex : Z; clipy_end_ex : Z;
  pic_struct : Z; fill_mode : Z; outside_alpha : Z; chfmt_rpt_pix : Z; cvfmt_rpt_pix : Z }.
Definition zero_src1_gen : ge2d_src1_gen_s := mk_src1_gen 0 0 0 0 0 0 0 0 0 0 0 0 0.

Record ge2d_src2_dst_data_s := mk_src2_dst_data {
  sd_urgent_en : Z; ddr_burst_size : Z; src2_canaddr : Z; src2_format : Z; src2_endian : Z; src2_color_map : Z; src2_mode_8b_sel : Z;
  src2_def_color : Z; dst_canaddr : Z; dst_format : Z; dst_endian : Z; dst_color_map : Z; dst_mode_8b_sel : Z; src2_format_all : Z; dst_format_all : Z;
  dst2_pixel_byte_width : Z; dst2_color_map : Z; dst2_discard_mode : Z; dst2_enable : Z; src2_phyaddr : Z; src2_stride : Z; dst_phyaddr : Z;
  dst_stride : Z }.
Definition zero_src2_dst_data : ge2d_src2_dst_data_s := mk_src2_dst_data 0 0 0 0 0 0 0 0 0 0 0 0 0 0 0 0 0 0 0 0 0 0 0.

Record ge2d_src2_dst_gen_s := mk_src2_dst_gen {
  src2_clipx_start : Z; src2_clipx_end : Z; src2_clipy_start : Z; src2_clipy_end : Z; src2_pic_struct : Z; src2_fill_mode : Z;
  src2_outside_alpha : Z; dst_clipx_start : Z; dst_clipx_end : Z; dst_clipy_start : Z; dst_clipy_end : Z; dst_clip_mode : Z; dst_pic_struct : Z }.
Definition zero_src2_dst_gen : ge2d_src2_dst_gen_s := mk_src2_dst_gen 0 0 0 0 0 0 0 0 0 0 0 0 0.

Record ge2d_dp_gen_s := mk_dp_gen {
  src1_vsc_bank_length : Z; src1_vsc_phase0_always_en : Z; src1_hsc_bank_length : Z; src1_hsc_phase0_always_en : Z;
  src1_hsc_rpt_ctrl : Z; src1_vsc_rpt_ctrl : Z; src1_hsc_nearest_en : Z; src1_vsc_nearest_en : Z; antiflick_en : Z;
  antiflick_ycbcr_rgb_sel : Z; antiflick_cbcr_en : Z; antiflick_r_coef : Z; antiflick_g_coef : Z; antiflick_b_coef : Z;
  antiflick_color_filter_n1 : list Z; antiflick_color_filter_n2 : list Z; antiflick_color_filter_n3 : list Z; antiflick_color_filter_th : list Z;
  antiflick_alpha_filter_n1 : list Z; antiflick_alpha_filter_n2 : list Z; antiflick_alpha_filter_n3 : list Z; antiflick_alpha_filter_th : list Z;
  use_matrix_default : Z; conv_matrix_en : Z; matrix_sat_in_en : Z; matrix_minus_16_ctrl : Z; matrix_sign_ctrl : Z;
  matrix_offset : list Z; matrix_coef : list Z;
  src1_gb_alpha_en : Z; src1_gb_alpha : Z; src2_gb_alpha_en : Z; src2_gb_alpha : Z; dp_src2_cmult_ad : Z; alu_const_color : Z; src1_key_en : Z;
  src2_key_en : Z; src1_key_mode : Z; src2_key_mode : Z; src1_key : Z; src2_key : Z; src1_key_mask : Z; src2_key_mask : Z; bitmask_en : Z;
  bytemask_only : Z; bitmask : Z }.
Definition zero_dp_gen : ge2d_dp_gen_s := mk_dp_gen 0 0 0 0 0 0 0 0 0 0 0 0 0 0 (replicate 4 0) (replicate 4 0) (replicate 4 0) (replicate 3 0) (replicate 4 0) (replicate 4 0) (replicate 4 0) (replicate 3 0) 0 0 0 0 0 (replicate 3 0) (replicate 9 0) 0 0 0 0 0 0 0 0 0 0 0 0 0 0 0 0 0.

Record ge2d_cmd_s := mk_cmd {
  src1_x_start : Z; src1_y_start : Z; src1_x_end : Z; src1_y_end : Z; src1_x_rev : Z; src1_y_rev : Z; src1_fill_color_en : Z; src1_fmt : Z;
  src2_x_start : Z; src2_y_start : Z; src2_x_end : Z; src2_y_end : Z; src2_x_rev : Z; src2_y_rev : Z; src2_fill_color_en : Z; src2_fmt : Z; dst_x_start : Z;
  dst_y_start : Z; dst_x_end : Z; dst_y_end : Z; dst_xy_swap : Z; dst_x_rev : Z; dst_y_rev : Z; dst_fmt : Z; sc_prehsc_en : Z; sc_prevsc_en : Z; sc_hsc_en : Z;
  sc_vsc_en : Z; vsc_phase_step : Z; vsc_phase_slope : Z; vsc_rpt_l0_num : Z; vsc_ini_phase : Z; hsc_phase_step : Z; hsc_phase_slope : Z;
  hsc_rpt_p0_num : Z; hsc_ini_phase : Z; hsc_div_en : Z; hsc_div_length : Z; hsc_adv_num : Z; hsc_adv_phase : Z; src1_cmult_asel : Z;
  src2_cmult_asel : Z; src2_cmult_ad : Z; color_blend_mode : Z; color_src_blend_factor : Z; color_dst_blend_factor : Z; color_logic_op : Z;
  alpha_blend_mode : Z; alpha_src_blend_factor : Z; alpha_dst_blend_factor : Z; alpha_logic_op : Z; cmd_cb : Z; cmd_cb_param : Z; src1_buffer : Z;
  src2_buffer : Z; release_flag : Z; wait_done_flag : Z; hang_flag : Z }.
Definition zero_cmd : ge2d_cmd_s := mk_cmd 0 0 0 0 0 0 0 0 0 0 0 0 0 0 0 0 0 0 0 0 0 0 0 0 0 0 0 0 0 0 0 0 0 0 0 0 0 0 0 0 0 0 0 0 0 0 0 0 0 0 0 0 0 0 0 0 0 0.

Record ge2d_canvas_cfg_s := mk_canvas_cfg {
  canvas_used : Z; cv_canvas_index : Z; cv_stride : Z; cv_height : Z; cv_phys_addr : Z }.
Definition zero_canvas_cfg : ge2d_canvas_cfg_s := mk_canvas_cfg 0 0 0 0 0.

Record ge2d_matrix_s := mk_matrix {
  pre_offset0 : Z; pre_offset1 : Z; pre_offset2 : Z; coef0 : Z; coef1 : Z; coef2 : Z; coef3 : Z; coef4 : Z; coef5 : Z; coef6 : Z; coef7 : Z; coef8 : Z; offset0 : Z; offset1 : Z;
  offset2 : Z; sat_in_en : Z }.
Definition zero_matrix : ge2d_matrix_s := mk_matrix 0 0 0 0 0 0 0 0 0 0 0 0 0 0 0 0.

(** What the driver knows of the chip, less its power tables. *)
Record ge2d_device_data_s := mk_device_data {
  ge2d_rate : Z; src2_alp : Z; canvas_status : Z; deep_color : Z; dev_hang_flag : Z; fifo : Z; has_self_pwr : Z }.

(** ** Filter coefficients, a word for each of 33 phases *)

Definition filt_coef_gau1 : list Z :=
  [ 0x20402000; 0x203f2001; 0x203e2002; 0x203d2003; 0x203c2004; 0x203b2005; 0x203a2006; 0x20392007; 0x20382008;
    0x20372009; 0x2036200a; 0x2035200b; 0x2034200c; 0x2033200d; 0x2032200e; 0x2031200f; 0x20302010; 0x202f2011;
    0x202e2012; 0x202d2013; 0x202c2014; 0x202b2015; 0x202a2016; 0x20292017; 0x20282018; 0x20272019; 0x2026201a;
    0x2025201b; 0x2024201c; 0x2023201d; 0x2022201e; 0x2021201f; 0x20202020 ].
Definition filt_coef_gau0 : list Z := replicate 33 0x20202020.
Definition filt_coef_gau0_bot : list Z := replicate 33 0x2a2b2a00.
Definition filt_coef0 : list Z :=
  [ 0x00800000; 0x007f0100; 0xff7f0200; 0xfe7f0300; 0xfd7e0500; 0xfc7e0600; 0xfb7d0800; 0xfb7c0900; 0xfa7b0b00;
    0xfa7a0dff; 0xf9790fff; 0xf97711ff; 0xf87613ff; 0xf87416fe; 0xf87218fe; 0xf8701afe; 0xf76f1dfd; 0xf76d1ffd;
    0xf76b21fd; 0xf76824fd; 0xf76627fc; 0xf76429fc; 0xf7612cfc; 0xf75f2ffb; 0xf75d31fb; 0xf75a34fb; 0xf75837fa;
    0xf7553afa; 0xf8523cfa; 0xf8503ff9; 0xf84d42f9; 0xf84a45f9; 0xf84848f8 ].
Definition filt_coef1 : list Z :=
  [ 0x00800000; 0x007e0200; 0x007c0400; 0x007a0600; 0x00780800; 0x00760a00; 0x00740c00; 0x00720e00; 0x00701000;
    0x006e1200; 0x006c1400; 0x006a1600; 0x00681800; 0x00661a00; 0x00641c00; 0x00621e00; 0x00602000; 0x005e2200;
    0x005c2400; 0x005a2600; 0x00582800; 0x00562a00; 0x00542c00; 0x00522e00; 0x00503000; 0x004e3200; 0x004c3400;
    0x004a3600; 0x00483800; 0x00463a00; 0x00443c00; 0x00423e00; 0x00404000 ].
Definition filt_coef2 : list Z :=
  [ 0x40400000; 0x3f400100; 0x3d410200; 0x3c410300; 0x3a420400; 0x39420500; 0x37430600; 0x36430700; 0x35430800;
    0x33450800; 0x32450900; 0x31450a00; 0x30450b00; 0x2e460c00; 0x2d460d00; 0x2c470d00; 0x2b470e00; 0x29480f00;
    0x28481000; 0x27481100; 0x26491100; 0x25491200; 0x24491300; 0x234a1300; 0x224a1400; 0x214a1500; 0x204a1600;
    0x1f4b1600; 0x1e4b1700; 0x1d4b1800; 0x1c4c1800; 0x1b4c1900; 0x1a4c1a00 ].
Definition filt_coef3 : list Z := 0x20402000 :: replicate 32 0.
