(* ===== verification/Ge2dHw.v ===== *)
(** * Programming the 2D engine (ge2d/ge2d_hw.c)

    Each [ge2d_set_*] is the list of register operations it performs, in the order of
    the code; those that also change the structure they are given return it.  The
    command itself ([ge2d_set_cmd]) reads the formatter ratios back, computes the
    scaler steps and starts the engine; a division by zero is undefined. *)

From stdpp Require Import base numbers list option.
From coqutil Require Import Datatypes.RecordSetters.
From S2P Require Import Prelude Ge2dReg Ge2dStruct.

Infix ".|" := Z.lor (at level 50, left associativity) : Z_scope.
Infix ".&" := Z.land (at level 48, left associativity) : Z_scope.
Infix "<<" := Z.shiftl (at level 46, left associativity) : Z_scope.
Infix ">>" := Z.shiftr (at level 46, left associativity) : Z_scope.

Definition GE2D_DST1_INDEX : Z := 0.
Definition GE2D_SRC1_INDEX : Z := 1.
Definition GE2D_SRC2_INDEX : Z := 2.

Definition when_op (b : bool) (l : list reg_op) : list reg_op := if b then l else [].

(** A field of a fixed array. *)
Definition at_ (l : list Z) (i : nat) : Z := nth i l 0.

Definition ge2d_canv_config (index addr stride : Z) : list reg_op :=
  when_op (index <=? 2)
    [ Wr (GE2D_DST1_BADDR_CTRL + index * 2) ((addr + 7) >> 3);
      Wr (GE2D_DST1_STRIDE_CTRL + index * 2) ((stride + 7) >> 3) ].

Definition ge2d_set_src1_data (dev : ge2d_device_data_s) (cfg : ge2d_src1_data_s) : list reg_op :=
  [ Bits GE2D_GEN_CTRL1 (s1_urgent_en cfg) 10 1;
    Bits GE2D_GEN_CTRL1 (ddr_burst_size_y cfg) 20 2;
    Bits GE2D_GEN_CTRL1 (ddr_burst_size_cb cfg) 18 2;
    Bits GE2D_GEN_CTRL1 (ddr_burst_size_cr cfg) 16 2 ] ++
  (if canvas_status dev =? 1 then ge2d_canv_config GE2D_SRC1_INDEX (s1_phy_addr cfg) (s1_stride cfg)
   else [ Wr GE2D_SRC1_CANVAS (((canaddr cfg .& 0xff) << 24) .| (((canaddr cfg >> 8) .& 0xff) << 16) .| (((canaddr cfg >> 16) .& 0xff) << 8)) ]) ++
  [ Bits GE2D_GEN_CTRL0 ((x_yc_ratio cfg << 1) .| y_yc_ratio cfg) 10 2;
    Bits GE2D_GEN_CTRL0 (sep_en cfg) 0 1;
    Bits GE2D_GEN_CTRL2 (s1_endian cfg) 7 1;
    Bits GE2D_GEN_CTRL2 (s1_color_map cfg) 3 4;
    Bits GE2D_GEN_CTRL2 (s1_format cfg) 0 2 ] ++
  when_op (deep_color dev =? 1) [ Bits GE2D_GEN_CTRL2 (s1_deep_color cfg) 2 1 ] ++
  when_op (canvas_status dev =? 1)
    [ Bits GE2D_GEN_CTRL2 (mult_rounding cfg) 18 1;
      Bits GE2D_GEN_CTRL2 (alpha_conv_mode0 cfg) 31 1;
      Bits GE2D_GEN_CTRL2 (alpha_conv_mode1 cfg) 10 1;
      Bits GE2D_GEN_CTRL2 (color_conv_mode0 cfg) 30 1;
      Bits GE2D_GEN_CTRL1 (color_conv_mode1 cfg) 26 1 ] ++
  [ Bits GE2D_GEN_CTRL0 (s1_mode_8b_sel cfg) 5 2;
    Bits GE2D_GEN_CTRL0 (lut_en cfg) 3 1;
    Wr GE2D_SRC1_DEF_COLOR (def_color cfg);
    Bits GE2D_SRC1_FMT_CTRL (if c_true (x_yc_ratio cfg) then 1 else 0) 18 1;
    Bits GE2D_SRC1_FMT_CTRL (if c_true (y_yc_ratio cfg) then 1 else 0) 16 1 ].

(** The table of coefficients for a filter type. *)
Definition filter_table (filt_type : Z) : list Z :=
  if filt_type =? FILTER_TYPE_BICUBIC then filt_coef0
  else if filt_type =? FILTER_TYPE_BILINEAR then filt_coef1
  else if filt_type =? FILTER_TYPE_TRIANGLE then filt_coef2
  else if filt_type =? FILTER_TYPE_GAU0 then filt_coef_gau0
  else if filt_type =? FILTER_TYPE_GAU0_BOT then filt_coef_gau0_bot
  else if filt_type =? FILTER_TYPE_GAU1 then filt_coef_gau1
  else filt_coef3.
Definition gaussian (filt_type : Z) : bool :=
  (filt_type =? FILTER_TYPE_GAU0) || (filt_type =? FILTER_TYPE_GAU0_BOT) || (filt_type =? FILTER_TYPE_GAU1).

(** The operations, and [gaul_filter_used] from here on. *)
Definition ge2d_set_src1_scale_coef (v_filt_type h_filt_type : Z) : list reg_op * bool :=
  ([ Wr GE2D_SCALE_COEF_IDX 0x0000 ] ++ (Wr GE2D_SCALE_COEF <$> filter_table v_filt_type) ++
   [ Wr GE2D_SCALE_COEF_IDX 0x0100 ] ++ (Wr GE2D_SCALE_COEF <$> filter_table h_filt_type),
   gaussian v_filt_type || gaussian h_filt_type).

Definition ge2d_set_src1_gen (cfg : ge2d_src1_gen_s) : list reg_op :=
  [ Wr GE2D_SRC1_CLIPX_START_END ((clipx_start_ex cfg << 31) .| (clipx_start cfg << 16) .| (clipx_end_ex cfg << 15) .| clipx_end cfg);
    Wr GE2D_SRC1_CLIPY_START_END ((clipy_start_ex cfg << 31) .| (clipy_start cfg << 16) .| (clipy_end_ex cfg << 15) .| clipy_end cfg);
    Bits GE2D_GEN_CTRL0 (pic_struct cfg) 1 2;
    Bits GE2D_GEN_CTRL0 (fill_mode cfg .& 0x1) 4 1;
    Bits GE2D_SRC_OUTSIDE_ALPHA (((fill_mode cfg .& 0x2) << 7) .| outside_alpha cfg) 0 9;
    Bits GE2D_SRC1_FMT_CTRL (chfmt_rpt_pix cfg) 19 1;
    Bits GE2D_SRC1_FMT_CTRL (cvfmt_rpt_pix cfg) 17 1 ].

Definition ge2d_set_src2_dst_data (dev : ge2d_device_data_s) (cfg : ge2d_src2_dst_data_s) : list reg_op :=
  [ Bits GE2D_GEN_CTRL1 (sd_urgent_en cfg) 9 1;
    Bits GE2D_GEN_CTRL1 (ddr_burst_size cfg) 22 2 ] ++
  (if canvas_status dev =? 1 then
     ge2d_canv_config GE2D_SRC2_INDEX (src2_phyaddr cfg) (src2_stride cfg) ++ ge2d_canv_config GE2D_DST1_INDEX (dst_phyaddr cfg) (dst_stride cfg)
   else [ Wr GE2D_SRC2_DST_CANVAS ((src2_canaddr cfg << 8) .| (dst_canaddr cfg .& 0xff) .| ((dst_canaddr cfg .& 0xff00) << 8)) ]) ++
  [ Bits GE2D_GEN_CTRL2 (src2_endian cfg) 15 1;
    Bits GE2D_GEN_CTRL2 (src2_color_map cfg) 11 4;
    Bits GE2D_GEN_CTRL2 (src2_format cfg) 8 2;
    Bits GE2D_GEN_CTRL2 (dst_endian cfg) 23 1;
    Bits GE2D_GEN_CTRL2 (dst_color_map cfg) 19 4;
    Bits GE2D_GEN_CTRL2 (dst_format cfg) 16 2;
    Bits GE2D_GEN_CTRL0 (src2_mode_8b_sel cfg) 15 2;
    Bits GE2D_GEN_CTRL0 (dst_mode_8b_sel cfg) 24 2;
    Bits GE2D_GEN_CTRL3 (dst2_pixel_byte_width cfg) 16 2;
    Bits GE2D_GEN_CTRL3 (dst2_color_map cfg) 19 4;
    Bits GE2D_GEN_CTRL3 (dst2_discard_mode cfg) 10 4;
    Bits GE2D_GEN_CTRL3 (dst2_enable cfg) 8 1;
    Wr GE2D_SRC2_DEF_COLOR (src2_def_color cfg) ].

Definition ge2d_set_src2_dst_gen (cfg : ge2d_src2_dst_gen_s) : list reg_op :=
  [ Wr GE2D_SRC2_CLIPX_START_END ((src2_clipx_start cfg << 16) .| src2_clipx_end cfg);
    Wr GE2D_SRC2_CLIPY_START_END ((src2_clipy_start cfg << 16) .| src2_clipy_end cfg);
    Bits GE2D_GEN_CTRL0 (src2_pic_struct cfg) 12 2;
    Bits GE2D_GEN_CTRL0 (src2_fill_mode cfg .& 0x1) 14 1;
    Bits GE2D_SRC_OUTSIDE_ALPHA (((src2_fill_mode cfg .& 0x2) << 7) .| src2_outside_alpha cfg) 16 9;
    Wr GE2D_DST_CLIPX_START_END ((dst_clipx_start cfg << 16) .| dst_clipx_end cfg);
    Wr GE2D_DST_CLIPY_START_END ((dst_clipy_start cfg << 16) .| dst_clipy_end cfg);
    Bits GE2D_GEN_CTRL0 (dst_clip_mode cfg) 23 1;
    Bits GE2D_GEN_CTRL1 (dst_pic_struct cfg) 14 2 ].

(** ** The data path *)

(** The matrix that [use_matrix_default] stands for: the assignments to [cfg]. *)
Definition default_matrix (cfg : ge2d_dp_gen_s) : ge2d_dp_gen_s :=
  let um := use_matrix_default cfg in
  if c_true (um .& MATRIX_YCC_TO_RGB) then
    cfg<| matrix_coef := [0x4a8; 0; 0x662; 0x4a8; 0x1e6f; 0x1cbf; 0x4a8; 0x811; 0x0] |><| matrix_offset := [0; 0; 0] |>
       <| matrix_sat_in_en := 1 |><| matrix_minus_16_ctrl := 0x4 |><| matrix_sign_ctrl := 0x3 |>
  else if c_true (um .& MATRIX_RGB_TO_YCC) then
    cfg<| matrix_coef := if c_true (um .& MATRIX_BT_709) then [0xbb; 0x275; 0x3f; 0x1f99; 0x1ea6; 0x1c2; 0x1c2; 0x1e67; 0x1fd7]
                         else [0x107; 0x204; 0x64; 0x1f68; 0x1ed6; 0x1c2; 0x1c2; 0x1e87; 0x1fb7] |>
       <| matrix_offset := [16; 128; 128] |><| matrix_sat_in_en := 0 |><| matrix_minus_16_ctrl := 0 |><| matrix_sign_ctrl := 0 |>
  else if c_true (um .& MATRIX_FULL_RANGE_YCC_TO_RGB) then
    cfg<| matrix_coef := [0x400; 0; 0x59c; 0x400; 0x1ea0; 0x1d25; 0x400; 0x717; 0] |><| matrix_offset := [0; 0; 0] |>
       <| matrix_sat_in_en := 0 |><| matrix_minus_16_ctrl := 0 |><| matrix_sign_ctrl := 0x3 |>
  else if c_true (um .& MATRIX_RGB_TO_FULL_RANGE_YCC) then
    cfg<| matrix_coef := [0x132; 0x259; 0x75; 0x1f53; 0x1ead; 0x200; 0x200; 0x1e53; 0x1fad] |><| matrix_offset := [0; 128; 128] |>
       <| matrix_sat_in_en := 0 |><| matrix_minus_16_ctrl := 0 |><| matrix_sign_ctrl := 0 |>
  else cfg.

Definition custom_matrix (matrix : ge2d_matrix_s) (cfg : ge2d_dp_gen_s) : ge2d_dp_gen_s :=
  cfg<| matrix_coef := s32 <$> [coef0 matrix; coef1 matrix; coef2 matrix; coef3 matrix; coef4 matrix; coef5 matrix; coef6 matrix; coef7 matrix; coef8 matrix] |>
     <| matrix_offset := s32 <$> [offset0 matrix; offset1 matrix; offset2 matrix] |><| matrix_sat_in_en := sat_in_en matrix |>.

(** The assignments of [ge2d_set_dp_gen] before the first register. *)
Definition antiflick_setup (cfg : ge2d_dp_gen_s) : ge2d_dp_gen_s :=
  let en := c_true (conv_matrix_en cfg) in
  cfg<| antiflick_ycbcr_rgb_sel := if en then 0 else 1 |><| antiflick_cbcr_en := 1 |>
     <| antiflick_r_coef := if en then 0 else 0x42 |><| antiflick_g_coef := if en then 0 else 0x81 |><| antiflick_b_coef := if en then 0 else 0x19 |>
     <| antiflick_color_filter_n1 := [0; 8; 16; 32] |><| antiflick_color_filter_n2 := [128; 112; 96; 64] |>
     <| antiflick_color_filter_n3 := [0; 8; 16; 32] |><| antiflick_color_filter_th := [8; 16; 64] |>
     <| antiflick_alpha_filter_n1 := [0; 8; 16; 32] |><| antiflick_alpha_filter_n2 := [128; 112; 96; 64] |>
     <| antiflick_alpha_filter_n3 := [0; 8; 16; 32] |><| antiflick_alpha_filter_th := [8; 16; 64] |>
     <| src1_vsc_bank_length := 4 |><| src1_hsc_bank_length := 4 |>.

(** One antiflicker filter register; the last of its group has no threshold. *)
Definition filt_word (th n3 n2 n1 : Z) : Z :=
  ((th .& 0xff) << 24) .| ((n3 .& 0xff) << 16) .| ((n2 .& 0xff) << 8) .| (n1 .& 0xff).
Definition filt_regs (reg : Z) (th n3 n2 n1 : list Z) : list reg_op :=
  [ Wr reg (filt_word (at_ th 0) (at_ n3 0) (at_ n2 0) (at_ n1 0)); Wr (reg + 1) (filt_word (at_ th 1) (at_ n3 1) (at_ n2 1) (at_ n1 1));
    Wr (reg + 2) (filt_word (at_ th 2) (at_ n3 2) (at_ n2 2) (at_ n1 2)); Wr (reg + 3) (filt_word 0 (at_ n3 3) (at_ n2 3) (at_ n1 3)) ].

Definition scaler_regs (cfg : ge2d_dp_gen_s) : list reg_op :=
  [ Bits GE2D_SC_MISC_CTRL ((src1_hsc_rpt_ctrl cfg << 9) .| (src1_vsc_rpt_ctrl cfg << 8) .| (src1_vsc_phase0_always_en cfg << 7) .|
      (src1_vsc_bank_length cfg << 4) .| (src1_hsc_phase0_always_en cfg << 3) .| src1_hsc_bank_length cfg) 0 10;
    Bits GE2D_SC_MISC_CTRL ((src1_vsc_nearest_en cfg << 1) .| src1_hsc_nearest_en cfg) 29 2 ].

Definition antiflick_regs (cfg : ge2d_dp_gen_s) : list reg_op :=
  if antiflick_en cfg =? 1 then
    [ Wr GE2D_ANTIFLICK_CTRL0 0x80000000;
      Wr GE2D_ANTIFLICK_CTRL1 ((antiflick_ycbcr_rgb_sel cfg << 25) .| (antiflick_cbcr_en cfg << 24) .| ((antiflick_r_coef cfg .& 0xff) << 16) .|
        ((antiflick_g_coef cfg .& 0xff) << 8) .| (antiflick_b_coef cfg .& 0xff)) ] ++
    filt_regs GE2D_ANTIFLICK_COLOR_FILT0 (antiflick_color_filter_th cfg) (antiflick_color_filter_n3 cfg) (antiflick_color_filter_n2 cfg) (antiflick_color_filter_n1 cfg) ++
    filt_regs GE2D_ANTIFLICK_ALPHA_FILT0 (antiflick_alpha_filter_th cfg) (antiflick_alpha_filter_n3 cfg) (antiflick_alpha_filter_n2 cfg) (antiflick_alpha_filter_n1 cfg)
  else [ Bits GE2D_ANTIFLICK_CTRL0 0 31 1 ].

Definition matrix_regs (cfg : ge2d_dp_gen_s) : list reg_op :=
  let c := at_ (matrix_coef cfg) in let o := at_ (matrix_offset cfg) in
  [ Wr GE2D_MATRIX_COEF00_01 ((c 0%nat << 16) .| c 1%nat); Wr GE2D_MATRIX_COEF02_10 ((c 2%nat << 16) .| c 3%nat);
    Wr GE2D_MATRIX_COEF11_12 ((c 4%nat << 16) .| c 5%nat); Wr GE2D_MATRIX_COEF20_21 ((c 6%nat << 16) .| c 7%nat);
    Wr GE2D_MATRIX_COEF22_CTRL ((c 8%nat << 16) .| (matrix_sat_in_en cfg << 7) .| conv_matrix_en cfg);
    Wr GE2D_MATRIX_OFFSET ((o 0%nat << 20) .| (o 1%nat << 10) .| o 2%nat) ].

Definition alpha_key_regs (dev : ge2d_device_data_s) (cfg : ge2d_dp_gen_s) : list reg_op :=
  [ Bits GE2D_GEN_CTRL1 (src1_gb_alpha cfg) 0 8; Bits GE2D_GEN_CTRL2 (src1_gb_alpha_en cfg) 29 1 ] ++
  when_op (src2_alp dev =? 1) [ Bits GE2D_GEN_CTRL5 (src2_gb_alpha cfg) 0 8; Bits GE2D_GEN_CTRL5 (src2_gb_alpha_en cfg) 8 1 ] ++
  [ Wr GE2D_ALU_CONST_COLOR (alu_const_color cfg);
    Wr GE2D_SRC1_KEY (src1_key cfg); Wr GE2D_SRC1_KEY_MASK (src1_key_mask cfg);
    Wr GE2D_SRC2_KEY (src2_key cfg); Wr GE2D_SRC2_KEY_MASK (src2_key_mask cfg);
    Wr GE2D_DST_BITMASK (bitmask cfg);
    Bits GE2D_GEN_CTRL0 ((bytemask_only cfg << 5) .| (bitmask_en cfg << 4) .| (src2_key_en cfg << 3) .| (src2_key_mode cfg << 2) .|
      (src1_key_en cfg << 1) .| src1_key_mode cfg) 26 6 ].

Definition pre_offset_regs (cfg : ge2d_dp_gen_s) : list reg_op :=
  [ Bits GE2D_MATRIX_PRE_OFFSET (if c_true (matrix_minus_16_ctrl cfg) then 0x1f0 else 0) 20 9;
    Bits GE2D_MATRIX_PRE_OFFSET (if c_true (matrix_sign_ctrl cfg .& 3) then (0x180 << 10) .| 0x180 else 0) 0 20 ].

(** The operations, and [dp_gen] of the configuration afterwards. *)
Definition ge2d_set_dp_gen (dev : ge2d_device_data_s) (cfg : ge2d_dp_gen_s) (matrix : ge2d_matrix_s) : list reg_op * ge2d_dp_gen_s :=
  let cfg := antiflick_setup cfg in
  let head := scaler_regs cfg ++ antiflick_regs cfg in
  let '(pre, cfg) :=
    if c_true (use_matrix_default cfg .& MATRIX_CUSTOM) then
      ([ Wr GE2D_MATRIX_PRE_OFFSET ((pre_offset0 matrix << 20) .| (pre_offset1 matrix << 10) .| pre_offset2 matrix) ], custom_matrix matrix cfg)
    else let cfg := default_matrix cfg in (pre_offset_regs cfg, cfg) in
  (head ++ pre ++ matrix_regs cfg ++ alpha_key_regs dev cfg, cfg).

(** ** The power-up setup *)

Definition ge2d_soft_rst : list reg_op := [ Bits GE2D_GEN_CTRL1 1 31 1; Bits GE2D_GEN_CTRL1 0 31 1 ].

Definition ge2d_set_gen (dev : ge2d_device_data_s) (cfg : ge2d_gen_s) : list reg_op :=
  [ Bits GE2D_GEN_CTRL1 (interrupt_ctrl cfg) 24 2;
    Wr GE2D_DP_ONOFF_CTRL ((dp_onoff_mode cfg << 31) .| (dp_on_cnt cfg << 16) .| (vfmt_onoff_en cfg << 15) .| dp_off_cnt cfg) ] ++
  when_op (fifo dev =? 1)
    [ Bits GE2D_GEN_CTRL4 ((fifo_size cfg << 26) .| (fifo_size cfg << 24) .| (fifo_size cfg << 22) .| (fifo_size cfg << 20) .|
        (burst_ctrl cfg << 18) .| (burst_ctrl cfg << 16)) 16 12 ].

(** ** The command *)

(** Start and end extension and chroma phase of one axis: [rev] says that exactly one
    of source and destination is mirrored. *)
Definition chroma_axis (yuv_to_rgb is_x : bool) (yc_ratio : Z) (rev : bool) : Z * Z * Z :=
  if negb (c_true yc_ratio) then (0, 0, 0)
  else
    let phase := if yuv_to_rgb then (if rev then 0x4c else 0xc4) else (if is_x then 0x08 else 0x4c) in
    if rev then (3, 2, phase) else (2, 3, phase).

(** The source and destination windows.  [same_size] sets the repeat mode of the
    chroma formatter. *)
Definition same_size (cfg : ge2d_cmd_s) : bool :=
  (s32 (src1_x_end cfg - src1_x_start cfg) =? s32 (dst_x_end cfg - dst_x_start cfg)) &&
  (s32 (src1_y_end cfg - src1_y_start cfg) =? s32 (dst_y_end cfg - dst_y_start cfg)).
Definition window_regs (x_yc_ratio y_yc_ratio : Z) (cfg : ge2d_cmd_s) : list reg_op :=
  let src1_y_end_1 := u32 (src1_y_end cfg + 1) in
  let yuv_to_rgb := c_true (src1_fmt cfg .& GE2D_FORMAT_YUV) && negb (c_true (dst_fmt cfg .& GE2D_FORMAT_YUV)) in
  let '(xs, xe, xp) := chroma_axis yuv_to_rgb true x_yc_ratio (src1_x_rev cfg + dst_x_rev cfg =? 1) in
  let '(ys, ye, yp) := chroma_axis yuv_to_rgb false y_yc_ratio (src1_y_rev cfg + dst_y_rev cfg =? 1) in
  [ Wr GE2D_SRC1_X_START_END ((xs << 30) .| ((src1_x_start cfg .& 0x3fff) << 16) .| (xe << 14) .| (src1_x_end cfg .& 0x3fff));
    Wr GE2D_SRC1_Y_START_END ((ys << 30) .| ((src1_y_start cfg .& 0x3fff) << 16) .| (ye << 14) .| (src1_y_end_1 .& 0x3fff));
    Bits GE2D_SRC1_FMT_CTRL xp 8 8;
    Bits GE2D_SRC1_FMT_CTRL yp 0 8 ] ++
  when_op (same_size cfg) [ Bits GE2D_SRC1_FMT_CTRL 1 19 1; Bits GE2D_SRC1_FMT_CTRL 1 17 1 ] ++
  [ Wr GE2D_SRC2_X_START_END ((src2_x_start cfg << 16) .| src2_x_end cfg);
    Wr GE2D_SRC2_Y_START_END ((src2_y_start cfg << 16) .| src2_y_end cfg);
    Wr GE2D_DST_X_START_END ((dst_x_start cfg << 16) .| dst_x_end cfg);
    Wr GE2D_DST_Y_START_END ((dst_y_start cfg << 16) .| dst_y_end cfg) ].

(** Division of unsigned and of signed integers; by zero it is undefined. *)
Definition udiv (a b : Z) : option Z := if b =? 0 then None else Some (a / b).
Definition sdiv (a b : Z) : option Z := if b =? 0 then None else Some (Z.quot a b).

Record scaler := mk_scaler { sc_widthi : Z; sc_heighti : Z; sc_widtho : Z; sc_heighto : Z; prehsc : Z; prevsc : Z }.
Definition scaler_of (cfg : ge2d_cmd_s) : scaler :=
  let w_dst := u32 (dst_x_end cfg - dst_x_start cfg + 1) in
  let h_dst := u32 (dst_y_end cfg - dst_y_start cfg + 1) in
  let widthi := u32 (src1_x_end cfg - src1_x_start cfg + 1) in
  let heighti := u32 (src1_y_end cfg - src1_y_start cfg + 1) in
  let widtho := if c_true (dst_xy_swap cfg) then h_dst else w_dst in
  let heighto := if c_true (dst_xy_swap cfg) then w_dst else h_dst in
  mk_scaler widthi heighti widtho heighto (if widtho * 2 <? widthi then 1 else 0) (if heighto * 2 <? heighti then 1 else 0).

(** The step of one axis, when the caller left it 0: [size] through the prescaler, over
    the output size, in 24 fractional bits. *)
Definition phase_step (pre sizei sizeo : Z) : option Z :=
  let tmp := if c_true pre then u32 (sizei + 1) >> 1 else sizei in
  q ← udiv (u32 (tmp << 18)) sizeo; Some (s32 (q << 6)).

Definition set_steps (sc : scaler) (cfg : ge2d_cmd_s) : option ge2d_cmd_s :=
  hs ← (if hsc_phase_step cfg =? 0 then phase_step (prehsc sc) (sc_widthi sc) (sc_widtho sc) else Some (hsc_phase_step cfg));
  vs ← (if vsc_phase_step cfg =? 0 then phase_step (prevsc sc) (sc_heighti sc) (sc_heighto sc) else Some (vsc_phase_step cfg));
  let cfg := cfg<| hsc_phase_step := hs |><| vsc_phase_step := vs |> in
  if c_true (sc_hsc_en cfg) && c_true (hsc_div_en cfg) then
    len ← sdiv (124 << 24) (hsc_phase_step cfg);
    let len := u32 len in
    let multo := u32 (hsc_phase_step cfg * len) in
    Some (cfg<| hsc_div_length := len |><| hsc_adv_num := multo >> 24 |><| hsc_adv_phase := multo .& 0xffffff |>)
  else Some cfg.

(** The initial phase for a ratio in tenths: [None] for no scaling, else the number of
    repeated lines and the phase. *)
Definition ini_phase (rate : Z) : option (Z * Z) :=
  if rate =? 10 then None
  else if rate <? 10 then Some (1, if rate =? 0 then 0x5000000 else s32 (Z.quot 0x5000000 rate - 0x800000))
  else Some (2, s32 (0x800000 + Z.quot 0x5000000 rate)).

(** The assignments and operations when no Gaussian filter is in use. *)
Definition set_phases (sc : scaler) (cfg : ge2d_cmd_s) : option (ge2d_cmd_s * list reg_op) :=
  rw ← udiv (sc_widtho sc * 10) (sc_widthi sc);
  rh ← udiv (sc_heighto sc * 10) (sc_heighti sc);
  let cfg := match ini_phase (s32 rh) with
             | None => cfg<| vsc_ini_phase := 0 |>
             | Some (n, p) => cfg<| sc_vsc_en := 1 |><| vsc_rpt_l0_num := n |><| vsc_ini_phase := p |>
             end in
  let cfg := match ini_phase (s32 rw) with
             | None => cfg<| hsc_ini_phase := 0 |>
             | Some (n, p) => cfg<| sc_hsc_en := 1 |><| hsc_rpt_p0_num := n |><| hsc_ini_phase := p |>
             end in
  Some (cfg, when_op (s32 rh =? 10) [ Bits GE2D_SC_MISC_CTRL 0 8 2 ] ++ when_op (s32 rw =? 10) [ Bits GE2D_SC_MISC_CTRL 0 8 2 ] ++
             [ Bits GE2D_GEN_CTRL2 1 27 1; Bits GE2D_GEN_CTRL2 1 25 1 ]).

(** The rest of the scaler, with the adjustment of [hsc_adv_num] on the way. *)
Definition scale_cmd_regs (sc : scaler) (cfg : ge2d_cmd_s) : ge2d_cmd_s * list reg_op :=
  let adv := Wr GE2D_HSC_ADV_CTRL ((hsc_adv_num cfg << 24) .| hsc_adv_phase cfg) in
  let misc := Bits GE2D_SC_MISC_CTRL ((hsc_div_en cfg << 17) .| (hsc_div_length cfg << 4) .| (prehsc sc << 3) .| (prevsc sc << 2) .|
                (sc_vsc_en cfg << 1) .| sc_hsc_en cfg) 11 18 in
  let cfg := cfg<| hsc_adv_num := if 255 <? hsc_adv_num cfg then hsc_adv_num cfg >> 8 else 0 |> in
  (cfg, [ misc;
          Wr GE2D_HSC_START_PHASE_STEP (hsc_phase_step cfg);
          Wr GE2D_HSC_PHASE_SLOPE (hsc_phase_slope cfg);
          adv;
          Wr GE2D_HSC_INI_CTRL ((hsc_rpt_p0_num cfg << 29) .| (hsc_adv_num cfg << 24) .| (hsc_ini_phase cfg .& 0xffffff));
          Wr GE2D_VSC_START_PHASE_STEP (vsc_phase_step cfg);
          Wr GE2D_VSC_PHASE_SLOPE (vsc_phase_slope cfg);
          Wr GE2D_VSC_INI_CTRL ((vsc_rpt_l0_num cfg << 29) .| vsc_ini_phase cfg) ]).

Definition alu_regs (dev : ge2d_device_data_s) (cfg : ge2d_cmd_s) : list reg_op :=
  let cdst := if color_blend_mode cfg =? 5 then color_logic_op cfg else color_dst_blend_factor cfg in
  let adst := if alpha_blend_mode cfg =? 5 then alpha_logic_op cfg else alpha_dst_blend_factor cfg in
  let rest := (color_blend_mode cfg << 20) .| (color_src_blend_factor cfg << 16) .| (cdst << 12) .| (alpha_blend_mode cfg << 8) .|
              (alpha_src_blend_factor cfg << 4) .| adst in
  if src2_alp dev =? 1 then
    [ Wr GE2D_ALU_OP_CTRL ((src2_cmult_ad cfg << 27) .| (src1_cmult_asel cfg << 25) .| (src2_cmult_asel cfg << 23) .| rest) ]
  else [ Wr GE2D_ALU_OP_CTRL ((src1_cmult_asel cfg << 25) .| (src2_cmult_asel cfg << 24) .| rest) ].

Definition start_regs (dev : ge2d_device_data_s) (cfg : ge2d_cmd_s) : list reg_op :=
  when_op (dev_hang_flag dev =? 1) [ Bits GE2D_GEN_CTRL4 (hang_flag cfg) 0 1 ] ++
  [ Wr GE2D_CMD_CTRL ((src2_fill_color_en cfg << 9) .| (src1_fill_color_en cfg << 8) .| (dst_xy_swap cfg << 7) .| (dst_x_rev cfg << 6) .|
      (dst_y_rev cfg << 5) .| (src2_x_rev cfg << 4) .| (src2_y_rev cfg << 3) .| (src1_x_rev cfg << 2) .| (src1_y_rev cfg << 1) .| 1) ].

(** The command as it is after the call, and the operations after the ratios have
    been read; the last one starts the engine. *)
Definition cmd_regs (dev : ge2d_device_data_s) (gaul_filter_used : bool) (x_yc y_yc : Z) (cfg : ge2d_cmd_s) : option (ge2d_cmd_s * list reg_op) :=
  let sc := scaler_of cfg in
  let win := window_regs x_yc y_yc cfg in
  cfg ← set_steps sc cfg;
  '(cfg, phase) ← (if gaul_filter_used then Some (cfg, []) else set_phases sc cfg);
  let '(cfg, scale) := scale_cmd_regs sc cfg in
  Some (cfg<| release_flag := Z.lor (release_flag cfg) START_FLAG |>, win ++ phase ++ scale ++ alu_regs dev cfg ++ start_regs dev cfg).

(** ** Time *)

(** The engine works while the CPU waits: [tick] is a moment of it, [wait_cmd] a wait
    for the interrupt of at most a second, with its result (0 after the second). *)
Class GeTime (H : Type) := {
  tick : H -> H;
  wait_cmd : H -> Z * H }.

Section Command.
Context {H : Type} `{GeBus H} `{GeTime H}.
Implicit Types io : io_s H.

Definition on_hw (f : H -> H) io : io_s H :=
  mk_io (map_flag io) (ge2d_reg_map io) (ge2d_dump_reg_enable io) (ge2d_dump_reg_cnt io) (f (hw io)).

Definition ge2d_cmd_fifo_full io : Z * io_s H := let '(v, io) := ge2d_reg_read GE2D_STATUS0 io in (v .& (1 << 1), io).
Definition ge2d_is_busy io : bool * io_s H := let '(v, io) := ge2d_reg_read GE2D_STATUS0 io in (c_true (v .& 1), io).

(** [while (ge2d_reg_read (GE2D_STATUS0) & 2);] *)
Fixpoint wait_fifo (fuel : nat) io : option (io_s H) :=
  match fuel with
  | O => None
  | S fuel => let '(full, io) := ge2d_cmd_fifo_full io in if c_true full then wait_fifo fuel (on_hw tick io) else Some io
  end.
Fixpoint ge2d_wait_done (fuel : nat) io : option (io_s H) :=
  match fuel with
  | O => None
  | S fuel => let '(busy, io) := ge2d_is_busy io in if (busy : bool) then ge2d_wait_done fuel (on_hw tick io) else Some io
  end.

Definition ge2d_set_cmd (fuel : nat) (dev : ge2d_device_data_s) (gaul_filter_used : bool) (cfg : ge2d_cmd_s) io : option (ge2d_cmd_s * io_s H) :=
  io ← wait_fifo fuel io;
  let '(x_yc, io) := ge2d_reg_get_bits GE2D_GEN_CTRL0 11 1 io in
  let '(y_yc, io) := ge2d_reg_get_bits GE2D_GEN_CTRL0 10 1 io in
  '(cfg, ops) ← cmd_regs dev gaul_filter_used x_yc y_yc cfg;
  Some (cfg, run_ops ops io).
End Command.
