(* ===== verification/Ge2dGen.v ===== *)
(** * The configuration of a context of the 2D engine (ge2d/ge2dgen.c)

    The setters record what a caller wants in the configuration of its context and
    mark the parts of the registers that have to be programmed again. *)

From stdpp Require Import base numbers list option.
From coqutil Require Import Datatypes.RecordSetters.
From S2P Require Import Prelude Ge2dReg Ge2dStruct Ge2dHw.

(** ** Configurations, commands and contexts *)

(** A buffer to detach after the command; [dma_cfg] points to what
    [ge2d_buffer_get_phys] left. *)
Record ge2d_dma_cfg_s := mk_dma_cfg { dma_used : Z; dma_cfg : option Z }.
Definition zero_dma_cfg : ge2d_dma_cfg_s := mk_dma_cfg 0 None.

Record ge2d_config_s := mk_config {
  gen : ge2d_gen_s;
  src1_data : ge2d_src1_data_s; src1_gen : ge2d_src1_gen_s;
  src2_dst_data : ge2d_src2_dst_data_s; src2_dst_gen : ge2d_src2_dst_gen_s;
  dp_gen : ge2d_dp_gen_s;
  v_scale_coef_type : Z; h_scale_coef_type : Z; update_flag : Z;
  src_canvas_cfg : list ge2d_canvas_cfg_s; src2_canvas_cfg : list ge2d_canvas_cfg_s; dst_canvas_cfg : list ge2d_canvas_cfg_s;
  src_dma_cfg : list ge2d_dma_cfg_s; src2_dma_cfg : list ge2d_dma_cfg_s; dst_dma_cfg : list ge2d_dma_cfg_s;
  matrix_custom : ge2d_matrix_s }.
Definition zero_config : ge2d_config_s :=
  mk_config zero_gen zero_src1_data zero_src1_gen zero_src2_dst_data zero_src2_dst_gen zero_dp_gen 0 0 0
    (replicate MAX_PLANE zero_canvas_cfg) (replicate MAX_PLANE zero_canvas_cfg) (replicate MAX_PLANE zero_canvas_cfg)
    (replicate MAX_PLANE zero_dma_cfg) (replicate MAX_PLANE zero_dma_cfg) (replicate MAX_PLANE zero_dma_cfg) zero_matrix.

Record ge2d_queue_item_s := mk_item { i_cmd : ge2d_cmd_s; i_config : ge2d_config_s }.
Definition zero_item : ge2d_queue_item_s := mk_item zero_cmd zero_config.

(** Without its link in the list of contexts, its lock and its wait queue; the two
    lists hold the items by address. *)
Record ge2d_context_s := mk_context {
  config : ge2d_config_s; cmd : ge2d_cmd_s;
  work_queue : list Z; free_queue : list Z;
  ge2d_request_exit : Z }.
Definition zero_context : ge2d_context_s := mk_context zero_config zero_cmd [] [] 0.

Implicit Types (wq : ge2d_context_s) (c : ge2d_config_s).

(** [wq->config.update_flag |= flag] *)
Definition mark (flag : Z) c : ge2d_config_s := c<| update_flag := Z.lor (update_flag c) flag |>.
Definition on_config (f : ge2d_config_s -> ge2d_config_s) wq : ge2d_context_s := wq<| config := f (config wq) |>.
Definition on_cmd (f : ge2d_cmd_s -> ge2d_cmd_s) wq : ge2d_context_s := wq<| cmd := f (cmd wq) |>.

(** ** Formats *)

(** The colour conversion between two formats: [use_matrix_default] and
    [conv_matrix_en]. *)
Definition set_matrix (format_src format_dst : Z) (dp : ge2d_dp_gen_s) : ge2d_dp_gen_s :=
  let yuv f := c_true (f .& GE2D_FORMAT_YUV) in
  if c_true (format_src .& GE2D_MATRIX_CUSTOM) || c_true (format_dst .& GE2D_MATRIX_CUSTOM) then
    dp<| use_matrix_default := MATRIX_CUSTOM |><| conv_matrix_en := 1 |>
  else if yuv format_src && negb (yuv format_dst) then
    dp<| use_matrix_default := if c_true (format_src .& GE2D_FORMAT_FULL_RANGE) then MATRIX_FULL_RANGE_YCC_TO_RGB else MATRIX_YCC_TO_RGB |>
      <| conv_matrix_en := 1 |>
  else if negb (yuv format_src) && yuv format_dst then
    dp<| use_matrix_default :=
           Z.lor (if c_true (format_dst .& GE2D_FORMAT_FULL_RANGE) then MATRIX_RGB_TO_FULL_RANGE_YCC else MATRIX_RGB_TO_YCC)
                 (if c_true (format_dst .& GE2D_FORMAT_BT_STANDARD) then MATRIX_BT_709 else MATRIX_BT_601) |>
      <| conv_matrix_en := 1 |>
  else dp<| conv_matrix_en := 0 |>.

Definition _set_src1_format (format_src format_dst : Z) c : ge2d_config_s :=
  let d := src1_data c in
  c<| src1_data := d<| format_all := format_src |>
        <| s1_format := (format_src >> 8) .& 3 |><| s1_mode_8b_sel := (format_src >> 6) .& 3 |>
        <| lut_en := (format_src >> 5) .& 1 |><| sep_en := (format_src >> 2) .& 1 |>
        <| s1_endian := (format_src .& GE2D_ENDIAN_MASK) >> GE2D_ENDIAN_SHIFT |>
        <| s1_color_map := (format_src .& GE2D_COLOR_MAP_MASK) >> GE2D_COLOR_MAP_SHIFT |>
        <| x_yc_ratio := (format_src >> 1) .& 1 |><| y_yc_ratio := format_src .& 1 |>
        <| s1_deep_color := if c_true (format_src .& GE2D_FORMAT_DEEP_COLOR) then 1 else 0 |> |>
   <| src1_gen := (src1_gen c)<| pic_struct := (format_src >> 3) .& 3 |> |>
   <| dp_gen := set_matrix format_src format_dst (dp_gen c) |>.

Definition _set_src2_format (format : Z) c : ge2d_config_s :=
  c<| src2_dst_data := (src2_dst_data c)<| src2_format_all := format |><| src2_format := (format >> 8) .& 3 |>
        <| src2_endian := (format .& GE2D_ENDIAN_MASK) >> GE2D_ENDIAN_SHIFT |>
        <| src2_color_map := (format .& GE2D_COLOR_MAP_MASK) >> GE2D_COLOR_MAP_SHIFT |>
        <| src2_mode_8b_sel := (format >> 6) .& 3 |> |>
   <| src2_dst_gen := (src2_dst_gen c)<| src2_pic_struct := (format >> 3) .& 3 |> |>.

(** With a second destination for the chroma of NV12 and NV21. *)
Definition set_dst2 (format_dst : Z) (d : ge2d_src2_dst_data_s) : ge2d_src2_dst_data_s :=
  if c_true (format_dst .& GE2D_FORMAT_YUV) && (Z.lor (dst_color_map d) 1 =? 15) then
    d<| dst_format := 0 |><| dst_mode_8b_sel := 0 |><| dst2_pixel_byte_width := 1 |>
     <| dst2_discard_mode := if format_dst .& 1 =? 0 then 0xc else 0xf |>
     <| dst2_enable := 1 |><| dst2_color_map := u8 (dst_color_map d - 5) |>
  else d<| dst2_enable := 0 |>.

Definition _set_dst_format (format_src format_dst : Z) c : ge2d_config_s :=
  let d := (src2_dst_data c)<| dst_format_all := format_dst |><| dst_format := (format_dst >> 8) .& 3 |>
             <| dst_endian := (format_dst .& GE2D_ENDIAN_MASK) >> GE2D_ENDIAN_SHIFT |>
             <| dst_color_map := (format_dst .& GE2D_COLOR_MAP_MASK) >> GE2D_COLOR_MAP_SHIFT |>
             <| dst_mode_8b_sel := (format_dst >> 6) .& 3 |> in
  c<| src2_dst_data := set_dst2 format_dst d |>
   <| src2_dst_gen := (src2_dst_gen c)<| dst_pic_struct := (format_dst >> 3) .& 3 |> |>
   <| dp_gen := set_matrix format_src format_dst (dp_gen c) |>.

(** ** Setters *)

Definition ge2dgen_src (canvas_addr format phy_addr stride : Z) : ge2d_context_s -> ge2d_context_s := on_config (fun c =>
  let d := src1_data c in
  let '(canvas_addr, format, phy_addr, stride) := (u32 canvas_addr, u32 format, u32 phy_addr, u32 stride) in
  if negb (format =? format_all d) || negb (canvas_addr =? canaddr d) || negb (phy_addr =? s1_phy_addr d) || negb (stride =? s1_stride d) then
    let c := c<| src1_data := d<| canaddr := canvas_addr |> |> in
    let c := _set_src1_format format (dst_format_all (src2_dst_data c)) c in
    let c := c<| src1_data := (src1_data c)<| s1_phy_addr := phy_addr |><| s1_stride := stride |> |> in
    mark UPDATE_DP_GEN (mark UPDATE_SRC_GEN (mark UPDATE_SRC_DATA c))
  else c).

Definition ge2dgen_antiflicker (enable : Z) : ge2d_context_s -> ge2d_context_s := on_config (fun c =>
  let enable_tmp := if c_true enable then 1 else 0 in
  if negb (antiflick_en (dp_gen c) =? enable_tmp) then mark UPDATE_DP_GEN (c<| dp_gen := (dp_gen c)<| antiflick_en := enable_tmp |> |>) else c).

Definition ge2dgen_post_release_src1buf (buffer : Z) : ge2d_context_s -> ge2d_context_s :=
  on_cmd (fun k => k<| src1_buffer := u32 buffer |><| release_flag := Z.lor (release_flag k) RELEASE_SRC1_BUFFER |>).
Definition ge2dgen_post_release_src1canvas : ge2d_context_s -> ge2d_context_s :=
  on_cmd (fun k => k<| release_flag := Z.lor (release_flag k) RELEASE_SRC1_CANVAS |>).
Definition ge2dgen_post_release_src2buf (buffer : Z) : ge2d_context_s -> ge2d_context_s :=
  on_cmd (fun k => k<| src2_buffer := u32 buffer |><| release_flag := Z.lor (release_flag k) RELEASE_SRC2_BUFFER |>).
Definition ge2dgen_post_release_src2canvas : ge2d_context_s -> ge2d_context_s :=
  on_cmd (fun k => k<| release_flag := Z.lor (release_flag k) RELEASE_SRC2_CANVAS |>).
Definition ge2dgen_cb (cb param : Z) : ge2d_context_s -> ge2d_context_s :=
  on_cmd (fun k => k<| cmd_cb := cb |><| cmd_cb_param := u32 param |><| release_flag := Z.lor (release_flag k) RELEASE_CB |>).

Definition ge2dgen_src2 (canvas_addr format phy_addr stride : Z) : ge2d_context_s -> ge2d_context_s := on_config (fun c =>
  let d := src2_dst_data c in
  let '(canvas_addr, format, phy_addr, stride) := (u32 canvas_addr, u32 format, u32 phy_addr, u32 stride) in
  if negb (format =? src2_format_all d) || negb (canvas_addr =? src2_canaddr d) || negb (phy_addr =? src2_phyaddr d) || negb (stride =? src2_stride d) then
    let c := c<| src2_dst_data := d<| src2_canaddr := u8 canvas_addr |> |> in
    let c := _set_src2_format format c in
    let c := c<| src2_dst_data := (src2_dst_data c)<| src2_phyaddr := phy_addr |><| src2_stride := stride |> |> in
    mark UPDATE_DST_GEN (mark UPDATE_DST_DATA c)
  else c).

Definition ge2dgen_dst (canvas_addr format phy_addr stride : Z) : ge2d_context_s -> ge2d_context_s := on_config (fun c =>
  let d := src2_dst_data c in
  let '(canvas_addr, format, phy_addr, stride) := (u32 canvas_addr, u32 format, u32 phy_addr, u32 stride) in
  if negb (format =? dst_format_all d) || negb (canvas_addr =? dst_canaddr d) || negb (phy_addr =? dst_phyaddr d) || negb (stride =? dst_stride d) then
    let c := c<| src2_dst_data := d<| dst_canaddr := canvas_addr |> |> in
    let c := _set_dst_format (format_all (src1_data c)) format c in
    let c := c<| src2_dst_data := (src2_dst_data c)<| dst_phyaddr := phy_addr |><| dst_stride := stride |> |> in
    mark UPDATE_DP_GEN (mark UPDATE_DST_GEN (mark UPDATE_DST_DATA c))
  else c).

Definition ge2dgen_src_clip (x y w h : Z) : ge2d_context_s -> ge2d_context_s := on_config (fun c =>
  let g := src1_gen c in
  let '(x_end, y_end) := (s32 (x + w - 1), s32 (y + h - 1)) in
  if negb (clipx_start g =? x) || negb (clipx_end g =? x_end) || negb (clipy_start g =? y) || negb (clipy_end g =? y_end) then
    mark UPDATE_SRC_GEN (c<| src1_gen := g<| clipx_start := x |><| clipx_end := x_end |><| clipy_start := y |><| clipy_end := y_end |> |>)
  else c).

Definition ge2dgen_src2_clip (x y w h : Z) : ge2d_context_s -> ge2d_context_s := on_config (fun c =>
  let g := src2_dst_gen c in
  let '(x_end, y_end) := (s32 (x + w - 1), s32 (y + h - 1)) in
  if negb (src2_clipx_start g =? x) || negb (src2_clipx_end g =? x_end) || negb (src2_clipy_start g =? y) || negb (src2_clipy_end g =? y_end) then
    mark UPDATE_DST_GEN (c<| src2_dst_gen := g<| src2_clipx_start := x |><| src2_clipx_end := x_end |><| src2_clipy_start := y |><| src2_clipy_end := y_end |> |>)
  else c).
(** A copy of the function before it. *)
Definition ge2dgent_src2_clip (x y w h : Z) : ge2d_context_s -> ge2d_context_s := ge2dgen_src2_clip x y w h.

Definition ge2dgen_src_key (en key keymask keymode : Z) : ge2d_context_s -> ge2d_context_s := on_config (fun c =>
  let dp := dp_gen c in
  if negb (src1_key_en dp =? en) || negb (src1_key dp =? u32 key) || negb (src1_key_mask dp =? u32 keymask) || negb (src1_key_mode dp =? keymode) then
    mark UPDATE_DP_GEN (c<| dp_gen := dp<| src1_key_en := en .& 1 |><| src1_key := u32 key |><| src1_key_mask := u32 keymask |>
                                 <| src1_key_mode := keymode .& 1 |><| src1_vsc_bank_length := 4 |><| src1_hsc_bank_length := 4 |> |>)
  else c).

Definition ge2dgent_src_gbalpha (alpha1 alpha2 : Z) : ge2d_context_s -> ge2d_context_s := on_config (fun c =>
  let dp := dp_gen c in
  if negb (src1_gb_alpha dp =? u8 alpha1) || negb (src2_gb_alpha dp =? u8 alpha2) then
    mark UPDATE_DP_GEN (c<| dp_gen := dp<| src1_gb_alpha := u8 alpha1 |><| src2_gb_alpha := u8 alpha2 |> |>)
  else c).

Definition ge2dgen_src_color (color : Z) : ge2d_context_s -> ge2d_context_s := on_config (fun c =>
  if negb (def_color (src1_data c) =? u32 color) then mark UPDATE_SRC_DATA (c<| src1_data := (src1_data c)<| def_color := u32 color |> |>) else c).

Definition ge2dgen_rendering_dir (src_x_dir src_y_dir dst_x_dir dst_y_dir xy_swap : Z) : ge2d_context_s -> ge2d_context_s :=
  on_cmd (fun k => k<| src1_x_rev := u8 src_x_dir |><| src1_y_rev := u8 src_y_dir |><| dst_x_rev := u8 dst_x_dir |><| dst_y_rev := u8 dst_y_dir |>
                    <| dst_xy_swap := u8 xy_swap |>).

Definition ge2dgen_dst_clip (x y w h mode : Z) : ge2d_context_s -> ge2d_context_s := on_config (fun c =>
  let g := src2_dst_gen c in
  let '(x_end, y_end) := (s32 (x + w - 1), s32 (y + h - 1)) in
  if negb (dst_clipx_start g =? x) || negb (dst_clipx_end g =? x_end) || negb (dst_clipy_start g =? y) || negb (dst_clipy_end g =? y_end) || negb (dst_clip_mode g =? mode) then
    mark UPDATE_DST_GEN (c<| src2_dst_gen := g<| dst_clipx_start := x |><| dst_clipx_end := x_end |><| dst_clipy_start := y |><| dst_clipy_end := y_end |>
                                   <| dst_clip_mode := u8 mode |> |>)
  else c).

Definition ge2dgen_const_color (color : Z) : ge2d_context_s -> ge2d_context_s := on_config (fun c =>
  if negb (alu_const_color (dp_gen c) =? u32 color) then mark UPDATE_DP_GEN (c<| dp_gen := (dp_gen c)<| alu_const_color := u32 color |> |>) else c).

Definition ge2dgen_disable_matrix : ge2d_context_s -> ge2d_context_s := on_config (fun c =>
  mark UPDATE_DP_GEN (c<| dp_gen := (dp_gen c)<| conv_matrix_en := 0 |> |>)).

(** [ge2d_wq_set_scale_coef] of ge2d_wq.c *)
Definition ge2d_wq_set_scale_coef (v_type h_type : Z) : ge2d_context_s -> ge2d_context_s := on_config (fun c =>
  mark UPDATE_SCALE_COEF (c<| v_scale_coef_type := u32 v_type |><| h_scale_coef_type := u32 h_type |>)).
