(* ===== verification/Ge2dDma.v ===== *)
(** * The DMA buffers of the 2D engine (ge2d/ge2d_dmabuf.c)

    A table of 32 slots over reference-counted buffers of contiguous memory that user
    space allocates, exports as files and frees, and the import of the files of
    others.  Buffers are a heap by address: taking a buffer that is gone is undefined
    ([None]).  The dma-buf core of the kernel calls back when the last reference to a
    file goes ([aml_dmabuf_ops_release]). *)

From stdpp Require Import base numbers list option gmap.
From coqutil Require Import Datatypes.RecordSetters.
From S2P Require Import Prelude StateM Ge2dStruct.

Definition AML_MAX_DMABUF : Z := 32.
Definition EIO : Z := 5.
Definition DMA_TO_DEVICE : Z := 1.
Definition DMA_FROM_DEVICE : Z := 2.
Definition DMA_NONE : Z := 3.
Definition O_ACCMODE : Z := 3.

(** The kernel.  Addresses of structures are never 0. *)
Class DmaKernel (K : Type) := {
  (** [kzalloc]/[kfree] of a structure *)
  k_alloc : K -> option Z * K;
  k_free : Z -> K -> K;
  (** [dma_alloc_from_contiguous]: the physical address of the pages *)
  dma_alloc_pages : Z -> K -> option Z * K;
  dma_release_pages : Z -> Z -> K -> bool * K;
  page_high_mem : Z -> bool;
  phys_to_virt : Z -> Z;
  is_vmalloc_addr : Z -> bool;
  vmalloc_ok : K -> bool * K;
  vmap : list Z -> K -> Z * K; (* 0 when it fails *)
  vunmap : Z -> K -> K;
  (** files of dma-buf *)
  dma_buf_export : Z -> Z -> Z -> K -> option Z * K; (* priv, size, flags *)
  dma_buf_fd : Z -> Z -> K -> Z * K;
  dma_buf_get : Z -> K -> option Z * K;
  dma_buf_put : Z -> K -> bool * K; (* was it the last reference? *)
  (** who exported a file: our buffer, or a structure of another driver *)
  dma_buf_priv : Z -> K -> Z + unit;
  (** importing a file *)
  dma_buf_attach : Z -> K -> option Z * K;
  dma_buf_detach : Z -> Z -> K -> K;
  dma_buf_map_attachment : Z -> Z -> K -> option Z * K;
  dma_buf_unmap_attachment : Z -> Z -> Z -> K -> K;
  dma_buf_begin_cpu_access : Z -> Z -> K -> Z * K;
  dma_buf_end_cpu_access : Z -> Z -> K -> K;
  dma_buf_vmap : Z -> K -> Z * K;
  dma_buf_vunmap : Z -> Z -> K -> K;
  (** the physical address of the first page of a scatter table *)
  sg_phys : Z -> K -> Z;
  (** [sg_alloc_table] for the attachments of others *)
  sg_alloc_ok : Z -> K -> bool * K;
  dma_map_sg : list Z -> Z -> K -> Z * K;
  dma_sync : Z -> Z -> Z -> K -> K }.

Record aml_dma_buf := mk_dma_buf {
  vaddr : Z; size : Z; dma_dir : Z; attrs : Z; index : Z; dma_addr : Z; refcount : Z;
  priv : option unit (* the table, which is one *) }.

Record aml_dma_buf_priv := mk_priv { mem_priv : option Z; pv_index : Z; pv_fd : Z; alloc : Z; pv_dbuf : option Z }.
Definition zero_priv : aml_dma_buf_priv := mk_priv None 0 0 0 None.

Record aml_dma_cfg := mk_cfg { cfg_fd : Z; cfg_vaddr : Z; cfg_dbuf : option Z; cfg_attach : option Z; cfg_sg : option Z; cfg_dir : Z }.

(** [struct aml_attachment]: the pages of its scatter list and the direction it is
    mapped for. *)
Record aml_attachment := mk_attachment { sgl : list Z; at_dir : Z }.

Record dma_s (K : Type) := mk_dma {
  bufs : gmap Z aml_dma_buf;
  gd_buffer : option (list aml_dma_buf_priv); (* ge2d_manager.buffer *)
  attachments : gmap Z aml_attachment;
  kern : K }.
Arguments mk_dma {K}.
Arguments bufs {K}.
Arguments gd_buffer {K}.
Arguments attachments {K}.
Arguments kern {K}.

Section Dma.
Context {K : Type} `{DmaKernel K}.
Notation M := (ST (S := dma_s K)).
Implicit Types s : dma_s K.

Definition with_bufs s b : dma_s K := mk_dma b (gd_buffer s) (attachments s) (kern s).
Definition with_table s t : dma_s K := mk_dma (bufs s) t (attachments s) (kern s).
Definition with_attachments s a : dma_s K := mk_dma (bufs s) (gd_buffer s) a (kern s).
Definition with_kern s k : dma_s K := mk_dma (bufs s) (gd_buffer s) (attachments s) k.

(** A call of the kernel. *)
Definition kcall {A} (f : K -> A * K) : M A := fun s => let '(a, k) := f (kern s) in Some (a, with_kern s k).
Definition kdo (f : K -> K) : M unit := modify (fun s => with_kern s (f (kern s))).
Definition kget {A} (f : K -> A) : M A := gets (fun s => f (kern s)).

(** [*buf], and an assignment to it. *)
Definition buf_at (a : Z) : M aml_dma_buf := b ← gets (fun s => bufs s !! a); of_opt b.
Definition put_buf (a : Z) (b : aml_dma_buf) : M unit := modify (fun s => with_bufs s (<[a := b]> (bufs s))).
Definition table : M (list aml_dma_buf_priv) := t ← gets gd_buffer; of_opt t.
Definition slot (i : Z) : M aml_dma_buf_priv := t ← table; of_opt (aget t i).
Definition put_slot (i : Z) (p : aml_dma_buf_priv) : M unit :=
  t ← table; t ← of_opt (aset t i p); modify (fun s => with_table s (Some t)).

(** ** Memory *)

Fixpoint page_list (n : nat) (phys : Z) : list Z := match n with O => [] | S n => phys :: page_list n (u64 (phys + PAGE_SIZE)) end.

Definition aml_mm_vmap (phys sz : Z) : M Z :=
  let offset := phys mod PAGE_SIZE in
  let npages := u32 ((u64 (sz + offset) + PAGE_SIZE - 1) / PAGE_SIZE) in
  ok ← kcall vmalloc_ok;
  if negb ok then mret 0 else kcall (vmap (page_list (Z.to_nat npages) phys)).

Definition aml_map_phyaddr_to_virt (phys sz : Z) : M Z :=
  if negb (page_high_mem phys) then mret (phys_to_virt phys) else aml_mm_vmap phys sz.

Definition clear_dma_buffer (buffer : option unit) (i : Z) : M unit :=
  _ ← of_opt buffer;
  p ← slot i;
  put_slot i (p<| mem_priv := None |><| pv_index := 0 |><| alloc := 0 |>).

Definition aml_dma_put (a : Z) : M unit :=
  b ← buf_at a;
  let va := Z.land (u64 (- PAGE_SIZE)) (vaddr b) in
  let rc := s32 (refcount b - 1) in
  _ ← put_buf a (b<| refcount := rc |>);
  if negb (rc =? 0) then mret tt
  else
    _ ← when (is_vmalloc_addr va) (kdo (vunmap va));
    _ ← kcall (dma_release_pages (dma_addr b) (size b / PAGE_SIZE));
    b ← buf_at a;
    _ ← put_buf a (b<| vaddr := 0 |>);
    _ ← clear_dma_buffer (priv b) (index b);
    _ ← modify (fun s => with_bufs s (delete a (bufs s)));
    kdo (k_free a).

Definition aml_dma_alloc (attrs_ sz dir : Z) : M (option Z) :=
  o ← kcall k_alloc;
  match o with
  | None => mret None
  | Some a =>
      pages ← kcall (dma_alloc_pages (sz / PAGE_SIZE));
      match pages with
      | None => _ ← kdo (k_free a); mret None
      | Some paddr =>
          va ← aml_map_phyaddr_to_virt paddr sz;
          _ ← put_buf a (mk_dma_buf va sz dir attrs_ 0 paddr 1 None);
          mret (Some a)
      end
  end.

(** The pages of [dma_addr] in the address space of a process: the result, and the
    first page frame and size that were mapped. *)
Definition aml_dma_mmap (buf : option Z) (vsize : Z) (remap_pfn_range : Z -> Z -> Z) : M Z :=
  match buf with
  | None => mret (- EINVAL)
  | Some a => b ← buf_at a; mret (remap_pfn_range (dma_addr b / PAGE_SIZE) vsize)
  end.

(** ** What the dma-buf core calls for our files *)

Definition aml_dmabuf_ops_attach (buf : Z) : M (Z + Z) :=
  b ← buf_at buf;
  let num_pages := s32 (u32 (size b + PAGE_SIZE - 1) / PAGE_SIZE) in
  o ← kcall k_alloc;
  match o with
  | None => mret (inl (- ENOMEM))
  | Some a =>
      ok ← kcall (sg_alloc_ok num_pages);
      if negb ok then _ ← kdo (k_free a); mret (inl (- ENOMEM))
      else
        _ ← modify (fun s => with_attachments s (<[a := mk_attachment (page_list (Z.to_nat num_pages) (dma_addr b)) DMA_NONE]> (attachments s)));
        mret (inr a)
  end.

Definition attachment_at (a : Z) : M aml_attachment := x ← gets (fun s => attachments s !! a); of_opt x.

Definition aml_dmabuf_ops_detach (attach : option Z) : M unit :=
  match attach with
  | None => mret tt
  | Some a =>
      x ← attachment_at a;
      _ ← modify (fun s => with_attachments s (delete a (attachments s)));
      kdo (k_free a)
  end.

Definition aml_dmabuf_ops_map (attach : Z) (dir : Z) : M Z :=
  x ← attachment_at attach;
  if at_dir x =? dir then mret 0
  else
    let put d := modify (fun s => with_attachments s (<[attach := mk_attachment (sgl x) d]> (attachments s))) in
    _ ← when (negb (at_dir x =? DMA_NONE)) (put DMA_NONE);
    nents ← kcall (dma_map_sg (sgl x) dir);
    if nents =? 0 then mret (- EIO) else _ ← put dir; mret 0.

Definition aml_dmabuf_ops_release (buf : Z) : M unit := aml_dma_put buf.
Definition aml_dmabuf_ops_kmap (buf pgnum : Z) : M Z :=
  b ← buf_at buf; mret (if vaddr b =? 0 then 0 else u64 (vaddr b + pgnum * PAGE_SIZE)).
Definition aml_dmabuf_ops_vmap (buf : Z) : M Z := b ← buf_at buf; mret (vaddr b).
Definition aml_dmabuf_ops_mmap (buf vsize : Z) (remap_pfn_range : Z -> Z -> Z) : M Z := aml_dma_mmap (Some buf) vsize remap_pfn_range.

(** A reference to a file is dropped, by us or by user space closing it; the last one
    of ours calls back. *)
Definition put_file (dbuf : Z) : M unit :=
  owner ← kget (dma_buf_priv dbuf);
  last ← kcall (dma_buf_put dbuf);
  match owner with
  | inl a => when last (aml_dmabuf_ops_release a)
  | inr _ => mret tt
  end.

Definition get_dmabuf (a flags : Z) : M (option Z) :=
  b ← buf_at a;
  if vaddr b =? 0 then mret None
  else
    dbuf ← kcall (dma_buf_export a (size b) flags);
    match dbuf with
    | None => mret None
    | Some d => _ ← put_buf a (b<| refcount := s32 (refcount b + 1) |>); mret (Some d)
    end.

(** ** The table *)

Fixpoint find_empty (l : list aml_dma_buf_priv) (i : Z) : Z :=
  match l with
  | [] => -1
  | p :: l => if c_true (alloc p) then find_empty l (i + 1) else i
  end.
Definition find_empty_dma_buffer : M Z := t ← table; mret (find_empty t 0).

(** [kzalloc] gives the table, or not. *)
Definition ge2d_dma_buffer_create (ok : bool) : M unit :=
  modify (fun s => with_table s (if ok then Some (replicate (Z.to_nat AML_MAX_DMABUF) zero_priv) else None)).
Definition ge2d_dma_buffer_destroy : M unit := modify (fun s => with_table s None).

Record ge2d_dmabuf_req_s := mk_req { req_index : Z; req_len : Z; req_dma_dir : Z }.
Record ge2d_dmabuf_exp_s := mk_exp { exp_index : Z; exp_flags : Z; exp_fd : Z }.

Definition bad_index (i : Z) : bool := (i <? 0) || (AML_MAX_DMABUF <=? i).

Definition ge2d_dma_buffer_alloc (req : ge2d_dmabuf_req_s) : M (Z * ge2d_dmabuf_req_s) :=
  t ← gets gd_buffer;
  match t with
  | None => mret (- EINVAL, req)
  | Some _ =>
      let sz := Z.land (u32 (req_len req + PAGE_SIZE - 1)) (u32 (- PAGE_SIZE)) in
      if sz =? 0 then mret (- EINVAL, req)
      else
        o ← aml_dma_alloc 0 sz (req_dma_dir req);
        match o with
        | None => mret (- ENOMEM, req)
        | Some a =>
            i ← find_empty_dma_buffer;
            if bad_index i then _ ← aml_dma_put a; mret (- ENOMEM, req)
            else
              b ← buf_at a;
              _ ← put_buf a (b<| priv := Some tt |><| index := i |>);
              p ← slot i;
              _ ← put_slot i (p<| mem_priv := Some a |><| pv_index := i |><| alloc := 1 |>);
              b ← buf_at a;
              _ ← when (dma_dir b =? DMA_FROM_DEVICE) (kdo (dma_sync (dma_addr b) (size b) DMA_FROM_DEVICE));
              mret (0, mk_req i (req_len req) (req_dma_dir req))
        end
  end.

Definition ge2d_dma_buffer_free (i : Z) : M Z :=
  t ← gets gd_buffer;
  match t with
  | None => mret (- EINVAL)
  | Some _ =>
      if bad_index i then mret (- EINVAL)
      else
        p ← slot i;
        match mem_priv p with
        | None => mret (- EINVAL)
        | Some a => _ ← aml_dma_put a; mret 0
        end
  end.

Definition ge2d_dma_buffer_export (e : ge2d_dmabuf_exp_s) : M (Z * ge2d_dmabuf_exp_s) :=
  t ← gets gd_buffer;
  match t with
  | None => mret (- EINVAL, e)
  | Some _ =>
      let i := exp_index e in
      if bad_index i then mret (- EINVAL, e)
      else
        p ← slot i;
        match mem_priv p with
        | None => mret (- EINVAL, e)
        | Some a =>
            d ← get_dmabuf a (Z.land (exp_flags e) O_ACCMODE);
            match d with
            | None => mret (- EINVAL, e)
            | Some d =>
                ret ← kcall (dma_buf_fd d (Z.land (exp_flags e) (Z.lnot O_ACCMODE)));
                if ret <? 0 then _ ← put_file d; mret (ret, e)
                else
                  p ← slot i;
                  _ ← put_slot i (p<| pv_fd := ret |><| pv_dbuf := Some d |>);
                  mret (0, mk_exp i (exp_flags e) ret)
            end
        end
  end.

(** ** Importing *)

Definition ge2d_dma_buffer_map (cfg : option aml_dma_cfg) : M (Z * option aml_dma_cfg) :=
  match cfg with
  | None => mret (- EINVAL, cfg)
  | Some c =>
      if cfg_fd c <? 0 then mret (- EINVAL, cfg)
      else
        let dir := cfg_dir c in
        dbuf ← kcall (dma_buf_get (cfg_fd c));
        match dbuf with
        | None => mret (- EINVAL, cfg)
        | Some d =>
            att ← kcall (dma_buf_attach d);
            match att with
            | None => _ ← put_file d; mret (-1, cfg)
            | Some att =>
                sg ← kcall (dma_buf_map_attachment att dir);
                match sg with
                | None => _ ← kdo (dma_buf_detach d att); _ ← put_file d; mret (-1, cfg)
                | Some sg =>
                    ret ← kcall (dma_buf_begin_cpu_access d dir);
                    if negb (ret =? 0) then
                      _ ← kdo (dma_buf_unmap_attachment att sg dir); _ ← kdo (dma_buf_detach d att); _ ← put_file d; mret (ret, cfg)
                    else
                      va ← kcall (dma_buf_vmap d);
                      if va =? 0 then
                        _ ← kdo (dma_buf_end_cpu_access d dir);
                        _ ← kdo (dma_buf_unmap_attachment att sg dir); _ ← kdo (dma_buf_detach d att); _ ← put_file d; mret (ret, cfg)
                      else mret (ret, Some (mk_cfg (cfg_fd c) va (Some d) (Some att) (Some sg) dir))
                end
            end
        end
  end.

(** The loop over the slots; it asks for the file of [fd] again for each one in use. *)
Fixpoint get_phys_loop (n : nat) (i : Z) (c : aml_dma_cfg) (addr : option Z) : M (Z * aml_dma_cfg * option Z) :=
  match n with
  | O => mret (-1, c, addr)
  | S n =>
      p ← slot i;
      if c_true (alloc p) then
        dbuf ← kcall (dma_buf_get (cfg_fd c));
        match dbuf with
        | None => mret (- EINVAL, c, addr)
        | Some d =>
            _ ← put_file d;
            p ← slot i;
            if bool_decide (pv_dbuf p = Some d) then
              a ← of_opt (mem_priv p);
              b ← buf_at a;
              mret (0, c<| cfg_dbuf := Some d |>, Some (dma_addr b))
            else get_phys_loop n (i + 1) c addr
        end
      else get_phys_loop n (i + 1) c addr
  end.
Definition ge2d_dma_buffer_get_phys_internal (c : aml_dma_cfg) (addr : option Z) : M (Z * aml_dma_cfg * option Z) :=
  get_phys_loop (Z.to_nat AML_MAX_DMABUF) 0 c addr.

(** The result, the configuration and [*addr] afterwards; [None] is a variable that
    was never written. *)
Definition ge2d_dma_buffer_get_phys (cfg : option aml_dma_cfg) (addr : option Z) : M (Z * option aml_dma_cfg * option Z) :=
  match cfg with
  | None => mret (- EINVAL, cfg, addr)
  | Some c =>
      if cfg_fd c <? 0 then mret (- EINVAL, cfg, addr)
      else
        '(ret, c, addr) ← ge2d_dma_buffer_get_phys_internal c addr;
        if ret <? 0 then
          '(ret, cfg) ← ge2d_dma_buffer_map (Some c);
          if ret <? 0 then mret (ret, cfg, addr)
          else
            match cfg ≫= cfg_sg with
            | Some sg => addr ← kget (sg_phys sg); mret (0, cfg, Some addr)
            | None => mret (ret, cfg, addr)
            end
        else mret (ret, Some c, addr)
  end.

Definition ge2d_dma_buffer_unmap (cfg : option aml_dma_cfg) : M unit :=
  match cfg with
  | Some (mk_cfg fd va (Some d) (Some att) (Some sg) dir) =>
      if (fd <? 0) || (va =? 0) then mret tt
      else
        _ ← kdo (dma_buf_vunmap d va);
        _ ← kdo (dma_buf_end_cpu_access d dir);
        _ ← kdo (dma_buf_unmap_attachment att sg dir);
        _ ← kdo (dma_buf_detach d att);
        put_file d
  | _ => mret tt
  end.

Definition ours (t : list aml_dma_buf_priv) (d : option Z) : bool :=
  existsb (fun p => c_true (alloc p) && bool_decide (d = pv_dbuf p)) t.
Definition ge2d_dma_buffer_unmap_info (cfg : option aml_dma_cfg) : M Z :=
  match cfg with
  | None => mret (- EINVAL)
  | Some c =>
      if cfg_fd c <? 0 then mret (- EINVAL)
      else
        t ← table;
        _ ← when (negb (ours t (cfg_dbuf c))) (ge2d_dma_buffer_unmap cfg);
        mret 0
  end.

(** The structure behind a file is taken for a buffer of ours, whoever exported it. *)
Definition sync_file (fd dir : Z) : M unit :=
  dbuf ← kcall (dma_buf_get fd);
  match dbuf with
  | None => mret tt
  | Some d =>
      owner ← kget (dma_buf_priv d);
      match owner with
      | inl a =>
          b ← buf_at a;
          _ ← when (0 <? size b) (kdo (dma_sync (dma_addr b) (size b) dir));
          put_file d
      | inr _ => undef
      end
  end.
Definition ge2d_dma_buffer_dma_flush (fd : Z) : M unit := sync_file fd DMA_TO_DEVICE.
Definition ge2d_dma_buffer_cache_flush (fd : Z) : M unit := sync_file fd DMA_FROM_DEVICE.
End Dma.
