(* ===== verification/Ge2dWq.v ===== *)
(** * The work queues of the 2D engine (ge2d/ge2d_wq.c)

    Every open file has a context with a configuration, a command and two lists of
    items; the monitor thread takes the contexts in turn and runs the items of each.
    Contexts, items and the descriptions of imported buffers are heaps by address:
    what was freed is not in them, and a use of it is undefined ([None]).  Where the
    code of two threads interleaves, a function is split at its lock or wait. *)

From stdpp Require Import base numbers list option gmap strings.
From coqutil Require Import Datatypes.RecordSetters.
From S2P Require Import Prelude StateM KText KNum Canvas Ge2dReg Ge2dStruct Ge2dHw Ge2dGen Ge2dDma.

Definition MAX_GE2D_CMD : nat := 32.
Definition GE2D_STATE_IDLE : Z := 0.
Definition GE2D_STATE_RUNNING : Z := 1.
Definition GE2D_PROCESS_QUEUE_START : Z := 0.
Definition GE2D_PROCESS_QUEUE_STOP : Z := 1.
Definition CANVAS_BLKMODE_LINEAR : Z := 0x00.
Definition OSD1_CANVAS_INDEX : Z := 0x40.
Definition OSD2_CANVAS_INDEX : Z := 0x43.
Definition ALLOC_CANVAS_INDEX : Z := 0x44.

(** Clocks and power of the engine. *)
Class GePower (H : Type) := {
  clk_prepare_enable : H -> H;
  clk_disable_unprepare : H -> H;
  (** one line of a power table: type, register, value, start, length *)
  ge2d_set_pwr_tbl_bits : Z -> Z -> Z -> Z -> Z -> H -> H;
  poweron_table : list (Z * Z * Z * Z * Z);
  poweroff_table : list (Z * Z * Z * Z * Z) }.

(** [ge2d_manager], the globals it works with and the heaps. *)
Record ge2d_s (H K C : Type) := mk_ge2d {
  process_queue : list Z;
  current_wq : option Z; last_wq : option Z;
  irq_num : Z; ge2d_state : Z; process_queue_state : Z; probe : Z;
  cmd_in_sem : Z; (* its count *)
  process_complete : Z; (* completions not yet waited for *)
  ge2d_clk : bool; (* is not NULL *)
  gaul_filter_used : bool;
  ge2d_meson_dev : ge2d_device_data_s;
  contexts : gmap Z ge2d_context_s; items : gmap Z ge2d_queue_item_s; dma_cfgs : gmap Z aml_dma_cfg;
  io : io_s H; dma : dma_s K; canvases : canvas_device_info C }.
Arguments mk_ge2d {H K C}.
Arguments process_queue {H K C}.
Arguments current_wq {H K C}.
Arguments last_wq {H K C}.
Arguments irq_num {H K C}.
Arguments ge2d_state {H K C}.
Arguments process_queue_state {H K C}.
Arguments probe {H K C}.
Arguments cmd_in_sem {H K C}.
Arguments process_complete {H K C}.
Arguments ge2d_clk {H K C}.
Arguments gaul_filter_used {H K C}.
Arguments ge2d_meson_dev {H K C}.
Arguments contexts {H K C}.
Arguments items {H K C}.
Arguments dma_cfgs {H K C}.
Arguments io {H K C}.
Arguments dma {H K C}.
Arguments canvases {H K C}.

Section Wq.
Context {H K C : Type} `{GeBus H} `{GeTime H} `{GePower H} `{DmaKernel K} `{MesonCanvas C}.
Notation M := (ST (S := ge2d_s H K C)).
Implicit Types s : ge2d_s H K C.

(** ** Access to the state *)

Definition ctx_at (a : Z) : M ge2d_context_s := x ← gets (fun s => contexts s !! a); of_opt x.
Definition put_ctx (a : Z) (x : ge2d_context_s) : M unit := modify (fun s => s<| contexts := <[a := x]> (contexts s) |>).
Definition on_ctx (a : Z) (f : ge2d_context_s -> ge2d_context_s) : M unit := x ← ctx_at a; put_ctx a (f x).
Definition item_at (a : Z) : M ge2d_queue_item_s := x ← gets (fun s => items s !! a); of_opt x.
Definition put_item (a : Z) (x : ge2d_queue_item_s) : M unit := modify (fun s => s<| items := <[a := x]> (items s) |>).
Definition dev : M ge2d_device_data_s := gets ge2d_meson_dev.
Definition regs (l : list reg_op) : M unit := modify (fun s => s<| io := run_ops l (io s) |>).
Definition hw_do (f : H -> H) : M unit := modify (fun s => s<| io := on_hw f (io s) |>).
(** A call of the buffers. *)
Definition on_dma {A} (m : ST (S := dma_s K) A) : M A := fun s => '(a, d) ← m (dma s); Some (a, s<| dma := d |>).
Definition kalloc : M (option Z) := on_dma (kcall k_alloc).
Definition kfree (a : Z) : M unit := on_dma (kdo (k_free a)).

(** ** Power *)

Definition ge2d_pre_init : M unit := d ← dev; regs (ge2d_set_gen d (zero_gen<| interrupt_ctrl := 0x02 |>)).

Definition ge2d_clk_config (enable : bool) : M Z :=
  c ← gets ge2d_clk;
  if negb c then mret (-1) else _ ← hw_do (if enable then clk_prepare_enable else clk_disable_unprepare); mret 0.

Definition ge2d_pwr_config (enable : bool) : M unit :=
  d ← dev;
  _ ← when (c_true (has_self_pwr d))
        (hw_do (fun h => foldl (fun h '(ty, reg, val, start, len) => ge2d_set_pwr_tbl_bits ty reg val start len h) h (if enable then poweron_table else poweroff_table)));
  _ ← ge2d_clk_config enable;
  when enable (_ ← regs ge2d_soft_rst; ge2d_pre_init).

(** ** Canvases *)

(** The planes of one side: the next canvas, the word of canvas numbers, whether there
    was one, and the planes with their marks taken off. *)
Fixpoint set_planes (l : list ge2d_canvas_cfg_s) (i canvas word : Z) (set : bool) (info : canvas_device_info C)
  : Z * Z * bool * list ge2d_canvas_cfg_s * canvas_device_info C :=
  match l with
  | [] => (canvas, word, set, [], info)
  | p :: l =>
      if c_true (canvas_used p) then
        let word := Z.lor word (canvas << (8 * i)) in
        let info := canvas_config info canvas (cv_phys_addr p) (cv_stride p) (cv_height p) CANVAS_ADDR_NOWRAP CANVAS_BLKMODE_LINEAR in
        let '(canvas, word, set, l, info) := set_planes l (i + 1) (canvas + 1) word true info in
        (canvas, word, set, p<| canvas_used := 0 |> :: l, info)
      else
        let '(canvas, word, set, l, info) := set_planes l (i + 1) canvas word set info in
        (canvas, word, set, p :: l, info)
  end.

Definition ge2d_set_canvas (c : ge2d_config_s) (info : canvas_device_info C) : ge2d_config_s * canvas_device_info C :=
  let '(n, index_src, set, src, info) := set_planes (src_canvas_cfg c) 0 ALLOC_CANVAS_INDEX 0 false info in
  let c := c<| src_canvas_cfg := src |> in
  let c := if set then c<| src1_data := (src1_data c)<| canaddr := u32 index_src |> |> else c in
  let '(n, index_src2, set, src2, info) := set_planes (src2_canvas_cfg c) 0 n 0 false info in
  let c := c<| src2_canvas_cfg := src2 |> in
  let c := if set then c<| src2_dst_data := (src2_dst_data c)<| src2_canaddr := u8 index_src2 |> |> else c in
  let '(n, index_dst, set, dst, info) := set_planes (dst_canvas_cfg c) 0 n 0 false info in
  let c := c<| dst_canvas_cfg := dst |> in
  (if set then c<| src2_dst_data := (src2_dst_data c)<| dst_canaddr := u32 index_dst |> |> else c, info).

(** ** Running the items of a context *)

(** One turn for each bit of [mask]: the operations, the configuration afterwards and
    [gaul_filter_used]. *)
Fixpoint update_loop (n : nat) (mask : Z) (d : ge2d_device_data_s) (c : ge2d_config_s) (gaul : bool) : list reg_op * ge2d_config_s * bool :=
  match n with
  | O => ([], c, gaul)
  | S n =>
      if update_flag c =? 0 then ([], c, gaul)
      else
        let m := Z.land (update_flag c) mask in
        let '(ops, c, gaul) :=
          if m =? UPDATE_SRC_DATA then (ge2d_set_src1_data d (src1_data c), c, gaul)
          else if m =? UPDATE_SRC_GEN then (ge2d_set_src1_gen (src1_gen c), c, gaul)
          else if m =? UPDATE_DST_DATA then (ge2d_set_src2_dst_data d (src2_dst_data c), c, gaul)
          else if m =? UPDATE_DST_GEN then (ge2d_set_src2_dst_gen (src2_dst_gen c), c, gaul)
          else if m =? UPDATE_DP_GEN then
            let '(ops, dp) := ge2d_set_dp_gen d (dp_gen c) (matrix_custom c) in (ops, c<| dp_gen := dp |>, gaul)
          else if m =? UPDATE_SCALE_COEF then
            let '(ops, gaul) := ge2d_set_src1_scale_coef (v_scale_coef_type c) (h_scale_coef_type c) in (ops, c, gaul)
          else ([], c, gaul) in
        let c := c<| update_flag := Z.land (update_flag c) (Z.lnot mask) |> in
        let '(ops', c, gaul) := update_loop n (mask << 1) d c gaul in
        (ops ++ ops', c, gaul)
  end.
Definition program_config := update_loop 6 1.

(** [while (ge2d_is_busy ())], with the wait in it. *)
Fixpoint wait_busy (fuel : nat) : M unit :=
  match fuel with
  | O => undef
  | S fuel =>
      s ← gets (fun s => s);
      let '(busy, io') := ge2d_is_busy (io s) in
      _ ← modify (fun s => s<| io := io' |>);
      if (busy : bool) then
        let '(timeout, h) := wait_cmd (hw io') in
        _ ← hw_do (fun _ => h);
        if timeout =? 0 then regs ge2d_soft_rst else wait_busy fuel
      else mret tt
  end.

Fixpoint next_after (l : list Z) (a : Z) : option Z :=
  match l with
  | [] => None
  | x :: l => if x =? a then head l else next_after l a
  end.
Definition list_del (a : Z) (l : list Z) : list Z := filter (fun x => x <> a) l.

Definition ge2d_buffer_unmap (cfg : option Z) : M Z :=
  match cfg with
  | None => on_dma (ge2d_dma_buffer_unmap_info None)
  | Some a => c ← gets (fun s => dma_cfgs s !! a); c ← of_opt c; on_dma (ge2d_dma_buffer_unmap_info (Some c))
  end.
(** [kfree (cfg)] *)
Definition free_cfg (cfg : option Z) : M unit :=
  match cfg with
  | None => mret tt
  | Some a =>
      c ← gets (fun s => dma_cfgs s !! a); c ← of_opt c;
      _ ← modify (fun s => s<| dma_cfgs := delete a (dma_cfgs s) |>); kfree a
  end.

(** One buffer of an item is detached. *)
Definition detach (d : ge2d_dma_cfg_s) : M ge2d_dma_cfg_s :=
  if c_true (dma_used d) then _ ← ge2d_buffer_unmap (dma_cfg d); _ ← free_cfg (dma_cfg d); mret (d<| dma_used := 0 |>) else mret d.
Definition detach_plane (it : Z) (i : nat) : M unit :=
  x ← item_at it; d ← of_opt (src_dma_cfg (i_config x) !! i); d ← detach d;
  x ← item_at it; _ ← put_item it (x<| i_config := (i_config x)<| src_dma_cfg := <[i := d]> (src_dma_cfg (i_config x)) |> |>);
  x ← item_at it; d ← of_opt (src2_dma_cfg (i_config x) !! i); d ← detach d;
  x ← item_at it; _ ← put_item it (x<| i_config := (i_config x)<| src2_dma_cfg := <[i := d]> (src2_dma_cfg (i_config x)) |> |>);
  x ← item_at it; d ← of_opt (dst_dma_cfg (i_config x) !! i); d ← detach d;
  x ← item_at it; put_item it (x<| i_config := (i_config x)<| dst_dma_cfg := <[i := d]> (dst_dma_cfg (i_config x)) |> |>).

(** Programming an item and starting the engine: the registers hold the item now. *)
Definition start_item (fifo_fuel : nat) (it : Z) : M unit :=
  x ← item_at it;
  info ← gets canvases;
  let '(c, info) := ge2d_set_canvas (i_config x) info in
  d ← dev;
  gaul ← gets gaul_filter_used;
  let '(ops, c, gaul) := program_config d c gaul in
  _ ← modify (fun s => s<| canvases := info |><| gaul_filter_used := gaul |>);
  _ ← regs ops;
  let k := (i_cmd x)<| hang_flag := 1 |> in
  io' ← gets io;
  '(k, io') ← of_opt (ge2d_set_cmd fifo_fuel d gaul k io');
  _ ← modify (fun s => s<| io := io' |>);
  put_item it (mk_item k c).

(** The command is done or given up: the item is free again, and the next one. *)
Definition finish_item (wait_fuel : nat) (wq it : Z) : M (option Z) :=
  x ← item_at it;
  let block_mode := wait_done_flag (i_cmd x) in
  _ ← wait_busy wait_fuel;
  x ← item_at it;
  _ ← when (c_true block_mode) (put_item it (x<| i_cmd := (i_cmd x)<| wait_done_flag := 0 |> |>));
  w ← ctx_at wq;
  let pos := next_after (work_queue w) it in
  _ ← put_ctx wq (w<| work_queue := list_del it (work_queue w) |><| free_queue := list_del it (free_queue w) ++ [it] |>);
  mret pos.

Definition detach_item (it : Z) : M unit :=
  _ ← detach_plane it 0; _ ← detach_plane it 1; _ ← detach_plane it 2; detach_plane it 3.

(** The loop over the work queue. *)
Fixpoint process_loop (fuel : nat) (fifo_fuel wait_fuel : nat) (wq it : Z) : M unit :=
  match fuel with
  | O => undef
  | S fuel =>
      _ ← start_item fifo_fuel it;
      pos ← finish_item wait_fuel wq it;
      _ ← detach_item it;
      match pos with
      | None => mret tt
      | Some it => process_loop fuel fifo_fuel wait_fuel wq it
      end
  end.

(** Up to the first item: [None] is the way out. *)
Definition process_begin (wq : Z) : M (option Z) :=
  w ← ctx_at wq;
  if c_true (ge2d_request_exit w) then mret None
  else
    _ ← modify (fun s => s<| ge2d_state := GE2D_STATE_RUNNING |>);
    match work_queue w with
    | [] => mret None
    | it :: _ =>
        last ← gets last_wq;
        x ← item_at it;
        _ ← when (negb (bool_decide (last = Some wq))) (put_item it (x<| i_config := (i_config x)<| update_flag := UPDATE_ALL |> |>));
        mret (Some it)
    end.
Definition process_exit (wq : Z) : M unit :=
  w ← ctx_at wq;
  _ ← when (c_true (ge2d_request_exit w)) (modify (fun s => s<| process_complete := process_complete s + 1 |>));
  modify (fun s => s<| ge2d_state := GE2D_STATE_IDLE |>).

Definition ge2d_process_work_queue (fuel fifo_fuel wait_fuel : nat) (wq : Z) : M Z :=
  w ← ctx_at wq;
  first ← process_begin wq;
  match first with
  | None => _ ← process_exit wq; mret (if c_true (ge2d_request_exit w) then 0 else -1)
  | Some it =>
      _ ← process_loop fuel fifo_fuel wait_fuel wq it;
      _ ← modify (fun s => s<| last_wq := Some wq |>);
      _ ← process_exit wq; mret 0
  end.

(** ** Adding work *)

Definition work_queue_no_space (w : ge2d_context_s) : bool := bool_decide (free_queue w = []).

(** Up to the release of the lock: the item that now holds the command. *)
Definition add_work_enqueue (wq : Z) : M (option Z) :=
  w ← ctx_at wq;
  match free_queue w with
  | [] => mret None
  | it :: _ =>
      x ← item_at it;
      _ ← put_item it (mk_item (cmd w) (config w));
      _ ← put_ctx wq (w<| cmd := zero_cmd |><| config := (config w)<| update_flag := 0 |> |>
                       <| free_queue := list_del it (free_queue w) |><| work_queue := list_del it (work_queue w) ++ [it] |>);
      mret (Some it)
  end.
(** [if (cmd_in_sem.count == 0) up (&cmd_in_sem)] *)
Definition add_work_signal : M unit :=
  n ← gets cmd_in_sem; when (n =? 0) (modify (fun s => s<| cmd_in_sem := cmd_in_sem s + 1 |>)).
(** What a blocking caller waits for. *)
Definition work_done (it : Z) : M bool := x ← item_at it; mret (wait_done_flag (i_cmd x) =? 0).

(** The result, and the item whose end the caller waits for. *)
Definition ge2d_wq_add_work (wq : Z) : M (Z * option Z) :=
  o ← add_work_enqueue wq;
  match o with
  | None => mret (-1, None)
  | Some it =>
      _ ← add_work_signal;
      x ← item_at it;
      mret (0, if c_true (wait_done_flag (i_cmd x)) then Some it else None)
  end.

(** ** The monitor *)

(** The first context with work, which becomes the last of the queue. *)
Fixpoint first_with_work (ctxs : gmap Z ge2d_context_s) (l : list Z) : option (option Z) :=
  match l with
  | [] => Some None
  | a :: l =>
      match ctxs !! a with
      | None => None
      | Some w => match work_queue w with [] => first_with_work ctxs l | _ => Some (Some a) end
      end
  end.
(** [list_move (head, &a->list)]: the head of the queue goes behind [a]. *)
Definition rotate (a : Z) (l : list Z) : list Z :=
  match list_find (eq a) l with
  | Some (i, _) => drop (S i) l ++ take (S i) l
  | None => l
  end.
Definition get_next_work_queue : M (option Z) :=
  s ← gets (fun s => s);
  o ← of_opt (first_with_work (contexts s) (process_queue s));
  match o with
  | None => mret None
  | Some a => _ ← modify (fun s => s<| process_queue := rotate a (process_queue s) |>); mret (Some a)
  end.

Fixpoint monitor_drain (fuel : nat) (f1 f2 f3 : nat) : M unit :=
  match fuel with
  | O => undef
  | S fuel =>
      o ← get_next_work_queue;
      _ ← modify (fun s => s<| current_wq := o |>);
      match o with
      | None => mret tt
      | Some wq => _ ← ge2d_process_work_queue f1 f2 f3 wq; monitor_drain fuel f1 f2 f3
      end
  end.
(** One turn of the monitor once the semaphore lets it go. *)
Definition monitor_turn (fuel f1 f2 f3 : nat) : M unit :=
  n ← gets cmd_in_sem;
  _ ← of_opt (if 0 <? n then Some tt else None);
  _ ← modify (fun s => s<| cmd_in_sem := cmd_in_sem s - 1 |>);
  _ ← ge2d_pwr_config true;
  _ ← monitor_drain fuel f1 f2 f3;
  en ← gets (fun s => ge2d_dump_reg_enable (io s));
  when (negb (c_true en)) (ge2d_pwr_config false).

(** ** Contexts *)

Fixpoint alloc_items (n : nat) : M (list Z) :=
  match n with
  | O => mret []
  | S n => a ← kalloc; a ← of_opt a; _ ← put_item a zero_item; l ← alloc_items n; mret (a :: l)
  end.
(** Memory that is not there is written to. *)
Definition create_ge2d_work_queue : M (option Z) :=
  p ← gets probe;
  if negb (c_true p) then mret None
  else
    wq ← kalloc; wq ← of_opt wq;
    l ← alloc_items MAX_GE2D_CMD;
    _ ← put_ctx wq (zero_context<| config := zero_config<| h_scale_coef_type := FILTER_TYPE_BILINEAR |><| v_scale_coef_type := FILTER_TYPE_BILINEAR |> |>
                     <| free_queue := l |>);
    _ ← modify (fun s => s<| process_queue := process_queue s ++ [wq] |>);
    mret (Some wq).

(** Up to the wait: whether there is one. *)
Definition destroy_begin (wq : Z) : M bool :=
  _ ← modify (fun s => s<| process_queue := list_del wq (process_queue s) |>);
  s ← gets (fun s => s);
  if bool_decide (current_wq s = Some wq) && (ge2d_state s =? GE2D_STATE_RUNNING) then
    _ ← on_ctx wq (fun w => w<| ge2d_request_exit := 1 |>); mret true
  else mret false.
(** The wait is over, with the completion or after half a second. *)
Definition destroy_waited : M unit :=
  n ← gets process_complete;
  _ ← when (0 <? n) (modify (fun s => s<| process_complete := process_complete s - 1 |>));
  modify (fun s => s<| last_wq := None |>).
Fixpoint free_items (l : list Z) : M unit :=
  match l with
  | [] => mret tt
  | a :: l =>
      _ ← item_at a; _ ← modify (fun s => s<| items := delete a (items s) |>); _ ← kfree a; free_items l
  end.
Definition destroy_finish (wq : Z) : M Z :=
  w ← ctx_at wq; _ ← free_items (work_queue w); _ ← free_items (free_queue w);
  _ ← modify (fun s => s<| contexts := delete wq (contexts s) |>); _ ← kfree wq; mret 0.
(** Where nothing runs between its parts. *)
Definition destroy_ge2d_work_queue (wq : option Z) : M Z :=
  match wq with
  | None => mret (-1)
  | Some wq => wait ← destroy_begin wq; _ ← when wait destroy_waited; destroy_finish wq
  end.

Definition ge2d_antiflicker_enable (enable : Z) : M Z :=
  l ← gets process_queue;
  _ ← foldl (fun m a => _ ← m; on_ctx a (ge2dgen_antiflicker enable)) (mret tt) l;
  mret 0.

(** ** The device *)

(** What the kernel answers: to [request_irq], for the table of buffers, to
    [kthread_run]. *)
Definition ge2d_wq_init (clk : bool) (irq_ret : Z) (buffer_ok : bool) (thread_ret : Z) : M Z :=
  _ ← modify (fun s => s<| ge2d_clk := clk |><| irq_num := irq_ret |>);
  if irq_ret <? 0 then mret (-1)
  else
    _ ← modify (fun s => s<| cmd_in_sem := 1 |><| process_complete := 0 |><| process_queue := [] |><| last_wq := None |>);
    _ ← on_dma (ge2d_dma_buffer_create buffer_ok);
    if negb buffer_ok then mret (-1)
    else
      _ ← modify (fun s => s<| process_queue_state := GE2D_PROCESS_QUEUE_START |>);
      if c_true thread_ret then mret (-1) else _ ← modify (fun s => s<| probe := 1 |>); mret 0.

(** [thread] is whether there is a thread; its loop ends when it sees the state. *)
Definition ge2d_stop_monitor (thread : bool) : M Z :=
  _ ← when thread (modify (fun s => s<| process_queue_state := GE2D_PROCESS_QUEUE_STOP |><| cmd_in_sem := cmd_in_sem s + 1 |>));
  mret 0.
(** The result, and the interrupt that is given back. *)
Definition ge2d_wq_deinit (thread : bool) : M (Z * option Z) :=
  _ ← ge2d_stop_monitor thread;
  n ← gets irq_num;
  _ ← when (0 <=? n) (modify (fun s => s<| irq_num := -1 |>));
  _ ← hw_do clk_disable_unprepare;
  _ ← on_dma ge2d_dma_buffer_destroy;
  mret (0, if 0 <=? n then Some n else None).

Definition get_queue_member_count (l : list Z) : Z := Z.of_nat (length (take (S MAX_GE2D_CMD) l)).
(** One of the two lists of the context that is served. *)
Definition queue_status (lit : String.string) (q : ge2d_context_s -> list Z) : M bytes :=
  o ← gets current_wq;
  match o with
  | None => mret []
  | Some wq => w ← ctx_at wq; mret (take 39 (str lit ++ fmt_d (get_queue_member_count (q w)) ++ [newline]))
  end.
Definition work_queue_status_show : M bytes := queue_status "cmd count in queue:" work_queue.
Definition free_queue_status_show : M bytes := queue_status "free space :" free_queue.

(** ** The buffers of the device *)

Definition ge2d_buffer_alloc (req : ge2d_dmabuf_req_s) : M (Z * ge2d_dmabuf_req_s) := on_dma (ge2d_dma_buffer_alloc req).
Definition ge2d_buffer_export (e : ge2d_dmabuf_exp_s) : M (Z * ge2d_dmabuf_exp_s) := on_dma (ge2d_dma_buffer_export e).
Definition ge2d_buffer_free (i : Z) : M Z := on_dma (ge2d_dma_buffer_free i).
Definition ge2d_buffer_dma_flush (fd : Z) : M unit := on_dma (ge2d_dma_buffer_dma_flush fd).
Definition ge2d_buffer_cache_flush (fd : Z) : M unit := on_dma (ge2d_dma_buffer_cache_flush fd).
(** For the description at [a]; what the address variable holds afterwards. *)
Definition ge2d_buffer_get_phys (a : Z) (addr : option Z) : M (Z * option Z) :=
  c ← gets (fun s => dma_cfgs s !! a); c ← of_opt c;
  '(ret, c, addr) ← on_dma (ge2d_dma_buffer_get_phys (Some c) addr);
  c ← of_opt c;
  _ ← modify (fun s => s<| dma_cfgs := <[a := c]> (dma_cfgs s) |>);
  mret (ret, addr).
End Wq.
