(* ===== verification/Ge2dConfig.v ===== *)
(** * The configurations that callers ask for (ge2d/ge2d_wq.c, second half)

    [ge2d_context_config] and its three extended forms turn the request of a caller
    (planes, formats, windows, keys) into the configuration of a context: the address
    of each plane as a canvas to be set up or as an address, and the setters of
    ge2dgen.c.  One record stands for the three extended requests; the plain one has
    neither file descriptors nor the fields of alpha and multiplication.  A side of the
    request (source, second source, destination) is named by its number. *)

From stdpp Require Import base numbers list option gmap.
From coqutil Require Import Datatypes.RecordSetters.
From S2P Require Import Prelude StateM KText KNum Canvas Ge2dReg Ge2dStruct Ge2dHw Ge2dGen Ge2dDma Ge2dWq.

Definition AML_GE2D_MEM_ION : Z := 0.
Definition AML_GE2D_MEM_DMABUF : Z := 1.
Definition AML_GE2D_SRC : Z := 0.
Definition AML_GE2D_SRC2 : Z := 1.
Definition AML_GE2D_DST : Z := 2.
Definition OSD0_OSD0 : Z := 0.
Definition OSD0_OSD1 : Z := 1.
Definition OSD1_OSD1 : Z := 2.
Definition OSD1_OSD0 : Z := 3.
Definition ALLOC_OSD0 : Z := 4.
Definition ALLOC_OSD1 : Z := 5.
Definition ALLOC_ALLOC : Z := 6.
Definition CANVAS_OSD0 : Z := 0.
Definition CANVAS_OSD1 : Z := 1.
Definition CANVAS_ALLOC : Z := 2.

(** ** Requests *)

Record config_planes_s := mk_planes { pl_addr : Z; pl_w : Z; pl_h : Z; pl_shared_fd : Z }.
Record src_key_ctrl_s := mk_key { key_enable : Z; key_color : Z; key_mask : Z; key_mode : Z }.

(** What a canvas or a plane comes to. *)
Record src_dst_para_s := mk_src_dst {
  xres : Z; yres : Z; sd_canvas_index : Z; sd_bpp : Z; ge2d_color_index : Z; sd_phy_addr : Z; sd_stride : Z }.
Definition zero_src_dst : src_dst_para_s := mk_src_dst 0 0 0 0 0 0 0.

Record config_para_s := mk_config_para {
  src_dst_type : Z; c_alu_const_color : Z; c_src_format : Z; c_dst_format : Z;
  c_src_planes : list config_planes_s; c_dst_planes : list config_planes_s; c_src_key : src_key_ctrl_s }.

Record src_dst_para_ex_s := mk_para {
  p_canvas_index : Z; p_top : Z; p_left : Z; p_width : Z; p_height : Z; p_format : Z; p_mem_type : Z; p_color : Z;
  p_x_rev : Z; p_y_rev : Z; p_fill_color_en : Z; p_fill_mode : Z }.

Record config_para_ex_s := mk_para_ex {
  src_para : src_dst_para_ex_s; src2_para : src_dst_para_ex_s; dst_para : src_dst_para_ex_s;
  x_src_key : src_key_ctrl_s; x_src2_key : src_key_ctrl_s;
  x_src1_cmult_asel : Z; x_src2_cmult_asel : Z; x_src2_cmult_ad : Z;
  x_alu_const_color : Z; x_src1_gb_alpha_en : Z; x_src1_gb_alpha : Z; x_src2_gb_alpha_en : Z; x_src2_gb_alpha : Z;
  op_mode : Z; x_bitmask_en : Z; x_bytemask_only : Z; x_bitmask : Z; x_dst_xy_swap : Z;
  hf_init_phase : Z; hf_rpt_num : Z; hsc_start_phase_step : Z; x_hsc_phase_slope : Z;
  vf_init_phase : Z; vf_rpt_num : Z; vsc_start_phase_step : Z; x_vsc_phase_slope : Z;
  x_vsc_phase0_always_en : Z; x_hsc_phase0_always_en : Z; x_hsc_rpt_ctrl : Z; x_vsc_rpt_ctrl : Z;
  src_planes : list config_planes_s; src2_planes : list config_planes_s; dst_planes : list config_planes_s }.

Record config_para_ex_memtype_s := mk_memtype {
  ge2d_magic : Z; _ge2d_config_ex : config_para_ex_s;
  src1_mem_alloc_type : Z; src2_mem_alloc_type : Z; dst_mem_alloc_type : Z; m_matrix_custom : ge2d_matrix_s }.

(** A plane of an array of four. *)
Definition plane (l : list config_planes_s) (i : nat) : config_planes_s := default (mk_planes 0 0 0 0) (l !! i).

(** The sides of a request. *)
Definition para (sd : Z) (x : config_para_ex_s) : src_dst_para_ex_s :=
  if sd =? AML_GE2D_SRC then src_para x else if sd =? AML_GE2D_SRC2 then src2_para x else dst_para x.
Definition set_para (sd : Z) (p : src_dst_para_ex_s) (x : config_para_ex_s) : config_para_ex_s :=
  if sd =? AML_GE2D_SRC then x<| src_para := p |> else if sd =? AML_GE2D_SRC2 then x<| src2_para := p |> else x<| dst_para := p |>.
Definition planes_of (sd : Z) (x : config_para_ex_s) : list config_planes_s :=
  if sd =? AML_GE2D_SRC then src_planes x else if sd =? AML_GE2D_SRC2 then src2_planes x else dst_planes x.
Definition set_planes_of (sd : Z) (l : list config_planes_s) (x : config_para_ex_s) : config_para_ex_s :=
  if sd =? AML_GE2D_SRC then x<| src_planes := l |> else if sd =? AML_GE2D_SRC2 then x<| src2_planes := l |> else x<| dst_planes := l |>.

(** [CONFIG_AMLOGIC_ION] is set or not; the physical address of a shared file. *)
Class Ion (K : Type) := { meson_ion_share_fd_to_phys : option (Z -> K -> (Z * Z) * K) }.

Definition bpp (format : Z) : Z :=
  let m := format .& GE2D_BPP_MASK in
  if m =? GE2D_BPP_8BIT then 8
  else if m =? GE2D_BPP_16BIT then 16
  else if m =? GE2D_BPP_24BIT then
    if (GE2D_COLOR_MAP_NV21 =? format .& GE2D_COLOR_MAP_NV21) || (GE2D_COLOR_MAP_NV12 =? format .& GE2D_COLOR_MAP_NV12) then 8 else 24
  else 32.

(** ** The plain request *)

Definition update_canvas_cfg (phys_addr stride height : Z) (cv : ge2d_canvas_cfg_s) : ge2d_canvas_cfg_s :=
  cv<| canvas_used := 1 |><| cv_phys_addr := phys_addr |><| cv_stride := u32 stride |><| cv_height := height |>.

(** An assignment to one of the canvases of a side; none for another [data_type]. *)
Definition ge2d_wq_get_canvas_cfg (data_type : Z) (i : nat) (f : ge2d_canvas_cfg_s -> ge2d_canvas_cfg_s) (c : ge2d_config_s) : option ge2d_config_s :=
  if data_type =? AML_GE2D_SRC then Some (c<| src_canvas_cfg := alter f i (src_canvas_cfg c) |>)
  else if data_type =? AML_GE2D_SRC2 then Some (c<| src2_canvas_cfg := alter f i (src2_canvas_cfg c) |>)
  else if data_type =? AML_GE2D_DST then Some (c<| dst_canvas_cfg := alter f i (dst_canvas_cfg c) |>)
  else None.
Definition ge2d_wq_get_dma_cfg (data_type : Z) (i : nat) (f : ge2d_dma_cfg_s -> ge2d_dma_cfg_s) (c : ge2d_config_s) : option ge2d_config_s :=
  if data_type =? AML_GE2D_SRC then Some (c<| src_dma_cfg := alter f i (src_dma_cfg c) |>)
  else if data_type =? AML_GE2D_SRC2 then Some (c<| src2_dma_cfg := alter f i (src2_dma_cfg c) |>)
  else if data_type =? AML_GE2D_DST then Some (c<| dst_dma_cfg := alter f i (dst_dma_cfg c) |>)
  else None.

(** Plane [i] of one side; [tested] is the plane whose address decides. *)
Definition build_plane (d : ge2d_device_data_s) (data_type : Z) (l : list config_planes_s) (tested i : nat)
    (pc : src_dst_para_s * ge2d_config_s) : src_dst_para_s * ge2d_config_s :=
  let '(p, c) := pc in
  if c_true (pl_addr (plane l tested)) then
    if canvas_status d =? 1 then
      (if bool_decide (i = 0%nat) then
         p<| sd_canvas_index := 0 |><| sd_phy_addr := s32 (pl_addr (plane l 0)) |><| sd_stride := u32 (pl_w (plane l 0) * sd_bpp p) / 8 |>
       else p, c)
    else
      let f := update_canvas_cfg (pl_addr (plane l i)) (u32 (pl_w (plane l i) * sd_bpp p) / 8) (pl_h (plane l i)) in
      (p<| sd_canvas_index := 0 |>, default c (ge2d_wq_get_canvas_cfg data_type i f c))
  else pc.
Definition build_side (d : ge2d_device_data_s) (data_type : Z) (l : list config_planes_s) (format : Z) (tested : nat -> nat)
    (p : src_dst_para_s) (c : ge2d_config_s) : src_dst_para_s * ge2d_config_s :=
  let p := p<| xres := s32 (pl_w (plane l 0)) |><| yres := s32 (pl_h (plane l 0)) |><| ge2d_color_index := s32 format |><| sd_bpp := bpp format |> in
  foldl (fun pc i => build_plane d data_type l (tested i) i pc) (p, c) (seq 0 MAX_PLANE).
(** The source tests the first plane every time, the destination each plane. *)
Definition build_ge2d_config (d : ge2d_device_data_s) (cfg : config_para_s) (src : src_dst_para_s) (dst : option src_dst_para_s) (c : ge2d_config_s)
    : src_dst_para_s * option src_dst_para_s * ge2d_config_s :=
  let '(src, c) := build_side d AML_GE2D_SRC (c_src_planes cfg) (c_src_format cfg) (fun _ => 0%nat) src c in
  match dst with
  | None => (src, None, c)
  | Some dst =>
      let '(dst, c) := build_side d AML_GE2D_DST (c_dst_planes cfg) (c_dst_format cfg) (fun i => i) dst c in (src, Some dst, c)
  end.

(** It leaves what is there. *)
Definition setup_display_property (src_dst : src_dst_para_s) (index : Z) : Z * src_dst_para_s := (0, src_dst).

(** The two sides of a request; the switches for the display change nothing.  The
    copies between zeroed sides for the display do not either. *)
Definition config_sides (d : ge2d_device_data_s) (cfg : config_para_s) (c : ge2d_config_s) : src_dst_para_s * src_dst_para_s * ge2d_config_s :=
  let src := zero_src_dst in
  let dst := zero_src_dst in
  let ty := src_dst_type cfg in
  if (ty =? OSD0_OSD0) || (ty =? OSD0_OSD1) || (ty =? OSD1_OSD1) || (ty =? OSD1_OSD0) then (src, dst, c)
  else if (ty =? ALLOC_OSD0) || (ty =? ALLOC_OSD1) then
    let '(src, _, c) := build_ge2d_config d cfg src None c in (src, dst, c)
  else if ty =? ALLOC_ALLOC then
    let '(src, dst', c) := build_ge2d_config d cfg src (Some dst) c in (src, default dst dst', c)
  else (src, dst, c).
Definition ge2d_context_config (d : ge2d_device_data_s) (cfg : config_para_s) (wq : ge2d_context_s) : Z * ge2d_context_s :=
  let '(src, dst, c) := config_sides d cfg (config wq) in
  let wq := wq<| config := c |> in
  let wq := ge2dgen_src (sd_canvas_index src) (ge2d_color_index src) (sd_phy_addr src) (sd_stride src) wq in
  let wq := ge2dgen_src_clip 0 0 (xres src) (yres src) wq in
  let wq := ge2dgen_src2 (sd_canvas_index dst) (ge2d_color_index dst) (sd_phy_addr dst) (sd_stride dst) wq in
  let wq := ge2dgen_src2_clip 0 0 (xres dst) (yres dst) wq in
  let wq := ge2dgen_const_color (c_alu_const_color cfg) wq in
  let wq := ge2dgen_dst (sd_canvas_index dst) (ge2d_color_index dst) (sd_phy_addr dst) (sd_stride dst) wq in
  (0, ge2dgen_dst_clip 0 0 (xres dst) (yres dst) DST_CLIP_MODE_INSIDE wq).

(** ** Addresses of an extended request *)

(** The result ([ret] where there is no address), the address and the stride. *)
Definition addr_config (ret : Z) (l : list config_planes_s) (format addr stride : Z) : Z * Z * Z :=
  let bpp_value := bpp format / 8 in
  let '(ret, addr, stride) :=
    if c_true (pl_addr (plane l 0)) then (0, u32 (pl_addr (plane l 0)), u32 (pl_w (plane l 0) * bpp_value)) else (ret, addr, stride) in
  (if c_true (pl_addr (plane l 1)) || c_true (pl_addr (plane l 2)) || c_true (pl_addr (plane l 3)) then -1 else ret, addr, stride).
Definition build_ge2d_addr_config : list config_planes_s -> Z -> Z -> Z -> Z * Z * Z := addr_config (-1).

Section Config.
Context {H K C : Type} `{GeBus H} `{GeTime H} `{GePower H} `{DmaKernel K} `{!Ion K} `{MesonCanvas C}.
Notation M := (ST (S := ge2d_s H K C)).

Definition set_addr (i : nat) (addr : Z) (l : list config_planes_s) : list config_planes_s := alter (fun p => p<| pl_addr := u64 addr |>) i l.

(** The end that the two others share: the first plane at its own address plus
    [addr_temp]. *)
Definition addr_config_from (ret : Z) (l : list config_planes_s) (format addr_temp addr stride : Z) : Z * list config_planes_s * Z * Z :=
  let l := set_addr 0 (pl_addr (plane l 0) + addr_temp) l in
  let '(ret, addr, stride) := addr_config ret l format addr stride in (ret, l, addr, stride).

Definition build_ge2d_addr_config_ion (l : list config_planes_s) (format addr stride : Z) : M (Z * list config_planes_s * Z * Z) :=
  if c_true (pl_shared_fd (plane l 0)) then
    match meson_ion_share_fd_to_phys with
    | None => mret (-1, l, addr, stride)
    | Some f =>
        '(ret, addr_temp) ← on_dma (kcall (f (pl_shared_fd (plane l 0))));
        mret (if negb (ret =? 0) then (ret, l, addr, stride) else addr_config_from ret l format addr_temp addr stride)
    end
  else mret (addr_config_from (-1) l format 0 addr stride).

(** A description of an imported buffer for one plane of a side: its address, or none
    where there is no memory; the plane counts as in use before. *)
Definition import_begin (wq data_type : Z) (i : nat) (fd dir : Z) : M (option Z) :=
  w ← ctx_at wq;
  c ← of_opt (ge2d_wq_get_dma_cfg data_type i (fun d => d<| dma_used := 1 |>) (config w));
  _ ← put_ctx wq (w<| config := c |>);
  o ← kalloc;
  match o with
  | None => mret None
  | Some a =>
      _ ← modify (fun s => s<| dma_cfgs := <[a := mk_cfg fd 0 None None None dir]> (dma_cfgs s) |>);
      c ← of_opt (ge2d_wq_get_dma_cfg data_type i (fun d => d<| dma_cfg := Some a |>) c);
      _ ← put_ctx wq (w<| config := c |>);
      mret (Some a)
  end.

Definition build_ge2d_addr_config_dma (wq : Z) (l : list config_planes_s) (format addr stride dir data_type : Z) : M (Z * list config_planes_s * Z * Z) :=
  if c_true (pl_shared_fd (plane l 0)) then
    o ← import_begin wq data_type 0 (pl_shared_fd (plane l 0)) dir;
    a ← of_opt o;
    '(ret, addr_temp) ← ge2d_buffer_get_phys a (Some 0);
    if negb (ret =? 0) then mret (ret, l, addr, stride)
    else addr_temp ← of_opt addr_temp; mret (addr_config_from ret l format addr_temp addr stride)
  else mret (addr_config_from (-1) l format 0 addr stride).

(** A plane becomes a canvas of its side. *)
Definition plane_canvas (wq data_type : Z) (l : list config_planes_s) (i : nat) (bpp_value : Z) : M unit :=
  w ← ctx_at wq;
  c ← of_opt (ge2d_wq_get_canvas_cfg data_type i (update_canvas_cfg (pl_addr (plane l i)) (pl_w (plane l i) * bpp_value) (pl_h (plane l i))) (config w));
  put_ctx wq (w<| config := c |>).

Fixpoint config_ex_loop (n i : nat) (wq : Z) (l : list config_planes_s) (bpp_value data_type ret : Z) : M Z :=
  match n with
  | O => mret ret
  | S n =>
      if c_true (pl_addr (plane l i)) then _ ← plane_canvas wq data_type l i bpp_value; config_ex_loop n (S i) wq l bpp_value data_type 0
      else config_ex_loop n (S i) wq l bpp_value data_type ret
  end.
Definition build_ge2d_config_ex (wq : Z) (l : list config_planes_s) (format data_type : Z) : M Z :=
  config_ex_loop MAX_PLANE 0 wq l (bpp format / 8) data_type (-1).

(** A plane without a file: its address is an offset to the first plane's. *)
Definition offset_plane (i : nat) (l : list config_planes_s) : list config_planes_s := set_addr i (pl_addr (plane l i) + pl_addr (plane l 0)) l.

Fixpoint config_ion_loop (n i : nat) (wq : Z) (l : list config_planes_s) (bpp_value data_type ret : Z) : M (Z * list config_planes_s) :=
  match n with
  | O => mret (ret, l)
  | S n =>
      if c_true (pl_shared_fd (plane l i)) then
        match meson_ion_share_fd_to_phys with
        | None => mret (ret, l)
        | Some f =>
            '(ret, addr) ← on_dma (kcall (f (pl_shared_fd (plane l i))));
            if negb (ret =? 0) then mret (ret, l)
            else
              let l := set_addr i addr l in
              _ ← plane_canvas wq data_type l i bpp_value; config_ion_loop n (S i) wq l bpp_value data_type 0
        end
      else if c_true (pl_addr (plane l i)) then
        let l := offset_plane i l in
        _ ← plane_canvas wq data_type l i bpp_value; config_ion_loop n (S i) wq l bpp_value data_type 0
      else config_ion_loop n (S i) wq l bpp_value data_type ret
  end.
Definition build_ge2d_config_ex_ion (wq : Z) (l : list config_planes_s) (format data_type : Z) : M (Z * list config_planes_s) :=
  config_ion_loop MAX_PLANE 0 wq l (bpp format / 8) data_type (-1).

(** [addr] is a variable that the planes share. *)
Fixpoint config_dma_loop (n i : nat) (wq : Z) (l : list config_planes_s) (bpp_value dir data_type ret : Z) (addr : option Z) : M (Z * list config_planes_s) :=
  match n with
  | O => mret (ret, l)
  | S n =>
      if c_true (pl_shared_fd (plane l i)) then
        o ← import_begin wq data_type i (pl_shared_fd (plane l i)) dir;
        match o with
        | None => mret (ret, l)
        | Some a =>
            '(ret, addr) ← ge2d_buffer_get_phys a addr;
            if negb (ret =? 0) then mret (ret, l)
            else
              ad ← of_opt addr;
              let l := set_addr i ad l in
              _ ← plane_canvas wq data_type l i bpp_value; config_dma_loop n (S i) wq l bpp_value dir data_type ret addr
        end
      else if c_true (pl_addr (plane l i)) then
        let l := offset_plane i l in
        _ ← plane_canvas wq data_type l i bpp_value; config_dma_loop n (S i) wq l bpp_value dir data_type ret addr
      else config_dma_loop n (S i) wq l bpp_value dir data_type ret addr
  end.
Definition build_ge2d_config_ex_dma (wq : Z) (l : list config_planes_s) (format dir data_type : Z) : M (Z * list config_planes_s) :=
  config_dma_loop MAX_PLANE 0 wq l (bpp format / 8) dir data_type (-1) None.

(** ** A side of an extended request *)

(** The request afterwards, with the address and the stride of the side; or none where
    it is refused. *)
Definition side_result : Type := option (config_para_ex_s * Z * Z).

Definition out_of (p : src_dst_para_ex_s) (w h : Z) : bool :=
  (w <? s32 (p_left p + p_width p)) || (h <? s32 (p_top p + p_height p)).
(** Against the unsigned size of a plane. *)
Definition out_of_plane (p : src_dst_para_ex_s) (pl : config_planes_s) : bool :=
  (pl_w pl <? u32 (p_left p + p_width p)) || (pl_h pl <? u32 (p_top p + p_height p)).

(** The display: [tmp] is what the stack holds. *)
Definition osd_side (tmp : src_dst_para_s) (sd : Z) (x : config_para_ex_s) : side_result :=
  let p := para sd x in
  let '(_, tmp) := setup_display_property tmp (if p_mem_type p =? CANVAS_OSD0 then OSD1_CANVAS_INDEX else OSD2_CANVAS_INDEX) in
  let p := p<| p_canvas_index := sd_canvas_index tmp |><| p_format := ge2d_color_index tmp |> in
  if out_of p (xres tmp) (yres tmp) then None
  else Some (set_para sd (p<| p_width := xres tmp |><| p_height := yres tmp |>) x, u32 (sd_phy_addr tmp), u32 (sd_stride tmp)).

(** Memory of the caller; [by_addr] and [by_canvas] are the two ways to set it up. *)
Definition alloc_side (sd : Z) (x : config_para_ex_s)
    (by_addr : list config_planes_s -> Z -> M (Z * list config_planes_s * Z * Z))
    (by_canvas : list config_planes_s -> Z -> M (Z * list config_planes_s)) : M side_result :=
  let p := para sd x in
  let l := planes_of sd x in
  if out_of_plane p (plane l 0) then mret None
  else
    d ← dev;
    if canvas_status d =? 1 then
      '(ret, l, addr, stride) ← by_addr l (p_format p);
      mret (if ret <? 0 then None else Some (set_planes_of sd l x, addr, stride))
    else
      '(ret, l) ← by_canvas l (p_format p);
      mret (if ret <? 0 then None else Some (set_para sd (p<| p_canvas_index := 0 |>) (set_planes_of sd l x), 0, 0)).

Definition side (tmp : src_dst_para_s) (sd : Z) (x : config_para_ex_s) (alloc : M side_result) : M side_result :=
  let ty := p_mem_type (para sd x) in
  if (ty =? CANVAS_OSD0) || (ty =? CANVAS_OSD1) then mret (osd_side tmp sd x)
  else if ty =? CANVAS_ALLOC then alloc
  else mret (Some (x, 0, 0)).

(** *** Plain memory *)

Definition alloc_ex (wq sd : Z) (x : config_para_ex_s) : M side_result :=
  alloc_side sd x (fun l f => let '(ret, a, st) := build_ge2d_addr_config l f 0 0 in mret (ret, l, a, st))
    (fun l f => ret ← build_ge2d_config_ex wq l f sd; mret (ret, l)).

Definition same_start (sd sd' : Z) (x : config_para_ex_s) : bool := pl_addr (plane (planes_of sd x) 0) =? pl_addr (plane (planes_of sd' x) 0).
(** The side takes the canvas of another. *)
Definition share_canvas (sd sd' : Z) (x : config_para_ex_s) : config_para_ex_s :=
  set_para sd ((para sd x)<| p_canvas_index := p_canvas_index (para sd' x) |>) x.

Definition ex_src (tmp : src_dst_para_s) (wq : Z) (x : config_para_ex_s) : M side_result := side tmp AML_GE2D_SRC x (alloc_ex wq AML_GE2D_SRC x).
Definition ex_src2 (tmp : src_dst_para_s) (wq : Z) (x : config_para_ex_s) (src_addr src_stride : Z) : M side_result :=
  let sd := AML_GE2D_SRC2 in
  side tmp sd x
    (if out_of_plane (para sd x) (plane (planes_of sd x) 0) then mret None
     else if same_start sd AML_GE2D_SRC x then mret (Some (share_canvas sd AML_GE2D_SRC x, src_addr, src_stride))
     else alloc_ex wq sd x).
Definition ex_dst (tmp : src_dst_para_s) (wq : Z) (x : config_para_ex_s) (src_addr src_stride src2_addr src2_stride : Z) : M side_result :=
  let sd := AML_GE2D_DST in
  side tmp sd x
    (if out_of_plane (para sd x) (plane (planes_of sd x) 0) then mret None
     else if same_start sd AML_GE2D_SRC x then mret (Some (share_canvas sd AML_GE2D_SRC x, src_addr, src_stride))
     else if same_start sd AML_GE2D_SRC2 x then mret (Some (share_canvas sd AML_GE2D_SRC2 x, src2_addr, src2_stride))
     else alloc_ex wq sd x).

(** *** Files of ION, and of DMA buffers *)

Definition alloc_ion (wq sd : Z) (x : config_para_ex_s) : M side_result :=
  alloc_side sd x (fun l f => build_ge2d_addr_config_ion l f 0 0) (fun l f => build_ge2d_config_ex_ion wq l f sd).
Definition alloc_dma (wq sd : Z) (x : config_para_ex_s) : M side_result :=
  let dir := if sd =? AML_GE2D_DST then DMA_FROM_DEVICE else DMA_TO_DEVICE in
  alloc_side sd x (fun l f => build_ge2d_addr_config_dma wq l f 0 0 dir sd) (fun l f => build_ge2d_config_ex_dma wq l f dir sd).
(** Another type of memory is let through as it is. *)
Definition alloc_mem (mem_alloc_type wq sd : Z) (x : config_para_ex_s) : M side_result :=
  if mem_alloc_type =? AML_GE2D_MEM_ION then alloc_ion wq sd x
  else if mem_alloc_type =? AML_GE2D_MEM_DMABUF then alloc_dma wq sd x
  else mret (if out_of_plane (para sd x) (plane (planes_of sd x) 0) then None else Some (x, 0, 0)).

Definition ion_src (tmp : src_dst_para_s) (wq : Z) (x : config_para_ex_s) : M side_result := side tmp AML_GE2D_SRC x (alloc_ion wq AML_GE2D_SRC x).
Definition ion_src2 (tmp : src_dst_para_s) (wq : Z) (x : config_para_ex_s) : M side_result := side tmp AML_GE2D_SRC2 x (alloc_ion wq AML_GE2D_SRC2 x).
Definition ion_dst (tmp : src_dst_para_s) (wq : Z) (x : config_para_ex_s) : M side_result := side tmp AML_GE2D_DST x (alloc_ion wq AML_GE2D_DST x).
Definition mem_src (tmp : src_dst_para_s) (ty wq : Z) (x : config_para_ex_s) : M side_result := side tmp AML_GE2D_SRC x (alloc_mem ty wq AML_GE2D_SRC x).
Definition mem_src2 (tmp : src_dst_para_s) (ty wq : Z) (x : config_para_ex_s) : M side_result := side tmp AML_GE2D_SRC2 x (alloc_mem ty wq AML_GE2D_SRC2 x).
Definition mem_dst (tmp : src_dst_para_s) (ty wq : Z) (x : config_para_ex_s) : M side_result := side tmp AML_GE2D_DST x (alloc_mem ty wq AML_GE2D_DST x).

(** ** The rest of an extended request *)

(** The setters, in the order of the code. *)
Definition ex_setters (x : config_para_ex_s) (src src2 dst : Z * Z) (wq : ge2d_context_s) : ge2d_context_s :=
  let '(s1, s2, d) := (src_para x, src2_para x, dst_para x) in
  let wq := ge2dgen_rendering_dir (p_x_rev s1) (p_y_rev s1) (p_x_rev d) (p_y_rev d) (x_dst_xy_swap x) wq in
  let wq := ge2dgen_const_color (x_alu_const_color x) wq in
  let wq := ge2dgen_src (p_canvas_index s1) (p_format s1) src.1 src.2 wq in
  let wq := ge2dgen_src_clip (p_left s1) (p_top s1) (p_width s1) (p_height s1) wq in
  let wq := ge2dgen_src_key (key_enable (x_src_key x)) (key_color (x_src_key x)) (key_mask (x_src_key x)) (key_mode (x_src_key x)) wq in
  let wq := ge2dgent_src_gbalpha (x_src1_gb_alpha x) (x_src2_gb_alpha x) wq in
  let wq := ge2dgen_src_color (p_color s1) wq in
  let wq := ge2dgen_src2 (p_canvas_index s2) (p_format s2) src2.1 src2.2 wq in
  let wq := ge2dgen_src2_clip (p_left s2) (p_top s2) (p_width s2) (p_height s2) wq in
  let wq := ge2dgen_dst (p_canvas_index d) (p_format d) dst.1 dst.2 wq in
  ge2dgen_dst_clip (p_left d) (p_top d) (p_width d) (p_height d) DST_CLIP_MODE_INSIDE wq.

Definition is_gau (ty : Z) : bool := (ty =? FILTER_TYPE_GAU0) || (ty =? FILTER_TYPE_GAU0_BOT) || (ty =? FILTER_TYPE_GAU1).
(** The repeat bits of a filter that is not Gaussian are set. *)
Definition rpt_ctrl (x : config_para_ex_s) (c : ge2d_config_s) (dp : ge2d_dp_gen_s) : ge2d_dp_gen_s :=
  if is_gau (v_scale_coef_type c) || is_gau (h_scale_coef_type c) then dp<| src1_hsc_rpt_ctrl := x_hsc_rpt_ctrl x |><| src1_vsc_rpt_ctrl := x_vsc_rpt_ctrl x |>
  else dp<| src1_hsc_rpt_ctrl := 1 |><| src1_vsc_rpt_ctrl := 1 |>.
(** The phase bits of the two scalers change places. *)
Definition ex_dp (x : config_para_ex_s) (alpha : ge2d_dp_gen_s -> ge2d_dp_gen_s) (c : ge2d_config_s) : ge2d_dp_gen_s :=
  let dp := (dp_gen c)<| src1_vsc_phase0_always_en := x_hsc_phase0_always_en x |><| src1_hsc_phase0_always_en := x_vsc_phase0_always_en x |> in
  (alpha (rpt_ctrl x c dp))
    <| src2_key_en := u8 (key_enable (x_src2_key x)) |><| src2_key_mode := u8 (key_mode (x_src2_key x)) |>
    <| src2_key := u32 (key_color (x_src2_key x)) |><| src2_key_mask := u32 (key_mask (x_src2_key x)) |>
    <| bitmask_en := x_bitmask_en x |><| bitmask := x_bitmask x |><| bytemask_only := x_bytemask_only x |>.
(** The assignments to the configuration behind the setters. *)
Definition ex_config (x : config_para_ex_s) (alpha : ge2d_dp_gen_s -> ge2d_dp_gen_s) (c : ge2d_config_s) : ge2d_config_s :=
  let c := c<| src1_gen := (src1_gen c)<| fill_mode := p_fill_mode (src_para x) |><| chfmt_rpt_pix := 0 |><| cvfmt_rpt_pix := 0 |> |>
            <| src2_dst_data := (src2_dst_data c)<| src2_def_color := u32 (p_color (src2_para x)) |> |>
            <| src2_dst_gen := (src2_dst_gen c)<| src2_fill_mode := p_fill_mode (src2_para x) |> |> in
  c<| dp_gen := ex_dp x alpha c |><| update_flag := UPDATE_ALL |>.
(** The assignments to the command. *)
Definition ex_cmd (x : config_para_ex_s) (k : ge2d_cmd_s) : ge2d_cmd_s :=
  k<| src1_fill_color_en := p_fill_color_en (src_para x) |>
   <| src2_x_rev := p_x_rev (src2_para x) |><| src2_y_rev := p_y_rev (src2_para x) |><| src2_fill_color_en := p_fill_color_en (src2_para x) |>
   <| vsc_phase_slope := x_vsc_phase_slope x |><| vsc_ini_phase := s32 (vf_init_phase x) |>
   <| vsc_phase_step := s32 (vsc_start_phase_step x) |><| vsc_rpt_l0_num := u8 (vf_rpt_num x) |>
   <| hsc_phase_slope := x_hsc_phase_slope x |><| hsc_ini_phase := s32 (hf_init_phase x) |>
   <| hsc_phase_step := s32 (hsc_start_phase_step x) |><| hsc_rpt_p0_num := u8 (hf_rpt_num x) |>.

(** The plain form: global alpha off, no multiplication. *)
Definition ex_tail (x : config_para_ex_s) (src src2 dst : Z * Z) (wq : ge2d_context_s) : ge2d_context_s :=
  let wq := ex_setters x src src2 dst wq in
  let alpha dp := dp<| src1_gb_alpha := 0xff |><| src1_gb_alpha_en := 0 |><| src2_gb_alpha := 0xff |><| src2_gb_alpha_en := 0 |> in
  on_cmd (fun k => (ex_cmd x k)<| src1_cmult_asel := 0 |><| src2_cmult_asel := 0 |>) (on_config (ex_config x alpha) wq).
(** The alpha and the multiplication of the two others. *)
Definition alpha_of (x : config_para_ex_s) (dp : ge2d_dp_gen_s) : ge2d_dp_gen_s :=
  dp<| src1_gb_alpha := x_src1_gb_alpha x .& 0xff |><| src1_gb_alpha_en := x_src1_gb_alpha_en x .& 1 |>
    <| src2_gb_alpha := x_src2_gb_alpha x .& 0xff |><| src2_gb_alpha_en := x_src2_gb_alpha_en x .& 1 |>.
Definition cmult_cmd (x : config_para_ex_s) (k : ge2d_cmd_s) : ge2d_cmd_s :=
  (ex_cmd x k)<| src2_cmult_ad := x_src2_cmult_ad x |><| src1_cmult_asel := x_src1_cmult_asel x |><| src2_cmult_asel := x_src2_cmult_asel x |>.
(** The formats go into the command in this form only. *)
Definition ion_tail (x : config_para_ex_s) (src src2 dst : Z * Z) (wq : ge2d_context_s) : ge2d_context_s :=
  let wq := ex_setters x src src2 dst wq in
  on_cmd (fun k => (cmult_cmd x k)<| src1_fmt := u32 (p_format (src_para x)) |><| src2_fmt := u32 (p_format (src2_para x)) |>
                     <| dst_fmt := u32 (p_format (dst_para x)) |>)
    (on_config (ex_config x (alpha_of x)) wq).
Definition mem_tail (m : ge2d_matrix_s) (x : config_para_ex_s) (src src2 dst : Z * Z) (wq : ge2d_context_s) : ge2d_context_s :=
  let wq := ex_setters x src src2 dst wq in
  on_config (fun c => c<| matrix_custom := m |>) (on_cmd (cmult_cmd x) (on_config (ex_config x (alpha_of x)) wq)).

(** A side, and then the rest; [-1] where the side is refused. *)
Definition and_then (m : M side_result) (f : config_para_ex_s -> Z -> Z -> M Z) : M Z :=
  o ← m; match o with None => mret (-1) | Some (x, a, st) => f x a st end.

Definition ge2d_context_config_ex (tmp : src_dst_para_s) (wq : Z) (x : config_para_ex_s) : M Z :=
  and_then (ex_src tmp wq x) (fun x a st =>
  and_then (ex_src2 tmp wq x a st) (fun x a2 st2 =>
  and_then (ex_dst tmp wq x a st a2 st2) (fun x ad std =>
  _ ← on_ctx wq (ex_tail x (a, st) (a2, st2) (ad, std)); mret 0))).

Definition ge2d_context_config_ex_ion (tmp : src_dst_para_s) (wq : Z) (x : config_para_ex_s) : M Z :=
  and_then (ion_src tmp wq x) (fun x a st =>
  and_then (ion_src2 tmp wq x) (fun x a2 st2 =>
  and_then (ion_dst tmp wq x) (fun x ad std =>
  _ ← on_ctx wq (ion_tail x (a, st) (a2, st2) (ad, std)); mret 0))).

(** No buffer is in use at first. *)
Definition unused_dma (l : list ge2d_dma_cfg_s) : list ge2d_dma_cfg_s := (fun d => d<| dma_used := 0 |>) <$> l.
Definition reset_dma_used (c : ge2d_config_s) : ge2d_config_s :=
  c<| src_dma_cfg := unused_dma (src_dma_cfg c) |><| src2_dma_cfg := unused_dma (src2_dma_cfg c) |><| dst_dma_cfg := unused_dma (dst_dma_cfg c) |>.
Definition ge2d_context_config_ex_mem (tmp : src_dst_para_s) (wq : Z) (m : config_para_ex_memtype_s) : M Z :=
  _ ← on_ctx wq (on_config reset_dma_used);
  and_then (mem_src tmp (src1_mem_alloc_type m) wq (_ge2d_config_ex m)) (fun x a st =>
  and_then (mem_src2 tmp (src2_mem_alloc_type m) wq x) (fun x a2 st2 =>
  and_then (mem_dst tmp (dst_mem_alloc_type m) wq x) (fun x ad std =>
  _ ← on_ctx wq (mem_tail (m_matrix_custom m) x (a, st) (a2, st2) (ad, std)); mret 0))).
End Config.
