(* ===== verification/Ge2dBlt.v ===== *)
(** * The operations of the 2D engine (ge2d/bitblt.c, stretchblt.c, blend.c, fillrect.c)

    An operation fills in the command of its context (windows, scaler, blending) and
    adds the command, with the configuration as it stands, to the work of the
    context.  The result is that of [ge2d_wq_add_work], which the callers ignore. *)

From stdpp Require Import base numbers list option gmap.
From coqutil Require Import Datatypes.RecordSetters.
From S2P Require Import Prelude StateM Canvas Ge2dReg Ge2dStruct Ge2dHw Ge2dGen Ge2dDma Ge2dWq.

Definition BLENDOP_LOGIC : Z := 5.
Definition MESON_CPU_MAJOR_ID_AXG : Z := 0x25.

Record rectangle_s := mk_rect { r_x : Z; r_y : Z; r_w : Z; r_h : Z }.

(** ** Parts of a command *)

Definition src1_window (r : rectangle_s) (k : ge2d_cmd_s) : ge2d_cmd_s :=
  k<| src1_x_start := r_x r |><| src1_x_end := s32 (r_x r + r_w r - 1) |><| src1_y_start := r_y r |><| src1_y_end := s32 (r_y r + r_h r - 1) |>.
Definition src2_window (r : rectangle_s) (k : ge2d_cmd_s) : ge2d_cmd_s :=
  k<| src2_x_start := r_x r |><| src2_x_end := s32 (r_x r + r_w r - 1) |><| src2_y_start := r_y r |><| src2_y_end := s32 (r_y r + r_h r - 1) |>.
Definition dst_window (r : rectangle_s) (k : ge2d_cmd_s) : ge2d_cmd_s :=
  k<| dst_x_start := r_x r |><| dst_x_end := s32 (r_x r + r_w r - 1) |><| dst_y_start := r_y r |><| dst_y_end := s32 (r_y r + r_h r - 1) |>.

Definition scaler_off (k : ge2d_cmd_s) : ge2d_cmd_s :=
  k<| sc_hsc_en := 0 |><| sc_vsc_en := 0 |><| hsc_rpt_p0_num := 0 |><| vsc_rpt_l0_num := 0 |><| hsc_div_en := 0 |><| hsc_adv_num := 0 |>.
Definition scaler_on (dst_w : Z) (k : ge2d_cmd_s) : ge2d_cmd_s :=
  let n := s32 (dst_w - 1) in
  k<| sc_hsc_en := 1 |><| sc_vsc_en := 1 |><| hsc_rpt_p0_num := 1 |><| vsc_rpt_l0_num := 1 |><| hsc_div_en := 1 |>
   <| hsc_adv_num := if n <? 1024 then n else 0 |>.

(** The colour is copied, and the alpha with [alpha_op]. *)
Definition copy_mode (alpha_op : Z) (k : ge2d_cmd_s) : ge2d_cmd_s :=
  k<| color_blend_mode := OPERATION_LOGIC |><| color_logic_op := LOGIC_OPERATION_COPY |>
   <| alpha_blend_mode := OPERATION_LOGIC |><| alpha_logic_op := alpha_op |>.

(** The colour constant of an operation without alpha. *)
Definition noalpha_color (c : ge2d_config_s) : ge2d_config_s :=
  if alu_const_color (dp_gen c) =? 0xff then c else mark UPDATE_DP_GEN (c<| dp_gen := (dp_gen c)<| alu_const_color := 0xff |> |>).

(** ** The commands of the operations *)

Definition bitblt_setup (src_x src_y w h dst_x dst_y block : Z) (k : ge2d_cmd_s) : ge2d_cmd_s :=
  (copy_mode LOGIC_OPERATION_COPY (scaler_off (dst_window (mk_rect dst_x dst_y w h) (src1_window (mk_rect src_x src_y w h) k))))<| wait_done_flag := block |>.
Definition bitblt_noalpha_setup (src_x src_y w h dst_x dst_y block : Z) (k : ge2d_cmd_s) : ge2d_cmd_s :=
  (copy_mode LOGIC_OPERATION_SET (scaler_off (dst_window (mk_rect dst_x dst_y w h) (src1_window (mk_rect src_x src_y w h) k))))<| wait_done_flag := block |>.

Definition stretchblt_setup (src dst : rectangle_s) (block : Z) (k : ge2d_cmd_s) : ge2d_cmd_s :=
  (copy_mode LOGIC_OPERATION_COPY (scaler_on (r_w dst) (dst_window dst (src1_window src k))))<| wait_done_flag := block |>.
(** It always waits. *)
Definition stretchblt_noalpha_setup (src dst : rectangle_s) (blk : Z) (k : ge2d_cmd_s) : ge2d_cmd_s :=
  (copy_mode LOGIC_OPERATION_SET (scaler_on (r_w dst) (dst_window dst (src1_window src k))))<| wait_done_flag := 1 |>.

(** It always waits. *)
Definition fillrect_setup (r : rectangle_s) (block : Z) (k : ge2d_cmd_s) : ge2d_cmd_s :=
  (copy_mode LOGIC_OPERATION_COPY ((scaler_off (dst_window r (src1_window r k)))<| src1_fill_color_en := 1 |>))<| wait_done_flag := 1 |>.

(** The windows, the scaler and the factors; a mode from [BLENDOP_LOGIC] on is a
    logic operation, which the AXG has not for the colour. *)
Definition blend_color (cpu : Z) (src src2 dst : rectangle_s) (op : Z) (k : ge2d_cmd_s) : ge2d_cmd_s :=
  let k := scaler_on (r_w dst) (dst_window dst (src2_window src2 (src1_window src k))) in
  let mode := (op >> 24) .& 0xff in
  let k := k<| color_blend_mode := mode |>
            <| color_src_blend_factor := (op >> 20) .& 0xf |><| color_dst_blend_factor := (op >> 16) .& 0xf |>
            <| alpha_src_blend_factor := (op >> 4) .& 0xf |><| alpha_dst_blend_factor := op .& 0xf |> in
  if negb (cpu =? MESON_CPU_MAJOR_ID_AXG) && (BLENDOP_LOGIC <=? mode) then
    k<| color_logic_op := mode - BLENDOP_LOGIC |><| color_blend_mode := OPERATION_LOGIC |>
  else k.
Definition blend_alpha (op : Z) (k : ge2d_cmd_s) : ge2d_cmd_s :=
  let mode := (op >> 8) .& 0xff in
  if BLENDOP_LOGIC <=? mode then k<| alpha_logic_op := mode - BLENDOP_LOGIC |><| alpha_blend_mode := OPERATION_LOGIC |>
  else k<| alpha_blend_mode := mode |>.
Definition blend_setup (cpu : Z) (src src2 dst : rectangle_s) (op block : Z) (k : ge2d_cmd_s) : ge2d_cmd_s :=
  (blend_alpha op (blend_color cpu src src2 dst op k))<| wait_done_flag := block |>.
Definition blend_noalpha_setup (cpu : Z) (src src2 dst : rectangle_s) (op block : Z) (k : ge2d_cmd_s) : ge2d_cmd_s :=
  (blend_color cpu src src2 dst op k)<| alpha_blend_mode := OPERATION_LOGIC |><| alpha_logic_op := LOGIC_OPERATION_SET |><| wait_done_flag := block |>.

(** ** The operations *)

Section Blt.
Context {H K C : Type} `{GeBus H} `{GeTime H} `{GePower H} `{DmaKernel K} `{MesonCanvas C}.
Notation M := (ST (S := ge2d_s H K C)).

(** A command with its configuration is added. *)
Definition operate (wq : Z) (f : ge2d_config_s -> ge2d_config_s) (g : ge2d_cmd_s -> ge2d_cmd_s) : M (Z * option Z) :=
  _ ← on_ctx wq (fun w => on_cmd g (on_config f w)); ge2d_wq_add_work wq.

Definition _bitblt (wq src_x src_y w h dst_x dst_y block : Z) : M (Z * option Z) := operate wq id (bitblt_setup src_x src_y w h dst_x dst_y block).
Definition _bitblt_noalpha (wq src_x src_y w h dst_x dst_y block : Z) : M (Z * option Z) :=
  operate wq noalpha_color (bitblt_noalpha_setup src_x src_y w h dst_x dst_y block).
Definition bitblt (wq src_x src_y w h dst_x dst_y : Z) := _bitblt wq src_x src_y w h dst_x dst_y 1.
Definition bitblt_noblk (wq src_x src_y w h dst_x dst_y : Z) := _bitblt wq src_x src_y w h dst_x dst_y 0.
Definition bitblt_noalpha (wq src_x src_y w h dst_x dst_y : Z) := _bitblt_noalpha wq src_x src_y w h dst_x dst_y 1.
Definition bitblt_noalpha_noblk (wq src_x src_y w h dst_x dst_y : Z) := _bitblt_noalpha wq src_x src_y w h dst_x dst_y 0.

Definition _stretchblt (wq : Z) (src dst : rectangle_s) (block : Z) : M (Z * option Z) := operate wq id (stretchblt_setup src dst block).
Definition _stretchblt_noalpha (wq : Z) (src dst : rectangle_s) (blk : Z) : M (Z * option Z) := operate wq noalpha_color (stretchblt_noalpha_setup src dst blk).
Definition stretchblt (wq : Z) (src dst : rectangle_s) := _stretchblt wq src dst 1.
Definition stretchblt_noblk (wq : Z) (src dst : rectangle_s) := _stretchblt wq src dst 0.
Definition stretchblt_noalpha (wq : Z) (src dst : rectangle_s) := _stretchblt_noalpha wq src dst 1.
Definition stretchblt_noalpha_noblk (wq : Z) (src dst : rectangle_s) := _stretchblt_noalpha wq src dst 0.

Definition _fillrect (wq : Z) (r : rectangle_s) (color block : Z) : M (Z * option Z) :=
  _ ← on_ctx wq (fun w => ge2dgen_disable_matrix (on_cmd (fillrect_setup r block) (ge2dgen_src_color color w))); ge2d_wq_add_work wq.
Definition fillrect (wq : Z) (r : rectangle_s) (color : Z) := _fillrect wq r color 1.
Definition fillrect_noblk (wq : Z) (r : rectangle_s) (color : Z) := _fillrect wq r color 0.

Definition blend (wq : Z) (src src2 dst : rectangle_s) (op : Z) : M (Z * option Z) := operate wq id (blend_setup get_cpu_type src src2 dst op 1).
Definition blend_noblk (wq : Z) (src src2 dst : rectangle_s) (op : Z) : M (Z * option Z) := operate wq id (blend_setup get_cpu_type src src2 dst op 0).
Definition blend_noalpha (wq : Z) (src src2 dst : rectangle_s) (op : Z) : M (Z * option Z) :=
  operate wq id (blend_noalpha_setup get_cpu_type src src2 dst op 1).
Definition blend_noalpha_noblk (wq : Z) (src src2 dst : rectangle_s) (op : Z) : M (Z * option Z) :=
  operate wq id (blend_noalpha_setup get_cpu_type src src2 dst op 0).
End Blt.
