(* ===== verification/Ge2dMain.v ===== *)
(** * The device file of the 2D engine (ge2d/ge2d_main.c)

    Opening a file gives it a context; the commands on it configure the context, add
    operations or work on buffers.  A command carries what the caller's memory holds
    and, as the kernel answers it, how much of that could not be copied: the code does
    not look at that number, or looks for a negative one. *)

From stdpp Require Import base numbers list option gmap.
From coqutil Require Import Datatypes.RecordSetters.
From S2P Require Import Prelude StateM KText KNum Canvas Ge2dReg Ge2dStruct Ge2dHw Ge2dGen Ge2dDma Ge2dWq Ge2dConfig Ge2dBlt.

Definition ENXIO : Z := 6.
Definition PWR_DOMAIN_CTRL : Z := 6.

(** ** The chips *)

Definition ge2d_gxl : ge2d_device_data_s := mk_device_data 400000000 0 0 0 0 0 0.
Definition ge2d_gxm : ge2d_device_data_s := mk_device_data 400000000 0 0 0 0 0 0.
Definition ge2d_txl : ge2d_device_data_s := mk_device_data 400000000 0 0 1 0 0 0.
Definition ge2d_txlx : ge2d_device_data_s := mk_device_data 400000000 0 0 1 1 1 0.
Definition ge2d_axg : ge2d_device_data_s := mk_device_data 400000000 0 1 1 1 1 0.
Definition ge2d_g12a : ge2d_device_data_s := mk_device_data 500000000 1 0 1 1 1 0.
Definition ge2d_sm1 : ge2d_device_data_s := mk_device_data 500000000 1 0 1 1 1 1.
(** Under the names of the device tree, less their prefix. *)
Inductive ge2d_chip := GXL | GXM | TXL | TXLX | AXG | G12A | SM1.
Definition ge2d_dt_match (c : ge2d_chip) : ge2d_device_data_s :=
  match c with GXL => ge2d_gxl | GXM => ge2d_gxm | TXL => ge2d_txl | TXLX => ge2d_txlx | AXG => ge2d_axg | G12A => ge2d_g12a | SM1 => ge2d_sm1 end.

(** The power tables of [ge2d_sm1]. *)
Definition default_poweron_ctrl : list (Z * Z * Z * Z * Z) := [(PWR_DOMAIN_CTRL, 0, 0, 0, 0)].
Definition default_poweroff_ctrl : list (Z * Z * Z * Z * Z) := [(PWR_DOMAIN_CTRL, 0, 1, 0, 0)].

(** ** Numbers in attributes *)

(** [kstrtoint (t, 0, &v)] *)
Definition kstrtoint0 (t : bytes) : Z + Z :=
  match t with
  | 45 :: 43 :: _ => inl (- EINVAL)
  | 45 :: r =>
      match kstrtoull0 r with
      | inl e => inl e
      | inr v => if v <=? 2 ^ 31 then inr (- v) else inl (- ERANGE)
      end
  | _ =>
      match kstrtoull0 t with
      | inl e => inl e
      | inr v => if v <? 2 ^ 31 then inr v else inl (- ERANGE)
      end
  end.
(** An attribute of one number: the result of a write and the number, and its text. *)
Definition int_store (old : Z) (t : bytes) (count : Z) : Z * Z :=
  match kstrtoint0 t with inl _ => (- EINVAL, old) | inr v => (count, u32 v) end.
Definition int_show (v : Z) : bytes := take 39 (fmt_d v ++ [newline]).

(** ** Commands *)

Record ge2d_para_s := mk_ge2d_para { color : Z; src1_rect : rectangle_s; src2_rect : rectangle_s; dst_rect : rectangle_s; op : Z }.

Inductive ge2d_op :=
| GE2D_FILLRECTANGLE | GE2D_FILLRECTANGLE_NOBLOCK
| GE2D_STRETCHBLIT | GE2D_STRETCHBLIT_NOBLOCK | GE2D_STRETCHBLIT_NOALPHA | GE2D_STRETCHBLIT_NOALPHA_NOBLOCK
| GE2D_BLIT | GE2D_BLIT_NOBLOCK | GE2D_BLIT_NOALPHA | GE2D_BLIT_NOALPHA_NOBLOCK
| GE2D_BLEND | GE2D_BLEND_NOBLOCK | GE2D_BLEND_NOALPHA | GE2D_BLEND_NOALPHA_NOBLOCK.

(** [uncopied] is the result of [copy_from_user], [failed] whether one of the copies of a
    32-bit caller did not succeed, [unwritten] the result of [copy_to_user]. *)
Inductive ge2d_cmd :=
| GE2D_GET_CAP
| GE2D_CONFIG (c : config_para_s) (uncopied : Z) | GE2D_CONFIG32 (c : config_para_s) (failed : bool)
| GE2D_SRCCOLORKEY (c : config_para_s) (uncopied : Z) | GE2D_SRCCOLORKEY32 (c : config_para_s) (failed : bool)
| GE2D_CONFIG_EX (x : config_para_ex_s) (uncopied : Z) | GE2D_CONFIG_EX32 (x : config_para_ex_s) (failed : bool)
| GE2D_CONFIG_EX_ION (x : config_para_ex_s) (uncopied : Z) | GE2D_CONFIG_EX32_ION (x : config_para_ex_s) (failed : bool)
| GE2D_CONFIG_EX_MEM (m : config_para_ex_memtype_s) (uncopied : Z) | GE2D_CONFIG_EX32_MEM (m : config_para_ex_memtype_s) (failed : bool)
| GE2D_SET_COEF (args : Z) | GE2D_ANTIFLICKER_ENABLE (args : Z)
| GE2D_REQUEST_BUFF (req : ge2d_dmabuf_req_s) (uncopied unwritten : Z) | GE2D_EXP_BUFF (e : ge2d_dmabuf_exp_s) (uncopied unwritten : Z)
| GE2D_FREE_BUFF (index uncopied : Z) | GE2D_SYNC_DEVICE (fd uncopied : Z) | GE2D_SYNC_CPU (fd uncopied : Z)
| GE2D_CONFIG_OLD | GE2D_CONFIG_EX_OLD | GE2D_SRCCOLORKEY_OLD
| GE2D_OP (o : ge2d_op) (para : ge2d_para_s) (uncopied : Z)
| GE2D_OTHER (uncopied : Z).

(** What goes back to the caller beside the result. *)
Inductive ge2d_reply := NoReply | Cap (mask : Z) | Req (req : ge2d_dmabuf_req_s) | Exp (e : ge2d_dmabuf_exp_s).

(** The requests as the copies of a 32-bit caller leave them: what is not copied is
    zero. *)
Definition copy_ex32 (x : config_para_ex_s) : config_para_ex_s := x<| x_src2_gb_alpha := 0 |>.
Definition copy_ion32 (x : config_para_ex_s) : config_para_ex_s := x<| x_src2_cmult_ad := 0 |>.
(** [sizeof (struct compat_config_para_ex_memtype_s)] *)
Definition COMPAT_MEMTYPE_SIZE : Z := 488.
Definition zero_key : src_key_ctrl_s := mk_key 0 0 0 0.
Definition zero_para : src_dst_para_ex_s := mk_para 0 0 0 0 0 0 0 0 0 0 0 0.
Definition zero_planes : list config_planes_s := replicate MAX_PLANE (mk_planes 0 0 0 0).
Definition zero_para_ex : config_para_ex_s :=
  mk_para_ex zero_para zero_para zero_para zero_key zero_key 0 0 0 0 0 0 0 0 0 0 0 0 0 0 0 0 0 0 0 0 0 0 0 0 0 zero_planes zero_planes zero_planes.
Definition copy_mem32 (m : config_para_ex_memtype_s) : config_para_ex_memtype_s :=
  if ge2d_magic m =? COMPAT_MEMTYPE_SIZE then
    mk_memtype (ge2d_magic m) (copy_ion32 (_ge2d_config_ex m)) (src1_mem_alloc_type m) (src2_mem_alloc_type m) (dst_mem_alloc_type m) zero_matrix
  else mk_memtype (ge2d_magic m) zero_para_ex 0 0 0 zero_matrix.

Section Main.
Context {H K C : Type} `{GeBus H} `{GeTime H} `{GePower H} `{DmaKernel K} `{!Ion K} `{MesonCanvas C}.
Notation M := (ST (S := ge2d_s H K C)).
(** [CONFIG_AMLOGIC_MEDIA_GE2D_MORE_SECURITY] *)
Variable more_security : bool.
(** What the stack holds where the code takes a display for described. *)
Variable tmp : src_dst_para_s.

(** [open_count] goes up with each context. *)
Definition ge2d_open (open_count : Z) : M (Z * option Z * Z) :=
  o ← create_ge2d_work_queue;
  mret (match o with None => (-1, None, open_count) | Some wq => (0, Some wq, s32 (open_count + 1)) end).
Definition ge2d_release (private_data : option Z) (open_count : Z) : M (Z * Z) :=
  match private_data with
  | None => mret (-1, open_count)
  | Some wq => r ← destroy_ge2d_work_queue (Some wq); mret (if r =? 0 then (0, s32 (open_count - 1)) else (-1, open_count))
  end.

Definition ge2d_ioctl_config_ex_mem (wq : Z) (c : ge2d_cmd) : M Z :=
  match c with
  | GE2D_CONFIG_EX_MEM m _ => ge2d_context_config_ex_mem tmp wq m
  | GE2D_CONFIG_EX32_MEM m failed => if failed then mret (- EFAULT) else ge2d_context_config_ex_mem tmp wq (copy_mem32 m)
  | _ => mret 0
  end.

(** An operation: the item whose end the caller waits for. *)
Definition run_op (wq : Z) (o : ge2d_op) (p : ge2d_para_s) : M (option Z) :=
  let '(s1, s2, d) := (src1_rect p, src2_rect p, dst_rect p) in
  '(_, it) ← match o with
  | GE2D_FILLRECTANGLE => fillrect wq s1 (color p)
  | GE2D_FILLRECTANGLE_NOBLOCK => fillrect_noblk wq s1 (color p)
  | GE2D_STRETCHBLIT => stretchblt wq s1 d
  | GE2D_STRETCHBLIT_NOBLOCK => stretchblt_noblk wq s1 d
  | GE2D_STRETCHBLIT_NOALPHA => stretchblt_noalpha wq s1 d
  | GE2D_STRETCHBLIT_NOALPHA_NOBLOCK => stretchblt_noalpha_noblk wq s1 d
  | GE2D_BLIT => bitblt wq (r_x s1) (r_y s1) (r_w s1) (r_h s1) (r_x d) (r_y d)
  | GE2D_BLIT_NOBLOCK => bitblt_noblk wq (r_x s1) (r_y s1) (r_w s1) (r_h s1) (r_x d) (r_y d)
  | GE2D_BLIT_NOALPHA => bitblt_noalpha wq (r_x s1) (r_y s1) (r_w s1) (r_h s1) (r_x d) (r_y d)
  | GE2D_BLIT_NOALPHA_NOBLOCK => bitblt_noalpha_noblk wq (r_x s1) (r_y s1) (r_w s1) (r_h s1) (r_x d) (r_y d)
  | GE2D_BLEND => blend wq s1 s2 d (op p)
  | GE2D_BLEND_NOBLOCK => blend_noblk wq s1 s2 d (op p)
  | GE2D_BLEND_NOALPHA => blend_noalpha wq s1 s2 d (op p)
  | GE2D_BLEND_NOALPHA_NOBLOCK => blend_noalpha_noblk wq s1 s2 d (op p)
  end;
  mret it.

Definition src_colorkey (wq : Z) (c : config_para_s) : M unit :=
  let k := c_src_key c in on_ctx wq (ge2dgen_src_key (key_enable k) (key_color k) (key_mask k) (key_mode k)).
Definition do_config (wq : Z) (cfg : config_para_s) : M Z :=
  d ← dev; w ← ctx_at wq; let '(ret, w) := ge2d_context_config d cfg w in _ ← put_ctx wq w; mret ret.

(** Commands that the secure build refuses. *)
Definition plain_config (c : ge2d_cmd) : bool :=
  match c with GE2D_CONFIG _ _ | GE2D_CONFIG32 _ _ | GE2D_CONFIG_EX _ _ | GE2D_CONFIG_EX32 _ _ => true | _ => false end.

(** The result, the reply and the item that the caller waits for. *)
Definition ge2d_ioctl (wq : Z) (c : ge2d_cmd) : M (Z * ge2d_reply * option Z) :=
  let ret m : M (Z * ge2d_reply * option Z) := r ← m; mret (r, NoReply, None) in
  let copied (failed : bool) m : M (Z * ge2d_reply * option Z) := if failed then mret (- EFAULT, NoReply, None) else ret m in
  if more_security && plain_config c then mret (- EINVAL, NoReply, None)
  else
  match c with
  | GE2D_GET_CAP => d ← dev; mret (0, Cap (src2_alp d .& 1), None)
  | GE2D_CONFIG cfg _ => ret (do_config wq cfg)
  | GE2D_CONFIG32 cfg failed => copied failed (do_config wq cfg)
  | GE2D_SRCCOLORKEY cfg uncopied => ret (_ ← src_colorkey wq cfg; mret uncopied)
  | GE2D_SRCCOLORKEY32 cfg failed => copied failed (_ ← src_colorkey wq cfg; mret 0)
  | GE2D_CONFIG_EX x _ => ret (ge2d_context_config_ex tmp wq x)
  | GE2D_CONFIG_EX32 x failed => copied failed (ge2d_context_config_ex tmp wq (copy_ex32 x))
  | GE2D_CONFIG_EX_ION x _ => ret (ge2d_context_config_ex_ion tmp wq x)
  | GE2D_CONFIG_EX32_ION x failed => copied failed (ge2d_context_config_ex_ion tmp wq (copy_ion32 x))
  | GE2D_CONFIG_EX_MEM _ _ | GE2D_CONFIG_EX32_MEM _ _ => ret (ge2d_ioctl_config_ex_mem wq c)
  | GE2D_SET_COEF args => ret (_ ← on_ctx wq (ge2d_wq_set_scale_coef (args .& 0xff) (args >> 16)); mret 0)
  | GE2D_ANTIFLICKER_ENABLE args => ret (_ ← ge2d_antiflicker_enable args; mret 0)
  | GE2D_REQUEST_BUFF req _ unwritten =>
      '(r, req) ← ge2d_buffer_alloc req; mret (if r =? 0 then (unwritten, Req req, None) else (r, NoReply, None))
  | GE2D_EXP_BUFF e _ unwritten =>
      '(r, e) ← ge2d_buffer_export e; mret (if r =? 0 then (unwritten, Exp e, None) else (r, NoReply, None))
  | GE2D_FREE_BUFF i _ => ret (ge2d_buffer_free i)
  | GE2D_SYNC_DEVICE fd uncopied => ret (_ ← ge2d_buffer_dma_flush fd; mret uncopied)
  | GE2D_SYNC_CPU fd uncopied => ret (_ ← ge2d_buffer_cache_flush fd; mret uncopied)
  | GE2D_CONFIG_OLD | GE2D_CONFIG_EX_OLD | GE2D_SRCCOLORKEY_OLD => mret (- EINVAL, NoReply, None)
  | GE2D_OP o p uncopied => it ← run_op wq o p; mret (uncopied, NoReply, it)
  | GE2D_OTHER uncopied => mret (uncopied, NoReply, None)
  end.

(** ** The device *)

(** The rate asked of the bus clock; [vpu] is that of the display where the kernel has
    one. *)
Definition vapb_rate (d : ge2d_device_data_s) (vpu : option Z) : Z :=
  match vpu with
  | None => ge2d_rate d
  | Some vpu_rate =>
      if ge2d_rate d <=? vpu_rate then ge2d_rate d
      else if vpu_rate =? 333330000 then 333333333
      else if vpu_rate =? 166660000 then 166666667
      else if vpu_rate <? ge2d_rate d then vpu_rate
      else ge2d_rate d
  end.

(** [node] is the chip of the node of the device tree, if the device has one; [gate]
    and [clk] whether the clocks are found; [res] the start of the registers and
    whether they can be mapped; the rest is for [ge2d_wq_init]. *)
Definition ge2d_probe (node : option (option ge2d_chip)) (irq : Z) (gate clk : bool) (res : option (Z * bool))
    (irq_ret : Z) (buffer_ok : bool) (thread_ret : Z) : M Z :=
  match node with
  | Some None => mret (- ENODEV)
  | _ =>
      _ ← modify (fun s => match node with Some (Some chip) => s<| ge2d_meson_dev := ge2d_dt_match chip |> | _ => s end);
      if irq =? - ENXIO then mret (- ENXIO)
      else if negb gate then mret (- ENOENT)
      else
        _ ← hw_do clk_prepare_enable;
        if negb clk then mret (- ENOENT)
        else
          _ ← modify (fun s =>
                match res with
                | Some (start, ok) => s<| io := mk_io (map_flag (io s)) (negb (start =? 0) && ok) (ge2d_dump_reg_enable (io s)) (ge2d_dump_reg_cnt (io s)) (hw (io s)) |>
                | None => s
                end);
          ret ← ge2d_wq_init true irq_ret buffer_ok thread_ret;
          _ ← hw_do clk_disable_unprepare;
          mret ret
  end.
Definition ge2d_remove (thread : bool) : M Z := _ ← ge2d_wq_deinit thread; mret 0.

Definition set_dump_enable (v : Z) (io : io_s H) : io_s H := mk_io (map_flag io) (ge2d_reg_map io) v (ge2d_dump_reg_cnt io) (hw io).
Definition set_dump_cnt (v : Z) (io : io_s H) : io_s H := mk_io (map_flag io) (ge2d_reg_map io) (ge2d_dump_reg_enable io) v (hw io).
Definition dump_reg_enable_store (t : bytes) (count : Z) : M Z := fun s =>
  let '(r, v) := int_store (ge2d_dump_reg_enable (io s)) t count in Some (r, s<| io := set_dump_enable v (io s) |>).
Definition dump_reg_cnt_store (t : bytes) (count : Z) : M Z := fun s =>
  let '(r, v) := int_store (ge2d_dump_reg_cnt (io s)) t count in Some (r, s<| io := set_dump_cnt v (io s) |>).
Definition dump_reg_enable_show : M bytes := gets (fun s => int_show (ge2d_dump_reg_enable (io s))).
Definition dump_reg_cnt_show : M bytes := gets (fun s => int_show (ge2d_dump_reg_cnt (io s))).
End Main.
