(* ===== verification/Ge2dProgram.v ===== *)
(** * What the registers of the 2D engine hold when a command starts

    The driver programs only the parts of a configuration that are marked as changed.
    [sees] says that every bit a full programming of a configuration would write holds
    what that would leave, but for the four bits that a command may overwrite;
    [advance] relates a configuration to a later one whose marks cover the
    difference.  [program_sees]: programming the marked parts is enough. *)

From stdpp Require Import base numbers list option.
From coqutil Require Import Datatypes.RecordSetters.
From S2P Require Import Prelude StateM Canvas Ge2dReg Ge2dStruct Ge2dHw Ge2dGen Ge2dDma Ge2dWq.

(** ** The parts of a configuration *)

(** The operations of the five parts in registers, in the order of their marks; the
    coefficients of the scaler are the sixth. *)
Definition part_ops (d : ge2d_device_data_s) (c : ge2d_config_s) : list (list reg_op) :=
  [ ge2d_set_src1_data d (src1_data c); ge2d_set_src1_gen (src1_gen c);
    ge2d_set_src2_dst_data d (src2_dst_data c); ge2d_set_src2_dst_gen (src2_dst_gen c);
    (ge2d_set_dp_gen d (dp_gen c) (matrix_custom c)).1 ].
Definition full_ops d c : list reg_op := concat (part_ops d c).
Definition coef_ops c : list reg_op := (ge2d_set_src1_scale_coef (v_scale_coef_type c) (h_scale_coef_type c)).1.
Definition gaul_of c : bool := (ge2d_set_src1_scale_coef (v_scale_coef_type c) (h_scale_coef_type c)).2.

(** The parts with a mark. *)
Definition marked (flag : Z) (ls : list (list reg_op)) : list (list reg_op) := imap (fun i l => when_op (Z.testbit flag (Z.of_nat i)) l) ls.

Definition part_eq (i : nat) (b c : ge2d_config_s) : Prop :=
  match i with
  | 0%nat => src1_data b = src1_data c
  | 1%nat => src1_gen b = src1_gen c
  | 2%nat => src2_dst_data b = src2_dst_data c
  | 3%nat => src2_dst_gen b = src2_dst_gen c
  | 4%nat => dp_gen b = dp_gen c /\ matrix_custom b = matrix_custom c
  | _ => v_scale_coef_type b = v_scale_coef_type c /\ h_scale_coef_type b = h_scale_coef_type c
  end.
Lemma part_eq_refl i c : part_eq i c c.
Proof. by do 6 (destruct i as [|i]; [done|]). Qed.
Lemma part_eq_trans i a b c : part_eq i a b -> part_eq i b c -> part_eq i a c.
Proof. destruct i as [|[|[|[|[|i]]]]]; cbn; intuition congruence. Qed.
Lemma part_eq_sym i a b : part_eq i a b -> part_eq i b a.
Proof. destruct i as [|[|[|[|[|i]]]]]; cbn; intuition congruence. Qed.
Lemma part_eq_ops d i b c : part_eq i b c -> part_ops d b !! i = part_ops d c !! i.
Proof.
  intros He. unfold part_ops. destruct i as [|[|[|[|[|i]]]]]; cbn [part_eq lookup list_lookup] in *; [rewrite He; done..|destruct He as [-> ->]; done|done].
Qed.
Lemma part_eq_coef b c : part_eq 5 b c -> coef_ops b = coef_ops c /\ gaul_of b = gaul_of c.
Proof. intros [E1 E2]. unfold coef_ops, gaul_of. by rewrite E1, E2. Qed.

(** ** Parts do not meet *)

(** No chip has both a second source with alpha and addresses for canvases: the
    register of the one would be that of the other. *)
Definition chip_ok (d : ge2d_device_data_s) : Prop := ~ (src2_alp d = 1 /\ canvas_status d = 1).

Definition parts_apart (ls : list (list reg_op)) : Prop :=
  forall i j l l', i <> j -> ls !! i = Some l -> ls !! j = Some l' -> all_apart (op_field <$> l) (op_field <$> l') = true.

Fixpoint pairwise_apart (ls : list (list reg_op)) : bool :=
  match ls with
  | [] => true
  | l :: ls => forallb (fun l' => all_apart (op_field <$> l) (op_field <$> l')) ls && pairwise_apart ls
  end.
Lemma fields_apart_sym f g : fields_apart f g = fields_apart g f.
Proof.
  unfold fields_apart. rewrite (Z.eqb_sym (f.1.1) (g.1.1)). destruct (negb _), (f.1.2 + f.2 <=? g.1.2), (g.1.2 + g.2 <=? f.1.2); done.
Qed.
Lemma all_apart_sym fs gs : all_apart fs gs = true -> all_apart gs fs = true.
Proof.
  unfold all_apart. rewrite !forallb_forall. intros Ha g Hg. apply forallb_forall. intros f Hf. rewrite fields_apart_sym.
  specialize (Ha f Hf). rewrite forallb_forall in Ha. by apply Ha.
Qed.
Lemma pairwise_apart_spec ls : pairwise_apart ls = true -> parts_apart ls.
Proof.
  induction ls as [|l ls IH]; [intros _ i j l l' _ Hi; by rewrite lookup_nil in Hi|]. cbn. intros Ha.
  apply andb_prop in Ha as [Ha Hr]. rewrite forallb_forall in Ha. intros i j l1 l2 Hij Hi Hj.
  destruct i as [|i], j as [|j]; cbn in Hi, Hj; [done|..]; inv_some.
  - apply Ha, list_elem_of_In. by eapply list_elem_of_lookup_2.
  - apply all_apart_sym, Ha, list_elem_of_In. by eapply list_elem_of_lookup_2.
  - eapply (IH Hr i j); eauto.
Qed.


Lemma parts_are_apart d c : chip_ok d -> parts_apart (part_ops d c).
Proof.
  intros Hd. apply pairwise_apart_spec. unfold part_ops, ge2d_set_src1_data, ge2d_set_src2_dst_data, ge2d_set_dp_gen, alpha_key_regs, antiflick_regs.
  assert (Ho : (src2_alp d =? 1) && (canvas_status d =? 1) = false) by (apply not_true_is_false; intros Ht; apply Hd; b2p; done).
  destruct (canvas_status d =? 1), (deep_color d =? 1), (src2_alp d =? 1); try done; destruct (antiflick_en _ =? 1), (c_true (use_matrix_default _ .& _)); lazy; done.
Qed.

(** ** What the marked parts write *)

Lemma concat_none ls r b : (forall j l, ls !! j = Some l -> last_bit l r b = None) -> last_bit (concat ls) r b = None.
Proof.
  induction ls as [|l ls IH]; [done|]. intros Hn. cbn [concat]. rewrite last_bit_app, IH; [by apply (Hn 0%nat)|]. intros j l' Hj. by apply (Hn (S j)).
Qed.
Lemma concat_only ls i l r b : ls !! i = Some l -> (forall j l', j <> i -> ls !! j = Some l' -> last_bit l' r b = None) ->
  last_bit (concat ls) r b = last_bit l r b.
Proof.
  revert i. induction ls as [|l0 ls IH]; [done|]. intros [|i] Hi Hn; cbn in Hi; cbn [concat]; rewrite last_bit_app.
  - inv_some. rewrite concat_none; [done|]. intros j l' Hj. apply (Hn (S j)); [done|exact Hj].
  - rewrite (IH i Hi); [|intros j l' Hj Hl; apply (Hn (S j)); [congruence|exact Hl]]. rewrite (Hn 0%nat l0); [by destruct (last_bit l r b)|done|done].
Qed.
Lemma last_bit_None l r b : 0 <= b < 32 -> in_fields (op_field <$> l) r b = false -> last_bit l r b = None.
Proof. intros Hb Hf. apply eq_None_not_Some. rewrite last_bit_field by done. by rewrite Hf. Qed.

Lemma apart_none ls i j l l' r b : parts_apart ls -> 0 <= b < 32 -> i <> j -> ls !! i = Some l -> ls !! j = Some l' ->
  is_Some (last_bit l r b) -> last_bit l' r b = None.
Proof.
  intros Ha Hb Hij Hi Hj Hs. apply last_bit_None; [done|]. eapply all_apart_spec; [eapply (Ha i j); eauto|]. by apply last_bit_field.
Qed.

Lemma part_bit d c i l r b v : chip_ok d -> 0 <= b < 32 -> part_ops d c !! i = Some l -> last_bit l r b = Some v -> last_bit (full_ops d c) r b = Some v.
Proof.
  intros Hd Hb Hi Hv. unfold full_ops. rewrite (concat_only _ i l); [done|done|]. intros j l' Hj Hl.
  eapply (apart_none _ i j); eauto using parts_are_apart.
Qed.
(** Each bit of a full programming belongs to one part. *)
Lemma full_bit d c r b v : chip_ok d -> 0 <= b < 32 -> last_bit (full_ops d c) r b = Some v ->
  exists i l, part_ops d c !! i = Some l /\ last_bit l r b = Some v.
Proof.
  intros Hd Hb Hv. destruct (decide (Exists (fun l => is_Some (last_bit l r b)) (part_ops d c))) as [He|Hn].
  - apply Exists_exists in He as (l & Hl & [v' Hv']). apply list_elem_of_In, list_elem_of_lookup in Hl as [i Hi]. exists i, l. split; [done|].
    rewrite <- Hv. symmetry. rewrite Hv'. by eapply part_bit.
  - unfold full_ops in Hv. rewrite concat_none in Hv; [done|]. intros j l Hj. apply eq_None_not_Some. intros Hs. apply Hn, Exists_exists.
    exists l. split; [|done]. apply list_elem_of_In. by eapply list_elem_of_lookup_2.
Qed.

Lemma marked_lookup flag ls i : marked flag ls !! i = when_op (Z.testbit flag (Z.of_nat i)) <$> (ls !! i).
Proof. unfold marked. by rewrite list_lookup_imap. Qed.
Lemma when_op_none b l r i : last_bit l r i = None -> last_bit (when_op b l) r i = None.
Proof. by destruct b. Qed.

Lemma marked_bit d c flag i l r b v : chip_ok d -> 0 <= b < 32 -> part_ops d c !! i = Some l -> last_bit l r b = Some v ->
  last_bit (concat (marked flag (part_ops d c))) r b = if Z.testbit flag (Z.of_nat i) then Some v else None.
Proof.
  intros Hd Hb Hi Hv. assert (Hn : forall j l', j <> i -> marked flag (part_ops d c) !! j = Some l' -> last_bit l' r b = None).
  { intros j l' Hj Hl. rewrite marked_lookup in Hl. apply fmap_Some in Hl as (l'' & Hl & ->). apply when_op_none.
    eapply (apart_none _ i j); eauto using parts_are_apart. }
  rewrite (concat_only _ i (when_op (Z.testbit flag (Z.of_nat i)) l)); [|by rewrite marked_lookup, Hi|done]. by destruct (Z.testbit _ _).
Qed.

(** ** The loop over the marks *)

Definition mark_list : list Z := [0;1;2;3;4;5;6;7;8;9;10;11;12;13;14;15;16;17;18;19;20;21;22;23;24;25;26;27;28;29;30;31;32;33;34;35;36;37;38;39;40;41;42;43;44;45;46;47;48;49;50;51;52;53;54;55;56;57;58;59;60;61;62;63].
Lemma mark_in x : 0 <= x < 64 -> In x mark_list.
Proof.
  intros Hx. replace x with (Z.of_nat (Z.to_nat x)) by lia. assert (Hn : (Z.to_nat x < 64)%nat) by lia. revert Hn. generalize (Z.to_nat x). clear.
  intros n Hn. apply list_elem_of_In, list_elem_of_lookup. exists n. do 64 (destruct n as [|n]; [done|]). lia.
Qed.

#[local] Opaque ge2d_set_src1_data ge2d_set_src1_gen ge2d_set_src2_dst_data ge2d_set_src2_dst_gen ge2d_set_dp_gen ge2d_set_src1_scale_coef.
Lemma program_config_ops d c gaul : 0 <= update_flag c < 64 -> exists c',
  program_config d c gaul =
    (concat (marked (update_flag c) (part_ops d c)) ++ when_op (Z.testbit (update_flag c) 5) (coef_ops c), c',
     if Z.testbit (update_flag c) 5 then gaul_of c else gaul) /\
  src_dma_cfg c' = src_dma_cfg c /\ src2_dma_cfg c' = src2_dma_cfg c /\ dst_dma_cfg c' = dst_dma_cfg c.
Proof.
  intros Hf. apply mark_in in Hf. unfold program_config, part_ops, coef_ops, gaul_of. destruct c. cbn [Ge2dGen.update_flag Ge2dGen.src1_data Ge2dGen.src1_gen Ge2dGen.src2_dst_data Ge2dGen.src2_dst_gen Ge2dGen.dp_gen Ge2dGen.matrix_custom
    Ge2dGen.v_scale_coef_type Ge2dGen.h_scale_coef_type] in *.
  destruct (ge2d_set_dp_gen _ _ _) as [dp_ops dp'] eqn:Edp. destruct (ge2d_set_src1_scale_coef _ _) as [co g] eqn:Eco.
  unfold mark_list in Hf. cbn [In] in Hf.
  repeat match type of Hf with _ \/ _ => destruct Hf as [<-|Hf] end; [..|done]; 
    eexists; lazy -[app]; rewrite ?Edp, ?Eco; lazy -[app]; rewrite ?Eco, ?app_nil_r, <- ?app_assoc, ?app_nil_r; (split; [reflexivity|by split_and!]).
Qed.
#[local] Transparent ge2d_set_src1_data ge2d_set_src1_gen ge2d_set_src2_dst_data ge2d_set_src2_dst_gen ge2d_set_dp_gen ge2d_set_src1_scale_coef.

(** ** What the engine holds *)

(** The repeat bits of the chroma formatter and of the scaler: a command that scales
    nothing sets or clears them. *)
Definition left_over : list (Z * Z * Z) := [(GE2D_SRC1_FMT_CTRL, 19, 1); (GE2D_SRC1_FMT_CTRL, 17, 1); (GE2D_SC_MISC_CTRL, 8, 2)].
(** The other fields that commands and the power-up setup write. *)
Definition engine_fields : list (Z * Z * Z) :=
  [ (GE2D_SRC1_X_START_END, 0, 32); (GE2D_SRC1_Y_START_END, 0, 32); (GE2D_SRC1_FMT_CTRL, 8, 8); (GE2D_SRC1_FMT_CTRL, 0, 8);
    (GE2D_SRC2_X_START_END, 0, 32); (GE2D_SRC2_Y_START_END, 0, 32); (GE2D_DST_X_START_END, 0, 32); (GE2D_DST_Y_START_END, 0, 32);
    (GE2D_GEN_CTRL2, 27, 1); (GE2D_GEN_CTRL2, 25, 1); (GE2D_SC_MISC_CTRL, 11, 18);
    (GE2D_HSC_START_PHASE_STEP, 0, 32); (GE2D_HSC_PHASE_SLOPE, 0, 32); (GE2D_HSC_ADV_CTRL, 0, 32); (GE2D_HSC_INI_CTRL, 0, 32);
    (GE2D_VSC_START_PHASE_STEP, 0, 32); (GE2D_VSC_PHASE_SLOPE, 0, 32); (GE2D_VSC_INI_CTRL, 0, 32); (GE2D_ALU_OP_CTRL, 0, 32);
    (GE2D_GEN_CTRL4, 0, 1); (GE2D_CMD_CTRL, 0, 32);
    (GE2D_GEN_CTRL1, 31, 1); (GE2D_GEN_CTRL1, 24, 2); (GE2D_DP_ONOFF_CTRL, 0, 32); (GE2D_GEN_CTRL4, 16, 12) ].

Lemma full_apart_engine d c : chip_ok d -> all_apart (op_field <$> full_ops d c) engine_fields = true.
Proof.
  intros _. unfold full_ops, part_ops, ge2d_set_src1_data, ge2d_set_src2_dst_data, ge2d_set_dp_gen, alpha_key_regs, antiflick_regs.
  destruct (canvas_status d =? 1), (deep_color d =? 1), (src2_alp d =? 1), (antiflick_en _ =? 1), (c_true (use_matrix_default _ .& _)); lazy; done.
Qed.

(** Operations with sane fields that leave the port of the coefficients alone. *)
Definition op_plain (o : reg_op) : bool := op_sane o && negb (volatile (op_field o).1.1).
Definition op_fine (o : reg_op) : bool := op_sane o && match o with Wr _ _ => true | Bits r _ _ _ => negb (volatile r) end.
Lemma full_plain d c : forallb op_plain (full_ops d c) = true.
Proof.
  unfold full_ops, part_ops, ge2d_set_src1_data, ge2d_set_src2_dst_data, ge2d_set_dp_gen, alpha_key_regs, antiflick_regs.
  destruct (canvas_status d =? 1), (deep_color d =? 1), (src2_alp d =? 1), (antiflick_en _ =? 1), (c_true (use_matrix_default _ .& _)); lazy; done.
Qed.
Lemma plain_marked flag ls : forallb op_plain (concat ls) = true -> forallb op_plain (concat (marked flag ls)) = true.
Proof.
  rewrite !forallb_forall. intros Hp o Ho. apply in_concat in Ho as (l & Hl & Ho). apply list_elem_of_In, list_elem_of_lookup in Hl as [i Hi].
  rewrite marked_lookup in Hi. apply fmap_Some in Hi as (l' & Hi & ->). destruct (Z.testbit flag (Z.of_nat i)); [|done]. apply Hp, in_concat.
  exists l'. split; [|done]. apply list_elem_of_In. by eapply list_elem_of_lookup_2.
Qed.

(** The writes to the port of the coefficients. *)
Definition port_writes (l : list reg_op) : list (Z * Z) :=
  omap (fun o => match o with Wr r v => if coef_port r then Some (r, u32 v) else None | Bits _ _ _ _ => None end) l.
Lemma coef_ops_volatile c : forallb (fun o => match o with Wr r _ => volatile r && coef_port r | Bits _ _ _ _ => false end) (coef_ops c) = true.
Proof.
  unfold coef_ops, ge2d_set_src1_scale_coef. cbn [fst]. rewrite !forallb_app. rewrite !andb_true_iff. split_and!; [done| |done|].
  - apply forallb_forall. intros o Ho. apply list_elem_of_In, list_elem_of_fmap in Ho as (v & -> & _). done.
  - apply forallb_forall. intros o Ho. apply list_elem_of_In, list_elem_of_fmap in Ho as (v & -> & _). done.
Qed.

(** What the engine can be seen to hold: its registers, and the writes to the port of
    the coefficients. *)
Record snapshot := Snap { sn_read : Z -> Z; sn_coef : list (Z * Z) }.

(** The bits of the configuration [c] in the registers, and its coefficients behind
    the port; [g] is [gaul_filter_used]. *)
Definition holds_bits (d : ge2d_device_data_s) (c : ge2d_config_s) (sn : snapshot) : Prop :=
  forall r b v, volatile r = false -> 0 <= b < 32 -> in_fields left_over r b = false ->
    last_bit (full_ops d c) r b = Some v -> Z.testbit (sn_read sn r) b = v.
Definition holds_coef (c : ge2d_config_s) (sn : snapshot) (g : bool) : Prop :=
  (exists pre, sn_coef sn = pre ++ port_writes (coef_ops c)) /\ g = gaul_of c.
Definition holds d c sn g : Prop := holds_bits d c sn /\ holds_coef c sn g.

(** Two states of the engine alike but for the volatile registers. *)
Definition sn_same (a b : snapshot) : Prop := (forall r, volatile r = false -> sn_read b r = sn_read a r) /\ sn_coef b = sn_coef a.
Lemma holds_same d c a b g : sn_same a b -> holds d c a g -> holds d c b g.
Proof.
  intros [Hr Hc] [Hb Hco]. split.
  - intros r i v Hv Hi Ho Hf. rewrite Hr by done. by apply Hb.
  - unfold holds_coef in *. by rewrite Hc.
Qed.

Section Holds.
Context {H : Type} `{GeBusLaws H}.
Implicit Types (io : io_s H) (h : H).

Definition snap (h : H) : snapshot := Snap (fun r => bus_read r h) (coef_writes h).

Lemma run_op_coef o io : ready io -> op_fine o = true ->
  coef_writes (hw (run_op o io)) = coef_writes (hw io) ++ port_writes [o] /\ ready (run_op o io).
Proof.
  intros Hr Hf. destruct o as [r v|r v s n]; cbn [run_op].
  - destruct (reg_write_ready r v io Hr) as [-> Hr']. split; [|done]. rewrite coef_write. cbn. destruct (coef_port r); [done|]. by rewrite app_nil_r.
  - unfold ge2d_reg_set_bits. destruct (reg_read_ready r io Hr) as (io1 & -> & Eh & Hr1).
    destruct (reg_write_ready r (set_field (bus_read r (hw io)) v s n) io1 Hr1) as [-> Hr']. split; [|done]. rewrite coef_write, Eh.
    unfold op_fine in Hf. b2p. replace (coef_port r) with false; [cbn; by rewrite app_nil_r|]. symmetry. unfold volatile in *. unfold coef_port. b2p. bsolve.
Qed.
Lemma run_ops_coef l io : ready io -> forallb op_fine l = true ->
  coef_writes (hw (run_ops l io)) = coef_writes (hw io) ++ port_writes l /\ ready (run_ops l io).
Proof.
  intros Hr Hl. induction l as [|o l IH] using rev_ind; [by rewrite app_nil_r|]. rewrite forallb_app in Hl. cbn in Hl. b2p.
  destruct IH as [IH Hr']; [done|]. rewrite run_ops_app. destruct (run_op_coef o (run_ops l io)) as [E Hr'']; [done|done|].
  cbn [run_ops foldl] in *. unfold run_ops in *. cbn [foldl] in *. rewrite E, IH. split; [|done]. unfold port_writes. rewrite omap_app. by rewrite app_assoc.
Qed.

Lemma plain_fine l : forallb op_plain l = true -> forallb op_fine l = true /\ forallb op_sane l = true /\ port_writes l = [].
Proof.
  induction l as [|o l IH]; [done|]. cbn [forallb]. intros Hp. apply andb_prop in Hp as [Ho Hl]. destruct (IH Hl) as (E1 & E2 & E3). rewrite E1, E2.
  unfold op_plain in Ho. apply andb_prop in Ho as [Hs Hv]. unfold op_fine, port_writes in *. cbn [omap list_omap]. destruct o as [r v|r v s n]; cbn [op_field fst] in *; rewrite Hs.
  - replace (coef_port r) with false; [done|]. unfold volatile in Hv. unfold coef_port. b2p. bsolve.
  - by rewrite Hv.
Qed.
Lemma coef_fine c : forallb op_fine (coef_ops c) = true /\ forallb op_sane (coef_ops c) = true.
Proof.
  pose proof (coef_ops_volatile c) as Hv. rewrite forallb_forall in Hv. rewrite !forallb_forall. split; intros o Ho; specialize (Hv o Ho); by destruct o.
Qed.
Lemma coef_no_bit c r b : volatile r = false -> 0 <= b < 32 -> last_bit (coef_ops c) r b = None.
Proof.
  intros Hv Hb. apply last_bit_None; [done|]. apply not_true_is_false. intros Hf. unfold in_fields in Hf. apply existsb_exists in Hf as (f & Hf & Ef).
  apply list_elem_of_In, list_elem_of_fmap in Hf as (o & -> & Ho). pose proof (coef_ops_volatile c) as Hp. rewrite forallb_forall in Hp.
  specialize (Hp o (proj1 (list_elem_of_In _ _) Ho)). destruct o as [r' v|]; [|done]. unfold in_field in Ef. cbn [op_field fst snd] in Ef. b2p. congruence.
Qed.

(** None of them starts the engine. *)
Lemma plain_not_start l : forallb op_plain l = true -> Forall (fun o => (op_field o).1.1 <> GE2D_CMD_CTRL) l.
Proof.
  intros Hp. apply Forall_forall. intros o Ho. rewrite forallb_forall in Hp. specialize (Hp o Ho). unfold op_plain in Hp. intros E. rewrite E in Hp. by rewrite andb_false_r in Hp.
Qed.
Lemma coef_not_start c : Forall (fun o => (op_field o).1.1 <> GE2D_CMD_CTRL) (coef_ops c).
Proof.
  apply Forall_forall. intros o Ho. pose proof (coef_ops_volatile c) as Hp. rewrite forallb_forall in Hp. specialize (Hp o Ho). destruct o as [r v|]; [|done].
  cbn. intros ->. by rewrite andb_false_r in Hp.
Qed.

(** Programming the marked parts of a configuration is enough, where the others are
    those of a configuration that the engine holds. *)
Lemma program_holds d c g io : chip_ok d -> ready io -> 0 <= update_flag c < 64 ->
  (forall i, (i < 6)%nat -> Z.testbit (update_flag c) (Z.of_nat i) = false -> exists b, holds d b (snap (hw io)) g /\ part_eq i b c) ->
  exists ops c' g', program_config d c g = (ops, c', g') /\ holds d c (snap (hw (run_ops ops io))) g' /\ ready (run_ops ops io) /\
    Forall (fun o => (op_field o).1.1 <> GE2D_CMD_CTRL) ops /\
    src_dma_cfg c' = src_dma_cfg c /\ src2_dma_cfg c' = src2_dma_cfg c /\ dst_dma_cfg c' = dst_dma_cfg c.
Proof.
  intros Hd Hr Hf Hb. destruct (program_config_ops d c g Hf) as (c' & -> & Hdma).
  set (l := concat (marked (update_flag c) (part_ops d c))). set (k := when_op (Z.testbit (update_flag c) 5) (coef_ops c)).
  assert (Hl : forallb op_plain l = true) by apply plain_marked, full_plain. destruct (plain_fine l Hl) as (Fl & Sl & Pl).
  assert (Hk : forallb op_fine k = true /\ forallb op_sane k = true) by (unfold k; destruct (Z.testbit _ 5); [apply coef_fine|done]). destruct Hk as [Fk Sk].
  eexists _, c', _. split; [done|]. split; [|split; [|split; [|exact Hdma]]].
  - split.
    + intros r b v Hv Hb' Ho Hfull. destruct (run_ops_bit (l ++ k) io r b Hr) as [Hbit _]; [by rewrite forallb_app, Sl, Sk|done|done|].
      unfold reg_bit in Hbit. cbn [snap sn_read]. rewrite Hbit, last_bit_app. assert (Hkn : last_bit k r b = None) by (unfold k; destruct (Z.testbit (update_flag c) 5); [by apply coef_no_bit|done]). rewrite Hkn. cbn [from_option].
      destruct (full_bit d c r b v Hd Hb' Hfull) as (i & p & Hi & Hp). unfold l. rewrite (marked_bit d c _ i p r b v) by done.
      destruct (Z.testbit (update_flag c) (Z.of_nat i)) eqn:Em; [done|]. cbn [default]. assert (Hi6 : (i < 6)%nat) by (apply lookup_lt_Some in Hi; cbn in Hi; lia).
      destruct (Hb i Hi6 Em) as (c0 & [Hbits _] & He). apply (Hbits r b v); [done..|]. eapply part_bit; [done..| |exact Hp]. by rewrite (part_eq_ops d i _ _ He).
    + destruct (run_ops_coef (l ++ k) io Hr) as [Hc _]; [by rewrite forallb_app, Fl, Fk|]. unfold holds_coef. cbn [snap sn_coef]. rewrite Hc. unfold port_writes. rewrite omap_app.
      fold (port_writes l) (port_writes k). rewrite Pl. unfold k. destruct (Z.testbit (update_flag c) 5) eqn:Em; cbn [when_op app].
      * split; [by eexists|done].
      * destruct (Hb 5%nat) as (c0 & [_ [[pre Hpre] Hg]] & He); [lia|done|]. destruct (part_eq_coef _ _ He) as [E1 E2]. rewrite app_nil_r. split; [|by rewrite <- E2].
        exists pre. cbn [snap sn_coef] in Hpre. by rewrite Hpre, E1.
  - destruct (run_ops_coef (l ++ k) io Hr) as [_ Hr']; [by rewrite forallb_app, Fl, Fk|done].
  - apply Forall_app. split; [by apply plain_not_start|]. unfold k. destruct (Z.testbit _ 5); [apply coef_not_start|done].
Qed.

(** Operations on other fields leave what the engine holds. *)
Lemma holds_ops d c g l io : chip_ok d -> ready io -> forallb op_fine l = true -> port_writes l = [] ->
  all_within (op_field <$> l) (engine_fields ++ left_over) = true -> holds d c (snap (hw io)) g -> holds d c (snap (hw (run_ops l io))) g /\ ready (run_ops l io).
Proof.
  intros Hd Hr Hf Hp Hw [Hbits Hcoef]. destruct (run_ops_coef l io Hr Hf) as [Hc Hr']. split; [|done]. split.
  - intros r b v Hv Hb Ho Hfull. destruct (run_ops_bit l io r b Hr) as [Hbit _]; [|done|done|].
    { rewrite forallb_forall in *. intros o Hin. specialize (Hf o Hin). unfold op_fine in Hf. by apply andb_prop in Hf as [? _]. }
    unfold reg_bit in Hbit. cbn [snap sn_read]. rewrite Hbit. rewrite last_bit_None; [by apply (Hbits r b v)|done|]. apply not_true_is_false. intros Hin.
    eapply all_within_spec in Hin; [|exact Hw]. unfold in_fields in Hin, Ho. rewrite existsb_app in Hin. apply orb_prop in Hin as [Hin|Hin]; [|congruence].
    assert (Hff : in_fields (op_field <$> full_ops d c) r b = true) by (apply last_bit_field; [done|by rewrite Hfull]).
    pose proof (all_apart_spec _ _ r b (full_apart_engine d c Hd) Hff). unfold in_fields in *. congruence.
  - unfold holds_coef in *. cbn [snap sn_coef] in *. by rewrite Hc, Hp, app_nil_r.
Qed.
End Holds.
