(* ===== verification/Ge2dCommand.v ===== *)
(** * Starting a command of the 2D engine

    What is assumed of the engine over time, and what [ge2d_set_cmd] does: it starts the
    engine once, with the registers of the command and of the configuration that was
    programmed.  [launched] is the record that the engine's start leaves. *)

From stdpp Require Import base numbers list option.
From coqutil Require Import Datatypes.RecordSetters.
From S2P Require Import Prelude StateM Canvas Ge2dReg Ge2dStruct Ge2dHw Ge2dGen Ge2dDma Ge2dWq Ge2dProgram.

(** The engine when each command was started: a write to the register that starts it. *)
Class GeLaunch (H : Type) `{GeBus H} := {
  launched : H -> list snapshot;
  launched_write h r v : launched (bus_write r v h) = if r =? GE2D_CMD_CTRL then launched h ++ [snap h] else launched h }.

Definition same_engine {H} `{GeLaunch H} (h h' : H) : Prop := sn_same (snap h) (snap h') /\ launched h' = launched h.

(** Time and the interrupt change only the status.  [pending] is what the engine still
    has to do: it gets less while one waits, unless the interrupt does not come. *)
Class GeTimeLaws (H : Type) `{GeLaunch H} `{GeTime H} := {
  pending : H -> nat;
  engine_bound : nat;
  pending_le h : (pending h <= engine_bound)%nat;
  tick_same h : same_engine h (tick h);
  wait_same h : same_engine h (wait_cmd h).2;
  tick_less h : c_true (bus_read GE2D_STATUS0 h .& (1 << 1)) = true -> (pending (tick h) < pending h)%nat;
  wait_less h : c_true (bus_read GE2D_STATUS0 h .& 1) = true -> (wait_cmd h).1 <> 0 -> (pending (wait_cmd h).2 < pending h)%nat }.

(** Clocks and power tables do not touch the registers. *)
Class GePowerLaws (H : Type) `{GeLaunch H} `{GePower H} := {
  clk_on_same h : same_engine h (clk_prepare_enable h);
  clk_off_same h : same_engine h (clk_disable_unprepare h) }.

Lemma sn_same_refl a : sn_same a a.
Proof. done. Qed.
Lemma sn_same_trans a b c : sn_same a b -> sn_same b c -> sn_same a c.
Proof. intros [R1 C1] [R2 C2]. split; [intros r Hr; by rewrite R2, R1|congruence]. Qed.

(** ** The operations of a command *)

(** Sane operations on the fields of a command. *)
Definition cmd_plain (l : list reg_op) : bool := forallb op_plain l && all_within (op_field <$> l) (engine_fields ++ left_over).
Lemma cmd_plain_app l l' : cmd_plain (l ++ l') = cmd_plain l && cmd_plain l'.
Proof.
  unfold cmd_plain, all_within. rewrite fmap_app, !forallb_app. destruct (forallb op_plain l), (forallb op_plain l'); cbn; rewrite ?andb_false_r; done.
Qed.

Lemma window_regs_plain x y k : cmd_plain (window_regs x y k) = true.
Proof.
  unfold window_regs. destruct (chroma_axis _ true _ _) as [[xs xe] xp]. destruct (chroma_axis _ false _ _) as [[ys ye] yp].
  destruct (same_size k); lazy; done.
Qed.
Lemma set_phases_plain sc k k' l : set_phases sc k = Some (k', l) -> cmd_plain l = true /\ wait_done_flag k' = wait_done_flag k.
Proof.
  unfold set_phases. destruct (udiv _ (sc_widthi sc)) as [rw|]; [|done]. destruct (udiv _ (sc_heighti sc)) as [rh|]; [|done]. cbn [mbind option_bind].
  intros E. inv_some. split.
  - destruct (s32 rh =? 10), (s32 rw =? 10); lazy; done.
  - destruct k, (ini_phase (s32 rh)) as [[]|], (ini_phase (s32 rw)) as [[]|]; done.
Qed.
Lemma scale_cmd_regs_plain sc k : cmd_plain (scale_cmd_regs sc k).2 = true /\ wait_done_flag (scale_cmd_regs sc k).1 = wait_done_flag k.
Proof. split; [lazy; done|by destruct k]. Qed.
Lemma alu_regs_plain d k : cmd_plain (alu_regs d k) = true.
Proof. unfold alu_regs. destruct (src2_alp d =? 1); lazy; done. Qed.
Lemma set_steps_flag sc k k' : set_steps sc k = Some k' -> wait_done_flag k' = wait_done_flag k.
Proof.
  unfold set_steps. destruct (if hsc_phase_step k =? 0 then _ else _) as [hs|]; [|done]. destruct (if vsc_phase_step k =? 0 then _ else _) as [vs|]; [|done].
  cbn [mbind option_bind]. destruct (c_true _ && c_true _).
  - destruct (sdiv _ _) as [len|]; [|done]. cbn. intros E. inv_some. by destruct k.
  - intros E. inv_some. by destruct k.
Qed.

(** All but the last, which starts the engine. *)
Lemma cmd_regs_ops d g x y k k' ops : cmd_regs d g x y k = Some (k', ops) -> exists ops0 w,
  ops = ops0 ++ [Wr GE2D_CMD_CTRL w] /\ cmd_plain ops0 = true /\ wait_done_flag k' = wait_done_flag k.
Proof.
  unfold cmd_regs. destruct (set_steps _ k) as [k1|] eqn:Es; [|done]. cbn [mbind option_bind].
  destruct (if g then _ else _) as [[k2 phase]|] eqn:Ep; [|done]. destruct (scale_cmd_regs (scaler_of k) k2) as [k3 scale] eqn:E3. intros E.
  cbn [mbind option_bind] in E. rewrite E3 in E. inv_some.
  assert (Hp : cmd_plain phase = true /\ wait_done_flag k2 = wait_done_flag k1) by (destruct g; [by inv_some|by eapply set_phases_plain]).
  destruct Hp as [Hp F2], (scale_cmd_regs_plain (scaler_of k) k2) as [Hs F3]. rewrite E3 in Hs, F3. cbn [fst snd] in Hs, F3.
  eexists (window_regs x y k ++ phase ++ scale ++ alu_regs d k3 ++ when_op (dev_hang_flag d =? 1) [Bits GE2D_GEN_CTRL4 (hang_flag k3) 0 1]), _.
  split; [unfold start_regs; by rewrite <- !app_assoc|]. split.
  - rewrite !cmd_plain_app, window_regs_plain, Hp, Hs, alu_regs_plain. destruct (dev_hang_flag d =? 1); lazy; done.
  - transitivity (wait_done_flag k3); [by destruct k3|]. rewrite F3, F2. by eapply set_steps_flag.
Qed.

(** Whether a command is defined does not depend on the ratios. *)
Lemma cmd_regs_defined d g x y x' y' k : is_Some (cmd_regs d g x y k) -> is_Some (cmd_regs d g x' y' k).
Proof.
  unfold cmd_regs. destruct (set_steps _ k) as [k1|]; [|by intros [? ?]]. cbn [mbind option_bind]. destruct (if g then _ else _) as [[k2 phase]|]; [|by intros [? ?]].
  cbn [mbind option_bind]. destruct (scale_cmd_regs _ k2) as [k3 scale]. by eexists.
Qed.

(** The ratios of a configuration, as they are read back. *)
Definition ratios (c : ge2d_config_s) : Z * Z :=
  let w := (x_yc_ratio (src1_data c) << 1) .| y_yc_ratio (src1_data c) in (Z.b2z (Z.testbit w 1), Z.b2z (Z.testbit w 0)).
(** The registers hold the command [k] for the configuration [c]. *)
Definition cmd_seen (d : ge2d_device_data_s) (c : ge2d_config_s) (g : bool) (k : ge2d_cmd_s) (sn : snapshot) : Prop :=
  exists k' ops, cmd_regs d g (ratios c).1 (ratios c).2 k = Some (k', ops) /\
    forall r b v, volatile r = false -> 0 <= b < 32 -> last_bit ops r b = Some v -> Z.testbit (sn_read sn r) b = v.

Lemma ratio_bits d c : chip_ok d ->
  last_bit (full_ops d c) GE2D_GEN_CTRL0 11 = Some (Z.testbit ((x_yc_ratio (src1_data c) << 1) .| y_yc_ratio (src1_data c)) 1) /\
  last_bit (full_ops d c) GE2D_GEN_CTRL0 10 = Some (Z.testbit ((x_yc_ratio (src1_data c) << 1) .| y_yc_ratio (src1_data c)) 0).
Proof.
  intros Hd. split; (apply (part_bit d c 0 (ge2d_set_src1_data d (src1_data c))); [done|lia|done|]); unfold ge2d_set_src1_data;
    destruct (canvas_status d =? 1), (deep_color d =? 1); reflexivity.
Qed.
Lemma get_bit v i : 0 <= i -> Z.land (Z.shiftr v i) (Z.shiftl 1 1 - 1) = Z.b2z (Z.testbit v i).
Proof.
  intros Hi. change (Z.shiftl 1 1 - 1) with (Z.ones 1). rewrite Z.land_ones, Z.pow_1_r, <- Z.bit0_mod, Z.shiftr_spec by lia. done.
Qed.

Section Command.
Context {H : Type} `{GeBusLaws H} `{GeTime H} `{!GeLaunch H} `{!GeTimeLaws H}.
Implicit Types (io : io_s H) (h : H).

Lemma same_engine_refl h : same_engine h h.
Proof. by split. Qed.
Lemma same_engine_trans h h1 h2 : same_engine h h1 -> same_engine h1 h2 -> same_engine h h2.
Proof. intros [A1 B1] [A2 B2]. split; [by eapply sn_same_trans|congruence]. Qed.

Lemma wait_fifo_runs n io : ready io -> (pending (hw io) < n)%nat -> exists io', wait_fifo n io = Some io' /\ ready io' /\ same_engine (hw io) (hw io').
Proof.
  revert io. induction n as [|n IH]; intros io Hr Hp; [lia|]. cbn [wait_fifo]. unfold ge2d_cmd_fifo_full.
  destruct (reg_read_ready GE2D_STATUS0 io Hr) as (io1 & -> & Eh & Hr1). destruct (c_true (bus_read GE2D_STATUS0 (hw io) .& (1 << 1))) eqn:Ef.
  - destruct (IH (on_hw tick io1)) as (io' & -> & Hr' & Hs).
    + exact Hr1.
    + cbn [on_hw hw]. rewrite Eh. pose proof (tick_less _ Ef). lia.
    + exists io'. split_and!; [done..|]. eapply same_engine_trans; [|exact Hs]. cbn [on_hw hw]. rewrite Eh. apply tick_same.
  - exists io1. split_and!; [done..|]. rewrite Eh. apply same_engine_refl.
Qed.

Lemma run_op_launched o io : ready io -> (op_field o).1.1 <> GE2D_CMD_CTRL -> launched (hw (run_op o io)) = launched (hw io) /\ ready (run_op o io).
Proof.
  intros Hr Ho. destruct o as [r v|r v s n]; cbn [run_op op_field fst] in *.
  - destruct (reg_write_ready r v io Hr) as [-> Hr']. split; [|done]. rewrite launched_write. by destruct (Z.eqb_spec r GE2D_CMD_CTRL).
  - unfold ge2d_reg_set_bits. destruct (reg_read_ready r io Hr) as (io1 & -> & Eh & Hr1).
    destruct (reg_write_ready r (set_field (bus_read r (hw io)) v s n) io1 Hr1) as [-> Hr']. split; [|done]. rewrite launched_write, Eh. by destruct (Z.eqb_spec r GE2D_CMD_CTRL).
Qed.
Lemma run_ops_launched l io : ready io -> Forall (fun o => (op_field o).1.1 <> GE2D_CMD_CTRL) l -> launched (hw (run_ops l io)) = launched (hw io) /\ ready (run_ops l io).
Proof.
  intros Hr Hl. induction l as [|o l IH] using rev_ind; [done|]. apply Forall_app in Hl as [Hl Ho]. destruct (IH Hl) as [E Hr']. apply Forall_inv in Ho.
  rewrite run_ops_app. destruct (run_op_launched o (run_ops l io) Hr' Ho) as [E' Hr'']. split; [|done]. rewrite <- E, <- E'. done.
Qed.
(** What [cmd_plain] operations keep. *)
Lemma cmd_plain_keeps d c g l io : chip_ok d -> ready io -> cmd_plain l = true -> holds d c (snap (hw io)) g ->
  holds d c (snap (hw (run_ops l io))) g /\ launched (hw (run_ops l io)) = launched (hw io) /\ ready (run_ops l io).
Proof.
  intros Hd Hr Hp Hh. unfold cmd_plain in Hp. apply andb_prop in Hp as [Hp Hw]. destruct (plain_fine l Hp) as (Ff & _ & Fp).
  destruct (holds_ops d c g l io) as [Hh' Hr']; [done..|]. destruct (run_ops_launched l io Hr (plain_not_start l Hp)). done.
Qed.

Lemma read_bit d c g io i v : chip_ok d -> ready io -> holds d c (snap (hw io)) g -> (i = 10 \/ i = 11) ->
  last_bit (full_ops d c) GE2D_GEN_CTRL0 i = Some v -> exists io', ge2d_reg_get_bits GE2D_GEN_CTRL0 i 1 io = (Z.b2z v, io') /\ ready io' /\ hw io' = hw io.
Proof.
  intros Hd Hr [Hb _] Hi Hv. unfold ge2d_reg_get_bits. destruct (reg_read_ready GE2D_GEN_CTRL0 io Hr) as (io1 & -> & Eh & Hr1). exists io1. split; [|done]. f_equal.
  rewrite get_bit by lia. f_equal. apply (Hb GE2D_GEN_CTRL0 i v); [done|lia|by destruct Hi as [-> | ->]|done].
Qed.

(** The command starts, once, with its configuration and its own registers in place. *)
Lemma set_cmd_runs n d c g k io : (engine_bound < n)%nat -> chip_ok d -> ready io -> holds d c (snap (hw io)) g -> is_Some (cmd_regs d g 0 0 k) ->
  exists k' io' sn, ge2d_set_cmd n d g k io = Some (k', io') /\ ready io' /\ launched (hw io') = launched (hw io) ++ [sn] /\
    holds d c sn g /\ cmd_seen d c g k sn /\ holds d c (snap (hw io')) g /\ wait_done_flag k' = wait_done_flag k.
Proof.
  intros Hn Hd Hr Hh Hk. unfold ge2d_set_cmd. destruct (wait_fifo_runs n io Hr) as (io1 & -> & Hr1 & [Hs1 Hl1]); [pose proof (pending_le (hw io)); lia|].
  cbn [mbind option_bind]. assert (Hh1 : holds d c (snap (hw io1)) g) by (eapply holds_same; [exact Hs1|done]). destruct (ratio_bits d c Hd) as [Bx By].
  destruct (read_bit d c g io1 11 _ Hd Hr1 Hh1 (or_intror eq_refl) Bx) as (io2 & -> & Hr2 & E2).
  assert (Hh2 : holds d c (snap (hw io2)) g) by (by rewrite E2). destruct (read_bit d c g io2 10 _ Hd Hr2 Hh2 (or_introl eq_refl) By) as (io3 & -> & Hr3 & E3).
  assert (Hh3 : holds d c (snap (hw io3)) g) by (by rewrite E3). fold (ratios c).1 (ratios c).2.
  destruct (cmd_regs_defined d g 0 0 (ratios c).1 (ratios c).2 k Hk) as [[k' ops] Ek]. change (Z.b2z (Z.testbit _ 1)) with (ratios c).1. change (Z.b2z (Z.testbit _ 0)) with (ratios c).2.
  rewrite Ek. cbn [mbind option_bind].
  destruct (cmd_regs_ops _ _ _ _ _ _ _ Ek) as (ops0 & w & Eops & Hp & Hw). destruct (cmd_plain_keeps d c g ops0 io3) as (Hh4 & Hl4 & Hr4); [done..|].
  destruct (reg_write_ready GE2D_CMD_CTRL w (run_ops ops0 io3) Hr4) as [Ew Hr5].
  assert (Erun : run_ops ops io3 = ge2d_reg_write GE2D_CMD_CTRL w (run_ops ops0 io3)) by (by rewrite Eops, run_ops_app).
  exists k', (run_ops ops io3), (snap (hw (run_ops ops0 io3))). rewrite Erun, Ew. split; [done|]. split; [done|]. split; [|split; [done|split; [|split; [|done]]]].
  - rewrite launched_write. cbn. by rewrite Hl4, E3, E2, Hl1.
  - exists k', ops. split; [done|]. intros r b v Hv Hb Hl. cbn [snap sn_read].
    assert (Hl0 : last_bit ops0 r b = Some v).
    { rewrite Eops, last_bit_app in Hl. rewrite (last_bit_None [Wr GE2D_CMD_CTRL w]) in Hl; [done|done|]. unfold in_fields, in_field. cbn [fmap list_fmap op_field existsb fst snd].
      destruct (Z.eqb_spec GE2D_CMD_CTRL r) as [<-|]; done. }
    unfold cmd_plain in Hp. apply andb_prop in Hp as [Hp _]. destruct (plain_fine ops0 Hp) as (_ & Fs & _).
    destruct (run_ops_bit ops0 io3 r b) as [Hbit _]; [done..|]. unfold reg_bit in Hbit. by rewrite Hbit, Hl0.
  - eapply holds_same; [|exact Hh4]. split; cbn [snap sn_read sn_coef].
    + intros r Hv. rewrite read_write by done. destruct (Z.eqb_spec GE2D_CMD_CTRL r) as [<-|]; done.
    + by rewrite coef_write.
Qed.
End Command.
