(* ===== verification/Ge2dProcess.v ===== *)
(** * Running the commands of a context: each sees its configuration

    The items of a work queue carry configurations that differ from one to the next by
    no more than what they mark ([chain]); the first is marked whole when another
    context was served before.  [ge2d_process_work_queue] starts one command for each
    item, in order, and each with every register of its own configuration. *)

From stdpp Require Import base numbers list option gmap.
From coqutil Require Import Datatypes.RecordSetters.
From S2P Require Import Prelude StateM Canvas Ge2dReg Ge2dStruct Ge2dHw Ge2dGen Ge2dDma Ge2dWq Ge2dProgram Ge2dCommand.

(** ** Canvas numbers *)

(** [set_planes] without the table. *)
Fixpoint place_planes (l : list ge2d_canvas_cfg_s) (i canvas word : Z) (set : bool) : Z * Z * bool * list ge2d_canvas_cfg_s :=
  match l with
  | [] => (canvas, word, set, [])
  | p :: l =>
      if c_true (canvas_used p) then
        let '(canvas, word, set, l) := place_planes l (i + 1) (canvas + 1) (Z.lor word (canvas << (8 * i))) true in
        (canvas, word, set, p<| canvas_used := 0 |> :: l)
      else let '(canvas, word, set, l) := place_planes l (i + 1) canvas word set in (canvas, word, set, p :: l)
  end.
(** The canvas words of the three sides, where they have canvases, and the planes
    without their marks. *)
Record placing := mk_placing {
  w_src : option Z; w_src2 : option Z; w_dst : option Z;
  l_src : list ge2d_canvas_cfg_s; l_src2 : list ge2d_canvas_cfg_s; l_dst : list ge2d_canvas_cfg_s }.
Definition placing_of (src src2 dst : list ge2d_canvas_cfg_s) : placing :=
  let '(n, w1, s1, src) := place_planes src 0 ALLOC_CANVAS_INDEX 0 false in
  let '(n, w2, s2, src2) := place_planes src2 0 n 0 false in
  let '(n, w3, s3, dst) := place_planes dst 0 n 0 false in
  mk_placing (if s1 then Some (u32 w1) else None) (if s2 then Some (u8 w2) else None) (if s3 then Some (u32 w3) else None) src src2 dst.
Definition src_at (w : option Z) (x : ge2d_src1_data_s) : ge2d_src1_data_s := match w with Some w => x<| canaddr := w |> | None => x end.
Definition src2_at (w : option Z) (x : ge2d_src2_dst_data_s) : ge2d_src2_dst_data_s := match w with Some w => x<| src2_canaddr := w |> | None => x end.
Definition dst_at (w : option Z) (x : ge2d_src2_dst_data_s) : ge2d_src2_dst_data_s := match w with Some w => x<| dst_canaddr := w |> | None => x end.
(** A configuration with its canvas numbers, as it is programmed. *)
Definition place (p : placing) (c : ge2d_config_s) : ge2d_config_s :=
  mk_config (gen c) (src_at (w_src p) (src1_data c)) (src1_gen c) (dst_at (w_dst p) (src2_at (w_src2 p) (src2_dst_data c))) (src2_dst_gen c) (dp_gen c)
    (v_scale_coef_type c) (h_scale_coef_type c) (update_flag c) (l_src p) (l_src2 p) (l_dst p) (src_dma_cfg c) (src2_dma_cfg c) (dst_dma_cfg c) (matrix_custom c).
Definition canvases_of (c : ge2d_config_s) : placing := placing_of (src_canvas_cfg c) (src2_canvas_cfg c) (dst_canvas_cfg c).
Definition placed (c : ge2d_config_s) : ge2d_config_s := place (canvases_of c) c.

Lemma set_planes_placed `{MesonCanvas C} l i ca w st (info : canvas_device_info C) : exists info',
  set_planes l i ca w st info = (place_planes l i ca w st, info').
Proof.
  revert i ca w st info. induction l as [|p l IH]; intros i ca w st info; cbn [set_planes place_planes]; [by eexists|]. destruct (c_true (canvas_used p)).
  - edestruct IH as [info' ->]. destruct (place_planes _ _ _ _ _) as [[[n w'] s'] l']. by eexists.
  - edestruct IH as [info' ->]. destruct (place_planes _ _ _ _ _) as [[[n w'] s'] l']. by eexists.
Qed.
Lemma set_canvas_placed `{MesonCanvas C} c (info : canvas_device_info C) : exists info', ge2d_set_canvas c info = (placed c, info').
Proof.
  unfold ge2d_set_canvas, placed, canvases_of, placing_of. destruct c. cbn [Ge2dGen.src_canvas_cfg].
  match goal with |- context [set_planes ?l ?i ?ca ?w ?s info] => destruct (set_planes_placed l i ca w s info) as [i1 ->] end.
  destruct (place_planes _ 0 ALLOC_CANVAS_INDEX 0 false) as [[[n w] st] src]. cbn zeta.
  match goal with |- context [set_planes ?l ?i ?ca ?w ?s i1] => destruct (set_planes_placed l i ca w s i1) as [i2 ->] end.
  replace (Ge2dGen.src2_canvas_cfg _) with src2_canvas_cfg by (by destruct st).
  replace (Ge2dGen.src2_canvas_cfg _) with src2_canvas_cfg by (by destruct st).
  destruct (place_planes src2_canvas_cfg 0 n 0 false) as [[[n2 w2] st2] src2]. cbn zeta.
  match goal with |- context [set_planes ?l ?i ?ca ?w ?s i2] => destruct (set_planes_placed l i ca w s i2) as [i3 ->] end.
  replace (Ge2dGen.dst_canvas_cfg _) with dst_canvas_cfg by (by destruct st, st2).
  replace (Ge2dGen.dst_canvas_cfg _) with dst_canvas_cfg by (by destruct st, st2).
  destruct (place_planes dst_canvas_cfg 0 n2 0 false) as [[[n3 w3] st3] dst]. exists i3. by destruct st, st2, st3.
Qed.

(** ** Configurations that follow one another *)

(** The marks of [c] cover its difference to [b]. *)
Definition follows (b c : ge2d_config_s) : Prop :=
  0 <= update_flag c < 64 /\
  forall i, (i < 6)%nat -> Z.testbit (update_flag c) (Z.of_nat i) = false -> part_eq i (placed b) (placed c).
(** The same, where the engine may hold anything. *)
Definition follows_opt (b : option ge2d_config_s) (c : ge2d_config_s) : Prop :=
  match b with Some b => follows b c | None => 0 <= update_flag c < 64 end.
(** Items one after the other, and then the configuration of the context. *)
Fixpoint chain (b : option ge2d_config_s) (l : list ge2d_config_s) (last : ge2d_config_s) : Prop :=
  match l with
  | [] => follows_opt b last
  | c :: l => follows_opt b c /\ chain (Some c) l last
  end.

Section Process.
Context {H K C : Type} `{GeBusLaws H} `{GeTime H} `{!GeLaunch H} `{!GeTimeLaws H} `{GePower H} `{DmaKernel K} `{MesonCanvas C}.
Notation M := (ST (S := ge2d_s H K C)).
Implicit Types s : ge2d_s H K C.

Definition engine s : snapshot := snap (hw (io s)).
(** All but the items, the queues of the contexts and the engine is as before. *)
Definition served s s' : Prop :=
  s' = s<| items := items s' |><| contexts := contexts s' |><| io := io s' |><| canvases := canvases s' |><| gaul_filter_used := gaul_filter_used s' |>.
Lemma served_refl s : served s s.
Proof. by destruct s. Qed.
Lemma served_trans s s1 s2 : served s s1 -> served s1 s2 -> served s s2.
Proof. unfold served. intros -> ->. by destruct s, s1, s2. Qed.

(** The engine is set up for [c]: what was not marked it holds already. *)
Definition set_up s (c : ge2d_config_s) : Prop :=
  0 <= update_flag c < 64 /\
  forall i, (i < 6)%nat -> Z.testbit (update_flag c) (Z.of_nat i) = false ->
    exists b, holds (ge2d_meson_dev s) b (engine s) (gaul_filter_used s) /\ part_eq i b (placed c).

(** The command was started with every register of its configuration and its own. *)
Definition saw (d : ge2d_device_data_s) (c : ge2d_config_s) (k : ge2d_cmd_s) (sn : snapshot) : Prop :=
  holds d (placed c) sn (gaul_of c) /\ cmd_seen d (placed c) (gaul_of c) (k<| hang_flag := 1 |>) sn.
Definition cmd_ok (d : ge2d_device_data_s) (c : ge2d_config_s) (k : ge2d_cmd_s) : Prop :=
  is_Some (cmd_regs d (gaul_of c) 0 0 (k<| hang_flag := 1 |>)).

Lemma start_item_runs n s it k c : (engine_bound < n)%nat -> chip_ok (ge2d_meson_dev s) -> ready (io s) ->
  items s !! it = Some (mk_item k c) -> set_up s c -> cmd_ok (ge2d_meson_dev s) c k ->
  exists s' k' c' sn, start_item n it s = Some (tt, s') /\ served s s' /\ contexts s' = contexts s /\ items s' = <[it := mk_item k' c']> (items s) /\
    ready (io s') /\ launched (hw (io s')) = launched (hw (io s)) ++ [sn] /\ saw (ge2d_meson_dev s) c k sn /\
    holds (ge2d_meson_dev s) (placed c) (engine s') (gaul_filter_used s') /\ wait_done_flag k' = wait_done_flag k /\
    src_dma_cfg c' = src_dma_cfg c /\ src2_dma_cfg c' = src2_dma_cfg c /\ dst_dma_cfg c' = dst_dma_cfg c.
Proof.
  intros Hn Hd Hr Hit [Hf Hup] Hk. unfold start_item, item_at. rewrite bind_assoc, run_gets, Hit, run_of_opt, run_gets. cbn [i_config].
  destruct (set_canvas_placed c (canvases s)) as [info' ->]. unfold dev. rewrite !run_gets.
  destruct (program_holds (ge2d_meson_dev s) (placed c) (gaul_filter_used s) (io s) Hd Hr Hf Hup) as (ops & c' & g' & -> & Hh & Hr1 & Hns & Hdma).
  destruct (run_ops_launched ops (io s) Hr Hns) as [Hl1 _]. assert (Eg : g' = gaul_of c) by (by destruct Hh as [_ [_ ->]]). subst g'.
  rewrite run_modify. unfold regs. rewrite run_modify, run_gets. cbn [io ge2d_meson_dev gaul_filter_used].
  destruct (set_cmd_runs n (ge2d_meson_dev s) (placed c) (gaul_of c) (k<| hang_flag := 1 |>) (run_ops ops (io s))) as (k' & io' & sn & E & Hr2 & Hl2 & Hsn & Hseen & Hh2 & Hw); [done..|].
  change (ge2d_set_cmd _ _ _ _ _) with (ge2d_set_cmd n (ge2d_meson_dev s) (gaul_of c) (k<| hang_flag := 1 |>) (run_ops ops (io s))).
  rewrite E, run_of_opt, run_modify. eexists _, k', c', sn. split; [reflexivity|]. split_and!.
  - by destruct s.
  - by destruct s.
  - by destruct s.
  - by destruct s.
  - change (launched (hw io') = launched (hw (io s)) ++ [sn]). by rewrite Hl2, Hl1.
  - split; [done|exact Hseen].
  - by destruct s.
  - done.
  - by destruct Hdma as (-> & _).
  - by destruct Hdma as (_ & -> & _).
  - by destruct Hdma as (_ & _ & ->).
Qed.

(** The wait for the end of a command: for the interrupt, or with a reset after a
    second without it. *)
Lemma wait_busy_runs n s d c g : (pending (hw (io s)) < n)%nat -> chip_ok d -> ready (io s) -> holds d c (engine s) g ->
  exists io', wait_busy n s = Some (tt, s<| io := io' |>) /\ ready io' /\ launched (hw io') = launched (hw (io s)) /\ holds d c (snap (hw io')) g.
Proof.
  revert s. induction n as [|n IH]; intros s Hn Hd Hr Hh; [lia|]. cbn [wait_busy]. rewrite run_gets. unfold ge2d_is_busy.
  destruct (reg_read_ready GE2D_STATUS0 (io s) Hr) as (io1 & -> & Eh & Hr1). rewrite run_modify.
  destruct (c_true (bus_read GE2D_STATUS0 (hw (io s)) .& 1)) eqn:Eb.
  2:{ exists io1. split_and!; [done|done|by rewrite Eh|by rewrite Eh]. }
  rewrite Eh. destruct (wait_cmd (hw (io s))) as [timeout h] eqn:Ew. unfold hw_do. rewrite run_modify.
  assert (Hs : same_engine (hw (io s)) h) by (pose proof (wait_same (hw (io s))) as Hs; by rewrite Ew in Hs). destruct Hs as [Hsn Hl].
  assert (Hh1 : holds d c (snap h) g) by (eapply holds_same; [exact Hsn|done]). destruct (Z.eqb_spec timeout 0) as [->|Ht].
  - destruct (cmd_plain_keeps d c g ge2d_soft_rst (on_hw (fun _ => h) io1)) as (Hh2 & Hl2 & Hr2); [done|exact Hr1|by lazy|exact Hh1|].
    exists (run_ops ge2d_soft_rst (on_hw (fun _ => h) io1)). split; [by destruct s|]. split; [done|]. split; [|done]. rewrite Hl2. exact Hl.
  - set (s1 := s<| io := io1 |><| io := on_hw (fun _ => h) io1 |>). assert (E1 : io s1 = on_hw (fun _ => h) io1) by (by destruct s).
    destruct (IH s1) as (io' & E & Hr' & Hl' & Hh').
    + rewrite E1. cbn [on_hw hw]. pose proof (wait_less (hw (io s)) Eb) as Hless. rewrite Ew in Hless. cbn [fst snd] in Hless. specialize (Hless Ht). lia.
    + done.
    + rewrite E1. exact Hr1.
    + unfold engine. rewrite E1. exact Hh1.
    + exists io'. split; [|split; [done|split; [|done]]].
      * change (wait_busy n s1 = Some (tt, s<| io := io' |>)). rewrite E. by destruct s.
      * rewrite Hl', E1. exact Hl.
Qed.

Lemma list_del_none a l : a ∉ l -> list_del a l = l.
Proof.
  intros Hn. unfold list_del. induction l as [|b l IH]; [done|]. apply not_elem_of_cons in Hn as [Ha Hn]. rewrite filter_cons_True by congruence. by rewrite IH.
Qed.
Lemma list_del_head it rest : it ∉ rest -> list_del it (it :: rest) = rest.
Proof. intros Hn. unfold list_del. rewrite filter_cons_False by (by intros []). by apply list_del_none. Qed.

(** The queues of a context when its first item is done. *)
Definition item_done (it : Z) (rest : list Z) (w : ge2d_context_s) : ge2d_context_s :=
  w<| work_queue := rest |><| free_queue := list_del it (free_queue w) ++ [it] |>.

Lemma finish_item_runs n s d c g wq w it rest x : (engine_bound < n)%nat -> chip_ok d -> ready (io s) -> holds d c (engine s) g ->
  contexts s !! wq = Some w -> work_queue w = it :: rest -> it ∉ rest -> items s !! it = Some x ->
  exists s' x', finish_item n wq it s = Some (head rest, s') /\ served s s' /\ contexts s' = <[wq := item_done it rest w]> (contexts s) /\
    items s' = <[it := x']> (items s) /\ wait_done_flag (i_cmd x') = 0 /\ i_config x' = i_config x /\
    ready (io s') /\ launched (hw (io s')) = launched (hw (io s)) /\ holds d c (engine s') g /\ gaul_filter_used s' = gaul_filter_used s.
Proof.
  intros Hn Hd Hr Hh Hw Hq Hni Hx. unfold finish_item, item_at. rewrite bind_assoc, run_gets, Hx, run_of_opt.
  destruct (wait_busy_runs n s d c g) as (io' & E & Hr' & Hl' & Hh'); [pose proof (pending_le (hw (io s))); lia|done..|].
  rewrite (run_bind _ _ _ _ _ E), bind_assoc, run_gets. change (items (s<| io := io' |>)) with (items s). rewrite Hx, run_of_opt.
  set (x' := if c_true (wait_done_flag (i_cmd x)) then x<| i_cmd := (i_cmd x)<| wait_done_flag := 0 |> |> else x).
  set (s1 := s<| io := io' |><| items := <[it := x']> (items s) |>).
  assert (Es1 : when (c_true (wait_done_flag (i_cmd x))) (put_item it (x<| i_cmd := (i_cmd x)<| wait_done_flag := 0 |> |>)) (s<| io := io' |>) = Some (tt, s1)).
  { unfold s1, x'. destruct (c_true (wait_done_flag (i_cmd x))); [by destruct s|]. cbn [when]. rewrite insert_id by done. by destruct s. }
  rewrite (run_bind _ _ _ _ _ Es1). unfold ctx_at. rewrite bind_assoc, run_gets. change (contexts s1) with (contexts s). rewrite Hw, run_of_opt.
  rewrite Hq. cbn [next_after]. rewrite Z.eqb_refl, list_del_head by done. eexists _, x'. split; [reflexivity|]. split_and!.
  - by destruct s.
  - by destruct s.
  - by destruct s.
  - unfold x'. destruct (c_true (wait_done_flag (i_cmd x))) eqn:Ec; [by destruct x|]. unfold c_true in Ec. b2p. lia.
  - unfold x'. destruct (c_true (wait_done_flag (i_cmd x))); [by destruct x|done].
  - done.
  - exact Hl'.
  - exact Hh'.
  - by destruct s.
Qed.

(** A configuration without imported buffers. *)
Definition no_dma (c : ge2d_config_s) : Prop :=
  forall l, l = src_dma_cfg c \/ l = src2_dma_cfg c \/ l = dst_dma_cfg c -> length l = MAX_PLANE /\ Forall (fun d => dma_used d = 0) l.

Lemma detach_unused d s : dma_used d = 0 -> detach d s = Some (d, s).
Proof. intros E. unfold detach. by rewrite E. Qed.
Lemma no_dma_at l i : length l = MAX_PLANE -> Forall (fun d => dma_used d = 0) l -> (i < MAX_PLANE)%nat -> exists d, l !! i = Some d /\ dma_used d = 0.
Proof.
  intros Hl Hf Hi. destruct (lookup_lt_is_Some_2 l i) as [d Hd]; [lia|]. exists d. split; [done|]. by eapply Forall_lookup_1 in Hf.
Qed.

Lemma put_item_same it x s : items s !! it = Some x -> put_item it x s = Some (tt, s).
Proof. intros Hx. unfold put_item, modify. rewrite insert_id by done. by destruct s. Qed.
Lemma detach_plane_unused s it x i : items s !! it = Some x -> no_dma (i_config x) -> (i < MAX_PLANE)%nat -> detach_plane it i s = Some (tt, s).
Proof.
  intros Hx Hn Hi. unfold detach_plane, item_at.
  destruct (Hn (src_dma_cfg (i_config x))) as [L1 F1]; [auto|]. destruct (no_dma_at _ i L1 F1 Hi) as (d1 & E1 & U1).
  destruct (Hn (src2_dma_cfg (i_config x))) as [L2 F2]; [auto|]. destruct (no_dma_at _ i L2 F2 Hi) as (d2 & E2 & U2).
  destruct (Hn (dst_dma_cfg (i_config x))) as [L3 F3]; [auto|]. destruct (no_dma_at _ i L3 F3 Hi) as (d3 & E3 & U3).
  rewrite bind_assoc, run_gets, Hx, run_of_opt, E1, run_of_opt, (run_bind _ _ _ _ _ (detach_unused d1 s U1)), bind_assoc, run_gets, Hx, run_of_opt.
  rewrite (list_insert_id (src_dma_cfg (i_config x))) by done.
  replace (x<| i_config := (i_config x)<| src_dma_cfg := src_dma_cfg (i_config x) |> |>) with x by (by destruct x as [? []]).
  rewrite (run_bind _ _ _ _ _ (put_item_same it x s Hx)), bind_assoc, run_gets, Hx, run_of_opt, E2, run_of_opt, (run_bind _ _ _ _ _ (detach_unused d2 s U2)), bind_assoc, run_gets, Hx, run_of_opt.
  rewrite (list_insert_id (src2_dma_cfg (i_config x))) by done.
  replace (x<| i_config := (i_config x)<| src2_dma_cfg := src2_dma_cfg (i_config x) |> |>) with x by (by destruct x as [? []]).
  rewrite (run_bind _ _ _ _ _ (put_item_same it x s Hx)), bind_assoc, run_gets, Hx, run_of_opt, E3, run_of_opt, (run_bind _ _ _ _ _ (detach_unused d3 s U3)), bind_assoc, run_gets, Hx, run_of_opt.
  rewrite (list_insert_id (dst_dma_cfg (i_config x))) by done.
  replace (x<| i_config := (i_config x)<| dst_dma_cfg := dst_dma_cfg (i_config x) |> |>) with x by (by destruct x as [? []]).
  by apply put_item_same.
Qed.
Lemma detach_item_unused s it x : items s !! it = Some x -> no_dma (i_config x) -> detach_item it s = Some (tt, s).
Proof.
  intros Hx Hn. unfold detach_item. pose proof (fun i => detach_plane_unused s it x i Hx Hn) as Hp. unfold MAX_PLANE in Hp.
  rewrite (run_bind _ _ _ _ _ (Hp 0%nat ltac:(lia))), (run_bind _ _ _ _ _ (Hp 1%nat ltac:(lia))), (run_bind _ _ _ _ _ (Hp 2%nat ltac:(lia))). apply (Hp 3%nat). lia.
Qed.

(** ** The loop *)

(** An item that can run: its command is defined and it has no imported buffers. *)
Definition item_ok (d : ge2d_device_data_s) (x : ge2d_queue_item_s) : Prop := cmd_ok d (i_config x) (i_cmd x) /\ no_dma (i_config x).
(** Item by item: what each command saw. *)
Definition all_saw (d : ge2d_device_data_s) (xs : list ge2d_queue_item_s) (sns : list snapshot) : Prop :=
  Forall2 (fun x sn => saw d (i_config x) (i_cmd x) sn) xs sns.
(** The engine holds [b], and so it is set up for what follows [b]. *)
Lemma set_up_follows s b c : holds (ge2d_meson_dev s) (placed b) (engine s) (gaul_filter_used s) -> follows b c -> set_up s c.
Proof. intros Hh [Hf Hp]. split; [done|]. intros i Hi Hm. exists (placed b). split; [done|]. by apply Hp. Qed.
Lemma set_up_all s c : update_flag c = UPDATE_ALL -> set_up s c.
Proof.
  intros Hf. split; [rewrite Hf; done|]. intros i Hi Hm. rewrite Hf in Hm. by do 6 (destruct i as [|i]; [done|]); lia.
Qed.

(** The items are at their addresses. *)
Definition items_at s (its : list Z) (xs : list ge2d_queue_item_s) : Prop := Forall2 (fun it x => items s !! it = Some x) its xs.

(** All items of the queue in turn: what is left is the last configuration. *)
Definition last_config (c : ge2d_config_s) (xs : list ge2d_queue_item_s) : ge2d_config_s := default c (i_config <$> last xs).

Lemma served_dev s s' : served s s' -> ge2d_meson_dev s' = ge2d_meson_dev s.
Proof. unfold served. intros ->. by destruct s. Qed.

(** One item, from the programming to the next. *)
Definition one_item (fn wn : nat) (wq it : Z) : M (option Z) :=
  _ ← start_item fn it; pos ← finish_item wn wq it; _ ← detach_item it; mret pos.
Lemma process_loop_step n fn wn wq it s : process_loop (S n) fn wn wq it s =
  (one_item fn wn wq it ≫= (fun pos => match pos with None => mret tt | Some it => process_loop n fn wn wq it end)) s.
Proof.
  unfold one_item. rewrite bind_assoc. cbn [process_loop]. unfold mbind, ST_bind. destruct (start_item fn it s) as [[[] s1]|]; [|done]. cbn.
  destruct (finish_item wn wq it s1) as [[pos s2]|]; [|done]. cbn. by destruct (detach_item it s2) as [[[] s3]|].
Qed.

Lemma one_item_runs fn wn s wq w it rest x : (engine_bound < fn)%nat -> (engine_bound < wn)%nat -> chip_ok (ge2d_meson_dev s) -> ready (io s) ->
  contexts s !! wq = Some w -> work_queue w = it :: rest -> it ∉ rest -> it ∉ free_queue w -> items s !! it = Some x ->
  set_up s (i_config x) -> item_ok (ge2d_meson_dev s) x ->
  exists s' x' sn, one_item fn wn wq it s = Some (head rest, s') /\ served s s' /\
    contexts s' = <[wq := w<| work_queue := rest |><| free_queue := free_queue w ++ [it] |>]> (contexts s) /\
    items s' = <[it := x']> (items s) /\ wait_done_flag (i_cmd x') = 0 /\ ready (io s') /\
    launched (hw (io s')) = launched (hw (io s)) ++ [sn] /\ saw (ge2d_meson_dev s) (i_config x) (i_cmd x) sn /\
    holds (ge2d_meson_dev s) (placed (i_config x)) (engine s') (gaul_filter_used s').
Proof.
  intros Hf Hwn Hd Hr Hw Hq Hn1 Hn2 Hx Hup [Hk Hnd]. destruct x as [k c]. cbn [i_cmd i_config] in *. unfold one_item.
  destruct (start_item_runs fn s it k c Hf Hd Hr Hx Hup Hk) as (s1 & k1 & c1 & sn & E1 & S1 & C1 & I1 & R1 & L1 & Saw & H1' & W1 & D1 & D2 & D3).
  rewrite (run_bind _ _ _ _ _ E1).
  assert (Hx1 : items s1 !! it = Some (mk_item k1 c1)) by (by rewrite I1, lookup_insert_eq). rewrite <- C1 in Hw.
  destruct (finish_item_runs wn s1 _ _ _ wq w it rest _ Hwn Hd R1 H1' Hw Hq Hn1 Hx1) as (s2 & x2 & E2 & S2 & C2 & I2 & W2 & G2 & R2 & L2 & H2' & Gaul).
  rewrite (run_bind _ _ _ _ _ E2). assert (Hx2 : items s2 !! it = Some x2) by (by rewrite I2, lookup_insert_eq).
  assert (Hnd2 : no_dma (i_config x2)) by (rewrite G2; cbn [i_config]; intros l Hl; apply Hnd; rewrite <- D1, <- D2, <- D3; exact Hl).
  rewrite (run_bind _ _ _ _ _ (detach_item_unused s2 it x2 Hx2 Hnd2)). exists s2, x2, sn. split; [done|]. split_and!.
  - by eapply served_trans.
  - rewrite C2, C1. unfold item_done. by rewrite list_del_none.
  - by rewrite I2, I1, insert_insert_eq.
  - done.
  - done.
  - by rewrite L2, L1.
  - done.
  - by rewrite Gaul.
Qed.

Lemma items_at_ne s s1 it y its xs : items s1 = <[it := y]> (items s) -> it ∉ its -> items_at s its xs -> items_at s1 its xs.
Proof.
  intros Hi. revert xs. induction its as [|a its IH]; intros xs Hn Hat; [by apply Forall2_nil_inv_l in Hat as ->; constructor|].
  apply Forall2_cons_inv_l in Hat as (x & xs' & Hx & Hat & ->). apply not_elem_of_cons in Hn as [Ha Hn]. constructor; [|by apply IH].
  by rewrite Hi, lookup_insert_ne.
Qed.

Lemma process_loop_runs fn wn s wq w it its x xs n last : (engine_bound < fn)%nat -> (engine_bound < wn)%nat -> (length its < n)%nat ->
  chip_ok (ge2d_meson_dev s) -> ready (io s) -> contexts s !! wq = Some w -> work_queue w = it :: its -> NoDup (it :: its ++ free_queue w) ->
  items_at s (it :: its) (x :: xs) -> Forall (item_ok (ge2d_meson_dev s)) (x :: xs) ->
  set_up s (i_config x) -> chain (Some (i_config x)) (i_config <$> xs) last ->
  exists s' sns, process_loop n fn wn wq it s = Some (tt, s') /\ served s s' /\ ready (io s') /\
    contexts s' = <[wq := w<| work_queue := [] |><| free_queue := free_queue w ++ it :: its |>]> (contexts s) /\
    (forall a, a ∉ it :: its -> items s' !! a = items s !! a) /\ (forall a, a ∈ it :: its -> exists y, items s' !! a = Some y /\ wait_done_flag (i_cmd y) = 0) /\
    launched (hw (io s')) = launched (hw (io s)) ++ sns /\ all_saw (ge2d_meson_dev s) (x :: xs) sns /\
    holds (ge2d_meson_dev s) (placed (last_config (i_config x) xs)) (engine s') (gaul_filter_used s').
Proof.
  revert s w it its x n. induction xs as [|x2 xs IH]; intros s w it its x n Hf Hwn Hn Hd Hr Hw Hq Hdup Hat Hok Hup Hch.
  all: destruct n as [|n]; [lia|]; apply Forall2_cons_1 in Hat as [Hx Hat]; apply Forall_cons_1 in Hok as [Hok1 Hok]; apply NoDup_cons in Hdup as [Hni Hdup];
    rewrite elem_of_app in Hni.
  all: destruct (one_item_runs fn wn s wq w it its x) as (s1 & y & sn & E & S & Cx & I & Wd & R & L & Saw & Hh); [done..|tauto|tauto|done|done|done|].
  all: rewrite process_loop_step, (run_bind _ _ _ _ _ E).
  - apply Forall2_nil_inv_r in Hat as ->. exists s1, [sn]. split; [done|]. split; [done|]. split; [done|]. split; [done|]. split_and!.
    + intros a Ha. rewrite I, lookup_insert_ne; [done|]. set_solver.
    + intros a Ha. exists y. split; [|done]. rewrite I. replace a with it by set_solver. by rewrite lookup_insert_eq.
    + done.
    + by constructor.
    + done.
  - apply Forall2_cons_inv_r in Hat as (it2 & its' & Hx2 & Hat & ->). cbn [head]. destruct Hch as [Hfol Hch]. cbn [fmap list_fmap] in *.
    pose proof (served_dev _ _ S) as Ed. set (w1 := w<| work_queue := it2 :: its' |><| free_queue := free_queue w ++ [it] |>) in *.
    assert (Hni' : it ∉ it2 :: its' /\ it ∉ free_queue w) by (split; intros Hin; apply Hni; auto). clear Hni. destruct Hni' as [Hni Hnf].
    destruct (IH s1 w1 it2 its' x2 n) as (s2 & sns & E2 & S2 & R2 & C2 & I2 & J2 & L2 & Saw2 & Hh2).
    + done.
    + done.
    + cbn in Hn. lia.
    + by rewrite Ed.
    + done.
    + by rewrite Cx, lookup_insert_eq.
    + by destruct w.
    + change (free_queue w1) with (free_queue w ++ [it]). rewrite app_comm_cons, app_assoc. apply NoDup_app. split; [done|]. split; [|apply NoDup_singleton].
      intros a Ha ->%list_elem_of_singleton. apply elem_of_app in Ha as [Ha|Ha]; [by apply Hni|by apply Hnf].
    + eapply items_at_ne; [exact I|done|]. by constructor.
    + by rewrite Ed.
    + apply (set_up_follows s1 (i_config x)); [by rewrite Ed|done].
    + done.
    + exists s2, (sn :: sns). split; [done|]. split; [by eapply served_trans|]. split; [done|]. rewrite Ed in *. split_and!.
      * rewrite C2, Cx, insert_insert_eq. f_equal. unfold w1. cbn [free_queue]. destruct w. cbn. by rewrite <- app_assoc.
      * intros a Ha. apply not_elem_of_cons in Ha as [Ha1 Ha2]. rewrite (I2 a Ha2), I. by rewrite lookup_insert_ne.
      * intros a Ha. destruct (decide (a ∈ it2 :: its')) as [Ha2|Ha2]; [by apply J2|]. apply elem_of_cons in Ha as [->|Ha]; [|done].
        exists y. rewrite (I2 it Ha2), I. by rewrite lookup_insert_eq.
      * by rewrite L2, L, <- app_assoc.
      * by constructor.
      * unfold last_config in *. rewrite last_cons. destruct (list.last xs) eqn:El; by rewrite ?El in *.
Qed.

(** What the engine is known to hold for a context: nothing, when another one was
    served before. *)
Definition base_for s (wq : Z) (b : option ge2d_config_s) : option ge2d_config_s := if decide (last_wq s = Some wq) then b else None.
Definition engine_holds s (b : option ge2d_config_s) : Prop :=
  (forall c, b = Some c -> holds (ge2d_meson_dev s) (placed c) (engine s) (gaul_filter_used s)) /\ (is_Some (last_wq s) -> is_Some b).

(** The state of the manager after a context was served. *)
Definition after_serving s (wq : Z) : ge2d_s H K C := s<| ge2d_state := GE2D_STATE_IDLE |><| last_wq := Some wq |>.

Lemma no_dma_flag c f : no_dma c -> no_dma (c<| update_flag := f |>).
Proof. by destruct c. Qed.
Lemma item_ok_flag d k c f : item_ok d (mk_item k c) -> item_ok d (mk_item k (c<| update_flag := f |>)).
Proof. intros [Hk Hn]. split; [by destruct c|]. by apply no_dma_flag. Qed.
Lemma saw_flag d c k sn f : saw d (c<| update_flag := f |>) k sn -> saw d c k sn.
Proof. by destruct c. Qed.
Lemma chain_flag c f l last : chain (Some c) l last -> chain (Some (c<| update_flag := f |>)) l last.
Proof. destruct l; cbn; unfold follows, placed; by destruct c. Qed.

Lemma chain_last c xs last : chain (Some c) (i_config <$> xs) last -> follows (last_config c xs) last.
Proof.
  revert c. induction xs as [|x xs IH]; intros c Hch; [done|]. destruct Hch as [_ Hch]. apply IH in Hch. unfold last_config in *. rewrite last_cons.
  destruct (list.last xs) eqn:El; by rewrite ?El in *.
Qed.

(** The first item, marked whole if another context was served before. *)
Lemma process_begin_runs s wq w it its x : contexts s !! wq = Some w -> ge2d_request_exit w = 0 -> work_queue w = it :: its -> items s !! it = Some x ->
  let x' := if decide (last_wq s = Some wq) then x else x<| i_config := (i_config x)<| update_flag := UPDATE_ALL |> |> in
  process_begin wq s = Some (Some it, s<| ge2d_state := GE2D_STATE_RUNNING |><| items := <[it := x']> (items s) |>).
Proof.
  intros Hw He Hq Hx x'. unfold process_begin, ctx_at, item_at. rewrite bind_assoc, run_gets, Hw, run_of_opt, He. cbn [c_true Z.eqb negb].
  rewrite run_modify, Hq, run_gets, bind_assoc, run_gets. change (items (s<| ge2d_state := GE2D_STATE_RUNNING |>)) with (items s). rewrite Hx, run_of_opt.
  unfold x'. change (last_wq (s<| ge2d_state := GE2D_STATE_RUNNING |>)) with (last_wq s). destruct (decide (last_wq s = Some wq)) as [El|Nl].
  - rewrite bool_decide_true, insert_id by done. by destruct s.
  - by rewrite bool_decide_false.
Qed.
Lemma process_exit_runs s wq w : contexts s !! wq = Some w -> ge2d_request_exit w = 0 -> process_exit wq s = Some (tt, s<| ge2d_state := GE2D_STATE_IDLE |>).
Proof. intros Hw He. unfold process_exit, ctx_at. by rewrite bind_assoc, run_gets, Hw, run_of_opt, He. Qed.

(** Serving a context: as many commands as items, each with its configuration. *)
Lemma process_runs n fn wn s wq w its xs b last : (engine_bound < fn)%nat -> (engine_bound < wn)%nat -> (length its <= n)%nat -> its <> [] ->
  chip_ok (ge2d_meson_dev s) -> ready (io s) -> contexts s !! wq = Some w -> ge2d_request_exit w = 0 -> work_queue w = its -> NoDup (its ++ free_queue w) ->
  items_at s its xs -> Forall (item_ok (ge2d_meson_dev s)) xs -> engine_holds s b -> chain (base_for s wq b) (i_config <$> xs) last ->
  exists s' sns c, ge2d_process_work_queue n fn wn wq s = Some (0, s') /\ served (after_serving s wq) s' /\ ready (io s') /\
    contexts s' = <[wq := w<| work_queue := [] |><| free_queue := free_queue w ++ its |>]> (contexts s) /\
    (forall a, a ∉ its -> items s' !! a = items s !! a) /\ (forall a, a ∈ its -> exists y, items s' !! a = Some y /\ wait_done_flag (i_cmd y) = 0) /\
    launched (hw (io s')) = launched (hw (io s)) ++ sns /\ all_saw (ge2d_meson_dev s) xs sns /\
    engine_holds s' (Some c) /\ follows c last.
Proof.
  intros Hf Hwn Hn Hne Hd Hr Hw He Hq Hdup Hat Hok [Hhold Hsome] Hch. destruct its as [|it its]; [done|]. apply Forall2_cons_inv_l in Hat as (x & xs' & Hx & Hat & ->).
  apply Forall_cons_1 in Hok as [Hok1 Hok]. apply NoDup_cons in Hdup as [Hni Hdup]. destruct Hch as [Hfirst Hch]. cbn [fmap list_fmap] in *.
  unfold ge2d_process_work_queue. unfold ctx_at at 1. rewrite bind_assoc, run_gets, Hw, run_of_opt, (run_bind _ _ _ _ _ (process_begin_runs s wq w it its x Hw He Hq Hx)).
  set (x' := if decide (last_wq s = Some wq) then x else x<| i_config := (i_config x)<| update_flag := UPDATE_ALL |> |>).
  set (s1 := s<| ge2d_state := GE2D_STATE_RUNNING |><| items := <[it := x']> (items s) |>).
  assert (Hup : set_up s1 (i_config x')).
  { unfold x', base_for in *. destruct (decide (last_wq s = Some wq)) as [El|Nl].
    - destruct (Hsome (ex_intro _ wq El)) as [b' ->]. eapply (set_up_follows s1 b'); [by apply Hhold|done].
    - by apply set_up_all. }
  assert (Hok1' : item_ok (ge2d_meson_dev s1) x') by (unfold x'; destruct (decide _); [done|]; destruct x as [k c]; by apply item_ok_flag).
  assert (Hch' : chain (Some (i_config x')) (i_config <$> xs') last) by (unfold x'; destruct (decide _); [done|]; destruct x as [k c]; by apply chain_flag).
  destruct (process_loop_runs fn wn s1 wq w it its x' xs' n last) as (s2 & sns & E2 & S2 & R2 & C2 & I2 & J2 & L2 & Saw & Hh).
  - done.
  - done.
  - cbn in Hn. lia.
  - done.
  - done.
  - done.
  - done.
  - by apply NoDup_cons.
  - constructor; [apply lookup_insert_eq|]. eapply (items_at_ne s s1 it x'); [done| |done]. intros Hin. apply Hni, elem_of_app. by left.
  - by constructor.
  - done.
  - done.
  - rewrite (run_bind _ _ _ _ _ E2), run_modify. set (s3 := s2<| last_wq := Some wq |>). set (w' := w<| work_queue := [] |><| free_queue := free_queue w ++ it :: its |>) in *.
    assert (Hw3 : contexts s3 !! wq = Some w') by (unfold s3; destruct s2; cbn in C2 |- *; by rewrite C2, lookup_insert_eq).
    rewrite (run_bind _ _ _ _ _ (process_exit_runs s3 wq w' Hw3 ltac:(by destruct w))).
    eexists _, sns, (last_config (i_config x') xs'). split; [reflexivity|]. split_and!.
    + unfold served, after_serving, s3, s1 in *. clear - S2. destruct s, s2. cbn in *. by inversion S2.
    + done.
    + clear - C2. destruct s2. exact C2.
    + intros a Ha. change (items s2 !! a = items s !! a). rewrite I2 by done. unfold s1. destruct s. apply lookup_insert_ne. set_solver.
    + exact J2.
    + exact L2.
    + apply Forall2_cons_inv_l in Saw as (sn & sns' & Saw1 & Saw & ->). constructor; [|done]. unfold x' in Saw1. destruct (decide _); [done|]. destruct x as [k c]. by apply (saw_flag _ _ _ _ UPDATE_ALL).
    + split; [|intros _; by exists (last_config (i_config x') xs')]. intros c [= <-]. pose proof (served_dev _ _ S2) as Ed. change (ge2d_meson_dev s2 = ge2d_meson_dev s1) in Ed.
      change (holds (ge2d_meson_dev s2) (placed (last_config (i_config x') xs')) (engine s2) (gaul_filter_used s2)). rewrite Ed. exact Hh.
    + by eapply chain_last.
Qed.
End Process.
