(* ===== verification/Ge2dClients.v ===== *)
(** * What the callers of the 2D engine do to a configuration

    Every setter of ge2dgen.c, and every operation, marks the parts it changes
    ([advance]); a request in one of the extended forms that is granted marks all of
    them. *)

From stdpp Require Import base numbers list option gmap.
From coqutil Require Import Datatypes.RecordSetters.
From S2P Require Import Prelude StateM Canvas Ge2dReg Ge2dStruct Ge2dHw Ge2dGen Ge2dDma Ge2dWq Ge2dConfig Ge2dBlt Ge2dProgram Ge2dCommand Ge2dProcess.

Implicit Types (c : ge2d_config_s) (w : ge2d_context_s).

(** The canvases are the same, and the marks of [c'] cover those of [c] and the
    difference. *)
Definition advance c c' : Prop :=
  canvases_of c' = canvases_of c /\ (0 <= update_flag c < 64 -> 0 <= update_flag c' < 64) /\
  forall i, (i < 6)%nat -> Z.testbit (update_flag c') (Z.of_nat i) = false ->
    Z.testbit (update_flag c) (Z.of_nat i) = false /\ part_eq i c c'.

Lemma advance_refl c : advance c c.
Proof. split_and!; [done..|]. intros i _ Hm. split; [done|]. apply part_eq_refl. Qed.
Lemma advance_trans a b c : advance a b -> advance b c -> advance a c.
Proof.
  intros (C1 & R1 & P1) (C2 & R2 & P2). split_and!; [congruence|tauto|]. intros i Hi Hm. destruct (P2 i Hi Hm) as [Hb E2]. destruct (P1 i Hi Hb) as [Ha E1].
  split; [done|]. by eapply part_eq_trans.
Qed.

(** Parts that are the same stay so with the same canvases. *)
Lemma place_eq p i b c : part_eq i b c -> part_eq i (place p b) (place p c).
Proof. destruct i as [|[|[|[|[|i]]]]]; cbn; congruence || done. Qed.
Lemma follows_advance b c c' : follows b c -> advance c c' -> follows b c'.
Proof.
  intros [Hr Hp] (Hc & Hr' & Hp'). split; [tauto|]. intros i Hi Hm. destruct (Hp' i Hi Hm) as [Hm' He]. eapply part_eq_trans; [by apply Hp|].
  unfold placed. rewrite Hc. by apply place_eq.
Qed.
Lemma chain_advance b l c c' : chain b l c -> advance c c' -> chain b l c'.
Proof.
  revert b. induction l as [|x l IH]; intros b; cbn.
  - intros Hf Ha. destruct b as [b|]; cbn in *; [by eapply follows_advance|]. destruct Ha as (_ & Hr & _). tauto.
  - intros [Hf Hc] Ha. split; [done|]. by eapply IH.
Qed.
(** A configuration with every mark follows any other. *)
Lemma chain_all b l c c' : chain b l c -> update_flag c' = UPDATE_ALL -> chain b l c'.
Proof.
  revert b. induction l as [|x l IH]; intros b; cbn.
  - intros _ Hf. assert (Hr : 0 <= update_flag c' < 64) by (by rewrite Hf). destruct b as [b|]; [|done]. split; [done|]. intros i Hi Hm. rewrite Hf in Hm. by do 6 (destruct i as [|i]; [done|]); lia.
  - intros [Hf Hc] Ha. split; [done|]. by eapply IH.
Qed.
(** The configuration goes into an item, and loses its marks. *)
Lemma chain_snoc b l c : chain b l c -> chain b (l ++ [c]) (c<| update_flag := 0 |>).
Proof.
  revert b. induction l as [|x l IH]; intros b; cbn.
  - intros Hf. split; [done|]. split; [by destruct c|]. intros i _ _. unfold placed. destruct c. apply (place_eq _ i). by destruct i as [|[|[|[|[|i]]]]].
  - intros [Hf Hc]. split; [done|]. by apply IH.
Qed.
Lemma chain_weaken b l c : chain b l c -> chain None l c.
Proof. destruct l as [|x l]; cbn; [destruct b as [b|]; [by intros []|done]|]. intros [Hf Hc]. split; [|done]. destruct b as [b|]; [by destruct Hf|done]. Qed.

(** ** Setters *)

(** [mark m c1] with only the parts of [m] changed. *)
Lemma advance_mark m c c1 : 0 <= m < 64 -> update_flag c1 = update_flag c -> canvases_of c1 = canvases_of c ->
  (forall i, (i < 6)%nat -> Z.testbit m (Z.of_nat i) = false -> part_eq i c c1) -> advance c (mark m c1).
Proof.
  intros Hm Hu Hc Hp. assert (Ef : update_flag (mark m c1) = Z.lor (update_flag c) m) by (rewrite <- Hu; by destruct c1). split_and!.
  - rewrite <- Hc. by destruct c1.
  - rewrite Ef. intros Hr. apply (lor_range _ _ 6); lia.
  - intros i Hi Ht. rewrite Ef, Z.lor_spec in Ht. apply orb_false_iff in Ht as [Ht1 Ht2]. split; [done|]. specialize (Hp i Hi Ht2).
    destruct c1, i as [|[|[|[|[|i]]]]]; exact Hp.
Qed.
Lemma mark_mark a b c : mark a (mark b c) = mark (Z.lor b a) c.
Proof. destruct c. unfold mark. cbn. by rewrite Z.lor_assoc. Qed.
(** Assignments to some parts, marked. *)
Ltac by_mark :=
  rewrite ?mark_mark; apply advance_mark; [done|reflexivity|reflexivity|];
  let i := fresh "i" in let Hi := fresh "Hi" in let Ht := fresh "Ht" in
  intros i Hi Ht; do 6 (destruct i as [|i]; [first [discriminate Ht | reflexivity | split; reflexivity]|]); exfalso; lia.
Definition advances (f : ge2d_context_s -> ge2d_context_s) : Prop := forall w, advance (config w) (config (f w)).
Lemma on_config_advances f : (forall c, advance c (f c)) -> advances (on_config f).
Proof. intros Hf w. apply Hf. Qed.
Lemma on_cmd_advances f : advances (on_cmd f).
Proof. intros w. apply advance_refl. Qed.
Lemma advances_comp f g : advances f -> advances g -> advances (fun w => f (g w)).
Proof. intros Hf Hg w. eapply advance_trans; [apply Hg|apply Hf]. Qed.

(** A setter that does nothing where nothing changes. *)
Ltac setter f := intros; apply on_config_advances; intros c; unfold f; cbv zeta; match goal with |- advance _ (if ?b then _ else _) => destruct b end; [by_mark|apply advance_refl].


Lemma ge2dgen_src_advances a f p st : advances (ge2dgen_src a f p st).
Proof. setter ge2dgen_src. Qed.
Lemma ge2dgen_antiflicker_advances e : advances (ge2dgen_antiflicker e).
Proof. setter ge2dgen_antiflicker. Qed.
Lemma ge2dgen_src2_advances a f p st : advances (ge2dgen_src2 a f p st).
Proof. setter ge2dgen_src2. Qed.
Lemma ge2dgen_dst_advances a f p st : advances (ge2dgen_dst a f p st).
Proof. setter ge2dgen_dst. Qed.
Lemma ge2dgen_src_clip_advances a f p st : advances (ge2dgen_src_clip a f p st).
Proof. setter ge2dgen_src_clip. Qed.
Lemma ge2dgen_src2_clip_advances a f p st : advances (ge2dgen_src2_clip a f p st).
Proof. setter ge2dgen_src2_clip. Qed.
Lemma ge2dgen_src_key_advances a f p st : advances (ge2dgen_src_key a f p st).
Proof. setter ge2dgen_src_key. Qed.
Lemma ge2dgent_src_gbalpha_advances a b : advances (ge2dgent_src_gbalpha a b).
Proof. setter ge2dgent_src_gbalpha. Qed.
Lemma ge2dgen_src_color_advances a : advances (ge2dgen_src_color a).
Proof. setter ge2dgen_src_color. Qed.
Lemma ge2dgen_dst_clip_advances a f p st m : advances (ge2dgen_dst_clip a f p st m).
Proof. setter ge2dgen_dst_clip. Qed.
Lemma ge2dgen_const_color_advances a : advances (ge2dgen_const_color a).
Proof. setter ge2dgen_const_color. Qed.
Lemma ge2dgen_disable_matrix_advances : advances ge2dgen_disable_matrix.
Proof. apply on_config_advances. intros c. by_mark. Qed.
Lemma ge2d_wq_set_scale_coef_advances a b : advances (ge2d_wq_set_scale_coef a b).
Proof. apply on_config_advances. intros c. by_mark. Qed.
Lemma noalpha_color_advance c : advance c (noalpha_color c).
Proof. unfold noalpha_color. destruct (_ =? _); [apply advance_refl|by_mark]. Qed.

(** ** Requests *)

(** The queues of a context stay. *)
Definition keeps (f : ge2d_context_s -> ge2d_context_s) : Prop :=
  forall w, work_queue (f w) = work_queue w /\ free_queue (f w) = free_queue w /\ ge2d_request_exit (f w) = ge2d_request_exit w.
Lemma keeps_on_config f : keeps (on_config f).
Proof. by intros []. Qed.
Lemma keeps_on_cmd f : keeps (on_cmd f).
Proof. by intros []. Qed.
Lemma keeps_comp f g : keeps f -> keeps g -> keeps (fun w => f (g w)).
Proof. intros Hf Hg w. destruct (Hf (g w)) as (-> & -> & ->). apply Hg. Qed.
Ltac keep := repeat first [apply keeps_on_config | apply keeps_on_cmd | apply (keeps_comp (on_config _)) | apply (keeps_comp (on_cmd _))
  | match goal with |- keeps (fun w => ?f (@?g w)) => apply (keeps_comp f g) end].
Lemma ex_setters_keeps x src src2 dst : keeps (ex_setters x src src2 dst).
Proof. unfold ex_setters. keep. Qed.
Lemma ex_tail_keeps x src src2 dst : keeps (ex_tail x src src2 dst).
Proof. unfold ex_tail. cbv zeta. keep; apply ex_setters_keeps. Qed.
Lemma ion_tail_keeps x src src2 dst : keeps (ion_tail x src src2 dst).
Proof. unfold ion_tail. cbv zeta. keep; apply ex_setters_keeps. Qed.
Lemma mem_tail_keeps m x src src2 dst : keeps (mem_tail m x src src2 dst).
Proof. unfold mem_tail. cbv zeta. keep; apply ex_setters_keeps. Qed.
Lemma ex_tail_mark x src src2 dst w : update_flag (config (ex_tail x src src2 dst w)) = UPDATE_ALL.
Proof. unfold ex_tail. cbv zeta. generalize (ex_setters x src src2 dst w). intros w'. by destruct w'. Qed.
Lemma ion_tail_mark x src src2 dst w : update_flag (config (ion_tail x src src2 dst w)) = UPDATE_ALL.
Proof. unfold ion_tail. cbv zeta. generalize (ex_setters x src src2 dst w). intros w'. by destruct w'. Qed.
Lemma mem_tail_mark m x src src2 dst w : update_flag (config (mem_tail m x src src2 dst w)) = UPDATE_ALL.
Proof. unfold mem_tail. cbv zeta. generalize (ex_setters x src src2 dst w). intros w'. by destruct w'. Qed.

Section Touch.
Context {H K C : Type} `{GeBus H} `{GeTime H} `{GePower H} `{DmaKernel K} `{!Ion K} `{MesonCanvas C}.
Notation M := (ST (S := ge2d_s H K C)).
Implicit Types s : ge2d_s H K C.

(** The configuration and the command of one context change, and the buffers. *)
Definition touches (wq : Z) s s' : Prop := exists w w',
  contexts s !! wq = Some w /\ contexts s' = <[wq := w']> (contexts s) /\
  s' = s<| contexts := contexts s' |><| dma := dma s' |><| dma_cfgs := dma_cfgs s' |> /\
  work_queue w' = work_queue w /\ free_queue w' = free_queue w /\ ge2d_request_exit w' = ge2d_request_exit w.
Definition touching (wq : Z) {A} (m : M A) : Prop := forall s a s', is_Some (contexts s !! wq) -> m s = Some (a, s') -> touches wq s s'.

Lemma touches_refl wq s : is_Some (contexts s !! wq) -> touches wq s s.
Proof. intros [w Hw]. exists w, w. split_and!; [done|by rewrite insert_id|by destruct s|done..]. Qed.
Lemma touches_some wq s s' : touches wq s s' -> is_Some (contexts s' !! wq).
Proof. intros (w & w' & _ & -> & _). exists w'. apply lookup_insert_eq. Qed.
Lemma touches_trans wq s s1 s2 : touches wq s s1 -> touches wq s1 s2 -> touches wq s s2.
Proof.
  intros (w & w1 & Hw & C1 & E1 & Q1 & F1 & X1) (w1' & w2 & Hw1 & C2 & E2 & Q2 & F2 & X2). exists w, w2. rewrite C1, lookup_insert_eq in Hw1. inv_some.
  split_and!; [done|by rewrite C2, C1, insert_insert_eq| |congruence..]. clear -E1 E2. destruct s, s1, s2. cbn in *. inversion E1. inversion E2. by subst.
Qed.

Lemma touching_ret wq {A} (a : A) : touching wq (mret a).
Proof. intros s x s' Hs [= <- <-]. by apply touches_refl. Qed.
Lemma touching_gets wq {A} (f : ge2d_s H K C -> A) : touching wq (gets f).
Proof. intros s x s' Hs [= <- <-]. by apply touches_refl. Qed.
Lemma touching_of_opt wq {A} (o : option A) : touching wq (of_opt o).
Proof. intros s x s' Hs Ho. apply of_opt_inv in Ho as [_ ->]. by apply touches_refl. Qed.
Lemma touching_bind wq {A B} (m : M A) (f : A -> M B) : touching wq m -> (forall a, touching wq (f a)) -> touching wq (m ≫= f).
Proof.
  intros Hm Hf s b s' Hs E. bind_inv E as a s1 E1. assert (T : touches wq s s1) by (by eapply Hm). eapply touches_trans; [exact T|].
  eapply Hf; [by eapply touches_some|done].
Qed.
Lemma touching_on_dma wq {A} (m : ST (S := dma_s K) A) : touching wq (on_dma m).
Proof.
  intros s x s' [w Hw] E. unfold on_dma in E. destruct (m (dma s)) as [[a d]|]; [|done]. cbn in E. inv_some. exists w, w. split_and!; [done|by rewrite insert_id|by destruct s|done..].
Qed.
Lemma touching_dma_cfgs wq f : touching wq (modify (fun s => s<| dma_cfgs := f s |>)).
Proof. intros s x s' [w Hw] [= <- <-]. exists w, w. split_and!; [done|by rewrite insert_id|by destruct s|done..]. Qed.
Lemma touching_config wq f : keeps f -> touching wq (on_ctx wq f).
Proof.
  intros Hf s x s' [w Hw] E. unfold on_ctx, ctx_at in E. rewrite bind_assoc, run_gets, Hw, run_of_opt in E. unfold put_ctx in E. inversion E; subst.
  exists w, (f w). destruct (Hf w) as (? & ? & ?). split_and!; [done|by destruct s|by destruct s|done..].
Qed.
(** A new configuration for the context as it was before other changes to it. *)
Lemma touches_put wq s s1 w c x s' : contexts s !! wq = Some w -> touches wq s s1 -> put_ctx wq (w<| config := c |>) s1 = Some (x, s') -> touches wq s s'.
Proof.
  intros Hw T E. eapply touches_trans; [exact T|]. destruct T as (w0 & w1 & Hw0 & C1 & _ & Q & F & X). rewrite Hw in Hw0. inv_some. unfold put_ctx, modify in E. inversion E; subst.
  exists w1, (w0<| config := c |>). split_and!; [rewrite C1; apply lookup_insert_eq|by destruct s1|by destruct s1|by destruct w0..].
Qed.

Lemma touching_plane_canvas wq ty l i b : touching wq (plane_canvas wq ty l i b).
Proof.
  intros s x s' Hs E. destruct (Hs) as [w Hw]. unfold plane_canvas, ctx_at in E. rewrite bind_assoc, run_gets, Hw, run_of_opt in E. bind_inv E as c s1 E1.
  apply of_opt_inv in E1 as [_ ->]. by eapply (touches_put wq s s w); [|apply touches_refl|].
Qed.
Lemma touching_import_begin wq ty i fd dir : touching wq (import_begin wq ty i fd dir).
Proof.
  intros s x s' Hs E. destruct (Hs) as [w Hw]. unfold import_begin, ctx_at in E. rewrite bind_assoc, run_gets, Hw, run_of_opt in E. bind_inv E as c s1 E1. apply of_opt_inv in E1 as [_ ->].
  bind_inv E as u s1 E1. assert (T1 : touches wq s s1) by (by eapply (touches_put wq s s w); [|apply touches_refl|]). bind_inv E as o s2 E2.
  assert (T2 : touches wq s s2) by (eapply touches_trans; [exact T1|]; eapply (touching_on_dma wq); [by eapply touches_some|exact E2]).
  destruct o as [a|]; [|by inversion E; subst]. bind_inv E as u2 s3 E3.
  assert (T3 : touches wq s s3) by (eapply touches_trans; [exact T2|]; eapply (touching_dma_cfgs wq); [by eapply touches_some|exact E3]).
  bind_inv E as c2 s4 E4. apply of_opt_inv in E4 as [_ ->]. bind_inv E as u3 s5 E5. assert (T5 : touches wq s s5) by (by eapply (touches_put wq s s3 w)). by inversion E; subst.
Qed.

(** The parts of a request touch its context. *)
Ltac touch_one wq :=
  first [ apply touching_ret | apply touching_gets | apply touching_of_opt | apply touching_on_dma | apply touching_dma_cfgs | apply touching_plane_canvas
        | apply touching_import_begin | assumption
        | match goal with
          | |- touching wq (mbind _ _) => apply touching_bind; [|intros ?]
          | |- touching wq (if ?b then _ else _) => destruct b
          | |- touching wq (let '(_, _) := ?p in _) => destruct p
          | |- touching wq (match ?o with None => _ | Some _ => _ end) => destruct o
          end ].
Ltac touch := match goal with |- touching ?wq _ => repeat touch_one wq end.

Lemma touching_get_phys wq a addr : touching wq (ge2d_buffer_get_phys a addr).
Proof. unfold ge2d_buffer_get_phys. touch. Qed.
Lemma touching_ex_loop wq n i l b ty ret : touching wq (config_ex_loop n i wq l b ty ret).
Proof. revert i ret. induction n as [|n IH]; intros i ret; cbn [config_ex_loop]; touch; apply IH. Qed.
Lemma touching_ion_loop wq n i l b ty ret : touching wq (config_ion_loop n i wq l b ty ret).
Proof. revert i l ret. induction n as [|n IH]; intros i l ret; cbn [config_ion_loop]; cbv zeta; touch; apply IH. Qed.
Lemma touching_dma_loop wq n i l b dir ty ret addr : touching wq (config_dma_loop n i wq l b dir ty ret addr).
Proof. revert i l ret addr. induction n as [|n IH]; intros i l ret addr; cbn [config_dma_loop]; cbv zeta; touch; first [apply touching_get_phys | apply IH | idtac]. all: touch; apply IH. Qed.

Lemma touching_alloc_side wq sd x f g : (forall l p, touching wq (f l p)) -> (forall l p, touching wq (g l p)) -> touching wq (alloc_side sd x f g).
Proof.
  intros Hf Hg. unfold alloc_side, dev. cbv zeta. touch; first [apply Hf | apply Hg].
Qed.
Lemma touching_side wq tmp sd x m : touching wq m -> touching wq (side tmp sd x m).
Proof. intros Hm. unfold side. cbv zeta. touch. Qed.
Lemma touching_alloc_ex wq sd x : touching wq (alloc_ex wq sd x).
Proof. unfold alloc_ex. apply touching_alloc_side; intros l p; [touch|]. unfold build_ge2d_config_ex. touch. apply touching_ex_loop. Qed.
Lemma touching_addr_ion wq l f a st : touching wq (build_ge2d_addr_config_ion l f a st).
Proof. unfold build_ge2d_addr_config_ion. touch. Qed.
Lemma touching_addr_dma wq l f a st dir ty : touching wq (build_ge2d_addr_config_dma wq l f a st dir ty).
Proof. unfold build_ge2d_addr_config_dma. touch. apply touching_get_phys. Qed.
Lemma touching_alloc_ion wq sd x : touching wq (alloc_ion wq sd x).
Proof. unfold alloc_ion. apply touching_alloc_side; intros l p; [apply touching_addr_ion|apply touching_ion_loop]. Qed.
Lemma touching_alloc_mem ty wq sd x : touching wq (alloc_mem ty wq sd x).
Proof.
  unfold alloc_mem. touch; [apply touching_alloc_ion|]. unfold alloc_dma. cbv zeta. apply touching_alloc_side; intros l p; [apply touching_addr_dma|apply touching_dma_loop].
Qed.

(** A request that succeeds has marked everything. *)
Definition all_marked (wq : Z) s : Prop := exists w, contexts s !! wq = Some w /\ update_flag (config w) = UPDATE_ALL.
Definition requests (wq : Z) (m : M Z) : Prop := touching wq m /\ forall s s', m s = Some (0, s') -> all_marked wq s'.

Lemma requests_and_then wq m f : touching wq m -> (forall x a st, requests wq (f x a st)) -> requests wq (and_then m f).
Proof.
  intros Hm Hf. split.
  - unfold and_then. touch. apply (proj1 (Hf _ _ _)).
  - intros s s' E. unfold and_then in E. bind_inv E as o s1 E1. destruct o as [[[x a] st]|]; [|done]. by eapply (proj2 (Hf x a st)).
Qed.
Lemma requests_tail wq f : keeps f ->
  (forall w, update_flag (config (f w)) = UPDATE_ALL) -> requests wq (_ ← on_ctx wq f; mret 0).
Proof.
  intros Hq Hf. split; [apply touching_bind; [by apply touching_config|intros; apply touching_ret]|]. intros s s' E. bind_inv E as u s1 E1. inversion E; subst.
  unfold on_ctx, ctx_at in E1. rewrite bind_assoc, run_gets in E1. destruct (contexts s !! wq) as [w|] eqn:Ew; [|done]. rewrite run_of_opt in E1.
  unfold put_ctx, modify in E1. inversion E1; subst. exists (f w). split; [apply lookup_insert_eq|apply Hf].
Qed.
Lemma requests_bind {A} wq (m : M A) f : touching wq m -> (forall a, requests wq (f a)) -> requests wq (m ≫= f).
Proof.
  intros Hm Hf. split; [apply touching_bind; [done|intros; apply Hf]|]. intros s s' E. bind_inv E as a s1 E1. by eapply Hf.
Qed.
Ltac sides := repeat (apply requests_and_then; [apply touching_side|intros ? ? ?]).

Lemma config_ex_requests tmp wq x : requests wq (ge2d_context_config_ex tmp wq x).
Proof.
  unfold ge2d_context_config_ex, ex_src, ex_src2, ex_dst. cbv zeta. sides; [touch; apply touching_alloc_ex..|].
  apply requests_tail; [apply ex_tail_keeps|apply ex_tail_mark].
Qed.
Lemma config_ex_ion_requests tmp wq x : requests wq (ge2d_context_config_ex_ion tmp wq x).
Proof.
  unfold ge2d_context_config_ex_ion, ion_src, ion_src2, ion_dst. sides; [apply touching_alloc_ion..|]. apply requests_tail; [apply ion_tail_keeps|apply ion_tail_mark].
Qed.
Lemma config_ex_mem_requests tmp wq m : requests wq (ge2d_context_config_ex_mem tmp wq m).
Proof.
  unfold ge2d_context_config_ex_mem, mem_src, mem_src2, mem_dst.
  apply requests_bind; [apply touching_config, keeps_on_config|]. intros _. sides; [apply touching_alloc_mem..|].
  apply requests_tail; [apply mem_tail_keeps|apply mem_tail_mark].
Qed.
End Touch.
