(* ===== verification/Ge2dInv.v ===== *)
(** * The invariant of the 2D engine

    Between two commands of the monitor ([ge2d_ok]), wherever it is ([phase]), every
    context has its 32 items, each on one of its two lists, and the configurations
    that wait differ from what the engine holds by no more than what they mark; the
    semaphore of the monitor is up while it sleeps on work ([signalled]).  A turn of
    the monitor, requests, operations, opening and closing keep it.  What each of them
    does besides is stated with it, for the theorems of Ge2dSpec.v. *)

From stdpp Require Import base numbers list option gmap.
From coqutil Require Import Datatypes.RecordSetters.
From S2P Require Import Prelude StateM Canvas Ge2dReg Ge2dStruct Ge2dHw Ge2dGen Ge2dDma Ge2dWq Ge2dConfig Ge2dBlt Ge2dMain Ge2dProgram Ge2dCommand Ge2dProcess Ge2dClients.

(** What waits on a list of items. *)
Definition work_of (m : gmap Z ge2d_queue_item_s) (l : list Z) : list ge2d_queue_item_s := omap (fun a => m !! a) l.
Lemma work_of_ext m m' l : (forall a, a ∈ l -> m' !! a = m !! a) -> work_of m' l = work_of m l.
Proof.
  unfold work_of. induction l as [|a l IH]; intros He; [done|]. cbn. rewrite He by (constructor). rewrite IH; [done|]. intros a' Ha. apply He. by constructor.
Qed.
Lemma work_of_at m l : (forall a, a ∈ l -> is_Some (m !! a)) -> Forall2 (fun it x => m !! it = Some x) l (work_of m l).
Proof.
  unfold work_of. induction l as [|a l IH]; intros Hs; [constructor|]. destruct (Hs a) as [x Hx]; [constructor|]. cbn. rewrite Hx. constructor; [done|].
  apply IH. intros a' Ha. apply Hs. by constructor.
Qed.
Lemma work_of_app m l l' : work_of m (l ++ l') = work_of m l ++ work_of m l'.
Proof. apply omap_app. Qed.

Lemma rotate_perm a l : rotate a l ≡ₚ l.
Proof. unfold rotate. destruct (list_find (eq a) l) as [[i x]|]; [|done]. by rewrite Permutation_app_comm, take_drop. Qed.

Section Spec.
Context {H K C : Type} `{GeBusLaws H} `{GeTime H} `{!GeLaunch H} `{!GeTimeLaws H} `{GePower H} `{DmaKernel K} `{!Ion K} `{MesonCanvas C}.
Notation M := (ST (S := ge2d_s H K C)).
Implicit Types (s : ge2d_s H K C) (w : ge2d_context_s).

(** The items of a context. *)
Definition own w : list Z := work_queue w ++ free_queue w.

(** Where the monitor is: waiting for its semaphore, between two contexts, or between
    two commands of a context. *)
Inductive phase := Asleep | Awake | Serving (wq it : Z).
Definition resting (p : phase) : Prop := match p with Serving _ _ => False | _ => True end.
Definition serves (p : phase) (wq : Z) : Prop := match p with Serving a _ => a = wq | _ => False end.

(** A context where the engine is known to hold [b]; those in [cl] are about to be
    freed. *)
Record ctx_ok (cl : gset Z) s (b : option ge2d_config_s) (wq : Z) w : Prop := {
  co_exit : ge2d_request_exit w = if decide (wq ∈ cl) then 1 else 0;
  co_count : length (own w) = MAX_GE2D_CMD;
  co_nodup : NoDup (own w);
  co_items : forall a, a ∈ own w -> is_Some (items s !! a);
  co_chain : chain (base_for s wq b) (i_config <$> work_of (items s) (work_queue w)) (config w) }.

(** An engine that the clock alone powers, on a chip of the driver. *)
Definition device_ok (d : ge2d_device_data_s) : Prop := chip_ok d /\ has_self_pwr d = 0.

(** The engine is ready for the first command that waits in a context. *)
Definition next_set_up s (wq it : Z) : Prop := exists w rest x,
  contexts s !! wq = Some w /\ work_queue w = it :: rest /\ items s !! it = Some x /\ set_up s (i_config x).

Record ge2d_ok (p : phase) (cl : gset Z) s (b : option ge2d_config_s) : Prop := {
  ok_chip : device_ok (ge2d_meson_dev s);
  ok_ready : ready (io s);
  ok_engine : forall c, b = Some c -> holds (ge2d_meson_dev s) (placed c) (engine s) (gaul_filter_used s);
  ok_known : resting p -> is_Some (last_wq s) -> is_Some b;
  ok_state : ge2d_state s = match p with Serving _ _ => GE2D_STATE_RUNNING | _ => GE2D_STATE_IDLE end;
  ok_serving : forall wq it, p = Serving wq it -> current_wq s = Some wq /\ next_set_up s wq it;
  ok_listed : forall wq, wq ∈ process_queue s <-> is_Some (contexts s !! wq) /\ wq ∉ cl;
  ok_closing : forall wq, wq ∈ cl -> exists w, contexts s !! wq = Some w /\ (~ serves p wq -> work_queue w = []);
  ok_once : NoDup (process_queue s);
  ok_ctx : forall wq w, contexts s !! wq = Some w -> ctx_ok cl s b wq w;
  ok_apart : forall wq w wq' w' a, contexts s !! wq = Some w -> contexts s !! wq' = Some w' -> wq <> wq' -> a ∈ own w -> a ∉ own w' }.

(** What a context needs of the state. *)
Lemma ctx_ok_frame cl s s' b b' wq w : ctx_ok cl s b wq w -> (forall a, a ∈ own w -> items s' !! a = items s !! a) ->
  (base_for s' wq b' = base_for s wq b \/ base_for s' wq b' = None) -> ctx_ok cl s' b' wq w.
Proof.
  intros [He Hl Hn Hi Hc] Hit Hb. split; [done..| |].
  - intros a Ha. rewrite Hit by done. by apply Hi.
  - rewrite (work_of_ext (items s)) by (intros a Ha; apply Hit; unfold own; set_solver). destruct Hb as [-> | ->]; [done|by eapply chain_weaken].
Qed.

Lemma next_set_up_frame s s' wq it : ge2d_meson_dev s' = ge2d_meson_dev s -> io s' = io s -> gaul_filter_used s' = gaul_filter_used s ->
  (forall w rest x, contexts s !! wq = Some w -> work_queue w = it :: rest -> items s !! it = Some x ->
     exists w' rest', contexts s' !! wq = Some w' /\ work_queue w' = it :: rest' /\ items s' !! it = Some x) -> next_set_up s wq it -> next_set_up s' wq it.
Proof.
  intros Ed Ei Eg Hf (w & rest & x & Hw & Hq & Hx & Hu). destruct (Hf w rest x Hw Hq Hx) as (w' & rest' & Hw' & Hq' & Hx'). exists w', rest', x.
  split_and!; [done..|]. unfold set_up, engine. by rewrite Ed, Ei, Eg.
Qed.

(** The command of an item is done, for those who wait for it. *)
Definition finished s (a : Z) : Prop := exists y, items s !! a = Some y /\ wait_done_flag (i_cmd y) = 0.

(** ** Serving a context *)

Section Monitor.
Variables (ph : phase) (cl : gset Z).
Hypothesis at_rest : resting ph.

Lemma not_serving wq it : ph <> Serving wq it.
Proof. intros E. pose proof at_rest as Hr. by rewrite E in Hr. Qed.
Lemma not_serves wq : ~ serves ph wq.
Proof. intros E. pose proof at_rest as Hr. by destruct ph. Qed.

Lemma ok_holds s b : ge2d_ok ph cl s b -> engine_holds s b.
Proof. intros Hok. split; [apply Hok|]. by apply (ok_known _ _ _ _ Hok). Qed.

Lemma closing_idle s b wq w : ge2d_ok ph cl s b -> wq ∈ cl -> contexts s !! wq = Some w -> work_queue w = [].
Proof.
  intros Hok Hin Hw. destruct (ok_closing _ _ _ _ Hok wq Hin) as (w' & Hw' & Hq). rewrite Hw in Hw'. inversion Hw'; subst w'. apply Hq, not_serves.
Qed.

Lemma serve_ok n fn wn s b wq w : (engine_bound < fn)%nat -> (engine_bound < wn)%nat -> (length (work_queue w) <= n)%nat ->
  ge2d_ok ph cl s b -> contexts s !! wq = Some w -> work_queue w <> [] -> Forall (item_ok (ge2d_meson_dev s)) (work_of (items s) (work_queue w)) ->
  exists s' sns b', ge2d_process_work_queue n fn wn wq s = Some (0, s') /\ ge2d_ok ph cl s' b' /\ served (after_serving s wq) s' /\
    contexts s' = <[wq := w<| work_queue := [] |><| free_queue := free_queue w ++ work_queue w |>]> (contexts s) /\
    (forall a, a ∉ work_queue w -> items s' !! a = items s !! a) /\
    launched (hw (io s')) = launched (hw (io s)) ++ sns /\ all_saw (ge2d_meson_dev s) (work_of (items s) (work_queue w)) sns /\
    (forall a, a ∈ work_queue w -> finished s' a).
Proof.
  intros Hf Hwn Hn Hok Hw Hne Hitems. pose proof (ok_ctx _ _ _ _ Hok wq w Hw) as [He Hl Hdup Hi Hc].
  assert (Hcl : wq ∉ cl) by (intros Hin; apply Hne; by eapply closing_idle). rewrite decide_False in He by done.
  destruct (process_runs n fn wn s wq w (work_queue w) (work_of (items s) (work_queue w)) b (config w)) as (s' & sns & c & E & S & R & Cx & I & J & L & Saw & Hh & Hlast).
  - done.
  - done.
  - done.
  - done.
  - apply (ok_chip _ _ _ _ Hok).
  - apply Hok.
  - done.
  - done.
  - done.
  - done.
  - apply work_of_at. intros a Ha. apply Hi. unfold own. set_solver.
  - done.
  - by apply ok_holds.
  - done.
  - exists s', sns, (Some c). split; [done|]. split; [|by split_and!]. pose proof S as S'. unfold served, after_serving in S'.
    set (w' := w<| work_queue := [] |><| free_queue := free_queue w ++ work_queue w |>) in *.
    assert (Eown : forall a, a ∈ own w' <-> a ∈ own w) by (intros a; unfold own, w'; destruct w; cbn; set_solver).
    assert (Ew : forall wq1 w1, contexts s' !! wq1 = Some w1 -> (wq1 = wq /\ w1 = w') \/ (wq1 <> wq /\ contexts s !! wq1 = Some w1)).
    { intros wq1 w1 G1. rewrite Cx in G1. apply lookup_insert_Some in G1 as [[<- <-]|[Hne1 G1]]; [by left|by right]. }
    assert (Elast : last_wq s' = Some wq) by (rewrite S'; by destruct s). assert (Epq : process_queue s' = process_queue s) by (rewrite S'; by destruct s).
    destruct Hh as [Hh1 Hh2]. split.
    + rewrite (served_dev _ _ S). destruct Hok. by destruct s.
    + done.
    + done.
    + done.
    + rewrite S'. destruct ph; [by destruct s|by destruct s|done].
    + intros wq1 it1 Hs1. by destruct (not_serving wq1 it1).
    + intros wq1. rewrite Epq, (ok_listed _ _ _ _ Hok), Cx. destruct (decide (wq1 = wq)) as [->|Hq]; [rewrite lookup_insert_eq, Hw; split; intros [? ?]; split; done || by eexists|by rewrite lookup_insert_ne].
    + intros wq1 Hin. destruct (ok_closing _ _ _ _ Hok wq1 Hin) as (w1 & Hw1 & Hq1). exists w1. split; [|done]. rewrite Cx, lookup_insert_ne by (intros <-; done). done.
    + rewrite Epq. apply Hok.
    + intros wq1 w1 G1. apply Ew in G1 as [[-> ->]|[Hq G1]].
      * split.
        -- rewrite decide_False by done. by destruct w.
        -- rewrite <- Hl. unfold own, w'. destruct w. cbn. rewrite !length_app. lia.
        -- unfold own, w'. destruct w. cbn in *. unfold own in Hdup. cbn in Hdup. by rewrite Permutation_app_comm.
        -- intros a Ha. rewrite Eown in Ha. destruct (decide (a ∈ work_queue w)) as [Hin|Hout]; [|rewrite I by done; by apply Hi].
           destruct (J a Hin) as (y & -> & _). by exists y.
        -- unfold base_for. rewrite decide_True by done. unfold w'. by destruct w.
      * eapply ctx_ok_frame; [by apply (ok_ctx _ _ _ _ Hok)| |].
        -- intros a Ha. apply I. intros Hin. eapply (ok_apart _ _ _ _ Hok wq1 w1 wq w a); [done|done|done|done|]. unfold own. set_solver.
        -- right. unfold base_for. by rewrite decide_False by congruence.
    + intros wq1 w1 wq2 w2 a G1 G2 Hq Ha. apply Ew in G1, G2. destruct G1 as [[-> ->]|[Hq1 G1]], G2 as [[-> ->]|[Hq2 G2]].
      * done.
      * rewrite Eown in Ha. by eapply (ok_apart _ _ _ _ Hok wq w wq2 w2).
      * rewrite Eown. by eapply (ok_apart _ _ _ _ Hok wq1 w1 wq w).
      * by eapply (ok_apart _ _ _ _ Hok wq1 w1 wq2 w2).
Qed.

(** ** The monitor *)

(** What the invariant depends on. *)
Lemma ok_same s s' b : ge2d_ok ph cl s b -> (forall wq it, ph = Serving wq it -> current_wq s' = current_wq s) -> ge2d_meson_dev s' = ge2d_meson_dev s -> io s' = io s -> contexts s' = contexts s -> items s' = items s ->
  last_wq s' = last_wq s -> gaul_filter_used s' = gaul_filter_used s -> ge2d_state s' = ge2d_state s -> process_queue s' ≡ₚ process_queue s -> ge2d_ok ph cl s' b.
Proof.
  intros [Hchip Hrdy Heng Hknown Hstate Hserv Hlist Hclos Honce Hctx Hapart] Ecur Ed Ei Ec Et El Eg Est Ep. split.
  - by rewrite Ed.
  - by rewrite Ei.
  - unfold engine. by rewrite Ed, Ei, Eg.
  - by rewrite El.
  - by rewrite Est.
  - intros wq it Hq0. destruct (Hserv wq it Hq0) as [Hcur Hn]. split; [by rewrite (Ecur wq it)|]. eapply (next_set_up_frame s); [done..| |done].
    intros w rest x Hw Hq Hx. exists w, rest. by rewrite Ec, Et.
  - intros wq. by rewrite Ep, Ec.
  - intros wq. rewrite Ec. apply Hclos.
  - by rewrite Ep.
  - intros wq w Hw. rewrite Ec in Hw. eapply ctx_ok_frame; [by apply Hctx|by rewrite Et|]. left. unfold base_for. by rewrite El.
  - by rewrite Ec.
Qed.

Definition has_work s (wq : Z) : bool := match contexts s !! wq with Some w => negb (bool_decide (work_queue w = [])) | None => false end.
(** The contexts with work, in the order of the monitor's list. *)
Definition backlog s : list Z := List.filter (has_work s) (process_queue s).
(** The commands that wait in a context. *)
Definition waiting s (wq : Z) : list ge2d_queue_item_s := match contexts s !! wq with Some w => work_of (items s) (work_queue w) | None => [] end.
(** Nothing waits that cannot run. *)
Definition work_runs s : Prop := forall wq, Forall (item_ok (ge2d_meson_dev s)) (waiting s wq).

Lemma first_with_work_spec s l : (forall a, a ∈ l -> is_Some (contexts s !! a)) ->
  match List.filter (has_work s) l with
  | [] => first_with_work (contexts s) l = Some None
  | a :: _ => first_with_work (contexts s) l = Some (Some a)
  end.
Proof.
  induction l as [|a l IH]; intros Hs; [done|]. destruct (Hs a) as [w Hw]; [constructor|]. cbn. unfold has_work at 1. rewrite Hw.
  destruct (work_queue w); cbn; [|done]. apply IH. intros a' Ha. apply Hs. by constructor.
Qed.
(** The next context is the first with work; it goes to the end of the list. *)
Lemma next_runs s b : ge2d_ok ph cl s b -> get_next_work_queue s =
  match backlog s with [] => Some (None, s) | a :: _ => Some (Some a, s<| process_queue := rotate a (process_queue s) |>) end.
Proof.
  intros Hok. unfold get_next_work_queue. rewrite run_gets. pose proof (first_with_work_spec s (process_queue s)) as Hf.
  fold (backlog s) in Hf. destruct (backlog s) as [|a l]; rewrite Hf; try done; intros a' Ha; by apply (ok_listed _ _ _ _ Hok) in Ha as [? _].
Qed.

Lemma has_work_in s b wq : ge2d_ok ph cl s b -> has_work s wq = true -> exists w, contexts s !! wq = Some w /\ work_queue w <> [] /\ wq ∈ process_queue s.
Proof.
  intros Hok Hw. unfold has_work in Hw. destruct (contexts s !! wq) as [w|] eqn:E; [|done]. exists w. split; [done|]. b2p. split; [done|].
  apply (ok_listed _ _ _ _ Hok). split; [by rewrite E|]. intros Hin. by eapply closing_idle in Hin.
Qed.
Lemma no_backlog s b wq : ge2d_ok ph cl s b -> backlog s = [] -> has_work s wq = false.
Proof.
  intros Hok Hb. apply not_true_is_false. intros Hw. destruct (has_work_in s b wq Hok Hw) as (w & _ & _ & Hin).
  assert (Hf : In wq (backlog s)) by (apply filter_In; split; [by apply list_elem_of_In|done]). by rewrite Hb in Hf.
Qed.

Lemma filter_perm (p : Z -> bool) l l' : l ≡ₚ l' -> List.filter p l ≡ₚ List.filter p l'.
Proof. induction 1; cbn; repeat case_match; eauto using Permutation; congruence. Qed.
Lemma filter_drop (p q : Z -> bool) a l : NoDup l -> a ∈ l -> p a = true -> q a = false -> (forall x, x <> a -> q x = p x) ->
  List.filter p l ≡ₚ a :: List.filter q l.
Proof.
  induction l as [|x l IH]; intros Hn Ha Hp Hq He; [by apply not_elem_of_nil in Ha|]. apply NoDup_cons in Hn as [Hx Hn]. cbn. apply elem_of_cons in Ha as [<-|Ha].
  - rewrite Hp, Hq. constructor. erewrite List.filter_ext_in; [done|]. intros y Hy. symmetry. apply He. intros ->. by apply Hx, list_elem_of_In.
  - rewrite He by (intros ->; done). destruct (p x); [|by apply IH]. rewrite IH by done. constructor.
Qed.

(** After a context was served: its work is gone, that of the others is as it was. *)
Lemma served_work s s' b wq w : ge2d_ok ph cl s b -> contexts s !! wq = Some w ->
  contexts s' = <[wq := w<| work_queue := [] |><| free_queue := free_queue w ++ work_queue w |>]> (contexts s) ->
  (forall a, a ∉ work_queue w -> items s' !! a = items s !! a) ->
  has_work s' wq = false /\ waiting s' wq = [] /\ forall wq', wq' <> wq -> has_work s' wq' = has_work s wq' /\ waiting s' wq' = waiting s wq'.
Proof.
  intros Hok Hw Cx I. unfold has_work, waiting. rewrite Cx. split; [by rewrite lookup_insert_eq; destruct w|]. split; [by rewrite lookup_insert_eq; destruct w|].
  intros wq' Hne. rewrite lookup_insert_ne by done. split; [done|]. destruct (contexts s !! wq') as [w'|] eqn:Hw'; [|done]. apply work_of_ext. intros a Ha. apply I. intros Hin.
  eapply (ok_apart _ _ _ _ Hok wq' w' wq w a); [done..| |]; unfold own; set_solver.
Qed.

(** The parts of the state that only the monitor looks at. *)
Definition monitor_frame s s' : Prop := ge2d_meson_dev s' = ge2d_meson_dev s /\ cmd_in_sem s' = cmd_in_sem s /\ ge2d_clk s' = ge2d_clk s /\ process_complete s' = process_complete s.

(** What waited is done, and other items are as they were. *)
Definition all_done s s' : Prop := forall wq w a, contexts s !! wq = Some w -> a ∈ work_queue w -> finished s' a.
Definition others_kept s s' : Prop := forall a, (forall wq w, contexts s !! wq = Some w -> a ∉ work_queue w) -> items s' !! a = items s !! a.
Lemma served_done s s1 s2 b wq w : ge2d_ok ph cl s b -> contexts s !! wq = Some w ->
  contexts s1 = <[wq := w<| work_queue := [] |><| free_queue := free_queue w ++ work_queue w |>]> (contexts s) ->
  (forall a, a ∉ work_queue w -> items s1 !! a = items s !! a) -> (forall a, a ∈ work_queue w -> finished s1 a) ->
  all_done s1 s2 -> others_kept s1 s2 -> all_done s s2 /\ others_kept s s2.
Proof.
  intros Hok Hw Cx I J Hd Hk.
  assert (Hrest : forall wq' w', wq' <> wq -> contexts s !! wq' = Some w' -> contexts s1 !! wq' = Some w') by (intros wq' w' Hne Hw'; by rewrite Cx, lookup_insert_ne).
  assert (Hidle : forall a, (forall wq' w', wq' <> wq -> contexts s !! wq' = Some w' -> a ∉ work_queue w') -> items s2 !! a = items s1 !! a).
  { intros a Ha. apply Hk. intros wq' w' Hw'. rewrite Cx in Hw'. apply lookup_insert_Some in Hw' as [[<- <-]|[Hne Hw']]; [destruct w; apply not_elem_of_nil|by apply (Ha wq')]. }
  split.
  - intros wq' w' a Hw' Ha. destruct (decide (wq' = wq)) as [->|Hne]; [|by eapply Hd; [apply Hrest|]]. rewrite Hw in Hw'. inversion Hw'; subst w'.
    destruct (J a Ha) as (y & Hy & Hf). exists y. split; [|done]. rewrite Hidle; [done|]. intros wq2 w2 Hne Hw2 Ha2. apply (ok_apart _ _ _ _ Hok wq w wq2 w2 a); [done|done|done| |]; unfold own; set_solver.
  - intros a Ha. rewrite Hidle; [|intros wq' w' _; apply Ha]. apply I. by apply (Ha wq).
Qed.

Lemma drain_runs n f1 fn wn s b : (engine_bound < fn)%nat -> (engine_bound < wn)%nat -> (MAX_GE2D_CMD <= f1)%nat -> (length (backlog s) < n)%nat ->
  ge2d_ok ph cl s b -> work_runs s ->
  exists s' b' order sns, monitor_drain n f1 fn wn s = Some (tt, s') /\ ge2d_ok ph cl s' b' /\ monitor_frame s s' /\ backlog s' = [] /\ current_wq s' = None /\
    order ≡ₚ backlog s /\ launched (hw (io s')) = launched (hw (io s)) ++ sns /\ all_saw (ge2d_meson_dev s) (order ≫= waiting s) sns /\
    all_done s s' /\ others_kept s s'.
Proof.
  revert s b. induction n as [|n IH]; intros s b Hf Hwn Hf1 Hn Hok Hitems; [lia|]. cbn [monitor_drain]. pose proof (next_runs s b Hok) as En.
  destruct (backlog s) as [|a rest] eqn:Eb.
  - rewrite (run_bind _ _ _ _ _ En), run_modify. exists (s<| current_wq := None |>), b, [], []. split; [done|].
    split; [by eapply (ok_same s); [done|intros wq0 it0 Hs0; by destruct (not_serving wq0 it0)|..]; destruct s|]. split; [by destruct s|]. split; [by destruct s|]. split; [by destruct s|]. split; [done|].
    split; [rewrite app_nil_r; by destruct s|]. split; [constructor|]. split; [|by destruct s]. intros wq w a Hw Ha. pose proof (no_backlog s b wq Hok Eb) as Hno. unfold has_work in Hno. rewrite Hw in Hno.
    apply negb_false_iff, bool_decide_eq_true in Hno. rewrite Hno in Ha. by apply not_elem_of_nil in Ha.
  - set (s1 := s<| process_queue := rotate a (process_queue s) |><| current_wq := Some a |>). rewrite (run_bind _ _ _ _ _ En), run_modify. fold s1.
    assert (Hok1 : ge2d_ok ph cl s1 b) by (eapply (ok_same s); [done|intros wq0 it0 Hs0; by destruct (not_serving wq0 it0)|..]; destruct s; try done; apply rotate_perm).
    assert (Ha : has_work s a = true) by (assert (Hin : In a (backlog s)) by (rewrite Eb; by left); by apply filter_In in Hin as [_ Hin]).
    destruct (has_work_in s b a Hok Ha) as (w & Hw & Hne & Hq).
    destruct (serve_ok f1 fn wn s1 b a w) as (s2 & sns1 & b2 & E & Hok2 & S & Cx & I & L & Saw & J).
    + done.
    + done.
    + pose proof (co_count _ _ _ _ _ (ok_ctx _ _ _ _ Hok a w Hw)) as Hl. unfold own in Hl. rewrite length_app in Hl. lia.
    + done.
    + done.
    + done.
    + specialize (Hitems a). unfold waiting in Hitems. by rewrite Hw in Hitems.
    + rewrite (run_bind _ _ _ _ _ E). pose proof S as S'. unfold served, after_serving in S'.
      destruct (served_work s1 s2 b a w Hok1 Hw Cx I) as (Hno & Hwa & Hoth).
      assert (Eback : backlog s ≡ₚ a :: backlog s2).
      { unfold backlog. replace (process_queue s2) with (rotate a (process_queue s)) by (rewrite S'; by destruct s). rewrite <- (filter_perm _ _ _ (rotate_perm a (process_queue s))).
        apply filter_drop; [rewrite rotate_perm; apply Hok|by rewrite rotate_perm|done|done|]. intros x Hx. by destruct (Hoth x Hx) as [-> _]. }
      assert (Ew2 : forall x, x <> a -> waiting s2 x = waiting s x) by (intros x Hx; by destruct (Hoth x Hx) as [_ ->]).
      assert (Ed : ge2d_meson_dev s2 = ge2d_meson_dev s) by (rewrite S'; by destruct s).
      destruct (IH s2 b2) as (s3 & b3 & order & sns2 & E3 & Hok3 & (F1 & F2 & F3 & F4) & B3 & C3 & O3 & L3 & Saw3 & Done3 & Kept3).
      * done.
      * done.
      * done.
      * apply Permutation_length in Eback. rewrite Eb in Eback. cbn in Eback, Hn. lia.
      * done.
      * intros x. rewrite Ed. destruct (decide (x = a)) as [->|Hx]; [rewrite Hwa; constructor|by rewrite Ew2].
      * exists s3, b3, (a :: order), (sns1 ++ sns2). split; [done|]. split; [done|]. split.
        { unfold monitor_frame. rewrite F1, F2, F3, F4, S'. by destruct s. }
        split; [done|]. split; [done|]. split; [by rewrite <- Eb, Eback, O3|]. split.
        { rewrite L3, L, <- app_assoc. by destruct s. }
        split; [|by apply (served_done s1 s2 s3 b a w)].
        rewrite bind_cons. apply Forall2_app; [unfold waiting at 1; rewrite Hw; exact Saw|]. rewrite Ed in Saw3.
        assert (Eo : forall x, x ∈ order -> waiting s2 x = waiting s x).
        { intros x Hx. apply Ew2. intros ->. rewrite O3 in Hx. apply list_elem_of_In, filter_In in Hx as [_ Hx]. congruence. }
        clear -Saw3 Eo. replace (order ≫= waiting s) with (order ≫= waiting s2); [done|]. clear Saw3. induction order as [|x l IHl]; [done|].
        rewrite !bind_cons, Eo, IHl by (try constructor; intros y Hy; apply Eo; by constructor). done.
Qed.

(** *** A turn *)

(** Nothing is started or lost by operations on other registers. *)
Lemma plain_ok s b l : cmd_plain l = true -> ge2d_ok ph cl s b ->
  ge2d_ok ph cl (s<| io := run_ops l (io s) |>) b /\ launched (hw (run_ops l (io s))) = launched (hw (io s)).
Proof.
  intros Hp Hok. destruct Hok as [Hchip Hrdy Heng Hknown Hstate Hserv Hlist Hclos Honce Hctx Hapart].
  assert (Hp' : forallb op_plain l = true) by (unfold cmd_plain in Hp; by apply andb_prop in Hp as [? _]).
  destruct (run_ops_launched l (io s) Hrdy (plain_not_start l Hp')) as [Hl Hr]. split; [|done]. split; try (by destruct s).
  - intros c Hc. destruct (cmd_plain_keeps (ge2d_meson_dev s) (placed c) (gaul_filter_used s) l (io s)) as (Hk & _); [apply Hchip|done|done|by apply Heng|]. by destruct s.
  - intros wq it Hsv. by destruct (not_serving wq it).
  - intros wq w Hw. eapply (ctx_ok_frame cl s); [apply Hctx; by destruct s|by destruct s|left; by destruct s].
Qed.
Lemma gen_plain d g : cmd_plain (ge2d_set_gen d g) = true.
Proof. unfold ge2d_set_gen. destruct (fifo d =? 1); lazy; done. Qed.
Lemma soft_rst_plain : cmd_plain ge2d_soft_rst = true.
Proof. by lazy. Qed.

Lemma same_engine_ok s b f : (forall h, same_engine h (f h)) -> ge2d_ok ph cl s b ->
  ge2d_ok ph cl (s<| io := on_hw f (io s) |>) b /\ launched (hw (on_hw f (io s))) = launched (hw (io s)).
Proof.
  intros Hf [Hchip Hrdy Heng Hknown Hstate Hserv Hlist Hclos Honce Hctx Hapart]. destruct (Hf (hw (io s))) as [Hs Hl]. split; [|done]. split; try (by destruct s).
  - intros c Hc. eapply (holds_same _ _ (engine s)); [by destruct s|]. specialize (Heng c Hc). by destruct s.
  - intros wq it Hsv. by destruct (not_serving wq it).
  - intros wq w Hw. eapply (ctx_ok_frame cl s); [apply Hctx; by destruct s|by destruct s|left; by destruct s].
Qed.

(** Only the engine and its mapping change. *)
Definition only_io s s' : Prop := s' = s<| io := io s' |>.
Lemma only_io_trans s s1 s2 : only_io s s1 -> only_io s1 s2 -> only_io s s2.
Proof. unfold only_io. intros -> ->. by destruct s, s1, s2. Qed.
Lemma only_io_put s i : only_io s (s<| io := i |>).
Proof. by destruct s. Qed.

Section Power.
Context `{!GePowerLaws H}.
Lemma clk_runs s b enable : ge2d_ok ph cl s b -> exists r s', ge2d_clk_config enable s = Some (r, s') /\ only_io s s' /\ ge2d_ok ph cl s' b /\ launched (hw (io s')) = launched (hw (io s)).
Proof.
  intros Hok. unfold ge2d_clk_config. rewrite run_gets. destruct (ge2d_clk s); cbn [negb].
  - set (f := if enable then clk_prepare_enable else clk_disable_unprepare). unfold hw_do. rewrite run_modify. eexists _, _. split; [reflexivity|]. split; [apply only_io_put|].
    apply same_engine_ok; [|done]. intros h. unfold f. destruct enable; [apply clk_on_same|apply clk_off_same].
  - eexists _, s. split; [reflexivity|]. split; [by destruct s|done].
Qed.
Lemma pwr_runs s b enable : ge2d_ok ph cl s b ->
  exists s', ge2d_pwr_config enable s = Some (tt, s') /\ only_io s s' /\ ge2d_ok ph cl s' b /\ launched (hw (io s')) = launched (hw (io s)).
Proof.
  intros Hok. destruct (ok_chip _ _ _ _ Hok) as [_ Hp]. unfold ge2d_pwr_config. unfold dev at 1. rewrite run_gets, Hp. change (when (c_true 0) _) with (mret (M := M) tt). rewrite run_ret.
  destruct (clk_runs s b enable Hok) as (r & s1 & E1 & O1 & Hok1 & L1). rewrite (run_bind _ _ _ _ _ E1). destruct enable; [|by exists s1]. cbn [when].
  unfold regs at 1. rewrite run_modify. unfold ge2d_pre_init, dev. rewrite run_gets. unfold regs, modify.
  destruct (plain_ok s1 b ge2d_soft_rst soft_rst_plain Hok1) as [Hok2 L2]. set (s2 := s1<| io := run_ops ge2d_soft_rst (io s1) |>) in *.
  destruct (plain_ok s2 b (ge2d_set_gen (ge2d_meson_dev s2) (zero_gen<| interrupt_ctrl := 0x02 |>)) (gen_plain _ _) Hok2) as [Hok3 L3].
  eexists. split; [reflexivity|]. split; [|split; [exact Hok3|]].
  - eapply only_io_trans; [exact O1|]. eapply (only_io_trans _ s2); apply only_io_put.
  - change (io (s2<| io := run_ops (ge2d_set_gen (ge2d_meson_dev s2) (zero_gen<| interrupt_ctrl := 2 |>)) (io s2) |>)) with (run_ops (ge2d_set_gen (ge2d_meson_dev s2) (zero_gen<| interrupt_ctrl := 2 |>)) (io s2)).
    rewrite L3. exact (eq_trans L2 L1).
Qed.

(** A turn of the monitor serves what waits. *)
Lemma turn_runs n f1 fn wn s b : (engine_bound < fn)%nat -> (engine_bound < wn)%nat -> (MAX_GE2D_CMD <= f1)%nat -> (length (backlog s) < n)%nat ->
  ge2d_ok ph cl s b -> work_runs s -> 0 < cmd_in_sem s ->
  exists s' b' order sns, monitor_turn n f1 fn wn s = Some (tt, s') /\ ge2d_ok ph cl s' b' /\ backlog s' = [] /\ cmd_in_sem s' = cmd_in_sem s - 1 /\
    order ≡ₚ backlog s /\ launched (hw (io s')) = launched (hw (io s)) ++ sns /\ all_saw (ge2d_meson_dev s) (order ≫= waiting s) sns /\
    all_done s s' /\ others_kept s s'.
Proof.
  intros Hf Hwn Hf1 Hn Hok Hitems Hsem. unfold monitor_turn. rewrite run_gets, (proj2 (Z.ltb_lt 0 (cmd_in_sem s))), run_of_opt, run_modify by done.
  set (s1 := s<| cmd_in_sem := cmd_in_sem s - 1 |>). assert (Hok1 : ge2d_ok ph cl s1 b) by (eapply (ok_same s); [done|intros wq0 it0 Hs0; by destruct (not_serving wq0 it0)|..]; by destruct s).
  destruct (pwr_runs s1 b true Hok1) as (s2 & E2 & O2 & Hok2 & L2). rewrite (run_bind _ _ _ _ _ E2). unfold only_io in O2.
  assert (Eb2 : backlog s2 = backlog s) by (rewrite O2; by destruct s). assert (Ew2 : forall x, waiting s2 x = waiting s x) by (intros x; rewrite O2; by destruct s).
  assert (Ed2 : ge2d_meson_dev s2 = ge2d_meson_dev s) by (rewrite O2; by destruct s).
  destruct (drain_runs n f1 fn wn s2 b) as (s3 & b3 & order & sns & E3 & Hok3 & (F1 & F2 & F3 & F4) & B3 & C3 & O3 & L3 & Saw & Done3 & Kept3).
  - done.
  - done.
  - done.
  - by rewrite Eb2.
  - done.
  - intros x. rewrite Ed2, Ew2. apply Hitems.
  - rewrite (run_bind _ _ _ _ _ E3), run_gets. rewrite Ed2 in Saw. assert (D3 : all_done s s3) by (intros wq w a Hw Ha; eapply Done3; [rewrite O2; by destruct s|done]).
    assert (K3 : others_kept s s3) by (intros a Ha; rewrite Kept3; [rewrite O2; by destruct s|]; intros wq w Hw; apply (Ha wq); rewrite O2 in Hw; by destruct s). clear Done3 Kept3.
    assert (Saw' : all_saw (ge2d_meson_dev s) (order ≫= waiting s) sns) by (rewrite <- (list_bind_ext (waiting s2) (waiting s) order order); [done|done|done]).
    assert (L' : launched (hw (io s3)) = launched (hw (io s)) ++ sns) by (rewrite L3, L2; by destruct s).
    assert (Sem : cmd_in_sem s3 = cmd_in_sem s - 1) by (rewrite F2, O2; by destruct s). rewrite Eb2 in O3. destruct (c_true _); cbn [negb when].
    + by exists s3, b3, order, sns.
    + destruct (pwr_runs s3 b3 false Hok3) as (s4 & E4 & O4 & Hok4 & L4). unfold only_io in O4. exists s4, b3, order, sns.
      split; [done|]. split; [done|]. split; [rewrite <- B3, O4; by destruct s3|]. split; [rewrite <- Sem, O4; by destruct s3|]. split; [done|]. split; [by rewrite L4|]. split; [done|].
      assert (I4 : items s4 = items s3) by (rewrite O4; by destruct s3). unfold all_done, finished, others_kept. by rewrite I4.
Qed.
End Power.

End Monitor.

(** ** Requests and operations *)

(** The monitor is woken for every command: while it sleeps, its semaphore is up if
    there is work. *)
Definition signalled (ph : phase) s : Prop := 0 <= cmd_in_sem s /\ (ph = Asleep -> forall wq, has_work s wq = true -> 0 < cmd_in_sem s).

Section Calls.
Variables (ph : phase) (cl : gset Z).

(** A context changes, and its configuration by marked steps. *)
Lemma touched_ok s s' b wq : ge2d_ok ph cl s b -> touches wq s s' ->
  (forall w w', contexts s !! wq = Some w -> contexts s' !! wq = Some w' -> advance (config w) (config w') \/ update_flag (config w') = UPDATE_ALL) ->
  ge2d_ok ph cl s' b.
Proof.
  intros Hok (w & w' & Hw & Cx & E & Hwq & Hfq & Hx) Hadv. pose proof Hok as [Hchip Hrdy Heng Hknown Hstate Hserv Hlist Hclos Honce Hctx Hapart].
  assert (Hown : own w' = own w) by (unfold own; congruence).
  assert (Ew : forall wq1 w1, contexts s' !! wq1 = Some w1 -> (wq1 = wq /\ w1 = w') \/ (wq1 <> wq /\ contexts s !! wq1 = Some w1)).
  { intros wq1 w1 G1. rewrite Cx in G1. apply lookup_insert_Some in G1 as [[<- <-]|[Hne1 G1]]; [by left|by right]. }
  assert (Eo : forall wq1 w1, contexts s' !! wq1 = Some w1 -> exists w0, contexts s !! wq1 = Some w0 /\ own w1 = own w0).
  { intros wq1 w1 G1. apply Ew in G1 as [[-> ->]|[_ G1]]; [by exists w|by exists w1]. }
  assert (Ei : items s' = items s) by (rewrite E; by destruct s). assert (El : last_wq s' = last_wq s) by (rewrite E; by destruct s).
  split.
  - rewrite E. by destruct s.
  - rewrite E. by destruct s.
  - rewrite E. by destruct s.
  - rewrite E. by destruct s.
  - rewrite E. by destruct s.
  - intros wq1 it Hs1. destruct (Hserv wq1 it Hs1) as [Hcur Hnext]. split; [rewrite E; by destruct s|].
    apply (next_set_up_frame s); [rewrite E; by destruct s..| |done]. intros w1 rest x Hw1 Hq1 Hx1. rewrite Ei, Cx. destruct (decide (wq1 = wq)) as [->|Hne].
    + rewrite lookup_insert_eq. exists w', rest. rewrite Hw in Hw1. inversion Hw1; subst w1. by rewrite Hwq.
    + rewrite lookup_insert_ne by done. by exists w1, rest.
  - intros wq1. replace (process_queue s') with (process_queue s) by (rewrite E; by destruct s). rewrite Hlist, Cx.
    destruct (decide (wq1 = wq)) as [->|Hq]; [rewrite lookup_insert_eq, Hw; split; intros [? ?]; split; done || by eexists|by rewrite lookup_insert_ne].
  - intros wq1 Hin. destruct (Hclos wq1 Hin) as (w1 & Hw1 & Hq1). rewrite Cx. destruct (decide (wq1 = wq)) as [->|Hne].
    + rewrite lookup_insert_eq. exists w'. split; [done|]. rewrite Hw in Hw1. inversion Hw1; subst w1. by rewrite Hwq.
    + rewrite lookup_insert_ne by done. by exists w1.
  - rewrite E. by destruct s.
  - intros wq1 w1 G1. pose proof G1 as G1'. apply Ew in G1 as [[-> ->]|[Hq G1]].
    + destruct (Hctx wq w Hw) as [He Hl Hn Hi Hc]. split.
      * by rewrite Hx.
      * by rewrite Hown.
      * by rewrite Hown.
      * intros a. rewrite Hown, Ei. apply Hi.
      * rewrite Ei, Hwq. unfold base_for in *. rewrite El. destruct (Hadv w w' Hw G1') as [Ha|Ha]; [by eapply chain_advance|by eapply chain_all].
    + eapply ctx_ok_frame; [by apply Hctx|by rewrite Ei|]. left. unfold base_for. by rewrite El.
  - intros wq1 w1 wq2 w2 a G1 G2 Hq Ha. apply Eo in G1 as (w10 & G1 & E1), G2 as (w20 & G2 & E2). rewrite E1 in Ha. rewrite E2. by eapply (Hapart wq1 w10 wq2 w20).
Qed.

Lemma signalled_less s s' : cmd_in_sem s' = cmd_in_sem s -> (forall wq, has_work s' wq = true -> has_work s wq = true) -> signalled ph s -> signalled ph s'.
Proof. intros Em Hw [Hn Hs]. split; [by rewrite Em|]. intros Ha wq Hq. rewrite Em. by eapply Hs, Hw. Qed.
Lemma touched_signalled wq s s' : touches wq s s' -> signalled ph s -> signalled ph s'.
Proof.
  intros (w & w' & Hw & Cx & E & Hwq & _). apply signalled_less; [rewrite E; by destruct s|]. intros wq'. unfold has_work. rewrite Cx.
  destruct (decide (wq' = wq)) as [->|Hne]; [by rewrite lookup_insert_eq, Hw, Hwq|by rewrite lookup_insert_ne].
Qed.

(** Between two calls. *)
Definition inv s : Prop := (exists b, ge2d_ok ph cl s b) /\ signalled ph s.
(** A computation that keeps the invariant while its context is there. *)
Definition safe {A} (wq : Z) (m : M A) : Prop := forall s a s', inv s -> is_Some (contexts s !! wq) -> wq ∉ cl -> m s = Some (a, s') -> inv s' /\ is_Some (contexts s' !! wq).

Lemma safe_ret {A} wq (a : A) : safe wq (mret a).
Proof. intros s x s' Hok Hs Hcl [= <- <-]. done. Qed.
Lemma safe_gets {A} wq (f : ge2d_s H K C -> A) : safe wq (gets f).
Proof. intros s x s' Hok Hs Hcl [= <- <-]. done. Qed.
Lemma safe_bind {A B} wq (m : M A) (f : A -> M B) : safe wq m -> (forall a, safe wq (f a)) -> safe wq (m ≫= f).
Proof. intros Hm Hf s y s' Hok Hs Hcl E. bind_inv E as x s1 E1. destruct (Hm s x s1 Hok Hs Hcl E1) as [Hok1 Hs1]. by eapply Hf. Qed.
Lemma safe_on_dma {A} wq (m : ST (S := dma_s K) A) : safe wq (on_dma m).
Proof.
  intros s x s' [[b Hok] Hsig] Hs Hcl E. unfold on_dma in E. destruct (m (dma s)) as [[a d]|]; [|done]. cbn in E. inversion E; subst. split; [|by destruct s].
  split; [exists b; eapply (ok_same _ _ s); [done|..]; by destruct s|by destruct s].
Qed.
Lemma safe_on_ctx' wq wq' f : advances f -> keeps f -> forall s a s', inv s -> is_Some (contexts s !! wq) -> is_Some (contexts s !! wq') ->
  on_ctx wq f s = Some (a, s') -> inv s' /\ is_Some (contexts s' !! wq') /\ process_queue s' = process_queue s.
Proof.
  intros Ha Hk s x s' [[b Hok] Hsig] Hs Hs' E. assert (T : touches wq s s') by (by eapply (touching_config wq f)). pose proof T as (w0 & w1 & _ & Cx & Es & _).
  split; [|split; [rewrite Cx; destruct (decide (wq = wq')) as [->|Hne]; [rewrite lookup_insert_eq; by eexists|by rewrite lookup_insert_ne]|rewrite Es; by destruct s]].
  split; [|by eapply touched_signalled]. exists b. eapply touched_ok; [done|done|].
  intros w w' Hw Hw'. left. unfold on_ctx, ctx_at in E. rewrite bind_assoc, run_gets, Hw, run_of_opt in E. unfold put_ctx, modify in E. inversion E; subst.
  assert (Hw2 : <[wq := f w]> (contexts s) !! wq = Some w') by exact Hw'. rewrite lookup_insert_eq in Hw2. inversion Hw2; subst. apply Ha.
Qed.
Lemma safe_on_ctx wq f : advances f -> keeps f -> safe wq (on_ctx wq f).
Proof. intros Ha Hk s x s' Hi Hs Hcl E. by edestruct (safe_on_ctx' wq wq f Ha Hk s x s') as (? & ? & _). Qed.
(** A request that succeeds. *)
Lemma granted_ok wq (m : M Z) s s' : requests wq m -> inv s -> is_Some (contexts s !! wq) -> m s = Some (0, s') -> inv s' /\ is_Some (contexts s' !! wq).
Proof.
  intros [Ht Hm] [[b Hok] Hsig] Hs E. assert (T : touches wq s s') by (by eapply Ht). split; [|by eapply touches_some]. split; [|by eapply touched_signalled].
  exists b. eapply (touched_ok s s' b wq); [done|done|]. intros w w' _ Hw'. right. destruct (Hm s s' E) as (w1 & Hw1 & Hf). rewrite Hw' in Hw1. by inversion Hw1; subst.
Qed.

(** The first free item takes the command, behind what waits. *)
Lemma enqueue_runs s b wq w it fr : ge2d_ok ph cl s b -> contexts s !! wq = Some w -> wq ∉ cl -> free_queue w = it :: fr ->
  exists s', add_work_enqueue wq s = Some (Some it, s') /\ ge2d_ok ph cl s' b /\
    items s' = <[it := mk_item (cmd w) (config w)]> (items s) /\
    contexts s' = <[wq := w<| cmd := zero_cmd |><| config := (config w)<| update_flag := 0 |> |><| free_queue := fr |><| work_queue := work_queue w ++ [it] |>]> (contexts s) /\
    cmd_in_sem s' = cmd_in_sem s /\ io s' = io s.
Proof.
  intros Hok Hw Hcl Hfr. pose proof Hok as [Hchip Hrdy Heng Hknown Hstate Hserv Hlist Hclos Honce Hctx Hapart]. destruct (Hctx wq w Hw) as [He Hl Hn Hi Hc].
  assert (Hown : own w = work_queue w ++ it :: fr) by (unfold own; by rewrite Hfr). rewrite Hown in Hl, Hn, Hi.
  assert (Hin : it ∈ work_queue w ++ it :: fr) by (apply elem_of_app; right; constructor). destruct (Hi it Hin) as [x Hx].
  assert (Hnw : it ∉ work_queue w) by (apply NoDup_app in Hn as (_ & Hd & _); intros Hit; apply (Hd it Hit); constructor).
  assert (Hnf : it ∉ fr) by (apply NoDup_app in Hn as (_ & _ & Hn); by apply NoDup_cons in Hn as [? _]).
  unfold add_work_enqueue, ctx_at. rewrite bind_assoc, run_gets, Hw, run_of_opt, Hfr. unfold item_at. rewrite bind_assoc, run_gets, Hx, run_of_opt.
  rewrite list_del_head, list_del_none by done. eexists. split; [reflexivity|].
  set (w' := w<| cmd := zero_cmd |><| config := (config w)<| update_flag := 0 |> |><| free_queue := fr |><| work_queue := work_queue w ++ [it] |>).
  match goal with |- ge2d_ok ph cl ?x b /\ _ => set (s' := x) end.
  assert (Ei : items s' = <[it := mk_item (cmd w) (config w)]> (items s)) by (unfold s'; by destruct s).
  assert (Ec : contexts s' = <[wq := w']> (contexts s)) by (unfold s', w'; destruct s; by destruct w).
  assert (Es : s' = s<| contexts := contexts s' |><| items := items s' |>) by (unfold s'; by destruct s). clearbody s'.
  assert (Hown' : own w' = own w) by (rewrite Hown; unfold own, w'; destruct w; cbn; by rewrite <- app_assoc).
  split; [|split_and!; [done|by rewrite Ec; unfold w'; destruct w|by rewrite Es; destruct s|by rewrite Es; destruct s]].
  assert (Ew : forall wq1 w1, contexts s' !! wq1 = Some w1 -> (wq1 = wq /\ w1 = w') \/ (wq1 <> wq /\ contexts s !! wq1 = Some w1)).
  { intros wq1 w1 G1. rewrite Ec in G1. apply lookup_insert_Some in G1 as [[<- <-]|[Hne1 G1]]; [by left|by right]. }
  assert (Eo : forall wq1 w1, contexts s' !! wq1 = Some w1 -> exists w0, contexts s !! wq1 = Some w0 /\ own w1 = own w0).
  { intros wq1 w1 G1. apply Ew in G1 as [[-> ->]|[_ G1]]; [by exists w|by exists w1]. }
  assert (El : last_wq s' = last_wq s) by (rewrite Es; by destruct s).
  split; try (rewrite Es; by destruct s).
  - intros wq1 it1 Hs1. destruct (Hserv wq1 it1 Hs1) as [Hcur Hnext]. split; [rewrite Es; by destruct s|].
    apply (next_set_up_frame s); [rewrite Es; by destruct s..| |done]. intros w1 rest x1 Hw1 Hq1 Hx1. rewrite Ei, Ec.
    assert (Hne : it1 <> it).
    { intros Eit. assert (Hin1 : it ∈ work_queue w1) by (rewrite Hq1, Eit; constructor). destruct (decide (wq1 = wq)) as [E1|Hne].
      - rewrite E1, Hw in Hw1. inversion Hw1; subst w1. done.
      - apply (Hapart wq1 w1 wq w it Hw1 Hw Hne); [unfold own; set_solver|by rewrite Hown]. }
    rewrite (lookup_insert_ne (items s)) by congruence. destruct (decide (wq1 = wq)) as [->|Hne1].
    + rewrite lookup_insert_eq. exists w', (rest ++ [it]). rewrite Hw in Hw1. inversion Hw1; subst w1. split; [done|]. split; [|done]. unfold w'. destruct w; cbn in *. by rewrite Hq1.
    + rewrite lookup_insert_ne by congruence. by exists w1, rest.
  - intros wq1. replace (process_queue s') with (process_queue s) by (rewrite Es; by destruct s). rewrite Hlist, Ec.
    destruct (decide (wq1 = wq)) as [->|Hq]; [rewrite lookup_insert_eq, Hw; split; intros [? ?]; split; done || by eexists|by rewrite lookup_insert_ne].
  - intros wq1 Hin1. rewrite Ec, lookup_insert_ne by (intros <-; done). by apply Hclos.
  - intros wq1 w1 G1. apply Ew in G1 as [[-> ->]|[Hq G1]].
    + split.
      * by destruct w.
      * by rewrite Hown', Hown.
      * by rewrite Hown', Hown.
      * intros a. rewrite Hown', Hown, Ei. intros Ha. destruct (decide (a = it)) as [->|Hne]; [rewrite lookup_insert_eq; by eexists|rewrite lookup_insert_ne by done; by apply Hi].
      * replace (work_queue w') with (work_queue w ++ [it]) by (by destruct w). rewrite work_of_app, (work_of_ext (items s)).
        -- replace (work_of (items s') [it]) with [mk_item (cmd w) (config w)] by (unfold work_of; cbn; by rewrite Ei, lookup_insert_eq).
           rewrite fmap_app. cbn [fmap list_fmap i_config]. replace (config w') with ((config w)<| update_flag := 0 |>) by (by destruct w). apply chain_snoc. unfold base_for. by rewrite El.
        -- intros a Ha. rewrite Ei. apply lookup_insert_ne. by intros <-.
    + eapply ctx_ok_frame; [by apply Hctx| |left; unfold base_for; by rewrite El]. intros a Ha. rewrite Ei. apply lookup_insert_ne. intros <-.
      apply (Hapart wq1 w1 wq w it); [done..|]. by rewrite Hown.
  - intros wq1 w1 wq2 w2 a G1 G2 Hq Ha. apply Eo in G1 as (w10 & G1 & E1), G2 as (w20 & G2 & E2). rewrite E1 in Ha. rewrite E2. by eapply (Hapart wq1 w10 wq2 w20).
Qed.

(** Adding work, on its two branches. *)
Lemma add_work_runs s b wq w : ge2d_ok ph cl s b -> contexts s !! wq = Some w -> wq ∉ cl -> 0 <= cmd_in_sem s ->
  match free_queue w with
  | [] => ge2d_wq_add_work wq s = Some ((-1, None), s)
  | it :: _ => exists s', ge2d_wq_add_work wq s = Some ((0, if c_true (wait_done_flag (cmd w)) then Some it else None), s') /\ ge2d_ok ph cl s' b /\
      is_Some (contexts s' !! wq) /\ waiting s' wq = waiting s wq ++ [mk_item (cmd w) (config w)] /\ (forall wq', wq' <> wq -> waiting s' wq' = waiting s wq') /\
      0 < cmd_in_sem s' /\ io s' = io s
  end.
Proof.
  intros Hok Hw Hcl Hsem. destruct (free_queue w) as [|it fr] eqn:Hfr.
  - unfold ge2d_wq_add_work, add_work_enqueue, ctx_at. by rewrite !bind_assoc, run_gets, Hw, run_of_opt, Hfr.
  - destruct (enqueue_runs s b wq w it fr Hok Hw Hcl Hfr) as (s1 & E & Hok1 & Ei & Ec & Em & Eio). unfold ge2d_wq_add_work. rewrite (run_bind _ _ _ _ _ E). clear E.
    set (s2 := if cmd_in_sem s1 =? 0 then s1<| cmd_in_sem := cmd_in_sem s1 + 1 |> else s1).
    assert (E2 : add_work_signal s1 = Some (tt, s2)) by (unfold add_work_signal, s2; rewrite run_gets; by destruct (cmd_in_sem s1 =? 0)).
    rewrite (run_bind _ _ _ _ _ E2). assert (Ei2 : items s2 = items s1) by (unfold s2; destruct (_ =? _); [by destruct s1|done]).
    unfold item_at. rewrite bind_assoc, run_gets, Ei2, Ei, lookup_insert_eq, run_of_opt. cbn [i_cmd]. exists s2.
    assert (Ec2 : contexts s2 = contexts s1) by (unfold s2; destruct (_ =? _); [by destruct s1|done]). split; [done|]. split; [|split; [|split; [|split; [|split]]]].
    + eapply (ok_same _ _ s1); [done|..]; unfold s2; destruct (_ =? _); (done || by destruct s1).
    + rewrite Ec2, Ec, lookup_insert_eq. by eexists.
    + unfold waiting. rewrite Ec2, Ec, lookup_insert_eq, Hw, Ei2. 
      match goal with |- work_of _ (work_queue ?x) = _ => replace (work_queue x) with (work_queue w ++ [it]) by (by destruct w) end. rewrite work_of_app. f_equal.
      * apply work_of_ext. intros a Ha. rewrite Ei. apply lookup_insert_ne. intros <-. destruct (ok_ctx _ _ _ _ Hok wq w Hw) as [_ _ Hn _ _]. unfold own in Hn.
        apply NoDup_app in Hn as (_ & Hd & _). apply (Hd it Ha). rewrite Hfr. constructor.
      * unfold work_of. cbn. by rewrite Ei, lookup_insert_eq.
    + intros wq' Hne. unfold waiting. rewrite Ec2, Ec, lookup_insert_ne, Ei2 by done. destruct (contexts s !! wq') as [w'|] eqn:Hw'; [|done]. apply work_of_ext.
      intros a Ha. rewrite Ei. apply lookup_insert_ne. intros <-. apply (ok_apart _ _ _ _ Hok wq' w' wq w it); [done..| |]; unfold own; rewrite ?Hfr; set_solver.
    + unfold s2. rewrite <- Em in Hsem. destruct (Z.eqb_spec (cmd_in_sem s1) 0); [change (0 < cmd_in_sem s1 + 1)|]; lia.
    + unfold s2. destruct (_ =? _); [by destruct s1|done].
Qed.

Lemma safe_add_work wq : safe wq (ge2d_wq_add_work wq).
Proof.
  intros s a s' [[b Hok] [Hn Hsig]] [w Hw] Hcl E. pose proof (add_work_runs s b wq w Hok Hw Hcl Hn) as Hr. destruct (free_queue w) as [|it fr].
  - rewrite Hr in E. inversion E; subst. split; [|by exists w]. split; [by exists b|done].
  - destruct Hr as (s1 & E1 & Hok1 & Hs1 & Hwait & _ & Hsem & _). rewrite E1 in E. inversion E; subst. split; [|done]. split; [by exists b|]. split; [lia|]. intros _ wq1 _. exact Hsem.
Qed.

(** *** The calls of a file *)

(** Every operation changes the command, and the configuration by marked steps, and adds
    the work. *)
Lemma operate_shape wq f g : (forall c, advance c (f c)) -> exists h, advances h /\ keeps h /\ operate wq f g = (_ ← on_ctx wq h; ge2d_wq_add_work wq : M _).
Proof.
  intros Hf. exists (fun w => on_cmd g (on_config f w)). split; [|split; [|done]].
  - apply (advances_comp (on_cmd g)); [apply on_cmd_advances|by apply on_config_advances].
  - apply (keeps_comp (on_cmd g)); [apply keeps_on_cmd|apply keeps_on_config].
Qed.
Lemma fillrect_shape wq r color block : exists h, advances h /\ keeps h /\ _fillrect wq r color block = (_ ← on_ctx wq h; ge2d_wq_add_work wq : M _).
Proof.
  eexists. split; [|split; [|reflexivity]].
  - apply (advances_comp ge2dgen_disable_matrix); [apply ge2dgen_disable_matrix_advances|]. apply (advances_comp (on_cmd _)); [apply on_cmd_advances|apply ge2dgen_src_color_advances].
  - apply (keeps_comp ge2dgen_disable_matrix); [apply keeps_on_config|]. apply (keeps_comp (on_cmd _)); [apply keeps_on_cmd|apply keeps_on_config].
Qed.
Lemma op_shape wq o p : exists h, advances h /\ keeps h /\ Ge2dMain.run_op wq o p = ('(_, it) ← (_ ← on_ctx wq h; ge2d_wq_add_work wq); mret it : M _).
Proof.
  assert (Hi : forall c, advance c (id c)) by apply advance_refl. pose proof noalpha_color_advance as Hc.
  assert (Hs : forall m : M (Z * option Z), (exists h, advances h /\ keeps h /\ m = (_ ← on_ctx wq h; ge2d_wq_add_work wq)) ->
    exists h, advances h /\ keeps h /\ ('(_, it) ← m; mret it) = ('(_, it) ← (_ ← on_ctx wq h; ge2d_wq_add_work wq); mret it : M _)) by (intros m (h & Ha & Hk & ->); by exists h).
  unfold Ge2dMain.run_op.
  destruct o; apply Hs; cbv delta [fillrect fillrect_noblk stretchblt stretchblt_noblk _stretchblt stretchblt_noalpha stretchblt_noalpha_noblk _stretchblt_noalpha
    bitblt bitblt_noblk _bitblt bitblt_noalpha bitblt_noalpha_noblk _bitblt_noalpha blend blend_noblk blend_noalpha blend_noalpha_noblk] beta;
    match goal with |- context [operate _ _ _] => apply operate_shape; assumption | |- context [_fillrect _ _ _ _] => apply fillrect_shape end.
Qed.
Lemma safe_run_op wq o p : safe wq (Ge2dMain.run_op wq o p).
Proof.
  destruct (op_shape wq o p) as (h & Ha & Hk & ->). apply safe_bind; [|intros [? ?]; apply safe_ret]. apply safe_bind; [by apply safe_on_ctx|]. intros _. apply safe_add_work.
Qed.
(** An operation on a full queue. *)
Lemma full_op_runs wq o p s w : contexts s !! wq = Some w -> free_queue w = [] -> exists h, keeps h /\
  Ge2dMain.run_op wq o p s = Some (None, s<| contexts := <[wq := h w]> (contexts s) |>).
Proof.
  intros Hw Hf. destruct (op_shape wq o p) as (h & _ & Hk & ->). exists h. split; [done|]. set (s1 := s<| contexts := <[wq := h w]> (contexts s) |>).
  assert (E1 : on_ctx wq h s = Some (tt, s1)) by (unfold on_ctx, ctx_at; by rewrite bind_assoc, run_gets, Hw, run_of_opt). rewrite bind_assoc, (run_bind _ _ _ _ _ E1).
  unfold ge2d_wq_add_work, add_work_enqueue, ctx_at. rewrite !bind_assoc, run_gets. change (contexts s1) with (<[wq := h w]> (contexts s)). rewrite lookup_insert_eq, run_of_opt.
  destruct (Hk w) as (_ & -> & _). by rewrite Hf.
Qed.

(** The plain request, where the engine takes addresses: it only sets. *)
Lemma config_sides_same d cfg c : canvas_status d = 1 -> (config_sides d cfg c).2 = c.
Proof.
  intros Hd. assert (Hb : forall ty l f t p, (build_side d ty l f t p c).2 = c).
  { intros ty l f t p. unfold build_side. generalize (p<| xres := s32 (pl_w (plane l 0)) |><| yres := s32 (pl_h (plane l 0)) |><| ge2d_color_index := s32 f |><| sd_bpp := bpp f |>).
    generalize (seq 0 MAX_PLANE). intros ns. induction ns as [|i ns IH]; intros q; [done|]. cbn [foldl]. unfold build_plane at 2. rewrite Hd. destruct (c_true _); apply IH. }
  unfold config_sides, build_ge2d_config. cbv zeta. destruct (_ || _ || _ || _); [done|]. destruct (_ || _).
  - pose proof (Hb AML_GE2D_SRC (c_src_planes cfg) (c_src_format cfg) (fun _ => 0%nat) zero_src_dst) as E. by destruct (build_side _ _ _ _ _ _ c) as [? ?].
  - destruct (_ =? ALLOC_ALLOC); [|done]. pose proof (Hb AML_GE2D_SRC (c_src_planes cfg) (c_src_format cfg) (fun _ => 0%nat) zero_src_dst) as E.
    destruct (build_side _ _ _ _ _ _ c) as [src c1]. cbn in E. subst c1. pose proof (Hb AML_GE2D_DST (c_dst_planes cfg) (c_dst_format cfg) (fun i => i) zero_src_dst) as E.
    by destruct (build_side _ _ _ _ _ _ c) as [dst c1].
Qed.
Definition config_setters (cfg : config_para_s) (src dst : src_dst_para_s) (wq : ge2d_context_s) : ge2d_context_s :=
  ge2dgen_dst_clip 0 0 (xres dst) (yres dst) DST_CLIP_MODE_INSIDE (ge2dgen_dst (sd_canvas_index dst) (ge2d_color_index dst) (sd_phy_addr dst) (sd_stride dst)
    (ge2dgen_const_color (c_alu_const_color cfg) (ge2dgen_src2_clip 0 0 (xres dst) (yres dst)
    (ge2dgen_src2 (sd_canvas_index dst) (ge2d_color_index dst) (sd_phy_addr dst) (sd_stride dst) (ge2dgen_src_clip 0 0 (xres src) (yres src)
    (ge2dgen_src (sd_canvas_index src) (ge2d_color_index src) (sd_phy_addr src) (sd_stride src) wq)))))).
Lemma config_setters_advances cfg src dst : advances (config_setters cfg src dst) /\ keeps (config_setters cfg src dst).
Proof.
  split.
  - intros w. unfold config_setters. do 6 (eapply advance_trans; [|first [apply ge2dgen_dst_clip_advances|apply ge2dgen_dst_advances|apply ge2dgen_const_color_advances|apply ge2dgen_src2_clip_advances|apply ge2dgen_src2_advances|apply ge2dgen_src_clip_advances]]).
    apply ge2dgen_src_advances.
  - unfold config_setters. repeat first [apply keeps_on_config | apply (keeps_comp (on_config _))].
Qed.
Lemma safe_do_config wq cfg s a s' : inv s -> is_Some (contexts s !! wq) -> wq ∉ cl -> canvas_status (ge2d_meson_dev s) = 1 -> do_config wq cfg s = Some (a, s') ->
  inv s' /\ is_Some (contexts s' !! wq).
Proof.
  intros Hi Hs Hcl Hd E. unfold do_config, dev in E. rewrite run_gets in E. bind_inv E as w s1 E1. unfold ctx_at in E1. rewrite run_gets in E1. apply of_opt_inv in E1 as [Hw ->].
  unfold ge2d_context_config in E. pose proof (config_sides_same _ cfg (config w) Hd) as Es. destruct (config_sides _ cfg (config w)) as [[src dst] c]. cbn in Es. subst c.
  replace (w<| config := config w |>) with w in E by (by destruct w). cbv zeta in E. fold (config_setters cfg src dst w) in E. bind_inv E as u s2 E2. inversion E; subst.
  destruct (config_setters_advances cfg src dst) as [Ha Hk]. apply (safe_on_ctx wq _ Ha Hk s u s'); [done|done|done|]. unfold on_ctx, ctx_at. by rewrite bind_assoc, run_gets, Hw, run_of_opt.
Qed.

(** All contexts of the list, one after the other. *)
Lemma antiflicker_runs enable l s u s' : inv s -> (forall a, a ∈ l -> is_Some (contexts s !! a)) ->
  foldl (fun m a => _ ← m; on_ctx a (ge2dgen_antiflicker enable)) (mret tt) l s = Some (u, s') ->
  inv s' /\ forall a, is_Some (contexts s !! a) -> is_Some (contexts s' !! a).
Proof.
  revert u s'. induction l as [|a l IH] using rev_ind; intros u s' Hi Hl E; [by inversion E; subst|]. rewrite foldl_app in E. cbn [foldl] in E. bind_inv E as u1 s1 E1.
  destruct (IH u1 s1 Hi) as [Hi1 Hs1]; [intros a' Ha; apply Hl; set_solver|done|].
  assert (Ha : is_Some (contexts s1 !! a)) by (apply Hs1, Hl; set_solver).
  assert (Hone : forall a', is_Some (contexts s1 !! a') -> inv s' /\ is_Some (contexts s' !! a')).
  { intros a' Ha'. by edestruct (safe_on_ctx' a a' (ge2dgen_antiflicker enable) (ge2dgen_antiflicker_advances enable) (keeps_on_config _) s1 u s') as (? & ? & _). }
  split; [by apply (Hone a)|]. intros a' Ha'. by apply Hone, Hs1.
Qed.
Lemma safe_antiflicker wq enable : safe wq (ge2d_antiflicker_enable enable).
Proof.
  intros s a s' Hi Hs Hcl E. unfold ge2d_antiflicker_enable in E. rewrite run_gets in E. bind_inv E as u s1 E1. inversion E; subst.
  destruct (antiflicker_runs enable (process_queue s) s u s' Hi) as [Hi' Hs']; [|done|split; [done|by apply Hs']]. intros a Ha. destruct Hi as [[b Hok] _]. by apply (ok_listed _ _ _ _ Hok) in Ha as [? _].
Qed.

(** A request in one of the extended forms was granted; a plain one is for an engine
    that takes addresses. *)
Definition sound_call (d : ge2d_device_data_s) (c : ge2d_cmd) (r : Z) : Prop :=
  match c with
  | GE2D_CONFIG _ _ | GE2D_CONFIG32 _ _ => canvas_status d = 1
  | GE2D_CONFIG_EX _ _ | GE2D_CONFIG_EX32 _ _ | GE2D_CONFIG_EX_ION _ _ | GE2D_CONFIG_EX32_ION _ _ | GE2D_CONFIG_EX_MEM _ _ | GE2D_CONFIG_EX32_MEM _ _ => r = 0
  | _ => True
  end.

Lemma ret_inv {A} (m : M A) (f : A -> Z * ge2d_reply * option Z) s x s' : (a ← m; mret (f a)) s = Some (x, s') -> exists a, m s = Some (a, s') /\ x = f a.
Proof. intros E. bind_inv E as a s1 E1. inversion E; subst. by exists a. Qed.
Lemma ioctl_ok sec tmp wq c s r reply it s' : inv s -> is_Some (contexts s !! wq) -> wq ∉ cl -> ge2d_ioctl sec tmp wq c s = Some (r, reply, it, s') ->
  sound_call (ge2d_meson_dev s) c r -> inv s' /\ is_Some (contexts s' !! wq).
Proof.
  intros Hi Hs Hcl E Hsound. unfold ge2d_ioctl in E. cbv zeta in E. destruct (sec && plain_config c); [by inversion E; subst|].
  assert (Hex : forall x, requests wq (ge2d_context_config_ex tmp wq x : M Z)) by (intros; apply config_ex_requests).
  assert (Hion : forall x, requests wq (ge2d_context_config_ex_ion tmp wq x : M Z)) by (intros; apply config_ex_ion_requests).
  assert (Hmem : forall x, requests wq (ge2d_context_config_ex_mem tmp wq x : M Z)) by (intros; apply config_ex_mem_requests).
  destruct c; cbn [sound_call] in Hsound.
  - by inversion E; subst.
  - apply ret_inv in E as (a & E & _). by eapply safe_do_config.
  - destruct failed; [by inversion E; subst|]. apply ret_inv in E as (a & E & _). by eapply safe_do_config.
  - apply ret_inv in E as (a & E & _). bind_inv E as u s1 E1. inversion E; subst. eapply (safe_on_ctx wq); [apply ge2dgen_src_key_advances|apply keeps_on_config|done|done|done|exact E1].
  - destruct failed; [by inversion E; subst|]. apply ret_inv in E as (a & E & _). bind_inv E as u s1 E1. inversion E; subst.
    eapply (safe_on_ctx wq); [apply ge2dgen_src_key_advances|apply keeps_on_config|done|done|done|exact E1].
  - apply ret_inv in E as (a & E & [= -> _ _]). subst. exact (granted_ok wq _ s s' (Hex _) Hi Hs E).
  - destruct failed; [by inversion E; subst|]. apply ret_inv in E as (a & E & [= -> _ _]). subst. exact (granted_ok wq _ s s' (Hex _) Hi Hs E).
  - apply ret_inv in E as (a & E & [= -> _ _]). subst. exact (granted_ok wq _ s s' (Hion _) Hi Hs E).
  - destruct failed; [by inversion E; subst|]. apply ret_inv in E as (a & E & [= -> _ _]). subst. exact (granted_ok wq _ s s' (Hion _) Hi Hs E).
  - apply ret_inv in E as (a & E & [= -> _ _]). subst. exact (granted_ok wq _ s s' (Hmem _) Hi Hs E).
  - apply ret_inv in E as (a & E & [= -> _ _]). subst. cbn [ge2d_ioctl_config_ex_mem] in E. destruct failed; [by inversion E; subst|]. exact (granted_ok wq _ s s' (Hmem _) Hi Hs E).
  - apply ret_inv in E as (a & E & _). bind_inv E as u s1 E1. inversion E; subst. eapply (safe_on_ctx wq); [apply ge2d_wq_set_scale_coef_advances|apply keeps_on_config|done|done|done|exact E1].
  - apply ret_inv in E as (a & E & _). bind_inv E as u s1 E1. inversion E; subst. by eapply safe_antiflicker.
  - bind_inv E as u s1 E1. destruct (safe_on_dma wq _ _ _ _ Hi Hs Hcl E1). by destruct u, (_ =? 0); inversion E; subst.
  - bind_inv E as u s1 E1. destruct (safe_on_dma wq _ _ _ _ Hi Hs Hcl E1). by destruct u, (_ =? 0); inversion E; subst.
  - apply ret_inv in E as (a & E & _). by eapply safe_on_dma.
  - apply ret_inv in E as (a & E & _). bind_inv E as u s1 E1. inversion E; subst. by eapply safe_on_dma.
  - apply ret_inv in E as (a & E & _). bind_inv E as u s1 E1. inversion E; subst. by eapply safe_on_dma.
  - by inversion E; subst.
  - by inversion E; subst.
  - by inversion E; subst.
  - bind_inv E as u s1 E1. inversion E; subst. by eapply safe_run_op.
  - by inversion E; subst.
Qed.

(** *** Opening and closing *)

Lemma on_dma_inv {A} (m : ST (S := dma_s K) A) s x s' : on_dma m s = Some (x, s') -> s' = s<| dma := dma s' |>.
Proof. unfold on_dma. destruct (m (dma s)) as [[a d]|]; [|done]. cbn. intros [= _ <-]. by destruct s. Qed.
Lemma kfree_inv a s x s' : kfree a s = Some (x, s') -> s' = s<| dma := dma s' |>.
Proof. apply on_dma_inv. Qed.
Lemma free_items_runs l s : NoDup l -> (forall a, a ∈ l -> is_Some (items s !! a)) ->
  exists s', free_items l s = Some (tt, s') /\ s' = s<| items := items s' |><| dma := dma s' |> /\
    (forall a, a ∈ l -> items s' !! a = None) /\ (forall a, a ∉ l -> items s' !! a = items s !! a).
Proof.
  revert s. induction l as [|a l IH]; intros s Hn Hs; cbn [free_items].
  - exists s. split; [done|]. split; [by destruct s|]. split; [intros a Ha; by apply not_elem_of_nil in Ha|done].
  - apply NoDup_cons in Hn as [Hna Hn]. destruct (Hs a) as [x Hx]; [constructor|]. unfold item_at. rewrite bind_assoc, run_gets, Hx, run_of_opt, run_modify.
    set (s1 := s<| items := delete a (items s) |>). destruct (kfree a s1) as [[u s2]|] eqn:Ek; [|done]. destruct u. rewrite (run_bind _ _ _ _ _ Ek).
    pose proof (kfree_inv _ _ _ _ Ek) as E2.
    assert (I2 : items s2 = delete a (items s)) by (rewrite E2; unfold s1; by destruct s).
    destruct (IH s2 Hn) as (s3 & E & E3 & D3 & K3).
    + intros a' Ha. rewrite I2, lookup_delete_ne by (intros <-; done). apply Hs. by constructor.
    + exists s3. split; [done|]. split; [|split].
      * rewrite E3, E2. unfold s1. by destruct s.
      * intros a' Ha. destruct (decide (a' ∈ l)) as [Hin|Hout]; [by apply D3|]. apply elem_of_cons in Ha as [->|Ha]; [|done]. by rewrite K3, I2, lookup_delete_eq.
      * intros a' Ha. apply not_elem_of_cons in Ha as [Hne Ha]. by rewrite K3, I2, lookup_delete_ne.
Qed.
Lemma elem_list_del a x l : x ∈ list_del a l <-> x <> a /\ x ∈ l.
Proof. unfold list_del. by rewrite list_elem_of_filter. Qed.

(** Without a context and its items. *)
Lemma freed_ok s s' b wq w : ge2d_ok ph cl s b -> contexts s !! wq = Some w -> ~ serves ph wq ->
  contexts s' = delete wq (contexts s) -> (forall a, a ∉ own w -> items s' !! a = items s !! a) ->
  s' = s<| process_queue := list_del wq (process_queue s) |><| contexts := contexts s' |><| items := items s' |><| dma := dma s' |> -> ge2d_ok ph (cl ∖ {[wq]}) s' b.
Proof.
  intros [Hchip Hrdy Heng Hknown Hstate Hserv Hlist Hclos Honce Hctx Hapart] Hw Hph C5 Kept Es.
  assert (Ew : forall wq1 w1, contexts s' !! wq1 = Some w1 -> wq <> wq1 /\ contexts s !! wq1 = Some w1) by (intros wq1 w1 G1; rewrite C5 in G1; by apply lookup_delete_Some).
  assert (Ekept : forall wq1 w1 a, contexts s' !! wq1 = Some w1 -> a ∈ own w1 -> items s' !! a = items s !! a).
  { intros wq1 w1 a G1 Ha. apply Ew in G1 as [Hne G1]. apply Kept. by apply (Hapart wq1 w1 wq w a); [..|congruence|]. }
  split; try (rewrite Es; by destruct s).
  - intros wq1 it Hs1. destruct (Hserv wq1 it Hs1) as [Hcur Hnext]. split; [rewrite Es; by destruct s|].
    assert (Hne : wq <> wq1) by (intros ->; apply Hph; by rewrite Hs1). apply (next_set_up_frame s); [rewrite Es; by destruct s..| |done].
    intros w1 rest x Hw1 Hq1 Hx1. assert (Hw1' : contexts s' !! wq1 = Some w1) by (by rewrite C5, lookup_delete_ne). exists w1, rest. split_and!; [done..|].
    rewrite (Ekept wq1 w1); [done|done|]. unfold own. rewrite Hq1. constructor.
  - intros wq1. replace (process_queue s') with (list_del wq (process_queue s)) by (rewrite Es; by destruct s).
    rewrite elem_list_del, Hlist, C5, lookup_delete_is_Some, elem_of_difference, elem_of_singleton. split; [intros (? & ? & ?); split_and!; [congruence|done|tauto]|].
    intros ((? & ?) & Hn). split_and!; [congruence|done|]. intros Hin. apply Hn. split; [done|congruence].
  - intros wq1 [Hin Hne]%elem_of_difference. rewrite elem_of_singleton in Hne. destruct (Hclos wq1 Hin) as (w1 & Hw1 & Hq1). exists w1. by rewrite C5, lookup_delete_ne by congruence.
  - replace (process_queue s') with (list_del wq (process_queue s)) by (rewrite Es; by destruct s). by apply NoDup_filter.
  - intros wq1 w1 G1. pose proof G1 as G1'. apply Ew in G1 as [Hne G1]. destruct (Hctx wq1 w1 G1) as [He Hl Hn Hi Hc].
    eapply (ctx_ok_frame _ s _ b b); [split; [|exact Hl|exact Hn|exact Hi|exact Hc]|intros a Ha; by apply (Ekept wq1 w1)|left; unfold base_for; rewrite Es; by destruct s].
    rewrite He. destruct (decide (wq1 ∈ cl)) as [Hin|Hout]; [rewrite decide_True by set_solver|rewrite decide_False by set_solver]; done.
  - intros wq1 w1 wq2 w2 a G1 G2. apply Ew in G1 as [_ G1], G2 as [_ G2]. by apply Hapart.
Qed.

(** The context leaves the list of the monitor, and its memory is freed: its items, all
    of them and no others. *)
Lemma destroy_finish_runs s b wq w : ge2d_ok ph cl s b -> contexts s !! wq = Some w -> ~ serves ph wq ->
  exists s', destroy_finish wq (s<| process_queue := list_del wq (process_queue s) |>) = Some (0, s') /\ ge2d_ok ph (cl ∖ {[wq]}) s' b /\ contexts s' = delete wq (contexts s) /\
    (forall a, a ∈ own w -> items s' !! a = None) /\ (forall a, a ∉ own w -> items s' !! a = items s !! a) /\
    cmd_in_sem s' = cmd_in_sem s /\ io s' = io s.
Proof.
  intros Hok Hw Hph. pose proof Hok as [Hchip Hrdy Heng Hknown Hstate Hserv Hlist Hclos Honce Hctx Hapart]. destruct (Hctx wq w Hw) as [He Hl Hn Hi Hc].
  set (s1 := s<| process_queue := list_del wq (process_queue s) |>). unfold destroy_finish, ctx_at. rewrite bind_assoc, run_gets.
  assert (Hw1 : contexts s1 !! wq = Some w) by (unfold s1; by destruct s). rewrite Hw1, run_of_opt.
  apply NoDup_app in Hn as (Nw & Nd & Nf). destruct (free_items_runs (work_queue w) s1 Nw) as (s2 & E2 & Es2 & D2 & K2).
  { intros a Ha. unfold s1. apply Hi. unfold own. set_solver. }
  rewrite (run_bind _ _ _ _ _ E2). destruct (free_items_runs (free_queue w) s2 Nf) as (s3 & E3 & Es3 & D3 & K3).
  { intros a Ha. rewrite K2 by (intros Hin; by apply (Nd a)). unfold s1. apply Hi. unfold own. set_solver. }
  rewrite (run_bind _ _ _ _ _ E3), run_modify. set (s4 := s3<| contexts := delete wq (contexts s3) |>).
  destruct (kfree wq s4) as [[[] s5]|] eqn:Ek; [|done]. rewrite (run_bind _ _ _ _ _ Ek). exists s5. split; [done|].
  pose proof (kfree_inv _ _ _ _ Ek) as E5.
  assert (Es : exists d5, s5 = s<| process_queue := list_del wq (process_queue s) |><| contexts := delete wq (contexts s) |><| items := items s3 |><| dma := d5 |>).
  { exists (dma s5). rewrite E5 at 1. unfold s4. rewrite Es3, Es2. unfold s1. by destruct s. }
  clear E5. destruct Es as [d5 Es].
  assert (I5 : items s5 = items s3) by (rewrite Es; by destruct s). assert (C5 : contexts s5 = delete wq (contexts s)) by (rewrite Es; by destruct s).
  assert (Kept : forall a, a ∉ own w -> items s5 !! a = items s !! a).
  { intros a Ha. unfold own in Ha. apply not_elem_of_app in Ha as [Ha1 Ha2]. rewrite I5, K3, K2 by done. unfold s1. by destruct s. }
  assert (Gone : forall a, a ∈ own w -> items s5 !! a = None).
  { intros a Ha. rewrite I5. destruct (decide (a ∈ free_queue w)) as [Hf|Hf]; [by apply D3|]. rewrite K3 by done. apply D2. unfold own in Ha. set_solver. }
  split; [|split_and!; [done..|rewrite Es; by destruct s|rewrite Es; by destruct s]]. clear E2 E3 Ek.
  eapply freed_ok; [exact Hok|exact Hw|exact Hph|exact C5|exact Kept|rewrite Es; by destruct s].
Qed.

(** Closing a file whose context is not being served. *)
Lemma ge2d_release_runs n s b wq w : ge2d_ok ph cl s b -> contexts s !! wq = Some w -> ~ serves ph wq -> wq ∉ cl ->
  exists s', ge2d_release (Some wq) n s = Some ((0, s32 (n - 1)), s') /\ ge2d_ok ph cl s' b /\ contexts s' = delete wq (contexts s) /\
    (forall a, a ∈ own w -> items s' !! a = None) /\ (forall a, a ∉ own w -> items s' !! a = items s !! a) /\
    cmd_in_sem s' = cmd_in_sem s /\ io s' = io s.
Proof.
  intros Hok Hw Hph Hcl. destruct (destroy_finish_runs s b wq w Hok Hw Hph) as (s' & E & Hok' & Hrest). replace (cl ∖ {[wq]}) with cl in Hok' by set_solver.
  exists s'. split; [|by split]. unfold ge2d_release, destroy_ge2d_work_queue. rewrite bind_assoc. unfold destroy_begin. rewrite bind_assoc, run_modify, bind_assoc, run_gets.
  set (s1 := s<| process_queue := list_del wq (process_queue s) |>) in *.
  assert (Hno : bool_decide (current_wq s1 = Some wq) && (ge2d_state s1 =? GE2D_STATE_RUNNING) = false).
  { change (ge2d_state s1) with (ge2d_state s). change (current_wq s1) with (current_wq s). rewrite (ok_state _ _ _ _ Hok). destruct ph as [| |wq1 it1] eqn:Eph; [apply andb_false_r..|].
    destruct (ok_serving _ _ _ _ Hok wq1 it1 eq_refl) as [-> _]. rewrite bool_decide_false; [done|]. intros [= ->]. by apply Hph. }
  rewrite Hno, run_ret. cbn [when]. by rewrite bind_assoc, run_ret, (run_bind _ _ _ _ _ E).
Qed.

(** Closing the one that is: it leaves the list and is told to end, and its owner
    waits. *)
Lemma closing_runs s b wq it w : ge2d_ok ph cl s b -> contexts s !! wq = Some w -> ph = Serving wq it -> wq ∉ cl ->
  exists s', destroy_begin wq s = Some (true, s') /\ ge2d_ok ph ({[wq]} ∪ cl) s' b /\
    s' = s<| process_queue := list_del wq (process_queue s) |><| contexts := <[wq := w<| ge2d_request_exit := 1 |>]> (contexts s) |>.
Proof.
  intros Hok Hw Hph Hcl. pose proof Hok as [Hchip Hrdy Heng Hknown Hstate Hserv Hlist Hclos Honce Hctx Hapart]. destruct (Hserv wq it Hph) as [Hcur Hnext].
  unfold destroy_begin. rewrite run_modify, run_gets. set (s1 := s<| process_queue := list_del wq (process_queue s) |>).
  assert (Hyes : bool_decide (current_wq s1 = Some wq) && (ge2d_state s1 =? GE2D_STATE_RUNNING) = true).
  { change (ge2d_state s1) with (ge2d_state s). change (current_wq s1) with (current_wq s). rewrite Hstate, Hph, Hcur. by rewrite bool_decide_true. }
  rewrite Hyes. unfold on_ctx, ctx_at. rewrite !bind_assoc, run_gets. change (contexts s1) with (contexts s). rewrite Hw, run_of_opt. unfold put_ctx. rewrite run_modify.
  set (w' := w<| ge2d_request_exit := 1 |>). eexists. split; [reflexivity|]. split; [|by destruct s]. set (s' := s1<| contexts := _ |>).
  assert (Cx : contexts s' = <[wq := w']> (contexts s)) by done. assert (Hown : own w' = own w) by (by destruct w). assert (Hwq : work_queue w' = work_queue w) by (by destruct w).
  assert (Ew : forall wq1 w1, contexts s' !! wq1 = Some w1 -> exists w0, contexts s !! wq1 = Some w0 /\ own w1 = own w0 /\ work_queue w1 = work_queue w0).
  { intros wq1 w1 G1. rewrite Cx in G1. apply lookup_insert_Some in G1 as [[<- <-]|[_ G1]]; [by exists w|by exists w1]. }
  split; try done.
  - intros wq1 it1 Hs1. destruct (Hserv wq1 it1 Hs1) as [Hcur1 Hnext1]. split; [done|]. apply (next_set_up_frame s); [done..| |done]. intros w1 rest x Hw1 Hq1 Hx1.
    rewrite Cx. destruct (decide (wq1 = wq)) as [->|Hne]; [rewrite lookup_insert_eq; exists w', rest; rewrite Hwq; by replace w with w1 by congruence|rewrite lookup_insert_ne by done; by exists w1, rest].
  - intros wq1. change (process_queue s') with (list_del wq (process_queue s)). rewrite elem_list_del, Hlist, Cx, elem_of_union, elem_of_singleton.
    destruct (decide (wq1 = wq)) as [->|Hne]; [split; [by intros [? _]|intros [_ Hn]; exfalso; apply Hn; by left]|rewrite lookup_insert_ne by done; tauto].
  - intros wq1 [->%elem_of_singleton|Hin]%elem_of_union; [exists w'; rewrite Cx, lookup_insert_eq; split; [done|]; intros Hn; by rewrite Hph in Hn|]. destruct (Hclos wq1 Hin) as (w1 & Hw1 & Hq1).
    exists w1. rewrite Cx, lookup_insert_ne by (intros <-; done). done.
  - change (process_queue s') with (list_del wq (process_queue s)). by apply NoDup_filter.
  - intros wq1 w1 G1. rewrite Cx in G1. apply lookup_insert_Some in G1 as [[<- <-]|[Hne1 G1]].
    + destruct (Hctx wq w Hw) as [He Hl Hn Hi Hc]. split; [rewrite decide_True by set_solver; by destruct w|by rewrite Hown..|by rewrite Hwq; destruct w].
    + destruct (Hctx wq1 w1 G1) as [He Hl Hn Hi Hc]. split; [|done..]. rewrite He. destruct (decide (wq1 ∈ cl)) as [Hin|Hout]; [rewrite decide_True by set_solver|rewrite decide_False by set_solver]; done.
  - intros wq1 w1 wq2 w2 a G1 G2 Hq. destruct (Ew wq1 w1 G1) as (w10 & G10 & -> & _), (Ew wq2 w2 G2) as (w20 & G20 & -> & _). by apply (Hapart wq1 w10 wq2 w20).
Qed.

(** The end of the wait, with the context no longer served: it is freed. *)
Lemma closed_runs s b wq w : ge2d_ok ph cl s b -> contexts s !! wq = Some w -> ~ serves ph wq -> wq ∈ cl ->
  exists s', (_ ← destroy_waited; destroy_finish wq) s = Some (0, s') /\ (exists b', ge2d_ok ph (cl ∖ {[wq]}) s' b') /\ contexts s' = delete wq (contexts s) /\
    (forall a, a ∈ own w -> items s' !! a = None) /\ (forall a, a ∉ own w -> items s' !! a = items s !! a) /\ cmd_in_sem s' = cmd_in_sem s /\ io s' = io s.
Proof.
  intros Hok Hw Hph Hcl. set (s1 := (if 0 <? process_complete s then s<| process_complete := process_complete s - 1 |> else s)<| last_wq := None |>).
  assert (E1 : destroy_waited s = Some (tt, s1)) by (unfold destroy_waited, s1; rewrite run_gets; by destruct (0 <? process_complete s)).
  assert (Hok1 : ge2d_ok ph cl s1 b).
  { assert (Es : exists n, s1 = s<| process_complete := n |><| last_wq := None |>) by (unfold s1; destruct (0 <? _); [by eexists|exists (process_complete s); by destruct s]). clearbody s1. destruct Es as [n ->].
    destruct Hok as [Hchip Hrdy Heng Hknown Hstate Hserv Hlist Hclos Honce Hctx Hapart]. split; try (by destruct s).
    - intros _ [? Hx]. by destruct s.
    - intros wq1 w1 G1. eapply (ctx_ok_frame cl s _ b b); [apply Hctx; by destruct s|by destruct s|right]. unfold base_for. by rewrite decide_False by (by destruct s). }
  assert (Eq : s1<| process_queue := list_del wq (process_queue s1) |> = s1).
  { rewrite list_del_none; [by destruct s1|]. rewrite (ok_listed _ _ _ _ Hok1). by intros [_ ?]. }
  assert (Es : contexts s1 = contexts s /\ items s1 = items s /\ cmd_in_sem s1 = cmd_in_sem s /\ io s1 = io s) by (unfold s1; destruct (0 <? _); by destruct s). destruct Es as (Ec & Ei & Em & Eio).
  destruct (destroy_finish_runs s1 b wq w Hok1) as (s' & E & Hok' & Hrest); [by rewrite Ec|done|]. rewrite Eq in E. rewrite Ec, Ei, Em, Eio in Hrest.
  exists s'. split; [by rewrite (run_bind _ _ _ _ _ E1)|]. split; [by exists b|done].
Qed.

Lemma alloc_items_spec n s l s' : alloc_items n s = Some (l, s') -> length l = n /\ (exists d, s' = s<| items := items s' |><| dma := d |>) /\
  (forall a, a ∈ l -> items s' !! a = Some zero_item) /\ (forall a, a ∉ l -> items s' !! a = items s !! a).
Proof.
  revert s l s'. induction n as [|n IH]; intros s l s' E; cbn [alloc_items] in E.
  - inversion E; subst. split; [done|]. split; [exists (dma s'); by destruct s'|]. split; [intros a Ha; by apply not_elem_of_nil in Ha|done].
  - bind_inv E as o s1 E1. apply on_dma_inv in E1. bind_inv E as a s2 E2. apply of_opt_inv in E2 as [-> ->]. unfold put_item in E. rewrite run_modify in E.
    set (s2 := s1<| items := <[a := zero_item]> (items s1) |>) in *. bind_inv E as l2 s3 E3. inversion E; subst l s'. destruct (IH s2 l2 s3 E3) as (Hl & (d & Es) & Hin & Hout).
    assert (I2 : items s2 = <[a := zero_item]> (items s)) by (unfold s2; rewrite E1; by destruct s). split; [by rewrite <- Hl|]. split; [|split].
    + exists d. rewrite Es at 1. unfold s2. rewrite E1. by destruct s, s1.
    + intros a' Ha. destruct (decide (a' ∈ l2)) as [Hi|Ho]; [by apply Hin|]. apply elem_of_cons in Ha as [->|Ha]; [|done]. by rewrite Hout, I2, lookup_insert_eq.
    + intros a' Ha. apply not_elem_of_cons in Ha as [Hne Ha]. by rewrite Hout, I2, lookup_insert_ne.
Qed.

(** What the kernel gives is not in use, and the context is not where the one that was
    served last has been. *)
Definition fresh_context s (wq : Z) w : Prop :=
  contexts s !! wq = None /\ last_wq s <> Some wq /\ NoDup (own w) /\ forall a, a ∈ own w -> items s !! a = None.
Lemma ret1_inv {A} (a x : A) s s' : (mret a : M A) s = Some (x, s') -> a = x /\ s = s'.
Proof. by intros [= -> ->]. Qed.
Lemma open_ok n s b wq n' s' : ge2d_ok ph cl s b -> ge2d_open n s = Some ((0, Some wq, n'), s') -> exists w,
  contexts s' = <[wq := w]> (contexts s) /\ cmd_in_sem s' = cmd_in_sem s /\ work_queue w = [] /\ (fresh_context s wq w -> ge2d_ok ph cl s' b).
Proof.
  intros [Hchip Hrdy Heng Hknown Hstate Hserv Hlist Hclos Honce Hctx Hapart] E. unfold ge2d_open in E. bind_inv E as o s1 E1. destruct o as [wq1|]; [|done]. inversion E; subst wq1 n' s1. clear E.
  unfold create_ge2d_work_queue in E1. rewrite run_gets in E1. destruct (negb (c_true (probe s))); [by inversion E1|]. bind_inv E1 as o s1 E2. apply on_dma_inv in E2. bind_inv E1 as wq1 s2 E3.
  apply of_opt_inv in E3 as [-> ->]. bind_inv E1 as l s2 E3. destruct (alloc_items_spec _ _ _ _ E3) as (Hl & (d & Es) & Hin & Hout). clear E3. unfold put_ctx in E1. rewrite !run_modify in E1.
  set (w := zero_context<| config := zero_config<| h_scale_coef_type := FILTER_TYPE_BILINEAR |><| v_scale_coef_type := FILTER_TYPE_BILINEAR |> |><| free_queue := l |>) in *.
  assert (I1 : forall a, items s1 !! a = items s !! a) by (intros a; rewrite E2; by destruct s). assert (Ed : exists d1, s1 = s<| dma := d1 |>) by (by eexists). clear E2. destruct Ed as [d1 ->].
  assert (Em : exists m, s2 = s<| items := m |><| dma := d |>) by (exists (items s2); rewrite Es at 1; by destruct s). clear Es. destruct Em as [m ->].
  apply ret1_inv in E1 as [[= ->] Ex]. set (s2 := s<| items := m |><| dma := d |>) in *.
  assert (Es : s' = s<| items := items s2 |><| dma := d |><| contexts := <[wq := w]> (contexts s) |><| process_queue := process_queue s ++ [wq] |>) by (rewrite <- Ex; by destruct s).
  clear Ex. clearbody s2. exists w.
  assert (Ec : contexts s' = <[wq := w]> (contexts s)) by (rewrite Es; by destruct s). assert (Ei : items s' = items s2) by (rewrite Es; by destruct s).
  split; [done|]. split; [rewrite Es; by destruct s|]. split; [done|]. intros (Hn & Hlast & Hd & Hfree).
  assert (Hown : own w = l) by done.
  assert (Ew : forall wq1 w1, contexts s' !! wq1 = Some w1 -> (wq1 = wq /\ w1 = w) \/ (wq1 <> wq /\ contexts s !! wq1 = Some w1 /\ forall a, a ∈ own w1 -> is_Some (items s !! a))).
  { intros wq1 w1 G1. rewrite Ec in G1. apply lookup_insert_Some in G1 as [[<- <-]|[Hne1 G1]]; [by left|right]. split; [done|]. split; [done|]. by apply (Hctx wq1 w1 G1). }
  assert (Hnew : forall a, is_Some (items s !! a) -> a ∉ own w) by (intros a [x Hx] Ha; rewrite Hfree in Hx by done; done).
  assert (Hnp : wq ∉ process_queue s) by (rewrite Hlist, Hn; by intros [[? ?] ?]).
  assert (Hcl : wq ∉ cl) by (intros Hic; destruct (Hclos wq Hic) as (w1 & Hw1 & _); by rewrite Hn in Hw1).
  split; try (rewrite Es; by destruct s).
  - intros wq1 it Hs1. destruct (Hserv wq1 it Hs1) as [Hcur Hnext]. split; [rewrite Es; by destruct s|].
    apply (next_set_up_frame s); [rewrite Es; by destruct s..| |done]. intros w1 rest x Hw1 Hq1 Hx1. exists w1, rest. rewrite Ec, lookup_insert_ne by (intros ->; congruence).
    split_and!; [done..|]. rewrite Ei, Hout by (rewrite <- Hown; apply Hnew; by eexists). by rewrite I1.
  - intros wq1. replace (process_queue s') with (process_queue s ++ [wq]) by (rewrite Es; by destruct s). rewrite elem_of_app, list_elem_of_singleton, Hlist, Ec.
    destruct (decide (wq1 = wq)) as [->|Hq]; [rewrite lookup_insert_eq; split; [intros _; split; [by eexists|done]|by right]|rewrite lookup_insert_ne by done; split; [by intros [?|?]|by left]].
  - intros wq1 Hin1. rewrite Ec, lookup_insert_ne by (intros <-; done). by apply Hclos.
  - replace (process_queue s') with (process_queue s ++ [wq]) by (rewrite Es; by destruct s). apply NoDup_app. split; [done|]. split; [|apply NoDup_singleton]. intros a Ha ->%list_elem_of_singleton. done.
  - intros wq1 w1 G1. apply Ew in G1 as [[-> ->]|(Hq & G1 & Hs1)].
    + split; [by rewrite decide_False|by rewrite Hown|done| |].
      * intros a Ha. rewrite Ei. eexists. by apply Hin.
      * unfold base_for. rewrite decide_False by (rewrite Es; by destruct s). cbn. lia.
    + eapply ctx_ok_frame; [by apply Hctx| |left; unfold base_for; rewrite Es; by destruct s]. intros a Ha. rewrite Ei, Hout; [by apply I1|]. rewrite <- Hown. by apply Hnew, Hs1.
  - intros wq1 w1 wq2 w2 a G1 G2 Hq Ha. apply Ew in G1 as [[-> ->]|(Hq1 & G1 & Hs1)], G2 as [[-> ->]|(Hq2 & G2 & Hs2)].
    + done.
    + intros Ha2. by apply (Hnew a (Hs2 a Ha2)).
    + by apply Hnew, Hs1.
    + by apply (Hapart wq1 w1 wq2 w2).
Qed.
End Calls.
End Spec.
