(* ===== verification/Ge2dSteps.v ===== *)
(** * The monitor of the 2D engine, step by step

    [monitor_turn] in pieces: waking up, choosing a context, one command of it, going
    back to sleep.  Calls of files may come between any two of them.  Each piece runs
    from the invariant of [Ge2dInv] and keeps it, and a turn is made of them. *)

From stdpp Require Import base numbers list option gmap relations.
From coqutil Require Import Datatypes.RecordSetters.
From S2P Require Import Prelude StateM Canvas Ge2dReg Ge2dStruct Ge2dHw Ge2dGen Ge2dDma Ge2dWq Ge2dConfig Ge2dBlt Ge2dMain Ge2dProgram Ge2dCommand Ge2dProcess Ge2dClients Ge2dInv.

Section Steps.
Context {H K C : Type} `{GeBusLaws H} `{GeTime H} `{!GeLaunch H} `{!GeTimeLaws H} `{GePower H} `{!GePowerLaws H} `{DmaKernel K} `{!Ion K} `{MesonCanvas C}.
Notation M := (ST (S := ge2d_s H K C)).
Implicit Types (s : ge2d_s H K C) (w : ge2d_context_s).

(** The next piece of the monitor, and where it is then. *)
Definition monitor_step (fn wn : nat) (ph : phase) : M phase :=
  match ph with
  | Asleep =>
      n ← gets cmd_in_sem;
      _ ← of_opt (if 0 <? n then Some tt else None);
      _ ← modify (fun s => s<| cmd_in_sem := cmd_in_sem s - 1 |>);
      _ ← ge2d_pwr_config true; mret Awake
  | Awake =>
      o ← get_next_work_queue;
      _ ← modify (fun s => s<| current_wq := o |>);
      match o with
      | None =>
          en ← gets (fun s => ge2d_dump_reg_enable (io s));
          _ ← when (negb (c_true en)) (ge2d_pwr_config false); mret Asleep
      | Some wq =>
          first ← process_begin wq;
          match first with None => _ ← process_exit wq; mret Awake | Some it => mret (Serving wq it) end
      end
  | Serving wq it =>
      pos ← one_item fn wn wq it;
      match pos with
      | Some it => mret (Serving wq it)
      | None => _ ← modify (fun s => s<| last_wq := Some wq |>); _ ← process_exit wq; mret Awake
      end
  end.
Definition monitor_steps (fn wn : nat) : relation (phase * ge2d_s H K C) :=
  rtc (fun x y => monitor_step fn wn x.1 x.2 = Some (y.1, y.2)).

(** ** A turn is made of steps *)

Lemma step_then fn wn ph s ph1 s1 y : monitor_step fn wn ph s = Some (ph1, s1) -> monitor_steps fn wn (ph1, s1) y -> monitor_steps fn wn (ph, s) y.
Proof. intros E Hr. by apply (rtc_l _ _ (ph1, s1)). Qed.
Lemma loop_steps n fn wn wq it s s1 s2 : process_loop n fn wn wq it s = Some (tt, s1) -> process_exit wq (s1<| last_wq := Some wq |>) = Some (tt, s2) ->
  monitor_steps fn wn (Serving wq it, s) (Awake, s2).
Proof.
  revert it s. induction n as [|n IH]; intros it s E Ex; [done|]. rewrite process_loop_step in E. bind_inv E as pos s3 E3. destruct pos as [it2|].
  - eapply step_then; [cbn [monitor_step]; rewrite (run_bind _ _ _ _ _ E3); reflexivity|]. by apply IH.
  - inversion E; subst s3. eapply step_then; [|apply rtc_refl]. cbn [monitor_step]. by rewrite (run_bind _ _ _ _ _ E3), run_modify, (run_bind _ _ _ _ _ Ex).
Qed.
Lemma drain_steps n f1 fn wn s s1 s2 : monitor_drain n f1 fn wn s = Some (tt, s1) ->
  (en ← gets (fun s => ge2d_dump_reg_enable (io s)); when (negb (c_true en)) (ge2d_pwr_config false)) s1 = Some (tt, s2) -> monitor_steps fn wn (Awake, s) (Asleep, s2).
Proof.
  revert s. induction n as [|n IH]; intros s E E2; [done|]. cbn [monitor_drain] in E. bind_inv E as o s3 E3. rewrite run_modify in E. set (s4 := s3<| current_wq := o |>) in *. destruct o as [wq|].
  - bind_inv E as u s5 E5. unfold ge2d_process_work_queue in E5. bind_inv E5 as w s6 E6. unfold ctx_at in E6. rewrite run_gets in E6. apply of_opt_inv in E6 as [_ ->]. bind_inv E5 as first s7 E7.
    transitivity (Awake, s5); [|by apply IH]. destruct first as [it|].
    + bind_inv E5 as u6 s8 E8. rewrite run_modify in E5. bind_inv E5 as u7 s9 E9. inversion E5; subst s9. destruct u6, u7.
      eapply step_then; [cbn [monitor_step]; rewrite (run_bind _ _ _ _ _ E3), run_modify; fold s4; rewrite (run_bind _ _ _ _ _ E7); reflexivity|]. by eapply loop_steps.
    + bind_inv E5 as u6 s8 E8. inversion E5; subst s8. destruct u6. eapply step_then; [|apply rtc_refl].
      cbn [monitor_step]. rewrite (run_bind _ _ _ _ _ E3), run_modify. fold s4. by rewrite (run_bind _ _ _ _ _ E7), (run_bind _ _ _ _ _ E8).
  - inversion E; subst s1. eapply step_then; [|apply rtc_refl]. cbn [monitor_step]. rewrite (run_bind _ _ _ _ _ E3), run_modify. fold s4. rewrite run_gets in E2. rewrite run_gets. by rewrite (run_bind _ _ _ _ _ E2).
Qed.
Lemma turn_steps n f1 fn wn s s' : monitor_turn n f1 fn wn s = Some (tt, s') -> monitor_steps fn wn (Asleep, s) (Asleep, s').
Proof.
  intros E. unfold monitor_turn in E. rewrite run_gets in E. bind_inv E as u s1 E1. rewrite run_modify in E. bind_inv E as u2 s2 E2. bind_inv E as u3 s3 E3. destruct u3.
  eapply step_then; [|by eapply drain_steps]. cbn [monitor_step]. rewrite run_gets, (run_bind _ _ _ _ _ E1), run_modify. by rewrite (run_bind _ _ _ _ _ E2).
Qed.

(** ** Waking up and going to sleep *)

Lemma ok_resting ph ph' cl s b : resting ph -> resting ph' -> ge2d_ok ph cl s b -> ge2d_ok ph' cl s b.
Proof.
  intros Hr Hr' [Hchip Hrdy Heng Hknown Hstate Hserv Hlist Hclos Honce Hctx Hapart]. split; try done.
  - intros _. by apply Hknown.
  - by destruct ph, ph'.
  - by intros wq it ->.
  - intros wq Hin. destruct (Hclos wq Hin) as (w & Hw & Hq). exists w. split; [done|]. intros _. apply Hq. destruct ph; [by intros []..|done].
Qed.
Lemma wake_runs fn wn cl s b : ge2d_ok Asleep cl s b -> 0 < cmd_in_sem s ->
  exists s', monitor_step fn wn Asleep s = Some (Awake, s') /\ ge2d_ok Awake cl s' b /\ s' = s<| cmd_in_sem := cmd_in_sem s - 1 |><| io := io s' |> /\
    launched (hw (io s')) = launched (hw (io s)).
Proof.
  intros Hok Hsem. cbn [monitor_step]. rewrite run_gets, (proj2 (Z.ltb_lt 0 (cmd_in_sem s))), run_of_opt, run_modify by done. set (s1 := s<| cmd_in_sem := cmd_in_sem s - 1 |>).
  assert (Hok1 : ge2d_ok Asleep cl s1 b) by (eapply (ok_same _ _ s); [done|..]; by destruct s).
  destruct (pwr_runs Asleep cl I s1 b true Hok1) as (s2 & E2 & O2 & Hok2 & L2). rewrite (run_bind _ _ _ _ _ E2). exists s2. split; [done|]. split; [by apply (ok_resting Asleep)|done].
Qed.
Lemma sleep_runs fn wn cl s b : ge2d_ok Awake cl s b -> backlog s = [] ->
  exists s', monitor_step fn wn Awake s = Some (Asleep, s') /\ ge2d_ok Asleep cl s' b /\ s' = s<| current_wq := None |><| io := io s' |> /\
    launched (hw (io s')) = launched (hw (io s)).
Proof.
  intros Hok Hb. cbn [monitor_step]. pose proof (next_runs Awake cl s b Hok) as En. rewrite Hb in En. rewrite (run_bind _ _ _ _ _ En), run_modify, run_gets.
  set (s1 := s<| current_wq := None |>). assert (Hok1 : ge2d_ok Awake cl s1 b) by (eapply (ok_same _ _ s); [done|..]; by destruct s). destruct (c_true _); cbn [negb when].
  - rewrite run_ret. exists s1. split; [done|]. split; [by apply (ok_resting Awake)|by destruct s].
  - destruct (pwr_runs Awake cl I s1 b false Hok1) as (s2 & E2 & O2 & Hok2 & L2). rewrite (run_bind _ _ _ _ _ E2). exists s2. split; [done|]. split; [by apply (ok_resting Awake)|done].
Qed.

(** ** Choosing a context *)

(** An item with other marks. *)
Definition marked (f : Z) (x : ge2d_queue_item_s) : ge2d_queue_item_s := x<| i_config := (i_config x)<| update_flag := f |> |>.
Lemma marked_own x : marked (update_flag (i_config x)) x = x.
Proof. by destruct x as [k []]. Qed.

(** The first item is marked anew, which is all that changes for the contexts. *)
Lemma begin_ok cl s b wq w it rest x f : ge2d_ok Awake cl s b -> current_wq s = Some wq -> wq ∉ cl -> contexts s !! wq = Some w -> work_queue w = it :: rest -> items s !! it = Some x ->
  set_up s (i_config (marked f x)) -> (last_wq s = Some wq -> marked f x = x) ->
  ge2d_ok (Serving wq it) cl (s<| ge2d_state := GE2D_STATE_RUNNING |><| items := <[it := marked f x]> (items s) |>) b.
Proof.
  intros [Hchip Hrdy Heng Hknown Hstate Hserv Hlist Hclos Honce Hctx Hapart] Hcur Hcl Hw Hq Hx Hup Hlast.
  set (s1 := s<| ge2d_state := GE2D_STATE_RUNNING |><| items := <[it := marked f x]> (items s) |>).
  assert (Hit : it ∈ own w) by (unfold own; rewrite Hq; constructor). split; try done.
  - intros wq1 it1 [= <- <-]. split; [done|]. exists w, rest, (marked f x). split_and!; [done|done|by apply lookup_insert_eq|done].
  - intros wq1 Hin. destruct (Hclos wq1 Hin) as (w1 & Hw1 & Hq1). exists w1. split; [done|]. intros _. apply Hq1. by intros [].
  - intros wq1 w1 G1. destruct (decide (wq1 = wq)) as [->|Hne].
    + assert (E1 : w1 = w) by (change (contexts s1) with (contexts s) in G1; congruence). subst w1. destruct (Hctx wq w Hw) as [He Hl Hn Hi Hc]. split; [done..| |].
      * intros a Ha. change (items s1) with (<[it := marked f x]> (items s)). destruct (decide (a = it)) as [->|Hna]; [rewrite lookup_insert_eq; by eexists|rewrite lookup_insert_ne by done; by apply Hi].
      * rewrite Hq in Hc |- *. unfold work_of in Hc |- *. cbn [omap list_omap] in Hc |- *. rewrite Hx in Hc. change (items s1) with (<[it := marked f x]> (items s)). rewrite lookup_insert_eq.
        assert (Er : omap (fun a => <[it := marked f x]> (items s) !! a) rest = omap (fun a => items s !! a) rest).
        { apply (work_of_ext (items s)). intros a Ha. apply lookup_insert_ne. intros <-. unfold own in Hn. rewrite Hq in Hn. apply NoDup_cons in Hn as [Hni _]. apply Hni, elem_of_app. by left. }
        rewrite Er. cbn [fmap list_fmap] in Hc |- *. change (base_for s1 wq b) with (base_for s wq b). unfold base_for in Hc |- *. destruct (decide (last_wq s = Some wq)) as [El|Nl]; [by rewrite (Hlast El)|].
        destruct Hc as [Hf Hc]. split; [by destruct Hup|]. destruct x as [k c]. by apply chain_flag.
    + eapply (ctx_ok_frame cl s _ b b); [by apply Hctx| |by left]. intros a Ha. apply lookup_insert_ne. intros <-. by apply (Hapart wq1 w1 wq w it).
Qed.

Lemma pick_runs fn wn cl s b a l : ge2d_ok Awake cl s b -> backlog s = a :: l ->
  exists it s' x f, monitor_step fn wn Awake s = Some (Serving a it, s') /\ ge2d_ok (Serving a it) cl s' b /\
    items s !! it = Some x /\
    s' = s<| process_queue := rotate a (process_queue s) |><| current_wq := Some a |><| ge2d_state := GE2D_STATE_RUNNING |><| items := <[it := marked f x]> (items s) |>.
Proof.
  intros Hok Hb. cbn [monitor_step]. pose proof (next_runs Awake cl s b Hok) as En. rewrite Hb in En. rewrite (run_bind _ _ _ _ _ En), run_modify.
  set (s1 := s<| process_queue := rotate a (process_queue s) |><| current_wq := Some a |>).
  assert (Hok1 : ge2d_ok Awake cl s1 b) by (eapply (ok_same _ _ s); [done|by intros ? ? [=]|..]; destruct s; try done; apply rotate_perm).
  assert (Ha : has_work s a = true) by (assert (Hin : In a (backlog s)) by (rewrite Hb; by left); by apply filter_In in Hin as [_ Hin]).
  destruct (has_work_in Awake cl I s b a Hok Ha) as (w & Hw & Hne & Hin). apply (ok_listed _ _ _ _ Hok) in Hin as [_ Hcl].
  destruct (ok_ctx _ _ _ _ Hok a w Hw) as [He Hl Hn Hi Hc]. rewrite decide_False in He by done. destruct (work_queue w) as [|it rest] eqn:Hq; [done|].
  destruct (Hi it) as [x Hx]; [unfold own; rewrite Hq; constructor|]. set (f := if decide (last_wq s = Some a) then update_flag (i_config x) else UPDATE_ALL).
  assert (Ef : (if decide (last_wq s1 = Some a) then x else x<| i_config := (i_config x)<| update_flag := UPDATE_ALL |> |>) = marked f x).
  { change (last_wq s1) with (last_wq s). unfold f. destruct (decide _); [by rewrite marked_own|done]. }
  pose proof (process_begin_runs s1 a w it rest x Hw He Hq Hx) as Ep. cbv zeta in Ep. rewrite Ef in Ep. rewrite (run_bind _ _ _ _ _ Ep).
  exists it. eexists _, x, f. split; [reflexivity|]. split; [|split; [done|by destruct s]]. apply (begin_ok cl s1 b a w it rest x f); [done..| |].
  - unfold f. destruct (decide (last_wq s = Some a)) as [El|Nl]; [rewrite marked_own|by apply set_up_all; destruct x as [k []]].
    destruct (ok_known _ _ _ _ Hok I (ex_intro _ a El)) as [b' ->]. eapply (set_up_follows s1 b'); [by apply (ok_engine _ _ _ _ Hok1)|].
    unfold base_for, work_of in Hc. rewrite decide_True in Hc by done. cbn [omap list_omap] in Hc. rewrite Hx in Hc. by destruct Hc.
  - intros El. change (last_wq s1) with (last_wq s) in El. unfold f. by rewrite decide_True, marked_own.
Qed.

(** ** A command *)

(** Where the monitor is after a command, and what the engine is known to hold then. *)
Definition after_item (wq : Z) (rest : list Z) : phase := match rest with [] => Awake | it :: _ => Serving wq it end.
Definition held_after (rest : list Z) (c : ge2d_config_s) : option ge2d_config_s := match rest with [] => Some c | _ => None end.

Lemma base_for_none s wq : base_for s wq None = None.
Proof. unfold base_for. by destruct (decide _). Qed.

(** The first item of the context that is served is done. *)
Section Done.
Variables (cl : gset Z) (s s' : ge2d_s H K C) (b : option ge2d_config_s) (wq it : Z) (w : ge2d_context_s) (rest : list Z) (x y : ge2d_queue_item_s).
Hypothesis Hok : ge2d_ok (Serving wq it) cl s b.
Hypotheses (Hw : contexts s !! wq = Some w) (Hq : work_queue w = it :: rest) (Hx : items s !! it = Some x).
Let w1 := w<| work_queue := rest |><| free_queue := free_queue w ++ [it] |>.
Hypotheses (Cx : contexts s' = <[wq := w1]> (contexts s)) (It : items s' = <[it := y]> (items s)) (Pq : process_queue s' = process_queue s).
Hypotheses (Dev : ge2d_meson_dev s' = ge2d_meson_dev s) (Cur : current_wq s' = current_wq s).
Hypotheses (Hready : ready (io s')) (Hholds : holds (ge2d_meson_dev s') (placed (i_config x)) (engine s') (gaul_filter_used s')).
Hypothesis State : ge2d_state s' = match rest with [] => GE2D_STATE_IDLE | _ => GE2D_STATE_RUNNING end.
Hypothesis Last : rest = [] -> last_wq s' = Some wq.

Lemma done_own : own w1 ≡ₚ own w.
Proof. unfold own, w1. rewrite Hq. destruct w. cbn. rewrite app_assoc, Permutation_app_comm. done. Qed.
Lemma done_ctx wq1 w1' : contexts s' !! wq1 = Some w1' -> exists w0, contexts s !! wq1 = Some w0 /\ own w1' ≡ₚ own w0.
Proof. intros G1. rewrite Cx in G1. apply lookup_insert_Some in G1 as [[<- <-]|[_ G1]]; [exists w; split; [done|apply done_own]|by exists w1']. Qed.
Lemma done_chain : chain (Some (i_config x)) (i_config <$> work_of (items s) rest) (config w).
Proof.
  destruct (ok_ctx _ _ _ _ Hok wq w Hw) as [_ _ _ _ Hc]. rewrite Hq in Hc. unfold work_of in Hc. cbn [omap list_omap] in Hc. rewrite Hx in Hc. by destruct Hc.
Qed.
Lemma done_items a : a ∈ rest -> items s' !! a = items s !! a.
Proof.
  intros Ha. rewrite It. apply lookup_insert_ne. intros <-. destruct (ok_ctx _ _ _ _ Hok wq w Hw) as [_ _ Hn _ _]. unfold own in Hn. rewrite Hq in Hn.
  apply NoDup_cons in Hn as [Hni _]. apply Hni, elem_of_app. by left.
Qed.
Lemma done_next it2 rest2 : rest = it2 :: rest2 -> next_set_up s' wq it2.
Proof.
  intros Er. destruct (ok_ctx _ _ _ _ Hok wq w Hw) as [_ _ _ Hi _]. destruct (Hi it2) as [x2 Hx2]; [unfold own; rewrite Hq, Er; set_solver|].
  exists w1, rest2, x2. split; [by rewrite Cx, lookup_insert_eq|]. split; [by unfold w1; destruct w|]. split; [rewrite done_items; [done|rewrite Er; constructor]|].
  apply (set_up_follows s' (i_config x)); [done|]. pose proof done_chain as Hc. rewrite Er in Hc. unfold work_of in Hc. cbn [omap list_omap] in Hc. rewrite Hx2 in Hc. by destruct Hc.
Qed.
Lemma done_ctx_ok wq1 w1' : contexts s' !! wq1 = Some w1' -> ctx_ok cl s' (held_after rest (i_config x)) wq1 w1'.
Proof.
  intros G1. rewrite Cx in G1. apply lookup_insert_Some in G1 as [[<- <-]|[Hne G1]].
  - destruct (ok_ctx _ _ _ _ Hok wq w Hw) as [He Hl Hn Hi Hc]. split.
    + rewrite <- He. by unfold w1; destruct w.
    + by rewrite done_own.
    + by rewrite done_own.
    + intros a. rewrite done_own, It. intros Ha. destruct (decide (a = it)) as [->|Hna]; [rewrite lookup_insert_eq; by eexists|rewrite lookup_insert_ne by done; by apply Hi].
    + replace (work_queue w1) with rest by (by unfold w1; destruct w). replace (config w1) with (config w) by (by unfold w1; destruct w).
      rewrite (work_of_ext (items s)) by apply done_items. pose proof done_chain as Hc'. destruct rest as [|it2 rest2]; cbn [held_after].
      * unfold base_for. by rewrite decide_True by auto.
      * rewrite base_for_none. by eapply chain_weaken.
  - eapply (ctx_ok_frame cl s _ b); [by apply (ok_ctx _ _ _ _ Hok)| |right].
    + intros a Ha. rewrite It. apply lookup_insert_ne. intros <-. apply (ok_apart _ _ _ _ Hok wq1 w1' wq w it); [done|done|by intros ->|done|]. unfold own. rewrite Hq. constructor.
    + destruct rest as [|it2 rest2]; [|apply base_for_none]. unfold base_for. rewrite (Last eq_refl). by rewrite decide_False by congruence.
Qed.
Lemma done_ok : ge2d_ok (after_item wq rest) cl s' (held_after rest (i_config x)).
Proof.
  split.
  - rewrite Dev. apply Hok.
  - done.
  - intros c Hc. destruct rest; [|done]. by inversion Hc; subst.
  - intros Hr _. by destruct rest.
  - rewrite State. by destruct rest.
  - pose proof done_next as Hnext. intros wq1 it1 Hs. destruct rest as [|it2 rest2] eqn:Er; [done|]. inversion Hs; subst wq1 it1. rewrite Cur. split; [by apply (ok_serving _ _ _ _ Hok wq it)|]. by apply (Hnext it2 rest2).
  - intros wq1. rewrite Pq, (ok_listed _ _ _ _ Hok), Cx. destruct (decide (wq1 = wq)) as [->|Hq1]; [rewrite lookup_insert_eq, Hw; split; intros [? ?]; split; done || by eexists|by rewrite lookup_insert_ne].
  - intros wq1 Hin. destruct (ok_closing _ _ _ _ Hok wq1 Hin) as (w2 & Hw2 & Hq2). rewrite Cx. destruct (decide (wq1 = wq)) as [->|Hne].
    + rewrite lookup_insert_eq. exists w1. split; [done|]. intros Hn. destruct rest; [by unfold w1; destruct w|by destruct Hn].
    + rewrite lookup_insert_ne by done. exists w2. split; [done|]. intros _. apply Hq2. by intros <-.
  - rewrite Pq. apply Hok.
  - apply done_ctx_ok.
  - intros wq1 w1' wq2 w2' a G1 G2 Hne Ha. apply done_ctx in G1 as (w10 & G1 & E1), G2 as (w20 & G2 & E2). rewrite E1 in Ha. rewrite E2. by apply (ok_apart _ _ _ _ Hok wq1 w10 wq2 w20).
Qed.
End Done.

(** The way out of a context, which tells whom waits for it. *)
Lemma exit_runs s wq w : contexts s !! wq = Some w ->
  process_exit wq s = Some (tt, s<| process_complete := if c_true (ge2d_request_exit w) then process_complete s + 1 else process_complete s |><| ge2d_state := GE2D_STATE_IDLE |>).
Proof.
  intros Hw. unfold process_exit, ctx_at. rewrite bind_assoc, run_gets, Hw, run_of_opt. destruct (c_true (ge2d_request_exit w)); cbn [when]; [by rewrite run_modify|]. rewrite run_ret. by destruct s.
Qed.

Lemma item_runs fn wn cl s b wq it x : (engine_bound < fn)%nat -> (engine_bound < wn)%nat -> ge2d_ok (Serving wq it) cl s b -> items s !! it = Some x -> item_ok (ge2d_meson_dev s) x ->
  exists s' b' w rest y sn, monitor_step fn wn (Serving wq it) s = Some (after_item wq rest, s') /\ ge2d_ok (after_item wq rest) cl s' b' /\
    contexts s !! wq = Some w /\ work_queue w = it :: rest /\
    contexts s' = <[wq := w<| work_queue := rest |><| free_queue := free_queue w ++ [it] |>]> (contexts s) /\ items s' = <[it := y]> (items s) /\ wait_done_flag (i_cmd y) = 0 /\
    launched (hw (io s')) = launched (hw (io s)) ++ [sn] /\ saw (ge2d_meson_dev s) (i_config x) (i_cmd x) sn /\
    cmd_in_sem s' = cmd_in_sem s /\ process_queue s' = process_queue s.
Proof.
  intros Hf Hwn Hok Hx Hitem. destruct (ok_serving _ _ _ _ Hok wq it eq_refl) as [Hcur (w & rest & x1 & Hw & Hq & Hx1 & Hup)]. rewrite Hx in Hx1. inversion Hx1; subst x1. clear Hx1.
  destruct (ok_ctx _ _ _ _ Hok wq w Hw) as [He Hl Hn Hi Hc]. unfold own in Hn. rewrite Hq in Hn. apply NoDup_cons in Hn as [Hni Hn]. rewrite elem_of_app in Hni.
  destruct (one_item_runs fn wn s wq w it rest x) as (s1 & y & sn & E & S & Cx & I & Wd & R & L & Saw & Hh); [done|done|apply (ok_chip _ _ _ _ Hok)|apply Hok|done|done|tauto|tauto|done|done|done|].
  set (w1 := w<| work_queue := rest |><| free_queue := free_queue w ++ [it] |>) in *. pose proof S as S'. unfold served in S'. cbn [monitor_step]. rewrite (run_bind _ _ _ _ _ E).
  assert (Hh1 : holds (ge2d_meson_dev s1) (placed (i_config x)) (engine s1) (gaul_filter_used s1)) by (by rewrite (served_dev _ _ S)).
  assert (Pq1 : process_queue s1 = process_queue s) by (rewrite S'; by destruct s). assert (Dev1 : ge2d_meson_dev s1 = ge2d_meson_dev s) by (rewrite S'; by destruct s).
  assert (Cur1 : current_wq s1 = current_wq s) by (rewrite S'; by destruct s). assert (Sem1 : cmd_in_sem s1 = cmd_in_sem s) by (rewrite S'; by destruct s).
  destruct rest as [|it2 rest2] eqn:Er; cbn [head].
  - rewrite run_modify. set (s2 := s1<| last_wq := Some wq |>). assert (Hw2 : contexts s2 !! wq = Some w1) by (change (contexts s2) with (contexts s1); by rewrite Cx, lookup_insert_eq).
    rewrite (run_bind _ _ _ _ _ (exit_runs s2 wq w1 Hw2)). eexists _, _, w, [], y, sn. split; [reflexivity|]. split.
    + eapply (done_ok cl s _ b wq it w [] x y); [done..|exact Cx|exact I|apply Pq1|apply Dev1|apply Cur1|exact R|exact Hh1|done|done].
    + split_and!; [done|done|exact Cx|exact I|done|exact L|done|apply Sem1|apply Pq1].
  - exists s1. eexists _, w, (it2 :: rest2), y, sn. split; [reflexivity|]. split.
    + eapply (done_ok cl s _ b wq it w (it2 :: rest2) x y); [done..|exact Cx|exact I|done|done|done|exact R|exact Hh1| |done].
      rewrite S'. destruct s. apply (ok_state _ _ _ _ Hok).
    + split_and!; [done|done|exact Cx|exact I|done|exact L|done|done|done].
Qed.
End Steps.
