(* ===== verification/Ge2dDmaSpec.v ===== *)
(** * The DMA buffers of the 2D engine: allocation and release

    A buffer takes the first empty slot of the table and is gone with its slot when it
    is freed; with 32 buffers the next one ends in a dereference of a null pointer. *)

From stdpp Require Import base numbers list option gmap.
From coqutil Require Import Datatypes.RecordSetters.
From S2P Require Import Prelude StateM Ge2dStruct Ge2dDma.

Lemma find_empty_spec l i : 0 <= i ->
  (find_empty l i = -1 /\ Forall (fun p => c_true (alloc p) = true) l) \/
  (i <= find_empty l i < i + Z.of_nat (length l) /\ (exists p, l !! Z.to_nat (find_empty l i - i) = Some p /\ c_true (alloc p) = false) /\
   forall j p, i + Z.of_nat j < find_empty l i -> l !! j = Some p -> c_true (alloc p) = true).
Proof.
  revert i. induction l as [|p l IH]; intros i Hi; cbn [find_empty]; [by left|]. destruct (c_true (alloc p)) eqn:Ep.
  - destruct (IH (i + 1)) as [[E Hf]|(Hr & (q & Hq & Hqa) & Hb)]; [lia|left; split; [done|by constructor]|right]. split; [cbn; lia|]. split.
    + exists q. split; [|done]. replace (Z.to_nat (find_empty l (i + 1) - i)) with (S (Z.to_nat (find_empty l (i + 1) - (i + 1)))) by lia. done.
    + intros [|j] q' Hj Hl; [cbn in Hl; by inversion Hl; subst|]. apply (Hb j); [lia|done].
  - right. split; [cbn; lia|]. split; [exists p; by rewrite Z.sub_diag|]. intros j q' Hj. lia.
Qed.

(** ** What the kernel has given out

    The structures, pages and mappings that are in use, in any order. *)
Inductive grant := GStruct (a : Z) | GPages (phys n : Z) | GMap (va : Z).
#[export] Instance grant_eq_dec : EqDecision grant.
Proof. solve_decision. Defined.
(** The page of an address. *)
Definition page_of (va : Z) : Z := Z.land (u64 (- PAGE_SIZE)) va.

Class DmaGrants (K : Type) `{DmaKernel K} := {
  given : K -> list grant;
  given_alloc k : match k_alloc k with (Some a, k') => given k' ≡ₚ GStruct a :: given k | (None, k') => given k' ≡ₚ given k end;
  given_free a k : GStruct a ∈ given k -> given k ≡ₚ GStruct a :: given (k_free a k);
  given_pages n k : match dma_alloc_pages n k with (Some pa, k') => given k' ≡ₚ GPages pa n :: given k | (None, k') => given k' ≡ₚ given k end;
  given_release pa n k : GPages pa n ∈ given k -> given k ≡ₚ GPages pa n :: given (dma_release_pages pa n k).2;
  given_vmalloc k : given (vmalloc_ok k).2 ≡ₚ given k;
  (** [vmap] gives a page-aligned address of its own range, or 0 *)
  given_vmap l k : match vmap l k with (va, k') =>
    va = 0 /\ given k' ≡ₚ given k \/ page_of va = va /\ is_vmalloc_addr va = true /\ given k' ≡ₚ GMap va :: given k end;
  given_vunmap va k : GMap va ∈ given k -> given k ≡ₚ GMap va :: given (vunmap va k);
  given_sync a n d k : given (dma_sync a n d k) ≡ₚ given k;
  vmalloc_zero : is_vmalloc_addr 0 = false;
  vmalloc_low pa : page_high_mem pa = false -> is_vmalloc_addr (page_of (phys_to_virt pa)) = false }.

Section DmaSpec.
Context {K : Type} `{DmaGrants K}.
Notation M := (ST (S := dma_s K)).
Implicit Types s : dma_s K.

(** Only the kernel changes. *)
Definition only_kern s s' : Prop := s' = with_kern s (kern s').
Lemma only_kern_refl s : only_kern s s.
Proof. by destruct s. Qed.
Lemma only_kern_trans s s1 s2 : only_kern s s1 -> only_kern s1 s2 -> only_kern s s2.
Proof. unfold only_kern, with_kern. intros -> ->. by destruct s, s1, s2. Qed.
Lemma kcall_inv {A} (f : K -> A * K) s a s' : kcall f s = Some (a, s') -> only_kern s s' /\ f (kern s) = (a, kern s').
Proof. unfold kcall, only_kern. destruct (f (kern s)) as [x k] eqn:E. intros [= -> <-]. by destruct s. Qed.
(** The mapping that a kernel address of a buffer stands for. *)
Definition mapping (va : Z) : list grant := if is_vmalloc_addr (page_of va) then [GMap (page_of va)] else [].
Lemma map_virt_inv phys sz s v s' : aml_map_phyaddr_to_virt phys sz s = Some (v, s') -> only_kern s s' /\ given (kern s') ≡ₚ mapping v ++ given (kern s).
Proof.
  unfold aml_map_phyaddr_to_virt, aml_mm_vmap, mapping. cbv zeta. intros E. destruct (page_high_mem phys) eqn:Eh; cbn [negb] in E.
  2:{ inversion E; subst. rewrite vmalloc_low by done. split; [apply only_kern_refl|done]. }
  assert (E0 : is_vmalloc_addr (page_of 0) = false) by (unfold page_of; rewrite Z.land_0_r; apply vmalloc_zero).
  bind_inv E as ok s1 E1. apply kcall_inv in E1 as [O1 E1]. pose proof (given_vmalloc (kern s)) as G1. rewrite E1 in G1. destruct (negb ok); [inversion E; subst; by rewrite E0|].
  apply kcall_inv in E as [O2 E2]. split; [by eapply only_kern_trans|]. match type of E2 with vmap ?l _ = _ => pose proof (given_vmap l (kern s1)) as G2 end. rewrite E2 in G2.
  destruct G2 as [[-> G2]|(Hp & Hv & G2)]; rewrite G2, G1; [by rewrite E0|by rewrite Hp, Hv].
Qed.
Lemma dma_alloc_inv at_ sz dir s a s' : aml_dma_alloc at_ sz dir s = Some (Some a, s') -> (k_alloc (kern s)).1 = Some a /\
  exists va pa k, s' = mk_dma (<[a := mk_dma_buf va sz dir at_ 0 pa 1 None]> (bufs s)) (gd_buffer s) (attachments s) k /\
    given k ≡ₚ mapping va ++ GPages pa (sz / PAGE_SIZE) :: GStruct a :: given (kern s).
Proof.
  unfold aml_dma_alloc. intros E. bind_inv E as o s1 E1. apply kcall_inv in E1 as [O1 Ek]. pose proof (given_alloc (kern s)) as G1. rewrite Ek in G1.
  destruct o as [a1|]; [|by inversion E]. bind_inv E as pages s2 E2. apply kcall_inv in E2 as [O2 E2]. pose proof (given_pages (sz / PAGE_SIZE) (kern s1)) as G2. rewrite E2 in G2.
  destruct pages as [pa|]; [|bind_inv E as u s3 E3; by inversion E]. bind_inv E as va s3 E3. apply map_virt_inv in E3 as [O3 G3]. unfold put_buf in E. rewrite run_modify in E. inversion E; subst a1 s'.
  rewrite Ek. split; [done|]. exists va, pa, (kern s3). split; [rewrite O3, O2, O1; by destruct s|]. by rewrite G3, G2, G1.
Qed.

Lemma run_buf_at {B} a b s (f : _ -> M B) : bufs s !! a = Some b -> (buf_at a ≫= f) s = f b s.
Proof. intros Hb. unfold buf_at. by rewrite bind_assoc, run_gets, Hb, run_of_opt. Qed.
Lemma run_slot {B} i p t s (f : _ -> M B) : gd_buffer s = Some t -> 0 <= i -> t !! Z.to_nat i = Some p -> (slot i ≫= f) s = f p s.
Proof. intros Ht Hi Hp. unfold slot, table. by rewrite !bind_assoc, run_gets, Ht, run_of_opt, aget_lookup, Hp, run_of_opt. Qed.
Lemma run_put_slot {B} i p t s (f : _ -> M B) : gd_buffer s = Some t -> 0 <= i < Z.of_nat (length t) -> (put_slot i p ≫= f) s = f tt (with_table s (Some (<[Z.to_nat i := p]> t))).
Proof. intros Ht Hi. unfold put_slot, table. by rewrite !bind_assoc, run_gets, Ht, run_of_opt, bind_assoc, aset_in, run_of_opt, run_modify. Qed.
Lemma run_put_buf {B} a b s (f : _ -> M B) : (put_buf a b ≫= f) s = f tt (with_bufs s (<[a := b]> (bufs s))).
Proof. done. Qed.

(** The size of a buffer: whole pages. *)
Definition pages_of (len : Z) : Z := Z.land (u32 (len + PAGE_SIZE - 1)) (u32 (- PAGE_SIZE)).

(** What a buffer takes from the kernel. *)
Definition grants_of (a : Z) (b : aml_dma_buf) : list grant := mapping (vaddr b) ++ [GPages (dma_addr b) (size b / PAGE_SIZE); GStruct a].

(** Giving up the one reference to a buffer in the table. *)
Lemma dma_put_last s t a b i l : bufs s !! a = Some b -> refcount b = 1 -> priv b = Some tt -> index b = i -> gd_buffer s = Some t -> 0 <= i < Z.of_nat (length t) ->
  given (kern s) ≡ₚ grants_of a b ++ l ->
  exists p s', t !! Z.to_nat i = Some p /\ aml_dma_put a s = Some (tt, s') /\ bufs s' = delete a (bufs s) /\
    gd_buffer s' = Some (<[Z.to_nat i := p<| mem_priv := None |><| pv_index := 0 |><| alloc := 0 |>]> t) /\ attachments s' = attachments s /\ given (kern s') ≡ₚ l.
Proof.
  intros Hb Hrc Hp Hidx Ht Hi Hg. destruct (aget_is_Some t i Hi) as [p Hp']. pose proof Hp' as Hp2. rewrite aget_lookup in Hp2 by lia. exists p. unfold aml_dma_put, buf_at.
  rewrite bind_assoc, run_gets, Hb, run_of_opt. cbv zeta. rewrite Hrc. change (s32 (1 - 1)) with 0. unfold put_buf. rewrite run_modify. cbn [Z.eqb negb].
  set (s1 := with_bufs s (<[a := b<| refcount := 0 |>]> (bufs s))). fold (page_of (vaddr b)). unfold grants_of, mapping in Hg.
  assert (E1 : exists k, when (is_vmalloc_addr (page_of (vaddr b))) (kdo (vunmap (page_of (vaddr b)))) s1 = Some (tt, with_kern s1 k) /\
    given k ≡ₚ GPages (dma_addr b) (size b / PAGE_SIZE) :: GStruct a :: l).
  { destruct (is_vmalloc_addr _); cbn [app] in Hg; [|exists (kern s1); split; [by destruct s|done]]. eexists. split; [reflexivity|]. apply (Permutation_cons_inv (a := GMap (page_of (vaddr b)))). rewrite <- Hg.
    symmetry. apply given_vunmap. change (kern s1) with (kern s). rewrite Hg. by left. }
  destruct E1 as (k1 & E1 & G1). rewrite (run_bind _ _ _ _ _ E1). set (s2 := with_kern s1 k1).
  assert (E2 : exists x k, kcall (dma_release_pages (dma_addr b) (size b / PAGE_SIZE)) s2 = Some (x, with_kern s2 k) /\ given k ≡ₚ GStruct a :: l).
  { pose proof (given_release (dma_addr b) (size b / PAGE_SIZE) k1) as G2. unfold kcall. change (kern s2) with k1. destruct (dma_release_pages _ _ _) as [x k]. exists x, k. split; [done|].
    apply (Permutation_cons_inv (a := GPages (dma_addr b) (size b / PAGE_SIZE))). rewrite <- G1. symmetry. apply G2. rewrite G1. by left. }
  destruct E2 as (x & k2 & E2 & G2). rewrite (run_bind _ _ _ _ _ E2). set (s3 := with_kern s2 k2). rewrite bind_assoc, run_gets. change (bufs s3) with (<[a := b<| refcount := 0 |>]> (bufs s)).
  rewrite lookup_insert_eq, run_of_opt, run_modify. unfold clear_dma_buffer, slot, table, put_slot, table. change (priv (b<| refcount := 0 |>)) with (priv b). change (index (b<| refcount := 0 |>)) with (index b). rewrite Hp. rewrite Hidx.
  rewrite !bind_assoc, run_of_opt, !bind_assoc, run_gets. match goal with |- context [gd_buffer ?x] => change (gd_buffer x) with (gd_buffer s) end. rewrite Ht, run_of_opt, Hp', run_of_opt.
  rewrite !bind_assoc, run_gets. match goal with |- context [gd_buffer ?x] => change (gd_buffer x) with (gd_buffer s) end. rewrite Ht, run_of_opt, bind_assoc.
  rewrite aset_in by done. rewrite run_of_opt, run_modify, run_modify. eexists. split; [done|]. split; [reflexivity|]. split; [cbn; by rewrite !delete_insert_eq|]. split; [done|]. split; [done|].
  apply (Permutation_cons_inv (a := GStruct a)). rewrite <- G2. symmetry. apply given_free. change (GStruct a ∈ given k2). rewrite G2. by left.
Qed.

(** C15. The buffer that a call allocates is in the first empty slot, has one reference, and
    its structure, its pages and, in high memory, a mapping of them are all that the
    kernel has given out for it.  Freeing it by its index gives exactly these back,
    empties the slot, and leaves the other slots, the buffers and the attachments as
    they were. *)
Theorem ge2d_buffer_roundtrip s t req r s1 : gd_buffer s = Some t -> length t = Z.to_nat AML_MAX_DMABUF -> (forall a, (k_alloc (kern s)).1 = Some a -> bufs s !! a = None) ->
  ge2d_dma_buffer_alloc req s = Some (0, r, s1) -> exists a b p,
  let i := req_index r in
  0 <= i < AML_MAX_DMABUF /\ t !! Z.to_nat i = Some p /\ c_true (alloc p) = false /\ (forall j q, Z.of_nat j < i -> t !! j = Some q -> c_true (alloc q) = true) /\
  bufs s1 = <[a := b]> (bufs s) /\ refcount b = 1 /\ size b = pages_of (req_len req) /\ gd_buffer s1 = Some (<[Z.to_nat i := p<| mem_priv := Some a |><| pv_index := i |><| alloc := 1 |>]> t) /\
  given (kern s1) ≡ₚ grants_of a b ++ given (kern s) /\
  exists s2, ge2d_dma_buffer_free i s1 = Some (0, s2) /\ bufs s2 = bufs s /\ attachments s2 = attachments s /\
    gd_buffer s2 = Some (<[Z.to_nat i := p<| mem_priv := None |><| pv_index := 0 |><| alloc := 0 |>]> t) /\ given (kern s2) ≡ₚ given (kern s).
Proof.
  intros Ht Hlen Hfresh E. unfold ge2d_dma_buffer_alloc in E. rewrite run_gets, Ht in E. fold (pages_of (req_len req)) in E. cbv zeta in E. destruct (pages_of (req_len req) =? 0); [by inversion E|].
  bind_inv E as o s2 E1. destruct o as [a|]; [|by inversion E]. apply dma_alloc_inv in E1 as [Ha (va & pa & k & -> & Hg)]. specialize (Hfresh a Ha).
  unfold find_empty_dma_buffer, table in E. rewrite !bind_assoc, run_gets in E. cbn [gd_buffer] in E. rewrite Ht, run_of_opt, run_ret in E.
  destruct (find_empty_spec t 0) as [[Ei _]|(Hr & (p & Hp & Hpa) & Hbefore)]; [lia| |].
  { rewrite Ei in E. change (bad_index (-1)) with true in E. cbn iota in E. bind_inv E as u s3 E3. by inversion E. }
  set (i := find_empty t 0) in *. rewrite Hlen in Hr. unfold AML_MAX_DMABUF in *. assert (Hbad : bad_index i = false) by (unfold bad_index, AML_MAX_DMABUF; b2p; bsolve). rewrite Hbad in E.
  rewrite Z.sub_0_r in Hp. set (sa := mk_dma _ _ _ _) in E. assert (Ba : bufs sa !! a = Some (mk_dma_buf va (pages_of (req_len req)) (req_dma_dir req) 0 0 pa 1 None)) by apply lookup_insert_eq.
  rewrite (run_buf_at a _ sa _ Ba), run_put_buf in E. set (b := (mk_dma_buf va _ _ _ _ pa 1 None)<| priv := Some tt |><| index := i |>) in E. set (sb := with_bufs sa _) in E.
  rewrite (run_slot i p t sb _ eq_refl) in E by (done || lia). rewrite (run_put_slot i _ t sb _ eq_refl) in E by lia. set (t1 := <[Z.to_nat i := _]> t) in E. set (sc := with_table sb _) in E.
  assert (Bc : bufs sc !! a = Some b) by apply lookup_insert_eq. rewrite (run_buf_at a b sc _ Bc) in E. bind_inv E as u s3 E3.
  assert (E4 : exists k4, s3 = with_kern sc k4 /\ given k4 ≡ₚ grants_of a b ++ given (kern s)).
  { assert (Hk : given k ≡ₚ grants_of a b ++ given (kern s)) by (unfold grants_of; rewrite <- app_assoc; exact Hg).
    destruct (_ =? _); cbn [when] in E3; inversion E3; [eexists; split; [reflexivity|by rewrite given_sync]|by exists (kern sc)]. }
  destruct E4 as (k4 & -> & Hg4). clear E3.
  inversion E; subst r s1. clear E u. cbn [req_index]. exists a, b, p. cbv zeta.
  split; [lia|]. split; [done|]. split; [done|]. split; [intros j q Hj; apply (Hbefore j q); lia|]. split; [cbn; by rewrite insert_insert_eq|]. split; [done|]. split; [done|]. split; [done|]. split; [done|].
  match goal with |- exists s2, ge2d_dma_buffer_free i ?st = _ /\ _ => set (s1 := st) end.
  assert (Ht1 : t1 !! Z.to_nat i = Some (p<| mem_priv := Some a |><| pv_index := i |><| alloc := 1 |>)) by (apply list_lookup_insert_eq; lia).
  destruct (dma_put_last s1 t1 a b i (given (kern s))) as (p1 & s2 & Hp1 & E & B & T & At & Gs); [by apply lookup_insert_eq|done..|unfold t1; rewrite length_insert; lia|done|].
  exists s2. rewrite Ht1 in Hp1. inversion Hp1; subst p1. split; [|split; [|split; [done|split; [|done]]]].
  - unfold ge2d_dma_buffer_free. rewrite run_gets. change (gd_buffer s1) with (Some t1). cbv iota. rewrite Hbad. rewrite (run_slot i _ t1 s1 _ eq_refl) by (done || lia). change (mem_priv _) with (Some a). cbv iota. by rewrite (run_bind _ _ _ _ _ E).
  - rewrite B. change (bufs s1) with (<[a := b]> (<[a := mk_dma_buf va (pages_of (req_len req)) (req_dma_dir req) 0 0 pa 1 None]> (bufs s))). by rewrite insert_insert_eq, delete_insert_id.
  - rewrite T. unfold t1. by rewrite list_insert_insert_eq.
Qed.

(** With every slot taken, the buffer that was allocated is given up before it belongs
    to the table: a null pointer is followed. *)
Lemma ge2d_buffer_table_full s t req a s1 : gd_buffer s = Some t -> Forall (fun p => c_true (alloc p) = true) t -> pages_of (req_len req) <> 0 ->
  aml_dma_alloc 0 (pages_of (req_len req)) (req_dma_dir req) s = Some (Some a, s1) -> ge2d_dma_buffer_alloc req s = None.
Proof.
  intros Ht Hfull Hsz E. unfold ge2d_dma_buffer_alloc. rewrite run_gets, Ht. cbv zeta. fold (pages_of (req_len req)). rewrite (proj2 (Z.eqb_neq _ 0) Hsz), (run_bind _ _ _ _ _ E).
  apply dma_alloc_inv in E as [_ (va & pa & k & -> & _)]. unfold find_empty_dma_buffer, table. rewrite !bind_assoc, run_gets. cbn [gd_buffer]. rewrite Ht, run_of_opt, run_ret.
  destruct (find_empty_spec t 0) as [[-> _]|(_ & (p & Hp & Hpa) & _)]; [lia| |by rewrite Forall_lookup in Hfull; rewrite (Hfull _ _ Hp) in Hpa].
  change (bad_index (-1)) with true. cbv iota. unfold aml_dma_put. rewrite bind_assoc. set (sa := mk_dma _ _ _ _). rewrite (run_buf_at a _ sa _ (lookup_insert_eq _ _ _)). cbv zeta.
  rewrite bind_assoc, run_put_buf. change (s32 (refcount _ - 1)) with 0. cbn [Z.eqb negb]. rewrite bind_assoc. unfold mbind at 1, ST_bind at 1. set (sb := with_bufs sa _).
  destruct (when _ _ sb) as [[u sc]|] eqn:Ew; [|done]. cbn [mbind option_bind]. assert (Ec : bufs sc = bufs sb) by (destruct (is_vmalloc_addr _); cbn [when] in Ew; by inversion Ew).
  rewrite bind_assoc. unfold mbind at 1, ST_bind at 1, kcall. destruct (dma_release_pages _ _ _) as [x k2]. cbn [mbind option_bind].
  rewrite bind_assoc, (run_buf_at a _ (with_kern sc k2) _ (eq_trans (f_equal (fun m => m !! a) Ec) (lookup_insert_eq _ _ _))), bind_assoc, run_put_buf. done.
Qed.
End DmaSpec.

(** A kernel that counts addresses up and has no files. *)
Definition counting_kernel : DmaKernel Z := {|
  k_alloc k := (Some k, k + 1); k_free _ k := k; dma_alloc_pages _ k := (Some k, k); dma_release_pages _ _ k := (true, k);
  page_high_mem _ := false; phys_to_virt a := a; is_vmalloc_addr _ := false; vmalloc_ok k := (true, k); vmap _ k := (0, k); vunmap _ k := k;
  dma_buf_export _ _ _ k := (None, k); dma_buf_fd _ _ k := (- 1, k); dma_buf_get _ k := (None, k); dma_buf_put _ k := (false, k); dma_buf_priv _ _ := inr tt;
  dma_buf_attach _ k := (None, k); dma_buf_detach _ _ k := k; dma_buf_map_attachment _ _ k := (None, k); dma_buf_unmap_attachment _ _ _ k := k;
  dma_buf_begin_cpu_access _ _ k := (0, k); dma_buf_end_cpu_access _ _ k := k; dma_buf_vmap _ k := (0, k); dma_buf_vunmap _ _ k := k; sg_phys _ _ := 0;
  sg_alloc_ok _ k := (false, k); dma_map_sg _ _ k := (0, k); dma_sync _ _ _ k := k |}.

(** A kernel that writes down what it has given out: pages from 4 GB on, which take a
    mapping, and the mappings from 1 TB on. *)
Definition take_out (g : grant) : list grant -> list grant :=
  fix go l := match l with [] => [] | x :: l => if decide (x = g) then l else x :: go l end.
Lemma take_out_spec g l : g ∈ l -> l ≡ₚ g :: take_out g l.
Proof.
  induction l as [|x l IH]; [by intros ?%elem_of_nil|]. cbn [take_out]. destruct (decide (x = g)) as [->|Hne]; [done|].
  intros [->|Hg]%elem_of_cons; [done|]. by rewrite Permutation_swap, <- IH.
Qed.
Definition map_base (n : Z) : Z := 2 ^ 40 + n mod 2 ^ 20 * PAGE_SIZE.
Definition books : Type := Z * list grant.
Definition listing_kernel : DmaKernel books := {|
  k_alloc k := (Some k.1, (k.1 + 1, GStruct k.1 :: k.2)); k_free a k := (k.1, take_out (GStruct a) k.2);
  dma_alloc_pages n k := (Some (2 ^ 32 + PAGE_SIZE * k.1), (k.1 + n, GPages (2 ^ 32 + PAGE_SIZE * k.1) n :: k.2));
  dma_release_pages pa n k := (true, (k.1, take_out (GPages pa n) k.2));
  page_high_mem pa := 2 ^ 32 <=? pa; phys_to_virt a := a mod 2 ^ 32; is_vmalloc_addr va := 2 ^ 40 <=? va; vmalloc_ok k := (true, k);
  vmap _ k := (map_base k.1, (k.1 + 1, GMap (map_base k.1) :: k.2)); vunmap va k := (k.1, take_out (GMap va) k.2);
  dma_buf_export _ _ _ k := (None, k); dma_buf_fd _ _ k := (- 1, k); dma_buf_get _ k := (None, k); dma_buf_put _ k := (false, k); dma_buf_priv _ _ := inr tt;
  dma_buf_attach _ k := (None, k); dma_buf_detach _ _ k := k; dma_buf_map_attachment _ _ k := (None, k); dma_buf_unmap_attachment _ _ _ k := k;
  dma_buf_begin_cpu_access _ _ k := (0, k); dma_buf_end_cpu_access _ _ k := k; dma_buf_vmap _ k := (0, k); dma_buf_vunmap _ _ k := k; sg_phys _ _ := 0;
  sg_alloc_ok _ k := (false, k); dma_map_sg _ _ k := (0, k); dma_sync _ _ _ k := k |}.
Lemma page_of_clear va : 0 <= va < 2 ^ 64 -> page_of va = va / PAGE_SIZE * PAGE_SIZE.
Proof.
  intros Hva. change PAGE_SIZE with (2 ^ 12). rewrite <- Z.shiftr_div_pow2, <- Z.shiftl_mul_pow2, <- Z.ldiff_ones_r by lia.
  unfold page_of. change (u64 (- PAGE_SIZE)) with (Z.ldiff (Z.ones 64) (Z.ones 12)). apply Z.bits_inj'. intros n Hn. rewrite Z.land_spec, !Z.ldiff_spec.
  destruct (decide (n < 64)) as [Hlt|Hge]; [rewrite (Z.ones_spec_low 64) by lia; by rewrite andb_comm|].
  rewrite (Z.ones_spec_high 64) by lia. rewrite <- (Z.mod_small va (2 ^ 64)), Z.mod_pow2_bits_high by lia. done.
Qed.
Lemma page_of_map n : page_of (map_base n) = map_base n.
Proof.
  pose proof (Z.mod_pos_bound n (2 ^ 20) eq_refl) as Hn. rewrite page_of_clear by (unfold map_base, PAGE_SIZE; lia). unfold map_base.
  change (2 ^ 40) with (2 ^ 28 * PAGE_SIZE). rewrite <- Z.mul_add_distr_r, Z.div_mul by done. done.
Qed.
#[local] Existing Instance listing_kernel.
#[local] Instance listing_grants : DmaGrants books.
Proof.
  refine {| given := snd |}; intros; try done; cbn -[page_of map_base Z.pow]; try reflexivity; try (by apply take_out_spec).
  - right. split; [apply page_of_map|]. split; [|done]. unfold map_base. pose proof (Z.mod_pos_bound (k.1) (2 ^ 20) eq_refl). apply Z.leb_le. unfold PAGE_SIZE. lia.
  - pose proof (Z.mod_pos_bound pa (2 ^ 32) eq_refl). rewrite page_of_clear by lia. apply Z.leb_gt. pose proof (Z.mul_div_le (pa mod 2 ^ 32) PAGE_SIZE eq_refl). lia.
Defined.
Definition no_buffers : dma_s books := mk_dma ∅ (Some (replicate 32 zero_priv)) ∅ (1, []).
Definition one_page : ge2d_dmabuf_req_s := mk_req 0 100 DMA_FROM_DEVICE.
Definition with_page : dma_s books := default no_buffers (snd <$> ge2d_dma_buffer_alloc one_page no_buffers).

Lemma ge2d_buffer_roundtrip_witness : (exists a b p,
  let i := req_index (mk_req 0 100 DMA_FROM_DEVICE) in
  0 <= i < AML_MAX_DMABUF /\ replicate 32 zero_priv !! Z.to_nat i = Some p /\ c_true (alloc p) = false /\
  (forall j q, Z.of_nat j < i -> replicate 32 zero_priv !! j = Some q -> c_true (alloc q) = true) /\
  bufs with_page = <[a := b]> (bufs no_buffers) /\ refcount b = 1 /\ size b = pages_of (req_len one_page) /\
  gd_buffer with_page = Some (<[Z.to_nat i := p<| mem_priv := Some a |><| pv_index := i |><| alloc := 1 |>]> (replicate 32 zero_priv)) /\
  given (kern with_page) ≡ₚ grants_of a b ++ given (kern no_buffers) /\
  exists s2, ge2d_dma_buffer_free i with_page = Some (0, s2) /\ bufs s2 = bufs no_buffers /\ attachments s2 = attachments no_buffers /\
    gd_buffer s2 = Some (<[Z.to_nat i := p<| mem_priv := None |><| pv_index := 0 |><| alloc := 0 |>]> (replicate 32 zero_priv)) /\ given (kern s2) ≡ₚ given (kern no_buffers)) /\
  given (kern no_buffers) = [] /\ given (kern with_page) = [GMap (map_base 3); GPages (2 ^ 32 + PAGE_SIZE * 2) 1; GStruct 1].
Proof.
  split; [|split; reflexivity].
  apply (ge2d_buffer_roundtrip no_buffers (replicate 32 zero_priv) one_page (mk_req 0 100 DMA_FROM_DEVICE) with_page); [done|done| |].
  - intros a _. apply lookup_empty.
  - by vm_compute.
Defined.
