(* ===== verification/Ge2dQueue.v ===== *)
(** * The list of the monitor under the calls of files

    What calls, opening and closing do to [process_queue], for the order in which the
    monitor serves the contexts. *)

From stdpp Require Import base numbers list option gmap.
From coqutil Require Import Datatypes.RecordSetters.
From S2P Require Import Prelude StateM Canvas Ge2dReg Ge2dStruct Ge2dHw Ge2dGen Ge2dDma Ge2dWq Ge2dConfig Ge2dBlt Ge2dMain Ge2dProgram Ge2dCommand Ge2dProcess Ge2dClients Ge2dInv Ge2dSteps.

(** The head of the list goes behind the context that is taken. *)
Lemma rotate_at before a l : a ∉ before -> rotate a (before ++ a :: l) = l ++ before ++ [a].
Proof.
  intros Hb. assert (E : list_find (eq a) (before ++ a :: l) = Some (length before, a)).
  { apply list_find_Some. split; [by rewrite list_lookup_middle|]. split; [done|]. intros j y Hj Hlt <-. rewrite lookup_app_l in Hj by done. by apply Hb, (list_elem_of_lookup_2 _ j). }
  unfold rotate. rewrite E. replace (S (length before)) with (length (before ++ [a])) by (rewrite length_app; cbn; lia).
  change (a :: l) with ([a] ++ l). by rewrite (app_assoc before), drop_app_length, take_app_length.
Qed.
(** The first with work, where [b] has some: it is ahead of [b] or [b]. *)
Lemma first_ahead (p : Z -> bool) pre b post a l : p b = true -> List.filter p (pre ++ b :: post) = a :: l ->
  (a = b /\ forall x, x ∈ pre -> p x = false) \/ exists before pre', pre = before ++ a :: pre' /\ p a = true /\ forall x, x ∈ before -> p x = false.
Proof.
  intros Hb. induction pre as [|x pre IH]; cbn; [rewrite Hb; intros [= -> _]; left; split; [done|]; intros x Hx; by apply not_elem_of_nil in Hx|].
  destruct (p x) eqn:Ex; [intros [= -> _]; right; exists [], pre; split; [done|]; split; [done|]; intros y Hy; by apply not_elem_of_nil in Hy|]. intros E.
  destruct (IH E) as [[Ha Hp]|(before & pre' & -> & Ha & Hp)]; [left|right; exists (x :: before), pre'].
  - split; [done|]. by intros y [-> |Hy]%elem_of_cons; [|apply Hp].
  - split; [done|]. split; [done|]. by intros y [-> |Hy]%elem_of_cons; [|apply Hp].
Qed.

Section Queue.
Context {H K C : Type} `{GeBusLaws H} `{GeTime H} `{!GeLaunch H} `{!GeTimeLaws H} `{GePower H} `{!GePowerLaws H} `{DmaKernel K} `{!Ion K} `{MesonCanvas C}.
Notation M := (ST (S := ge2d_s H K C)).
Implicit Types s : ge2d_s H K C.

(** The list is as it was. *)
Definition quiet {A} (m : M A) : Prop := forall s a s', m s = Some (a, s') -> process_queue s' = process_queue s.

Lemma quiet_at {A} (m : M A) s a s' : quiet m -> m s = Some (a, s') -> process_queue s' = process_queue s.
Proof. intros Hm. apply Hm. Qed.
Lemma quiet_ret {A} (a : A) : quiet (mret a).
Proof. by intros s x s' [= _ <-]. Qed.
Lemma quiet_gets {A} (f : ge2d_s H K C -> A) : quiet (gets f).
Proof. by intros s x s' [= _ <-]. Qed.
Lemma quiet_of_opt {A} (o : option A) : quiet (of_opt o).
Proof. intros s x s' E. by apply of_opt_inv in E as [_ ->]. Qed.
Lemma quiet_bind {A B} (m : M A) (f : A -> M B) : quiet m -> (forall a, quiet (f a)) -> quiet (m ≫= f).
Proof. intros Hm Hf s b s' E. bind_inv E as a s1 E1. rewrite (Hf a s1 b s') by done. by eapply Hm. Qed.
Lemma quiet_modify f : (forall s, process_queue (f s) = process_queue s) -> quiet (modify f).
Proof. intros Hf s x s' [= _ <-]. apply Hf. Qed.
Lemma quiet_on_dma {A} (m : ST (S := dma_s K) A) : quiet (on_dma m).
Proof. intros s x s' E. unfold on_dma in E. destruct (m (dma s)) as [[a d]|]; [|done]. cbn in E. inversion E; subst. by destruct s. Qed.
Lemma quiet_item_at a : quiet (item_at a).
Proof. unfold item_at. apply quiet_bind; [apply quiet_gets|intros; apply quiet_of_opt]. Qed.
Lemma quiet_ctx_at wq : quiet (ctx_at wq).
Proof. unfold ctx_at. apply quiet_bind; [apply quiet_gets|intros; apply quiet_of_opt]. Qed.
Lemma quiet_put_ctx wq w : quiet (put_ctx wq w).
Proof. apply quiet_modify. by intros []. Qed.
Lemma quiet_put_item a x : quiet (put_item a x).
Proof. apply quiet_modify. by intros []. Qed.
Lemma quiet_on_ctx wq f : quiet (on_ctx wq f).
Proof. unfold on_ctx. apply quiet_bind; [apply quiet_ctx_at|intros; apply quiet_put_ctx]. Qed.

Ltac quiet_one :=
  first [ apply quiet_ret | apply quiet_gets | apply quiet_of_opt | apply quiet_on_dma | apply quiet_item_at | apply quiet_ctx_at | apply quiet_put_ctx | apply quiet_put_item
        | apply quiet_on_ctx | assumption | apply quiet_modify; by intros []
        | match goal with
          | |- quiet (mbind _ _) => apply quiet_bind; [|intros ?]
          | |- quiet (if ?b then _ else _) => destruct b
          | |- quiet (when ?b _) => destruct b; cbn [when]
          | |- quiet (let '(_, _) := ?p in _) => destruct p
          | |- quiet (match ?o with _ => _ end) => destruct o
          end ].
Ltac quietly := repeat quiet_one.

Lemma touches_queue wq s s' : touches wq s s' -> process_queue s' = process_queue s.
Proof. intros (w & w' & _ & _ & -> & _). by destruct s. Qed.
Lemma add_work_quiet wq : quiet (ge2d_wq_add_work wq).
Proof. unfold ge2d_wq_add_work, add_work_enqueue, add_work_signal. quietly. Qed.
Lemma run_op_quiet wq o p : quiet (Ge2dMain.run_op wq o p).
Proof. destruct (op_shape (H := H) (K := K) (C := C) wq o p) as (h & _ & _ & ->). quietly. apply add_work_quiet. Qed.
Lemma config_quiet wq cfg : quiet (do_config wq cfg).
Proof. unfold do_config, dev, ge2d_context_config. quietly. Qed.
Lemma antiflicker_quiet enable : quiet (ge2d_antiflicker_enable enable).
Proof.
  unfold ge2d_antiflicker_enable. apply quiet_bind; [apply quiet_gets|intros l]. apply quiet_bind; [|intros; apply quiet_ret].
  induction l as [|a l IH] using rev_ind; [apply quiet_ret|]. rewrite foldl_app. cbn [foldl]. apply quiet_bind; [done|intros; apply quiet_on_ctx].
Qed.

Lemma ioctl_queue sec tmp wq c s x s' : is_Some (contexts s !! wq) -> ge2d_ioctl sec tmp wq c s = Some (x, s') -> process_queue s' = process_queue s.
Proof.
  intros Hs E. unfold ge2d_ioctl in E. cbv zeta in E. destruct (sec && plain_config c); [by inversion E; subst|].
  assert (Hreq : forall m : M Z, requests wq m -> (r ← m; mret (r, NoReply, None)) s = Some (x, s') -> process_queue s' = process_queue s).
  { intros m [Ht _] E1. apply ret_inv in E1 as (a & E1 & _). eapply touches_queue. by eapply Ht. }
  destruct c; try (destruct failed; [by inversion E; subst|]);
    first [ by inversion E; subst | eapply Hreq; [|exact E]; first [apply config_ex_requests | apply config_ex_ion_requests | apply config_ex_mem_requests]
          | eapply quiet_at; [|exact E]; quietly; first [apply config_quiet | apply antiflicker_quiet | apply run_op_quiet] ].
Qed.

Lemma pwr_quiet enable : quiet (ge2d_pwr_config enable).
Proof. unfold ge2d_pwr_config, dev, hw_do, ge2d_clk_config, ge2d_pre_init, regs, dev. quietly. Qed.
Lemma wake_quiet fn wn : quiet (monitor_step fn wn Asleep).
Proof. cbn [monitor_step]. quietly. apply pwr_quiet. Qed.

(** ** Opening and closing *)

Lemma alloc_items_quiet n : quiet (alloc_items n).
Proof. induction n as [|n IH]; cbn [alloc_items]; unfold kalloc; quietly. Qed.
Lemma free_items_quiet l : quiet (free_items l).
Proof. induction l as [|a l IH]; cbn [free_items]; unfold kfree; quietly. Qed.
Lemma destroy_finish_quiet wq : quiet (destroy_finish wq).
Proof. unfold destroy_finish, kfree. quietly; apply free_items_quiet. Qed.
Lemma destroy_waited_quiet : quiet destroy_waited.
Proof. unfold destroy_waited. quietly. Qed.
Lemma destroy_begin_queue wq s r s' : destroy_begin wq s = Some (r, s') -> process_queue s' = list_del wq (process_queue s).
Proof. unfold destroy_begin. rewrite run_modify. intros E. eapply (quiet_at _ _ _ _) in E; [|quietly]. rewrite E. by destruct s. Qed.

(** A new context is the last. *)
Lemma open_queue n s wq n' s' : ge2d_open n s = Some ((0, Some wq, n'), s') -> process_queue s' = process_queue s ++ [wq].
Proof.
  unfold ge2d_open. intros E. bind_inv E as o s1 E1. destruct o as [wq1|]; [|done]. inversion E; subst wq1 n' s1. unfold create_ge2d_work_queue in E1. rewrite run_gets in E1.
  destruct (negb (c_true (probe s))); [by inversion E1|]. bind_inv E1 as o s1 E2. bind_inv E1 as wq1 s2 E3. apply of_opt_inv in E3 as [-> ->]. bind_inv E1 as l s3 E3. bind_inv E1 as u s4 E4.
  rewrite run_modify in E1. inversion E1; subst wq1 s'. apply quiet_on_dma in E2. apply alloc_items_quiet in E3. apply quiet_put_ctx in E4. rewrite <- E2, <- E3, <- E4. by destruct s4.
Qed.
(** A closed one is gone from it. *)
Lemma release_queue n s wq r s' : ge2d_release (Some wq) n s = Some (r, s') -> process_queue s' = list_del wq (process_queue s).
Proof.
  unfold ge2d_release, destroy_ge2d_work_queue. intros E. rewrite bind_assoc in E. bind_inv E as wait s1 E1. apply destroy_begin_queue in E1. rewrite <- E1. revert E. apply quiet_at.
  quietly; first [apply destroy_waited_quiet | apply destroy_finish_quiet].
Qed.
Lemma closed_queue wq s r s' : (_ ← destroy_waited; destroy_finish wq) s = Some (r, s') -> process_queue s' = process_queue s.
Proof. apply quiet_at, quiet_bind; [apply destroy_waited_quiet|intros; apply destroy_finish_quiet]. Qed.
End Queue.
