(* ===== verification/Ge2dSpec.v ===== *)
(** * The 2D engine as its callers see it

    The calls of the device file and the pieces of the monitor as steps of one system,
    in any order, and what holds in every state they reach from the start of the driver. *)

From stdpp Require Import base numbers list option gmap relations.
From coqutil Require Import Datatypes.RecordSetters.
From S2P Require Import Prelude StateM Canvas Ge2dReg Ge2dStruct Ge2dHw Ge2dGen Ge2dDma Ge2dWq Ge2dConfig Ge2dBlt Ge2dMain Ge2dProgram Ge2dCommand Ge2dProcess Ge2dClients Ge2dInv Ge2dSteps Ge2dDmaSpec Ge2dQueue.

Section System.
Context {H K C : Type} `{GeBusLaws H} `{GeTime H} `{!GeLaunch H} `{!GeTimeLaws H} `{GePower H} `{!GePowerLaws H} `{DmaKernel K} `{!Ion K} `{MesonCanvas C}.
Implicit Types s : ge2d_s H K C.

(** Enough turns for the loops of the monitor. *)
Definition patient (fn wn : nat) : Prop := (engine_bound < fn)%nat /\ (engine_bound < wn)%nat.

(** One call on a file, or one piece of the monitor, which may come in any order: the
    phase of the monitor, the contexts whose closing waits for it, and the state.  A
    context that is served is closed in two parts; the second is behind the service. *)
Inductive ge2d_step : relation (phase * gset Z * ge2d_s H K C) :=
| step_ioctl ph cl sec tmp wq c s r reply it s' :
    is_Some (contexts s !! wq) -> wq ∉ cl -> ge2d_ioctl sec tmp wq c s = Some (r, reply, it, s') -> sound_call (ge2d_meson_dev s) c r ->
    ge2d_step (ph, cl, s) (ph, cl, s')
| step_open ph cl n s wq w n' s' :
    ge2d_open n s = Some ((0, Some wq, n'), s') -> contexts s' !! wq = Some w -> fresh_context s wq w -> ge2d_step (ph, cl, s) (ph, cl, s')
| step_close ph cl n s wq r s' :
    is_Some (contexts s !! wq) -> wq ∉ cl -> ~ serves ph wq -> ge2d_release (Some wq) n s = Some (r, s') -> ge2d_step (ph, cl, s) (ph, cl, s')
| step_closing ph cl s wq it s' :
    ph = Serving wq it -> is_Some (contexts s !! wq) -> wq ∉ cl -> destroy_begin wq s = Some (true, s') -> ge2d_step (ph, cl, s) (ph, {[wq]} ∪ cl, s')
| step_closed ph cl s wq r s' :
    wq ∈ cl -> ~ serves ph wq -> (_ ← destroy_waited; destroy_finish wq) s = Some (r, s') -> ge2d_step (ph, cl, s) (ph, cl ∖ {[wq]}, s')
| step_monitor fn wn ph cl s ph' s' :
    patient fn wn -> (forall wq it x, ph = Serving wq it -> items s !! it = Some x -> item_ok (ge2d_meson_dev s) x) ->
    monitor_step fn wn ph s = Some (ph', s') -> ge2d_step (ph, cl, s) (ph', cl, s').

(** The state that a successful [ge2d_wq_init] leaves, before any file is open. *)
Definition ge2d_started s : Prop := exists clk irq thread s0,
  ge2d_wq_init clk irq true thread s0 = Some (0, s) /\ contexts s0 = ∅ /\ ge2d_state s0 = GE2D_STATE_IDLE /\ device_ok (ge2d_meson_dev s0) /\ ready (io s0).
(** What the system reaches from there. *)
Definition ge2d_reaches (ph : phase) (cl : gset Z) s : Prop := exists s0, ge2d_started s0 /\ rtc ge2d_step (Asleep, ∅, s0) (ph, cl, s).

Lemma started_inv s : ge2d_started s -> inv Asleep ∅ s.
Proof.
  intros (clk & irq & thread & s0 & E & Hc & Hi & Hd & Hr). unfold ge2d_wq_init in E. rewrite run_modify in E. destruct (irq <? 0); [by inversion E|]. rewrite run_modify in E.
  bind_inv E as u s1 E1. apply on_dma_inv in E1. cbn [negb] in E. rewrite run_modify in E. destruct (c_true thread); [by inversion E|]. rewrite run_modify in E. apply ret1_inv in E as [_ <-].
  assert (Ed : exists d, s1 = s0<| ge2d_clk := clk |><| irq_num := irq |><| cmd_in_sem := 1 |><| process_complete := 0 |><| process_queue := [] |><| last_wq := None |><| dma := d |>)
    by (by eexists). destruct Ed as [d ->]. clear E1.
  set (s := _<| probe := 1 |>). assert (Ec : contexts s = ∅) by (rewrite <- Hc; by destruct s0). assert (Ep : process_queue s = []) by (by destruct s0). assert (Es : cmd_in_sem s = 1) by (by destruct s0).
  split.
  - exists None. split; try (by destruct s0).
    + replace (last_wq s) with (@None Z) by (by destruct s0). by intros _ [? ?].
    + intros wq. rewrite Ep, Ec, lookup_empty. split; [intros Ha; by apply not_elem_of_nil in Ha|by intros [[? ?] ?]].
    + rewrite Ep. constructor.
    + intros wq w. by rewrite Ec.
    + intros wq w wq' w' a. by rewrite Ec.
  - split; [by rewrite Es|]. intros _ wq _. by rewrite Es.
Qed.

Lemma monitor_step_inv fn wn ph cl s ph' s' : patient fn wn -> inv ph cl s ->
  (forall wq it x, ph = Serving wq it -> items s !! it = Some x -> item_ok (ge2d_meson_dev s) x) -> monitor_step fn wn ph s = Some (ph', s') -> inv ph' cl s'.
Proof.
  intros [Hfn Hwn] [[b Hok] [Hn Hsig]] Hitem E. destruct ph as [| |wq it].
  - destruct (Z.ltb_spec 0 (cmd_in_sem s)) as [Hsem|Hsem].
    2:{ exfalso. cbn [monitor_step] in E. rewrite run_gets in E. by replace (0 <? cmd_in_sem s) with false in E by (symmetry; apply Z.ltb_ge; lia). }
    destruct (wake_runs fn wn cl s b Hok Hsem) as (s1 & E1 & Hok1 & Es & _). rewrite E1 in E. inversion E; subst. split; [by exists b|]. split; [|done].
    assert (Em : cmd_in_sem s' = cmd_in_sem s - 1) by (rewrite Es; by destruct s). lia.
  - destruct (backlog s) as [|a l] eqn:Eb.
    + destruct (sleep_runs fn wn cl s b Hok Eb) as (s1 & E1 & Hok1 & Es & _). rewrite E1 in E. inversion E; subst. split; [by exists b|].
      assert (Em : cmd_in_sem s' = cmd_in_sem s) by (rewrite Es; by destruct s). split; [by rewrite Em|]. intros _ wq Hwq. unfold has_work in Hwq.
      replace (contexts s') with (contexts s) in Hwq by (rewrite Es; by destruct s). pose proof (no_backlog Awake cl I s b wq Hok Eb) as Hno. unfold has_work in Hno. by rewrite Hno in Hwq.
    + destruct (pick_runs fn wn cl s b a l Hok Eb) as (it & s1 & x & f & E1 & Hok1 & _ & Es). rewrite E1 in E. inversion E; subst ph' s'. split; [by exists b|]. split; [|done]. rewrite Es. by destruct s.
  - destruct (ok_serving _ _ _ _ Hok wq it eq_refl) as [_ (w & rest & x & _ & _ & Hx & _)].
    destruct (item_runs fn wn cl s b wq it x Hfn Hwn Hok Hx (Hitem wq it x eq_refl Hx)) as (s1 & b1 & w1 & rest1 & y & sn & E1 & Hok1 & _ & _ & _ & _ & _ & _ & _ & Em & _).
    rewrite E1 in E. inversion E; subst. split; [by exists b1|]. split; [by rewrite Em|]. by destruct rest1.
Qed.

Lemma step_inv ph cl s ph' cl' s' : ge2d_step (ph, cl, s) (ph', cl', s') -> inv ph cl s -> inv ph' cl' s'.
Proof.
  intros Hstep Hi. inversion Hstep; subst.
  - by eapply ioctl_ok.
  - destruct Hi as [[b Hok] Hsig]. destruct (open_ok _ _ n s b wq n' s' Hok) as (w1 & Cx & Em & Hq & Hok'); [done|].
    match goal with Hw : contexts s' !! wq = Some _ |- _ => rewrite Cx, lookup_insert_eq in Hw; inversion Hw; subst w1 end.
    split; [exists b; by apply Hok'|]. revert Hsig. apply signalled_less; [done|]. intros wq1. unfold has_work. rewrite Cx. destruct (decide (wq1 = wq)) as [->|Hne].
    + by rewrite lookup_insert_eq, Hq.
    + by rewrite lookup_insert_ne.
  - destruct Hi as [[b Hok] Hsig]. match goal with Hs : is_Some (contexts s !! wq) |- _ => destruct Hs as [w Hw] end.
    destruct (ge2d_release_runs _ _ n s b wq w Hok Hw) as (s1 & E1 & Hok1 & Cx & _ & _ & Em & _); [done|done|].
    match goal with E : ge2d_release _ _ _ = Some (r, s') |- _ => rewrite E1 in E; inversion E; subst end. split; [by exists b|].
    revert Hsig. apply signalled_less; [done|]. intros wq1. unfold has_work. rewrite Cx. destruct (decide (wq1 = wq)) as [->|Hne]; [by rewrite lookup_delete_eq|by rewrite lookup_delete_ne].
  - destruct Hi as [[b Hok] Hsig]. match goal with Hs : is_Some (contexts s !! wq) |- _ => destruct Hs as [w Hw] end.
    destruct (closing_runs _ _ s b wq it w Hok Hw eq_refl) as (s1 & E1 & Hok1 & Es); [done|].
    match goal with E : destroy_begin _ _ = Some (true, s') |- _ => rewrite E1 in E; inversion E; subst end. split; [by exists b|]. split; [|done]. destruct Hsig as [Hn _]. by destruct s.
  - destruct Hi as [[b Hok] Hsig]. match goal with Hin : wq ∈ cl |- _ => destruct (ok_closing _ _ _ _ Hok wq Hin) as (w & Hw & _) end.
    destruct (closed_runs _ _ s b wq w Hok Hw) as (s1 & E1 & Hok1 & Cx & _ & _ & Em & _); [done|done|].
    match goal with E : _ s = Some (r, s') |- _ => rewrite E1 in E; inversion E; subst end. split; [done|].
    revert Hsig. apply signalled_less; [done|]. intros wq1. unfold has_work. rewrite Cx. destruct (decide (wq1 = wq)) as [->|Hne]; [by rewrite lookup_delete_eq|by rewrite lookup_delete_ne].
  - by eapply monitor_step_inv.
Qed.
Lemma reachable_inv ph cl s : ge2d_reaches ph cl s -> inv ph cl s.
Proof.
  intros (s0 & Hs & Hr). apply started_inv in Hs. remember (Asleep, ∅, s0) as x eqn:Ex. remember (ph, cl, s) as y eqn:Ey. revert ph cl s Ey.
  assert (Hx : inv x.1.1 x.1.2 x.2) by (by rewrite Ex). clear Ex Hs. induction Hr as [x|x [[ph1 cl1] s1] y Hstep _ IH]; intros ph cl s ->; [done|].
  apply IH; [|done]. destruct x as [[ph0 cl0] s00]. by apply (step_inv ph0 cl0 s00).
Qed.

(** *** The order of service *)

Lemma choice_spec ph cl s b0 s' a b pre post : ge2d_ok ph cl s b0 -> get_next_work_queue s = Some (a, s') -> has_work s b = true -> process_queue s = pre ++ b :: post ->
  (a = Some b /\ (forall x, x ∈ pre -> has_work s x = false) /\ process_queue s' = post ++ pre ++ [b]) \/
  exists before c pre', a = Some c /\ pre = before ++ c :: pre' /\ c ∉ pre' /\ has_work s c = true /\ (forall x, x ∈ before -> has_work s x = false) /\
    process_queue s' = pre' ++ b :: post ++ before ++ [c].
Proof.
  intros Hok E Hb Hq. rewrite (next_runs ph cl s b0 Hok) in E. destruct (backlog s) as [|c l] eqn:Eb.
  { exfalso. assert (Hin : In b (backlog s)) by (apply filter_In; split; [rewrite Hq; apply in_elt|done]). by rewrite Eb in Hin. }
  inversion E; subst a s'. clear E. change (process_queue (_ <| process_queue := ?q |>)) with q. pose proof (ok_once _ _ _ _ Hok) as Hn. unfold backlog in Eb. rewrite Hq in Eb, Hn |- *.
  apply (first_ahead _ pre b post c l Hb) in Eb as [[-> Hp]|(before & pre' & -> & Hc & Hp)].
  - left. split; [done|]. split; [done|]. apply NoDup_app in Hn as (_ & Hd & _). apply rotate_at. intros Hx. apply (Hd b Hx). by left.
  - right. exists before, c, pre'. rewrite <- app_assoc in Hn |- *. cbn [app] in Hn |- *. apply NoDup_app in Hn as (_ & Hd & Hn). apply NoDup_cons in Hn as [Hcp _].
    split_and!; [done|done|by intros ?; apply Hcp, elem_of_app; left|done|done|]. rewrite rotate_at by (intros Hx; apply (Hd c Hx); by left). by rewrite <- app_assoc.
Qed.

(** The context that a step of the monitor takes. *)
Definition picked (ph ph' : phase) : list Z := match ph, ph' with Awake, Serving c _ => [c] | _, _ => [] end.
(** A run of the system during which [b] is open and has work, and the contexts that the
    monitor takes in it. *)
Inductive run_with (b : Z) : phase * gset Z * ge2d_s H K C -> list Z -> phase * gset Z * ge2d_s H K C -> Prop :=
| run_stop x : run_with b x [] x
| run_step ph cl s ph' cl' s' l y :
    has_work s b = true -> b ∉ cl -> ge2d_step (ph, cl, s) (ph', cl', s') -> run_with b (ph', cl', s') l y -> run_with b (ph, cl, s) (picked ph ph' ++ l) y.

(** What a step does to the list. *)
Lemma step_queue ph cl s ph' cl' s' : ge2d_step (ph, cl, s) (ph', cl', s') -> inv ph cl s ->
  (exists c, picked ph ph' = [c] /\ exists s1, get_next_work_queue s = Some (Some c, s1) /\ process_queue s' = process_queue s1) \/
  picked ph ph' = [] /\ (process_queue s' = process_queue s \/ (exists wq, process_queue s' = process_queue s ++ [wq]) \/
    exists wq, process_queue s' = list_del wq (process_queue s) /\ (contexts s' !! wq = None \/ wq ∈ cl')).
Proof.
  intros Hstep Hi. assert (Hnone : forall p : phase, picked p p = []) by (by intros []). inversion Hstep; subst; [right; split; [done|]..|].
  - left. by eapply ioctl_queue.
  - right. left. exists wq. by eapply open_queue.
  - right. right. exists wq. split; [by eapply release_queue|]. left. destruct Hi as [[b0 Hok] _].
    match goal with Hs : is_Some _ |- _ => destruct Hs as [w Hw] end. destruct (ge2d_release_runs _ _ n s b0 wq w Hok Hw) as (s1 & E1 & _ & Cx & _); [done|done|].
    match goal with E : ge2d_release _ _ _ = Some (r, s') |- _ => rewrite E1 in E; inversion E; subst end. rewrite Cx. apply lookup_delete_eq.
  - right. right. exists wq. split; [by eapply destroy_begin_queue|]. right. set_solver.
  - left. by eapply closed_queue.
  - destruct Hi as [[b0 Hok] _]. match goal with E : monitor_step _ _ _ _ = _ |- _ => rename E into E0 end. match goal with Hp : patient _ _ |- _ => destruct Hp as [Hfn Hwn] end. destruct ph as [| |wq it].
    + right. cbn [picked]. split; [done|]. left. revert E0. apply quiet_at. apply wake_quiet.
    + destruct (backlog s) as [|a l] eqn:Eb.
      * destruct (sleep_runs fn wn cl' s b0 Hok Eb) as (s1 & E1 & _ & Es & _). rewrite E1 in E0. inversion E0; subst ph' s'. right. split; [done|]. left. rewrite Es. by destruct s.
      * destruct (pick_runs fn wn cl' s b0 a l Hok Eb) as (it & s1 & x & f & E1 & _ & _ & Es). rewrite E1 in E0. inversion E0; subst ph' s'. left. exists a. split; [done|].
        rewrite (next_runs Awake cl' s b0 Hok), Eb. eexists. split; [done|]. rewrite Es. by destruct s.
    + right. split; [done|]. left. destruct (ok_serving _ _ _ _ Hok wq it eq_refl) as [_ (w0 & rest0 & x & _ & _ & Hx & _)].
      match goal with Hitem : forall _ _ _, _ -> _ -> item_ok _ _ |- _ => destruct (item_runs fn wn cl' s b0 wq it x Hfn Hwn Hok Hx (Hitem wq it x eq_refl Hx)) as (s1 & b1 & w & rest & y & sn & E1 & Hend) end.
      rewrite E1 in E0. inversion E0; subst ph' s'. by apply Hend.
Qed.
Lemma list_del_app a l l' : list_del a (l ++ l') = list_del a l ++ list_del a l'.
Proof. apply filter_app. Qed.
Lemma run_with_ahead b ph cl s l y pre post : inv ph cl s -> run_with b (ph, cl, s) l y -> process_queue s = pre ++ b :: post -> b ∉ l -> NoDup l /\ l ⊆ pre.
Proof.
  intros Hi Hrun. remember (ph, cl, s) as x eqn:Ex. revert ph cl s Hi pre post Ex. induction Hrun as [x|ph0 cl0 s0 ph1 cl1 s1 l y Hb Hcl Hstep Hrun IH]; intros ph cl s Hi pre post Ex Hq Hbl; [split; [constructor|set_solver]|].
  inversion Ex; subst ph0 cl0 s0. clear Ex. apply not_elem_of_app in Hbl as [Hbp Hbl]. pose proof (step_inv _ _ _ _ _ _ Hstep Hi) as Hi1.
  destruct (step_queue _ _ _ _ _ _ Hstep Hi) as [(c & Ep & s2 & En & Eq)|[Ep Hcase]].
  - rewrite Ep in Hbp |- *. destruct Hi as [[b0 Hok] _]. destruct (choice_spec ph cl s b0 _ _ b pre post Hok En Hb Hq) as [[[= ->] _]|(before & c' & pre' & [= <-] & -> & Hc & _ & _ & Eq2)]; [set_solver|].
    destruct (IH _ _ _ Hi1 pre' (post ++ before ++ [c]) eq_refl) as [Hn Hsub]; [congruence|done|]. split; [|set_solver]. apply NoDup_cons. split; [set_solver|done].
  - rewrite Ep. cbn [app]. destruct Hcase as [Eq|[(wq & Eq)|(wq & Eq & Hgone)]].
    + by apply (IH _ _ _ Hi1 pre post eq_refl); [congruence|].
    + apply (IH _ _ _ Hi1 pre (post ++ [wq]) eq_refl); [|done]. rewrite Eq, Hq. by rewrite <- app_assoc.
    + destruct (decide (wq = b)) as [->|Hne].
      * inversion Hrun as [|? ? ? ? ? ? ? ? Hb1 Hcl1]; subst; [split; [constructor|set_solver]|]. exfalso. destruct Hgone as [Hg|Hg]; [|done]. unfold has_work in Hb1. by rewrite Hg in Hb1.
      * assert (Eq2 : process_queue s1 = list_del wq pre ++ b :: list_del wq post).
        { rewrite Eq, Hq, list_del_app. f_equal. unfold list_del. by rewrite filter_cons_True. }
        destruct (IH _ _ _ Hi1 _ _ eq_refl Eq2 Hbl) as [Hn Hsub]. split; [done|]. intros x Hx. apply Hsub in Hx. by apply elem_list_del in Hx as [_ Hx].
Qed.

(** ** What callers rely on *)




(** C12. The items of a context are on one of its two lists, each once and all 32 of them; no
    two contexts share one, and the monitor's list has each open context once, but for
    those whose closing has begun. *)
Theorem ge2d_items_conserved ph cl s wq w : ge2d_reaches ph cl s -> contexts s !! wq = Some w ->
  length (work_queue w ++ free_queue w) = MAX_GE2D_CMD /\ NoDup (work_queue w ++ free_queue w) /\
  (forall a, a ∈ work_queue w ++ free_queue w -> is_Some (items s !! a) /\
     forall wq' w', wq' <> wq -> contexts s !! wq' = Some w' -> a ∉ work_queue w' ++ free_queue w') /\
  NoDup (process_queue s) /\ (forall wq', wq' ∈ process_queue s <-> is_Some (contexts s !! wq') /\ wq' ∉ cl).
Proof.
  intros Hr Hw. destruct (reachable_inv _ _ _ Hr) as [[b Hok] _]. destruct (ok_ctx _ _ _ _ Hok wq w Hw) as [_ Hl Hn Hi _]. split; [done|]. split; [done|]. split; [|split; apply Hok].
  intros a Ha. split; [by apply Hi|]. intros wq' w' Hne Hw'. by apply (ok_apart _ _ _ _ Hok wq w wq' w').
Qed.

(** C13. Work is added behind what waits in its context, wherever the monitor is, with the
    command and configuration as they stand, the other contexts keep theirs, and the
    monitor is woken; a context with 32 commands refuses it and stays as it is. *)
Theorem ge2d_add_work_spec ph cl s wq w : ge2d_reaches ph cl s -> contexts s !! wq = Some w -> wq ∉ cl ->
  match free_queue w with
  | [] => ge2d_wq_add_work wq s = Some ((-1, None), s) /\ length (work_queue w) = MAX_GE2D_CMD
  | it :: _ => exists s', ge2d_wq_add_work wq s = Some ((0, if c_true (wait_done_flag (cmd w)) then Some it else None), s') /\
      waiting s' wq = waiting s wq ++ [mk_item (cmd w) (config w)] /\ (forall wq', wq' <> wq -> waiting s' wq' = waiting s wq') /\ 0 < cmd_in_sem s'
  end.
Proof.
  intros Hr Hw Hcl. destruct (reachable_inv _ _ _ Hr) as [[b Hok] [Hsem _]]. pose proof (add_work_runs ph cl s b wq w Hok Hw Hcl Hsem) as Hrun.
  destruct (ok_ctx _ _ _ _ Hok wq w Hw) as [_ Hl _ _ _]. unfold own in Hl. destruct (free_queue w) as [|it fr].
  - split; [done|]. by rewrite app_nil_r in Hl.
  - destruct Hrun as (s' & E & _ & _ & W1 & W2 & Hsig & _). by exists s'.
Qed.

(** C14. Closing a file whose context is not being served frees the 32 items of the context
    and no others, and leaves the other contexts and the engine alone; so does the second
    part of a closing that began while it was. *)
Theorem ge2d_release_frees ph cl s wq w n : ge2d_reaches ph cl s -> contexts s !! wq = Some w -> ~ serves ph wq ->
  exists s', (if decide (wq ∈ cl) then (_ ← destroy_waited; destroy_finish wq) s = Some (0, s') else ge2d_release (Some wq) n s = Some ((0, s32 (n - 1)), s')) /\
    contexts s' = delete wq (contexts s) /\
    (forall a, items s' !! a = if decide (a ∈ work_queue w ++ free_queue w) then None else items s !! a) /\ io s' = io s.
Proof.
  intros Hr Hw Hph. destruct (reachable_inv _ _ _ Hr) as [[b Hok] _]. destruct (decide (wq ∈ cl)) as [Hcl|Hcl].
  - destruct (closed_runs ph cl s b wq w Hok Hw Hph Hcl) as (s' & E & _ & Cx & Gone & Kept & _ & Eio).
    exists s'. split; [done|]. split; [done|]. split; [|done]. intros a. destruct (decide _) as [Hin|Hout]; [by apply Gone|by apply Kept].
  - destruct (ge2d_release_runs ph cl n s b wq w Hok Hw Hph Hcl) as (s' & E & _ & Cx & Gone & Kept & _ & Eio).
    exists s'. split; [done|]. split; [done|]. split; [|done]. intros a. destruct (decide _) as [Hin|Hout]; [by apply Gone|by apply Kept].
Qed.

(** C16. While [b] has work, the monitor takes the first context with work: [b], or one
    ahead of it, which goes to the end of the list with those it passed over.  So no
    context is taken twice before [b], whatever calls come in between, and none that was
    not ahead of it. *)
Theorem ge2d_monitor_fair ph cl s b pre post : ge2d_reaches ph cl s -> process_queue s = pre ++ b :: post ->
  (forall a s', has_work s b = true -> get_next_work_queue s = Some (a, s') ->
     (a = Some b /\ (forall x, x ∈ pre -> has_work s x = false) /\ process_queue s' = post ++ pre ++ [b]) \/
     exists before c pre', a = Some c /\ pre = before ++ c :: pre' /\ c ∉ pre' /\ has_work s c = true /\ (forall x, x ∈ before -> has_work s x = false) /\
       process_queue s' = pre' ++ b :: post ++ before ++ [c]) /\
  forall l y, run_with b (ph, cl, s) l y -> b ∉ l -> NoDup l /\ l ⊆ pre.
Proof.
  intros Hr Hq. pose proof (reachable_inv _ _ _ Hr) as Hi. split; [|intros l y Hrun Hb; by eapply run_with_ahead].
  intros a s' Hb E. destruct Hi as [[b0 Hok] _]. by eapply (choice_spec ph cl s b0).
Qed.

(** C17. An operation on a context with 32 commands waiting is dropped: its result is that of
    an accepted one that does not wait, and no context has a command more. *)
Theorem ge2d_full_queue_drops ph cl s wq w sec tmp o p uncopied : ge2d_reaches ph cl s -> contexts s !! wq = Some w ->
  length (work_queue w) = MAX_GE2D_CMD ->
  exists s', ge2d_ioctl sec tmp wq (GE2D_OP o p uncopied) s = Some ((uncopied, NoReply, None), s') /\ forall wq', waiting s' wq' = waiting s wq'.
Proof.
  intros Hr Hw Hfull. destruct (reachable_inv _ _ _ Hr) as [[b Hok] _]. destruct (ok_ctx _ _ _ _ Hok wq w Hw) as [_ Hl _ _ _]. unfold own in Hl. rewrite length_app in Hl.
  assert (Hf : free_queue w = []) by (apply nil_length_inv; lia). destruct (full_op_runs wq o p s w Hw Hf) as (h & Hk & E). destruct (Hk w) as (Hq & _).
  set (s' := s<| contexts := <[wq := h w]> (contexts s) |>) in *. exists s'. split.
  - unfold ge2d_ioctl. cbv zeta. rewrite andb_false_r. by rewrite (run_bind _ _ _ _ _ E).
  - intros wq'. unfold waiting. change (contexts s') with (<[wq := h w]> (contexts s)). change (items s') with (items s).
    destruct (decide (wq' = wq)) as [->|Hne]; [by rewrite lookup_insert_eq, Hq, Hw|by rewrite lookup_insert_ne].
Qed.
End System.

(** ** A machine

    An engine that does one command at a time, a kernel that counts addresses up. *)

Module Machine.
Record machine := mk_machine { m_regs : gmap Z Z; m_coef : list (Z * Z); m_log : list snapshot; m_busy : bool }.
Definition m_read (r : Z) (h : machine) : Z := if r =? GE2D_STATUS0 then (if m_busy h then 1 else 0) else default 0 (m_regs h !! r).
Definition m_write (r v : Z) (h : machine) : machine :=
  mk_machine (<[r := u32 v]> (m_regs h)) (if coef_port r then m_coef h ++ [(r, v)] else m_coef h)
    (if r =? GE2D_CMD_CTRL then m_log h ++ [Snap (fun r => m_read r h) (m_coef h)] else m_log h) ((r =? GE2D_CMD_CTRL) || m_busy h).
Definition m_rest (h : machine) : machine := mk_machine (m_regs h) (m_coef h) (m_log h) false.
#[local] Instance machine_bus : GeBus machine := {| bus_read := m_read; bus_write := m_write; coef_writes := m_coef; ioremap_ok := true; get_cpu_type := 0x25 |}.
#[local] Instance machine_laws : GeBusLaws machine.
Proof.
  split; [|done]. intros h r v r' Hv. cbn. unfold m_read. replace (r' =? GE2D_STATUS0) with false by (symmetry; unfold volatile in Hv; b2p; bsolve). cbn.
  destruct (Z.eqb_spec r r') as [->|Hne]; [by rewrite lookup_insert_eq|by rewrite lookup_insert_ne].
Qed.
#[local] Instance machine_time : GeTime machine := {| tick := m_rest; wait_cmd h := (1, m_rest h) |}.
Lemma log_write h r v : m_log (m_write r v h) = if r =? GE2D_CMD_CTRL then m_log h ++ [snap h] else m_log h.
Proof. unfold m_write. cbn [m_log]. by destruct (r =? GE2D_CMD_CTRL). Qed.
#[local] Instance machine_launch : GeLaunch machine := {| launched := m_log; launched_write := log_write |}.
Lemma rest_same h : same_engine h (m_rest h).
Proof.
  split; [split; [|done]|done]. intros r Hv. cbn. unfold m_read. replace (r =? GE2D_STATUS0) with false by (symmetry; unfold volatile in Hv; b2p; bsolve). done.
Qed.
Definition m_pending (h : machine) : nat := if m_busy h then 1%nat else 0%nat.
#[local] Instance machine_time_laws : GeTimeLaws machine.
Proof.
  refine (Build_GeTimeLaws machine _ _ _ m_pending 1%nat _ rest_same rest_same _ _); intros h; unfold m_pending; cbn; unfold m_read; cbn; destruct (m_busy h); done || lia.
Defined.
#[local] Instance machine_power : GePower machine :=
  {| clk_prepare_enable h := h; clk_disable_unprepare h := h; ge2d_set_pwr_tbl_bits _ _ _ _ _ h := h; poweron_table := []; poweroff_table := [] |}.
#[local] Instance machine_power_laws : GePowerLaws machine.
Proof. by split. Qed.
#[local] Existing Instance counting_kernel.
#[local] Instance machine_ion : Ion Z := {| meson_ion_share_fd_to_phys := None |}.
#[local] Instance machine_canvas : MesonCanvas unit :=
  {| meson_canvas_alloc_spec _ _ := (0, tt); meson_canvas_free _ _ := tt; meson_canvas_config _ _ _ _ _ _ _ _ := tt |}.

Definition after {A} (o : option (A * ge2d_s machine Z unit)) (s : ge2d_s machine Z unit) : ge2d_s machine Z unit := match o with Some (_, s') => s' | None => s end.
(** Before the driver starts, after that, with an open file, configured, and with two
    operations that wait. *)
Definition off : ge2d_s machine Z unit :=
  mk_ge2d [] None None 0 GE2D_STATE_IDLE 0 0 0 0 false false ge2d_axg ∅ ∅ ∅ (mk_io true true 0 0 (mk_machine ∅ [] [] false)) (mk_dma ∅ None ∅ 1000) (mk_canvas_device_info [] tt).
Definition s0 := Eval vm_compute in after (ge2d_wq_init true 5 true 0 off) off.
Definition s1 := Eval vm_compute in after (ge2d_open 0 s0) s0.
Definition w0 : Z := 1000.
Definition square (n : Z) : ge2d_para_s := mk_ge2d_para 0xff (mk_rect 0 0 n n) (mk_rect 0 0 n n) (mk_rect 8 8 n n) 0.
Definition pl (a : Z) : list config_planes_s := [mk_planes a 64 64 0; mk_planes 0 0 0 0; mk_planes 0 0 0 0; mk_planes 0 0 0 0].
Definition request : config_para_s := mk_config_para ALLOC_ALLOC 0 GE2D_BPP_32BIT GE2D_BPP_32BIT (pl 0x10000) (pl 0x20000) (mk_key 0 0 0 0).
Definition call (c : ge2d_cmd) (s : ge2d_s machine Z unit) := after (ge2d_ioctl false zero_src_dst w0 c s) s.
Definition s2 := Eval vm_compute in call (GE2D_CONFIG request 0) s1.
Definition s3 := Eval vm_compute in call (GE2D_OP GE2D_STRETCHBLIT (square 16) 0) s2.
Definition s4 := Eval vm_compute in call (GE2D_OP GE2D_BLIT_NOBLOCK (square 4) 0) s3.
Definition ctx (s : ge2d_s machine Z unit) : ge2d_context_s := default zero_context (contexts s !! w0).

Lemma started : ge2d_started s0.
Proof. exists true, 5, 0, off. split_and!; [by vm_compute|done|done| |done]. split; [vm_compute; by intros [? ?]|done]. Qed.
Notation system := (phase * gset Z * ge2d_s machine Z unit)%type.
Definition asleep (s : ge2d_s machine Z unit) : system := (Asleep, ∅, s).
Lemma opened : ge2d_step (asleep s0) (asleep s1).
Proof.
  apply (step_open Asleep ∅ 0 s0 w0 (ctx s1) 1); [by vm_compute|by vm_compute|]. split; [by vm_compute|]. split; [done|]. split.
  - apply (bool_decide_unpack _). by vm_compute.
  - intros a _. exact (lookup_empty a).
Qed.
Lemma called ph c s s' r reply it : ge2d_ioctl false zero_src_dst w0 c s = Some (r, reply, it, s') -> is_Some (contexts s !! w0) -> sound_call (ge2d_meson_dev s) c r ->
  ge2d_step (ph, ∅, s) (ph, ∅, s').
Proof. intros E Hs Hc. by eapply step_ioctl. Qed.
Lemma reached4 : rtc ge2d_step (asleep s0) (asleep s4).
Proof.
  eapply rtc_l; [exact opened|]. eapply rtc_l; [eapply (called Asleep (GE2D_CONFIG request 0) s1 s2 0 NoReply None); [by vm_compute|by eexists|done]|].
  eapply rtc_l; [eapply (called Asleep (GE2D_OP GE2D_STRETCHBLIT (square 16) 0) s2 s3 0 NoReply (Some 1001)); [by vm_compute|by eexists|done]|].
  eapply rtc_l; [eapply (called Asleep (GE2D_OP GE2D_BLIT_NOBLOCK (square 4) 0) s3 s4 0 NoReply None); [by vm_compute|by eexists|done]|]. apply rtc_refl.
Qed.
Lemma reached : ge2d_reaches Asleep ∅ s4.
Proof. exists s0. split; [exact started|exact reached4]. Qed.
Lemma patient2 : patient 2 2.
Proof. unfold patient. cbn. lia. Qed.

(** Whether an item can run. *)
Definition runs (d : ge2d_device_data_s) (x : ge2d_queue_item_s) : bool :=
  match cmd_regs d (gaul_of (i_config x)) 0 0 ((i_cmd x)<| hang_flag := 1 |>) with Some _ => true | None => false end
  && forallb (fun l => (length l =? MAX_PLANE)%nat && forallb (fun d => dma_used d =? 0) l) [src_dma_cfg (i_config x); src2_dma_cfg (i_config x); dst_dma_cfg (i_config x)].
Lemma runs_ok d x : runs d x = true -> item_ok d x.
Proof.
  unfold runs. intros H1. apply andb_prop in H1 as [Hk Hd]. split.
  - unfold cmd_ok. destruct (cmd_regs _ _ _ _ _); [by eexists|done].
  - rewrite forallb_forall in Hd. intros l Hl. specialize (Hd l). assert (Hin : In l [src_dma_cfg (i_config x); src2_dma_cfg (i_config x); dst_dma_cfg (i_config x)]) by (destruct Hl as [->|[->| ->]]; [by left|by right; left|by do 2 right; left]).
    specialize (Hd Hin). apply andb_prop in Hd as [Hlen Hd]. split; [by apply Nat.eqb_eq|]. apply List.Forall_forall. intros e Hin'. rewrite forallb_forall in Hd. by apply Z.eqb_eq, Hd.
Qed.

(** The monitor wakes, takes the context, and a third operation is added before the
    first has run. *)
Definition blit : ge2d_cmd := GE2D_OP GE2D_BLIT_NOBLOCK (square 4) 0.
Definition awake := Eval vm_compute in after (monitor_step 2 2 Asleep s4) s4.
Definition taken := Eval vm_compute in after (monitor_step 2 2 Awake awake) awake.
Definition added := Eval vm_compute in call blit taken.
(** The file is closed, which has to wait for the two commands after this one. *)
Definition closing := Eval vm_compute in after (destroy_begin w0 added) added.
Definition serve (it : Z) (s : ge2d_s machine Z unit) := after (monitor_step 2 2 (Serving w0 it) s) s.
Definition served1 := Eval vm_compute in serve 1001 closing.
Definition served2 := Eval vm_compute in serve 1002 served1.
Definition served3 := Eval vm_compute in serve 1003 served2.
Lemma item_step cl it ph' s s' : monitor_step 2 2 (Serving w0 it) s = Some (ph', s') -> match items s !! it with Some x => runs (ge2d_meson_dev s) x | None => false end = true ->
  ge2d_step (Serving w0 it, cl, s) (ph', cl, s').
Proof. intros E Hr. eapply step_monitor; [exact patient2| |exact E]. intros wq1 it1 x [= <- <-] Hx. rewrite Hx in Hr. by apply runs_ok. Qed.
Lemma reached_added : ge2d_reaches (Serving w0 1001) ∅ added.
Proof.
  exists s0. split; [exact started|]. eapply rtc_r; [eapply rtc_r; [eapply rtc_r; [exact reached4|]|]|].
  - eapply step_monitor; [exact patient2|done|]. instantiate (1 := awake). instantiate (1 := Awake). by vm_compute.
  - eapply step_monitor; [exact patient2|done|]. instantiate (1 := taken). instantiate (1 := Serving w0 1001). by vm_compute.
  - eapply (called _ blit taken added 0 NoReply None); [by vm_compute|by eexists|done].
Qed.
Lemma reached_served3 : ge2d_reaches Awake {[w0]} served3.
Proof.
  destruct reached_added as (s & Hs & Hr). exists s. split; [done|]. eapply rtc_r; [eapply rtc_r; [eapply rtc_r; [eapply rtc_r; [exact Hr|]|]|]|].
  - eapply (step_closing _ _ added w0 1001 closing); [done|by eexists|set_solver|by vm_compute].
  - rewrite (right_id_L ∅ (∪)). eapply (item_step _ 1001 (Serving w0 1002) closing served1); by vm_compute.
  - eapply (item_step _ 1002 (Serving w0 1003) served1 served2); by vm_compute.
  - eapply (item_step _ 1003 Awake served2 served3); by vm_compute.
Qed.

Lemma ge2d_items_conserved_witness : length (work_queue (ctx s4) ++ free_queue (ctx s4)) = MAX_GE2D_CMD /\ NoDup (work_queue (ctx s4) ++ free_queue (ctx s4)) /\
  (forall a, a ∈ work_queue (ctx s4) ++ free_queue (ctx s4) -> is_Some (items s4 !! a) /\
     forall wq' w', wq' <> w0 -> contexts s4 !! wq' = Some w' -> a ∉ work_queue w' ++ free_queue w') /\
  NoDup (process_queue s4) /\ (forall wq', wq' ∈ process_queue s4 <-> is_Some (contexts s4 !! wq') /\ wq' ∉ (∅ : gset Z)).
Proof. apply (ge2d_items_conserved Asleep ∅ s4 w0 (ctx s4) reached). by vm_compute. Defined.
Lemma ge2d_add_work_spec_witness : exists s', ge2d_wq_add_work w0 s4 = Some ((0, None), s') /\
  waiting s' w0 = waiting s4 w0 ++ [mk_item (cmd (ctx s4)) (config (ctx s4))] /\ (forall wq', wq' <> w0 -> waiting s' wq' = waiting s4 wq') /\ 0 < cmd_in_sem s'.
Proof. apply (ge2d_add_work_spec Asleep ∅ s4 w0 (ctx s4) reached); [by vm_compute|set_solver]. Defined.
Lemma ge2d_release_frees_witness : exists s', (_ ← destroy_waited; destroy_finish w0) served3 = Some (0, s') /\ contexts s' = delete w0 (contexts served3) /\
  (forall a, items s' !! a = if decide (a ∈ work_queue (ctx served3) ++ free_queue (ctx served3)) then None else items served3 !! a) /\ io s' = io served3.
Proof. apply (ge2d_release_frees Awake {[w0]} served3 w0 (ctx served3) 1 reached_served3); [by vm_compute|by intros []]. Defined.

(** The wait for a context that is served ends after half a second: what it then frees,
    the monitor uses. *)
Lemma freed_while_served : (fst <$> destroy_ge2d_work_queue (Some w0) added) = Some 0 /\
  monitor_step 2 2 (Serving w0 1001) (after (destroy_ge2d_work_queue (Some w0) added) added) = None.
Proof. split; by vm_compute. Qed.
(** One that has been chosen and is not being served yet is freed without a wait. *)
Definition chosen := Eval vm_compute in after ((o ← get_next_work_queue; modify (fun s => s<| current_wq := o |>)) awake) awake.
Lemma freed_while_chosen : current_wq chosen = Some w0 /\ destroy_begin w0 chosen ≫= (fun '(wait, _) => Some wait) = Some false /\
  (fst <$> destroy_ge2d_work_queue (Some w0) chosen) = Some 0 /\ ge2d_process_work_queue 32 2 2 w0 (after (destroy_ge2d_work_queue (Some w0) chosen) chosen) = None.
Proof. split_and!; by vm_compute. Qed.

(** A second file, with work of its own. *)
Definition s5 := Eval vm_compute in after (ge2d_open 1 s4) s4.
Definition w1 : Z := 1033.
Definition ctx1 : ge2d_context_s := Eval vm_compute in default zero_context (contexts s5 !! w1).
Definition s6 := Eval vm_compute in after (ge2d_ioctl false zero_src_dst w1 (GE2D_OP GE2D_BLIT (square 4) 0) s5) s5.
Lemma opened1 : ge2d_step (asleep s4) (asleep s5).
Proof.
  apply (step_open Asleep ∅ 1 s4 w1 ctx1 2); [by vm_compute|by vm_compute|]. split; [by vm_compute|]. split; [done|]. split.
  - apply (bool_decide_unpack _). by vm_compute.
  - apply Forall_forall. apply (bool_decide_unpack _). by vm_compute.
Qed.
Lemma reached6 : ge2d_reaches Asleep ∅ s6.
Proof.
  exists s0. split; [exact started|]. eapply rtc_r; [eapply rtc_r; [exact reached4|exact opened1]|].
  eapply (step_ioctl Asleep ∅ false zero_src_dst w1 (GE2D_OP GE2D_BLIT (square 4) 0) s5 0 NoReply (Some 1034)); [by eexists|set_solver|by vm_compute|done].
Qed.
(** Operations until the queue is full. *)
Definition goes (s : ge2d_s machine Z unit) : bool := match contexts s !! w0, ge2d_ioctl false zero_src_dst w0 blit s with Some _, Some _ => true | _, _ => false end.
Fixpoint fill (n : nat) (s : ge2d_s machine Z unit) : ge2d_s machine Z unit := match n with O => s | S n => fill n (call blit s) end.
Fixpoint fills (n : nat) (s : ge2d_s machine Z unit) : bool := match n with O => true | S n => goes s && fills n (call blit s) end.
Lemma fill_reached n s : fills n s = true -> rtc ge2d_step (asleep s) (asleep (fill n s)).
Proof.
  revert s. induction n as [|n IH]; intros s Hf; cbn [fills fill] in *; [apply rtc_refl|]. apply andb_prop in Hf as [Hg Hf]. eapply rtc_l; [|by apply IH]. unfold goes in Hg. unfold call, after.
  destruct (contexts s !! w0) as [w|] eqn:Hw; [|done]. destruct (ge2d_ioctl false zero_src_dst w0 blit s) as [[[[r reply] it] s']|] eqn:E; [|done].
  eapply (called Asleep blit); [exact E|by exists w|done].
Qed.
Definition full := Eval vm_compute in fill 30 s4.
Lemma reached_full : ge2d_reaches Asleep ∅ full.
Proof. exists s0. split; [exact started|]. transitivity (asleep s4); [exact reached4|]. replace full with (fill 30 s4) by (by vm_compute). apply fill_reached. by vm_compute. Qed.

(** The monitor wakes and takes the first context, which is ahead of the second. *)
Definition awake6 := Eval vm_compute in after (monitor_step 2 2 Asleep s6) s6.
Definition taken6 := Eval vm_compute in after (monitor_step 2 2 Awake awake6) awake6.
Lemma run6 : run_with w1 (Asleep, ∅, s6) [w0] (Serving w0 1001, ∅, taken6).
Proof.
  apply (run_step w1 Asleep ∅ s6 Awake ∅ awake6 [w0]); [by vm_compute|set_solver|eapply step_monitor; [exact patient2|done|by vm_compute]|].
  apply (run_step w1 Awake ∅ awake6 (Serving w0 1001) ∅ taken6 []); [by vm_compute|set_solver|eapply step_monitor; [exact patient2|done|by vm_compute]|apply run_stop].
Qed.
Definition chosen6 := s6<| process_queue := [w1; w0] |>.
Lemma ge2d_monitor_fair_witness : (NoDup [w0] /\ [w0] ⊆ [w0]) /\
  ((Some w0 = Some w1 /\ (forall x, x ∈ [w0] -> has_work s6 x = false) /\ process_queue chosen6 = [] ++ [w0] ++ [w1]) \/
   exists before c pre', Some w0 = Some c /\ [w0] = before ++ c :: pre' /\ c ∉ pre' /\ has_work s6 c = true /\ (forall x, x ∈ before -> has_work s6 x = false) /\
     process_queue chosen6 = pre' ++ w1 :: [] ++ before ++ [c]).
Proof.
  destruct (ge2d_monitor_fair Asleep ∅ s6 w1 [w0] [] reached6 eq_refl) as [Hone Hrun]. split; [apply (Hrun [w0] _ run6); set_solver|].
  apply (Hone (Some w0) chosen6); by vm_compute.
Defined.
Lemma ge2d_full_queue_drops_witness : exists s', ge2d_ioctl false zero_src_dst w0 blit full = Some ((0, NoReply, None), s') /\ forall wq', waiting s' wq' = waiting full wq'.
Proof. apply (ge2d_full_queue_drops Asleep ∅ full w0 (ctx full) false zero_src_dst GE2D_BLIT_NOBLOCK (square 4) 0 reached_full); by vm_compute. Defined.

(** A stretch to a rectangle of no size is accepted; its command divides by zero when
    the monitor starts it. *)
Definition zero_rect := Eval vm_compute in call (GE2D_OP GE2D_STRETCHBLIT_NOBLOCK (square 0) 0) s2.
Lemma zero_rect_undefined : ge2d_ioctl false zero_src_dst w0 (GE2D_OP GE2D_STRETCHBLIT_NOBLOCK (square 0) 0) s2 = Some (0, NoReply, None, zero_rect) /\
  (fun x => cmd_regs ge2d_axg (gaul_of (i_config x)) 0 0 ((i_cmd x)<| hang_flag := 1 |>)) <$> waiting zero_rect w0 = [None].
Proof. split; by vm_compute. Qed.
(** A kernel in which every number is a file of another driver. *)
#[local] Instance file_kernel : DmaKernel Z := {|
  k_alloc k := (Some k, k + 1); k_free _ k := k; dma_alloc_pages _ k := (Some k, k); dma_release_pages _ _ k := (true, k);
  page_high_mem _ := false; phys_to_virt a := a; is_vmalloc_addr _ := false; vmalloc_ok k := (true, k); vmap _ k := (0, k); vunmap _ k := k;
  dma_buf_export _ _ _ k := (None, k); dma_buf_fd _ _ k := (- 1, k); dma_buf_get fd k := (Some fd, k); dma_buf_put _ k := (false, k); dma_buf_priv _ _ := inr tt;
  dma_buf_attach _ k := (Some 7, k); dma_buf_detach _ _ k := k; dma_buf_map_attachment _ _ k := (Some 8, k); dma_buf_unmap_attachment _ _ _ k := k;
  dma_buf_begin_cpu_access _ _ k := (0, k); dma_buf_end_cpu_access _ _ k := k; dma_buf_vmap _ k := (9, k); dma_buf_vunmap _ _ k := k; sg_phys _ _ := 0x30000;
  sg_alloc_ok _ k := (true, k); dma_map_sg _ _ k := (1, k); dma_sync _ _ _ k := k |}.
(** A request with its source and target in such files. *)
Definition file_side : src_dst_para_ex_s := mk_para 0 0 0 64 64 GE2D_BPP_32BIT CANVAS_ALLOC 0 0 0 0 0.
Definition file_planes (fd : Z) : list config_planes_s := [mk_planes 0 64 64 fd; mk_planes 0 0 0 0; mk_planes 0 0 0 0; mk_planes 0 0 0 0].
Definition file_request : config_para_ex_memtype_s :=
  mk_memtype 0 (zero_para_ex<| src_para := file_side |><| src2_para := file_side<| p_mem_type := 5 |> |><| dst_para := file_side |><| src_planes := file_planes 3 |><| dst_planes := file_planes 4 |>)
    AML_GE2D_MEM_DMABUF AML_GE2D_MEM_DMABUF AML_GE2D_MEM_DMABUF zero_matrix.
Definition blit_then_turn : ST (S := ge2d_s machine Z unit) unit := _ ← ge2d_ioctl false zero_src_dst w0 (GE2D_OP GE2D_BLIT_NOBLOCK (square 4) 0); monitor_turn 2 32 2 2.
Definition f1 := Eval vm_compute in after (ge2d_ioctl false zero_src_dst w0 (GE2D_CONFIG_EX_MEM file_request 0) s1) s1.
Definition f2 := Eval vm_compute in after (blit_then_turn f1) f1.
(** The configuration of a file keeps its imported buffers after the command that used
    and gave them back: a second one gives them back again, through memory that is
    freed.  Without the marks of use it runs. *)
Lemma import_given_back_twice :
  (fst <$> ge2d_ioctl false zero_src_dst w0 (GE2D_CONFIG_EX_MEM file_request 0) s1) = Some (0, NoReply, None) /\ base.size (dma_cfgs f1) = 2%nat /\
  (fst <$> blit_then_turn f1) = Some tt /\ dma_cfgs f2 = ∅ /\ blit_then_turn f2 = None /\
  (fst <$> (_ ← on_ctx w0 (on_config reset_dma_used); blit_then_turn) f2) = Some tt.
Proof. split_and!; by vm_compute. Qed.
End Machine.
